(* ===== verification/_CoqProject ===== *)
-Q . S2P
Prelude.v
Rmap.v
Callout.v
KernTime.v
Mbuf.v
Ledger.v
Cksum.v
SlCompress.v
Clist.v
Descrip.v
Proc.v
RunQueue.v
KernSynch.v
KernSig.v
SigPost.v
SigTake.v
KernSleep.v
SockBuf.v
SlLine.v
Ip.v
IpReass.v
IpOutput.v
FfsMap.v
Ffs.v
FfsInode.v
NameCache.v
