(* ===== verification/Prelude.v ===== *)
(** * The core of the 4.3BSD-Reno kernel, modelled and verified

    The repository is the 4.3BSD-Reno distribution: the kernel (src/sys), the C
    library and several hundred user programs.  This development models kernel
    code that every other part stands on: the clock and its callout queue,
    scheduling, sleeping and signals, resource maps, network buffers and socket
    buffers, the Internet checksum, file descriptors, the terminal driver's
    character lists, the serial-line interface, which is built from four of
    these, the reassembly and the output of IP, the allocator of the fast file
    system and the cache of names.

    ** The parts, and the files that model them

    Time.
    - [Callout] (sys/kern/kern_clock.c): timeout, untimeout, the part of hardclock
      that counts the queue down and the loop of softclock that runs what is due.
      The queue is the list of the entries with their relative times; the
      specification is a run over the absolute deadlines ([ref_run]).
    - [KernTime] (sys/kern/kern_time.c, BUMPTIME and hzto of kern_clock.c): timevals,
      interval timers, adjtime and the slewed clock; realitexpire rearms itself
      through [Callout].

    Memory.
    - [Rmap] (sys/kern/subr_rmap.c): rminit, rmalloc, rmfree, rmget on the array of
      segments.  [Mbuf] takes its page clusters from such a map.
    - [Mbuf] (sys/kern/uipc_mbuf.c, sys/sys/mbuf.h): chains of mbufs, clusters with
      reference counts, m_copym, m_adj, m_pullup and the rest.  [Ledger] keeps the
      books of the operations: mbufs in use and references counted against those
      the chains hold.
    - [Clist] (sys/kern/tty_subr.c): character lists on 64-byte blocks at integer
      addresses; the masks and pointer arithmetic of the code are kept.

    Processes.
    - [Proc] (sys/sys/proc.h, sys/sys/user.h): the process table and the heads and
      links of the run and sleep queues, the state of the next six files.
    - [RunQueue] (setrq, remrq and swtch of sys/GENERIC.allvax/locore.c).
    - [KernSynch] (sys/kern/kern_synch.c): the hashed sleep queues, wakeup, unsleep,
      setrun, setpri, updatepri, schedcpu.
    - [KernSig], [SigPost], [SigTake] (sys/kern/kern_sig.c): actions and masks;
      psignal, kill and the group signals; issig and psig.
    - [KernSleep] (kern_synch.c, the end of trap() in sys/vax/trap.c, hardclock's
      charging of the running process): tsleep, sleep, endtsleep and swtch, and the
      transition system whose steps they are.  A tsleep or a CURSIG that stops the
      process is two steps, the second when it runs again.
    - [Descrip] (sys/kern/kern_descrip.c, with the descriptor loops of open, exec,
      exit, fork and of the passing of descriptors in uipc_usrreq.c).

    Network.
    - [Cksum] (sys/netinet/in_cksum.c) sums the data of an [Mbuf] chain.
    - [SockBuf] (second half of sys/kern/uipc_socket2.c, sys/sys/socketvar.h): the
      records of a socket buffer, each an [Mbuf] chain.
    - [SlCompress] (sys/net/slcompress.c, and the type tags and their dispatch in
      sys/net/if_sl.c): TCP/IP header compression.
    - [SlLine] (sys/net/if_sl.c): the interface proper.  It compresses with
      [SlCompress], puts the framed packet on a [Clist] queue, takes received
      characters apart, and hands up a cluster of [Mbuf].
    - [Ip] (sys/netinet/ip.h, ip_var.h): the header as a record and as bytes, and the
      counters.
    - [IpReass] (sys/netinet/ip_input.c): the queues of fragments, the insertion of
      one (ip_reass), their timeouts and drain.  Each fragment is an [Mbuf] chain.
    - [IpOutput] (sys/netinet/ip_output.c): the options inserted and copied, the
      route, the checks of broadcasts, and fragmentation; headers are summed as
      [Cksum] does and the data are copied with m_copym.

    Files on disk.
    - [FfsMap] (sys/ufs/ufs_subr.c, sys/ufs/ufs_tables.c): the bit map of a cylinder
      group by fragments and by blocks, and the tables that find runs of free
      fragments in a byte.
    - [Ffs] (sys/ufs/ufs_alloc.c, sys/ufs/fs.h): the cylinder groups with their
      counts, and the allocation of blocks and fragments: alloc, realloccg, blkpref,
      hashalloc, fragextend, alloccg, alloccgblk, mapsearch, blkfree.
    - [FfsInode] (sys/ufs/ufs_alloc.c): ialloc, ialloccg, ifree, dirpref on the same
      groups; ialloc goes through the hashalloc of [Ffs].
    - [NameCache] (sys/kern/vfs_cache.c, sys/sys/namei.h): cache_lookup, cache_enter,
      cache_purge, cache_purgevfs and nchinit.  The LRU list and the hash chains
      are the words in memory that link them, by address, with insque and remque
      of sys/hp300/locore.s; the invariant [inv] reads lists of entries off them.

    ** Conventions

    A routine is a function from the state it works on to an [outcome]: [Ret] with
    the result and the new state, [Panic] with the message of the code's panic, or
    [Fault] where the C would touch memory outside the object it works on (or a
    loop would leave its array).  A theorem that concludes [Ret _] excludes the
    other two.  Integers are [Z]; where a field's width matters the wrap-around is
    written ([u16], [s32], ...), and bits are taken with the operations of [Z].
    Code that depends on the byte order takes it as the boolean [big].  spl levels
    bracket each routine, so a routine is one step; the routines that give up
    the processor (issig, tsleep, sleep) are cut at swtch and return the point at
    which they go on.

    Code that is reached through a pointer or lies outside the files above is an
    argument: the handlers softclock calls, the close and ioctl entries of
    [f_ops], vn_open, a tracing parent's requests (procxmt), the output routine of
    the tty driver ([oproc]), a route and the output routine of an interface, which
    groups of a disk cannot be read, what iget returns, and the success or failure
    of each allocation of memory.  sendsig, core and exit are events in a log.

    ** Loops

    Structural recursion is used where the loop walks a list.  The other loops take
    fuel, computed from the state by the definition itself, and return [Fault]
    (ufalloc's search: "no descriptor") when it runs out; the theorems show that
    they do not.  softclock: one more than the entries due (handlers may add
    entries, but these are not due).  in_cksum: one more than the length, and each
    round takes 2, 8 or 32 bytes.  The clist loops: one more than the characters
    wanted, and each round moves at least one or frees a block; cinit: the number of
    blocks; catq: two more than the characters.  m_pullup: the mbufs of the chain.
    slstart: one more than the packets queued.  sbflush: two more than the
    records.  The quadratic rehash and the brute search of hashalloc: one more than
    the groups; the list of blocks at a rotational position: one more than the blocks
    of a group, since each step goes forward; the loops over the bits of a block,
    one more than its fragments.  A walk of a hash chain of names: one more than the
    entries; cache_purgevfs: the square of that.  The loops of ip_output and ip_reass walk the
    packet or the queue.

    ** What the theorems show

    - Round trips: the receiver of a compressing serial line gets back every byte of
      every packet sent, for any sequence of packets and initial agreement
      ([sl_compress_transparent]), and so does slinput from the characters sloutput
      and slstart produced, when all traffic is of one kind and nothing is dropped
      ([slip_transparent], with what slstart sends and drops in [slstart_spec]);
      a descriptor received is the
      descriptor sent ([fd_passing]).
    - Data: [m_copym_spec], [m_adj_spec], [m_pullup_spec] (bytes, header length,
      reference counts, every failure), [in_cksum_spec] (the unrolled,
      byte-swapping loop computes the one's complement sum of the bytes),
      [clist_refines] and [sockbuf_refines] (queues of characters and of records
      as abstract lists), with the specifications of the single operations.
    - IP: reassembly implements the specification that keeps only the set of
      offsets received ([reass_refines]); the fragments a packet leaves in carry
      exactly its data and the options they should ([ip_output_fragments],
      [ip_optcopy_spec]); in both the mbufs in use and the references of clusters
      change by exactly what the chains do; queues time out ([frag_timeout]).
    - The file system's allocator: whatever files ask for in whatever order, no
      fragment and no inode is given out twice or lost, the counts agree with the
      maps and no panic is reached ([disk_requests], [inode_requests]); what each
      routine chooses, and when it fails ([alloc_spec], [realloccg_spec],
      [alloccgblk_spec], [hashalloc_spec], [blkpref_spec], [ialloc_spec],
      [ifree_spec], [dirpref_spec]); the tables count what they should
      ([fragacct_spec]); what blkfree detects ([blkfree_spec]).
      The invariants are over a super block whose fields fit together ([sb_ok]) and
      whose rotational tables lead to the blocks of each position ([rot_ok]);
      [rot_okb] and [st_okb] decide them for a concrete file system.
    - The name cache: a hit is a name that was entered and not purged since
      ([hit_sound]), what is entered is found ([enter_lookup]), what a lookup does to
      the lists ([cache_lookup_spec]), a file system that is unmounted leaves
      nothing ([cache_purgevfs_spec], which also ends).
    - Invariants of state: reference counts of open files ([fd_refcounts]), the
      scheduler's queues and process states in every reachable state
      ([sched_reachable], which leaves out the tsleep of a traced process that has
      signals pending: [traced_tsleep_panics]), the signal tables ([sig_actions_wf]).
    - Time: timers fire neither early nor late, whatever the functions called do to
      the queue ([timeout_spec], [tick_fires], [softclock_spec]), interval timers do not drift ([itimerdecr_no_drift]).
    - Control: what each signal does to each process ([psignal_spec], [issig_spec],
      [psig_spec], [kill_spec]), how a sleep ends ([tsleep_spec], [tsleep_ends]),
      who is woken ([wakeup_spec], [schedcpu_spec]).
    - Where the code does not do what it means to, the theorem states what it
      does: [slip_reorder], [slinput_oversize], [interactive_order],
      [sl_uncompress_overrun], [sl_urg_sticks], [clist_quirks], [frag_leak],
      [no_route_leak], [reass_lengths], [adjtime_big_never_settles],
      [stale_after_wrap], [drop_last], [traced_tsleep_panics],
      [no_table_other_cylinder], and the last clauses of [m_adj_spec] and
      [blkfree_spec].

    ** Not modelled

    - In the files above: statistics and profiling of kern_clock.c; gettimeofday and
      settimeofday (copies); fstat, flock and unp_gc; slattach, slopen's search and
      the error codes of slioctl; sbwait, sb_lock, sowakeup and select; roundrobin;
      the saving and loading of contexts; ip_dooptions, ip_forward and the part of
      ipintr around the reassembly, ip_ctloutput; quotas, and the buffers of the
      file system, whose contents the allocator does not look at.
    - Other kernel parts that could be modelled in the same way: the connection
      queues of sockets and the socket system calls, TCP and UDP, the radix tree
      and routing, process creation and groups, the line discipline, the block pointers of an inode (balloc, bmap, itrunc),
      directories, and path names (namei).  The name cache assumes vnodes that stay
      where they are: the vnodes' own lists (vfs_subr.c) are not modelled.
    - Parts that are mostly interface to hardware or to other code: virtual memory
      and page tables, device drivers, machine-dependent code, boot code, NFS's
      translation between XDR and vnode operations.
    - The C library, the user programs, the XNS and OSI protocols, Kerberos: outside
      the core chosen here.

    This file holds the shared vocabulary: outcomes, machine-width integers, and
    the list and arithmetic lemmas and tactics of the components. *)
From stdpp Require Import base numbers list strings.
From Stdlib Require Import ZArith Lia.

#[global] Open Scope Z_scope.

(** ** Outcomes

    Kernel routines either return, call [panic] with a message, or (when the
    caller broke an invariant) touch memory outside the object they work on.
    [Fault] stands for the last case and for a loop that leaves its array, so
    a theorem whose conclusion is [Ret _] excludes both. *)
Inductive outcome (A : Type) : Type :=
| Ret (a : A)
| Panic (msg : string)
| Fault.
Arguments Ret {A} a.
Arguments Panic {A} msg.
Arguments Fault {A}.

#[export] Instance outcome_ret : MRet outcome := @Ret.
#[export] Instance outcome_bind : MBind outcome := fun A B f m =>
  match m with
  | Ret a => f a
  | Panic s => Panic s
  | Fault => Fault
  end.

Lemma bind_Ret {A B} (m : outcome A) (f : A -> outcome B) b :
  m ≫= f = Ret b <-> exists a, m = Ret a /\ f a = Ret b.
Proof.
  destruct m; cbn; split.
  - eauto.
  - intros (a' & [= ->] & H); exact H.
  - discriminate.
  - intros (a' & [=] & _).
  - discriminate.
  - intros (a' & [=] & _).
Qed.

(** Run the binds whose first computation has returned. *)
Ltac bind := cbn [mbind outcome_bind].

(** ** Machine integers

    [int] and [long] are 32 bits wide on every machine the system runs on
    (vax, tahoe, hp300, i386), [short] is 16 bits wide and [char] 8. *)
Definition u8 (z : Z) : Z := z mod 2 ^ 8.
Definition u16 (z : Z) : Z := z mod 2 ^ 16.
Definition u32 (z : Z) : Z := z mod 2 ^ 32.
Definition s8 (z : Z) : Z := (z + 128) mod 256 - 128.
Definition s16 (z : Z) : Z := (z + 2 ^ 15) mod 2 ^ 16 - 2 ^ 15.
Definition s32 (z : Z) : Z := (z + 2 ^ 31) mod 2 ^ 32 - 2 ^ 31.
Definition INT_MAX : Z := 2 ^ 31 - 1.

Lemma u8_small z : 0 <= z < 256 -> u8 z = z.
Proof. intros; unfold u8; apply Z.mod_small; lia. Qed.
Lemma u16_small z : 0 <= z < 65536 -> u16 z = z.
Proof. intros; unfold u16; apply Z.mod_small; lia. Qed.
Lemma u32_small z : 0 <= z < 4294967296 -> u32 z = z.
Proof. intros; unfold u32; apply Z.mod_small; lia. Qed.
Lemma s32_small z : -2147483648 <= z <= 2147483647 -> s32 z = z.
Proof. intros; unfold s32; rewrite Z.mod_small; lia. Qed.
Lemma s16_small z : -32768 <= z <= 32767 -> s16 z = z.
Proof. intros; unfold s16; rewrite Z.mod_small; lia. Qed.

Lemma s8_small z : -128 <= z < 128 -> s8 z = z.
Proof. intros; unfold s8; rewrite Z.mod_small; lia. Qed.

Lemma u8_range z : 0 <= u8 z < 256.
Proof. unfold u8; apply Z.mod_pos_bound; lia. Qed.
Lemma u16_range z : 0 <= u16 z < 65536.
Proof. unfold u16; apply Z.mod_pos_bound; lia. Qed.
Lemma u32_range z : 0 <= u32 z < 4294967296.
Proof. unfold u32; apply Z.mod_pos_bound; lia. Qed.
Lemma s32_range z : -2147483648 <= s32 z <= 2147483647.
Proof.
  unfold s32; pose proof (Z.mod_pos_bound (z + 2 ^ 31) (2 ^ 32)); lia.
Qed.

(** Bit tests on flag words. *)
Definition has (flags bit : Z) : bool := negb (Z.land flags bit =? 0).

Lemma has_lor f g b : has (Z.lor f g) b = has f b || has g b.
Proof.
  unfold has. rewrite Z.land_lor_distr_l.
  destruct (Z.eqb_spec (Z.land f b) 0) as [E1|E1], (Z.eqb_spec (Z.land g b) 0) as [E2|E2],
    (Z.eqb_spec (Z.lor (Z.land f b) (Z.land g b)) 0) as [E3|E3]; try done.
  - exfalso. apply E3. by rewrite E1, E2.
  - exfalso. apply Z.lor_eq_0_iff in E3. tauto.
  - exfalso. apply Z.lor_eq_0_iff in E3. tauto.
  - exfalso. apply Z.lor_eq_0_iff in E3. tauto.
Qed.

Lemma has_land f g b : has (Z.land f g) b = has f (Z.land g b).
Proof. unfold has. by rewrite Z.land_assoc. Qed.

Lemma has_0 f : has f 0 = false.
Proof. unfold has. by rewrite Z.land_0_r. Qed.

(** A 16-bit number put together from its two bytes. *)
Lemma lor_shiftl8 hi lo : 0 <= lo < 256 -> Z.lor (Z.shiftl hi 8) lo = hi * 256 + lo.
Proof.
  intros H. assert (Hd : Z.land (Z.shiftl hi 8) lo = 0).
  { apply Z.bits_inj'. intros n Hn. rewrite Z.land_spec, Z.bits_0.
    destruct (Z.ltb_spec n 8); [by rewrite Z.shiftl_spec_low by lia|].
    assert (Z.testbit lo n = false) as ->; [|apply andb_false_r].
    destruct (Z.eq_dec lo 0) as [->|Hl]; [apply Z.bits_0|]. apply Z.bits_above_log2; [lia|].
    assert (Z.log2 lo < 8); [|lia]. apply Z.log2_lt_pow2; lia. }
  rewrite <- Z.lxor_lor by done. rewrite <- Z.add_nocarry_lxor by done.
  rewrite Z.shiftl_mul_pow2 by lia. lia.
Qed.

(** ** Arithmetic with division and remainder made linear for [lia]. *)
Ltac zdiv := Z.div_mod_to_equations; lia.

(** Split every conjunction of the goal and of the hypotheses. *)
Ltac splits := repeat match goal with |- _ /\ _ => split end.
Ltac conj := repeat match goal with H : _ /\ _ |- _ => destruct H end.

(** Case analysis on the boolean integer comparison the goal (or a
    hypothesis) branches on, with the Prop-level fact in the context. *)
Ltac bcase :=
  match goal with
  | |- context [if ?a =? ?b then _ else _] => destruct (Z.eqb_spec a b)
  | |- context [if ?a <? ?b then _ else _] => destruct (Z.ltb_spec a b)
  | |- context [if ?a <=? ?b then _ else _] => destruct (Z.leb_spec a b)
  | |- context [if ?a >? ?b then _ else _] =>
      rewrite (Z.gtb_ltb a b); destruct (Z.ltb_spec b a)
  | |- context [if ?a >=? ?b then _ else _] =>
      rewrite (Z.geb_leb a b); destruct (Z.leb_spec b a)
  end.

(** ** Lists *)

Lemma lookup_app_mid {A} (l1 l2 : list A) x :
  (l1 ++ x :: l2) !! length l1 = Some x.
Proof. induction l1; simpl; auto. Qed.

Lemma insert_app_mid {A} (l1 l2 : list A) x y :
  <[length l1 := y]> (l1 ++ x :: l2) = l1 ++ y :: l2.
Proof. induction l1; simpl; congruence. Qed.

Lemma replicate_app_cons {A} n (x : A) l :
  replicate n x ++ x :: l = x :: replicate n x ++ l.
Proof. induction n; simpl; congruence. Qed.

Create HintDb kern.
Create Rewrite HintDb kern.
#[export] Hint Resolve u8_range u16_range u32_range s32_range : kern.
#[export] Hint Rewrite @lookup_app_mid @insert_app_mid : kern.
