(* ===== verification/Rmap.v ===== *)
(** Resource maps: sys/kern/subr_rmap.c.  A resource map is an array of
    [struct mapent] sorted by address and ended by an entry of size 0; the
    routines below walk and shift that array in place, as the code does. *)
From stdpp Require Import base numbers list strings.
From Stdlib Require Import ZArith Lia.
From S2P Require Import Prelude.

Module Rmap.

(** ** Data *)

Record mapent := Ent { m_size : Z; m_addr : Z }.

(** [struct map] and its array: [ents] holds the slots [mp+1 .. m_limit-1],
    so [m_limit] is the index [length ents].  [printed] is what the overflow
    [printf] reported, [kmapwnt] and [wakeups] the flag and the [wakeup()]
    calls of the "ridiculous" block at the end of [rmfree]. *)
Record rmap := Rmap {
  ents : list mapent;
  printed : list (Z * Z);
  kmapwnt : bool;
  wakeups : nat }.

(** Which map the routine was called on, and the configuration constants the
    swap map needs. *)
Record mapcfg := Cfg {
  is_swapmap : bool;
  is_kernelmap : bool;
  nswdev : Z;
  dmmax : Z;
  CLSIZE : Z }.

Definition zent : mapent := Ent 0 0.

Definition rd (a : list mapent) (i : nat) : outcome mapent :=
  match a !! i with Some e => Ret e | None => Fault end.
Definition wr (a : list mapent) (i : nat) (e : mapent) : outcome (list mapent) :=
  if bool_decide (i < length a)%nat then Ret (<[i := e]> a) else Fault.

Definition set_ents (m : rmap) (a : list mapent) : rmap :=
  Rmap a (printed m) (kmapwnt m) (wakeups m).

(** ** rminit *)

Definition rminit (m : rmap) (size addr : Z) : outcome rmap :=
  a1 ← wr (ents m) 0 (Ent size addr);
  a2 ← wr a1 1 zent;
  Ret (set_ents m a2).

(** ** Shifting loops *)

(** [while (bp->m_size) { bp++; bp[-1] = *bp; }] *)
Fixpoint shift_while (fuel : nat) (a : list mapent) (i : nat) : outcome (list mapent) :=
  match fuel with
  | O => Fault
  | S fuel =>
      b ← rd a i;
      if m_size b =? 0 then Ret a
      else e ← rd a (S i); a' ← wr a i e; shift_while fuel a' (S i)
  end.

(** [do { bp++; bp[-1].m_addr = bp->m_addr; } while (bp[-1].m_size = bp->m_size);] *)
Fixpoint shift_do (fuel : nat) (a : list mapent) (i : nat) : outcome (list mapent) :=
  match fuel with
  | O => Fault
  | S fuel =>
      e ← rd a (S i);
      a' ← wr a i e;
      if m_size e =? 0 then Ret a' else shift_do fuel a' (S i)
  end.

(** ** rmfree *)

(** The search for the piece that starts after the returned space. *)
Fixpoint rmfree_find (fuel : nat) (a : list mapent) (i : nat) (addr : Z) : outcome nat :=
  match fuel with
  | O => Fault
  | S fuel =>
      b ← rd a i;
      if (m_addr b <=? addr) && negb (m_size b =? 0)
      then rmfree_find fuel a (S i) addr else Ret i
  end.

(** The [do ... while (size = t)] loop that makes a new entry at [i] and moves
    the later ones up; it returns the index of the slot after the last one
    written. *)
Fixpoint rmfree_insert (fuel : nat) (a : list mapent) (i : nat) (size addr : Z)
  : outcome (list mapent * nat) :=
  match fuel with
  | O => Fault
  | S fuel =>
      t ← rd a i;
      a' ← wr a i (Ent size addr);
      if m_size t =? 0 then Ret (a', S i)
      else rmfree_insert fuel a' (S i) (m_size t) (m_addr t)
  end.

(** The label [done]: wake whoever waits for the kernel map. *)
Definition rmfree_done (c : mapcfg) (m : rmap) : rmap :=
  if is_kernelmap c && kmapwnt m
  then Rmap (ents m) (printed m) false (S (wakeups m)) else m.

(** [bp+1 > m_limit]: discard the second to last entry. *)
Definition rmfree_ovflo (m : rmap) (a : list mapent) (i : nat) : outcome rmap :=
  if bool_decide (length a < i + 1)%nat then
    match i with
    | S (S j) =>
        b ← rd a (S j);
        l ← rd a j;
        a1 ← wr a j b;
        a2 ← wr a1 (S j) zent;
        Ret (Rmap a2 (printed m ++ [(m_addr l, m_addr l + m_size l)])
               (kmapwnt m) (wakeups m))
    | _ => Fault
    end
  else Ret (set_ents m a).

(** The piece on the left abuts the returned space: grow it, and compress in
    the piece on the right when that abuts too. *)
Definition rmfree_left (m : rmap) (p : nat) (size addr : Z) : outcome rmap :=
  let a := ents m in
  lp ← rd a p;
  if m_addr lp + m_size lp >? addr then Panic "bad rmfree"
  else
    a1 ← wr a p (Ent (m_size lp + size) (m_addr lp));
    b ← rd a1 (S p);
    if negb (m_addr b =? 0) && (addr + size >=? m_addr b) then
      if addr + size >? m_addr b then Panic "bad rmfree"
      else
        a2 ← wr a1 p (Ent (m_size lp + size + m_size b) (m_addr lp));
        a3 ← shift_while (length a) a2 (S p);
        Ret (set_ents m a3)
    else Ret (set_ents m a1).

(** No piece abuts on the left: extend the right one down, or make an entry. *)
Definition rmfree_right (m : rmap) (i : nat) (size addr : Z) : outcome rmap :=
  let a := ents m in
  b ← rd a i;
  if (addr + size >=? m_addr b) && negb (m_size b =? 0) then
    if addr + size >? m_addr b then Panic "bad rmfree"
    else a1 ← wr a i (Ent (m_size b + size) (m_addr b - size)); Ret (set_ents m a1)
  else
    ai ← rmfree_insert (length a) a i size addr;
    rmfree_ovflo m ai.1 ai.2.

Definition rmfree (c : mapcfg) (m : rmap) (size addr : Z) : outcome rmap :=
  let a := ents m in
  if (addr <=? 0) || (size <=? 0) then Panic "bad rmfree"
  else
    i ← rmfree_find (length a) a 0 addr;
    m' ← match i with
         | O => rmfree_right m i size addr
         | S p =>
             lp ← rd a p;
             if m_addr lp + m_size lp >=? addr then rmfree_left m p size addr
             else rmfree_right m i size addr
         end;
    Ret (rmfree_done c m').

(** ** rmalloc *)

(** The body of the search loop for a piece that is large enough: [None] is
    the [continue] of the interleaved swap map. *)
Definition rmalloc_take (c : mapcfg) (m : rmap) (i : nat) (size : Z)
  : outcome (option (rmap * Z)) :=
  let a := ents m in
  b ← rd a i;
  let first := dmmax c - Z.rem (m_addr b) (dmmax c) in
  if is_swapmap c && (nswdev c >? 1) && (first <? size) then
    if m_size b - first <? size then Ret None
    else
      let addr := m_addr b + first in
      let rest := m_size b - first - size in
      a1 ← wr a i (Ent first (m_addr b));
      m2 ← (if rest =? 0 then Ret (set_ents m a1)
            else rmfree c (set_ents m a1) rest (addr + size));
      Ret (Some (m2, addr))
  else
    let addr := m_addr b in
    a1 ← wr a i (Ent (m_size b - size) (m_addr b + size));
    a2 ← (if m_size b - size =? 0 then shift_do (length a) a1 i else Ret a1);
    if is_swapmap c && negb (Z.rem addr (CLSIZE c) =? 0)
    then Panic "rmalloc swapmap"
    else Ret (Some (set_ents m a2, addr)).

Fixpoint rmalloc_loop (c : mapcfg) (fuel : nat) (m : rmap) (i : nat) (size : Z)
  : outcome (rmap * Z) :=
  match fuel with
  | O => Fault
  | S fuel =>
      b ← rd (ents m) i;
      if m_size b =? 0 then Ret (m, 0)
      else if m_size b >=? size then
        r ← rmalloc_take c m i size;
        match r with
        | Some r => Ret r
        | None => rmalloc_loop c fuel m (S i) size
        end
      else rmalloc_loop c fuel m (S i) size
  end.

Definition rmalloc (c : mapcfg) (m : rmap) (size : Z) : outcome (rmap * Z) :=
  if (size <=? 0) || (is_swapmap c && (size >? dmmax c)) then Panic "rmalloc"
  else rmalloc_loop c (length (ents m)) m 0 size.

(** ** rmget *)

(** [for (bp = ep; bp->m_size; bp++) if (...) break;] *)
Fixpoint rmget_find (fuel : nat) (a : list mapent) (i : nat) (addr : Z) : outcome nat :=
  match fuel with
  | O => Fault
  | S fuel =>
      b ← rd a i;
      if m_size b =? 0 then Ret i
      else if (m_addr b <=? addr) && (m_addr b + m_size b >? addr) then Ret i
      else rmget_find fuel a (S i) addr
  end.

(** [for (bp2 = bp; bp2->m_size; bp2++) ;] *)
Fixpoint find_delim (fuel : nat) (a : list mapent) (i : nat) : outcome nat :=
  match fuel with
  | O => Fault
  | S fuel => b ← rd a i; if m_size b =? 0 then Ret i else find_delim fuel a (S i)
  end.

(** [while (bp2 > bp) { bp2[1] = bp2[0]; bp2--; }], [n] = bp2 - bp *)
Fixpoint shift_up (n : nat) (a : list mapent) (i : nat) : outcome (list mapent) :=
  match n with
  | O => Ret a
  | S n' => e ← rd a (i + n)%nat; a' ← wr a (S (i + n)) e; shift_up n' a' i
  end.

Definition rmget (c : mapcfg) (m : rmap) (size addr : Z) : outcome (rmap * Z) :=
  let a := ents m in
  if size <=? 0 then Panic "rmget"
  else if is_swapmap c then Ret (m, 0)
  else
    i ← rmget_find (length a) a 0 addr;
    b ← rd a i;
    if m_size b =? 0 then Ret (m, 0)
    else if m_addr b + m_size b <? addr + size then Ret (m, 0)
    else if m_addr b =? addr then
      if m_addr b + m_size b =? addr + size then
        a1 ← shift_while (length a) a i; Ret (set_ents m a1, addr)
      else
        a1 ← wr a i (Ent (m_size b - size) (m_addr b + size));
        Ret (set_ents m a1, addr)
    else if m_addr b + m_size b =? addr + size then
      a1 ← wr a i (Ent (m_size b - size) (m_addr b)); Ret (set_ents m a1, addr)
    else
      j ← find_delim (length a) a i;
      if bool_decide (length a <= j + 1)%nat then Ret (m, 0)
      else
        a1 ← shift_up (j - i) a i;
        a2 ← wr a1 (S i) (Ent (m_addr b + m_size b - (addr + size)) (addr + size));
        a3 ← wr a2 i (Ent (addr - m_addr b) (m_addr b));
        Ret (set_ents m a3, addr).

(** ** Abstract view: the set of free addresses *)

(** Segments sorted by address, above [lo], of positive size, and separated by
    at least one allocated unit (adjacent segments are always coalesced). *)
Fixpoint segs_ok (lo : Z) (l : list mapent) : Prop :=
  match l with
  | [] => True
  | e :: r =>
      lo < m_addr e /\ 0 < m_size e /\ m_addr e + m_size e <= INT_MAX /\
      segs_ok (m_addr e + m_size e) r
  end.

Definition seg_end (e : mapent) : Z := m_addr e + m_size e.
Definition in_seg (x : Z) (e : mapent) : Prop := m_addr e <= x < seg_end e.
Definition in_segs (l : list mapent) (x : Z) : Prop := Exists (in_seg x) l.
Definition free (m : rmap) (x : Z) : Prop := in_segs (ents m) x.

(** The array holds the segments and then only zero entries, at least one. *)
Definition layout (l : list mapent) (n : nat) : list mapent :=
  l ++ replicate (S n) zent.
Definition wf (m : rmap) : Prop :=
  exists l n, ents m = layout l n /\ segs_ok 0 l.

Definition overlaps (m : rmap) (addr size : Z) : Prop :=
  exists x, addr <= x < addr + size /\ free m x.

(** End of the last segment of [l], or [lo]. *)
Fixpoint top (lo : Z) (l : list mapent) : Z :=
  match l with [] => lo | e :: r => top (seg_end e) r end.

Lemma segs_ok_app lo l1 l2 :
  segs_ok lo (l1 ++ l2) <-> segs_ok lo l1 /\ segs_ok (top lo l1) l2.
Proof.
  revert lo; induction l1 as [|e l1 IH]; intros lo; cbn.
  - tauto.
  - rewrite IH. unfold seg_end. tauto.
Qed.

Lemma top_ge lo l : segs_ok lo l -> lo <= top lo l.
Proof.
  revert lo; induction l as [|e l IH]; cbn; intros lo H; [lia|].
  destruct H as (? & ? & ? & H). apply IH in H. unfold seg_end. lia.
Qed.

Lemma top_app lo l1 l2 : top lo (l1 ++ l2) = top (top lo l1) l2.
Proof. revert lo; induction l1; cbn; auto. Qed.

Lemma segs_ok_weaken lo lo' l : lo' <= lo -> segs_ok lo l -> segs_ok lo' l.
Proof. destruct l; cbn; intros; [done|]. conj. splits; auto. lia. Qed.

Lemma segs_ok_bounds lo l x : segs_ok lo l -> in_segs l x -> lo < x < top lo l.
Proof.
  revert lo; induction l as [|e l IH]; cbn; intros lo Hok Hx; [inversion Hx|].
  destruct Hok as (? & ? & ? & Hok).
  pose proof (top_ge _ _ Hok). unfold seg_end in *.
  apply Exists_cons in Hx as [Hx|Hx].
  - unfold in_seg, seg_end in Hx. lia.
  - pose proof (IH _ Hok Hx). lia.
Qed.

Lemma in_segs_app l1 l2 x : in_segs (l1 ++ l2) x <-> in_segs l1 x \/ in_segs l2 x.
Proof. apply Exists_app. Qed.
Lemma in_segs_cons e l x : in_segs (e :: l) x <-> in_seg x e \/ in_segs l x.
Proof. apply Exists_cons. Qed.
Lemma in_segs_nil x : in_segs [] x <-> False.
Proof. apply Exists_nil. Qed.

Lemma in_segs_zero n x : ~ in_segs (replicate n zent) x.
Proof.
  induction n; cbn; intros H; inversion H; subst; auto.
  unfold in_seg, seg_end in *; cbn in *; lia.
Qed.

Lemma free_layout l n x : in_segs (layout l n) x <-> in_segs l x.
Proof.
  unfold layout. rewrite in_segs_app. pose proof (in_segs_zero (S n) x). tauto.
Qed.

Lemma free_wf m l n x : ents m = layout l n -> (free m x <-> in_segs l x).
Proof. unfold free; intros ->. apply free_layout. Qed.

#[export] Instance in_seg_dec x e : Decision (in_seg x e).
Proof. unfold in_seg. apply _. Defined.
#[export] Instance in_segs_dec l x : Decision (in_segs l x).
Proof. unfold in_segs. apply _. Defined.

Lemma prop_true (P : Prop) : P -> (P <-> True). Proof. tauto. Qed.
Lemma prop_false (P : Prop) : ~ P -> (P <-> False). Proof. tauto. Qed.

(** Expand membership in a list of segments down to the segments named. *)
Ltac insegs :=
  rewrite ?in_segs_app, ?in_segs_cons, ?in_segs_nil; unfold in_seg, seg_end; cbn.
(** Decide the memberships that are left, and leave the rest to [lia]. *)
Ltac seglia :=
  insegs;
  repeat match goal with
    | H : in_segs ?l ?x |- context [in_segs ?l ?x] => rewrite !(prop_true _ H)
    | H : ~ in_segs ?l ?x |- context [in_segs ?l ?x] => rewrite !(prop_false _ H)
    | |- context [in_segs ?l ?x] => destruct (decide (in_segs l x))
    end; lia.

(** ** Array accesses inside the layout *)

Lemma rd_mid pre e l : rd (pre ++ e :: l) (length pre) = Ret e.
Proof. unfold rd. by rewrite lookup_app_mid. Qed.

Lemma wr_mid pre e l e' :
  wr (pre ++ e :: l) (length pre) e' = Ret (pre ++ e' :: l).
Proof.
  unfold wr. rewrite bool_decide_true.
  - by rewrite insert_app_mid.
  - rewrite length_app; cbn; lia.
Qed.

Lemma app_cons_snoc {A} (pre : list A) x l : pre ++ x :: l = (pre ++ [x]) ++ l.
Proof. by rewrite <- app_assoc. Qed.

Lemma length_snoc {A} (pre : list A) x : S (length pre) = length (pre ++ [x]).
Proof. rewrite length_app; cbn; lia. Qed.

Lemma rd_next pre e e2 l : rd (pre ++ e :: e2 :: l) (S (length pre)) = Ret e2.
Proof. rewrite app_cons_snoc, (length_snoc _ e). apply rd_mid. Qed.

Lemma wr_next pre e e2 l e' :
  wr (pre ++ e :: e2 :: l) (S (length pre)) e' = Ret (pre ++ e :: e' :: l).
Proof. rewrite app_cons_snoc, (length_snoc _ e), wr_mid. by rewrite <- app_assoc. Qed.

Lemma length_layout l n : length (layout l n) = (length l + S n)%nat.
Proof. unfold layout. rewrite length_app, length_replicate. done. Qed.

Lemma segs_ok_size lo l : segs_ok lo l -> Forall (fun e => 0 < m_size e) l.
Proof.
  revert lo; induction l as [|e l IH]; cbn; intros lo H; constructor; conj; eauto.
Qed.

Ltac arr :=
  repeat (progress (rewrite ?rd_mid, ?wr_mid, ?rd_next, ?wr_next; bind)).

Lemma shift_while_step fuel pre e e2 l :
  0 < m_size e ->
  shift_while (S fuel) (pre ++ e :: e2 :: l) (length pre) =
    shift_while fuel ((pre ++ [e2]) ++ e2 :: l) (length (pre ++ [e2])).
Proof.
  intros. cbn [shift_while]. arr. bcase; [lia|]. arr.
  by rewrite (length_snoc _ e2), <- app_assoc.
Qed.

Lemma shift_while_mid post : forall pre e n fuel,
  Forall (fun e => 0 < m_size e) (e :: post) ->
  (length post + 1 < fuel)%nat ->
  shift_while fuel (pre ++ e :: layout post n) (length pre) =
    Ret (pre ++ layout post (S n)).
Proof.
  induction post as [|e2 post IH]; intros pre e n fuel Hs Hf;
    (destruct fuel as [|fuel]; [cbn in Hf; lia|]);
    apply Forall_cons in Hs as [Hs Hs']; unfold layout; cbn [app replicate];
    rewrite shift_while_step by done.
  - destruct fuel; [cbn in Hf; lia|]. cbn [shift_while]. arr. by rewrite <- app_assoc.
  - pose proof (IH (pre ++ [e2]) e2 n fuel Hs' ltac:(cbn in Hf; lia)) as IH'.
    unfold layout in IH'. cbn [app replicate] in IH'.
    rewrite IH'. by rewrite <- app_assoc.
Qed.

Lemma shift_do_mid post : forall pre e n fuel,
  Forall (fun e => 0 < m_size e) post ->
  (length post < fuel)%nat ->
  shift_do fuel (pre ++ e :: layout post n) (length pre) =
    Ret (pre ++ layout post (S n)).
Proof.
  induction post as [|e2 post IH]; intros pre e n fuel Hs Hf;
    (destruct fuel as [|fuel]; [cbn in Hf; lia|]);
    unfold layout; cbn [app replicate shift_do]; arr.
  - done.
  - apply Forall_cons in Hs as [Hs Hs']. bcase; [lia|].
    rewrite app_cons_snoc, (length_snoc _ e2).
    pose proof (IH (pre ++ [e2]) e2 n fuel Hs' ltac:(cbn in Hf; lia)) as IH'.
    unfold layout in IH'. cbn in IH'. rewrite IH'. by rewrite <- app_assoc.
Qed.

Lemma rmfree_insert_mid post : forall pre n fuel size addr,
  Forall (fun e => 0 < m_size e) post ->
  (length post < fuel)%nat ->
  rmfree_insert fuel (pre ++ layout post n) (length pre) size addr =
    Ret (pre ++ Ent size addr :: post ++ replicate n zent,
         (length pre + S (length post))%nat).
Proof.
  induction post as [|e2 post IH]; intros pre n fuel size addr Hs Hf;
    (destruct fuel as [|fuel]; [cbn in Hf; lia|]);
    unfold layout; cbn [app replicate rmfree_insert]; arr.
  - cbn. do 2 f_equal. lia.
  - apply Forall_cons in Hs as [Hs Hs']. bcase; [lia|].
    rewrite app_cons_snoc, (length_snoc _ (Ent size addr)).
    pose proof (IH (pre ++ [Ent size addr]) n fuel (m_size e2) (m_addr e2) Hs' ltac:(cbn in Hf; lia)) as IH'.
    unfold layout in IH'. cbn in IH'. rewrite IH', length_app, <- app_assoc. cbn. destruct e2. cbn.
    do 2 f_equal. lia.
Qed.

Definition starts_after (addr : Z) (l : list mapent) : Prop :=
  match l with [] => True | e :: _ => addr < m_addr e end.

Lemma rmfree_find_mid pre : forall pre0 post n fuel addr,
  Forall (fun e => m_addr e <= addr) pre ->
  Forall (fun e => 0 < m_size e) pre ->
  starts_after addr post -> (length pre < fuel)%nat ->
  rmfree_find fuel (pre0 ++ pre ++ layout post n) (length pre0) addr =
    Ret (length (pre0 ++ pre)).
Proof.
  induction pre as [|e pre IH]; intros pre0 post n fuel addr Ha Hs Hp Hf;
    (destruct fuel as [|fuel]; [cbn in Hf; lia|]); cbn [app rmfree_find].
  - rewrite app_nil_r. destruct post as [|e post]; unfold layout; cbn [app replicate]; arr.
    + by rewrite andb_false_r.
    + cbn in Hp. destruct (Z.leb_spec (m_addr e) addr); [lia|done].
  - apply Forall_cons in Ha as [Ha Ha'], Hs as [Hs Hs']. arr.
    destruct (Z.leb_spec (m_addr e) addr); [|lia].
    destruct (Z.eqb_spec (m_size e) 0); [lia|]. cbn [andb negb].
    rewrite app_cons_snoc, (length_snoc _ e), IH by (done || cbn in Hf; lia).
    by rewrite <- app_assoc.
Qed.

Lemma segs_split lo l addr : segs_ok lo l ->
  exists pre post, l = pre ++ post /\ Forall (fun e => m_addr e <= addr) pre /\
    starts_after addr post.
Proof.
  revert lo; induction l as [|e l IH]; cbn; intros lo H.
  - exists [], []. by splits.
  - destruct (Z.le_gt_cases (m_addr e) addr).
    + destruct (IH (m_addr e + m_size e)) as (pre & post & -> & ? & ?); [tauto|].
      exists (e :: pre), post. splits; [done| |done]. by constructor.
    + exists [], (e :: l). splits; [done|constructor|done].
Qed.

(** ** rmfree meets its specification *)

(** What a successful free does: the returned range becomes free.  When the
    union needs as many segments as the table has slots (so no slot is left
    for the delimiter) one range is lost, and [printf] reports it. *)
Definition freed (m m' : rmap) (addr size : Z) : Prop :=
  (printed m' = printed m /\
   forall x, free m' x <-> free m x \/ addr <= x < addr + size)
  \/
  (exists L lo hi, segs_ok 0 L /\ length L = length (ents m) /\
   (forall x, in_segs L x <-> free m x \/ addr <= x < addr + size) /\
   printed m' = printed m ++ [(lo, hi)] /\ lo < hi /\
   (forall x, lo <= x < hi -> in_segs L x) /\
   forall x, free m' x <-> in_segs L x /\ ~ lo <= x < hi).

(** A successful outcome: well formed, same table size, space accounted for. *)
Definition rmfree_ok (m : rmap) (r : outcome rmap) (addr size : Z) : Prop :=
  exists m', r = Ret m' /\ wf m' /\ length (ents m') = length (ents m) /\
    freed m m' addr size /\ kmapwnt m' = kmapwnt m /\ wakeups m' = wakeups m.

Lemma rmfree_ok_intro m l n l' n' addr size :
  ents m = layout l n -> segs_ok 0 l' ->
  (length l' + n' = length l + n)%nat ->
  (forall x, in_segs l' x <-> in_segs l x \/ addr <= x < addr + size) ->
  rmfree_ok m (Ret (set_ents m (layout l' n'))) addr size.
Proof.
  intros Hm Hok Hlen Hx. eexists. splits; [done| | | |done|done].
  - by exists l', n'.
  - cbn. rewrite Hm, !length_layout. lia.
  - left. split; [done|]. intros x. rewrite (free_wf m l n) by done.
    rewrite (free_wf _ l' n') by done. apply Hx.
Qed.

Definition hits (lim : Z) (l : list mapent) : Prop :=
  match l with [] => False | e :: _ => m_addr e < lim end.

Lemma top_snoc lo l e : top lo (l ++ [e]) = seg_end e.
Proof. by rewrite top_app. Qed.

Lemma overlap_char pre post addr size :
  segs_ok 0 (pre ++ post) -> Forall (fun e => m_addr e <= addr) pre ->
  starts_after addr post -> 0 < addr -> 0 < size ->
  (exists x, addr <= x < addr + size /\ in_segs (pre ++ post) x) <->
  (addr < top 0 pre \/ hits (addr + size) post).
Proof.
  intros Hok Hpre Hpost Ha Hs. apply segs_ok_app in Hok as [Hok1 Hok2]. split.
  - intros (x & Hx & Hin). apply in_segs_app in Hin as [Hin|Hin].
    + pose proof (segs_ok_bounds _ _ _ Hok1 Hin). left; lia.
    + right. destruct post as [|e post]; [by apply in_segs_nil in Hin|].
      apply in_segs_cons in Hin as [Hin|Hin]; cbn.
      * unfold in_seg in Hin. lia.
      * destruct Hok2 as (? & ? & ? & Hok2). pose proof (segs_ok_bounds _ _ _ Hok2 Hin). lia.
  - intros [H|H].
    + destruct pre as [|lp pre _] using rev_ind; [cbn in H; lia|].
      rewrite top_snoc in H. apply Forall_app in Hpre as [_ Hlp].
      apply Forall_cons in Hlp as [Hlp _].
      exists addr. split; [lia|]. insegs. unfold seg_end in H. lia.
    + destruct post as [|e post]; [done|]. cbn in H, Hpost, Hok2.
      exists (m_addr e). split; [lia|]. insegs. lia.
Qed.

(** Joining a segment that ends where the next begins. *)
Lemma layout_insert_wr pre e post n e' :
  wr (layout (pre ++ e :: post) n) (length pre) e' =
    Ret (layout (pre ++ e' :: post) n).
Proof. unfold layout. rewrite <- !app_assoc. cbn [app]. apply wr_mid. Qed.

Lemma layout_rd pre e post n : rd (layout (pre ++ e :: post) n) (length pre) = Ret e.
Proof. unfold layout. rewrite <- !app_assoc. cbn [app]. apply rd_mid. Qed.

Lemma layout_rd_end pre n : rd (layout pre n) (length pre) = Ret zent.
Proof. apply rd_mid. Qed.

Lemma layout_shift pre e post n fuel :
  Forall (fun e => 0 < m_size e) (e :: post) -> (length post + 1 < fuel)%nat ->
  shift_while fuel (layout (pre ++ e :: post) n) (length pre) =
    Ret (layout (pre ++ post) (S n)).
Proof.
  intros. unfold layout. rewrite <- !app_assoc. cbn [app]. by apply shift_while_mid.
Qed.

Lemma layout_shift_do pre e post n fuel :
  Forall (fun e => 0 < m_size e) post -> (length post < fuel)%nat ->
  shift_do fuel (layout (pre ++ e :: post) n) (length pre) =
    Ret (layout (pre ++ post) (S n)).
Proof.
  intros. unfold layout. rewrite <- !app_assoc. cbn [app]. by apply shift_do_mid.
Qed.

Lemma layout_rd_next pre e e2 post n :
  rd (layout (pre ++ e :: e2 :: post) n) (S (length pre)) = Ret e2.
Proof. unfold layout. rewrite <- !app_assoc. apply rd_next. Qed.

Lemma layout_rd_next_end pre e n :
  rd (layout (pre ++ [e]) n) (S (length pre)) = Ret zent.
Proof. unfold layout. rewrite <- !app_assoc. apply rd_next. Qed.

Lemma layout_shift_next pre e e2 post n fuel :
  Forall (fun e => 0 < m_size e) (e2 :: post) -> (length post + 1 < fuel)%nat ->
  shift_while fuel (layout (pre ++ e :: e2 :: post) n) (S (length pre)) =
    Ret (layout (pre ++ e :: post) (S n)).
Proof.
  intros. rewrite app_cons_snoc, (length_snoc pre e), layout_shift by done.
  by rewrite <- app_cons_snoc.
Qed.

Ltac lay :=
  repeat (progress (rewrite ?layout_rd, ?layout_rd_end, ?layout_rd_next,
                      ?layout_rd_next_end, ?layout_insert_wr; bind)).

Section free_cases.
Context (m : rmap) (pre post : list mapent) (n : nat) (size addr : Z).
Hypotheses (Ha : 0 < addr) (Hs : 0 < size) (Hmax : addr + size <= INT_MAX).
Hypothesis Hpost : starts_after addr post.

Lemma rmfree_left_spec lp :
  ents m = layout (pre ++ lp :: post) n -> segs_ok 0 (pre ++ lp :: post) ->
  m_addr lp <= addr <= seg_end lp ->
  ((addr < seg_end lp \/ hits (addr + size) post) ->
     rmfree_left m (length pre) size addr = Panic "bad rmfree") /\
  (seg_end lp <= addr -> ~ hits (addr + size) post ->
     rmfree_ok m (rmfree_left m (length pre) size addr) addr size).
Proof.
  intros Hm Hok Hlp. unfold rmfree_left. rewrite Hm. lay.
  apply segs_ok_app in Hok as [Hok1 Hok2]. cbn in Hok2. unfold seg_end in *.
  destruct Hok2 as (Hlo & Hsz & Hend & Hok2).
  rewrite Z.gtb_ltb. destruct (Z.ltb_spec addr (m_addr lp + m_size lp)).
  { split; [done|lia]. }
  destruct post as [|b post'].
  - lay. cbn.
    split; [cbn; intros [?|[]]; lia|]. intros _ _.
    eapply rmfree_ok_intro; [exact Hm| | |].
    + apply segs_ok_app; split; [done|]. cbn. conj. lia.
    + rewrite !length_app; cbn; lia.
    + intros x. seglia.
  - lay. cbn in Hpost, Hok2. destruct (Z.eqb_spec (m_addr b) 0); [lia|].
    rewrite Z.geb_leb, Z.gtb_ltb. cbn [negb andb hits].
    destruct (Z.leb_spec (m_addr b) (addr + size)); cycle 1.
    { split; [intros [?|?]; lia|]. intros _ _.
      eapply rmfree_ok_intro; [exact Hm| | |].
      + apply segs_ok_app; split; [done|]. cbn. conj. splits; try lia.
        eapply segs_ok_weaken; [|eassumption]. lia.
      + rewrite !length_app; cbn; lia.
      + intros x. seglia. }
    destruct (Z.ltb_spec (m_addr b) (addr + size)); [split; [done|lia]|].
    split; [intros [?|?]; lia|]. intros _ _. lay.
    pose proof (segs_ok_size (m_addr lp + m_size lp) (b :: post') Hok2) as Hall.
    rewrite layout_shift_next
      by (rewrite ?length_layout, ?length_app; cbn in *; auto; lia).
    bind. eapply rmfree_ok_intro; [exact Hm| | |].
    + apply segs_ok_app; split; [done|]. cbn. conj. splits; try lia.
      eapply segs_ok_weaken; [|eassumption]. lia.
    + rewrite !length_app; cbn; lia.
    + intros x. seglia.
Qed.

Lemma ovflo_room L k :
  rmfree_ovflo m (layout L k) (length L) = Ret (set_ents m (layout L k)).
Proof.
  unfold rmfree_ovflo. rewrite bool_decide_false; [done|].
  rewrite length_layout. lia.
Qed.

Lemma ovflo_full L0 l b :
  rmfree_ovflo m (L0 ++ [l; b]) (length (L0 ++ [l; b])) =
    Ret (Rmap (layout (L0 ++ [b]) 0) (printed m ++ [(m_addr l, seg_end l)])
           (kmapwnt m) (wakeups m)).
Proof.
  unfold rmfree_ovflo. rewrite bool_decide_true by lia.
  rewrite length_app; cbn [length]. rewrite Nat.add_comm. cbn [Nat.add].
  arr. unfold layout. by rewrite <- app_assoc.
Qed.

Lemma freed_ovflo L L0 l b :
  segs_ok 0 L -> L = L0 ++ [l; b] -> length L = length (ents m) ->
  (forall x, in_segs L x <-> free m x \/ addr <= x < addr + size) ->
  rmfree_ok m (rmfree_ovflo m L (length L)) addr size.
Proof.
  intros Hok -> Hlen Hx. rewrite ovflo_full. eexists. splits; [done| | | |done|done].
  - exists (L0 ++ [b]), O. split; [done|].
    apply segs_ok_app in Hok as [Hok1 Hok2]. apply segs_ok_app. split; [done|].
    cbn in *. conj. lia.
  - cbn [ents]. rewrite length_layout, <- Hlen, !length_app. cbn. lia.
  - right. exists (L0 ++ [l; b]), (m_addr l), (seg_end l). split; [done|].
    apply segs_ok_app in Hok as [Hok1 Hok2]. cbn in Hok2. conj.
    unfold seg_end in *. splits; [done|done|done|lia| |].
    + intros x Hin. insegs. lia.
    + intros x. rewrite (free_wf _ (L0 ++ [b]) O) by done.
      destruct (decide (in_segs L0 x)) as [Hi|];
        [pose proof (segs_ok_bounds _ _ _ Hok1 Hi)|]; seglia.
Qed.

Lemma insert_spec n' :
  ents m = layout (pre ++ post) n' -> segs_ok 0 (pre ++ post) ->
  (2 <= length (ents m))%nat -> top 0 pre < addr -> ~ hits (addr + size + 1) post ->
  rmfree_ok m (ai ← rmfree_insert (length (ents m)) (ents m) (length pre) size addr;
               rmfree_ovflo m ai.1 ai.2) addr size.
Proof.
  intros Hm Hok H2 Htop Hhit. pose proof Hok as Hok'.
  apply segs_ok_app in Hok as [Hok1 Hok2].
  assert (segs_ok 0 (pre ++ Ent size addr :: post)) as HL.
  { apply segs_ok_app. split; [done|]. cbn. splits; try lia.
    destruct post as [|b post']; [done|]. cbn in Hhit, Hok2 |- *. conj. splits; auto. lia. }
  assert (forall x, in_segs (pre ++ Ent size addr :: post) x <->
            free m x \/ addr <= x < addr + size) as HX.
  { intros x. rewrite (free_wf m (pre ++ post) n') by done. seglia. }
  rewrite Hm at 2. unfold layout. rewrite <- app_assoc.
  fold (layout post n'). rewrite rmfree_insert_mid;
    [|by eapply segs_ok_size|rewrite Hm, length_layout, length_app; lia].
  bind. cbn [fst snd].
  replace (length pre + S (length post))%nat with (length (pre ++ Ent size addr :: post))
    by (rewrite length_app; cbn; lia).
  destruct n' as [|n'].
  - cbn [replicate]. rewrite app_nil_r.
    set (L := pre ++ Ent size addr :: post) in *.
    assert (length L = length (ents m)) as HlenL.
    { unfold L. rewrite Hm, length_layout, !length_app. cbn. lia. }
    destruct L as [|b L1 _] using rev_ind; [cbn in HlenL; lia|].
    destruct L1 as [|l L0 _] using rev_ind; [cbn in HlenL; lia|].
    eapply (freed_ovflo _ L0 l b); eauto. by rewrite <- app_assoc.
  - replace (pre ++ Ent size addr :: post ++ replicate (S n') zent)
      with (layout (pre ++ Ent size addr :: post) n')
      by (unfold layout; by rewrite <- app_assoc).
    rewrite ovflo_room. eapply rmfree_ok_intro; eauto.
    + rewrite !length_app. cbn. lia.
    + intros x. rewrite HX. by rewrite (free_wf m (pre ++ post) (S n')).
Qed.

Lemma rmfree_right_spec n' :
  ents m = layout (pre ++ post) n' -> segs_ok 0 (pre ++ post) ->
  (2 <= length (ents m))%nat -> top 0 pre < addr ->
  (hits (addr + size) post ->
     rmfree_right m (length pre) size addr = Panic "bad rmfree") /\
  (~ hits (addr + size) post ->
     rmfree_ok m (rmfree_right m (length pre) size addr) addr size).
Proof.
  intros Hm Hok Hlen Htop. unfold rmfree_right.
  pose proof (insert_spec n' Hm Hok Hlen Htop) as Hins. revert Hins.
  rewrite Hm. destruct post as [|b post'].
  - rewrite !app_nil_r. lay. cbn [m_size zent]. rewrite andb_false_r.
    intros Hins. split; [done|]. intros _. apply Hins. cbn. tauto.
  - lay. intros Hins. apply segs_ok_app in Hok as [Hok1 Hok2].
    cbn in Hok2, Hpost, Hins |- *. conj.
    rewrite Z.geb_leb, Z.gtb_ltb. destruct (Z.eqb_spec (m_size b) 0); [lia|].
    destruct (Z.leb_spec (m_addr b) (addr + size)); cbn [andb negb].
    + destruct (Z.ltb_spec (m_addr b) (addr + size)); [split; [done|lia]|].
      split; [lia|]. intros _. lay.
      eapply rmfree_ok_intro; [exact Hm| | |].
      * apply segs_ok_app. split; [done|]. cbn. splits; try lia.
        eapply segs_ok_weaken; [|eassumption]. lia.
      * rewrite !length_app. cbn. lia.
      * intros x. seglia.
    + split; [lia|]. intros _. apply Hins. lia.
Qed.

End free_cases.

(** Where the search stops, and what that says about overlaps. *)
Lemma rmfree_cases c m size addr :
  wf m -> (2 <= length (ents m))%nat ->
  0 < addr -> 0 < size -> addr + size <= INT_MAX ->
  exists r, rmfree c m size addr = (m' ← r; Ret (rmfree_done c m')) /\
    (overlaps m addr size -> r = Panic "bad rmfree") /\
    (~ overlaps m addr size -> rmfree_ok m r addr size).
Proof.
  intros (l & n & Hm & Hok) Hlen Ha Hs Hmax.
  destruct (segs_split _ _ addr Hok) as (pre & post & -> & Hpre & Hpost).
  pose proof Hok as Hok'. apply segs_ok_app in Hok' as [Hok1 Hok2].
  assert (rmfree_find (length (ents m)) (ents m) 0 addr = Ret (length pre)) as Hfind.
  { rewrite Hm. unfold layout. rewrite <- app_assoc.
    apply (rmfree_find_mid pre [] post n); auto.
    - by eapply segs_ok_size.
    - rewrite !length_app, length_replicate. lia. }
  assert (overlaps m addr size <-> addr < top 0 pre \/ hits (addr + size) post) as Hov.
  { rewrite <- (overlap_char pre post addr size) by done. unfold overlaps.
    setoid_rewrite (free_wf m (pre ++ post) n); done. }
  unfold rmfree. destruct (Z.leb_spec addr 0); [lia|]. destruct (Z.leb_spec size 0); [lia|].
  cbn [orb]. rewrite Hfind. bind. eexists. split; [reflexivity|].
  destruct pre as [|lp pre _] using rev_ind.
  - cbn [length]. pose proof (rmfree_right_spec m [] post size addr Hs Hmax Hpost n
      Hm Hok Hlen ltac:(cbn; lia)) as [HP HR].
    rewrite Hov. cbn [top length] in *. split.
    + intros [?|?]; [lia|auto].
    + intros. apply HR. tauto.
  - rewrite length_app, Nat.add_comm. cbn [length Nat.add]. rewrite top_snoc in *.
    rewrite <- app_assoc in Hm, Hok. cbn [app] in Hm, Hok.
    apply Forall_app in Hpre as [_ Hlp]. apply Forall_cons in Hlp as [Hlp _].
    assert (rd (ents m) (length pre) = Ret lp) as Hrd by (rewrite Hm; apply layout_rd).
    rewrite Hrd. bind. rewrite Z.geb_leb, Hov. unfold seg_end.
    destruct (Z.leb_spec addr (m_addr lp + m_size lp)).
    + destruct (rmfree_left_spec m pre post n size addr Ha Hs Hmax Hpost lp Hm Hok)
        as [HP HR]; [unfold seg_end; lia|]. unfold seg_end in *. split; [done|].
      intros. apply HR; tauto || lia.
    + rewrite app_cons_snoc in Hm, Hok.
      destruct (rmfree_right_spec m (pre ++ [lp]) post size addr Hs Hmax Hpost n
        Hm Hok Hlen) as [HP HR]; [rewrite top_snoc; unfold seg_end; lia|].
      rewrite length_app, Nat.add_comm in HP, HR. cbn [length Nat.add] in HP, HR.
      split; [intros [?|?]; [lia|auto]|]. intros. apply HR. tauto.
Qed.

(** ** rmalloc meets its specification *)

Definition run (m : rmap) (x size : Z) : Prop :=
  forall y, x <= y < x + size -> free m y.

(** Interleaved swap space is allocated inside one block of [dmmax] units. *)
Definition same_block (c : mapcfg) (x size : Z) : Prop :=
  is_swapmap c = true -> 1 < nswdev c -> x / dmmax c = (x + size - 1) / dmmax c.

Definition fits (c : mapcfg) (m : rmap) (x size : Z) : Prop :=
  run m x size /\ same_block c x size.

(** The range [a, a+size) leaves the free set, with whatever an overflow of the
    table loses. *)
Definition taken (m m' : rmap) (a size : Z) : Prop :=
  (printed m' = printed m /\
   forall x, free m' x <-> free m x /\ ~ a <= x < a + size)
  \/
  (exists lo hi, printed m' = printed m ++ [(lo, hi)] /\
   forall x, free m' x <-> free m x /\ ~ a <= x < a + size /\ ~ lo <= x < hi).

Lemma run_in_seg lo l x size : segs_ok lo l -> 0 < size ->
  (forall y, x <= y < x + size -> in_segs l y) ->
  exists e, e ∈ l /\ m_addr e <= x /\ x + size <= seg_end e.
Proof.
  revert lo; induction l as [|e l IH]; intros lo Hok Hs Hrun.
  - specialize (Hrun x ltac:(lia)). by apply in_segs_nil in Hrun.
  - cbn in Hok. destruct Hok as (? & ? & ? & Hok).
    destruct (decide (m_addr e <= x < seg_end e)) as [Hx|Hx].
    + exists e. splits; [by left|lia|].
      destruct (Z.le_gt_cases (x + size) (seg_end e)) as [|Hgt]; [done|exfalso].
      specialize (Hrun (seg_end e) ltac:(lia)). apply in_segs_cons in Hrun as [Hr|Hr].
      * unfold in_seg in Hr. lia.
      * pose proof (segs_ok_bounds _ _ _ Hok Hr). unfold seg_end in *. lia.
    + assert (seg_end e < x) as Hgt.
      { pose proof (Hrun x ltac:(lia)) as Hr. apply in_segs_cons in Hr as [Hr|Hr]; [done|].
        pose proof (segs_ok_bounds _ _ _ Hok Hr). unfold seg_end. lia. }
      destruct (IH _ Hok Hs) as (e' & ? & ? & ?).
      { intros y Hy. pose proof (Hrun y Hy) as Hr. apply in_segs_cons in Hr as [Hr|Hr]; [|done].
        unfold in_seg in Hr. lia. }
      exists e'. splits; [by right|done|done].
Qed.

Lemma segs_ok_elem lo l e : segs_ok lo l -> e ∈ l -> lo < m_addr e.
Proof.
  revert lo; induction l as [|e' l IH]; cbn; intros lo Hok He; [by apply not_elem_of_nil in He|].
  destruct Hok as (? & ? & ? & Hok). apply elem_of_cons in He as [->|He]; [done|].
  specialize (IH _ Hok He). lia.
Qed.

Lemma block_start dm A : 0 < dm -> 0 < A ->
  exists q, A + (dm - Z.rem A dm) = (q + 1) * dm /\ q * dm <= A < (q + 1) * dm.
Proof.
  intros. rewrite Z.rem_mod_nonneg by lia. exists (A / dm).
  pose proof (Z.div_mod A dm ltac:(lia)). pose proof (Z.mod_pos_bound A dm ltac:(lia)). nia.
Qed.

Lemma div_between q dm x : 0 < dm -> q * dm <= x < (q + 1) * dm -> x / dm = q.
Proof. intros. symmetry. apply (Z.div_unique _ _ _ (x - q * dm)); nia. Qed.

(** Where the code places a request in a segment starting at [A]. *)
Definition place (c : mapcfg) (A size : Z) : Z :=
  let first := dmmax c - Z.rem A (dmmax c) in
  if is_swapmap c && (nswdev c >? 1) && (first <? size) then A + first else A.

(** A piece replaced by [l'], the rest of the map unchanged. *)
Lemma replaced m pre b post n l' n' a size :
  ents m = layout (pre ++ b :: post) n -> segs_ok 0 (pre ++ l' ++ post) ->
  segs_ok 0 (pre ++ b :: post) -> (length l' + n' = S n)%nat ->
  (forall x, in_segs l' x <-> in_seg x b /\ ~ a <= x < a + size) ->
  m_addr b <= a -> a + size <= seg_end b ->
  let m' := set_ents m (layout (pre ++ l' ++ post) n') in
  wf m' /\ length (ents m') = length (ents m) /\
  (forall x, free m' x <-> free m x /\ ~ a <= x < a + size).
Proof.
  intros Hm Hok' Hok Hlen Hx Ha Hend m'. splits.
  - by eexists _, _.
  - cbn. rewrite Hm, !length_layout, !length_app. cbn. lia.
  - intros x. rewrite (free_wf m _ n) by done.
    rewrite (free_wf _ (pre ++ l' ++ post) n') by done.
    apply segs_ok_app in Hok as [Hok1 Hok2]. cbn in Hok2. conj.
    rewrite !in_segs_app, in_segs_cons, Hx.
    destruct (decide (in_segs pre x)) as [Hi|];
      [pose proof (segs_ok_bounds _ _ _ Hok1 Hi)|];
    (destruct (decide (in_segs post x)) as [Hj|];
      [pose proof (segs_ok_bounds _ _ _ H2 Hj)|]);
    unfold in_seg, seg_end in *; seglia.
Qed.

Section malloc.
Context (c : mapcfg) (size : Z).
Hypothesis Hsize : 0 < size.
Hypothesis Hswap : is_swapmap c = true -> 0 < dmmax c /\ size <= dmmax c.

Lemma place_ge A : 0 < A -> A <= place c A size.
Proof.
  intros HA. unfold place. destruct (is_swapmap c) eqn:E; cbn [andb]; [|lia].
  destruct (block_start (dmmax c) A) as (q & ? & ?); [tauto|done|].
  destruct (_ && _); lia.
Qed.

Lemma place_block A : 0 < A -> same_block c (place c A size) size.
Proof.
  intros HA Hsw Hn. destruct (Hswap Hsw) as [Hdm Hle]. unfold place. rewrite Hsw, Z.gtb_ltb.
  destruct (block_start (dmmax c) A) as (q & Hq & Hlo); [done|done|].
  destruct (Z.ltb_spec 1 (nswdev c)); [|lia]. cbn [andb].
  destruct (Z.ltb_spec (dmmax c - Z.rem A (dmmax c)) size).
  - rewrite Hq, !(div_between (q + 1)); lia.
  - rewrite !(div_between q); lia.
Qed.

Lemma place_least A x : 0 < A -> A <= x -> same_block c x size -> place c A size <= x.
Proof.
  intros HA Hx Hb. unfold place. destruct (is_swapmap c) eqn:Hsw; cbn [andb]; [|lia].
  rewrite Z.gtb_ltb. destruct (Z.ltb_spec 1 (nswdev c)) as [Hn|]; cbn [andb]; [|lia].
  destruct (Hswap eq_refl) as [Hdm Hle]. specialize (Hb Hsw Hn).
  destruct (Z.ltb_spec (dmmax c - Z.rem A (dmmax c)) size); [|lia].
  destruct (block_start (dmmax c) A) as (q & Hq & Hlo); [done|done|].
  destruct (Z.le_gt_cases (A + (dmmax c - Z.rem A (dmmax c))) x) as [|Hgt]; [done|exfalso].
  rewrite (div_between q) in Hb by lia.
  assert (q + 1 <= (x + size - 1) / dmmax c) by (apply Z.div_le_lower_bound; lia). lia.
Qed.

(** A segment that is passed over holds no place for the request. *)
Definition skipped (e : mapent) : Prop := seg_end e < place c (m_addr e) size + size.

Lemma skipped_no_fit e x : 0 < m_addr e -> skipped e ->
  m_addr e <= x -> x + size <= seg_end e -> ~ same_block c x size.
Proof.
  intros HA Hsk Hx Hend Hb. pose proof (place_least _ _ HA Hx Hb). unfold skipped in Hsk. lia.
Qed.

Lemma no_fit m l n : ents m = layout l n -> segs_ok 0 l -> Forall skipped l ->
  forall x, ~ fits c m x size.
Proof.
  intros Hm Hok Hsk x [Hrun Hb].
  destruct (run_in_seg 0 l x size Hok Hsize) as (e & He & Hx & Hend).
  { intros y Hy. rewrite <- (free_wf m l n) by done. by apply Hrun. }
  rewrite Forall_forall in Hsk. eapply skipped_no_fit; eauto.
  by eapply (segs_ok_elem 0 l).
Qed.

Lemma fit_least m pre b post n x :
  ents m = layout (pre ++ b :: post) n -> segs_ok 0 (pre ++ b :: post) ->
  Forall skipped pre -> fits c m x size -> place c (m_addr b) size <= x.
Proof.
  intros Hm Hok Hsk [Hrun Hb].
  destruct (run_in_seg 0 _ x size Hok Hsize) as (e & He & Hx & Hend).
  { intros y Hy. rewrite <- (free_wf m _ n) by done. by apply Hrun. }
  pose proof (segs_ok_elem _ _ _ Hok He). rewrite Forall_forall in Hsk.
  pose proof (segs_ok_elem _ _ b Hok ltac:(rewrite elem_of_app, elem_of_cons; auto)).
  apply segs_ok_app in Hok as [Hok1 Hok2]. cbn in Hok2. conj.
  rewrite elem_of_app, elem_of_cons in He. destruct He as [He|[->|He]].
  - exfalso. by eapply (skipped_no_fit e x); eauto.
  - by apply place_least.
  - apply place_least; auto. pose proof (segs_ok_elem _ _ _ H4 He). lia.
Qed.

Lemma done_ents m : ents (rmfree_done c m) = ents m.
Proof. unfold rmfree_done. by destruct (_ && _). Qed.
Lemma done_printed m : printed (rmfree_done c m) = printed m.
Proof. unfold rmfree_done. by destruct (_ && _). Qed.
Lemma done_free m x : free (rmfree_done c m) x <-> free m x.
Proof. unfold free. by rewrite done_ents. Qed.
Lemma done_wf m : wf (rmfree_done c m) <-> wf m.
Proof. unfold wf. by rewrite done_ents. Qed.

Definition take_ok (m : rmap) (a : Z) (r : outcome (option (rmap * Z))) : Prop :=
  exists m', r = Ret (Some (m', a)) /\ wf m' /\
    length (ents m') = length (ents m) /\ taken m m' a size.

Lemma take_ok_intro m pre b post n l' n' a :
  ents m = layout (pre ++ b :: post) n -> segs_ok 0 (pre ++ l' ++ post) ->
  segs_ok 0 (pre ++ b :: post) -> (length l' + n' = S n)%nat ->
  (forall x, in_segs l' x <-> in_seg x b /\ ~ a <= x < a + size) ->
  m_addr b <= a -> a + size <= seg_end b ->
  take_ok m a (Ret (Some (set_ents m (layout (pre ++ l' ++ post) n'), a))).
Proof.
  intros Hm Hok' Hok Hlen Hx Ha Hend. eexists. split; [done|].
  destruct (replaced m pre b post n l' n' a size) as (? & ? & ?); auto.
  splits; [done|done|]. by left.
Qed.

Lemma take_front m pre b post n :
  ents m = layout (pre ++ b :: post) n -> segs_ok 0 (pre ++ b :: post) ->
  size <= m_size b ->
  take_ok m (m_addr b)
    (a1 ← wr (ents m) (length pre) (Ent (m_size b - size) (m_addr b + size));
     a2 ← (if m_size b - size =? 0 then shift_do (length (ents m)) a1 (length pre) else Ret a1);
     Ret (Some (set_ents m a2, m_addr b))).
Proof.
  intros Hm Hok Hs. rewrite Hm. lay.
  pose proof Hok as Hok'. apply segs_ok_app in Hok' as [Hok1 Hok2]. cbn in Hok2.
  destruct Hok2 as (? & ? & ? & Hok2).
  destruct (Z.eqb_spec (m_size b - size) 0).
  - rewrite layout_shift_do; [|by eapply segs_ok_size|rewrite length_layout, length_app; cbn; lia].
    bind. eapply (take_ok_intro m pre b post n []); eauto.
    + apply segs_ok_app. split; [done|]. eapply segs_ok_weaken; [|exact Hok2]. lia.
    + intros x. rewrite in_segs_nil. unfold in_seg, seg_end. lia.
    + lia.
    + unfold seg_end. lia.
  - bind. eapply (take_ok_intro m pre b post n [_]); eauto.
    + apply segs_ok_app. split; [done|]. cbn. splits; try lia.
      eapply segs_ok_weaken; [|exact Hok2]. lia.
    + intros x. insegs. lia.
    + lia.
    + unfold seg_end. lia.
Qed.

(** The allocation from the middle of a swap segment. *)
Lemma take_split m pre b post n first :
  ents m = layout (pre ++ b :: post) n -> segs_ok 0 (pre ++ b :: post) ->
  (2 <= length (ents m))%nat ->
  0 < first -> first + size <= m_size b ->
  let addr := m_addr b + first in
  let rest := m_size b - first - size in
  take_ok m addr
    (a1 ← wr (ents m) (length pre) (Ent first (m_addr b));
     m2 ← (if rest =? 0 then Ret (set_ents m a1)
           else rmfree c (set_ents m a1) rest (addr + size));
     Ret (Some (m2, addr))).
Proof.
  intros Hm Hok Hlen Hf Hfit addr rest. rewrite Hm. lay.
  pose proof Hok as Hok'. apply segs_ok_app in Hok' as [Hok1 Hok2]. cbn in Hok2.
  destruct Hok2 as (? & ? & ? & Hok2).
  assert (segs_ok 0 (pre ++ Ent first (m_addr b) :: post)) as Hok'.
  { apply segs_ok_app. split; [done|]. cbn. splits; try lia.
    eapply segs_ok_weaken; [|exact Hok2]. lia. }
  destruct (Z.eqb_spec rest 0).
  { bind. eapply (take_ok_intro m pre b post n [_]); eauto; unfold addr, seg_end; try lia.
    intros x. insegs. lia. }
  set (m1 := set_ents m _).
  assert (forall x, free m1 x <-> free m x /\ ~ addr <= x < seg_end b) as Hm1.
  { intros x. rewrite (free_wf m _ n) by done. rewrite (free_wf m1 _ n) by done.
    destruct (decide (in_segs pre x)) as [Hi|];
      [pose proof (segs_ok_bounds _ _ _ Hok1 Hi)|];
    (destruct (decide (in_segs post x)) as [Hj|];
      [pose proof (segs_ok_bounds _ _ _ Hok2 Hj)|]); unfold addr; seglia. }
  destruct (rmfree_cases c m1 rest (addr + size)) as (r & Hr & _ & Hfree).
  - by eexists _, n.
  - cbn. rewrite Hm in Hlen. rewrite length_layout, length_app in *. done.
  - pose proof (top_ge _ _ Hok1). unfold addr; lia.
  - unfold rest in *; lia.
  - unfold addr, rest; lia.
  - destruct Hfree as (m2 & -> & Hwf & Hl & Hfr & _).
    { intros (x & Hx & Hfx). apply Hm1 in Hfx as [_ Hfx]. unfold seg_end in *. lia. }
    rewrite Hr. bind. eexists. splits; [done|by apply done_wf| |].
    + rewrite done_ents, Hl. cbn. rewrite Hm, !length_layout, !length_app. done.
    + assert (forall x, (free m1 x \/ addr + size <= x < addr + size + rest) <->
                free m x /\ ~ addr <= x < addr + size) as Hu.
      { assert (addr + size + rest = seg_end b) as -> by (unfold addr, rest, seg_end; lia).
        intros x. rewrite Hm1. split.
        - intros [[? ?]|?].
          + split; [done|]. unfold addr, rest, seg_end in *. lia.
          + split; [|lia]. rewrite (free_wf m _ n) by done.
            insegs. unfold addr, seg_end in *. lia.
        - intros [? ?]. destruct (decide (addr <= x < seg_end b)); [right; lia|by left]. }
      unfold taken. setoid_rewrite done_free. rewrite done_printed.
      destruct Hfr as [[-> Hfr]|(L & lo & hi & _ & _ & HL & -> & _ & _ & Hfr)].
      * left. split; [done|]. intros x. by rewrite Hfr, Hu.
      * right. exists lo, hi. split; [done|]. intros x.
        rewrite Hfr, HL, Hu. tauto.
Qed.

Definition aligned (m : rmap) : Prop :=
  is_swapmap c = true -> Forall (fun e => Z.rem (m_addr e) (CLSIZE c) = 0) (ents m).

Lemma rmalloc_take_spec m pre b post n :
  ents m = layout (pre ++ b :: post) n -> segs_ok 0 (pre ++ b :: post) ->
  (2 <= length (ents m))%nat -> aligned m -> size <= m_size b ->
  (skipped b -> rmalloc_take c m (length pre) size = Ret None) /\
  (~ skipped b -> take_ok m (place c (m_addr b) size) (rmalloc_take c m (length pre) size)).
Proof.
  intros Hm Hok Hlen Hal Hs.
  pose proof (take_front m pre b post n Hm Hok Hs) as Hfront.
  assert (0 < m_addr b) as Hb.
  { eapply segs_ok_elem; [exact Hok|]. rewrite elem_of_app, elem_of_cons; auto. }
  assert (rd (ents m) (length pre) = Ret b) as Hrd by (rewrite Hm; apply layout_rd).
  unfold skipped, place, seg_end, rmalloc_take. rewrite Hrd. bind.
  set (first := dmmax c - Z.rem (m_addr b) (dmmax c)).
  destruct (is_swapmap c && (nswdev c >? 1) && (first <? size)) eqn:Hcase.
  - apply andb_true_iff in Hcase as [Hcase Hlt]. apply andb_true_iff in Hcase as [Hsw Hn].
    apply Z.ltb_lt in Hlt. destruct (Hswap Hsw) as [Hdm Hle].
    destruct (block_start (dmmax c) (m_addr b)) as (q & Hq & Hlo); [done|done|].
    destruct (Z.ltb_spec (m_size b - first) size).
    + split; [done|lia].
    + split; [lia|]. intros _. apply (take_split m pre b post n first); auto; lia.
  - split; [lia|]. intros _.
    assert ((is_swapmap c && negb (Z.rem (m_addr b) (CLSIZE c) =? 0)) = false) as ->.
    { destruct (is_swapmap c) eqn:Hsw; [|done]. specialize (Hal Hsw).
      rewrite Hm in Hal. unfold layout in Hal. rewrite <- app_assoc in Hal.
      apply Forall_app in Hal as [_ Hal]. apply Forall_cons in Hal as [-> _]. done. }
    exact Hfront.
Qed.

Lemma rmalloc_loop_spec post : forall m pre n fuel,
  ents m = layout (pre ++ post) n -> segs_ok 0 (pre ++ post) ->
  (2 <= length (ents m))%nat -> aligned m ->
  Forall skipped pre -> (length post < fuel)%nat ->
  exists m' a, rmalloc_loop c fuel m (length pre) size = Ret (m', a) /\
    wf m' /\ length (ents m') = length (ents m) /\
    ((a = 0 /\ m' = m /\ forall x, ~ fits c m x size) \/
     (0 < a /\ fits c m a size /\ (forall x, fits c m x size -> a <= x) /\
      taken m m' a size)).
Proof.
  induction post as [|b post IH]; intros m pre n fuel Hm Hok Hlen Hal Hsk Hf;
    (destruct fuel as [|fuel]; [cbn in Hf; lia|]); cbn [rmalloc_loop].
  - rewrite app_nil_r in *.
    assert (rd (ents m) (length pre) = Ret zent) as -> by (rewrite Hm; apply layout_rd_end).
    cbn.
    exists m, 0. splits; [done|by exists pre, n|done|]. left. splits; try done.
    by eapply no_fit.
  - assert (rd (ents m) (length pre) = Ret b) as -> by (rewrite Hm; apply layout_rd). bind.
    pose proof Hok as Hok'. apply segs_ok_app in Hok' as [Hok1 Hok2]. cbn in Hok2.
    destruct Hok2 as (Hlo & Hbs & Hbe & Hok2). pose proof (top_ge _ _ Hok1).
    destruct (Z.eqb_spec (m_size b) 0); [lia|]. rewrite Z.geb_leb.
    assert (skipped b -> exists m' a, rmalloc_loop c fuel m (S (length pre)) size = Ret (m', a) /\
      wf m' /\ length (ents m') = length (ents m) /\
      ((a = 0 /\ m' = m /\ forall x, ~ fits c m x size) \/
       (0 < a /\ fits c m a size /\ (forall x, fits c m x size -> a <= x) /\
        taken m m' a size))) as Hnext.
    { intros Hb. rewrite app_cons_snoc in Hm, Hok. rewrite (length_snoc pre b).
      eapply IH; eauto; [|cbn in Hf; lia]. apply Forall_app; split; [done|]. by constructor. }
    destruct (Z.leb_spec size (m_size b)).
    + destruct (rmalloc_take_spec m pre b post n Hm Hok Hlen Hal) as [Hno Hyes]; [done|].
      destruct (decide (seg_end b < place c (m_addr b) size + size)) as [Hd|Hd].
      { rewrite (Hno Hd). bind. by apply Hnext. }
      destruct (Hyes Hd) as (m' & -> & Hwf & Hl & Htk). bind.
      pose proof (place_ge (m_addr b) ltac:(lia)).
      exists m', (place c (m_addr b) size). splits; [done|done|done|]. right. splits; [lia| | |done].
      * split; [|apply place_block; lia]. intros y Hy. rewrite (free_wf m _ n) by done.
        insegs. unfold seg_end in *. lia.
      * intros x Hx. by eapply fit_least.
    + apply Hnext. unfold skipped, seg_end. pose proof (place_ge (m_addr b) ltac:(lia)). lia.
Qed.

End malloc.

(** ** rmget meets its specification *)

Definition misses (addr : Z) (e : mapent) : Prop := ~ m_addr e <= addr < seg_end e.

Lemma rmget_find_mid pre : forall pre0 post n fuel addr,
  Forall (fun e => 0 < m_size e) pre -> Forall (misses addr) pre ->
  match post with [] => True | b :: _ => 0 < m_size b /\ m_addr b <= addr < seg_end b end ->
  (length pre < fuel)%nat ->
  rmget_find fuel (pre0 ++ pre ++ layout post n) (length pre0) addr =
    Ret (length (pre0 ++ pre)).
Proof.
  unfold misses, seg_end.
  induction pre as [|e pre IH]; intros pre0 post n fuel addr Hs Hm Hp Hf;
    (destruct fuel as [|fuel]; [cbn in Hf; lia|]); cbn [app rmget_find].
  - rewrite app_nil_r. destruct post as [|b post]; unfold layout; cbn [app replicate]; arr.
    + done.
    + bcase; [lia|]. destruct (Z.leb_spec (m_addr b) addr); [|lia].
      rewrite Z.gtb_ltb. destruct (Z.ltb_spec addr (m_addr b + m_size b)); [done|lia].
  - apply Forall_cons in Hm as [Hm Hm'], Hs as [Hs Hs']. arr. bcase; [lia|].
    rewrite Z.gtb_ltb. destruct (Z.leb_spec (m_addr e) addr), (Z.ltb_spec addr (m_addr e + m_size e));
      try lia; cbn [andb];
    rewrite app_cons_snoc, (length_snoc _ e), IH by (done || cbn in Hf; lia);
    by rewrite <- app_assoc.
Qed.

Lemma find_delim_mid post : forall pre n fuel,
  Forall (fun e => 0 < m_size e) post -> (length post < fuel)%nat ->
  find_delim fuel (pre ++ layout post n) (length pre) = Ret (length (pre ++ post)).
Proof.
  induction post as [|e post IH]; intros pre n fuel Hs Hf;
    (destruct fuel as [|fuel]; [cbn in Hf; lia|]); unfold layout; cbn [app replicate find_delim]; arr.
  - by rewrite app_nil_r.
  - apply Forall_cons in Hs as [Hs Hs']. bcase; [lia|].
    rewrite app_cons_snoc, (length_snoc _ e).
    pose proof (IH (pre ++ [e]) n fuel Hs' ltac:(cbn in Hf; lia)) as IH'.
    unfold layout in IH'. cbn [replicate] in IH'. rewrite IH'. by rewrite <- app_assoc.
Qed.

Lemma shift_up_mid pre b q : forall z tl,
  shift_up (length q) (pre ++ b :: q ++ z :: tl) (length pre) =
    Ret (pre ++ b :: default z (head q) :: q ++ tl).
Proof.
  induction q as [|e q IH] using rev_ind; intros z tl; [done|].
  rewrite length_app, Nat.add_comm. cbn [length Nat.add shift_up].
  replace (length pre + S (length q))%nat with (length (pre ++ b :: q))
    by (rewrite length_app; cbn; lia).
  replace (pre ++ b :: (q ++ [e]) ++ z :: tl) with ((pre ++ b :: q) ++ e :: z :: tl)
    by (by rewrite <- !app_assoc).
  arr. rewrite <- app_assoc. cbn [app]. rewrite IH, <- app_assoc.
  by destruct q.
Qed.

Lemma layout_find addr l : segs_ok 0 l ->
  (Forall (misses addr) l) \/
  (exists pre b post, l = pre ++ b :: post /\ Forall (misses addr) pre /\
     m_addr b <= addr < seg_end b).
Proof.
  intros _. induction l as [|e l IH]; [left; constructor|].
  destruct (decide (m_addr e <= addr < seg_end e)) as [H|H].
  - right. by exists [], e, l.
  - destruct IH as [IH|(pre & b & post & -> & ? & ?)].
    + left. by constructor.
    + right. exists (e :: pre), b, post. splits; [done|by constructor|lia|lia].
Qed.

Definition full (m : rmap) : Prop := exists l, ents m = layout l O /\ segs_ok 0 l.

Definition get_ok (m : rmap) (size addr : Z) (r : outcome (rmap * Z)) : Prop :=
  exists m' a, r = Ret (m', a) /\ wf m' /\ length (ents m') = length (ents m) /\
    ((a = addr /\ run m addr size /\
      forall x, free m' x <-> free m x /\ ~ addr <= x < addr + size) \/
     (a = 0 /\ m' = m /\ (~ run m addr size \/
        (full m /\ free m (addr - 1) /\ free m (addr + size))))).

Lemma get_ok_intro m pre b post n l' n' addr size :
  ents m = layout (pre ++ b :: post) n -> segs_ok 0 (pre ++ l' ++ post) ->
  segs_ok 0 (pre ++ b :: post) -> (length l' + n' = S n)%nat ->
  (forall x, in_segs l' x <-> in_seg x b /\ ~ addr <= x < addr + size) ->
  m_addr b <= addr -> addr + size <= seg_end b ->
  get_ok m size addr (Ret (set_ents m (layout (pre ++ l' ++ post) n'), addr)).
Proof.
  intros Hm Hok' Hok Hlen Hx Ha Hend. eexists _, _. split; [done|].
  destruct (replaced m pre b post n l' n' addr size) as (? & ? & ?); auto.
  splits; [done|done|]. left. splits; [done| |done].
  intros y Hy. rewrite (free_wf m _ n) by done. insegs. unfold seg_end in Hend. lia.
Qed.

Lemma get_fail m n l size addr :
  ents m = layout l n -> segs_ok 0 l ->
  (~ run m addr size \/ (full m /\ free m (addr - 1) /\ free m (addr + size))) ->
  get_ok m size addr (Ret (m, 0)).
Proof. intros Hm Hok H. exists m, 0. splits; [done|by exists l, n|done|]. right. auto. Qed.

Lemma rmget_spec_raw c m size addr :
  wf m -> is_swapmap c = false -> 0 < size -> get_ok m size addr (rmget c m size addr).
Proof.
  intros (l & n & Hm & Hok) Hsw Hs. unfold rmget. rewrite Hsw.
  destruct (Z.leb_spec size 0); [lia|]. rewrite Hm.
  pose proof (segs_ok_size _ _ Hok) as Hsz.
  destruct (layout_find addr l Hok) as [Hmiss|(pre & b & post & -> & Hmiss & Hb)].
  - pose proof (rmget_find_mid l [] [] n (length (layout l n)) addr Hsz Hmiss I) as Hf.
    cbn [app length] in Hf. change (l ++ layout [] n) with (layout l n) in Hf. rewrite Hf by (rewrite length_layout; lia). bind. lay. cbn.
    eapply get_fail; eauto. left. intros Hrun. specialize (Hrun addr ltac:(lia)).
    rewrite (free_wf m l n) in Hrun by done. unfold in_segs in Hrun.
    apply Exists_exists in Hrun as (e & He & Hin). rewrite Forall_forall in Hmiss.
    by apply (Hmiss e He).
  - pose proof Hsz as Hsz'. apply Forall_app in Hsz' as [Hsz1 Hsz2].
    pose proof Hsz2 as Hsz3. apply Forall_cons in Hsz3 as [Hbs Hsz3].
    pose proof (rmget_find_mid pre [] (b :: post) n (length (layout (pre ++ b :: post) n)) addr
      Hsz1 Hmiss (conj Hbs Hb)) as Hf.
    assert (layout (pre ++ b :: post) n = [] ++ pre ++ layout (b :: post) n) as Hlay
      by (unfold layout; by rewrite <- app_assoc).
    rewrite <- Hlay in Hf. cbn [app length] in Hf.
    rewrite Hf by (rewrite length_layout, length_app; lia). clear Hf. bind. lay.
    pose proof Hok as Hok'. apply segs_ok_app in Hok' as [Hok1 Hok2]. cbn in Hok2.
    destruct Hok2 as (? & _ & ? & Hok2). unfold seg_end in Hb.
    destruct (Z.eqb_spec (m_size b) 0); [lia|].
    destruct (Z.ltb_spec (m_addr b + m_size b) (addr + size)).
    { eapply get_fail; eauto. left. intros Hrun.
      specialize (Hrun (m_addr b + m_size b) ltac:(lia)).
      rewrite (free_wf m _ n) in Hrun by done. apply in_segs_app in Hrun as [Hr|Hr].
      - pose proof (segs_ok_bounds _ _ _ Hok1 Hr). lia.
      - apply in_segs_cons in Hr as [Hr|Hr]; [unfold in_seg, seg_end in Hr; lia|].
        pose proof (segs_ok_bounds _ _ _ Hok2 Hr). lia. }
    destruct (Z.eqb_spec (m_addr b) addr).
    + destruct (Z.eqb_spec (m_addr b + m_size b) (addr + size)).
      * rewrite layout_shift by (rewrite ?length_layout, ?length_app; cbn; auto; lia). bind.
        eapply (get_ok_intro m pre b post n []); eauto; unfold seg_end; try lia.
        -- apply segs_ok_app. split; [done|]. eapply segs_ok_weaken; [|exact Hok2]. lia.
        -- intros x. rewrite in_segs_nil. unfold in_seg, seg_end. lia.
      * eapply (get_ok_intro m pre b post n [_]); eauto; unfold seg_end; try lia.
        -- apply segs_ok_app. split; [done|]. cbn. splits; try lia.
           eapply segs_ok_weaken; [|exact Hok2]. lia.
        -- intros x. insegs. lia.
    + destruct (Z.eqb_spec (m_addr b + m_size b) (addr + size)).
      * lay. eapply (get_ok_intro m pre b post n [_]); eauto; unfold seg_end; try lia.
        -- apply segs_ok_app. split; [done|]. cbn. splits; try lia.
           eapply segs_ok_weaken; [|exact Hok2]. lia.
        -- intros x. insegs. lia.
      * rewrite Hlay. change ([] ++ pre ++ layout (b :: post) n) with (pre ++ layout (b :: post) n).
        rewrite find_delim_mid
          by (try done; rewrite length_app, length_layout; cbn; lia). bind.
        rewrite !length_app, length_layout. cbn [length].
        destruct n as [|n].
        -- rewrite bool_decide_true by lia. eapply get_fail; eauto. right.
           rewrite !(free_wf m _ O) by done.
           splits; [by eexists|insegs; lia|insegs; lia].
        -- rewrite bool_decide_false by lia.
           replace (length pre + S (length post) - length pre)%nat
             with (length (post ++ [zent])) by (rewrite length_app; cbn; lia).
           unfold layout at 1. cbn [app replicate].
           replace (post ++ zent :: zent :: replicate n zent)
             with ((post ++ [zent]) ++ zent :: replicate n zent) by (by rewrite <- app_assoc).
           rewrite shift_up_mid. bind. arr.
           rewrite <- app_assoc. cbn [app].
           replace (pre ++ _ :: _ :: post ++ zent :: replicate n zent) with
             (layout (pre ++ [Ent (addr - m_addr b) (m_addr b);
                Ent (m_addr b + m_size b - (addr + size)) (addr + size)] ++ post) n)
             by (unfold layout; by rewrite <- !app_assoc).
           eapply (get_ok_intro m pre b post (S n)); eauto; unfold seg_end; try lia.
           ++ apply segs_ok_app. split; [done|]. cbn. splits; try lia.
              eapply segs_ok_weaken; [|exact Hok2]. lia.
           ++ intros x. insegs. lia.
Qed.

(** ** The representation is canonical *)

Lemma segs_canonical lo1 lo2 l1 : forall l2, segs_ok lo1 l1 -> segs_ok lo2 l2 ->
  (forall x, in_segs l1 x <-> in_segs l2 x) -> l1 = l2.
Proof.
  revert lo1 lo2; induction l1 as [|e1 l1 IH]; intros lo1 lo2 [|e2 l2] H1 H2 Hx.
  - done.
  - cbn in H2. specialize (Hx (m_addr e2)). rewrite in_segs_nil in Hx.
    exfalso. apply Hx. insegs. lia.
  - cbn in H1. specialize (Hx (m_addr e1)). rewrite in_segs_nil in Hx.
    exfalso. apply Hx. insegs. lia.
  - cbn in H1, H2. destruct H1 as (? & ? & ? & H1), H2 as (? & ? & ? & H2).
    assert (forall y, in_segs l1 y -> m_addr e1 + m_size e1 < y) as B1
      by (intros y Hy; pose proof (segs_ok_bounds _ _ _ H1 Hy); lia).
    assert (forall y, in_segs l2 y -> m_addr e2 + m_size e2 < y) as B2
      by (intros y Hy; pose proof (segs_ok_bounds _ _ _ H2 Hy); lia).
    assert (forall x, in_seg x e1 \/ in_segs l1 x <-> in_seg x e2 \/ in_segs l2 x) as Hx'
      by (intros x; rewrite <- !in_segs_cons; apply Hx).
    unfold in_seg, seg_end in Hx'.
    assert (m_addr e1 = m_addr e2) as Ha.
    { pose proof (proj1 (Hx' (m_addr e1)) ltac:(lia)) as [?|F1]; [|apply B2 in F1];
      pose proof (proj2 (Hx' (m_addr e2)) ltac:(lia)) as [?|F2]; try apply B1 in F2; lia. }
    assert (m_size e1 = m_size e2) as Hs.
    { destruct (Z.lt_trichotomy (m_size e1) (m_size e2)) as [Hlt|[|Hlt]]; [|done|];
        exfalso.
      - pose proof (proj2 (Hx' (m_addr e1 + m_size e1)) ltac:(lia)) as [?|F]; [lia|].
        apply B1 in F. lia.
      - pose proof (proj1 (Hx' (m_addr e2 + m_size e2)) ltac:(lia)) as [?|F]; [lia|].
        apply B2 in F. lia. }
    f_equal; [destruct e1, e2; cbn in *; congruence|].
    eapply IH; eauto. intros x. specialize (Hx' x). rewrite Ha, Hs in *.
    split; intros Hin.
    + pose proof (B1 x Hin). destruct (proj1 Hx' (or_intror Hin)); [lia|done].
    + pose proof (B2 x Hin). destruct (proj2 Hx' (or_intror Hin)); [lia|done].
Qed.

Lemma wf_canonical m1 m2 : wf m1 -> wf m2 -> length (ents m1) = length (ents m2) ->
  (forall x, free m1 x <-> free m2 x) -> ents m1 = ents m2.
Proof.
  intros (l1 & n1 & H1 & Hok1) (l2 & n2 & H2 & Hok2) Hlen Hx.
  assert (l1 = l2) as ->.
  { eapply segs_canonical; eauto. intros x.
    rewrite <- (free_wf m1 l1 n1), <- (free_wf m2 l2 n2) by done. apply Hx. }
  rewrite H1, H2, !length_layout in Hlen. rewrite H1, H2.
  by replace n1 with n2 by lia.
Qed.

(** What [rmalloc] does from the top of the table. *)
Lemma rmalloc_loop_top c m size :
  wf m -> (2 <= length (ents m))%nat -> 0 < size ->
  (is_swapmap c = true -> 0 < dmmax c /\ size <= dmmax c) -> aligned c m ->
  exists m' a, rmalloc c m size = Ret (m', a) /\
    wf m' /\ length (ents m') = length (ents m) /\
    ((a = 0 /\ m' = m /\ forall x, ~ fits c m x size) \/
     (0 < a /\ fits c m a size /\ (forall x, fits c m x size -> a <= x) /\
      taken m m' a size)).
Proof.
  intros (l & n & Hm & Hok) Hlen Hs Hsw Hal. unfold rmalloc.
  destruct (Z.leb_spec size 0); [lia|]. cbn [orb].
  assert ((is_swapmap c && (size >? dmmax c)) = false) as ->.
  { destruct (is_swapmap c); [|done]. destruct Hsw; [done|]. rewrite Z.gtb_ltb. cbn.
    destruct (Z.ltb_spec (dmmax c) size); [lia|done]. }
  apply (rmalloc_loop_spec c size Hs Hsw l m [] n); auto; try by constructor.
  rewrite Hm, length_layout. lia.
Qed.

Lemma segs_ok_max lo l e : segs_ok lo l -> e ∈ l -> seg_end e <= INT_MAX.
Proof.
  revert lo; induction l as [|e' l IH]; cbn; intros lo Hok He; [by apply not_elem_of_nil in He|].
  destruct Hok as (? & ? & ? & Hok). apply elem_of_cons in He as [->|He]; eauto.
Qed.

(** A map made by [rminit] over a zeroed table of at least two slots. *)
Lemma rminit_wf m n size addr :
  ents m = replicate (S (S n)) zent -> 0 < addr -> 0 < size -> addr + size <= INT_MAX ->
  exists m', rminit m size addr = Ret m' /\ ents m' = layout [Ent size addr] n /\ wf m'.
Proof.
  intros Hm Ha Hs Hmax. unfold rminit. rewrite Hm.
  unfold wr. cbn. rewrite !bool_decide_true by lia. bind. cbn.
  eexists. split; [reflexivity|]. split; [done|].
  exists [Ent size addr], n. split; [done|]. cbn. lia.
Qed.

(** ** Properties *)

(** C33: freeing a range.  On a well formed map with room for two slots,
    [rmfree] panics exactly when the range overlaps free space; otherwise it
    returns a well formed map of the same size whose free set is the old one
    plus the range (one range being reported and lost when the union needs
    more segments than the table can hold), and it wakes the waiters of the
    kernel map. *)
Theorem rmfree_spec (c : mapcfg) (m : rmap) (size addr : Z) :
  wf m -> (2 <= length (ents m))%nat ->
  0 < addr -> 0 < size -> addr + size <= INT_MAX ->
  (overlaps m addr size -> rmfree c m size addr = Panic "bad rmfree") /\
  (~ overlaps m addr size ->
   exists m', rmfree c m size addr = Ret m' /\ wf m' /\
     length (ents m') = length (ents m) /\ freed m m' addr size /\
     wakeups m' = (wakeups m + if is_kernelmap c && kmapwnt m then 1 else 0)%nat /\
     kmapwnt m' = kmapwnt m && negb (is_kernelmap c)).
Proof.
  intros Hwf Hlen Ha Hs Hmax.
  destruct (rmfree_cases c m size addr Hwf Hlen Ha Hs Hmax) as (r & -> & Hbad & Hgood).
  split; [intros Ho; by rewrite (Hbad Ho)|]. intros Ho.
  destruct (Hgood Ho) as (m' & -> & Hwf' & Hl & Hf & Hk & Hw). bind. eexists.
  split; [done|]. split; [by apply done_wf|]. rewrite done_ents. split; [done|].
  split.
  { unfold freed in *. setoid_rewrite done_free. by rewrite done_printed. }
  unfold rmfree_done. rewrite Hk.
  destruct (is_kernelmap c), (kmapwnt m) eqn:E; cbn; rewrite ?Hw, ?Hk, ?E; split; auto; lia.
Qed.

(** allocating.  [rmalloc] is lowest-address fit: it returns the least
    address from which [size] free units follow (inside one interleave block
    on the swap map), takes exactly these units out of the free set, and
    returns 0, leaving the map alone, exactly when there is no such address. *)
Theorem rmalloc_spec (c : mapcfg) (m : rmap) (size : Z) :
  wf m -> (2 <= length (ents m))%nat -> 0 < size ->
  (is_swapmap c = true -> 0 < dmmax c /\ size <= dmmax c) -> aligned c m ->
  exists m' a, rmalloc c m size = Ret (m', a) /\
    wf m' /\ length (ents m') = length (ents m) /\
    ((a = 0 /\ m' = m /\ forall x, ~ fits c m x size) \/
     (0 < a /\ fits c m a size /\ (forall x, fits c m x size -> a <= x) /\
      taken m m' a size)).
Proof.
  apply rmalloc_loop_top.
Qed.

(** Allocating at a given address.  [rmget] returns the address and takes
    exactly the requested range when all of it is free; it returns 0 and
    leaves the map alone when part of it is taken, or when the range is
    strictly inside a segment and the table has no slot for the split. *)
Theorem rmget_spec (c : mapcfg) (m : rmap) (size addr : Z) :
  wf m -> is_swapmap c = false -> 0 < size ->
  exists m' a, rmget c m size addr = Ret (m', a) /\
    wf m' /\ length (ents m') = length (ents m) /\
    ((a = addr /\ run m addr size /\
      forall x, free m' x <-> free m x /\ ~ addr <= x < addr + size) \/
     (a = 0 /\ m' = m /\ (~ run m addr size \/
        (full m /\ free m (addr - 1) /\ free m (addr + size))))).
Proof. apply rmget_spec_raw. Qed.

(** A free undoes an allocation.  When [rmalloc] did not overflow the
    table, giving the units back with [rmfree] rebuilds the very same array. *)
Theorem rmalloc_rmfree (c : mapcfg) (m m1 : rmap) (size a : Z) :
  wf m -> (2 <= length (ents m))%nat -> 0 < size ->
  (is_swapmap c = true -> 0 < dmmax c /\ size <= dmmax c) -> aligned c m ->
  rmalloc c m size = Ret (m1, a) -> a <> 0 -> printed m1 = printed m ->
  exists m2, rmfree c m1 size a = Ret m2 /\ ents m2 = ents m.
Proof.
  intros Hwf Hlen Hs Hsw Hal Hret Ha Hp.
  destruct (rmalloc_loop_top c m size Hwf Hlen Hs Hsw Hal) as (m' & a' & Heq & Hwf1 & Hl1 & Hcase).
  rewrite Hret in Heq. injection Heq as <- <-.
  destruct Hcase as [(? & _)|(Hpos & [Hrun _] & _ & Htk)]; [done|].
  destruct Htk as [[_ Htk]|(lo & hi & Hpr & _)]; cycle 1.
  { rewrite Hp in Hpr. apply (f_equal length) in Hpr. rewrite length_app in Hpr. cbn in Hpr. lia. }
  destruct (rmfree_cases c m1 size a) as (r & Hr & _ & Hgood); auto; [lia| |].
  { destruct Hwf as (l & n & Hm & Hok).
    destruct (run_in_seg 0 l a size Hok Hs) as (e & He & ? & ?).
    { intros y Hy. rewrite <- (free_wf m l n) by done. by apply Hrun. }
    pose proof (segs_ok_max _ _ _ Hok He). lia. }
  destruct Hgood as (m2 & -> & Hwf2 & Hl2 & Hf & _).
  { intros (x & Hx & Hfx). apply Htk in Hfx. lia. }
  rewrite Hr. bind. exists (rmfree_done c m2). split; [done|]. rewrite done_ents.
  assert (forall x, (free m1 x \/ a <= x < a + size) <-> free m x) as Hu.
  { intros x. rewrite Htk. split; [intros [?|?]; [tauto|by apply Hrun]|].
    intros ?. destruct (decide (a <= x < a + size)); auto. }
  destruct Hf as [[_ Hf]|(L & lo & hi & HLok & HLlen & HLx & _)].
  - apply wf_canonical; auto; [lia|]. intros x. by rewrite Hf, Hu.
  - exfalso. destruct Hwf as (l & n & Hm & Hok).
    assert (L = l) as ->.
    { eapply segs_canonical; eauto. intros x. rewrite HLx, Hu. by apply (free_wf m l n). }
    rewrite Hl1, Hm, length_layout in HLlen. lia.
Qed.

(** ** Witnesses *)

Definition cfg0 : mapcfg := Cfg false true 1 0 1.
Definition cfgsw : mapcfg := Cfg true false 2 8 1.
(** Six slots, two segments: [5,9) and [12,24); somebody waits for the map. *)
Definition map0 : rmap := Rmap (layout [Ent 4 5; Ent 12 12] 3) [] true 0.

Lemma map0_wf : wf map0.
Proof. exists [Ent 4 5; Ent 12 12], 3%nat. split; [done|]. cbn. unfold INT_MAX. lia. Qed.

Lemma rmfree_spec_witness :
  exists m', rmfree cfg0 map0 3 9 = Ret m' /\ freed map0 m' 9 3 /\
    ents m' = layout [Ent 19 5] 4 /\ wakeups m' = 1%nat.
Proof.
  destruct (rmfree_spec cfg0 map0 3 9 map0_wf ltac:(cbn; lia) ltac:(lia) ltac:(lia)
    ltac:(unfold INT_MAX; lia)) as [_ H].
  destruct H as (m' & Hr & _ & _ & Hf & _).
  - intros (x & Hx & Hf). revert Hf. unfold free, map0, layout. cbn. insegs. lia.
  - exists m'. split; [exact Hr|]. split; [exact Hf|].
    vm_compute in Hr. injection Hr as <-. split; reflexivity.
Defined.

Lemma rmalloc_spec_witness :
  exists m' a, rmalloc cfgsw map0 7 = Ret (m', a) /\ a = 16 /\ wf m'.
Proof.
  destruct (rmalloc_spec cfgsw map0 7 map0_wf ltac:(cbn; lia) ltac:(lia) ltac:(cbn; lia))
    as (m' & a & Hr & Hwf & _).
  - intros _. repeat constructor.
  - exists m', a. split; [exact Hr|]. vm_compute in Hr. injection Hr as <- <-.
    split; [reflexivity|exact Hwf].
Defined.

Lemma rmget_spec_witness :
  exists m' a, rmget cfg0 map0 2 14 = Ret (m', a) /\ a = 14 /\ wf m'.
Proof.
  destruct (rmget_spec cfg0 map0 2 14 map0_wf eq_refl ltac:(lia)) as (m' & a & Hr & Hwf & _).
  exists m', a. split; [exact Hr|]. vm_compute in Hr. injection Hr as <- <-.
  split; [reflexivity|exact Hwf].
Defined.

Lemma rmalloc_rmfree_witness :
  exists m1 m2, rmalloc cfg0 map0 4 = Ret (m1, 5) /\ rmfree cfg0 m1 4 5 = Ret m2 /\
    ents m2 = ents map0.
Proof.
  eexists. destruct (rmalloc_rmfree cfg0 map0
    (Rmap (layout [Ent 12 12] 4) [] true 0) 4 5 map0_wf ltac:(cbn; lia) ltac:(lia)
    ltac:(done) ltac:(done) ltac:(reflexivity) ltac:(lia) ltac:(reflexivity))
    as (m2 & Hr & He).
  exists m2. split; [reflexivity|]. split; [exact Hr|exact He].
Defined.

End Rmap.
