(* ===== verification/Callout.v ===== *)
(** The callout queue: timeout(), untimeout(), and the parts of hardclock()
    and softclock() of sys/kern/kern_clock.c that run it. *)
From stdpp Require Import base numbers list strings.
From Stdlib Require Import ZArith Lia Sorting.Sorted.
From S2P Require Import Prelude.

Module Callout.

(** ** Data

    [struct callout]; functions are named by numbers (their addresses).  The
    queue is the list that starts at [calltodo.c_next]; of the free list only
    the number of entries matters, because their contents are never read. *)
Record callout := Co { c_time : Z; c_func : nat; c_arg : Z }.
Record queue := Q { calltodo : list callout; callfree : nat }.

Definition set_time (c : callout) (t : Z) : callout := Co t (c_func c) (c_arg c).

(** ** hardclock: count one tick off the queue

    The result also says whether something is due ([needsoft]). *)
Fixpoint tick_todo (l : list callout) : list callout * bool :=
  match l with
  | [] => ([], false)
  | p1 :: r =>
      let t := c_time p1 - 1 in
      if t >? 0 then (set_time p1 t :: r, false)
      else if t =? 0 then (set_time p1 t :: r, true)
      else (set_time p1 t :: (tick_todo r).1, true)
  end.

Definition tick_queue (q : queue) : queue * bool :=
  (Q (tick_todo (calltodo q)).1 (callfree q), (tick_todo (calltodo q)).2).

(** ** timeout *)
Fixpoint timeout_insert (fn : nat) (arg t : Z) (l : list callout) : list callout :=
  match l with
  | [] => [Co t fn arg]
  | p2 :: r =>
      if c_time p2 <? t
      then p2 :: timeout_insert fn arg (if c_time p2 >? 0 then t - c_time p2 else t) r
      else Co t fn arg :: set_time p2 (c_time p2 - t) :: r
  end.

Definition timeout (fn : nat) (arg t : Z) (q : queue) : outcome queue :=
  let t := if t <=? 0 then 1 else t in
  match callfree q with
  | O => Panic "timeout table overflow"
  | S n => Ret (Q (timeout_insert fn arg t (calltodo q)) n)
  end.

(** ** untimeout *)
Fixpoint untimeout_remove (fn : nat) (arg : Z) (l : list callout) : option (list callout) :=
  match l with
  | [] => None
  | p2 :: r =>
      if (c_func p2 =? fn)%nat && (c_arg p2 =? arg) then
        Some (match r with
              | p3 :: r' =>
                  if c_time p2 >? 0 then set_time p3 (c_time p3 + c_time p2) :: r' else r
              | [] => r
              end)
      else (cons p2) <$> untimeout_remove fn arg r
  end.

Definition untimeout (fn : nat) (arg : Z) (q : queue) : queue :=
  match untimeout_remove fn arg (calltodo q) with
  | Some l => Q l (S (callfree q))
  | None => q
  end.

(** ** softclock: run what is due

    What the called functions do to the queue is a list of [timeout] and
    [untimeout] calls, chosen by the function from its arguments. *)
Inductive call :=
| CTimeout (fn : nat) (arg t : Z)
| CUntimeout (fn : nat) (arg : Z).

Definition do_call (k : call) (q : queue) : outcome queue :=
  match k with
  | CTimeout fn arg t => timeout fn arg t q
  | CUntimeout fn arg => Ret (untimeout fn arg q)
  end.

Fixpoint do_calls (ks : list call) (q : queue) : outcome queue :=
  match ks with
  | [] => Ret q
  | k :: ks => q' ← do_call k q; do_calls ks q'
  end.

Section softclock.
Variable handler : nat -> Z -> Z -> list call.

(** The [for (;;)] loop of softclock; the result lists the calls made, as
    triples of function, argument and the (non-positive) time passed to it. *)
Fixpoint softclock_loop (fuel : nat) (q : queue) : outcome (queue * list (nat * Z * Z)) :=
  match fuel with
  | O => Fault
  | S fuel =>
      match calltodo q with
      | [] => Ret (q, [])
      | p1 :: r =>
          if c_time p1 >? 0 then Ret (q, [])
          else
            q1 ← do_calls (handler (c_func p1) (c_arg p1) (c_time p1)) (Q r (S (callfree q)));
            qt ← softclock_loop fuel q1;
            Ret (qt.1, (c_func p1, c_arg p1, c_time p1) :: qt.2)
      end
  end.
End softclock.

(** ** Abstract view: events with absolute deadlines *)

(** The entry's deadline when the current tick count is [base]. *)
Fixpoint events (base : Z) (l : list callout) : list (Z * nat * Z) :=
  match l with
  | [] => []
  | c :: r => (base + c_time c, c_func c, c_arg c) :: events (base + Z.max 0 (c_time c)) r
  end.

Definition deadline (e : Z * nat * Z) : Z := e.1.1.
Definition earlier (e1 e2 : Z * nat * Z) : Prop := deadline e1 <= deadline e2.

(** The queue is sorted by deadline. *)
Definition wf (q : queue) : Prop := StronglySorted earlier (events 0 (calltodo q)).
Definition pending (now : Z) (q : queue) : list (Z * nat * Z) := events now (calltodo q).

Lemma events_shift base d l :
  events (base + d) l = (fun e => (e.1.1 + d, e.1.2, e.2)) <$> events base l.
Proof.
  revert base; induction l as [|c r IH]; intros base; cbn; [done|].
  replace (base + d + Z.max 0 (c_time c)) with (base + Z.max 0 (c_time c) + d) by lia.
  rewrite IH. f_equal. f_equal. f_equal. lia.
Qed.

Lemma sorted_shift base d l :
  StronglySorted earlier (events base l) -> StronglySorted earlier (events (base + d) l).
Proof.
  rewrite events_shift. generalize (events base l).
  induction 1 as [|e l' Hl IH Hf]; cbn; constructor; [done|].
  apply Forall_fmap. eapply Forall_impl; [exact Hf|].
  unfold earlier, deadline. cbn. lia.
Qed.

Lemma wf_events now q : wf q <-> StronglySorted earlier (pending now q).
Proof.
  unfold wf, pending. split; intros H.
  - replace now with (0 + now) by lia. by apply sorted_shift.
  - replace 0 with (now + - now) by lia. by apply sorted_shift.
Qed.

(** ** A tick moves the clock and no deadline *)
Lemma tick_events now l : events (now + 1) (tick_todo l).1 = events now l.
Proof.
  revert now; induction l as [|c r IH]; intros now; cbn; [done|].
  rewrite Z.gtb_ltb. destruct (Z.ltb_spec 0 (c_time c - 1)); [|bcase]; cbn.
  - f_equal; [f_equal; f_equal; lia|f_equal; lia].
  - f_equal; [f_equal; f_equal; lia|f_equal; lia].
  - f_equal; [f_equal; f_equal; lia|].
    replace (now + 1 + Z.max 0 (c_time c - 1)) with (now + Z.max 0 (c_time c) + 1) by lia.
    apply IH.
Qed.

Definition is_due (c : callout) : bool := c_time c <=? 0.
Definition none_due (l : list callout) : Prop :=
  match l with [] => True | c :: _ => 0 < c_time c end.

Lemma tick_needsoft l : (tick_todo l).2 = false <-> none_due (tick_todo l).1.
Proof.
  destruct l as [|c r]; cbn; [done|].
  rewrite Z.gtb_ltb. destruct (Z.ltb_spec 0 (c_time c - 1)); [|bcase]; cbn; split; auto; lia.
Qed.

(** ** timeout *)
Lemma insert_events fn arg l : forall base t, 0 < t ->
  exists l1 l2, events base l = l1 ++ l2 /\
    events base (timeout_insert fn arg t l) = l1 ++ (base + t, fn, arg) :: l2 /\
    Forall (fun e => deadline e < base + t) l1 /\
    match l2 with [] => True | e :: _ => base + t <= deadline e end.
Proof.
  induction l as [|c r IH]; intros base t Ht; cbn.
  - exists [], []. by splits.
  - destruct (Z.ltb_spec (c_time c) t); cbn.
    + destruct (IH (base + Z.max 0 (c_time c)) (if c_time c >? 0 then t - c_time c else t))
        as (l1 & l2 & E1 & E2 & F1 & F2).
      { rewrite Z.gtb_ltb. destruct (Z.ltb_spec 0 (c_time c)); lia. }
      assert (base + Z.max 0 (c_time c) + (if c_time c >? 0 then t - c_time c else t) = base + t)
        as Hb by (rewrite Z.gtb_ltb; destruct (Z.ltb_spec 0 (c_time c)); lia).
      rewrite Hb in E2, F1, F2.
      exists ((base + c_time c, c_func c, c_arg c) :: l1), l2. cbn.
      rewrite E1, E2. splits; auto. constructor; [unfold deadline; cbn; lia|done].
    + exists [], ((base + c_time c, c_func c, c_arg c) :: events (base + Z.max 0 (c_time c)) r).
      splits; auto; cbn.
      * f_equal. f_equal; [f_equal; f_equal; lia|f_equal; lia].
      * unfold deadline; cbn; lia.
Qed.

(** Inserting between the earlier and the later entries keeps the order. *)
Lemma sorted_insert (l1 l2 : list (Z * nat * Z)) e :
  StronglySorted earlier (l1 ++ l2) ->
  Forall (fun x => deadline x < deadline e) l1 ->
  match l2 with [] => True | x :: _ => deadline e <= deadline x end ->
  StronglySorted earlier (l1 ++ e :: l2) /\ Forall (fun x => deadline e <= deadline x) l2.
Proof.
  induction l1 as [|x l1 IH]; cbn; intros Hs H1 H2.
  - assert (Forall (fun x => deadline e <= deadline x) l2) as HF.
    { destruct l2 as [|x l2]; [constructor|]. apply StronglySorted_inv in Hs as [_ Hs].
      constructor; [done|]. eapply Forall_impl; [exact Hs|]. unfold earlier. lia. }
    split; [|done]. constructor; done.
  - apply StronglySorted_inv in Hs as [Hs Hx]. apply Forall_cons in H1 as [H1 H1'].
    destruct (IH Hs H1' H2) as [IH1 IH2]. split; [|done]. constructor; [done|].
    apply Forall_app in Hx as [Hx1 Hx2]. apply Forall_app. split; [done|].
    constructor; [unfold earlier; lia|done].
Qed.

(** ** untimeout *)
Definition is_call (fn : nat) (arg : Z) (e : Z * nat * Z) : Prop := e.1.2 = fn /\ e.2 = arg.

Lemma remove_events fn arg l : forall base, StronglySorted earlier (events base l) ->
  match untimeout_remove fn arg l with
  | Some l' => exists l1 e l2, events base l = l1 ++ e :: l2 /\
      events base l' = l1 ++ l2 /\ is_call fn arg e /\
      Forall (fun x => ~ is_call fn arg x) l1
  | None => Forall (fun x => ~ is_call fn arg x) (events base l)
  end.
Proof.
  induction l as [|c r IH]; intros base Hs; cbn; [constructor|].
  destruct ((c_func c =? fn)%nat && (c_arg c =? arg)) eqn:Hc.
  - apply andb_true_iff in Hc as [Hf Ha]. apply Nat.eqb_eq in Hf. apply Z.eqb_eq in Ha.
    exists [], (base + c_time c, c_func c, c_arg c), (events (base + Z.max 0 (c_time c)) r).
    splits; [done| |by split|constructor].
    destruct r as [|c3 r']; cbn; [done|].
    cbn in Hs. apply StronglySorted_inv in Hs as [_ Hs]. apply Forall_cons in Hs as [Hs _].
    unfold earlier, deadline in Hs. cbn in Hs. rewrite Z.gtb_ltb.
    destruct (Z.ltb_spec 0 (c_time c)); cbn; repeat (f_equal; try lia).
  - assert (~ is_call fn arg (base + c_time c, c_func c, c_arg c)) as Hn.
    { intros [E1 E2]. cbn in E1, E2. subst. rewrite Nat.eqb_refl, Z.eqb_refl in Hc. done. }
    apply StronglySorted_inv in Hs as [Hs _]. specialize (IH _ Hs).
    destruct (untimeout_remove fn arg r) as [l'|]; cbn.
    + destruct IH as (l1 & e & l2 & E1 & E2 & He & Hl1).
      exists ((base + c_time c, c_func c, c_arg c) :: l1), e, l2. rewrite E1, E2.
      splits; [done|done|done|by constructor].
    + by constructor.
Qed.

Lemma sorted_remove (l1 l2 : list (Z * nat * Z)) e :
  StronglySorted earlier (l1 ++ e :: l2) -> StronglySorted earlier (l1 ++ l2).
Proof.
  induction l1 as [|x l1 IH]; cbn; intros Hs; apply StronglySorted_inv in Hs as [Hs Hx]; [done|].
  constructor; [by apply IH|]. apply Forall_app in Hx as [? Hx].
  apply Forall_cons in Hx as [_ Hx]. by apply Forall_app.
Qed.

Lemma remove_length fn arg l l' :
  untimeout_remove fn arg l = Some l' -> length l = S (length l').
Proof.
  revert l'; induction l as [|c r IH]; intros l'; cbn; [done|].
  destruct (_ && _).
  - intros [= <-]. destruct r as [|c3 r']; [done|]. by destruct (_ >? _).
  - destruct (untimeout_remove fn arg r); cbn; [|done]. intros [= <-]. by rewrite (IH l).
Qed.

Lemma insert_length fn arg l : forall t,
  length (timeout_insert fn arg t l) = S (length l).
Proof. induction l as [|c r IH]; intros t; cbn; [done|]. bcase; cbn; by rewrite ?IH. Qed.

(** ** The entries that are due *)
Fixpoint due (l : list callout) : list callout :=
  match l with
  | [] => []
  | c :: r => if is_due c then c :: due r else []
  end.

Lemma due_nil l : due l = [] <-> none_due l.
Proof.
  destruct l as [|c r]; cbn; [done|]. unfold is_due.
  destruct (Z.leb_spec (c_time c) 0); split; intros; done || lia.
Qed.

Lemma due_insert fn arg l : forall t, 0 < t -> due (timeout_insert fn arg t l) = due l.
Proof.
  induction l as [|c r IH]; intros t Ht; cbn; unfold is_due.
  - cbn. destruct (Z.leb_spec t 0); [lia|done].
  - destruct (Z.ltb_spec (c_time c) t); cbn; unfold is_due.
    + destruct (Z.leb_spec (c_time c) 0); [|done]. rewrite Z.gtb_ltb.
      destruct (Z.ltb_spec 0 (c_time c)); [lia|]. by rewrite IH.
    + cbn. destruct (Z.leb_spec t 0); [lia|]. destruct (Z.leb_spec (c_time c) 0); [lia|done].
Qed.

Lemma due_remove fn arg l : forall base l', StronglySorted earlier (events base l) ->
  untimeout_remove fn arg l = Some l' -> due l' `sublist_of` due l.
Proof.
  induction l as [|c r IH]; intros base l' Hs; cbn; [done|].
  destruct (_ && _).
  - intros [= <-]. destruct r as [|c3 r']; cbn; [destruct (is_due c); repeat constructor|].
    cbn in Hs. apply StronglySorted_inv in Hs as [_ Hs]. apply Forall_cons in Hs as [Hs _].
    unfold earlier, deadline in Hs. cbn in Hs. unfold is_due. rewrite Z.gtb_ltb.
    destruct (Z.ltb_spec 0 (c_time c)); cbn; unfold is_due; cbn.
    + destruct (Z.leb_spec (c_time c) 0); [lia|].
      destruct (Z.leb_spec (c_time c3 + c_time c) 0); [lia|constructor].
    + destruct (Z.leb_spec (c_time c) 0); [|lia]. by apply sublist_cons.
  - destruct (untimeout_remove fn arg r) as [r'|] eqn:E; cbn; [|done]. intros [= <-].
    apply StronglySorted_inv in Hs as [Hs _]. cbn. destruct (is_due c); [|done].
    apply sublist_skip. by eapply IH.
Qed.

(** ** Queue operations, in terms of the abstract view *)
Definition slots (q : queue) : nat := (length (calltodo q) + callfree q)%nat.

Lemma timeout_ok fn arg t q q' : wf q -> timeout fn arg t q = Ret q' ->
  wf q' /\ due (calltodo q') = due (calltodo q) /\ slots q' = slots q.
Proof.
  unfold timeout. set (t' := if t <=? 0 then 1 else t). intros Hwf.
  assert (0 < t') as Ht by (unfold t'; bcase; lia).
  destruct (callfree q) as [|n] eqn:Hn; [done|]. intros [= <-]. splits; cbn.
  - unfold wf. destruct (insert_events fn arg (calltodo q) 0 t' Ht) as (l1 & l2 & E1 & E2 & F1 & F2).
    unfold wf in Hwf. rewrite E1 in Hwf. cbn. rewrite E2. by apply sorted_insert.
  - by apply due_insert.
  - unfold slots. cbn. rewrite insert_length. lia.
Qed.

Lemma untimeout_ok fn arg q : wf q ->
  wf (untimeout fn arg q) /\
  due (calltodo (untimeout fn arg q)) `sublist_of` due (calltodo q) /\
  slots (untimeout fn arg q) = slots q.
Proof.
  unfold untimeout. intros Hwf. pose proof (remove_events fn arg (calltodo q) 0 Hwf) as H.
  destruct (untimeout_remove fn arg (calltodo q)) as [l'|] eqn:E; [|splits; done].
  destruct H as (l1 & e & l2 & E1 & E2 & _). splits; cbn.
  - unfold wf. cbn. rewrite E2. unfold wf in Hwf. rewrite E1 in Hwf. by eapply sorted_remove.
  - by eapply due_remove.
  - unfold slots. cbn. rewrite (remove_length _ _ _ _ E). lia.
Qed.

Definition no_untimeout (ks : list call) : Prop :=
  Forall (fun k => match k with CTimeout _ _ _ => True | CUntimeout _ _ => False end) ks.

Lemma do_calls_ok ks : forall q, wf q ->
  do_calls ks q <> Fault /\
  forall q', do_calls ks q = Ret q' ->
    wf q' /\ due (calltodo q') `sublist_of` due (calltodo q) /\ slots q' = slots q /\
    (no_untimeout ks -> due (calltodo q') = due (calltodo q)).
Proof.
  induction ks as [|k ks IH]; intros q Hwf; cbn.
  { split; [done|]. intros q' [= <-]. splits; done. }
  destruct k as [fn arg t|fn arg]; cbn.
  - pose proof (fun q1 => timeout_ok fn arg t q q1 Hwf) as Hok.
    assert (timeout fn arg t q <> Fault) by (unfold timeout; by destruct (callfree q)).
    destruct (timeout fn arg t q) as [q1| |]; cbn; [|split; done|done].
    destruct (Hok q1 eq_refl) as (Hwf1 & Hd & Hsl). destruct (IH q1 Hwf1) as [IH1 IH2].
    split; [done|]. intros q' Hq. destruct (IH2 q' Hq) as (? & ? & ? & Hno).
    rewrite Hd in *. splits; auto; [congruence|]. intros Hk. apply Forall_cons in Hk as [_ Hk].
    by apply Hno.
  - destruct (untimeout_ok fn arg q Hwf) as (Hwf1 & Hd & Hsl).
    destruct (IH _ Hwf1) as [IH1 IH2]. split; [done|]. intros q' Hq.
    destruct (IH2 q' Hq) as (? & ? & ? & Hno). splits; auto; [by etrans|congruence|].
    intros Hk. apply Forall_cons in Hk as [[] _].
Qed.

Definition entry (c : callout) : nat * Z * Z := (c_func c, c_arg c, c_time c).

Lemma softclock_ok handler : forall fuel q, wf q ->
  (length (due (calltodo q)) < fuel)%nat ->
  softclock_loop handler fuel q <> Fault /\
  forall q' tr, softclock_loop handler fuel q = Ret (q', tr) ->
    wf q' /\ none_due (calltodo q') /\ slots q' = slots q /\
    tr `sublist_of` (entry <$> due (calltodo q)) /\
    ((forall f a t, no_untimeout (handler f a t)) -> tr = entry <$> due (calltodo q)) /\
    ((forall f a t, handler f a t = []) ->
       forall now, pending now q' = drop (length tr) (pending now q)).
Proof.
  induction fuel as [|fuel IH]; intros q Hwf Hf; [lia|]. cbn [softclock_loop].
  destruct (calltodo q) as [|p1 r] eqn:Hq.
  { split; [done|]. intros q' tr [= <- <-]. rewrite Hq. splits; done. }
  cbn in Hf |- *. unfold is_due in *. rewrite Z.gtb_ltb.
  destruct (Z.ltb_spec 0 (c_time p1)) as [Hlt|Hle].
  { destruct (Z.leb_spec (c_time p1) 0); [lia|].
    split; [done|]. intros q' tr [= <- <-]. rewrite Hq. splits; done. }
  destruct (Z.leb_spec (c_time p1) 0); [|lia]. cbn in Hf.
  set (q0 := Q r (S (callfree q))).
  assert (wf q0) as Hwf0.
  { unfold wf, q0 in *. rewrite Hq in Hwf. cbn in *. apply StronglySorted_inv in Hwf as [Hwf _].
    by replace (Z.max 0 (c_time p1)) with 0 in Hwf by lia. }
  assert (slots q0 = slots q) as Hs0 by (unfold slots, q0; rewrite Hq; cbn; lia).
  destruct (do_calls_ok (handler (c_func p1) (c_arg p1) (c_time p1)) q0 Hwf0) as [Hnf Hok].
  destruct (do_calls _ q0) as [q1| |] eqn:Hdo; cbn; [|split; done|done].
  destruct (Hok q1 eq_refl) as (Hwf1 & Hd1 & Hs1 & Hno1). cbn in Hd1, Hno1.
  pose proof (sublist_length _ _ Hd1) as Hl1.
  destruct (IH q1 Hwf1) as [IH1 IH2]; [lia|].
  destruct (softclock_loop handler fuel q1) as [[q2 tr2]| |] eqn:Hsc; cbn; [|split; done|done].
  split; [done|]. intros q' tr [= <- <-].
  destruct (IH2 q2 tr2 eq_refl) as (? & ? & ? & Htr & Hall & Hpend). splits; auto.
  - congruence.
  - apply sublist_skip. etrans; [exact Htr|]. by apply fmap_sublist.
  - intros Hh. cbn. f_equal. by rewrite Hall, Hno1.
  - intros Hh now. cbn. rewrite Hpend by done. rewrite Hh in Hdo. cbn in Hdo.
    injection Hdo as <-. unfold pending. rewrite Hq. cbn.
    by replace (now + Z.max 0 (c_time p1)) with now by lia.
Qed.

(** ** The reference

    The queue as the callers see it: the events in order, with absolute deadlines,
    and the number of free entries.  At tick [now] softclock runs those whose
    deadline is not later, and what they call changes the list. *)
Local Abbreviation event := (Z * nat * Z)%type.

Fixpoint ev_insert (e : event) (l : list event) : list event :=
  match l with
  | [] => [e]
  | x :: r => if deadline x <? deadline e then x :: ev_insert e r else e :: l
  end.
Fixpoint ev_remove (fn : nat) (arg : Z) (l : list event) : option (list event) :=
  match l with
  | [] => None
  | x :: r => if (x.1.2 =? fn)%nat && (x.2 =? arg) then Some r else cons x <$> ev_remove fn arg r
  end.

Definition ref_call (now : Z) (k : call) (s : list event * nat) : outcome (list event * nat) :=
  match k with
  | CTimeout fn arg t =>
      match s.2 with
      | O => Panic "timeout table overflow"
      | S n => Ret (ev_insert (now + Z.max 1 t, fn, arg) s.1, n)
      end
  | CUntimeout fn arg => Ret (match ev_remove fn arg s.1 with Some l => (l, S s.2) | None => s end)
  end.
Fixpoint ref_calls (now : Z) (ks : list call) (s : list event * nat) : outcome (list event * nat) :=
  match ks with
  | [] => Ret s
  | k :: ks => s ← ref_call now k s; ref_calls now ks s
  end.
Fixpoint ref_run (handler : nat -> Z -> Z -> list call) (fuel : nat) (now : Z) (s : list event * nat)
  : outcome (list event * nat * list (nat * Z * Z)) :=
  match fuel with
  | O => Fault
  | S fuel =>
      match s.1 with
      | [] => Ret (s, [])
      | e :: r =>
          if now <? deadline e then Ret (s, [])
          else
            s ← ref_calls now (handler e.1.2 e.2 (deadline e - now)) (r, S s.2);
            '(s, tr) ← ref_run handler fuel now s;
            Ret (s, (e.1.2, e.2, deadline e - now) :: tr)
      end
  end.

Definition view (now : Z) (q : queue) : list event * nat := (pending now q, callfree q).

Lemma insert_ref fn arg l : forall base t, 0 < t -> events base (timeout_insert fn arg t l) = ev_insert (base + t, fn, arg) (events base l).
Proof.
  induction l as [|c r IH]; intros base t Ht; cbn; [done|]. change (deadline _) with (base + c_time c). change (deadline _) with (base + t).
  destruct (Z.ltb_spec (c_time c) t), (Z.ltb_spec (base + c_time c) (base + t)); try lia; cbn.
  - rewrite Z.gtb_ltb. rewrite IH by (destruct (Z.ltb_spec 0 (c_time c)); lia).
    replace (base + Z.max 0 (c_time c) + (if 0 <? c_time c then t - c_time c else t)) with (base + t); [done|]. destruct (Z.ltb_spec 0 (c_time c)); lia.
  - f_equal. f_equal; [f_equal; f_equal; lia|f_equal; lia].
Qed.

Lemma remove_ref fn arg l : forall base, StronglySorted earlier (events base l) -> ev_remove fn arg (events base l) = events base <$> untimeout_remove fn arg l.
Proof.
  induction l as [|c r IH]; intros base Hs; cbn; [done|]. cbn in Hs. apply StronglySorted_inv in Hs as [Hs Hc].
  destruct ((c_func c =? fn)%nat && (c_arg c =? arg)).
  - cbn. f_equal. destruct r as [|c3 r']; cbn; [done|]. apply Forall_cons in Hc as [Hc _]. unfold earlier, deadline in Hc. cbn in Hc. rewrite Z.gtb_ltb.
    destruct (Z.ltb_spec 0 (c_time c)); cbn; repeat (f_equal; try lia).
  - rewrite IH by done. by destruct (untimeout_remove fn arg r).
Qed.

Lemma call_ref now k q : wf q -> ref_call now k (view now q) = (q' ← do_call k q; Ret (view now q')).
Proof.
  intros Hwf. destruct k as [fn arg t|fn arg]; cbn.
  - unfold timeout. destruct (callfree q) as [|n]; [done|]. cbn. unfold view, pending. cbn. f_equal. f_equal. rewrite insert_ref by (bcase; lia).
    repeat f_equal. bcase; lia.
  - unfold untimeout, pending. rewrite remove_ref by by apply wf_events. by destruct (untimeout_remove fn arg (calltodo q)).
Qed.
Lemma do_call_wf k q q' : wf q -> do_call k q = Ret q' -> wf q'.
Proof. intros Hwf. destruct k as [fn arg t|fn arg]; cbn; [intros E; by apply (timeout_ok fn arg t q)|intros [= <-]; by apply untimeout_ok]. Qed.
Lemma calls_ref now ks : forall q, wf q -> ref_calls now ks (view now q) = (q' ← do_calls ks q; Ret (view now q')).
Proof.
  induction ks as [|k ks IH]; intros q Hwf; cbn; [done|]. rewrite call_ref by done. destruct (do_call k q) as [q1| |] eqn:E; cbn; [|done|done].
  apply IH. by eapply do_call_wf.
Qed.

(** softclock does to the queue what the reference does to the events. *)
Lemma softclock_ref handler now : forall fuel q, wf q ->
  ref_run handler fuel now (view now q) = ('(q', tr) ← softclock_loop handler fuel q; Ret (view now q', tr)).
Proof.
  induction fuel as [|fuel IH]; intros q Hwf; [done|]. cbn [ref_run softclock_loop]. unfold view at 1. cbn [fst snd]. unfold pending. destruct (calltodo q) as [|p1 r] eqn:Hq.
  { cbn. unfold view, pending. by rewrite Hq. }
  cbn [events]. change (deadline _) with (now + c_time p1). rewrite Z.gtb_ltb.
  destruct (Z.ltb_spec 0 (c_time p1)), (Z.ltb_spec now (now + c_time p1)); try lia; [cbn; unfold view, pending; by rewrite Hq|].
  set (q0 := Q r (S (callfree q))). assert (Hwf0 : wf q0).
  { unfold wf, q0 in *. rewrite Hq in Hwf. cbn in *. apply StronglySorted_inv in Hwf as [Hwf _]. by replace (Z.max 0 (c_time p1)) with 0 in Hwf by lia. }
  replace (now + Z.max 0 (c_time p1)) with now by lia. cbn [fst snd]. replace (now + c_time p1 - now) with (c_time p1) by lia.
  change (events now r, S (view now q).2) with (view now q0). rewrite calls_ref by done.
  pose proof (proj2 (do_calls_ok (handler (c_func p1) (c_arg p1) (c_time p1)) q0 Hwf0)) as Hok.
  destruct (do_calls _ q0) as [q1| |]; cbn; [|done|done]. rewrite IH by by apply (Hok q1). by destruct (softclock_loop handler fuel q1) as [[q2 tr]| |].
Qed.

(** *** Functions that cancel nothing *)
Definition arms (now : Z) (ks : list call) : list event :=
  omap (fun k => match k with CTimeout fn arg t => Some (now + Z.max 1 t, fn, arg) | CUntimeout _ _ => None end) ks.
Definition insert_all (l es : list event) : list event := foldl (fun l e => ev_insert e l) l es.

Lemma calls_arm now ks : no_untimeout ks -> forall l n, (length (arms now ks) <= n)%nat ->
  ref_calls now ks (l, n) = Ret (insert_all l (arms now ks), (n - length (arms now ks))%nat).
Proof.
  induction 1 as [|k ks Hk _ IH]; intros l n Hn; [cbn; by rewrite Nat.sub_0_r|]. destruct k as [fn arg t|]; [|done].
  change (arms now (CTimeout fn arg t :: ks)) with ((now + Z.max 1 t, fn, arg) :: arms now ks) in *. cbn [length] in *.
  destruct n as [|n]; [lia|]. cbn [ref_calls ref_call fst snd]. bind. by rewrite IH by lia.
Qed.
Lemma arms_later now ks : Forall (fun e => now < deadline e) (arms now ks).
Proof.
  induction ks as [|[fn arg t|] ks IH]; cbn; [constructor|constructor; [unfold deadline; cbn; lia|exact IH]|exact IH].
Qed.
Lemma insert_past now D L es : Forall (fun e => deadline e <= now) D -> Forall (fun e => now < deadline e) es ->
  insert_all (D ++ L) es = D ++ insert_all L es.
Proof.
  intros HD Hes. revert L. induction Hes as [|e es He _ IH]; intros L; [done|]. unfold insert_all in *. cbn [foldl].
  assert (ev_insert e (D ++ L) = D ++ ev_insert e L) as ->; [|apply IH].
  clear -HD He. induction HD as [|x D Hx _ IH]; [done|]. cbn. destruct (Z.ltb_spec (deadline x) (deadline e)); [by rewrite IH|lia].
Qed.
Lemma insert_all_later now es : forall L, Forall (fun e => now < deadline e) L -> Forall (fun e => now < deadline e) es -> Forall (fun e => now < deadline e) (insert_all L es).
Proof.
  induction es as [|e es IH]; intros L HL Hes; [done|]. apply Forall_cons in Hes as [He Hes]. apply IH; [|done].
  clear -HL He. induction HL as [|x L Hx HL IH]; cbn; [by constructor|]. destruct (_ <? _); by constructor; [|constructor || auto].
Qed.

Lemma run_arm handler now : (forall f a t, no_untimeout (handler f a t)) -> forall D fuel L n, (length D < fuel)%nat ->
  Forall (fun e => deadline e <= now) D -> Forall (fun e => now < deadline e) L ->
  let new := D ≫= (fun e => arms now (handler e.1.2 e.2 (deadline e - now))) in (length new <= n)%nat ->
  exists n', ref_run handler fuel now (D ++ L, n) = Ret (insert_all L new, n', (fun e => (e.1.2, e.2, deadline e - now)) <$> D).
Proof.
  intros Hno. induction D as [|e D IH]; intros fuel L n Hf HD HL new Hn; (destruct fuel as [|fuel]; [cbn in Hf; lia|]); cbn [ref_run fst snd app].
  { exists n. destruct L as [|x L]; [done|]. apply Forall_cons in HL as [Hx _]. destruct (Z.ltb_spec now (deadline x)); [done|lia]. }
  apply Forall_cons in HD as [He HD]. destruct (Z.ltb_spec now (deadline e)); [lia|]. cbn in Hf.
  unfold new in *. cbn [mbind list_bind] in Hn |- *. fold (mbind (M := list) (fun e : event => arms now (handler e.1.2 e.2 (deadline e - now))) D) in *.
  set (a := arms now (handler e.1.2 e.2 (deadline e - now))) in *. rewrite length_app in Hn.
  rewrite calls_arm by (done || fold a; lia). fold a. bind. rewrite (insert_past now) by (done || apply arms_later).
  destruct (IH fuel (insert_all L a) (S n - length a)%nat) as (n' & ->); [lia|done|apply insert_all_later; [done|apply arms_later]|lia|]. bind.
  exists n'. unfold insert_all. by rewrite foldl_app.
Qed.

Lemma filter_all {A} (P : A -> Prop) `{!forall x, Decision (P x)} l :
  Forall P l -> filter P l = l.
Proof.
  induction 1 as [|x l Hx _ IH]; [done|]. by rewrite filter_cons, decide_True, IH.
Qed.

Lemma filter_none {A} (P : A -> Prop) `{!forall x, Decision (P x)} l :
  Forall (fun x => ~ P x) l -> filter P l = [].
Proof.
  induction 1 as [|x l Hx _ IH]; [done|]. by rewrite filter_cons, decide_False, IH.
Qed.

(** ** Properties *)

(** timeout.  A request for [t] ticks (at least one) enters the queue with
    the absolute deadline [now + max 1 t], after every earlier deadline and
    before every later or equal one, and changes no other deadline; it panics
    exactly when the table has no free entry. *)
Theorem timeout_spec (now : Z) (fn : nat) (arg t : Z) (q : queue) :
  wf q ->
  (callfree q = O -> timeout fn arg t q = Panic "timeout table overflow") /\
  (callfree q <> O -> exists q' l1 l2, timeout fn arg t q = Ret q' /\
     wf q' /\ slots q' = slots q /\
     pending now q = l1 ++ l2 /\
     pending now q' = l1 ++ (now + Z.max 1 t, fn, arg) :: l2 /\
     Forall (fun e => deadline e < now + Z.max 1 t) l1 /\
     Forall (fun e => now + Z.max 1 t <= deadline e) l2).
Proof.
  intros Hwf. split; [intros H; unfold timeout; by rewrite H|]. intros Hn.
  destruct (timeout fn arg t q) as [q'| |] eqn:Ht;
    [|unfold timeout in Ht; by destruct (callfree q)..].
  destruct (timeout_ok fn arg t q q' Hwf Ht) as (Hwf' & _ & Hs).
  unfold timeout in Ht. destruct (callfree q) as [|n]; [done|]. injection Ht as <-.
  replace (if t <=? 0 then 1 else t) with (Z.max 1 t) in * by (bcase; lia).
  destruct (insert_events fn arg (calltodo q) now (Z.max 1 t) ltac:(lia))
    as (l1 & l2 & E1 & E2 & F1 & F2).
  eexists _, l1, l2. splits; [done|done|done|done|done|done|].
  apply (wf_events now) in Hwf. unfold pending in Hwf. rewrite E1 in Hwf.
  by apply (sorted_insert l1 l2 (now + Z.max 1 t, fn, arg)).
Qed.

(** untimeout.  Exactly the first pending entry for the function and
    argument is removed, its slot returns to the free list, and no other
    deadline moves; without such an entry nothing changes. *)
Theorem untimeout_spec (now : Z) (fn : nat) (arg : Z) (q : queue) :
  wf q ->
  wf (untimeout fn arg q) /\ slots (untimeout fn arg q) = slots q /\
  ((untimeout fn arg q = q /\ Forall (fun e => ~ is_call fn arg e) (pending now q)) \/
   exists l1 e l2, pending now q = l1 ++ e :: l2 /\ is_call fn arg e /\
     Forall (fun e => ~ is_call fn arg e) l1 /\
     pending now (untimeout fn arg q) = l1 ++ l2 /\
     callfree (untimeout fn arg q) = S (callfree q)).
Proof.
  intros Hwf. destruct (untimeout_ok fn arg q Hwf) as (? & _ & ?). splits; [done|done|].
  apply (wf_events now) in Hwf. pose proof (remove_events fn arg (calltodo q) now Hwf) as H1.
  unfold untimeout. destruct (untimeout_remove fn arg (calltodo q)) as [l'|]; [right|by left].
  destruct H1 as (l1 & e & l2 & E1 & E2 & He & Hl1). by exists l1, e, l2.
Qed.

(** C36: softclock terminates and runs what is due.  Whatever timeouts the
    called functions set (their delays are at least one tick), the loop makes
    at most one call per entry due on entry; it leaves nothing due and no slot
    lost, calls due entries in deadline order, and calls all of them when no
    called function cancels one. *)
Theorem softclock_spec (handler : nat -> Z -> Z -> list call) (q : queue) :
  wf q ->
  let r := softclock_loop handler (S (length (due (calltodo q)))) q in
  r <> Fault /\
  forall q' tr, r = Ret (q', tr) ->
    wf q' /\ none_due (calltodo q') /\ slots q' = slots q /\
    tr `sublist_of` (entry <$> due (calltodo q)) /\
    ((forall f a t, no_untimeout (handler f a t)) -> tr = entry <$> due (calltodo q)) /\
    ((forall f a t, handler f a t = []) ->
       forall now, pending now q' = drop (length tr) (pending now q)).
Proof. intros Hwf. apply softclock_ok; [done|lia]. Qed.

(** A queue on which softclock has caught up fires, at the next tick, exactly
    the entries whose deadline is that tick. *)
Lemma due_events l : forall now, StronglySorted earlier (events now l) ->
  entry <$> due l = (fun e => (e.1.2, e.2, deadline e - now)) <$>
    filter (fun e => deadline e <= now) (events now l).
Proof.
  induction l as [|c r IH]; intros now Hs; [done|]. cbn [events due].
  cbn [events] in Hs. apply StronglySorted_inv in Hs as [Hs Hc]. rewrite filter_cons.
  unfold is_due. destruct (Z.leb_spec (c_time c) 0).
  - rewrite decide_True by (unfold deadline; cbn; lia). cbn. unfold deadline at 1. cbn.
    replace (now + c_time c - now) with (c_time c) by lia. f_equal.
    replace (now + Z.max 0 (c_time c)) with now in * by lia. by apply IH.
  - rewrite decide_False by (unfold deadline; cbn; lia).
    assert (Forall (fun e => ~ deadline e <= now) (events (now + Z.max 0 (c_time c)) r)) as HF.
    { eapply Forall_impl; [exact Hc|]. unfold earlier, deadline. cbn. lia. }
    by rewrite (filter_none _ _ HF).
Qed.

(** When softclock has caught up every deadline is still to come. *)
Lemma caught_up now q : wf q -> none_due (calltodo q) -> Forall (fun e => now + 1 <= deadline e) (pending now q).
Proof.
  intros Hwf Hnd. unfold pending. apply (wf_events now) in Hwf. unfold pending in Hwf.
  destruct (calltodo q) as [|c r]; cbn in *; [constructor|].
  apply StronglySorted_inv in Hwf as [_ Hwf]. constructor; [unfold deadline; cbn; lia|].
  eapply Forall_impl; [exact Hwf|]. unfold earlier, deadline. cbn. lia.
Qed.
Lemma filter_later now (l : list event) : Forall (fun e => now < deadline e) (filter (fun e => now < deadline e) l).
Proof. apply Forall_forall. intros e He. by apply list_elem_of_filter in He as [? _]. Qed.
Lemma split_tick now (l : list event) : StronglySorted earlier l -> Forall (fun e => now + 1 <= deadline e) l ->
  l = filter (fun e => deadline e = now + 1) l ++ filter (fun e => now + 1 < deadline e) l /\
  Forall (fun e => deadline e = now + 1) (filter (fun e => deadline e = now + 1) l).
Proof.
  intros Hs Hge. split; [|apply Forall_forall; intros e He; by apply list_elem_of_filter in He as [? _]].
  induction Hge as [|e l He _ IH]; [done|]. apply StronglySorted_inv in Hs as [Hs Hle]. rewrite !filter_cons.
  destruct (decide (deadline e = now + 1)), (decide (now + 1 < deadline e)); try lia; cbn.
  - f_equal. by apply IH.
  - assert (Forall (fun x => now + 1 < deadline x) l) as HF by (eapply Forall_impl; [exact Hle|]; unfold earlier; lia).
    rewrite (filter_all _ l HF), (filter_none _ l); [done|]. eapply Forall_impl; [exact HF|]. cbn. lia.
Qed.
Lemma tick_news now (handler : nat -> Z -> Z -> list call) D : Forall (fun e => deadline e = now + 1) D ->
  D ≫= (fun e => arms (now + 1) (handler e.1.2 e.2 (deadline e - (now + 1)))) = D ≫= (fun e => arms (now + 1) (handler e.1.2 e.2 0)).
Proof. induction 1 as [|e D He _ IH]; [done|]. cbn. rewrite He, Z.sub_diag. f_equal. exact IH. Qed.
Lemma tick_calls now (D : list event) : Forall (fun e => deadline e = now + 1) D ->
  (fun e : event => (e.1.2, e.2, deadline e - (now + 1))) <$> D = (fun e : event => (e.1.2, e.2, 0)) <$> D.
Proof. induction 1 as [|e D He _ IH]; [done|]. cbn. by rewrite He, Z.sub_diag, IH. Qed.

(** C35: timers fire on time, whatever the functions called do to the queue.  When
    softclock has caught up at tick [now], the next tick raises the software
    interrupt exactly when some deadline is [now + 1].  The softclock that follows
    does what the reference does with the deadlines as they were before the tick; it
    does not loop; it calls only functions with the deadline [now + 1], in order, each
    with lateness 0, and leaves nothing due.  When none of them cancels a timeout
    (they may set new ones, for which there are entries free) it calls all of them,
    and the queue is then the later deadlines, unmoved, with the new ones put in. *)
Theorem tick_fires (now : Z) (handler : nat -> Z -> Z -> list call) (q : queue) :
  wf q -> none_due (calltodo q) ->
  let q1 := (tick_queue q).1 in
  let at_tick := filter (fun e => deadline e = now + 1) (pending now q) in
  let later := filter (fun e => now + 1 < deadline e) (pending now q) in
  let calls := (fun e => (e.1.2, e.2, 0)) <$> at_tick in
  let new := at_tick ≫= (fun e => arms (now + 1) (handler e.1.2 e.2 0)) in
  let r := softclock_loop handler (S (length (due (calltodo q1)))) q1 in
  ((tick_queue q).2 = true <-> at_tick <> []) /\
  ref_run handler (S (length at_tick)) (now + 1) (view now q) = ('(q', tr) ← r; Ret (view (now + 1) q', tr)) /\
  r <> Fault /\ (forall q' tr, r = Ret (q', tr) -> tr `sublist_of` calls /\ none_due (calltodo q')) /\
  ((forall f a t, no_untimeout (handler f a t)) -> (length new <= callfree q)%nat ->
   exists q', r = Ret (q', calls) /\ pending (now + 1) q' = insert_all later new).
Proof.
  intros Hwf Hnd q1 at_tick later calls new r.
  assert (pending (now + 1) q1 = pending now q) as Hp by apply tick_events.
  assert (wf q1) as Hwf1 by (apply (wf_events (now + 1)); rewrite Hp; by apply wf_events).
  pose proof (caught_up now q Hwf Hnd) as Hge.
  assert (entry <$> due (calltodo q1) = calls) as Hdue.
  { pose proof (due_events (calltodo q1) (now + 1)) as Hd. fold (pending (now + 1) q1) in Hd. rewrite Hp in Hd. rewrite Hd by by apply wf_events.
    unfold calls, at_tick. clear -Hge. induction Hge as [|e l He _ IH]; [done|].
    rewrite !filter_cons. destruct (decide (deadline e <= now + 1)), (decide (deadline e = now + 1)); try lia; cbn; rewrite IH; [|done]. repeat f_equal. lia. }
  assert (Hlen : length (due (calltodo q1)) = length at_tick) by (apply (f_equal length) in Hdue; unfold calls in Hdue; by rewrite !length_fmap in Hdue).
  assert (Href : ref_run handler (S (length at_tick)) (now + 1) (view now q) = ('(q', tr) ← r; Ret (view (now + 1) q', tr))).
  { unfold r. rewrite Hlen, <- softclock_ref by done. unfold view. by rewrite Hp. }
  destruct (softclock_ok handler (S (length (due (calltodo q1)))) q1 Hwf1) as [Hnf Hok]; [lia|]. fold r in Hnf, Hok.
  split; [|split; [exact Href|split; [exact Hnf|split]]].
  - rewrite <- not_false_iff_true. change ((tick_queue q).2) with ((tick_todo (calltodo q)).2).
    rewrite tick_needsoft, <- due_nil. change (tick_todo (calltodo q)).1 with (calltodo q1).
    split; intros Hn Hz; apply Hn; unfold calls in Hdue; rewrite Hz in Hdue; [by destruct (due _)|by destruct at_tick].
  - intros q' tr E. destruct (Hok q' tr E) as (_ & H1 & _ & H2 & _). by rewrite Hdue in H2.
  - intros Hno Hn. destruct (split_tick now (pending now q)) as [Es HD]; [by apply wf_events|done|]. fold at_tick later in Es.
    destruct (run_arm handler (now + 1) Hno at_tick (S (length at_tick)) later (callfree q)) as (n' & E); [lia| |apply filter_later|..].
    + eapply Forall_impl; [exact HD|]. cbn. lia.
    + rewrite (tick_news now handler at_tick HD). exact Hn.
    + rewrite (tick_news now handler at_tick HD), (tick_calls now at_tick HD) in E. fold new calls in E. unfold view in Href at 1. rewrite Es in Href. rewrite E in Href.
      destruct r as [[q' tr]| |]; [|done|done]. cbn in Href. injection Href as Ep _ Et. exists q'. by rewrite <- Et, Ep.
Qed.

(** ** Witnesses *)

Definition q0 : queue := Q [Co 2 1 10; Co 3 2 20] 2.
Definition qlate : queue := Q [Co (-1) 1 10; Co 0 2 20; Co 3 1 30] 1.
Definition qtwo : queue := Q [Co 1 1 10; Co 0 2 20; Co 3 1 30] 2.
(** Every function called sets itself up again 5 ticks later. *)
Definition rearm (f : nat) (a t : Z) : list call := [CTimeout f a 5].

Ltac wfq := repeat constructor; unfold earlier, deadline; cbn; lia.
Lemma q0_wf : wf q0. Proof. wfq. Qed.
Lemma qlate_wf : wf qlate. Proof. wfq. Qed.
Lemma qtwo_wf : wf qtwo. Proof. wfq. Qed.

Lemma timeout_spec_witness :
  exists q', timeout 7 70 4 q0 = Ret q' /\ wf q' /\
    pending 100 q' = [(102, 1%nat, 10); (104, 7%nat, 70); (105, 2%nat, 20)].
Proof.
  destruct (proj2 (timeout_spec 100 7 70 4 q0 q0_wf) ltac:(done))
    as (q' & l1 & l2 & Hr & Hwf & _).
  exists q'. split; [exact Hr|]. split; [exact Hwf|].
  vm_compute in Hr. injection Hr as <-. reflexivity.
Defined.

Lemma untimeout_spec_witness :
  wf (untimeout 1 10 q0) /\ slots (untimeout 1 10 q0) = slots q0 /\
  pending 100 (untimeout 1 10 q0) = [(105, 2%nat, 20)].
Proof.
  destruct (untimeout_spec 100 1 10 q0 q0_wf) as (Hwf & Hs & _).
  split; [exact Hwf|]. split; [exact Hs|]. reflexivity.
Defined.

Lemma softclock_spec_witness :
  exists q' tr, softclock_loop rearm 3 qlate = Ret (q', tr) /\ none_due (calltodo q') /\
    tr = [(1%nat, 10, -1); (2%nat, 20, 0)].
Proof.
  destruct (softclock_spec rearm qlate qlate_wf) as [_ H].
  destruct (softclock_loop rearm 3 qlate) as [[q' tr]| |] eqn:E; [|discriminate E|discriminate E].
  exists q', tr. split; [reflexivity|].
  destruct (H q' tr E) as (_ & Hn & _). split; [exact Hn|].
  vm_compute in E. injection E as <- <-. reflexivity.
Defined.

(** Functions 1 and 2 set themselves up again 5 ticks later. *)
Lemma tick_fires_witness :
  exists q', softclock_loop rearm 3 (tick_queue qtwo).1 = Ret (q', [(1%nat, 10, 0); (2%nat, 20, 0)]) /\
    pending 51 q' = [(54, 1%nat, 30); (56, 2%nat, 20); (56, 1%nat, 10)].
Proof.
  destruct (tick_fires 50 rearm qtwo qtwo_wf ltac:(cbn; lia)) as (_ & _ & _ & _ & H).
  destruct H as (q' & Hr & Hp); [intros f a t; by apply Forall_singleton|vm_compute; lia|].
  exists q'. split; [exact Hr|exact Hp].
Defined.

End Callout.
