(* ===== verification/KernTime.v ===== *)
(** Time of day and interval timers: sys/kern/kern_time.c, and BUMPTIME and
    hzto() of sys/kern/kern_clock.c. *)
From stdpp Require Import base numbers list strings.
From Stdlib Require Import ZArith Lia.
From S2P Require Import Prelude Callout.
Import Callout.

Module KernTime.

Record timeval := TV { tv_sec : Z; tv_usec : Z }.
Record itimerval := ITV { it_interval : timeval; it_value : timeval }.

Definition EINVAL : Z := 22.
Definition ITIMER_REAL : Z := 0.
Definition ITIMER_VIRTUAL : Z := 1.
Definition ITIMER_PROF : Z := 2.

Definition timerisset (tv : timeval) : bool :=
  negb (tv_sec tv =? 0) || negb (tv_usec tv =? 0).
Definition timercmp_lt (a b : timeval) : bool :=
  (tv_sec a <? tv_sec b) || ((tv_sec a =? tv_sec b) && (tv_usec a <? tv_usec b)).
Definition timercmp_gt (a b : timeval) : bool :=
  (tv_sec a >? tv_sec b) || ((tv_sec a =? tv_sec b) && (tv_usec a >? tv_usec b)).
Definition timerclear : timeval := TV 0 0.

(** ** timeval arithmetic *)

Definition timevalfix (t1 : timeval) : timeval :=
  let t1 := if tv_usec t1 <? 0 then TV (tv_sec t1 - 1) (tv_usec t1 + 1000000) else t1 in
  if tv_usec t1 >=? 1000000 then TV (tv_sec t1 + 1) (tv_usec t1 - 1000000) else t1.

Definition timevaladd (t1 t2 : timeval) : timeval :=
  timevalfix (TV (tv_sec t1 + tv_sec t2) (tv_usec t1 + tv_usec t2)).

Definition timevalsub (t1 t2 : timeval) : timeval :=
  timevalfix (TV (tv_sec t1 - tv_sec t2) (tv_usec t1 - tv_usec t2)).

(** The macro of hardclock(). *)
Definition BUMPTIME (t : timeval) (usec : Z) : timeval :=
  let u := tv_usec t + usec in
  if u >=? 1000000 then TV (tv_sec t + 1) (u - 1000000) else TV (tv_sec t) u.

(** ** Interval timers *)

(** [itimerfix]: the error number and the fixed value; [tick] is the length of
    a clock tick in microseconds. *)
Definition itimerfix (tick : Z) (tv : timeval) : Z * timeval :=
  if (tv_sec tv <? 0) || (tv_sec tv >? 100000000) || (tv_usec tv <? 0) || (tv_usec tv >=? 1000000)
  then (EINVAL, tv)
  else if (tv_sec tv =? 0) && negb (tv_usec tv =? 0) && (tv_usec tv <? tick)
  then (0, TV (tv_sec tv) tick)
  else (0, tv).

(** The label [expire] of [itimerdecr]. *)
Definition itimer_expire (itp : itimerval) (usec : Z) : itimerval :=
  if timerisset (it_interval itp) then
    let v := TV (tv_sec (it_interval itp)) (tv_usec (it_interval itp) - usec) in
    let v := if tv_usec v <? 0 then TV (tv_sec v - 1) (tv_usec v + 1000000) else v in
    ITV (it_interval itp) v
  else ITV (it_interval itp) (TV (tv_sec (it_value itp)) 0).

(** [itimerdecr]: the new timer, and 1 while it has not expired. *)
Definition itimerdecr (itp : itimerval) (usec : Z) : itimerval * Z :=
  let v := it_value itp in
  if (tv_usec v <? usec) && (tv_sec v =? 0)
  then (itimer_expire itp (usec - tv_usec v), 0)
  else
    let v := if tv_usec v <? usec then TV (tv_sec v - 1) (tv_usec v + 1000000) else v in
    let v := TV (tv_sec v) (tv_usec v - usec) in
    let itp := ITV (it_interval itp) v in
    if timerisset v then (itp, 1) else (itimer_expire itp 0, 0).

(** ** hzto: ticks until an absolute time, with 32-bit arithmetic *)
Definition hzto (hz tick : Z) (time tv : timeval) : Z :=
  let sec := s32 (tv_sec tv - tv_sec time) in
  if sec <=? Z.quot INT_MAX 1000 - 1000 then
    Z.quot (s32 (s32 (s32 (tv_sec tv - tv_sec time) * 1000)
                 + Z.quot (s32 (tv_usec tv - tv_usec time)) 1000))
           (Z.quot tick 1000)
  else if sec <=? Z.quot INT_MAX hz then s32 (sec * hz)
  else INT_MAX.

(** ** adjtime and the clock it slews *)

Record skew := Skew { time : timeval; timedelta : Z; tickdelta : Z }.

(** The end of hardclock(): advance the time of day by one tick, applying the
    pending correction. *)
Definition clock_advance (tick : Z) (c : skew) : skew :=
  if timedelta c =? 0 then Skew (BUMPTIME (time c) tick) (timedelta c) (tickdelta c)
  else if timedelta c <? 0 then
    Skew (BUMPTIME (time c) (tick - tickdelta c)) (timedelta c + tickdelta c) (tickdelta c)
  else
    Skew (BUMPTIME (time c) (tick + tickdelta c)) (timedelta c - tickdelta c) (tickdelta c).

(** The body of [adjtime] after [suser] and [copyin] have succeeded: the new
    state and [*olddelta]. *)
Definition adjtime (tickadj bigadj : Z) (c : skew) (atv : timeval) : skew * timeval :=
  let ndelta := s32 (s32 (tv_sec atv * 1000000) + tv_usec atv) in
  let td := if timedelta c =? 0
            then (if ndelta >? bigadj then 10 * tickadj else tickadj)
            else tickdelta c in
  let ndelta := if negb (Z.rem ndelta td =? 0) then Z.quot ndelta tickadj * tickadj else ndelta in
  (Skew (time c) ndelta td,
   TV (Z.quot (timedelta c) 1000000) (Z.rem (timedelta c) 1000000)).

(** ** getitimer, setitimer, realitexpire

    The state they share: the time of day, the callout queue, the process's
    real timer, and the two timers of its u. area (indexed by ITIMER_VIRTUAL
    and ITIMER_PROF).  [signals] collects the SIGALRMs posted. *)
Record timers := Timers {
  t_time : timeval;
  t_queue : queue;
  p_realtimer : itimerval;
  u_virt : itimerval;
  u_prof : itimerval;
  signals : nat }.

Definition realitexpire_fn : nat := 0.

Definition u_timer (s : timers) (which : Z) : itimerval :=
  if which =? ITIMER_VIRTUAL then u_virt s else u_prof s.

(** The value [getitimer] hands to [copyout]. *)
Definition getitimer_value (s : timers) (which : Z) : itimerval :=
  if which =? ITIMER_REAL then
    let aitv := p_realtimer s in
    if timerisset (it_value aitv) then
      if timercmp_lt (it_value aitv) (t_time s)
      then ITV (it_interval aitv) timerclear
      else ITV (it_interval aitv) (timevalsub (it_value aitv) (t_time s))
    else aitv
  else u_timer s which.

(** The error number ([copyout_err] is what [copyout] returns) and the value
    copied out, if any. *)
Definition getitimer (s : timers) (which copyout_err : Z) : Z * option itimerval :=
  if which >? ITIMER_PROF then (EINVAL, None)
  else (copyout_err, Some (getitimer_value s which)).

(** [itv] is [None] for a null pointer, else what [copyin] delivered: an error
    or a value; [oitv] says whether the old value was asked for. *)
Definition setitimer (hz tick : Z) (p : Z) (s : timers) (which : Z)
    (itv : option (Z + itimerval)) (oitv : bool) (copyout_err : Z)
  : outcome (Z * timers * option itimerval) :=
  if which >? ITIMER_PROF then Ret (EINVAL, s, None)
  else
    match itv with
    | Some (inl e) => Ret (e, s, None)
    | _ =>
        let old := if oitv then getitimer s which copyout_err else (0, None) in
        if negb (old.1 =? 0) then Ret (old.1, s, old.2)
        else
          match itv with
          | Some (inr aitv) =>
              let '(e1, value) := itimerfix tick (it_value aitv) in
              if negb (e1 =? 0) then Ret (EINVAL, s, old.2)
              else
                let '(e2, interval) := itimerfix tick (it_interval aitv) in
                if negb (e2 =? 0) then Ret (EINVAL, s, old.2)
                else if which =? ITIMER_REAL then
                  let q := untimeout realitexpire_fn p (t_queue s) in
                  if timerisset value then
                    let value := timevaladd value (t_time s) in
                    q' ← timeout realitexpire_fn p (hzto hz tick (t_time s) value) q;
                    Ret (0, Timers (t_time s) q' (ITV interval value) (u_virt s) (u_prof s)
                              (signals s), old.2)
                  else
                    Ret (0, Timers (t_time s) q (ITV interval value) (u_virt s) (u_prof s)
                              (signals s), old.2)
                else if which =? ITIMER_VIRTUAL then
                  Ret (0, Timers (t_time s) (t_queue s) (p_realtimer s) (ITV interval value)
                            (u_prof s) (signals s), old.2)
                else
                  Ret (0, Timers (t_time s) (t_queue s) (p_realtimer s) (u_virt s)
                            (ITV interval value) (signals s), old.2)
          | _ => Ret (0, s, old.2)
          end
    end.

(** The [for (;;)] loop of [realitexpire]. *)
Fixpoint realit_loop (fuel : nat) (now : timeval) (value interval : timeval) : outcome timeval :=
  match fuel with
  | O => Fault
  | S fuel =>
      let value := timevaladd value interval in
      if timercmp_gt value now then Ret value else realit_loop fuel now value interval
  end.

Definition realitexpire (hz tick : Z) (fuel : nat) (p : Z) (s : timers) : outcome timers :=
  let s := Timers (t_time s) (t_queue s) (p_realtimer s) (u_virt s) (u_prof s) (S (signals s)) in
  let it := p_realtimer s in
  if negb (timerisset (it_interval it)) then
    Ret (Timers (t_time s) (t_queue s) (ITV (it_interval it) timerclear) (u_virt s) (u_prof s)
           (signals s))
  else
    v ← realit_loop fuel (t_time s) (it_value it) (it_interval it);
    q ← timeout realitexpire_fn p (hzto hz tick (t_time s) v) (t_queue s);
    Ret (Timers (t_time s) q (ITV (it_interval it) v) (u_virt s) (u_prof s) (signals s)).

(** ** Abstract view: microseconds *)

Definition us (t : timeval) : Z := tv_sec t * 1000000 + tv_usec t.
Definition normal (t : timeval) : Prop := 0 <= tv_usec t < 1000000.

Lemma us_inj a b : normal a -> normal b -> us a = us b -> a = b.
Proof.
  unfold normal, us. destruct a as [s1 u1], b as [s2 u2]; cbn. intros.
  assert (s1 = s2) by lia. subst. f_equal. lia.
Qed.

Lemma timevalfix_spec t : -1000000 <= tv_usec t < 2000000 ->
  normal (timevalfix t) /\ us (timevalfix t) = us t.
Proof.
  intros H. unfold timevalfix, normal, us. destruct t as [s u]; cbn in *.
  destruct (Z.ltb_spec u 0); cbn; rewrite Z.geb_leb;
    match goal with |- context [1000000 <=? ?x] => destruct (Z.leb_spec 1000000 x) end; cbn; lia.
Qed.

Lemma timevaladd_spec a b : normal a -> normal b ->
  normal (timevaladd a b) /\ us (timevaladd a b) = us a + us b.
Proof.
  intros Ha Hb. unfold timevaladd.
  destruct (timevalfix_spec (TV (tv_sec a + tv_sec b) (tv_usec a + tv_usec b))) as [H1 H2];
    [unfold normal in *; cbn; lia|].
  split; [done|]. rewrite H2. unfold us. cbn. lia.
Qed.

Lemma timevalsub_spec a b : normal a -> normal b ->
  normal (timevalsub a b) /\ us (timevalsub a b) = us a - us b.
Proof.
  intros Ha Hb. unfold timevalsub.
  destruct (timevalfix_spec (TV (tv_sec a - tv_sec b) (tv_usec a - tv_usec b))) as [H1 H2];
    [unfold normal in *; cbn; lia|].
  split; [done|]. rewrite H2. unfold us. cbn. lia.
Qed.

Lemma BUMPTIME_spec t d : normal t -> 0 <= d <= 1000000 ->
  normal (BUMPTIME t d) /\ us (BUMPTIME t d) = us t + d.
Proof.
  unfold BUMPTIME, normal, us. intros. rewrite Z.geb_leb.
  destruct (Z.leb_spec 1000000 (tv_usec t + d)); cbn; lia.
Qed.

Lemma timerisset_spec t : normal t -> 0 <= tv_sec t -> (timerisset t = true <-> 0 < us t).
Proof.
  unfold timerisset, normal, us. intros.
  destruct (Z.eqb_spec (tv_sec t) 0), (Z.eqb_spec (tv_usec t) 0); cbn; split; intros; done || lia.
Qed.

Lemma timercmp_lt_spec a b : normal a -> normal b -> (timercmp_lt a b = true <-> us a < us b).
Proof.
  unfold timercmp_lt, normal, us. intros.
  destruct (Z.ltb_spec (tv_sec a) (tv_sec b)), (Z.eqb_spec (tv_sec a) (tv_sec b)),
    (Z.ltb_spec (tv_usec a) (tv_usec b)); cbn; split; intros; done || lia.
Qed.

Lemma timercmp_gt_spec a b : normal a -> normal b -> (timercmp_gt a b = true <-> us b < us a).
Proof.
  unfold timercmp_gt, normal, us. intros. rewrite !Z.gtb_ltb.
  destruct (Z.ltb_spec (tv_sec b) (tv_sec a)), (Z.eqb_spec (tv_sec a) (tv_sec b)),
    (Z.ltb_spec (tv_usec b) (tv_usec a)); cbn; split; intros; done || lia.
Qed.

(** ** itimerdecr *)

(** A timer whose parts are normalised and not negative. *)
Definition timer_ok (t : itimerval) : Prop :=
  normal (it_interval t) /\ normal (it_value t) /\
  0 <= tv_sec (it_interval t) /\ 0 <= tv_sec (it_value t).

Lemma itimer_expire_spec t d : timer_ok t -> tv_sec (it_value t) = 0 ->
  0 <= d <= 1000000 -> us (it_interval t) = 0 \/ d <= us (it_interval t) ->
  let t' := itimer_expire t d in
  it_interval t' = it_interval t /\ timer_ok t' /\
  us (it_value t') = (if us (it_interval t) =? 0 then 0 else us (it_interval t) - d).
Proof.
  intros (Hi & Hv & Hsi & Hsv) H0 Hd Hlt. unfold itimer_expire.
  pose proof (timerisset_spec (it_interval t) Hi Hsi) as Hset.
  destruct (timerisset (it_interval t)).
  - assert (0 < us (it_interval t)) by tauto. destruct (Z.eqb_spec (us (it_interval t)) 0); [lia|].
    unfold timer_ok, normal, us in *. destruct (it_interval t) as [si ui]. cbn in *.
    destruct (Z.ltb_spec (ui - d) 0); cbn; splits; auto; lia.
  - assert (us (it_interval t) = 0) as ->.
    { destruct (Z.eq_dec (us (it_interval t)) 0); [done|]. unfold us, normal in *.
      assert (false = true) by (apply Hset; lia). done. }
    unfold timer_ok, normal, us in *. cbn. splits; auto; lia.
Qed.

Lemma itimerdecr_ok t d : timer_ok t -> 0 < d <= 1000000 -> 0 < us (it_value t) ->
  us (it_interval t) = 0 \/ d <= us (it_interval t) ->
  let '(t', r) := itimerdecr t d in
  it_interval t' = it_interval t /\ timer_ok t' /\
  ((d < us (it_value t) /\ r = 1 /\ us (it_value t') = us (it_value t) - d) \/
   (us (it_value t) <= d /\ r = 0 /\
    us (it_value t') = if us (it_interval t) =? 0 then 0
                       else us (it_interval t) - (d - us (it_value t)))).
Proof.
  intros Hok Hd Hv Hi. pose proof Hok as (Hni & Hnv & Hsi & Hsv). unfold itimerdecr.
  destruct (Z.ltb_spec (tv_usec (it_value t)) d) as [Hlt|Hge]; cbn [andb].
  - destruct (Z.eqb_spec (tv_sec (it_value t)) 0) as [H0|H0]; cbn [andb].
    + assert (us (it_value t) = tv_usec (it_value t)) as Hus by (unfold us; lia). rewrite Hus in *.
      destruct (itimer_expire_spec t (d - tv_usec (it_value t)) Hok H0) as (E1 & E2 & E3);
        [lia|lia|]. splits; auto. right. splits; auto. lia.
    + assert (timerisset (TV (tv_sec (it_value t) - 1) (tv_usec (it_value t) + 1000000 - d))
                = true \/ us (it_value t) = d) as Hcase.
      { destruct (Z.eq_dec (us (it_value t)) d); [by right|left].
        unfold normal, us in *. apply timerisset_spec; unfold normal, us; cbn; lia. }
      cbn [tv_sec tv_usec].
      destruct (timerisset _) eqn:Hset.
      * unfold timer_ok, normal, us in *. cbn in *.
        assert (d < tv_sec (it_value t) * 1000000 + tv_usec (it_value t)).
        { destruct (Z.eq_dec (tv_sec (it_value t)) 1), (Z.eq_dec (tv_usec (it_value t) + 1000000) d);
            try lia.
          exfalso. unfold timerisset in Hset. cbn in Hset.
          destruct (Z.eqb_spec (tv_sec (it_value t) - 1) 0); [|lia].
          destruct (Z.eqb_spec (tv_usec (it_value t) + 1000000 - d) 0); [done|lia]. }
        splits; auto; try lia; left; splits; auto; lia.
      * destruct Hcase as [|Heq]; [done|].
        set (t1 := ITV (it_interval t) _).
        assert (timer_ok t1 /\ tv_sec (it_value t1) = 0) as [Hok1 H01].
        { unfold timer_ok, normal, us, t1 in *. cbn. lia. }
        destruct (itimer_expire_spec t1 0 Hok1 H01) as (E1 & E2 & E3); [lia| |].
        { cbn. destruct Hi; [by left|right; lia]. }
        splits; auto. right. splits; auto; [lia|]. rewrite E3. cbn. bcase; lia.
  - cbn [tv_sec tv_usec]. destruct (timerisset _) eqn:Hset.
    + unfold timer_ok, normal, us in *. cbn in *. splits; auto; try lia. left.
      unfold timerisset in Hset. cbn in Hset.
      destruct (Z.eqb_spec (tv_sec (it_value t)) 0), (Z.eqb_spec (tv_usec (it_value t) - d) 0);
        try done; splits; auto; lia.
    + assert (us (it_value t) = d).
      { unfold timerisset, us in *. cbn in Hset.
        destruct (Z.eqb_spec (tv_sec (it_value t)) 0); [|done].
        destruct (Z.eqb_spec (tv_usec (it_value t) - d) 0); [lia|done]. }
      set (t1 := ITV (it_interval t) _).
      assert (timer_ok t1 /\ tv_sec (it_value t1) = 0) as [Hok1 H01].
      { unfold timer_ok, normal, us, t1 in *. cbn. lia. }
      destruct (itimer_expire_spec t1 0 Hok1 H01) as (E1 & E2 & E3); [lia| |].
      { cbn. destruct Hi; [by left|right; lia]. }
      splits; auto. right. splits; auto; [lia|]. rewrite E3. cbn. bcase; lia.
Qed.

(** [n] decrements of [d], counting the expirations. *)
Fixpoint decr_n (n : nat) (d : Z) (t : itimerval) : itimerval * Z :=
  match n with
  | O => (t, 0)
  | S n =>
      let '(t1, r) := itimerdecr t d in
      let '(t2, m) := decr_n n d t1 in
      (t2, m + if r =? 0 then 1 else 0)
  end.

Fixpoint advance_n (n : nat) (tick : Z) (c : skew) : skew :=
  match n with
  | O => c
  | S n => advance_n n tick (clock_advance tick c)
  end.

Lemma decr_n_ok d : forall n t, timer_ok t -> 0 < d <= 1000000 -> 0 < us (it_value t) ->
  d <= us (it_interval t) ->
  let '(t', m) := decr_n n d t in
  it_interval t' = it_interval t /\ timer_ok t' /\ 0 < us (it_value t') /\
  0 <= m <= Z.of_nat n /\
  us (it_value t') = us (it_value t) + m * us (it_interval t) - Z.of_nat n * d.
Proof.
  induction n as [|n IH]; intros t Hok Hd Hv Hi.
  - cbn. splits; auto; lia.
  - cbn [decr_n]. pose proof (itimerdecr_ok t d Hok Hd Hv (or_intror Hi)) as H1.
    destruct (itimerdecr t d) as [t1 r]. destruct H1 as (E1 & Hok1 & Hc).
    rewrite <- E1 in *.
    assert (0 < us (it_value t1) /\ exists k, k = (if r =? 0 then 1 else 0) /\ 0 <= k <= 1 /\
      us (it_value t1) = us (it_value t) + k * us (it_interval t1) - d) as (Hv1 & k & Hk & Hk' & Hus).
    { destruct Hc as [(? & -> & ?)|(? & -> & H2)]; cbn.
      - split; [lia|]. exists 0. splits; auto; lia.
      - destruct (Z.eqb_spec (us (it_interval t1)) 0); [lia|].
        split; [lia|]. exists 1. splits; auto; lia. }
    specialize (IH t1 Hok1 Hd Hv1 Hi). destruct (decr_n n d t1) as [t2 m].
    destruct IH as (E2 & Hok2 & Hv2 & Hm & Hus2). rewrite <- Hk. splits; auto; lia.
Qed.

(** ** realitexpire *)

Lemma realit_loop_ok now i : normal now -> normal i -> 0 < us i -> forall fuel v,
  normal v -> (0 < fuel)%nat -> us now - us v < Z.of_nat fuel * us i ->
  exists v' k, realit_loop fuel now v i = Ret v' /\ normal v' /\ 1 <= k /\
    us v' = us v + k * us i /\ us now < us v' /\ (k = 1 \/ us v' - us i <= us now).
Proof.
  intros Hnow Hi Hi0. induction fuel as [|fuel IH]; intros v Hv Hpos Hf; [lia|].
  cbn [realit_loop]. destruct (timevaladd_spec v i Hv Hi) as [Hn Hus].
  pose proof (timercmp_gt_spec _ now Hn Hnow) as Hgt.
  destruct (timercmp_gt (timevaladd v i) now).
  - exists (timevaladd v i), 1. assert (us now < us (timevaladd v i)) by tauto.
    splits; auto; lia.
  - assert (us (timevaladd v i) <= us now).
    { destruct (Z.le_gt_cases (us (timevaladd v i)) (us now)); [done|].
      assert (false = true) by (apply Hgt; lia). done. }
    destruct (IH (timevaladd v i) Hn) as (v' & k & E & Hn' & Hk & Hus' & Hlt & Hmin); [nia|nia|].
    exists v', (k + 1). splits; auto; [lia|lia|]. right. destruct Hmin as [->|]; lia.
Qed.

(** ** The clock under adjtime *)

Lemma advance_pos tick c n : normal (time c) -> 0 <= tickdelta c <= tick ->
  tick + tickdelta c <= 1000000 -> timedelta c = Z.of_nat n * tickdelta c -> 0 < tickdelta c ->
  let c' := advance_n n tick c in
  timedelta c' = 0 /\ normal (time c') /\ tickdelta c' = tickdelta c /\
  us (time c') = us (time c) + Z.of_nat n * tick + timedelta c.
Proof.
  revert c. induction n as [|n IH]; intros c Hn Htd Hle Hdel Hpos; [cbn; splits; auto; lia|].
  cbn [advance_n].
  assert (clock_advance tick c = Skew (BUMPTIME (time c) (tick + tickdelta c))
            (timedelta c - tickdelta c) (tickdelta c)) as ->
    by (unfold clock_advance; repeat bcase; first [done | exfalso; nia]).
  destruct (BUMPTIME_spec (time c) (tick + tickdelta c) Hn ltac:(lia)) as [Hn1 Hus1].
  destruct (IH (Skew (BUMPTIME (time c) (tick + tickdelta c))
            (timedelta c - tickdelta c) (tickdelta c))) as (E1 & E2 & E3 & E4); cbn; auto; [nia|].
  cbn in *. splits; auto; lia.
Qed.

Lemma advance_neg tick c n : normal (time c) -> 0 <= tickdelta c <= tick ->
  tick + tickdelta c <= 1000000 -> timedelta c = - Z.of_nat n * tickdelta c -> 0 < tickdelta c ->
  let c' := advance_n n tick c in
  timedelta c' = 0 /\ normal (time c') /\ tickdelta c' = tickdelta c /\
  us (time c') = us (time c) + Z.of_nat n * tick + timedelta c.
Proof.
  revert c. induction n as [|n IH]; intros c Hn Htd Hle Hdel Hpos; [cbn; splits; auto; lia|].
  cbn [advance_n].
  assert (clock_advance tick c = Skew (BUMPTIME (time c) (tick - tickdelta c))
            (timedelta c + tickdelta c) (tickdelta c)) as ->
    by (unfold clock_advance; repeat bcase; first [done | exfalso; nia]).
  destruct (BUMPTIME_spec (time c) (tick - tickdelta c) Hn ltac:(lia)) as [Hn1 Hus1].
  destruct (IH (Skew (BUMPTIME (time c) (tick - tickdelta c))
            (timedelta c + tickdelta c) (tickdelta c))) as (E1 & E2 & E3 & E4); cbn; auto; [nia|].
  cbn in *. splits; auto; lia.
Qed.

(** What adjtime stores when no correction is pending: the requested
    microseconds rounded towards zero to a multiple of [tickadj], except that a
    multiple of [tickdelta] is taken as it is. *)
Lemma adjtime_fresh tickadj bigadj c atv : timedelta c = 0 -> 0 < tickadj -> normal atv ->
  -2147483648 <= us atv <= 2147483647 -> -2147 <= tv_sec atv <= 2147 ->
  us atv <= bigadj ->
  (adjtime tickadj bigadj c atv).1 =
    Skew (time c) (Z.quot (us atv) tickadj * tickadj) tickadj.
Proof.
  intros H0 Hta Hn Hr Hs Hb. unfold adjtime. rewrite H0. cbn [Z.eqb fst].
  assert (s32 (tv_sec atv * 1000000) = tv_sec atv * 1000000) as -> by (apply s32_small; lia).
  assert (s32 (tv_sec atv * 1000000 + tv_usec atv) = us atv) as -> by (apply s32_small; apply Hr).
  bcase; [lia|]. destruct (Z.eqb_spec (Z.rem (us atv) tickadj) 0) as [E|]; cbn; [|done].
  f_equal. pose proof (Z.quot_rem' (us atv) tickadj). lia.
Qed.

Lemma advance_mod tick n : forall c, 0 < tickdelta c -> timedelta c mod tickdelta c <> 0 ->
  timedelta (advance_n n tick c) mod tickdelta c <> 0.
Proof.
  induction n as [|n IH]; intros c Hpos Hm; [done|]. cbn [advance_n].
  assert (tickdelta (clock_advance tick c) = tickdelta c /\
    timedelta (clock_advance tick c) mod tickdelta c = timedelta c mod tickdelta c) as [E1 E2].
  { unfold clock_advance. repeat bcase; cbn; split; auto.
    - replace (timedelta c + tickdelta c) with (timedelta c + 1 * tickdelta c) by lia.
      by rewrite Z_mod_plus_full.
    - replace (timedelta c - tickdelta c) with (timedelta c + (-1) * tickdelta c) by lia.
      by rewrite Z_mod_plus_full. }
  rewrite <- E1. apply IH; rewrite E1; [done|]. by rewrite E2.
Qed.

(** ** Properties *)

(** C34: an interval timer driven by the clock does not drift.  Decrementing a
    running timer [n] times by [d] microseconds, with a reload interval of at
    least [d], keeps it running and normalised, and its value is the starting
    value, plus one interval per expiration reported, minus exactly [n * d]:
    what is left over at an expiration is charged to the next interval. *)
Theorem itimerdecr_no_drift (n : nat) (d : Z) (t : itimerval) :
  timer_ok t -> 0 < d <= 1000000 -> 0 < us (it_value t) -> d <= us (it_interval t) ->
  let '(t', m) := decr_n n d t in
  it_interval t' = it_interval t /\ timer_ok t' /\ 0 < us (it_value t') /\
  0 <= m <= Z.of_nat n /\
  us (it_value t') = us (it_value t) + m * us (it_interval t) - Z.of_nat n * d.
Proof. intros. by apply decr_n_ok. Qed.

(** hzto turns a deadline that is not in the past into a tick count
    without overflow.  Up to 2146483 seconds ahead the count is exact to the
    millisecond (never more than 999 microseconds late, less than one tick and
    a millisecond early); up to [INT_MAX / hz] seconds it is exact to the
    second; beyond that it saturates at [INT_MAX]. *)
Theorem hzto_bounds (hz tick : Z) (now tv : timeval) :
  0 < hz -> hz * tick = 1000000 -> tick mod 1000 = 0 ->
  normal now -> normal tv -> 0 <= tv_sec now -> tv_sec tv <= INT_MAX -> us now <= us tv ->
  let r := hzto hz tick now tv in
  let d := us tv - us now in
  let sec := tv_sec tv - tv_sec now in
  0 <= r <= INT_MAX /\
  (sec <= 2146483 -> r * tick <= d + 999 /\ d < (r + 1) * tick + 1000) /\
  (2146483 < sec <= INT_MAX / hz -> Z.abs (r * tick - d) < 1000000) /\
  (2146483 < sec -> INT_MAX / hz < sec -> r = INT_MAX).
Proof.
  intros Hhz Htick Hmul Hn1 Hn2 H1 H2 Hle. unfold normal, us, INT_MAX in *.
  destruct now as [s1 u1], tv as [s2 u2]; cbn [tv_sec tv_usec] in *.
  unfold hzto; cbn [tv_sec tv_usec]. change (2 ^ 31 - 1) with 2147483647 in *.
  set (sec := s2 - s1) in *. assert (0 <= sec <= 2147483647) by (unfold sec; lia).
  assert (s32 sec = sec) as -> by (apply s32_small; lia).
  assert (s32 (u2 - u1) = u2 - u1) as -> by (apply s32_small; lia).
  change (Z.quot INT_MAX 1000 - 1000) with 2146483.
  change INT_MAX with 2147483647.
  rewrite (Z.quot_div_nonneg 2147483647 hz) by lia.
  assert (exists k, tick = 1000 * k /\ 0 < k) as (k & -> & Hk).
  { exists (tick / 1000). zdiv. }
  assert (Z.quot (1000 * k) 1000 = k) as -> by (rewrite Z.mul_comm; apply Z.quot_mul; lia).
  bcase.
  - assert (s32 (sec * 1000) = sec * 1000) as -> by (apply s32_small; lia).
    pose proof (Z.quot_rem' (u2 - u1) 1000) as Hqr.
    pose proof (Z.rem_bound_abs (u2 - u1) 1000 ltac:(lia)) as Hrb.
    assert (Hq : 0 <= sec * 1000 + Z.quot (u2 - u1) 1000 <= 2147483000) by (unfold sec in *; lia).
    set (ms := sec * 1000 + Z.quot (u2 - u1) 1000) in *.
    assert (s32 ms = ms) as -> by (apply s32_small; lia).
    rewrite Z.quot_div_nonneg by lia.
    pose proof (Z.div_mod ms k ltac:(lia)) as Hdm. pose proof (Z.mod_pos_bound ms k Hk) as Hmb.
    set (r := ms / k) in *. unfold ms, sec in *.
    splits; [nia|nia|..]; intros; [|lia|lia]. nia.
  - bcase.
    + pose proof (Z.mul_div_le 2147483647 hz Hhz).
      assert (s32 (sec * hz) = sec * hz) as -> by (apply s32_small; nia).
      assert (sec * hz * (1000 * k) = sec * 1000000) as -> by nia.
      assert (sec * hz <= 2147483647) by nia. assert (0 <= sec * hz) by nia.
      unfold sec in *. splits; intros; try lia.
    + splits; intros; lia.
Qed.

#[export] Instance is_call_dec fn arg e : Decision (is_call fn arg e).
Proof. unfold is_call; apply _. Defined.

(** How many callouts (fn, arg) are pending. *)
Definition calls (fn : nat) (arg : Z) (q : queue) : nat :=
  length (filter (is_call fn arg) (pending 0 q)).

Lemma untimeout_calls fn arg q : wf q -> (calls fn arg q <= 1)%nat ->
  wf (untimeout fn arg q) /\ calls fn arg (untimeout fn arg q) = O /\
  (callfree q <= callfree (untimeout fn arg q))%nat.
Proof.
  intros Hwf Hle. unfold calls in *.
  destruct (untimeout_ok fn arg q Hwf) as (Hwf' & _ & Hs).
  pose proof (remove_events fn arg (calltodo q) 0 Hwf) as Hr.
  unfold untimeout in *. destruct (untimeout_remove fn arg (calltodo q)) as [l'|].
  - destruct Hr as (l1 & e & l2 & E1 & E2 & He & Hl1). split; [done|]. unfold pending in *. cbn.
    rewrite E1, filter_app, filter_cons_True in Hle by done. rewrite length_app in Hle.
    cbn in Hle. rewrite E2, filter_app, length_app. lia.
  - unfold pending. split; [done|]. rewrite filter_none by done. split; [done|lia].
Qed.

Lemma timeout_calls fn arg t q : wf q -> callfree q <> O ->
  exists q', timeout fn arg t q = Ret q' /\ wf q' /\
    calls fn arg q' = S (calls fn arg q).
Proof.
  intros Hwf Hn. unfold timeout. destruct (callfree q) as [|n] eqn:Hc; [done|].
  eexists. split; [done|].
  assert (Hr : timeout fn arg t q = Ret (Q (timeout_insert fn arg (if t <=? 0 then 1 else t)
    (calltodo q)) n)) by (unfold timeout; by rewrite Hc).
  destruct (timeout_ok fn arg t q _ Hwf Hr) as (Hwf' & _). split; [done|].
  unfold calls, pending; cbn.
  destruct (insert_events fn arg (calltodo q) 0 (if t <=? 0 then 1 else t)) as (l1 & l2 & E1 & E2 & _).
  { bcase; lia. }
  rewrite E1, E2, !filter_app, filter_cons_True, !length_app by (by split). cbn. lia.
Qed.

Lemma itimerfix_ok tick tv v : 0 < tick < 1000000 -> itimerfix tick tv = (0, v) ->
  normal v /\ 0 <= tv_sec v.
Proof.
  intros Ht. unfold itimerfix. rewrite Z.gtb_ltb, Z.geb_leb. unfold normal.
  destruct (Z.ltb_spec (tv_sec tv) 0); [done|]. destruct (Z.ltb_spec 100000000 (tv_sec tv)); [done|].
  destruct (Z.ltb_spec (tv_usec tv) 0); [done|]. destruct (Z.leb_spec 1000000 (tv_usec tv)); [done|].
  cbn. destruct (_ && _ && _); intros [= <-]; cbn; lia.
Qed.

Lemma timevalsub_add a b : normal a -> normal b -> timevalsub (timevaladd a b) b = a.
Proof.
  intros Ha Hb. destruct (timevaladd_spec a b Ha Hb) as [H1 H2].
  destruct (timevalsub_spec _ b H1 Hb) as [H3 H4]. apply us_inj; auto. lia.
Qed.

(** setitimer and getitimer agree.  When both times are in range,
    setitimer returns 0 and a following getitimer of the same timer, at the
    same time of day, returns the fixed times that were set; for the real
    timer exactly one callout of realitexpire is then pending if the value is
    not zero and none if it is, and the call cannot exhaust the callout table
    when a slot is free.  A time out of range gives EINVAL and changes
    nothing. *)
Theorem setitimer_getitimer (hz tick p : Z) (s : timers) (which : Z) (itv : itimerval) :
  0 < tick < 1000000 -> 0 <= which <= 2 ->
  normal (t_time s) -> 0 <= tv_sec (t_time s) ->
  wf (t_queue s) -> callfree (t_queue s) <> O ->
  (calls realitexpire_fn p (t_queue s) <= 1)%nat ->
  match itimerfix tick (it_value itv), itimerfix tick (it_interval itv) with
  | (0, value), (0, interval) =>
      exists s', setitimer hz tick p s which (Some (inr itv)) false 0 = Ret (0, s', None) /\
        getitimer s' which 0 = (0, Some (ITV interval value)) /\
        wf (t_queue s') /\
        (which = ITIMER_REAL ->
           calls realitexpire_fn p (t_queue s') = if timerisset value then 1%nat else O)
  | _, _ => setitimer hz tick p s which (Some (inr itv)) false 0 = Ret (EINVAL, s, None)
  end.
Proof.
  intros Ht Hw Hn Hs Hwf Hfree Hone.
  assert (Hwle : (which >? ITIMER_PROF) = false)
    by (rewrite Z.gtb_ltb; apply Z.ltb_ge; unfold ITIMER_PROF; lia).
  unfold setitimer. rewrite Hwle. cbn [fst snd].
  destruct (itimerfix tick (it_value itv)) as [e1 value] eqn:E1.
  assert (He : forall tv e v, itimerfix tick tv = (e, v) -> e = 0 \/ e = 22).
  { intros tv e v. unfold itimerfix. destruct (_ || _); [|destruct (_ && _)];
      intros [= <- <-]; auto. }
  destruct (He _ _ _ E1) as [-> | ->]; [|done]. cbn.
  destruct (itimerfix tick (it_interval itv)) as [e2 interval] eqn:E2.
  destruct (He _ _ _ E2) as [-> | ->]; [|done]. cbn.
  destruct (itimerfix_ok tick _ _ Ht E1) as [Hv Hv0].
  unfold getitimer. rewrite Hwle. unfold getitimer_value, ITIMER_REAL, u_timer, ITIMER_VIRTUAL.
  destruct (Z.eqb_spec which 0) as [->|Hw0].
  - destruct (untimeout_calls realitexpire_fn p (t_queue s) Hwf Hone) as (Hwf1 & Hc1 & Hf1).
    destruct (timerisset value) eqn:Hset.
    + destruct (timeout_calls realitexpire_fn p (hzto hz tick (t_time s) (timevaladd value (t_time s)))
        _ Hwf1) as (q' & Hq & Hwf2 & Hc2); [lia|]. rewrite Hq. bind.
      eexists. split; [done|]. cbn [t_time t_queue p_realtimer it_value it_interval].
      split; [|rewrite Hc2, Hc1; by split].
      destruct (timevaladd_spec value (t_time s) Hv Hn) as [Hn1 Hus].
      apply timerisset_spec in Hset; [|done..].
      assert (timerisset (timevaladd value (t_time s)) = true) as ->.
      { apply timerisset_spec; [done| |unfold us, normal in *; lia]. unfold us, normal in *. lia. }
      destruct (timercmp_lt (timevaladd value (t_time s)) (t_time s)) eqn:Hlt.
      { apply timercmp_lt_spec in Hlt; [lia|done..]. }
      by rewrite timevalsub_add.
    + eexists. split; [done|]. cbn [t_time t_queue p_realtimer it_value it_interval].
      rewrite Hset, Hc1. by splits.
  - destruct (Z.eqb_spec which 1) as [->|Hw1]; eexists; (split; [done|]); by splits.
Qed.

(** realitexpire posts one SIGALRM and, for a periodic timer, finds the
    next expiry after the present: with a positive interval its loop
    terminates, the new value is the old one plus a positive whole number of
    intervals, it is later than the time of day, and it is the first such time
    (the missed expirations are compressed into one).  One more callout is
    pending then; with no slot free the kernel panics, and a one-shot timer is
    cleared. *)
Theorem realitexpire_spec (hz tick p : Z) (fuel : nat) (s : timers) :
  let it := p_realtimer s in
  normal (t_time s) -> normal (it_value it) -> normal (it_interval it) ->
  0 <= tv_sec (it_interval it) -> wf (t_queue s) ->
  (0 < fuel)%nat -> (us (t_time s) - us (it_value it) < Z.of_nat fuel * us (it_interval it) \/
                     us (it_interval it) = 0) ->
  if us (it_interval it) =? 0 then
    realitexpire hz tick fuel p s =
      Ret (Timers (t_time s) (t_queue s) (ITV (it_interval it) timerclear) (u_virt s) (u_prof s)
             (S (signals s)))
  else
    match callfree (t_queue s) with
    | O => realitexpire hz tick fuel p s = Panic "timeout table overflow"
    | _ =>
        exists v q k, realitexpire hz tick fuel p s =
            Ret (Timers (t_time s) q (ITV (it_interval it) v) (u_virt s) (u_prof s)
                   (S (signals s))) /\
          normal v /\ 1 <= k /\ us v = us (it_value it) + k * us (it_interval it) /\
          us (t_time s) < us v /\ (k = 1 \/ us v - us (it_interval it) <= us (t_time s)) /\
          wf q /\ calls realitexpire_fn p q = S (calls realitexpire_fn p (t_queue s))
    end.
Proof.
  intros it Hn Hv Hi Hi0 Hwf Hpos Hf. unfold realitexpire. cbn [p_realtimer]. fold it.
  pose proof (timerisset_spec (it_interval it) Hi Hi0) as Hset.
  assert (0 <= us (it_interval it)) by (unfold us, normal in *; lia). bcase.
  - destruct (timerisset (it_interval it)); [|done].
    exfalso. assert (0 < us (it_interval it)) by tauto. lia.
  - destruct (timerisset (it_interval it)); [|exfalso; assert (false = true) by (apply Hset; lia); done].
    cbn [negb t_time].
    destruct (realit_loop_ok (t_time s) (it_interval it) Hn Hi ltac:(lia) fuel (it_value it) Hv Hpos)
      as (v & k & E & Hn' & Hk & Hus & Hlt & Hmin); [lia|].
    rewrite E. bind. cbn [t_queue].
    destruct (callfree (t_queue s)) as [|m] eqn:Hc; [unfold timeout; by rewrite Hc|].
    destruct (timeout_calls realitexpire_fn p (hzto hz tick (t_time s) v) (t_queue s) Hwf)
      as (q & Eq & Hwf' & Hcalls); [lia|].
    rewrite Eq. bind. exists v, q, k. by splits.
Qed.

(** A correction of at most [bigadj] microseconds, in either direction,
    is applied exactly.  adjtime called with no correction pending stores the
    microseconds rounded towards zero to a multiple of [tickadj]; after as many
    ticks as that multiple, the clock has advanced by the ticks plus the
    correction and nothing is pending. *)
Theorem adjtime_settles (tick tickadj bigadj : Z) (c : skew) (atv : timeval) :
  timedelta c = 0 -> 0 < tickadj <= tick -> tick + tickadj <= 1000000 ->
  normal (time c) -> normal atv -> -2147 <= tv_sec atv <= 2147 ->
  -2147483648 <= us atv <= 2147483647 -> us atv <= bigadj ->
  let q := Z.quot (us atv) tickadj in
  let c' := advance_n (Z.abs_nat q) tick (adjtime tickadj bigadj c atv).1 in
  timedelta c' = 0 /\ normal (time c') /\
  us (time c') = us (time c) + Z.abs q * tick + q * tickadj /\
  Z.abs (us atv - q * tickadj) < tickadj.
Proof.
  intros H0 Hta Htick Hn Hatv Hsec Hr Hb. cbn zeta. rewrite adjtime_fresh by (auto; lia).
  set (q := Z.quot (us atv) tickadj).
  assert (Z.abs (us atv - q * tickadj) < tickadj).
  { pose proof (Z.quot_rem' (us atv) tickadj). pose proof (Z.rem_bound_abs (us atv) tickadj ltac:(lia)).
    unfold q. lia. }
  destruct (Z.le_gt_cases 0 q).
  - destruct (advance_pos tick (Skew (time c) (q * tickadj) tickadj) (Z.abs_nat q))
      as (E1 & E2 & _ & E4); cbn; auto; try lia.
    cbn [time timedelta] in E4. splits; auto. lia.
  - destruct (advance_neg tick (Skew (time c) (q * tickadj) tickadj) (Z.abs_nat q))
      as (E1 & E2 & _ & E4); cbn; auto; try lia.
    cbn [time timedelta] in E4. splits; auto. lia.
Qed.

(** A correction above [bigadj] may never settle.  adjtime then slews by
    ten times [tickadj] per tick but rounds the correction to a multiple of
    [tickadj] only, so unless that multiple is divisible by ten the pending
    correction steps over zero and, whatever number of ticks passes, stays
    different from zero. *)
Theorem adjtime_big_never_settles (tick tickadj bigadj : Z) (c : skew) (atv : timeval) (n : nat) :
  timedelta c = 0 -> 0 < tickadj -> normal atv ->
  -2147 <= tv_sec atv <= 2147 -> -2147483648 <= us atv <= 2147483647 ->
  0 < bigadj < us atv -> Z.quot (us atv) tickadj mod 10 <> 0 ->
  timedelta (advance_n n tick (adjtime tickadj bigadj c atv).1) <> 0.
Proof.
  intros H0 Hta Hn Hsec Hr Hb Hq.
  assert (Hadj : (adjtime tickadj bigadj c atv).1 =
    Skew (time c) (Z.quot (us atv) tickadj * tickadj) (10 * tickadj)).
  { unfold adjtime. rewrite H0. cbn [Z.eqb fst].
    assert (s32 (tv_sec atv * 1000000) = tv_sec atv * 1000000) as -> by (apply s32_small; lia).
    assert (s32 (tv_sec atv * 1000000 + tv_usec atv) = us atv) as -> by (apply s32_small; apply Hr).
    bcase; [|lia].
    destruct (Z.eqb_spec (Z.rem (us atv) (10 * tickadj)) 0) as [E|]; cbn; [|done].
    exfalso. apply Hq. pose proof (Z.quot_rem' (us atv) (10 * tickadj)) as E'. rewrite E in E'.
    rewrite E'. replace (10 * tickadj * Z.quot (us atv) (10 * tickadj) + 0)
      with (10 * Z.quot (us atv) (10 * tickadj) * tickadj) by lia.
    rewrite Z.quot_mul by lia. rewrite Z.mul_comm. by apply Z_mod_mult. }
  rewrite Hadj. intros Hz.
  pose proof (advance_mod tick n (Skew (time c) (Z.quot (us atv) tickadj * tickadj) (10 * tickadj)))
    as Hm. cbn [timedelta tickdelta] in Hm. rewrite Hz in Hm. apply Hm; [lia| |].
  - rewrite Z.mul_mod_distr_r by lia. nia.
  - by apply Zmod_0_l.
Qed.

(** ** Witnesses *)

Definition t0 : timers :=
  Timers (TV 1000 999990) (Q [Co 5 0 9] 3) (ITV (TV 0 250000) (TV 1000 0))
    (ITV (TV 0 0) (TV 0 0)) (ITV (TV 0 0) (TV 0 0)) 0.

Lemma itimerdecr_no_drift_witness :
  decr_n 7 10000 (ITV (TV 0 25000) (TV 0 12000)) = (ITV (TV 0 25000) (TV 0 17000), 3) /\
  17000 = 12000 + 3 * 25000 - 7 * 10000.
Proof.
  pose proof (itimerdecr_no_drift 7 10000 (ITV (TV 0 25000) (TV 0 12000))
    ltac:(vm_compute; intuition congruence) ltac:(lia) ltac:(vm_compute; done)
    ltac:(vm_compute; congruence)) as H.
  split; [vm_compute; reflexivity|]. revert H. vm_compute. intros (_ & _ & _ & _ & H). exact H.
Defined.

Lemma hzto_bounds_witness :
  hzto 100 10000 (TV 1000 999990) (TV 1001 25000) = 2 /\ 2 * 10000 <= 25010 + 999.
Proof.
  destruct (hzto_bounds 100 10000 (TV 1000 999990) (TV 1001 25000) ltac:(lia) ltac:(lia)
    ltac:(reflexivity) ltac:(vm_compute; intuition congruence) ltac:(vm_compute; intuition congruence)
    ltac:(vm_compute; congruence) ltac:(vm_compute; congruence) ltac:(vm_compute; congruence))
    as (_ & H & _).
  split; [vm_compute; reflexivity|]. destruct H as [H _]; [vm_compute; congruence|]. exact H.
Defined.

Lemma setitimer_getitimer_witness :
  exists s', setitimer 100 10000 9 t0 0 (Some (inr (ITV (TV 1 0) (TV 0 300)))) false 0 =
      Ret (0, s', None) /\
    getitimer s' 0 0 = (0, Some (ITV (TV 1 0) (TV 0 10000))) /\
    calls realitexpire_fn 9 (t_queue s') = 1%nat.
Proof.
  destruct (setitimer_getitimer 100 10000 9 t0 0 (ITV (TV 1 0) (TV 0 300)) ltac:(lia) ltac:(lia)
    ltac:(vm_compute; intuition congruence) ltac:(vm_compute; congruence))
    as (s' & E & G & _ & C); [repeat constructor|discriminate|vm_compute; lia|].
  exists s'. split; [exact E|]. split; [exact G|]. apply C. reflexivity.
Defined.

Lemma realitexpire_spec_witness :
  exists v q k, realitexpire 100 10000 5 9 t0 =
      Ret (Timers (TV 1000 999990) q (ITV (TV 0 250000) v) (u_virt t0) (u_prof t0) 1) /\
    1 <= k /\ us v = 1000000000 + k * 250000 /\ v = TV 1001 0.
Proof.
  destruct (realitexpire_spec 100 10000 9 5 t0 ltac:(vm_compute; intuition congruence)
    ltac:(vm_compute; intuition congruence) ltac:(vm_compute; intuition congruence)
    ltac:(vm_compute; congruence) ltac:(repeat constructor) ltac:(lia) ltac:(left; vm_compute; congruence))
    as (v & q & k & E & _ & Hk & Hus & _).
  exists v, q, k. split; [exact E|]. split; [exact Hk|]. split; [exact Hus|].
  vm_compute in E. injection E as _ E. exact (eq_sym E).
Defined.

Lemma adjtime_settles_witness :
  let c' := advance_n 37 10000 (adjtime 40 1000000 (Skew (TV 5 0) 0 0) (TV (-1) 998500)).1 in
  timedelta c' = 0 /\ time c' = TV 5 368520.
Proof.
  destruct (adjtime_settles 10000 40 1000000 (Skew (TV 5 0) 0 0) (TV (-1) 998500)
    ltac:(reflexivity) ltac:(lia) ltac:(lia) ltac:(vm_compute; intuition congruence)
    ltac:(vm_compute; intuition congruence) ltac:(vm_compute; intuition congruence)
    ltac:(vm_compute; intuition congruence) ltac:(vm_compute; congruence)) as (H & _).
  split; [exact H|vm_compute; reflexivity].
Defined.

Lemma adjtime_big_never_settles_witness :
  timedelta (advance_n 2501 10000 (adjtime 40 1000000 (Skew (TV 5 0) 0 0) (TV 1 40)).1) <> 0 /\
  timedelta (advance_n 2501 10000 (adjtime 40 1000000 (Skew (TV 5 0) 0 0) (TV 1 40)).1) = -360.
Proof.
  split; [|vm_compute; reflexivity].
  apply (adjtime_big_never_settles 10000 40 1000000 (Skew (TV 5 0) 0 0) (TV 1 40) 2501);
    vm_compute; intuition congruence.
Defined.

End KernTime.
