(* ===== verification/Mbuf.v ===== *)
(** Network buffers: sys/kern/uipc_mbuf.c and the macros of sys/sys/mbuf.h.

    A chain is the list of its mbufs ([m_next]); the null pointer is the empty
    list.  The data of an mbuf are [m_len] bytes at offset [m_off] of its own
    data area [m_dat], or of a cluster when M_EXT is set; clusters live in a
    store with reference counts and are shared by the copies [m_copym] makes. *)
From stdpp Require Import base numbers list gmap strings.
From Stdlib Require Import ZArith Lia.
From S2P Require Import Prelude Rmap.

Module Mbuf.

(** ** Constants (vax) *)
Definition MLEN : Z := 108.
Definition MHLEN : Z := 100.
Definition MCLBYTES : Z := 1024.
Definition NBPG : Z := 512.
Definition CLBYTES : Z := 1024.
Definition CLSIZE : Z := 2.

Definition M_EXT : Z := 0x1.
Definition M_PKTHDR : Z := 0x2.
Definition M_EOR : Z := 0x4.
Definition M_BCAST : Z := 0x100.
Definition M_MCAST : Z := 0x200.
Definition M_COPYFLAGS : Z := Z.lor (Z.lor M_PKTHDR M_EOR) (Z.lor M_BCAST M_MCAST).
Definition M_COPYALL : Z := 1000000000.
Definition MT_DATA : Z := 1.
Definition MT_HEADER : Z := 2.

(** ** Data

    [m_off] is [m_data] relative to [m_dat] (so [m_pktdat] is at offset
    [MLEN - MHLEN]) or, with M_EXT, relative to the start of the cluster
    [m_ext]. *)
Record mbuf := Mb {
  m_off : Z;
  m_len : Z;
  m_type : Z;
  m_flags : Z;
  pkt_len : Z;
  rcvif : Z;
  m_dat : list Z;
  m_ext : Z;
  ext_size : Z }.

Record mbstat := Stat {
  m_mtypes : gmap Z Z;
  m_drain : Z;
  m_clfree : Z;
  m_clusters : Z }.

(** The cluster pool; [clusters] holds the contents of the allocated ones,
    [memalls] the results of the coming calls of the page allocator. *)
Record mclpool := Pool {
  clusters : gmap Z (list Z);
  mclrefcnt : gmap Z Z;
  mclfree : list Z;
  mbmap : Rmap.rmap;
  memalls : list bool;
  logged : Z }.

(** [mallocs] holds the results of the coming calls of MALLOC (every call
    succeeds once it is empty), [junk] what new memory contains. *)
Record mstate := MS {
  mallocs : list bool;
  junk : Z -> Z;
  stat : mbstat;
  pool : mclpool;
  MCFail : Z;
  MPFail : Z }.

Definition chain := list mbuf.

Definition with_mallocs (l : list bool) (st : mstate) : mstate :=
  MS l (junk st) (stat st) (pool st) (MCFail st) (MPFail st).
Definition with_stat (s : mbstat) (st : mstate) : mstate :=
  MS (mallocs st) (junk st) s (pool st) (MCFail st) (MPFail st).
Definition with_pool (p : mclpool) (st : mstate) : mstate :=
  MS (mallocs st) (junk st) (stat st) p (MCFail st) (MPFail st).
Definition mcfail (st : mstate) : mstate :=
  MS (mallocs st) (junk st) (stat st) (pool st) (MCFail st + 1) (MPFail st).
Definition mpfail (st : mstate) : mstate :=
  MS (mallocs st) (junk st) (stat st) (pool st) (MCFail st) (MPFail st + 1).

Definition count_type (t d : Z) (st : mstate) : mstate :=
  let s := stat st in
  with_stat (Stat (<[t := default 0 (m_mtypes s !! t) + d]> (m_mtypes s))
               (m_drain s) (m_clfree s) (m_clusters s)) st.

Definition set_len (m : mbuf) (n : Z) : mbuf :=
  Mb (m_off m) n (m_type m) (m_flags m) (pkt_len m) (rcvif m) (m_dat m) (m_ext m) (ext_size m).
Definition set_data (m : mbuf) (off n : Z) : mbuf :=
  Mb off n (m_type m) (m_flags m) (pkt_len m) (rcvif m) (m_dat m) (m_ext m) (ext_size m).
Definition set_dat (m : mbuf) (d : list Z) : mbuf :=
  Mb (m_off m) (m_len m) (m_type m) (m_flags m) (pkt_len m) (rcvif m) d (m_ext m) (ext_size m).
Definition set_flags (m : mbuf) (f : Z) : mbuf :=
  Mb (m_off m) (m_len m) (m_type m) f (pkt_len m) (rcvif m) (m_dat m) (m_ext m) (ext_size m).
Definition set_pkt_len (m : mbuf) (n : Z) : mbuf :=
  Mb (m_off m) (m_len m) (m_type m) (m_flags m) n (rcvif m) (m_dat m) (m_ext m) (ext_size m).
Definition set_type (m : mbuf) (t : Z) : mbuf :=
  Mb (m_off m) (m_len m) t (m_flags m) (pkt_len m) (rcvif m) (m_dat m) (m_ext m) (ext_size m).
Definition set_ext (m : mbuf) (c size : Z) : mbuf :=
  Mb (m_off m) (m_len m) (m_type m) (Z.lor (m_flags m) M_EXT) (pkt_len m) (rcvif m) (m_dat m) c size.

Definition is_ext (m : mbuf) : bool := has (m_flags m) M_EXT.
Definition is_pkt (m : mbuf) : bool := has (m_flags m) M_PKTHDR.

(** ** Memory access

    Reading or writing outside the area is [Fault]. *)
Definition slice (off n : Z) (l : list Z) : list Z := take (Z.to_nat n) (drop (Z.to_nat off) l).
Definition bread (l : list Z) (off n : Z) : outcome (list Z) :=
  if (0 <=? off) && (0 <=? n) && (off + n <=? Z.of_nat (length l)) then Ret (slice off n l) else Fault.
Definition bwrite (l : list Z) (off : Z) (bs : list Z) : outcome (list Z) :=
  if (0 <=? off) && (off + Z.of_nat (length bs) <=? Z.of_nat (length l))
  then Ret (take (Z.to_nat off) l ++ bs ++ drop (Z.to_nat off + length bs) l)
  else Fault.

(** The area [m_data] points into. *)
Definition area (st : mstate) (m : mbuf) : list Z :=
  if is_ext m then default [] (clusters (pool st) !! m_ext m) else m_dat m.

(** [bcopy(mtod(m) + off, ..., n)]. *)
Definition mread (st : mstate) (m : mbuf) (off n : Z) : outcome (list Z) :=
  bread (area st m) (m_off m + off) n.

(** [bcopy(..., mtod(m) + m->m_len, ...)] into the mbuf's own data area. *)
Definition mappend (m : mbuf) (bs : list Z) : outcome mbuf :=
  d ← bwrite (m_dat m) (m_off m + m_len m) bs; Ret (set_dat m d).

Definition bytes_of (f : Z -> Z) (n : nat) : list Z := (fun i => f (Z.of_nat i)) <$> seq 0 n.

(** ** MGET, MGETHDR, m_retry, m_reclaim *)
Definition MALLOC (st : mstate) : bool * mstate :=
  match mallocs st with
  | [] => (true, st)
  | b :: r => (b, with_mallocs r st)
  end.

Definition new_mbuf (st : mstate) (hdr : bool) (type : Z) : mbuf :=
  Mb (if hdr then MLEN - MHLEN else 0) (junk st 0) type (if hdr then M_PKTHDR else 0)
     (junk st 1) (junk st 2) (bytes_of (junk st) (Z.to_nat MLEN)) (junk st 3) (junk st 4).

Definition mget_once (hdr : bool) (type : Z) (st : mstate) : option mbuf * mstate :=
  let '(ok, st) := MALLOC st in
  if ok then (Some (new_mbuf st hdr type), count_type type 1 st) else (None, st).

(** What the protocols' [pr_drain] routines free is theirs; here only the
    statistics change. *)
Definition m_reclaim (st : mstate) : mstate :=
  let s := stat st in
  with_stat (Stat (m_mtypes s) (m_drain s + 1) (m_clfree s) (m_clusters s)) st.

Definition m_retry (type : Z) (st : mstate) : option mbuf * mstate :=
  mget_once false type (m_reclaim st).
Definition m_retryhdr (type : Z) (st : mstate) : option mbuf * mstate :=
  mget_once true type (m_reclaim st).

Definition MGET (type : Z) (st : mstate) : option mbuf * mstate :=
  match mget_once false type st with
  | (Some m, st) => (Some m, st)
  | (None, st) => m_retry type st
  end.
Definition MGETHDR (type : Z) (st : mstate) : option mbuf * mstate :=
  match mget_once true type st with
  | (Some m, st) => (Some m, st)
  | (None, st) => m_retryhdr type st
  end.

Definition m_getclr (type : Z) (st : mstate) : option mbuf * mstate :=
  match MGET type st with
  | (Some m, st) => (Some (set_dat m (replicate (Z.to_nat MLEN) 0)), st)
  | (None, st) => (None, st)
  end.

(** ** Clusters *)

(** The [for] loop that puts [n] clusters on the free list. *)
Fixpoint cl_push (n : nat) (p : Z) (free : list Z) : list Z :=
  match n with
  | O => free
  | S n => cl_push n (p + 1) (p :: free)
  end.

Definition mbcfg : Rmap.mapcfg := Rmap.Cfg false false 1 1 CLSIZE.

Definition m_clalloc (ncl : Z) (st : mstate) : outcome (Z * mstate) :=
  let p := pool st in
  let npg := ncl * CLSIZE in
  '(mp, mbx) ← Rmap.rmalloc mbcfg (mbmap p) npg;
  if mbx =? 0 then
    Ret (0, with_pool (Pool (clusters p) (mclrefcnt p) (mclfree p) mp (memalls p)
                         (if logged p =? 0 then logged p + 1 else logged p)) st)
  else
    let cl := Z.quot (mbx * NBPG) MCLBYTES in
    let '(ok, mems) := match memalls p with [] => (true, []) | b :: r => (b, r) end in
    if negb ok then
      mp ← Rmap.rmfree mbcfg mp npg mbx;
      Ret (0, with_pool (Pool (clusters p) (mclrefcnt p) (mclfree p) mp mems (logged p)) st)
    else
      let n := Z.quot (ncl * CLBYTES) MCLBYTES in
      let s := stat st in
      Ret (1, with_stat (Stat (m_mtypes s) (m_drain s) (m_clfree s + n) (m_clusters s + n))
                (with_pool (Pool (clusters p) (mclrefcnt p) (cl_push (Z.to_nat n) cl (mclfree p))
                              mp mems (logged p)) st)).

(** Four clusters to begin with ([NCL_INIT]). *)
Definition mbinit (st : mstate) : outcome mstate :=
  '(ok, st) ← m_clalloc (Z.quot 4096 CLBYTES) st;
  if ok =? 0 then Panic "mbinit" else Ret st.

Definition refcnt (st : mstate) (c : Z) : Z := default 0 (mclrefcnt (pool st) !! c).
Definition set_refcnt (st : mstate) (c n : Z) : mstate :=
  let p := pool st in
  with_pool (Pool (clusters p) (<[c := s8 n]> (mclrefcnt p)) (mclfree p) (mbmap p) (memalls p)
               (logged p)) st.

Definition MCLALLOC (st : mstate) : outcome (option Z * mstate) :=
  st ← match mclfree (pool st) with
       | [] => '(_, st) ← m_clalloc 1 st; Ret st
       | _ => Ret st
       end;
  match mclfree (pool st) with
  | [] => Ret (None, st)
  | c :: r =>
      let st := set_refcnt st c (refcnt st c + 1) in
      let p := pool st in
      let s := stat st in
      Ret (Some c,
           with_stat (Stat (m_mtypes s) (m_drain s) (m_clfree s - 1) (m_clusters s))
             (with_pool (Pool (<[c := bytes_of (junk st) (Z.to_nat MCLBYTES)]> (clusters p))
                           (mclrefcnt p) r (mbmap p) (memalls p) (logged p)) st))
  end.

Definition MCLGET (m : mbuf) (st : mstate) : outcome (mbuf * mstate) :=
  '(c, st) ← MCLALLOC st;
  match c with
  | Some c => Ret (set_data (set_ext m c MCLBYTES) 0 (m_len m), st)
  | None => Ret (m, st)
  end.

(** A cluster on the free list loses its contents (its first word becomes the
    free-list link): a later access finds nothing. *)
Definition MCLFREE (c : Z) (st : mstate) : mstate :=
  let st := set_refcnt st c (refcnt st c - 1) in
  if refcnt st c =? 0 then
    let p := pool st in
    let s := stat st in
    with_stat (Stat (m_mtypes s) (m_drain s) (m_clfree s + 1) (m_clusters s))
      (with_pool (Pool (delete c (clusters p)) (mclrefcnt p) (c :: mclfree p) (mbmap p)
                    (memalls p) (logged p)) st)
  else st.

(** ** m_free, m_freem *)
Definition MFREE (m : mbuf) (st : mstate) : mstate :=
  let st := count_type (m_type m) (-1) st in
  if is_ext m then MCLFREE (m_ext m) st else st.

Definition m_free (m : mbuf) (rest : chain) (st : mstate) : chain * mstate := (rest, MFREE m st).

Fixpoint m_freem (m : chain) (st : mstate) : mstate :=
  match m with
  | [] => st
  | m0 :: r => m_freem r (MFREE m0 st)
  end.

(** ** Header macros *)
Definition M_COPY_PKTHDR (to from : mbuf) : mbuf :=
  Mb (MLEN - MHLEN) (m_len to) (m_type to) (Z.land (m_flags from) M_COPYFLAGS)
     (pkt_len from) (rcvif from) (m_dat to) (m_ext to) (ext_size to).

Definition M_ALIGN (m : mbuf) (len : Z) : mbuf :=
  set_data m (m_off m + Z.land (MLEN - len) (Z.lnot 3)) (m_len m).
Definition MH_ALIGN (m : mbuf) (len : Z) : mbuf :=
  set_data m (m_off m + Z.land (MHLEN - len) (Z.lnot 3)) (m_len m).

Definition M_LEADINGSPACE (m : mbuf) : Z :=
  if is_ext m then 0 else if is_pkt m then m_off m - (MLEN - MHLEN) else m_off m.
Definition M_TRAILINGSPACE (m : mbuf) : Z :=
  if is_ext m then ext_size m - (m_off m + m_len m) else MLEN - (m_off m + m_len m).

Definition MCHTYPE (m : mbuf) (t : Z) (st : mstate) : mbuf * mstate :=
  (set_type m t, count_type t 1 (count_type (m_type m) (-1) st)).

(** ** m_prepend *)
Definition m_prepend (m : chain) (len : Z) (st : mstate) : outcome (chain * mstate) :=
  match m with
  | [] => Fault
  | m0 :: r =>
      match MGET (m_type m0) st with
      | (None, st) => Ret ([], m_freem m st)
      | (Some mn, st) =>
          let '(mn, m0) :=
            if is_pkt m0
            then (M_COPY_PKTHDR mn m0, set_flags m0 (Z.land (m_flags m0) (Z.lnot M_PKTHDR)))
            else (mn, m0) in
          let mn := if len <? MHLEN then MH_ALIGN mn len else mn in
          Ret (set_len mn len :: m0 :: r, st)
      end
  end.

Definition M_PREPEND (m : chain) (plen : Z) (st : mstate) : outcome (chain * mstate) :=
  match m with
  | [] => Fault
  | m0 :: r =>
      '(m, st) ←
        (if M_LEADINGSPACE m0 >=? plen
         then Ret (set_data m0 (m_off m0 - plen) (m_len m0 + plen) :: r, st)
         else m_prepend m plen st);
      match m with
      | [] => Ret ([], st)
      | m0 :: r => Ret ((if is_pkt m0 then set_pkt_len m0 (pkt_len m0 + plen) else m0) :: r, st)
      end
  end.

(** ** m_copym, m_copydata *)

(** [while (off > 0)]: find the mbuf that holds byte [off]. *)
Fixpoint copy_seek (msg : string) (off : Z) (m : chain) : outcome (Z * chain) :=
  if off >? 0 then
    match m with
    | [] => Panic msg
    | m0 :: r => if off <? m_len m0 then Ret (off, m) else copy_seek msg (off - m_len m0) r
    end
  else Ret (off, m).

Definition copy_end (top : chain) (st : mstate) : outcome (chain * mstate) :=
  match top with
  | [] => Ret ([], mcfail st)
  | _ => Ret (top, st)
  end.

(** One mbuf of the copy: [n] is new, [m] the mbuf copied from. *)
Definition copy_one (off len : Z) (copyhdr : bool) (off0 : Z) (m n : mbuf) (st : mstate)
  : outcome (mbuf * mstate) :=
  let n :=
    if copyhdr then
      let n := M_COPY_PKTHDR n m in
      set_pkt_len n (if len =? M_COPYALL then pkt_len n - off0 else len)
    else n in
  let n := set_len n (Z.min len (m_len m - off)) in
  if is_ext m then
    Ret (set_ext (set_data n (m_off m + off) (m_len n)) (m_ext m) (ext_size m),
         set_refcnt st (m_ext m) (refcnt st (m_ext m) + 1))
  else
    bs ← mread st m off (m_len n);
    d ← bwrite (m_dat n) (m_off n) bs;
    Ret (set_dat n d, st).

Fixpoint copy_loop (m : chain) (off len : Z) (copyhdr : bool) (off0 : Z) (top : chain)
    (st : mstate) : outcome (chain * mstate) :=
  if len >? 0 then
    match m with
    | [] => if len =? M_COPYALL then copy_end top st else Panic "m_copym"
    | m0 :: r =>
        match MGET (m_type m0) st with
        | (None, st) => Ret ([], mcfail (m_freem top st))
        | (Some n, st) =>
            '(n, st) ← copy_one off len copyhdr off0 m0 n st;
            copy_loop r 0 (if len =? M_COPYALL then len else len - m_len n) false off0
              (top ++ [n]) st
        end
    end
  else copy_end top st.

Definition m_copym (m : chain) (off0 len : Z) (st : mstate) : outcome (chain * mstate) :=
  if (off0 <? 0) || (len <? 0) then Panic "m_copym"
  else
    copyhdr ← (if off0 =? 0
               then match m with [] => Fault | m0 :: _ => Ret (is_pkt m0) end
               else Ret false);
    '(off, m) ← copy_seek "m_copym" off0 m;
    copy_loop m off len copyhdr off0 [] st.

Fixpoint copydata_loop (st : mstate) (m : chain) (off len : Z) : outcome (list Z) :=
  if len >? 0 then
    match m with
    | [] => Panic "m_copydata"
    | m0 :: r =>
        let count := Z.min (m_len m0 - off) len in
        bs ← mread st m0 off count;
        more ← copydata_loop st r 0 (len - count);
        Ret (bs ++ more)
    end
  else Ret [].

(** The bytes stored from [cp] on. *)
Definition m_copydata (st : mstate) (m : chain) (off len : Z) : outcome (list Z) :=
  if (off <? 0) || (len <? 0) then Panic "m_copydata"
  else '(off, m) ← copy_seek "m_copydata" off m; copydata_loop st m off len.

(** ** m_cat *)
Fixpoint cat_loop (m : mbuf) (n : chain) (st : mstate) : outcome (chain * mstate) :=
  match n with
  | [] => Ret ([m], st)
  | n0 :: r =>
      if is_ext m || (m_off m + m_len m + m_len n0 >=? MLEN) then Ret (m :: n, st)
      else
        bs ← mread st n0 0 (m_len n0);
        m ← mappend m bs;
        cat_loop (set_len m (m_len m + m_len n0)) r (MFREE n0 st)
  end.

Fixpoint m_cat (m n : chain) (st : mstate) : outcome (chain * mstate) :=
  match m with
  | [] => Fault
  | [m0] => cat_loop m0 n st
  | m0 :: r => '(r', st) ← m_cat r n st; Ret (m0 :: r', st)
  end.

(** ** m_adj *)
Fixpoint adj_head (m : chain) (len : Z) : chain * Z :=
  match m with
  | [] => ([], len)
  | m0 :: r =>
      if len >? 0 then
        if m_len m0 <=? len
        then let '(r', len') := adj_head r (len - m_len m0) in (set_len m0 0 :: r', len')
        else (set_data m0 (m_off m0 + len) (m_len m0 - len) :: r, 0)
      else (m, len)
  end.

Definition chain_len (m : chain) : Z := foldr (fun b n => m_len b + n) 0 m.

(** The [for] and [while] loops that find the last mbuf with data and empty
    the ones after it ([m] is null after a [for] that does not break). *)
Fixpoint adj_tail (m : chain) (count : Z) : outcome chain :=
  match m with
  | [] => Fault
  | m0 :: r =>
      if m_len m0 >=? count
      then Ret (set_len m0 count :: ((fun b => set_len b 0) <$> r))
      else r' ← adj_tail r (count - m_len m0); Ret (m0 :: r')
  end.

(** The early exit: trim only the last mbuf. *)
Fixpoint adj_last (m : chain) (len : Z) : chain :=
  match m with
  | [] => []
  | [m0] =>
      let m1 := set_len m0 (m_len m0 - len) in
      [if is_pkt m1 then set_pkt_len m1 (pkt_len m1 - len) else m1]
  | m0 :: r => m0 :: adj_last r len
  end.

Definition m_adj (mp : chain) (req_len : Z) : outcome chain :=
  match mp with
  | [] => Ret []
  | h :: t =>
      if req_len >=? 0 then
        let '(m, len) := adj_head mp req_len in
        match m with
        | [] => Fault
        | m0 :: r =>
            Ret ((if is_pkt m0 then set_pkt_len m0 (pkt_len m0 - (req_len - len)) else m0) :: r)
        end
      else
        let len := - req_len in
        let count := chain_len mp in
        match last mp with
        | None => Fault
        | Some l =>
            if m_len l >=? len then Ret (adj_last mp len)
            else
              let count := count - len in
              let count := if count <? 0 then 0 else count in
              adj_tail ((if is_pkt h then set_pkt_len h count else h) :: t) count
        end
  end.

(** ** m_pullup *)
Definition umin (a b : Z) : Z := Z.min (u32 a) (u32 b).
Definition umax (a b : Z) : Z := Z.max (u32 a) (u32 b).

Definition pull_bad (n : chain) (st : mstate) : outcome (chain * mstate) :=
  Ret ([], mpfail (m_freem n st)).

(** The [do ... while (len > 0 && n)] loop and what follows it. *)
Fixpoint pull_loop (fuel : nat) (max_protohdr : Z) (m : mbuf) (n : chain) (len space : Z)
    (st : mstate) : outcome (chain * mstate) :=
  match fuel with
  | O => Fault
  | S fuel =>
      match n with
      | [] => Fault
      | n0 :: r =>
          let count := s32 (umin (umin (umax len max_protohdr) space) (m_len n0)) in
          bs ← mread st n0 0 count;
          m ← mappend m bs;
          let len := len - count in
          let m := set_len m (m_len m + count) in
          let space := space - count in
          let '(n, st) :=
            if negb (m_len n0 - count =? 0)
            then (set_data n0 (m_off n0 + count) (m_len n0 - count) :: r, st)
            else m_free n0 r st in
          if (len >? 0) && negb (bool_decide (n = [])) then
            pull_loop fuel max_protohdr m n len space st
          else if len >? 0 then pull_bad n (MFREE m st)
          else Ret (m :: n, st)
      end
  end.

Definition m_pullup (max_protohdr : Z) (n : chain) (len : Z) (st : mstate)
  : outcome (chain * mstate) :=
  match n with
  | [] => Fault
  | n0 :: r =>
      if negb (is_ext n0) && (m_off n0 + len <? MLEN) && negb (bool_decide (r = [])) then
        if m_len n0 >=? len then Ret (n, st)
        else
          pull_loop (S (length r)) max_protohdr n0 r (len - m_len n0)
            (MLEN - (m_off n0 + m_len n0)) st
      else if len >? MHLEN then pull_bad n st
      else
        match MGET (m_type n0) st with
        | (None, st) => pull_bad n st
        | (Some m, st) =>
            let m := set_len m 0 in
            let '(m, n0) :=
              if is_pkt n0
              then (M_COPY_PKTHDR m n0, set_flags n0 (Z.land (m_flags n0) (Z.lnot M_PKTHDR)))
              else (m, n0) in
            pull_loop (S (S (length r))) max_protohdr m (n0 :: r) len
              (MLEN - (m_off m + m_len m)) st
        end
  end.

(** ** Abstract view: the bytes of a chain *)

Definition data (st : mstate) (m : mbuf) : list Z := slice (m_off m) (m_len m) (area st m).
Definition cdata (st : mstate) (c : chain) : list Z := concat (data st <$> c).

Definition wf (st : mstate) (m : mbuf) : Prop :=
  0 <= m_off m /\ 0 <= m_len m /\ m_off m + m_len m <= Z.of_nat (length (area st m)) /\
  (is_ext m = false -> Z.of_nat (length (m_dat m)) = MLEN) /\
  (is_ext m = false -> is_pkt m = true -> MLEN - MHLEN <= m_off m).

(** How many mbufs of the chain refer to cluster [c]. *)
Fixpoint refs (c : Z) (m : chain) : Z :=
  match m with
  | [] => 0
  | m0 :: r => (if is_ext m0 && (m_ext m0 =? c) then 1 else 0) + refs c r
  end.

(** The pool accounts for the references of the chain. *)
Definition owned (st : mstate) (m : chain) : Prop :=
  forall c, refs c m <= refcnt st c <= 127.

Lemma refs_nonneg c m : 0 <= refs c m.
Proof. induction m as [|m0 r IH]; cbn; [lia|]. destruct (_ && _); lia. Qed.

Lemma refs_app c m n : refs c (m ++ n) = refs c m + refs c n.
Proof. induction m as [|m0 r IH]; cbn; lia. Qed.

Lemma cdata_cons st m0 r : cdata st (m0 :: r) = data st m0 ++ cdata st r.
Proof. done. Qed.

Lemma cdata_app st m n : cdata st (m ++ n) = cdata st m ++ cdata st n.
Proof. unfold cdata. by rewrite fmap_app, concat_app. Qed.

Lemma slice_length off n l : 0 <= off -> 0 <= n -> off + n <= Z.of_nat (length l) ->
  Z.of_nat (length (slice off n l)) = n.
Proof. intros. unfold slice. rewrite length_take, length_drop. lia. Qed.

Lemma slice_slice a n b k l : 0 <= a -> 0 <= b -> 0 <= k -> b + k <= n ->
  slice b k (slice a n l) = slice (a + b) k l.
Proof.
  intros. unfold slice. rewrite skipn_firstn_comm, take_take, drop_drop. f_equal; [lia|f_equal; lia].
Qed.

Lemma slice_split off n k l : 0 <= off -> 0 <= k <= n ->
  slice off n l = slice off k l ++ slice (off + k) (n - k) l.
Proof.
  intros. unfold slice. replace (Z.to_nat n) with (Z.to_nat k + Z.to_nat (n - k))%nat by lia.
  replace (Z.to_nat (off + k)) with (Z.to_nat off + Z.to_nat k)%nat by lia.
  rewrite <- drop_drop. by rewrite take_take_drop.
Qed.

Lemma slice_nil off l : slice off 0 l = [].
Proof. done. Qed.

Lemma data_length st m : wf st m -> Z.of_nat (length (data st m)) = m_len m.
Proof. intros (? & ? & ? & _). by apply slice_length. Qed.

Lemma cdata_length st c : Forall (wf st) c -> Z.of_nat (length (cdata st c)) = chain_len c.
Proof.
  induction 1 as [|m r Hm Hr IH]; [done|]. rewrite cdata_cons, length_app.
  unfold chain_len in *; cbn. pose proof (data_length st m Hm). lia.
Qed.

Lemma chain_len_nonneg st c : Forall (wf st) c -> 0 <= chain_len c.
Proof. intros H. rewrite <- (cdata_length st c H). lia. Qed.

Lemma bread_ok l off n : 0 <= off -> 0 <= n -> off + n <= Z.of_nat (length l) ->
  bread l off n = Ret (slice off n l).
Proof.
  intros. unfold bread. destruct (Z.leb_spec 0 off); [|lia]. destruct (Z.leb_spec 0 n); [|lia].
  destruct (Z.leb_spec (off + n) (Z.of_nat (length l))); [done|lia].
Qed.

Lemma mread_ok st m o n : wf st m -> 0 <= o -> 0 <= n -> o + n <= m_len m ->
  mread st m o n = Ret (slice o n (data st m)).
Proof.
  intros (H1 & H2 & H3 & _) Ho Hn Hle. unfold mread, data.
  rewrite bread_ok by lia. by rewrite slice_slice by lia.
Qed.

Lemma bwrite_ok l off bs : 0 <= off -> off + Z.of_nat (length bs) <= Z.of_nat (length l) ->
  exists d, bwrite l off bs = Ret d /\ length d = length l /\
    slice off (Z.of_nat (length bs)) d = bs /\
    forall a k, 0 <= a -> 0 <= k -> a + k <= off -> slice a k d = slice a k l.
Proof.
  intros H1 H2. unfold bwrite. destruct (Z.leb_spec 0 off); [|lia].
  destruct (Z.leb_spec (off + Z.of_nat (length bs)) (Z.of_nat (length l))); [|lia]. cbn.
  eexists. split; [done|]. splits.
  - rewrite !length_app, length_take, length_drop. lia.
  - unfold slice. rewrite Nat2Z.id. rewrite drop_app_length' by (rewrite length_take; lia).
    by rewrite take_app_length.
  - intros a k Ha Hk Hle. unfold slice.
    rewrite drop_app_le by (rewrite length_take; lia).
    rewrite take_app_le by (rewrite length_drop, length_take; lia).
    rewrite skipn_firstn_comm, take_take. f_equal. lia.
Qed.

Lemma mappend_ok st m bs : is_ext m = false -> wf st m ->
  m_off m + m_len m + Z.of_nat (length bs) <= MLEN ->
  exists m', mappend m bs = Ret m' /\
    let m'' := set_len m' (m_len m + Z.of_nat (length bs)) in
    wf st m'' /\ data st m'' = data st m ++ bs /\ m_len m' = m_len m /\ m_off m' = m_off m /\
    m_flags m' = m_flags m /\ m_type m' = m_type m /\ m_ext m' = m_ext m /\
    pkt_len m' = pkt_len m.
Proof.
  intros He (H1 & H2 & H3 & H4 & H5) Hb. specialize (H4 He). specialize (H5 He).
  destruct (bwrite_ok (m_dat m) (m_off m + m_len m) bs) as (d & E & Hl & Hs & Hold); [lia|lia|].
  unfold mappend. rewrite E. bind. eexists. split; [done|]. cbn zeta.
  unfold wf, data, area in *. unfold is_ext, is_pkt in *.
  cbn [set_len set_dat m_off m_len m_dat m_flags m_type m_ext pkt_len] in *. rewrite He in *.
  splits; auto; try lia.
  rewrite (slice_split _ _ (m_len m)) by lia. f_equal; [by apply Hold|].
  replace (m_len m + Z.of_nat (length bs) - m_len m) with (Z.of_nat (length bs)) by lia.
  exact Hs.
Qed.

(** *** States that agree on the clusters of a chain *)

Definition same (st st' : mstate) (c : chain) : Prop :=
  forall m, In m c -> is_ext m = true ->
    clusters (pool st') !! m_ext m = clusters (pool st) !! m_ext m.

Lemma area_same st st' m : (is_ext m = true ->
    clusters (pool st') !! m_ext m = clusters (pool st) !! m_ext m) ->
  area st' m = area st m.
Proof. intros H. unfold area. destruct (is_ext m); [by rewrite H|done]. Qed.

Lemma data_same st st' m : (is_ext m = true ->
    clusters (pool st') !! m_ext m = clusters (pool st) !! m_ext m) ->
  data st' m = data st m.
Proof. intros H. unfold data. by rewrite (area_same st st'). Qed.

Lemma wf_same st st' m : (is_ext m = true ->
    clusters (pool st') !! m_ext m = clusters (pool st) !! m_ext m) ->
  wf st m -> wf st' m.
Proof. intros H. unfold wf. by rewrite (area_same st st'). Qed.

Lemma cdata_same st st' c : same st st' c -> cdata st' c = cdata st c.
Proof.
  unfold same. induction c as [|m r IH]; intros H; [done|]. rewrite !cdata_cons. f_equal.
  - apply data_same. apply H. by left.
  - apply IH. intros m' Hm'. apply H. by right.
Qed.

Lemma wfs_same st st' c : same st st' c -> Forall (wf st) c -> Forall (wf st') c.
Proof.
  unfold same. induction c as [|m r IH]; intros H Hf; [constructor|]. inversion Hf; subst.
  constructor.
  - apply (wf_same st); [|done]. apply H. by left.
  - apply IH; [|done]. intros m' Hm'. apply H. by right.
Qed.

Lemma same_pool st st' c : clusters (pool st') = clusters (pool st) -> same st st' c.
Proof. intros E m _ _. by rewrite E. Qed.

Lemma same_trans st1 st2 st3 c : same st1 st2 c -> same st2 st3 c -> same st1 st3 c.
Proof. intros H1 H2 m Hm He. by rewrite H2, H1. Qed.

Lemma mread_same st st' m o n : clusters (pool st') = clusters (pool st) ->
  mread st' m o n = mread st m o n.
Proof. intros E. unfold mread. by rewrite (area_same st st') by (by rewrite E). Qed.

(** *** Allocation *)

Definition fresh (m : mbuf) (t : Z) : Prop :=
  m_off m = 0 /\ m_type m = t /\ m_flags m = 0 /\ Z.of_nat (length (m_dat m)) = MLEN.

Lemma bytes_of_length f n : length (bytes_of f n) = n.
Proof. unfold bytes_of. by rewrite length_fmap, length_seq. Qed.

Lemma mget_ok t st o st' : MGET t st = (o, st') ->
  pool st' = pool st /\ match o with Some m => fresh m t | None => True end /\
  (mallocs st = [] -> mallocs st' = [] /\ o <> None).
Proof.
  unfold MGET, m_retry, mget_once, MALLOC. intros H.
  assert (Hf : forall st, fresh (new_mbuf st false t) t).
  { intros s. unfold fresh, new_mbuf; cbn [m_off m_type m_flags m_dat].
    by rewrite bytes_of_length. }
  destruct (mallocs st) as [|[|] r] eqn:E1; cbn in H.
  - injection H as <- <-. splits; auto.
  - injection H as <- <-. splits; auto; by intros ?.
  - destruct r as [|[|] r]; cbn in H; injection H as <- <-; by splits.
Qed.
Lemma mget_mallocs t ms o ms' : MGET t ms = (o, ms') -> mallocs ms = [] -> mallocs ms' = [].
Proof. intros E H. destruct (mget_ok _ _ _ _ E) as (_ & _ & Hm). by apply Hm. Qed.

Lemma fresh_wf st m t n : fresh m t -> 0 <= n <= MLEN -> wf st (set_len m n).
Proof.
  intros (H1 & H2 & H3 & H4) Hn. unfold wf, area, is_ext, is_pkt in *. cbn. rewrite H3, H1. cbn.
  change (has 0 M_EXT) with false. change (has 0 M_PKTHDR) with false. cbn [andb]. splits; auto; first [lia | done].
Qed.

(** *** Reference counts *)

Lemma refcnt_set st c n x : -128 <= n <= 127 ->
  refcnt (set_refcnt st c n) x = if decide (c = x) then n else refcnt st x.
Proof.
  intros H. unfold refcnt, set_refcnt. cbn [with_pool pool mclrefcnt].
  assert (Hs : s8 n = n) by (unfold s8; rewrite Z.mod_small; lia). rewrite Hs.
  destruct (decide (c = x)) as [->|Hne]; [by rewrite lookup_insert_eq|].
  by rewrite lookup_insert_ne.
Qed.

Lemma clusters_set st c n : clusters (pool (set_refcnt st c n)) = clusters (pool st).
Proof. done. Qed.

Lemma MCLFREE_ok c st : 0 < refcnt st c <= 127 ->
  (forall x, refcnt (MCLFREE c st) x = refcnt st x - if decide (c = x) then 1 else 0) /\
  (forall x, x <> c \/ 1 < refcnt st c ->
     clusters (pool (MCLFREE c st)) !! x = clusters (pool st) !! x).
Proof.
  intros H. unfold MCLFREE. set (st1 := set_refcnt st c (refcnt st c - 1)).
  assert (H1 : forall x, refcnt st1 x = refcnt st x - if decide (c = x) then 1 else 0).
  { intros x. unfold st1. rewrite refcnt_set by lia. destruct (decide (c = x)) as [->|]; lia. }
  pose proof (H1 c) as Hc. rewrite decide_True in Hc by done.
  destruct (Z.eqb_spec (refcnt st1 c) 0).
  - split; [exact H1|]. intros x Hx. cbn. destruct (decide (x = c)) as [->|Hne].
    + lia.
    + by rewrite lookup_delete_ne.
  - split; [exact H1|]. intros x _. done.
Qed.

Lemma MFREE_ok m st r : owned st (m :: r) ->
  (forall c, refcnt (MFREE m st) c = refcnt st c - refs c [m]) /\ owned (MFREE m st) r /\
  (forall c, 0 < refs c r \/ 0 = refs c [m] ->
     clusters (pool (MFREE m st)) !! c = clusters (pool st) !! c).
Proof.
  intros Ho. unfold MFREE. set (st0 := count_type _ _ _).
  assert (Hr : forall c, refcnt st0 c = refcnt st c) by done.
  destruct (is_ext m) eqn:He.
  - pose proof (Ho (m_ext m)) as Hm. cbn in Hm. rewrite He, Z.eqb_refl in Hm. cbn in Hm.
    pose proof (refs_nonneg (m_ext m) r) as Hrn.
    destruct (MCLFREE_ok (m_ext m) st0) as [H1 H2]; [rewrite Hr; lia|].
    assert (H3 : forall c, refcnt (MCLFREE (m_ext m) st0) c = refcnt st c - refs c [m]).
    { intros c. rewrite H1, Hr. cbn. rewrite He. cbn.
      destruct (decide (m_ext m = c)) as [->|Hne]; [by rewrite Z.eqb_refl|].
      rewrite (proj2 (Z.eqb_neq _ _) Hne). lia. }
    splits; [exact H3| |].
    + intros c. rewrite H3. specialize (Ho c). cbn [refs] in *. destruct (_ && _); lia.
    + intros c Hc. rewrite H2; [done|]. rewrite Hr. destruct (decide (c = m_ext m)) as [->|]; [|by left].
      right. cbn in Hc. rewrite He, Z.eqb_refl in Hc. cbn in Hc. lia.
  - assert (H0 : forall c, refs c [m] = 0) by (intros c; cbn; by rewrite He).
    splits.
    + intros c. rewrite Hr, H0. lia.
    + intros c. rewrite Hr. specialize (Ho c). cbn in *. rewrite He in Ho. cbn in Ho. lia.
    + done.
Qed.

Lemma refs_in c m : In m c -> is_ext m = true -> 0 < refs (m_ext m) c.
Proof.
  induction c as [|m0 r IH]; [done|]. intros [->|Hin] He; cbn.
  - rewrite He, Z.eqb_refl. cbn. pose proof (refs_nonneg (m_ext m) r). lia.
  - specialize (IH Hin He). destruct (_ && _); lia.
Qed.

Lemma MFREE_same m st r : owned st (m :: r) -> same st (MFREE m st) r.
Proof.
  intros Ho m' Hin He. destruct (MFREE_ok m st r Ho) as (_ & _ & H). apply H. left.
  by apply refs_in.
Qed.

Lemma m_freem_ok : forall m st rest, owned st (m ++ rest) ->
  (forall c, refcnt (m_freem m st) c = refcnt st c - refs c m) /\
  owned (m_freem m st) rest /\ same st (m_freem m st) rest.
Proof.
  induction m as [|m0 r IH]; intros st rest Ho.
  - cbn. splits; [intros; lia|done|done].
  - cbn [m_freem]. destruct (MFREE_ok m0 st (r ++ rest) Ho) as (H1 & H2 & H3).
    destruct (IH (MFREE m0 st) rest H2) as (H4 & H5 & H6). splits; auto.
    + intros c. rewrite H4, H1. cbn. lia.
    + eapply same_trans; [|exact H6]. intros m' Hin He. apply (MFREE_same m0 st (r ++ rest) Ho);
        [|done]. apply in_or_app. by right.
Qed.

(** *** m_copydata, m_copym *)

Lemma slice_app off n a b : 0 <= off <= Z.of_nat (length a) -> 0 <= n ->
  let k := Z.min n (Z.of_nat (length a) - off) in
  slice off n (a ++ b) = slice off k a ++ slice 0 (n - k) b.
Proof.
  intros H1 H2. cbn zeta. unfold slice. rewrite drop_app_le by lia.
  rewrite take_app, length_drop. f_equal.
  - destruct (Z.le_gt_cases n (Z.of_nat (length a) - off)); [f_equal; lia|].
    rewrite !take_ge; rewrite ?length_drop; try done; lia.
  - cbn. f_equal. lia.
Qed.

Lemma slice_app_r off n a b : Z.of_nat (length a) <= off ->
  slice off n (a ++ b) = slice (off - Z.of_nat (length a)) n b.
Proof.
  intros H. unfold slice. rewrite drop_app_ge by lia. f_equal. f_equal. lia.
Qed.

Definition at_off (off : Z) (m : chain) : Prop :=
  0 <= off /\ match m with [] => off = 0 | m0 :: _ => off = 0 \/ off < m_len m0 end.

Lemma copy_seek_ok msg st : forall m off, Forall (wf st) m -> 0 <= off ->
  (chain_len m < off -> copy_seek msg off m = Panic msg) /\
  (off <= chain_len m -> exists pre off' m', copy_seek msg off m = Ret (off', m') /\
     m = pre ++ m' /\ off = chain_len pre + off' /\ at_off off' m').
Proof.
  unfold at_off. induction m as [|m0 r IH]; intros off Hwf Hoff.
  - cbn. rewrite Z.gtb_ltb. destruct (Z.ltb_spec 0 off); split; intros; try done; try lia.
    exists [], off, []. cbn. splits; auto; lia.
  - apply Forall_cons in Hwf as [H0 Hr]. change (chain_len (m0 :: r)) with (m_len m0 + chain_len r).
    pose proof (chain_len_nonneg st r Hr) as Hnn. assert (0 <= m_len m0) by (unfold wf in *; tauto).
    cbn [copy_seek]. rewrite Z.gtb_ltb. destruct (Z.ltb_spec 0 off).
    + destruct (Z.ltb_spec off (m_len m0)).
      * split; intros; [lia|]. exists [], off, (m0 :: r). cbn. splits; auto; lia.
      * destruct (IH (off - m_len m0) Hr ltac:(lia)) as [IH1 IH2]. split; intros.
        -- apply IH1. lia.
        -- destruct IH2 as (pre & off' & m' & E & -> & Hlen & Ha); [lia|].
           exists (m0 :: pre), off', m'. splits; auto; try tauto.
           change (chain_len (m0 :: pre)) with (m_len m0 + chain_len pre). lia.
    + split; intros; [lia|]. exists [], off, (m0 :: r). cbn. splits; auto; lia.
Qed.

Lemma seek_slice st pre m off n : Forall (wf st) pre -> 0 <= off ->
  slice (chain_len pre + off) n (cdata st (pre ++ m)) = slice off n (cdata st m).
Proof.
  intros Hwf Hoff. rewrite cdata_app, slice_app_r; rewrite (cdata_length st pre Hwf); [|lia].
  f_equal. lia.
Qed.

Lemma copydata_loop_ok st : forall m off len, Forall (wf st) m -> at_off off m -> 0 <= len ->
  copydata_loop st m off len =
    if off + len <=? chain_len m then Ret (slice off len (cdata st m)) else Panic "m_copydata".
Proof.
  induction m as [|m0 r IH]; intros off len Hwf [Hoff Hat] Hlen.
  - subst off. cbn. rewrite Z.gtb_ltb.
    destruct (Z.ltb_spec 0 len), (Z.leb_spec (0 + len) 0); try done; try lia.
    assert (len = 0) as -> by lia. done.
  - cbn in Hat. apply Forall_cons in Hwf as [H0 Hr].
    change (chain_len (m0 :: r)) with (m_len m0 + chain_len r).
    pose proof (chain_len_nonneg st r Hr) as Hnn. assert (0 <= m_len m0) by (unfold wf in *; tauto).
    cbn [copydata_loop]. rewrite Z.gtb_ltb. destruct (Z.ltb_spec 0 len).
    + assert (0 <= m_len m0 - off) by lia.
      rewrite (mread_ok st m0 off) by (auto; lia). bind.
      rewrite (IH 0 (len - Z.min (m_len m0 - off) len)); [|done| |lia].
      2:{ split; [lia|]. destruct r; auto. }
      rewrite cdata_cons, slice_app; rewrite ?(data_length st m0 H0); [|lia|lia].
      destruct (Z.leb_spec (off + len) (m_len m0 + chain_len r)),
        (Z.leb_spec (0 + (len - Z.min (m_len m0 - off) len)) (chain_len r)); bind; try lia; [|done].
      by rewrite (Z.min_comm len).
    + assert (len = 0) as -> by lia. destruct (Z.leb_spec (off + 0) (m_len m0 + chain_len r)); [done|lia].
Qed.

Lemma is_ext_set m f : is_ext (set_flags m f) = has f M_EXT.
Proof. done. Qed.

Lemma copyhdr_flags f : has (Z.land f M_COPYFLAGS) M_EXT = false /\
  has (Z.land f M_COPYFLAGS) M_PKTHDR = has f M_PKTHDR.
Proof. rewrite !has_land. split; [apply has_0|done]. Qed.

Lemma is_ext_set_ext m c s : is_ext (set_ext m c s) = true.
Proof. unfold is_ext. cbn. rewrite has_lor. by rewrite orb_true_r. Qed.

(** The header step of the copy keeps [n] an empty internal mbuf. *)
Definition blank (n : mbuf) (room : Z) : Prop :=
  is_ext n = false /\ Z.of_nat (length (m_dat n)) = MLEN /\ 0 <= m_off n /\
  room <= MLEN - m_off n /\ (is_pkt n = true -> MLEN - MHLEN <= m_off n).

Lemma blank_write st n room bs : blank n room -> Z.of_nat (length bs) <= room ->
  exists d, bwrite (m_dat n) (m_off n) bs = Ret d /\
    let n' := set_dat (set_len n (Z.of_nat (length bs))) d in
    wf st n' /\ data st n' = bs.
Proof.
  intros (He & Hl & Ho & Hr & Hp) Hb.
  destruct (bwrite_ok (m_dat n) (m_off n) bs) as (d & E & Hd & Hs & _); [lia|lia|].
  exists d. split; [done|]. unfold wf, data, area, is_ext, is_pkt in *. cbn in *. rewrite He in *.
  splits; auto; lia.
Qed.

Lemma copy_one_ok off len hdr off0 m n st : wf st m -> fresh n (m_type m) ->
  0 <= off <= m_len m -> 0 < len -> (hdr = true -> is_pkt m = true) ->
  (is_ext m = true -> 0 <= refcnt st (m_ext m) < 127) ->
  exists n' st', copy_one off len hdr off0 m n st = Ret (n', st') /\
    m_len n' = Z.min len (m_len m - off) /\ wf st' n' /\
    data st' n' = slice off (m_len n') (data st m) /\
    clusters (pool st') = clusters (pool st) /\ mallocs st' = mallocs st /\
    (forall c, refs c [n'] = refs c [m]) /\
    (forall c, refcnt st' c = refcnt st c + refs c [m]).
Proof.
  intros Hwf Hf Hoff Hlen Hhdr Href. pose proof Hwf as (H1 & H2 & H3 & H4 & H5). unfold copy_one.
  set (n1 := if hdr then _ else n).
  assert (Hn1 : blank n1 (if hdr then MHLEN else MLEN)).
  { destruct Hf as (F1 & F2 & F3 & F4). unfold n1, blank. destruct hdr.
    - unfold is_ext, is_pkt. cbn [set_pkt_len m_flags M_COPY_PKTHDR m_dat m_off].
      destruct (copyhdr_flags (m_flags m)) as [-> ->]. unfold MLEN, MHLEN. splits; auto; lia.
    - unfold is_ext, is_pkt. rewrite F3, F1. splits; auto; try lia. done. }
  set (k := Z.min len (m_len m - off)). cbn [set_len m_len].
  destruct (is_ext m) eqn:He.
  - eexists _, _. split; [done|]. specialize (Href eq_refl). set (c0 := m_ext m) in *.
    assert (E' : is_ext (set_ext (set_data (set_len n1 k) (m_off m + off) k) c0 (ext_size m)) = true)
      by apply is_ext_set_ext.
    splits; auto.
    + unfold wf. rewrite E'. unfold area. rewrite E'. cbn. unfold area in H3. rewrite He in H3.
      fold c0 in H3. splits; try lia; done.
    + unfold data, area. rewrite E', He. cbn. fold c0. symmetry. apply slice_slice; lia.
    + intros c. cbn [refs]. by rewrite E', He.
    + intros c. rewrite refcnt_set by lia. cbn [refs]. rewrite He. fold c0. cbn [andb].
      destruct (decide (c0 = c)) as [<-|Hne]; [rewrite Z.eqb_refl; lia|].
      rewrite (proj2 (Z.eqb_neq _ _) Hne). lia.
  - specialize (H4 eq_refl). specialize (H5 eq_refl).
    assert (m_len m <= if hdr then MHLEN else MLEN).
    { unfold area in H3. rewrite He in H3. destruct hdr; [specialize (H5 (Hhdr eq_refl)); lia|lia]. }
    rewrite mread_ok by (auto; lia). bind. cbn [set_len m_dat m_off].
    assert (Hk : Z.of_nat (length (slice off k (data st m))) = k).
    { apply slice_length; [lia|lia|]. rewrite (data_length st m Hwf). lia. }
    destruct (blank_write st n1 _ (slice off k (data st m)) Hn1) as (d & E & Hw & Hd); [lia|].
    rewrite E. bind. rewrite Hk in *. eexists _, st. split; [done|]. splits; auto.
    + intros c. cbn [refs]. rewrite He. destruct Hn1 as (Hx & _). unfold is_ext in *. cbn.
      by rewrite Hx.
    + intros c. cbn [refs]. rewrite He. cbn. lia.
Qed.

Lemma slice_all off n l : Z.of_nat (length l) <= off + n -> 0 <= off ->
  slice off n l = drop (Z.to_nat off) l.
Proof. intros. unfold slice. apply take_ge. rewrite length_drop. lia. Qed.

Lemma at_off_0 m : at_off 0 m.
Proof. split; [done|]. destruct m; auto. Qed.

Lemma at_off_le off m0 r st : at_off off (m0 :: r) -> wf st m0 -> 0 <= off <= m_len m0.
Proof. intros [H1 H2] (_ & H3 & _). lia. Qed.

(** The length of the rest of the copy. *)
Definition len_left (len n : Z) : Z := if len =? M_COPYALL then len else len - n.

Lemma slice_left off len a b : 0 <= off <= Z.of_nat (length a) -> 0 < len ->
  Z.of_nat (length a) + Z.of_nat (length b) <= M_COPYALL ->
  slice off len (a ++ b) =
    slice off (Z.min len (Z.of_nat (length a) - off)) a ++
    slice 0 (len_left len (Z.min len (Z.of_nat (length a) - off))) b.
Proof.
  intros H1 H2 H3. rewrite slice_app by lia. f_equal. unfold len_left.
  destruct (Z.eqb_spec len M_COPYALL) as [->|]; [|done].
  rewrite !slice_all; [done|lia|lia|lia|lia].
Qed.

Definition copied (st : mstate) (orig top : chain) (r : chain) (st' : mstate) (bs : list Z) : Prop :=
  same st st' orig /\
  ((mallocs st <> [] /\ r = [] /\ (forall c, refcnt st' c = refcnt st c - refs c top)) \/
   exists add, r = top ++ add /\ Forall (wf st') add /\ cdata st' add = bs /\
     (forall c, refcnt st' c = refcnt st c + refs c add) /\
     clusters (pool st') = clusters (pool st)).

Lemma copy_end_ok orig top st : exists st', copy_end top st = Ret (top, st') /\
  copied st orig top top st' [].
Proof.
  destruct top as [|t0 top].
  - exists (mcfail st). split; [done|]. split; [by apply same_pool|]. right. exists [].
    splits; auto. intros c. cbn. change (refcnt (mcfail st) c) with (refcnt st c). lia.
  - exists st. split; [done|]. split; [by apply same_pool|]. right. exists [].
    rewrite app_nil_r. splits; auto. intros c. cbn. lia.
Qed.

Lemma copy_loop_ok orig off0 : forall m off len hdr top st,
  Forall (wf st) m -> at_off off m -> 0 <= len -> chain_len m <= M_COPYALL ->
  (hdr = true -> match m with [] => True | m0 :: _ => is_pkt m0 = true end) ->
  owned st (top ++ orig) -> (forall c, refcnt st c + refs c m <= 127) ->
  (forall c, refs c m <= refs c orig) ->
  len = M_COPYALL \/ off + len <= chain_len m ->
  exists r st', copy_loop m off len hdr off0 top st = Ret (r, st') /\
    copied st orig top r st' (slice off len (cdata st m)).
Proof.
  induction m as [|m0 r IH]; intros off len hdr top st Hwf Hat Hlen Hmax Hhdr Hown Hcap Hsub Hend.
  - cbn. replace (slice off len []) with (@nil Z) by (unfold slice; by rewrite drop_nil, take_nil).
    destruct (copy_end_ok orig top st) as (st' & E & H).
    rewrite Z.gtb_ltb. destruct (Z.ltb_spec 0 len).
    + destruct (Z.eqb_spec len M_COPYALL); [by exists top, st'|]. destruct Hend; [done|].
      destruct Hat as [_ ->]. cbn in *. lia.
    + by exists top, st'.
  - apply Forall_cons in Hwf as [H0 Hr].
    change (chain_len (m0 :: r)) with (m_len m0 + chain_len r) in *.
    pose proof (chain_len_nonneg st r Hr) as Hnn. pose proof (at_off_le _ _ _ _ Hat H0) as Hoff.
    cbn [copy_loop]. rewrite Z.gtb_ltb. destruct (Z.ltb_spec 0 len).
    2:{ assert (len = 0) as -> by lia. destruct (copy_end_ok orig top st) as (st' & E & H').
        by exists top, st'. }
    destruct (MGET (m_type m0) st) as [[n|] st1] eqn:Hg;
      destruct (mget_ok _ _ _ _ Hg) as (Hp & Hn & Hm).
    + assert (H01 : wf st1 m0) by (apply (wf_same st); [by rewrite Hp|done]).
      assert (Href1 : forall c, refcnt st1 c = refcnt st c) by (intros; unfold refcnt; by rewrite Hp).
      assert (Hc1 : is_ext m0 = true -> 0 <= refcnt st1 (m_ext m0) < 127).
      { intros He. rewrite Href1. specialize (Hcap (m_ext m0)). specialize (Hown (m_ext m0)).
        rewrite refs_app in Hown. cbn in Hcap. rewrite He, Z.eqb_refl in Hcap. cbn in Hcap.
        pose proof (refs_nonneg (m_ext m0) r). pose proof (refs_nonneg (m_ext m0) top).
        pose proof (refs_nonneg (m_ext m0) orig). lia. }
      destruct (copy_one_ok off len hdr off0 m0 n st1 H01 Hn Hoff ltac:(lia) Hhdr Hc1) as
        (n' & st2 & E & Hl & Hw & Hd & Hcl & Hml & Hrefn & Href).
      rewrite E. bind. fold (len_left len (m_len n')).
      assert (Hst2 : clusters (pool st2) = clusters (pool st)) by (by rewrite Hcl, Hp).
      assert (Href2 : forall c, refcnt st2 c = refcnt st c + refs c [m0])
        by (intros; by rewrite Href, Href1).
      assert (Hcd : cdata st2 r = cdata st r) by (apply cdata_same; by apply same_pool).
      destruct (IH 0 (len_left len (m_len n')) false (top ++ [n']) st2) as (res & st3 & E3 & Hs & Hc).
      * apply (wfs_same st); [by apply same_pool|done].
      * apply at_off_0.
      * unfold len_left. bcase; lia.
      * lia.
      * done.
      * intros c. rewrite <- app_assoc, !refs_app. specialize (Hown c). rewrite refs_app in Hown.
        rewrite Href2, Hrefn. specialize (Hcap c). cbn [refs] in *.
        pose proof (refs_nonneg c r). lia.
      * intros c. rewrite Href2. specialize (Hcap c). cbn [refs] in *. lia.
      * intros c. specialize (Hsub c). cbn [refs] in *. destruct (_ && _); lia.
      * unfold len_left. destruct (Z.eqb_spec len M_COPYALL); [by left|right]. destruct Hend; [done|lia].
      * exists res, st3. split; [exact E3|]. split.
        { eapply same_trans; [|exact Hs]. by apply same_pool. }
        destruct Hc as [(Hne & -> & Hr3)|(add & -> & Hwa & Hda & Hra & Hcla)].
        -- left. splits; auto.
           ++ intros Hnil. destruct (Hm Hnil) as [Hm1 _]. by rewrite Hml, Hm1 in Hne.
           ++ intros c. rewrite Hr3, Href2, refs_app, Hrefn. lia.
        -- right. exists (n' :: add). rewrite <- app_assoc. splits; auto.
           ++ constructor; [|done]. apply (wf_same st2); [by rewrite Hcla|done].
           ++ rewrite cdata_cons, Hda, Hcd, cdata_cons.
              rewrite slice_left; rewrite ?(data_length st m0 H0), ?(cdata_length st r Hr); try lia.
              rewrite (data_same st2 st3 n') by (by rewrite Hcla). rewrite Hd.
              rewrite (data_same st st1 m0) by (by rewrite Hp). by rewrite Hl.
           ++ intros c. rewrite Hra, Href2. cbn [refs]. specialize (Hrefn c). cbn [refs] in Hrefn. lia.
           ++ by rewrite Hcla.
    + exists [], (mcfail (m_freem top st1)). split; [done|].
      destruct (m_freem_ok top st1 orig) as (F1 & F2 & F3).
      { intros c. unfold refcnt. rewrite Hp. apply Hown. }
      split.
      * eapply same_trans; [|exact F3]. apply same_pool. by rewrite Hp.
      * left. splits; auto.
        -- intros Hnil. by destruct (Hm Hnil).
        -- intros c. change (refcnt (mcfail (m_freem top st1)) c) with (refcnt (m_freem top st1) c).
           rewrite F1. unfold refcnt. by rewrite Hp.
Qed.

Lemma copy_loop_short off0 : forall m off len hdr top st,
  Forall (wf st) m -> at_off off m -> 0 < len < M_COPYALL -> mallocs st = [] ->
  (hdr = true -> match m with [] => True | m0 :: _ => is_pkt m0 = true end) ->
  owned st m -> (forall c, refcnt st c + refs c m <= 127) -> chain_len m < off + len ->
  copy_loop m off len hdr off0 top st = Panic "m_copym".
Proof.
  induction m as [|m0 r IH]; intros off len hdr top st Hwf Hat Hlen Hml Hhdr Hown Hcap Hend.
  - cbn. rewrite Z.gtb_ltb. destruct (Z.ltb_spec 0 len); [|lia].
    destruct (Z.eqb_spec len M_COPYALL); [lia|done].
  - apply Forall_cons in Hwf as [H0 Hr].
    change (chain_len (m0 :: r)) with (m_len m0 + chain_len r) in *.
    pose proof (at_off_le _ _ _ _ Hat H0) as Hoff.
    cbn [copy_loop]. rewrite Z.gtb_ltb. destruct (Z.ltb_spec 0 len); [|lia].
    destruct (MGET (m_type m0) st) as [[n|] st1] eqn:Hg;
      destruct (mget_ok _ _ _ _ Hg) as (Hp & Hn & Hm); [|by destruct (Hm Hml)].
    assert (H01 : wf st1 m0) by (apply (wf_same st); [by rewrite Hp|done]).
    assert (Href1 : forall c, refcnt st1 c = refcnt st c) by (intros; unfold refcnt; by rewrite Hp).
    assert (Hc1 : is_ext m0 = true -> 0 <= refcnt st1 (m_ext m0) < 127).
    { intros He. rewrite Href1. specialize (Hcap (m_ext m0)). specialize (Hown (m_ext m0)).
      cbn [refs] in *. rewrite He, Z.eqb_refl in *. cbn in Hcap, Hown.
      pose proof (refs_nonneg (m_ext m0) r). lia. }
    destruct (copy_one_ok off len hdr off0 m0 n st1 H01 Hn Hoff ltac:(lia) Hhdr Hc1) as
      (n' & st2 & E & Hl & Hw & Hd & Hcl & Hml2 & Hrefn & Href).
    rewrite E. bind. destruct (Z.eqb_spec len M_COPYALL); [lia|].
    apply (IH 0 (len - m_len n')).
    + apply (wfs_same st); [apply same_pool; by rewrite Hcl, Hp|done].
    + apply at_off_0.
    + rewrite Hl. pose proof (chain_len_nonneg st r Hr). lia.
    + rewrite Hml2. by apply Hm.
    + done.
    + intros c. rewrite Href, Href1. specialize (Hown c). specialize (Hcap c). cbn [refs] in *.
      destruct (_ && _); pose proof (refs_nonneg c r); lia.
    + intros c. rewrite Href, Href1. specialize (Hcap c). cbn [refs] in *. lia.
    + rewrite Hl. lia.
Qed.

(** *** m_adj *)

Lemma data_eq st m m' : m_off m' = m_off m -> m_len m' = m_len m -> m_flags m' = m_flags m ->
  m_dat m' = m_dat m -> m_ext m' = m_ext m -> data st m' = data st m.
Proof. intros E1 E2 E3 E4 E5. unfold data, area, is_ext. by rewrite E1, E2, E3, E4, E5. Qed.

Lemma wf_eq st m m' : m_off m' = m_off m -> m_len m' = m_len m -> m_flags m' = m_flags m ->
  m_dat m' = m_dat m -> m_ext m' = m_ext m -> wf st m -> wf st m'.
Proof. intros E1 E2 E3 E4 E5. unfold wf, area, is_ext, is_pkt. by rewrite E1, E2, E3, E4, E5. Qed.

Lemma trim_ok st m o k : wf st m -> 0 <= o -> 0 <= k -> o + k <= m_len m ->
  wf st (set_data m (m_off m + o) k) /\
  data st (set_data m (m_off m + o) k) = slice o k (data st m).
Proof.
  intros (H1 & H2 & H3 & H4 & H5) Ho Hk Hle. split.
  - unfold wf, area, is_ext, is_pkt in *. cbn. splits; auto; try lia.
    intros He Hp. specialize (H5 He Hp). lia.
  - unfold data. cbn [set_data m_off m_len]. rewrite slice_slice by lia. done.
Qed.

Lemma set_len_ok st m k : wf st m -> 0 <= k <= m_len m ->
  wf st (set_len m k) /\ data st (set_len m k) = take (Z.to_nat k) (data st m).
Proof.
  intros Hw Hk. destruct (trim_ok st m 0 k Hw) as [H1 H2]; [lia|lia|lia|].
  unfold set_data in *. rewrite Z.add_0_r in *. split; [exact H1|].
  unfold set_len. rewrite H2. unfold slice. by rewrite drop_0.
Qed.

Definition hdrs (m : chain) : list (Z * Z) := (fun b => (m_flags b, pkt_len b)) <$> m.

Lemma hdrs_cons m0 r : hdrs (m0 :: r) = (m_flags m0, pkt_len m0) :: hdrs r.
Proof. done. Qed.

Lemma chain_len_cons m0 r : chain_len (m0 :: r) = m_len m0 + chain_len r.
Proof. done. Qed.

Lemma adj_head_ok st : forall m len, Forall (wf st) m -> 0 <= len ->
  let '(m', len') := adj_head m len in
  Forall (wf st) m' /\ hdrs m' = hdrs m /\ cdata st m' = drop (Z.to_nat len) (cdata st m) /\
  len' = Z.max 0 (len - chain_len m) /\ chain_len m' = Z.max 0 (chain_len m - len).
Proof.
  induction m as [|m0 r IH]; intros len Hwf Hlen.
  - cbn. rewrite drop_nil. splits; auto; lia.
  - apply Forall_cons in Hwf as [H0 Hr]. pose proof (chain_len_nonneg st r Hr) as Hnn.
    pose proof (data_length st m0 H0) as Hdl. rewrite chain_len_cons.
    assert (0 <= m_len m0) by (unfold wf in *; tauto).
    cbn [adj_head]. rewrite Z.gtb_ltb. destruct (Z.ltb_spec 0 len).
    + destruct (Z.leb_spec (m_len m0) len).
      * specialize (IH (len - m_len m0) Hr ltac:(lia)).
        destruct (adj_head r (len - m_len m0)) as [r' len'].
        destruct IH as (I1 & I2 & I3 & I4 & I5). destruct (set_len_ok st m0 0 H0) as [W1 W2]; [lia|].
        rewrite !cdata_cons, chain_len_cons, I5, W2. cbn [take Z.to_nat app m_len set_len].
        splits.
        -- by constructor.
        -- rewrite !hdrs_cons. by rewrite I2.
        -- change (take (Z.to_nat 0) (data st m0)) with (@nil Z). cbn [app].
           rewrite I3, drop_app_ge by lia. f_equal. lia.
        -- lia.
        -- lia.
      * destruct (trim_ok st m0 len (m_len m0 - len) H0) as [W1 W2]; [lia|lia|lia|].
        rewrite !cdata_cons, chain_len_cons, W2. cbn [m_len set_data]. splits; try lia; try done.
        -- by constructor.
        -- rewrite drop_app_le by lia. f_equal. apply slice_all; lia.
    + assert (len = 0) as -> by lia. rewrite chain_len_cons. splits; try lia; try done.
      by constructor.
Qed.

Lemma adj_tail_ok st : forall m count, m <> [] -> Forall (wf st) m -> 0 <= count <= chain_len m ->
  exists m', adj_tail m count = Ret m' /\ Forall (wf st) m' /\ hdrs m' = hdrs m /\
    cdata st m' = take (Z.to_nat count) (cdata st m) /\ chain_len m' = count.
Proof.
  induction m as [|m0 r IH]; intros count Hne Hwf Hc; [done|].
  apply Forall_cons in Hwf as [H0 Hr]. rewrite chain_len_cons in Hc.
  pose proof (data_length st m0 H0) as Hdl. cbn [adj_tail]. rewrite Z.geb_leb.
  destruct (Z.leb_spec count (m_len m0)).
  - eexists. split; [done|]. destruct (set_len_ok st m0 count H0) as [W1 W2]; [lia|].
    assert (Hz : Forall (wf st) ((fun b => set_len b 0) <$> r) /\
      hdrs ((fun b => set_len b 0) <$> r) = hdrs r /\ cdata st ((fun b => set_len b 0) <$> r) = [] /\
      chain_len ((fun b => set_len b 0) <$> r) = 0).
    { clear -Hr. induction Hr as [|x r Hx Hr IH]; [by splits|]. destruct IH as (I1 & I2 & I3 & I4).
      destruct (set_len_ok st x 0 Hx) as [W1 W2]; [unfold wf in *; lia|]. splits.
      - by constructor.
      - cbn [fmap list_fmap]. rewrite !hdrs_cons. unfold fmap in *. by rewrite I2.
      - cbn [fmap list_fmap]. rewrite cdata_cons. unfold fmap in *. by rewrite W2, I3.
      - cbn [fmap list_fmap]. rewrite chain_len_cons. unfold fmap in *. by rewrite I4. }
    destruct Hz as (Z1 & Z2 & Z3 & Z4). rewrite !cdata_cons, chain_len_cons, W2, Z3, Z4.
    rewrite app_nil_r. splits; [by constructor|rewrite !hdrs_cons; by rewrite Z2| |cbn; lia].
    rewrite take_app_le by lia. done.
  - destruct r as [|r0 r']; [cbn in Hc; lia|]. set (r := r0 :: r') in *.
    destruct (IH (count - m_len m0)) as (m' & E & I1 & I2 & I3 & I4); [done|done|lia|].
    rewrite E. bind. eexists. split; [done|]. rewrite !cdata_cons, chain_len_cons, I3, I4.
    splits; [by constructor|rewrite !hdrs_cons; by rewrite I2| |lia].
    rewrite take_app_ge by lia. f_equal. f_equal. lia.
Qed.

Lemma last_le st : forall m l, Forall (wf st) m -> last m = Some l -> m_len l <= chain_len m.
Proof.
  induction m as [|x r IH]; intros l Hwf Hl; [done|]. apply Forall_cons in Hwf as [Hx Hr].
  rewrite chain_len_cons. destruct r as [|y r]; [injection Hl as ->; cbn; lia|].
  specialize (IH l Hr Hl). unfold wf in Hx. lia.
Qed.

Lemma adj_last_ok st : forall m l len, last m = Some l -> Forall (wf st) m -> 0 <= len <= m_len l ->
  Forall (wf st) (adj_last m len) /\ length (adj_last m len) = length m /\
  cdata st (adj_last m len) = take (Z.to_nat (chain_len m - len)) (cdata st m) /\
  chain_len (adj_last m len) = chain_len m - len /\
  match m with
  | [m0] => is_pkt m0 = true -> exists m1, adj_last m len = [m1] /\ pkt_len m1 = pkt_len m0 - len
  | m0 :: _ => exists r, adj_last m len = m0 :: r
  | [] => True
  end.
Proof.
  induction m as [|m0 r IH]; intros l len Hl Hwf Hlen; [done|].
  apply Forall_cons in Hwf as [H0 Hr]. pose proof (data_length st m0 H0) as Hdl.
  destruct r as [|r0 r'].
  - injection Hl as ->. cbn [adj_last].
    destruct (set_len_ok st l (m_len l - len) H0) as [W1 W2]; [lia|].
    set (m1 := set_len l (m_len l - len)) in *.
    change (is_pkt m1) with (is_pkt l). change (pkt_len m1) with (pkt_len l).
    assert (Hm1 : forall m2, (m2 = m1 \/ m2 = set_pkt_len m1 (pkt_len l - len)) ->
      wf st m2 /\ data st m2 = data st m1 /\ m_len m2 = m_len l - len).
    { intros m2 [->| ->]; splits; try done. }
    destruct (Hm1 (if is_pkt l then set_pkt_len m1 (pkt_len l - len) else m1)) as (A & B & C).
    { destruct (is_pkt l); auto. }
    unfold cdata. cbn [fmap list_fmap concat]. rewrite !app_nil_r. unfold chain_len. cbn [foldr].
    rewrite B, C, W2. splits; [by constructor|done|f_equal; lia|lia|].
    intros ->. by eexists.
  - set (r := r0 :: r') in *. destruct (IH l len Hl Hr Hlen) as (I1 & I2 & I3 & I4 & _).
    change (adj_last (m0 :: r) len) with (m0 :: adj_last r len).
    rewrite !cdata_cons, !chain_len_cons, I3, I4. cbn [length]. rewrite I2.
    assert (m_len l <= chain_len r) by (by apply (last_le st)).
    splits; [by constructor|done| |lia|by eexists].
    rewrite take_app_ge by lia. f_equal. f_equal. lia.
Qed.

(** *** m_pullup, m_cat, m_prepend *)

Lemma umin_small a b : 0 <= a < 2147483648 -> 0 <= b < 2147483648 -> umin a b = Z.min a b.
Proof. intros. unfold umin. by rewrite !u32_small by lia. Qed.
Lemma umax_small a b : 0 <= a < 2147483648 -> 0 <= b < 2147483648 -> umax a b = Z.max a b.
Proof. intros. unfold umax. by rewrite !u32_small by lia. Qed.

Lemma refs_int c m r : is_ext m = false -> refs c (m :: r) = refs c r.
Proof. intros H. cbn. rewrite H. cbn. lia. Qed.

Lemma refs_flags c m m' r : is_ext m' = is_ext m -> m_ext m' = m_ext m ->
  refs c (m' :: r) = refs c (m :: r).
Proof. intros H1 H2. cbn. by rewrite H1, H2. Qed.

Lemma owned_int st m r : is_ext m = false -> (owned st (m :: r) <-> owned st r).
Proof. intros H. unfold owned. by setoid_rewrite (refs_int _ m r H). Qed.

Definition pulled (m0 m : mbuf) : Prop :=
  is_ext m = false /\ m_flags m = m_flags m0 /\ pkt_len m = pkt_len m0.

Lemma owned_refs st a b : (forall c, refs c b = refs c a) -> owned st a -> owned st b.
Proof. intros H Ho c. rewrite H. apply Ho. Qed.

Lemma refs_perm c a b : a ≡ₚ b -> refs c a = refs c b.
Proof. intros H. induction H; cbn; lia. Qed.

Lemma owned_perm st a b : a ≡ₚ b -> owned st a -> owned st b.
Proof. intros H. apply owned_refs. intros c. symmetry. by apply refs_perm. Qed.

Lemma same_app st st' a b : same st st' (a ++ b) <-> same st st' a /\ same st st' b.
Proof.
  unfold same. setoid_rewrite in_app_iff. split; [|intros [? ?] ? [?|?]; auto].
  intros H. split; intros m Hm; apply H; auto.
Qed.

Lemma pull_loop_ok mp : 0 <= mp < 2147483648 ->
  forall fuel m n len space st rest,
  is_ext m = false -> wf st m -> n <> [] -> Forall (wf st) n -> owned st (n ++ rest) ->
  chain_len n < 2147483648 -> space = MLEN - (m_off m + m_len m) -> 0 < len <= space ->
  (length n <= fuel)%nat ->
  exists r st', pull_loop fuel mp m n len space st = Ret (r, st') /\ owned st' (r ++ rest) /\ same st st' rest /\
    if chain_len n <? len
    then r = [] /\ (forall c, refcnt st' c = refcnt st c - refs c n)
    else exists m' n', r = m' :: n' /\ pulled m m' /\ m_len m + len <= m_len m' /\
      cdata st' r = cdata st (m :: n) /\ Forall (wf st') r.
Proof.
  intros Hmp. induction fuel as [|fuel IH];
    intros m n len space st rest He Hw Hne Hwf Hown Hcl Hsp Hlen Hfuel; [destruct n; [done|cbn in Hfuel; lia]|].
  destruct n as [|n0 r]; [done|]. apply Forall_cons in Hwf as [H0 Hr].
  rewrite chain_len_cons in *. pose proof (chain_len_nonneg st r Hr).
  assert (0 <= m_len n0 /\ 0 <= m_len m /\ 0 <= m_off m) as (? & ? & ?) by (unfold wf in *; tauto).
  unfold MLEN in *. cbn [pull_loop].
  assert (s32 (umin (umin (umax len mp) space) (m_len n0)) =
    Z.min (Z.min (Z.max len mp) space) (m_len n0)) as ->.
  { rewrite umax_small by lia. rewrite (umin_small (Z.max len mp) space) by lia.
    rewrite umin_small by lia. apply s32_small. lia. }
  set (count := Z.min (Z.min (Z.max len mp) space) (m_len n0)) in *.
  assert (Hc : 0 <= count <= m_len n0 /\ count <= space /\ (count = m_len n0 \/ len <= count))
    by (unfold count; lia).
  clearbody count. rewrite (mread_ok st n0 0 count H0) by lia. bind.
  set (bs := slice 0 count (data st n0)) in *.
  assert (Hbs : Z.of_nat (length bs) = count).
  { apply slice_length; [lia|lia|]. rewrite (data_length st n0 H0). lia. }
  destruct (mappend_ok st m bs He Hw) as (m1 & -> & Hw1 & Hd1 & Hl1 & Ho1 & Hf1 & _ & _ & Hp1);
    [unfold MLEN; lia|]. bind.
  rewrite Hl1. rewrite Hbs in Hw1, Hd1. set (m2 := set_len m1 (m_len m + count)) in *.
  assert (Hpm : pulled m m2) by (unfold pulled, is_ext in *; cbn; by rewrite Hf1).
  assert (Hl2 : m_len m2 = m_len m + count) by done.
  assert (Ho2 : m_off m2 = m_off m) by done.
  assert (He2 : is_ext m2 = false) by apply Hpm.
  destruct (Z.eqb_spec (m_len n0 - count) 0) as [Hz|Hnz]; cbn [negb].
  - unfold m_free. assert (count = m_len n0) as -> by lia.
    destruct (MFREE_ok n0 st (r ++ rest) Hown) as (F1 & F2 & _).
    pose proof (MFREE_same n0 st (r ++ rest) Hown) as Fs'. set (st1 := MFREE n0 st) in *.
    apply same_app in Fs' as [Fs Fr].
    assert (Hd2 : data st1 m2 = data st m ++ data st n0).
    { rewrite (data_same st st1 m2) by (rewrite He2; done). rewrite Hd1. f_equal.
      unfold bs. rewrite slice_all; [done| |lia]. rewrite (data_length st n0 H0). lia. }
    assert (Hw2 : wf st1 m2) by (apply (wf_same st); [rewrite He2; done|done]).
    assert (Hwr : Forall (wf st1) r) by (by apply (wfs_same st)).
    rewrite Z.gtb_ltb. destruct (Z.ltb_spec 0 (len - m_len n0)).
    + destruct (bool_decide_reflect (r = [])) as [->|Hrn]; cbn [andb negb].
      * cbn in *. exists [], (mpfail (MFREE m2 st1)). split; [done|].
        assert (Hm2 : pool (mpfail (MFREE m2 st1)) = pool st1) by (unfold MFREE; by rewrite He2).
        split; [intros c; cbn; unfold refcnt; rewrite Hm2; apply F2|].
        split; [intros x Hx Hex; rewrite Hm2; by apply Fr|].
        destruct (Z.ltb_spec (m_len n0 + 0) len); [|lia]. split; [done|].
        intros c. unfold refcnt at 1. rewrite Hm2. apply F1.
      * destruct (IH m2 r (len - m_len n0) (space - m_len n0) st1 rest) as (res & st' & E & Hor & Hsr & Hres); auto;
          [lia|unfold MLEN; lia|lia|cbn in Hfuel; lia|].
        exists res, st'. split; [exact E|]. split; [exact Hor|]. split; [by eapply same_trans|]. revert Hres.
        destruct (Z.ltb_spec (chain_len r) (len - m_len n0)),
          (Z.ltb_spec (m_len n0 + chain_len r) len); try lia.
        -- intros [-> Hrc]. split; [done|]. intros c. rewrite Hrc, F1. cbn [refs]. lia.
        -- intros (m' & n' & -> & (P1 & P2 & P3) & Hlm & Hcd & Hwf').
           exists m', n'. destruct Hpm as (Q1 & Q2 & Q3). splits; auto; [|lia|].
           { unfold pulled. splits; auto; congruence. }
           rewrite Hcd, !cdata_cons, Hd2, (cdata_same st st1 r Fs). by rewrite <- app_assoc.
    + cbn [andb]. exists (m2 :: r), st1. split; [done|]. split; [by apply owned_int|]. split; [done|].
      destruct (Z.ltb_spec (m_len n0 + chain_len r) len); [lia|].
      exists m2, r. splits; auto; [lia|].
      rewrite !cdata_cons, Hd2, (cdata_same st st1 r Fs). by rewrite <- app_assoc.
  - assert (len <= count) by lia. rewrite Z.gtb_ltb. destruct (Z.ltb_spec 0 (len - count)); [lia|].
    cbn [andb]. eexists _, st. split; [done|].
    split; [apply owned_int; [done|]; intros c; cbn [app]; rewrite (refs_flags c n0); [apply Hown|done|done]|].
    split; [done|]. destruct (Z.ltb_spec (m_len n0 + chain_len r) len); [lia|].
    destruct (trim_ok st n0 count (m_len n0 - count) H0) as [W1 W2]; [lia|lia|lia|].
    eexists m2, _. splits; [done|done|lia| |].
    + rewrite !cdata_cons, Hd1, W2. rewrite <- app_assoc. f_equal. rewrite app_assoc. f_equal.
      unfold bs. rewrite <- (slice_split 0) by lia. symmetry. rewrite slice_all; [done| |lia].
      rewrite (data_length st n0 H0). lia.
    + constructor; [done|]. by constructor.
Qed.

Lemma cat_loop_ok rest : forall n m st, wf st m -> Forall (wf st) n ->
  owned st (m :: n ++ rest) ->
  exists r st', cat_loop m n st = Ret (r, st') /\ cdata st' r = data st m ++ cdata st n /\
    Forall (wf st') r /\ owned st' (r ++ rest) /\ same st st' rest.
Proof.
  induction n as [|n0 n IH]; intros m st Hm Hn Hown.
  - exists [m], st. splits; auto. by constructor.
  - cbn [cat_loop]. destruct (is_ext m || (m_off m + m_len m + m_len n0 >=? MLEN)) eqn:Hc.
    { exists (m :: n0 :: n), st. splits; auto. by constructor. }
    apply orb_false_iff in Hc as [He Hlt]. rewrite Z.geb_leb in Hlt. apply Z.leb_gt in Hlt.
    apply Forall_cons in Hn as [H0 Hn].
    assert (0 <= m_len n0) by (unfold wf in *; tauto).
    rewrite (mread_ok st n0 0) by (auto; lia). bind.
    rewrite slice_all by (rewrite ?(data_length st n0 H0); lia). rewrite drop_0.
    destruct (mappend_ok st m (data st n0) He Hm) as (m1 & -> & Hw & Hd & Hl & Ho & Hf & _ & Hx & _);
      [rewrite (data_length st n0 H0); lia|]. bind. rewrite (data_length st n0 H0) in *. rewrite Hl.
    set (m2 := set_len m1 (m_len m + m_len n0)) in *.
    assert (He2 : is_ext m2 = false) by (unfold is_ext in *; cbn; by rewrite Hf).
    assert (Hown2 : owned st (n0 :: n ++ rest)) by (by apply (owned_int st m)).
    destruct (MFREE_ok n0 st _ Hown2) as (_ & F2 & _). pose proof (MFREE_same n0 st _ Hown2) as Fs.
    apply same_app in Fs as [Fs1 Fs2]. set (st1 := MFREE n0 st) in *.
    destruct (IH m2 st1) as (r & st' & E & I1 & I2 & I3 & I4).
    + apply (wf_same st); [by rewrite He2|done].
    + by apply (wfs_same st).
    + by apply owned_int.
    + exists r, st'. splits; auto.
      * rewrite I1, (data_same st st1 m2) by (by rewrite He2).
        rewrite Hd, (cdata_same st st1 n Fs1), cdata_cons. by rewrite <- app_assoc.
      * by eapply same_trans.
Qed.

Lemma m_cat_ok : forall m n rest st, m <> [] -> Forall (wf st) m -> Forall (wf st) n ->
  owned st (m ++ n ++ rest) ->
  exists r st', m_cat m n st = Ret (r, st') /\ cdata st' r = cdata st m ++ cdata st n /\
    Forall (wf st') r /\ owned st' (r ++ rest) /\ same st st' rest.
Proof.
  induction m as [|m0 m IH]; intros n rest st Hne Hm Hn Hown; [done|].
  apply Forall_cons in Hm as [H0 Hm]. destruct m as [|m1 m].
  - destruct (cat_loop_ok rest n m0 st H0 Hn Hown) as (r & st' & E & I).
    exists r, st'. cbn [m_cat]. rewrite E. split; [done|]. unfold cdata at 2. cbn. by rewrite app_nil_r.
  - change (m_cat (m0 :: m1 :: m) n st)
      with ('(r', st) ← m_cat (m1 :: m) n st; Ret (m0 :: r', st)).
    set (m' := m1 :: m) in *. destruct (IH n (m0 :: rest) st) as (r & st' & E & I1 & I2 & I3 & I4).
    + done.
    + done.
    + done.
    + revert Hown. apply owned_refs. intros c. rewrite !refs_app. cbn [refs app].
      rewrite ?refs_app. lia.
    + rewrite E. bind. exists (m0 :: r), st'. apply (same_app st st' [m0] rest) in I4 as [J1 J2].
      assert (data st' m0 = data st m0 /\ wf st' m0) as [D W].
      { split; [apply data_same|apply (wf_same st); [|done]]; intros; apply J1; [by left|done|by left|done]. }
      splits; auto.
      * rewrite !cdata_cons, I1, D. by rewrite app_assoc.
      * revert I3. apply owned_refs. intros c. rewrite !refs_app. cbn [refs app]. rewrite ?refs_app. lia.
Qed.

(** *** m_copym *)

(** What m_copym does before its loop. *)
Lemma m_copym_begin st m off : Forall (wf st) m -> m <> [] -> 0 <= off ->
  exists hdr, (if off =? 0 then match m with [] => Fault | m0 :: _ => Ret (is_pkt m0) end else Ret false) = Ret hdr /\
  (off <= chain_len m -> exists pre off' m',
    copy_seek "m_copym" off m = Ret (off', m') /\ m = pre ++ m' /\ off = chain_len pre + off' /\
    at_off off' m' /\ chain_len m = chain_len pre + chain_len m' /\ 0 <= chain_len pre /\
    Forall (wf st) pre /\ Forall (wf st) m' /\ (forall c, refs c m' <= refs c m) /\
    (hdr = true -> match m' with [] => True | m0 :: _ => is_pkt m0 = true end)) /\
  (chain_len m < off -> copy_seek "m_copym" off m = Panic "m_copym").
Proof.
  intros Hwf Hne Hoff. destruct m as [|h t]; [done|]. set (m := h :: t) in *.
  assert (exists hdr, (if off =? 0 then Ret (is_pkt h) else Ret false) = Ret hdr /\
    (hdr = true -> off = 0 /\ is_pkt h = true)) as (hdr & E1 & Hh).
  { destruct (Z.eqb_spec off 0); eexists; split; done. }
  exists hdr. split; [exact E1|]. destruct (copy_seek_ok "m_copym" st m off Hwf Hoff) as [H1 H2]. split; [|exact H1].
  intros Hle. destruct (decide (off = 0)) as [->|Hn0].
  - exists [], 0, m. splits; auto; try done; try apply at_off_0. intros Hx. by apply Hh.
  - destruct H2 as (pre & off' & m' & E & Em & Eo & Hat); [done|]. exists pre, off', m'.
    rewrite Em in *. apply Forall_app in Hwf as [Hpre Hm'].
    pose proof (chain_len_nonneg st pre Hpre). splits; auto.
    + clear. induction pre as [|x pre IH]; [done|]. unfold chain_len in *. cbn. lia.
    + intros c. rewrite refs_app. pose proof (refs_nonneg c pre). lia.
    + intros Hx. by destruct (Hh Hx).
Qed.

(** A range inside the chain; [orig] is everything that is in use. *)
Lemma m_copym_ok st orig m off len : Forall (wf st) m -> owned st orig -> (forall c, refs c m <= refs c orig) ->
  (forall c, refcnt st c + refs c m <= 127) -> m <> [] -> chain_len m <= M_COPYALL -> 0 <= off -> 0 <= len ->
  off <= chain_len m -> len = M_COPYALL \/ off + len <= chain_len m ->
  exists top st', m_copym m off len st = Ret (top, st') /\ copied st orig [] top st' (slice off len (cdata st m)).
Proof.
  intros Hwf Hown Hin Hcap Hne Hmax Hoff Hlen Hle Hend. unfold m_copym.
  destruct (Z.ltb_spec off 0); [lia|]. destruct (Z.ltb_spec len 0); [lia|]. cbn [orb].
  destruct (m_copym_begin st m off Hwf Hne Hoff) as (hdr & -> & Hs & _). bind.
  destruct (Hs Hle) as (pre & off' & m' & E & Em & Eo & Hat & Hcl & Hpl & Hpre & Hm' & Hsub & Hhdr).
  rewrite E. bind.
  destruct (copy_loop_ok orig off m' off' len hdr [] st) as (r & st' & Er & Hc); auto; try lia.
  { intros c. specialize (Hcap c). specialize (Hsub c). lia. }
  { intros c. specialize (Hin c). specialize (Hsub c). lia. }
  exists r, st'. split; [done|]. rewrite Em, Eo, seek_slice; [done|done|by destruct Hat].
Qed.

(** *** m_pullup *)

Lemma pull_bad_ok n st rest : owned st (n ++ rest) ->
  exists st', pull_bad n st = Ret ([], st') /\ owned st' rest /\ same st st' rest /\
    forall c, refcnt st' c = refcnt st c - refs c n.
Proof.
  intros Ho. exists (mpfail (m_freem n st)). split; [done|].
  by destruct (m_freem_ok n st rest Ho) as (H1 & H2 & H3).
Qed.

(** The first mbuf without its packet header. *)
Lemma unpkt_ok st m : wf st m ->
  let k := if is_pkt m then set_flags m (Z.land (m_flags m) (Z.lnot M_PKTHDR)) else m in
  is_ext k = is_ext m /\ m_ext k = m_ext m /\ m_len k = m_len m /\ data st k = data st m /\ wf st k.
Proof.
  intros W. cbn zeta. destruct (is_pkt m); [|by splits].
  assert (He : is_ext (set_flags m (Z.land (m_flags m) (Z.lnot M_PKTHDR))) = is_ext m).
  { rewrite is_ext_set, has_land. done. }
  rewrite He. splits; auto.
  - unfold data, area. by rewrite He.
  - unfold wf, area in *. rewrite He. cbn in *. splits; try tauto.
    intros Hx. unfold is_pkt. cbn. rewrite has_land. change (Z.land (Z.lnot M_PKTHDR) M_PKTHDR) with 0.
    by rewrite has_0.
Qed.

(** The new first mbuf, which takes the packet header over. *)
Lemma takepkt_ok st n m : fresh m (m_type n) ->
  let k := if is_pkt n then M_COPY_PKTHDR (set_len m 0) n else set_len m 0 in
  is_ext k = false /\ m_len k = 0 /\ is_pkt k = is_pkt n /\ wf st k /\ m_off k <= 8 /\
  (is_pkt n = true -> pkt_len k = pkt_len n).
Proof.
  intros Hf. cbn zeta. pose proof Hf as (F1 & F2 & F3 & F4). destruct (is_pkt n) eqn:Hpk.
  - destruct (copyhdr_flags (m_flags n)) as [C1 C2].
    assert (Hx : is_ext (M_COPY_PKTHDR (set_len m 0) n) = false) by (unfold is_ext; cbn; exact C1).
    splits; auto.
    + unfold is_pkt in *. cbn. by rewrite C2.
    + unfold wf, area. rewrite Hx. cbn. rewrite F4. unfold MLEN, MHLEN. splits; auto; lia.
    + cbn. unfold MLEN, MHLEN. lia.
  - destruct (fresh_wf st m (m_type n) 0 Hf) as (W1 & W2 & W3); [unfold MLEN; lia|].
    unfold is_ext, is_pkt. cbn. rewrite F3, F1. splits; auto; done || lia.
Qed.

(** What m_pullup promises of its result. *)
Definition pullup_result (st : mstate) (n0 : mbuf) (r rest : chain) (len : Z) (res : chain) (st' : mstate) : Prop :=
  owned st' (res ++ rest) /\ same st st' rest /\
  ((res = [] /\ (chain_len (n0 :: r) < len \/ MHLEN < len \/ mallocs st <> []) /\
    (forall c, refcnt st' c = refcnt st c - refs c (n0 :: r))) \/
   (exists m' n', res = m' :: n' /\ len <= m_len m' /\ cdata st' res = cdata st (n0 :: r) /\
      Forall (wf st') res /\ is_ext m' = false /\ is_pkt m' = is_pkt n0 /\
      (is_pkt n0 = true -> pkt_len m' = pkt_len n0))).

Lemma pullup_here mp st n0 r len rest : let n := n0 :: r in
  Forall (wf st) n -> owned st (n ++ rest) -> chain_len n < 2147483648 -> 0 <= mp < 2147483648 -> 0 < len ->
  is_ext n0 = false -> m_off n0 + len < MLEN -> r <> [] -> m_len n0 < len ->
  exists res st', pull_loop (S (length r)) mp n0 r (len - m_len n0) (MLEN - (m_off n0 + m_len n0)) st = Ret (res, st') /\
    pullup_result st n0 r rest len res st'.
Proof.
  intros n Hwf Hown Hcl Hmp Hlen He Hlt Hrn Hn. subst n. pose proof Hwf as Hwf'.
  apply Forall_cons in Hwf' as [H0 Hr]. unfold pullup_result. rewrite chain_len_cons in *.
  assert (0 <= m_off n0 /\ 0 <= m_len n0) as [? ?] by (unfold wf in *; tauto).
  destruct (pull_loop_ok mp Hmp (S (length r)) n0 r (len - m_len n0)
    (MLEN - (m_off n0 + m_len n0)) st rest) as (res & st' & E & Ho & Hs & Hres); auto; try lia.
  { by apply (owned_int st n0). }
  exists res, st'. split; [done|]. split; [done|]. split; [done|].
  destruct (Z.ltb_spec (chain_len r) (len - m_len n0)).
  - destruct Hres as [-> Hrc]. left. splits; [done|left; lia|].
    intros c. by rewrite Hrc, (refs_int c n0 r He).
  - destruct Hres as (m' & n' & -> & (P1 & P2 & P3) & Hlm & Hcd & W).
    right. exists m', n'. splits; auto; [lia|]. unfold is_pkt. by rewrite P2.
Qed.

Lemma pullup_new mp st n0 r len rest m st1 : let n := n0 :: r in
  Forall (wf st) n -> owned st (n ++ rest) -> chain_len n < 2147483648 -> 0 <= mp < 2147483648 ->
  0 < len <= MHLEN -> fresh m (m_type n0) -> pool st1 = pool st ->
  let m1 := if is_pkt n0 then M_COPY_PKTHDR (set_len m 0) n0 else set_len m 0 in
  let k0 := if is_pkt n0 then set_flags n0 (Z.land (m_flags n0) (Z.lnot M_PKTHDR)) else n0 in
  exists res st', pull_loop (S (S (length r))) mp m1 (k0 :: r) len (MLEN - (m_off m1 + m_len m1)) st1 = Ret (res, st') /\
    pullup_result st n0 r rest len res st'.
Proof.
  intros n Hwf Hown Hcl Hmp Hlen Hf Hp m1 k0. subst n. pose proof Hwf as Hwf'.
  apply Forall_cons in Hwf' as [H0 Hr]. unfold pullup_result.
  assert (Hsame : forall c, same st st1 c) by (intros c; apply same_pool; by rewrite Hp).
  assert (Hrc : forall c, refcnt st1 c = refcnt st c) by (intros c; unfold refcnt; by rewrite Hp).
  destruct (unpkt_ok st1 n0) as (K1 & K2 & K3 & K4 & K5); [apply (wf_same st); [by rewrite Hp|done]|].
  destruct (takepkt_ok st1 n0 m Hf) as (M1 & M2 & M3 & M4 & M5 & M6).
  fold k0 in K1, K2, K3, K4, K5. fold m1 in M1, M2, M3, M4, M5, M6. rewrite chain_len_cons in *.
  destruct (pull_loop_ok mp Hmp (S (S (length r))) m1 (k0 :: r) len
    (MLEN - (m_off m1 + m_len m1)) st1 rest) as (res & st' & E & Ho & Hs & Hres); auto.
  { constructor; [done|]. by apply (wfs_same st). }
  { intros c. cbn [app]. rewrite (refs_flags c n0 k0 _ K1 K2), Hrc. apply Hown. }
  { rewrite chain_len_cons, K3. lia. }
  { unfold MHLEN, MLEN in *. lia. }
  exists res, st'. rewrite chain_len_cons, K3 in Hres. split; [done|]. split; [done|].
  split; [eapply same_trans; [apply Hsame|done]|]. destruct (Z.ltb_spec (m_len n0 + chain_len r) len).
  - destruct Hres as [-> Hrc']. left. splits; [done|by left|].
    intros c. by rewrite Hrc', (refs_flags c n0 k0 r K1 K2), Hrc.
  - destruct Hres as (m' & n' & -> & (P1 & P2 & P3) & Hlm & Hcd & W).
    right. exists m', n'. splits; auto; [lia| | |].
    + rewrite Hcd, !cdata_cons, K4. assert (data st1 m1 = []) as -> by (unfold data; by rewrite M2).
      cbn [app]. f_equal; [apply data_same; by rewrite Hp|by apply cdata_same].
    + rewrite <- M3. unfold is_pkt. by rewrite P2.
    + intros Hx. by rewrite P3, M6.
Qed.

Lemma m_pullup_ok mp st n0 r len rest : let n := n0 :: r in
  Forall (wf st) n -> owned st (n ++ rest) -> chain_len n < 2147483648 -> 0 <= mp < 2147483648 -> 0 < len ->
  exists res st', m_pullup mp n len st = Ret (res, st') /\ pullup_result st n0 r rest len res st'.
Proof.
  intros n Hwf Hown Hcl Hmp Hlen. subst n. unfold m_pullup.
  match goal with |- context [if ?c then _ else _] => destruct c eqn:Hc end.
  - apply andb_prop in Hc as [Hc Hrn]. apply andb_prop in Hc as [He Hlt].
    apply negb_true_iff in He. apply Z.ltb_lt in Hlt. apply negb_true_iff, bool_decide_eq_false in Hrn.
    rewrite Z.geb_leb. destruct (Z.leb_spec len (m_len n0)).
    + exists (n0 :: r), st. split; [done|]. split; [done|]. split; [done|]. right. exists n0, r. by splits.
    + by apply pullup_here.
  - assert (Hbad : forall st1, pool st1 = pool st -> MHLEN < len \/ mallocs st <> [] ->
      exists res st', pull_bad (n0 :: r) st1 = Ret (res, st') /\ pullup_result st n0 r rest len res st').
    { intros st1 Hp Hwhy. destruct (pull_bad_ok (n0 :: r) st1 rest) as (st' & E & Ho & Hs & Hr).
      { intros x. unfold refcnt. rewrite Hp. apply Hown. }
      exists [], st'. split; [done|]. split; [done|].
      split; [eapply same_trans; [apply same_pool; by rewrite Hp|done]|].
      left. splits; [done|by right|]. intros c. rewrite Hr. unfold refcnt. by rewrite Hp. }
    rewrite Z.gtb_ltb. destruct (Z.ltb_spec MHLEN len); [apply Hbad; auto|].
    destruct (MGET (m_type n0) st) as [[m|] st1] eqn:Hg; destruct (mget_ok _ _ _ _ Hg) as (Hp & Hf & Hm).
    + pose proof (pullup_new mp st n0 r len rest m st1 Hwf Hown Hcl Hmp (conj Hlen H) Hf Hp) as Hnew.
      cbn zeta in Hnew. by destruct (is_pkt n0).
    + apply Hbad; [done|]. right. intros Hnil. by destruct (Hm Hnil).
Qed.

(** *** What trimming and concatenation leave of the first mbuf *)

Lemma adj_head_refs : forall m len c, refs c (adj_head m len).1 = refs c m.
Proof.
  induction m as [|m0 r IH]; intros len c; [done|]. cbn [adj_head]. destruct (len >? 0); [|done].
  destruct (m_len m0 <=? len); [|done]. specialize (IH (len - m_len m0) c).
  destruct (adj_head r (len - m_len m0)) as [r' l']. cbn in *. by rewrite IH.
Qed.

(** Trimming the front keeps the first mbuf and the references. *)
Lemma m_adj_front st m0 r n : Forall (wf st) (m0 :: r) -> 0 <= n ->
  exists m0' r', m_adj (m0 :: r) n = Ret (m0' :: r') /\ Forall (wf st) (m0' :: r') /\
    cdata st (m0' :: r') = drop (Z.to_nat n) (cdata st (m0 :: r)) /\ is_ext m0' = is_ext m0 /\
    (forall c, refs c (m0' :: r') = refs c (m0 :: r)).
Proof.
  intros W Hn. unfold m_adj. rewrite Z.geb_leb. destruct (Z.leb_spec 0 n); [|lia].
  pose proof (adj_head_ok st (m0 :: r) n W Hn) as HA. pose proof (adj_head_refs (m0 :: r) n) as R.
  destruct (adj_head (m0 :: r) n) as [[|h t] l]; destruct HA as (H1 & H2 & H3 & _); [done|]. cbn [fst] in R.
  injection H2 as Hf _ _. apply Forall_cons in H1 as [W1 W2].
  exists (if is_pkt h then set_pkt_len h (pkt_len h - (n - l)) else h), t. split; [done|].
  assert (He : is_ext h = is_ext m0) by (unfold is_ext; by rewrite Hf).
  destruct (is_pkt h); (split; [by constructor|]); (split; [exact H3|]); (split; [exact He|exact R]).
Qed.

Lemma refs_set_lens c l : refs c ((fun b => set_len b 0) <$> l) = refs c l.
Proof. induction l as [|x l IH]; [done|]. cbn in *. by rewrite IH. Qed.

Lemma adj_tail_refs c : forall m count m', adj_tail m count = Ret m' -> refs c m' = refs c m.
Proof.
  induction m as [|x m IH]; intros count m' E; [done|]. cbn [adj_tail] in E. case_match.
  - injection E as <-. cbn [refs]. by rewrite refs_set_lens.
  - apply bind_Ret in E as (r & E & [= <-]). cbn. by rewrite (IH _ _ E).
Qed.

Lemma adj_last_refs c n : forall m, refs c (adj_last m n) = refs c m.
Proof.
  induction m as [|x [|y m] IH]; [done| |].
  - cbn [adj_last]. by destruct (is_pkt _).
  - change (adj_last (x :: y :: m) n) with (x :: adj_last (y :: m) n). cbn [refs] in *. by rewrite IH.
Qed.

(** Trimming the end keeps the first mbuf but for its length. *)
Lemma m_adj_back st h t n : Forall (wf st) (h :: t) -> 0 < n <= chain_len (h :: t) ->
  exists h' t', m_adj (h :: t) (- n) = Ret (h' :: t') /\ Forall (wf st) (h' :: t') /\
    cdata st (h' :: t') = take (Z.to_nat (chain_len (h :: t) - n)) (cdata st (h :: t)) /\
    (forall c, refs c (h' :: t') = refs c (h :: t)) /\
    (m_off h', m_flags h', m_dat h') = (m_off h, m_flags h, m_dat h) /\
    m_len h' = Z.min (m_len h) (chain_len (h :: t) - n).
Proof.
  intros W Hn. unfold m_adj. rewrite Z.geb_leb. destruct (Z.leb_spec 0 (- n)); [lia|]. rewrite Z.opp_involutive.
  destruct (last (h :: t)) as [l|] eqn:El; [|by apply last_None in El]. pose proof (last_le st _ _ W El) as Hll.
  pose proof W as W'. apply Forall_cons in W' as [Wh Wt]. pose proof (chain_len_nonneg st t Wt) as Hnn. rewrite chain_len_cons in *.
  rewrite Z.geb_leb. destruct (Z.leb_spec n (m_len l)).
  - destruct (adj_last_ok st (h :: t) l n El W) as (A & B & C & D & E); [lia|].
    pose proof (fun c => adj_last_refs c n (h :: t)) as R. rewrite chain_len_cons in *.
    destruct t as [|y t].
    + injection El as <-. cbn [adj_last] in *. set (h' := if is_pkt _ then _ else _) in *. exists h', []. splits; try done.
      * unfold h'. by destruct (is_pkt _).
      * unfold h'. cbn [chain_len foldr] in *. destruct (is_pkt _); cbn; unfold chain_len; cbn; lia.
    + destruct E as (r & E). rewrite E in *. exists h, r. splits; try done. rewrite chain_len_cons.
      pose proof (last_le st (y :: t) l Wt El) as Hll2. rewrite chain_len_cons in Hll2. lia.
  - destruct (Z.ltb_spec (m_len h + chain_len t - n) 0); [lia|]. set (h0 := if is_pkt h then _ else h).
    assert (wf st h0 /\ data st h0 = data st h /\ m_len h0 = m_len h /\ is_ext h0 = is_ext h /\ m_ext h0 = m_ext h /\
      (m_off h0, m_flags h0, m_dat h0) = (m_off h, m_flags h, m_dat h)) as (A1 & A2 & A3 & A4 & A5 & A6) by (unfold h0; by destruct (is_pkt h)).
    destruct (adj_tail_ok st (h0 :: t) (m_len h + chain_len t - n)) as (m' & E & W' & Hh & Hc & Hcl); [done|by constructor|rewrite chain_len_cons, A3; lia|].
    rewrite E. pose proof (fun c => adj_tail_refs c _ _ _ E) as R. cbn [adj_tail] in E. rewrite Z.geb_leb in E.
    assert (Hd : take (Z.to_nat (m_len h + chain_len t - n)) (cdata st (h0 :: t)) = take (Z.to_nat (m_len h + chain_len t - n)) (cdata st (h :: t))).
    { by rewrite !cdata_cons, A2. }
    destruct (Z.leb_spec (m_len h + chain_len t - n) (m_len h0)).
    + injection E as <-. eexists _, _. splits; try done; [by rewrite Hc|intros c; rewrite R; by apply refs_flags|cbn; lia].
    + apply bind_Ret in E as (r & E & [= <-]). exists h0, r. splits; try done; [by rewrite Hc|intros c; rewrite R; by apply refs_flags|lia].
Qed.

(** The first mbuf only grows at its end. *)
Definition grown (a b : mbuf) : Prop :=
  m_off b = m_off a /\ m_len a <= m_len b /\ m_flags b = m_flags a /\ pkt_len b = pkt_len a /\
  m_ext b = m_ext a /\ forall o k, 0 <= o -> 0 <= k -> o + k <= m_off a -> slice o k (m_dat b) = slice o k (m_dat a).

Lemma grown_refl m : grown m m.
Proof. by unfold grown; splits. Qed.
Lemma grown_trans a b c : grown a b -> grown b c -> grown a c.
Proof.
  intros (A1 & A2 & A3 & A4 & A5 & A6) (B1 & B2 & B3 & B4 & B5 & B6). unfold grown. splits; try congruence; [lia|].
  intros o k Ho Hk Hok. rewrite B6 by (rewrite ?A1; lia). by apply A6.
Qed.

Lemma cat_loop_head : forall n m st r st', cat_loop m n st = Ret (r, st') -> 0 <= m_len m ->
  exists h t, r = h :: t /\ grown m h.
Proof.
  induction n as [|n0 n IH]; intros m st r st' E Hl.
  - injection E as <- <-. exists m, []. split; [done|apply grown_refl].
  - cbn [cat_loop] in E. destruct (is_ext m || _) eqn:Hc.
    { injection E as <- <-. exists m, (n0 :: n). split; [done|apply grown_refl]. }
    unfold mread, bread in E. case_match eqn:Hr; [|done]. revert E. bind.
    unfold mappend, bwrite. case_match eqn:Hb; [|done]. bind. intros E.
    apply andb_prop in Hb as [Hb1 Hb2]. apply andb_prop in Hr as [Hr _]. apply andb_prop in Hr as [_ Hr].
    apply Z.leb_le in Hb1, Hb2, Hr.
    match type of E with cat_loop ?x _ _ = _ => set (m2 := x) in E end. assert (G : grown m m2).
    { unfold grown, m2. cbn. splits; try done; [lia|]. intros o k Ho Hk Hok. unfold slice.
      rewrite drop_app_le, take_app_le by (rewrite ?length_drop, ?length_take; lia).
      rewrite skipn_firstn_comm, take_take. f_equal. lia. }
    destruct (IH m2 _ _ _ E) as (h & t & -> & G2); [unfold m2; cbn; lia|].
    exists h, t. split; [done|by eapply grown_trans].
Qed.

Lemma m_cat_head m0 r n st r' st' : m_cat (m0 :: r) n st = Ret (r', st') -> 0 <= m_len m0 ->
  exists h t, r' = h :: t /\ grown m0 h.
Proof.
  intros E Hl. destruct r as [|m1 r]; [by eapply cat_loop_head|]. cbn [m_cat] in E.
  apply bind_Ret in E as ([r1 st1] & _ & [= <- _]). exists m0, r1. split; [done|apply grown_refl].
Qed.

(** ** Properties *)

(** m_copydata returns exactly the bytes asked for.  On a well-formed
    chain, with a non-negative offset and length, it delivers the [len] bytes
    from [off] on when the chain has them and panics when it has not; it never
    reads outside an mbuf's data. *)
Theorem m_copydata_spec (st : mstate) (m : chain) (off len : Z) :
  Forall (wf st) m -> 0 <= off -> 0 <= len ->
  m_copydata st m off len =
    if off + len <=? chain_len m then Ret (slice off len (cdata st m)) else Panic "m_copydata".
Proof.
  intros Hwf Hoff Hlen. unfold m_copydata.
  destruct (Z.ltb_spec off 0); [lia|]. destruct (Z.ltb_spec len 0); [lia|]. cbn [orb].
  destruct (copy_seek_ok "m_copydata" st m off Hwf Hoff) as [H1 H2].
  destruct (Z.le_gt_cases off (chain_len m)) as [Hle|Hgt].
  - destruct H2 as (pre & off' & m' & E & -> & -> & Hat); [done|]. rewrite E. bind.
    apply Forall_app in Hwf as [Hpre Hm'].
    rewrite copydata_loop_ok by done. rewrite (seek_slice st pre m' off') by (destruct Hat; done).
    assert (chain_len (pre ++ m') = chain_len pre + chain_len m') as ->.
    { clear. induction pre as [|x pre IH]; [done|]. cbn in *. unfold chain_len in *. cbn. lia. }
    destruct (Z.leb_spec (off' + len) (chain_len m')),
      (Z.leb_spec (chain_len pre + off' + len) (chain_len pre + chain_len m')); done || lia.
  - rewrite H1 by done. bind. destruct (Z.leb_spec (off + len) (chain_len m)); [lia|done].
Qed.

(** C20: m_copym copies a range of a chain.  When the range is inside the
    chain (or [len] is M_COPYALL) the result is a well-formed chain that holds
    exactly those bytes, clusters are shared and their reference counts raised
    by the number of mbufs of the copy that refer to them, and the original
    chain keeps its contents; or an allocation failed, nothing is returned and
    every reference count is as before.  A range that leaves the chain panics
    when memory suffices. *)
Theorem m_copym_spec (st : mstate) (m : chain) (off len : Z) :
  Forall (wf st) m -> owned st m -> (forall c, refcnt st c + refs c m <= 127) ->
  m <> [] -> chain_len m <= M_COPYALL -> 0 <= off -> 0 <= len <= M_COPYALL ->
  (off <= chain_len m -> len = M_COPYALL \/ off + len <= chain_len m ->
   exists top st', m_copym m off len st = Ret (top, st') /\
     cdata st' m = cdata st m /\ Forall (wf st') m /\
     ((mallocs st <> [] /\ top = [] /\ forall c, refcnt st' c = refcnt st c) \/
      (Forall (wf st') top /\ cdata st' top = slice off len (cdata st m) /\
       (forall c, refcnt st' c = refcnt st c + refs c top)))) /\
  (chain_len m < off \/ (0 < len < M_COPYALL /\ chain_len m < off + len) ->
   mallocs st = [] -> m_copym m off len st = Panic "m_copym").
Proof.
  intros Hwf Hown Hcap Hne Hmax Hoff Hlen. split.
  - intros Hle Hend. destruct (m_copym_ok st m m off len) as (r & st' & E & Hs & Hc); auto; try lia.
    exists r, st'. split; [done|]. split; [by apply cdata_same|]. split; [by apply (wfs_same st)|].
    destruct Hc as [(Hn & -> & Hrc)|(add & -> & Hwa & Hda & Hra & Hcla)].
    + left. splits; auto. intros c. rewrite Hrc. cbn. lia.
    + right. by splits.
  - intros Hend Hml. unfold m_copym.
    destruct (Z.ltb_spec off 0); [lia|]. destruct (Z.ltb_spec len 0); [lia|]. cbn [orb].
    destruct (m_copym_begin st m off Hwf Hne Hoff) as (hdr & -> & Hs & Hgt). bind.
    destruct (Z.le_gt_cases off (chain_len m)) as [Hle|H']; [|by rewrite Hgt].
    destruct (Hs Hle) as (pre & off' & m' & E & Em & Eo & Hat & Hcl & Hpl & Hpre & Hm' & Hsub & Hhdr).
    rewrite E. bind. apply copy_loop_short; auto; try lia; intros c; specialize (Hown c); specialize (Hcap c); specialize (Hsub c); lia.
Qed.

(** C38: m_adj trims exactly [req_len] bytes from the head of a chain, or
    [- req_len] from its tail (everything when the chain is shorter), and frees
    no mbuf.  When the first mbuf carries a packet header whose length was
    right, the header's length is right afterwards, except in one case: a trim
    from the tail that fits in the last of several mbufs leaves the header's
    length as it was, too large by the bytes trimmed. *)
Theorem m_adj_spec (st : mstate) (h l : mbuf) (t : chain) (req_len : Z) :
  let m := h :: t in
  Forall (wf st) m -> last m = Some l ->
  exists h' t', m_adj m req_len = Ret (h' :: t') /\ Forall (wf st) (h' :: t') /\
    length t' = length t /\
    cdata st (h' :: t') =
      (if 0 <=? req_len then drop (Z.to_nat req_len) (cdata st m)
       else take (Z.to_nat (chain_len m + req_len)) (cdata st m)) /\
    (is_pkt h = true -> pkt_len h = chain_len m ->
       (pkt_len h' = chain_len (h' :: t') <->
        ~ (req_len < 0 /\ t <> [] /\ - req_len <= m_len l))).
Proof.
  intros m Hwf Hl. unfold m_adj. subst m. rewrite Z.geb_leb.
  pose proof (chain_len_nonneg st _ Hwf) as Hnn.
  destruct (Z.leb_spec 0 req_len) as [Hpos|Hneg].
  - pose proof (adj_head_ok st (h :: t) req_len Hwf Hpos) as Hh.
    destruct (adj_head (h :: t) req_len) as [m' len']. destruct Hh as (W & Hh & Hc & Hlen & Hcl).
    destruct m' as [|h1 t1]; [done|]. injection Hh as Hf Hp Hh.
    set (h' := if is_pkt h1 then _ else h1).
    assert (wf st h' /\ data st h' = data st h1 /\ m_len h' = m_len h1) as (A & B & C).
    { apply Forall_cons in W as [W _]. unfold h'. destruct (is_pkt h1); splits; done. }
    exists h', t1. split; [done|]. rewrite cdata_cons, B, <- cdata_cons, Hc.
    apply Forall_cons in W as [_ W]. splits; auto.
    + apply (f_equal length) in Hh. unfold hdrs in Hh. by rewrite !length_fmap in Hh.
    + intros Hpk Hpl. split; [intros _ [? _]; lia|]. intros _. rewrite chain_len_cons, C, <- chain_len_cons.
      unfold h'. assert (is_pkt h1 = true) as -> by (unfold is_pkt in *; by rewrite Hf).
      cbn [set_pkt_len pkt_len]. lia.
  - rewrite Hl. rewrite Z.geb_leb. destruct (Z.leb_spec (- req_len) (m_len l)).
    + destruct (adj_last_ok st (h :: t) l (- req_len) Hl Hwf) as (A & B & C & D & E); [lia|].
      destruct (adj_last (h :: t) (- req_len)) as [|h' t'] eqn:Ea; [done|].
      exists h', t'. injection B as B. splits; auto.
      { rewrite C. f_equal. lia. }
      intros Hpk Hpl. destruct t as [|t0 t].
      * destruct (E Hpk) as (m1 & [= -> ->] & Hm1). split; [naive_solver|]. intros _. lia.
      * destruct E as (r & [= -> ->]). split; [intros ?; lia|]. intros Hn. exfalso. by apply Hn.
    + set (count := if chain_len (h :: t) - - req_len <? 0 then 0 else chain_len (h :: t) - - req_len).
      assert (Hcount : count = Z.max 0 (chain_len (h :: t) + req_len)) by (unfold count; bcase; lia).
      set (h0 := if is_pkt h then set_pkt_len h count else h).
      assert (wf st h0 /\ data st h0 = data st h /\ m_len h0 = m_len h) as (A & B & C).
      { apply Forall_cons in Hwf as [W _]. unfold h0. destruct (is_pkt h); splits; done. }
      apply Forall_cons in Hwf as [_ Ht].
      destruct (adj_tail_ok st (h0 :: t) count) as (m' & E & W & Hh & Hc & Hcl); [done|by constructor| |].
      { rewrite chain_len_cons, C, <- chain_len_cons. lia. }
      rewrite E. destruct m' as [|h' t']; [done|]. injection Hh as Hf Hp Hh.
      exists h', t'. splits; auto.
      * apply (f_equal length) in Hh. unfold hdrs in Hh. by rewrite !length_fmap in Hh.
      * rewrite Hc, cdata_cons, B, <- cdata_cons. f_equal. lia.
      * intros Hpk Hpl. split; [intros _ (? & ? & ?); lia|]. intros _. rewrite Hcl, Hp. unfold h0. by rewrite Hpk.
Qed.

(** C21: m_pullup makes [len] bytes contiguous without changing the data.  On a
    chain whose cluster references the pool accounts for, it either returns a
    chain with the same bytes whose first mbuf holds at least [len] of them in
    its own data area and carries the packet header, or returns nothing with
    every mbuf of the chain freed (and each cluster reference dropped once).
    The latter needs a chain shorter than [len], a [len] above MHLEN, or an
    allocation that failed. *)
Theorem m_pullup_spec (mp : Z) (st : mstate) (n0 : mbuf) (r : chain) (len : Z) :
  let n := n0 :: r in
  Forall (wf st) n -> owned st n -> chain_len n < 2147483648 -> 0 <= mp < 2147483648 -> 0 < len ->
  exists res st', m_pullup mp n len st = Ret (res, st') /\
    ((res = [] /\ (chain_len n < len \/ MHLEN < len \/ mallocs st <> []) /\
      (forall c, refcnt st' c = refcnt st c - refs c n)) \/
     (exists m' n', res = m' :: n' /\ len <= m_len m' /\ cdata st' res = cdata st n /\
        Forall (wf st') res /\ owned st' res /\ is_ext m' = false /\ is_pkt m' = is_pkt n0 /\
        (is_pkt n0 = true -> pkt_len m' = pkt_len n0))).
Proof.
  intros n Hwf Hown Hcl Hmp Hlen. subst n.
  destruct (m_pullup_ok mp st n0 r len []) as (res & st' & E & Ho & _ & H); rewrite ?app_nil_r in *; auto.
  exists res, st'. split; [exact E|]. destruct H as [H|(m' & n' & -> & H)]; [by left|].
  right. exists m', n'. split; [done|]. tauto.
Qed.

(** m_cat appends.  The result holds the bytes of [m] followed by those of
    [n], is well formed, and the pool still accounts for its clusters: data
    moved into the last mbuf of [m] never leave its data area, and a freed
    cluster is never one the result still uses. *)
Theorem m_cat_spec (st : mstate) (m n : chain) :
  m <> [] -> Forall (wf st) m -> Forall (wf st) n -> owned st (m ++ n) ->
  exists r st', m_cat m n st = Ret (r, st') /\ cdata st' r = cdata st m ++ cdata st n /\
    Forall (wf st') r /\ owned st' r.
Proof.
  intros Hne Hm Hn Hown. destruct (m_cat_ok m n [] st Hne Hm Hn) as (r & st' & E & I1 & I2 & I3 & _).
  { by rewrite app_nil_r. }
  rewrite app_nil_r in I3. by exists r, st'.
Qed.

(** ** Witnesses *)

Definition zeros (n : nat) : list Z := replicate n 0.

(** A packet header with three bytes, a cluster with four, two more bytes. *)
Definition w0 : mbuf := Mb 40 3 MT_DATA M_PKTHDR 9 1 (zeros 40 ++ [1; 2; 3] ++ zeros 65) 0 0.
Definition w1 : mbuf := Mb 5 4 MT_DATA M_EXT 0 0 [] 7 16.
Definition w2 : mbuf := Mb 0 2 MT_DATA 0 0 0 ([8; 9] ++ zeros 106) 0 0.
Definition wst : mstate :=
  MS [] (fun _ => 0) (Stat ∅ 0 0 1)
     (Pool {[ 7 := zeros 5 ++ [4; 5; 6; 7] ++ zeros 7 ]} {[ 7 := 1 ]} []
        (Rmap.Rmap (Rmap.layout [] 3) [] false 0) [] 0) 0 0.

Lemma w_wf : Forall (wf wst) [w0; w1; w2].
Proof. repeat constructor; vm_compute; try congruence; intuition congruence. Qed.

Lemma w_refs c : refs c [w0; w1; w2] = if decide (c = 7) then 1 else 0.
Proof.
  cbn [refs]. change (is_ext w0) with false. change (is_ext w1) with true.
  change (is_ext w2) with false. change (m_ext w1) with 7. cbn [andb].
  destruct (decide (c = 7)) as [->|]; [done|]. destruct (Z.eqb_spec 7 c); lia.
Qed.

Lemma w_refcnt c : refcnt wst c = if decide (c = 7) then 1 else 0.
Proof.
  unfold refcnt. change (mclrefcnt (pool wst)) with ({[ 7 := 1 ]} : gmap Z Z).
  destruct (decide (c = 7)) as [->|Hne]; [by rewrite lookup_singleton_eq|].
  by rewrite lookup_singleton_ne by done.
Qed.

Lemma w_owned : owned wst [w0; w1; w2].
Proof. intros c. rewrite w_refs, w_refcnt. destruct (decide _); lia. Qed.

Lemma w_cap c : refcnt wst c + refs c [w0; w1; w2] <= 127.
Proof. rewrite w_refs, w_refcnt. destruct (decide _); lia. Qed.

Lemma m_copydata_spec_witness :
  m_copydata wst [w0; w1; w2] 2 4 = Ret [3; 4; 5; 6] /\
  m_copydata wst [w0; w1; w2] 2 8 = Panic "m_copydata".
Proof.
  rewrite !(m_copydata_spec wst [w0; w1; w2] 2) by (apply w_wf || lia).
  split; vm_compute; reflexivity.
Defined.

Lemma m_copym_spec_witness :
  exists top st', m_copym [w0; w1; w2] 2 4 wst = Ret (top, st') /\
    cdata st' top = [3; 4; 5; 6] /\ refcnt st' 7 = 2.
Proof.
  destruct (m_copym_spec wst [w0; w1; w2] 2 4 w_wf w_owned w_cap ltac:(done)
    ltac:(vm_compute; congruence) ltac:(lia) ltac:(vm_compute; intuition congruence)) as [H _].
  destruct H as (top & st' & E & _ & _ & H); [vm_compute; congruence|right; vm_compute; congruence|].
  destruct H as [(Hn & _)|(_ & Hc & _)]; [by destruct Hn|].
  exists top, st'. split; [exact E|]. split; [rewrite Hc; vm_compute; reflexivity|].
  vm_compute in E. injection E as _ <-. vm_compute. reflexivity.
Defined.

Lemma m_adj_spec_witness :
  exists h' t', m_adj [w0; w1; w2] (-1) = Ret (h' :: t') /\
    cdata wst (h' :: t') = [1; 2; 3; 4; 5; 6; 7; 8] /\ pkt_len h' = 9.
Proof.
  destruct (m_adj_spec wst w0 w2 [w1; w2] (-1) w_wf eq_refl) as (h' & t' & E & _ & _ & Hc & _).
  exists h', t'. split; [exact E|]. split; [rewrite Hc; vm_compute; reflexivity|].
  vm_compute in E. injection E as <- _. reflexivity.
Defined.

Lemma m_pullup_spec_witness :
  exists m' n' st', m_pullup 40 [w0; w1; w2] 6 wst = Ret (m' :: n', st') /\ 6 <= m_len m' /\
    cdata st' (m' :: n') = [1; 2; 3; 4; 5; 6; 7; 8; 9].
Proof.
  destruct (m_pullup_spec 40 wst w0 [w1; w2] 6 w_wf w_owned ltac:(vm_compute; reflexivity)
    ltac:(lia) ltac:(lia)) as (res & st' & E & H).
  destruct H as [(_ & Hbad & _)|(m' & n' & -> & Hl & Hc & _)].
  - destruct Hbad as [Hbad|[Hbad|Hbad]]; vm_compute in Hbad; congruence.
  - exists m', n', st'. split; [exact E|]. split; [exact Hl|]. rewrite Hc. vm_compute. reflexivity.
Defined.

Lemma m_cat_spec_witness :
  exists r st', m_cat [w0] [w2] wst = Ret (r, st') /\ cdata st' r = [1; 2; 3; 8; 9] /\
    length r = 1%nat.
Proof.
  destruct (m_cat_spec wst [w0] [w2] ltac:(done)) as (r & st' & E & Hc & _).
  - pose proof w_wf as H. inversion H; subst. by constructor.
  - pose proof w_wf as H. inversion H as [|? ? ? H2]; subst. inversion H2 as [|? ? ? H3]; subst. exact H3.
  - intros c. pose proof (w_refcnt c) as Hr. cbn [app refs]. change (is_ext w0) with false.
    change (is_ext w2) with false. cbn [andb]. rewrite Hr. destruct (decide _); lia.
  - exists r, st'. split; [exact E|]. split; [rewrite Hc; vm_compute; reflexivity|].
    vm_compute in E. injection E as <- _. reflexivity.
Defined.

End Mbuf.
