(* ===== verification/Ledger.v ===== *)
(** The books of the mbuf allocator: what an operation on chains does to the counts
    of mbufs in use ([mbstat.m_mtypes]) and to the reference counts of clusters,
    against the mbufs and the references its chains hold.

    [ledger ms l ms' l'] says that nothing was lost or made up between the chains [l]
    in state [ms] and the chains [l'] in state [ms']: for every type the mbufs counted
    in use and not in the chains are as many as before, and for every cluster the
    references counted and not in the chains, modulo the 256 values of the
    counter.  The operations keep it for arbitrary chains and whatever memory there is.
    When the pool accounts for the chains before and after ([owned]) the counters
    have not come round and the books are exact ([kept]). *)
From stdpp Require Import base numbers list gmap strings.
From Stdlib Require Import ZArith Lia.
From S2P Require Import Prelude Mbuf.

Module Ledger.
Import Mbuf.

(** How many mbufs of type [t] the kernel counts, and how many a chain has. *)
Definition in_use (t : Z) (ms : mstate) : Z := default 0 (m_mtypes (Mbuf.stat ms) !! t).
Definition of_type (t : Z) (c : list mbuf) : Z := Z.of_nat (length (filter (fun m => m_type m = t) c)).

Record ledger (ms : mstate) (l : chain) (ms' : mstate) (l' : chain) : Prop := MkLedger {
  lg_types : forall t, in_use t ms' - of_type t l' = in_use t ms - of_type t l;
  lg_refs : forall c, exists k, refcnt ms' c - refs c l' = refcnt ms c - refs c l + 256 * k }.
Definition kept (ms : mstate) (l : chain) (ms' : mstate) (l' : chain) : Prop :=
  (forall t, in_use t ms' - of_type t l' = in_use t ms - of_type t l) /\
  (forall c, refcnt ms' c - refs c l' = refcnt ms c - refs c l).

(** *** The relation *)
Lemma of_type_cons t m c : of_type t (m :: c) = (if decide (m_type m = t) then 1 else 0) + of_type t c.
Proof. unfold of_type. rewrite filter_cons. destruct (decide _); cbn [length]; lia. Qed.
Lemma of_type_app t a b : of_type t (a ++ b) = of_type t a + of_type t b.
Proof. unfold of_type. rewrite filter_app, length_app. lia. Qed.

Lemma ledger_refl ms l : ledger ms l ms l.
Proof. split; [done|]. intros c. exists 0. lia. Qed.
Lemma ledger_trans ms1 l1 ms2 l2 ms3 l3 : ledger ms1 l1 ms2 l2 -> ledger ms2 l2 ms3 l3 -> ledger ms1 l1 ms3 l3.
Proof.
  intros [T1 R1] [T2 R2]. split; [intros t; specialize (T1 t); specialize (T2 t); lia|].
  intros c. destruct (R1 c) as [a Ha], (R2 c) as [b Hb]. exists (a + b). lia.
Qed.
Lemma ledger_app ms l ms' l' r : ledger ms l ms' l' -> ledger ms (l ++ r) ms' (l' ++ r).
Proof.
  intros [T R]. split; [intros t; specialize (T t); rewrite !of_type_app; lia|]. intros c. destruct (R c) as [k Hk]. exists k. rewrite !refs_app. lia.
Qed.
#[export] Instance ledger_perm : Proper ((=) ==> (≡ₚ) ==> (=) ==> (≡ₚ) ==> iff) ledger.
Proof.
  intros ms ? <- l1 l2 Hl ms' ? <- l1' l2' Hl'.
  assert (Ht : forall t a b, a ≡ₚ b -> of_type t a = of_type t b) by (intros t a b H; unfold of_type; by rewrite H).
  split; intros [T R]; (split; [intros t; specialize (T t); rewrite (Ht t _ _ Hl), (Ht t _ _ Hl') in *; exact T|]); intros c; destruct (R c) as [k Hk]; exists k;
    rewrite (refs_perm c _ _ Hl), (refs_perm c _ _ Hl') in *; exact Hk.
Qed.
(** Mbufs may change in everything but their type and their cluster. *)
Definition kin (a b : mbuf) : Prop := m_type b = m_type a /\ is_ext b = is_ext a /\ m_ext b = m_ext a.
Lemma kin_counts l l' : Forall2 kin l l' -> (forall t, of_type t l' = of_type t l) /\ forall c, refs c l' = refs c l.
Proof.
  induction 1 as [|a b l l' (H1 & H2 & H3) _ [IH1 IH2]]; [done|]. split.
  - intros t. by rewrite !of_type_cons, H1, IH1.
  - intros c. cbn [refs]. by rewrite H2, H3, IH2.
Qed.
Lemma ledger_kin ms l ms' l' l2 : ledger ms l ms' l' -> Forall2 kin l' l2 -> ledger ms l ms' l2.
Proof.
  intros [T R] H. destruct (kin_counts _ _ H) as [E1 E2]. split; [intros t; by rewrite E1|]. intros c. rewrite E2. apply R.
Qed.
Lemma kin_self l : Forall2 kin l l.
Proof. induction l; by constructor. Qed.
(** States that agree on the counts. *)
Lemma ledger_counts ms l ms1 : m_mtypes (stat ms1) = m_mtypes (stat ms) -> mclrefcnt (pool ms1) = mclrefcnt (pool ms) -> ledger ms l ms1 l.
Proof. intros H1 H2. split; unfold in_use, refcnt; rewrite ?H1, ?H2; [done|]. intros c. exists 0. lia. Qed.

Lemma ledger_kept ms l ms' l' rest : ledger ms l ms' l' -> owned ms (l ++ rest) -> owned ms' (l' ++ rest) -> kept ms l ms' l'.
Proof.
  intros [T R] H1 H2. split; [done|]. intros c. destruct (R c) as [k Hk]. specialize (H1 c). specialize (H2 c). rewrite refs_app in *.
  pose proof (refs_nonneg c rest). pose proof (refs_nonneg c l). pose proof (refs_nonneg c l'). lia.
Qed.

(** *** Allocation and release *)
Lemma in_use_count t u d ms : in_use t (count_type u d ms) = in_use t ms + if decide (u = t) then d else 0.
Proof.
  unfold in_use, count_type. cbn. destruct (decide (u = t)) as [->|Hne]; [by rewrite lookup_insert_eq|].
  rewrite lookup_insert_ne by done. lia.
Qed.
Lemma in_use_MFREE t m ms : in_use t (MFREE m ms) = in_use t ms - of_type t [m].
Proof.
  unfold MFREE, of_type. rewrite filter_cons, filter_nil. pose proof (in_use_count t (m_type m) (-1) ms) as H.
  assert (Hcl : forall c ms1, in_use t (MCLFREE c ms1) = in_use t ms1) by (intros c ms1; unfold in_use, MCLFREE; destruct (refcnt (set_refcnt _ _ _) _ =? 0); reflexivity).
  destruct (is_ext m); rewrite ?Hcl, H; destruct (decide (m_type m = t)); cbn; lia.
Qed.
Lemma in_use_freem t : forall c ms, in_use t (m_freem c ms) = in_use t ms - of_type t c.
Proof.
  induction c as [|m c IH]; intros ms; [unfold of_type; cbn; lia|]. cbn [m_freem]. rewrite IH, in_use_MFREE.
  unfold of_type. rewrite !filter_cons, filter_nil. destruct (decide (m_type m = t)); cbn [length]; lia.
Qed.

Lemma s8_mod z : exists k, s8 z = z + 256 * k.
Proof. exists (- ((z + 128) / 256)). unfold s8. pose proof (Z.div_mod (z + 128) 256). lia. Qed.
Lemma refcnt_any st c n x : exists k, refcnt (set_refcnt st c n) x = (if decide (c = x) then n else refcnt st x) + 256 * k.
Proof.
  unfold refcnt, set_refcnt. cbn [with_pool pool mclrefcnt]. destruct (decide (c = x)) as [->|Hne].
  - rewrite lookup_insert_eq. apply s8_mod.
  - rewrite lookup_insert_ne by done. exists 0. lia.
Qed.
Lemma ledger_MFREE m ms r : ledger ms (m :: r) (MFREE m ms) r.
Proof.
  split; [intros t; rewrite in_use_MFREE, !of_type_cons; unfold of_type at 1; cbn; lia|]. intros c. cbn [refs]. unfold MFREE.
  assert (Hc : forall st, refcnt (count_type (m_type m) (-1) st) c = refcnt st c) by done.
  destruct (is_ext m); cbn [andb]; [|exists 0; rewrite Hc; lia]. set (st := count_type _ _ _).
  assert (E : refcnt (MCLFREE (m_ext m) st) c = refcnt (set_refcnt st (m_ext m) (refcnt st (m_ext m) - 1)) c) by (unfold MCLFREE; by destruct (_ =? 0)).
  rewrite E. destruct (refcnt_any st (m_ext m) (refcnt st (m_ext m) - 1) c) as [k ->]. exists k. unfold st. rewrite !Hc.
  destruct (Z.eqb_spec (m_ext m) c) as [->|Hne]; [rewrite decide_True by done; rewrite Hc; lia|rewrite decide_False by done; lia].
Qed.
Lemma ledger_freem : forall m ms r, ledger ms (m ++ r) (m_freem m ms) r.
Proof.
  induction m as [|m0 m IH]; intros ms r; [apply ledger_refl|]. cbn [m_freem app]. eapply ledger_trans; [apply ledger_MFREE|apply IH].
Qed.

Lemma ledger_once hdr t ms o ms' r : mget_once hdr t ms = (o, ms') -> ledger ms r ms' (match o with Some m => m :: r | None => r end) /\
  match o with Some m => is_ext m = false | None => True end.
Proof.
  unfold mget_once. destruct (MALLOC ms) as [ok ms1] eqn:E.
  assert (H1 : ledger ms r ms1 r) by (apply ledger_counts; unfold MALLOC in E; destruct (mallocs ms); by injection E as _ <-).
  destruct ok; intros [= <- <-]; [|by split]. split; [|by destruct hdr]. eapply ledger_trans; [exact H1|]. set (m := new_mbuf ms1 hdr t).
  split; [intros u; rewrite in_use_count, of_type_cons; change (m_type m) with t; destruct (decide (t = u)); lia|]. intros c. exists 0.
  cbn [refs]. replace (is_ext m) with false by (by destruct hdr). cbn [andb]. change (refcnt (count_type t 1 ms1) c) with (refcnt ms1 c). lia.
Qed.
Lemma ledger_get hdr t ms o ms' r : (if hdr : bool then MGETHDR t ms else MGET t ms) = (o, ms') ->
  ledger ms r ms' (match o with Some m => m :: r | None => r end) /\ match o with Some m => is_ext m = false | None => True end.
Proof.
  assert (Hr : ledger ms r (m_reclaim ms) r) by (by apply ledger_counts).
  assert (H : forall ms1 o1, mget_once hdr t ms = (o1, ms1) -> (match o1 with Some m => (Some m, ms1) | None => mget_once hdr t (m_reclaim ms1) end) = (o, ms') ->
    ledger ms r ms' (match o with Some m => m :: r | None => r end) /\ match o with Some m => is_ext m = false | None => True end).
  { intros ms1 o1 E1 E2. destruct (ledger_once _ _ _ _ _ r E1) as [L1 X1]. destruct o1 as [m|]; [by injection E2 as <- <-|].
    destruct (ledger_once _ _ _ _ _ r E2) as [L2 X2]. split; [|done]. eapply ledger_trans; [exact L1|]. eapply ledger_trans; [|exact L2]. by apply ledger_counts. }
  destruct (mget_once hdr t ms) as [o1 ms1] eqn:E1. specialize (H ms1 o1 eq_refl). intros E. apply H. destruct hdr; unfold MGETHDR, MGET in E; rewrite E1 in E; by destruct o1.
Qed.

(** *** m_adj, m_cat *)
Lemma adj_head_kin : forall m len, Forall2 kin m (adj_head m len).1.
Proof.
  induction m as [|m0 m IH]; intros len; cbn [adj_head]; [constructor|]. destruct (len >? 0); [|apply kin_self]. destruct (m_len m0 <=? len).
  - specialize (IH (len - m_len m0)). destruct (adj_head m (len - m_len m0)) as [r' len']. by constructor.
  - constructor; [done|apply kin_self].
Qed.
Lemma adj_tail_kin : forall m count m', adj_tail m count = Ret m' -> Forall2 kin m m'.
Proof.
  induction m as [|m0 m IH]; intros count m' E; cbn [adj_tail] in E; [done|]. destruct (m_len m0 >=? count).
  - injection E as <-. constructor; [done|]. clear. induction m; by constructor.
  - apply bind_Ret in E as (r & E & [= <-]). constructor; [done|by apply (IH _ _ E)].
Qed.
Lemma adj_last_kin n : forall m, Forall2 kin m (adj_last m n).
Proof.
  induction m as [|m0 m IH]; [constructor|]. destruct m as [|m1 m]; cbn [adj_last] in *; (constructor; [|done || constructor]); [by destruct (is_pkt _)|done].
Qed.
Lemma m_adj_kin m n m' : m_adj m n = Ret m' -> Forall2 kin m m'.
Proof.
  destruct m as [|h t]; cbn [m_adj]; [by intros [= <-]|]. destruct (n >=? 0).
  - pose proof (adj_head_kin (h :: t) n) as H. destruct (adj_head (h :: t) n) as [m1 len]. cbn [fst] in H. destruct m1 as [|m0 r]; [done|]. intros [= <-].
    apply Forall2_cons in H as [H1 H2]. constructor; [by destruct (is_pkt m0)|done].
  - destruct (last (h :: t)) as [l|]; [|done]. destruct (m_len l >=? - n); [intros [= <-]; exact (adj_last_kin (- n) (h :: t))|]. intros E.
    set (k := if _ <? 0 then _ else _) in E. apply adj_tail_kin in E. inversion E as [|x y a b E1 E2]; subst. constructor; [|done].
    destruct (is_pkt h); [exact E1|done].
Qed.

Lemma mappend_kin m bs m' : mappend m bs = Ret m' -> kin m m'.
Proof. unfold mappend. intros E. by apply bind_Ret in E as (d & _ & [= <-]). Qed.
Lemma cat_loop_ledger : forall n m ms r ms', cat_loop m n ms = Ret (r, ms') -> ledger ms (m :: n) ms' r.
Proof.
  induction n as [|n0 n IH]; intros m ms r ms' E; cbn [cat_loop] in E; [injection E as <- <-; apply ledger_refl|].
  destruct (is_ext m || _); [injection E as <- <-; apply ledger_refl|]. apply bind_Ret in E as (bs & _ & E). apply bind_Ret in E as (m' & Em & E).
  specialize (IH _ _ _ _ E). apply mappend_kin in Em. eapply ledger_trans; [|exact IH]. apply ledger_kin with (l' := m :: n); [|constructor; [exact Em|apply kin_self]].
  assert (Hp : m :: n0 :: n ≡ₚ n0 :: m :: n) by solve_Permutation. rewrite Hp. apply ledger_MFREE.
Qed.
Lemma m_cat_ledger n : forall m ms r ms', m_cat m n ms = Ret (r, ms') -> ledger ms (m ++ n) ms' r.
Proof.
  induction m as [|m0 m IH]; intros ms r ms' E; [done|]. cbn [m_cat] in E. destruct m as [|m1 m]; [by apply cat_loop_ledger|].
  apply bind_Ret in E as ([r' ms1] & E & [= <- <-]). specialize (IH _ _ _ E). apply (ledger_app _ _ _ _ [m0]) in IH.
  assert (H1 : (m0 :: m1 :: m) ++ n ≡ₚ ((m1 :: m) ++ n) ++ [m0]) by solve_Permutation. assert (H2 : m0 :: r' ≡ₚ r' ++ [m0]) by solve_Permutation. by rewrite H1, H2.
Qed.

(** *** m_copym *)
Lemma copy_one_ledger off len hdr off0 m n ms n' ms' r : is_ext n = false -> copy_one off len hdr off0 m n ms = Ret (n', ms') -> ledger ms (n :: r) ms' (n' :: r).
Proof.
  intros Hn E. unfold copy_one in E. set (k := if hdr then _ else n) in E. set (k2 := set_len k _) in E.
  assert (Hk : is_ext k2 = false /\ m_type k2 = m_type n).
  { unfold k2, k. destruct hdr; [|by split]. split; [|done]. unfold is_ext. cbn. by destruct (copyhdr_flags (m_flags m)). }
  destruct Hk as [Hk Ht]. assert (H0 : forall x c, is_ext x = false -> refs c (x :: r) = refs c r) by (intros x c Hx; cbn; by rewrite Hx).
  destruct (is_ext m).
  - injection E as <- <-. set (n' := set_ext _ _ _). assert (Hx : is_ext n' = true) by apply is_ext_set_ext.
    split; [intros t; rewrite !of_type_cons; change (m_type n') with (m_type k2); by rewrite Ht|]. intros c. rewrite (H0 n c Hn). cbn [refs]. rewrite Hx. change (m_ext n') with (m_ext m). cbn [andb].
    destruct (refcnt_any ms (m_ext m) (refcnt ms (m_ext m) + 1) c) as [j ->]. exists j. destruct (Z.eqb_spec (m_ext m) c) as [->|Hne]; [rewrite decide_True by done; lia|rewrite decide_False by done; lia].
  - apply bind_Ret in E as (bs & _ & E). apply bind_Ret in E as (d & _ & [= <- <-]). split; [intros t; rewrite !of_type_cons; change (m_type (set_dat k2 d)) with (m_type k2); by rewrite Ht|].
    intros c. exists 0. rewrite (H0 n c Hn), (H0 (set_dat k2 d) c) by exact Hk. lia.
Qed.
Lemma copy_end_ledger top ms res ms' r : copy_end top ms = Ret (res, ms') -> ledger ms (top ++ r) ms' (res ++ r).
Proof. unfold copy_end. destruct top; intros [= <- <-]; [by apply ledger_counts|apply ledger_refl]. Qed.
Lemma copy_loop_ledger off0 r : forall m off len hdr top ms res ms', copy_loop m off len hdr off0 top ms = Ret (res, ms') -> ledger ms (top ++ r) ms' (res ++ r).
Proof.
  induction m as [|m0 m IH]; intros off len hdr top ms res ms' E; cbn [copy_loop] in E.
  - destruct (len >? 0); [destruct (len =? M_COPYALL); [|done]|]; by apply copy_end_ledger.
  - destruct (len >? 0); [|by apply copy_end_ledger]. destruct (MGET (m_type m0) ms) as [[n|] ms1] eqn:Eg; destruct (ledger_get false _ _ _ _ (top ++ r) Eg) as [L1 Hn].
    + apply bind_Ret in E as ([n' ms2] & E1 & E). eapply ledger_trans; [exact L1|]. eapply ledger_trans; [by apply (copy_one_ledger _ _ _ _ _ _ _ _ _ _ Hn E1)|].
      specialize (IH _ _ _ _ _ _ _ E). assert (Hp : n' :: top ++ r ≡ₚ (top ++ [n']) ++ r) by solve_Permutation. by rewrite Hp.
    + injection E as <- <-. eapply ledger_trans; [exact L1|]. cbn [app]. eapply ledger_trans; [apply ledger_freem|by apply ledger_counts].
Qed.
(** A copy holds what was taken for it, or nothing. *)
Lemma m_copym_ledger m off len ms res ms' r : m_copym m off len ms = Ret (res, ms') -> ledger ms r ms' (res ++ r).
Proof.
  unfold m_copym. destruct (_ || _); [done|]. intros E. apply bind_Ret in E as (hdr & _ & E). apply bind_Ret in E as ([o m'] & _ & E). by apply (copy_loop_ledger off r) in E.
Qed.
End Ledger.
