(* ===== verification/Cksum.v ===== *)
(** The Internet checksum over an mbuf chain: sys/netinet/in_cksum.c. *)
From stdpp Require Import base numbers list gmap strings.
From Stdlib Require Import ZArith Lia.
From S2P Require Import Prelude Mbuf.
Import Mbuf.

Module Cksum.

Section cksum.
(** The byte order of the machine. *)
Variable big : bool.

(** A [u_short] made of two bytes of memory. *)
Definition word (a b : Z) : Z := if big then a * 256 + b else b * 256 + a.

(** [sum] is an [int]; it is kept as its 32-bit pattern.  REDUCE adds its two
    halves (l_util) and folds the carry (ADDCARRY). *)
Definition REDUCE (sum : Z) : Z :=
  let s := Z.land sum 0xffff + Z.shiftr sum 16 in
  if s >? 65535 then s - 65535 else s.

(** [n] words from [w] on. *)
Fixpoint add_words (n : nat) (w : list Z) (sum : Z) : outcome (list Z * Z) :=
  match n with
  | O => Ret (w, sum)
  | S n =>
      match w with
      | a :: b :: w => add_words n w (u32 (sum + word a b))
      | _ => Fault
      end
  end.

(** [while ((mlen -= 2 * k) >= 0) { k additions }]; the result has the final
    value of [mlen]. *)
Fixpoint unrolled (fuel k : nat) (w : list Z) (sum mlen : Z) : outcome (list Z * Z * Z) :=
  match fuel with
  | O => Fault
  | S fuel =>
      let mlen := mlen - 2 * Z.of_nat k in
      if mlen >=? 0 then
        '(w, sum) ← add_words k w sum;
        unrolled fuel k w sum mlen
      else Ret (w, sum, mlen)
  end.

(** What the loop over the mbufs carries: [s_util.c[0]] is [c0]. *)
Record ck := Ck { sum : Z; mlen : Z; c0 : Z; len : Z }.

(** What follows the unrolled loops. *)
Definition cksum_tail (byte_swapped : bool) (c0 len : Z) (w : list Z) (sum mlen : Z) : outcome ck :=
  if (mlen =? 0) && negb byte_swapped then Ret (Ck sum mlen c0 len)
  else
    let sum := REDUCE sum in
    '(w, sum, mlen) ← unrolled (S (length w)) 1 w sum mlen;
    if byte_swapped then
      let sum := u32 (Z.shiftl (REDUCE sum) 8) in
      if mlen =? -1 then
        match w with
        | b :: _ => Ret (Ck (u32 (sum + word c0 b)) 0 c0 len)
        | [] => Fault
        end
      else Ret (Ck sum (-1) c0 len)
    else if mlen =? -1 then
      match w with
      | b :: _ => Ret (Ck sum mlen b len)
      | [] => Fault
      end
    else Ret (Ck sum mlen c0 len).

(** The body of the loop once [w] and [mlen] are set; [odd] says whether the
    address [w] is. *)
Definition cksum_body (w : list Z) (odd : bool) (s : ck) : outcome ck :=
  '(w, sum, mlen, c0, byte_swapped) ←
    (if odd && (mlen s >? 0)
     then match w with
          | b :: w => Ret (w, u32 (Z.shiftl (REDUCE (sum s)) 8), mlen s - 1, b, true)
          | [] => Fault
          end
     else Ret (w, sum s, mlen s, c0 s, false));
  '(w, sum, mlen) ← unrolled (S (length w)) 16 w sum mlen;
  '(w, sum, mlen) ← unrolled (S (length w)) 4 w sum (mlen + 32);
  cksum_tail byte_swapped c0 (len s) w sum (mlen + 8).

(** One mbuf with data [d] at an address that is odd or not. *)
Definition cksum_mbuf (d : list Z) (odd : bool) (s : ck) : outcome ck :=
  let m_len := Z.of_nat (length d) in
  if m_len =? 0 then Ret s
  else
    '(w, odd, s) ←
      (if mlen s =? -1 then
         match d with
         | b :: w => Ret (w, negb odd, Ck (u32 (sum s + word (c0 s) b)) (m_len - 1) (c0 s) (len s - 1))
         | [] => Fault
         end
       else Ret (d, odd, Ck (sum s) m_len (c0 s) (len s)));
    let mlen := if len s <? mlen s then len s else mlen s in
    cksum_body w odd (Ck (sum s) mlen (c0 s) (len s - mlen)).

Fixpoint cksum_loop (st : mstate) (m : chain) (s : ck) : outcome ck :=
  match m with
  | [] => Ret s
  | m0 :: r =>
      if len s =? 0 then Ret s
      else
        d ← mread st m0 0 (m_len m0);
        s ← cksum_mbuf d (Z.odd (m_off m0)) s;
        cksum_loop st r s
  end.

(** The checksum and whether "cksum: out of data" was printed; [junk] is the
    uninitialised byte of [s_util]. *)
Definition in_cksum_c (st : mstate) (m : chain) (len0 junk : Z) : outcome (Z * bool) :=
  s ← cksum_loop st m (Ck 0 0 junk len0);
  let sum := if mlen s =? -1 then u32 (sum s + word (c0 s) 0) else sum s in
  Ret (Z.land (Z.lnot (REDUCE sum)) 0xffff, negb (len s =? 0)).

(** ** Specification: the one's complement sum of the 16-bit words *)

(** The weight of a byte at an even or odd offset. *)
Definition wt (even : bool) (b : Z) : Z := if Bool.eqb big even then 256 * b else b.

(** The sum of the words of [l], an odd byte at the end padded with zero. *)
Fixpoint bsum (even : bool) (l : list Z) : Z :=
  match l with
  | [] => 0
  | b :: r => wt even b + bsum (negb even) r
  end.

(** Folding with end-around carry: a positive sum gives 1 .. 65535. *)
Definition fold16 (n : Z) : Z := if n =? 0 then 0 else (n - 1) mod 65535 + 1.
Definition cksum_spec (l : list Z) : Z := 65535 - fold16 (bsum true l).

Definition bytes (l : list Z) : Prop := Forall (fun b => 0 <= b < 256) l.

Definition eqv (a b : Z) : Prop := fold16 a = fold16 b.

#[local] Instance eqv_equiv : Equivalence eqv.
Proof. split; unfold eqv; [done|by intros ? ? ->|by intros ? ? ? -> ->]. Qed.

Lemma fold16_iff a b : 0 <= a -> 0 <= b ->
  (eqv a b <-> a mod 65535 = b mod 65535 /\ (a = 0 <-> b = 0)).
Proof.
  intros Ha Hb. unfold eqv, fold16.
  pose proof (Z.mod_pos_bound (a - 1) 65535 ltac:(lia)).
  pose proof (Z.mod_pos_bound (b - 1) 65535 ltac:(lia)).
  destruct (Z.eqb_spec a 0) as [->|Ha0], (Z.eqb_spec b 0) as [->|Hb0]; try (split; lia).
  split; [intros Heq; split; [|lia]|intros [Heq _]]; zdiv.
Qed.

Lemma eqv_add a b c : 0 <= a -> 0 <= b -> 0 <= c -> eqv a b -> eqv (a + c) (b + c).
Proof.
  intros Ha Hb Hc. rewrite !fold16_iff by lia. intros [H1 H2]. split; [|lia].
  rewrite <- Zplus_mod_idemp_l, H1. by rewrite Zplus_mod_idemp_l.
Qed.

Lemma eqv_shift a b : 0 <= a -> 0 <= b -> eqv a b -> eqv (256 * a) (256 * b).
Proof.
  intros Ha Hb. rewrite !fold16_iff by lia. intros [H1 H2]. split; [|lia].
  rewrite <- Zmult_mod_idemp_r, H1. by rewrite Zmult_mod_idemp_r.
Qed.

Lemma REDUCE_ok s : 0 <= s < 4294967296 -> 0 <= REDUCE s <= 65535 /\ eqv (REDUCE s) s.
Proof.
  intros Hs. unfold REDUCE. assert (Z.land s 65535 = s mod 65536) as -> by (by apply (Z.land_ones s 16)).
  rewrite Z.shiftr_div_pow2 by lia. change (2 ^ 16) with 65536.
  bcase; (split; [zdiv|]); (rewrite fold16_iff by zdiv); split; zdiv.
Qed.

Lemma wt_range e b : 0 <= b < 256 -> 0 <= wt e b <= 65280.
Proof. unfold wt. destruct (Bool.eqb big e); lia. Qed.

Lemma word_wt a b : word a b = wt true a + wt false b.
Proof. unfold word, wt. destruct big; cbn; lia. Qed.

Lemma bsum_app l1 : forall e l2,
  bsum e (l1 ++ l2) = bsum e l1 + bsum (if Nat.odd (length l1) then negb e else e) l2.
Proof.
  induction l1 as [|b l1 IH]; intros e l2; cbn [bsum app length]; [done|].
  rewrite IH, Nat.odd_succ, <- Nat.negb_odd. destruct (Nat.odd (length l1)); cbn;
    rewrite ?negb_involutive; lia.
Qed.

Lemma bsum_nonneg l : forall e, bytes l -> 0 <= bsum e l.
Proof.
  induction l as [|b l IH]; intros e H; cbn; [lia|]. apply Forall_cons in H as [Hb H].
  pose proof (wt_range e b Hb). specialize (IH (negb e) H). lia.
Qed.

Lemma bsum_swap l : forall e, bytes l -> eqv (256 * bsum e l) (bsum (negb e) l).
Proof.
  intros e H. apply fold16_iff; [pose proof (bsum_nonneg l e H); lia|by apply bsum_nonneg|].
  revert e. induction H as [|b l Hb H IH]; intros e; [done|]. cbn [bsum]. specialize (IH (negb e)).
  pose proof (bsum_nonneg l (negb e) H). rewrite negb_involutive in *.
  pose proof (bsum_nonneg l e H). pose proof (wt_range e b Hb). pose proof (wt_range (negb e) b Hb).
  assert (exists q, 256 * wt e b = wt (negb e) b + 65535 * q) as [q Hq].
  { unfold wt. destruct big, e; cbn; (exists 0; lia) || (exists b; lia). }
  assert (wt e b = 0 <-> wt (negb e) b = 0) by (unfold wt; destruct big, e; cbn; lia).
  destruct IH as [I1 I2]. split; [|lia]. zdiv.
Qed.

(** Two bytes weigh at most 65535. *)
Lemma bsum_bound n : forall l e, bytes l -> length l = (2 * n)%nat ->
  bsum e l <= 65535 * Z.of_nat n.
Proof.
  induction n as [|n IH]; intros l e H Hl; [by destruct l|].
  destruct l as [|a [|b l]]; cbn in Hl; try lia.
  apply Forall_cons in H as [Ha H]. apply Forall_cons in H as [Hb H].
  cbn [bsum]. rewrite negb_involutive. specialize (IH l e H ltac:(lia)).
  assert (wt e a + wt (negb e) b <= 65535) by (unfold wt; destruct big, e; cbn; lia). lia.
Qed.

Lemma even_double k : Nat.odd (2 * k) = false.
Proof. rewrite Nat.odd_mul. done. Qed.

Lemma bytes_take n l : bytes l -> bytes (take n l).
Proof. apply Forall_take. Qed.
Lemma bytes_drop n l : bytes l -> bytes (drop n l).
Proof. apply Forall_drop. Qed.

Lemma bsum_take a b w : (2 * a <= length w)%nat ->
  bsum true (take (2 * a + b) w) = bsum true (take (2 * a) w) + bsum true (take b (drop (2 * a) w)).
Proof.
  intros Ha. rewrite <- (take_take_drop w (2 * a) b), bsum_app. rewrite length_take_le by lia.
  by rewrite even_double.
Qed.

Lemma add_words_ok n : forall w s, bytes w -> (2 * n <= length w)%nat -> 0 <= s ->
  s + 65535 * Z.of_nat n < 4294967296 ->
  add_words n w s = Ret (drop (2 * n) w, s + bsum true (take (2 * n) w)).
Proof.
  induction n as [|n IH]; intros w s Hw Hl Hs Hb.
  - cbn. by rewrite Z.add_0_r, drop_0.
  - destruct w as [|a [|b w]]; cbn in Hl; try lia. cbn [add_words].
    apply Forall_cons in Hw as [Ha Hw]. apply Forall_cons in Hw as [Hb' Hw].
    pose proof (wt_range true a Ha). pose proof (wt_range false b Hb').
    assert (wt true a + wt false b <= 65535) by (unfold wt; destruct big; cbn; lia).
    rewrite word_wt, u32_small by lia. rewrite IH by (done || lia).
    replace (2 * S n)%nat with (S (S (2 * n))) by lia. cbn [drop take bsum negb].
    f_equal. f_equal. lia.
Qed.

Lemma unrolled_ok k : (0 < k)%nat -> forall fuel w s n, bytes w -> 0 <= n <= Z.of_nat (length w) ->
  n < Z.of_nat fuel -> 0 <= s -> s + 32768 * n < 4294967296 ->
  exists a, Z.of_nat (2 * a) <= n < Z.of_nat (2 * a) + 2 * Z.of_nat k /\
    unrolled fuel k w s n = Ret (drop (2 * a) w, s + bsum true (take (2 * a) w),
                                 n - Z.of_nat (2 * a) - 2 * Z.of_nat k).
Proof.
  intros Hk. induction fuel as [|fuel IH]; intros w s n Hw Hn Hf Hs Hb; [lia|].
  cbn [unrolled]. rewrite Z.geb_leb. destruct (Z.leb_spec 0 (n - 2 * Z.of_nat k)).
  - rewrite add_words_ok by (done || lia). bind.
    assert (Hlt : length (take (2 * k) w) = (2 * k)%nat) by (rewrite length_take; lia).
    pose proof (bsum_bound k (take (2 * k) w) true (bytes_take _ _ Hw) Hlt).
    pose proof (bsum_nonneg (take (2 * k) w) true (bytes_take _ _ Hw)).
    destruct (IH (drop (2 * k) w) (s + bsum true (take (2 * k) w)) (n - 2 * Z.of_nat k))
      as (a & Ha & ->); [by apply bytes_drop|rewrite length_drop; lia|lia|lia|lia|].
    exists (k + a)%nat. split; [lia|]. rewrite drop_drop.
    replace (2 * (k + a))%nat with (2 * k + 2 * a)%nat by lia.
    rewrite bsum_take by lia. f_equal. f_equal; [f_equal|]; lia.
  - exists O. split; [lia|]. change (2 * 0)%nat with O. rewrite drop_0. cbn [take bsum Z.of_nat].
    by rewrite Z.add_0_r, Z.sub_0_r.
Qed.

(** The unrolled loops together: what is left is shorter than eight bytes. *)
Lemma two_loops w s n : bytes w -> 0 <= n <= Z.of_nat (length w) -> 0 <= s ->
  s + 32768 * n < 4294967296 ->
  exists a, Z.of_nat (2 * a) <= n < Z.of_nat (2 * a) + 8 /\
    forall B (f : list Z -> Z -> Z -> outcome B),
    ('(w1, s1, m1) ← unrolled (S (length w)) 16 w s n;
     '(w2, s2, m2) ← unrolled (S (length w1)) 4 w1 s1 (m1 + 32);
     f w2 s2 (m2 + 8)) =
    f (drop (2 * a) w) (s + bsum true (take (2 * a) w)) (n - Z.of_nat (2 * a)).
Proof.
  intros Hw Hn Hs Hb.
  destruct (unrolled_ok 16 ltac:(lia) (S (length w)) w s n) as (a & Ha & E1); auto; [lia|].
  assert (Hlt : length (take (2 * a) w) = (2 * a)%nat) by (rewrite length_take; lia).
  pose proof (bsum_bound a (take (2 * a) w) true (bytes_take _ _ Hw) Hlt).
  pose proof (bsum_nonneg (take (2 * a) w) true (bytes_take _ _ Hw)).
  destruct (unrolled_ok 4 ltac:(lia) (S (length (drop (2 * a) w))) (drop (2 * a) w)
    (s + bsum true (take (2 * a) w)) (n - Z.of_nat (2 * a))) as (b & Hb' & E2);
    [by apply bytes_drop|rewrite length_drop; lia|rewrite length_drop; lia|lia|lia|].
  exists (a + b)%nat. split; [lia|]. intros B f. rewrite E1. bind.
  replace (n - Z.of_nat (2 * a) - 2 * Z.of_nat 16 + 32) with (n - Z.of_nat (2 * a)) by lia.
  rewrite E2. bind. rewrite drop_drop. replace (2 * (a + b))%nat with (2 * a + 2 * b)%nat by lia.
  rewrite bsum_take by lia. f_equal; lia.
Qed.

(** ** The loop invariant

    After the bytes [P], a pending odd byte is in [c0] with [mlen = -1]. *)
Definition pend (s : ck) : Z := if mlen s =? -1 then wt true (c0 s) else 0.

Definition inv (P : list Z) (s : ck) : Prop :=
  Nat.odd (length P) = (mlen s =? -1) /\ 0 <= sum s /\
  sum s <= 33554432 + 32768 * (Z.of_nat (length P) - if mlen s =? -1 then 1 else 0) /\
  (mlen s = -1 -> 0 <= c0 s < 256) /\ eqv (sum s + pend s) (bsum true P).

Lemma take_odd_last (w : list Z) n : Z.of_nat n < Z.of_nat (length w) -> exists b r,
  drop n w = b :: r /\ take (S n) w = take n w ++ [b].
Proof.
  intros H. destruct (drop n w) as [|b r] eqn:E.
  - apply (f_equal length) in E. rewrite length_drop in E. cbn in E. lia.
  - exists b, r. split; [done|]. replace (S n) with (n + 1)%nat by lia.
    rewrite <- take_take_drop, E. done.
Qed.

Lemma inv_even P s : Nat.odd (length P) = false -> mlen s <> -1 -> 0 <= sum s ->
  sum s <= 33554432 + 32768 * Z.of_nat (length P) -> eqv (sum s) (bsum true P) -> inv P s.
Proof.
  intros H1 H2 H3 H4 H5. unfold inv, pend. destruct (Z.eqb_spec (mlen s) (-1)); [done|].
  rewrite Z.add_0_r. splits; auto; lia.
Qed.

Lemma inv_odd P s : Nat.odd (length P) = true -> mlen s = -1 -> 0 <= c0 s < 256 -> 0 <= sum s ->
  sum s <= 33554432 + 32768 * (Z.of_nat (length P) - 1) ->
  eqv (sum s + wt true (c0 s)) (bsum true P) -> inv P s.
Proof.
  intros H1 H2 H3 H4 H5 H6. unfold inv, pend. rewrite H2. cbn. by splits.
Qed.

(** What the last loop (one word at a time) leaves. *)
Lemma last_loop w s r : bytes w -> 0 <= r < 8 -> r <= Z.of_nat (length w) -> 0 <= s <= 65535 ->
  exists a, (Z.of_nat (2 * a) = r \/ Z.of_nat (2 * a) + 1 = r) /\
    unrolled (S (length w)) 1 w s r =
      Ret (drop (2 * a) w, s + bsum true (take (2 * a) w), r - Z.of_nat (2 * a) - 2).
Proof.
  intros Hw Hr Hl Hs.
  destruct (unrolled_ok 1 ltac:(lia) (S (length w)) w s r) as (a & Ha & E);
    [done|lia|lia|lia|lia|].
  exists a. split; [lia|]. by rewrite E.
Qed.

Lemma odd_app (P Q : list Z) : Nat.odd (length (P ++ Q)) = xorb (Nat.odd (length P)) (Nat.odd (length Q)).
Proof. by rewrite length_app, Nat.odd_add. Qed.

Lemma odd_double k : Nat.odd (S (2 * k)) = true.
Proof. by rewrite Nat.odd_succ, <- Nat.negb_odd, even_double. Qed.

(** The loop body on aligned data. *)
Lemma body_plain P w s : Nat.odd (length P) = false -> bytes P -> bytes w ->
  0 <= mlen s <= Z.of_nat (length w) -> 0 <= sum s <= 33554432 + 32768 * Z.of_nat (length P) ->
  Z.of_nat (length P) + mlen s <= 65536 -> eqv (sum s) (bsum true P) ->
  exists s', cksum_body w false s = Ret s' /\ len s' = len s /\
    inv (P ++ take (Z.to_nat (mlen s)) w) s'.
Proof.
  intros HP HbP Hw Hm Hs Hle Heq. unfold cksum_body. cbn [andb]. bind.
  destruct (two_loops w (sum s) (mlen s) Hw Hm ltac:(lia) ltac:(lia)) as (a & Ha & Hloops).
  rewrite (Hloops _ (cksum_tail false (c0 s) (len s))). clear Hloops.
  unfold cksum_tail. rewrite andb_true_r.
  assert (HlA : length (take (2 * a) w) = (2 * a)%nat) by (rewrite length_take; lia).
  pose proof (bsum_bound a _ true (bytes_take (2 * a) w Hw) HlA) as HbA.
  pose proof (bsum_nonneg _ true (bytes_take (2 * a) w Hw)) as HnA.
  pose proof (bsum_nonneg _ true HbP) as HnP.
  set (A := bsum true (take (2 * a) w)) in *.
  assert (HeqA : eqv (sum s + A) (bsum true P + A)) by (apply eqv_add; auto; lia).
  destruct (Z.eqb_spec (mlen s - Z.of_nat (2 * a)) 0) as [Hz|Hnz].
  - eexists. split; [done|]. split; [done|].
    replace (Z.to_nat (mlen s)) with (2 * a)%nat by lia.
    apply inv_even; cbn [mlen sum].
    + by rewrite odd_app, HP, HlA, even_double.
    + lia.
    + lia.
    + rewrite length_app, HlA. lia.
    + by rewrite bsum_app, HP.
  - destruct (REDUCE_ok (sum s + A)) as [HR1 HR2]; [lia|].
    destruct (last_loop (drop (2 * a) w) (REDUCE (sum s + A)) (mlen s - Z.of_nat (2 * a)))
      as (b & Hb & E); [by apply bytes_drop|lia|rewrite length_drop; lia|done|].
    rewrite E. bind. rewrite drop_drop.
    assert (HlB : length (take (2 * b) (drop (2 * a) w)) = (2 * b)%nat)
      by (rewrite length_take, length_drop; lia).
    pose proof (bsum_bound b _ true (bytes_take (2 * b) _ (bytes_drop (2 * a) _ Hw)) HlB) as HbB.
    pose proof (bsum_nonneg _ true (bytes_take (2 * b) _ (bytes_drop (2 * a) _ Hw))) as HnB.
    set (B := bsum true (take (2 * b) (drop (2 * a) w))) in *.
    assert (HAB : bsum true (take (2 * a + 2 * b) w) = A + B) by (unfold A, B; apply bsum_take; lia).
    assert (HlAB : length (take (2 * a + 2 * b) w) = (2 * (a + b))%nat) by (rewrite length_take; lia).
    assert (HeqB : eqv (REDUCE (sum s + A) + B) (bsum true P + (A + B))).
    { transitivity (sum s + A + B); [apply eqv_add; auto; lia|].
      rewrite Z.add_assoc. apply eqv_add; auto; lia. }
    destruct Hb as [Hb|Hb].
    + destruct (Z.eqb_spec (mlen s - Z.of_nat (2 * a) - Z.of_nat (2 * b) - 2) (-1)); [lia|].
      eexists. split; [done|]. split; [done|].
      replace (Z.to_nat (mlen s)) with (2 * a + 2 * b)%nat by lia.
      apply inv_even; cbn [mlen sum].
      * by rewrite odd_app, HP, HlAB, even_double.
      * lia.
      * lia.
      * rewrite length_app, HlAB. lia.
      * by rewrite bsum_app, HP, HAB.
    + destruct (Z.eqb_spec (mlen s - Z.of_nat (2 * a) - Z.of_nat (2 * b) - 2) (-1)); [|lia].
      destruct (take_odd_last w (2 * a + 2 * b)) as (x & r & Ex & Et); [lia|]. rewrite Ex.
      eexists. split; [done|]. split; [done|].
      replace (Z.to_nat (mlen s)) with (S (2 * a + 2 * b)) by lia. rewrite Et.
      assert (0 <= x < 256).
      { pose proof (bytes_drop (2 * a + 2 * b) w Hw) as Hd. rewrite Ex in Hd.
        by apply Forall_cons in Hd as [Hd _]. }
      pose proof (wt_range true x ltac:(lia)).
      apply inv_odd; cbn [mlen sum c0]; auto.
      * rewrite !odd_app, HP, HlAB, even_double. done.
      * lia.
      * rewrite !length_app, HlAB. cbn [length]. lia.
      * rewrite !bsum_app, HP, HlAB, even_double, HAB. cbn [bsum]. rewrite Z.add_0_r, Z.add_assoc.
        apply eqv_add; auto; lia.
Qed.

Lemma eqv_65536 a : 0 <= a -> eqv (256 * (256 * a)) a.
Proof. intros H. apply fold16_iff; [lia|lia|]. split; [zdiv|lia]. Qed.

Lemma eqv_add_l a b c : 0 <= a -> 0 <= b -> 0 <= c -> eqv a b -> eqv (c + a) (c + b).
Proof. intros. rewrite !(Z.add_comm c). by apply eqv_add. Qed.

Lemma shl8_ok s : 0 <= s <= 65535 -> u32 (Z.shiftl s 8) = 256 * s.
Proof. intros. rewrite Z.shiftl_mul_pow2 by lia. rewrite u32_small; lia. Qed.

(** The loop body on data at an odd address: the first byte is kept, the words
    are summed byte-swapped, and the sum is swapped back. *)
Lemma body_swapped P b0 w s : Nat.odd (length P) = false -> bytes P -> bytes (b0 :: w) ->
  0 < mlen s <= Z.of_nat (length (b0 :: w)) ->
  0 <= sum s <= 33554432 + 32768 * Z.of_nat (length P) ->
  Z.of_nat (length P) + mlen s <= 65536 -> eqv (sum s) (bsum true P) ->
  exists s', cksum_body (b0 :: w) true s = Ret s' /\ len s' = len s /\
    inv (P ++ take (Z.to_nat (mlen s)) (b0 :: w)) s'.
Proof.
  intros HP HbP Hw Hm Hs Hle Heq. unfold cksum_body. cbn [andb]. rewrite Z.gtb_ltb.
  destruct (Z.ltb_spec 0 (mlen s)); [|lia]. bind. cbn [length] in Hm.
  apply Forall_cons in Hw as [Hb0 Hw].
  destruct (REDUCE_ok (sum s)) as [HR0 HR0']; [lia|]. rewrite shl8_ok by done.
  set (R0 := REDUCE (sum s)) in *.
  destruct (two_loops w (256 * R0) (mlen s - 1) Hw ltac:(lia) ltac:(lia) ltac:(lia)) as (a & Ha & Hloops).
  rewrite (Hloops _ (cksum_tail true b0 (len s))). clear Hloops.
  unfold cksum_tail. rewrite andb_false_r.
  assert (HlA : length (take (2 * a) w) = (2 * a)%nat) by (rewrite length_take; lia).
  pose proof (bsum_bound a _ true (bytes_take (2 * a) w Hw) HlA) as HbA.
  pose proof (bsum_nonneg _ true (bytes_take (2 * a) w Hw)) as HnA.
  pose proof (bsum_nonneg _ true HbP) as HnP.
  set (A := bsum true (take (2 * a) w)) in *.
  destruct (REDUCE_ok (256 * R0 + A)) as [HR1 HR1']; [lia|]. set (R1 := REDUCE (256 * R0 + A)) in *.
  destruct (last_loop (drop (2 * a) w) R1 (mlen s - 1 - Z.of_nat (2 * a)))
    as (b & Hb & E); [by apply bytes_drop|lia|rewrite length_drop; lia|done|].
  rewrite E. bind. rewrite drop_drop.
  assert (HlB : length (take (2 * b) (drop (2 * a) w)) = (2 * b)%nat)
    by (rewrite length_take, length_drop; lia).
  pose proof (bsum_bound b _ true (bytes_take (2 * b) _ (bytes_drop (2 * a) _ Hw)) HlB) as HbB.
  pose proof (bsum_nonneg _ true (bytes_take (2 * b) _ (bytes_drop (2 * a) _ Hw))) as HnB.
  set (B := bsum true (take (2 * b) (drop (2 * a) w))) in *.
  set (T := take (2 * a + 2 * b) w) in *.
  assert (HT : bsum true T = A + B) by (unfold T, A, B; apply bsum_take; lia).
  assert (HlT : length T = (2 * (a + b))%nat) by (unfold T; rewrite length_take; lia).
  assert (HbT : bytes T) by (by apply bytes_take).
  pose proof (bsum_nonneg T false HbT) as HnT.
  destruct (REDUCE_ok (R1 + B)) as [HR2 HR2']; [lia|]. set (R2 := REDUCE (R1 + B)) in *.
  rewrite shl8_ok by done.
  assert (HR : eqv (256 * R2) (bsum true P + bsum false T)).
  { transitivity (256 * (256 * bsum true P + (A + B))).
    - apply eqv_shift; [lia|lia|]. transitivity (R1 + B); [done|].
      transitivity (256 * R0 + A + B); [apply eqv_add; auto; lia|].
      rewrite Z.add_assoc. apply eqv_add; [lia|lia|lia|]. apply eqv_add; [lia|lia|lia|].
      apply eqv_shift; [lia|lia|]. by transitivity (sum s).
    - rewrite Z.mul_add_distr_l. transitivity (bsum true P + 256 * (A + B)).
      + apply eqv_add; [lia|lia|lia|]. apply eqv_65536. lia.
      + apply eqv_add_l; [lia|lia|lia|]. rewrite <- HT. by apply bsum_swap. }
  pose proof (wt_range true b0 Hb0).
  destruct Hb as [Hb|Hb].
  - destruct (Z.eqb_spec (mlen s - 1 - Z.of_nat (2 * a) - Z.of_nat (2 * b) - 2) (-1)); [lia|].
    eexists. split; [done|]. split; [done|].
    replace (Z.to_nat (mlen s)) with (S (2 * a + 2 * b)) by lia. cbn [take]. fold T.
    apply inv_odd; cbn [mlen sum c0]; auto.
    + rewrite odd_app, HP. cbn [length]. by rewrite HlT, odd_double.
    + lia.
    + rewrite length_app. cbn [length]. lia.
    + rewrite bsum_app, HP. cbn [bsum negb].
      rewrite (Z.add_comm (wt true b0)), Z.add_assoc. apply eqv_add; auto; lia.
  - destruct (Z.eqb_spec (mlen s - 1 - Z.of_nat (2 * a) - Z.of_nat (2 * b) - 2) (-1)); [|lia].
    destruct (take_odd_last w (2 * a + 2 * b)) as (x & r & Ex & Et); [lia|]. rewrite Ex.
    assert (0 <= x < 256).
    { pose proof (bytes_drop (2 * a + 2 * b) w Hw) as Hd. rewrite Ex in Hd.
      by apply Forall_cons in Hd as [Hd _]. }
    pose proof (wt_range false x ltac:(lia)).
    rewrite word_wt, u32_small by lia. eexists. split; [done|]. split; [done|].
    replace (Z.to_nat (mlen s)) with (S (S (2 * a + 2 * b))) by lia.
    change (take (S (S (2 * a + 2 * b))) (b0 :: w)) with (b0 :: take (S (2 * a + 2 * b)) w).
    rewrite Et. fold T. apply inv_even; cbn [mlen sum].
    + rewrite odd_app, HP. cbn [length]. rewrite length_app, HlT. cbn [length].
      rewrite Nat.add_1_r. change (S (S (2 * (a + b)))) with (2 + (2 * (a + b)))%nat.
      by rewrite Nat.odd_add, even_double.
    + lia.
    + lia.
    + rewrite length_app. cbn [length]. lia.
    + rewrite bsum_app, HP. cbn [bsum negb]. rewrite bsum_app, HlT, even_double. cbn [bsum].
      replace (bsum true P + (wt true b0 + (bsum false T + (wt false x + 0))))
        with (bsum true P + bsum false T + (wt true b0 + wt false x)) by lia.
      apply eqv_add; auto; lia.
Qed.

Lemma body_ok P w odd s : Nat.odd (length P) = false -> bytes P -> bytes w ->
  0 <= mlen s <= Z.of_nat (length w) -> 0 <= sum s <= 33554432 + 32768 * Z.of_nat (length P) ->
  Z.of_nat (length P) + mlen s <= 65536 -> eqv (sum s) (bsum true P) ->
  exists s', cksum_body w odd s = Ret s' /\ len s' = len s /\
    inv (P ++ take (Z.to_nat (mlen s)) w) s'.
Proof.
  intros HP HbP Hw Hm Hs Hle Heq. destruct odd; [|by apply body_plain].
  destruct (Z.ltb_spec 0 (mlen s)) as [Hpos|Hz].
  - destruct w as [|b0 w]; [cbn in Hm; lia|]. apply body_swapped; auto. lia.
  - assert (cksum_body w true s = cksum_body w false s) as ->.
    { unfold cksum_body. cbn [andb]. rewrite Z.gtb_ltb. by rewrite (proj2 (Z.ltb_ge 0 (mlen s)) Hz). }
    by apply body_plain.
Qed.

Lemma cksum_mbuf_ok P d odd s : bytes P -> bytes d -> inv P s -> 0 < len s ->
  Z.of_nat (length P) + len s <= 65535 ->
  exists s', cksum_mbuf d odd s = Ret s' /\ inv (P ++ take (Z.to_nat (len s)) d) s' /\
    len s' = len s - Z.min (len s) (Z.of_nat (length d)).
Proof.
  intros HbP Hd Hinv Hlen Hmax. pose proof Hinv as (I1 & I2 & I3 & I4 & I5). unfold cksum_mbuf.
  destruct d as [|b d]; [exists s; rewrite take_nil, app_nil_r; cbn; splits; auto; lia|].
  destruct (Z.eqb_spec (Z.of_nat (length (b :: d))) 0); [cbn in *; lia|].
  pose proof (bsum_nonneg P true HbP). unfold pend in I5.
  destruct (Z.eqb_spec (mlen s) (-1)) as [Hm|Hm].
  - bind. cbn [mlen len c0 sum length]. specialize (I4 Hm).
    apply Forall_cons in Hd as [Hb Hd].
    pose proof (wt_range true (c0 s) I4). pose proof (wt_range false b Hb).
    assert (wt true (c0 s) + wt false b <= 65535) by (unfold wt; destruct big; cbn; lia).
    rewrite word_wt, u32_small by lia.
    set (ml := if len s - 1 <? Z.of_nat (S (length d)) - 1 then len s - 1
               else Z.of_nat (S (length d)) - 1).
    assert (Hml : ml = Z.min (len s - 1) (Z.of_nat (length d))) by (unfold ml; bcase; lia).
    destruct (body_ok (P ++ [b]) d (negb odd)
      (Ck (sum s + (wt true (c0 s) + wt false b)) ml (c0 s) (len s - 1 - ml)))
      as (s' & E & El & Ei); cbn [mlen sum]; auto.
    + by rewrite odd_app, I1.
    + apply Forall_app. split; [done|]. by apply Forall_cons.
    + lia.
    + rewrite length_app. cbn [length]. lia.
    + rewrite length_app. cbn [length]. lia.
    + rewrite bsum_app, I1. cbn [bsum negb]. rewrite Z.add_0_r, Z.add_assoc.
      apply eqv_add; auto; lia.
    + exists s'. split; [exact E|]. cbn [mlen] in Ei. split; [|rewrite El; cbn [len]; lia].
      rewrite <- app_assoc in Ei. cbn [app] in Ei.
      replace (Z.to_nat (len s)) with (S (Z.to_nat (len s - 1))) by lia. cbn [take].
      destruct (Z.le_gt_cases (len s - 1) (Z.of_nat (length d))).
      * replace ml with (len s - 1) in Ei by lia. exact Ei.
      * rewrite take_ge in Ei by lia. by rewrite take_ge by lia.
  - bind. cbn [mlen len c0 sum]. rewrite Z.add_0_r, Z.sub_0_r in *.
    set (ml := if len s <? Z.of_nat (length (b :: d)) then len s else Z.of_nat (length (b :: d))).
    assert (Hml : ml = Z.min (len s) (Z.of_nat (length (b :: d)))) by (unfold ml; bcase; lia).
    destruct (body_ok P (b :: d) odd (Ck (sum s) ml (c0 s) (len s - ml))) as (s' & E & El & Ei);
      cbn [mlen sum]; auto; [lia|lia|].
    exists s'. split; [exact E|]. cbn [mlen] in Ei. split; [|rewrite El; cbn [len]; lia].
    destruct (Z.le_gt_cases (len s) (Z.of_nat (length (b :: d)))).
    + replace ml with (len s) in Ei by lia. exact Ei.
    + rewrite take_ge in Ei by lia. by rewrite take_ge by lia.
Qed.

Lemma cksum_loop_ok st : forall m P s, Forall (wf st) m -> bytes P -> bytes (cdata st m) -> inv P s ->
  0 <= len s -> Z.of_nat (length P) + len s <= 65535 ->
  exists s', cksum_loop st m s = Ret s' /\ inv (P ++ take (Z.to_nat (len s)) (cdata st m)) s' /\
    len s' = len s - Z.min (len s) (chain_len m).
Proof.
  induction m as [|m0 r IH]; intros P s Hwf HP Hm Hinv Hl Hmax.
  - exists s. unfold cdata. cbn. rewrite take_nil, app_nil_r. splits; auto; lia.
  - apply Forall_cons in Hwf as [H0 Hr]. rewrite chain_len_cons, cdata_cons in *.
    apply Forall_app in Hm as [Hm0 Hm]. pose proof (data_length st m0 H0) as Hdl.
    pose proof (chain_len_nonneg st r Hr). cbn [cksum_loop].
    destruct (Z.eqb_spec (len s) 0) as [Hz|Hz].
    { exists s. rewrite Hz. cbn. rewrite app_nil_r. splits; auto; lia. }
    rewrite (mread_ok st m0 0) by (auto; lia). bind. rewrite slice_all by lia.
    change (Z.to_nat 0) with O. rewrite drop_0.
    destruct (cksum_mbuf_ok P (data st m0) (Z.odd (m_off m0)) s) as (s1 & E & I & L); auto; [lia|].
    rewrite E. bind. rewrite Hdl in L.
    destruct (IH (P ++ take (Z.to_nat (len s)) (data st m0)) s1) as (s' & E' & I' & L'); auto.
    + apply Forall_app. split; [done|by apply bytes_take].
    + lia.
    + rewrite length_app, length_take. lia.
    + exists s'. split; [exact E'|]. split; [|lia].
      rewrite <- app_assoc in I'. rewrite take_app.
      replace (Z.to_nat (len s) - length (data st m0))%nat with (Z.to_nat (len s1)) by lia. exact I'.
Qed.

Lemma fold16_small r : 0 <= r <= 65535 -> fold16 r = r.
Proof. intros H. unfold fold16. bcase; [lia|]. rewrite Z.mod_small; lia. Qed.

Lemma lnot16 r : 0 <= r <= 65535 -> Z.land (Z.lnot r) 0xffff = 65535 - r.
Proof.
  intros H. assert (Z.land (Z.lnot r) 65535 = Z.lnot r mod 65536) as -> by (by apply (Z.land_ones _ 16)).
  unfold Z.lnot. zdiv.
Qed.

Lemma bsum_zero l : forall e, bytes l -> (bsum e l = 0 <-> Forall (fun b => b = 0) l).
Proof.
  induction l as [|b l IH]; intros e H; [cbn; by split|]. apply Forall_cons in H as [Hb H].
  pose proof (bsum_nonneg l (negb e) H). pose proof (wt_range e b Hb).
  rewrite Forall_cons. cbn [bsum]. rewrite <- (IH (negb e) H).
  assert (wt e b = 0 <-> b = 0) by (unfold wt; destruct (Bool.eqb big e); lia). lia.
Qed.

(** A field that holds the checksum of the data around it. *)
Lemma cksum_verify_list pre post x y : bytes (pre ++ [x; y] ++ post) -> Nat.odd (length pre) = false ->
  (cksum_spec (pre ++ [x; y] ++ post) = 0 <->
   word x y mod 65535 = cksum_spec (pre ++ [0; 0] ++ post) mod 65535 /\ ~ Forall (fun b => b = 0) (pre ++ [x; y] ++ post)).
Proof.
  intros Hb Hpre. rewrite <- (bsum_zero _ true Hb). pose proof (bsum_nonneg _ true Hb) as Hnn.
  assert (Hsum : bsum true (pre ++ [x; y] ++ post) = word x y + bsum true (pre ++ [0; 0] ++ post)).
  { rewrite !bsum_app, Hpre, word_wt. cbn. unfold wt. destruct big; cbn; lia. }
  assert (Hxy : 0 <= word x y <= 65535).
  { apply Forall_app in Hb as [_ Hb]. apply Forall_app in Hb as [Hb _].
    apply Forall_cons in Hb as [Hx Hb]. apply Forall_cons in Hb as [Hy _].
    unfold word. destruct big; lia. }
  assert (Hz : 0 <= bsum true (pre ++ [0; 0] ++ post)).
  { apply bsum_nonneg. apply Forall_app in Hb as [Hb1 Hb2]. apply Forall_app in Hb2 as [_ Hb2].
    apply Forall_app. split; [done|]. constructor; [lia|]. constructor; [lia|done]. }
  unfold cksum_spec, fold16. rewrite Hsum. rewrite Hsum in Hnn.
  set (T := bsum true (pre ++ [0; 0] ++ post)) in *. set (c := word x y) in *.
  clearbody c T. clear -Hxy Hz Hnn.
  destruct (Z.eqb_spec T 0), (Z.eqb_spec (c + T) 0);
    try (split; lia); try (split; [intros; split; zdiv|intros [? ?]; zdiv]).
Qed.

Lemma in_cksum_ok (st : mstate) (m : chain) (len0 junk : Z) :
  Forall (wf st) m -> bytes (cdata st m) -> 0 <= len0 <= 65535 -> 0 <= junk < 256 ->
  in_cksum_c st m len0 junk =
    Ret (cksum_spec (take (Z.to_nat len0) (cdata st m)), chain_len m <? len0).
Proof.
  intros Hwf Hb Hlen Hj. unfold in_cksum_c.
  destruct (cksum_loop_ok st m [] (Ck 0 0 junk len0)) as (s & E & (I1 & I2 & I3 & I4 & I5) & L);
    auto; cbn [length len Z.of_nat] in *; try lia; [constructor|by apply inv_even|].
  rewrite E. bind. cbn [app] in *. set (D := take (Z.to_nat len0) (cdata st m)) in *.
  assert (HlD : Z.of_nat (length D) <= 65535) by (unfold D; rewrite length_take; lia).
  assert (HbD : bytes D) by (by apply bytes_take). unfold pend in I5.
  set (S := if mlen s =? -1 then u32 (sum s + word (c0 s) 0) else sum s).
  assert (HS : 0 <= S < 4294967296 /\ eqv S (bsum true D)).
  { unfold S. destruct (Z.eqb_spec (mlen s) (-1)) as [Hm|].
    - specialize (I4 Hm). pose proof (wt_range true (c0 s) I4).
      assert (word (c0 s) 0 = wt true (c0 s)) as ->
        by (rewrite word_wt; unfold wt; destruct big; cbn; lia).
      rewrite u32_small by lia. split; [lia|done].
    - rewrite Z.add_0_r in I5. split; [lia|done]. }
  destruct HS as [HS1 HS2]. destruct (REDUCE_ok S HS1) as [HR1 HR2].
  rewrite lnot16 by done. f_equal. f_equal.
  - unfold cksum_spec. f_equal. rewrite <- (fold16_small (REDUCE S)) by done.
    change (eqv (REDUCE S) (bsum true D)). by transitivity S.
  - rewrite L. destruct (Z.ltb_spec (chain_len m) len0); [|].
    + destruct (Z.eqb_spec (len0 - Z.min len0 (chain_len m)) 0); [lia|done].
    + destruct (Z.eqb_spec (len0 - Z.min len0 (chain_len m)) 0); [done|lia].
Qed.

(** ** Properties *)

(** C22: in_cksum_c computes the Internet checksum.  For a well-formed chain and
    a length of at most 65535 it returns the complement of the one's complement
    sum of the 16-bit words of the first [len] bytes (an odd last byte padded
    with zero), on machines of either byte order: the result does not depend on
    how the data are split into mbufs nor on their addresses, the 32-bit sum
    never loses a carry, and no byte beyond the data is read.  "out of data" is
    reported exactly when the chain is shorter than [len]. *)
Theorem in_cksum_spec (st : mstate) (m : chain) (len0 junk : Z) :
  Forall (wf st) m -> bytes (cdata st m) -> 0 <= len0 <= 65535 -> 0 <= junk < 256 ->
  in_cksum_c st m len0 junk =
    Ret (cksum_spec (take (Z.to_nat len0) (cdata st m)), chain_len m <? len0).
Proof. apply in_cksum_ok. Qed.

(** The receiver's test.  Let [x], [y] be the bytes of a checksum field at
    an even offset of the data.  in_cksum_c over the whole returns 0 exactly
    when the field, as a 16-bit number, equals the checksum of the data with a
    zero field (up to 0 and 65535, which stand for the same sum), provided the
    data are not all zero.  In particular a packet that carries the computed
    checksum is accepted. *)
Theorem in_cksum_verify (st : mstate) (m : chain) (pre post : list Z) (x y junk : Z) :
  Forall (wf st) m -> cdata st m = pre ++ [x; y] ++ post -> bytes (cdata st m) ->
  Nat.odd (length pre) = false -> chain_len m <= 65535 -> 0 <= junk < 256 ->
  exists r, in_cksum_c st m (chain_len m) junk = Ret (r, false) /\
    (r = 0 <-> word x y mod 65535 = cksum_spec (pre ++ [0; 0] ++ post) mod 65535 /\
               ~ Forall (fun b => b = 0) (cdata st m)).
Proof.
  intros Hwf Hd Hb Hpre Hlen Hj. pose proof (cdata_length st m Hwf) as Hl.
  rewrite (in_cksum_ok st m (chain_len m) junk) by (auto; lia).
  rewrite Z.ltb_irrefl. eexists. split; [done|]. rewrite take_ge by lia. rewrite Hd in *. by apply cksum_verify_list.
Qed.

End cksum.

(** ** Witnesses *)

(** The data 69 0 0 28 | 136 5 64 0 0 | 17 ..., split at an odd offset. *)
Definition cw0 : mbuf := Mb 41 5 MT_DATA M_PKTHDR 9 1 (zeros 41 ++ [69; 0; 0; 28; 136] ++ zeros 62) 0 0.
Definition cw1 : mbuf := Mb 5 4 MT_DATA M_EXT 0 0 [] 7 16.

Lemma cw_wf : Forall (wf wst) [cw0; cw1].
Proof. repeat constructor; vm_compute; try congruence; intuition congruence. Qed.

Lemma in_cksum_spec_witness :
  in_cksum_c false wst [cw0; cw1] 9 77 = Ret (cksum_spec false [69; 0; 0; 28; 136; 4; 5; 6; 7], false) /\
  in_cksum_c false wst [cw0; cw1] 9 77 = Ret (55590, false).
Proof.
  split; [|vm_compute; reflexivity].
  rewrite (in_cksum_spec false wst [cw0; cw1] 9 77 cw_wf); [vm_compute; reflexivity| |lia|lia].
  vm_compute. repeat constructor; congruence.
Defined.

Lemma in_cksum_verify_witness :
  exists r, in_cksum_c true wst [cw0; cw1] 9 0 = Ret (r, false) /\
    (r = 0 <-> word true 0 28 mod 65535 =
       cksum_spec true [69; 0; 0; 0; 136; 4; 5; 6; 7] mod 65535 /\
       ~ Forall (fun b => b = 0) [69; 0; 0; 28; 136; 4; 5; 6; 7]).
Proof.
  apply (in_cksum_verify true wst [cw0; cw1] [69; 0] [136; 4; 5; 6; 7] 0 28 0 cw_wf);
    [vm_compute; reflexivity| |reflexivity|vm_compute; congruence|lia].
  vm_compute. repeat constructor; congruence.
Defined.

End Cksum.
