(* ===== verification/SlCompress.v ===== *)
(** TCP/IP header compression for serial lines: sys/net/slcompress.c, and from
    sys/net/if_sl.c the type the sender marks a packet with and what the receiver
    does by it.

    Packets, saved headers and the receive buffer are lists of bytes in
    network order; the positions of the fields are those of [struct ip] and
    [struct tcphdr]. *)
From stdpp Require Import base numbers list gmap strings.
From Stdlib Require Import ZArith Lia.
From S2P Require Import Prelude Mbuf Cksum.
Import Mbuf.

Module SlCompress.

(** ** Constants *)
Definition MAX_STATES : nat := 16.
Definition MAX_HDR : Z := MLEN.

Definition TYPE_IP : Z := 0x40.
Definition TYPE_UNCOMPRESSED_TCP : Z := 0x70.
Definition TYPE_COMPRESSED_TCP : Z := 0x80.

Definition NEW_C : Z := 0x40.
Definition NEW_I : Z := 0x20.
Definition TCP_PUSH_BIT : Z := 0x10.
Definition NEW_S : Z := 0x08.
Definition NEW_A : Z := 0x04.
Definition NEW_W : Z := 0x02.
Definition NEW_U : Z := 0x01.
Definition SPECIAL_I : Z := 0x0b.
Definition SPECIAL_D : Z := 0x0f.
Definition SPECIALS_MASK : Z := 0x0f.
Definition SLF_TOSS : Z := 1.
Definition IPPROTO_TCP : Z := 6.

Definition TH_FIN : Z := 0x01.
Definition TH_SYN : Z := 0x02.
Definition TH_RST : Z := 0x04.
Definition TH_PUSH : Z := 0x08.
Definition TH_ACK : Z := 0x10.
Definition TH_URG : Z := 0x20.

(** ** Fields

    Reading past the end of the list gives 0; the theorems put every field
    that matters inside it. *)
Definition b8 (l : list Z) (i : Z) : Z := l !!! Z.to_nat i.
Definition b16 (l : list Z) (i : Z) : Z := b8 l i * 256 + b8 l (i + 1).
Definition b32 (l : list Z) (i : Z) : Z := b16 l i * 65536 + b16 l (i + 2).

Definition put8 (l : list Z) (i v : Z) : list Z := <[Z.to_nat i := u8 v]> l.
Definition put16 (l : list Z) (i v : Z) : list Z := put8 (put8 l i (Z.shiftr v 8)) (i + 1) v.
Definition put32 (l : list Z) (i v : Z) : list Z := put16 (put16 l i (Z.shiftr v 16)) (i + 2) v.

Definition ip_hl (p : list Z) : Z := Z.land (b8 p 0) 0xf.
Definition ip_len (p : list Z) : Z := b16 p 2.
Definition ip_id (p : list Z) : Z := b16 p 4.
Definition ip_off (p : list Z) : Z := b16 p 6.
Definition ip_p (p : list Z) : Z := b8 p 9.
Definition ip_src (p : list Z) : Z := b32 p 12.
Definition ip_dst (p : list Z) : Z := b32 p 16.

(** TCP fields; [t] is the offset of the TCP header. *)
Definition th_seq (p : list Z) (t : Z) : Z := b32 p (t + 4).
Definition th_ack (p : list Z) (t : Z) : Z := b32 p (t + 8).
Definition th_off (p : list Z) (t : Z) : Z := Z.shiftr (b8 p (t + 12)) 4.
Definition th_flags (p : list Z) (t : Z) : Z := b8 p (t + 13).
Definition th_win (p : list Z) (t : Z) : Z := b16 p (t + 14).
Definition th_sum (p : list Z) (t : Z) : Z := b16 p (t + 16).
Definition th_urp (p : list Z) (t : Z) : Z := b16 p (t + 18).

(** ** Data *)

(** [cs_next] is the index of the next state; [cs_hdr] is the union that holds
    the saved header, MAX_HDR bytes long. *)
Record cstate := CS { cs_next : nat; cs_hlen : Z; cs_id : Z; cs_hdr : list Z }.

Record slstats := Stats {
  sls_packets : Z; sls_compressed : Z; sls_searches : Z; sls_misses : Z;
  sls_uncompressedin : Z; sls_compressedin : Z; sls_errorin : Z; sls_tossed : Z }.

Record slcompress := SL {
  last_cs : nat;
  last_recv : Z;
  last_xmit : Z;
  flags : Z;
  sls : slstats;
  tstate : list cstate;
  rstate : list cstate }.

Definition set_last_cs (c : slcompress) (i : nat) : slcompress :=
  SL i (last_recv c) (last_xmit c) (flags c) (sls c) (tstate c) (rstate c).
Definition set_last_recv (c : slcompress) (i : Z) : slcompress :=
  SL (last_cs c) i (last_xmit c) (flags c) (sls c) (tstate c) (rstate c).
Definition set_last_xmit (c : slcompress) (i : Z) : slcompress :=
  SL (last_cs c) (last_recv c) i (flags c) (sls c) (tstate c) (rstate c).
Definition set_slflags (c : slcompress) (f : Z) : slcompress :=
  SL (last_cs c) (last_recv c) (last_xmit c) f (sls c) (tstate c) (rstate c).
Definition set_tstate (c : slcompress) (t : list cstate) : slcompress :=
  SL (last_cs c) (last_recv c) (last_xmit c) (flags c) (sls c) t (rstate c).
Definition set_rstate (c : slcompress) (r : list cstate) : slcompress :=
  SL (last_cs c) (last_recv c) (last_xmit c) (flags c) (sls c) (tstate c) r.
Definition set_sls (c : slcompress) (s : slstats) : slcompress :=
  SL (last_cs c) (last_recv c) (last_xmit c) (flags c) s (tstate c) (rstate c).

Definition count (c : slcompress) (pk co se mi ui ci er to : Z) : slcompress :=
  let s := sls c in
  set_sls c (Stats (sls_packets s + pk) (sls_compressed s + co) (sls_searches s + se)
    (sls_misses s + mi) (sls_uncompressedin s + ui) (sls_compressedin s + ci)
    (sls_errorin s + er) (sls_tossed s + to)).

Definition getcs (l : list cstate) (i : nat) : outcome cstate :=
  match l !! i with Some cs => Ret cs | None => Fault end.
Definition set_next (cs : cstate) (n : nat) : cstate := CS n (cs_hlen cs) (cs_id cs) (cs_hdr cs).
Definition set_hdr (cs : cstate) (h : list Z) : cstate := CS (cs_next cs) (cs_hlen cs) (cs_id cs) h.

(** ** sl_compress_init *)
Definition sl_compress_init : slcompress :=
  let z := replicate (Z.to_nat MAX_HDR) 0 in
  SL 0 255 255 0 (Stats 0 0 0 0 0 0 0 0)
     ((fun i => CS (if (i =? 0)%nat then (MAX_STATES - 1)%nat else (i - 1)%nat) 0 (Z.of_nat i) z)
        <$> seq 0 MAX_STATES)
     (replicate MAX_STATES (CS 0 0 0 z)).

(** ** Numbers in compressed packets *)
Definition ENCODE (n : Z) : list Z :=
  if u16 n >=? 256 then [0; u8 (Z.shiftr n 8); u8 n] else [u8 n].
Definition ENCODEZ (n : Z) : list Z :=
  if (u16 n >=? 256) || (u16 n =? 0) then [0; u8 (Z.shiftr n 8); u8 n] else [u8 n].

(** The decoders read at [cp] and return the new value and [cp]; [DECODEL] and
    [DECODES] add to a 32-bit and a 16-bit field, [DECODEU] replaces one. *)
Definition decode_delta (mem : list Z) (cp : Z) : Z * Z :=
  if b8 mem cp =? 0
  then (Z.lor (Z.shiftl (b8 mem (cp + 1)) 8) (b8 mem (cp + 2)), cp + 3)
  else (b8 mem cp, cp + 1).
Definition DECODEL (mem : list Z) (cp f : Z) : Z * Z :=
  let '(d, cp) := decode_delta mem cp in (u32 (f + d), cp).
Definition DECODES (mem : list Z) (cp f : Z) : Z * Z :=
  let '(d, cp) := decode_delta mem cp in (u16 (f + d), cp).
Definition DECODEU (mem : list Z) (cp : Z) : Z * Z :=
  let '(d, cp) := decode_delta mem cp in (u16 d, cp).

(** ** sl_compress_tcp *)

(** Does state [cs] belong to the connection of packet [p], whose TCP header is
    at [4 * hlen]?  (Addresses and both ports.) *)
Definition same_conn (p : list Z) (hlen : Z) (cs : cstate) : bool :=
  (ip_src p =? ip_src (cs_hdr cs)) && (ip_dst p =? ip_dst (cs_hdr cs)) &&
  (b32 p (4 * hlen) =? b32 (cs_hdr cs) (4 * ip_hl (cs_hdr cs))).

(** The [do ... while (cs != lastcs)] search; [cs] is the state compared last.
    The result: whether one was found, [lcs], [cs] and how many were compared. *)
Fixpoint sl_search (fuel : nat) (p : list Z) (hlen : Z) (ts : list cstate) (lastcs cs : nat)
  : outcome (bool * nat * nat * Z) :=
  match fuel with
  | O => Fault
  | S fuel =>
      let lcs := cs in
      c ← getcs ts cs;
      let cs := cs_next c in
      c ← getcs ts cs;
      if same_conn p hlen c then Ret (true, lcs, cs, 1)
      else if (cs =? lastcs)%nat then Ret (false, lcs, cs, 1)
      else
        '(f, l, c, n) ← sl_search fuel p hlen ts lastcs cs;
        Ret (f, l, c, n + 1)
  end.

(** The label [found]: move state [cs], whose predecessor is [lcs], to the front. *)
Definition sl_front (comp : slcompress) (lcs cs lastcs : nat) : outcome slcompress :=
  if (cs =? lastcs)%nat then Ret (set_last_cs comp lcs)
  else
    l ← getcs (tstate comp) lcs;
    c ← getcs (tstate comp) cs;
    let ts := <[lcs := set_next l (cs_next c)]> (tstate comp) in
    la ← getcs ts lastcs;
    c ← getcs ts cs;
    let ts := <[cs := set_next c (cs_next la)]> ts in
    la ← getcs ts lastcs;
    Ret (set_tstate comp (<[lastcs := set_next la cs]> ts)).

(** The condition under which only what may change has changed; [t] is the
    offset of the packet's TCP header. *)
Definition sl_same_header (p h : list Z) (hl : Z) : bool :=
  let t := 4 * hl in
  (b16 p 0 =? b16 h 0) && (b16 p 6 =? b16 h 6) && (b16 p 8 =? b16 h 8) &&
  (th_off p t =? th_off h t) &&
  (negb (hl >? 5) || bool_decide (slice 20 (4 * (hl - 5)) p = slice 20 (4 * (hl - 5)) h)) &&
  (negb (th_off p t >? 5) ||
   bool_decide (slice (t + 20) (4 * (th_off p t - 5)) p = slice (t + 20) (4 * (th_off p t - 5)) h)).

(** The changes in urgent pointer, window, ack and sequence number: the
    encoding, the change mask, [deltaS] and [deltaA]; nothing when the packet
    has to go uncompressed. *)
Definition sl_deltas (p h : list Z) (t : Z) : option (list Z * Z * Z * Z) :=
  let urg :=
    if has (th_flags p t) TH_URG then Some (ENCODEZ (th_urp p t), NEW_U)
    else if negb (th_urp p t =? th_urp h t) then None
    else Some ([], 0) in
  match urg with
  | None => None
  | Some (e, changes) =>
      let deltaS := u16 (th_win p t - th_win h t) in
      let '(e, changes) :=
        if deltaS =? 0 then (e, changes) else (e ++ ENCODE deltaS, Z.lor changes NEW_W) in
      let deltaA := u32 (th_ack p t - th_ack h t) in
      if negb (deltaA =? 0) && (deltaA >? 0xffff) then None
      else
        let '(e, changes) :=
          if deltaA =? 0 then (e, changes) else (e ++ ENCODE deltaA, Z.lor changes NEW_A) in
        let deltaS := u32 (th_seq p t - th_seq h t) in
        if negb (deltaS =? 0) && (deltaS >? 0xffff) then None
        else
          let '(e, changes) :=
            if deltaS =? 0 then (e, changes) else (e ++ ENCODE deltaS, Z.lor changes NEW_S) in
          Some (e, changes, deltaS, deltaA)
  end.

(** [switch(changes)]: the special cases. *)
Definition sl_special (p h : list Z) (hlen : Z) (e : list Z) (changes deltaS deltaA : Z)
  : option (list Z * Z) :=
  if changes =? 0 then
    if negb (ip_len p =? ip_len h) && (ip_len h =? hlen) then Some (e, changes) else None
  else if (changes =? SPECIAL_I) || (changes =? SPECIAL_D) then None
  else if changes =? Z.lor NEW_S NEW_A then
    if (deltaS =? deltaA) && (deltaS =? u32 (ip_len h - hlen)) then Some ([], SPECIAL_I)
    else Some (e, changes)
  else if changes =? NEW_S then
    if deltaS =? u32 (ip_len h - hlen) then Some ([], SPECIAL_D) else Some (e, changes)
  else Some (e, changes).

(** The IP id, the push bit, and the change mask of the packet. *)
Definition sl_id_push (p h : list Z) (t : Z) (e : list Z) (changes : Z) : list Z * Z :=
  let deltaS := u32 (ip_id p - ip_id h) in
  let '(e, changes) :=
    if negb (deltaS =? 1) then (e ++ ENCODEZ deltaS, Z.lor changes NEW_I) else (e, changes) in
  (e, if has (th_flags p t) TH_PUSH then Z.lor changes TCP_PUSH_BIT else changes).

(** [BCOPY(ip, &cs->cs_ip, hlen)] for state number [i]. *)
Definition sl_save (comp : slcompress) (i : nat) (p : list Z) (hlen : Z) : outcome slcompress :=
  c ← getcs (tstate comp) i;
  bs ← bread p 0 hlen;
  h ← bwrite (cs_hdr c) 0 bs;
  Ret (set_tstate comp (<[i := set_hdr c h]> (tstate comp))).

(** Write the compressed header over the end of the old one; [new_seq] and
    [changes] are complete. *)
Definition sl_emit (comp : slcompress) (i : nat) (compress_cid : bool) (p : list Z) (hlen sum : Z)
    (new_seq : list Z) (changes : Z) : outcome (Z * list Z * slcompress) :=
  c ← getcs (tstate comp) i;
  let deltaS := Z.of_nat (length new_seq) in
  let '(comp, hlen, front) :=
    if negb compress_cid || negb (last_xmit comp =? cs_id c)
    then (set_last_xmit comp (cs_id c), hlen - (deltaS + 4), [u8 (Z.lor changes NEW_C); u8 (cs_id c)])
    else (comp, hlen - (deltaS + 3), [u8 changes]) in
  q ← bwrite p hlen (front ++ [u8 (Z.shiftr sum 8); u8 sum] ++ new_seq);
  Ret (TYPE_COMPRESSED_TCP, drop (Z.to_nat hlen) q, count comp 0 1 0 0 0 0 0 0).

(** The label [uncompressed]. *)
Definition sl_uncompressed (comp : slcompress) (i : nat) (p : list Z) (hlen : Z)
  : outcome (Z * list Z * slcompress) :=
  comp ← sl_save comp i p hlen;
  c ← getcs (tstate comp) i;
  Ret (TYPE_UNCOMPRESSED_TCP, put8 p 9 (cs_id c), set_last_xmit comp (cs_id c)).

(** What follows once the state [i] of the connection is at the front. *)
Definition sl_compress_found (comp : slcompress) (i : nat) (p : list Z) (compress_cid : bool)
  : outcome (Z * list Z * slcompress) :=
  c ← getcs (tstate comp) i;
  let h := cs_hdr c in
  let t := 4 * ip_hl p in
  let hlen := 4 * (ip_hl p + th_off p t) in
  if negb (sl_same_header p h (ip_hl p)) then sl_uncompressed comp i p hlen
  else
    match sl_deltas p h t with
    | None => sl_uncompressed comp i p hlen
    | Some (e, changes, deltaS, deltaA) =>
        match sl_special p h hlen e changes deltaS deltaA with
        | None => sl_uncompressed comp i p hlen
        | Some (e, changes) =>
            let '(e, changes) := sl_id_push p h t e changes in
            comp ← sl_save comp i p hlen;
            sl_emit comp i compress_cid p hlen (th_sum p t) e changes
        end
    end.

(** Locate the state of the packet's connection and make it the most recently
    used one, or take the oldest; the flag says whether it was found. *)
Definition sl_locate (comp : slcompress) (p : list Z) (hlen : Z) : outcome (slcompress * nat * bool) :=
  last ← getcs (tstate comp) (last_cs comp);
  let cs := cs_next last in
  c ← getcs (tstate comp) cs;
  if same_conn p hlen c then Ret (comp, cs, true)
  else
    '(found, lcs, cs', n) ← sl_search MAX_STATES p hlen (tstate comp) (last_cs comp) cs;
    let comp := count comp 0 0 n 0 0 0 0 0 in
    if (found : bool) then
      comp ← sl_front comp lcs cs' (last_cs comp);
      Ret (comp, cs', true)
    else Ret (set_last_cs (count comp 0 0 0 1 0 0 0 0) lcs, cs', false).

(** [p] is the data of the first mbuf, which starts with the IP header; the
    result is the packet type, the new data of that mbuf and the new state. *)
Definition sl_compress_tcp (p : list Z) (comp : slcompress) (compress_cid : bool)
  : outcome (Z * list Z * slcompress) :=
  let hlen := ip_hl p in
  if negb (Z.land (ip_off p) 0x3fff =? 0) || (Z.of_nat (length p) <? 40) then Ret (TYPE_IP, p, comp)
  else
    let t := 4 * hlen in
    if negb (Z.land (th_flags p t) (Z.lor (Z.lor TH_SYN TH_FIN) (Z.lor TH_RST TH_ACK)) =? TH_ACK)
    then Ret (TYPE_IP, p, comp)
    else
      '(comp, i, found) ← sl_locate (count comp 1 0 0 0 0 0 0 0) p hlen;
      if (found : bool) then sl_compress_found comp i p compress_cid
      else sl_uncompressed comp i p (4 * (hlen + th_off p t)).

(** ** sl_uncompress_tcp *)

(** The label [bad]. *)
Definition sl_bad (mem : list Z) (pos : Z) (comp : slcompress)
  : outcome (list Z * Z * Z * slcompress) :=
  Ret (mem, pos, 0, count (set_slflags comp (Z.lor (flags comp) SLF_TOSS)) 0 0 0 0 0 0 1 0).

(** TYPE_UNCOMPRESSED_TCP.  [mem] is the receive buffer, [pos] the packet's
    offset in it ([*bufp]) and [len] its length. *)
Definition sl_uncompress_full (mem : list Z) (pos len : Z) (comp : slcompress)
  : outcome (list Z * Z * Z * slcompress) :=
  let id := b8 mem (pos + 9) in
  if id >=? Z.of_nat MAX_STATES then sl_bad mem pos comp
  else
    c ← getcs (rstate comp) (Z.to_nat id);
    let comp := set_slflags (set_last_recv comp id) (Z.land (flags comp) (Z.lnot SLF_TOSS)) in
    let mem := put8 mem (pos + 9) IPPROTO_TCP in
    let hl := Z.land (b8 mem pos) 0xf in
    let hlen := 4 * (hl + Z.shiftr (b8 mem (pos + 4 * hl + 12)) 4) in
    bs ← bread mem pos hlen;
    h ← bwrite (cs_hdr c) 0 bs;
    let c := CS (cs_next c) hlen (cs_id c) (put16 h 10 0) in
    Ret (mem, pos, len, count (set_rstate comp (<[Z.to_nat id := c]> (rstate comp))) 0 0 0 0 1 0 0 0).

(** The [switch (changes & SPECIALS_MASK)] on the saved header [h]: the new
    header and [cp]; [t] is the offset of its TCP header. *)
Definition sl_apply (mem : list Z) (cp changes : Z) (h : list Z) (t cs_hlen : Z) : list Z * Z :=
  let i := u32 (ip_len h - cs_hlen) in
  if Z.land changes SPECIALS_MASK =? SPECIAL_I then
    (put32 (put32 h (t + 8) (u32 (th_ack h t + i))) (t + 4) (u32 (th_seq h t + i)), cp)
  else if Z.land changes SPECIALS_MASK =? SPECIAL_D then
    (put32 h (t + 4) (u32 (th_seq h t + i)), cp)
  else
    let '(h, cp) :=
      if has changes NEW_U then
        let h := put8 h (t + 13) (Z.lor (th_flags h t) TH_URG) in
        let '(v, cp) := DECODEU mem cp in (put16 h (t + 18) v, cp)
      else (put8 h (t + 13) (Z.land (th_flags h t) (Z.lnot TH_URG)), cp) in
    let '(h, cp) :=
      if has changes NEW_W then
        let '(v, cp) := DECODES mem cp (th_win h t) in (put16 h (t + 14) v, cp)
      else (h, cp) in
    let '(h, cp) :=
      if has changes NEW_A then
        let '(v, cp) := DECODEL mem cp (th_ack h t) in (put32 h (t + 8) v, cp)
      else (h, cp) in
    if has changes NEW_S then
      let '(v, cp) := DECODEL mem cp (th_seq h t) in (put32 h (t + 4) v, cp)
    else (h, cp).

(** All changes to the saved header: checksum, push bit, sequence numbers, id. *)
Definition sl_new_header (mem : list Z) (cp changes : Z) (h : list Z) (cs_hlen : Z) : list Z * Z :=
  let t := 4 * ip_hl h in
  let h := put16 h (t + 16) (Z.lor (Z.shiftl (b8 mem cp) 8) (b8 mem (cp + 1))) in
  let cp := cp + 2 in
  let h :=
    if has changes TCP_PUSH_BIT
    then put8 h (t + 13) (Z.lor (th_flags h t) TH_PUSH)
    else put8 h (t + 13) (Z.land (th_flags h t) (Z.lnot TH_PUSH)) in
  let '(h, cp) := sl_apply mem cp changes h t cs_hlen in
  if has changes NEW_I then
    let '(v, cp) := DECODES mem cp (ip_id h) in (put16 h 4 v, cp)
  else (put16 h 4 (u16 (ip_id h + 1)), cp).

Section uncompress.
(** The byte order of the machine. *)
Variable big : bool.

(** The sum of the header words, folded twice. *)
Definition sl_ip_sum (hdr : list Z) : Z :=
  let changes := u32 (Cksum.bsum big true hdr) in
  let changes := Z.land changes 0xffff + Z.shiftr changes 16 in
  let changes := Z.land changes 0xffff + Z.shiftr changes 16 in
  u16 (Z.lnot changes).

(** A [u_short] stored in memory. *)
Definition put_short (l : list Z) (i v : Z) : list Z :=
  if big then put16 l i v else put8 (put8 l i v) (i + 1) (Z.shiftr v 8).

(** The end: [n] bytes of data are at [cp]; make room for the header in front
    of them, at an address that is a multiple of 4 (the address of [mem] is). *)
Definition sl_rebuild (mem : list Z) (cp n : Z) (i : nat) (comp : slcompress) (c : cstate) (h : list Z)
  : outcome (list Z * Z * Z * slcompress) :=
  '(mem, cp) ←
    (if negb (Z.land cp 3 =? 0) then
       mem ← (if n >? 0
              then bs ← bread mem cp n; bwrite mem (Z.land cp (Z.lnot 3)) bs
              else Ret mem);
       Ret (mem, Z.land cp (Z.lnot 3))
     else Ret (mem, cp));
  let cp := cp - cs_hlen c in
  let len := n + cs_hlen c in
  let h := put16 h 2 len in
  bs ← bread h 0 (cs_hlen c);
  mem ← bwrite mem cp bs;
  let comp := set_rstate comp (<[i := set_hdr c h]> (rstate comp)) in
  hdr ← bread mem cp (4 * ip_hl h);
  Ret (put_short mem (cp + 10) (sl_ip_sum hdr), cp, len, comp).

(** TYPE_COMPRESSED_TCP once the state is known; [cp] is after the change mask
    and the connection number. *)
Definition sl_uncompress_state (mem : list Z) (pos len cp changes : Z) (comp : slcompress)
  : outcome (list Z * Z * Z * slcompress) :=
  let i := Z.to_nat (last_recv comp) in
  c ← getcs (rstate comp) i;
  let '(h, cp) := sl_new_header mem cp changes (cs_hdr c) (cs_hlen c) in
  let n := len - (cp - pos) in
  if n <? 0 then
    sl_bad mem pos (set_rstate comp (<[i := set_hdr c h]> (rstate comp)))
  else sl_rebuild mem cp n i comp c h.

(** The result: the buffer, the packet's offset ([*bufp]) and length (0: none)
    and the new state. *)
Definition sl_uncompress_tcp (mem : list Z) (pos len type : Z) (comp : slcompress)
  : outcome (list Z * Z * Z * slcompress) :=
  if type =? TYPE_UNCOMPRESSED_TCP then sl_uncompress_full mem pos len comp
  else if negb (type =? TYPE_COMPRESSED_TCP) then sl_bad mem pos comp
  else
    let comp := count comp 0 0 0 0 0 1 0 0 in
    let changes := b8 mem pos in
    let cp := pos + 1 in
    if has changes NEW_C then
      let id := b8 mem cp in
      if id >=? Z.of_nat MAX_STATES then sl_bad mem pos comp
      else
        let comp := set_slflags comp (Z.land (flags comp) (Z.lnot SLF_TOSS)) in
        sl_uncompress_state mem pos len (cp + 1) changes (set_last_recv comp id)
    else if has (flags comp) SLF_TOSS then Ret (mem, pos, 0, count comp 0 0 0 0 0 0 0 1)
    else sl_uncompress_state mem pos len cp changes comp.
End uncompress.

(** ** The frame around them: sloutput() and slinput()

    sloutput ors the packet type into the first byte; slinput reads it back, and
    expands the packet if compression is on or is turned on by the packet (the
    length 0 makes slinput drop it). *)
Definition SC_COMPRESS : Z := 0x0002.
Definition SC_AUTOCOMP : Z := 0x0008.

Definition sl_tag (type : Z) (q : list Z) : list Z := put8 q 0 (Z.lor (b8 q 0) type).

(** The type, and the buffer with the type taken out of an uncompressed packet. *)
Definition sl_type (mem : list Z) (pos : Z) : list Z * Z :=
  let c := Z.land (b8 mem pos) 0xf0 in
  if negb (Z.land c 0x80 =? 0) then (mem, TYPE_COMPRESSED_TCP)
  else if c =? TYPE_UNCOMPRESSED_TCP then (put8 mem pos (Z.land (b8 mem pos) 0x4f), c)
  else (mem, c).

(** A packet of [len] bytes at [pos] that is not plain IP, with [fl] in sc_flags: the
    memory, where the packet starts now, its length, the flags, the states. *)
Definition sl_expand (big : bool) (fl : Z) (mem : list Z) (pos len : Z) (comp : slcompress)
  : outcome (list Z * Z * Z * Z * slcompress) :=
  let '(mem, c) := sl_type mem pos in
  if has fl SC_COMPRESS then
    '(mem, pos, len, comp) ← sl_uncompress_tcp big mem pos len c comp;
    Ret (mem, pos, len, fl, comp)
  else if has fl SC_AUTOCOMP && (c =? TYPE_UNCOMPRESSED_TCP) && (len >=? 40) then
    '(mem, pos, len, comp) ← sl_uncompress_tcp big mem pos len c comp;
    Ret (mem, pos, len, (if len <=? 0 then fl else Z.lor fl SC_COMPRESS), comp)
  else Ret (mem, pos, 0, fl, comp).
(** Any packet. *)
Definition sl_receive (big : bool) (fl : Z) (mem : list Z) (pos len : Z) (comp : slcompress)
  : outcome (list Z * Z * Z * Z * slcompress) :=
  if Z.land (b8 mem pos) 0xf0 =? 0x40 then Ret (mem, pos, len, fl, comp) else sl_expand big fl mem pos len comp.

(** What is left of it when compression is on. *)
Definition sl_inflate (big : bool) (mem : list Z) (pos len : Z) (comp : slcompress)
  : outcome (list Z * Z * Z * slcompress) :=
  let c := Z.land (b8 mem pos) 0xf0 in
  if c =? 0x40 then Ret (mem, pos, len, comp)
  else let '(mem, c) := sl_type mem pos in sl_uncompress_tcp big mem pos len c comp.
Lemma sl_expand_on big fl mem pos len comp mem' pos' len' comp' : has fl SC_COMPRESS = true -> Z.land (b8 mem pos) 0xf0 <> 0x40 ->
  sl_inflate big mem pos len comp = Ret (mem', pos', len', comp') -> sl_expand big fl mem pos len comp = Ret (mem', pos', len', fl, comp').
Proof.
  intros Hf Hv. unfold sl_inflate, sl_expand. destruct (Z.eqb_spec (Z.land (b8 mem pos) 0xf0) 0x40); [done|].
  destruct (sl_type mem pos) as [mem1 c]. rewrite Hf. by intros ->.
Qed.
Lemma sl_receive_on big fl mem pos len comp mem' pos' len' comp' : has fl SC_COMPRESS = true ->
  sl_inflate big mem pos len comp = Ret (mem', pos', len', comp') -> sl_receive big fl mem pos len comp = Ret (mem', pos', len', fl, comp').
Proof.
  intros Hf E. unfold sl_receive. destruct (Z.eqb_spec (Z.land (b8 mem pos) 0xf0) 0x40) as [Hv|Hv]; [|by apply sl_expand_on].
  unfold sl_inflate in E. rewrite Hv in E. by injection E as <- <- <- <-.
Qed.

(** ** The ring of transmit states *)

Definition next (ts : list cstate) (a : nat) : option nat := cs_next <$> ts !! a.

(** Following [cs_next] from [a] visits [l]. *)
Fixpoint path (ts : list cstate) (a : nat) (l : list nat) : Prop :=
  match l with
  | [] => True
  | b :: l => next ts a = Some b /\ path ts b l
  end.

(** [order]: the states from the most to the least recently used. *)
Definition ring (comp : slcompress) (order : list nat) : Prop :=
  length order = MAX_STATES /\ length (tstate comp) = MAX_STATES /\ NoDup order /\
  Forall (fun i => (i < MAX_STATES)%nat) order /\
  last order = Some (last_cs comp) /\
  match order with [] => False | h :: t => path (tstate comp) h (t ++ [h]) end.

(** What moving states around leaves alone. *)
Definition ids (ts : list cstate) : list (Z * list Z) := (fun c => (cs_id c, cs_hdr c)) <$> ts.
Definition touched (comp comp' : slcompress) : Prop :=
  ids (tstate comp') = ids (tstate comp) /\ rstate comp' = rstate comp /\
  last_recv comp' = last_recv comp /\ last_xmit comp' = last_xmit comp /\ flags comp' = flags comp.

Lemma path_app ts l1 : forall a b l2,
  path ts a (l1 ++ b :: l2) <-> path ts a (l1 ++ [b]) /\ path ts b l2.
Proof.
  induction l1 as [|x l1 IH]; intros a b l2; cbn; [tauto|]. rewrite IH. tauto.
Qed.

Lemma path_insert ts i c l : forall a, a <> i -> ~ In i (removelast l) -> path ts a l ->
  path (<[i := c]> ts) a l.
Proof.
  induction l as [|x l IH]; intros a Ha Hl Hp; [done|]. destruct Hp as [Hn Hp].
  assert (next (<[i := c]> ts) a = Some x) by (unfold next in *; by rewrite list_lookup_insert_ne).
  split; [done|]. destruct l as [|y l]; [done|].
  apply IH; auto; intros Hx; apply Hl; cbn; [by left|by right].
Qed.

Lemma getcs_ok ts a : (a < length ts)%nat -> exists c, getcs ts a = Ret c /\ ts !! a = Some c.
Proof.
  intros H. unfold getcs. destruct (lookup_lt_is_Some_2 ts a H) as [c Hc]. rewrite Hc. by exists c.
Qed.

Lemma getcs_next ts a b : next ts a = Some b ->
  exists c, getcs ts a = Ret c /\ cs_next c = b /\ ts !! a = Some c.
Proof.
  unfold next, getcs. destruct (ts !! a) as [c|]; [|done]. intros [= <-]. by exists c.
Qed.

Lemma path_next ts a b l : path ts a (b :: l) ->
  exists c, getcs ts a = Ret c /\ cs_next c = b /\ ts !! a = Some c.
Proof. intros [H _]. by apply getcs_next. Qed.

(** Does state number [i] belong to the packet's connection? *)
Definition matches (ts : list cstate) (p : list Z) (hlen : Z) (i : nat) : bool :=
  match ts !! i with Some c => same_conn p hlen c | None => false end.

Definition valid (ts : list cstate) (i : nat) : Prop := (i < length ts)%nat.

Lemma sl_search_ok p hlen ts lastcs : forall fuel l cs, path ts cs l -> l <> [] ->
  last l = Some lastcs -> NoDup l -> Forall (valid ts) l -> (length l <= fuel)%nat ->
  exists f lcs c n A B, sl_search fuel p hlen ts lastcs cs = Ret (f, lcs, c, n) /\
    l = A ++ c :: B /\ lcs = List.last A cs /\ Forall (fun i => matches ts p hlen i = false) A /\
    f = matches ts p hlen c /\ (f = false -> B = []).
Proof.
  induction fuel as [|fuel IH]; intros l cs Hp Hne Hl Hnd Hv Hf; [destruct l; [done|cbn in Hf; lia]|].
  destruct l as [|x l]; [done|]. destruct (path_next _ _ _ _ Hp) as (c0 & E0 & Hx & _).
  destruct Hp as [_ Hp]. apply Forall_cons in Hv as [Hvx Hv].
  destruct (getcs_ok ts x Hvx) as (c1 & E1 & L1).
  cbn [sl_search]. rewrite E0. bind. rewrite Hx, E1. bind.
  assert (Hm : matches ts p hlen x = same_conn p hlen c1) by (unfold matches; by rewrite L1).
  destruct (same_conn p hlen c1) eqn:Hsc.
  { exists true, cs, x, 1, [], l. splits; auto. done. }
  apply NoDup_cons in Hnd as [Hnx Hnd].
  destruct (Nat.eqb_spec x lastcs) as [->|Hxl].
  { assert (l = []) as ->.
    { destruct l as [|y l]; [done|]. exfalso. apply Hnx. apply list_elem_of_In.
      change (last (lastcs :: y :: l)) with (last (y :: l)) in Hl. apply last_Some in Hl as [l' ->].
      apply in_or_app. right. by left. }
    exists false, cs, lastcs, 1, [], []. splits; auto. }
  destruct l as [|y l]; [by injection Hl|].
  destruct (IH (y :: l) x) as (f & lcs & c & n & A & B & E & Hsplit & Hlcs & HA & Hf' & HB); auto.
  { cbn in *. lia. }
  rewrite E. bind. exists f, lcs, c, (n + 1), (x :: A), B. splits; auto.
  - cbn. by rewrite Hsplit.
  - rewrite Hlcs. cbn. destruct A as [|z A]; [done|]. clear. generalize z. induction A as [|w A IH]; [done|].
    intros z0. apply IH.
Qed.

Lemma ids_insert ts i c c' : ts !! i = Some c -> cs_id c' = cs_id c -> cs_hdr c' = cs_hdr c ->
  ids (<[i := c']> ts) = ids ts.
Proof.
  intros Hl H1 H2. unfold ids. rewrite list_fmap_insert. apply list_insert_id.
  rewrite list_lookup_fmap, Hl. cbn. by rewrite H1, H2.
Qed.

Lemma next_insert ts i c : (i < length ts)%nat -> next (<[i := c]> ts) i = Some (cs_next c).
Proof. intros H. unfold next. by rewrite list_lookup_insert_eq. Qed.

Lemma last_cons {A} (l : list A) : forall a b, List.last (b :: l) a = List.last l b.
Proof.
  induction l as [|x l IH]; intros a b; [done|]. change (List.last (x :: l) a = List.last (x :: l) b).
  by rewrite !IH.
Qed.

Lemma path_end ts z l : forall a, path ts a (l ++ [z]) <-> path ts a l /\ next ts (List.last l a) = Some z.
Proof.
  induction l as [|x l IH]; intros a; [cbn; tauto|]. rewrite last_cons. cbn. rewrite IH. tauto.
Qed.

Lemma path_insert_out ts i c l a : ~ In i (a :: l) -> path ts a l -> path (<[i := c]> ts) a l.
Proof.
  intros Hi. apply path_insert; [intros ->; apply Hi; by left|].
  intros Hx. apply Hi. right. clear -Hx. induction l as [|x l IH]; [done|].
  destruct l as [|y l]; [done|]. destruct Hx as [->|Hx]; [by left|right; by apply IH].
Qed.

Lemma path_insert_last ts c l : forall a, NoDup (a :: l) -> path ts a l ->
  path (<[List.last l a := c]> ts) a l.
Proof.
  induction l as [|x l IH]; intros a Hnd Hp; [done|]. apply NoDup_cons in Hnd as [Ha Hnd].
  destruct Hp as [Hn Hp]. rewrite last_cons. split; [|by apply IH].
  unfold next in *. rewrite list_lookup_insert_ne; [done|]. intros Hl. apply Ha. rewrite <- Hl.
  apply list_elem_of_In. destruct l as [|y l]; [by left|right].
  rewrite (last_cons l x y). clear. revert y. induction l as [|z l IH]; intros y; [by left|].
  rewrite last_cons. right. apply IH.
Qed.

Lemma last_in {A} (l : list A) : forall a, In (List.last l a) (a :: l).
Proof.
  induction l as [|x l IH]; intros a; [by left|]. rewrite last_cons. right. apply IH.
Qed.

Lemma last_app_mid {A} (l1 : list A) x l2 : last (l1 ++ x :: l2) = Some (List.last l2 x).
Proof.
  rewrite last_app_cons. revert x. induction l2 as [|y l2 IH]; intros x; [done|].
  rewrite last_cons. apply IH.
Qed.

(** A state in the middle of the ring moved to the front. *)
Lemma sl_front_ok comp h Y cs B : ring comp (h :: Y ++ cs :: B) ->
  exists comp', sl_front comp (List.last Y h) cs (last_cs comp) = Ret comp' /\
    ring comp' (cs :: h :: Y ++ B) /\ touched comp comp'.
Proof.
  intros (Hlen & Hts & Hnd & Hv & Hlast & Hp). set (lcs := List.last Y h) in *.
  change (h :: Y ++ cs :: B) with ((h :: Y) ++ cs :: B) in Hlast, Hnd, Hv.
  rewrite last_app_mid in Hlast. injection Hlast as Hla.
  assert (Hperm : NoDup (cs :: h :: Y ++ B)).
  { change (cs :: h :: Y ++ B) with ([cs] ++ ((h :: Y) ++ B)).
    apply (NoDup_Permutation_proper ((h :: Y) ++ cs :: B)); [|done].
    cbn. rewrite <- Permutation_middle. cbn. constructor. }
  assert (Hvp : Forall (fun i => (i < MAX_STATES)%nat) (cs :: h :: Y ++ B)).
  { apply Forall_app in Hv as [Hv1 Hv2]. apply Forall_cons in Hv1 as [? ?].
    apply Forall_cons in Hv2 as [? ?]. repeat (apply Forall_cons; split; [done|]).
    apply Forall_app. by split. }
  assert (Hlen' : length (cs :: h :: Y ++ B) = MAX_STATES).
  { rewrite <- Hlen. cbn. rewrite !length_app. cbn. lia. }
  replace ((Y ++ cs :: B) ++ [h]) with (Y ++ cs :: (B ++ [h])) in Hp by (by rewrite <- app_assoc).
  apply path_app in Hp as [Hp1 Hp2]. apply path_end in Hp1 as [HpY Hncs]. fold lcs in Hncs.
  apply path_end in Hp2 as [HpB Hnla]. rewrite Hla in Hnla.
  unfold sl_front. destruct (Nat.eqb_spec cs (last_cs comp)) as [Hcl|Hcl].
  - (* the last one: only the end of the ring moves *)
    assert (B = []) as ->.
    { destruct B as [|b B]; [done|]. exfalso. apply NoDup_app in Hnd as (_ & _ & Hnd).
      apply NoDup_cons in Hnd as [Hn _]. apply Hn. rewrite Hcl, <- Hla, last_cons.
      apply list_elem_of_In, last_in. }
    eexists. split; [done|]. rewrite app_nil_r in *. split; [|by split]. unfold ring.
    cbn [last_cs tstate set_last_cs]. splits; auto.
    + change (cs :: h :: Y) with ([cs] ++ h :: Y). by rewrite last_app_mid.
    + cbn. cbn in Hnla. rewrite <- Hcl in Hnla. split; [done|]. apply path_end. by split.
  - destruct B as [|b B]; [cbn in Hla; by rewrite Hla in Hcl|]. rewrite last_cons in Hla.
    destruct HpB as [Hncb HpB].
    pose proof (NoDup_app (h :: Y) (cs :: b :: B)) as Hsplit. apply Hsplit in Hnd as (HndY & Hdis & HndB).
    apply NoDup_cons in HndB as [HcsB HndB].
    assert (HinB : forall x, In x (b :: B) -> ~ In x (h :: Y) /\ x <> cs).
    { intros x Hx. split.
      - intros Hy. apply list_elem_of_In in Hy. apply (Hdis x Hy). apply list_elem_of_In. by right.
      - intros ->. apply HcsB. by apply list_elem_of_In. }
    assert (HcsY : ~ In cs (h :: Y)).
    { intros Hy. apply list_elem_of_In in Hy. apply (Hdis cs Hy). apply list_elem_of_In. by left. }
    assert (HinlaB : In (last_cs comp) (b :: B)) by (rewrite <- Hla; apply last_in).
    assert (HinlcsY : In lcs (h :: Y)) by (apply last_in).
    destruct (HinB _ HinlaB) as [HlaY HlacS].
    assert (Hlcsla : lcs <> last_cs comp) by (intros E; apply HlaY; by rewrite <- E).
    assert (Hlcscs : lcs <> cs) by (intros E; apply HcsY; by rewrite <- E).
    assert (Hvb : forall x, next (tstate comp) x <> None -> (x < length (tstate comp))%nat).
    { intros x. unfold next. intros Hx. apply lookup_lt_is_Some. destruct (tstate comp !! x); [by eexists|done]. }
    assert (Vl : (lcs < length (tstate comp))%nat) by (apply Hvb; by rewrite Hncs).
    assert (Vc : (cs < length (tstate comp))%nat) by (apply Hvb; by rewrite Hncb).
    assert (Va : (last_cs comp < length (tstate comp))%nat) by (apply Hvb; by rewrite Hnla).
    destruct (getcs_next _ _ _ Hncs) as (cl & El & Nl & Ll). rewrite El. bind.
    destruct (getcs_next _ _ _ Hncb) as (cc & Ec & Nc & Lc). rewrite Ec. bind.
    destruct (getcs_next _ _ _ Hnla) as (ca & Ea & Na & La).
    set (ts1 := <[lcs := set_next cl (cs_next cc)]> (tstate comp)).
    assert (E1 : getcs ts1 (last_cs comp) = Ret ca /\ getcs ts1 cs = Ret cc).
    { unfold getcs, ts1. rewrite !list_lookup_insert_ne by done. by rewrite La, Lc. }
    destruct E1 as [E1 E2]. rewrite E1. bind. rewrite E2. bind. rewrite Na.
    set (ts2 := <[cs := set_next cc h]> ts1).
    assert (L2 : ts2 !! last_cs comp = Some ca).
    { unfold ts2, ts1. by rewrite !list_lookup_insert_ne by done. }
    unfold getcs at 1. rewrite L2. bind.
    set (ts3 := <[last_cs comp := set_next ca cs]> ts2).
    eexists. split; [done|].
    assert (Hids : ids ts3 = ids (tstate comp)).
    { unfold ts3. rewrite (ids_insert _ _ ca) by done. unfold ts2. rewrite (ids_insert _ _ cc);
        [|by unfold ts1; rewrite list_lookup_insert_ne|done|done].
      unfold ts1. by rewrite (ids_insert _ _ cl). }
    split; [|by split]. unfold ring. cbn [last_cs tstate set_tstate].
    assert (Hl3 : length ts3 = length (tstate comp)).
    { unfold ts3, ts2, ts1. by rewrite !length_insert. }
    splits; auto; [congruence| |].
    + change (cs :: h :: Y ++ b :: B) with ((cs :: h :: Y) ++ b :: B). by rewrite last_app_mid, Hla.
    + replace ((h :: Y ++ b :: B) ++ [cs]) with (h :: Y ++ b :: (B ++ [cs])) by (cbn; by rewrite <- app_assoc).
      split; [|apply path_app; split; apply path_end; split].
      * unfold ts3, next. rewrite list_lookup_insert_ne by done. unfold ts2.
        rewrite list_lookup_insert_eq by (unfold ts1; by rewrite length_insert). done.
      * unfold ts3. apply path_insert_out; [done|]. unfold ts2. apply path_insert_out; [done|].
        unfold ts1. by apply path_insert_last.
      * fold lcs. unfold ts3, next. rewrite list_lookup_insert_ne by done. unfold ts2.
        rewrite list_lookup_insert_ne by done. unfold ts1. rewrite list_lookup_insert_eq by done.
        cbn. by rewrite Nc.
      * assert (path ts2 b B).
        { unfold ts2. apply path_insert_out; [by intros Hx; destruct (HinB cs Hx)|].
          unfold ts1. apply path_insert_out; [by intros Hx; destruct (HinB lcs Hx)|]. done. }
        unfold ts3. rewrite <- Hla. by apply path_insert_last.
      * rewrite Hla. unfold ts3, next. rewrite list_lookup_insert_eq; [done|].
        unfold ts2, ts1. by rewrite !length_insert.
Qed.

Lemma sl_locate_ok comp p hlen order : ring comp order ->
  exists comp' i f A B, sl_locate comp p hlen = Ret (comp', i, f) /\ order = A ++ i :: B /\
    ring comp' (i :: A ++ B) /\ touched comp comp' /\
    Forall (fun j => matches (tstate comp) p hlen j = false) A /\
    f = matches (tstate comp) p hlen i /\ (f = false -> B = []).
Proof.
  intros Hring. pose proof Hring as (Hlen & Hts & Hnd & Hv & Hlast & Hp).
  destruct order as [|h t]; [done|].
  assert (Hlt : last_cs comp = List.last t h).
  { pose proof (last_app_mid [] h t) as E. cbn [app] in E. rewrite E in Hlast. by injection Hlast. }
  apply path_end in Hp as [Hpt Hnh]. rewrite <- Hlt in Hnh.
  apply Forall_cons in Hv as Hv'. destruct Hv' as [Hvh Hvt].
  destruct (getcs_next _ _ _ Hnh) as (cl & El & Nl & _).
  destruct (getcs_ok (tstate comp) h) as (ch & Eh & Lh); [by rewrite Hts|].
  unfold sl_locate. rewrite El. bind. rewrite Nl, Eh. bind.
  assert (Hm : matches (tstate comp) p hlen h = same_conn p hlen ch) by (unfold matches; by rewrite Lh).
  destruct (same_conn p hlen ch) eqn:Hsc.
  { exists comp, h, true, [], t. splits; auto; done. }
  apply NoDup_cons in Hnd as [Hnh' Hndt].
  destruct t as [|y t]; [done|]. set (t' := y :: t) in *.
  destruct (sl_search_ok p hlen (tstate comp) (last_cs comp) MAX_STATES t' h Hpt) as
    (f & lcs & i & n & A & B & E & Hsplit & Hlcs & HA & Hf & HB).
  - done.
  - pose proof (last_app_mid [] y t) as E. cbn [app] in E. unfold t'. rewrite E. f_equal.
    rewrite Hlt. unfold t'. by rewrite last_cons.
  - done.
  - unfold valid. rewrite Hts. done.
  - rewrite <- Hlen. cbn. lia.
  - rewrite E. bind. set (comp1 := count comp 0 0 n 0 0 0 0 0).
    assert (Hring1 : ring comp1 (h :: A ++ i :: B)) by (by rewrite <- Hsplit).
    destruct f.
    + rewrite Hlcs. destruct (sl_front_ok comp1 h A i B Hring1) as (comp' & E' & R' & T').
      change (last_cs comp1) with (last_cs comp) in *. rewrite E'. bind.
      exists comp', i, true, (h :: A), B. rewrite Hsplit. splits; auto; try done.
    + specialize (HB eq_refl). subst B.
      eexists _, i, false, (h :: A), []. split; [done|]. rewrite Hsplit. splits; auto; try done.
      rewrite Hsplit in Hpt, Hlt. apply path_end in Hpt as [HpA Hni].
      assert (Hil : i = last_cs comp).
      { rewrite Hlt. clear. revert h. induction A as [|x A IH]; intros h; [done|]. cbn [app].
        rewrite last_cons. apply IH. }
      unfold ring. cbn [last_cs tstate set_last_cs]. rewrite app_nil_r.
      assert (Hperm : i :: h :: A ≡ₚ h :: A ++ [i]).
      { rewrite (Permutation_app_comm A [i]). cbn. constructor. }
      rewrite Hsplit in Hlen. splits; auto.
      * rewrite <- Hlen. by rewrite Hperm.
      * rewrite Hperm. rewrite Hsplit in Hnh', Hndt. by constructor.
      * rewrite Hperm. rewrite Hsplit in Hvt. by constructor.
      * change (i :: h :: A) with ([i] ++ h :: A). by rewrite last_app_mid, Hlcs.
      * cbn [path app]. split; [by rewrite Hil|]. apply path_end. split; [done|exact Hni].
Qed.

(** ** Bytes and fields *)

Definition bytes := Cksum.bytes.
Definition len (l : list Z) : Z := Z.of_nat (length l).

Lemma b8_range l j : bytes l -> 0 <= b8 l j < 256.
Proof.
  intros H. unfold b8. rewrite list_lookup_total_alt.
  destruct (l !! Z.to_nat j) as [x|] eqn:E; cbn; [|lia].
  exact (proj1 (Forall_lookup _ _) H _ _ E).
Qed.

Lemma b8_eq l1 l2 : len l1 = len l2 -> (forall j, 0 <= j < len l1 -> b8 l1 j = b8 l2 j) -> l1 = l2.
Proof.
  unfold len, b8. intros Hl H. apply (list_eq_same_length _ _ (length l1)); [lia|lia|].
  intros i x y Hi H1 H2. specialize (H (Z.of_nat i) ltac:(lia)). rewrite Nat2Z.id in H.
  rewrite !list_lookup_total_alt, H1, H2 in H. done.
Qed.

Lemma b8_app l1 l2 j : 0 <= j ->
  b8 (l1 ++ l2) j = if j <? len l1 then b8 l1 j else b8 l2 (j - len l1).
Proof.
  intros Hj. unfold b8, len. rewrite !list_lookup_total_alt.
  destruct (Z.ltb_spec j (Z.of_nat (length l1))).
  - by rewrite lookup_app_l by lia.
  - rewrite lookup_app_r by lia. do 3 f_equal. lia.
Qed.

Lemma b8_drop l n j : 0 <= n -> 0 <= j -> b8 (drop (Z.to_nat n) l) j = b8 l (n + j).
Proof.
  intros Hn Hj. unfold b8. rewrite !list_lookup_total_alt, lookup_drop. do 3 f_equal. lia.
Qed.

Lemma b8_slice l a k j : 0 <= a -> 0 <= j < k -> b8 (slice a k l) j = b8 l (a + j).
Proof.
  intros Ha Hj. unfold slice, b8. rewrite !list_lookup_total_alt, lookup_take, lookup_drop.
  rewrite decide_True by lia. do 3 f_equal. lia.
Qed.

Lemma b8_put8 l i v j : 0 <= i < len l -> 0 <= j -> b8 (put8 l i v) j = if j =? i then u8 v else b8 l j.
Proof.
  unfold b8, put8, len. intros Hi Hj. rewrite !list_lookup_total_alt.
  destruct (Z.eqb_spec j i) as [->|Hne]; [by rewrite list_lookup_insert_eq by lia|].
  by rewrite list_lookup_insert_ne by lia.
Qed.

Lemma len_put8 l i v : len (put8 l i v) = len l.
Proof. unfold len, put8. by rewrite length_insert. Qed.

Lemma bytes_put8 l i v : bytes l -> bytes (put8 l i v).
Proof. intros H. apply Forall_insert; [done|apply u8_range]. Qed.

Lemma len_put16 l i v : len (put16 l i v) = len l.
Proof. unfold put16. by rewrite !len_put8. Qed.
Lemma len_put32 l i v : len (put32 l i v) = len l.
Proof. unfold put32. by rewrite !len_put16. Qed.
Lemma bytes_put16 l i v : bytes l -> bytes (put16 l i v).
Proof. intros H. by do 2 apply bytes_put8. Qed.
Lemma bytes_put32 l i v : bytes l -> bytes (put32 l i v).
Proof. intros H. by do 2 apply bytes_put16. Qed.

Lemma b8_put16 l i v j : 0 <= i -> i + 1 < len l -> 0 <= j -> j <> i -> j <> i + 1 ->
  b8 (put16 l i v) j = b8 l j.
Proof.
  intros. unfold put16. rewrite b8_put8 by (rewrite ?len_put8; lia). bcase; [lia|].
  rewrite b8_put8 by lia. bcase; lia.
Qed.

Lemma b16_put16 l i v : 0 <= i -> i + 1 < len l -> 0 <= v < 65536 -> b16 (put16 l i v) i = v.
Proof.
  intros. unfold b16, put16. rewrite !b8_put8 by (rewrite ?len_put8; lia).
  destruct (Z.eqb_spec i (i + 1)); [lia|]. rewrite !Z.eqb_refl. rewrite Z.shiftr_div_pow2 by lia. unfold u8.
  change (2 ^ 8) with 256. zdiv.
Qed.

Lemma b8_put32 l i v j : 0 <= i -> i + 3 < len l -> 0 <= j -> j < i \/ i + 3 < j ->
  b8 (put32 l i v) j = b8 l j.
Proof.
  intros. unfold put32. rewrite b8_put16 by (rewrite ?len_put16; lia). by rewrite b8_put16 by lia.
Qed.

Lemma b16_frame l l' i : (forall j, j = i \/ j = i + 1 -> b8 l' j = b8 l j) -> b16 l' i = b16 l i.
Proof. intros H. unfold b16. by rewrite !H by lia. Qed.
Lemma b32_frame l l' i : (forall j, i <= j < i + 4 -> b8 l' j = b8 l j) -> b32 l' i = b32 l i.
Proof. intros H. unfold b32. rewrite !(b16_frame l l'); [done|..]; intros; apply H; lia. Qed.

Lemma b16_put16_low l i v : 0 <= i -> i + 1 < len l -> b16 (put16 l i v) i = u16 v.
Proof.
  intros. unfold b16, put16. rewrite !b8_put8 by (rewrite ?len_put8; lia).
  destruct (Z.eqb_spec i (i + 1)); [lia|]. rewrite !Z.eqb_refl. rewrite Z.shiftr_div_pow2 by lia. unfold u8, u16.
  change (2 ^ 8) with 256. change (2 ^ 16) with 65536. zdiv.
Qed.

Lemma b32_put32 l i v : 0 <= i -> i + 3 < len l -> 0 <= v < 4294967296 -> b32 (put32 l i v) i = v.
Proof.
  intros. unfold b32, put32. rewrite (b16_frame (put16 l i (Z.shiftr v 16))).
  2:{ intros j Hj. apply b8_put16; rewrite ?len_put16; lia. }
  rewrite b16_put16_low by lia. rewrite b16_put16_low by (rewrite ?len_put16; lia).
  rewrite Z.shiftr_div_pow2 by lia. unfold u16. change (2 ^ 16) with 65536. zdiv.
Qed.

Lemma b16_range l i : bytes l -> 0 <= b16 l i < 65536.
Proof. intros H. unfold b16. pose proof (b8_range l i H). pose proof (b8_range l (i + 1) H). lia. Qed.
Lemma b32_range l i : bytes l -> 0 <= b32 l i < 4294967296.
Proof. intros H. unfold b32. pose proof (b16_range l i H). pose proof (b16_range l (i + 2) H). lia. Qed.

Lemma b16_inj l l' i : bytes l -> bytes l' -> b16 l i = b16 l' i ->
  b8 l i = b8 l' i /\ b8 l (i + 1) = b8 l' (i + 1).
Proof.
  intros H H' E. unfold b16 in E. pose proof (b8_range l i H). pose proof (b8_range l (i + 1) H).
  pose proof (b8_range l' i H'). pose proof (b8_range l' (i + 1) H'). lia.
Qed.

Lemma b32_inj l l' i : bytes l -> bytes l' -> b32 l i = b32 l' i ->
  forall j, i <= j < i + 4 -> b8 l j = b8 l' j.
Proof.
  intros H H' E j Hj. unfold b32 in E. pose proof (b16_range l i H). pose proof (b16_range l (i + 2) H).
  pose proof (b16_range l' i H'). pose proof (b16_range l' (i + 2) H').
  destruct (b16_inj l l' i H H') as [E1 E2]; [lia|].
  destruct (b16_inj l l' (i + 2) H H') as [E3 E4]; [lia|].
  replace (i + 2 + 1) with (i + 3) in E4 by lia.
  assert (j = i \/ j = i + 1 \/ j = i + 2 \/ j = i + 3) as [->|[->|[->| ->]]] by lia; done.
Qed.

Lemma bread_len l a n bs : bread l a n = Ret bs -> len bs = n /\ bs = slice a n l /\ 0 <= a /\ 0 <= n.
Proof.
  unfold bread. destruct (Z.leb_spec 0 a); [|done]. destruct (Z.leb_spec 0 n); [|done].
  destruct (Z.leb_spec (a + n) (Z.of_nat (length l))); [|done]. intros [= <-].
  splits; auto. by apply slice_length.
Qed.

(** Writing, byte by byte. *)
Lemma bwrite_b8 l off bs : 0 <= off -> off + len bs <= len l ->
  exists d, bwrite l off bs = Ret d /\ len d = len l /\
    forall j, 0 <= j -> b8 d j = if (off <=? j) && (j <? off + len bs) then b8 bs (j - off) else b8 l j.
Proof.
  unfold len. intros H1 H2. unfold bwrite. destruct (Z.leb_spec 0 off); [|lia].
  destruct (Z.leb_spec (off + Z.of_nat (length bs)) (Z.of_nat (length l))); [|lia]. cbn [andb].
  eexists. split; [done|]. split; [rewrite !length_app, length_take, length_drop; lia|].
  intros j Hj. rewrite b8_app by done. unfold len. rewrite length_take_le by lia.
  rewrite Z2Nat.id by lia. destruct (Z.ltb_spec j off).
  - destruct (Z.leb_spec off j); [lia|]. cbn. unfold b8. rewrite !list_lookup_total_alt.
    by rewrite lookup_take_lt by lia.
  - destruct (Z.leb_spec off j); [|lia]. cbn [andb]. rewrite b8_app by lia. unfold len.
    destruct (Z.ltb_spec (j - off) (Z.of_nat (length bs))),
      (Z.ltb_spec j (off + Z.of_nat (length bs))); try lia.
    unfold b8. rewrite !list_lookup_total_alt, lookup_drop. do 3 f_equal. lia.
Qed.

Lemma bytes_slice a k l : bytes l -> bytes (slice a k l).
Proof. intros H. unfold slice. apply Forall_take. by apply Forall_drop. Qed.

(** ** Encoding and decoding numbers *)

Definition at_bytes (mem : list Z) (cp : Z) (e : list Z) : Prop :=
  forall k, 0 <= k < len e -> b8 mem (cp + k) = b8 e k.

Lemma at_app mem cp e1 e2 : at_bytes mem cp (e1 ++ e2) ->
  at_bytes mem cp e1 /\ at_bytes mem (cp + len e1) e2.
Proof.
  unfold at_bytes, len. rewrite length_app. intros H. split; intros k Hk.
  - rewrite H by lia. rewrite b8_app by lia. unfold len.
    destruct (Z.ltb_spec k (Z.of_nat (length e1))); [done|lia].
  - rewrite <- Z.add_assoc, H by lia. rewrite b8_app by lia. unfold len.
    destruct (Z.ltb_spec (Z.of_nat (length e1) + k) (Z.of_nat (length e1))); [lia|].
    f_equal. lia.
Qed.

Lemma decode3 mem cp n : at_bytes mem cp [0; u8 (Z.shiftr n 8); u8 n] ->
  decode_delta mem cp = (u16 n, cp + 3).
Proof.
  intros H. pose proof (H 0 ltac:(unfold len; cbn; lia)) as H0. pose proof (H 1 ltac:(unfold len; cbn; lia)) as H1.
  pose proof (H 2 ltac:(unfold len; cbn; lia)) as H2. rewrite Z.add_0_r in H0.
  unfold decode_delta. rewrite H0, H1, H2. change (b8 [0; u8 (n ≫ 8); u8 n] 0 =? 0) with true.
  cbv iota. change (b8 [0; u8 (n ≫ 8); u8 n] 1) with (u8 (n ≫ 8)).
  change (b8 [0; u8 (n ≫ 8); u8 n] 2) with (u8 n). f_equal.
  rewrite lor_shiftl8 by apply u8_range. rewrite Z.shiftr_div_pow2 by lia. unfold u8, u16.
  change (2 ^ 8) with 256. change (2 ^ 16) with 65536. zdiv.
Qed.

Lemma decode1 mem cp n : at_bytes mem cp [u8 n] -> 0 < u16 n < 256 -> decode_delta mem cp = (u16 n, cp + 1).
Proof.
  intros H Hn. pose proof (H 0 ltac:(unfold len; cbn; lia)) as H0. rewrite Z.add_0_r in H0.
  unfold decode_delta. rewrite H0. change (b8 [u8 n] 0) with (u8 n).
  assert (u8 n = u16 n) as -> by (unfold u8, u16 in *; change (2 ^ 8) with 256; change (2 ^ 16) with 65536 in *; zdiv).
  destruct (Z.eqb_spec (u16 n) 0); [lia|done].
Qed.

Lemma decode_ENCODE mem cp n : at_bytes mem cp (ENCODE n) -> u16 n <> 0 ->
  decode_delta mem cp = (u16 n, cp + len (ENCODE n)).
Proof.
  intros H Hn. pose proof (u16_range n) as Hr. revert H. unfold ENCODE. rewrite Z.geb_leb.
  destruct (Z.leb_spec 256 (u16 n)); intros He; [by apply decode3|apply decode1; [done|lia]].
Qed.

Lemma decode_ENCODEZ mem cp n : at_bytes mem cp (ENCODEZ n) ->
  decode_delta mem cp = (u16 n, cp + len (ENCODEZ n)).
Proof.
  intros H. pose proof (u16_range n) as Hr. revert H. unfold ENCODEZ. rewrite Z.geb_leb.
  destruct (Z.leb_spec 256 (u16 n)); cbn [orb]; [by apply decode3|].
  destruct (Z.eqb_spec (u16 n) 0); intros H'; [by apply decode3|apply decode1; [done|lia]].
Qed.

(** ** The steps of the receiver

    Each step restores one field of the target packet [p], reads no other
    changing field, and leaves the other bytes alone. *)
Definition flagU (u : bool) (f : Z) : Z :=
  if u then Z.lor f TH_URG else Z.land f (Z.lnot TH_URG).

Definition okh (h : list Z) (t : Z) : Prop := bytes h /\ 0 <= t /\ t + 20 <= len h.

Lemma stepU_ok mem cp ch h t urp h1 cp1 : okh h t -> 0 <= urp < 65536 ->
  (if has ch NEW_U then
     let h := put8 h (t + 13) (Z.lor (th_flags h t) TH_URG) in
     let '(v, cp) := DECODEU mem cp in (put16 h (t + 18) v, cp)
   else (put8 h (t + 13) (Z.land (th_flags h t) (Z.lnot TH_URG)), cp)) = (h1, cp1) ->
  let e := if has ch NEW_U then ENCODEZ urp else [] in
  at_bytes mem cp e -> (has ch NEW_U = false -> th_urp h t = urp) ->
  okh h1 t /\ len h1 = len h /\ cp1 = cp + len e /\ th_urp h1 t = urp /\
  b8 h1 (t + 13) = u8 (flagU (has ch NEW_U) (b8 h (t + 13))) /\
  (forall j, 0 <= j -> j <> t + 13 -> j <> t + 18 -> j <> t + 19 -> b8 h1 j = b8 h j).
Proof.
  intros (Hb & Ht & Hl) Hu E e He Hn. subst e. unfold okh, th_urp, th_flags, flagU in *.
  destruct (has ch NEW_U).
  - unfold DECODEU in E. rewrite (decode_ENCODEZ mem cp urp He) in E. injection E as <- <-.
    assert (u16 (u16 urp) = urp) as -> by (rewrite !u16_small; rewrite ?u16_small; lia).
    rewrite !len_put16, !len_put8. splits; auto; try lia.
    + by apply bytes_put16, bytes_put8.
    + apply b16_put16; rewrite ?len_put8; lia.
    + rewrite b8_put16 by (rewrite ?len_put8; lia). rewrite b8_put8 by lia. by rewrite Z.eqb_refl.
    + intros j Hj H1 H2 H3. rewrite b8_put16 by (rewrite ?len_put8; lia).
      rewrite b8_put8 by lia. bcase; lia.
  - injection E as <- <-. rewrite !len_put8. unfold len at 3. cbn [length Z.of_nat].
    rewrite Z.add_0_r. splits; auto; try lia.
    + by apply bytes_put8.
    + rewrite <- Hn by done. apply b16_frame. intros j Hj. rewrite b8_put8 by lia. bcase; lia.
    + rewrite b8_put8 by lia. by rewrite Z.eqb_refl.
    + intros j Hj H1 H2 H3. rewrite b8_put8 by lia. bcase; lia.
Qed.

Lemma stepW_ok mem cp ch bit h t i v h1 cp1 : okh h t -> 0 <= i -> i + 1 < len h -> 0 <= v < 65536 ->
  (if has ch bit then let '(v, cp) := DECODES mem cp (b16 h i) in (put16 h i v, cp) else (h, cp))
    = (h1, cp1) ->
  let d := u16 (v - b16 h i) in
  let e := if has ch bit then ENCODE d else [] in
  at_bytes mem cp e -> has ch bit = negb (d =? 0) ->
  okh h1 t /\ len h1 = len h /\ cp1 = cp + len e /\ b16 h1 i = v /\
  (forall j, 0 <= j -> j <> i -> j <> i + 1 -> b8 h1 j = b8 h j).
Proof.
  intros (Hb & Ht & Hl) Hi Hi2 Hv E d e He Hn. pose proof (b16_range h i Hb) as Hr.
  assert (Hd : u16 d = d) by (apply u16_small; apply u16_range).
  assert (Hv' : u16 (b16 h i + d) = v).
  { unfold d, u16. rewrite Zplus_mod_idemp_r. rewrite Z.mod_small; lia. }
  subst e. unfold okh. rewrite Hn in *. destruct (Z.eqb_spec d 0) as [Hz|Hz]; cbn [negb] in *.
  - injection E as <- <-. unfold len at 3. cbn. rewrite Z.add_0_r. splits; auto.
    rewrite Hz, Z.add_0_r, u16_small in Hv' by lia. done.
  - unfold DECODES in E. rewrite (decode_ENCODE mem cp d He) in E by lia. rewrite Hd, Hv' in E.
    injection E as <- <-. rewrite len_put16. splits; auto.
    + by apply bytes_put16.
    + apply b16_put16; lia.
    + intros. apply b8_put16; lia.
Qed.

Lemma stepL_ok mem cp ch bit h t i v h1 cp1 : okh h t -> 0 <= i -> i + 3 < len h ->
  0 <= v < 4294967296 ->
  (if has ch bit then let '(v, cp) := DECODEL mem cp (b32 h i) in (put32 h i v, cp) else (h, cp))
    = (h1, cp1) ->
  let d := u32 (v - b32 h i) in
  let e := if has ch bit then ENCODE d else [] in
  at_bytes mem cp e -> has ch bit = negb (d =? 0) -> d <= 0xffff ->
  okh h1 t /\ len h1 = len h /\ cp1 = cp + len e /\ b32 h1 i = v /\
  (forall j, 0 <= j -> j < i \/ i + 3 < j -> b8 h1 j = b8 h j).
Proof.
  intros (Hb & Ht & Hl) Hi Hi2 Hv E d e He Hn Hmax. pose proof (b32_range h i Hb) as Hr.
  assert (Hd : u16 d = d) by (apply u16_small; pose proof (u32_range (v - b32 h i)); unfold d in *; lia).
  assert (Hv' : u32 (b32 h i + d) = v).
  { unfold d, u32. rewrite Zplus_mod_idemp_r. rewrite Z.mod_small; lia. }
  subst e. unfold okh. rewrite Hn in *. destruct (Z.eqb_spec d 0) as [Hz|Hz]; cbn [negb] in *.
  - injection E as <- <-. unfold len at 3. cbn. rewrite Z.add_0_r. splits; auto.
    rewrite Hz, Z.add_0_r, u32_small in Hv' by lia. done.
  - unfold DECODEL in E. rewrite (decode_ENCODE mem cp d He) in E by lia. rewrite Hd, Hv' in E.
    injection E as <- <-. rewrite len_put32. splits; auto.
    + by apply bytes_put32.
    + apply b32_put32; lia.
    + intros. apply b8_put32; lia.
Qed.

Definition restored (h p : list Z) (t : Z) : Prop :=
  th_urp h t = th_urp p t /\ th_win h t = th_win p t /\ th_ack h t = th_ack p t /\
  th_seq h t = th_seq p t.

(** The bytes the sequence-number step may change. *)
Definition seq_area (t j : Z) : Prop := t + 4 <= j < t + 12 \/ t + 13 <= j < t + 16 \/ t + 18 <= j < t + 20.

Definition applied (p h : list Z) (t cp : Z) (e : list Z) (f : Z) (r : list Z * Z) : Prop :=
  okh r.1 t /\ len r.1 = len h /\ r.2 = cp + len e /\ restored r.1 p t /\ b8 r.1 (t + 13) = f /\
  (forall j, 0 <= j -> ~ seq_area t j -> b8 r.1 j = b8 h j).

Definition delta16 (v w : Z) : Z := u16 (v - w).
Definition delta32 (v w : Z) : Z := u32 (v - w).

(** The encoding of the sequence numbers of [p] against those of [h]. *)
Definition seq_enc (u w a s : bool) (p h : list Z) (t : Z) : list Z :=
  (if u then ENCODEZ (th_urp p t) else []) ++
  (if w then ENCODE (delta16 (th_win p t) (th_win h t)) else []) ++
  (if a then ENCODE (delta32 (th_ack p t) (th_ack h t)) else []) ++
  (if s then ENCODE (delta32 (th_seq p t) (th_seq h t)) else []).

Lemma len_app (a b : list Z) : len (a ++ b) = len a + len b.
Proof. unfold len. rewrite length_app. lia. Qed.

Lemma sl_apply_plain mem cp ch h p t hl : okh h t -> bytes p ->
  Z.land ch SPECIALS_MASK <> SPECIAL_I -> Z.land ch SPECIALS_MASK <> SPECIAL_D ->
  has ch NEW_W = negb (delta16 (th_win p t) (th_win h t) =? 0) ->
  has ch NEW_A = negb (delta32 (th_ack p t) (th_ack h t) =? 0) ->
  has ch NEW_S = negb (delta32 (th_seq p t) (th_seq h t) =? 0) ->
  delta32 (th_ack p t) (th_ack h t) <= 0xffff -> delta32 (th_seq p t) (th_seq h t) <= 0xffff ->
  (has ch NEW_U = false -> th_urp h t = th_urp p t) ->
  let e := seq_enc (has ch NEW_U) (has ch NEW_W) (has ch NEW_A) (has ch NEW_S) p h t in
  at_bytes mem cp e ->
  applied p h t cp e (u8 (flagU (has ch NEW_U) (b8 h (t + 13)))) (sl_apply mem cp ch h t hl).
Proof.
  intros Hh Hp HI HD HW HA HS HmA HmS HU e He.
  pose proof (b16_range p (t + 18) Hp) as R1. pose proof (b16_range p (t + 14) Hp) as R2.
  pose proof (b32_range p (t + 8) Hp) as R3. pose proof (b32_range p (t + 4) Hp) as R4.
  unfold sl_apply. destruct (Z.eqb_spec (Z.land ch SPECIALS_MASK) SPECIAL_I); [done|].
  destruct (Z.eqb_spec (Z.land ch SPECIALS_MASK) SPECIAL_D); [done|].
  unfold e, seq_enc in *. clear e.
  apply at_app in He as [He1 He]. apply at_app in He as [He2 He]. apply at_app in He as [He3 He4].
  pose proof Hh as (_ & Ht & Hl).
  match goal with |- applied _ _ _ _ _ _ (let '(_, _) := ?x in _) => destruct x as [h1 cp1] eqn:E1 end.
  destruct (stepU_ok _ _ _ _ _ (th_urp p t) _ _ Hh R1 E1 He1 HU) as (K1 & L1 & C1 & V1 & F1 & G1).
  match goal with |- applied _ _ _ _ _ _ (let '(_, _) := ?x in _) => destruct x as [h2 cp2] eqn:E2 end.
  assert (W1 : th_win h1 t = th_win h t) by (apply b16_frame; intros; apply G1; lia).
  destruct (stepW_ok mem cp1 ch NEW_W h1 t (t + 14) (th_win p t) h2 cp2 K1) as (K2 & L2 & C2 & V2 & G2);
    [lia|lia|done|exact E2| | |].
  { change (b16 h1 (t + 14)) with (th_win h1 t). rewrite W1, C1. exact He2. }
  { change (b16 h1 (t + 14)) with (th_win h1 t). rewrite W1. exact HW. }
  change (b16 h1 (t + 14)) with (th_win h1 t) in C2. rewrite W1 in C2.
  match goal with |- applied _ _ _ _ _ _ (let '(_, _) := ?x in _) => destruct x as [h3 cp3] eqn:E3 end.
  assert (W2 : th_ack h2 t = th_ack h t).
  { apply b32_frame. intros j Hj. rewrite G2 by lia. apply G1; lia. }
  destruct (stepL_ok mem cp2 ch NEW_A h2 t (t + 8) (th_ack p t) h3 cp3 K2) as (K3 & L3 & C3 & V3 & G3);
    [lia|lia|done|exact E3| | | |].
  { change (b32 h2 (t + 8)) with (th_ack h2 t). rewrite W2, C2, C1. exact He3. }
  { change (b32 h2 (t + 8)) with (th_ack h2 t). rewrite W2. exact HA. }
  { change (b32 h2 (t + 8)) with (th_ack h2 t). rewrite W2. exact HmA. }
  change (b32 h2 (t + 8)) with (th_ack h2 t) in C3. rewrite W2 in C3.
  match goal with |- applied _ _ _ _ _ _ ?x => destruct x as [h4 cp4] eqn:E4 end.
  assert (W3 : th_seq h3 t = th_seq h t).
  { apply b32_frame. intros j Hj. rewrite G3, G2 by lia. apply G1; lia. }
  destruct (stepL_ok mem cp3 ch NEW_S h3 t (t + 4) (th_seq p t) h4 cp4 K3) as (K4 & L4 & C4 & V4 & G4);
    [lia|lia|done|exact E4| | | |].
  { change (b32 h3 (t + 4)) with (th_seq h3 t). rewrite W3, C3, C2, C1. exact He4. }
  { change (b32 h3 (t + 4)) with (th_seq h3 t). rewrite W3. exact HS. }
  { change (b32 h3 (t + 4)) with (th_seq h3 t). rewrite W3. exact HmS. }
  change (b32 h3 (t + 4)) with (th_seq h3 t) in C4. rewrite W3 in C4.
  unfold applied, restored. cbn [fst snd]. splits; auto.
  - congruence.
  - rewrite !len_app. unfold delta16, delta32. lia.
  - rewrite <- V1. apply b16_frame. intros j Hj. rewrite G4, G3, G2 by lia. done.
  - rewrite <- V2. apply b16_frame. intros j Hj. rewrite G4, G3 by lia. done.
  - rewrite <- V3. apply b32_frame. intros j Hj. by rewrite G4 by lia.
  - rewrite G4, G3, G2 by lia. exact F1.
  - intros j Hj Hn. unfold seq_area in Hn. rewrite G4, G3, G2 by lia. apply G1; lia.
Qed.

(** The two special cases: the acknowledgement or the sequence number moves by
    the amount of data in the last packet. *)
Lemma sl_apply_special mem cp ch h p t hl : okh h t -> bytes p ->
  th_urp h t = th_urp p t -> th_win h t = th_win p t ->
  let i := u32 (ip_len h - hl) in
  (Z.land ch SPECIALS_MASK = SPECIAL_I /\ delta32 (th_ack p t) (th_ack h t) = i /\
     delta32 (th_seq p t) (th_seq h t) = i) \/
  (Z.land ch SPECIALS_MASK = SPECIAL_D /\ th_ack h t = th_ack p t /\
     delta32 (th_seq p t) (th_seq h t) = i) ->
  applied p h t cp [] (b8 h (t + 13)) (sl_apply mem cp ch h t hl).
Proof.
  intros (Hb & Ht & Hl) Hp HU HW i Hc.
  pose proof (b32_range p (t + 8) Hp) as R3. pose proof (b32_range p (t + 4) Hp) as R4.
  pose proof (b32_range h (t + 8) Hb) as R5. pose proof (b32_range h (t + 4) Hb) as R6.
  assert (Hadd : forall v w, 0 <= v < 4294967296 -> 0 <= w < 4294967296 -> delta32 v w = i -> u32 (w + i) = v).
  { intros v w Hv Hw <-. unfold delta32, u32. rewrite Zplus_mod_idemp_r. rewrite Z.mod_small; lia. }
  unfold sl_apply. fold i. destruct Hc as [(Hm & HA & HS)|(Hm & HA & HS)]; rewrite Hm.
  - change (SPECIAL_I =? SPECIAL_I) with true. cbv iota.
    rewrite (Hadd (th_ack p t)), (Hadd (th_seq p t)) by done.
    unfold applied, restored, okh. cbn [fst snd]. rewrite !len_put32. splits; auto; try lia.
    + by do 2 apply bytes_put32.
    + unfold len. cbn. lia.
    + rewrite <- HU. apply b16_frame. intros j Hj. rewrite !b8_put32 by (rewrite ?len_put32; lia). done.
    + rewrite <- HW. apply b16_frame. intros j Hj. rewrite !b8_put32 by (rewrite ?len_put32; lia). done.
    + unfold th_ack at 1. rewrite (b32_frame (put32 h (t + 8) (th_ack p t))).
      * apply b32_put32; lia || done.
      * intros j Hj. apply b8_put32; rewrite ?len_put32; lia.
    + apply b32_put32; rewrite ?len_put32; lia || done.
    + rewrite !b8_put32 by (rewrite ?len_put32; lia). done.
    + intros j Hj Hn. unfold seq_area in Hn. rewrite !b8_put32 by (rewrite ?len_put32; lia). done.
  - change (SPECIAL_D =? SPECIAL_I) with false. change (SPECIAL_D =? SPECIAL_D) with true. cbv iota.
    rewrite (Hadd (th_seq p t)) by done.
    unfold applied, restored, okh. cbn [fst snd]. rewrite !len_put32. splits; auto; try lia.
    + by apply bytes_put32.
    + unfold len. cbn. lia.
    + rewrite <- HU. apply b16_frame. intros j Hj. rewrite b8_put32 by lia. done.
    + rewrite <- HW. apply b16_frame. intros j Hj. rewrite b8_put32 by lia. done.
    + rewrite <- HA. apply b32_frame. intros j Hj. rewrite b8_put32 by lia. done.
    + apply b32_put32; lia || done.
    + rewrite b8_put32 by lia. done.
    + intros j Hj Hn. unfold seq_area in Hn. rewrite b8_put32 by lia. done.
Qed.

(** ** The sender's change mask *)
Definition mask (u w a s : bool) : Z :=
  Z.lor (Z.lor (Z.lor (if u then NEW_U else 0) (if w then NEW_W else 0)) (if a then NEW_A else 0))
        (if s then NEW_S else 0).

Lemma mask_has u w a s :
  has (mask u w a s) NEW_U = u /\ has (mask u w a s) NEW_W = w /\
  has (mask u w a s) NEW_A = a /\ has (mask u w a s) NEW_S = s /\ 0 <= mask u w a s < 16.
Proof. destruct u, w, a, s; vm_compute; splits; (reflexivity || discriminate). Qed.

Lemma sl_deltas_ok p h t e ch dS dA : sl_deltas p h t = Some (e, ch, dS, dA) ->
  let u := has (th_flags p t) TH_URG in
  let w := negb (delta16 (th_win p t) (th_win h t) =? 0) in
  let a := negb (delta32 (th_ack p t) (th_ack h t) =? 0) in
  let s := negb (delta32 (th_seq p t) (th_seq h t) =? 0) in
  e = seq_enc u w a s p h t /\ ch = mask u w a s /\
  dS = delta32 (th_seq p t) (th_seq h t) /\ dA = delta32 (th_ack p t) (th_ack h t) /\
  (u = false -> th_urp h t = th_urp p t) /\ dA <= 0xffff /\ dS <= 0xffff.
Proof.
  intros H u w a s. unfold sl_deltas in H.
  fold (delta16 (th_win p t) (th_win h t)) in H. fold (delta32 (th_ack p t) (th_ack h t)) in H.
  fold (delta32 (th_seq p t) (th_seq h t)) in H. fold u in H.
  set (urg := if u then _ else _) in H.
  assert (Hurg : urg = None \/ (urg = Some (if u then ENCODEZ (th_urp p t) else [], if u then NEW_U else 0)
    /\ (u = false -> th_urp h t = th_urp p t))).
  { unfold urg. destruct u; [right; by split|].
    destruct (Z.eqb_spec (th_urp p t) (th_urp h t)); [right; by split|by left]. }
  destruct Hurg as [E|[E HU]]; rewrite E in H; [done|]. clear urg E.
  unfold w, a, s, seq_enc, mask.
  set (dw := delta16 (th_win p t) (th_win h t)) in *. set (da := delta32 (th_ack p t) (th_ack h t)) in *.
  set (ds := delta32 (th_seq p t) (th_seq h t)) in *. clearbody dw u. clear w a s.
  assert (Hgt : forall d x, negb (d =? 0) && (d >? 65535) = x -> 0 <= d -> (if x then 65535 < d else d <= 65535)).
  { intros d x <- Hd. rewrite Z.gtb_ltb. destruct (Z.eqb_spec d 0), (Z.ltb_spec 65535 d); cbn; lia. }
  pose proof (Hgt da _ eq_refl ltac:(unfold da, delta32; apply u32_range)) as Ga.
  pose proof (Hgt ds _ eq_refl ltac:(unfold ds, delta32; apply u32_range)) as Gs.
  destruct (dw =? 0);
    (destruct (negb (da =? 0) && (da >? 65535)); [done|]);
    (destruct (da =? 0));
    (destruct (negb (ds =? 0) && (ds >? 65535)); [done|]);
    (destruct (ds =? 0)); injection H as <- <- <- <-; cbn [negb];
    rewrite ?app_nil_r, ?Z.lor_0_r, <- ?app_assoc; splits; auto.
Qed.

Definition special (core : Z) : bool := (core =? SPECIAL_I) || (core =? SPECIAL_D).

(** What the receiver's sequence-number step does with the sender's choice. *)
Definition core_ok (p h : list Z) (t hlen : Z) (e : list Z) (core : Z) : Prop :=
  0 <= core < 16 /\ (special core = true -> has (th_flags p t) TH_URG = false) /\
  forall mem cp ch hr, okh hr t -> restored hr h t -> ip_len hr = ip_len h ->
    Z.land ch SPECIALS_MASK = core -> at_bytes mem cp e ->
    applied p hr t cp e
      (if special core then b8 hr (t + 13)
       else u8 (flagU (has (th_flags p t) TH_URG) (b8 hr (t + 13))))
      (sl_apply mem cp ch hr t hlen).

Lemma seq_enc_restored u w a s p h hr t : restored hr h t -> seq_enc u w a s p hr t = seq_enc u w a s p h t.
Proof. intros (E1 & E2 & E3 & E4). unfold seq_enc. by rewrite E2, E3, E4. Qed.

Lemma has_low ch b : Z.land SPECIALS_MASK b = b -> has ch b = has (Z.land ch SPECIALS_MASK) b.
Proof. intros H. by rewrite has_land, H. Qed.

Lemma sl_core_ok p h t hlen e0 ch0 dS dA e core : bytes p -> bytes h ->
  sl_deltas p h t = Some (e0, ch0, dS, dA) -> sl_special p h hlen e0 ch0 dS dA = Some (e, core) ->
  core_ok p h t hlen e core.
Proof.
  intros Hp Hh Hd Hs. destruct (sl_deltas_ok _ _ _ _ _ _ _ Hd) as (He & Hch & HdS & HdA & HU & HmA & HmS).
  set (u := has (th_flags p t) TH_URG) in *.
  set (w := negb (delta16 (th_win p t) (th_win h t) =? 0)) in *.
  set (a := negb (delta32 (th_ack p t) (th_ack h t) =? 0)) in *.
  set (s := negb (delta32 (th_seq p t) (th_seq h t) =? 0)) in *.
  destruct (mask_has u w a s) as (M1 & M2 & M3 & M4 & M5).
  (* the plain encoding *)
  assert (Hplain : mask u w a s <> SPECIAL_I -> mask u w a s <> SPECIAL_D ->
    core_ok p h t hlen (seq_enc u w a s p h t) (mask u w a s)).
  { intros HI HD. unfold core_ok. assert (special (mask u w a s) = false) as ->.
    { unfold special. by rewrite (proj2 (Z.eqb_neq _ _) HI), (proj2 (Z.eqb_neq _ _) HD). }
    splits; [lia|lia|done|]. intros mem cp ch hr Hok Hres Hlen Hm Hat.
    assert (B1 : has ch NEW_U = u) by (by rewrite has_low, Hm).
    assert (B2 : has ch NEW_W = w) by (by rewrite has_low, Hm).
    assert (B3 : has ch NEW_A = a) by (by rewrite has_low, Hm).
    assert (B4 : has ch NEW_S = s) by (by rewrite has_low, Hm).
    pose proof Hres as (R1 & R2 & R3 & R4).
    pose proof (sl_apply_plain mem cp ch hr p t hlen Hok Hp) as HA.
    rewrite Hm, B1, B2, B3, B4, R1, R2, R3, R4, (seq_enc_restored u w a s p h hr t Hres) in HA.
    apply HA; auto; lia. }
  (* the special cases *)
  assert (Hspec : forall k, (k = SPECIAL_I /\ delta32 (th_ack p t) (th_ack h t) = u32 (ip_len h - hlen) \/
      k = SPECIAL_D /\ th_ack h t = th_ack p t) ->
    delta32 (th_seq p t) (th_seq h t) = u32 (ip_len h - hlen) -> u = false -> w = false ->
    core_ok p h t hlen [] k).
  { intros k Hk HS Hu Hw. unfold core_ok. fold u. assert (special k = true) as ->
      by (unfold special; destruct Hk as [[-> _]|[-> _]]; done).
    assert (0 <= k < 16) by (destruct Hk as [[-> _]|[-> _]]; vm_compute; intuition congruence).
    splits; [lia|lia|done|]. intros mem cp ch hr Hok Hres Hlen Hm Hat.
    pose proof Hres as (R1 & R2 & R3 & R4).
    assert (HW : th_win h t = th_win p t).
    { unfold w in Hw. apply negb_false_iff, Z.eqb_eq in Hw. unfold delta16, u16 in Hw.
      pose proof (b16_range p (t + 14) Hp). pose proof (b16_range h (t + 14) Hh).
      unfold th_win in *. change (2 ^ 16) with 65536 in Hw. zdiv. }
    apply sl_apply_special; auto; try congruence; [by rewrite R1, HU|].
    rewrite Hlen, R3, R4, Hm. destruct Hk as [[-> Hk]|[-> Hk]]; [left|right]; by splits. }
  unfold sl_special in Hs. rewrite Hch in Hs.
  destruct (Z.eqb_spec (mask u w a s) 0) as [E0|E0].
  { destruct (negb (ip_len p =? ip_len h) && (ip_len h =? hlen)); [|done].
    injection Hs as <- <-. rewrite He. apply Hplain; rewrite E0; done. }
  destruct (Z.eqb_spec (mask u w a s) SPECIAL_I) as [E1|E1]; [done|].
  destruct (Z.eqb_spec (mask u w a s) SPECIAL_D) as [E2|E2]; [done|]. cbn [orb] in Hs.
  destruct (Z.eqb_spec (mask u w a s) (Z.lor NEW_S NEW_A)) as [E3|E3].
  { destruct (Z.eqb_spec dS dA), (Z.eqb_spec dS (u32 (ip_len h - hlen))); cbn [andb] in Hs;
      injection Hs as <- <-; try (rewrite He; by apply Hplain).
    rewrite E3 in *. apply Hspec; [left; split; [done|congruence]|congruence|done|done]. }
  destruct (Z.eqb_spec (mask u w a s) NEW_S) as [E4|E4].
  { destruct (Z.eqb_spec dS (u32 (ip_len h - hlen))); injection Hs as <- <-;
      try (rewrite He; by apply Hplain).
    rewrite E4 in *. apply Hspec; [right; split; [done|]|congruence|done|done].
    assert (a = false) as Ha by done. unfold a in Ha. apply negb_false_iff, Z.eqb_eq in Ha.
    unfold delta32, u32 in Ha. pose proof (b32_range p (t + 8) Hp). pose proof (b32_range h (t + 8) Hh).
    unfold th_ack in *. change (2 ^ 32) with 4294967296 in Ha. zdiv. }
  injection Hs as <- <-. rewrite He. by apply Hplain.
Qed.

(** ** The receiver's new header *)

(** The bytes of a header that may change between packets of a connection. *)
Definition dyn (t j : Z) : Prop :=
  2 <= j < 6 \/ 10 <= j < 12 \/ t + 4 <= j < t + 12 \/ t + 13 <= j < t + 20.

Definition good_flags (f : Z) : Prop := f = 16 \/ f = 24 \/ f = 48 \/ f = 56.

(** The receiver's saved header: the sender's with a zero IP checksum. *)
Definition rsync (h hr : list Z) (hlen : Z) : Prop :=
  bytes hr /\ len hr = MAX_HDR /\ b8 hr 10 = 0 /\ b8 hr 11 = 0 /\
  forall j, 0 <= j < hlen -> j <> 10 -> j <> 11 -> b8 hr j = b8 h j.

Definition id_enc (p h : list Z) : list Z :=
  let d := u32 (ip_id p - ip_id h) in if negb (d =? 1) then ENCODEZ d else [].

Lemma flags_step fp fh sp : good_flags fp -> good_flags fh ->
  (sp = true -> has fp TH_URG = false /\ has fh TH_URG = false) ->
  let f1 := if has fp TH_PUSH then u8 (Z.lor fh TH_PUSH) else u8 (Z.land fh (Z.lnot TH_PUSH)) in
  (if sp then f1 else u8 (flagU (has fp TH_URG) f1)) = fp.
Proof.
  intros [->|[->|[->| ->]]] [->|[->|[->| ->]]]; destruct sp; intros H; try reflexivity;
    destruct (H eq_refl) as [H1 H2]; vm_compute in H1, H2; discriminate.
Qed.

Lemma sl_new_header_ok p h hr t hlen e core mem cp ch : bytes p -> bytes h -> rsync h hr hlen ->
  t = 4 * ip_hl h -> 20 <= t -> t + 20 <= hlen <= MAX_HDR ->
  core_ok p h t hlen e core ->
  (forall j, 0 <= j < hlen -> ~ dyn t j -> b8 h j = b8 p j) ->
  good_flags (th_flags p t) -> good_flags (th_flags h t) ->
  (special core = true -> has (th_flags h t) TH_URG = false) ->
  Z.land ch SPECIALS_MASK = core -> has ch TCP_PUSH_BIT = has (th_flags p t) TH_PUSH ->
  has ch NEW_I = negb (u32 (ip_id p - ip_id h) =? 1) ->
  at_bytes mem cp ([u8 (Z.shiftr (th_sum p t) 8); u8 (th_sum p t)] ++ e ++ id_enc p h) ->
  let '(h2, cp2) := sl_new_header mem cp ch hr hlen in
  cp2 = cp + 2 + len e + len (id_enc p h) /\ bytes h2 /\ len h2 = MAX_HDR /\
  (forall j, 0 <= j < hlen -> j <> 2 -> j <> 3 -> j <> 10 -> j <> 11 -> b8 h2 j = b8 p j) /\
  b8 h2 10 = 0 /\ b8 h2 11 = 0.
Proof.
  intros Hp Hh (Hb & Hl & Z10 & Z11 & Hs) Ht Ht20 Hlen (Hcore & HspU & Happ) Hst Hfp Hfh Hurg Hm HP HI Hat.
  unfold MAX_HDR, MLEN in *. pose proof (b16_range p (t + 16) Hp) as Rsum.
  apply at_app in Hat as [Hsum Hat]. apply at_app in Hat as [He Hid].
  replace (len [u8 (th_sum p t ≫ 8); u8 (th_sum p t)]) with 2 in He, Hid by done.
  unfold sl_new_header. assert (4 * ip_hl hr = t) as -> by (unfold ip_hl in *; by rewrite Hs by lia).
  assert (Hcs : Z.lor (Z.shiftl (b8 mem cp) 8) (b8 mem (cp + 1)) = th_sum p t).
  { pose proof (Hsum 0 ltac:(unfold len; cbn; lia)) as S0. pose proof (Hsum 1 ltac:(unfold len; cbn; lia)) as S1.
    rewrite Z.add_0_r in S0. rewrite S0, S1.
    change (b8 [u8 (th_sum p t ≫ 8); u8 (th_sum p t)] 0) with (u8 (th_sum p t ≫ 8)).
    change (b8 [u8 (th_sum p t ≫ 8); u8 (th_sum p t)] 1) with (u8 (th_sum p t)).
    rewrite lor_shiftl8 by apply u8_range. unfold th_sum in *. rewrite Z.shiftr_div_pow2 by lia.
    unfold u8. change (2 ^ 8) with 256. zdiv. }
  rewrite Hcs. set (h1 := put16 hr (t + 16) (th_sum p t)).
  assert (G1 : forall j, 0 <= j -> j <> t + 16 -> j <> t + 17 -> b8 h1 j = b8 hr j).
  { intros. apply b8_put16; lia. }
  assert (L1 : len h1 = 108) by (unfold h1; by rewrite len_put16).
  assert (B1 : bytes h1) by (by apply bytes_put16).
  rewrite HP. set (f1 := if has (th_flags p t) TH_PUSH then u8 (Z.lor (th_flags h t) TH_PUSH)
                         else u8 (Z.land (th_flags h t) (Z.lnot TH_PUSH))).
  assert (Hfl : th_flags h1 t = th_flags h t) by (unfold th_flags; rewrite G1, Hs by lia; done).
  rewrite Hfl. set (h2 := if has (th_flags p t) TH_PUSH then _ else _).
  assert (G2 : b8 h2 (t + 13) = f1 /\ bytes h2 /\ len h2 = 108 /\
    forall j, 0 <= j -> j <> t + 13 -> b8 h2 j = b8 h1 j).
  { unfold h2, f1. destruct (has (th_flags p t) TH_PUSH); rewrite len_put8; splits; auto;
      try (by apply bytes_put8); try (rewrite b8_put8 by lia; by rewrite Z.eqb_refl);
      intros; rewrite b8_put8 by lia; bcase; lia. }
  clearbody h2. destruct G2 as (F2 & B2 & L2 & G2).
  assert (O2 : okh h2 t) by (unfold okh; splits; [done|lia|lia]).
  assert (G02 : forall j, 0 <= j < hlen -> j <> 10 -> j <> 11 -> j <> t + 13 -> j <> t + 16 -> j <> t + 17 ->
    b8 h2 j = b8 h j) by (intros; rewrite G2, G1, Hs by lia; done).
  assert (R2 : restored h2 h t).
  { unfold restored, th_urp, th_win, th_ack, th_seq. splits;
      (apply b16_frame || apply b32_frame); intros; apply G02; lia. }
  assert (IL2 : ip_len h2 = ip_len h) by (apply b16_frame; intros; apply G02; lia).
  specialize (Happ mem (cp + 2) ch h2 O2 R2 IL2 Hm He). rewrite F2 in Happ.
  destruct (sl_apply mem (cp + 2) ch h2 t hlen) as [h3 cp3].
  destruct Happ as (O3 & L3 & C3 & (V1 & V2 & V3 & V4) & F3 & G3). cbn [fst snd] in *.
  rewrite (flags_step (th_flags p t) (th_flags h t)) in F3 by auto.
  assert (Hid3 : ip_id h3 = ip_id h).
  { apply b16_frame. intros j Hj. rewrite G3 by (unfold seq_area; lia). apply G02; lia. }
  pose proof (b16_range p 4 Hp) as Rid. pose proof (b16_range h 4 Hh) as Rid'.
  assert (Hfin : exists h4, (if has ch NEW_I
      then let '(v, cp) := DECODES mem cp3 (ip_id h3) in (put16 h3 4 v, cp)
      else (put16 h3 4 (u16 (ip_id h3 + 1)), cp3)) = (h4, cp3 + len (id_enc p h)) /\
    h4 = put16 h3 4 (ip_id p)).
  { eexists. split; [|reflexivity]. rewrite HI, Hid3. rewrite C3 in *. unfold id_enc in *.
    set (d := u32 (ip_id p - ip_id h)) in *. unfold ip_id in *.
    destruct (Z.eqb_spec d 1) as [E|E]; cbn [negb] in *.
    - rewrite Z.add_0_r. f_equal. f_equal. unfold d, u32 in E. change (2 ^ 32) with 4294967296 in E.
      unfold u16. change (2 ^ 16) with 65536. zdiv.
    - unfold DECODES. rewrite (decode_ENCODEZ mem (cp + 2 + len e) d Hid). f_equal. f_equal.
      unfold d, u32, u16. change (2 ^ 32) with 4294967296. change (2 ^ 16) with 65536. zdiv. }
  destruct Hfin as (h4 & -> & ->). destruct O3 as (B3 & _ & _). unfold ip_id.
  rewrite len_put16. splits.
  - lia.
  - by apply bytes_put16.
  - lia.
  - intros j Hj N2 N3 N10 N11.
    destruct (decide (j = 4 \/ j = 5)) as [Hj4|Hj4].
    { destruct (b16_inj (put16 h3 4 (b16 p 4)) p 4) as [I1 I2]; [by apply bytes_put16|done| |].
      - apply b16_put16; lia.
      - destruct Hj4 as [->| ->]; done. }
    rewrite b8_put16 by lia.
    assert (b8 h3 (t + 4) = b8 p (t + 4) /\ True) by (split; [|done]; apply (b32_inj h3 p (t + 4)); auto; lia).
    destruct (decide (t + 4 <= j < t + 8)); [apply (b32_inj h3 p (t + 4)); auto; lia|].
    destruct (decide (t + 8 <= j < t + 12)); [apply (b32_inj h3 p (t + 8)); auto; lia|].
    destruct (decide (t + 14 <= j < t + 16)).
    { destruct (b16_inj h3 p (t + 14) B3 Hp V2) as [I1 I2].
      replace (t + 14 + 1) with (t + 15) in I2 by lia.
      destruct (decide (j = t + 14)) as [->|]; [done|]. by replace j with (t + 15) by lia. }
    destruct (decide (t + 18 <= j < t + 20)).
    { destruct (b16_inj h3 p (t + 18) B3 Hp V1) as [I1 I2].
      replace (t + 18 + 1) with (t + 19) in I2 by lia.
      destruct (decide (j = t + 18)) as [->|]; [done|]. by replace j with (t + 19) by lia. }
    destruct (decide (j = t + 13)) as [->|]; [exact F3|].
    rewrite G3 by (unfold seq_area; lia). rewrite G2 by lia.
    destruct (decide (t + 16 <= j < t + 18)).
    { destruct (b16_inj h1 p (t + 16) B1 Hp) as [I1 I2]; [apply b16_put16; lia|].
      replace (t + 16 + 1) with (t + 17) in I2 by lia.
      destruct (decide (j = t + 16)) as [->|]; [done|]. by replace j with (t + 17) by lia. }
    rewrite G1, Hs by lia. apply Hst; [done|]. unfold dyn. lia.
  - rewrite b8_put16 by lia. rewrite G3 by (unfold seq_area; lia). by rewrite G2, G1 by lia.
  - rewrite b8_put16 by lia. rewrite G3 by (unfold seq_area; lia). by rewrite G2, G1 by lia.
Qed.

(** ** The two ends in step *)

Definition hlen_of (h : list Z) : Z := 4 * (ip_hl h + th_off h (4 * ip_hl h)).

(** A TCP/IP header the compressor may have saved. *)
Definition saved (h : list Z) : Prop :=
  5 <= ip_hl h /\ 5 <= th_off h (4 * ip_hl h) /\ hlen_of h <= MAX_HDR /\
  Z.land (b8 h (4 * ip_hl h + 12)) 0xf = 0 /\ good_flags (th_flags h (4 * ip_hl h)).

Definition is_ipv4 (h : list Z) : bool := Z.land (b8 h 0) 0xf0 =? 0x40.

Definition full (h : list Z) : Prop := bytes h /\ len h = MAX_HDR.

(** Transmit state [c] number [i] against receive state [cr]: a header that was
    sent is known at the other end. *)
Definition sync_at (c : cstate) (i : nat) (cr : cstate) : Prop :=
  cs_id c = Z.of_nat i /\ full (cs_hdr c) /\ full (cs_hdr cr) /\
  (is_ipv4 (cs_hdr c) = true ->
     saved (cs_hdr c) /\ rsync (cs_hdr c) (cs_hdr cr) (hlen_of (cs_hdr c)) /\
     cs_hlen cr = hlen_of (cs_hdr c)).

Definition synced (ts rs : list cstate) : Prop :=
  length ts = MAX_STATES /\ length rs = MAX_STATES /\
  forall i c cr, ts !! i = Some c -> rs !! i = Some cr -> sync_at c i cr.

(** Transmitter [C] and receiver [R]. *)
Definition sync (C R : slcompress) : Prop :=
  (exists order, ring C order) /\ synced (tstate C) (rstate R) /\
  (last_xmit C = 255 \/
   (last_recv R = last_xmit C /\ 0 <= last_xmit C < 16 /\ has (flags R) SLF_TOSS = false)).

Lemma synced_ids ts ts' rs : ids ts' = ids ts -> synced ts rs -> synced ts' rs.
Proof.
  intros E (H1 & H2 & H3). assert (Hl : length ts' = length ts).
  { apply (f_equal length) in E. unfold ids in E. by rewrite !length_fmap in E. }
  unfold synced. splits; [by rewrite Hl|done|]. intros i c cr Hc Hcr.
  assert (Hi : ids ts' !! i = Some (cs_id c, cs_hdr c)) by (unfold ids; by rewrite list_lookup_fmap, Hc).
  rewrite E in Hi. unfold ids in Hi. rewrite list_lookup_fmap in Hi.
  destruct (ts !! i) as [c0|] eqn:E0; [|done]. cbn in Hi. injection Hi as Hi Hh.
  specialize (H3 i c0 cr E0 Hcr). unfold sync_at in *. by rewrite <- Hi, <- Hh.
Qed.

Lemma synced_insert ts rs i c cr : synced ts rs -> sync_at c i cr ->
  synced (<[i := c]> ts) (<[i := cr]> rs).
Proof.
  intros (H1 & H2 & H3) Hs. unfold synced. rewrite !length_insert. splits; auto.
  intros j cj crj Hj Hrj. destruct (decide (i = j)) as [->|Hne].
  - destruct (decide (j < length ts)%nat).
    + rewrite list_lookup_insert_eq in Hj, Hrj by lia. by injection Hj as <-; injection Hrj as <-.
    + rewrite list_insert_ge in Hj by lia. apply lookup_lt_Some in Hj. lia.
  - rewrite list_lookup_insert_ne in Hj, Hrj by done. by apply H3.
Qed.

Lemma ring_same comp comp' order : ring comp order -> length (tstate comp') = length (tstate comp) ->
  (forall i, next (tstate comp') i = next (tstate comp) i) -> last_cs comp' = last_cs comp ->
  ring comp' order.
Proof.
  intros (H1 & H2 & H3 & H4 & H5 & H6) Hlen Hn Hl. unfold ring. rewrite Hlen, Hl. splits; auto.
  destruct order as [|h t]; [done|]. revert H6. generalize h at 1 3. generalize (t ++ [h]).
  induction l as [|x l IH]; intros a; [done|]. cbn. rewrite Hn. intros [? ?]. split; [done|]. by apply IH.
Qed.

Lemma next_set_hdr ts i c h : ts !! i = Some c ->
  forall j, next (<[i := set_hdr c h]> ts) j = next ts j.
Proof.
  intros Hc j. unfold next. destruct (decide (i = j)) as [->|Hne].
  - rewrite list_lookup_insert_eq by (by apply lookup_lt_Some in Hc). by rewrite Hc.
  - by rewrite list_lookup_insert_ne.
Qed.

Section link.
Variable big : bool.

(** A TCP packet the link should carry: a complete IPv4 header of at most
    MAX_HDR bytes with TCP, a right total length and header checksum, and the
    reserved TCP bits zero. *)
Definition good (p : list Z) : Prop :=
  let t := 4 * ip_hl p in
  bytes p /\ is_ipv4 p = true /\ 5 <= ip_hl p /\ 5 <= th_off p t /\
  hlen_of p <= MAX_HDR /\ hlen_of p <= len p /\ ip_p p = IPPROTO_TCP /\
  ip_len p = len p /\ len p < 65536 /\
  Z.land (b8 p (t + 12)) 0xf = 0 /\ Z.land (th_flags p t) 0xc0 = 0 /\
  Cksum.word big (b8 p 10) (b8 p 11) = Cksum.cksum_spec big (put16 (slice 0 t p) 10 0).

(** The header [h] holds is that of [p]. *)
Definition holds (h p : list Z) : Prop :=
  full h /\ forall j, 0 <= j < hlen_of p -> b8 h j = b8 p j.

Lemma ip_hl_range p : 0 <= ip_hl p <= 15.
Proof.
  unfold ip_hl. assert (Z.land (b8 p 0) 15 = b8 p 0 mod 16) as -> by (by apply (Z.land_ones _ 4)).
  pose proof (Z.mod_pos_bound (b8 p 0) 16). lia.
Qed.

Lemma holds_fields h p : good p -> holds h p ->
  ip_hl h = ip_hl p /\ th_off h (4 * ip_hl p) = th_off p (4 * ip_hl p) /\ hlen_of h = hlen_of p /\
  is_ipv4 h = true /\ b8 h (4 * ip_hl p + 12) = b8 p (4 * ip_hl p + 12) /\
  th_flags h (4 * ip_hl p) = th_flags p (4 * ip_hl p).
Proof.
  intros (G1 & G2 & G3 & G4 & G5 & G6 & _) (Hf & Hj). pose proof (ip_hl_range p).
  assert (HL : 40 <= hlen_of p) by (unfold hlen_of; lia).
  assert (E0 : ip_hl h = ip_hl p) by (unfold ip_hl; rewrite Hj by lia; done).
  assert (E12 : b8 h (4 * ip_hl p + 12) = b8 p (4 * ip_hl p + 12)) by (apply Hj; unfold hlen_of; lia).
  assert (E1 : th_off h (4 * ip_hl p) = th_off p (4 * ip_hl p)) by (unfold th_off; by rewrite E12).
  splits; auto.
  - unfold hlen_of. by rewrite E0, E1.
  - unfold is_ipv4 in *. by rewrite Hj by lia.
  - apply Hj. unfold hlen_of. lia.
Qed.

Lemma good_flags_of f : 0 <= f < 256 ->
  Z.land f (Z.lor (Z.lor TH_SYN TH_FIN) (Z.lor TH_RST TH_ACK)) = TH_ACK -> Z.land f 0xc0 = 0 ->
  good_flags f.
Proof.
  intros Hf. assert (Hb : forallb (fun n => let f := Z.of_nat n in
    negb ((Z.land f (Z.lor (Z.lor TH_SYN TH_FIN) (Z.lor TH_RST TH_ACK)) =? TH_ACK) &&
          (Z.land f 0xc0 =? 0)) || ((f =? 16) || (f =? 24) || (f =? 48) || (f =? 56)))
    (seq 0 256) = true) by (vm_compute; reflexivity).
  rewrite forallb_forall in Hb. specialize (Hb (Z.to_nat f) ltac:(apply in_seq; lia)).
  rewrite Z2Nat.id in Hb by lia. cbv zeta in Hb. intros H1 H2. rewrite H1, H2 in Hb. cbn in Hb.
  unfold good_flags. repeat (apply orb_true_iff in Hb as [Hb|Hb]); apply Z.eqb_eq in Hb; auto.
Qed.

Lemma holds_saved h p : good p -> good_flags (th_flags p (4 * ip_hl p)) -> holds h p -> saved h.
Proof.
  intros Hg Hf Hh. destruct (holds_fields h p Hg Hh) as (E0 & E1 & E2 & E3 & E4 & E5).
  destruct Hg as (G1 & G2 & G3 & G4 & G5 & G6 & G7 & G8 & G9 & G10 & _).
  unfold saved. rewrite E0, E1, E2, E4, E5. by splits.
Qed.

(** [BCOPY] of the packet's header into a saved header. *)
Lemma copy_header p h : good p -> full h ->
  exists bs d, bread p 0 (hlen_of p) = Ret bs /\ bwrite h 0 bs = Ret d /\ holds d p.
Proof.
  intros (G1 & G2 & G3 & G4 & G5 & G6 & _) (Hb & Hl). unfold MAX_HDR, MLEN in *.
  assert (40 <= hlen_of p) by (unfold hlen_of; lia).
  exists (slice 0 (hlen_of p) p). rewrite bread_ok by (unfold len in *; lia).
  assert (Hs : len (slice 0 (hlen_of p) p) = hlen_of p) by (apply slice_length; unfold len in *; lia).
  destruct (bwrite_b8 h 0 (slice 0 (hlen_of p) p)) as (d & E & Hd & Hj); [lia|lia|].
  exists d. splits; auto. split; [split|].
  - unfold bwrite in E. destruct (_ && _); [|done]. injection E as <-.
    apply Forall_app. split; [by apply bytes_slice|by apply Forall_drop].
  - unfold MAX_HDR, MLEN. lia.
  - intros j Hjr. rewrite Hj by lia. destruct (Z.leb_spec 0 j); [|lia].
    destruct (Z.ltb_spec j (0 + len (slice 0 (hlen_of p) p))); [|lia]. cbn [andb].
    rewrite b8_slice by lia. f_equal. lia.
Qed.

Lemma sl_save_ok comp i p c : good p -> tstate comp !! i = Some c -> full (cs_hdr c) ->
  exists h, sl_save comp i p (hlen_of p) = Ret (set_tstate comp (<[i := set_hdr c h]> (tstate comp))) /\
    holds h p.
Proof.
  intros Hg Hc Hf. destruct (copy_header p (cs_hdr c) Hg Hf) as (bs & d & E1 & E2 & Hh).
  exists d. unfold sl_save, getcs. rewrite Hc. bind. rewrite E1. bind. rewrite E2. bind. by split.
Qed.

(** A receive state that holds the packet's header with a zero checksum. *)
Lemma rsync_of h hr p : good p -> good_flags (th_flags p (4 * ip_hl p)) -> holds h p ->
  full hr -> b8 hr 10 = 0 -> b8 hr 11 = 0 ->
  (forall j, 0 <= j < hlen_of p -> j <> 10 -> j <> 11 -> b8 hr j = b8 p j) ->
  forall i n n' l l', sync_at (CS n l (Z.of_nat i) h) i (CS n' (hlen_of p) l' hr).
Proof.
  intros Hg Hf Hh [Hr1 Hr2] Z10 Z11 Hj i n n' l l'.
  destruct (holds_fields h p Hg Hh) as (_ & _ & E2 & _).
  unfold sync_at. cbn [cs_id cs_hdr cs_hlen].
  split; [done|]. split; [by destruct Hh|]. split; [by split|].
  intros _. split; [by apply (holds_saved h p)|]. rewrite E2. split; [|done].
  unfold rsync. splits; auto. intros j Hjr N10 N11. rewrite Hj by done. symmetry. by apply Hh.
Qed.

(** *** The receive buffer: 128 bytes of room, then the frame *)

Definition ROOM : Z := 128.

Lemma b8_room room q j : len room = ROOM -> 0 <= j -> b8 (room ++ q) (ROOM + j) = b8 q j.
Proof.
  intros Hr Hj. rewrite b8_app by (unfold ROOM in *; lia). rewrite Hr. unfold ROOM.
  destruct (Z.ltb_spec (128 + j) 128); [lia|]. f_equal. lia.
Qed.

Lemma slice_room room q : len room = ROOM -> slice ROOM (len q) (room ++ q) = q.
Proof.
  intros Hr. unfold slice, len, ROOM in *. rewrite drop_app_length' by lia. apply take_ge. lia.
Qed.

Lemma type_byte f : 0 <= f < 256 -> Z.land f 0xf0 = 0x40 ->
  u8 (Z.lor f TYPE_IP) = f /\
  Z.land (u8 (Z.lor f TYPE_UNCOMPRESSED_TCP)) 0xf0 = TYPE_UNCOMPRESSED_TCP /\
  u8 (Z.land (u8 (Z.lor f TYPE_UNCOMPRESSED_TCP)) 0x4f) = f.
Proof.
  intros Hf. assert (Hb : forallb (fun n => let f := Z.of_nat n in
    negb (Z.land f 0xf0 =? 0x40) || ((u8 (Z.lor f TYPE_IP) =? f) &&
      (Z.land (u8 (Z.lor f TYPE_UNCOMPRESSED_TCP)) 0xf0 =? TYPE_UNCOMPRESSED_TCP) &&
      (u8 (Z.land (u8 (Z.lor f TYPE_UNCOMPRESSED_TCP)) 0x4f) =? f)))
    (seq 0 256) = true) by (vm_compute; reflexivity).
  rewrite forallb_forall in Hb. specialize (Hb (Z.to_nat f) ltac:(apply in_seq; lia)).
  rewrite Z2Nat.id in Hb by lia. cbv zeta in Hb. intros H1. rewrite H1 in Hb. cbn [negb orb Z.eqb] in Hb.
  change (64 =? 64) with true in Hb. cbn [negb orb] in Hb.
  apply andb_prop in Hb as [Hb H4]. apply andb_prop in Hb as [H2 H3].
  apply Z.eqb_eq in H2, H3, H4. by splits.
Qed.

Lemma receive_ip room p R : good p -> len room = ROOM ->
  sl_inflate big (room ++ sl_tag TYPE_IP p) ROOM (len p) R = Ret (room ++ p, ROOM, len p, R).
Proof.
  intros (G1 & G2 & _ & _ & G5 & G6 & _) Hr. apply Z.eqb_eq in G2.
  destruct (type_byte (b8 p 0) (b8_range p 0 G1) G2) as (T & _).
  assert (sl_tag TYPE_IP p = p) as ->.
  { unfold sl_tag. apply b8_eq; [apply len_put8|]. intros j Hj. rewrite len_put8 in Hj.
    rewrite b8_put8 by lia. bcase; [subst; exact T|done]. }
  unfold sl_inflate, sl_type. replace ROOM with (ROOM + 0) at 1 by lia. rewrite b8_room by (done || lia).
  rewrite G2. done.
Qed.

Lemma receive_full room p i R cr : good p -> good_flags (th_flags p (4 * ip_hl p)) ->
  len room = ROOM -> (i < MAX_STATES)%nat -> rstate R !! i = Some cr -> full (cs_hdr cr) ->
  exists mem' R' hr, sl_inflate big (room ++ sl_tag TYPE_UNCOMPRESSED_TCP (put8 p 9 (Z.of_nat i)))
      ROOM (len p) R = Ret (mem', ROOM, len p, R') /\
    slice ROOM (len p) mem' = p /\
    rstate R' = <[i := CS (cs_next cr) (hlen_of p) (cs_id cr) hr]> (rstate R) /\
    last_recv R' = Z.of_nat i /\ has (flags R') SLF_TOSS = false /\
    full hr /\ b8 hr 10 = 0 /\ b8 hr 11 = 0 /\
    (forall j, 0 <= j < hlen_of p -> j <> 10 -> j <> 11 -> b8 hr j = b8 p j).
Proof.
  intros Hg Hfl Hr Hi Hcr Hfull. pose proof Hg as (G1 & G2 & G3 & G4 & G5 & G6 & G7 & _).
  apply Z.eqb_eq in G2. destruct (type_byte (b8 p 0) (b8_range p 0 G1) G2) as (_ & T1 & T2).
  assert (HL : 40 <= hlen_of p) by (unfold hlen_of; lia). unfold MAX_HDR, MLEN in *.
  set (q := sl_tag TYPE_UNCOMPRESSED_TCP (put8 p 9 (Z.of_nat i))).
  assert (Lq : len q = len p) by (unfold q, sl_tag; by rewrite !len_put8).
  assert (Hi8 : u8 (Z.of_nat i) = Z.of_nat i) by (apply u8_small; unfold MAX_STATES in *; lia).
  assert (Q0 : b8 q 0 = u8 (Z.lor (b8 p 0) TYPE_UNCOMPRESSED_TCP)).
  { unfold q, sl_tag. rewrite !b8_put8 by (rewrite ?len_put8; lia). done. }
  assert (Q9 : b8 q 9 = Z.of_nat i).
  { unfold q, sl_tag. rewrite !b8_put8 by (rewrite ?len_put8; lia). done. }
  assert (Qj : forall j, 0 <= j -> j <> 0 -> j <> 9 -> b8 q j = b8 p j).
  { intros j Hj N0 N9. unfold q, sl_tag. rewrite !b8_put8 by (rewrite ?len_put8; lia).
    repeat bcase; lia. }
  clearbody q. assert (Lm : len (room ++ q) = ROOM + len p) by (rewrite len_app; lia).
  pose proof (b8_room room q 0 Hr ltac:(lia)) as M0. rewrite Z.add_0_r in M0.
  unfold sl_inflate, sl_type. rewrite M0, Q0, T1.
  change (TYPE_UNCOMPRESSED_TCP =? 64) with false.
  change (Z.land TYPE_UNCOMPRESSED_TCP 128 =? 0) with true.
  change (TYPE_UNCOMPRESSED_TCP =? TYPE_UNCOMPRESSED_TCP) with true. cbn [negb]. cbv iota.
  unfold sl_uncompress_tcp. change (TYPE_UNCOMPRESSED_TCP =? TYPE_UNCOMPRESSED_TCP) with true. cbv iota.
  set (m1 := put8 (room ++ q) ROOM _). unfold sl_uncompress_full.
  assert (M9 : b8 m1 (ROOM + 9) = Z.of_nat i).
  { unfold m1. rewrite b8_put8 by (unfold ROOM in *; lia). unfold ROOM at 2.
    destruct (Z.eqb_spec (ROOM + 9) 128); [unfold ROOM in *; lia|]. rewrite b8_room by (done || lia). done. }
  rewrite M9, Z.geb_leb. destruct (Z.leb_spec (Z.of_nat MAX_STATES) (Z.of_nat i)); [unfold MAX_STATES in *; lia|].
  rewrite Nat2Z.id. unfold getcs. rewrite Hcr. bind.
  assert (put8 m1 (ROOM + 9) IPPROTO_TCP = room ++ p) as ->.
  { unfold m1. apply b8_eq; rewrite !len_put8, !len_app; [lia|]. intros j Hj.
    rewrite b8_put8 by (rewrite ?len_put8; unfold ROOM in *; lia).
    rewrite b8_put8 by (unfold ROOM in *; lia).
    destruct (Z.eqb_spec j (ROOM + 9)) as [->|N9].
    { rewrite b8_room by (done || lia). change (u8 IPPROTO_TCP) with IPPROTO_TCP. done. }
    destruct (Z.eqb_spec j ROOM) as [->|N0].
    { replace ROOM with (ROOM + 0) by lia. rewrite b8_room by (done || lia). exact T2. }
    rewrite !b8_app by lia. rewrite Hr. bcase; [done|]. apply Qj; lia. }
  pose proof (b8_room room p 0 Hr ltac:(lia)) as P0. rewrite Z.add_0_r in P0.
  rewrite P0. fold (ip_hl p). replace (ROOM + 4 * ip_hl p + 12) with (ROOM + (4 * ip_hl p + 12)) by lia.
  rewrite b8_room by (done || lia). fold (th_off p (4 * ip_hl p)). fold (hlen_of p).
  rewrite bread_ok by (rewrite ?length_app; unfold len, ROOM in *; lia). bind.
  set (bs := slice ROOM (hlen_of p) (room ++ p)).
  assert (Lb : len bs = hlen_of p).
  { apply slice_length; rewrite ?length_app; unfold len, ROOM in *; lia. }
  destruct Hfull as [Hf1 Hf2]. unfold MAX_HDR, MLEN in *.
  destruct (bwrite_b8 (cs_hdr cr) 0 bs) as (d & E & Ld & Hd); [lia|lia|]. rewrite E. bind.
  eexists _, _, (put16 d 10 0). split; [reflexivity|].
  assert (Bd : bytes d).
  { unfold bwrite in E. destruct (_ && _); [|done]. injection E as <-. apply Forall_app.
    split; [|by apply Forall_drop]. unfold bs, slice. apply Forall_forall. intros x Hx.
    apply list_elem_of_lookup in Hx as [k Hk].
    assert (b8 bs (Z.of_nat k) = x) as <-.
    { unfold b8. rewrite list_lookup_total_alt, Nat2Z.id. unfold bs, slice. by rewrite Hk. }
    unfold bs. apply lookup_lt_Some in Hk. fold (slice ROOM (hlen_of p) (room ++ p)) in Hk. fold bs in Hk.
    rewrite b8_slice by (unfold len, ROOM in *; lia). rewrite b8_room by (done || lia).
    by apply b8_range. }
  cbn [rstate set_rstate count set_sls set_slflags set_last_recv last_recv flags].
  splits; auto.
  - by apply slice_room.
  - rewrite has_land. change (Z.land (Z.lnot SLF_TOSS) SLF_TOSS) with 0. apply has_0.
  - split; [by apply bytes_put16|]. rewrite len_put16. unfold MAX_HDR, MLEN. lia.
  - pose proof (b16_put16 d 10 0 ltac:(lia) ltac:(lia) ltac:(lia)) as Hz. unfold b16 in Hz.
    pose proof (b8_range (put16 d 10 0) 10 (bytes_put16 _ _ _ Bd)).
    pose proof (b8_range (put16 d 10 0) (10 + 1) (bytes_put16 _ _ _ Bd)). lia.
  - pose proof (b16_put16 d 10 0 ltac:(lia) ltac:(lia) ltac:(lia)) as Hz. unfold b16 in Hz.
    pose proof (b8_range (put16 d 10 0) 10 (bytes_put16 _ _ _ Bd)).
    pose proof (b8_range (put16 d 10 0) (10 + 1) (bytes_put16 _ _ _ Bd)).
    change 11 with (10 + 1). lia.
  - intros j Hj N10 N11. rewrite b8_put16 by lia. rewrite Hd by lia.
    destruct (Z.leb_spec 0 j); [|lia]. destruct (Z.ltb_spec j (0 + len bs)); [|lia]. cbn [andb].
    unfold bs. rewrite b8_slice by (unfold ROOM; lia). rewrite b8_room by (done || lia). f_equal. lia.
Qed.

(** *** Compressed packets *)

Definition change_byte (core : Z) (idn push expl : bool) : Z :=
  let ch := if idn then Z.lor core NEW_I else core in
  let ch := if push then Z.lor ch TCP_PUSH_BIT else ch in
  u8 (if expl then Z.lor ch NEW_C else ch).

Lemma change_byte_ok core idn push expl : 0 <= core < 16 ->
  let f := u8 (Z.lor (change_byte core idn push expl) TYPE_COMPRESSED_TCP) in
  Z.land f SPECIALS_MASK = core /\ has f TCP_PUSH_BIT = push /\ has f NEW_I = idn /\
  has f NEW_C = expl /\ (Z.land f 0xf0 =? 0x40) = false /\
  negb (Z.land (Z.land f 0xf0) 0x80 =? 0) = true.
Proof.
  intros Hc. assert (Hb : forallb (fun n => let c := Z.of_nat n in
    forallb (fun b1 : bool => forallb (fun b2 : bool => forallb (fun b3 : bool =>
      let f := u8 (Z.lor (change_byte c b1 b2 b3) TYPE_COMPRESSED_TCP) in
      (Z.land f SPECIALS_MASK =? c) && Bool.eqb (has f TCP_PUSH_BIT) b2 && Bool.eqb (has f NEW_I) b1 &&
      Bool.eqb (has f NEW_C) b3 && negb (Z.land f 0xf0 =? 0x40) &&
      negb (Z.land (Z.land f 0xf0) 0x80 =? 0))
      [true; false]) [true; false]) [true; false]) (seq 0 16) = true) by (vm_compute; reflexivity).
  assert (Hin : forall b : bool, In b [true; false]) by (intros []; cbn; auto).
  rewrite forallb_forall in Hb. specialize (Hb (Z.to_nat core) ltac:(apply in_seq; lia)).
  rewrite Z2Nat.id in Hb by lia. cbv zeta in Hb.
  rewrite forallb_forall in Hb. specialize (Hb idn (Hin _)).
  rewrite forallb_forall in Hb. specialize (Hb push (Hin _)).
  rewrite forallb_forall in Hb. specialize (Hb expl (Hin _)).
  repeat (apply andb_prop in Hb as [Hb ?]). cbv zeta.
  repeat match goal with H : Bool.eqb _ _ = true |- _ => apply Bool.eqb_prop in H end.
  apply Z.eqb_eq in Hb. splits; auto. by apply negb_true_iff.
Qed.

Lemma fold_twice s : 0 <= s < 4294967296 ->
  let s1 := Z.land s 0xffff + Z.shiftr s 16 in
  Z.land s1 0xffff + Z.shiftr s1 16 = Cksum.fold16 s.
Proof.
  intros Hs s1. assert (Hm : forall x, Z.land x 65535 = x mod 65536) by (intros; by apply (Z.land_ones _ 16)).
  subst s1. rewrite !Hm, !Z.shiftr_div_pow2 by lia. change (2 ^ 16) with 65536.
  set (s2 := (s mod 65536 + s / 65536) mod 65536 + (s mod 65536 + s / 65536) / 65536).
  assert (0 <= s2 <= 65535) by (unfold s2; zdiv).
  rewrite <- (Cksum.fold16_small s2) by done. change (Cksum.eqv s2 s).
  apply Cksum.fold16_iff; [lia|lia|]. unfold s2. split; zdiv.
Qed.

Lemma bsum_le l : forall e, bytes l -> Cksum.bsum big e l <= 65280 * len l.
Proof.
  induction l as [|b l IH]; intros e H; [done|]. apply Forall_cons in H as [Hb H].
  cbn [Cksum.bsum]. pose proof (Cksum.wt_range big e b Hb). specialize (IH (negb e) H).
  unfold len in *. cbn [length]. lia.
Qed.

Lemma sl_ip_sum_ok hdr : bytes hdr -> len hdr <= 65535 -> sl_ip_sum big hdr = Cksum.cksum_spec big hdr.
Proof.
  intros Hb Hl. unfold sl_ip_sum. pose proof (Cksum.bsum_nonneg big hdr true Hb).
  pose proof (bsum_le hdr true Hb). rewrite u32_small by lia.
  rewrite (fold_twice (Cksum.bsum big true hdr)) by lia. unfold Cksum.cksum_spec.
  set (f := Cksum.fold16 (Cksum.bsum big true hdr)).
  assert (0 <= f <= 65535).
  { unfold f, Cksum.fold16. bcase; [lia|].
    pose proof (Z.mod_pos_bound (Cksum.bsum big true hdr - 1) 65535). lia. }
  unfold Z.lnot, u16. change (2 ^ 16) with 65536. zdiv.
Qed.

Lemma word_range a b : 0 <= a < 256 -> 0 <= b < 256 -> 0 <= Cksum.word big a b < 65536.
Proof. unfold Cksum.word. destruct big; lia. Qed.

Lemma put_short_word l i v : 0 <= i -> i + 1 < len l -> 0 <= v < 65536 ->
  Cksum.word big (b8 (put_short big l i v) i) (b8 (put_short big l i v) (i + 1)) = v /\
  0 <= b8 (put_short big l i v) i < 256 /\ 0 <= b8 (put_short big l i v) (i + 1) < 256 /\
  len (put_short big l i v) = len l /\
  forall j, 0 <= j -> j <> i -> j <> i + 1 -> b8 (put_short big l i v) j = b8 l j.
Proof.
  intros. unfold put_short, Cksum.word.
  assert (E1 : u8 (Z.shiftr v 8) = v / 256).
  { rewrite Z.shiftr_div_pow2 by lia. apply u8_small. change (2 ^ 8) with 256. zdiv. }
  assert (E2 : u8 v = v mod 256) by done.
  assert (0 <= v / 256 < 256 /\ 0 <= v mod 256 < 256 /\ v = v / 256 * 256 + v mod 256) by zdiv.
  destruct big; unfold put16; rewrite !len_put8;
    rewrite !(b8_put8 _ (i + 1)) by (rewrite ?len_put8; lia);
    rewrite !(b8_put8 l i) by lia; rewrite !Z.eqb_refl, E1, E2;
    (destruct (Z.eqb_spec i (i + 1)); [lia|]);
    (splits; [lia|lia|lia|lia|lia|done|]); intros j Hj N1 N2;
    rewrite !b8_put8 by (rewrite ?len_put8; lia); repeat bcase; lia.
Qed.

(** Two bytes are determined by the word they make. *)
Lemma word_inj a b a' b' : 0 <= a < 256 -> 0 <= b < 256 -> 0 <= a' < 256 -> 0 <= b' < 256 ->
  Cksum.word big a b = Cksum.word big a' b' -> a = a' /\ b = b'.
Proof. unfold Cksum.word. destruct big; lia. Qed.

Lemma land3 x : Z.land x 3 = x mod 4 /\ Z.land x (Z.lnot 3) = x - x mod 4.
Proof.
  assert (H : Z.land x 3 = x mod 4) by (by apply (Z.land_ones _ 2)). split; [done|].
  rewrite <- H, <- Z.ldiff_land.
  assert (Hd : Z.ldiff x 3 = x - Z.land x 3); [|done].
  rewrite Z.sub_nocarry_ldiff.
  - apply Z.bits_inj'. intros n Hn. rewrite !Z.ldiff_spec, Z.land_spec.
    destruct (Z.testbit x n), (Z.testbit 3 n); done.
  - apply Z.bits_inj'. intros n Hn. rewrite Z.ldiff_spec, Z.land_spec, Z.bits_0.
    destruct (Z.testbit x n), (Z.testbit 3 n); done.
Qed.

Lemma len_slice a k l : 0 <= a -> 0 <= k -> a + k <= len l -> len (slice a k l) = k.
Proof. intros. apply slice_length; unfold len in *; lia. Qed.

Lemma bread_okl l a n : 0 <= a -> 0 <= n -> a + n <= len l -> bread l a n = Ret (slice a n l).
Proof. intros. apply bread_ok; unfold len in *; lia. Qed.

(** Moving the data down to a multiple of four. *)
Lemma align_ok mem cp n : 0 <= cp -> 0 <= n -> cp + n <= len mem ->
  exists mem1, (if negb (Z.land cp 3 =? 0) then
       mem ← (if n >? 0
              then bs ← bread mem cp n; bwrite mem (Z.land cp (Z.lnot 3)) bs
              else Ret mem);
       Ret (mem, Z.land cp (Z.lnot 3))
     else Ret (mem, cp)) = Ret (mem1, cp - cp mod 4) /\ len mem1 = len mem /\
    forall k, 0 <= k < n -> b8 mem1 (cp - cp mod 4 + k) = b8 mem (cp + k).
Proof.
  intros Hcp Hn Hle. destruct (land3 cp) as [-> ->]. pose proof (Z.mod_pos_bound cp 4 ltac:(lia)).
  destruct (Z.eqb_spec (cp mod 4) 0) as [E|E]; cbn [negb].
  - exists mem. rewrite E, Z.sub_0_r. by splits.
  - rewrite Z.gtb_ltb. destruct (Z.ltb_spec 0 n).
    + rewrite bread_okl by lia. bind. pose proof (Z.mod_le cp 4 ltac:(lia) ltac:(lia)).
      destruct (bwrite_b8 mem (cp - cp mod 4) (slice cp n mem)) as (d & -> & Ld & Hd);
        [lia|rewrite len_slice by lia; lia|]. bind. exists d. splits; auto.
      intros k Hk. rewrite Hd by lia. rewrite len_slice by lia.
      destruct (Z.leb_spec (cp - cp mod 4) (cp - cp mod 4 + k)); [|lia].
      destruct (Z.ltb_spec (cp - cp mod 4 + k) (cp - cp mod 4 + n)); [|lia]. cbn [andb].
      rewrite b8_slice by lia. f_equal. lia.
    + exists mem. bind. splits; auto. lia.
Qed.

Lemma sl_rebuild_ok mem cp n i comp cr h p : good p -> ROOM <= cp -> n = len p - hlen_of p ->
  cp + n <= len mem -> (forall k, 0 <= k < n -> b8 mem (cp + k) = b8 p (hlen_of p + k)) ->
  cs_hlen cr = hlen_of p -> full h -> b8 h 10 = 0 -> b8 h 11 = 0 ->
  (forall j, 0 <= j < hlen_of p -> j <> 2 -> j <> 3 -> j <> 10 -> j <> 11 -> b8 h j = b8 p j) ->
  exists mem' cp' hr, sl_rebuild big mem cp n i comp cr h =
      Ret (mem', cp', len p, set_rstate comp (<[i := set_hdr cr hr]> (rstate comp))) /\
    slice cp' (len p) mem' = p /\ full hr /\ b8 hr 10 = 0 /\ b8 hr 11 = 0 /\
    (forall j, 0 <= j < hlen_of p -> j <> 10 -> j <> 11 -> b8 hr j = b8 p j).
Proof.
  intros Hg Hcp Hn Hle Hdata Hcr [Hh1 Hh2] Z10 Z11 Hj.
  pose proof Hg as (G1 & G2 & G3 & G4 & G5 & G6 & G7 & G8 & G9 & G10 & G11 & G12).
  pose proof (ip_hl_range p) as Hhl.
  assert (HL : 40 <= hlen_of p) by (unfold hlen_of; lia). unfold MAX_HDR, MLEN, ROOM in *.
  set (hl := hlen_of p) in *. unfold sl_rebuild.
  destruct (align_ok mem cp n) as (mem1 & -> & L1 & D1); [lia|lia|lia|]. bind.
  pose proof (Z.mod_pos_bound cp 4 ltac:(lia)). set (cp1 := cp - cp mod 4) in *.
  rewrite Hcr. replace (n + hl) with (len p) by lia.
  set (hr := put16 h 2 (len p)).
  assert (Lr : len hr = 108) by (unfold hr; by rewrite len_put16).
  assert (Br : bytes hr) by (by apply bytes_put16).
  assert (Hr : forall j, 0 <= j < hl -> j <> 10 -> j <> 11 -> b8 hr j = b8 p j).
  { intros j Hjr N10 N11. destruct (decide (j = 2 \/ j = 3)) as [Hj2|Hj2].
    - destruct (b16_inj hr p 2 Br G1) as [I1 I2]; [|by destruct Hj2 as [->| ->]].
      unfold hr. rewrite b16_put16 by lia. symmetry. exact G8.
    - unfold hr. rewrite b8_put16 by lia. apply Hj; lia. }
  assert (Zr : b8 hr 10 = 0 /\ b8 hr 11 = 0) by (unfold hr; rewrite !b8_put16 by lia; done).
  destruct Zr as [Zr10 Zr11].
  rewrite bread_okl by lia. bind. set (bs := slice 0 hl hr).
  assert (Lb : len bs = hl) by (apply len_slice; lia).
  destruct (bwrite_b8 mem1 (cp1 - hl) bs) as (mem2 & E2 & L2 & D2); [lia|lia|]. rewrite E2. bind.
  rewrite Lb in D2. replace (cp1 - hl + hl) with cp1 in D2 by lia.
  assert (Hhlr : ip_hl hr = ip_hl p) by (unfold ip_hl; rewrite Hr by lia; done). rewrite Hhlr.
  assert (H4 : 20 <= 4 * ip_hl p <= hl) by (unfold hl, hlen_of; lia).
  rewrite bread_okl by lia. bind.
  set (hdr := slice (cp1 - hl) (4 * ip_hl p) mem2).
  assert (Hin : forall j, 0 <= j < hl -> b8 mem2 (cp1 - hl + j) = b8 hr j).
  { intros j Hjr. rewrite D2 by lia. destruct (Z.leb_spec (cp1 - hl) (cp1 - hl + j)); [|lia].
    destruct (Z.ltb_spec (cp1 - hl + j) cp1); [|lia]. cbn [andb]. unfold bs.
    rewrite b8_slice by lia. f_equal. lia. }
  assert (Ehdr : hdr = put16 (slice 0 (4 * ip_hl p) p) 10 0).
  { assert (Ls : len (slice 0 (4 * ip_hl p) p) = 4 * ip_hl p) by (apply len_slice; lia).
    apply b8_eq; [rewrite len_put16; unfold hdr; rewrite Ls; apply len_slice; lia|].
    intros j Hjr. unfold hdr in *. rewrite len_slice in Hjr by lia.
    rewrite b8_slice by lia. rewrite Hin by lia.
    destruct (decide (j = 10 \/ j = 11)) as [Hj10|Hj10].
    - pose proof (b16_put16 (slice 0 (4 * ip_hl p) p) 10 0 ltac:(lia) ltac:(lia) ltac:(lia)) as Hz.
      pose proof (b8_range (put16 (slice 0 (4 * ip_hl p) p) 10 0) 10 (bytes_put16 _ _ _ (bytes_slice _ _ _ G1))).
      pose proof (b8_range (put16 (slice 0 (4 * ip_hl p) p) 10 0) (10 + 1) (bytes_put16 _ _ _ (bytes_slice _ _ _ G1))).
      unfold b16 in Hz. destruct Hj10 as [->| ->]; [lia|]. change 11 with (10 + 1). change 11 with (10 + 1) in Zr11. lia.
    - rewrite b8_put16 by lia. rewrite b8_slice by lia. rewrite Hr by lia. f_equal. }
  assert (Bhdr : bytes hdr) by (rewrite Ehdr; by apply bytes_put16, bytes_slice).
  assert (Lhdr : len hdr = 4 * ip_hl p) by (apply len_slice; lia).
  rewrite sl_ip_sum_ok by (done || lia). rewrite Ehdr, <- G12.
  set (v := Cksum.word big (b8 p 10) (b8 p 11)).
  assert (Hv : 0 <= v < 65536) by (apply word_range; by apply b8_range).
  destruct (put_short_word mem2 (cp1 - hl + 10) v) as (W1 & W2 & W3 & W4 & W5); [lia|lia|done|].
  replace (cp1 - hl + 10 + 1) with (cp1 - hl + 11) in * by lia.
  destruct (word_inj _ _ _ _ W2 W3 (b8_range p 10 G1) (b8_range p 11 G1) W1) as [W10 W11].
  eexists _, (cp1 - hl), hr. split; [reflexivity|]. splits; auto.
  2:{ split; [done|]. unfold MAX_HDR, MLEN. lia. }
  assert (Lp : 0 <= len p) by (unfold len; lia).
  apply b8_eq; [apply len_slice; lia|]. intros j Hjr. rewrite len_slice in Hjr by lia.
  rewrite b8_slice by lia.
  destruct (decide (j = 10)) as [->|]; [exact W10|]. destruct (decide (j = 11)) as [->|]; [exact W11|].
  rewrite W5 by lia. destruct (Z.lt_ge_cases j hl).
  - rewrite Hin by lia. apply Hr; lia.
  - rewrite D2 by lia. destruct (Z.leb_spec (cp1 - hl) (cp1 - hl + j)); [|lia].
    destruct (Z.ltb_spec (cp1 - hl + j) cp1); [lia|]. cbn [andb].
    replace (cp1 - hl + j) with (cp1 + (j - hl)) by lia. rewrite D1 by lia.
    rewrite Hdata by lia. f_equal. lia.
Qed.

Lemma nibble x : 0 <= x < 256 -> Z.land x 0xf = 0 -> x = Z.shiftr x 4 * 16.
Proof.
  intros Hx H. assert (Hm : Z.land x 15 = x mod 16) by (by apply (Z.land_ones _ 4)).
  rewrite Hm in H. rewrite Z.shiftr_div_pow2 by lia. change (2 ^ 4) with 16. zdiv.
Qed.

(** What the comparison of sl_same_header leaves to change. *)
Lemma static_ok p c : good p -> same_conn p (ip_hl p) c = true -> full (cs_hdr c) ->
  sl_same_header p (cs_hdr c) (ip_hl p) = true ->
  is_ipv4 (cs_hdr c) = true /\
  (saved (cs_hdr c) -> ip_hl (cs_hdr c) = ip_hl p /\ hlen_of (cs_hdr c) = hlen_of p /\
     forall j, 0 <= j < hlen_of p -> ~ dyn (4 * ip_hl p) j -> b8 (cs_hdr c) j = b8 p j).
Proof.
  intros Hg Hc [Hf1 Hf2] Hs. set (h := cs_hdr c) in *.
  pose proof Hg as (G1 & G2 & G3 & G4 & G5 & G6 & G7 & G8 & G9 & G10 & _).
  unfold same_conn in Hc. fold h in Hc. apply andb_prop in Hc as [Hc Hport].
  apply andb_prop in Hc as [Hsrc Hdst]. apply Z.eqb_eq in Hsrc, Hdst, Hport.
  unfold sl_same_header in Hs. apply andb_prop in Hs as [Hs Hto]. apply andb_prop in Hs as [Hs Hio].
  apply andb_prop in Hs as [Hs Hoff]. apply andb_prop in Hs as [Hs H8]. apply andb_prop in Hs as [H0 H6].
  apply Z.eqb_eq in H0, H6, H8, Hoff. rewrite Z.gtb_ltb in Hio, Hto.
  destruct (b16_inj p h 0 G1 Hf1 H0) as [B0 B1]. destruct (b16_inj p h 6 G1 Hf1 H6) as [B6 B7].
  destruct (b16_inj p h 8 G1 Hf1 H8) as [B8 B9].
  assert (Hhl : ip_hl h = ip_hl p) by (unfold ip_hl; by rewrite B0).
  split; [unfold is_ipv4 in *; by rewrite <- B0|].
  intros (S1 & S2 & S3 & S4 & S5). rewrite Hhl in *. split; [done|].
  assert (Hhlen : hlen_of h = hlen_of p) by (unfold hlen_of; by rewrite Hhl, Hoff).
  split; [done|]. unfold MAX_HDR, MLEN in *. intros j Hj Hd. unfold dyn in Hd. symmetry.
  destruct (decide (j < 2)).
  { destruct (decide (j = 0)) as [->|]; [done|]. by replace j with (0 + 1) by lia. }
  destruct (decide (6 <= j < 10)).
  { destruct (decide (j = 6)) as [->|]; [done|]. destruct (decide (j = 7)) as [->|]; [exact B7|].
    destruct (decide (j = 8)) as [->|]; [done|]. by replace j with (8 + 1) by lia. }
  destruct (decide (12 <= j < 16)); [by apply (b32_inj p h 12)|].
  destruct (decide (16 <= j < 20)); [by apply (b32_inj p h 16)|].
  set (t := 4 * ip_hl p) in *.
  destruct (decide (t <= j < t + 4)); [by apply (b32_inj p h t)|].
  destruct (decide (j = t + 12)) as [->|].
  { rewrite (nibble (b8 p (t + 12))), (nibble (b8 h (t + 12))) by (done || by apply b8_range).
    unfold th_off in Hoff. by rewrite Hoff. }
  assert (Hsl : forall a k, slice a k p = slice a k h -> 0 <= a -> a <= j < a + k -> b8 p j = b8 h j).
  { intros a k E Ha Hjk. pose proof (b8_slice p a k (j - a) Ha ltac:(lia)) as E1.
    pose proof (b8_slice h a k (j - a) Ha ltac:(lia)) as E2.
    replace (a + (j - a)) with j in * by lia. by rewrite <- E1, E, E2. }
  destruct (decide (20 <= j < t)).
  { destruct (Z.ltb_spec 5 (ip_hl p)); [|lia]. cbn [negb orb] in Hio. apply bool_decide_eq_true in Hio.
    apply (Hsl _ _ Hio); [lia|]. unfold t in *. lia. }
  assert (t + 20 <= j) by lia. unfold hlen_of in Hj. fold t in Hj.
  destruct (Z.ltb_spec 5 (th_off p t)); [|lia]. cbn [negb orb] in Hto. apply bool_decide_eq_true in Hto.
  apply (Hsl _ _ Hto); lia.
Qed.

Lemma len_ENCODE n : 0 <= len (ENCODE n) <= 3.
Proof. unfold ENCODE, len. destruct (_ >=? _); cbn; lia. Qed.
Lemma len_ENCODEZ n : 0 <= len (ENCODEZ n) <= 3.
Proof. unfold ENCODEZ, len. destruct (_ || _); cbn; lia. Qed.
Lemma len_seq_enc u w a s p h t : 0 <= len (seq_enc u w a s p h t) <= 12.
Proof.
  unfold seq_enc. rewrite !len_app. pose proof (len_ENCODEZ (th_urp p t)).
  pose proof (len_ENCODE (delta16 (th_win p t) (th_win h t))).
  pose proof (len_ENCODE (delta32 (th_ack p t) (th_ack h t))).
  pose proof (len_ENCODE (delta32 (th_seq p t) (th_seq h t))).
  assert (len [] = 0) by done. destruct u, w, a, s; lia.
Qed.
Lemma len_id_enc p h : 0 <= len (id_enc p h) <= 3.
Proof.
  unfold id_enc. destruct (negb _); [apply len_ENCODEZ|cbn; unfold len; cbn; lia].
Qed.

Lemma sl_special_len p h hlen e ch dS dA e' core : sl_special p h hlen e ch dS dA = Some (e', core) ->
  e' = e \/ e' = [].
Proof.
  unfold sl_special. repeat (match goal with |- context [if ?b then _ else _] => destruct b end);
    intros [= <- <-]; auto.
Qed.

(** The compressed packet: change byte, connection number, checksum, numbers,
    data. *)
Definition front (core : Z) (idn push expl : bool) (i : Z) : list Z :=
  change_byte core idn push expl :: (if expl then [u8 i] else []).

Lemma sl_emit_ok comp i c cid p hlen e core (idn push : bool) :
  tstate comp !! i = Some c -> 0 <= len e <= 15 -> 40 <= hlen <= len p ->
  let expl := negb cid || negb (last_xmit comp =? cs_id c) in
  sl_emit comp i cid p hlen (th_sum p (4 * ip_hl p)) e
      (if push then Z.lor (if idn then Z.lor core NEW_I else core) TCP_PUSH_BIT
       else if idn then Z.lor core NEW_I else core) =
    Ret (TYPE_COMPRESSED_TCP,
         front core idn push expl (cs_id c) ++
           [u8 (Z.shiftr (th_sum p (4 * ip_hl p)) 8); u8 (th_sum p (4 * ip_hl p))] ++ e ++
           drop (Z.to_nat hlen) p,
         count (if expl then set_last_xmit comp (cs_id c) else comp) 0 1 0 0 0 0 0 0).
Proof.
  intros Hc He Hl expl. unfold sl_emit, getcs. rewrite Hc. bind. fold expl.
  assert (Hw : forall n X, n = hlen - len X -> len X <= 19 ->
    exists q, bwrite p n X = Ret q /\ drop (Z.to_nat n) q = X ++ drop (Z.to_nat hlen) p).
  { intros n X -> HX. unfold len in *. unfold bwrite.
    destruct (Z.leb_spec 0 (hlen - Z.of_nat (length X))); [|lia].
    destruct (Z.leb_spec (hlen - Z.of_nat (length X) + Z.of_nat (length X)) (Z.of_nat (length p))); [|lia].
    eexists. split; [done|]. rewrite drop_app_length' by (rewrite length_take; lia).
    f_equal. f_equal. lia. }
  unfold front, change_byte. destruct expl.
  - edestruct Hw as (q & -> & Hq); [| |bind; rewrite Hq; cbn [app]; reflexivity];
      unfold len in *; cbn [app length]; lia.
  - edestruct Hw as (q & -> & Hq); [| |bind; rewrite Hq; cbn [app]; reflexivity];
      unfold len in *; cbn [app length]; lia.
Qed.

Lemma at_room room q cp X Y : len room = ROOM -> 0 <= cp -> drop (Z.to_nat cp) q = X ++ Y ->
  at_bytes (room ++ q) (ROOM + cp) X /\
  forall k, 0 <= k -> b8 (room ++ q) (ROOM + cp + len X + k) = b8 Y k.
Proof.
  intros Hr Hcp Hd. assert (H : forall k, 0 <= k -> b8 (room ++ q) (ROOM + (cp + k)) = b8 (X ++ Y) k).
  { intros k Hk. rewrite b8_room by (done || lia). rewrite <- Hd. by rewrite b8_drop by lia. }
  split.
  - intros k Hk. replace (ROOM + cp + k) with (ROOM + (cp + k)) by lia. rewrite H by lia.
    rewrite b8_app by lia. destruct (Z.ltb_spec k (len X)); [done|lia].
  - intros k Hk. assert (0 <= len X) by (unfold len; lia).
    replace (ROOM + cp + len X + k) with (ROOM + (cp + (len X + k))) by lia. rewrite H by lia.
    rewrite b8_app by lia. destruct (Z.ltb_spec (len X + k) (len X)); [lia|]. f_equal. lia.
Qed.

Lemma receive_compressed room p R i cr h core e expl push idn : good p -> len room = ROOM ->
  (i < MAX_STATES)%nat -> rstate R !! i = Some cr -> full (cs_hdr cr) -> full h -> saved h ->
  rsync h (cs_hdr cr) (hlen_of p) -> cs_hlen cr = hlen_of p ->
  ip_hl h = ip_hl p -> hlen_of h = hlen_of p ->
  (forall j, 0 <= j < hlen_of p -> ~ dyn (4 * ip_hl p) j -> b8 h j = b8 p j) ->
  core_ok p h (4 * ip_hl p) (hlen_of p) e core -> good_flags (th_flags p (4 * ip_hl p)) ->
  (special core = true -> has (th_flags h (4 * ip_hl p)) TH_URG = false) ->
  push = has (th_flags p (4 * ip_hl p)) TH_PUSH -> idn = negb (u32 (ip_id p - ip_id h) =? 1) ->
  (expl = false -> last_recv R = Z.of_nat i /\ has (flags R) SLF_TOSS = false) ->
  let q := front core idn push expl (Z.of_nat i) ++
           [u8 (Z.shiftr (th_sum p (4 * ip_hl p)) 8); u8 (th_sum p (4 * ip_hl p))] ++
           (e ++ id_enc p h) ++ drop (Z.to_nat (hlen_of p)) p in
  exists mem' pos' R' hr, sl_inflate big (room ++ sl_tag TYPE_COMPRESSED_TCP q) ROOM (len q) R =
      Ret (mem', pos', len p, R') /\
    slice pos' (len p) mem' = p /\
    rstate R' = <[i := set_hdr cr hr]> (rstate R) /\
    last_recv R' = Z.of_nat i /\ has (flags R') SLF_TOSS = false /\
    full hr /\ b8 hr 10 = 0 /\ b8 hr 11 = 0 /\
    (forall j, 0 <= j < hlen_of p -> j <> 10 -> j <> 11 -> b8 hr j = b8 p j).
Proof.
  intros Hg Hr Hi Hcr Hfr [Hh1 Hh2] Hsv Hrs Hcl Ehl Ehlen Hst Hcore Hgf Hurg Hpush Hidn Hexp q.
  pose proof Hg as (G1 & G2 & G3 & G4 & G5 & G6 & G7 & G8 & G9 & _).
  pose proof Hsv as (S1 & S2 & S3 & S4 & S5). rewrite Ehl in *.
  set (t := 4 * ip_hl p) in *. set (hl := hlen_of p) in *.
  assert (HL : t + 20 <= hl /\ 20 <= t) by (unfold hl, hlen_of, t in *; lia).
  pose proof Hcore as (Hc16 & _ & _).
  destruct (change_byte_ok core idn push expl Hc16) as (F1 & F2 & F3 & F4 & F5 & F6).
  set (f := u8 (Z.lor (change_byte core idn push expl) TYPE_COMPRESSED_TCP)) in *.
  set (S := [u8 (Z.shiftr (th_sum p t) 8); u8 (th_sum p t)]) in *.
  set (D := drop (Z.to_nat hl) p) in *.
  assert (LD : len D = len p - hl).
  { unfold D, len in *. rewrite length_drop. lia. }
  (* the tagged frame *)
  set (idb := if expl then [u8 (Z.of_nat i)] else []).
  assert (Hq : q = change_byte core idn push expl :: (idb ++ (S ++ e ++ id_enc p h) ++ D)).
  { unfold q, front, idb. cbn [app]. by rewrite <- !app_assoc. }
  assert (Ht : sl_tag TYPE_COMPRESSED_TCP q = f :: (idb ++ (S ++ e ++ id_enc p h) ++ D)).
  { rewrite Hq. reflexivity. }
  set (X := S ++ e ++ id_enc p h) in *.
  assert (LX : len X = 2 + len e + len (id_enc p h)) by (unfold X; rewrite !len_app; change (len S) with 2; lia).
  assert (Lidb : len idb = if expl then 1 else 0) by (unfold idb; by destruct expl).
  assert (Lq : len q = 1 + len idb + len X + len D).
  { rewrite Hq. unfold len. cbn [length]. rewrite !length_app. clear. lia. }
  assert (Hi8 : u8 (Z.of_nat i) = Z.of_nat i) by (apply u8_small; unfold MAX_STATES in *; lia).
  assert (P0 : b8 (room ++ sl_tag TYPE_COMPRESSED_TCP q) ROOM = f).
  { pose proof (b8_room room (sl_tag TYPE_COMPRESSED_TCP q) 0 Hr ltac:(lia)) as E.
    rewrite Z.add_0_r in E. rewrite E, Ht. done. }
  set (mem := room ++ sl_tag TYPE_COMPRESSED_TCP q) in *.
  assert (Lmem : len mem = ROOM + len q).
  { unfold mem. rewrite len_app, Hr. unfold sl_tag. by rewrite len_put8. }
  assert (Hdrop : drop (Z.to_nat (1 + len idb)) (sl_tag TYPE_COMPRESSED_TCP q) = X ++ D).
  { rewrite Ht, Lidb. unfold idb. destruct expl; done. }
  destruct (at_room room _ (1 + len idb) X D Hr ltac:(unfold len; lia) Hdrop) as [HatX HatD].
  fold mem in HatX, HatD.
  unfold sl_inflate, sl_type. rewrite P0, F5, F6. unfold sl_uncompress_tcp.
  change (TYPE_COMPRESSED_TCP =? TYPE_UNCOMPRESSED_TCP) with false.
  change (TYPE_COMPRESSED_TCP =? TYPE_COMPRESSED_TCP) with true. cbn [negb]. cbv iota. rewrite P0, F4.
  (* both ways lead to the saved state *)
  assert (Hgo : exists R1, rstate R1 = rstate R /\ last_recv R1 = Z.of_nat i /\
    has (flags R1) SLF_TOSS = false /\
    (let comp := count R 0 0 0 0 0 1 0 0 in
     if expl then
       let id := b8 mem (ROOM + 1) in
       if id >=? Z.of_nat MAX_STATES then sl_bad mem ROOM comp
       else sl_uncompress_state big mem ROOM (len q) (ROOM + 1 + 1) f
              (set_last_recv (set_slflags comp (Z.land (flags comp) (Z.lnot SLF_TOSS))) id)
     else if has (flags comp) SLF_TOSS then Ret (mem, ROOM, 0, count comp 0 0 0 0 0 0 0 1)
     else sl_uncompress_state big mem ROOM (len q) (ROOM + 1) f comp) =
    sl_uncompress_state big mem ROOM (len q) (ROOM + (1 + len idb)) f R1).
  { cbv zeta. destruct expl.
    - assert (b8 mem (ROOM + 1) = Z.of_nat i) as ->.
      { unfold mem. rewrite b8_room by (done || lia). rewrite Ht. unfold idb. cbn [app].
        change (b8 (f :: ?x :: ?l) 1) with x. exact Hi8. }
      rewrite Z.geb_leb. destruct (Z.leb_spec (Z.of_nat MAX_STATES) (Z.of_nat i)); [lia|].
      eexists. split; [|split; [|split; [|]]]; [..|rewrite Lidb; reflexivity]; try done.
      cbn [flags set_last_recv set_slflags]. rewrite has_land.
      change (Z.land (Z.lnot SLF_TOSS) SLF_TOSS) with 0. apply has_0.
    - destruct (Hexp eq_refl) as [E1 E2]. exists (count R 0 0 0 0 0 1 0 0).
      split; [done|]. split; [done|]. split; [done|].
      change (flags (count R 0 0 0 0 0 1 0 0)) with (flags R). by rewrite E2, Lidb. }
  destruct Hgo as (R1 & ER & EL & ET & Hgo). cbv zeta in Hgo. rewrite Hgo. clear Hgo.
  unfold sl_uncompress_state. rewrite EL, Nat2Z.id, ER. unfold getcs. rewrite Hcr. bind. rewrite Hcl.
  pose proof (sl_new_header_ok p h (cs_hdr cr) t hl e core mem (ROOM + (1 + len idb)) f G1 Hh1 Hrs) as Hnew.
  rewrite Ehl in Hnew. specialize (Hnew eq_refl).
  destruct (sl_new_header mem (ROOM + (1 + len idb)) f (cs_hdr cr) hl) as [h2 cp2].
  destruct Hnew as (N1 & N2 & N3 & N4 & N5 & N6); auto; [lia|lia|congruence|congruence|].
  assert (Hn : len q - (cp2 - ROOM) = len p - hl) by lia.
  rewrite Hn. destruct (Z.ltb_spec (len p - hl) 0); [lia|].
  destruct (sl_rebuild_ok mem cp2 (len p - hl) i R1 cr h2 p Hg) as
    (mem' & cp' & hr & E & Hsl & Hfhr & Z10 & Z11 & Hj).
  - unfold ROOM, len in *. lia.
  - done.
  - lia.
  - intros k Hk. replace (cp2 + k) with (ROOM + (1 + len idb) + len X + k) by lia.
    rewrite HatD by lia. unfold D. apply b8_drop; unfold hl in *; lia.
  - done.
  - by split.
  - done.
  - done.
  - exact N4.
  - exists mem', cp', (set_rstate R1 (<[i:=set_hdr cr hr]> (rstate R1))), hr.
    split; [exact E|]. split; [done|]. cbn [rstate set_rstate last_recv flags]. rewrite ER. by splits.
Qed.

(** ** One packet over the link *)

Definition nourg (C : slcompress) : Prop :=
  forall i c, tstate C !! i = Some c -> is_ipv4 (cs_hdr c) = true ->
    has (th_flags (cs_hdr c) (4 * ip_hl (cs_hdr c))) TH_URG = false.

(** [C'] sends [q] of type [ty] for packet [p], the receiver recovers [p] and
    both stay in step. *)
Definition delivers (room p : list Z) (C R C' : slcompress) (ty : Z) (q : list Z) : Prop :=
  exists mem' pos' R', sl_inflate big (room ++ sl_tag ty q) ROOM (len q) R = Ret (mem', pos', len p, R') /\
    slice pos' (len p) mem' = p /\ sync C' R' /\
    (nourg C -> has (th_flags p (4 * ip_hl p)) TH_URG = false -> nourg C').

Lemma nourg_update C C' i c h p : good p -> holds h p ->
  ids (tstate C') = ids (<[i := set_hdr c h]> (tstate C)) ->
  nourg C -> has (th_flags p (4 * ip_hl p)) TH_URG = false -> nourg C'.
Proof.
  intros Hg Hh E Hn Hp j cj Hj H4.
  assert (Hi : ids (tstate C') !! j = Some (cs_id cj, cs_hdr cj)) by (unfold ids; by rewrite list_lookup_fmap, Hj).
  rewrite E in Hi. unfold ids in Hi. rewrite list_lookup_fmap in Hi.
  destruct (decide (i = j)) as [->|Hne].
  - destruct (decide (j < length (tstate C))%nat).
    + rewrite list_lookup_insert_eq in Hi by done. cbn in Hi. injection Hi as _ <-.
      destruct (holds_fields h p Hg Hh) as (E0 & _ & _ & _ & _ & E5). by rewrite E0, E5.
    + rewrite list_insert_ge in Hi by lia.
      destruct (tstate C !! j) as [c0|] eqn:E0; [|done]. cbn in Hi. injection Hi as _ Hi.
      rewrite <- Hi in *. by apply (Hn j c0).
  - rewrite list_lookup_insert_ne in Hi by done.
    destruct (tstate C !! j) as [c0|] eqn:E0; [|done]. cbn in Hi. injection Hi as _ Hi.
    rewrite <- Hi in *. by apply (Hn j c0).
Qed.

(** The sender's and the receiver's update of state [i]. *)
Lemma sync_update C C' R R' order i c cr h hr p : good p -> good_flags (th_flags p (4 * ip_hl p)) ->
  ring C order -> synced (tstate C) (rstate R) ->
  tstate C !! i = Some c -> rstate R !! i = Some cr -> holds h p ->
  tstate C' = <[i := set_hdr c h]> (tstate C) -> last_cs C' = last_cs C ->
  last_xmit C' = Z.of_nat i \/ last_xmit C' = 255 ->
  (exists n l, rstate R' = <[i := CS n (hlen_of p) l hr]> (rstate R)) ->
  last_recv R' = Z.of_nat i -> has (flags R') SLF_TOSS = false ->
  full hr -> b8 hr 10 = 0 -> b8 hr 11 = 0 ->
  (forall j, 0 <= j < hlen_of p -> j <> 10 -> j <> 11 -> b8 hr j = b8 p j) ->
  sync C' R'.
Proof.
  intros Hg Hgf Hring Hsy Hc Hcr Hh Ht Hl Hx (n & l & Hr) Hlr Htoss Hfull Z10 Z11 Hj.
  pose proof Hring as (_ & Hts & _).
  assert (Hi : (i < 16)%nat) by (apply lookup_lt_Some in Hc; unfold MAX_STATES in *; lia).
  unfold sync. splits.
  - exists order. apply (ring_same C); auto; rewrite Ht.
    + by rewrite length_insert.
    + by apply next_set_hdr.
  - rewrite Ht, Hr. apply synced_insert; [done|].
    destruct Hsy as (_ & _ & Hsy). destruct (Hsy i c cr Hc Hcr) as (Hid & _).
    destruct c as [cn chl cid ch]. cbn in Hid. subst cid.
    exact (rsync_of h hr p Hg Hgf Hh Hfull Z10 Z11 Hj i cn n chl l).
  - destruct Hx as [Hx|Hx]; [right|by left]. rewrite Hx, Hlr. splits; [done|lia|lia|done].
Qed.

Lemma step_full room p C R order i : good p -> good_flags (th_flags p (4 * ip_hl p)) ->
  len room = ROOM -> ring C order -> synced (tstate C) (rstate R) -> (i < MAX_STATES)%nat ->
  exists q C', sl_uncompressed C i p (hlen_of p) = Ret (TYPE_UNCOMPRESSED_TCP, q, C') /\
    delivers room p C R C' TYPE_UNCOMPRESSED_TCP q.
Proof.
  intros Hg Hgf Hr Hring Hsy Hi. pose proof Hsy as (L1 & L2 & Hat).
  destruct (lookup_lt_is_Some_2 (tstate C) i ltac:(lia)) as [c Hc].
  destruct (lookup_lt_is_Some_2 (rstate R) i ltac:(lia)) as [cr Hcr].
  destruct (Hat i c cr Hc Hcr) as (Hid & Hf & Hfr & _).
  destruct (sl_save_ok C i p c Hg Hc Hf) as (h & E & Hh).
  unfold sl_uncompressed. rewrite E. bind. unfold getcs. cbn [tstate set_tstate].
  rewrite list_lookup_insert_eq by lia. bind.
  eexists _, _. split; [reflexivity|]. cbn [cs_id set_hdr]. rewrite Hid.
  destruct (receive_full room p i R cr Hg Hgf Hr Hi Hcr Hfr) as
    (mem' & R' & hr & E' & Hsl & HR & HL & HT & Hfh & Z10 & Z11 & Hj).
  exists mem', ROOM, R'. rewrite len_put8. split; [exact E'|]. split; [done|]. split.
  - eapply (sync_update C _ R R' order i c cr h hr p); eauto.
  - by apply (nourg_update C _ i c h).
Qed.

Lemma step_found room p C R order i c cid : good p -> good_flags (th_flags p (4 * ip_hl p)) ->
  len room = ROOM -> ring C order -> synced (tstate C) (rstate R) ->
  (last_xmit C = 255 \/
   (last_recv R = last_xmit C /\ 0 <= last_xmit C < 16 /\ has (flags R) SLF_TOSS = false)) ->
  tstate C !! i = Some c -> same_conn p (ip_hl p) c = true ->
  (is_ipv4 (cs_hdr c) = true -> has (th_flags (cs_hdr c) (4 * ip_hl (cs_hdr c))) TH_URG = true ->
     has (th_flags p (4 * ip_hl p)) TH_URG = true) ->
  exists ty q C', sl_compress_found C i p cid = Ret (ty, q, C') /\ delivers room p C R C' ty q.
Proof.
  intros Hg Hgf Hr Hring Hsy Hx Hc Hconn Hurg. pose proof Hsy as (L1 & L2 & Hat).
  assert (Hi : (i < MAX_STATES)%nat) by (rewrite <- L1; by apply lookup_lt_Some in Hc).
  destruct (lookup_lt_is_Some_2 (rstate R) i ltac:(lia)) as [cr Hcr].
  destruct (Hat i c cr Hc Hcr) as (Hid & Hf & Hfr & Hsv).
  assert (Hfull : exists ty q C', sl_uncompressed C i p (hlen_of p) = Ret (ty, q, C') /\
    delivers room p C R C' ty q).
  { destruct (step_full room p C R order i Hg Hgf Hr Hring Hsy Hi) as (q & C' & E & Hd).
    by exists TYPE_UNCOMPRESSED_TCP, q, C'. }
  unfold sl_compress_found, getcs. rewrite Hc. bind. fold (hlen_of p).
  destruct (sl_same_header p (cs_hdr c) (ip_hl p)) eqn:Hsame; cbn [negb]; [|exact Hfull].
  destruct (static_ok p c Hg Hconn Hf Hsame) as [H4 Hstat]. destruct (Hsv H4) as (Hsaved & Hrs & Hcl).
  destruct (Hstat Hsaved) as (Ehl & Ehlen & Hst). rewrite Ehlen in Hrs, Hcl.
  destruct (sl_deltas p (cs_hdr c) (4 * ip_hl p)) as [[[[e0 ch0] dS] dA]|] eqn:Hdel; [|exact Hfull].
  destruct (sl_special p (cs_hdr c) (hlen_of p) e0 ch0 dS dA) as [[e core]|] eqn:Hspec; [|exact Hfull].
  pose proof Hg as (G1 & _ & G3 & G4 & G5 & G6 & _). destruct Hf as [Hf1 Hf2].
  pose proof (sl_core_ok _ _ _ _ _ _ _ _ _ _ G1 Hf1 Hdel Hspec) as Hcore.
  destruct (sl_deltas_ok _ _ _ _ _ _ _ Hdel) as (He0 & _).
  assert (Le : 0 <= len e <= 12).
  { destruct (sl_special_len _ _ _ _ _ _ _ _ _ Hspec) as [->| ->]; [|by cbn].
    rewrite He0. apply len_seq_enc. }
  destruct (sl_save_ok C i p c Hg Hc (conj Hf1 Hf2)) as (h & Esave & Hh).
  set (idn := negb (u32 (ip_id p - ip_id (cs_hdr c)) =? 1)).
  set (push := has (th_flags p (4 * ip_hl p)) TH_PUSH).
  assert (Hidp : sl_id_push p (cs_hdr c) (4 * ip_hl p) e core =
    (e ++ id_enc p (cs_hdr c),
     if push then Z.lor (if idn then Z.lor core NEW_I else core) TCP_PUSH_BIT
     else if idn then Z.lor core NEW_I else core)).
  { unfold sl_id_push, id_enc. fold push. fold idn. destruct idn; [done|]. by rewrite app_nil_r. }
  rewrite Hidp, Esave. bind. set (C1 := set_tstate C (<[i:=set_hdr c h]> (tstate C))).
  assert (Hc1 : tstate C1 !! i = Some (set_hdr c h)) by (cbn; by rewrite list_lookup_insert_eq by lia).
  pose proof (len_id_enc p (cs_hdr c)) as Lid.
  rewrite (sl_emit_ok C1 i (set_hdr c h) cid p (hlen_of p)); [|exact Hc1|rewrite len_app; lia|unfold hlen_of in *; lia].
  cbn [cs_id set_hdr]. rewrite Hid. change (last_xmit C1) with (last_xmit C).
  set (expl := negb cid || negb (last_xmit C =? Z.of_nat i)).
  eexists _, _, _. split; [reflexivity|].
  assert (Hexp : expl = false -> last_recv R = Z.of_nat i /\ has (flags R) SLF_TOSS = false).
  { unfold expl. intros Hn. apply orb_false_iff in Hn as [_ Hn]. apply negb_false_iff, Z.eqb_eq in Hn.
    destruct Hx as [Hx|(Hx1 & Hx2 & Hx3)]; [unfold MAX_STATES in *; lia|]. split; [lia|done]. }
  destruct (receive_compressed room p R i cr (cs_hdr c) core e expl push idn) as
    (mem' & pos' & R' & hr & E' & Hsl & HR & HL & HT & Hfh & Z10 & Z11 & Hj); auto; try done.
  { intros Hsp. destruct (has (th_flags (cs_hdr c) (4 * ip_hl p)) TH_URG) eqn:Hu; [|done].
    destruct Hcore as (_ & Hcs & _). rewrite Hurg in Hcs by (rewrite ?Ehl; done).
    by specialize (Hcs Hsp). }
  exists mem', pos', R'. split; [exact E'|]. split; [done|]. split.
  - eapply (sync_update C _ R R' order i c cr h hr p); eauto; try done.
    + by destruct expl.
    + by destruct expl.
    + unfold expl. destruct (Z.eqb_spec (last_xmit C) (Z.of_nat i)) as [Ei|Ei]; [|rewrite orb_true_r; by left].
      destruct cid; cbn; [left; exact Ei|by left].
    + rewrite HR. unfold set_hdr. rewrite Hcl. by eexists _, _.
  - apply (nourg_update C _ i c h); auto. by destruct expl.
Qed.

Lemma sl_step room p C R cid : sync C R -> good p -> len room = ROOM ->
  (forall i c, tstate C !! i = Some c -> same_conn p (ip_hl p) c = true -> is_ipv4 (cs_hdr c) = true ->
     has (th_flags (cs_hdr c) (4 * ip_hl (cs_hdr c))) TH_URG = true ->
     has (th_flags p (4 * ip_hl p)) TH_URG = true) ->
  exists ty q C', sl_compress_tcp p C cid = Ret (ty, q, C') /\ delivers room p C R C' ty q.
Proof.
  intros ((order & Hring) & Hsy & Hx) Hg Hr Hurg.
  pose proof Hg as (G1 & _ & G3 & G4 & G5 & G6 & _ & _ & _ & _ & G11 & _).
  assert (Hip : exists ty q C', Ret (TYPE_IP, p, C) = Ret (ty, q, C') /\ delivers room p C R C' ty q).
  { exists TYPE_IP, p, C. split; [done|]. exists (room ++ p), ROOM, R.
    split; [by apply receive_ip|]. split; [by apply slice_room|]. split; [|done].
    split; [by exists order|by split]. }
  unfold sl_compress_tcp. destruct (negb _ || _); [exact Hip|].
  destruct (Z.eqb_spec (Z.land (th_flags p (4 * ip_hl p))
    (Z.lor (Z.lor TH_SYN TH_FIN) (Z.lor TH_RST TH_ACK))) TH_ACK) as [Hack|]; cbn [negb]; [|exact Hip].
  pose proof (good_flags_of _ (b8_range p (4 * ip_hl p + 13) G1) Hack G11) as Hgf.
  set (C0 := count C 1 0 0 0 0 0 0 0).
  destruct (sl_locate_ok C0 p (ip_hl p) order Hring) as
    (C1 & i & f & A & B & E & Hord & Hring1 & (T1 & T2 & T3 & T4 & T5) & _ & Hf & _).
  rewrite E. bind. change (tstate C0) with (tstate C) in *. change (last_xmit C0) with (last_xmit C) in T4.
  assert (Hi : (i < MAX_STATES)%nat).
  { destruct Hring as (_ & _ & _ & Hv & _). rewrite Hord in Hv. apply Forall_app in Hv as [_ Hv].
    by apply Forall_cons in Hv as [Hv _]. }
  pose proof (synced_ids _ _ _ T1 Hsy) as Hsy1.
  assert (Hn : nourg C -> nourg C1).
  { intros Hn j cj Hj H4.
    assert (Hij : ids (tstate C1) !! j = Some (cs_id cj, cs_hdr cj)) by (unfold ids; by rewrite list_lookup_fmap, Hj).
    rewrite T1 in Hij. unfold ids in Hij. rewrite list_lookup_fmap in Hij.
    destruct (tstate C !! j) as [c0|] eqn:E0; [|done]. cbn in Hij. injection Hij as _ Hij.
    rewrite <- Hij in *. by apply (Hn j c0). }
  assert (Hd : forall C' ty q, delivers room p C1 R C' ty q -> delivers room p C R C' ty q).
  { intros C' ty q (mem' & pos' & R' & D1 & D2 & D3 & D4). exists mem', pos', R'. splits; auto. }
  destruct f.
  - symmetry in Hf. unfold matches in Hf. destruct (tstate C !! i) as [c0|] eqn:E0; [|done].
    assert (Hi1 : ids (tstate C1) !! i = Some (cs_id c0, cs_hdr c0))
      by (rewrite T1; unfold ids; by rewrite list_lookup_fmap, E0).
    unfold ids in Hi1. rewrite list_lookup_fmap in Hi1.
    destruct (tstate C1 !! i) as [c1|] eqn:E1; [|done]. cbn in Hi1. injection Hi1 as H1 H2.
    destruct (step_found room p C1 R (i :: A ++ B) i c1 cid Hg Hgf Hr Hring1 Hsy1) as
      (ty & q & C' & Ec & Hc).
    + by rewrite T4.
    + done.
    + unfold same_conn in *. by rewrite H2.
    + rewrite H2. by apply (Hurg i c0).
    + exists ty, q, C'. split; [exact Ec|]. by apply Hd.
  - destruct (step_full room p C1 R (i :: A ++ B) i Hg Hgf Hr Hring1 Hsy1 Hi) as (q & C' & Ec & Hc).
    exists TYPE_UNCOMPRESSED_TCP, q, C'. split; [exact Ec|]. by apply Hd.
Qed.

(** A link that loses nothing: every packet is compressed, framed with its
    type, received and decompressed; the list delivered. *)
Fixpoint sl_link (room : list Z) (ps : list (list Z * bool)) (C R : slcompress) : outcome (list (list Z)) :=
  match ps with
  | [] => Ret []
  | (p, cid) :: ps =>
      '(ty, q, C) ← sl_compress_tcp p C cid;
      '(mem, pos, n, _, R) ← sl_receive big SC_COMPRESS (room ++ sl_tag ty q) ROOM (len q) R;
      rest ← sl_link room ps C R;
      Ret (slice pos n mem :: rest)
  end.

Lemma sl_link_ok room : len room = ROOM -> forall ps C R, sync C R -> nourg C ->
  Forall (fun x => good x.1 /\ has (th_flags x.1 (4 * ip_hl x.1)) TH_URG = false) ps ->
  sl_link room ps C R = Ret (fst <$> ps).
Proof.
  intros Hr. induction ps as [|[p cid] ps IH]; intros C R Hs Hn Hps; [done|].
  apply Forall_cons in Hps as [[Hg Hu] Hps]. cbn [fst] in *. cbn [sl_link].
  destruct (sl_step room p C R cid Hs Hg Hr) as (ty & q & C' & E & mem' & pos' & R' & E' & Hsl & Hs' & Hn').
  { intros i c Hc Hconn H4 Hbit. exfalso. specialize (Hn i c Hc H4). congruence. }
  rewrite E. bind. rewrite (sl_receive_on _ SC_COMPRESS _ _ _ _ _ _ _ _ eq_refl E'). bind. rewrite (IH C' R' Hs') by auto. bind. by rewrite Hsl.
Qed.

End link.

Lemma init_ring : ring sl_compress_init (rev (seq 0 16)).
Proof.
  unfold ring. splits; try reflexivity.
  - apply (bool_decide_unpack _). vm_compute. exact I.
  - apply (bool_decide_unpack _). vm_compute. exact I.
  - vm_compute. splits; done.
Qed.

Lemma init_sync : sync sl_compress_init sl_compress_init.
Proof.
  split; [eexists; exact init_ring|]. split; [|by left]. split; [done|]. split; [done|].
  intros i c cr Hc Hcr. unfold sl_compress_init in *. cbn [tstate rstate] in *.
  rewrite list_lookup_fmap in Hc. destruct (seq 0 MAX_STATES !! i) as [j|] eqn:Hj; [|done].
  apply lookup_seq in Hj as [-> Hj]. cbn in Hc. injection Hc as <-.
  apply lookup_replicate in Hcr as [-> _].
  assert (Hfull : full (replicate (Z.to_nat MAX_HDR) 0)).
  { split; [|done]. apply Forall_replicate. lia. }
  unfold sync_at. cbn [cs_id cs_hdr cs_hlen]. splits; auto. intros H4. discriminate H4.
Qed.

Lemma init_nourg : nourg sl_compress_init.
Proof.
  intros i c Hc H4. exfalso. unfold sl_compress_init in Hc. cbn [tstate] in Hc.
  rewrite list_lookup_fmap in Hc. destruct (seq 0 MAX_STATES !! i) as [j|]; [|done].
  injection Hc as <-. discriminate H4.
Qed.

(** Packets of two connections, for the concrete checks below: [pkt_a] and
    [pkt_b] follow one another; [pkt_u] has the URG flag, [pkt_v] follows it
    without the flag and with the same urgent pointer. *)
Definition pkt_a : list Z := [69; 0; 0; 42; 0; 7; 0; 0; 64; 6; 102; 197; 10; 0; 0; 1; 10; 0; 0; 2;
  4; 0; 0; 23; 0; 0; 3; 232; 0; 0; 1; 244; 80; 16; 16; 0; 171; 205; 0; 0; 1; 2].
Definition pkt_b : list Z := [69; 0; 0; 42; 0; 8; 0; 0; 64; 6; 102; 196; 10; 0; 0; 1; 10; 0; 0; 2;
  4; 0; 0; 23; 0; 0; 3; 234; 0; 0; 1; 244; 80; 24; 16; 0; 171; 205; 0; 0; 3; 4].
Definition pkt_c : list Z := [69; 0; 0; 40; 0; 9; 0; 0; 64; 6; 102; 197; 10; 0; 0; 1; 10; 0; 0; 2;
  4; 1; 0; 23; 0; 0; 0; 77; 0; 0; 0; 88; 80; 16; 16; 0; 171; 205; 0; 0].
Definition pkt_u : list Z := [69; 0; 0; 42; 0; 7; 0; 0; 64; 6; 102; 197; 10; 0; 0; 1; 10; 0; 0; 2;
  4; 0; 0; 23; 0; 0; 3; 232; 0; 0; 1; 244; 80; 48; 16; 0; 171; 205; 0; 1; 1; 2].
Definition pkt_v : list Z := [69; 0; 0; 42; 0; 8; 0; 0; 64; 6; 102; 196; 10; 0; 0; 1; 10; 0; 0; 2;
  4; 0; 0; 23; 0; 0; 3; 234; 0; 0; 1; 244; 80; 16; 16; 0; 171; 205; 0; 1; 3; 4].

Lemma good_packets (big : bool) : Forall (good big) [pkt_a; pkt_b; pkt_c; pkt_u; pkt_v].
Proof. destruct big; apply (bool_decide_unpack _); vm_compute; exact I. Qed.

(** ** Properties *)

(** C1: header compression is transparent.  Over a link that loses nothing,
    between two freshly initialised ends, any sequence of well-formed TCP
    packets without the URG flag (any mix of connections, more of them than the
    16 states, options, retransmissions, packets that cannot be compressed) is
    delivered byte for byte, with or without connection-id compression, on
    machines of either byte order. *)
Theorem sl_compress_transparent (big : bool) (room : list Z) (ps : list (list Z * bool)) :
  len room = ROOM ->
  Forall (fun x => good big x.1 /\ has (th_flags x.1 (4 * ip_hl x.1)) TH_URG = false) ps ->
  sl_link big room ps sl_compress_init sl_compress_init = Ret (fst <$> ps).
Proof.
  intros Hr Hps. apply sl_link_ok; auto using init_sync, init_nourg.
Qed.

(** The transmit states form a ring in least-recently-used order.  On a
    ring of 16 states, locating a packet's connection terminates; it takes the
    first state in the order that has the packet's addresses and ports, or the
    oldest when there is none, and leaves a ring whose order is the old one
    with that state moved to the front; no saved header, identifier or receive
    state changes.  The initial state is such a ring. *)
Theorem sl_locate_lru (comp : slcompress) (p : list Z) (hlen : Z) (order : list nat) :
  ring sl_compress_init (rev (seq 0 16)) /\
  (ring comp order ->
   exists comp' i f A B, sl_locate comp p hlen = Ret (comp', i, f) /\ order = A ++ i :: B /\
     ring comp' (i :: A ++ B) /\ touched comp comp' /\
     Forall (fun j => matches (tstate comp) p hlen j = false) A /\
     f = matches (tstate comp) p hlen i /\ (f = false -> B = [])).
Proof. split; [exact init_ring|apply sl_locate_ok]. Qed.

(** Errors put the receiver in the discarding state.  A frame of unknown
    type, or one whose connection number is out of range, delivers nothing and
    sets SLF_TOSS; while it is set a compressed frame with an implicit
    connection number delivers nothing and changes no header, connection number
    or flag. *)
Theorem sl_toss (big : bool) (mem : list Z) (pos n type : Z) (R : slcompress) :
  (type <> TYPE_UNCOMPRESSED_TCP /\ type <> TYPE_COMPRESSED_TCP \/
   type = TYPE_UNCOMPRESSED_TCP /\ 16 <= b8 mem (pos + 9) \/
   type = TYPE_COMPRESSED_TCP /\ has (b8 mem pos) NEW_C = true /\ 16 <= b8 mem (pos + 1) ->
   exists R', sl_uncompress_tcp big mem pos n type R = Ret (mem, pos, 0, R') /\
     has (flags R') SLF_TOSS = true /\ rstate R' = rstate R /\ last_recv R' = last_recv R) /\
  (type = TYPE_COMPRESSED_TCP -> has (b8 mem pos) NEW_C = false -> has (flags R) SLF_TOSS = true ->
   exists R', sl_uncompress_tcp big mem pos n type R = Ret (mem, pos, 0, R') /\
     flags R' = flags R /\ rstate R' = rstate R /\ last_recv R' = last_recv R).
Proof.
  assert (Hbad : forall R0, rstate R0 = rstate R -> last_recv R0 = last_recv R ->
    exists R', sl_bad mem pos R0 = Ret (mem, pos, 0, R') /\
     has (flags R') SLF_TOSS = true /\ rstate R' = rstate R /\ last_recv R' = last_recv R).
  { intros R0 E1 E2. eexists. split; [reflexivity|]. splits; auto.
    change (has (Z.lor (flags R0) SLF_TOSS) SLF_TOSS = true). rewrite has_lor. apply orb_true_r. }
  unfold sl_uncompress_tcp. split.
  - intros [[H1 H2]|[[-> H1]|(-> & H1 & H2)]].
    + destruct (Z.eqb_spec type TYPE_UNCOMPRESSED_TCP); [done|].
      destruct (Z.eqb_spec type TYPE_COMPRESSED_TCP); [done|]. by apply Hbad.
    + rewrite Z.eqb_refl. unfold sl_uncompress_full. rewrite Z.geb_leb.
      destruct (Z.leb_spec (Z.of_nat MAX_STATES) (b8 mem (pos + 9))); [|unfold MAX_STATES in *; lia].
      by apply Hbad.
    + change (TYPE_COMPRESSED_TCP =? TYPE_UNCOMPRESSED_TCP) with false. rewrite Z.eqb_refl. cbn [negb].
      rewrite H1, Z.geb_leb.
      destruct (Z.leb_spec (Z.of_nat MAX_STATES) (b8 mem (pos + 1))); [|unfold MAX_STATES in *; lia].
      by apply Hbad.
  - intros -> H1 H2. change (TYPE_COMPRESSED_TCP =? TYPE_UNCOMPRESSED_TCP) with false.
    rewrite Z.eqb_refl. cbn [negb]. rewrite H1.
    change (flags (count R 0 0 0 0 0 1 0 0)) with (flags R). rewrite H2.
    eexists. split; [reflexivity|]. by splits.
Qed.

(** C40: two inputs make the decompressor leave its arrays.  Right after
    initialisation [last_recv] is 255 and SLF_TOSS is clear, so a compressed
    frame with an implicit connection number indexes [rstate[255]]; and a frame
    with a full header longer than MAX_HDR (108) bytes, which the 4-bit length
    fields allow, is copied past the end of the saved header. *)
Theorem sl_uncompress_overrun (big : bool) (mem : list Z) (pos n : Z) (R : slcompress) :
  (has (b8 mem pos) NEW_C = false ->
   sl_uncompress_tcp big mem pos n TYPE_COMPRESSED_TCP sl_compress_init = Fault) /\
  (b8 mem (pos + 9) < 16 -> 0 <= pos -> pos + 10 <= len mem -> Forall full (cs_hdr <$> rstate R) ->
   let m1 := put8 mem (pos + 9) IPPROTO_TCP in
   let hl := Z.land (b8 m1 pos) 0xf in
   MAX_HDR < 4 * (hl + Z.shiftr (b8 m1 (pos + 4 * hl + 12)) 4) ->
   sl_uncompress_tcp big mem pos n TYPE_UNCOMPRESSED_TCP R = Fault).
Proof.
  split.
  - intros H. unfold sl_uncompress_tcp.
    change (TYPE_COMPRESSED_TCP =? TYPE_UNCOMPRESSED_TCP) with false. rewrite Z.eqb_refl. cbn [negb].
    by rewrite H.
  - intros Hid Hpos Hlen Hfull m1 hl Hbig. unfold sl_uncompress_tcp. rewrite Z.eqb_refl.
    unfold sl_uncompress_full. rewrite Z.geb_leb.
    destruct (Z.leb_spec (Z.of_nat MAX_STATES) (b8 mem (pos + 9))); [unfold MAX_STATES in *; lia|].
    unfold getcs. destruct (rstate R !! Z.to_nat (b8 mem (pos + 9))) as [c|] eqn:Ec; [|done]. bind.
    fold m1. fold hl. set (k := 4 * (hl + Z.shiftr (b8 m1 (pos + 4 * hl + 12)) 4)) in *.
    unfold bread. destruct (_ && _) eqn:Eb; [|done]. bind.
    assert (Hc : full (cs_hdr c)).
    { apply (Forall_lookup_1 full (cs_hdr <$> rstate R) (Z.to_nat (b8 mem (pos + 9)))); [done|].
      by rewrite list_lookup_fmap, Ec. }
    destruct Hc as [_ Hc]. unfold bwrite. unfold MAX_HDR, MLEN, len in *.
    apply andb_prop in Eb as [Eb E3]. apply andb_prop in Eb as [E1 E2]. apply Z.leb_le in E1, E2, E3.
    rewrite slice_length by lia. rewrite Hc.
    destruct (Z.leb_spec (0 + k) 108); [lia|]. by rewrite andb_false_r.
Qed.

(** What header compression does not carry: a cleared URG flag.  Of two
    well-formed successive packets, the first urgent and the second not, with
    the urgent pointer field unchanged, the second goes out as a SPECIAL_D
    frame, whose decompression never clears TH_URG; it arrives with the flag
    still set. *)
Theorem sl_urg_sticks (big : bool) :
  exists p q q', good big p /\ good big q /\
    has (th_flags p (4 * ip_hl p)) TH_URG = true /\ has (th_flags q (4 * ip_hl q)) TH_URG = false /\
    th_urp p (4 * ip_hl p) = th_urp q (4 * ip_hl q) /\
    sl_link big (replicate (Z.to_nat ROOM) 0) [(p, true); (q, true)] sl_compress_init sl_compress_init =
      Ret [p; q'] /\
    len q' = len q /\ has (th_flags q' (4 * ip_hl q')) TH_URG = true.
Proof.
  exists pkt_u, pkt_v. pose proof (good_packets big) as Hg. rewrite !Forall_cons in Hg.
  destruct big; (eexists; splits; [tauto|tauto|..]; vm_compute; reflexivity).
Qed.

(** ** Witnesses *)

Lemma sl_compress_transparent_witness :
  sl_link true (replicate (Z.to_nat ROOM) 0)
    [(pkt_a, true); (pkt_b, true); (pkt_c, false); (pkt_a, true); (pkt_b, false)]
    sl_compress_init sl_compress_init = Ret [pkt_a; pkt_b; pkt_c; pkt_a; pkt_b].
Proof.
  pose proof (good_packets true) as Hg. rewrite !Forall_cons in Hg.
  apply (sl_compress_transparent true _
    [(pkt_a, true); (pkt_b, true); (pkt_c, false); (pkt_a, true); (pkt_b, false)]); [reflexivity|].
  rewrite !Forall_cons, Forall_nil; cbn [fst]; splits; (tauto || reflexivity).
Defined.

Lemma sl_locate_lru_witness :
  exists comp' i f A B, sl_locate sl_compress_init pkt_a 5 = Ret (comp', i, f) /\
    rev (seq 0 16) = A ++ i :: B /\ f = false /\ B = [].
Proof.
  destruct (sl_locate_lru sl_compress_init pkt_a 5 (rev (seq 0 16))) as [H1 H2].
  destruct (H2 H1) as (C & i & f & A & B & E & Ho & _ & _ & _ & Hf & HB).
  exists C, i, f, A, B. assert (f = false) as Ef.
  { vm_compute in E. injection E as _ _ E. symmetry. exact E. }
  split; [exact E|]. split; [exact Ho|]. split; [exact Ef|]. exact (HB Ef).
Defined.

Lemma sl_toss_witness :
  exists R', sl_uncompress_tcp true [0x40; 16] 0 2 TYPE_COMPRESSED_TCP sl_compress_init =
      Ret ([0x40; 16], 0, 0, R') /\ has (flags R') SLF_TOSS = true.
Proof.
  destruct (sl_toss true [0x40; 16] 0 2 TYPE_COMPRESSED_TCP sl_compress_init) as [H _].
  destruct H as (R' & E & Hf & _).
  - right. right. split; [reflexivity|]. split; [reflexivity|]. vm_compute. discriminate.
  - exists R'. split; [exact E|exact Hf].
Defined.

Lemma sl_uncompress_overrun_witness :
  sl_uncompress_tcp true [1; 0; 5; 7] 0 4 TYPE_COMPRESSED_TCP sl_compress_init = Fault /\
  sl_uncompress_tcp true ([0x4f; 0; 0; 120; 0; 0; 0; 0; 0; 3] ++ replicate 62 0 ++ [0xf0] ++ replicate 47 0)
    0 120 TYPE_UNCOMPRESSED_TCP sl_compress_init = Fault.
Proof.
  split.
  - apply (sl_uncompress_overrun true [1; 0; 5; 7] 0 4 sl_compress_init). reflexivity.
  - apply (sl_uncompress_overrun true
      ([0x4f; 0; 0; 120; 0; 0; 0; 0; 0; 3] ++ replicate 62 0 ++ [0xf0] ++ replicate 47 0) 0 120
      sl_compress_init).
    + reflexivity.
    + lia.
    + vm_compute. discriminate.
    + apply (bool_decide_unpack _). vm_compute. exact I.
    + vm_compute. reflexivity.
Defined.

End SlCompress.
