(* ===== verification/Clist.v ===== *)
(** The character lists of the terminal driver, sys/kern/tty_subr.c, with the
    memory they live in.

    A character list is a chain of 64-byte blocks aligned on 64 bytes; a pointer
    into one is an address, and the code finds the block of a character by
    masking its address.  The model keeps addresses as integers and the blocks
    in a map keyed by address, so that pointer arithmetic and masking are the
    code's.  Every routine takes and returns the memory ([ttymem]: blocks, free
    list, free count, [cwaiting]) and the list header; a stray access is
    [Fault].  spltty/splx protect each routine, which is one step of the model. *)
From stdpp Require Import base numbers list gmap.
From Stdlib Require Import ZArith Lia.
From S2P Require Import Prelude.

Module Clist.

(** ** Data (sys/sys/clist.h, sys/sys/tty.h, sys/sys/param.h) *)

Definition CBLOCK : Z := 64.
Definition CBQSIZE : Z := CBLOCK / 8.
Definition CBSIZE : Z := CBLOCK - 4 - CBQSIZE.
Definition CROUND : Z := CBLOCK - 1.
Definition TTY_QUOTE : Z := 0x100.
(** The offset of [c_info] in a block. *)
Definition CBHDR : Z := 4 + CBQSIZE.

(** [c_quote] is the bit array of [CBQSIZE] bytes as one number: bit [i] of the
    array ([setbit], [isset] of param.h) is bit [i] of the number. *)
Record cblock := Cb { c_next : Z; c_quote : Z; c_info : list Z }.

Record clist := Cl { c_cc : Z; c_cf : Z; c_cl : Z }.

Record ttymem := Tm {
  cblocks : gmap Z cblock;
  cfreelist : Z;
  cfreecount : Z;
  cwaiting : bool;
  wakeups : Z  (** how often [wakeup(&cwaiting)] was called *)
}.

Definition NULL : Z := 0.

(** ** Memory *)

Definition cblk (a : Z) : Z := Z.land a (Z.lnot CROUND).
Definition coff (a : Z) : Z := Z.land a CROUND.

Definition getb (st : ttymem) (b : Z) : outcome cblock :=
  match cblocks st !! b with Some cb => Ret cb | None => Fault end.

Definition with_blocks (st : ttymem) (m : gmap Z cblock) : ttymem :=
  Tm m (cfreelist st) (cfreecount st) (cwaiting st) (wakeups st).

Definition set_cnext (st : ttymem) (b n : Z) : outcome ttymem :=
  cb ← getb st b; Ret (with_blocks st (<[b := Cb n (c_quote cb) (c_info cb)]> (cblocks st))).

Definition bzero_quote (st : ttymem) (b : Z) : outcome ttymem :=
  cb ← getb st b; Ret (with_blocks st (<[b := Cb (c_next cb) 0 (c_info cb)]> (cblocks st))).

Definition set_free (st : ttymem) (fl fc : Z) : ttymem :=
  Tm (cblocks st) fl fc (cwaiting st) (wakeups st).

Definition setquote (st : ttymem) (a : Z) : outcome ttymem :=
  cb ← getb st (cblk a);
  Ret (with_blocks st (<[cblk a := Cb (c_next cb) (Z.setbit (c_quote cb) (coff a)) (c_info cb)]> (cblocks st))).

Definition isquote (st : ttymem) (a : Z) : outcome bool :=
  cb ← getb st (cblk a); Ret (Z.testbit (c_quote cb) (coff a)).

(** [n] bytes from address [a] on, all in one block. *)
Definition cread (st : ttymem) (a n : Z) : outcome (list Z) :=
  cb ← getb st (cblk a);
  if (CBHDR <=? coff a) && (coff a + n <=? CBLOCK) && (0 <=? n)
  then Ret (take (Z.to_nat n) (drop (Z.to_nat (coff a - CBHDR)) (c_info cb)))
  else Fault.

Definition charat (st : ttymem) (a : Z) : outcome Z :=
  l ← cread st a 1; match l with c :: _ => Ret c | [] => Fault end.

(** Store bytes at address [a], all in one block. *)
Definition cwrite (st : ttymem) (a : Z) (bs : list Z) : outcome ttymem :=
  cb ← getb st (cblk a);
  let o := Z.to_nat (coff a - CBHDR) in
  if (CBHDR <=? coff a) && (coff a + Z.of_nat (length bs) <=? CBLOCK)
  then Ret (with_blocks st (<[cblk a := Cb (c_next cb) (c_quote cb)
         (take o (c_info cb) ++ bs ++ drop (o + length bs) (c_info cb))]> (cblocks st)))
  else Fault.


(** Put a block on the free list. *)
Definition cbfree (st : ttymem) (bp : Z) : outcome ttymem :=
  st ← set_cnext st bp (cfreelist st);
  Ret (set_free st bp (cfreecount st + CBSIZE)).

Definition cwakeup (st : ttymem) : ttymem :=
  if cwaiting st
  then Tm (cblocks st) (cfreelist st) (cfreecount st) false (wakeups st + 1)
  else st.

(** Take the block [bp] at the head of the free list. *)
Definition cbtake (st : ttymem) (bp : Z) (bzero : bool) : outcome ttymem :=
  cb ← getb st bp;
  let st := set_free st (c_next cb) (cfreecount st - CBSIZE) in
  st ← set_cnext st bp NULL;
  if bzero then bzero_quote st bp else Ret st.

(** ** The routines *)

(** [cinit], sys/kern/init_main.c: the aligned blocks of [cfree[nclist]]. *)
Fixpoint cinit_loop (fuel : nat) (st : ttymem) (cp lim : Z) : outcome ttymem :=
  match fuel with
  | O => Fault
  | S fuel =>
      if cp <? lim then
        st ← set_cnext st cp (cfreelist st);
        cinit_loop fuel (set_free st cp (cfreecount st + CBSIZE)) (cp + CBLOCK) lim
      else Ret st
  end.

Definition cinit (st : ttymem) (cfree nclist : Z) : outcome ttymem :=
  cinit_loop (S (Z.to_nat nclist)) st (Z.land (cfree + CROUND) (Z.lnot CROUND))
    (cfree + CBLOCK * (nclist - 1)).

Definition getc (st : ttymem) (p : clist) : outcome (Z * ttymem * clist) :=
  if c_cc p <=? 0 then Ret (-1, st, Cl 0 NULL NULL)
  else
    c ← charat st (c_cf p);
    qt ← isquote st (c_cf p);
    let c := if (qt : bool) then Z.lor c TTY_QUOTE else c in
    let cf := c_cf p + 1 in
    let cc := c_cc p - 1 in
    if cc <=? 0 then
      st ← cbfree st (cblk (cf - 1));
      Ret (c, cwakeup st, Cl cc NULL NULL)
    else if coff cf =? 0 then
      let bp := cf - CBLOCK in
      b ← getb st bp;
      st ← cbfree st bp;
      Ret (c, cwakeup st, Cl cc (c_next b + CBHDR) (c_cl p))
    else Ret (c, st, Cl cc cf (c_cl p)).

Fixpoint qtob_loop (fuel : nat) (st : ttymem) (q : clist) (cc : Z) (acc : list Z)
  : outcome (list Z * ttymem * clist) :=
  match fuel with
  | O => Fault
  | S fuel =>
      if cc =? 0 then Ret (acc, st, q)
      else
        let nc := CBLOCK - coff (c_cf q) in
        let nc := Z.min nc cc in
        let nc := Z.min nc (c_cc q) in
        bs ← cread st (c_cf q) nc;
        let acc := acc ++ bs in
        let q := Cl (c_cc q - nc) (c_cf q + nc) (c_cl q) in
        let cc := cc - nc in
        if c_cc q <=? 0 then
          st ← cbfree st (cblk (c_cf q - 1));
          Ret (acc, cwakeup st, Cl (c_cc q) NULL NULL)
        else if coff (c_cf q) =? 0 then
          let bp := c_cf q - CBLOCK in
          b ← getb st bp;
          st ← cbfree st bp;
          qtob_loop fuel (cwakeup st) (Cl (c_cc q) (c_next b + CBHDR) (c_cl q)) cc acc
        else qtob_loop fuel st q cc acc
  end.

(** The bytes moved and the new state; the routine returns their number. *)
Definition q_to_b (st : ttymem) (q : clist) (cc : Z) : outcome (list Z * ttymem * clist) :=
  if cc <=? 0 then Ret ([], st, q)
  else if c_cc q <=? 0 then Ret ([], st, Cl 0 NULL NULL)
  else qtob_loop (S (Z.to_nat cc)) st q cc [].

Fixpoint ndqb_scan (bs : list Z) (flag : Z) : Z :=
  match bs with
  | [] => 0
  | c :: bs => if negb (Z.land (s8 c) flag =? 0) then 0 else 1 + ndqb_scan bs flag
  end.

Definition ndqb (st : ttymem) (q : clist) (flag : Z) : outcome Z :=
  if c_cc q <=? 0 then Ret (- c_cc q)
  else
    let cc := Z.land (c_cf q + CBSIZE) (Z.lnot CROUND) - c_cf q in
    let cc := if c_cc q <? cc then c_cc q else cc in
    if negb (flag =? 0) then
      bs ← cread st (c_cf q) cc;
      Ret (ndqb_scan bs flag)
    else Ret cc.

Fixpoint ndflush_loop (fuel : nat) (st : ttymem) (q : clist) (cc : Z) : outcome (ttymem * clist) :=
  match fuel with
  | O => Fault
  | S fuel =>
      if (cc >? 0) && negb (c_cc q =? 0) then
        let bp := cblk (c_cf q) in
        let fin := if bp =? cblk (c_cl q - 1) then c_cl q else bp + CBLOCK in
        let rem := fin - c_cf q in
        if cc >=? rem then
          b ← getb st bp;
          let q := Cl (c_cc q - rem) (c_next b + CBHDR) (c_cl q) in
          st ← cbfree st bp;
          ndflush_loop fuel (cwakeup st) q (cc - rem)
        else
          let q := Cl (c_cc q - cc) (c_cf q + cc) (c_cl q) in
          if c_cc q <=? 0 then
            st ← cbfree st bp;
            Ret (cwakeup st, q)
          else Ret (st, q)
      else Ret (st, q)
  end.

Definition ndflush (st : ttymem) (q : clist) (cc : Z) : outcome (ttymem * clist) :=
  if c_cc q <=? 0 then Ret (st, q)
  else
    '(st, q) ← ndflush_loop (S (Z.to_nat cc)) st q cc;
    Ret (st, if c_cc q <=? 0 then Cl 0 NULL NULL else q).

(** The first block of an empty list, [None] when there is no free block. *)
Definition put_first (st : ttymem) : outcome (option (ttymem * Z)) :=
  let bp := cfreelist st in
  if bp =? NULL then Ret None
  else st ← cbtake st bp true; Ret (Some (st, bp + CBHDR)).

(** A new block after the one that ends at [cp]; the place is [NULL] when there
    is no free block.  The new block's quote bits are cleared or not, as the
    caller says. *)
Definition put_next (st : ttymem) (cp : Z) (bzero : bool) : outcome (ttymem * Z) :=
  st ← set_cnext st (cp - CBLOCK) (cfreelist st);
  let bp := cfreelist st in
  if bp =? NULL then Ret (st, NULL)
  else st ← cbtake st bp bzero; Ret (st, bp + CBHDR).

(** The end of putc: the character goes to [cp]. *)
Definition putc_store (st : ttymem) (c cf cp : Z) (p : clist) : outcome (Z * ttymem * clist) :=
  st ← (if has c TTY_QUOTE then setquote st cp else Ret st);
  st ← cwrite st cp [u8 c];
  Ret (0, st, Cl (c_cc p + 1) cf (cp + 1)).

Definition putc (st : ttymem) (c : Z) (p : clist) : outcome (Z * ttymem * clist) :=
  if (c_cl p =? NULL) || (c_cc p <? 0) then
    r ← put_first st;
    match r with
    | None => Ret (-1, st, p)
    | Some (st, cp) => putc_store st c cp cp p
    end
  else if coff (c_cl p) =? 0 then
    '(st, cp) ← put_next st (c_cl p) false;
    if cp =? NULL then Ret (-1, st, p) else putc_store st c (c_cf p) cp p
  else putc_store st c (c_cf p) (c_cl p) p.

(** The loop of b_to_q: memory, place and count when it ends. *)
Fixpoint btoq_loop (fuel : nat) (st : ttymem) (cp : list Z) (cq cc : Z) : outcome (ttymem * Z * Z) :=
  match fuel with
  | O => Fault
  | S fuel =>
      if cc =? 0 then Ret (st, cq, cc)
      else
        '(st, cq') ← (if coff cq =? 0 then put_next st cq true else Ret (st, cq));
        if cq' =? NULL then Ret (st, cq, cc)
        else
          let nc := Z.min cc (CBLOCK - coff cq') in
          st ← cwrite st cq' (take (Z.to_nat nc) cp);
          btoq_loop fuel st (drop (Z.to_nat nc) cp) (cq' + nc) (cc - nc)
  end.

Definition b_to_q (st : ttymem) (cp : list Z) (cc : Z) (q : clist) : outcome (Z * ttymem * clist) :=
  if cc <=? 0 then Ret (0, st, q)
  else
    r ← (if (c_cl q =? NULL) || (c_cc q <? 0)
         then r ← put_first st;
              Ret (match r with Some (st, cq) => Some (st, cq, cq) | None => None end)
         else Ret (Some (st, c_cf q, c_cl q)));
    match r with
    | None => Ret (cc, st, q)
    | Some (st, cf, cq) =>
        '(st, cq, rest) ← btoq_loop (S (Z.to_nat cc)) st cp cq cc;
        Ret (rest, st, Cl (c_cc q + (cc - rest)) cf cq)
    end.

(** The address of the next character and the character, or [None]. *)
Definition nextc (st : ttymem) (p : clist) (cp : Z) : outcome (option (Z * Z)) :=
  let cp := cp + 1 in
  if negb (c_cc p =? 0) && negb (cp =? c_cl p) then
    cp ← (if coff cp =? 0 then b ← getb st (cp - CBLOCK); Ret (c_next b + CBHDR) else Ret cp);
    c ← charat st cp;
    qt ← isquote st cp;
    Ret (Some (cp, if (qt : bool) then Z.lor (s8 c) TTY_QUOTE else s8 c))
  else Ret None.

(** The block whose successor is [target], from block [bp] on. *)
Fixpoint find_prev (fuel : nat) (st : ttymem) (bp target : Z) : outcome Z :=
  match fuel with
  | O => Fault
  | S fuel =>
      b ← getb st bp;
      if c_next b =? target then Ret bp else find_prev fuel st (c_next b) target
  end.

Definition unputc (st : ttymem) (p : clist) : outcome (Z * ttymem * clist) :=
  if c_cc p <=? 0 then Ret (-1, st, p)
  else
    let cl := c_cl p - 1 in
    c ← charat st cl;
    qt ← isquote st cl;
    let c := if (qt : bool) then Z.lor (s8 c) TTY_QUOTE else s8 c in
    let cc := c_cc p - 1 in
    if cc <=? 0 then
      st ← cbfree st (cblk cl);
      Ret (c, st, Cl cc NULL NULL)
    else if cl =? cblk cl + CBHDR then
      let cl := cblk cl in
      obp ← find_prev (S (Z.to_nat (c_cc p))) st (cblk (c_cf p)) cl;
      b ← getb st obp;
      st ← cbfree st (c_next b);
      st ← set_cnext st obp NULL;
      Ret (c, st, Cl cc (c_cf p) (obp + CBLOCK))
    else Ret (c, st, Cl cc (c_cf p) cl).

Fixpoint catq_loop (fuel : nat) (st : ttymem) (from to : clist) : outcome (ttymem * clist * clist) :=
  match fuel with
  | O => Fault
  | S fuel =>
      '(c, st, from) ← getc st from;
      if (c : Z) >=? 0 then
        '(_, st, to) ← putc st c to;
        catq_loop fuel st from to
      else Ret (st, from, to)
  end.

Definition catq (st : ttymem) (from to : clist) : outcome (ttymem * clist * clist) :=
  if c_cc to =? 0 then Ret (st, Cl 0 NULL NULL, from)
  else catq_loop (S (S (Z.to_nat (c_cc from)))) st from to.

(** ** Addresses *)

Ltac consts :=
  change CBHDR with 12 in *; change CBSIZE with 52 in *; change CBLOCK with 64 in *;
  change NULL with 0 in *.

Lemma coff_mod a : coff a = a mod 64.
Proof. exact (Z.land_ones a 6 ltac:(lia)). Qed.

Lemma cblk_mod a : cblk a = a - a mod 64.
Proof.
  unfold cblk. rewrite <- Z.ldiff_land. change CROUND with (Z.ones 6).
  rewrite Z.ldiff_ones_r, Z.shiftl_mul_pow2, Z.shiftr_div_pow2 by lia.
  change (2 ^ 6) with 64. pose proof (Z.div_mod a 64). lia.
Qed.

Lemma in_block b a : b mod 64 = 0 -> b <= a < b + 64 -> cblk a = b /\ coff a = a - b.
Proof. intros Hb Ha. rewrite cblk_mod, coff_mod. split; zdiv. Qed.

Lemma coff_end b : b mod 64 = 0 -> coff (b + 64) = 0.
Proof. intros Hb. rewrite coff_mod. zdiv. Qed.

Lemma coff_in b a : b mod 64 = 0 -> b < a <= b + 64 -> (coff a =? 0) = (a =? b + 64).
Proof.
  intros Hb Ha. rewrite coff_mod.
  destruct (Z.eqb_spec a (b + 64)); [apply Z.eqb_eq|apply Z.eqb_neq]; zdiv.
Qed.

(** ** Representation

    [linked m h bs]: from pointer [h] on, the [c_next] chain is [bs] and ends
    with NULL.  [segs s bs e]: the addresses of the characters of a list that
    starts at [s] in the first block of [bs] and ends before [e] in the last. *)
Fixpoint linked (m : gmap Z cblock) (h : Z) (bs : list Z) : Prop :=
  match bs with
  | [] => h = NULL
  | b :: r => h = b /\ exists cb, m !! b = Some cb /\ linked m (c_next cb) r
  end.

Definition okblk (m : gmap Z cblock) (b : Z) : Prop :=
  0 < b /\ b mod 64 = 0 /\
  exists cb, m !! b = Some cb /\ length (c_info cb) = 52%nat /\ Forall (fun c => 0 <= c < 256) (c_info cb).

Fixpoint segs (s : Z) (bs : list Z) (e : Z) : list Z :=
  match bs with
  | [] => []
  | b :: r =>
      match r with
      | [] => seqZ s (e - s)
      | b' :: _ => seqZ s (b + 64 - s) ++ segs (b' + CBHDR) r e
      end
  end.

(** The character at an address: its byte and its quote bit. *)
Definition cell (m : gmap Z cblock) (a : Z) : Z * bool :=
  match m !! cblk a with
  | Some cb => (default 0 (c_info cb !! Z.to_nat (coff a - CBHDR)), Z.testbit (c_quote cb) (coff a))
  | None => (0, false)
  end.

Definition lastb (bs : list Z) : Z := List.last bs 0.

(** The list header [p], with blocks [bs], holds the characters [l]. *)
Definition qrep (m : gmap Z cblock) (p : clist) (bs : list Z) (l : list (Z * bool)) : Prop :=
  match bs with
  | [] => p = Cl 0 NULL NULL /\ l = []
  | b :: r =>
      linked m b bs /\ b + CBHDR <= c_cf p < b + 64 /\
      lastb bs + CBHDR < c_cl p <= lastb bs + 64 /\ (r = [] -> c_cf p < c_cl p) /\
      l = cell m <$> segs (c_cf p) bs (c_cl p) /\ c_cc p = Z.of_nat (length l)
  end.

(** The free list is [fl]. *)
Definition pool (st : ttymem) (fl : list Z) : Prop :=
  linked (cblocks st) (cfreelist st) fl /\ cfreecount st = CBSIZE * Z.of_nat (length fl).

Definition heap (m : gmap Z cblock) (own : list Z) : Prop := NoDup own /\ Forall (okblk m) own.

Lemma linked_ext m m' : forall bs h, (forall b, b ∈ bs -> m' !! b = m !! b) -> linked m h bs -> linked m' h bs.
Proof.
  induction bs as [|b r IH]; intros h E H; [done|]. destruct H as (-> & cb & Hb & H).
  split; [done|]. exists cb. rewrite E by set_solver. split; [done|]. apply IH; [set_solver|done].
Qed.

Lemma okblk_ext m m' b : m' !! b = m !! b -> okblk m b -> okblk m' b.
Proof. unfold okblk. intros ->. done. Qed.

Lemma cell_ext m m' a : m' !! cblk a = m !! cblk a -> cell m' a = cell m a.
Proof. unfold cell. by intros ->. Qed.

(** The addresses of a list lie in its blocks, past the block headers. *)
Definition inblk (bs : list Z) (a : Z) : Prop := exists b, b ∈ bs /\ b + CBHDR <= a < b + 64.

Lemma segs_in : forall bs s e, bs <> [] -> hd 0 bs + CBHDR <= s -> e <= lastb bs + 64 ->
  Forall (inblk bs) (segs s bs e).
Proof.
  induction bs as [|b r IH]; intros s e Hne Hs He; [done|]. cbn [hd] in Hs. destruct r as [|b' r].
  - apply Forall_forall. intros a Ha. apply elem_of_seqZ in Ha as Hab.
    exists b. split; [by left|]. unfold lastb in He. cbn in He. lia.
  - cbn [segs]. apply Forall_app. split.
    + apply Forall_forall. intros a Ha. apply elem_of_seqZ in Ha as Hab.
      exists b. split; [by left|]. lia.
    + eapply Forall_impl; [apply IH|]; [done|cbn; lia|done|].
      intros a (c & Hcin & Hac). exists c. split; [by right|done].
Qed.

Lemma cells_ext m m' bs s e : Forall (okblk m) bs -> bs <> [] -> hd 0 bs + CBHDR <= s -> e <= lastb bs + 64 ->
  (forall b, b ∈ bs -> m' !! b = m !! b) -> cell m' <$> segs s bs e = cell m <$> segs s bs e.
Proof.
  intros Hok Hne Hs He E. apply list_fmap_ext. intros i a Ha. apply list_elem_of_lookup_2 in Ha.
  pose proof (segs_in bs s e Hne Hs He) as Hin. rewrite Forall_forall in Hin.
  destruct (Hin a Ha) as (b & Hb & Hab). rewrite Forall_forall in Hok.
  destruct (Hok b Hb) as (_ & Hm & _). consts. apply cell_ext. destruct (in_block b a Hm ltac:(lia)) as [-> _]. by apply E.
Qed.

Lemma qrep_ext m m' p bs l : Forall (okblk m) bs -> (forall b, b ∈ bs -> m' !! b = m !! b) ->
  qrep m p bs l -> qrep m' p bs l.
Proof.
  intros Hok E H. destruct bs as [|b r]; [done|].
  destruct H as (H1 & H2 & H3 & H4 & H5 & H6). unfold qrep. splits; try done; try lia.
  - by eapply linked_ext.
  - rewrite H5. symmetry. apply cells_ext; auto; cbn [hd]; lia.
Qed.

(** ** Reading and writing characters *)

Lemma seqZ_lookup_fmap {A} (f : Z -> A) a n i : 0 <= n ->
  (f <$> seqZ a n) !! i = if (Z.of_nat i <? n) then Some (f (a + Z.of_nat i)) else None.
Proof.
  intros Hn. rewrite list_lookup_fmap. destruct (Z.ltb_spec (Z.of_nat i) n).
  - by rewrite lookup_seqZ_lt by lia.
  - by rewrite lookup_seqZ_ge by lia.
Qed.

Lemma cread_ok st b a n : okblk (cblocks st) b -> b + CBHDR <= a -> a + n <= b + 64 -> 0 < n ->
  cread st a n = Ret (fst <$> (cell (cblocks st) <$> seqZ a n)).
Proof.
  intros (Hb0 & Hm & cb & Hcb & Hlen & _) Ha1 Ha2 Hn. consts.
  destruct (in_block b a Hm ltac:(lia)) as [E1 E2]. unfold cread, getb. rewrite E1, Hcb. bind.
  rewrite E2. consts. destruct (Z.leb_spec 12 (a - b)); [|lia].
  destruct (Z.leb_spec (a - b + n) 64); [|lia]. destruct (Z.leb_spec 0 n); [|lia]. cbn [andb].
  f_equal. apply list_eq. intros i. rewrite <- list_fmap_compose, seqZ_lookup_fmap by lia. unfold compose.
  destruct (Z.ltb_spec (Z.of_nat i) n).
  - rewrite lookup_take_lt, lookup_drop by lia. unfold cell.
    destruct (in_block b (a + Z.of_nat i) Hm ltac:(lia)) as [-> ->]. rewrite Hcb. consts. cbn [fst].
    replace (Z.to_nat (a - b - 12) + i)%nat with (Z.to_nat (a + Z.of_nat i - b - 12)) by lia.
    destruct (lookup_lt_is_Some_2 (c_info cb) (Z.to_nat (a + Z.of_nat i - b - 12)) ltac:(lia)) as [x Hx].
    by rewrite Hx.
  - apply lookup_take_ge. lia.
Qed.

Lemma charat_ok st b a : okblk (cblocks st) b -> b + CBHDR <= a < b + 64 ->
  charat st a = Ret (cell (cblocks st) a).1.
Proof.
  intros Hb Ha. unfold charat. rewrite (cread_ok st b) by (lia || done). bind.
  by change (seqZ a 1) with [a].
Qed.

Lemma isquote_ok st b a : okblk (cblocks st) b -> b + CBHDR <= a < b + 64 ->
  isquote st a = Ret (cell (cblocks st) a).2.
Proof.
  intros (Hb0 & Hm & cb & Hcb & _) Ha. consts. unfold isquote, getb, cell.
  destruct (in_block b a Hm ltac:(lia)) as [-> _]. by rewrite Hcb.
Qed.

Lemma cell_byte m b a : okblk m b -> b + CBHDR <= a < b + 64 -> 0 <= (cell m a).1 < 256.
Proof.
  intros (Hb0 & Hm & cb & Hcb & Hlen & Hby) Ha. consts. unfold cell.
  destruct (in_block b a Hm ltac:(lia)) as [-> ->]. rewrite Hcb. consts. cbn [fst].
  destruct (c_info cb !! Z.to_nat (a - b - 12)) eqn:E; cbn [default]; [|lia].
  by apply (Forall_lookup_1 _ _ _ _ Hby E).
Qed.

(** ** The head of a list *)

Lemma segs_pos b r e : lastb (b :: r) + CBHDR < e -> (0 < length (segs (b + CBHDR) (b :: r) e))%nat.
Proof.
  intros He. destruct r as [|b' r]; cbn [segs].
  - unfold lastb in He. cbn in He. rewrite length_seqZ. lia.
  - rewrite length_app, length_seqZ. consts. lia.
Qed.

Lemma linked_next m b r : linked m b (b :: r) ->
  exists cb, m !! b = Some cb /\ linked m (c_next cb) r /\ c_next cb = hd NULL r.
Proof.
  intros (_ & cb & Hcb & H). exists cb. splits; auto. destruct r; cbn in *; [done|]. by destruct H.
Qed.

Lemma seqZ_split a n k : 0 <= k <= n -> seqZ a n = seqZ a k ++ seqZ (a + k) (n - k).
Proof. intros H. rewrite <- seqZ_app by lia. f_equal. lia. Qed.

(** Taking [n] characters off the front, all in the first block. *)
Lemma qrep_adv m p b r l n : qrep m p (b :: r) l -> 0 < n <= b + 64 - c_cf p -> n <= c_cc p ->
  cell m <$> seqZ (c_cf p) n = take (Z.to_nat n) l /\
  (n = c_cc p -> r = [] /\ drop (Z.to_nat n) l = []) /\
  (n < c_cc p -> c_cf p + n < b + 64 ->
     qrep m (Cl (c_cc p - n) (c_cf p + n) (c_cl p)) (b :: r) (drop (Z.to_nat n) l)) /\
  (n < c_cc p -> c_cf p + n = b + 64 -> exists b', hd_error r = Some b' /\
     qrep m (Cl (c_cc p - n) (b' + CBHDR) (c_cl p)) r (drop (Z.to_nat n) l)).
Proof.
  intros (H1 & H2 & H3 & H4 & H5 & H6) Hn Hcc. destruct r as [|b' r].
  - cbn [segs] in H5. specialize (H4 eq_refl).
    assert (Hl : c_cc p = c_cl p - c_cf p) by (rewrite H6, H5, length_fmap, length_seqZ; lia).
    unfold lastb in H3. cbn [List.last] in H3.
    rewrite (seqZ_split _ _ n), fmap_app in H5 by lia.
    assert (Hlen : length (cell m <$> seqZ (c_cf p) n) = Z.to_nat n) by (by rewrite length_fmap, length_seqZ).
    rewrite H5. splits.
    + by rewrite <- Hlen, take_app_length.
    + intros ->. split; [done|]. rewrite <- Hlen, drop_app_length, Hl, Z.sub_diag. done.
    + intros Hn' Hb. rewrite <- Hlen, drop_app_length. unfold qrep. cbn [c_cc c_cf c_cl].
      unfold lastb. cbn [List.last]. splits; try done; try lia.
      * cbn [segs]. do 2 f_equal. lia.
      * rewrite length_fmap, length_seqZ. lia.
    + intros Hn' Hb. lia.
  - cbn [segs] in H5. fold (segs (b' + CBHDR) (b' :: r) (c_cl p)) in H5.
    change (lastb (b :: b' :: r)) with (lastb (b' :: r)) in H3.
    pose proof (segs_pos b' r (c_cl p) ltac:(lia)) as Hpos.
    change (match r with
            | [] => seqZ (b' + CBHDR) (c_cl p - (b' + CBHDR))
            | b'0 :: _ => seqZ (b' + CBHDR) (b' + 64 - (b' + CBHDR)) ++ segs (b'0 + CBHDR) r (c_cl p)
            end) with (segs (b' + CBHDR) (b' :: r) (c_cl p)) in H5.
    rewrite (seqZ_split _ _ n), <- app_assoc, fmap_app in H5 by lia.
    assert (Hlen : length (cell m <$> seqZ (c_cf p) n) = Z.to_nat n) by (by rewrite length_fmap, length_seqZ).
    assert (Hl : c_cc p = b + 64 - c_cf p + Z.of_nat (length (segs (b' + CBHDR) (b' :: r) (c_cl p)))).
    { rewrite H6, H5, length_app, Hlen, length_fmap, length_app, length_seqZ. lia. }
    rewrite H5. splits.
    + by rewrite <- Hlen, take_app_length.
    + lia.
    + intros Hn' Hb. rewrite <- Hlen, drop_app_length. unfold qrep. cbn [c_cc c_cf c_cl].
      change (lastb (b :: b' :: r)) with (lastb (b' :: r)). splits; try done; try lia.
      * change (segs (c_cf p + n) (b :: b' :: r) (c_cl p))
          with (seqZ (c_cf p + n) (b + 64 - (c_cf p + n)) ++ segs (b' + CBHDR) (b' :: r) (c_cl p)).
        do 3 f_equal. lia.
      * rewrite length_fmap, length_app, length_seqZ. lia.
    + intros Hn' Hb. exists b'. split; [done|]. rewrite <- Hlen, drop_app_length.
      destruct (linked_next _ _ _ H1) as (cb & Hcb & Hl' & Hnx). cbn [hd] in Hnx. rewrite Hnx in Hl'.
      rewrite Hb. replace (b + 64 - c_cf p - n) with 0 by lia. cbn [seqZ app]. unfold qrep. cbn [c_cc c_cf c_cl].
      change (seqZ (b + 64) 0) with (@nil Z). cbn [app].
      splits; try done; try (consts; lia).
      * intros ->. unfold lastb in H3. cbn [List.last] in H3. lia.
      * rewrite length_fmap. lia.
Qed.

(** ** Lists and the free pool together *)

Definition inv (st : ttymem) (p : clist) (bs fl : list Z) (l : list (Z * bool)) : Prop :=
  heap (cblocks st) (bs ++ fl) /\ pool st fl /\ qrep (cblocks st) p bs l.

(** [p] holds [l], and its blocks with the free ones are [own]. *)
Definition holds (own : list Z) (st : ttymem) (p : clist) (l : list (Z * bool)) : Prop :=
  exists bs fl, bs ++ fl ≡ₚ own /\ inv st p bs fl l.

(** Blocks other than [own] are untouched. *)
Definition frame (own : list Z) (st st' : ttymem) : Prop :=
  forall b, b ∉ own -> cblocks st' !! b = cblocks st !! b.

Lemma frame_trans own st st' st'' : frame own st st' -> frame own st' st'' -> frame own st st''.
Proof. intros H1 H2 b Hb. rewrite H2, H1 by done. done. Qed.

Lemma frame_refl own st : frame own st st.
Proof. by intros b _. Qed.

Lemma okblk_insert m b cb b' : okblk m b -> length (c_info cb) = 52%nat ->
  Forall (fun c => 0 <= c < 256) (c_info cb) -> okblk m b' -> okblk (<[b := cb]> m) b'.
Proof.
  intros (H0 & Hm & _) Hl Hby Hb'. destruct (decide (b = b')) as [->|Hne].
  - split; [done|]. split; [done|]. exists cb. by rewrite lookup_insert_eq.
  - eapply okblk_ext; [|done]. by rewrite lookup_insert_ne.
Qed.

Lemma set_cnext_ok st b n : okblk (cblocks st) b -> exists cb, cblocks st !! b = Some cb /\
  set_cnext st b n = Ret (with_blocks st (<[b := Cb n (c_quote cb) (c_info cb)]> (cblocks st))) /\
  forall b', okblk (cblocks st) b' -> okblk (<[b := Cb n (c_quote cb) (c_info cb)]> (cblocks st)) b'.
Proof.
  intros Hb. pose proof Hb as (_ & _ & cb & Hcb & Hl & Hby). exists cb. split; [done|]. split.
  - unfold set_cnext, getb. by rewrite Hcb.
  - intros b'. by apply okblk_insert.
Qed.

Lemma insert_other (m : gmap Z cblock) b cb (bs : list Z) : b ∉ bs -> forall b', b' ∈ bs -> <[b := cb]> m !! b' = m !! b'.
Proof. intros Hb b' Hb'. rewrite lookup_insert_ne; [done|]. by intros ->. Qed.

Lemma cwakeup_blocks st : cblocks (cwakeup st) = cblocks st.
Proof. unfold cwakeup. by destruct (cwaiting st). Qed.

Lemma cwakeup_inv st p bs fl l : inv st p bs fl l -> inv (cwakeup st) p bs fl l.
Proof. unfold inv, pool, cwakeup. by destruct (cwaiting st). Qed.

(** Giving the block [b] back, the list going on with the blocks [r]. *)
Lemma cbfree_ok st b r fl p l : heap (cblocks st) (b :: r ++ fl) -> pool st fl -> qrep (cblocks st) p r l ->
  exists st', cbfree st b = Ret st' /\ inv st' p r (b :: fl) l /\ frame [b] st st'.
Proof.
  intros (Hnd & Hok) (Hl & Hc) Hq. apply NoDup_cons in Hnd as [Hb Hnd].
  apply Forall_cons in Hok as [Hokb Hok].
  destruct (set_cnext_ok st b (cfreelist st) Hokb) as (cb & Hcb & E & Hok').
  unfold cbfree. rewrite E. bind. eexists. split; [reflexivity|].
  set (m' := <[b := _]> (cblocks st)) in *.
  assert (Hsame : forall b', b' ∈ r ++ fl -> m' !! b' = cblocks st !! b') by (by apply insert_other).
  split; [|intros b' Hb'; unfold m'; cbn [set_free with_blocks cblocks]; rewrite lookup_insert_ne by set_solver; done].
  split; [|split].
  - unfold heap, set_free, with_blocks. cbn [cblocks]. split.
    + apply NoDup_app in Hnd as (N1 & N2 & N3). apply NoDup_app. splits; [done|..].
      * intros x Hx [->|Hx']%elem_of_cons; [apply Hb; set_solver|]. by eapply N2.
      * apply NoDup_cons. split; [set_solver|done].
    + apply Forall_app in Hok as [Ho1 Ho2]. apply Forall_app. split; [|constructor].
      * eapply Forall_impl; [exact Ho1|]. exact Hok'.
      * by apply Hok'.
      * eapply Forall_impl; [exact Ho2|]. exact Hok'.
  - unfold pool, set_free, with_blocks. cbn [cblocks cfreelist cfreecount]. split.
    + split; [done|]. eexists. unfold m'. rewrite lookup_insert_eq. split; [done|]. cbn [c_next].
      eapply linked_ext; [|exact Hl]. intros b' Hb'. apply Hsame. set_solver.
    + cbn [length]. lia.
  - unfold set_free, with_blocks. cbn [cblocks]. eapply qrep_ext; [|..|exact Hq].
    + by apply Forall_app in Hok as [? _].
    + intros b' Hb'. apply Hsame. set_solver.
Qed.

Lemma inv_cons_heap st b r fl : heap (cblocks st) ((b :: r) ++ fl) -> okblk (cblocks st) b.
Proof. intros [_ H]. by apply Forall_cons in H as [H _]. Qed.

Lemma qrep_nil m p l : qrep m p [] l <-> p = Cl 0 NULL NULL /\ l = [].
Proof. done. Qed.

Lemma qrep_len m p bs l : qrep m p bs l -> c_cc p = Z.of_nat (length l).
Proof. destruct bs; [by intros [-> ->]|]. by intros (_ & _ & _ & _ & _ & H). Qed.

Lemma qrep_bs m p b r l : qrep m p (b :: r) l -> 0 < c_cc p.
Proof.
  intros (H1 & H2 & H3 & H4 & H5 & H6). rewrite H6, H5, length_fmap. destruct r as [|b' r].
  - specialize (H4 eq_refl). cbn [segs]. rewrite length_seqZ. lia.
  - cbn [segs]. rewrite length_app, length_seqZ. lia.
Qed.

(** How many characters the first block holds. *)
Definition firstk (bs : list Z) (p : clist) : Z :=
  match bs with [] => 0 | b :: _ => Z.min (b + 64 - c_cf p) (c_cc p) end.

(** Taking [n] characters leaves the free list alone or adds the first block. *)
Definition gives (bs fl bs' fl' : list Z) (p p' : clist) (n : Z) : Prop :=
  length fl' = length fl /\ firstk bs' p' = firstk bs p - n \/ length fl' = S (length fl).

(** One chunk: [n] characters leave the front, and the first block with them
    when it is used up. *)
Definition chunk (st : ttymem) (p : clist) (n : Z) : outcome (ttymem * clist) :=
  if c_cc p - n <=? 0 then
    st ← cbfree st (cblk (c_cf p + n - 1)); Ret (cwakeup st, Cl (c_cc p - n) NULL NULL)
  else if coff (c_cf p + n) =? 0 then
    b ← getb st (c_cf p + n - CBLOCK);
    st ← cbfree st (c_cf p + n - CBLOCK);
    Ret (cwakeup st, Cl (c_cc p - n) (c_next b + CBHDR) (c_cl p))
  else Ret (st, Cl (c_cc p - n) (c_cf p + n) (c_cl p)).

Lemma chunk_ok st p b r fl l n : inv st p (b :: r) fl l -> 0 < n <= b + 64 - c_cf p -> n <= c_cc p ->
  exists st' p' bs' fl', chunk st p n = Ret (st', p') /\ inv st' p' bs' fl' (drop (Z.to_nat n) l) /\
    bs' ++ fl' ≡ₚ (b :: r) ++ fl /\ frame [b] st st' /\ c_cc p' = c_cc p - n /\
    (c_cc p - n > 0 -> bs' <> []) /\ gives (b :: r) fl bs' fl' p p' n.
Proof.
  intros (Hh & Hp & Hq) Hn Hcc. pose proof Hq as (Q1 & Q2 & Q3 & Q4 & Q5 & Q6).
  destruct (qrep_adv _ _ _ _ _ n Hq Hn Hcc) as (_ & Hall & Hin & Hend).
  pose proof (inv_cons_heap _ _ _ _ Hh) as Hob. pose proof Hob as (_ & Hm & cb & Hcb & _). consts.
  unfold chunk. destruct (Z.leb_spec (c_cc p - n) 0) as [Hz|Hz].
  - destruct (Hall ltac:(lia)) as [-> ->]. destruct (in_block b (c_cf p + n - 1) Hm ltac:(lia)) as [-> _].
    destruct (cbfree_ok st b [] fl (Cl (c_cc p - n) NULL NULL) []) as (st' & E & Hi & Hf); auto.
    { apply qrep_nil. split; [f_equal; lia|done]. }
    rewrite E. bind. eexists _, _, [], (b :: fl). split; [reflexivity|]. split; [by apply cwakeup_inv|].
    split; [done|]. split; [|split; [done|split; [lia|by right]]]. intros x Hx. rewrite cwakeup_blocks. by apply Hf.
  - rewrite (coff_in b) by (lia || done). consts. destruct (Z.eqb_spec (c_cf p + n) (b + 64)) as [He|He].
    + destruct (Hend ltac:(lia) He) as (b' & Hb' & Hq'). replace (c_cf p + n - 64) with b by lia.
      destruct (linked_next _ _ _ Q1) as (cb' & Hcb' & _ & Hnx). unfold getb. rewrite Hcb'. bind.
      rewrite Hnx. destruct r as [|b'' r]; [done|]. injection Hb' as ->. cbn [hd].
      destruct (cbfree_ok st b (b' :: r) fl _ _ Hh Hp Hq') as (st' & E & Hi & Hf).
      rewrite E. bind. eexists _, _, (b' :: r), (b :: fl). split; [reflexivity|].
      split; [by apply cwakeup_inv|]. split.
      { change (b :: b' :: r) with ([b] ++ (b' :: r)). solve_Permutation. }
      split; [|split; [done|split; [done|by right]]]. intros x Hx. rewrite cwakeup_blocks. by apply Hf.
    + eexists _, _, (b :: r), fl. split; [reflexivity|]. split; [|split; [done|split; [apply frame_refl|split; [done|split; [done|left; split; [done|cbn; lia]]]]]].
      split; [done|]. split; [done|]. apply Hin; lia.
Qed.

(** The outcome of an operation on a list with blocks [bs] and free blocks
    [fl]: the list now holds [l'], no block is lost or gained, and blocks of
    other lists are untouched. *)
Definition moved (bs fl : list Z) (st st' : ttymem) (p' : clist) (l' : list (Z * bool)) : Prop :=
  exists bs' fl', inv st' p' bs' fl' l' /\ bs' ++ fl' ≡ₚ bs ++ fl /\ frame (bs ++ fl) st st'.

Lemma moved_refl st p bs fl l : inv st p bs fl l -> moved bs fl st st p l.
Proof. intros H. exists bs, fl. split; [done|]. split; [done|apply frame_refl]. Qed.

Lemma moved_step bs fl bs1 fl1 st st1 st2 p2 l2 : bs1 ++ fl1 ≡ₚ bs ++ fl -> frame (bs ++ fl) st st1 ->
  moved bs1 fl1 st1 st2 p2 l2 -> moved bs fl st st2 p2 l2.
Proof.
  intros Hp Hf (bs2 & fl2 & Hi & Hp2 & Hf2). exists bs2, fl2. split; [done|].
  split; [by rewrite Hp2|]. eapply frame_trans; [exact Hf|]. intros b Hb. apply Hf2. by rewrite Hp.
Qed.

Lemma chunk_moved st p b r fl l n : inv st p (b :: r) fl l -> 0 < n <= b + 64 - c_cf p -> n <= c_cc p ->
  exists st' p' bs' fl', chunk st p n = Ret (st', p') /\ inv st' p' bs' fl' (drop (Z.to_nat n) l) /\
    bs' ++ fl' ≡ₚ (b :: r) ++ fl /\ frame ((b :: r) ++ fl) st st' /\ c_cc p' = c_cc p - n /\
    (c_cc p - n > 0 -> bs' <> []) /\ gives (b :: r) fl bs' fl' p p' n.
Proof.
  intros Hi Hn Hcc. destruct (chunk_ok _ _ _ _ _ _ _ Hi Hn Hcc) as (st' & p' & bs' & fl' & H1 & H2 & H3 & H4 & H5).
  exists st', p', bs', fl'. splits; try done; try tauto. intros x Hx. apply H4. intros ->%list_elem_of_singleton. apply Hx. by left.
Qed.

(** The value of a character for getc, and for unputc and nextc. *)
Definition cval (x : Z * bool) : Z := if x.2 then Z.lor x.1 TTY_QUOTE else x.1.
Definition scval (x : Z * bool) : Z := if x.2 then Z.lor (s8 x.1) TTY_QUOTE else s8 x.1.

Lemma qrep_head m p b r l : qrep m p (b :: r) l -> exists l', l = cell m (c_cf p) :: l'.
Proof.
  intros H. pose proof (qrep_bs _ _ _ _ _ H) as Hcc. pose proof H as (_ & H2 & _).
  destruct (qrep_adv _ _ _ _ _ 1 H ltac:(lia) ltac:(lia)) as (E & _).
  change (seqZ (c_cf p) 1) with [c_cf p] in E. destruct l as [|x l']; [done|].
  exists l'. cbn in E. by injection E as ->.
Qed.

Lemma getc_chunk st p : 0 < c_cc p ->
  getc st p =
    c ← charat st (c_cf p); qt ← isquote st (c_cf p);
    '(st, p) ← chunk st p 1; Ret (if (qt : bool) then Z.lor c TTY_QUOTE else c, st, p).
Proof.
  intros Hcc. unfold getc, chunk. destruct (Z.leb_spec (c_cc p) 0); [lia|].
  destruct (charat st (c_cf p)) as [c| |]; [bind|done|done].
  destruct (isquote st (c_cf p)) as [qt| |]; [bind|done|done].
  destruct (c_cc p - 1 <=? 0); [by destruct (cbfree _ _)|].
  destruct (coff (c_cf p + 1) =? 0); [|done].
  destruct (getb _ _); [bind|done|done]. by destruct (cbfree _ _).
Qed.

Lemma getc_ok st p bs fl l : inv st p bs fl l ->
  match l with
  | [] => getc st p = Ret (-1, st, p)
  | x :: l' => exists st' p' bs' fl', getc st p = Ret (cval x, st', p') /\ inv st' p' bs' fl' l' /\
      bs' ++ fl' ≡ₚ bs ++ fl /\ frame (bs ++ fl) st st' /\ 0 <= x.1 < 256 /\ gives bs fl bs' fl' p p' 1
  end.
Proof.
  intros Hi. pose proof Hi as (Hh & Hp & Hq). destruct bs as [|b r].
  - destruct Hq as [-> ->]. done.
  - destruct (qrep_head _ _ _ _ _ Hq) as (l' & ->). pose proof (qrep_bs _ _ _ _ _ Hq) as Hcc.
    pose proof Hq as (_ & H2 & _). pose proof (inv_cons_heap _ _ _ _ Hh) as Hb.
    rewrite getc_chunk by done. rewrite (charat_ok st b) by done. bind.
    rewrite (isquote_ok st b) by done. bind.
    destruct (chunk_moved st p b r fl _ 1 Hi ltac:(lia) ltac:(lia)) as (st' & p' & bs' & fl' & E & H').
    rewrite E. bind. exists st', p', bs', fl'. split; [done|]. pose proof (cell_byte _ _ _ Hb H2).
    splits; try tauto; lia.
Qed.

Lemma qtob_step fuel st q cc acc : cc <> 0 ->
  qtob_loop (S fuel) st q cc acc =
    let nc := Z.min (Z.min (CBLOCK - coff (c_cf q)) cc) (c_cc q) in
    bs ← cread st (c_cf q) nc;
    '(st, q') ← chunk st q nc;
    if c_cc q - nc <=? 0 then Ret (acc ++ bs, st, q') else qtob_loop fuel st q' (cc - nc) (acc ++ bs).
Proof.
  intros Hcc. cbn [qtob_loop]. destruct (Z.eqb_spec cc 0); [done|]. cbn zeta.
  set (nc := Z.min _ _). destruct (cread st (c_cf q) nc) as [bs| |]; [bind|done|done].
  unfold chunk. cbn [c_cc c_cf c_cl]. destruct (c_cc q - nc <=? 0).
  - by destruct (cbfree _ _).
  - destruct (coff (c_cf q + nc) =? 0); [|done]. destruct (getb _ _); [bind|done|done].
    by destruct (cbfree _ _).
Qed.

Lemma qtob_loop_ok : forall fuel st q bs fl l cc acc, inv st q bs fl l -> bs <> [] -> 0 <= cc ->
  (Z.to_nat cc < fuel)%nat ->
  exists st' q', qtob_loop fuel st q cc acc = Ret (acc ++ (fst <$> take (Z.to_nat cc) l), st', q') /\
    moved bs fl st st' q' (drop (Z.to_nat cc) l).
Proof.
  induction fuel as [|fuel IH]; intros st q bs fl l cc acc Hi Hne Hcc Hf; [lia|].
  destruct (Z.eq_dec cc 0) as [->|Hcc0].
  - cbn [qtob_loop]. rewrite Z.eqb_refl. exists st, q. change (Z.to_nat 0) with 0%nat. rewrite take_0.
    cbn [fmap list_fmap]. rewrite app_nil_r. split; [done|]. by apply moved_refl.
  - rewrite qtob_step by done. destruct bs as [|b r]; [done|]. pose proof Hi as (Hh & Hp & Hq).
    pose proof (qrep_bs _ _ _ _ _ Hq) as Hpos. pose proof Hq as (_ & H2 & _). consts.
    pose proof (inv_cons_heap _ _ _ _ Hh) as Hb. pose proof Hb as (_ & Hm & _).
    destruct (in_block b (c_cf q) Hm ltac:(lia)) as [_ ->]. cbn zeta.
    set (nc := Z.min (Z.min (64 - (c_cf q - b)) cc) (c_cc q)).
    destruct (qrep_adv _ _ _ _ _ nc Hq ltac:(lia) ltac:(lia)) as (Hc & _).
    rewrite (cread_ok st b) by (consts; lia || done). bind. rewrite Hc.
    destruct (chunk_moved st q b r fl l nc Hi ltac:(lia) ltac:(lia)) as
      (st1 & q1 & bs1 & fl1 & E & Hi1 & Hp1 & Hf1 & Hcc1 & Hne1 & _). rewrite E. bind.
    pose proof (qrep_len _ _ _ _ Hq) as Hlen.
    assert (Hsplit : take (Z.to_nat cc) l = take (Z.to_nat nc) l ++ take (Z.to_nat (cc - nc)) (drop (Z.to_nat nc) l)).
    { rewrite take_take_drop. f_equal. lia. }
    assert (Hdrop : drop (Z.to_nat cc) l = drop (Z.to_nat (cc - nc)) (drop (Z.to_nat nc) l)).
    { rewrite drop_drop. f_equal. lia. }
    rewrite Hsplit, Hdrop, fmap_app, app_assoc. destruct (Z.leb_spec (c_cc q - nc) 0) as [Hz|Hz].
    + assert (Hd : drop (Z.to_nat nc) l = []) by (apply drop_ge; lia). rewrite Hd in *. rewrite take_nil, drop_nil.
      exists st1, q1. rewrite app_nil_r. split; [done|]. by exists bs1, fl1.
    + destruct (IH st1 q1 bs1 fl1 (drop (Z.to_nat nc) l) (cc - nc) (acc ++ (fst <$> take (Z.to_nat nc) l)))
        as (st2 & q2 & E2 & Hmv); [done|by apply Hne1; lia|lia|lia|].
      rewrite E2. exists st2, q2. split; [done|]. by eapply moved_step.
Qed.

Lemma q_to_b_ok st q bs fl l cc : inv st q bs fl l ->
  exists st' q', q_to_b st q cc = Ret (fst <$> take (Z.to_nat cc) l, st', q') /\
    moved bs fl st st' q' (drop (Z.to_nat cc) l).
Proof.
  intros Hi. unfold q_to_b. destruct (Z.leb_spec cc 0) as [Hcc|Hcc].
  - replace (Z.to_nat cc) with 0%nat by lia. exists st, q. split; [by rewrite take_0|]. by apply moved_refl.
  - pose proof Hi as (_ & _ & Hq). destruct bs as [|b r].
    + destruct Hq as [-> ->]. cbn [c_cc]. destruct (Z.leb_spec 0 0); [|lia]. rewrite take_nil, drop_nil.
      exists st, (Cl 0 NULL NULL). split; [done|]. by apply moved_refl.
    + pose proof (qrep_bs _ _ _ _ _ Hq). destruct (Z.leb_spec (c_cc q) 0); [lia|].
      destruct (qtob_loop_ok (S (Z.to_nat cc)) st q (b :: r) fl l cc []) as (st' & q' & E & Hm); auto; try lia.
      exists st', q'. by rewrite E.
Qed.

Lemma lastb_in bs : bs <> [] -> lastb bs ∈ bs.
Proof.
  induction bs as [|b r IH]; [done|]. intros _. destruct r as [|b' r]; [by left|]. right. by apply IH.
Qed.

Lemma cblk_end m p b r l : Forall (okblk m) (b :: r) -> qrep m p (b :: r) l -> cblk (c_cl p - 1) = lastb (b :: r).
Proof.
  intros Hok (_ & _ & H3 & _). rewrite Forall_forall in Hok.
  destruct (Hok (lastb (b :: r)) (lastb_in (b :: r) ltac:(done))) as (_ & Hm & _). consts.
  by destruct (in_block (lastb (b :: r)) (c_cl p - 1) Hm ltac:(lia)) as [-> _].
Qed.

Definition settle (p : clist) : clist := if c_cc p <=? 0 then Cl 0 NULL NULL else p.

Lemma ndflush_loop_ok : forall fuel st q bs fl l cc, inv st q bs fl l -> (Z.to_nat cc < fuel)%nat ->
  exists st' q', ndflush_loop fuel st q cc = Ret (st', q') /\
    moved bs fl st st' (settle q') (drop (Z.to_nat cc) l).
Proof.
  induction fuel as [|fuel IH]; intros st q bs fl l cc Hi Hf; [lia|]. pose proof Hi as (Hh & Hp & Hq).
  cbn [ndflush_loop]. destruct bs as [|b r].
  { destruct Hq as [-> ->]. cbn [c_cc]. rewrite Z.eqb_refl, andb_false_r, drop_nil.
    exists st, (Cl 0 NULL NULL). split; [done|]. by apply moved_refl. }
  pose proof (qrep_bs _ _ _ _ _ Hq) as Hpos. pose proof Hq as (Hl & H2 & H3 & H4 & _ & Hlen).
  rewrite Z.gtb_ltb. destruct (Z.ltb_spec 0 cc) as [Hcc|Hcc]; cbn [andb].
  2:{ replace (Z.to_nat cc) with 0%nat by lia. exists st, q. split; [done|].
      unfold settle. destruct (Z.leb_spec (c_cc q) 0); [lia|]. by apply moved_refl. }
  destruct (Z.eqb_spec (c_cc q) 0); [lia|]. cbn [negb].
  pose proof (inv_cons_heap _ _ _ _ Hh) as Hb. pose proof Hb as (_ & Hm & _). consts.
  destruct (in_block b (c_cf q) Hm ltac:(lia)) as [-> _].
  assert (Hok : Forall (okblk (cblocks st)) (b :: r)) by (destruct Hh as [_ Hh]; by apply Forall_app in Hh as [? _]).
  rewrite (cblk_end _ _ _ _ _ Hok Hq).
  set (rem := (if b =? lastb (b :: r) then c_cl q else b + 64) - c_cf q).
  destruct (linked_next _ _ _ Hl) as (cb & Hcb & Hl' & Hnx).
  assert (Hrem : r = [] /\ rem = c_cc q \/ r <> [] /\ rem = b + 64 - c_cf q).
  { destruct r as [|b' r]; [left|right].
    - unfold rem, lastb. cbn [List.last]. rewrite Z.eqb_refl. split; [done|].
      destruct Hq as (_ & _ & _ & _ & E & _). rewrite Hlen, E, length_fmap. cbn [segs]. specialize (H4 eq_refl). rewrite length_seqZ. lia.
    - split; [done|]. unfold rem. destruct (Z.eqb_spec b (lastb (b :: b' :: r))) as [E|]; [|done]. exfalso.
      destruct Hh as [Hnd _]. cbn [app] in Hnd. apply NoDup_cons in Hnd as [Hnd _]. apply Hnd.
      rewrite E. change (lastb (b :: b' :: r)) with (lastb (b' :: r)).
      change (b' :: r ++ fl) with ((b' :: r) ++ fl). apply elem_of_app. left. by apply lastb_in. }
  assert (Hrn : 0 < rem <= b + 64 - c_cf q).
  { destruct Hrem as [[-> E]|[_ E]]; [|lia]. unfold rem, lastb in *. cbn [List.last] in *.
    rewrite Z.eqb_refl in *. lia. }
  destruct (qrep_adv _ _ _ _ _ (Z.min cc (Z.min rem (c_cc q))) Hq ltac:(lia) ltac:(lia)) as (_ & A1 & A2 & A3).
  rewrite Z.geb_leb. destruct (Z.leb_spec rem cc) as [Hge|Hlt].
  - unfold getb. rewrite Hcb. bind. destruct Hrem as [[-> Er]|[Hr Er]].
    + replace (Z.min cc (Z.min rem (c_cc q))) with (c_cc q) in * by lia. destruct (A1 eq_refl) as [_ Hd].
      destruct (cbfree_ok st b [] fl (Cl 0 NULL NULL) []) as (st' & E & Hi' & Hf'); auto; [by apply qrep_nil|].
      rewrite E. bind. exists (cwakeup st'), (Cl (c_cc q - rem) (c_next cb + 12) (c_cl q)). split.
      * destruct fuel as [|fuel]; [lia|]. cbn [ndflush_loop c_cc]. rewrite Er, Z.sub_diag, Z.eqb_refl, andb_false_r. done.
      * unfold settle. cbn [c_cc]. destruct (Z.leb_spec (c_cc q - rem) 0); [|lia].
        assert (drop (Z.to_nat cc) l = []) as -> by (apply drop_ge; lia).
        exists [], (b :: fl). split; [by apply cwakeup_inv|]. split; [done|].
        intros x Hx. rewrite cwakeup_blocks. apply Hf'. intros ->%list_elem_of_singleton. apply Hx. by left.
    + assert (Hlt : rem < c_cc q).
      { destruct (Z.lt_ge_cases rem (c_cc q)) as [|Hge']; [done|].
        replace (Z.min cc (Z.min rem (c_cc q))) with (c_cc q) in A1 by lia. by destruct (A1 eq_refl) as [-> _]. }
      replace (Z.min cc (Z.min rem (c_cc q))) with rem in * by lia.
      destruct (A3 ltac:(lia) ltac:(lia)) as (b' & Hb' & Hq'). destruct r as [|b'' r]; [done|].
      injection Hb' as ->. cbn [hd] in Hnx. rewrite Hnx.
      destruct (cbfree_ok st b (b' :: r) fl _ _ Hh Hp Hq') as (st' & E & Hi' & Hf'). consts.
      rewrite E. bind.
      destruct (IH _ _ _ _ _ (cc - rem) (cwakeup_inv _ _ _ _ _ Hi') ltac:(lia)) as (st2 & q2 & E2 & Hmv).
      exists st2, q2. split; [done|]. rewrite drop_drop in Hmv.
      replace (Z.to_nat rem + Z.to_nat (cc - rem))%nat with (Z.to_nat cc) in Hmv by lia.
      eapply moved_step; [| |exact Hmv].
      * change (b :: b' :: r) with ([b] ++ (b' :: r)). solve_Permutation.
      * intros x Hx. rewrite cwakeup_blocks. apply Hf'. intros ->%list_elem_of_singleton. apply Hx. by left.
  - assert (Hlt' : cc < c_cc q).
    { destruct (Z.lt_ge_cases cc (c_cc q)) as [|Hge']; [done|].
      replace (Z.min cc (Z.min rem (c_cc q))) with (c_cc q) in A1 by lia. destruct (A1 eq_refl) as [-> _].
      destruct Hrem as [[_ E]|[E _]]; [lia|done]. }
    replace (Z.min cc (Z.min rem (c_cc q))) with cc in * by lia. cbn [c_cc].
    destruct (Z.leb_spec (c_cc q - cc) 0); [lia|]. eexists _, _. split; [reflexivity|].
    unfold settle. cbn [c_cc]. destruct (Z.leb_spec (c_cc q - cc) 0); [lia|]. apply moved_refl.
    split; [done|]. split; [done|]. apply A2; lia.
Qed.

Lemma ndflush_ok st q bs fl l cc : inv st q bs fl l ->
  exists st' q', ndflush st q cc = Ret (st', q') /\ moved bs fl st st' q' (drop (Z.to_nat cc) l).
Proof.
  intros Hi. unfold ndflush. destruct (Z.leb_spec (c_cc q) 0) as [Hz|Hz].
  - pose proof Hi as (_ & _ & Hq). destruct bs as [|b r]; [|pose proof (qrep_bs _ _ _ _ _ Hq); lia].
    destruct Hq as [-> ->]. rewrite drop_nil. eexists _, _. split; [done|]. by apply moved_refl.
  - destruct (ndflush_loop_ok (S (Z.to_nat cc)) st q bs fl l cc Hi ltac:(lia)) as (st' & q' & E & Hm).
    rewrite E. bind. by eexists _, _.
Qed.

Lemma ndqb_scan_ok flag : forall bs, 0 <= ndqb_scan bs flag <= Z.of_nat (length bs) /\
  Forall (fun c => Z.land (s8 c) flag = 0) (take (Z.to_nat (ndqb_scan bs flag)) bs) /\
  forall c, bs !! Z.to_nat (ndqb_scan bs flag) = Some c -> Z.land (s8 c) flag <> 0.
Proof.
  induction bs as [|c bs (IH1 & IH2 & IH3)]; cbn [ndqb_scan length].
  - splits; [lia|lia|constructor|done].
  - destruct (Z.eqb_spec (Z.land (s8 c) flag) 0) as [E|E]; cbn [negb].
    + replace (Z.to_nat (1 + ndqb_scan bs flag)) with (S (Z.to_nat (ndqb_scan bs flag))) by lia.
      splits; [lia|lia|by constructor|done].
    + change (Z.to_nat 0) with 0%nat. splits; [lia|lia|constructor|]. cbn. by intros ? [= <-].
Qed.

(** What ndqb answers for a list [l]: a number of characters at its front, none
    of which has a bit of [flag]. *)
Definition front_ok (l : list (Z * bool)) (flag r : Z) : Prop :=
  0 <= r <= Z.of_nat (length l) /\ (flag = 0 -> l <> [] -> 0 < r) /\
  Forall (fun x => Z.land (s8 x.1) flag = 0) (take (Z.to_nat r) l).

Lemma ndqb_ok st q bs fl l flag : inv st q bs fl l -> exists r, ndqb st q flag = Ret r /\ front_ok l flag r.
Proof.
  intros (Hh & Hp & Hq). unfold ndqb, front_ok. destruct bs as [|b r].
  { destruct Hq as [-> ->]. exists 0. splits; try done; cbn; lia. }
  pose proof (qrep_bs _ _ _ _ _ Hq) as Hpos. pose proof Hq as (Hl & H2 & H3 & H4 & H5 & Hlen).
  destruct (Z.leb_spec (c_cc q) 0); [lia|].
  pose proof (inv_cons_heap _ _ _ _ Hh) as Hb. pose proof Hb as (_ & Hm & _). consts.
  assert (Z.land (c_cf q + 52) (Z.lnot CROUND) = b + 64) as ->.
  { change (cblk (c_cf q + 52) = b + 64). destruct (in_block (b + 64) (c_cf q + 52)) as [-> _]; [zdiv|lia|done]. }
  set (n := if c_cc q <? b + 64 - c_cf q then c_cc q else b + 64 - c_cf q).
  assert (Hn : 0 < n <= b + 64 - c_cf q /\ n <= c_cc q).
  { unfold n. destruct (Z.ltb_spec (c_cc q) (b + 64 - c_cf q)); lia. }
  destruct (qrep_adv _ _ _ _ _ n Hq ltac:(lia) ltac:(lia)) as (Hc & _).
  destruct (Z.eqb_spec flag 0) as [->|Hf]; cbn [negb].
  - exists n. splits; try done; try lia. apply Forall_forall. intros x _. by rewrite Z.land_0_r.
  - rewrite (cread_ok st b) by (consts; lia || done). bind. rewrite Hc. eexists. split; [reflexivity|].
    destruct (ndqb_scan_ok flag (fst <$> take (Z.to_nat n) l)) as (S1 & S2 & _).
    rewrite length_fmap, length_take in S1. splits; try done; try lia.
    rewrite <- fmap_take, take_take in S2. apply Forall_fmap in S2.
    by rewrite Nat.min_l in S2 by lia.
Qed.

(** ** The tail of a list *)

(** [m'] differs from [m] in the characters and quote bits of block [b]. *)
Definition touch (m m' : gmap Z cblock) (b : Z) : Prop :=
  (forall b', b' <> b -> m' !! b' = m !! b') /\
  exists cb cb', m !! b = Some cb /\ m' !! b = Some cb' /\ c_next cb' = c_next cb /\
    length (c_info cb') = 52%nat /\ Forall (fun c => 0 <= c < 256) (c_info cb').

Lemma touch_linked m m' b : touch m m' b -> forall bs h, linked m h bs -> linked m' h bs.
Proof.
  intros (Ho & cb & cb' & Hb & Hb' & Hn & _). induction bs as [|x r IH]; intros h H; [done|].
  destruct H as (-> & cx & Hx & H). split; [done|]. destruct (decide (x = b)) as [->|Hne].
  - exists cb'. split; [done|]. rewrite Hb in Hx. injection Hx as ->. rewrite Hn. by apply IH.
  - exists cx. rewrite Ho by done. split; [done|]. by apply IH.
Qed.

Lemma touch_okblk m m' b x : touch m m' b -> okblk m x -> okblk m' x.
Proof.
  intros (Ho & cb & cb' & Hb & Hb' & _ & Hl & Hby) (H0 & Hm & cx & Hx). split; [done|]. split; [done|].
  destruct (decide (x = b)) as [->|Hne]; [by exists cb'|]. exists cx. by rewrite Ho.
Qed.

Lemma touch_heap m m' b own : touch m m' b -> heap m own -> heap m' own.
Proof. intros Ht [Hn Ho]. split; [done|]. eapply Forall_impl; [exact Ho|]. intros x. by apply touch_okblk with b. Qed.

Lemma touch_trans m m1 m2 b : touch m m1 b -> touch m1 m2 b -> touch m m2 b.
Proof.
  intros (Ho & cb & cb1 & Hb & Hb1 & Hn & _) (Ho2 & cb1' & cb2 & Hb1' & Hb2 & Hn2 & Hl).
  rewrite Hb1 in Hb1'. injection Hb1' as <-. split; [intros; by rewrite Ho2, Ho|].
  exists cb, cb2. splits; try done; try tauto. by rewrite Hn2.
Qed.

Lemma touch_refl m b : okblk m b -> touch m m b.
Proof. intros (_ & _ & cb & Hb & Hl). split; [done|]. exists cb, cb. tauto. Qed.

(** Storing bytes: the bytes stored are there, with the quote bits as they
    were, and every other character is as it was. *)
Lemma cwrite_ok st b a bs : okblk (cblocks st) b -> b + CBHDR <= a -> a + Z.of_nat (length bs) <= b + 64 ->
  bs <> [] -> Forall (fun c => 0 <= c < 256) bs ->
  exists m', cwrite st a bs = Ret (with_blocks st m') /\ touch (cblocks st) m' b /\
    (forall x, b + CBHDR <= x < b + 64 -> ~ (a <= x < a + Z.of_nat (length bs)) -> cell m' x = cell (cblocks st) x) /\
    (forall i c, bs !! i = Some c -> cell m' (a + Z.of_nat i) = (c, (cell (cblocks st) (a + Z.of_nat i)).2)).
Proof.
  intros (Hb0 & Hm & cb & Hcb & Hlen & Hby) Ha1 Ha2 Hne Hbs. consts.
  assert (Hl0 : (0 < length bs)%nat) by (destruct bs; [done|cbn; lia]).
  destruct (in_block b a Hm ltac:(lia)) as [E1 E2]. unfold cwrite, getb. rewrite E1, Hcb. bind. rewrite E2. consts.
  destruct (Z.leb_spec 12 (a - b)); [|lia]. destruct (Z.leb_spec (a - b + Z.of_nat (length bs)) 64); [|lia].
  cbn [andb]. set (o := Z.to_nat (a - b - 12)).
  set (info := take o (c_info cb) ++ bs ++ drop (o + length bs) (c_info cb)).
  assert (Li : length (take o (c_info cb)) = o) by (rewrite length_take; lia).
  eexists. split; [reflexivity|]. splits.
  - split; [intros; by apply lookup_insert_ne|]. eexists cb, _. rewrite lookup_insert_eq.
    splits; try done.
    + cbn [c_info]. unfold info. rewrite !length_app, length_take, length_drop. lia.
    + cbn [c_info]. unfold info. rewrite !Forall_app. splits; [by apply Forall_take|done|by apply Forall_drop].
  - intros x Hx Hout. destruct (in_block b x Hm ltac:(lia)) as [F1 F2]. unfold cell. rewrite F1, F2.
    rewrite lookup_insert_eq, Hcb. consts. cbn [c_info c_quote]. do 2 f_equal. unfold info.
    destruct (Z.lt_ge_cases x a).
    + rewrite lookup_app_l by lia. rewrite lookup_take_lt by lia. done.
    + rewrite lookup_app_r by lia. rewrite lookup_app_r by lia. rewrite lookup_drop. f_equal. lia.
  - intros i c Hi. pose proof (lookup_lt_Some _ _ _ Hi). destruct (in_block b (a + Z.of_nat i) Hm ltac:(lia)) as [F1 F2].
    unfold cell. rewrite F1, F2, lookup_insert_eq, Hcb. consts. cbn [c_info c_quote snd]. f_equal. unfold info.
    rewrite lookup_app_r by lia. rewrite lookup_app_l by lia. rewrite Li.
    replace (Z.to_nat (a + Z.of_nat i - b - 12) - o)%nat with i by lia. by rewrite Hi.
Qed.

Lemma setquote_ok st b a : okblk (cblocks st) b -> b + CBHDR <= a < b + 64 ->
  exists m', setquote st a = Ret (with_blocks st m') /\ touch (cblocks st) m' b /\
    (forall x, b + CBHDR <= x < b + 64 -> x <> a -> cell m' x = cell (cblocks st) x) /\
    (cell m' a).2 = true.
Proof.
  intros (Hb0 & Hm & cb & Hcb & Hlen & Hby) Ha. consts. destruct (in_block b a Hm ltac:(lia)) as [E1 E2].
  unfold setquote, getb. rewrite E1, Hcb. bind. rewrite E2. eexists. split; [reflexivity|]. splits.
  - split; [intros; by apply lookup_insert_ne|]. eexists cb, _. by rewrite lookup_insert_eq.
  - intros x Hx Hne. destruct (in_block b x Hm ltac:(lia)) as [F1 F2]. unfold cell.
    rewrite F1, F2, lookup_insert_eq, Hcb. cbn [c_info c_quote]. f_equal. apply Z.setbit_neq; lia.
  - unfold cell. rewrite E1, E2, lookup_insert_eq. cbn [c_quote snd]. apply Z.setbit_eq. lia.
Qed.

(** A list under construction: like [qrep], but the last block may still be
    empty, and the place for the next character is [cp]. *)
Definition prerep (m : gmap Z cblock) (cf cp : Z) (bs : list Z) (l : list (Z * bool)) : Prop :=
  bs <> [] /\ linked m (hd 0 bs) bs /\ hd 0 bs + CBHDR <= cf < hd 0 bs + 64 /\
  lastb bs + CBHDR <= cp <= lastb bs + 64 /\ (tl bs = [] -> cf <= cp) /\ l = cell m <$> segs cf bs cp.

Lemma qrep_pre m p b r l : qrep m p (b :: r) l -> prerep m (c_cf p) (c_cl p) (b :: r) l.
Proof.
  intros (H1 & H2 & H3 & H4 & H5 & _). unfold prerep. cbn [hd tl]. splits; try done; try lia.
  intros Hr. specialize (H4 Hr). lia.
Qed.

Lemma pre_qrep m cf cp bs l : prerep m cf cp bs l -> lastb bs + CBHDR < cp -> (tl bs = [] -> cf < cp) ->
  qrep m (Cl (Z.of_nat (length l)) cf cp) bs l.
Proof.
  intros (H0 & H1 & H2 & H3 & H4 & H5) Hc Ht. destruct bs as [|b r]; [done|]. unfold qrep. cbn [hd tl c_cc c_cf c_cl] in *.
  splits; try done; lia.
Qed.

Lemma segs_snoc : forall bs s e n, bs <> [] -> 0 <= n -> lastb bs + CBHDR <= e -> (tl bs = [] -> s <= e) ->
  segs s bs (e + n) = segs s bs e ++ seqZ e n.
Proof.
  induction bs as [|b r IH]; intros s e n Hne Hn Hl Hs; [done|]. destruct r as [|b' r].
  - specialize (Hs eq_refl). cbn [segs]. rewrite (seqZ_split s (e + n - s) (e - s)) by lia.
    do 2 f_equal; lia.
  - change (segs s (b :: b' :: r) (e + n)) with (seqZ s (b + 64 - s) ++ segs (b' + CBHDR) (b' :: r) (e + n)).
    change (segs s (b :: b' :: r) e) with (seqZ s (b + 64 - s) ++ segs (b' + CBHDR) (b' :: r) e).
    rewrite IH; [by rewrite app_assoc|done|done|done|]. intros E. cbn [tl] in E. subst r.
    unfold lastb in Hl. cbn [List.last] in Hl. lia.
Qed.

(** The addresses of a list are not those after its end in its last block. *)
Lemma segs_before m : forall bs s e, bs <> [] -> Forall (okblk m) bs -> NoDup bs -> hd 0 bs + CBHDR <= s ->
  Forall (fun a => ~ (e <= a < lastb bs + 64 /\ lastb bs <= e)) (segs s bs e).
Proof.
  induction bs as [|b r IH]; intros s e Hne Hok Hnd Hs; [done|]. destruct r as [|b' r].
  - apply Forall_forall. intros a Ha%elem_of_seqZ. lia.
  - change (segs s (b :: b' :: r) e) with (seqZ s (b + 64 - s) ++ segs (b' + CBHDR) (b' :: r) e).
    change (lastb (b :: b' :: r)) with (lastb (b' :: r)). apply NoDup_cons in Hnd as [Hb Hnd].
    apply Forall_cons in Hok as [Hokb Hok]. apply Forall_app. split.
    + apply Forall_forall. intros a Ha%elem_of_seqZ [Hin Hle].
      pose proof (lastb_in (b' :: r) ltac:(done)) as Hlast. rewrite Forall_forall in Hok.
      destruct (Hok _ Hlast) as (_ & Hm & _). destruct Hokb as (_ & Hmb & _). cbn [hd] in Hs. consts.
      assert (lastb (b' :: r) <> b) by (intros <-; done). zdiv.
    + apply IH; try done.
Qed.

(** Writing [data] at the place of a list under construction. *)
Lemma pre_write st cf cp bs fl l data : heap (cblocks st) (bs ++ fl) -> prerep (cblocks st) cf cp bs l ->
  cp + Z.of_nat (length data) <= lastb bs + 64 -> data <> [] -> Forall (fun c => 0 <= c < 256) data ->
  exists m' l2, cwrite st cp data = Ret (with_blocks st m') /\ touch (cblocks st) m' (lastb bs) /\
    qrep m' (Cl (Z.of_nat (length l) + Z.of_nat (length data)) cf (cp + Z.of_nat (length data))) bs (l ++ l2) /\
    fst <$> l2 = data /\ snd <$> l2 = (fun i => (cell (cblocks st) (cp + Z.of_nat i)).2) <$> seq 0 (length data).
Proof.
  intros [Hnd Hok] (H0 & H1 & H2 & H3 & H4 & H5) Hfit Hne Hby.
  apply NoDup_app in Hnd as (Hnd & _ & _). apply Forall_app in Hok as [Hok _].
  assert (Hb : okblk (cblocks st) (lastb bs)).
  { rewrite Forall_forall in Hok. apply Hok. by apply lastb_in. }
  destruct (cwrite_ok st _ cp data Hb ltac:(lia) ltac:(lia) Hne Hby) as (m' & E & Ht & Hout & Hin).
  set (n := Z.of_nat (length data)) in *. assert (Hn : 0 < n) by (destruct data; [done|unfold n; cbn; lia]).
  assert (Hold : cell m' <$> segs cf bs cp = cell (cblocks st) <$> segs cf bs cp).
  { apply list_fmap_ext. intros i a Ha. apply list_elem_of_lookup_2 in Ha.
    pose proof (segs_before _ bs cf cp H0 Hok Hnd ltac:(lia)) as Hbef. rewrite Forall_forall in Hbef.
    specialize (Hbef a Ha). pose proof (segs_in bs cf cp H0 ltac:(lia) ltac:(lia)) as Hseg.
    rewrite Forall_forall in Hseg. destruct (Hseg a Ha) as (x & Hx & Hax). consts.
    destruct (decide (x = lastb bs)) as [->|Hne'].
    - apply Hout; lia.
    - apply cell_ext. rewrite Forall_forall in Hok. destruct (Hok x Hx) as (_ & Hmx & _).
      destruct (in_block x a Hmx ltac:(lia)) as [-> _]. by apply Ht. }
  exists m', (cell m' <$> seqZ cp n). split; [done|]. split; [done|]. split; [|split].
  - replace (Z.of_nat (length l) + n) with (Z.of_nat (length (l ++ (cell m' <$> seqZ cp n))))
      by (rewrite length_app, length_fmap, length_seqZ; lia).
    apply pre_qrep; [|lia|intros Ht'; specialize (H4 Ht'); lia].
    unfold prerep. splits; try done; try lia.
    + by eapply touch_linked.
    + intros Ht'. specialize (H4 Ht'). lia.
    + rewrite segs_snoc by (done || lia). by rewrite fmap_app, Hold, H5.
  - apply list_eq. intros i. rewrite <- list_fmap_compose, seqZ_lookup_fmap by lia. unfold compose.
    destruct (Z.ltb_spec (Z.of_nat i) n).
    + destruct (lookup_lt_is_Some_2 data i ltac:(lia)) as [c Hc]. by rewrite (Hin i c Hc), Hc.
    + symmetry. apply lookup_ge_None. lia.
  - apply list_eq. intros i. rewrite <- list_fmap_compose, seqZ_lookup_fmap by lia. unfold compose.
    rewrite list_lookup_fmap. destruct (Z.ltb_spec (Z.of_nat i) n).
    + rewrite lookup_seq_lt by lia. cbn [fmap option_fmap option_map].
      destruct (lookup_lt_is_Some_2 data i ltac:(lia)) as [c Hc]. by rewrite (Hin i c Hc).
    + rewrite lookup_seq_ge by lia. done.
Qed.

(** ** Taking blocks from the free list *)

Lemma cbtake_ok st nb fl own bz : heap (cblocks st) (own ++ nb :: fl) -> pool st (nb :: fl) ->
  exists st' cb, cbtake st nb bz = Ret st' /\ pool st' fl /\ heap (cblocks st') (own ++ nb :: fl) /\
    cblocks st' !! nb = Some cb /\ c_next cb = NULL /\ (bz = true -> c_quote cb = 0) /\
    (forall b, b <> nb -> cblocks st' !! b = cblocks st !! b).
Proof.
  intros [Hnd Hok] [(_ & cb & Hcb & Hl) Hc].
  assert (Hob : okblk (cblocks st) nb) by (apply Forall_app in Hok as [_ Hok]; by apply Forall_cons in Hok as [Hok _]).
  assert (Hnf : nb ∉ fl).
  { apply NoDup_app in Hnd as (_ & _ & Hnd). by apply NoDup_cons in Hnd as [? _]. }
  pose proof Hob as (_ & _ & cb' & Hcb' & Hlen & Hby). rewrite Hcb in Hcb'. injection Hcb' as <-.
  unfold cbtake, set_cnext, getb, set_free. rewrite Hcb. bind. cbn [cblocks]. rewrite Hcb. bind.
  cbn [length] in Hc. destruct bz.
  - unfold bzero_quote, getb, with_blocks. cbn [cblocks]. rewrite lookup_insert_eq. bind.
    eexists _, (Cb NULL 0 (c_info cb)). split; [reflexivity|]. cbn [cblocks cfreelist cfreecount c_next c_quote c_info].
    rewrite insert_insert_eq. splits; try done.
    + split; cbn [cblocks cfreelist cfreecount]; [|lia]. eapply linked_ext; [|exact Hl]. by apply insert_other.
    + split; [done|]. eapply Forall_impl; [exact Hok|]. intros b. by apply okblk_insert.
    + by rewrite lookup_insert_eq.
    + intros b Hb. by rewrite lookup_insert_ne.
  - unfold with_blocks. cbn [cblocks]. eexists _, (Cb NULL (c_quote cb) (c_info cb)). split; [reflexivity|].
    cbn [cblocks cfreelist cfreecount c_next c_quote c_info]. splits; try done.
    + split; cbn [cblocks cfreelist cfreecount]; [|lia]. eapply linked_ext; [|exact Hl]. by apply insert_other.
    + split; [done|]. eapply Forall_impl; [exact Hok|]. intros b. by apply okblk_insert.
    + by rewrite lookup_insert_eq.
    + intros b Hb. by rewrite lookup_insert_ne.
Qed.

Lemma put_first_ok st fl : heap (cblocks st) fl -> pool st fl ->
  match fl with
  | [] => put_first st = Ret None
  | nb :: fl' => exists st', put_first st = Ret (Some (st', nb + CBHDR)) /\ pool st' fl' /\
      heap (cblocks st') ([nb] ++ fl') /\ frame fl st st' /\
      prerep (cblocks st') (nb + CBHDR) (nb + CBHDR) [nb] []
  end.
Proof.
  intros Hh Hp. unfold put_first. destruct fl as [|nb fl'].
  - destruct Hp as [E _]. cbn in E. by rewrite E.
  - pose proof Hp as [(E & _) _]. rewrite E. pose proof Hh as [_ Ho].
    apply Forall_cons in Ho as [(Hpos & _) _]. destruct (Z.eqb_spec nb NULL); [consts; lia|].
    destruct (cbtake_ok st nb fl' [] true Hh Hp) as (st' & cb & Et & Hp' & Hh' & Hcb & Hn & _ & Hsame).
    rewrite Et. bind. exists st'. splits; try done.
    + intros b Hb. apply Hsame. intros ->. apply Hb. by left.
    + unfold prerep, lastb. cbn [hd tl List.last]. splits; try done; try (consts; lia).
      * split; [done|]. exists cb. split; [done|]. by rewrite Hn.
      * cbn [segs]. by rewrite Z.sub_diag.
Qed.

(** Hooking block [nb] behind the last block of a chain. *)
Lemma linked_snoc m m' nb cbn : forall bs h, bs <> [] -> NoDup bs -> linked m h bs ->
  (forall b, b ∈ bs -> b <> lastb bs -> m' !! b = m !! b) ->
  (exists cb, m' !! lastb bs = Some cb /\ c_next cb = nb) -> m' !! nb = Some cbn -> c_next cbn = NULL ->
  linked m' h (bs ++ [nb]).
Proof.
  induction bs as [|b r IH]; intros h Hne Hnd H Ho (cb & Hcb & Hnx) Hnb Hn0; [done|].
  destruct H as (-> & cx & Hx & H). apply NoDup_cons in Hnd as [Hb Hnd]. split; [done|].
  destruct r as [|b' r].
  - exists cb. split; [done|]. rewrite Hnx. split; [done|]. exists cbn. split; [done|]. by rewrite Hn0.
  - exists cx. change (lastb (b :: b' :: r)) with (lastb (b' :: r)) in *. split.
    + rewrite Ho; [done|by left|]. intros ->. apply Hb. by apply lastb_in.
    + apply IH; try done; [|by exists cb]. intros x Hin. apply Ho. by right.
Qed.

Lemma linked_last m : forall bs h, bs <> [] -> linked m h bs ->
  exists cb, m !! lastb bs = Some cb /\ c_next cb = NULL.
Proof.
  induction bs as [|b r IH]; intros h Hne H; [done|]. destruct H as (-> & cb & Hcb & H).
  destruct r as [|b' r]; [by exists cb|]. by apply (IH (c_next cb)).
Qed.

Lemma lastb_snoc bs b : lastb (bs ++ [b]) = b.
Proof. apply last_last. Qed.

Lemma segs_newblock nb : forall bs s, bs <> [] -> (tl bs = [] -> s <= lastb bs + 64) ->
  segs s (bs ++ [nb]) (nb + CBHDR) = segs s bs (lastb bs + 64).
Proof.
  induction bs as [|b r IH]; intros s Hne Hs; [done|]. destruct r as [|b' r].
  - cbn [app segs]. rewrite Z.sub_diag. unfold lastb. cbn [List.last]. by rewrite app_nil_r.
  - change (segs s (b :: b' :: r) (lastb (b :: b' :: r) + 64))
      with (seqZ s (b + 64 - s) ++ segs (b' + CBHDR) (b' :: r) (lastb (b' :: r) + 64)).
    change (segs s ((b :: b' :: r) ++ [nb]) (nb + CBHDR))
      with (seqZ s (b + 64 - s) ++ segs (b' + CBHDR) ((b' :: r) ++ [nb]) (nb + CBHDR)).
    rewrite IH; [done|done|]. intros E. cbn [tl] in E. subst r. unfold lastb. cbn. consts. lia.
Qed.

Lemma put_next_ok st p bs fl l bz : inv st p bs fl l -> bs <> [] -> c_cl p = lastb bs + 64 ->
  match fl with
  | [] => exists st', put_next st (c_cl p) bz = Ret (st', NULL) /\ inv st' p bs [] l /\ frame bs st st'
  | nb :: fl' => exists st', put_next st (c_cl p) bz = Ret (st', nb + CBHDR) /\ pool st' fl' /\
      heap (cblocks st') ((bs ++ [nb]) ++ fl') /\ frame (bs ++ fl) st st' /\
      prerep (cblocks st') (c_cf p) (nb + CBHDR) (bs ++ [nb]) l /\ 0 < nb
  end.
Proof.
  intros (Hh & Hp & Hq) Hne Hcl. pose proof Hh as [Hnd Hok]. pose proof (lastb_in bs Hne) as Hlast.
  assert (Hob : okblk (cblocks st) (lastb bs)).
  { rewrite Forall_forall in Hok. apply Hok, elem_of_app. by left. }
  unfold put_next. rewrite Hcl. replace (lastb bs + 64 - CBLOCK) with (lastb bs) by (consts; lia).
  destruct (set_cnext_ok st (lastb bs) (cfreelist st) Hob) as (cb & Hcb & E & Hok'). rewrite E. bind.
  set (st1 := with_blocks st _). assert (Hlastnf : lastb bs ∉ fl).
  { apply NoDup_app in Hnd as (_ & Hd & _). by apply Hd. }
  assert (Hp1 : pool st1 fl).
  { destruct Hp as [Hl Hc]. split; [|done]. eapply linked_ext; [|exact Hl]. by apply insert_other. }
  assert (Hh1 : heap (cblocks st1) (bs ++ fl)).
  { split; [done|]. eapply Forall_impl; [exact Hok|]. exact Hok'. }
  assert (Hsame1 : forall b, b <> lastb bs -> cblocks st1 !! b = cblocks st !! b).
  { intros b Hb. cbn. by rewrite lookup_insert_ne. }
  assert (Hcb1 : cblocks st1 !! lastb bs = Some (Cb (cfreelist st) (c_quote cb) (c_info cb))) by apply lookup_insert_eq.
  change (cfreelist st1) with (cfreelist st). destruct bs as [|b0 r]; [done|].
  pose proof Hq as (Q1 & Q2 & Q3 & Q4 & Q5 & Q6).
  assert (Hbs : forall m', (forall b, b ∈ b0 :: r -> b <> lastb (b0 :: r) -> m' !! b = cblocks st !! b) ->
    (forall a, lastb (b0 :: r) <= a < lastb (b0 :: r) + 64 -> cell m' a = cell (cblocks st) a) ->
    cell m' <$> segs (c_cf p) (b0 :: r) (c_cl p) = l).
  { intros m' Hm1 Hm2. rewrite Q5. apply list_fmap_ext. intros i a Ha. apply list_elem_of_lookup_2 in Ha.
    pose proof (segs_in (b0 :: r) (c_cf p) (c_cl p) ltac:(done) ltac:(cbn [hd]; lia) ltac:(lia)) as Hs.
    rewrite Forall_forall in Hs. destruct (Hs a Ha) as (x & Hx & Hax). consts.
    destruct (decide (x = lastb (b0 :: r))) as [->|Hnx]; [apply Hm2; lia|]. apply cell_ext.
    rewrite Forall_forall in Hok. destruct (Hok x ltac:(by apply elem_of_app; left)) as (_ & Hmx & _).
    destruct (in_block x a Hmx ltac:(lia)) as [-> _]. by apply Hm1. }
  assert (Hcell : forall m' a, m' !! lastb (b0 :: r) = cblocks st1 !! lastb (b0 :: r) ->
    lastb (b0 :: r) <= a < lastb (b0 :: r) + 64 -> cell m' a = cell (cblocks st) a).
  { intros m' a Hm' Ha. destruct Hob as (_ & Hml & _).
    destruct (in_block _ a Hml Ha) as [Ea _]. unfold cell. by rewrite Ea, Hm', Hcb1, Hcb. }
  destruct fl as [|nb fl'].
  - pose proof Hp as [E0 _]. cbn in E0. destruct (linked_last _ _ _ Hne Q1) as (cb' & Hcb' & Hnx).
    rewrite Hcb in Hcb'. injection Hcb' as <-. assert (st1 = st) as ->.
    { unfold st1, with_blocks. rewrite insert_id; [by destruct st|]. rewrite Hcb, E0, <- Hnx. by destruct cb. }
    rewrite E0. cbn [Z.eqb NULL]. exists st. by splits.
  - pose proof Hp as [(E0 & _) _]. rewrite E0. pose proof Hok as Hok2. apply Forall_app in Hok2 as [_ Hok2].
    apply Forall_cons in Hok2 as [(Hpos & _) _]. destruct (Z.eqb_spec nb NULL); [consts; lia|].
    destruct (cbtake_ok st1 nb fl' (b0 :: r) bz Hh1 Hp1) as (st' & cbn & Et & Hp' & Hh' & Hcbn & Hn & _ & Hsame).
    rewrite Et. bind. exists st'. assert (Hnl : nb <> lastb (b0 :: r)) by (intros ->; apply Hlastnf; by left).
    assert (Hnb : nb ∉ b0 :: r).
    { intros Hin. apply NoDup_app in Hnd as (_ & Hd & _). apply (Hd nb Hin). by left. }
    splits; try done.
    + by rewrite <- app_assoc.
    + intros b Hb. rewrite Hsame, Hsame1; [done|intros ->; apply Hb, elem_of_app; by left|].
      intros ->. apply Hb, elem_of_app. right. by left.
    + unfold prerep. rewrite lastb_snoc. change (hd 0 ((b0 :: r) ++ [nb])) with b0. splits; try done; try (consts; lia).
      * apply (linked_snoc (cblocks st) _ nb cbn); try done.
        -- by apply NoDup_app in Hnd as (? & _ & _).
        -- intros b Hb Hbl. rewrite Hsame, Hsame1; [done|done|]. by intros ->.
        -- eexists. rewrite Hsame by done. split; [exact Hcb1|]. done.
      * destruct r; done.
      * rewrite segs_newblock; [|done|intros Er; cbn [tl] in Er; rewrite Er; unfold lastb; cbn [List.last]; lia]. rewrite <- Hcl. symmetry. apply Hbs.
        -- intros b Hb Hbl. rewrite Hsame, Hsame1; [done|done|]. by intros ->.
        -- intros a. apply Hcell. by rewrite Hsame.
Qed.

(** How many characters a list can still take: the free blocks and what is left
    of its last block. *)
Definition capacity (st : ttymem) (p : clist) : Z :=
  cfreecount st + (if c_cl p =? NULL then 0 else (- c_cl p) mod CBLOCK).

Definition room (bs : list Z) (cl : Z) : Z := match bs with [] => 0 | _ => lastb bs + 64 - cl end.

Lemma capacity_inv st p bs fl l : inv st p bs fl l ->
  capacity st p = CBSIZE * Z.of_nat (length fl) + room bs (c_cl p) /\ 0 <= room bs (c_cl p) < 64.
Proof.
  intros ([_ Hok] & [_ Hc] & Hq). unfold capacity. rewrite Hc. destruct bs as [|b r].
  - destruct Hq as [-> _]. cbn. lia.
  - destruct Hq as (_ & _ & H3 & _). rewrite Forall_forall in Hok.
    destruct (Hok (lastb (b :: r))) as (H0 & Hm & _); [apply elem_of_app; left; by apply lastb_in|].
    unfold room. consts. destruct (Z.eqb_spec (c_cl p) 0); [lia|]. split; zdiv.
Qed.

Lemma touch_frame st m' bs fl : bs <> [] -> touch (cblocks st) m' (lastb bs) -> frame (bs ++ fl) st (with_blocks st m').
Proof.
  intros Hne [Ht _] b Hb. apply Ht. intros ->. apply Hb, elem_of_app. left. by apply lastb_in.
Qed.

Lemma u8_byte c : Forall (fun c => 0 <= c < 256) [u8 c].
Proof. constructor; [apply u8_range|constructor]. Qed.

Lemma putc_store_ok st c cf cp p bs fl l : heap (cblocks st) (bs ++ fl) -> pool st fl ->
  prerep (cblocks st) cf cp bs l -> cp < lastb bs + 64 -> c_cc p = Z.of_nat (length l) ->
  exists st' q, putc_store st c cf cp p = Ret (0, st', Cl (c_cc p + 1) cf (cp + 1)) /\
    (has c TTY_QUOTE = true -> q = true) /\ frame (bs ++ fl) st st' /\
    inv st' (Cl (c_cc p + 1) cf (cp + 1)) bs fl (l ++ [(u8 c, q)]) /\
    (has c TTY_QUOTE = false -> q = (cell (cblocks st) cp).2).
Proof.
  intros Hh Hp Hpre Hcp Hcc. pose proof Hpre as (P0 & P1 & P2 & P3 & P4 & P5).
  assert (Hq : exists m1, (if has c TTY_QUOTE then setquote st cp else Ret st) = Ret (with_blocks st m1) /\
    touch (cblocks st) m1 (lastb bs) /\ prerep m1 cf cp bs l /\
    (has c TTY_QUOTE = true -> (cell m1 cp).2 = true) /\
    (has c TTY_QUOTE = false -> m1 = cblocks st)).
  { pose proof Hh as [Hnd Hok]. apply Forall_app in Hok as [Hok _]. apply NoDup_app in Hnd as (Hnd & _ & _).
    assert (Hob : okblk (cblocks st) (lastb bs)).
    { rewrite Forall_forall in Hok. apply Hok. by apply lastb_in. }
    destruct (has c TTY_QUOTE).
    - destruct (setquote_ok st _ cp Hob ltac:(lia)) as (m1 & E & Ht & Hout & Hset). exists m1.
      split; [done|]. split; [done|]. split; [|by split]. unfold prerep. splits; try done; try lia.
      + by eapply touch_linked.
      + rewrite P5. apply list_fmap_ext. intros i a Ha. apply list_elem_of_lookup_2 in Ha.
        pose proof (segs_before _ bs cf cp P0 Hok Hnd ltac:(lia)) as Hbef. rewrite Forall_forall in Hbef.
        specialize (Hbef a Ha). pose proof (segs_in bs cf cp P0 ltac:(lia) ltac:(lia)) as Hseg.
        rewrite Forall_forall in Hseg. destruct (Hseg a Ha) as (x & Hx & Hax). consts. symmetry.
        destruct (decide (x = lastb bs)) as [->|Hne']; [apply Hout; lia|].
        apply cell_ext. rewrite Forall_forall in Hok. destruct (Hok x Hx) as (_ & Hmx & _).
        destruct (in_block x a Hmx ltac:(lia)) as [-> _]. by apply Ht.
    - exists (cblocks st). splits; try done; [by destruct st|by apply touch_refl]. }
  destruct Hq as (m1 & E1 & Ht1 & Hpre1 & Hq1 & Hq2). unfold putc_store. rewrite E1. bind.
  set (st1 := with_blocks st m1). assert (Hh1 : heap (cblocks st1) (bs ++ fl)) by (by eapply touch_heap).
  destruct (pre_write st1 cf cp bs fl l [u8 c] Hh1 Hpre1) as (m' & l2 & E & Ht & Hq & H1 & H2);
    [cbn [length]; lia|done|apply u8_byte|].
  rewrite E. bind. change (with_blocks st1 m') with (with_blocks st m').
  destruct l2 as [|[x q] [|? ?]]; try done. cbn in H1, H2. injection H1 as ->. injection H2 as ->.
  rewrite Z.add_0_r in *. eexists _, _. split; [reflexivity|]. split; [exact Hq1|].
  pose proof (touch_trans _ _ _ _ Ht1 Ht) as Ht2. split; [by apply touch_frame|]. split.
  - split; [by eapply touch_heap|]. split; [|by rewrite Hcc].
    destruct Hp as [Hl Hc]. split; [|done]. by eapply touch_linked.
  - intros Hqf. by rewrite (Hq2 Hqf).
Qed.

Lemma putc_ok st c p bs fl l : inv st p bs fl l ->
  (0 < capacity st p -> exists st' p' bs' fl' q, putc st c p = Ret (0, st', p') /\
     (has c TTY_QUOTE = true -> q = true) /\ inv st' p' bs' fl' (l ++ [(u8 c, q)]) /\
     bs' ++ fl' ≡ₚ bs ++ fl /\ frame (bs ++ fl) st st' /\ capacity st' p' = capacity st p - 1) /\
  (capacity st p = 0 -> exists st', putc st c p = Ret (-1, st', p) /\ moved bs fl st st' p l).
Proof.
  intros Hi. pose proof Hi as (Hh & Hp & Hq). destruct (capacity_inv _ _ _ _ _ Hi) as [Hcap Hroom].
  pose proof (qrep_len _ _ _ _ Hq) as Hlen. unfold putc. destruct bs as [|b r].
  - destruct Hq as [-> ->]. cbn [c_cl c_cc Z.eqb NULL orb]. pose proof (put_first_ok st fl Hh Hp) as Hf.
    cbn [room] in *. destruct fl as [|nb fl']; consts.
    + rewrite Hf. bind. split; [cbn in Hcap; lia|]. intros _. exists st. split; [done|]. by apply moved_refl.
    + destruct Hf as (st1 & E & Hp1 & Hh1 & Hf1 & Hpre). rewrite E. bind. split; [|cbn [length] in Hcap; lia]. intros _.
      destruct (putc_store_ok st1 c (nb + 12) (nb + 12) (Cl 0 0 0) [nb] fl' [] Hh1 Hp1 Hpre) as
        (st' & q & E' & Hq' & Hf' & Hi' & _); [unfold lastb; cbn [List.last]; lia|done|].
      rewrite E'. eexists _, _, [nb], fl', q. split; [done|]. split; [done|]. split; [done|]. split; [done|].
      split; [by eapply frame_trans|]. rewrite (proj1 (capacity_inv _ _ _ _ _ Hi')), Hcap.
      unfold room, lastb. cbn [List.last c_cl length]. consts. lia.
  - pose proof (qrep_bs _ _ _ _ _ Hq) as Hpos. pose proof (qrep_pre _ _ _ _ _ Hq) as Hpre.
    pose proof Hq as (_ & _ & H3 & _). pose proof Hh as [_ Hok]. rewrite Forall_forall in Hok.
    destruct (Hok (lastb (b :: r))) as (H0 & Hm & _); [apply elem_of_app; left; by apply lastb_in|]. consts.
    destruct (Z.eqb_spec (c_cl p) 0); [lia|]. destruct (Z.ltb_spec (c_cc p) 0); [lia|]. cbn [orb].
    rewrite (coff_in (lastb (b :: r))) by (lia || done). unfold room in *.
    destruct (Z.eqb_spec (c_cl p) (lastb (b :: r) + 64)) as [He|He].
    + pose proof (put_next_ok st p (b :: r) fl l false Hi ltac:(done) He) as Hn. destruct fl as [|nb fl'].
      * destruct Hn as (st1 & E & Hi1 & Hf1). rewrite E. bind. consts. cbn [Z.eqb].
        split; [cbn [length] in Hcap; lia|]. intros _. exists st1. split; [done|].
        exists (b :: r), []. split; [done|]. split; [done|]. by rewrite app_nil_r.
      * destruct Hn as (st1 & E & Hp1 & Hh1 & Hf1 & Hpre1 & Hnb). rewrite E. bind. consts.
        destruct (Z.eqb_spec (nb + 12) 0); [lia|]. split; [|cbn [length] in Hcap; lia]. intros _.
        destruct (putc_store_ok st1 c (c_cf p) (nb + 12) p ((b :: r) ++ [nb]) fl' l Hh1 Hp1 Hpre1) as
          (st' & q & E' & Hq' & Hf' & Hi' & _); [rewrite lastb_snoc; lia|done|].
        rewrite E'. assert (Hperm : ((b :: r) ++ [nb]) ++ fl' ≡ₚ (b :: r) ++ nb :: fl') by (by rewrite <- app_assoc).
        eexists _, _, ((b :: r) ++ [nb]), fl', q. split; [done|]. split; [done|]. split; [done|]. split; [done|].
        split.
        { eapply frame_trans; [exact Hf1|]. intros x Hx. apply Hf'. by rewrite Hperm. }
        rewrite (proj1 (capacity_inv _ _ _ _ _ Hi')), Hcap. unfold room.
        change ((b :: r) ++ [nb]) with (b :: r ++ [nb]). cbv iota.
        change (b :: r ++ [nb]) with ((b :: r) ++ [nb]). rewrite lastb_snoc. cbn [c_cl length]. consts. lia.
    + split; [|lia]. intros _.
      destruct (putc_store_ok st c (c_cf p) (c_cl p) p (b :: r) fl l Hh Hp Hpre) as
        (st' & q & E' & Hq' & Hf' & Hi' & _); [lia|done|].
      rewrite E'. eexists _, _, (b :: r), fl, q. split; [done|]. split; [done|]. split; [done|]. split; [done|].
      split; [done|]. rewrite (proj1 (capacity_inv _ _ _ _ _ Hi')), Hcap. unfold room. cbn [c_cl]. consts. lia.
Qed.

(** One step of the loop of b_to_q at a place with room: a write. *)
Lemma btoq_write st cp cf cq cc bs fl l : heap (cblocks st) (bs ++ fl) -> pool st fl ->
  prerep (cblocks st) cf cq bs l -> cq < lastb bs + 64 -> 0 < cc -> cc = Z.of_nat (length cp) ->
  Forall (fun c => 0 <= c < 256) cp ->
  let nc := Z.min cc (CBLOCK - coff cq) in
  exists st' l2, cwrite st cq (take (Z.to_nat nc) cp) = Ret st' /\ 0 < nc /\ nc <= lastb bs + 64 - cq /\
    nc <= cc /\ (nc = cc \/ nc = lastb bs + 64 - cq) /\
    inv st' (Cl (Z.of_nat (length (l ++ l2))) cf (cq + nc)) bs fl (l ++ l2) /\ frame (bs ++ fl) st st' /\
    fst <$> l2 = take (Z.to_nat nc) cp.
Proof.
  intros Hh Hp Hpre Hcq Hcc Hlen Hby nc. pose proof Hpre as (P0 & P1 & P2 & P3 & P4 & P5).
  assert (Hob : okblk (cblocks st) (lastb bs)).
  { destruct Hh as [_ Hok]. rewrite Forall_forall in Hok. apply Hok, elem_of_app. left. by apply lastb_in. }
  destruct Hob as (_ & Hm & _). consts. destruct (in_block (lastb bs) cq Hm ltac:(lia)) as [_ Hoff].
  assert (Hnc : nc = Z.min cc (lastb bs + 64 - cq)) by (unfold nc; rewrite Hoff; consts; lia).
  assert (Hl : Z.of_nat (length (take (Z.to_nat nc) cp)) = nc) by (rewrite length_take; lia).
  destruct (pre_write st cf cq bs fl l (take (Z.to_nat nc) cp) Hh Hpre) as (m' & l2 & E & Ht & Hq & H1 & H2).
  { lia. }
  { intros E. rewrite E in Hl. cbn in Hl. lia. }
  { by apply Forall_take. }
  exists (with_blocks st m'), l2. splits; try done; try lia.
  - rewrite Hl in Hq. split; [by eapply touch_heap|]. split.
    + destruct Hp as [Hpl Hc]. split; [|done]. by eapply touch_linked.
    + pose proof (f_equal length H1) as Hl2. rewrite length_fmap in Hl2.
      replace (Z.of_nat (length (l ++ l2))) with (Z.of_nat (length l) + nc) by (rewrite length_app; lia). done.
  - by apply touch_frame.
Qed.

Definition cap_at (bs fl : list Z) (cq : Z) : Z := CBSIZE * Z.of_nat (length fl) + (lastb bs + 64 - cq).

Lemma btoq_loop_ok : forall fuel st cp cf cq cc bs fl l, heap (cblocks st) (bs ++ fl) -> pool st fl ->
  prerep (cblocks st) cf cq bs l ->
  qrep (cblocks st) (Cl (Z.of_nat (length l)) cf cq) bs l \/ 0 < cc /\ cq < lastb bs + 64 ->
  cc = Z.of_nat (length cp) -> Forall (fun c => 0 <= c < 256) cp -> (length cp < fuel)%nat ->
  let n := Z.min cc (cap_at bs fl cq) in
  exists st' cq' bs' fl' l2, btoq_loop fuel st cp cq cc = Ret (st', cq', cc - n) /\
    inv st' (Cl (Z.of_nat (length (l ++ l2))) cf cq') bs' fl' (l ++ l2) /\ bs' ++ fl' ≡ₚ bs ++ fl /\
    frame (bs ++ fl) st st' /\ fst <$> l2 = take (Z.to_nat n) cp.
Proof.
  induction fuel as [|fuel IH]; intros st cp cf cq cc bs fl l Hh Hp Hpre Hor Hlen Hby Hf n; [lia|].
  pose proof Hpre as (P0 & P1 & P2 & P3 & P4 & P5). cbn [btoq_loop]. unfold cap_at in *.
  assert (Hob : okblk (cblocks st) (lastb bs)).
  { destruct Hh as [_ Hok]. rewrite Forall_forall in Hok. apply Hok, elem_of_app. left. by apply lastb_in. }
  pose proof Hob as (Hb0 & Hm & _). consts.
  destruct (Z.eqb_spec cc 0) as [Hcc|Hcc].
  { destruct Hor as [Hq|[Hc _]]; [|lia]. exists st, cq, bs, fl, []. replace (cc - n) with cc by lia.
    replace (Z.to_nat n) with 0%nat by lia. rewrite app_nil_r, take_0. splits; done. }
  (* what remains after a place with room is found *)
  assert (Hgo : forall st1 cq1 bs1 fl1, heap (cblocks st1) (bs1 ++ fl1) -> pool st1 fl1 ->
    prerep (cblocks st1) cf cq1 bs1 l -> cq1 < lastb bs1 + 64 -> bs1 ++ fl1 ≡ₚ bs ++ fl ->
    frame (bs ++ fl) st st1 -> 52 * Z.of_nat (length fl1) + (lastb bs1 + 64 - cq1) = 52 * Z.of_nat (length fl) + (lastb bs + 64 - cq) ->
    let nc := Z.min cc (64 - coff cq1) in
    exists st' cq' bs' fl' l2, (st1 ← cwrite st1 cq1 (take (Z.to_nat nc) cp);
       btoq_loop fuel st1 (drop (Z.to_nat nc) cp) (cq1 + nc) (cc - nc)) = Ret (st', cq', cc - n) /\
    inv st' (Cl (Z.of_nat (length (l ++ l2))) cf cq') bs' fl' (l ++ l2) /\ bs' ++ fl' ≡ₚ bs ++ fl /\
    frame (bs ++ fl) st st' /\ fst <$> l2 = take (Z.to_nat n) cp).
  { intros st1 cq1 bs1 fl1 Hh1 Hp1 Hpre1 Hroom Hperm Hfr Hcap nc.
    destruct (btoq_write st1 cp cf cq1 cc bs1 fl1 l) as (st2 & l2 & E & N1 & N2 & N3 & N4 & Hi2 & Hf2 & Hl2);
      try done; try lia.
    change (Z.min cc (CBLOCK - coff cq1)) with nc in *. rewrite E. bind. pose proof Hi2 as (Hh2 & Hp2 & Hq2).
    assert (Hpre2 : prerep (cblocks st2) cf (cq1 + nc) bs1 (l ++ l2)).
    { pose proof Hpre1 as (Hne1 & _). destruct bs1 as [|b r]; [done|]. exact (qrep_pre _ _ _ _ _ Hq2). }
    destruct (IH st2 (drop (Z.to_nat nc) cp) cf (cq1 + nc) (cc - nc) bs1 fl1 (l ++ l2)) as
      (st3 & cq3 & bs3 & fl3 & l3 & E3 & Hi3 & Hp3 & Hf3 & Hl3); try done.
    { by left. }
    { rewrite length_drop. lia. }
    { by apply Forall_drop. }
    { rewrite length_drop. lia. }
    rewrite E3. unfold cap_at in *. consts. exists st3, cq3, bs3, fl3, (l2 ++ l3). rewrite app_assoc. splits; try done.
    - do 2 f_equal. lia.
    - by rewrite Hp3.
    - eapply frame_trans; [exact Hfr|]. eapply frame_trans; intros x Hx.
      + apply Hf2. by rewrite Hperm.
      + apply Hf3. by rewrite Hperm.
    - rewrite fmap_app, Hl2, Hl3, take_take_drop. f_equal. lia. }
  rewrite (coff_in (lastb bs)) by (lia || done). destruct (Z.eqb_spec cq (lastb bs + 64)) as [He|He].
  - destruct Hor as [Hq|[_ Hc]]; [|lia].
    pose proof (put_next_ok st _ bs fl l true (conj Hh (conj Hp Hq)) P0 He) as Hn. cbn [c_cl c_cf] in Hn.
    destruct fl as [|nb fl'].
    + destruct Hn as (st1 & E & Hi1 & Hf1). rewrite E. bind. consts. cbn [Z.eqb].
      assert (n = 0) by (cbn [length] in *; lia). exists st1, cq, bs, [], []. replace (cc - n) with cc by lia.
      replace (Z.to_nat n) with 0%nat by lia. rewrite app_nil_r, take_0. splits; try done. by rewrite app_nil_r.
    + destruct Hn as (st1 & E & Hp1 & Hh1 & Hf1 & Hpre1 & Hnb). rewrite E. bind. consts.
      destruct (Z.eqb_spec (nb + 12) 0); [lia|]. apply (Hgo st1 (nb + 12) (bs ++ [nb]) fl'); try done.
      * rewrite lastb_snoc. lia.
      * by rewrite <- app_assoc.
      * rewrite lastb_snoc. cbn [length]. lia.
  - bind. destruct (Z.eqb_spec cq 0); [lia|]. apply (Hgo st cq bs fl); try done; lia.
Qed.

Lemma b_to_q_ok st data q bs fl l : inv st q bs fl l -> Forall (fun c => 0 <= c < 256) data ->
  let cc := Z.of_nat (length data) in let n := Z.min cc (capacity st q) in
  exists st' q' l2, b_to_q st data cc q = Ret (cc - n, st', q') /\ moved bs fl st st' q' (l ++ l2) /\
    fst <$> l2 = take (Z.to_nat n) data.
Proof.
  intros Hi Hby cc n. pose proof Hi as (Hh & Hp & Hq). destruct (capacity_inv _ _ _ _ _ Hi) as [Hcap Hroom].
  pose proof (qrep_len _ _ _ _ Hq) as Hlen. unfold b_to_q. consts. destruct (Z.leb_spec cc 0) as [Hz|Hz].
  { exists st, q, []. replace (cc - n) with 0 by lia. replace (Z.to_nat n) with 0%nat by lia.
    rewrite app_nil_r, take_0. split; [done|]. split; [by apply moved_refl|done]. }
  destruct bs as [|b r].
  - destruct Hq as [-> ->]. cbn [c_cl c_cc Z.eqb NULL orb]. pose proof (put_first_ok st fl Hh Hp) as Hf.
    cbn [room] in *. destruct fl as [|nb fl'].
    + rewrite Hf. bind. assert (n = 0) by (cbn in Hcap; lia). exists st, (Cl 0 0 0), [].
      replace (Z.to_nat n) with 0%nat by lia. replace (cc - n) with cc by lia.
      split; [done|]. split; [by apply moved_refl|done].
    + destruct Hf as (st1 & E & Hp1 & Hh1 & Hf1 & Hpre). rewrite E. bind.
      destruct (btoq_loop_ok (S (Z.to_nat cc)) st1 data (nb + CBHDR) (nb + CBHDR) cc [nb] fl' []) as
        (st' & cq' & bs' & fl2 & l2 & E' & Hi' & Hp' & Hf' & Hl'); try done; [|lia|].
      { right. split; [done|]. unfold lastb. cbn [List.last]. consts. lia. }
      unfold cap_at, lastb in *. cbn [List.last length] in *. consts.
      assert (Hn : Z.min cc (52 * Z.of_nat (length fl') + (nb + 64 - (nb + 12))) = n) by (unfold n; lia).
      rewrite Hn in *. rewrite E'. bind. eexists _, _, l2. split; [reflexivity|]. split; [|done].
      exists bs', fl2. cbn [app] in *. split; [|split; [done|by eapply frame_trans]].
      replace (0 + (cc - (cc - n))) with (Z.of_nat (length l2)); [done|].
      apply (f_equal length) in Hl'. rewrite length_fmap, length_take in Hl'. lia.
  - pose proof (qrep_bs _ _ _ _ _ Hq) as Hpos. pose proof (qrep_pre _ _ _ _ _ Hq) as Hpre.
    pose proof Hq as (_ & _ & H3 & _). pose proof Hh as [_ Hok]. rewrite Forall_forall in Hok.
    destruct (Hok (lastb (b :: r))) as (H0 & Hm & _); [apply elem_of_app; left; by apply lastb_in|]. consts.
    destruct (Z.eqb_spec (c_cl q) 0); [lia|]. destruct (Z.ltb_spec (c_cc q) 0); [lia|]. cbn [orb]. bind.
    destruct (btoq_loop_ok (S (Z.to_nat cc)) st data (c_cf q) (c_cl q) cc (b :: r) fl l) as
      (st' & cq' & bs' & fl2 & l2 & E' & Hi' & Hp' & Hf' & Hl'); try done; [|lia|].
    { left. rewrite <- Hlen. by destruct q. }
    unfold cap_at, room in *. consts.
    assert (Hn : Z.min cc (52 * Z.of_nat (length fl) + (lastb (b :: r) + 64 - c_cl q)) = n) by (unfold n; lia).
    rewrite Hn in *. rewrite E'. bind. eexists _, _, l2. split; [reflexivity|]. split; [|done].
    exists bs', fl2. split; [|done]. replace (c_cc q + (cc - (cc - n))) with (Z.of_nat (length (l ++ l2))); [done|].
    apply (f_equal length) in Hl'. rewrite length_fmap, length_take in Hl'. rewrite length_app. lia.
Qed.

(** A list is missing at most the beginning of its first block. *)
Lemma segs_length : forall bs s e, bs <> [] -> s <= hd 0 bs + 64 -> lastb bs + CBHDR <= e -> (tl bs = [] -> s <= e) ->
  Z.of_nat (length (segs s bs e)) = CBSIZE * Z.of_nat (length bs) - (s - (hd 0 bs + CBHDR)) - (lastb bs + 64 - e).
Proof.
  induction bs as [|b r IH]; intros s e Hne Hs He Ht; [done|]. cbn [hd tl] in *. destruct r as [|b' r].
  - specialize (Ht eq_refl). unfold lastb in *. cbn [segs length List.last] in *. rewrite length_seqZ. consts. lia.
  - change (segs s (b :: b' :: r) e) with (seqZ s (b + 64 - s) ++ segs (b' + CBHDR) (b' :: r) e).
    rewrite length_app, length_seqZ. change (lastb (b :: b' :: r)) with (lastb (b' :: r)) in *.
    rewrite Nat2Z.inj_add, IH; [|done|cbn [hd]; consts; lia|done|intros E; cbn [tl] in E; subst r; exact He].
    cbn [hd length]. consts. lia.
Qed.

Lemma capacity_total st p bs fl l : inv st p bs fl l ->
  CBSIZE * Z.of_nat (length (bs ++ fl)) < capacity st p + Z.of_nat (length l) + CBSIZE /\
  cfreecount st + Z.of_nat (length l) <= CBSIZE * Z.of_nat (length (bs ++ fl)).
Proof.
  intros Hi. pose proof Hi as (_ & [_ Hc] & Hq). destruct (capacity_inv _ _ _ _ _ Hi) as [-> Hr]. rewrite Hc, length_app. destruct bs as [|b r].
  - destruct Hq as [-> ->]. cbn [room length]. consts. lia.
  - destruct Hq as (_ & H2 & H3 & H4 & H5 & H6). rewrite H5, length_fmap, segs_length; [|done|cbn [hd]; consts; lia|lia|intros E; cbn [tl] in E; specialize (H4 E); lia].
    unfold room in *. cbn [hd length] in *. consts. lia.
Qed.

(** ** Taking the last character back *)

Lemma segs_count : forall bs s e, bs <> [] -> s < hd 0 bs + 64 -> lastb bs + CBHDR < e -> (tl bs = [] -> s < e) ->
  (length bs <= length (segs s bs e))%nat.
Proof.
  induction bs as [|b r IH]; intros s e Hne Hs He Ht; [done|]. cbn [hd tl] in *. destruct r as [|b' r].
  - specialize (Ht eq_refl). cbn [segs length]. rewrite length_seqZ. lia.
  - change (segs s (b :: b' :: r) e) with (seqZ s (b + 64 - s) ++ segs (b' + CBHDR) (b' :: r) e).
    rewrite length_app, length_seqZ. change (lastb (b :: b' :: r)) with (lastb (b' :: r)) in He.
    assert (length (b' :: r) <= length (segs (b' + CBHDR) (b' :: r) e))%nat; [|cbn [length] in *; lia].
    apply IH; [done|cbn [hd]; consts; lia|done|]. intros E. cbn [tl] in E. subst r. done.
Qed.

Lemma linked_unsnoc m m' x : forall bs h, bs <> [] -> NoDup bs -> linked m h (bs ++ [x]) ->
  (forall b, b ∈ bs -> b <> lastb bs -> m' !! b = m !! b) ->
  (exists cb, m' !! lastb bs = Some cb /\ c_next cb = NULL) -> linked m' h bs.
Proof.
  induction bs as [|b r IH]; intros h Hne Hnd H Ho (cb & Hcb & Hnx); [done|].
  destruct H as (-> & cx & Hx & H). apply NoDup_cons in Hnd as [Hb Hnd]. split; [done|]. destruct r as [|b' r].
  - exists cb. by rewrite Hnx.
  - change (lastb (b :: b' :: r)) with (lastb (b' :: r)) in *. exists cx. split.
    + rewrite Ho; [done|by left|]. intros ->. apply Hb. by apply lastb_in.
    + apply IH; try done; [|by exists cb]. intros y Hin. apply Ho. by right.
Qed.

Lemma find_prev_ok st x : forall bs fuel, bs <> [] -> NoDup (bs ++ [x]) ->
  linked (cblocks st) (hd 0 bs) (bs ++ [x]) -> (length bs <= fuel)%nat ->
  find_prev fuel st (hd 0 bs) x = Ret (lastb bs) /\
  exists cb, cblocks st !! lastb bs = Some cb /\ c_next cb = x.
Proof.
  induction bs as [|b r IH]; intros fuel Hne Hnd H Hf; [done|]. destruct fuel as [|fuel]; [cbn in Hf; lia|].
  destruct H as (_ & cb & Hcb & H). cbn [find_prev hd]. unfold getb. rewrite Hcb. bind.
  cbn [app] in Hnd. apply NoDup_cons in Hnd as [Hb Hnd]. destruct r as [|b' r].
  - destruct H as [E _]. rewrite E, Z.eqb_refl. split; [done|]. by exists cb.
  - pose proof H as [E _]. rewrite E in H |- *. change (lastb (b :: b' :: r)) with (lastb (b' :: r)).
    destruct (Z.eqb_spec b' x) as [->|Hne'].
    { exfalso. cbn [app] in Hnd. apply NoDup_cons in Hnd as [Hx _]. apply Hx, elem_of_app. right. by left. }
    apply (IH fuel); try done. cbn [length] in *. lia.
Qed.

Lemma unputc_last st p b r fl l : inv st p (b :: r) fl l -> exists l' x, l = l' ++ [x] /\
  (c_cc p = 1 -> l' = [] /\ r = []) /\ 0 < c_cc p /\
  charat st (c_cl p - 1) = Ret x.1 /\ isquote st (c_cl p - 1) = Ret x.2 /\
  (lastb (b :: r) + CBHDR < c_cl p - 1 -> c_cc p <> 1 ->
     inv st (Cl (c_cc p - 1) (c_cf p) (c_cl p - 1)) (b :: r) fl l').
Proof.
  intros Hi. pose proof Hi as (Hh & Hp & Hq). pose proof (qrep_bs _ _ _ _ _ Hq) as Hpos.
  pose proof Hq as (Q1 & Q2 & Q3 & Q4 & Q5 & Q6).
  assert (Hob : okblk (cblocks st) (lastb (b :: r))).
  { destruct Hh as [_ Hok]. rewrite Forall_forall in Hok. apply Hok, elem_of_app. left. by apply lastb_in. }
  assert (Hs : segs (c_cf p) (b :: r) (c_cl p) = segs (c_cf p) (b :: r) (c_cl p - 1) ++ [c_cl p - 1]).
  { replace (c_cl p) with (c_cl p - 1 + 1) at 1 by lia.
    rewrite segs_snoc; [done|done|lia|lia|]. intros Ht. specialize (Q4 Ht). lia. }
  rewrite Hs, fmap_app in Q5. change (cell (cblocks st) <$> [c_cl p - 1]) with [cell (cblocks st) (c_cl p - 1)] in Q5.
  exists (cell (cblocks st) <$> segs (c_cf p) (b :: r) (c_cl p - 1)), (cell (cblocks st) (c_cl p - 1)).
  split; [done|]. split; [|split; [done|split; [|split]]].
  - intros H1. pose proof (segs_count (b :: r) (c_cf p) (c_cl p) ltac:(done) ltac:(cbn [hd]; lia) ltac:(lia) Q4) as Hcnt.
    rewrite Q6, Q5, length_app, length_fmap in H1. cbn [length] in H1.
    rewrite Hs, length_app in Hcnt. cbn [length] in Hcnt. split.
    + destruct (segs (c_cf p) (b :: r) (c_cl p - 1)); [done|cbn [length] in H1; lia].
    + destruct r; [done|cbn [length] in *; lia].
  - apply (charat_ok st (lastb (b :: r))); [done|lia].
  - apply (isquote_ok st (lastb (b :: r))); [done|lia].
  - intros Hin Hcc. split; [done|]. split; [done|]. unfold qrep. cbn [c_cc c_cf c_cl]. splits; try done; try lia.
    + intros Hr. specialize (Q4 Hr). destruct (Z.eq_dec (c_cf p) (c_cl p - 1)) as [E|]; [exfalso|lia].
      subst r. cbn [segs] in Q5. rewrite <- E, Z.sub_diag in Q5. cbn in Q5. rewrite Q6, Q5 in Hcc. done.
    + rewrite Q6, Q5, length_app. cbn [length]. lia.
Qed.

Lemma seqZ_snoc a n : 0 <= n -> seqZ a (n + 1) = seqZ a n ++ [a + n].
Proof. intros H. rewrite (seqZ_split a (n + 1) n) by lia. replace (n + 1 - n) with 1 by lia. done. Qed.

(** The last block holds one character and there are others: the block goes
    back, and the list ends with the block before. *)
Lemma unputc_block st p bs x fl l l' z : inv st p (bs ++ [x]) fl l -> bs <> [] -> c_cl p = x + CBHDR + 1 ->
  l = l' ++ [z] -> exists st1 st', cbfree st x = Ret st1 /\ set_cnext st1 (lastb bs) NULL = Ret st' /\
    inv st' (Cl (c_cc p - 1) (c_cf p) (lastb bs + CBLOCK)) bs (x :: fl) l' /\ frame (bs ++ [x]) st st'.
Proof.
  intros ([Hnd Hok] & [Hl Hc] & Hq) Hne Hcl Hll. rewrite <- app_assoc in Hnd, Hok. cbn [app] in Hnd, Hok.
  pose proof (lastb_in bs Hne) as Hlast. assert (Hox : okblk (cblocks st) x /\ okblk (cblocks st) (lastb bs)).
  { rewrite Forall_forall in Hok. split; apply Hok; apply elem_of_app; [right; by left|by left]. }
  destruct Hox as [Hox Hol]. pose proof (NoDup_app bs (x :: fl)) as [Hnd' _]. specialize (Hnd' Hnd) as (N1 & N2 & N3).
  assert (Hxl : x <> lastb bs) by (intros ->; apply (N2 (lastb bs)); [done|by left]).
  apply NoDup_cons in N3 as [Nx N3].
  destruct (set_cnext_ok st x (cfreelist st) Hox) as (cb & Hcb & E & Hok1). unfold cbfree. rewrite E. bind.
  set (m1 := <[x := _]> (cblocks st)) in *. eexists _. 
  destruct (set_cnext_ok (set_free (with_blocks st m1) x (cfreecount (with_blocks st m1) + CBSIZE)) (lastb bs) NULL)
    as (cb2 & Hcb2 & E2 & Hok2); [cbn [set_free with_blocks cblocks]; by apply Hok1|].
  eexists _. split; [reflexivity|]. split; [exact E2|]. cbn [set_free with_blocks cblocks] in *.
  set (m2 := <[lastb bs := _]> m1) in *.
  assert (Hm2 : forall b, b <> x -> b <> lastb bs -> m2 !! b = cblocks st !! b).
  { intros b Hb1 Hb2. unfold m2, m1. by rewrite !lookup_insert_ne. }
  split; [|intros b Hb; apply Hm2; intros ->; apply Hb, elem_of_app; [right; by left|by left]].
  split; [|split].
  - split; [done|]. cbn [set_free with_blocks cblocks]. eapply Forall_impl; [exact Hok|]. intros b Hb. by apply Hok2, Hok1.
  - split; cbn [set_free with_blocks cblocks cfreelist cfreecount length]; [|lia]. split; [done|]. eexists.
    unfold m2, m1. rewrite lookup_insert_ne, lookup_insert_eq by done. split; [done|]. cbn [c_next].
    eapply linked_ext; [|exact Hl]. intros b Hb. apply Hm2; [by intros ->|]. intros ->. apply (N2 (lastb bs)); [done|by right].
  - cbn [set_free with_blocks cblocks]. destruct bs as [|b r]; [done|]. destruct Hq as (Q1 & Q2 & Q3 & Q4 & Q5 & Q6).
    change (b :: r ++ [x]) with ((b :: r) ++ [x]) in *. rewrite lastb_snoc in Q3.
    rewrite Hcl in Q5. rewrite segs_snoc in Q5; [|done|lia|rewrite lastb_snoc; lia|by destruct r].
    rewrite segs_newblock in Q5; [|done|intros Er; cbn [tl] in Er; rewrite Er; unfold lastb; cbn [List.last]; lia].
    rewrite fmap_app in Q5. change (cell (cblocks st) <$> seqZ (x + CBHDR) 1) with [cell (cblocks st) (x + CBHDR)] in Q5.
    rewrite Hll in Q5, Q6. apply app_inj_tail in Q5 as [Q5 _]. rewrite length_app in Q6. cbn [length] in Q6.
    unfold qrep. cbn [c_cc c_cf c_cl]. splits; try done; try (consts; lia).
    + apply (linked_unsnoc (cblocks st) _ x); try done.
      * intros y Hy Hyl. apply Hm2; [|done]. intros ->. apply (N2 x Hy). by left.
      * eexists. unfold m2. by rewrite lookup_insert_eq.
    + intros ->. unfold lastb. cbn [List.last]. consts. lia.
    + rewrite Q5. apply list_fmap_ext. intros i a Ha. apply list_elem_of_lookup_2 in Ha.
      pose proof (segs_in (b :: r) (c_cf p) (lastb (b :: r) + 64) ltac:(done) ltac:(cbn [hd]; lia) ltac:(lia)) as Hs.
      rewrite Forall_forall in Hs. destruct (Hs a Ha) as (y & Hy & Hay). consts.
      rewrite Forall_forall in Hok. destruct (Hok y ltac:(apply elem_of_app; by left)) as (_ & Hmy & _).
      destruct (in_block y a Hmy ltac:(lia)) as [Ea _]. unfold cell. rewrite Ea.
      destruct (decide (y = lastb (b :: r))) as [->|Hyl].
      * unfold m2. rewrite lookup_insert_eq. unfold m1 in Hcb2. rewrite lookup_insert_ne in Hcb2 by done. by rewrite Hcb2.
      * rewrite Hm2; [done| |done]. intros ->. apply (N2 x Hy). by left.
Qed.

Lemma unputc_ok st p bs fl l : inv st p bs fl l ->
  (l = [] -> unputc st p = Ret (-1, st, p)) /\
  (forall l' x, l = l' ++ [x] -> exists st' p', unputc st p = Ret (scval x, st', p') /\ moved bs fl st st' p' l').
Proof.
  intros Hi. pose proof Hi as (Hh & Hp & Hq). destruct bs as [|b r].
  { destruct Hq as [-> ->]. split; [done|]. intros l' x E. by destruct l'. }
  destruct (unputc_last _ _ _ _ _ _ Hi) as (l0 & x0 & -> & H1 & Hpos & Hc & Hqt & Hin).
  split; [by destruct l0|]. intros l' x E. apply app_inj_tail in E as [<- <-].
  pose proof Hq as (Q1 & Q2 & Q3 & Q4 & Q5 & Q6). unfold unputc. destruct (Z.leb_spec (c_cc p) 0); [lia|].
  rewrite Hc. bind. rewrite Hqt. bind. change (if x0.2 then Z.lor (s8 x0.1) TTY_QUOTE else s8 x0.1) with (scval x0).
  assert (Hob : okblk (cblocks st) (lastb (b :: r))).
  { destruct Hh as [_ Hok]. rewrite Forall_forall in Hok. apply Hok, elem_of_app. left. by apply lastb_in. }
  pose proof Hob as (_ & Hm & _). consts. destruct (in_block _ (c_cl p - 1) Hm ltac:(lia)) as [Eb _].
  destruct (Z.leb_spec (c_cc p - 1) 0) as [Hz|Hz].
  - destruct (H1 ltac:(lia)) as [-> ->]. change (lastb [b]) with b in *. rewrite Eb.
    destruct (cbfree_ok st b [] fl (Cl (c_cc p - 1) 0 0) []) as (st' & E & Hi' & Hf); auto.
    { apply qrep_nil. split; [f_equal; lia|done]. }
    rewrite E. bind. eexists _, _. split; [reflexivity|]. exists [], (b :: fl). split; [done|]. split; [done|].
    intros y Hy. apply Hf. intros ->%list_elem_of_singleton. apply Hy. by left.
  - rewrite Eb. destruct (Z.eqb_spec (c_cl p - 1) (lastb (b :: r) + 12)) as [He|He].
    + destruct r as [|b' r].
      { specialize (Q4 eq_refl). change (lastb [b]) with b in *. exfalso. assert (c_cf p = c_cl p - 1) by lia.
        cbn [segs] in Q5. apply (f_equal length) in Q5. rewrite length_fmap, length_seqZ in Q5. lia. }
      destruct (exists_last (l := b :: b' :: r) ltac:(done)) as (bs & x & Ebs). rewrite Ebs in *.
      assert (Hne : bs <> []) by (intros ->; done). rewrite lastb_snoc in *.
      destruct bs as [|b0 r0]; [done|]. assert (b0 = b) as -> by (by injection Ebs).
      destruct (unputc_block st p (b :: r0) x fl _ l0 x0 Hi Hne) as (st1 & st' & E1 & E2 & Hi' & Hf); [consts; lia|done|].
      assert (Hcf : cblk (c_cf p) = b).
      { destruct Hh as [_ Hok]. apply Forall_app in Hok as [Hok _]. cbn [app] in Hok. apply Forall_cons in Hok as [(_ & Hmb & _) _].
        by destruct (in_block b (c_cf p) Hmb ltac:(lia)) as [-> _]. }
      destruct (find_prev_ok st x (b :: r0) (S (Z.to_nat (c_cc p))) Hne) as (F1 & cb & F2 & F3).
      { destruct Hh as [Hnd _]. by apply NoDup_app in Hnd as (? & _ & _). }
      { done. }
      { pose proof (segs_count ((b :: r0) ++ [x]) (c_cf p) (c_cl p) ltac:(done) ltac:(cbn [hd app]; lia)
          ltac:(rewrite lastb_snoc; consts; lia) ltac:(by destruct r0)) as Hcnt.
        apply (f_equal length) in Q5. rewrite length_fmap in Q5. change ((b :: r0) ++ [x]) with (b :: r0 ++ [x]) in *.
        cbn [length] in *. rewrite length_app in Hcnt. lia. }
      rewrite Hcf. cbn [hd] in F1. rewrite F1. bind. unfold getb. rewrite F2. bind. rewrite F3, E1. bind. consts. rewrite E2. bind.
      eexists _, _. split; [reflexivity|]. exists (b :: r0), (x :: fl). split; [done|]. split; [by rewrite <- app_assoc|].
      intros y Hy. apply Hf. intros Hin'. apply Hy, elem_of_app. by left.
    + eexists _, _. split; [reflexivity|]. apply moved_refl. apply Hin; lia.
Qed.

(** ** Two lists *)

Definition inv2 (st : ttymem) (p q : clist) (bp bq fl : list Z) (lp lq : list (Z * bool)) : Prop :=
  heap (cblocks st) (bp ++ bq ++ fl) /\ pool st fl /\ qrep (cblocks st) p bp lp /\ qrep (cblocks st) q bq lq.

Lemma inv2_swap st p q bp bq fl lp lq : inv2 st p q bp bq fl lp lq -> inv2 st q p bq bp fl lq lp.
Proof.
  intros ([Hnd Hok] & Hp & H1 & H2). split; [|done].
  assert (E : bp ++ bq ++ fl ≡ₚ bq ++ bp ++ fl) by solve_Permutation.
  split; [by rewrite <- E|by rewrite <- E].
Qed.

Lemma inv2_fst st p q bp bq fl lp lq : inv2 st p q bp bq fl lp lq -> inv st p bp fl lp.
Proof.
  intros ([Hnd Hok] & Hp & H1 & H2). split; [|done].
  assert (E : bp ++ bq ++ fl ≡ₚ bq ++ (bp ++ fl)) by solve_Permutation. rewrite E in Hnd, Hok.
  apply NoDup_app in Hnd as (_ & _ & Hnd). apply Forall_app in Hok as [_ Hok]. by split.
Qed.

(** An operation on the first list leaves the second as it is. *)
Lemma inv2_step st st' p p' q bp bp' bq fl fl' lp lp' lq : inv2 st p q bp bq fl lp lq -> inv st' p' bp' fl' lp' ->
  bp' ++ fl' ≡ₚ bp ++ fl -> frame (bp ++ fl) st st' -> inv2 st' p' q bp' bq fl' lp' lq.
Proof.
  intros ([Hnd Hok] & Hp & H1 & H2) ([Hnd' Hok'] & Hp' & H1') Hperm Hf.
  assert (E : forall (a b c : list Z), a ++ b ++ c ≡ₚ b ++ (a ++ c)) by (intros; solve_Permutation).
  assert (Hsame : forall b, b ∈ bq -> cblocks st' !! b = cblocks st !! b).
  { intros b Hb. apply Hf. rewrite E in Hnd. apply NoDup_app in Hnd as (_ & Hd & _). by apply Hd. }
  split; [|split; [done|split; [done|]]].
  - split; [by rewrite E, Hperm, <- E|]. rewrite E. apply Forall_app. split; [|done].
    rewrite E in Hok. apply Forall_app in Hok as [Hok _]. rewrite Forall_forall in Hok |- *.
    intros b Hb. eapply okblk_ext; [by apply Hsame|by apply Hok].
  - eapply qrep_ext; [|exact Hsame|done]. rewrite E in Hok. by apply Forall_app in Hok as [Hok _].
Qed.

(** The same byte, and a quote bit is not lost. *)
Definition sameq (x y : Z * bool) : Prop := y.1 = x.1 /\ (x.2 = true -> y.2 = true).

Lemma cval_put x : 0 <= x.1 < 256 -> 0 <= cval x /\ u8 (cval x) = x.1 /\ has (cval x) TTY_QUOTE = x.2.
Proof.
  intros Hx. destruct x as [c q]. cbn [fst snd] in *. unfold cval. cbn [fst snd].
  assert (Hh : Z.land c TTY_QUOTE = 0).
  { change TTY_QUOTE with (2 ^ 8). apply Z.bits_inj'. intros n Hn. rewrite Z.land_spec, Z.bits_0, Z.pow2_bits_eqb by lia.
    destruct (Z.eqb_spec 8 n) as [<-|]; [|apply andb_false_r]. rewrite andb_true_r.
    destruct (Z.eq_dec c 0) as [->|]; [done|]. apply Z.bits_above_log2; [lia|]. apply Z.log2_lt_pow2; lia. }
  destruct q.
  - rewrite <- Z.lxor_lor, <- Z.add_nocarry_lxor by done. change TTY_QUOTE with 256. splits.
    + lia.
    + unfold u8. replace (c + 256) with (c + 1 * 2 ^ 8) by lia. rewrite Z.mod_add by lia. apply Z.mod_small. lia.
    + change 256 with TTY_QUOTE. rewrite Z.add_nocarry_lxor, Z.lxor_lor by done. by rewrite has_lor, orb_comm.
  - splits; [lia|by apply u8_small|]. unfold has. by rewrite Hh.
Qed.

Lemma firstk_le m p bs l : qrep m p bs l -> firstk bs p <= 52.
Proof. destruct bs as [|b r]; [cbn; lia|]. intros (_ & H & _). unfold firstk. consts. lia. Qed.

Lemma catq_loop_ok : forall lf fuel st from to bf bt fl lt, inv2 st from to bf bt fl lf lt ->
  firstk bf from <= capacity st to -> (length lf < fuel)%nat ->
  exists st' to' bt' fl' l2, catq_loop fuel st from to = Ret (st', Cl 0 NULL NULL, to') /\
    inv2 st' (Cl 0 NULL NULL) to' [] bt' fl' [] (lt ++ l2) /\ Forall2 sameq lf l2 /\
    bt' ++ fl' ≡ₚ bf ++ bt ++ fl.
Proof.
  induction lf as [|x lf IH]; intros fuel st from to bf bt fl lt Hi Hk Hf; (destruct fuel as [|fuel]; [cbn in Hf; lia|]);
    cbn [catq_loop]; pose proof (getc_ok _ _ _ _ _ (inv2_fst _ _ _ _ _ _ _ _ Hi)) as Hg.
  - rewrite Hg. bind. cbn [Z.geb Z.compare]. pose proof Hi as (_ & _ & Hq & _).
    destruct bf as [|b r]; [|pose proof (qrep_bs _ _ _ _ _ Hq); pose proof (qrep_len _ _ _ _ Hq); cbn in *; lia].
    destruct Hq as [-> _]. exists st, to, bt, fl, []. rewrite app_nil_r. by splits.
  - destruct Hg as (st1 & from1 & bf1 & fl1 & E & Hi1 & Hp1 & Hf1 & Hx & Hgv). rewrite E. bind.
    destruct (cval_put x Hx) as (V0 & V1 & V2). rewrite Z.geb_leb. destruct (Z.leb_spec 0 (cval x)); [|lia].
    pose proof (inv2_step _ _ _ _ _ _ _ _ _ _ _ _ _ Hi Hi1 Hp1 Hf1) as Hi2. apply inv2_swap in Hi2.
    pose proof (inv2_fst _ _ _ _ _ _ _ _ Hi2) as Hto.
    destruct (putc_ok st1 (cval x) to _ _ _ Hto) as [Hput _].
    destruct (capacity_inv _ _ _ _ _ Hto) as [C1 C1'].
    destruct (capacity_inv _ _ _ _ _ (inv2_fst _ _ _ _ _ _ _ _ (inv2_swap _ _ _ _ _ _ _ _ Hi))) as [C0 C0'].
    pose proof Hi as (_ & _ & Hq & _). assert (Hk1 : 1 <= firstk bf from).
    { destruct bf as [|b r]; [by destruct Hq|]. pose proof (qrep_bs _ _ _ _ _ Hq). destruct Hq as (_ & ? & _). cbn. lia. }
    pose proof (firstk_le _ _ _ _ (proj1 (proj2 (proj2 (inv2_swap _ _ _ _ _ _ _ _ Hi2))))) as Hk2.
    consts. destruct Hput as (st2 & to2 & bt2 & fl2 & q & E2 & Hq2 & Hi3 & Hp3 & Hf3 & Hc3).
    { destruct Hgv as [[G1 G2]|G1]; lia. }
    rewrite E2. bind. pose proof (inv2_step _ _ _ _ _ _ _ _ _ _ _ _ _ Hi2 Hi3 Hp3 Hf3) as Hi4. apply inv2_swap in Hi4.
    destruct (IH fuel st2 from1 to2 bf1 bt2 fl2 _ Hi4) as (st' & to' & bt' & fl' & l2 & E' & Hi' & Hsq & Hp').
    { destruct Hgv as [[G1 G2]|G1]; lia. }
    { cbn [length] in Hf. lia. }
    rewrite E'. exists st', to', bt', fl', ((u8 (cval x), q) :: l2). rewrite <- app_assoc in Hi'. splits; try done.
    + constructor; [|done]. split; [done|]. cbn [snd]. rewrite <- V2. exact Hq2.
    + rewrite Hp', Hp3. rewrite (Permutation_app_comm bt fl1), app_assoc, Hp1. solve_Permutation.
Qed.

(** ** Walking a list with nextc *)

(** The loop of ttyretype over a queue, sys/kern/tty.c: the characters it
    echoes. *)
Fixpoint nextc_walk (fuel : nat) (st : ttymem) (p : clist) (cp : Z) : outcome (list Z) :=
  match fuel with
  | O => Fault
  | S fuel =>
      r ← nextc st p cp;
      match r with
      | None => Ret []
      | Some (cp, c) => rest ← nextc_walk fuel st p cp; Ret (c :: rest)
      end
  end.

Definition ttyretype_queue (st : ttymem) (p : clist) : outcome (list Z) :=
  if c_cf p =? NULL then Ret []
  else
    c ← charat st (c_cf p);
    rest ← nextc_walk (S (Z.to_nat (c_cc p))) st p (c_cf p);
    Ret (s8 c :: rest).

Lemma walk_ok st p : c_cc p <> 0 -> forall fuel b r s, linked (cblocks st) b (b :: r) ->
  Forall (okblk (cblocks st)) (b :: r) -> NoDup (b :: r) ->
  b + CBHDR <= s < b + 64 -> lastb (b :: r) + CBHDR < c_cl p <= lastb (b :: r) + 64 -> (r = [] -> s < c_cl p) ->
  (length (segs s (b :: r) (c_cl p)) <= fuel)%nat ->
  nextc_walk fuel st p s = Ret (scval <$> (cell (cblocks st) <$> tl (segs s (b :: r) (c_cl p)))).
Proof.
  intros Hcc. induction fuel as [|fuel IH]; intros b r s Hl Hok Hnd Hs Hcl Ht Hfuel.
  { exfalso. pose proof (segs_count (b :: r) s (c_cl p) ltac:(done) ltac:(cbn [hd]; lia) ltac:(lia) Ht).
    cbn [length] in *. lia. }
  pose proof Hok as Hok0. apply Forall_cons in Hok0 as [Hb Hokr]. pose proof Hb as (Hb0 & Hm & _).
  cbn [nextc_walk]. unfold nextc. destruct (Z.eqb_spec (c_cc p) 0); [done|]. cbn [negb andb]. consts.
  rewrite (coff_in b) by (lia || done).
  assert (Hsame : s + 1 < b + 64 -> (r = [] -> s + 1 < c_cl p) ->
    segs s (b :: r) (c_cl p) = s :: segs (s + 1) (b :: r) (c_cl p)).
  { intros H1 H2. destruct r as [|b' r]; cbn [segs].
    - specialize (H2 eq_refl). rewrite (seqZ_cons s) by lia. do 2 f_equal; lia.
    - rewrite (seqZ_cons s) by lia. cbn [app]. do 3 f_equal; lia. }
  (* the next character is at [s + 1] in the same block *)
  assert (Hgo : forall (H1 : s + 1 < b + 64), (r = [] -> s + 1 < c_cl p) ->
    (r0 ← (c ← charat st (s + 1); qt ← isquote st (s + 1);
           Ret (Some (s + 1, if (qt : bool) then Z.lor (s8 c) TTY_QUOTE else s8 c)));
     match r0 with
     | None => Ret []
     | Some (cp, c) => rest ← nextc_walk fuel st p cp; Ret (c :: rest)
     end) = Ret (scval <$> (cell (cblocks st) <$> tl (segs s (b :: r) (c_cl p))))).
  { intros H1 H2. rewrite (charat_ok st b) by (consts; lia || done). bind. rewrite (isquote_ok st b) by (consts; lia || done). bind.
    pose proof (segs_count (b :: r) (s + 1) (c_cl p) ltac:(done) ltac:(cbn [hd]; lia) ltac:(consts; lia) H2) as Hcnt.
    rewrite (Hsame H1 H2) in Hfuel |- *. cbn [length tl] in *.
    rewrite (IH b r (s + 1)); try done; [|lia|lia]. bind.
    destruct (segs (s + 1) (b :: r) (c_cl p)) as [|a rest] eqn:E; [cbn in Hcnt; lia|].
    assert (a = s + 1) as ->; [|done].
    destruct r as [|b' r]; cbn [segs] in E; rewrite seqZ_cons in E; try (by injection E).
    - specialize (H2 eq_refl). lia.
    - lia. }
  destruct r as [|b' r].
  - specialize (Ht eq_refl). change (lastb [b]) with b in *. destruct (Z.eqb_spec (s + 1) (c_cl p)) as [He|He]; cbn [negb].
    + bind. cbn [segs]. replace (c_cl p - s) with 1 by lia. done.
    + destruct (Z.eqb_spec (s + 1) (b + 64)); [lia|]. bind. exact (Hgo ltac:(lia) ltac:(lia)).
  - change (lastb (b :: b' :: r)) with (lastb (b' :: r)) in *. apply NoDup_cons in Hnd as [Hnb Hnd].
    pose proof (lastb_in (b' :: r) ltac:(done)) as Hlast.
    assert (Hne : s + 1 <> c_cl p).
    { intros E. assert (Hlb : lastb (b' :: r) <> b) by (intros E'; apply Hnb; by rewrite <- E').
      rewrite Forall_forall in Hokr. destruct (Hokr _ Hlast) as (_ & Hml & _). zdiv. }
    destruct (Z.eqb_spec (s + 1) (c_cl p)); [done|]. cbn [negb].
    destruct (Z.eqb_spec (s + 1) (b + 64)) as [He|He]; [|bind; exact (Hgo ltac:(lia) ltac:(done))].
    replace (s + 1 - 64) with b by lia. destruct (linked_next _ _ _ Hl) as (cb & Hcb & Hl' & Hnx). cbn [hd] in Hnx.
    unfold getb at 1. rewrite Hcb. bind. rewrite Hnx in *.
    pose proof Hokr as Hokr0. apply Forall_cons in Hokr0 as [Hb' _].
    rewrite (charat_ok st b') by (consts; lia || done). bind. rewrite (isquote_ok st b') by (consts; lia || done). bind.
    assert (Hseg : segs s (b :: b' :: r) (c_cl p) = s :: segs (b' + 12) (b' :: r) (c_cl p)).
    { change (segs s (b :: b' :: r) (c_cl p)) with (seqZ s (b + 64 - s) ++ segs (b' + CBHDR) (b' :: r) (c_cl p)).
      replace (b + 64 - s) with 1 by lia. done. }
    rewrite Hseg in Hfuel |- *. cbn [length tl] in *.
    assert (Ht' : r = [] -> b' + 12 < c_cl p) by (intros ->; change (lastb [b']) with b' in *; lia).
    rewrite (IH b' r (b' + 12)); try done; [|lia|lia]. bind.
    pose proof (segs_count (b' :: r) (b' + 12) (c_cl p) ltac:(done) ltac:(cbn [hd]; lia) ltac:(consts; lia) Ht') as Hcnt.
    destruct (segs (b' + 12) (b' :: r) (c_cl p)) as [|a rest] eqn:E; [cbn in Hcnt; lia|].
    assert (a = b' + 12) as ->; [|done].
    destruct r as [|b'' r]; cbn [segs] in E; rewrite seqZ_cons in E; try (by injection E).
    + specialize (Ht' eq_refl). lia.
    + lia.
Qed.

(** ** Operations and what they promise *)

Inductive cop : Type :=
| Getc | Putc (c : Z) | Unputc | Qtob (cc : Z) | Btoq (data : list Z) | Ndflush (cc : Z) | Ndqb (flag : Z).

(** What an operation returns: its value and, for q_to_b, the bytes moved. *)
Definition exec (st : ttymem) (p : clist) (op : cop) : outcome (Z * list Z * ttymem * clist) :=
  match op with
  | Getc => '(c, st, p) ← getc st p; Ret (c, [], st, p)
  | Putc c => '(r, st, p) ← putc st c p; Ret (r, [], st, p)
  | Unputc => '(c, st, p) ← unputc st p; Ret (c, [], st, p)
  | Qtob cc => '(bs, st, p) ← q_to_b st p cc; Ret (Z.of_nat (length bs), bs, st, p)
  | Btoq data => '(r, st, p) ← b_to_q st data (Z.of_nat (length data)) p; Ret (r, [], st, p)
  | Ndflush cc => '(st, p) ← ndflush st p cc; Ret (0, [], st, p)
  | Ndqb flag => r ← ndqb st p flag; Ret (r, [], st, p)
  end.

(** A run: for each operation the capacity before it, and what it returned. *)
Fixpoint exec_all (st : ttymem) (p : clist) (ops : list cop)
  : outcome (list (Z * (Z * list Z)) * ttymem * clist) :=
  match ops with
  | [] => Ret ([], st, p)
  | op :: ops =>
      let cap := capacity st p in
      '(r, bs, st, p) ← exec st p op;
      '(rs, st, p) ← exec_all st p ops;
      Ret ((cap, (r, bs)) :: rs, st, p)
  end.

(** The specification: a queue of characters with quote bits, and room for
    [cap] more. *)
Definition astep (cap : Z) (l : list (Z * bool)) (op : cop) (r : Z * list Z) (l' : list (Z * bool)) : Prop :=
  match op with
  | Getc => match l with [] => r = (-1, []) /\ l' = [] | x :: t => r = (cval x, []) /\ l' = t end
  | Putc c =>
      0 < cap /\ r = (0, []) /\ (exists q, (has c TTY_QUOTE = true -> q = true) /\ l' = l ++ [(u8 c, q)]) \/
      cap = 0 /\ r = (-1, []) /\ l' = l
  | Unputc => l = [] /\ r = (-1, []) /\ l' = [] \/ exists x, l = l' ++ [x] /\ r = (scval x, [])
  | Qtob cc =>
      let bs := fst <$> take (Z.to_nat cc) l in r = (Z.of_nat (length bs), bs) /\ l' = drop (Z.to_nat cc) l
  | Btoq data =>
      let n := Z.min (Z.of_nat (length data)) cap in
      r = (Z.of_nat (length data) - n, []) /\ exists l2, fst <$> l2 = take (Z.to_nat n) data /\ l' = l ++ l2
  | Ndflush cc => r = (0, []) /\ l' = drop (Z.to_nat cc) l
  | Ndqb flag => front_ok l flag r.1 /\ r.2 = [] /\ l' = l
  end.

Inductive aruns : list (Z * bool) -> list cop -> list (Z * (Z * list Z)) -> list (Z * bool) -> Prop :=
| aruns_nil l : aruns l [] [] l
| aruns_cons l op cap r l1 ops rs l' : 0 <= cap -> astep cap l op r l1 -> aruns l1 ops rs l' ->
    aruns l (op :: ops) ((cap, r) :: rs) l'.

(** b_to_q is given bytes. *)
Definition op_ok (op : cop) : Prop :=
  match op with Btoq data => Forall (fun c => 0 <= c < 256) data | _ => True end.

Lemma exec_ok st p bs fl l op : inv st p bs fl l -> op_ok op ->
  exists r l' st' p', exec st p op = Ret (r, st', p') /\ astep (capacity st p) l op r l' /\ moved bs fl st st' p' l'.
Proof.
  intros Hi Hop. destruct op as [|c| |cc|data|cc|flag]; cbn [exec astep op_ok] in *.
  - pose proof (getc_ok _ _ _ _ _ Hi) as H. destruct l as [|x t].
    + rewrite H. bind. eexists _, [], _, _. split; [reflexivity|]. split; [done|]. by apply moved_refl.
    + destruct H as (st' & p' & bs' & fl' & E & Hi' & Hp & Hf & _). rewrite E. bind.
      eexists _, t, _, _. split; [reflexivity|]. split; [done|]. by exists bs', fl'.
  - destruct (putc_ok st c p _ _ _ Hi) as [H1 H2]. destruct (capacity_inv _ _ _ _ _ Hi) as [Hc1 Hc2]. consts.
    destruct (Z.eq_dec (capacity st p) 0) as [Hz|Hz].
    + destruct (H2 Hz) as (st' & E & Hm). rewrite E. bind. eexists _, l, _, _. split; [reflexivity|]. split; [by right|done].
    + destruct H1 as (st' & p' & bs' & fl' & q & E & Hq & Hi' & Hp & Hf & _); [lia|]. rewrite E. bind.
      eexists _, _, _, _. split; [reflexivity|]. split; [left|by exists bs', fl'].
      splits; [lia|done|]. exists q. by split.
  - destruct (unputc_ok _ _ _ _ _ Hi) as [H1 H2]. destruct (decide (l = [])) as [->|Hne].
    + rewrite (H1 eq_refl). bind. eexists _, [], _, _. split; [reflexivity|]. split; [by left|]. by apply moved_refl.
    + destruct (exists_last Hne) as (l0 & x & ->). destruct (H2 l0 x eq_refl) as (st' & p' & E & Hm).
      rewrite E. bind. eexists _, l0, _, _. split; [reflexivity|]. split; [|done]. right. by exists x.
  - destruct (q_to_b_ok st p bs fl l cc Hi) as (st' & p' & E & Hm). rewrite E. bind.
    eexists _, _, _, _. split; [reflexivity|]. split; [|exact Hm]. done.
  - destruct (b_to_q_ok st data p bs fl l Hi Hop) as (st' & p' & l2 & E & Hm & Hl). rewrite E. bind.
    eexists _, _, _, _. split; [reflexivity|]. split; [|exact Hm]. split; [done|]. by exists l2.
  - destruct (ndflush_ok st p bs fl l cc Hi) as (st' & p' & E & Hm). rewrite E. bind.
    eexists _, _, _, _. split; [reflexivity|]. split; [|exact Hm]. done.
  - destruct (ndqb_ok st p bs fl l flag Hi) as (r & E & Hr). rewrite E. bind.
    eexists _, l, _, _. split; [reflexivity|]. split; [done|]. by apply moved_refl.
Qed.

(** ** Initialisation *)

Definition cround (cfree : Z) : Z := Z.land (cfree + CROUND) (Z.lnot CROUND).

Lemma cround_mod cfree : cround cfree mod 64 = 0 /\ cfree <= cround cfree < cfree + 64.
Proof.
  unfold cround. change (Z.land (cfree + CROUND) (Z.lnot CROUND)) with (cblk (cfree + CROUND)).
  rewrite cblk_mod. change CROUND with 63. split; zdiv.
Qed.

Definition cblock_addrs (cfree nclist : Z) : list Z := (fun i => cround cfree + CBLOCK * i) <$> seqZ 0 (nclist - 1).

Lemma cinit_loop_ok b0 n : b0 mod 64 = 0 -> 0 < b0 -> forall k fuel st fl lim,
  b0 + 64 * (n - 1) < lim <= b0 + 64 * n -> 0 <= k <= n -> (Z.to_nat k < fuel)%nat ->
  Forall (okblk (cblocks st)) ((fun i => b0 + 64 * i) <$> seqZ 0 n) -> pool st fl ->
  fl ≡ₚ ((fun i => b0 + 64 * i) <$> seqZ 0 (n - k)) ->
  exists st' fl', cinit_loop fuel st (b0 + 64 * (n - k)) lim = Ret st' /\ pool st' fl' /\
    Forall (okblk (cblocks st')) ((fun i => b0 + 64 * i) <$> seqZ 0 n) /\
    fl' ≡ₚ ((fun i => b0 + 64 * i) <$> seqZ 0 n).
Proof.
  intros Hm Hb0 k. remember (Z.to_nat k) as j eqn:Ej. revert k Ej.
  induction j as [|j IH]; intros k Ej fuel st fl lim Hlim Hk Hfuel Hok Hp Hfl; (destruct fuel as [|fuel]; [lia|]); cbn [cinit_loop].
  - assert (k = 0) by lia. subst k. destruct (Z.ltb_spec (b0 + 64 * (n - 0)) lim); [lia|].
    exists st, fl. rewrite Z.sub_0_r in Hfl. by splits.
  - destruct (Z.ltb_spec (b0 + 64 * (n - k)) lim); [|lia]. set (cp := b0 + 64 * (n - k)) in *.
    assert (Hin : cp ∈ (fun i => b0 + 64 * i) <$> seqZ 0 n).
    { apply list_elem_of_fmap. exists (n - k). split; [done|]. apply elem_of_seqZ. lia. }
    pose proof Hok as Hok'. rewrite Forall_forall in Hok'. destruct (set_cnext_ok st cp (cfreelist st) (Hok' cp Hin)) as (cb & Hcb & E & Hok1).
    rewrite E. bind. set (st1 := set_free _ _ _).
    assert (Hcpfl : cp ∉ fl).
    { rewrite Hfl. intros (i & Hi & Hi')%list_elem_of_fmap. apply elem_of_seqZ in Hi'. unfold cp in Hi. lia. }
    assert (Hp1 : pool st1 (cp :: fl)).
    { destruct Hp as [Hl Hc]. split; [|cbn [st1 set_free with_blocks cfreecount length]; lia].
      split; [done|]. cbn [st1 set_free with_blocks cblocks]. eexists. rewrite lookup_insert_eq. split; [done|]. cbn [c_next].
      eapply linked_ext; [|exact Hl]. by apply insert_other. }
    replace (cp + CBLOCK) with (b0 + 64 * (n - (k - 1))) by (unfold cp; consts; lia).
    apply (IH (k - 1) ltac:(lia) fuel st1 (cp :: fl) lim); try done; try lia.
    + eapply Forall_impl; [exact Hok|]. exact Hok1.
    + replace (n - (k - 1)) with (n - k + 1) by lia. rewrite (seqZ_snoc 0) by lia. rewrite fmap_app, Hfl. cbn [fmap list_fmap].
      rewrite Z.add_0_l. apply Permutation_cons_append.
Qed.

Lemma cblock_addrs_nodup cfree nclist : NoDup (cblock_addrs cfree nclist).
Proof.
  apply NoDup_fmap_2; [|apply NoDup_seqZ]. intros x y. consts. lia.
Qed.

(** A run from the fresh system, for the concrete checks: [n] zeroed blocks
    from address 64 on. *)
Definition fresh_mem (n : nat) : ttymem :=
  Tm (list_to_map ((fun i => (64 * Z.of_nat (S i), Cb 0 0 (replicate 52 0))) <$> seq 0 n)) NULL 0 false 0.

Definition results (n : nat) (ops : list cop) : outcome (list Z) :=
  st ← cinit (fresh_mem n) 64 (Z.of_nat n + 1);
  '(rs, _, _) ← exec_all st (Cl 0 NULL NULL) ops;
  Ret (map (fun x : Z * (Z * list Z) => x.2.1) rs).

(** Fill one list with [a] and another with [b], append the second to the first
    with catq, and read the first. *)
Definition catq_run (n : nat) (a b : list Z) : outcome (list Z) :=
  st ← cinit (fresh_mem n) 64 (Z.of_nat n + 1);
  '(_, st, to) ← b_to_q st a (Z.of_nat (length a)) (Cl 0 NULL NULL);
  '(_, st, from) ← b_to_q st b (Z.of_nat (length b)) (Cl 0 NULL NULL);
  '(st, _, to) ← catq st from to;
  '(bs, _, _) ← q_to_b st to 1000;
  Ret bs.

(** ** Properties *)

(** C32: the character lists are queues.  From any state in which a header [p]
    holds [l] and the free list is sound, every sequence of getc, putc, unputc,
    q_to_b, b_to_q, ndflush and ndqb runs to its end without touching anything
    outside the list's own and the free blocks, returns what a queue of
    characters would return (putc and b_to_q refusing exactly what exceeds the
    free blocks and the rest of the last block), and neither loses nor gains a
    block.  A quote bit set by putc comes out with its character. *)
Theorem clist_refines (own : list Z) (st : ttymem) (p : clist) (l : list (Z * bool)) (ops : list cop) :
  holds own st p l -> Forall op_ok ops ->
  exists rs st' p' l', exec_all st p ops = Ret (rs, st', p') /\ aruns l ops rs l' /\
    holds own st' p' l' /\ frame own st st'.
Proof.
  revert st p l. induction ops as [|op ops IH]; intros st p l Hh Hok.
  - exists [], st, p, l. splits; [done|constructor|done|apply frame_refl].
  - apply Forall_cons in Hok as [Hop Hok]. destruct Hh as (bs & fl & Hown & Hi).
    destruct (exec_ok st p bs fl l op Hi Hop) as ([r1 r2] & l1 & st1 & p1 & E & Ha & bs1 & fl1 & Hi1 & Hp1 & Hf1).
    destruct (IH st1 p1 l1) as (rs & st' & p' & l' & E' & Hr & Hh' & Hf'); [exists bs1, fl1; by rewrite Hp1|done|].
    cbn [exec_all]. rewrite E. bind. rewrite E'. bind. eexists _, st', p', l'. split; [reflexivity|].
    split; [|split; [done|]].
    + econstructor; [|exact Ha|exact Hr]. destruct (capacity_inv _ _ _ _ _ Hi). consts. lia.
    + eapply frame_trans; [|exact Hf']. intros b Hb. apply Hf1. by rewrite Hown.
Qed.

(** catq moves a list to the end of another.  An empty destination takes
    over the source; otherwise, when the free blocks and the rest of the
    destination's last block have room for the characters in the source's first
    block (in particular when one block is free), every character arrives, in
    order and with its quote bit, and the source is empty: each block the source
    empties is there when the destination needs one. *)
Theorem catq_spec (st : ttymem) (from to : clist) (bf bt fl : list Z) (lf lt : list (Z * bool)) :
  inv2 st from to bf bt fl lf lt ->
  (lt = [] -> catq st from to = Ret (st, Cl 0 NULL NULL, from)) /\
  (lt <> [] -> firstk bf from <= capacity st to ->
     exists st' to' bt' fl' l2, catq st from to = Ret (st', Cl 0 NULL NULL, to') /\
       inv2 st' (Cl 0 NULL NULL) to' [] bt' fl' [] (lt ++ l2) /\ Forall2 sameq lf l2 /\
       bt' ++ fl' ≡ₚ bf ++ bt ++ fl).
Proof.
  intros Hi. pose proof Hi as (_ & _ & Hf & Ht). pose proof (qrep_len _ _ _ _ Ht) as Hlt.
  pose proof (qrep_len _ _ _ _ Hf) as Hlf. unfold catq. split.
  - intros ->. by rewrite Hlt.
  - intros Hne Hk. destruct (Z.eqb_spec (c_cc to) 0); [destruct lt; [done|cbn in Hlt; lia]|].
    apply (catq_loop_ok _ _ _ _ _ _ _ _ _ Hi Hk). lia.
Qed.

(** Walking a list with nextc visits every character in order, and the walk
    of ttyretype therefore echoes the whole queue; the first character is
    echoed without its quote bit (the loop starts with the byte itself, as the
    comment there says). *)
Theorem nextc_enumerates (st : ttymem) (p : clist) (bs fl : list Z) (l : list (Z * bool)) :
  inv st p bs fl l ->
  ttyretype_queue st p = Ret (match l with [] => [] | x :: t => s8 x.1 :: (scval <$> t) end).
Proof.
  intros ([Hnd Hok] & Hp & Hq). unfold ttyretype_queue. destruct bs as [|b r].
  - by destruct Hq as [-> ->].
  - pose proof (qrep_bs _ _ _ _ _ Hq) as Hpos. destruct (qrep_head _ _ _ _ _ Hq) as (t & Et).
    pose proof Hq as (Q1 & Q2 & Q3 & Q4 & Q5 & Q6). apply Forall_app in Hok as [Hok _].
    apply NoDup_app in Hnd as (Hnd & _ & _). pose proof Hok as Hok0. apply Forall_cons in Hok0 as [Hb _].
    pose proof Hb as (Hb0 & _). consts. destruct (Z.eqb_spec (c_cf p) 0); [lia|].
    rewrite (charat_ok st b) by (consts; lia || done). bind.
    rewrite (walk_ok st p ltac:(lia) _ b r); try done; [|apply (f_equal length) in Q5; rewrite length_fmap in Q5; lia].
    bind. rewrite Q5. rewrite Q5 in Et. destruct (segs (c_cf p) (b :: r) (c_cl p)); [done|]. cbn [fmap list_fmap tl] in *.
    injection Et as E _. by rewrite E.
Qed.

(** cinit frees [nclist - 1] blocks of [cfree[nclist]], whether the array is
    aligned or not: the free list then holds the distinct blocks from the first
    aligned address on, and an empty list can take [52 * (nclist - 1)]
    characters. *)
Theorem cinit_spec (m : gmap Z cblock) (cfree nclist : Z) :
  0 < cfree -> 1 <= nclist -> Forall (okblk m) (cblock_addrs cfree nclist) ->
  exists st, cinit (Tm m NULL 0 false 0) cfree nclist = Ret st /\
    holds (cblock_addrs cfree nclist) st (Cl 0 NULL NULL) [] /\
    capacity st (Cl 0 NULL NULL) = CBSIZE * (nclist - 1).
Proof.
  intros Hc Hn Hok. destruct (cround_mod cfree) as [Hm Hr]. unfold cinit. fold (cround cfree).
  destruct (cinit_loop_ok (cround cfree) (nclist - 1) Hm ltac:(lia) (nclist - 1) (S (Z.to_nat nclist))
    (Tm m NULL 0 false 0) [] (cfree + CBLOCK * (nclist - 1))) as (st & fl & E & Hp & Hok' & Hfl); try done; try (consts; lia).
  { by rewrite Z.sub_diag. }
  rewrite Z.sub_diag, Z.mul_0_r, Z.add_0_r in E. exists st. split; [done|].
  assert (Hfl' : fl ≡ₚ cblock_addrs cfree nclist) by exact Hfl. split.
  - exists [], fl. split; [done|]. split; [|by split]. split; rewrite app_nil_l.
    + rewrite Hfl'. apply cblock_addrs_nodup.
    + rewrite Hfl. exact Hok'.
  - unfold capacity. destruct Hp as [_ ->]. rewrite Hfl'. unfold cblock_addrs. rewrite length_fmap, length_seqZ.
    cbn. consts. lia.
Qed.

(** three ways characters are not what was put.  putc does not clear the
    quote bit of the place it writes to, so a character typed over an erased
    quoted one comes out quoted, and so does one that lands in a second block
    whose bits are left from an earlier use; unputc sign-extends, so the byte
    0377 is returned as -1, "empty", and a byte from 0200 on put back as it was
    returned becomes quoted; and catq drops what putc refuses when no block is
    free. *)
Theorem clist_quirks :
  results 2 [Putc 97; Putc (98 + TTY_QUOTE); Unputc; Putc 98; Getc; Getc] = Ret [0; 0; 98 + TTY_QUOTE; 0; 97; 98 + TTY_QUOTE] /\
  results 2 [Putc (97 + TTY_QUOTE); Btoq (replicate 52 98); Qtob 53; Btoq (replicate 52 99); Putc 100; Qtob 52; Getc] =
    Ret [0; 0; 53; 0; 0; 52; 100 + TTY_QUOTE] /\
  results 2 [Putc 97; Putc 0xff; Unputc; Unputc; Unputc] = Ret [0; 0; -1; 97; -1] /\
  results 2 [Putc 97; Putc 0xe9; Unputc; Putc (s8 0xe9); Getc; Getc] = Ret [0; 0; s8 0xe9; 0; 97; 0xe9 + TTY_QUOTE] /\
  catq_run 2 (replicate 52 97) (replicate 52 98) = Ret (replicate 52 97 ++ [98]) /\
  catq_run 3 (replicate 52 97) (replicate 52 98) = Ret (replicate 52 97 ++ replicate 52 98).
Proof. splits; vm_compute; reflexivity. Qed.

(** ** Witnesses *)

Lemma fresh_ok (n : nat) : (n < 100)%nat ->
  Forall (okblk (cblocks (fresh_mem n))) (cblock_addrs 64 (Z.of_nat n + 1)).
Proof.
  intros Hn. unfold cblock_addrs. apply Forall_fmap, Forall_forall. intros i Hi%elem_of_seqZ.
  change (cround 64) with 64. unfold okblk, compose. consts. split; [lia|]. split; [zdiv|].
  exists (Cb 0 0 (replicate 52 0)). split; [|split; [done|by apply Forall_replicate]].
  unfold fresh_mem. cbn [cblocks]. apply elem_of_list_to_map.
  - rewrite <- list_fmap_compose. apply NoDup_fmap_2; [|apply NoDup_seq]. intros x y. cbn. lia.
  - apply list_elem_of_fmap. exists (Z.to_nat i). split; [f_equal; lia|]. apply elem_of_seq. lia.
Qed.

Lemma cinit_spec_witness : exists st, cinit (Tm (cblocks (fresh_mem 3)) NULL 0 false 0) 64 4 = Ret st /\
  holds (cblock_addrs 64 4) st (Cl 0 NULL NULL) [] /\ capacity st (Cl 0 NULL NULL) = 156.
Proof.
  destruct (cinit_spec (cblocks (fresh_mem 3)) 64 4) as (st & E & H1 & H2); [lia|lia|apply (fresh_ok 3); lia|].
  exists st. split; [exact E|]. split; [exact H1|exact H2].
Defined.

Lemma fresh_holds : exists st, cinit (fresh_mem 3) 64 4 = Ret st /\ holds (cblock_addrs 64 4) st (Cl 0 NULL NULL) [].
Proof.
  destruct (cinit_loop_ok 64 3 eq_refl ltac:(lia) 3 5 (fresh_mem 3) [] (64 + 64 * 3)) as (st & fl & E & Hp & Hok & Hfl);
    try done; try lia.
  { apply (fresh_ok 3). lia. }
  exists st. split; [exact E|]. exists [], fl. split; [exact Hfl|]. split; [|by split]. split; rewrite app_nil_l.
  - rewrite Hfl. apply (cblock_addrs_nodup 64 4).
  - rewrite Hfl. exact Hok.
Qed.

Lemma clist_refines_witness : exists st rs st' p' l', cinit (fresh_mem 3) 64 4 = Ret st /\
  exec_all st (Cl 0 NULL NULL) [Putc 65; Btoq [66; 67]; Getc; Unputc; Ndqb 0] = Ret (rs, st', p') /\
  aruns [] [Putc 65; Btoq [66; 67]; Getc; Unputc; Ndqb 0] rs l'.
Proof.
  destruct fresh_holds as (st & E & H).
  destruct (clist_refines _ st _ _ [Putc 65; Btoq [66; 67]; Getc; Unputc; Ndqb 0] H) as (rs & st' & p' & l' & E' & Ha & _).
  - repeat constructor; lia.
  - exists st, rs, st', p', l'. split; [exact E|]. split; [exact E'|exact Ha].
Defined.

(** Two lists of one system: "AB" and "C". *)
Lemma two_lists : exists st p q bp bq fl x y z, inv2 st p q bp bq fl [x; y] [z] /\ 52 <= capacity st q.
Proof.
  destruct fresh_holds as (st & _ & bs & fl & Hperm & Hi). pose proof Hi as (_ & _ & Hq).
  assert (bs = []) as ->.
  { destruct bs as [|b r]; [done|]. pose proof (qrep_bs _ _ _ _ _ Hq). cbn in *. lia. }
  assert (Hfl : length fl = 3%nat) by (cbn [app] in Hperm; by rewrite Hperm).
  destruct (capacity_inv _ _ _ _ _ Hi) as [C0 _]. cbn [room c_cl] in C0. consts.
  destruct (putc_ok st 65 _ _ _ _ Hi) as [P1 _]. destruct P1 as (s1 & p1 & b1 & f1 & q1 & _ & _ & I1 & G1 & _ & C1); [lia|].
  destruct (putc_ok s1 66 _ _ _ _ I1) as [P2 _]. destruct P2 as (s2 & p2 & b2 & f2 & q2 & _ & _ & I2 & G2 & _ & C2); [lia|].
  destruct (capacity_inv _ _ _ _ _ I2) as [C2' R2]. consts.
  assert (Hf2 : (1 <= length f2)%nat) by lia.
  assert (Hnil : inv2 s2 (Cl 0 NULL NULL) p2 [] b2 f2 [] ([] ++ [(u8 65, q1)] ++ [(u8 66, q2)])).
  { destruct I2 as (A1 & A2 & A3). by rewrite <- app_assoc in A3. }
  pose proof (inv2_fst _ _ _ _ _ _ _ _ Hnil) as I3. destruct (capacity_inv _ _ _ _ _ I3) as [C3 R3]. consts.
  destruct (putc_ok s2 67 _ _ _ _ I3) as [P3 _].
  destruct P3 as (s3 & p3 & b3 & f3 & q3 & _ & _ & I4 & G4 & F4 & C4); [cbn [room] in *; lia|].
  pose proof (inv2_step _ _ _ _ _ _ _ _ _ _ _ _ _ Hnil I4 G4 F4) as I5. apply inv2_swap in I5.
  exists s3, p2, p3, b2, b3, f3, (u8 65, q1), (u8 66, q2), (u8 67, q3). split; [exact I5|].
  rewrite C4, C3. cbn [room]. lia.
Qed.

Lemma catq_spec_witness : exists st from to st' to' x y z l2,
  catq st from to = Ret (st', Cl 0 NULL NULL, to') /\ Forall2 sameq [x; y] l2 /\
  exists bt' fl', qrep (cblocks st') to' bt' ([z] ++ l2) /\ pool st' fl'.
Proof.
  destruct two_lists as (st & p & q & bp & bq & fl & x & y & z & Hi & Hc).
  destruct (catq_spec st p q bp bq fl [x; y] [z] Hi) as [_ H].
  destruct H as (st' & to' & bt' & fl' & l2 & E & Hi' & Hs & _).
  - discriminate.
  - pose proof (firstk_le _ _ _ _ (proj1 (proj2 (proj2 Hi)))). lia.
  - exists st, p, q, st', to', x, y, z, l2. split; [exact E|]. split; [exact Hs|].
    exists bt', fl'. destruct Hi' as (_ & H1 & _ & H2). split; [exact H2|exact H1].
Defined.

Lemma nextc_enumerates_witness : exists st p (x y : Z * bool), ttyretype_queue st p = Ret [s8 x.1; scval y].
Proof.
  destruct two_lists as (st & p & q & bp & bq & fl & x & y & z & Hi & _).
  exists st, p, x, y. exact (nextc_enumerates st p bp fl [x; y] (inv2_fst _ _ _ _ _ _ _ _ Hi)).
Defined.

End Clist.
