(* ===== verification/Descrip.v ===== *)
(** File descriptors, sys/kern/kern_descrip.c, with the places elsewhere that
    create and drop references to open files: open (vfs_syscalls.c), exec, exit
    and fork (kern_exec.c, kern_exit.c, kern_fork.c), and the passing of
    descriptors in messages (uipc_usrreq.c).

    The state is the table of open files (with the reference counts of each) and
    the current process's descriptors ([u_ofile], [u_pofile], [u_lastfile]).
    What a file's type does on close and ioctl goes through the pointers of
    [f_ops] and is a parameter; so is [vn_open].  The calls they receive, and
    the holds and releases of credentials, are recorded in a log. *)
From stdpp Require Import base numbers list gmap strings.
From Stdlib Require Import ZArith Lia.
From S2P Require Import Prelude.

Module Descrip.

(** ** Data (sys/sys/file.h, sys/sys/user.h, sys/sys/fcntl.h) *)

Definition NOFILE : Z := 64.
Definition UF_EXCLOSE : Z := 1.
Definition UF_MAPPED : Z := 2.
Definition FREAD : Z := 1.
Definition FWRITE : Z := 2.
Definition FNDELAY : Z := 0x4.
Definition O_APPEND : Z := 0x8.
Definition O_MARK : Z := 0x10.
Definition O_DEFER : Z := 0x20.
Definition FASYNC : Z := 0x40.
Definition O_SHLOCK : Z := 0x80.
Definition O_EXLOCK : Z := 0x100.
Definition FOPEN : Z := -1.
Definition FMASK : Z := Z.lor (Z.lor FREAD FWRITE) (Z.lor O_APPEND (Z.lor FASYNC FNDELAY)).
Definition FCNTLCANT : Z := Z.lor (Z.lor FREAD FWRITE) (Z.lor (Z.lor O_DEFER O_EXLOCK) (Z.lor O_MARK O_SHLOCK)).
Definition DTYPE_VNODE : Z := 1.
Definition DTYPE_SOCKET : Z := 2.
Definition SCM_RIGHTS : Z := 1.
Definition SOL_SOCKET : Z := 0xffff.

Definition ESRCH : Z := 3.
Definition EINTR : Z := 4.
Definition EBADF : Z := 9.
Definition EACCES : Z := 13.
Definition ENODEV : Z := 19.
Definition EINVAL : Z := 22.
Definition ENFILE : Z := 23.
Definition EMFILE : Z := 24.
Definition EMSGSIZE : Z := 40.
Definition ERESTART : Z := -1.

Inductive fcmd : Type := F_DUPFD | F_GETFD | F_SETFD | F_GETFL | F_SETFL | F_GETOWN | F_SETOWN | F_other.
Inductive ioc : Type := FIONBIO | FIOASYNC | TIOCGPGRP | TIOCSPGRP.

Record file := File {
  f_flag : Z; f_type : Z; f_count : Z; f_msgcount : Z; f_cred : Z; f_ops : Z; f_data : Z; f_offset : Z
}.

Inductive event : Type :=
| Crhold (cred : Z) | Crfree (cred : Z) | Fo_close (f : nat) | Fo_ioctl (f : nat) (cmd : ioc) (value : Z)
| Tablefull.

(** The header of a control message; the descriptors follow it. *)
Record cmsghdr := Cm { cmsg_len : Z; cmsg_level : Z; cmsg_type : Z }.

Record fdstate := Fd {
  files : list file;           (** [file] .. [fileNFILE] *)
  lastf : option nat;          (** where falloc looks first; NULL at first *)
  u_ofile : list (option nat);
  u_pofile : list Z;
  u_lastfile : Z;
  u_cred : Z;
  so_pgid : gmap Z Z;          (** of the sockets, by [f_data] *)
  p_dupfd : Z;
  unp_rights : Z;
  log : list event
}.

Definition with_files (st : fdstate) (l : list file) : fdstate :=
  Fd l (lastf st) (u_ofile st) (u_pofile st) (u_lastfile st) (u_cred st) (so_pgid st) (p_dupfd st) (unp_rights st) (log st).
Definition with_lastf (st : fdstate) (x : option nat) : fdstate :=
  Fd (files st) x (u_ofile st) (u_pofile st) (u_lastfile st) (u_cred st) (so_pgid st) (p_dupfd st) (unp_rights st) (log st).
Definition with_ofile (st : fdstate) (l : list (option nat)) : fdstate :=
  Fd (files st) (lastf st) l (u_pofile st) (u_lastfile st) (u_cred st) (so_pgid st) (p_dupfd st) (unp_rights st) (log st).
Definition with_pofile (st : fdstate) (l : list Z) : fdstate :=
  Fd (files st) (lastf st) (u_ofile st) l (u_lastfile st) (u_cred st) (so_pgid st) (p_dupfd st) (unp_rights st) (log st).
Definition with_lastfile (st : fdstate) (n : Z) : fdstate :=
  Fd (files st) (lastf st) (u_ofile st) (u_pofile st) n (u_cred st) (so_pgid st) (p_dupfd st) (unp_rights st) (log st).
Definition with_pgid (st : fdstate) (m : gmap Z Z) : fdstate :=
  Fd (files st) (lastf st) (u_ofile st) (u_pofile st) (u_lastfile st) (u_cred st) m (p_dupfd st) (unp_rights st) (log st).
Definition with_dupfd (st : fdstate) (n : Z) : fdstate :=
  Fd (files st) (lastf st) (u_ofile st) (u_pofile st) (u_lastfile st) (u_cred st) (so_pgid st) n (unp_rights st) (log st).
Definition with_rights (st : fdstate) (n : Z) : fdstate :=
  Fd (files st) (lastf st) (u_ofile st) (u_pofile st) (u_lastfile st) (u_cred st) (so_pgid st) (p_dupfd st) n (log st).
Definition emit (st : fdstate) (e : event) : fdstate :=
  Fd (files st) (lastf st) (u_ofile st) (u_pofile st) (u_lastfile st) (u_cred st) (so_pgid st) (p_dupfd st) (unp_rights st) (log st ++ [e]).

Definition set_flag (fp : file) (n : Z) : file :=
  File n (f_type fp) (f_count fp) (f_msgcount fp) (f_cred fp) (f_ops fp) (f_data fp) (f_offset fp).
Definition set_count (fp : file) (n : Z) : file :=
  File (f_flag fp) (f_type fp) n (f_msgcount fp) (f_cred fp) (f_ops fp) (f_data fp) (f_offset fp).
Definition set_msgcount (fp : file) (n : Z) : file :=
  File (f_flag fp) (f_type fp) (f_count fp) n (f_cred fp) (f_ops fp) (f_data fp) (f_offset fp).

Definition getf (st : fdstate) (f : nat) : outcome file :=
  match files st !! f with Some fp => Ret fp | None => Fault end.
Definition putf (st : fdstate) (f : nat) (fp : file) : fdstate := with_files st (<[f := fp]> (files st)).

(** [u.u_ofile[fd]] when [fd] is a descriptor number and it is open. *)
Definition ofile (st : fdstate) (fd : Z) : option nat :=
  if (0 <=? fd) && (fd <? NOFILE)
  then match u_ofile st !! Z.to_nat fd with Some (Some f) => Some f | _ => None end
  else None.
Definition pofile (st : fdstate) (fd : Z) : Z := default 0 (u_pofile st !! Z.to_nat fd).
Definition set_ofile (st : fdstate) (fd : Z) (v : option nat) : outcome fdstate :=
  if (0 <=? fd) && (fd <? NOFILE) then Ret (with_ofile st (<[Z.to_nat fd := v]> (u_ofile st))) else Fault.
Definition set_pofile (st : fdstate) (fd : Z) (v : Z) : outcome fdstate :=
  if (0 <=? fd) && (fd <? NOFILE) then Ret (with_pofile st (<[Z.to_nat fd := v]> (u_pofile st))) else Fault.

(** [fp->f_count++]; [f_count] is a short. *)
Definition fref (st : fdstate) (f : nat) : outcome fdstate :=
  fp ← getf st f; Ret (putf st f (set_count fp (s16 (f_count fp + 1)))).
(** [if (fd > u.u_lastfile) u.u_lastfile = fd]. *)
Definition raise_last (st : fdstate) (fd : Z) : fdstate :=
  if fd >? u_lastfile st then with_lastfile st fd else st.

Section descrip.

(** What a file's type answers: the error of a close; the error and the new
    value of an ioctl. *)
Variable fo_close : nat -> file -> Z.
Variable fo_ioctl : nat -> file -> ioc -> Z -> Z * Z.
(** The process group of a process id. *)
Variable pfind : Z -> option Z.

(** ** Operations (error, value, new state) *)

Definition result : Type := outcome (Z * Z * fdstate).

Fixpoint ufalloc_loop (fuel : nat) (st : fdstate) (want : Z) : option Z :=
  match fuel with
  | O => None
  | S fuel =>
      if want <? NOFILE then
        match ofile st want with None => Some want | Some _ => ufalloc_loop fuel st (want + 1) end
      else None
  end.

Definition ufalloc (st : fdstate) (want : Z) : result :=
  match ufalloc_loop (S (Z.to_nat (NOFILE - want))) st want with
  | Some fd => st ← set_pofile st fd 0; Ret (0, fd, raise_last st fd)
  | None => Ret (EMFILE, 0, st)
  end.

Definition ufavail (st : fdstate) : Z :=
  Z.of_nat (length (filter (fun v : option nat => v = None) (u_ofile st))).

Definition closef (st : fdstate) (f : option nat) : outcome (Z * fdstate) :=
  match f with
  | None => Ret (0, st)
  | Some f =>
      fp ← getf st f;
      if f_count fp >? 1 then Ret (0, putf st f (set_count fp (f_count fp - 1)))
      else if f_count fp <? 1 then Panic "closef: count < 1"
      else
        let error := fo_close f fp in
        let st := emit (emit st (Fo_close f)) (Crfree (f_cred fp)) in
        Ret (error, putf st f (set_count fp 0))
  end.

(** munmapfd without MMAP: the flag goes. *)
Definition munmapfd (st : fdstate) (fd : Z) : outcome fdstate :=
  set_pofile st fd (Z.land (pofile st fd) (Z.lnot UF_MAPPED)).

(** Make [fd] refer to file [f], with descriptor flags [pf]. *)
Definition install (st : fdstate) (fd : Z) (f : nat) (pf : Z) : outcome fdstate :=
  st ← set_ofile st fd (Some f);
  st ← set_pofile st fd pf;
  st ← fref st f;
  Ret (raise_last st fd).

Definition dup2 (st : fdstate) (i j : Z) : result :=
  match ofile st i with
  | None => Ret (EBADF, 0, st)
  | Some f =>
      if (j <? 0) || (j >=? NOFILE) then Ret (EBADF, 0, st)
      else if i =? j then Ret (0, j, st)
      else
        st ← match ofile st j with
             | Some g =>
                 st ← (if has (pofile st j) UF_MAPPED then munmapfd st j else Ret st);
                 '(_, st) ← closef st (Some g);
                 Ret st
             | None => Ret st
             end;
        st ← install st j f (Z.land (pofile st i) (Z.lnot UF_EXCLOSE));
        Ret (0, j, st)
  end.

(** The words [i] and [j] of the argument block; dup takes one, but passes both
    to dup2 when the first is above 077. *)
Definition dup (st : fdstate) (i j : Z) : result :=
  if negb (Z.land i (Z.lnot 0x3f) =? 0) then dup2 st (Z.land i 0x3f) j
  else
    match ofile st i with
    | None => Ret (EBADF, 0, st)
    | Some f =>
        '(error, fd, st) ← ufalloc st 0;
        if negb (error =? 0) then Ret (error, 0, st)
        else
          st ← install st fd f (Z.land (pofile st i) (Z.lnot UF_EXCLOSE));
          Ret (0, fd, st)
    end.

Definition fioctl (st : fdstate) (f : nat) (fp : file) (cmd : ioc) (value : Z) : Z * Z * fdstate :=
  let '(e, v) := fo_ioctl f fp cmd value in (e, v, emit st (Fo_ioctl f cmd value)).

Definition fset (st : fdstate) (f : nat) (bit value : Z) : outcome (Z * fdstate) :=
  fp ← getf st f;
  let fp := set_flag fp (if negb (value =? 0) then Z.lor (f_flag fp) bit else Z.land (f_flag fp) (Z.lnot bit)) in
  let '(e, _, st) := fioctl (putf st f fp) f fp (if bit =? FNDELAY then FIONBIO else FIOASYNC) value in
  Ret (e, st).

Definition fgetown (st : fdstate) (f : nat) (v0 : Z) : result :=
  fp ← getf st f;
  if f_type fp =? DTYPE_SOCKET then Ret (0, default 0 (so_pgid st !! f_data fp), st)
  else let '(e, v, st) := fioctl st f fp TIOCGPGRP v0 in Ret (e, - v, st).

Definition fsetown (st : fdstate) (f : nat) (value : Z) : outcome (Z * fdstate) :=
  fp ← getf st f;
  if f_type fp =? DTYPE_SOCKET then Ret (0, with_pgid st (<[f_data fp := value]> (so_pgid st)))
  else if value >? 0 then
    match pfind value with
    | None => Ret (ESRCH, st)
    | Some pg => let '(e, _, st) := fioctl st f fp TIOCSPGRP pg in Ret (e, st)
    end
  else let '(e, _, st) := fioctl st f fp TIOCSPGRP (- value) in Ret (e, st).

Definition setfl_flags (flag arg : Z) : Z :=
  Z.lor (Z.land flag FCNTLCANT) (Z.land (arg - FOPEN) (Z.lnot FCNTLCANT)).

Definition fcntl (st : fdstate) (fdes : Z) (cmd : fcmd) (arg : Z) : result :=
  match ofile st fdes with
  | None => Ret (EBADF, 0, st)
  | Some f =>
      let pop := pofile st fdes in
      match cmd with
      | F_DUPFD =>
          if (arg <? 0) || (arg >=? NOFILE) then Ret (EINVAL, 0, st)
          else
            '(error, i, st) ← ufalloc st arg;
            if negb (error =? 0) then Ret (error, 0, st)
            else st ← install st i f (Z.land pop (Z.lnot UF_EXCLOSE)); Ret (0, i, st)
      | F_GETFD => Ret (0, Z.land pop 1, st)
      | F_SETFD =>
          st ← set_pofile st fdes (Z.lor (Z.land pop (Z.lnot 1)) (Z.land arg 1));
          Ret (0, 0, st)
      | F_GETFL => fp ← getf st f; Ret (0, f_flag fp + FOPEN, st)
      | F_SETFL =>
          fp ← getf st f;
          let fl := setfl_flags (f_flag fp) arg in
          let st := putf st f (set_flag fp fl) in
          '(error, st) ← fset st f FNDELAY (Z.land fl FNDELAY);
          if negb (error =? 0) then Ret (error, 0, st)
          else
            fp ← getf st f;
            '(error, st) ← fset st f FASYNC (Z.land (f_flag fp) FASYNC);
            if negb (error =? 0) then '(_, st) ← fset st f FNDELAY 0; Ret (error, 0, st)
            else Ret (error, 0, st)
      | F_GETOWN => fgetown st f 0
      | F_SETOWN => '(e, st) ← fsetown st f arg; Ret (e, 0, st)
      | F_other => Ret (EINVAL, 0, st)
      end
  end.

(** [while (u.u_lastfile >= 0 && u.u_ofile[u.u_lastfile] == NULL) u.u_lastfile--]. *)
Fixpoint lower_last (fuel : nat) (st : fdstate) : fdstate :=
  match fuel with
  | O => st
  | S fuel =>
      if (u_lastfile st >=? 0) && bool_decide (ofile st (u_lastfile st) = None)
      then lower_last fuel (with_lastfile st (u_lastfile st - 1))
      else st
  end.

Definition trim_last (st : fdstate) : fdstate := lower_last (Z.to_nat (u_lastfile st + 1)) st.

Definition close (st : fdstate) (fdes : Z) : result :=
  match ofile st fdes with
  | None => Ret (EBADF, 0, st)
  | Some f =>
      st ← (if has (pofile st fdes) UF_MAPPED then munmapfd st fdes else Ret st);
      st ← set_ofile st fdes None;
      let st := trim_last st in
      st ← set_pofile st fdes 0;
      '(e, st) ← closef st (Some f);
      Ret (e, 0, st)
  end.

(** The first unused file from [from] on, below [lim] (the table's end, or
    [lastf], which falloc keeps inside the table). *)
Fixpoint find_slot (fuel : nat) (l : list file) (from lim : nat) : option nat :=
  match fuel with
  | O => None
  | S fuel =>
      if (from <? lim)%nat then
        match l !! from with
        | Some fp => if f_count fp =? 0 then Some from else find_slot fuel l (S from) lim
        | None => None
        end
      else None
  end.

Definition falloc_slot (st : fdstate) : option nat :=
  let n := length (files st) in
  let last := default 0%nat (lastf st) in
  match find_slot (S n) (files st) last n with
  | Some f => Some f
  | None => find_slot (S n) (files st) 0%nat last
  end.

(** The file and the descriptor are the two results. *)
Definition falloc (st : fdstate) : outcome (Z * nat * Z * fdstate) :=
  '(error, i, st) ← ufalloc st 0;
  if negb (error =? 0) then Ret (error, 0%nat, 0, st)
  else
    let st := with_lastf st (Some (default 0%nat (lastf st))) in
    match falloc_slot st with
    | None => Ret (ENFILE, 0%nat, 0, emit st Tablefull)
    | Some f =>
        st ← set_ofile st i (Some f);
        fp ← getf st f;
        let st := putf st f (File (f_flag fp) (f_type fp) 1 (f_msgcount fp) (u_cred st) (f_ops fp) 0 0) in
        let st := emit st (Crhold (u_cred st)) in
        Ret (0, f, i, with_lastf st (Some (S f)))
    end.

(** The open routine of /dev/fd, given the minor number. *)
Definition fdopen (st : fdstate) (minor : Z) : Z * fdstate := (ENODEV, with_dupfd st minor).

Definition dupfdopen (st : fdstate) (indx dfd mode : Z) : outcome (Z * fdstate) :=
  match ofile st dfd with
  | None => Ret (EBADF, st)
  | Some w =>
      if bool_decide (ofile st indx = Some w) then Ret (EBADF, st)
      else
        wfp ← getf st w;
        if negb (Z.lor (Z.land mode (Z.lor FREAD FWRITE)) (f_flag wfp) =? f_flag wfp) then Ret (EACCES, st)
        else st ← install st indx w (pofile st dfd); Ret (0, st)
  end.

(** ** Callers elsewhere in the kernel *)

(** open, given what [vn_open] answers: an error, or the vnode. *)
Definition open (st : fdstate) (mode : Z) (vn_open : fdstate -> Z * Z * fdstate) : result :=
  '(error, f, indx, st) ← falloc st;
  if negb (error =? 0) then Ret (error, 0, st)
  else
    let fmode := mode - FOPEN in
    let st := with_dupfd st 0xff in
    let '(error, vp, st) := vn_open st in
    if negb (error =? 0) then
      fp ← getf st f;
      let st := putf (emit st (Crfree (f_cred fp))) f (set_count fp (f_count fp - 1)) in
      '(error, st) ←
        (if (error =? ENODEV) && negb (p_dupfd st =? 0xff)
         then dupfdopen st indx (p_dupfd st) fmode else Ret (error, st));
      if error =? 0 then Ret (0, indx, st)
      else
        let error := if error =? ERESTART then EINTR else error in
        st ← set_ofile st indx None;
        Ret (error, 0, st)
    else
      fp ← getf st f;
      let st := putf st f (File (Z.land fmode FMASK) DTYPE_VNODE (f_count fp) (f_msgcount fp) (f_cred fp) 1 vp (f_offset fp)) in
      Ret (0, indx, st).

(** The loop of exec over the descriptors, from [nc] down. *)
Fixpoint exec_loop (nc : nat) (st : fdstate) : outcome fdstate :=
  match nc with
  | O => Ret st
  | S nc =>
      let fd := Z.of_nat nc in
      st ← (if has (pofile st fd) UF_EXCLOSE then
              '(_, st) ← closef st (ofile st fd);
              st ← set_ofile st fd None;
              set_pofile st fd 0
            else Ret st);
      st ← set_pofile st fd (Z.land (pofile st fd) (Z.lnot UF_MAPPED));
      exec_loop nc st
  end.

Definition exec_close (st : fdstate) : outcome fdstate :=
  st ← exec_loop (Z.to_nat (u_lastfile st + 1)) st;
  Ret (trim_last st).

(** The loop of exit over the descriptors, [n] of them from [i] on. *)
Fixpoint exit_loop (n : nat) (i : Z) (st : fdstate) : outcome fdstate :=
  match n with
  | O => Ret st
  | S n =>
      st ← match ofile st i with
           | Some f =>
               st ← set_ofile st i None;
               st ← set_pofile st i 0;
               '(_, st) ← closef st (Some f);
               Ret st
           | None => Ret st
           end;
      exit_loop n (i + 1) st
  end.

Definition exit_close (st : fdstate) : outcome fdstate := exit_loop (Z.to_nat (u_lastfile st + 1)) 0 st.

(** The loop of fork: one more reference for each open descriptor. *)
Fixpoint fork_loop (n : nat) (i : Z) (st : fdstate) : outcome fdstate :=
  match n with
  | O => Ret st
  | S n =>
      st ← match ofile st i with Some f => fref st f | None => Ret st end;
      fork_loop n (i + 1) st
  end.

Definition fork_refs (st : fdstate) : outcome fdstate := fork_loop (Z.to_nat (u_lastfile st + 1)) 0 st.

(** A file goes into a message: both counts. *)
Definition msg_ref (st : fdstate) (f : nat) : outcome fdstate :=
  fp ← getf st f;
  let fp := set_count fp (s16 (f_count fp + 1)) in
  Ret (with_rights (putf st f (set_msgcount fp (s16 (f_msgcount fp + 1)))) (unp_rights st + 1)).

Definition unp_discard (st : fdstate) (f : nat) : outcome fdstate :=
  fp ← getf st f;
  let st := with_rights (putf st f (set_msgcount fp (f_msgcount fp - 1))) (unp_rights st - 1) in
  '(_, st) ← closef st (Some f);
  Ret st.

Fixpoint internalize_loop (st : fdstate) (fds : list Z) : outcome (list nat * fdstate) :=
  match fds with
  | [] => Ret ([], st)
  | fd :: fds =>
      match ofile st fd with
      | None => Fault
      | Some f => st ← msg_ref st f; '(fs, st) ← internalize_loop st fds; Ret (f :: fs, st)
      end
  end.

(** The descriptors of a message become files: [cm] and [words] are the data of
    the control mbuf, [m_len] its length in bytes. *)
Definition unp_internalize (st : fdstate) (cm : cmsghdr) (m_len : Z) (words : list Z) : outcome (Z * list nat * fdstate) :=
  if negb (cmsg_type cm =? SCM_RIGHTS) || negb (cmsg_level cm =? SOL_SOCKET) || negb (cmsg_len cm =? m_len)
  then Ret (EINVAL, [], st)
  else
    let oldfds := Z.to_nat (u32 (cmsg_len cm - 12) / 4) in
    if (length words <? oldfds)%nat then Fault
    else
      let fds := take oldfds words in
      if forallb (fun fd => bool_decide (is_Some (ofile st fd))) fds
      then '(fs, st) ← internalize_loop st fds; Ret (0, fs, st)
      else Ret (EBADF, [], st).

Fixpoint discard_all (st : fdstate) (fs : list nat) : outcome fdstate :=
  match fs with
  | [] => Ret st
  | f :: fs => st ← unp_discard st f; discard_all st fs
  end.

Fixpoint externalize_loop (st : fdstate) (fs : list nat) : outcome (list Z * fdstate) :=
  match fs with
  | [] => Ret ([], st)
  | f :: fs =>
      '(error, fd, st) ← ufalloc st 0;
      if negb (error =? 0) then Panic "unp_externalize"
      else
        st ← set_ofile st fd (Some f);
        fp ← getf st f;
        let st := with_rights (putf st f (set_msgcount fp (f_msgcount fp - 1))) (unp_rights st - 1) in
        '(fds, st) ← externalize_loop st fs;
        Ret (fd :: fds, st)
  end.

(** The files of a message become descriptors of the receiver. *)
Definition unp_externalize (st : fdstate) (fs : list nat) : outcome (Z * list Z * fdstate) :=
  if Z.of_nat (length fs) >? ufavail st then
    st ← discard_all st fs; Ret (EMSGSIZE, [], st)
  else
    '(fds, st) ← externalize_loop st fs; Ret (0, fds, st).

(** ** Reference counts *)

(** How many descriptors refer to file [f]. *)
Fixpoint refs (f : nat) (l : list (option nat)) : Z :=
  match l with [] => 0 | v :: l => (if decide (v = Some f) then 1 else 0) + refs f l end.

Definition one (v : option nat) (f : nat) : Z := if decide (v = Some f) then 1 else 0.

Lemma refs_insert f v : forall l i w, l !! i = Some w -> refs f (<[i := v]> l) = refs f l - one w f + one v f.
Proof.
  induction l as [|x l IH]; intros [|i] w H; cbn in H; try done.
  - injection H as ->. change (<[0%nat := v]> (w :: l)) with (v :: l). cbn [refs]. unfold one. lia.
  - change (<[S i := v]> (x :: l)) with (x :: <[i := v]> l). cbn [refs]. rewrite (IH i w H). lia.
Qed.

Lemma fdrefs_nonneg f l : 0 <= refs f l.
Proof. induction l as [|x l IH]; cbn; [lia|]. destruct (decide _); lia. Qed.

Lemma refs_pos f : forall l i, l !! i = Some (Some f) -> 1 <= refs f l.
Proof.
  induction l as [|x l IH]; intros [|i] H; cbn in H; try done.
  - injection H as ->. cbn. destruct (decide _); [|done]. pose proof (fdrefs_nonneg f l). lia.
  - cbn. pose proof (IH i H). destruct (decide _); lia.
Qed.

(** Every file's count is the number of this process's descriptors, of places
    in messages, and of the references [o] held elsewhere. *)
Definition tally (o : nat -> Z) (st : fdstate) : Prop :=
  forall f fp, files st !! f = Some fp -> f_count fp = refs f (u_ofile st) + f_msgcount fp + o f.

(** The tables have their sizes, descriptors name files, [u_lastfile] bounds the
    open descriptors. *)
Definition wf (st : fdstate) : Prop :=
  length (u_ofile st) = 64%nat /\ length (u_pofile st) = 64%nat /\ -1 <= u_lastfile st < 64 /\
  (forall i f, u_ofile st !! i = Some (Some f) -> (f < length (files st))%nat) /\
  (forall i f, u_ofile st !! i = Some (Some f) -> Z.of_nat i <= u_lastfile st).

Definition inv (o : nat -> Z) (st : fdstate) : Prop :=
  wf st /\ tally o st /\ (forall f, 0 <= o f) /\
  (forall f fp, files st !! f = Some fp -> 0 <= f_msgcount fp).

(** [n] more references to one file do not overflow its counts. *)
Definition short (n : Z) (st : fdstate) : Prop :=
  forall f fp, files st !! f = Some fp -> f_count fp + n <= 32767 /\ f_msgcount fp + n <= 32767.

Lemma tally_ext o o' st : (forall f, o f = o' f) -> tally o st -> tally o' st.
Proof. intros E H f fp Hf. rewrite <- E. by apply H. Qed.

Lemma ofile_Some st fd f : ofile st fd = Some f -> 0 <= fd < 64 /\ u_ofile st !! Z.to_nat fd = Some (Some f).
Proof.
  unfold ofile, NOFILE. destruct (Z.leb_spec 0 fd); [|done]. destruct (Z.ltb_spec fd 64); [|done]. cbn [andb].
  destruct (u_ofile st !! Z.to_nat fd) as [[g|]|] eqn:E; try done. by intros [= ->].
Qed.

Lemma ofile_lookup st fd : wf st -> 0 <= fd < 64 -> u_ofile st !! Z.to_nat fd = Some (ofile st fd).
Proof.
  intros (H & _) Hfd. unfold ofile, NOFILE. destruct (Z.leb_spec 0 fd); [|lia]. destruct (Z.ltb_spec fd 64); [|lia].
  cbn [andb]. destruct (lookup_lt_is_Some_2 (u_ofile st) (Z.to_nat fd) ltac:(lia)) as [v E]. rewrite E. by destruct v.
Qed.

Lemma getf_open st fd f : wf st -> ofile st fd = Some f -> exists fp, files st !! f = Some fp /\ getf st f = Ret fp.
Proof.
  intros (_ & _ & _ & H & _) Hf. apply ofile_Some in Hf as [_ Hf].
  destruct (lookup_lt_is_Some_2 (files st) f (H _ _ Hf)) as [fp E]. exists fp. split; [done|]. unfold getf. by rewrite E.
Qed.

Lemma count_pos o st fd f fp : inv o st -> ofile st fd = Some f -> files st !! f = Some fp -> 1 <= f_count fp.
Proof.
  intros (Hwf & Ht & Ho & Hm) Hf Hfp. apply ofile_Some in Hf as [_ Hf]. rewrite (Ht f fp Hfp).
  pose proof (refs_pos f _ _ Hf). pose proof (Ho f). pose proof (Hm f fp Hfp). lia.
Qed.

(** ** Steps *)

(** What a step on the files alone keeps. *)
Definition same_fds (st st' : fdstate) : Prop :=
  u_ofile st' = u_ofile st /\ u_pofile st' = u_pofile st /\ u_lastfile st' = u_lastfile st /\
  length (files st') = length (files st) /\
  (forall f fp', files st' !! f = Some fp' -> exists fp, files st !! f = Some fp /\ f_msgcount fp' = f_msgcount fp).

Lemma same_fds_wf st st' : same_fds st st' -> wf st -> wf st'.
Proof.
  intros (E1 & E2 & E3 & E4 & _) (H1 & H2 & H3 & H4 & H5). unfold wf. rewrite E1, E2, E3, E4. tauto.
Qed.

Lemma same_fds_ofile st st' fd : same_fds st st' -> ofile st' fd = ofile st fd.
Proof. intros (E & _). unfold ofile. by rewrite E. Qed.

Lemma same_fds_refl st : same_fds st st.
Proof. unfold same_fds. splits; try done. intros f fp' H. by exists fp'. Qed.

Lemma same_fds_trans a b c : same_fds a b -> same_fds b c -> same_fds a c.
Proof.
  intros (A1 & A2 & A3 & A4 & A5) (B1 & B2 & B3 & B4 & B5). unfold same_fds. rewrite B1, B2, B3, B4. splits; try done.
  intros f fp' H. destruct (B5 f fp' H) as (fp & H1 & H2). destruct (A5 f fp H1) as (fp0 & H3 & H4).
  exists fp0. split; [done|]. by rewrite H2.
Qed.

Lemma putf_same st f fp fp' : files st !! f = Some fp -> f_msgcount fp' = f_msgcount fp -> same_fds st (putf st f fp').
Proof.
  intros Hf Hm. unfold same_fds, putf, with_files. cbn. splits; try done; [by rewrite length_insert|].
  intros g fq Hg. apply list_lookup_insert_Some in Hg as [(<- & -> & _)|[_ Hg]]; [by exists fp|by exists fq].
Qed.

(** A new count for one file. *)
Lemma putf_tally o st f fp fp' : tally o st -> files st !! f = Some fp -> f_msgcount fp' = f_msgcount fp ->
  tally (fun g => o g + (if decide (g = f) then f_count fp' - f_count fp else 0)) (putf st f fp').
Proof.
  intros Ht Hf Hm g fq Hg. unfold putf, with_files in *. cbn in *.
  apply list_lookup_insert_Some in Hg as [(<- & -> & _)|[Hne Hg]].
  - rewrite decide_True by done. rewrite Hm. specialize (Ht f fp Hf). lia.
  - rewrite decide_False by done. specialize (Ht g fq Hg). lia.
Qed.

Lemma fref_ok o st f fp : tally o st -> files st !! f = Some fp -> 0 <= f_count fp < 32767 ->
  exists st', fref st f = Ret st' /\ same_fds st st' /\ log st' = log st /\
    tally (fun g => o g + one (Some f) g) st' /\ st' = putf st f (set_count fp (f_count fp + 1)).
Proof.
  intros Ht Hf Hc. unfold fref, getf. rewrite Hf. bind. rewrite s16_small by lia.
  eexists. split; [reflexivity|]. splits; try done.
  - by eapply putf_same.
  - eapply tally_ext; [|by eapply putf_tally]. intros g. cbn [set_count f_count]. unfold one.
    destruct (decide (g = f)) as [->|Hne].
    + rewrite decide_True by done. lia.
    + rewrite decide_False by (intros [= ->]; done). lia.
Qed.

Lemma closef_ok o st f fp : tally o st -> files st !! f = Some fp -> 1 <= f_count fp ->
  exists e st', closef st (Some f) = Ret (e, st') /\ same_fds st st' /\ tally (fun g => o g - one (Some f) g) st' /\
    files st' = <[f := set_count fp (f_count fp - 1)]> (files st) /\
    (if f_count fp =? 1 then e = fo_close f fp /\ log st' = log st ++ [Fo_close f; Crfree (f_cred fp)]
     else e = 0 /\ log st' = log st).
Proof.
  intros Ht Hf Hc. unfold closef, getf. rewrite Hf. bind.
  assert (Hone : forall g, o g + (if decide (g = f) then f_count fp - 1 - f_count fp else 0) = o g - one (Some f) g).
  { intros g. unfold one. destruct (decide (g = f)) as [->|Hne]; [rewrite decide_True by done; lia|].
    rewrite decide_False by (intros [= ->]; done). lia. }
  destruct (Z.gtb_spec (f_count fp) 1) as [Hgt|Hle].
  - destruct (Z.eqb_spec (f_count fp) 1); [lia|]. eexists _, _. split; [reflexivity|]. split; [by eapply putf_same|].
    split; [|by splits]. eapply tally_ext; [|by eapply putf_tally]. intros g. cbn [set_count f_count]. apply Hone.
  - destruct (Z.ltb_spec (f_count fp) 1); [lia|]. destruct (Z.eqb_spec (f_count fp) 1); [|lia].
    eexists _, _. split; [reflexivity|]. split; [by eapply (putf_same st)|]. split; [|splits; try done].
    + eapply tally_ext; [|by eapply (putf_tally o st f fp (set_count fp 0))]. intros g. cbn [set_count f_count].
      rewrite <- Hone. replace (f_count fp - 1 - f_count fp) with (0 - f_count fp) by lia. done.
    + cbn. do 2 f_equal. lia.
    + cbn. by rewrite <- app_assoc.
Qed.

Lemma fd_index (a b : Z) : 0 <= a -> 0 <= b -> a <> b -> Z.to_nat a <> Z.to_nat b.
Proof. lia. Qed.

Lemma set_ofile_ok st fd v : 0 <= fd < 64 ->
  set_ofile st fd v = Ret (with_ofile st (<[Z.to_nat fd := v]> (u_ofile st))).
Proof.
  intros H. unfold set_ofile, NOFILE. destruct (Z.leb_spec 0 fd); [|lia]. by destruct (Z.ltb_spec fd 64); [|lia].
Qed.

Lemma set_pofile_ok st fd v : 0 <= fd < 64 ->
  set_pofile st fd v = Ret (with_pofile st (<[Z.to_nat fd := v]> (u_pofile st))).
Proof.
  intros H. unfold set_pofile, NOFILE. destruct (Z.leb_spec 0 fd); [|lia]. by destruct (Z.ltb_spec fd 64); [|lia].
Qed.

Lemma ofile_insert st fd v fd' : length (u_ofile st) = 64%nat -> 0 <= fd < 64 ->
  ofile (with_ofile st (<[Z.to_nat fd := v]> (u_ofile st))) fd' = if decide (fd' = fd) then v else ofile st fd'.
Proof.
  intros Hl Hfd. unfold ofile, NOFILE. cbn [with_ofile u_ofile]. destruct (decide (fd' = fd)) as [->|Hne].
  - destruct (Z.leb_spec 0 fd); [|lia]. destruct (Z.ltb_spec fd 64); [|lia]. cbn [andb].
    rewrite list_lookup_insert_eq by lia. by destruct v.
  - destruct (Z.leb_spec 0 fd'); [|done]. destruct (Z.ltb_spec fd' 64); [|done]. cbn [andb].
    by rewrite list_lookup_insert_ne by lia.
Qed.

Lemma pofile_insert st fd v fd' : length (u_pofile st) = 64%nat -> 0 <= fd < 64 -> 0 <= fd' ->
  pofile (with_pofile st (<[Z.to_nat fd := v]> (u_pofile st))) fd' = if decide (fd' = fd) then v else pofile st fd'.
Proof.
  intros Hl Hfd Hfd'. unfold pofile. cbn [with_pofile u_pofile]. destruct (decide (fd' = fd)) as [->|Hne].
  - by rewrite list_lookup_insert_eq by lia.
  - by rewrite list_lookup_insert_ne by lia.
Qed.

Lemma raise_last_fields st fd : files (raise_last st fd) = files st /\ u_ofile (raise_last st fd) = u_ofile st /\
  u_pofile (raise_last st fd) = u_pofile st /\ log (raise_last st fd) = log st /\
  u_lastfile (raise_last st fd) = Z.max fd (u_lastfile st).
Proof. unfold raise_last. destruct (Z.gtb_spec fd (u_lastfile st)); cbn; splits; try done; lia. Qed.

Lemma tally_ofile o st fd v old : tally o st -> u_ofile st !! fd = Some old ->
  tally (fun g => o g + one old g - one v g) (with_ofile st (<[fd := v]> (u_ofile st))).
Proof.
  intros Ht Hold g fp Hg. cbn [with_ofile files u_ofile] in *. rewrite (refs_insert g v _ _ _ Hold).
  rewrite (Ht g fp Hg). lia.
Qed.

(** Making [fd], which referred to [old], refer to [f]. *)
Lemma install_ok o st fd f pf old fp : wf st -> tally o st -> 0 <= fd < 64 ->
  u_ofile st !! Z.to_nat fd = Some old -> files st !! f = Some fp -> 0 <= f_count fp < 32767 ->
  exists st', install st fd f pf = Ret st' /\ wf st' /\ tally (fun g => o g + one old g) st' /\
    (forall fd', ofile st' fd' = if decide (fd' = fd) then Some f else ofile st fd') /\
    (forall fd', 0 <= fd' -> pofile st' fd' = if decide (fd' = fd) then pf else pofile st fd') /\
    files st' = <[f := set_count fp (f_count fp + 1)]> (files st) /\ log st' = log st /\
    u_lastfile st' = Z.max fd (u_lastfile st) /\ u_cred st' = u_cred st.
Proof.
  intros (W1 & W2 & W3 & W4 & W5) Ht Hfd Hold Hf Hc. unfold install. rewrite set_ofile_ok by done. bind.
  set (st1 := with_ofile st _). rewrite set_pofile_ok by done. bind. set (st2 := with_pofile st1 _).
  assert (Ht2 : tally (fun g => o g + one old g - one (Some f) g) st2) by (by apply (tally_ofile o st)).
  destruct (fref_ok _ st2 f fp Ht2 Hf Hc) as (st3 & E & Hs & Hlog & Ht3 & Est3). rewrite E. bind.
  destruct (raise_last_fields st3 fd) as (R1 & R2 & R3 & R4 & R5).
  destruct Hs as (S1 & S2 & S3 & S4 & _). eexists. split; [reflexivity|].
  assert (Ho : forall fd', ofile (raise_last st3 fd) fd' = if decide (fd' = fd) then Some f else ofile st fd').
  { intros fd'. unfold ofile at 1. rewrite R2, S1. change (u_ofile st2) with (u_ofile st1).
    exact (ofile_insert st fd (Some f) fd' W1 Hfd). }
  splits; try done.
  - unfold wf. rewrite R1, R2, R3, R5, S1, S2, S3, S4. cbn [st2 st1 with_pofile with_ofile u_ofile u_pofile u_lastfile files].
    rewrite !length_insert. splits; try done; try lia.
    + intros i g Hi. apply list_lookup_insert_Some in Hi as [(_ & E' & _)|[_ Hi]]; [|by eapply W4].
      injection E' as ->. by apply lookup_lt_Some in Hf.
    + intros i g Hi. apply list_lookup_insert_Some in Hi as [(<- & _ & _)|[_ Hi]]; [lia|]. pose proof (W5 _ _ Hi). lia.
  - intros g fq Hg. rewrite R1 in Hg. rewrite R2. rewrite (Ht3 g fq Hg). lia.
  - intros fd' Hfd'. unfold pofile at 1. rewrite R3, S2. exact (pofile_insert st1 fd pf fd' W2 Hfd Hfd').
  - rewrite R1, Est3. done.
  - by rewrite R4, Hlog.
  - by rewrite R5, S3.
  - unfold raise_last. rewrite Est3. by destruct (fd >? _).
Qed.

(** Closing the slot [fd], which referred to [old]. *)
Lemma clear_ok o st fd old : wf st -> tally o st -> 0 <= fd < 64 -> u_ofile st !! Z.to_nat fd = Some old ->
  exists st', set_ofile st fd None = Ret st' /\ wf st' /\ tally (fun g => o g + one old g) st' /\
    (forall fd', ofile st' fd' = if decide (fd' = fd) then None else ofile st fd') /\
    u_pofile st' = u_pofile st /\ files st' = files st /\ log st' = log st /\ u_lastfile st' = u_lastfile st.
Proof.
  intros (W1 & W2 & W3 & W4 & W5) Ht Hfd Hold. rewrite set_ofile_ok by done. eexists. split; [reflexivity|].
  splits; try done.
  - unfold wf. cbn [with_ofile u_ofile u_pofile u_lastfile files]. rewrite length_insert. splits; try done; try lia.
    + intros i g Hi. apply list_lookup_insert_Some in Hi as [(_ & E' & _)|[_ Hi]]; [done|by eapply W4].
    + intros i g Hi. apply list_lookup_insert_Some in Hi as [(_ & E' & _)|[_ Hi]]; [done|by eapply W5].
  - eapply tally_ext; [|by eapply tally_ofile]. intros g. cbn. unfold one at 2. rewrite decide_False by done. lia.
  - intros fd'. by apply ofile_insert.
Qed.

Lemma pofile_step_ok o st fd v : wf st -> tally o st -> 0 <= fd < 64 ->
  exists st', set_pofile st fd v = Ret st' /\ wf st' /\ tally o st' /\ (forall fd', ofile st' fd' = ofile st fd') /\
    (forall fd', 0 <= fd' -> pofile st' fd' = if decide (fd' = fd) then v else pofile st fd') /\
    files st' = files st /\ log st' = log st /\ u_lastfile st' = u_lastfile st /\ u_ofile st' = u_ofile st.
Proof.
  intros (W1 & W2 & W3 & W4 & W5) Ht Hfd. rewrite set_pofile_ok by done. eexists. split; [reflexivity|].
  splits; try done.
  - unfold wf. cbn [with_pofile u_ofile u_pofile u_lastfile files]. rewrite length_insert. tauto.
  - intros fd' Hfd'. by apply pofile_insert.
Qed.

(** ** Allocating a descriptor *)

Lemma ufalloc_loop_ok st : forall fuel want, 0 <= want -> (Z.to_nat (64 - want) < fuel)%nat ->
  match ufalloc_loop fuel st want with
  | Some fd => want <= fd < 64 /\ ofile st fd = None /\ (forall x, want <= x < fd -> ofile st x <> None)
  | None => forall x, want <= x < 64 -> ofile st x <> None
  end.
Proof.
  induction fuel as [|fuel IH]; intros want Hw Hf; [lia|]. cbn [ufalloc_loop]. unfold NOFILE.
  destruct (Z.ltb_spec want 64) as [Hlt|Hge]; [|intros x Hx; lia].
  destruct (ofile st want) as [f|] eqn:E; [|splits; try done; lia].
  specialize (IH (want + 1) ltac:(lia) ltac:(lia)). destruct (ufalloc_loop fuel st (want + 1)) as [fd|].
  - destruct IH as (H1 & H2 & H3). splits; try done; try lia. intros x Hx.
    destruct (Z.eq_dec x want) as [->|]; [by rewrite E|]. apply H3. lia.
  - intros x Hx. destruct (Z.eq_dec x want) as [->|]; [by rewrite E|]. apply IH. lia.
Qed.

Lemma ufalloc_ok o st want : wf st -> tally o st -> 0 <= want ->
  (exists fd st', ufalloc st want = Ret (0, fd, st') /\ want <= fd < 64 /\ ofile st fd = None /\
     (forall x, want <= x < fd -> ofile st x <> None) /\ wf st' /\ tally o st' /\
     (forall x, ofile st' x = ofile st x) /\
     (forall x, 0 <= x -> pofile st' x = if decide (x = fd) then 0 else pofile st x) /\
     files st' = files st /\ log st' = log st /\ u_lastfile st' = Z.max fd (u_lastfile st) /\
     u_ofile st' = u_ofile st) \/
  (ufalloc st want = Ret (EMFILE, 0, st) /\ forall x, want <= x < 64 -> ofile st x <> None).
Proof.
  intros Hwf Ht Hw. unfold ufalloc. pose proof (ufalloc_loop_ok st (S (Z.to_nat (64 - want))) want Hw ltac:(lia)) as H.
  change (NOFILE - want) with (64 - want). destruct (ufalloc_loop _ st want) as [fd|]; [left|by right].
  destruct H as (H1 & H2 & H3). destruct (pofile_step_ok o st fd 0 Hwf Ht ltac:(lia)) as (st1 & E & W & T & P1 & P2 & P3 & P4 & P5 & P6).
  rewrite E. bind. destruct (raise_last_fields st1 fd) as (R1 & R2 & R3 & R4 & R5).
  exists fd, (raise_last st1 fd). splits; try done; try lia.
  - destruct W as (W1 & W2 & W3 & W4 & W5). unfold wf. rewrite R1, R2, R3, R5. splits; try done; try lia.
    intros i g Hi. pose proof (W5 i g Hi). lia.
  - intros g fq Hg. rewrite R1 in Hg. rewrite R2. by apply T.
  - intros x. unfold ofile. rewrite R2. apply P1.
  - intros x Hx. unfold pofile. rewrite R3. by apply P2.
  - by rewrite R1.
  - by rewrite R4.
  - by rewrite R2.
Qed.

(** ** The system calls *)

Definition keepmsg (st st' : fdstate) : Prop :=
  forall f fp', files st' !! f = Some fp' -> exists fp, files st !! f = Some fp /\ f_msgcount fp' = f_msgcount fp.

Lemma keepmsg_eq st st' : files st' = files st -> keepmsg st st'.
Proof. intros E f fp'. rewrite E. by exists fp'. Qed.

Lemma keepmsg_count st st' f fp n : files st !! f = Some fp -> files st' = <[f := set_count fp n]> (files st) -> keepmsg st st'.
Proof.
  intros Hf E g fq. rewrite E. intros Hg. apply list_lookup_insert_Some in Hg as [(<- & <- & _)|[_ Hg]]; [by exists fp|by exists fq].
Qed.

Lemma keepmsg_trans a b c : keepmsg a b -> keepmsg b c -> keepmsg a c.
Proof.
  intros H1 H2 f fp H. destruct (H2 f fp H) as (fp1 & E1 & M1). destruct (H1 f fp1 E1) as (fp0 & E0 & M0).
  exists fp0. split; [done|congruence].
Qed.

Lemma inv_step o o' st st' : inv o st -> wf st' -> tally o' st' -> (forall f, o' f = o f) -> keepmsg st st' -> inv o st'.
Proof.
  intros (_ & _ & Ho & Hm) Hwf Ht E Hk. split; [done|]. split; [by eapply tally_ext|]. split; [done|].
  intros f fp' Hf. destruct (Hk f fp' Hf) as (fp & H1 & H2). rewrite H2. by eapply Hm.
Qed.

(** The count of a file, and the events of dropping one reference to it. *)
Definition cnt (st : fdstate) (f : nat) : Z := match files st !! f with Some fp => f_count fp | None => 0 end.
Definition drop_log (st : fdstate) (v : option nat) : list event :=
  match v with
  | Some g =>
      match files st !! g with
      | Some fp => if f_count fp =? 1 then [Fo_close g; Crfree (f_cred fp)] else []
      | None => []
      end
  | None => []
  end.

(** An optional unmapping leaves everything but one flag. *)
Lemma unmap_ok o st fd : inv o st -> 0 <= fd < 64 ->
  exists st', (if has (pofile st fd) UF_MAPPED then munmapfd st fd else Ret st) = Ret st' /\ inv o st' /\
    (forall x, ofile st' x = ofile st x) /\ (forall x, 0 <= x -> x <> fd -> pofile st' x = pofile st x) /\
    files st' = files st /\ log st' = log st /\ u_lastfile st' = u_lastfile st /\ u_ofile st' = u_ofile st.
Proof.
  intros Hi Hfd. pose proof Hi as (Hwf & Ht & _). destruct (has _ _); [|by exists st].
  unfold munmapfd. destruct (pofile_step_ok o st fd (Z.land (pofile st fd) (Z.lnot UF_MAPPED)) Hwf Ht Hfd) as
    (st' & E & W & T & P1 & P2 & P3 & P4 & P5 & P6).
  exists st'. split; [done|]. split; [|splits; try done].
  - eapply inv_step; [done|done|exact T|done|by apply keepmsg_eq].
  - intros x Hx Hne. rewrite P2 by done. by rewrite decide_False.
Qed.

Lemma cnt_bounds o st fd f : inv o st -> short 1 st -> ofile st fd = Some f ->
  exists fp, files st !! f = Some fp /\ 1 <= f_count fp < 32767.
Proof.
  intros Hi Hs Hf. pose proof Hi as (Hwf & _). destruct (getf_open st fd f Hwf Hf) as (fp & E & _).
  exists fp. split; [done|]. pose proof (count_pos o st fd f fp Hi Hf E). destruct (Hs f fp E). lia.
Qed.

Lemma dup2_ok o st i j f : inv o st -> short 1 st -> ofile st i = Some f -> 0 <= j < 64 -> i <> j ->
  exists st', dup2 st i j = Ret (0, j, st') /\ inv o st' /\
    (forall fd, ofile st' fd = if decide (fd = j) then Some f else ofile st fd) /\
    pofile st' j = Z.land (pofile st i) (Z.lnot UF_EXCLOSE) /\
    log st' = log st ++ drop_log st (ofile st j).
Proof.
  intros Hi Hs Hf Hj Hij. pose proof Hi as (Hwf & Ht & Ho & Hm). destruct (ofile_Some _ _ _ Hf) as [Hi64 _].
  destruct (cnt_bounds o st i f Hi Hs Hf) as (fp & Efp & Hc). unfold dup2. rewrite Hf. unfold NOFILE.
  destruct (Z.ltb_spec j 0); [lia|]. rewrite Z.geb_leb. destruct (Z.leb_spec 64 j); [lia|]. cbn [orb].
  destruct (Z.eqb_spec i j); [done|]. destruct (ofile st j) as [g|] eqn:Eg.
  - destruct (unmap_ok o st j Hi Hj) as (st1 & E1 & Hi1 & P1 & P2 & P3 & P4 & P5 & P6). rewrite E1. bind.
    pose proof Hi1 as (Hwf1 & Ht1 & _). destruct (cnt_bounds o st j g Hi Hs Eg) as (gp & Egp & Hgc).
    destruct (closef_ok o st1 g gp Ht1) as (e & st2 & E2 & S2 & T2 & F2 & L2); [by rewrite P3|lia|]. rewrite E2. bind.
    pose proof (same_fds_wf _ _ S2 Hwf1) as Hwf2.
    assert (Hfp2 : exists fp2, files st2 !! f = Some fp2 /\ 0 <= f_count fp2 < 32767).
    { rewrite F2, P3. destruct (decide (g = f)) as [->|Hne].
      - rewrite list_lookup_insert_eq by (by apply lookup_lt_Some in Egp). eexists. split; [done|]. cbn. lia.
      - rewrite list_lookup_insert_ne by done. exists fp. split; [done|lia]. }
    destruct Hfp2 as (fp2 & Efp2 & Hc2).
    destruct (install_ok _ st2 j f (Z.land (pofile st2 i) (Z.lnot UF_EXCLOSE)) (Some g) fp2 Hwf2 T2 Hj) as
      (st3 & E3 & W3 & T3 & O3 & Q3 & F3 & L3 & _); try done.
    { pose proof (ofile_lookup st2 j Hwf2 Hj) as El. by rewrite (same_fds_ofile _ _ _ S2), P1, Eg in El. }
    assert (Hpo : pofile st2 i = pofile st i).
    { unfold pofile. destruct S2 as (_ & -> & _). apply P2; lia. }
    rewrite Hpo in E3. rewrite Hpo in Q3. rewrite Hpo, E3. bind. exists st3. split; [done|]. splits.
    + eapply (inv_step o _ st); [done|done|exact T3| |]. { intros x. cbn. lia. }
      eapply keepmsg_trans; [by apply (keepmsg_eq st st1)|].
      eapply keepmsg_trans; [eapply (keepmsg_count st1 st2); [by rewrite P3|exact F2]|]. by eapply keepmsg_count.
    + intros fd. rewrite O3, (same_fds_ofile _ _ _ S2), P1. done.
    + rewrite Q3 by lia. by rewrite decide_True.
    + rewrite L3. cbn [drop_log]. rewrite Egp. destruct (f_count gp =? 1).
      * destruct L2 as [_ ->]. by rewrite P4.
      * destruct L2 as [_ ->]. by rewrite P4, app_nil_r.
  - bind. destruct (install_ok o st j f (Z.land (pofile st i) (Z.lnot UF_EXCLOSE)) None fp Hwf Ht Hj) as
      (st3 & E3 & W3 & T3 & O3 & Q3 & F3 & L3 & _); try done; try lia.
    { pose proof (ofile_lookup st j Hwf Hj) as El. by rewrite Eg in El. }
    rewrite E3. bind. exists st3. split; [done|]. splits.
    + eapply (inv_step o _ st); [done|done|exact T3| |by eapply keepmsg_count].
      intros x. unfold one. rewrite decide_False by done. lia.
    + done.
    + rewrite Q3 by lia. by rewrite decide_True.
    + cbn [drop_log]. by rewrite app_nil_r.
Qed.

(** dup and F_DUPFD: the least free descriptor from [want] on. *)
Definition dup_to (st : fdstate) (f : nat) (pf want : Z) : result :=
  '(error, fd, st) ← ufalloc st want;
  if negb (error =? 0) then Ret (error, 0, st) else st ← install st fd f pf; Ret (0, fd, st).

Lemma dup_to_ok o st i f pf want : inv o st -> short 1 st -> ofile st i = Some f -> 0 <= want ->
  (exists fd st', dup_to st f pf want = Ret (0, fd, st') /\ inv o st' /\ want <= fd < 64 /\ ofile st fd = None /\
     (forall x, want <= x < fd -> ofile st x <> None) /\
     (forall x, ofile st' x = if decide (x = fd) then Some f else ofile st x) /\ pofile st' fd = pf /\ log st' = log st) \/
  (dup_to st f pf want = Ret (EMFILE, 0, st) /\ forall x, want <= x < 64 -> ofile st x <> None).
Proof.
  intros Hi Hs Hf Hw. pose proof Hi as (Hwf & Ht & _). destruct (cnt_bounds o st i f Hi Hs Hf) as (fp & Efp & Hc).
  unfold dup_to. destruct (ufalloc_ok o st want Hwf Ht Hw) as [(fd & st1 & E & H1 & H2 & H3 & W & T & P1 & P2 & P3 & P4 & P5 & P6)|[E H]].
  - left. rewrite E. bind. cbn [Z.eqb negb].
    destruct (install_ok o st1 fd f pf None fp W T ltac:(lia)) as (st3 & E3 & W3 & T3 & O3 & Q3 & F3 & L3 & _).
    { pose proof (ofile_lookup st1 fd W ltac:(lia)) as El. by rewrite P1, H2 in El. }
    { by rewrite P3. }
    { lia. }
    rewrite E3. bind. exists fd, st3. splits; try done; try lia.
    + eapply (inv_step o _ st); [done|done|exact T3| |].
      { intros x. unfold one. rewrite decide_False by done. lia. }
      eapply keepmsg_trans; [by apply (keepmsg_eq st st1)|]. eapply keepmsg_count; [|exact F3]. by rewrite P3.
    + intros x. rewrite O3. by rewrite P1.
    + rewrite Q3 by lia. by rewrite decide_True.
    + by rewrite L3.
  - right. rewrite E. bind. done.
Qed.

Lemma lower_last_ok o : forall fuel st, inv o st -> u_lastfile st + 1 <= Z.of_nat fuel ->
  inv o (lower_last fuel st) /\ files (lower_last fuel st) = files st /\ log (lower_last fuel st) = log st /\
  u_ofile (lower_last fuel st) = u_ofile st /\ u_pofile (lower_last fuel st) = u_pofile st /\
  (u_lastfile (lower_last fuel st) = -1 \/ ofile st (u_lastfile (lower_last fuel st)) <> None).
Proof.
  induction fuel as [|fuel IH]; intros st Hi Hf; cbn [lower_last].
  { splits; try done. left. destruct Hi as ((_ & _ & ? & _) & _). lia. }
  rewrite Z.geb_leb. destruct (Z.leb_spec 0 (u_lastfile st)) as [Hl|Hl]; cbn [andb].
  2:{ splits; try done. left. destruct Hi as ((_ & _ & ? & _) & _). lia. }
  case_bool_decide as Hn; [|by splits; [done|done|done|done|done|right]].
  assert (Hi' : inv o (with_lastfile st (u_lastfile st - 1))).
  { pose proof Hi as ((W1 & W2 & W3 & W4 & W5) & Ht & Ho & Hm). split; [|by splits]. unfold wf. cbn. splits; try done; try lia.
    intros i f Hif. pose proof (W5 i f Hif). destruct (Z.eq_dec (Z.of_nat i) (u_lastfile st)) as [E|]; [|lia]. exfalso.
    unfold ofile, NOFILE in Hn. rewrite <- E in Hn. destruct (Z.leb_spec 0 (Z.of_nat i)); [|lia].
    destruct (Z.ltb_spec (Z.of_nat i) 64); [|lia]. cbn [andb] in Hn. rewrite Nat2Z.id, Hif in Hn. done. }
  destruct (IH _ Hi' ltac:(cbn; lia)) as (H1 & H2 & H3 & H4 & H5 & H6). splits; try done.
Qed.

Lemma trim_last_ok o st : inv o st ->
  inv o (trim_last st) /\ files (trim_last st) = files st /\ log (trim_last st) = log st /\
  u_ofile (trim_last st) = u_ofile st /\ u_pofile (trim_last st) = u_pofile st /\
  (u_lastfile (trim_last st) = -1 \/ ofile st (u_lastfile (trim_last st)) <> None).
Proof. intros Hi. apply lower_last_ok; [done|]. destruct Hi as ((_ & _ & ? & _) & _). lia. Qed.

Lemma inv_weaken o f st : wf st -> tally (fun g => o g + one (Some f) g) st -> (forall g, 0 <= o g) ->
  (forall g fp, files st !! g = Some fp -> 0 <= f_msgcount fp) -> inv (fun g => o g + one (Some f) g) st.
Proof.
  intros Hwf Ht Ho Hm. split; [done|]. split; [done|]. split; [|done]. intros g. unfold one. pose proof (Ho g).
  destruct (decide _); lia.
Qed.

Lemma close_ok o st fd f : inv o st -> ofile st fd = Some f ->
  exists e st' fp, close st fd = Ret (e, 0, st') /\ inv o st' /\ files st !! f = Some fp /\
    (forall x, ofile st' x = if decide (x = fd) then None else ofile st x) /\ pofile st' fd = 0 /\
    log st' = log st ++ drop_log st (Some f) /\ e = (if f_count fp =? 1 then fo_close f fp else 0) /\
    (u_lastfile st' = -1 \/ ofile st' (u_lastfile st') <> None).
Proof.
  intros Hi Hf. pose proof Hi as (Hwf & Ht & Ho & Hm). destruct (ofile_Some _ _ _ Hf) as [Hfd _].
  destruct (getf_open st fd f Hwf Hf) as (fp & Efp & _). pose proof (count_pos o st fd f fp Hi Hf Efp) as Hc.
  unfold close. rewrite Hf. destruct (unmap_ok o st fd Hi Hfd) as (st1 & E1 & Hi1 & P1 & P2 & P3 & P4 & P5 & P6).
  rewrite E1. bind. pose proof Hi1 as (Hwf1 & Ht1 & _ & Hm1).
  destruct (clear_ok o st1 fd (Some f) Hwf1 Ht1 Hfd) as (st2 & E2 & W2 & T2 & O2 & Q2 & F2 & L2 & U2).
  { pose proof (ofile_lookup st1 fd Hwf1 Hfd) as El. by rewrite P1, Hf in El. }
  rewrite E2. bind. assert (Hi2 : inv (fun g => o g + one (Some f) g) st2).
  { apply inv_weaken; try done. intros g gp. rewrite F2. apply Hm1. }
  destruct (trim_last_ok _ _ Hi2) as (Hi3 & F3 & L3 & O3 & Q3 & U3). set (st3 := trim_last st2) in *.
  pose proof Hi3 as (Hwf3 & Ht3 & _).
  destruct (pofile_step_ok _ st3 fd 0 Hwf3 Ht3 Hfd) as (st4 & E4 & W4 & T4 & O4 & Q4 & F4 & L4 & U4 & V4).
  rewrite E4. bind. assert (Efp4 : files st4 !! f = Some fp) by (by rewrite F4, F3, F2, P3).
  destruct (closef_ok _ st4 f fp T4 Efp4 Hc) as (e & st5 & E5 & S5 & T5 & F5 & L5). rewrite E5. bind.
  pose proof (same_fds_ofile st4 st5) as O5. pose proof S5 as (S5a & S5b & S5c & _).
  assert (Hof : forall x, ofile st5 x = if decide (x = fd) then None else ofile st x).
  { intros x. rewrite (O5 x S5), O4. unfold ofile at 1. rewrite O3. fold (ofile st2 x). rewrite O2. by rewrite P1. }
  exists e, st5, fp. split; [done|]. splits; try done.
  - eapply (inv_step o _ st); [done|by eapply same_fds_wf|exact T5|intros x; cbn; lia|].
    eapply keepmsg_trans; [apply (keepmsg_eq st st4); by rewrite F4, F3, F2, P3|]. by eapply keepmsg_count.
  - unfold pofile. rewrite S5b. fold (pofile st4 fd). rewrite Q4 by lia. by rewrite decide_True.
  - cbn [drop_log]. rewrite Efp. destruct (f_count fp =? 1).
    + destruct L5 as [_ ->]. by rewrite L4, L3, L2, P4.
    + destruct L5 as [_ ->]. by rewrite L4, L3, L2, P4, app_nil_r.
  - destruct (f_count fp =? 1); by destruct L5.
  - rewrite S5c, U4. destruct U3 as [U3|U3]; [by left|right]. rewrite (O5 _ S5), O4. unfold ofile at 1. rewrite O3. exact U3.
Qed.

(** ** Opening *)

Lemma find_slot_ok l : forall fuel from lim, (lim <= length l)%nat -> (lim - from < fuel)%nat ->
  match find_slot fuel l from lim with
  | Some f => (from <= f < lim)%nat /\ exists fp, l !! f = Some fp /\ f_count fp = 0
  | None => forall f fp, (from <= f < lim)%nat -> l !! f = Some fp -> f_count fp <> 0
  end.
Proof.
  induction fuel as [|fuel IH]; intros from lim Hlim Hf; [lia|]. cbn [find_slot].
  destruct (Nat.ltb_spec from lim) as [Hlt|Hge]; [|intros f fp Hff; lia].
  destruct (lookup_lt_is_Some_2 l from ltac:(lia)) as [fp E]. rewrite E.
  destruct (Z.eqb_spec (f_count fp) 0) as [Hz|Hz]; [split; [lia|by exists fp]|].
  specialize (IH (S from) lim Hlim ltac:(lia)). destruct (find_slot fuel l (S from) lim) as [f|].
  - destruct IH as [H1 H2]. split; [lia|done].
  - intros f fq Hff Hfq. destruct (decide (f = from)) as [->|]; [congruence|]. apply (IH f); [lia|done].
Qed.

Lemma find_slot_Some l f : forall fuel from lim, find_slot fuel l from lim = Some f ->
  exists fp, l !! f = Some fp /\ f_count fp = 0.
Proof.
  induction fuel as [|fuel IH]; intros from lim; cbn [find_slot]; [done|]. destruct (from <? lim)%nat; [|done].
  destruct (l !! from) as [fp|] eqn:E; [|done]. destruct (Z.eqb_spec (f_count fp) 0); [|apply IH].
  intros [= <-]. by exists fp.
Qed.

Lemma falloc_slot_Some st f : falloc_slot st = Some f -> exists fp, files st !! f = Some fp /\ f_count fp = 0.
Proof.
  unfold falloc_slot. destruct (find_slot _ _ _ _) eqn:E; [intros [= <-]|intros E']; by eapply find_slot_Some.
Qed.

(** falloc: the least free descriptor and an unused file, with one reference. *)
Lemma falloc_ok o st : inv o st ->
  (exists f fd st' fp fp', falloc st = Ret (0, f, fd, st') /\ inv o st' /\ 0 <= fd < 64 /\ ofile st fd = None /\
     files st !! f = Some fp /\ f_count fp = 0 /\ (forall x, 0 <= x < fd -> ofile st x <> None) /\
     (forall x, ofile st' x = if decide (x = fd) then Some f else ofile st x) /\
     files st' = <[f := fp']> (files st) /\ f_count fp' = 1 /\ f_msgcount fp' = f_msgcount fp) \/
  (exists e st', falloc st = Ret (e, 0%nat, 0, st') /\ inv o st' /\ e <> 0 /\ (forall x, ofile st' x = ofile st x)).
Proof.
  intros Hi. pose proof Hi as (Hwf & Ht & Ho & Hm). unfold falloc.
  destruct (ufalloc_ok o st 0 Hwf Ht ltac:(lia)) as [(fd & st1 & E & H1 & H2 & H3 & W & T & P1 & P2 & P3 & P4 & P5 & P6)|[E H]].
  2:{ right. rewrite E. bind. cbn [Z.eqb EMFILE negb]. by exists EMFILE, st. }
  rewrite E. bind. cbn [Z.eqb negb]. set (st2 := with_lastf st1 _).
  assert (Hi2 : inv o st2).
  { eapply (inv_step o o st); [done|exact W|exact T|done|]. by apply keepmsg_eq. }
  assert (O2 : forall x, ofile st2 x = ofile st x) by exact P1.
  destruct (falloc_slot st2) as [f|] eqn:Es.
  2:{ right. eexists ENFILE, _. split; [reflexivity|]. split; [|by split].
      destruct Hi2 as (A & B & C & D). by split. }
  destruct (falloc_slot_Some _ _ Es) as (fp & Efp & Hc0). pose proof Hi2 as (Hwf2 & Ht2 & _).
  pose proof (ofile_lookup st2 fd Hwf2 ltac:(lia)) as El. rewrite O2, H2 in El.
  rewrite set_ofile_ok by lia. bind. set (st3 := with_ofile st2 _).
  pose proof (tally_ofile o st2 _ (Some f) None Ht2 El) as T3. fold st3 in T3.
  change (getf st3 f) with (getf st2 f). unfold getf. rewrite Efp. bind.
  set (fp' := File _ _ _ _ _ _ _ _). pose proof (putf_tally _ st3 f fp fp' T3 Efp eq_refl) as T4.
  pose proof (putf_same st3 f fp fp' Efp eq_refl) as S4. left.
  eexists f, fd, _, fp, fp'. split; [reflexivity|].
  assert (Hlt : (f < length (files st2))%nat) by (by apply lookup_lt_Some in Efp).
  pose proof Hi2 as (_ & _ & _ & Hm2). splits; try done; try lia.
  - split; [|split; [|split; [done|]]].
    + destruct Hwf2 as (A1 & A2 & A3 & A4 & A5). unfold wf, st3.
      cbn [with_lastf emit putf with_files with_ofile files u_ofile u_pofile u_lastfile].
      rewrite !length_insert. splits; try done; try lia.
      * intros i g Hg. apply list_lookup_insert_Some in Hg as [(_ & [= ->] & _)|[_ Hg]]; [done|by eapply A4].
      * intros i g Hg. apply list_lookup_insert_Some in Hg as [(<- & _)|[_ Hg]]; [|by eapply A5].
        change (u_lastfile st2) with (u_lastfile st1). lia.
    + eapply tally_ext; [|exact T4]. intros g. cbn [fp' f_count]. rewrite Hc0. unfold one.
      rewrite (decide_False (P := None = Some g)) by done. destruct (decide (g = f)) as [->|Hne].
      * rewrite decide_True by done. lia.
      * rewrite decide_False by (intros [= ->]; done). lia.
    + intros g gp Hg. destruct S4 as (_ & _ & _ & _ & S4). destruct (S4 g gp Hg) as (gp0 & G1 & G2). rewrite G2. by eapply Hm2.
  - rewrite <- P3. exact Efp.
  - intros x. change (ofile (with_ofile st2 (<[Z.to_nat fd := Some f]> (u_ofile st2))) x = if decide (x = fd) then Some f else ofile st x).
    destruct Hwf2 as (A1 & _). rewrite ofile_insert by (lia || done). by rewrite O2.
  - cbn. by rewrite P3.
Qed.

Definition counts_ok (st : fdstate) : Prop := forall f fp, files st !! f = Some fp -> 0 <= f_count fp < 32767.

Lemma inv_counts o st : inv o st -> short 1 st -> counts_ok st.
Proof.
  intros (_ & Ht & Ho & Hm) Hs f fp Hf. pose proof (Ht f fp Hf). pose proof (fdrefs_nonneg f (u_ofile st)).
  pose proof (Ho f). pose proof (Hm f fp Hf). destruct (Hs f fp Hf). lia.
Qed.

(** dupfdopen replaces what [indx] refers to, without dropping a reference to
    it: the caller has. *)
Lemma dupfdopen_ok o st indx dfd mode : wf st -> tally o st -> counts_ok st -> 0 <= indx < 64 ->
  (exists e, dupfdopen st indx dfd mode = Ret (e, st) /\ e <> 0) \/
  (exists w st', dupfdopen st indx dfd mode = Ret (0, st') /\ ofile st dfd = Some w /\ wf st' /\
     tally (fun g => o g + one (ofile st indx) g) st' /\ keepmsg st st' /\
     (forall x, ofile st' x = if decide (x = indx) then Some w else ofile st x)).
Proof.
  intros Hwf Ht Hc Hx. unfold dupfdopen. destruct (ofile st dfd) as [w|] eqn:Ew; [|left; by exists EBADF].
  case_bool_decide; [left; by exists EBADF|]. destruct (getf_open st dfd w Hwf Ew) as (fp & Efp & ->). bind.
  destruct (negb _); [left; by exists EACCES|].
  destruct (install_ok o st indx w (pofile st dfd) (ofile st indx) fp Hwf Ht Hx) as
    (st3 & E3 & W3 & T3 & O3 & Q3 & F3 & L3 & _); [by apply ofile_lookup|done|by eapply Hc|].
  right. rewrite E3. bind. exists w, st3. splits; try done. by eapply keepmsg_count.
Qed.

(** What vn_open may do here: fail or give a vnode; a device of /dev/fd leaves a
    number in [p_dupfd]. *)
Definition vn_result (err vp dup : Z) (st : fdstate) : Z * Z * fdstate := (err, vp, with_dupfd st dup).

Lemma open_ok o st mode err vp dup : inv o st -> short 1 st ->
  exists e r st', open st mode (vn_result err vp dup) = Ret (e, r, st') /\ inv o st'.
Proof.
  intros Hi Hs. unfold open. pose proof (inv_counts o st Hi Hs) as Hc0.
  destruct (falloc_ok o st Hi) as [(f & fd & st1 & fp & fp' & E & Hi1 & H1 & H2 & H3 & H4 & H5 & O1 & F1 & C1 & M1)|(e & st1 & E & Hi1 & He & _)].
  2:{ rewrite E. bind. destruct (Z.eqb_spec e 0); [done|]. by exists e, 0, st1. }
  rewrite E. bind. cbn [Z.eqb negb]. unfold vn_result.
  set (st2 := with_dupfd (with_dupfd st1 255) dup). assert (Hi2 : inv o st2) by exact Hi1.
  assert (Hlt : (f < length (files st))%nat) by (by apply lookup_lt_Some in H3).
  assert (Efp2 : files st2 !! f = Some fp') by (cbn; rewrite F1; by rewrite list_lookup_insert_eq).
  assert (O2 : forall x, ofile st2 x = ofile st1 x) by done.
  destruct (Z.eqb_spec err 0) as [He0|He0]; cbn [negb].
  - unfold getf. rewrite Efp2. bind. eexists _, _, _. split; [reflexivity|]. pose proof Hi2 as (Hwf2 & Ht2 & Ho2 & Hm2).
    set (fq := File _ _ _ _ _ _ _ _). pose proof (putf_same st2 f fp' fq Efp2 eq_refl) as S.
    apply (inv_step o _ st2 _ Hi2 (same_fds_wf _ _ S Hwf2) (putf_tally o st2 f fp' fq Ht2 Efp2 eq_refl)).
    + intros g. cbn [fq f_count]. destruct (decide _); lia.
    + by destruct S as (_ & _ & _ & _ & S).
  - unfold getf. rewrite Efp2. bind. pose proof Hi2 as (Hwf2 & Ht2 & Ho2 & Hm2).
    set (fq := set_count fp' (f_count fp' - 1)). set (st3 := putf (emit st2 (Crfree (f_cred fp'))) f fq).
    pose proof (putf_same st2 f fp' fq Efp2 eq_refl) as S. pose proof (putf_tally o st2 f fp' fq Ht2 Efp2 eq_refl) as T.
    assert (T3 : tally (fun g => o g - one (Some f) g) st3).
    { eapply tally_ext; [|exact T]. intros g. cbn [fq set_count f_count]. unfold one. destruct (decide (g = f)) as [->|Hne].
      - rewrite decide_True by done. lia.
      - rewrite decide_False by (intros [= ->]; done). lia. }
    assert (W3 : wf st3) by exact (same_fds_wf _ _ S Hwf2).
    assert (O3 : forall x, ofile st3 x = if decide (x = fd) then Some f else ofile st x) by exact O1.
    assert (K3 : keepmsg st st3).
    { destruct S as (_ & _ & _ & _ & S). apply (keepmsg_trans st st2); [|exact S]. intros g gp. cbn. rewrite F1.
      intros Hg. apply list_lookup_insert_Some in Hg as [(<- & <- & _)|[_ Hg]]; [by exists fp|by exists gp]. }
    assert (Hc3 : counts_ok st3).
    { intros g gp Hg. change (files st3) with (<[f := fq]> (files st1)) in Hg. rewrite F1 in Hg.
      apply list_lookup_insert_Some in Hg as [(<- & <- & _)|[Hne Hg]]; [cbn; lia|].
      rewrite list_lookup_insert_ne in Hg by done. by apply (Hc0 g). }
    (* the slot is emptied again *)
    assert (Hfail : forall e : Z, exists (e' r : Z) (st' : fdstate),
      (st4 ← set_ofile st3 fd None; Ret (e, 0, st4)) = Ret (e', r, st') /\ inv o st').
    { intros e. destruct (clear_ok _ st3 fd (Some f) W3 T3 H1) as (st4 & E4 & W4 & T4 & _ & _ & F4 & _).
      { pose proof (ofile_lookup st3 fd W3 H1) as El. rewrite O3, decide_True in El by done. done. }
      rewrite E4. bind. exists e, 0, st4. split; [done|]. eapply (inv_step o _ st); [done|done|exact T4|intros x; cbn; lia|].
      eapply keepmsg_trans; [exact K3|]. by apply keepmsg_eq. }
    destruct ((err =? ENODEV) && negb (p_dupfd st3 =? 255)).
    + destruct (dupfdopen_ok _ st3 fd (p_dupfd st3) (mode - FOPEN) W3 T3 Hc3 H1) as [(e & Ed & He)|(w & st4 & Ed & Hw & W4 & T4 & K4 & O4)].
      * rewrite Ed. bind. destruct (Z.eqb_spec e 0); [done|]. apply Hfail.
      * rewrite Ed. bind. cbn [Z.eqb]. eexists _, _, _. split; [reflexivity|].
        eapply (inv_step o _ st); [done|done|exact T4| |by eapply keepmsg_trans].
        intros x. rewrite O3, decide_True by done. cbn. lia.
    + bind. destruct (Z.eqb_spec err 0); [done|]. apply Hfail.
Qed.

(** ** exec, exit, fork *)

Lemma clear_slot o st fd f : inv o st -> ofile st fd = Some f ->
  exists st2, (st ← set_ofile st fd None; st ← set_pofile st fd 0; '(_, st) ← closef st (Some f); Ret st) = Ret st2 /\
    inv o st2 /\ (forall x, ofile st2 x = if decide (x = fd) then None else ofile st x) /\
    u_lastfile st2 = u_lastfile st.
Proof.
  intros Hi Hf. pose proof Hi as (Hwf & Ht & Ho & Hm). destruct (ofile_Some _ _ _ Hf) as [Hfd _].
  destruct (getf_open st fd f Hwf Hf) as (fp & Efp & _). pose proof (count_pos o st fd f fp Hi Hf Efp) as Hc.
  destruct (clear_ok o st fd (Some f) Hwf Ht Hfd) as (st2 & E2 & W2 & T2 & O2 & Q2 & F2 & L2 & U2).
  { pose proof (ofile_lookup st fd Hwf Hfd) as El. by rewrite Hf in El. }
  rewrite E2. bind. destruct (pofile_step_ok _ st2 fd 0 W2 T2 Hfd) as (st4 & E4 & W4 & T4 & O4 & Q4 & F4 & L4 & U4 & V4).
  rewrite E4. bind. destruct (closef_ok _ st4 f fp T4) as (e & st5 & E5 & S5 & T5 & F5 & L5); [by rewrite F4, F2|done|].
  rewrite E5. bind. exists st5. split; [done|]. splits.
  - eapply (inv_step o _ st); [done|by eapply same_fds_wf|exact T5|intros x; cbn; lia|].
    eapply keepmsg_trans; [apply (keepmsg_eq st st4); by rewrite F4, F2|]. eapply keepmsg_count; [|exact F5]. by rewrite F4, F2.
  - intros x. rewrite (same_fds_ofile _ _ x S5), O4. apply O2.
  - destruct S5 as (_ & _ & S5 & _). by rewrite S5, U4, U2.
Qed.

Lemma exit_loop_ok o : forall n i st, inv o st -> 0 <= i ->
  exists st', exit_loop n i st = Ret st' /\ inv o st' /\ u_lastfile st' = u_lastfile st /\
    forall x, ofile st' x = if decide (i <= x < i + Z.of_nat n) then None else ofile st x.
Proof.
  induction n as [|n IH]; intros i st Hi Hi0; cbn [exit_loop].
  - exists st. splits; try done. intros x. rewrite decide_False by lia. done.
  - assert (Hstep : exists st1, match ofile st i with
        | Some f => st ← set_ofile st i None; st ← set_pofile st i 0; '(_, st) ← closef st (Some f); Ret st
        | None => Ret st end = Ret st1 /\ inv o st1 /\ u_lastfile st1 = u_lastfile st /\
      forall x, ofile st1 x = if decide (x = i) then None else ofile st x).
    { destruct (ofile st i) as [f|] eqn:Ef.
      - destruct (clear_slot o st i f Hi Ef) as (st1 & E1 & Hi1 & O1 & U1). by exists st1.
      - exists st. splits; try done. intros x. destruct (decide (x = i)) as [->|]; done. }
    destruct Hstep as (st1 & E1 & Hi1 & U1 & O1). rewrite E1. bind.
    destruct (IH (i + 1) st1 Hi1 ltac:(lia)) as (st' & E & Hi' & U' & O'). exists st'. split; [done|].
    split; [done|]. split; [by rewrite U'|]. intros x. rewrite O', O1.
    destruct (decide (i + 1 <= x < i + 1 + Z.of_nat n)); [by rewrite decide_True by lia|].
    destruct (decide (x = i)) as [->|]; [by rewrite decide_True by lia|]. by rewrite decide_False by lia.
Qed.

Lemma exec_loop_ok o : forall n st, inv o st -> Z.of_nat n <= 64 ->
  exists st', exec_loop n st = Ret st' /\ inv o st' /\ u_lastfile st' = u_lastfile st.
Proof.
  induction n as [|n IH]; intros st Hi Hn; cbn [exec_loop]; [by exists st|]. set (fd := Z.of_nat n).
  assert (Hfd : 0 <= fd < 64) by lia.
  assert (Hstep : exists st1, (if has (pofile st fd) UF_EXCLOSE then
      '(_, st) ← closef st (ofile st fd); st ← set_ofile st fd None; set_pofile st fd 0 else Ret st) = Ret st1 /\
    inv o st1 /\ u_lastfile st1 = u_lastfile st).
  { destruct (has _ _); [|by exists st]. pose proof Hi as (Hwf & Ht & Ho & Hm). pose proof (ofile_lookup st fd Hwf Hfd) as El.
    assert (Hcl : exists e st2, closef st (ofile st fd) = Ret (e, st2) /\ same_fds st st2 /\
      tally (fun g => o g - one (ofile st fd) g) st2 /\ keepmsg st st2).
    { destruct (ofile st fd) as [f|] eqn:Ef.
      - destruct (getf_open st fd f Hwf Ef) as (fp & Efp & _). pose proof (count_pos o st fd f fp Hi Ef Efp) as Hc.
        destruct (closef_ok o st f fp Ht Efp Hc) as (e & st2 & E2 & S2 & T2 & F2 & _). exists e, st2. splits; try done.
        by eapply keepmsg_count.
      - exists 0, st. split; [done|]. split; [apply same_fds_refl|]. split; [|by apply keepmsg_eq].
        eapply tally_ext; [|exact Ht]. intros g. unfold one. rewrite decide_False by done. lia. }
    destruct Hcl as (e & st2 & E2 & S2 & T2 & K2). rewrite E2. bind. pose proof (same_fds_wf _ _ S2 Hwf) as W2.
    destruct (clear_ok _ st2 fd (ofile st fd) W2 T2 Hfd) as (st3 & E3 & W3 & T3 & O3 & Q3 & F3 & L3 & U3).
    { rewrite <- (same_fds_ofile _ _ fd S2). by apply ofile_lookup. }
    rewrite E3. bind. destruct (pofile_step_ok _ st3 fd 0 W3 T3 Hfd) as (st4 & E4 & W4 & T4 & O4 & Q4 & F4 & L4 & U4 & V4).
    rewrite E4. exists st4. split; [done|]. split.
    - eapply (inv_step o _ st); [done|done|exact T4|intros x; cbn; lia|]. eapply keepmsg_trans; [exact K2|].
      apply keepmsg_eq. by rewrite F4.
    - destruct S2 as (_ & _ & S2 & _). by rewrite U4, U3. }
  destruct Hstep as (st1 & E1 & Hi1 & U1). rewrite E1. bind. pose proof Hi1 as (Hwf1 & Ht1 & _).
  destruct (pofile_step_ok _ st1 fd (Z.land (pofile st1 fd) (Z.lnot UF_MAPPED)) Hwf1 Ht1 Hfd) as
    (st4 & E4 & W4 & T4 & O4 & Q4 & F4 & L4 & U4 & V4).
  rewrite E4. bind. destruct (IH st4) as (st' & E' & Hi' & U').
  - eapply (inv_step o _ st1); [done|done|exact T4|done|by apply keepmsg_eq].
  - lia.
  - exists st'. split; [done|]. split; [done|]. by rewrite U', U4.
Qed.

(** The references of [n] descriptors from [i] on. *)
Fixpoint range_refs (st : fdstate) (n : nat) (i : Z) (f : nat) : Z :=
  match n with O => 0 | S n => one (ofile st i) f + range_refs st n (i + 1) f end.

Lemma range_refs_ext st st' f : (forall x, ofile st' x = ofile st x) -> forall n i, range_refs st' n i f = range_refs st n i f.
Proof. intros E. induction n as [|n IH]; intros i; cbn; [done|]. by rewrite E, IH. Qed.

Lemma range_refs_nonneg st f : forall n i, 0 <= range_refs st n i f.
Proof. induction n as [|n IH]; intros i; cbn; [lia|]. specialize (IH (i + 1)). unfold one. destruct (decide _); lia. Qed.

Lemma refs_drop st f : wf st -> forall n i, 0 <= i -> i + Z.of_nat n = 64 ->
  refs f (drop (Z.to_nat i) (u_ofile st)) = range_refs st n i f.
Proof.
  intros Hwf. pose proof Hwf as (W1 & _). induction n as [|n IH]; intros i Hi Hn; cbn [range_refs].
  - rewrite drop_ge by lia. done.
  - rewrite (drop_S _ (ofile st i) (Z.to_nat i)) by (apply ofile_lookup; [done|lia]).
    cbn [refs]. replace (S (Z.to_nat i)) with (Z.to_nat (i + 1)) by lia. rewrite IH by lia. unfold one. done.
Qed.

Lemma range_refs_app st f : forall a b i, range_refs st (a + b) i f = range_refs st a i f + range_refs st b (i + Z.of_nat a) f.
Proof.
  induction a as [|a IH]; intros b i; cbn [range_refs Nat.add]; [by rewrite Z.add_0_r|].
  rewrite IH. replace (i + 1 + Z.of_nat a) with (i + Z.of_nat (S a)) by lia. lia.
Qed.

Lemma range_refs_zero st f : forall n i, (forall x, i <= x -> ofile st x = None) -> range_refs st n i f = 0.
Proof.
  induction n as [|n IH]; intros i H; cbn [range_refs]; [done|]. rewrite IH by (intros x Hx; apply H; lia).
  rewrite H by lia. unfold one. by rewrite decide_False.
Qed.

(** The descriptors up to [u_lastfile] hold all the references. *)
Lemma refs_upto st f : wf st -> refs f (u_ofile st) = range_refs st (Z.to_nat (u_lastfile st + 1)) 0 f.
Proof.
  intros Hwf. pose proof Hwf as (W1 & _ & W3 & _ & W5). pose proof (refs_drop st f Hwf 64 0 ltac:(lia) ltac:(lia)) as E.
  change (Z.to_nat 0) with 0%nat in E. rewrite drop_0 in E. rewrite E.
  replace 64%nat with (Z.to_nat (u_lastfile st + 1) + (64 - Z.to_nat (u_lastfile st + 1)))%nat by lia.
  rewrite range_refs_app, (range_refs_zero _ _ (64 - _)); [lia|]. intros x Hx.
  destruct (ofile st x) as [g|] eqn:Eg; [|done]. apply ofile_Some in Eg as [_ Eg]. pose proof (W5 _ _ Eg). lia.
Qed.

Lemma fork_loop_ok : forall n i o st, wf st -> tally o st -> (forall g, 0 <= o g) ->
  (forall f fp, files st !! f = Some fp -> 0 <= f_msgcount fp) -> 0 <= i ->
  (forall f fp, files st !! f = Some fp -> f_count fp + Z.of_nat n <= 32767) ->
  exists st', fork_loop n i st = Ret st' /\ wf st' /\ tally (fun g => o g + range_refs st n i g) st' /\
    keepmsg st st' /\ (forall x, ofile st' x = ofile st x) /\ u_lastfile st' = u_lastfile st.
Proof.
  induction n as [|n IH]; intros i o st Hwf Ht Ho Hm Hi Hs; cbn [fork_loop range_refs].
  - exists st. splits; try done; [|by apply keepmsg_eq]. eapply tally_ext; [|exact Ht]. intros g. cbn. lia.
  - assert (Hstep : exists st1, match ofile st i with Some f => fref st f | None => Ret st end = Ret st1 /\
      same_fds st st1 /\ tally (fun g => o g + one (ofile st i) g) st1 /\
      (forall f fp, files st1 !! f = Some fp -> f_count fp + Z.of_nat n <= 32767)).
    { destruct (ofile st i) as [f|] eqn:Ef.
      - destruct (getf_open st i f Hwf Ef) as (fp & Efp & _).
        pose proof (count_pos o st i f fp (conj Hwf (conj Ht (conj Ho Hm))) Ef Efp) as Hc. pose proof (Hs f fp Efp).
        destruct (fref_ok o st f fp Ht Efp ltac:(lia)) as (st1 & E1 & S1 & L1 & T1 & F1). exists st1. splits; try done.
        intros g gp Hg. rewrite F1 in Hg. cbn in Hg. apply list_lookup_insert_Some in Hg as [(<- & <- & _)|[_ Hg]].
        + cbn [set_count f_count]. lia.
        + pose proof (Hs g gp Hg). lia.
      - exists st. split; [done|]. split; [apply same_fds_refl|]. split.
        + eapply tally_ext; [|exact Ht]. intros g. unfold one. rewrite decide_False by done. lia.
        + intros g gp Hg. pose proof (Hs g gp Hg). lia. }
    destruct Hstep as (st1 & E1 & S1 & T1 & C1). rewrite E1. bind. pose proof S1 as (_ & _ & S1c & _ & S1e).
    destruct (IH (i + 1) _ st1 (same_fds_wf _ _ S1 Hwf) T1) as (st' & E' & W' & T' & K' & O' & U').
    { intros g. pose proof (Ho g). unfold one. destruct (decide _); lia. }
    { intros g gp Hg. destruct (S1e g gp Hg) as (gp0 & G1 & ->). by eapply Hm. }
    { lia. }
    { done. }
    exists st'. splits; try done.
    + eapply tally_ext; [|exact T']. intros g. cbn.
      rewrite (range_refs_ext st st1 g (fun x => same_fds_ofile _ _ x S1)). lia.
    + by eapply keepmsg_trans.
    + intros x. by rewrite O', (same_fds_ofile _ _ x S1).
    + by rewrite U', S1c.
Qed.

(** ** Descriptors in messages *)

(** Putting a file into a message, or taking it out: both of its counts move
    together, or a descriptor takes the message's place. *)
Lemma putf_both_tally o st f fp fp' d : tally o st -> files st !! f = Some fp ->
  f_count fp' = f_count fp + d -> f_msgcount fp' = f_msgcount fp + d -> tally o (putf st f fp').
Proof.
  intros Ht Hf Hc Hm g gp Hg. unfold putf, with_files in *. cbn in *.
  apply list_lookup_insert_Some in Hg as [(<- & <- & _)|[_ Hg]]; [|by apply Ht]. pose proof (Ht f fp Hf). lia.
Qed.

Lemma putf_wf st f fp' : wf st -> wf (putf st f fp').
Proof. intros (W1 & W2 & W3 & W4 & W5). unfold wf, putf, with_files. cbn. rewrite length_insert. tauto. Qed.

Lemma short_mono n k st : 0 <= k <= n -> short n st -> short k st.
Proof. intros H Hs f fp Hf. destruct (Hs f fp Hf). lia. Qed.

Lemma internalize_loop_ok o : forall fds st, inv o st -> short (Z.of_nat (length fds)) st ->
  Forall (fun fd => is_Some (ofile st fd)) fds ->
  exists fs st', internalize_loop st fds = Ret (fs, st') /\ inv o st' /\ (forall x, ofile st' x = ofile st x) /\
    Forall2 (fun fd f => ofile st fd = Some f) fds fs.
Proof.
  induction fds as [|fd fds IH]; intros st Hi Hs Hf; cbn [internalize_loop]; [by exists [], st|].
  apply Forall_cons in Hf as [[f Ef] Hf]. rewrite Ef. pose proof Hi as (Hwf & Ht & Ho & Hm).
  destruct (getf_open st fd f Hwf Ef) as (fp & Efp & Eg). pose proof (count_pos o st fd f fp Hi Ef Efp) as Hc.
  destruct (Hs f fp Efp) as [Hs1 Hs2]. pose proof (Hm f fp Efp) as Hm0. cbn [length] in Hs1, Hs2, Hs.
  unfold msg_ref. rewrite Eg. bind. cbn [set_count f_count f_msgcount]. rewrite !s16_small by lia.
  set (fp' := set_msgcount _ _). set (st1 := with_rights _ _).
  assert (Hi1 : inv o st1).
  { split; [by apply (putf_wf st)|]. split; [by apply (putf_both_tally o st f fp fp' 1)|]. split; [done|].
    intros g gp Hg. cbn in Hg. apply list_lookup_insert_Some in Hg as [(<- & <- & _)|[_ Hg]]; [cbn; lia|by eapply Hm]. }
  destruct (IH st1 Hi1) as (fs & st' & E & Hi' & O' & H').
  - intros g gp Hg. cbn in Hg. apply list_lookup_insert_Some in Hg as [(<- & <- & _)|[_ Hg]]; [cbn; lia|].
    destruct (Hs g gp Hg). lia.
  - exact Hf.
  - rewrite E. bind. exists (f :: fs), st'. splits; try done. by constructor.
Qed.

(** How often [f] occurs in a message. *)
Fixpoint occ (f : nat) (fs : list nat) : Z :=
  match fs with [] => 0 | g :: fs => (if decide (g = f) then 1 else 0) + occ f fs end.

Lemma occ_nonneg f fs : 0 <= occ f fs.
Proof. induction fs; cbn; [lia|]. destruct (decide _); lia. Qed.

(** The files of a message are in the table and counted as such. *)
Definition in_message (st : fdstate) (fs : list nat) : Prop :=
  forall f, 0 < occ f fs -> exists fp, files st !! f = Some fp /\ occ f fs <= f_msgcount fp.

Lemma in_message_head st f fs : in_message st (f :: fs) -> exists fp, files st !! f = Some fp /\ 1 <= f_msgcount fp.
Proof.
  intros H. destruct (H f) as (fp & E & Ho).
  - cbn. rewrite decide_True by done. pose proof (occ_nonneg f fs). lia.
  - exists fp. split; [done|]. cbn in Ho. rewrite decide_True in Ho by done. pose proof (occ_nonneg f fs). lia.
Qed.

Lemma in_message_tail st st' f fs fp fp' : in_message st (f :: fs) -> files st !! f = Some fp ->
  files st' = <[f := fp']> (files st) -> f_msgcount fp' = f_msgcount fp - 1 -> in_message st' fs.
Proof.
  intros H Ef E Hm g Hg. destruct (H g) as (gp & Eg & Ho).
  - cbn. destruct (decide _); lia.
  - rewrite E. destruct (decide (f = g)) as [->|Hne].
    + rewrite list_lookup_insert_eq by (by apply lookup_lt_Some in Ef). exists fp'. split; [done|].
      rewrite Ef in Eg. injection Eg as ->. cbn in Ho. rewrite decide_True in Ho by done. lia.
    + rewrite list_lookup_insert_ne by done. exists gp. split; [done|]. cbn in Ho. by rewrite decide_False in Ho by done.
Qed.

Lemma msg_take_inv o st f fp fp' : inv o st -> files st !! f = Some fp -> 1 <= f_msgcount fp ->
  f_msgcount fp' = f_msgcount fp - 1 -> forall g gp, files (putf st f fp') !! g = Some gp -> 0 <= f_msgcount gp.
Proof.
  intros (_ & _ & _ & Hm) Hf H1 H2 g gp Hg. cbn in Hg.
  apply list_lookup_insert_Some in Hg as [(<- & <- & _)|[_ Hg]]; [lia|by eapply Hm].
Qed.

Lemma discard_all_ok o : forall fs st, inv o st -> in_message st fs ->
  exists st', discard_all st fs = Ret st' /\ inv o st' /\ (forall x, ofile st' x = ofile st x).
Proof.
  induction fs as [|f fs IH]; intros st Hi Hin; cbn [discard_all]; [by exists st|].
  destruct (in_message_head _ _ _ Hin) as (fp & Efp & Hm1). pose proof Hi as (Hwf & Ht & Ho & Hm).
  unfold unp_discard, getf. rewrite Efp. bind. set (fp' := set_msgcount fp (f_msgcount fp - 1)). set (st1 := with_rights _ _).
  assert (Hlt : (f < length (files st))%nat) by (by apply lookup_lt_Some in Efp).
  assert (T1 : tally (fun g => o g + one (Some f) g) st1).
  { intros g gp Hg. cbn in Hg |- *. apply list_lookup_insert_Some in Hg as [(<- & <- & _)|[Hne Hg]].
    - unfold one. rewrite decide_True by done. cbn. pose proof (Ht f fp Efp). lia.
    - unfold one. rewrite decide_False by (intros [= ->]; done). pose proof (Ht g gp Hg). lia. }
  assert (E1 : files st1 !! f = Some fp') by (cbn; by rewrite list_lookup_insert_eq).
  assert (Hc : 1 <= f_count fp').
  { cbn. pose proof (Ht f fp Efp). pose proof (fdrefs_nonneg f (u_ofile st)). pose proof (Ho f). lia. }
  destruct (closef_ok _ st1 f fp' T1 E1 Hc) as (e & st2 & E2 & S2 & T2 & F2 & _). rewrite E2. bind.
  pose proof S2 as (_ & _ & _ & _ & S2e). destruct (IH st2) as (st' & E' & Hi' & O').
  - split; [exact (same_fds_wf _ _ S2 (putf_wf st f fp' Hwf))|]. split; [|split; [done|]].
    + eapply tally_ext; [|exact T2]. intros g. cbn. lia.
    + intros g gp Hg. destruct (S2e g gp Hg) as (gp1 & G1 & ->). by eapply (msg_take_inv o st f fp fp').
  - eapply (in_message_tail st st2 f fs fp (set_count fp' (f_count fp' - 1))); try done.
    rewrite F2. cbn. by rewrite list_insert_insert_eq.
  - exists st'. split; [done|]. split; [done|]. intros x. by rewrite O', (same_fds_ofile _ _ x S2).
Qed.

(** ufavail counts the free descriptors. *)
Fixpoint nones (l : list (option nat)) : Z :=
  match l with [] => 0 | v :: l => (match v with None => 1 | Some _ => 0 end) + nones l end.

Lemma ufavail_nones st : ufavail st = nones (u_ofile st).
Proof.
  unfold ufavail. induction (u_ofile st) as [|v l IH]; [done|]. rewrite filter_cons. cbn [nones].
  destruct v; [rewrite decide_False by done; lia|]. rewrite decide_True by done. cbn [length]. lia.
Qed.

Lemma nones_insert f : forall l i, l !! i = Some None -> nones (<[i := Some f]> l) = nones l - 1.
Proof.
  induction l as [|v l IH]; intros [|i] H; cbn in H; try done.
  - injection H as ->. change (<[0%nat := Some f]> (None :: l)) with (Some f :: l). cbn [nones]. lia.
  - change (<[S i := Some f]> (v :: l)) with (v :: <[i := Some f]> l). cbn [nones]. rewrite IH by done. lia.
Qed.

Lemma nones_pos l : 0 < nones l -> exists i, l !! i = Some None.
Proof.
  induction l as [|v l IH]; cbn; [lia|]. destruct v; [|by exists 0%nat]. intros H. destruct IH as [i Hi]; [lia|].
  by exists (S i).
Qed.

Lemma externalize_loop_ok o : forall fs st, inv o st -> in_message st fs -> Z.of_nat (length fs) <= ufavail st ->
  exists fds st', externalize_loop st fs = Ret (fds, st') /\ inv o st' /\
    Forall2 (fun fd f => ofile st fd = None /\ ofile st' fd = Some f) fds fs /\
    (forall x f, ofile st x = Some f -> ofile st' x = Some f).
Proof.
  induction fs as [|f fs IH]; intros st Hi Hin Hav; cbn [externalize_loop]; [by exists [], st|].
  pose proof Hi as (Hwf & Ht & Ho & Hm). cbn [length] in Hav.
  destruct (ufalloc_ok o st 0 Hwf Ht ltac:(lia)) as [(fd & st1 & E & H1 & H2 & H3 & W & T & P1 & P2 & P3 & P4 & P5 & P6)|[E H]].
  2:{ exfalso. rewrite ufavail_nones in Hav. destruct (nones_pos (u_ofile st)) as [i Hii]; [lia|].
      pose proof (lookup_lt_Some _ _ _ Hii). destruct Hwf as (W1 & _). apply (H (Z.of_nat i)); [lia|].
      unfold ofile, NOFILE. destruct (Z.leb_spec 0 (Z.of_nat i)); [|lia]. destruct (Z.ltb_spec (Z.of_nat i) 64); [|lia].
      cbn [andb]. by rewrite Nat2Z.id, Hii. }
  rewrite E. bind. cbn [Z.eqb negb]. rewrite set_ofile_ok by lia. bind. set (st2 := with_ofile st1 _).
  destruct (in_message_head _ _ _ Hin) as (fp & Efp & Hm1).
  assert (Efp2 : files st2 !! f = Some fp) by (cbn; by rewrite P3). unfold getf. rewrite Efp2. bind.
  set (fp' := set_msgcount fp (f_msgcount fp - 1)). set (st3 := with_rights _ _).
  assert (Hlt : (f < length (files st))%nat) by (by apply lookup_lt_Some in Efp).
  assert (Hold : u_ofile st1 !! Z.to_nat fd = Some None).
  { pose proof (ofile_lookup st1 fd W ltac:(lia)) as El. by rewrite P1, H2 in El. }
  pose proof (tally_ofile o st1 _ (Some f) None T Hold) as T2. fold st2 in T2.
  assert (O3 : forall x, ofile st3 x = if decide (x = fd) then Some f else ofile st x).
  { intros x. change (ofile st3 x) with (ofile st2 x). destruct W as (W1 & _). unfold st2.
    rewrite ofile_insert by (lia || done). by rewrite P1. }
  assert (Hi3 : inv o st3).
  { split; [|split; [|split; [done|]]].
    - change (wf (putf st2 f fp')). apply putf_wf. destruct W as (A1 & A2 & A3 & A4 & A5). unfold wf, st2.
      cbn [with_ofile u_ofile u_pofile u_lastfile files]. rewrite length_insert. splits; try done; try lia.
      + intros i g Hg. apply list_lookup_insert_Some in Hg as [(_ & [= ->] & _)|[_ Hg]]; [by rewrite P3|by eapply A4].
      + intros i g Hg. apply list_lookup_insert_Some in Hg as [(<- & _)|[_ Hg]]; [lia|by eapply A5].
    - intros g gp Hg. change (files st3) with (<[f := fp']> (files st2)) in Hg. change (u_ofile st3) with (u_ofile st2).
      apply list_lookup_insert_Some in Hg as [(<- & <- & _)|[Hne Hg]].
      + pose proof (T2 f fp Efp2) as Hq. cbn beta in Hq. unfold one in Hq. rewrite (decide_False (P := None = Some f)) in Hq by done.
        rewrite decide_True in Hq by done. cbn [fp' set_msgcount f_count f_msgcount]. lia.
      + pose proof (T2 g gp Hg) as Hq. cbn beta in Hq. unfold one in Hq. rewrite (decide_False (P := None = Some g)) in Hq by done.
        rewrite decide_False in Hq by (intros [= ->]; done). lia.
    - intros g gp Hg. cbn in Hg. rewrite P3 in Hg. by eapply (msg_take_inv o st f fp fp'). }
  destruct (IH st3 Hi3) as (fds & st' & E' & Hi' & H2' & K').
  - eapply (in_message_tail st st3 f fs fp fp'); try done. cbn. by rewrite P3.
  - rewrite ufavail_nones in *. change (u_ofile st3) with (<[Z.to_nat fd := Some f]> (u_ofile st1)).
    rewrite nones_insert by done. rewrite P6. lia.
  - rewrite E'. bind. exists (fd :: fds), st'. split; [done|]. split; [done|]. split.
    + constructor.
      * split; [done|]. apply K'. rewrite O3. by rewrite decide_True.
      * eapply Forall2_impl; [exact H2'|]. intros x g [G1 G2]. split; [|done]. rewrite O3 in G1.
        by destruct (decide (x = fd)).
    + intros x g Hx. apply K'. rewrite O3. destruct (decide (x = fd)) as [->|]; [congruence|done].
Qed.

(** ** fcntl *)

Lemma set_flag_inv o st f fp n : inv o st -> files st !! f = Some fp ->
  inv o (putf st f (set_flag fp n)) /\ (forall x, ofile (putf st f (set_flag fp n)) x = ofile st x).
Proof.
  intros Hi Hf. pose proof Hi as (Hwf & Ht & _). pose proof (putf_same st f fp (set_flag fp n) Hf eq_refl) as S.
  split; [|done]. eapply (inv_step o _ st); [done|by apply putf_wf|by eapply putf_tally| |by destruct S as (_ & _ & _ & _ & S)].
  intros g. cbn. destruct (decide _); lia.
Qed.

Lemma inv_emit o st e : inv o st -> inv o (emit st e).
Proof. intros (A & B & C & D). by split. Qed.

Definition fset_flag (flag bit value : Z) : Z := if negb (value =? 0) then Z.lor flag bit else Z.land flag (Z.lnot bit).

Lemma fset_ok o st f fp bit value : inv o st -> files st !! f = Some fp ->
  exists e st', fset st f bit value = Ret (e, st') /\ inv o st' /\ (forall x, ofile st' x = ofile st x) /\
    files st' = <[f := set_flag fp (fset_flag (f_flag fp) bit value)]> (files st) /\
    e = (fo_ioctl f (set_flag fp (fset_flag (f_flag fp) bit value)) (if bit =? FNDELAY then FIONBIO else FIOASYNC) value).1.
Proof.
  intros Hi Hf. unfold fset, getf. rewrite Hf. bind. fold (fset_flag (f_flag fp) bit value). unfold fioctl.
  destruct (fo_ioctl f _ _ value) as [e v]. eexists _, _. split; [reflexivity|].
  destruct (set_flag_inv o st f fp (fset_flag (f_flag fp) bit value) Hi Hf) as [Hi' Ho']. splits; try done.
Qed.

Lemma fset_same flag n : 0 <= n -> fset_flag flag (2 ^ n) (Z.land flag (2 ^ n)) = flag.
Proof.
  intros Hn. unfold fset_flag. assert (E : Z.land flag (2 ^ n) = if Z.testbit flag n then 2 ^ n else 0).
  { apply Z.bits_inj'. intros m Hm. rewrite Z.land_spec, Z.pow2_bits_eqb by done.
    destruct (Z.eqb_spec n m) as [<-|Hne].
    - destruct (Z.testbit flag n); [by rewrite Z.pow2_bits_true|by rewrite Z.bits_0].
    - rewrite andb_false_r. destruct (Z.testbit flag n); [by rewrite Z.pow2_bits_false|by rewrite Z.bits_0]. }
  rewrite E. destruct (Z.testbit flag n) eqn:Eb.
  - destruct (Z.eqb_spec (2 ^ n) 0) as [H0|_]; [pose proof (Z.pow_pos_nonneg 2 n); lia|]. cbn [negb].
    apply Z.bits_inj'. intros m Hm. rewrite Z.lor_spec, Z.pow2_bits_eqb by done.
    destruct (Z.eqb_spec n m) as [<-|]; [by rewrite Eb|apply orb_false_r].
  - cbn [Z.eqb negb]. apply Z.bits_inj'. intros m Hm. rewrite Z.land_spec, Z.lnot_spec, Z.pow2_bits_eqb by done.
    destruct (Z.eqb_spec n m) as [<-|]; [by rewrite Eb|apply andb_true_r].
Qed.

Lemma fset_cant flag bit value : Z.land bit FCNTLCANT = 0 -> Z.land (fset_flag flag bit value) FCNTLCANT = Z.land flag FCNTLCANT.
Proof.
  intros Hb. unfold fset_flag. destruct (negb (value =? 0)).
  - by rewrite Z.land_lor_distr_l, Hb, Z.lor_0_r.
  - rewrite <- Z.land_assoc. f_equal. apply Z.bits_inj'. intros m Hm. apply (f_equal (fun z => Z.testbit z m)) in Hb.
    rewrite Z.land_spec, Z.bits_0 in Hb. rewrite Z.land_spec, Z.lnot_spec by done.
    destruct (Z.testbit bit m), (Z.testbit FCNTLCANT m); done.
Qed.

Lemma setfl_cant flag arg : Z.land (setfl_flags flag arg) FCNTLCANT = Z.land flag FCNTLCANT.
Proof.
  unfold setfl_flags. rewrite Z.land_lor_distr_l, <- !Z.land_assoc, Z.land_diag.
  rewrite (Z.land_comm (Z.lnot FCNTLCANT)), Z.land_lnot_diag, Z.land_0_r. apply Z.lor_0_r.
Qed.

Lemma setfl_self flag : setfl_flags flag (flag + FOPEN) = flag.
Proof.
  unfold setfl_flags. replace (flag + FOPEN - FOPEN) with flag by lia. apply Z.bits_inj'. intros m Hm.
  rewrite Z.lor_spec, !Z.land_spec, Z.lnot_spec by done. destruct (Z.testbit flag m), (Z.testbit FCNTLCANT m); done.
Qed.

(** F_SETFL: whatever the ioctls answer, only the flags of this file change,
    and of these not the access mode and the lock bits. *)
Lemma setfl_ok o st fd f fp arg : inv o st -> ofile st fd = Some f -> files st !! f = Some fp ->
  exists e st' n, fcntl st fd F_SETFL arg = Ret (e, 0, st') /\ inv o st' /\ (forall x, ofile st' x = ofile st x) /\
    files st' = <[f := set_flag fp n]> (files st) /\ Z.land n FCNTLCANT = Z.land (f_flag fp) FCNTLCANT /\
    ((forall g gp c v, (fo_ioctl g gp c v).1 = 0) -> e = 0 /\ n = setfl_flags (f_flag fp) arg).
Proof.
  intros Hi Hf Efp. unfold fcntl. rewrite Hf. unfold getf. rewrite Efp. bind.
  set (fl := setfl_flags (f_flag fp) arg). set (st1 := putf st f (set_flag fp fl)).
  destruct (set_flag_inv o st f fp fl Hi Efp) as [Hi1 Ho1]. assert (Hlt : (f < length (files st))%nat) by (by apply lookup_lt_Some in Efp).
  assert (E1 : files st1 !! f = Some (set_flag fp fl)) by (cbn; by rewrite list_lookup_insert_eq).
  assert (Hins : forall l a b, <[f := a]> (<[f := b]> l) = <[f := a]> (l : list file)) by (intros; apply list_insert_insert_eq).
  destruct (fset_ok o st1 f _ FNDELAY (Z.land fl FNDELAY) Hi1 E1) as (e2 & st2 & E2 & Hi2 & Ho2 & F2 & Ee2). rewrite E2. bind.
  cbn [set_flag f_flag] in F2, Ee2. set (fl2 := fset_flag fl FNDELAY _) in *.
  change (set_flag (set_flag fp fl) fl2) with (set_flag fp fl2) in *.
  assert (F2' : files st2 = <[f := set_flag fp fl2]> (files st)) by (rewrite F2; cbn; by rewrite Hins).
  assert (C2 : Z.land fl2 FCNTLCANT = Z.land (f_flag fp) FCNTLCANT) by (unfold fl2; rewrite fset_cant by done; apply setfl_cant).
  assert (Hfl2 : fl2 = fl) by exact (fset_same fl 2 ltac:(lia)).
  destruct (Z.eqb_spec e2 0) as [Hz2|Hz2]; cbn [negb].
  2:{ exists e2, st2, fl2. splits; try done. intros Hok. by rewrite Hok in Ee2. }
  assert (E2f : files st2 !! f = Some (set_flag fp fl2)) by (rewrite F2'; by rewrite list_lookup_insert_eq).
  rewrite E2f. bind. cbn [set_flag f_flag].
  destruct (fset_ok o st2 f _ FASYNC (Z.land fl2 FASYNC) Hi2 E2f) as (e3 & st3 & E3 & Hi3 & Ho3 & F3 & Ee3). rewrite E3. bind.
  cbn [set_flag f_flag] in F3, Ee3. set (fl3 := fset_flag fl2 FASYNC _) in *.
  change (set_flag (set_flag fp fl2) fl3) with (set_flag fp fl3) in *.
  assert (F3' : files st3 = <[f := set_flag fp fl3]> (files st)) by (rewrite F3, F2'; by rewrite Hins).
  assert (C3 : Z.land fl3 FCNTLCANT = Z.land (f_flag fp) FCNTLCANT) by (unfold fl3; by rewrite fset_cant).
  assert (Hfl3 : fl3 = fl2) by exact (fset_same fl2 6 ltac:(lia)).
  assert (O3 : forall x, ofile st3 x = ofile st x) by (intros x; by rewrite Ho3, Ho2).
  destruct (Z.eqb_spec e3 0) as [Hz3|Hz3]; cbn [negb].
  { exists e3, st3, fl3. splits; try done. intros _. split; [done|congruence]. }
  assert (E3f : files st3 !! f = Some (set_flag fp fl3)) by (rewrite F3'; by rewrite list_lookup_insert_eq).
  destruct (fset_ok o st3 f _ FNDELAY 0 Hi3 E3f) as (e4 & st4 & E4 & Hi4 & Ho4 & F4 & _). rewrite E4. bind.
  cbn [set_flag f_flag] in F4. exists e3, st4, (fset_flag fl3 FNDELAY 0). splits; try done.
  - intros x. by rewrite Ho4, O3.
  - rewrite F4, F3'. by rewrite Hins.
  - by rewrite fset_cant.
  - intros Hok. by rewrite Hok in Ee3.
Qed.

Lemma fcntl_ok o st fd cmd arg : inv o st -> short 1 st ->
  exists e r st', fcntl st fd cmd arg = Ret (e, r, st') /\ inv o st'.
Proof.
  intros Hi Hs. destruct (ofile st fd) as [f|] eqn:Ef; [|unfold fcntl; rewrite Ef; by eexists _, _, _].
  pose proof Hi as (Hwf & Ht & _). destruct (getf_open st fd f Hwf Ef) as (fp & Efp & Eg). destruct (ofile_Some _ _ _ Ef) as [Hfd _].
  destruct cmd.
  - unfold fcntl. rewrite Ef. unfold NOFILE. destruct (Z.ltb_spec arg 0); [by eexists _, _, _|]. cbn [orb].
    destruct (arg >=? 64); [by eexists _, _, _|].
    destruct (dup_to_ok o st fd f (Z.land (pofile st fd) (Z.lnot UF_EXCLOSE)) arg Hi Hs Ef ltac:(lia)) as
      [(i & st' & E & Hi' & _)|[E _]]; unfold dup_to in E; rewrite E; by eexists _, _, _.
  - unfold fcntl. rewrite Ef. by eexists _, _, _.
  - unfold fcntl. rewrite Ef. destruct (pofile_step_ok o st fd (Z.lor (Z.land (pofile st fd) (Z.lnot 1)) (Z.land arg 1)) Hwf Ht Hfd)
      as (st' & E & W & T & _ & _ & F & _). rewrite E. bind. eexists _, _, _. split; [reflexivity|].
    eapply (inv_step o o st); [done|done|done|done|by apply keepmsg_eq].
  - unfold fcntl. rewrite Ef, Eg. bind. by eexists _, _, _.
  - destruct (setfl_ok o st fd f fp arg Hi Ef Efp) as (e & st' & n & E & Hi' & _). rewrite E. by eexists _, _, _.
  - unfold fcntl, fgetown. rewrite Ef, Eg. bind. destruct (_ =? _); [by eexists _, _, _|]. unfold fioctl.
    destruct (fo_ioctl _ _ _ _). eexists _, _, _. split; [reflexivity|]. by apply inv_emit.
  - unfold fcntl, fsetown. rewrite Ef, Eg. bind. destruct (_ =? _).
    { bind. eexists _, _, _. split; [reflexivity|]. destruct Hi as (A & B & C & D). by split. }
    unfold fioctl. destruct (arg >? 0); [destruct (pfind arg)|].
    + destruct (fo_ioctl _ _ _ _). bind. eexists _, _, _. split; [reflexivity|]. by apply inv_emit.
    + bind. by eexists _, _, _.
    + destruct (fo_ioctl _ _ _ _). bind. eexists _, _, _. split; [reflexivity|]. by apply inv_emit.
  - unfold fcntl. rewrite Ef. by eexists _, _, _.
Qed.

Lemma dup_dup_to o st i j f : inv o st -> ofile st i = Some f -> 0 <= i < 64 ->
  dup st i j = dup_to st f (Z.land (pofile st i) (Z.lnot UF_EXCLOSE)) 0.
Proof.
  intros Hi Hf Hi64. pose proof Hi as (Hwf & Ht & _). unfold dup, dup_to. rewrite Hf.
  assert (Z.land i (Z.lnot 63) = 0) as ->.
  { rewrite <- Z.ldiff_land. change 63 with (Z.ones 6). rewrite Z.ldiff_ones_r, Z.shiftr_div_pow2 by lia.
    rewrite Z.div_small by lia. done. }
  cbn [Z.eqb negb].
  destruct (ufalloc_ok o st 0 Hwf Ht ltac:(lia)) as [(fd & st1 & E & H1 & H2 & H3 & W & T & P1 & P2 & P3 & P4 & P5 & P6)|[E H]].
  - rewrite E. bind. cbn [Z.eqb negb]. rewrite P2 by lia. rewrite decide_False; [done|]. intros ->. congruence.
  - by rewrite E.
Qed.

Lemma dup2_inv o st i j : inv o st -> short 1 st -> exists e r st', dup2 st i j = Ret (e, r, st') /\ inv o st'.
Proof.
  intros Hi Hs. destruct (ofile st i) as [f|] eqn:Ef; [|unfold dup2; rewrite Ef; by eexists _, _, _].
  destruct (decide (0 <= j < 64 /\ i <> j)) as [[Hj Hij]|Hn].
  - destruct (dup2_ok o st i j f Hi Hs Ef Hj Hij) as (st' & E & Hi' & _). rewrite E. by eexists _, _, _.
  - unfold dup2. rewrite Ef. unfold NOFILE. destruct (Z.ltb_spec j 0); [by eexists _, _, _|]. rewrite Z.geb_leb.
    destruct (Z.leb_spec 64 j); [by eexists _, _, _|]. destruct (Z.eqb_spec i j); [by eexists _, _, _|]. lia.
Qed.

(** ** The operations together *)

Inductive sysop : Type :=
| Dup (i j : Z) | Dup2 (i j : Z) | Fcntl (fd : Z) (cmd : fcmd) (arg : Z) | Close (fd : Z)
| Open (mode err vp dup : Z) | Exec | Exit | Fork | Send (cm : cmsghdr) (fds : list Z) | Receive (fs : list nat).

Definition quiet (m : outcome fdstate) : result := st ← m; Ret (0, 0, st).

Definition run (op : sysop) (st : fdstate) : result :=
  match op with
  | Dup i j => dup st i j
  | Dup2 i j => dup2 st i j
  | Fcntl fd cmd arg => fcntl st fd cmd arg
  | Close fd => close st fd
  | Open mode err vp dup => open st mode (vn_result err vp dup)
  | Exec => quiet (exec_close st)
  | Exit => quiet (exit_close st)
  | Fork => quiet (fork_refs st)
  | Send cm fds => '(e, _, st) ← unp_internalize st cm (12 + 4 * Z.of_nat (length fds)) fds; Ret (e, 0, st)
  | Receive fs => '(e, _, st) ← unp_externalize st fs; Ret (e, 0, st)
  end.

(** A message carries at most 64 descriptors, and what is received was sent. *)
Definition op_ok (op : sysop) (st : fdstate) : Prop :=
  match op with
  | Send _ fds => (length fds <= 64)%nat
  | Receive fs => in_message st fs
  | _ => True
  end.

(** The references held elsewhere: fork gives the child a copy of the table. *)
Definition elsewhere (op : sysop) (st : fdstate) (o : nat -> Z) (f : nat) : Z :=
  match op with Fork => o f + refs f (u_ofile st) | _ => o f end.

Lemma dup_inv o st i j : inv o st -> short 1 st -> exists e r st', dup st i j = Ret (e, r, st') /\ inv o st'.
Proof.
  intros Hi Hs. destruct (decide (0 <= i < 64)) as [Hlt|Hge].
  - destruct (ofile st i) as [f|] eqn:Ef.
    + rewrite (dup_dup_to o st i j f Hi Ef) by lia.
      destruct (dup_to_ok o st i f (Z.land (pofile st i) (Z.lnot UF_EXCLOSE)) 0 Hi Hs Ef ltac:(lia)) as
        [(fd & st' & E & Hi' & _)|[E _]]; rewrite E; by eexists _, _, _.
    + unfold dup. destruct (negb _); [by apply dup2_inv|]. rewrite Ef. by eexists _, _, _.
  - unfold dup. destruct (negb _); [by apply dup2_inv|]. destruct (ofile st i) as [f|] eqn:Ef; [|by eexists _, _, _].
    apply ofile_Some in Ef as [? _]. lia.
Qed.

Lemma close_inv o st fd : inv o st -> exists e r st', close st fd = Ret (e, r, st') /\ inv o st'.
Proof.
  intros Hi. destruct (ofile st fd) as [f|] eqn:Ef.
  - destruct (close_ok o st fd f Hi Ef) as (e & st' & fp & E & Hi' & _). rewrite E. by eexists _, _, _.
  - unfold close. rewrite Ef. by eexists _, _, _.
Qed.

Lemma exec_inv o st : inv o st -> exists st', exec_close st = Ret st' /\ inv o st'.
Proof.
  intros Hi. pose proof Hi as ((_ & _ & H & _) & _).
  destruct (exec_loop_ok o (Z.to_nat (u_lastfile st + 1)) st Hi ltac:(lia)) as (st' & E & Hi' & _).
  unfold exec_close. rewrite E. bind. eexists. split; [reflexivity|]. by apply trim_last_ok.
Qed.

(** exit closes every descriptor. *)
Lemma exit_inv o st : inv o st -> exists st', exit_close st = Ret st' /\ inv o st' /\ forall x, ofile st' x = None.
Proof.
  intros Hi. pose proof Hi as ((_ & _ & H & _ & W5) & _).
  destruct (exit_loop_ok o (Z.to_nat (u_lastfile st + 1)) 0 st Hi ltac:(lia)) as (st' & E & Hi' & _ & H').
  exists st'. split; [done|]. split; [done|]. intros x. rewrite H'.
  destruct (decide _) as [_|Hn]; [done|]. destruct (ofile st x) as [f|] eqn:Ef; [|done].
  apply ofile_Some in Ef as [? Ef]. pose proof (W5 _ _ Ef). lia.
Qed.

Lemma fork_inv o st : inv o st -> short 64 st -> exists st', fork_refs st = Ret st' /\ inv (fun f => o f + refs f (u_ofile st)) st'.
Proof.
  intros (Hwf & Ht & Ho & Hm) Hs. pose proof Hwf as (_ & _ & H & _).
  destruct (fork_loop_ok (Z.to_nat (u_lastfile st + 1)) 0 o st Hwf Ht Ho Hm ltac:(lia)) as (st' & E & W & T & K & O & U).
  { intros f fp Hf. destruct (Hs f fp Hf). lia. }
  exists st'. split; [done|]. split; [done|]. split.
  - eapply tally_ext; [|exact T]. intros f. cbn. by rewrite refs_upto.
  - split; [intros f; pose proof (Ho f); pose proof (fdrefs_nonneg f (u_ofile st)); lia|].
    intros f fp' Hf. destruct (K f fp' Hf) as (fp & Hf0 & ->). by eapply Hm.
Qed.

(** The whole words of the mbuf are looked at. *)
Lemma internalize_eq st cm (fds : list Z) : (length fds <= 64)%nat ->
  unp_internalize st cm (12 + 4 * Z.of_nat (length fds)) fds =
  if negb (cmsg_type cm =? SCM_RIGHTS) || negb (cmsg_level cm =? SOL_SOCKET) || negb (cmsg_len cm =? 12 + 4 * Z.of_nat (length fds))
  then Ret (EINVAL, [], st)
  else if forallb (fun fd => bool_decide (is_Some (ofile st fd))) fds
  then '(fs, st) ← internalize_loop st fds; Ret (0, fs, st) else Ret (EBADF, [], st).
Proof.
  intros Hl. unfold unp_internalize. destruct (_ || _ || _) eqn:E; [done|].
  apply orb_false_iff in E as [_ E]. apply negb_false_iff, Z.eqb_eq in E. rewrite E.
  replace (12 + 4 * Z.of_nat (length fds) - 12) with (4 * Z.of_nat (length fds)) by lia.
  rewrite u32_small by lia. rewrite Z.mul_comm, Z.div_mul, Nat2Z.id by lia.
  rewrite Nat.ltb_irrefl. by rewrite take_ge by lia.
Qed.

Lemma send_inv o st cm fds : inv o st -> short 64 st -> (length fds <= 64)%nat ->
  exists e fs st', unp_internalize st cm (12 + 4 * Z.of_nat (length fds)) fds = Ret (e, fs, st') /\ inv o st'.
Proof.
  intros Hi Hs Hl. rewrite internalize_eq by done. destruct (_ || _ || _); [by eexists _, _, _|].
  destruct (forallb _ fds) eqn:Ef; [|by eexists _, _, _].
  destruct (internalize_loop_ok o fds st Hi) as (fs & st' & E & Hi' & _).
  - eapply short_mono; [|exact Hs]. lia.
  - apply Forall_forall. intros x Hx. rewrite forallb_forall in Ef. apply list_elem_of_In in Hx.
    specialize (Ef x Hx). by apply bool_decide_eq_true in Ef.
  - rewrite E. bind. by eexists _, _, _.
Qed.

Lemma receive_inv o st fs : inv o st -> in_message st fs ->
  exists e fds st', unp_externalize st fs = Ret (e, fds, st') /\ inv o st'.
Proof.
  intros Hi Hin. unfold unp_externalize. destruct (Z.gtb_spec (Z.of_nat (length fs)) (ufavail st)) as [Hgt|Hle].
  - destruct (discard_all_ok o fs st Hi Hin) as (st' & E & Hi' & _). rewrite E. bind. by eexists _, _, _.
  - destruct (externalize_loop_ok o fs st Hi Hin ltac:(lia)) as (fds & st' & E & Hi' & _). rewrite E. bind. by eexists _, _, _.
Qed.

(** C23: Reference counting of open files: whatever descriptor operation a
    process performs (dup, dup2, fcntl, close, open, and the loops of exec, exit
    and fork, and the sending and receiving of descriptors), the operation
    returns, without the panic of closef and without leaving its tables, and
    afterwards the count of every open file is again exactly the number of
    descriptors of this process, of places in messages and of references held
    elsewhere, descriptors name files, and u_lastfile bounds the open ones;
    after fork the references held elsewhere include a copy of the table.  The
    counts, which are shorts, must have room for what one operation adds. *)
Theorem fd_refcounts (o : nat -> Z) (st : fdstate) (op : sysop) :
  inv o st -> short 64 st -> op_ok op st ->
  exists e r st', run op st = Ret (e, r, st') /\ inv (elsewhere op st o) st' /\
    (op = Exit -> forall x, ofile st' x = None).
Proof.
  intros Hi Hs Hop. pose proof (short_mono 64 1 st ltac:(lia) Hs) as Hs1.
  assert (H : exists e r st', run op st = Ret (e, r, st') /\ inv (elsewhere op st o) st' \/ op = Exit).
  { destruct op as [i j|i j|fd cmd arg|fd|mode err vp dup| | | |cm fds|fs]; cbn [run elsewhere op_ok] in *.
    - destruct (dup_inv o st i j Hi Hs1) as (e & r & st' & ?). exists e, r, st'. by left.
    - destruct (dup2_inv o st i j Hi Hs1) as (e & r & st' & ?). exists e, r, st'. by left.
    - destruct (fcntl_ok o st fd cmd arg Hi Hs1) as (e & r & st' & ?). exists e, r, st'. by left.
    - destruct (close_inv o st fd Hi) as (e & r & st' & ?). exists e, r, st'. by left.
    - destruct (open_ok o st mode err vp dup Hi Hs1) as (e & r & st' & ?). exists e, r, st'. by left.
    - destruct (exec_inv o st Hi) as (st' & E & Hi'). exists 0, 0, st'. left. by rewrite E.
    - exists 0, 0, st. by right.
    - destruct (fork_inv o st Hi Hs) as (st' & E & Hi'). exists 0, 0, st'. left. by rewrite E.
    - destruct (send_inv o st cm fds Hi Hs Hop) as (e & fs & st' & E & Hi'). exists e, 0, st'. left. by rewrite E.
    - destruct (receive_inv o st fs Hi Hop) as (e & fds & st' & E & Hi'). exists e, 0, st'. left. by rewrite E. }
  destruct H as (e & r & st' & [[E Hi']| ->]).
  - exists e, r, st'. split; [done|]. split; [done|]. intros ->. cbn [run] in E.
    destruct (exit_inv o st Hi) as (st2 & E2 & _ & H2). rewrite E2 in E. by injection E as <- <- <-.
  - destruct (exit_inv o st Hi) as (st2 & E2 & Hi2 & H2). exists 0, 0, st2. cbn [run]. by rewrite E2.
Qed.

(** dup gives the lowest free descriptor, which then refers to the same
    file without its close-on-exec flag, and every other descriptor is as
    before; it fails (EMFILE) exactly when all 64 are in use.  dup2 (also reached
    through dup of a descriptor plus 0100) makes [j] refer to the file of [i] and
    drops what [j] referred to, closing the file when this was its last
    reference; [j = i] changes nothing, and a descriptor that is not open or out
    of range is EBADF. *)
Theorem dup_spec (o : nat -> Z) (st : fdstate) (i j : Z) (f : nat) :
  inv o st -> short 1 st -> ofile st i = Some f ->
  ((exists fd st', dup st i j = Ret (0, fd, st') /\ 0 <= fd < 64 /\ ofile st fd = None /\
      (forall x, 0 <= x < fd -> ofile st x <> None) /\
      (forall x, ofile st' x = if decide (x = fd) then Some f else ofile st x) /\
      pofile st' fd = Z.land (pofile st i) (Z.lnot UF_EXCLOSE) /\ log st' = log st) \/
   (dup st i j = Ret (EMFILE, 0, st) /\ forall x, 0 <= x < 64 -> ofile st x <> None)) /\
  dup st (i + 0x40) j = dup2 st i j /\
  (if (j <? 0) || (64 <=? j) then dup2 st i j = Ret (EBADF, 0, st)
   else if i =? j then dup2 st i j = Ret (0, j, st)
   else exists st', dup2 st i j = Ret (0, j, st') /\
     (forall x, ofile st' x = if decide (x = j) then Some f else ofile st x) /\
     pofile st' j = Z.land (pofile st i) (Z.lnot UF_EXCLOSE) /\ log st' = log st ++ drop_log st (ofile st j)).
Proof.
  intros Hi Hs Hf. destruct (ofile_Some _ _ _ Hf) as [Hr _]. split; [|split].
  - rewrite (dup_dup_to o st i j f Hi Hf Hr).
    destruct (dup_to_ok o st i f (Z.land (pofile st i) (Z.lnot UF_EXCLOSE)) 0 Hi Hs Hf ltac:(lia)) as
      [(fd & st' & E & _ & H)|H]; [left|by right]. exists fd, st'. split; [done|exact H].
  - unfold dup. change 0x3f with (Z.ones 6).
    rewrite Z.land_ones, <- Z.ldiff_land, Z.ldiff_ones_r, Z.shiftr_div_pow2, Z.shiftl_mul_pow2 by lia.
    replace ((i + 64) / 2 ^ 6) with 1 by zdiv. replace ((i + 64) mod 2 ^ 6) with i by zdiv. done.
  - destruct ((j <? 0) || (64 <=? j)) eqn:Ej.
    + unfold dup2. rewrite Hf. unfold NOFILE. by rewrite Z.geb_leb, Ej.
    + destruct (Z.eqb_spec i j) as [->|Hij].
      * unfold dup2. rewrite Hf. unfold NOFILE. rewrite Z.geb_leb, Ej. by rewrite Z.eqb_refl.
      * apply orb_false_iff in Ej as [E1 E2]. apply Z.ltb_ge in E1. apply Z.leb_gt in E2.
        destruct (dup2_ok o st i j f Hi Hs Hf ltac:(lia) Hij) as (st' & E & _ & H). by exists st'.
Qed.

(** close frees the descriptor and no other, clears its flags, and drops
    one reference: the file's own close routine is called, and its credentials
    released, exactly when it was the last one, and then its error is the
    result; u_lastfile is the highest descriptor still open (or -1).  A
    descriptor that is not open is EBADF and nothing changes. *)
Theorem close_spec (o : nat -> Z) (st : fdstate) (fd : Z) :
  inv o st ->
  match ofile st fd with
  | None => close st fd = Ret (EBADF, 0, st)
  | Some f =>
      exists e st' fp, close st fd = Ret (e, 0, st') /\ files st !! f = Some fp /\
        (forall x, ofile st' x = if decide (x = fd) then None else ofile st x) /\ pofile st' fd = 0 /\
        log st' = log st ++ drop_log st (Some f) /\ e = (if f_count fp =? 1 then fo_close f fp else 0) /\
        (u_lastfile st' = -1 \/ ofile st' (u_lastfile st') <> None) /\
        (forall x, ofile st' x <> None -> x <= u_lastfile st')
  end.
Proof.
  intros Hi. destruct (ofile st fd) as [f|] eqn:Ef; [|unfold close; by rewrite Ef].
  destruct (close_ok o st fd f Hi Ef) as (e & st' & fp & E & Hi' & H1 & H2 & H3 & H4 & H5 & H6).
  exists e, st', fp. splits; try done. intros x Hx. destruct (ofile st' x) as [g|] eqn:Eg; [|done].
  apply ofile_Some in Eg as [? Eg]. destruct Hi' as ((_ & _ & _ & _ & W5) & _). pose proof (W5 _ _ Eg). lia.
Qed.

(** fcntl on the status flags: F_GETFL reads them and changes nothing, and
    F_SETFL with what F_GETFL gave is the identity on the flags; with any
    argument F_SETFL changes the flags of this file only and never its access
    mode or its lock bits, whatever the ioctls behind FNDELAY and FASYNC
    answer; when they do not fail the other flags become those asked for. *)
Theorem getfl_setfl (o : nat -> Z) (st : fdstate) (fd : Z) (f : nat) (fp : file) :
  inv o st -> ofile st fd = Some f -> files st !! f = Some fp ->
  fcntl st fd F_GETFL 0 = Ret (0, f_flag fp + FOPEN, st) /\
  setfl_flags (f_flag fp) (f_flag fp + FOPEN) = f_flag fp /\
  forall arg, exists e st' n, fcntl st fd F_SETFL arg = Ret (e, 0, st') /\
    (forall x, ofile st' x = ofile st x) /\ files st' = <[f := set_flag fp n]> (files st) /\
    Z.land n FCNTLCANT = Z.land (f_flag fp) FCNTLCANT /\
    ((forall g gp c v, (fo_ioctl g gp c v).1 = 0) -> e = 0 /\ n = setfl_flags (f_flag fp) arg).
Proof.
  intros Hi Hf Hfp. split; [|split; [apply setfl_self|]].
  - unfold fcntl, getf. by rewrite Hf, Hfp.
  - intros arg. destruct (setfl_ok o st fd f fp arg Hi Hf Hfp) as (e & st' & n & E & _ & H). by exists e, st', n.
Qed.

(** Each occurrence in a message is counted. *)
Lemma internalize_counts : forall fds st fs st', internalize_loop st fds = Ret (fs, st') ->
  short (Z.of_nat (length fds)) st -> (forall f fp, files st !! f = Some fp -> 0 <= f_count fp /\ 0 <= f_msgcount fp) ->
  forall f fp, files st !! f = Some fp -> exists fp', files st' !! f = Some fp' /\ f_msgcount fp' = f_msgcount fp + occ f fs.
Proof.
  induction fds as [|fd fds IH]; intros st fs st' E Hs Hc f fp Hf; cbn [internalize_loop] in E.
  { injection E as <- <-. exists fp. split; [done|]. cbn. lia. }
  destruct (ofile st fd) as [g|]; [|done]. unfold msg_ref, getf in E. destruct (files st !! g) as [gp|] eqn:Eg; [|done].
  cbn [mbind outcome_bind] in E. destruct (Hs g gp Eg) as [S1 S2]. destruct (Hc g gp Eg) as [C1 C2]. cbn [length] in *.
  cbn [set_count f_count f_msgcount] in E. rewrite !s16_small in E by lia.
  match type of E with (internalize_loop ?s _ ≫= _) = _ => set (st1 := s) in * end.
  destruct (internalize_loop st1 fds) as [[fs1 st2]| |] eqn:E1; [|done|done]. cbn in E. injection E as <- <-.
  assert (Hst1 : forall h hp, files st1 !! h = Some hp -> exists hp0 d, files st !! h = Some hp0 /\ 0 <= d <= 1 /\
    f_count hp = f_count hp0 + d /\ f_msgcount hp = f_msgcount hp0 + d /\ (d = if decide (g = h) then 1 else 0)).
  { intros h hp Hh. cbn in Hh. apply list_lookup_insert_Some in Hh as [(<- & <- & _)|[Hne Hh]].
    - exists gp, 1. cbn. rewrite decide_True by done. splits; try done; lia.
    - exists hp, 0. rewrite decide_False by done. splits; try done; lia. }
  assert (H1 : exists hp, files st1 !! f = Some hp).
  { cbn. destruct (decide (g = f)) as [->|Hne]; [rewrite list_lookup_insert_eq by (by apply lookup_lt_Some in Hf); by eexists|].
    rewrite list_lookup_insert_ne by done. by eexists. }
  destruct H1 as [hp Hh]. destruct (IH st1 fs1 st2 E1) with (f := f) (fp := hp) as (fp' & F1 & F2); [| |done|].
  - intros h kp Hk. destruct (Hst1 h kp Hk) as (k0 & d & K0 & Kd & -> & -> & _). destruct (Hs h k0 K0). lia.
  - intros h kp Hk. destruct (Hst1 h kp Hk) as (k0 & d & K0 & Kd & -> & -> & _). destruct (Hc h k0 K0). lia.
  - exists fp'. split; [done|]. destruct (Hst1 f hp Hh) as (h0 & d & K0 & _ & _ & K1 & K2).
    rewrite Hf in K0. injection K0 as <-. cbn [occ]. lia.
Qed.

Definition rights (fds : list Z) : cmsghdr := Cm (12 + 4 * Z.of_nat (length fds)) SOL_SOCKET SCM_RIGHTS.

(** C37: Passing descriptors between processes: when every descriptor of the
    message is open in the sender, the message holds their files, and the
    receiver (another process's table over the same files) gets as many new
    descriptors, in order, each referring to the file the sender's one refers
    to, while its other descriptors stay.  A descriptor that is not open makes
    the whole send fail (EBADF), another header makes it fail (EINVAL), and
    neither takes a reference. *)
Theorem fd_passing (o : nat -> Z) (st : fdstate) (fds : list Z) :
  inv o st -> short 64 st -> (length fds <= 64)%nat ->
  let m_len := 12 + 4 * Z.of_nat (length fds) in
  (forall cm, cm <> rights fds -> unp_internalize st cm m_len fds = Ret (EINVAL, [], st)) /\
  (Exists (fun fd => ofile st fd = None) fds -> unp_internalize st (rights fds) m_len fds = Ret (EBADF, [], st)) /\
  (Forall (fun fd => ofile st fd <> None) fds ->
   exists fs st1, unp_internalize st (rights fds) m_len fds = Ret (0, fs, st1) /\
     forall o' r, files r = files st1 -> inv o' r -> Z.of_nat (length fds) <= ufavail r ->
     exists fds' r', unp_externalize r fs = Ret (0, fds', r') /\
       Forall2 (fun fd fd' => ofile r fd' = None /\ ofile r' fd' = ofile st fd) fds fds' /\
       forall x g, ofile r x = Some g -> ofile r' x = Some g).
Proof.
  intros Hi Hs Hl m_len. assert (Hr : unp_internalize st (rights fds) m_len fds =
    if forallb (fun fd => bool_decide (is_Some (ofile st fd))) fds
    then '(fs, st) ← internalize_loop st fds; Ret (0, fs, st) else Ret (EBADF, [], st)).
  { unfold m_len. rewrite internalize_eq by done. unfold rights. cbn [cmsg_type cmsg_level cmsg_len]. by rewrite !Z.eqb_refl. }
  rewrite Hr. split; [|split].
  - intros cm Hcm. unfold m_len. rewrite internalize_eq by done. destruct (_ || _ || _) eqn:E; [done|].
    apply orb_false_iff in E as [E E3]. apply orb_false_iff in E as [E1 E2].
    apply negb_false_iff, Z.eqb_eq in E1, E2, E3. exfalso. apply Hcm. destruct cm. cbn in E1, E2, E3. by subst.
  - intros H. destruct (forallb _ fds) eqn:Ef; [|done]. rewrite forallb_forall in Ef.
    apply Exists_exists in H as (x & Hx & Hn). apply list_elem_of_In in Hx. specialize (Ef x Hx).
    apply bool_decide_eq_true in Ef. rewrite Hn in Ef. by destruct Ef.
  - intros H. assert (forallb (fun fd => bool_decide (is_Some (ofile st fd))) fds = true) as ->.
    { apply forallb_forall. intros x Hx. apply bool_decide_eq_true. apply list_elem_of_In in Hx.
      rewrite Forall_forall in H. specialize (H x Hx). by destruct (ofile st x). }
    assert (Hsl : short (Z.of_nat (length fds)) st) by (eapply short_mono; [|exact Hs]; lia).
    destruct (internalize_loop_ok o fds st Hi Hsl) as (fs & st1 & E & Hi1 & _ & HF).
    { eapply Forall_impl; [exact H|]. intros x Hx. cbn in Hx. by destruct (ofile st x). }
    rewrite E. bind. exists fs, st1. split; [done|]. intros o' r Er Hinv Ha.
    pose proof (Forall2_length _ _ _ HF) as Hlen.
    assert (Hcnt : forall f fp, files st !! f = Some fp -> 0 <= f_count fp /\ 0 <= f_msgcount fp).
    { destruct Hi as (_ & Ht & Ho & Hm). intros f fp Hf. pose proof (Hm f fp Hf). rewrite (Ht f fp Hf).
      pose proof (Ho f). pose proof (fdrefs_nonneg f (u_ofile st)). lia. }
    assert (Hin : in_message r fs).
    { intros g Hg. assert (Hx : exists gp, files st !! g = Some gp).
      { clear - HF Hg Hi. induction HF as [|x y l k Hx _ IH]; cbn in Hg; [lia|].
        destruct (decide (y = g)) as [->|]; [|by apply IH]. destruct Hi as (Hwf & _).
        destruct (getf_open st x g Hwf Hx) as (gp & ? & _). by exists gp. }
      destruct Hx as [gp Egp]. destruct (internalize_counts fds st fs st1 E Hsl Hcnt g gp Egp) as (gp' & E1 & E2).
      exists gp'. rewrite Er. split; [done|]. destruct (Hcnt g gp Egp). lia. }
    unfold unp_externalize. destruct (Z.gtb_spec (Z.of_nat (length fs)) (ufavail r)) as [?|_]; [lia|].
    destruct (externalize_loop_ok o' fs r Hinv Hin ltac:(lia)) as (fds' & r' & E' & _ & HF' & HK). rewrite E'. bind.
    exists fds', r'. split; [done|]. split; [|done].
    clear - HF HF'. revert fds' HF'. induction HF as [|x f l k Hx _ IH]; intros fds' HF'; inversion HF'; subst; constructor.
    + destruct H2 as [G1 G2]. split; [done|]. by rewrite G2, Hx.
    + by apply IH.
Qed.

End descrip.

(** ** Witnesses

    Two files: one open as descriptors 0 and 2, and one with one descriptor that
    is also in a message. *)
Definition demo : fdstate :=
  Fd [File (Z.lor FREAD FWRITE) DTYPE_VNODE 2 0 7 1 100 0; File FREAD DTYPE_VNODE 2 1 7 1 101 0]
    None ([Some 0%nat; Some 1%nat; Some 0%nat] ++ replicate 61 None) (replicate 64 0) 2 7 ∅ 0 1 [].

Definition nobody (f : nat) : Z := 0.

Lemma demo_files f fp : files demo !! f = Some fp -> (f < 2)%nat.
Proof. intros H. by apply lookup_lt_Some in H. Qed.

Lemma demo_slot i f : u_ofile demo !! i = Some (Some f) -> (i < 3)%nat /\ (f < 2)%nat.
Proof.
  intros H. do 3 (destruct i as [|i]; [cbn in H; injection H as <-; lia|]). cbn [demo u_ofile app] in H. cbn [lookup list_lookup] in H.
  apply lookup_replicate in H as [? _]. done.
Qed.

Lemma demo_inv : inv nobody demo.
Proof.
  unfold inv, wf. splits; try done.
  - intros i f H. apply demo_slot in H. cbn. lia.
  - intros i f H. apply demo_slot in H. cbn. lia.
  - intros f fp H. destruct f as [|[|f]]; cbn in H; [injection H as <-; vm_compute; reflexivity..|done].
  - intros f fp H. destruct f as [|[|f]]; cbn in H; [injection H as <-; cbn; lia..|done].
Qed.

Lemma demo_short n : n <= 64 -> short n demo.
Proof. intros Hn f fp H. destruct f as [|[|f]]; cbn in H; [injection H as <-; cbn; lia..|done]. Qed.

Definition quiet_close (f : nat) (fp : file) : Z := 0.
Definition quiet_ioctl (f : nat) (fp : file) (c : ioc) (v : Z) : Z * Z := (0, v).
Definition no_pgrp (pid : Z) : option Z := None.

Lemma fd_refcounts_witness : exists e r st',
  run quiet_close quiet_ioctl no_pgrp (Send (rights [2; 1; 2]) [2; 1; 2]) demo = Ret (e, r, st') /\ inv nobody st'.
Proof.
  destruct (fd_refcounts quiet_close quiet_ioctl no_pgrp nobody demo (Send (rights [2; 1; 2]) [2; 1; 2]) demo_inv) as (e & r & st' & E & H & _).
  - apply demo_short. lia.
  - cbn. lia.
  - exists e, r, st'. split; [exact E|exact H].
Defined.

Lemma dup_spec_witness : dup quiet_close demo (2 + 0x40) 0 = dup2 quiet_close demo 2 0.
Proof.
  destruct (dup_spec quiet_close quiet_ioctl no_pgrp nobody demo 2 0 0%nat demo_inv) as (_ & H & _).
  - apply demo_short. lia.
  - reflexivity.
  - exact H.
Defined.

Lemma close_spec_witness : exists e st', close quiet_close demo 2 = Ret (e, 0, st') /\ ofile st' 2 = None.
Proof.
  destruct (close_spec quiet_close no_pgrp nobody demo 2 demo_inv) as (e & st' & fp & E & _ & H & _).
  exists e, st'. split; [exact E|]. exact (H 2).
Defined.

Lemma getfl_setfl_witness : fcntl quiet_ioctl no_pgrp demo 0 F_GETFL 0 = Ret (0, 2, demo).
Proof.
  exact (proj1 (getfl_setfl quiet_close quiet_ioctl no_pgrp nobody demo 0 0%nat _ demo_inv eq_refl eq_refl)).
Defined.

Lemma fd_passing_witness : exists fs st1, unp_internalize demo (rights [2; 1]) 20 [2; 1] = Ret (0, fs, st1).
Proof.
  destruct (fd_passing quiet_close quiet_ioctl no_pgrp nobody demo [2; 1] demo_inv) as (_ & _ & H).
  - apply demo_short. lia.
  - cbn. lia.
  - destruct H as (fs & st1 & E & _).
    + repeat constructor; discriminate.
    + exists fs, st1. exact E.
Defined.

End Descrip.
