(* ===== verification/Proc.v ===== *)
(** Processes, sys/sys/proc.h: the process table, the run queues and the sleep
    queues as the memory that setrq and remrq (assembly), kern_synch.c and
    kern_sig.c share, with the ways they read and write it.

    A [struct proc *] names a slot of the table or, on the run queues, the queue
    header itself ([qs] entries are cast to [struct proc *]); a
    [struct proc **] of the sleep queues names a queue's head or the link field
    of a process. *)
From stdpp Require Import base numbers list strings.
From Stdlib Require Import ZArith Lia.
From S2P Require Import Prelude.

Module Proc.

(** ** Data *)

Inductive ptr : Type := PNULL | PP (i : nat) | PQ (k : nat).
Inductive loc : Type := SqHead (h : nat) | Link (i : nat).
Inductive pstat : Type := SNONE | SSLEEP | SWAIT | SRUN | SIDL | SZOMB | SSTOP.

#[export] Instance ptr_eq_dec : EqDecision ptr.
Proof. solve_decision. Defined.
#[export] Instance loc_eq_dec : EqDecision loc.
Proof. solve_decision. Defined.
#[export] Instance pstat_eq_dec : EqDecision pstat.
Proof. solve_decision. Defined.

(** The flags of [p_flag] that are used. *)
Definition SLOAD : Z := 0x1.
Definition SSYS : Z := 0x2.
Definition STRC : Z := 0x10.
Definition SWTED : Z := 0x20.
Definition SSINTR : Z := 0x40.
Definition SOMASK : Z := 0x200.
Definition SVFORK : Z := 0x1000.
Definition STIMO : Z := 0x40000.
Definition SNOCLDSTOP : Z := 0x80000.
Definition SCTTY : Z := 0x100000.

Definition PZERO : Z := 25.
Definition PUSER : Z := 50.
Definition NZERO : Z := 0.
Definition PRIMASK : Z := 0xff.
Definition PCATCH : Z := 0x100.
Definition NQS : Z := 32.
Definition SQSIZE : Z := 64.
Definition FSHIFT : Z := 11.
Definition FSCALE : Z := 2048.

(** The fields of [struct proc] that scheduling and signals use. *)
Record proc := Proc {
  p_link : ptr;
  p_rlink : ptr;
  p_usrpri : Z;
  p_pri : Z;
  p_cpu : Z; (** read through [& 0377] *)
  p_stat : pstat;
  p_time : Z;
  p_nice : Z;
  p_slptime : Z;
  p_sig : Z;
  p_sigmask : Z;
  p_sigignore : Z;
  p_sigcatch : Z;
  p_flag : Z;
  p_uid : Z;
  p_ruid : Z;
  p_pid : Z;
  p_ppid : Z;
  p_xstat : Z;
  p_rssize : Z;
  p_maxrss : Z;
  p_wchan : Z; (** an address; 0 when not waiting *)
  p_cpticks : Z;
  p_pctcpu : Z;
  p_pptr : nat; (** the parent's slot *)
  p_pgrp : nat; (** the process group *)
  p_wmesg : Z
}.

Definition set_link (p : proc) (v : ptr) : proc :=
    Proc v (p_rlink p) (p_usrpri p) (p_pri p) (p_cpu p) (p_stat p) (p_time p) (p_nice p) (p_slptime p) (p_sig p)
    (p_sigmask p) (p_sigignore p) (p_sigcatch p) (p_flag p) (p_uid p) (p_ruid p) (p_pid p) (p_ppid p) (p_xstat p)
    (p_rssize p) (p_maxrss p) (p_wchan p) (p_cpticks p) (p_pctcpu p) (p_pptr p) (p_pgrp p) (p_wmesg p).
Definition set_rlink (p : proc) (v : ptr) : proc :=
    Proc (p_link p) v (p_usrpri p) (p_pri p) (p_cpu p) (p_stat p) (p_time p) (p_nice p) (p_slptime p) (p_sig p)
    (p_sigmask p) (p_sigignore p) (p_sigcatch p) (p_flag p) (p_uid p) (p_ruid p) (p_pid p) (p_ppid p) (p_xstat p)
    (p_rssize p) (p_maxrss p) (p_wchan p) (p_cpticks p) (p_pctcpu p) (p_pptr p) (p_pgrp p) (p_wmesg p).
Definition set_usrpri (p : proc) (v : Z) : proc :=
    Proc (p_link p) (p_rlink p) v (p_pri p) (p_cpu p) (p_stat p) (p_time p) (p_nice p) (p_slptime p) (p_sig p)
    (p_sigmask p) (p_sigignore p) (p_sigcatch p) (p_flag p) (p_uid p) (p_ruid p) (p_pid p) (p_ppid p) (p_xstat p)
    (p_rssize p) (p_maxrss p) (p_wchan p) (p_cpticks p) (p_pctcpu p) (p_pptr p) (p_pgrp p) (p_wmesg p).
Definition set_pri (p : proc) (v : Z) : proc :=
    Proc (p_link p) (p_rlink p) (p_usrpri p) v (p_cpu p) (p_stat p) (p_time p) (p_nice p) (p_slptime p) (p_sig p)
    (p_sigmask p) (p_sigignore p) (p_sigcatch p) (p_flag p) (p_uid p) (p_ruid p) (p_pid p) (p_ppid p) (p_xstat p)
    (p_rssize p) (p_maxrss p) (p_wchan p) (p_cpticks p) (p_pctcpu p) (p_pptr p) (p_pgrp p) (p_wmesg p).
Definition set_cpu (p : proc) (v : Z) : proc :=
    Proc (p_link p) (p_rlink p) (p_usrpri p) (p_pri p) v (p_stat p) (p_time p) (p_nice p) (p_slptime p) (p_sig p)
    (p_sigmask p) (p_sigignore p) (p_sigcatch p) (p_flag p) (p_uid p) (p_ruid p) (p_pid p) (p_ppid p) (p_xstat p)
    (p_rssize p) (p_maxrss p) (p_wchan p) (p_cpticks p) (p_pctcpu p) (p_pptr p) (p_pgrp p) (p_wmesg p).
Definition set_stat (p : proc) (v : pstat) : proc :=
    Proc (p_link p) (p_rlink p) (p_usrpri p) (p_pri p) (p_cpu p) v (p_time p) (p_nice p) (p_slptime p) (p_sig p)
    (p_sigmask p) (p_sigignore p) (p_sigcatch p) (p_flag p) (p_uid p) (p_ruid p) (p_pid p) (p_ppid p) (p_xstat p)
    (p_rssize p) (p_maxrss p) (p_wchan p) (p_cpticks p) (p_pctcpu p) (p_pptr p) (p_pgrp p) (p_wmesg p).
Definition set_time (p : proc) (v : Z) : proc :=
    Proc (p_link p) (p_rlink p) (p_usrpri p) (p_pri p) (p_cpu p) (p_stat p) v (p_nice p) (p_slptime p) (p_sig p)
    (p_sigmask p) (p_sigignore p) (p_sigcatch p) (p_flag p) (p_uid p) (p_ruid p) (p_pid p) (p_ppid p) (p_xstat p)
    (p_rssize p) (p_maxrss p) (p_wchan p) (p_cpticks p) (p_pctcpu p) (p_pptr p) (p_pgrp p) (p_wmesg p).
Definition set_nice (p : proc) (v : Z) : proc :=
    Proc (p_link p) (p_rlink p) (p_usrpri p) (p_pri p) (p_cpu p) (p_stat p) (p_time p) v (p_slptime p) (p_sig p)
    (p_sigmask p) (p_sigignore p) (p_sigcatch p) (p_flag p) (p_uid p) (p_ruid p) (p_pid p) (p_ppid p) (p_xstat p)
    (p_rssize p) (p_maxrss p) (p_wchan p) (p_cpticks p) (p_pctcpu p) (p_pptr p) (p_pgrp p) (p_wmesg p).
Definition set_slptime (p : proc) (v : Z) : proc :=
    Proc (p_link p) (p_rlink p) (p_usrpri p) (p_pri p) (p_cpu p) (p_stat p) (p_time p) (p_nice p) v (p_sig p)
    (p_sigmask p) (p_sigignore p) (p_sigcatch p) (p_flag p) (p_uid p) (p_ruid p) (p_pid p) (p_ppid p) (p_xstat p)
    (p_rssize p) (p_maxrss p) (p_wchan p) (p_cpticks p) (p_pctcpu p) (p_pptr p) (p_pgrp p) (p_wmesg p).
Definition set_sig (p : proc) (v : Z) : proc :=
    Proc (p_link p) (p_rlink p) (p_usrpri p) (p_pri p) (p_cpu p) (p_stat p) (p_time p) (p_nice p) (p_slptime p) v
    (p_sigmask p) (p_sigignore p) (p_sigcatch p) (p_flag p) (p_uid p) (p_ruid p) (p_pid p) (p_ppid p) (p_xstat p)
    (p_rssize p) (p_maxrss p) (p_wchan p) (p_cpticks p) (p_pctcpu p) (p_pptr p) (p_pgrp p) (p_wmesg p).
Definition set_sigmask (p : proc) (v : Z) : proc :=
    Proc (p_link p) (p_rlink p) (p_usrpri p) (p_pri p) (p_cpu p) (p_stat p) (p_time p) (p_nice p) (p_slptime p)
    (p_sig p) v (p_sigignore p) (p_sigcatch p) (p_flag p) (p_uid p) (p_ruid p) (p_pid p) (p_ppid p) (p_xstat p)
    (p_rssize p) (p_maxrss p) (p_wchan p) (p_cpticks p) (p_pctcpu p) (p_pptr p) (p_pgrp p) (p_wmesg p).
Definition set_sigignore (p : proc) (v : Z) : proc :=
    Proc (p_link p) (p_rlink p) (p_usrpri p) (p_pri p) (p_cpu p) (p_stat p) (p_time p) (p_nice p) (p_slptime p)
    (p_sig p) (p_sigmask p) v (p_sigcatch p) (p_flag p) (p_uid p) (p_ruid p) (p_pid p) (p_ppid p) (p_xstat p)
    (p_rssize p) (p_maxrss p) (p_wchan p) (p_cpticks p) (p_pctcpu p) (p_pptr p) (p_pgrp p) (p_wmesg p).
Definition set_sigcatch (p : proc) (v : Z) : proc :=
    Proc (p_link p) (p_rlink p) (p_usrpri p) (p_pri p) (p_cpu p) (p_stat p) (p_time p) (p_nice p) (p_slptime p)
    (p_sig p) (p_sigmask p) (p_sigignore p) v (p_flag p) (p_uid p) (p_ruid p) (p_pid p) (p_ppid p) (p_xstat p)
    (p_rssize p) (p_maxrss p) (p_wchan p) (p_cpticks p) (p_pctcpu p) (p_pptr p) (p_pgrp p) (p_wmesg p).
Definition set_flag (p : proc) (v : Z) : proc :=
    Proc (p_link p) (p_rlink p) (p_usrpri p) (p_pri p) (p_cpu p) (p_stat p) (p_time p) (p_nice p) (p_slptime p)
    (p_sig p) (p_sigmask p) (p_sigignore p) (p_sigcatch p) v (p_uid p) (p_ruid p) (p_pid p) (p_ppid p) (p_xstat p)
    (p_rssize p) (p_maxrss p) (p_wchan p) (p_cpticks p) (p_pctcpu p) (p_pptr p) (p_pgrp p) (p_wmesg p).
Definition set_xstat (p : proc) (v : Z) : proc :=
    Proc (p_link p) (p_rlink p) (p_usrpri p) (p_pri p) (p_cpu p) (p_stat p) (p_time p) (p_nice p) (p_slptime p)
    (p_sig p) (p_sigmask p) (p_sigignore p) (p_sigcatch p) (p_flag p) (p_uid p) (p_ruid p) (p_pid p) (p_ppid p) v
    (p_rssize p) (p_maxrss p) (p_wchan p) (p_cpticks p) (p_pctcpu p) (p_pptr p) (p_pgrp p) (p_wmesg p).
Definition set_wchan (p : proc) (v : Z) : proc :=
    Proc (p_link p) (p_rlink p) (p_usrpri p) (p_pri p) (p_cpu p) (p_stat p) (p_time p) (p_nice p) (p_slptime p)
    (p_sig p) (p_sigmask p) (p_sigignore p) (p_sigcatch p) (p_flag p) (p_uid p) (p_ruid p) (p_pid p) (p_ppid p)
    (p_xstat p) (p_rssize p) (p_maxrss p) v (p_cpticks p) (p_pctcpu p) (p_pptr p) (p_pgrp p) (p_wmesg p).
Definition set_cpticks (p : proc) (v : Z) : proc :=
    Proc (p_link p) (p_rlink p) (p_usrpri p) (p_pri p) (p_cpu p) (p_stat p) (p_time p) (p_nice p) (p_slptime p)
    (p_sig p) (p_sigmask p) (p_sigignore p) (p_sigcatch p) (p_flag p) (p_uid p) (p_ruid p) (p_pid p) (p_ppid p)
    (p_xstat p) (p_rssize p) (p_maxrss p) (p_wchan p) v (p_pctcpu p) (p_pptr p) (p_pgrp p) (p_wmesg p).
Definition set_pctcpu (p : proc) (v : Z) : proc :=
    Proc (p_link p) (p_rlink p) (p_usrpri p) (p_pri p) (p_cpu p) (p_stat p) (p_time p) (p_nice p) (p_slptime p)
    (p_sig p) (p_sigmask p) (p_sigignore p) (p_sigcatch p) (p_flag p) (p_uid p) (p_ruid p) (p_pid p) (p_ppid p)
    (p_xstat p) (p_rssize p) (p_maxrss p) (p_wchan p) (p_cpticks p) v (p_pptr p) (p_pgrp p) (p_wmesg p).
Definition set_wmesg (p : proc) (v : Z) : proc :=
    Proc (p_link p) (p_rlink p) (p_usrpri p) (p_pri p) (p_cpu p) (p_stat p) (p_time p) (p_nice p) (p_slptime p)
    (p_sig p) (p_sigmask p) (p_sigignore p) (p_sigcatch p) (p_flag p) (p_uid p) (p_ruid p) (p_pid p) (p_ppid p)
    (p_xstat p) (p_rssize p) (p_maxrss p) (p_wchan p) (p_cpticks p) (p_pctcpu p) (p_pptr p) (p_pgrp p) v.

(** One sleep queue; [sq_tailp] means nothing while the queue is empty. *)
Record slpq := Sq { sq_head : ptr; sq_tailp : option loc }.

(** Global variables of the scheduler; [ast] is what aston() sets. *)
Record sysvars := Sys {
  curpri : Z;
  runrun : Z;
  ast : bool;
  noproc : bool;
  runin : Z;
  runout : Z;
  wantin : Z;
  freemem : Z;
  desfree : Z;
  averunnable : Z; (** its first entry *)
  hz : Z;
  cold : bool
}.

Definition set_curpri (s : sysvars) (v : Z) : sysvars :=
    Sys v (runrun s) (ast s) (noproc s) (runin s) (runout s) (wantin s) (freemem s) (desfree s) (averunnable s)
    (hz s) (cold s).
Definition set_runrun (s : sysvars) (v : Z) : sysvars :=
    Sys (curpri s) v (ast s) (noproc s) (runin s) (runout s) (wantin s) (freemem s) (desfree s) (averunnable s)
    (hz s) (cold s).
Definition set_ast (s : sysvars) (v : bool) : sysvars :=
    Sys (curpri s) (runrun s) v (noproc s) (runin s) (runout s) (wantin s) (freemem s) (desfree s) (averunnable s)
    (hz s) (cold s).
Definition set_runin (s : sysvars) (v : Z) : sysvars :=
    Sys (curpri s) (runrun s) (ast s) (noproc s) v (runout s) (wantin s) (freemem s) (desfree s) (averunnable s)
    (hz s) (cold s).
Definition set_runout (s : sysvars) (v : Z) : sysvars :=
    Sys (curpri s) (runrun s) (ast s) (noproc s) (runin s) v (wantin s) (freemem s) (desfree s) (averunnable s)
    (hz s) (cold s).
Definition set_wantin (s : sysvars) (v : Z) : sysvars :=
    Sys (curpri s) (runrun s) (ast s) (noproc s) (runin s) (runout s) v (freemem s) (desfree s) (averunnable s)
    (hz s) (cold s).
Definition set_noproc (s : sysvars) (v : bool) : sysvars :=
    Sys (curpri s) (runrun s) (ast s) v (runin s) (runout s) (wantin s) (freemem s) (desfree s) (averunnable s)
    (hz s) (cold s).

Record kst := K {
  procs : list proc; (** the table [proc] *)
  qs : list (ptr * ptr); (** [ph_link] and [ph_rlink] of each run queue *)
  whichqs : Z;
  slpque : list slpq;
  allproc : list nat; (** the slots, in the order of [p_nxt] *)
  u_procp : nat;
  sys : sysvars
}.

Definition with_procs (st : kst) (v : list proc) : kst :=
    K v (qs st) (whichqs st) (slpque st) (allproc st) (u_procp st) (sys st).
Definition with_qs (st : kst) (v : list (ptr * ptr)) : kst :=
    K (procs st) v (whichqs st) (slpque st) (allproc st) (u_procp st) (sys st).
Definition with_whichqs (st : kst) (v : Z) : kst :=
    K (procs st) (qs st) v (slpque st) (allproc st) (u_procp st) (sys st).
Definition with_slpque (st : kst) (v : list slpq) : kst :=
    K (procs st) (qs st) (whichqs st) v (allproc st) (u_procp st) (sys st).
Definition with_sys (st : kst) (v : sysvars) : kst :=
    K (procs st) (qs st) (whichqs st) (slpque st) (allproc st) (u_procp st) v.
Definition with_u_procp (st : kst) (v : nat) : kst :=
    K (procs st) (qs st) (whichqs st) (slpque st) (allproc st) v (sys st).

(** ** Reading and writing *)

Definition getp (st : kst) (i : nat) : outcome proc :=
  match procs st !! i with Some p => Ret p | None => Fault end.
Definition putp (st : kst) (i : nat) (p : proc) : kst := with_procs st (<[i := p]> (procs st)).

(** [p->p_link] and [p->p_rlink] for a process or a queue header. *)
Definition link_of (st : kst) (a : ptr) : option ptr :=
  match a with
  | PNULL => None
  | PP i => p_link <$> procs st !! i
  | PQ k => fst <$> qs st !! k
  end.
Definition rlink_of (st : kst) (a : ptr) : option ptr :=
  match a with
  | PNULL => None
  | PP i => p_rlink <$> procs st !! i
  | PQ k => snd <$> qs st !! k
  end.
#[global] Arguments link_of : simpl never.
#[global] Arguments rlink_of : simpl never.
Definition write_link (st : kst) (a v : ptr) : outcome kst :=
  match a with
  | PNULL => Fault
  | PP i => p ← getp st i; Ret (putp st i (set_link p v))
  | PQ k => match qs st !! k with Some q => Ret (with_qs st (<[k := (v, q.2)]> (qs st))) | None => Fault end
  end.
Definition write_rlink (st : kst) (a v : ptr) : outcome kst :=
  match a with
  | PNULL => Fault
  | PP i => p ← getp st i; Ret (putp st i (set_rlink p v))
  | PQ k => match qs st !! k with Some q => Ret (with_qs st (<[k := (q.1, v)]> (qs st))) | None => Fault end
  end.
Definition read {A} (o : option A) : outcome A := match o with Some a => Ret a | None => Fault end.

(** [*q] and [*q = v] for a [struct proc **]. *)
Definition deref (st : kst) (q : loc) : outcome ptr :=
  match q with
  | SqHead h => match slpque st !! h with Some s => Ret (sq_head s) | None => Fault end
  | Link i => p ← getp st i; Ret (p_link p)
  end.
Definition assign (st : kst) (q : loc) (v : ptr) : outcome kst :=
  match q with
  | SqHead h =>
      match slpque st !! h with
      | Some s => Ret (with_slpque st (<[h := Sq v (sq_tailp s)]> (slpque st)))
      | None => Fault
      end
  | Link i => write_link st (PP i) v
  end.

End Proc.
