(* ===== verification/RunQueue.v ===== *)
(** The run queues: setrq and remrq, the part of swtch that takes the next
    process (GENERIC.allvax/locore.c, assembly), and rqinit (kern_synch.c).
    Each of the 32 queues is a doubly linked circle through its header, and
    [whichqs] has a bit for each queue that is not empty. *)
From stdpp Require Import base numbers list strings.
From Stdlib Require Import ZArith Lia.
From S2P Require Import Prelude Proc.

Module RunQueue.
Import Proc.

(** ** Operations *)

(** The queue of a priority: [movzbl P_PRI; ashl $-2]. *)
Definition qindex (pri : Z) : nat := Z.to_nat (Z.shiftr (u8 pri) 2).

(** The instructions insque (after [pred]) and remque. *)
Definition insque (st : kst) (e pred : ptr) : outcome kst :=
  succ ← read (link_of st pred);
  st ← write_link st e succ;
  st ← write_rlink st e pred;
  st ← write_rlink st succ e;
  write_link st pred e.
Definition remque (st : kst) (e : ptr) : outcome kst :=
  succ ← read (link_of st e);
  pred ← read (rlink_of st e);
  st ← write_link st pred succ;
  write_rlink st succ pred.

Definition mark (st : kst) (k : nat) : kst := with_whichqs st (Z.setbit (whichqs st) (Z.of_nat k)).
Definition unmark (st : kst) (k : nat) : kst := with_whichqs st (Z.clearbit (whichqs st) (Z.of_nat k)).

Definition setrq (st : kst) (i : nat) : outcome kst :=
  p ← getp st i;
  if bool_decide (p_rlink p <> PNULL) then Panic "setrq"
  else
    let k := qindex (p_pri p) in
    pred ← read (rlink_of st (PQ k));
    st ← insque st (PP i) pred;
    Ret (mark st k).

(** remque says whether the queue is empty afterwards: its neighbours are then
    one and the same. *)
Definition remq (st : kst) (i k : nat) : outcome kst :=
  succ ← read (link_of st (PP i));
  pred ← read (rlink_of st (PP i));
  st ← remque (unmark st k) (PP i);
  let st := if bool_decide (succ = pred) then st else mark st k in
  write_rlink st (PP i) PNULL.

Definition remrq (st : kst) (i : nat) : outcome kst :=
  p ← getp st i;
  let k := qindex (p_pri p) in
  if negb (Z.testbit (whichqs st) (Z.of_nat k)) then Panic "remrq" else remq st i k.

(** The first queue that is marked ([ffs]). *)
Fixpoint ffs_from (n k : nat) (w : Z) : option nat :=
  match n with
  | O => None
  | S n => if Z.testbit w (Z.of_nat k) then Some k else ffs_from n (S k) w
  end.

(** What swtch does to choose the next process: none when all queues are empty
    (the idle loop). *)
Definition swtch_select (st : kst) : outcome (option nat * kst) :=
  match ffs_from 32 0 (whichqs st) with
  | None => Ret (None, with_sys st (set_noproc (sys st) true))
  | Some k =>
      first ← read (link_of st (PQ k));
      match first with
      | PP i =>
          st ← remq st i k;
          let st := with_sys st (set_runrun (set_noproc (sys st) false) 0) in
          Ret (Some i, with_u_procp st i)
      | _ => Panic "swtch"
      end
  end.

Definition rqinit (st : kst) : kst := with_qs st (imap (fun k _ => (PQ k, PQ k)) (qs st)).

(** ** Rings *)

(** From [a], through the processes [l], to [z], with the links back. *)
Fixpoint rseg (st : kst) (a : ptr) (l : list nat) (z : ptr) : Prop :=
  match l with
  | [] => link_of st a = Some z /\ rlink_of st z = Some a
  | i :: l => link_of st a = Some (PP i) /\ rlink_of st (PP i) = Some a /\ rseg st (PP i) l z
  end.

Fixpoint lastp (a : ptr) (l : list nat) : ptr :=
  match l with [] => a | i :: l => lastp (PP i) l end.
Definition headp (l : list nat) (z : ptr) : ptr := match l with [] => z | i :: _ => PP i end.

Lemma rseg_app st z i l2 : forall l1 a,
  rseg st a (l1 ++ i :: l2) z <-> rseg st a l1 (PP i) /\ rseg st (PP i) l2 z.
Proof. induction l1 as [|j l1 IH]; intros a; cbn; [tauto|]. rewrite IH. tauto. Qed.

Lemma rseg_head st z : forall l a, rseg st a l z -> link_of st a = Some (headp l z) /\ rlink_of st (headp l z) = Some a.
Proof. intros [|i l] a H; cbn in *; tauto. Qed.

Lemma rseg_last st z : forall l a, rseg st a l z -> link_of st (lastp a l) = Some z /\ rlink_of st z = Some (lastp a l).
Proof. induction l as [|i l IH]; intros a H; cbn in *; [done|]. destruct H as (_ & _ & H); by apply IH. Qed.

Lemma in_hd {A} (x : A) l : x ∈ x :: l.
Proof. apply elem_of_cons. by left. Qed.
Lemma in_tl {A} (x y : A) l : x ∈ l -> x ∈ y :: l.
Proof. intros H. apply elem_of_cons. by right. Qed.
#[local] Hint Resolve in_hd in_tl : core.

Lemma lastp_in : forall l a, lastp a l = a \/ lastp a l ∈ PP <$> l.
Proof.
  induction l as [|i l IH]; intros a; cbn; [by left|]. right. destruct (IH (PP i)) as [-> | H]; auto.
Qed.

Lemma lastp_snoc i : forall l a, lastp a (l ++ [i]) = PP i.
Proof. induction l as [|j l IH]; intros a; cbn; [done|]. apply IH. Qed.

Lemma rseg_ext st st' z : forall l a, rseg st a l z ->
  (forall x, x = a \/ x ∈ PP <$> l -> link_of st' x = link_of st x) ->
  (forall x, x = z \/ x ∈ PP <$> l -> rlink_of st' x = rlink_of st x) -> rseg st' a l z.
Proof.
  induction l as [|i l IH]; intros a H Hl Hr; cbn in *.
  - rewrite Hl, Hr by (by left). done.
  - destruct H as (H1 & H2 & H3). rewrite (Hl a), (Hr (PP i)) by auto. splits; [done|done|].
    apply IH; [done| |]; intros x [-> | Hx]; auto.
Qed.

(** A segment with another end. *)
Lemma rseg_retarget st st' z b : forall l a, NoDup (a :: (PP <$> l)) -> rseg st a l z ->
  (forall x, x = a \/ x ∈ PP <$> l -> x <> lastp a l -> link_of st' x = link_of st x) ->
  (forall x, x ∈ PP <$> l -> rlink_of st' x = rlink_of st x) ->
  link_of st' (lastp a l) = Some b -> rlink_of st' b = Some (lastp a l) -> rseg st' a l b.
Proof.
  induction l as [|i l IH]; intros a Hn H Hl Hr H1 H2; cbn in *; [done|].
  destruct H as (G1 & G2 & G3). inversion Hn as [|? ? Hna Hn']; subst.
  assert (Ha : a <> lastp (PP i) l).
  { intros E. apply Hna. rewrite E. destruct (lastp_in l (PP i)) as [-> | E']; auto. }
  rewrite (Hl a), (Hr (PP i)) by auto. splits; [done|done|]. apply IH; try done; auto.
  intros x [-> | Hx]; auto.
Qed.

(** ** What the links carry *)

(** A process without its links; a step on links alone keeps all of them. *)
Definition core (p : proc) : proc := set_rlink (set_link p PNULL) PNULL.
Definition cores (st : kst) : list proc := core <$> procs st.

Definition links_only (st st' : kst) : Prop :=
  cores st' = cores st /\ length (qs st') = length (qs st) /\ slpque st' = slpque st /\
  allproc st' = allproc st /\ u_procp st' = u_procp st /\ sys st' = sys st.

Lemma links_only_refl st : links_only st st.
Proof. unfold links_only. by splits. Qed.

Lemma links_only_trans a b c : links_only a b -> links_only b c -> links_only a c.
Proof. unfold links_only. intros H1 H2. conj. splits; congruence. Qed.

Lemma links_only_proc st st' i p : links_only st st' -> procs st !! i = Some p ->
  exists p', procs st' !! i = Some p' /\ core p' = core p.
Proof.
  intros (H & _) Hi. apply (f_equal (fun l => l !! i)) in H. unfold cores in H. rewrite !list_lookup_fmap, Hi in H. cbn in H.
  destruct (procs st' !! i) as [p'|]; [|done]. exists p'. split; [done|]. by apply (inj Some) in H.
Qed.

Lemma proc_ext (p p' : proc) : core p = core p' -> p_link p = p_link p' -> p_rlink p = p_rlink p' -> p = p'.
Proof. destruct p, p'. unfold core, set_link, set_rlink. cbn. intros H -> ->. injection H; intros; by subst. Qed.

Lemma links_only_same st st' i : links_only st st' -> link_of st' (PP i) = link_of st (PP i) ->
  rlink_of st' (PP i) = rlink_of st (PP i) -> procs st' !! i = procs st !! i.
Proof.
  intros (H & _) E1 E2. apply (f_equal (fun l => l !! i)) in H. unfold cores in H. rewrite !list_lookup_fmap in H.
  unfold link_of, rlink_of in *. destruct (procs st' !! i) as [p'|], (procs st !! i) as [p|]; cbn in *; try done.
  apply (inj Some) in H. injection E1 as E1. injection E2 as E2. f_equal. by apply proc_ext.
Qed.

(** The fields of a process are those of its core. *)
Lemma core_fields p p' : core p = core p' ->
  p_stat p = p_stat p' /\ p_pri p = p_pri p' /\ p_wchan p = p_wchan p' /\ p_flag p = p_flag p' /\
  p_slptime p = p_slptime p' /\ p_usrpri p = p_usrpri p' /\ p_cpu p = p_cpu p' /\ p_sig p = p_sig p'.
Proof.
  intros H. splits; [exact (f_equal p_stat H)|exact (f_equal p_pri H)|exact (f_equal p_wchan H)|exact (f_equal p_flag H)|
    exact (f_equal p_slptime H)|exact (f_equal p_usrpri H)|exact (f_equal p_cpu H)|exact (f_equal p_sig H)].
Qed.

Lemma cores_insert (l : list proc) (i : nat) p p' : l !! i = Some p -> core p' = core p -> core <$> <[i := p']> l = core <$> l.
Proof. intros Hi E. rewrite list_fmap_insert, E. apply list_insert_id. by rewrite list_lookup_fmap, Hi. Qed.

Lemma putp_links st i p p' : procs st !! i = Some p -> core p' = core p -> links_only st (putp st i p').
Proof. intros Hi E. unfold links_only, cores, putp. cbn. splits; try done. by eapply cores_insert. Qed.

Lemma link_putp st i p x : (i < length (procs st))%nat ->
  link_of (putp st i p) x = (if decide (x = PP i) then Some (p_link p) else link_of st x) /\
  rlink_of (putp st i p) x = (if decide (x = PP i) then Some (p_rlink p) else rlink_of st x).
Proof.
  intros Hi. unfold link_of, rlink_of, putp. destruct x as [|j|k]; cbn; [done| |done].
  destruct (decide (i = j)) as [->|Hne].
  - rewrite !list_lookup_insert_eq by done. cbn. by rewrite !decide_True.
  - rewrite !list_lookup_insert_ne by done. by rewrite !decide_False by congruence.
Qed.

Lemma write_link_ok st a v w : link_of st a = Some w ->
  exists st', write_link st a v = Ret st' /\ links_only st st' /\ whichqs st' = whichqs st /\
    (forall x, link_of st' x = if decide (x = a) then Some v else link_of st x) /\
    (forall x, rlink_of st' x = rlink_of st x).
Proof.
  intros Ha. destruct a as [|i|k]; [done| |].
  - unfold link_of in Ha. destruct (procs st !! i) as [p|] eqn:Ei; [|done]. unfold write_link, getp. rewrite Ei. bind.
    eexists. split; [reflexivity|]. split; [by eapply putp_links|]. split; [done|].
    pose proof (lookup_lt_Some _ _ _ Ei) as Hlt. split; intros x; destruct (link_putp st i (set_link p v) x Hlt) as [E1 E2].
    + done.
    + rewrite E2. destruct (decide _) as [->|]; [|done]. unfold rlink_of. by rewrite Ei.
  - unfold link_of in Ha. destruct (qs st !! k) as [q|] eqn:Ek; [|done]. unfold write_link. rewrite Ek.
    pose proof (lookup_lt_Some _ _ _ Ek) as Hlt. eexists. split; [reflexivity|].
    split; [unfold links_only; cbn; by rewrite length_insert|]. split; [done|].
    split; intros [|i|k']; try done; unfold link_of, rlink_of; cbn.
    + destruct (decide (k = k')) as [->|Hne]; [by rewrite list_lookup_insert_eq, decide_True|].
      by rewrite list_lookup_insert_ne, decide_False by congruence.
    + destruct (decide (k = k')) as [->|Hne]; [by rewrite list_lookup_insert_eq, Ek|]. by rewrite list_lookup_insert_ne.
Qed.

Lemma write_rlink_ok st a v w : rlink_of st a = Some w ->
  exists st', write_rlink st a v = Ret st' /\ links_only st st' /\ whichqs st' = whichqs st /\
    (forall x, link_of st' x = link_of st x) /\
    (forall x, rlink_of st' x = if decide (x = a) then Some v else rlink_of st x).
Proof.
  intros Ha. destruct a as [|i|k]; [done| |].
  - unfold rlink_of in Ha. destruct (procs st !! i) as [p|] eqn:Ei; [|done]. unfold write_rlink, getp. rewrite Ei. bind.
    eexists. split; [reflexivity|]. split; [by eapply putp_links|]. split; [done|].
    pose proof (lookup_lt_Some _ _ _ Ei) as Hlt. split; intros x; destruct (link_putp st i (set_rlink p v) x Hlt) as [E1 E2].
    + rewrite E1. destruct (decide _) as [->|]; [|done]. unfold link_of. by rewrite Ei.
    + done.
  - unfold rlink_of in Ha. destruct (qs st !! k) as [q|] eqn:Ek; [|done]. unfold write_rlink. rewrite Ek.
    pose proof (lookup_lt_Some _ _ _ Ek) as Hlt. eexists. split; [reflexivity|].
    split; [unfold links_only; cbn; by rewrite length_insert|]. split; [done|].
    split; intros [|i|k']; try done; unfold link_of, rlink_of; cbn.
    + destruct (decide (k = k')) as [->|Hne]; [by rewrite list_lookup_insert_eq, Ek|]. by rewrite list_lookup_insert_ne.
    + destruct (decide (k = k')) as [->|Hne]; [by rewrite list_lookup_insert_eq, decide_True|].
      by rewrite list_lookup_insert_ne, decide_False by congruence.
Qed.

Lemma link_rlink st a w : link_of st a = Some w -> exists w', rlink_of st a = Some w'.
Proof.
  destruct a as [|i|k]; unfold link_of, rlink_of; [done| |].
  - destruct (procs st !! i) as [p|]; [|done]. by eexists.
  - destruct (qs st !! k) as [p|]; [|done]. by eexists.
Qed.

Lemma rlink_link st a w : rlink_of st a = Some w -> exists w', link_of st a = Some w'.
Proof.
  destruct a as [|i|k]; unfold link_of, rlink_of; [done| |].
  - destruct (procs st !! i) as [p|]; [|done]. by eexists.
  - destruct (qs st !! k) as [p|]; [|done]. by eexists.
Qed.

(** ** The queues *)

Record rq_inv (st : kst) (rq : nat -> list nat) : Prop := Rq {
  rq_len : length (qs st) = 32%nat;
  rq_ring : forall k, (k < 32)%nat -> rseg st (PQ k) (rq k) (PQ k);
  rq_nodup : forall k, (k < 32)%nat -> NoDup (rq k);
  rq_home : forall k i, (k < 32)%nat -> i ∈ rq k ->
    exists p, procs st !! i = Some p /\ p_rlink p <> PNULL /\ qindex (p_pri p) = k;
  rq_linked : forall i p, procs st !! i = Some p -> p_rlink p <> PNULL -> exists k, (k < 32)%nat /\ i ∈ rq k;
  rq_mark : forall k, (k < 32)%nat -> Z.testbit (whichqs st) (Z.of_nat k) = bool_decide (rq k <> [])
}.

Definition enq (rq : nat -> list nat) (k i : nat) (k' : nat) : list nat :=
  if decide (k' = k) then rq k ++ [i] else rq k'.
Definition deq (rq : nat -> list nat) (k i : nat) (k' : nat) : list nat :=
  if decide (k' = k) then filter (fun j => j <> i) (rq k) else rq k'.

Lemma nodup_ring k l : NoDup l -> NoDup (PQ k :: (PP <$> l)).
Proof.
  intros H. apply NoDup_cons. split.
  - intros Hx. apply list_elem_of_fmap in Hx as (i & ? & _). done.
  - apply NoDup_fmap; [|done]. by intros i j [= ->].
Qed.

Lemma pq_notin k (l : list nat) : PQ k ∉ PP <$> l.
Proof. intros H. apply list_elem_of_fmap in H as (i & ? & _). done. Qed.

Lemma pp_in i (l : list nat) : PP i ∈ PP <$> l <-> i ∈ l.
Proof.
  rewrite list_elem_of_fmap. split; [intros (j & [= ->] & H); done|]. intros H. by exists i.
Qed.

(** What is on no queue keeps its links. *)
Definition off_rings (rq : nat -> list nat) (i : nat) : Prop := forall k, (k < 32)%nat -> i ∉ rq k.

Lemma lastp_ring k l : lastp (PQ k) l = PQ k \/ exists i, lastp (PQ k) l = PP i /\ i ∈ l.
Proof.
  destruct (lastp_in l (PQ k)) as [H|H]; [by left|right]. apply list_elem_of_fmap in H as (i & E & H). by exists i.
Qed.

Lemma rseg_mark st a l z k : rseg st a l z -> rseg (mark st k) a l z.
Proof. intros H. by eapply rseg_ext. Qed.

Lemma insque_ok st e pred succ w : link_of st pred = Some succ -> rlink_of st succ = Some pred -> link_of st e = Some w ->
  e <> pred -> e <> succ ->
  exists st', insque st e pred = Ret st' /\ links_only st st' /\ whichqs st' = whichqs st /\
    (forall x, link_of st' x = if decide (x = pred) then Some e else if decide (x = e) then Some succ else link_of st x) /\
    (forall x, rlink_of st' x = if decide (x = succ) then Some e else if decide (x = e) then Some pred else rlink_of st x).
Proof.
  intros L1 L2 L3 H1 H2. destruct (link_rlink st e w L3) as [w0 R0]. unfold insque. rewrite L1. cbn [read]. bind.
  destruct (write_link_ok st e succ w L3) as (s1 & -> & O1 & W1 & A1 & B1). bind.
  destruct (write_rlink_ok s1 e pred w0) as (s2 & -> & O2 & W2 & A2 & B2); [by rewrite B1|]. bind.
  destruct (write_rlink_ok s2 succ e pred) as (s3 & -> & O3 & W3 & A3 & B3); [by rewrite B2, B1, decide_False|]. bind.
  destruct (write_link_ok s3 pred e succ) as (s4 & -> & O4 & W4 & A4 & B4); [by rewrite A3, A2, A1, decide_False|].
  exists s4. split; [done|]. split; [eauto using links_only_trans|]. split; [congruence|].
  split; intros x; [by rewrite A4, A3, A2, A1|by rewrite B4, B3, B2, B1].
Qed.

Lemma remque_ok st e pred succ : link_of st e = Some succ -> rlink_of st e = Some pred ->
  link_of st pred = Some e -> rlink_of st succ = Some e ->
  exists st', remque st e = Ret st' /\ links_only st st' /\ whichqs st' = whichqs st /\
    (forall x, link_of st' x = if decide (x = pred) then Some succ else link_of st x) /\
    (forall x, rlink_of st' x = if decide (x = succ) then Some pred else rlink_of st x).
Proof.
  intros L1 L2 L3 L4. unfold remque. rewrite L1, L2. cbn [read]. bind.
  destruct (write_link_ok st pred succ e L3) as (s1 & -> & O1 & W1 & A1 & B1). bind.
  destruct (write_rlink_ok s1 succ pred e) as (s2 & -> & O2 & W2 & A2 & B2); [by rewrite B1|].
  exists s2. split; [done|]. split; [eauto using links_only_trans|]. split; [congruence|].
  split; intros x; [by rewrite A2, A1|by rewrite B2, B1].
Qed.

(** A step on the ring of queue [k] and process [i] leaves everything else. *)
Definition on_ring (rq : nat -> list nat) (k i : nat) (x : ptr) : Prop := x = PQ k \/ x = PP i \/ x ∈ PP <$> rq k.
Definition ring_step (st st' : kst) (rq : nat -> list nat) (k i : nat) : Prop :=
  links_only st st' /\ forall x, ~ on_ring rq k i x -> link_of st' x = link_of st x /\ rlink_of st' x = rlink_of st x.

Lemma other_ring st st' rq k k' i : rq_inv st rq -> (k < 32)%nat -> (k' < 32)%nat -> k' <> k -> i ∉ rq k' ->
  ring_step st st' rq k i -> rseg st' (PQ k') (rq k') (PQ k').
Proof.
  intros [Hlen Hring Hnd Hhome Hlinked Hmark] Hk Hk' Hne Hi [_ Hs].
  assert (Hoff : forall x, x = PQ k' \/ x ∈ PP <$> rq k' -> ~ on_ring rq k i x).
  { intros x Hx [->|[->|Hy]].
    - destruct Hx as [[= ->]|Hx]; [done|]. by apply pq_notin in Hx.
    - destruct Hx as [?|Hx]; [done|]. by apply pp_in in Hx.
    - apply list_elem_of_fmap in Hy as (j & -> & Hj). destruct Hx as [?|Hx]; [done|]. apply pp_in in Hx.
      destruct (Hhome k j Hk Hj) as (p1 & G1 & _ & G2). destruct (Hhome k' j Hk' Hx) as (p2 & G3 & _ & G4). congruence. }
  eapply (rseg_ext st st'); [by apply Hring|intros x Hx; by apply Hs, Hoff|intros x Hx; by apply Hs, Hoff].
Qed.

Lemma ring_step_off st st' rq k i j : ring_step st st' rq k i -> (k < 32)%nat -> j <> i -> off_rings rq j ->
  procs st' !! j = procs st !! j.
Proof.
  intros [O Hs] Hk Hne Hj. destruct (Hs (PP j)) as [E1 E2].
  - intros [?|[[= ->]|H]]; [done|done|]. apply pp_in in H. by apply (Hj k).
  - by apply links_only_same.
Qed.

(** The links back of the members of a ring are never null. *)
Lemma ring_rlink st z : forall l a, rseg st a l z -> a <> PNULL ->
  forall i, i ∈ l -> exists p, procs st !! i = Some p /\ p_rlink p <> PNULL.
Proof.
  induction l as [|j l IH]; intros a H Ha i Hi; [by apply not_elem_of_nil in Hi|]. cbn in H. destruct H as (_ & H2 & H3).
  apply elem_of_cons in Hi as [->|Hi]; [|by eapply IH]. unfold rlink_of in H2.
  destruct (procs st !! j) as [p|]; [|done]. exists p. split; [done|]. injection H2 as ->. done.
Qed.

(** The new ring is all there is to show for the invariant. *)
Lemma ring_inv st st' rq rq' k i : rq_inv st rq -> (k < 32)%nat -> ring_step st st' rq k i -> (forall k', (k' < 32)%nat -> k' <> k -> i ∉ rq k') ->
  (forall k', k' <> k -> rq' k' = rq k') -> rseg st' (PQ k) (rq' k) (PQ k) -> NoDup (rq' k) ->
  (forall j, j ∈ rq' k -> exists p, procs st !! j = Some p /\ qindex (p_pri p) = k) ->
  (forall j p', procs st' !! j = Some p' -> p_rlink p' <> PNULL -> j = i \/ j ∈ rq k -> j ∈ rq' k) ->
  (forall k', (k' < 32)%nat -> Z.testbit (whichqs st') (Z.of_nat k') = bool_decide (rq' k' <> [])) -> rq_inv st' rq'.
Proof.
  intros HI Hk Hs Hi Hrq Hseg Hnd' Hmem Hnew Hmark'. pose proof HI as [Hlen Hring Hnd Hhome Hlinked Hmark]. pose proof Hs as [O Hx].
  assert (Hring' : forall k', (k' < 32)%nat -> rseg st' (PQ k') (rq' k') (PQ k')).
  { intros k' Hk'. destruct (decide (k' = k)) as [->|Hne]; [done|]. rewrite Hrq by done.
    by apply (other_ring st st' rq k k' i); try apply Hi. }
  constructor; try done.
  - destruct O as (_ & E & _). by rewrite E.
  - intros k' Hk'. destruct (decide (k' = k)) as [->|Hne]; [done|]. rewrite Hrq by done. by apply Hnd.
  - intros k' j Hk' Hj. destruct (ring_rlink st' _ _ _ (Hring' k' Hk') ltac:(done) j Hj) as (p' & E & R). exists p'. splits; try done.
    assert (Hp : exists p, procs st !! j = Some p /\ qindex (p_pri p) = k').
    { destruct (decide (k' = k)) as [->|Hne]; [by apply Hmem|]. rewrite Hrq in Hj by done.
      destruct (Hhome k' j Hk' Hj) as (p & G1 & _ & G2). by exists p. }
    destruct Hp as (p & Ep & <-). destruct (links_only_proc st st' j p O Ep) as (p2 & E2 & C). rewrite E in E2. injection E2 as <-.
    by apply core_fields in C as (_ & -> & _).
  - intros j p' Hj Hr. destruct (decide (j = i \/ j ∈ rq k)) as [Hon|Hoff].
    + exists k. split; [done|]. by apply (Hnew j p' Hj Hr).
    + destruct (Hx (PP j)) as [E1 E2].
      { intros [?|[[= ->]|H]]; [done|apply Hoff; by left|apply Hoff; right; by apply pp_in in H]. } rewrite (links_only_same st st' j O E1 E2) in Hj.
      destruct (Hlinked j p' Hj Hr) as (k' & Hk' & Hin). exists k'. split; [done|].
      rewrite Hrq; [done|]. intros ->. apply Hoff. by right.
Qed.

Lemma setrq_ok st rq i p : rq_inv st rq -> procs st !! i = Some p -> p_rlink p = PNULL -> (qindex (p_pri p) < 32)%nat ->
  exists st', setrq st i = Ret st' /\ links_only st st' /\ rq_inv st' (enq rq (qindex (p_pri p)) i) /\
    forall j, j <> i -> off_rings rq j -> procs st' !! j = procs st !! j.
Proof.
  intros HI Hi Hr Hk. pose proof HI as [Hlen Hring Hnd Hhome Hlinked Hmark]. set (k := qindex (p_pri p)) in *.
  unfold setrq, getp. rewrite Hi. bind. rewrite bool_decide_eq_false_2 by (intros H; done). fold k.
  assert (Hoff : forall k', (k' < 32)%nat -> i ∉ rq k').
  { intros k' Hk' Hx. destruct (Hhome k' i Hk' Hx) as (p' & E & H & _). rewrite Hi in E. by injection E as <-. }
  pose proof (Hring k Hk) as Hseg. destruct (rseg_last _ _ _ _ Hseg) as [L1 L2].
  pose proof (lastp_ring k (rq k)) as Hz. set (z := lastp (PQ k) (rq k)) in *.
  assert (Hzi : z <> PP i).
  { destruct Hz as [->|(j & -> & Hj)]; [done|]. intros [= ->]. by apply (Hoff k). }
  rewrite L2. cbn [read]. bind.
  destruct (insque_ok st (PP i) z (PQ k) (p_link p) L1 L2) as (s4 & -> & O & Hw & A & B); [unfold link_of; by rewrite Hi|done|done|].
  bind. exists (mark s4 k). split; [done|]. split; [done|].
  assert (HS : ring_step st s4 rq k i).
  { split; [done|]. intros x Hx. rewrite A, B. unfold on_ring in Hx.
    assert (x <> z) by (intros ->; destruct Hz as [E|(j & E & Hj)]; rewrite E in Hx; apply Hx; [by left|right; right; by apply pp_in]).
    rewrite !decide_False by tauto. done. }
  split; [|intros j Hj Hj'; by eapply (ring_step_off st s4 rq k i)].
  eapply (ring_inv st (mark s4 k) rq _ k i HI Hk HS); unfold enq.
  - intros k' Hk' _. by apply Hoff.
  - intros k' Hne. by rewrite decide_False.
  - rewrite decide_True by done. apply rseg_mark, rseg_app. split.
    + eapply (rseg_retarget st s4 (PQ k)); [by apply nodup_ring, Hnd|done|..]; fold z.
      * intros x Hx Hxz. rewrite A, decide_False, decide_False; [done| |done]. intros ->.
        destruct Hx as [Hx|Hx]; [done|]. apply pp_in in Hx. by apply (Hoff k).
      * intros x Hx. rewrite B, decide_False, decide_False; [done| |].
        -- intros ->. apply pp_in in Hx. by apply (Hoff k).
        -- intros ->. by apply pq_notin in Hx.
      * by rewrite A, decide_True.
      * by rewrite B, decide_False, decide_True.
    + cbn. rewrite A, B. rewrite decide_False by congruence. by rewrite !decide_True.
  - rewrite decide_True by done. apply NoDup_app. splits; [by apply Hnd| |apply NoDup_singleton]. intros j Hj Hj'.
    apply list_elem_of_singleton in Hj' as ->. by apply (Hoff k).
  - rewrite decide_True by done. intros j Hj. apply elem_of_app in Hj as [Hj|Hj].
    + destruct (Hhome k j Hk Hj) as (p1 & G1 & _ & G2). by exists p1.
    + apply list_elem_of_singleton in Hj as ->. by exists p.
  - intros j p' _ _ Hj. rewrite decide_True by done. apply elem_of_app. destruct Hj as [->|Hj]; [right|by left].
    by apply list_elem_of_singleton.
  - intros k' Hk'. cbn. rewrite Hw. rewrite Z.setbit_eqb by lia. destruct (decide (k' = k)) as [->|Hne].
    + rewrite Z.eqb_refl. cbn. rewrite bool_decide_eq_true_2; [done|]. by destruct (rq k).
    + destruct (Z.eqb_spec (Z.of_nat k) (Z.of_nat k')); [lia|]. cbn. by apply Hmark.
Qed.

(** ** Removal *)

Lemma rseg_remove st st' z i : forall l1 l2 a, NoDup (a :: (PP <$> l1 ++ i :: l2)) -> z ∉ PP <$> l1 ++ i :: l2 ->
  (z = a \/ z <> a) -> rseg st a (l1 ++ i :: l2) z ->
  (forall x, link_of st' x = if decide (x = lastp a l1) then Some (headp l2 z) else link_of st x) ->
  (forall x, rlink_of st' x = if decide (x = headp l2 z) then Some (lastp a l1) else rlink_of st x) ->
  rseg st' a (l1 ++ l2) z.
Proof.
  intros l1 l2 a Hn Hz _ H A B. apply rseg_app in H as [H1 H2].
  rewrite fmap_app, fmap_cons in Hn, Hz.
  assert (Hn1 : NoDup (a :: (PP <$> l1))).
  { rewrite app_comm_cons in Hn. by apply NoDup_app in Hn as (? & _ & _). }
  assert (Hdis : forall x, x = a \/ x ∈ PP <$> l1 -> x ∉ PP <$> i :: l2).
  { intros x Hx Hy. rewrite app_comm_cons in Hn. apply NoDup_app in Hn as (_ & Hd & _).
    apply (Hd x); [|done]. apply elem_of_cons. tauto. }
  assert (Hb : forall b, headp l2 z = b -> rseg st' a l1 b).
  { intros b Eb. eapply rseg_retarget; [done|exact H1|..].
    - intros x _ Hx. by rewrite A, decide_False.
    - intros x Hx. rewrite B, decide_False; [done|]. intros ->. destruct l2 as [|j l2]; cbn in Hx.
      + apply Hz. apply elem_of_app. by left.
      + apply (Hdis (PP j)); [by right|]. apply pp_in. auto.
    - by rewrite A, decide_True, Eb.
    - by rewrite B, decide_True. }
  destruct l2 as [|j l2]; [rewrite app_nil_r; by apply Hb|]. apply rseg_app. split; [by apply Hb|].
  cbn in H2. destruct H2 as (_ & _ & H2). eapply rseg_ext; [exact H2| |].
  - intros x Hx. rewrite A, decide_False; [done|]. intros ->. apply (Hdis (lastp a l1)).
    + destruct (lastp_in l1 a); [by left|by right].
    + destruct Hx as [->|Hx]; [apply pp_in; auto|]. rewrite !fmap_cons. auto.
  - intros x Hx. cbn [headp] in B. rewrite B, decide_False; [done|]. intros ->. destruct Hx as [Hx|Hx].
    + apply Hz. rewrite <- Hx. apply elem_of_app. right. rewrite !fmap_cons. auto.
    + rewrite app_comm_cons in Hn. apply NoDup_app in Hn as (_ & _ & Hn). apply NoDup_cons in Hn as [_ Hn].
      rewrite fmap_cons in Hn. by apply NoDup_cons in Hn as [? _].
Qed.

Lemma filter_out i (l : list nat) : i ∉ l -> filter (fun j => j <> i) l = l.
Proof.
  induction l as [|j l IH]; intros H; [done|]. rewrite filter_cons_True by (intros ->; apply H; auto).
  f_equal. apply IH. intros Hi. apply H. auto.
Qed.

Lemma filter_mid i (l1 l2 : list nat) : NoDup (l1 ++ i :: l2) -> filter (fun j => j <> i) (l1 ++ i :: l2) = l1 ++ l2.
Proof.
  intros H. apply NoDup_app in H as (_ & H1 & H2). apply NoDup_cons in H2 as [H2 _].
  rewrite filter_app, filter_cons_False by tauto. rewrite !filter_out; [done|done|]. intros Hi. apply (H1 i Hi). auto.
Qed.

Lemma remq_ok st rq i k : rq_inv st rq -> (k < 32)%nat -> i ∈ rq k ->
  exists st', remq st i k = Ret st' /\ links_only st st' /\ rq_inv st' (deq rq k i) /\
    (exists p', procs st' !! i = Some p' /\ p_rlink p' = PNULL) /\
    forall j, off_rings rq j -> procs st' !! j = procs st !! j.
Proof.
  intros HI Hk Hin. pose proof HI as [Hlen Hring Hnd Hhome Hlinked Hmark].
  destruct (list_elem_of_split _ _ Hin) as (l1 & l2 & E). pose proof (Hring k Hk) as Hseg. rewrite E in Hseg.
  pose proof (Hnd k Hk) as Hn. rewrite E in Hn. pose proof Hseg as Hseg'. apply rseg_app in Hseg' as [S1 S2].
  destruct (rseg_last _ _ _ _ S1) as [L1 L2]. destruct (rseg_head _ _ _ _ S2) as [L3 L4].
  unfold remq. rewrite L3, L2. cbn [read]. bind.
  destruct (remque_ok (unmark st k) (PP i) (lastp (PQ k) l1) (headp l2 (PQ k)) L3 L2 L1 L4) as (s1 & -> & O1 & W1 & A & B). bind.
  set (s2 := if bool_decide _ then s1 else mark s1 k).
  assert (Es2 : links_only st s2 /\ (forall x, link_of s2 x = link_of s1 x) /\ (forall x, rlink_of s2 x = rlink_of s1 x)).
  { unfold s2. case_bool_decide; (split; [|done]); exact O1. }
  destruct Es2 as (O2 & A2 & B2).
  assert (Hi_out : PP i <> headp l2 (PQ k)).
  { destruct l2 as [|j l2]; [done|]. cbn. intros [= ->]. apply NoDup_app in Hn as (_ & _ & Hn). apply NoDup_cons in Hn as [Hn _]. apply Hn. auto. }
  destruct (write_rlink_ok s2 (PP i) PNULL (lastp (PQ k) l1)) as (s3 & -> & O3 & W3 & A3 & B3).
  { rewrite B2, B, decide_False by done. exact L2. }
  assert (A' : forall x, link_of s3 x = if decide (x = lastp (PQ k) l1) then Some (headp l2 (PQ k)) else link_of st x).
  { intros x. by rewrite A3, A2, A. }
  assert (B' : forall x, x <> PP i -> rlink_of s3 x = if decide (x = headp l2 (PQ k)) then Some (lastp (PQ k) l1) else rlink_of st x).
  { intros x Hx. by rewrite B3, decide_False, B2, B. }
  exists s3. split; [done|]. assert (O : links_only st s3) by eauto using links_only_trans. split; [done|].
  assert (HS : ring_step st s3 rq k i).
  { split; [done|]. intros x Hx. unfold on_ring in Hx. rewrite E in Hx.
    rewrite A', B' by tauto. rewrite !decide_False; [done| |].
    - intros ->. apply Hx. destruct l2 as [|j l2]; cbn; [by left|]. right. right. apply pp_in, elem_of_app. auto.
    - intros ->. apply Hx. destruct (lastp_ring k l1) as [->|(j & -> & Hj)]; [by left|].
      right. right. apply pp_in, elem_of_app. by left. }
  assert (Hp' : exists p', procs s3 !! i = Some p' /\ p_rlink p' = PNULL).
  { specialize (B3 (PP i)). rewrite decide_True in B3 by done. unfold rlink_of in B3.
    destruct (procs s3 !! i) as [p'|]; [|done]. exists p'. split; [done|]. by injection B3. }
  split; [|split; [done|]].
  2:{ intros j Hj. destruct (decide (j = i)) as [->|Hne]; [by exfalso; apply (Hj k)|]. by eapply (ring_step_off st s3 rq k i). }
  assert (Hd : deq rq k i k = l1 ++ l2).
  { unfold deq. rewrite decide_True by done. rewrite E. by apply filter_mid. }
  eapply (ring_inv st s3 rq _ k i HI Hk HS).
  - intros k' Hk' Hne Hx. destruct (Hhome k i Hk Hin) as (p1 & G1 & _ & G2). destruct (Hhome k' i Hk' Hx) as (p2 & G3 & _ & G4). congruence.
  - intros k' Hne. unfold deq. by rewrite decide_False.
  - rewrite Hd. set (s3' := s1). assert (Hr : rseg s1 (PQ k) (l1 ++ l2) (PQ k)).
    { eapply (rseg_remove st s1 (PQ k) i); [by apply nodup_ring|apply pq_notin|by left|done|..]; intros x; [by rewrite A|by rewrite B]. }
    eapply rseg_ext; [exact Hr| |].
    + intros x _. by rewrite A3, A2.
    + intros x Hx. rewrite B3, decide_False, B2; [done|]. intros ->. destruct Hx as [?|Hx]; [done|]. apply pp_in in Hx.
      rewrite NoDup_app, NoDup_cons in Hn. destruct Hn as (_ & Hn & Hn2 & _). apply elem_of_app in Hx as [Hx|Hx]; [|done].
      apply (Hn i Hx). auto.
  - rewrite Hd. rewrite NoDup_app, NoDup_cons in Hn. destruct Hn as (N1 & N2 & N3 & N4). apply NoDup_app. splits; [done| |done].
    intros j Hj Hj2. apply (N2 j Hj). auto.
  - rewrite Hd. intros j Hj. destruct (Hhome k j Hk) as (p1 & G1 & _ & G2); [|by exists p1].
    rewrite E. apply elem_of_app in Hj as [Hj|Hj]; apply elem_of_app; auto.
  - intros j p' Hj Hr Hj'. rewrite Hd. destruct (decide (j = i)) as [->|Hne].
    { destruct Hp' as (p2 & G1 & G2). congruence. }
    destruct Hj' as [?|Hj']; [done|]. rewrite E in Hj'. apply elem_of_app in Hj' as [?|Hj']; [by apply elem_of_app; left|].
    apply elem_of_cons in Hj' as [?|?]; [done|]. apply elem_of_app. by right.
  - intros k' Hk'. rewrite W3. assert (Hmk : Z.testbit (whichqs s1) (Z.of_nat k') = if decide (k' = k) then false else Z.testbit (whichqs st) (Z.of_nat k')).
    { rewrite W1. cbn. rewrite Z.clearbit_eqb. destruct (decide (k' = k)) as [->|Hne]; [rewrite Z.eqb_refl; by rewrite andb_false_r|].
      destruct (Z.eqb_spec (Z.of_nat k) (Z.of_nat k')); [lia|]. apply andb_true_r. }
    destruct (decide (k' = k)) as [->|Hne].
    + rewrite Hd. unfold s2. destruct (decide (l1 ++ l2 = [])) as [E0|E0].
      * apply app_nil in E0 as [-> ->]. cbn. rewrite bool_decide_eq_true_2 by done. by rewrite Hmk.
      * rewrite (bool_decide_eq_true_2 (l1 ++ l2 <> [])) by done. rewrite bool_decide_eq_false_2.
        { cbn. rewrite Z.setbit_eqb by lia. by rewrite Z.eqb_refl. }
        intros Heq. destruct l2 as [|j l2].
        -- destruct (lastp_ring k l1) as [Ez|(j & Ez & Hj)].
           ++ destruct l1 as [|j l1]; [done|]. destruct (lastp_in l1 (PP j)) as [G|G]; cbn in Ez; rewrite Ez in G; [done|by apply pq_notin in G].
           ++ cbn in Heq. congruence.
        -- cbn in Heq. destruct (lastp_ring k l1) as [Ez|(j' & Ez & Hj)]; [congruence|]. rewrite Ez in Heq. injection Heq as <-.
           rewrite NoDup_app in Hn. destruct Hn as (_ & Hn & _). apply (Hn j Hj). auto.
    + unfold deq. rewrite decide_False by done. rewrite <- Hmark by done. unfold s2.
      case_bool_decide; cbn; [|rewrite Z.setbit_eqb by lia; destruct (Z.eqb_spec (Z.of_nat k) (Z.of_nat k')); [lia|]; cbn]; by rewrite Hmk.
Qed.

Lemma remrq_ok st rq i p : rq_inv st rq -> procs st !! i = Some p -> p_rlink p <> PNULL ->
  exists st', remrq st i = Ret st' /\ links_only st st' /\ rq_inv st' (deq rq (qindex (p_pri p)) i) /\
    (exists p', procs st' !! i = Some p' /\ p_rlink p' = PNULL) /\
    forall j, off_rings rq j -> procs st' !! j = procs st !! j.
Proof.
  intros HI Hi Hr. pose proof HI as [Hlen Hring Hnd Hhome Hlinked Hmark].
  destruct (Hlinked i p Hi Hr) as (k & Hk & Hin). destruct (Hhome k i Hk Hin) as (p2 & E2 & _ & Eq).
  rewrite Hi in E2. injection E2 as <-. unfold remrq, getp. rewrite Hi. bind. rewrite Eq, Hmark by done.
  rewrite bool_decide_eq_true_2 by (intros E; rewrite E in Hin; by apply not_elem_of_nil in Hin). cbn [negb].
  by apply remq_ok.
Qed.

Lemma ffs_from_spec w : forall n k,
  match ffs_from n k w with
  | Some j => (k <= j < k + n)%nat /\ Z.testbit w (Z.of_nat j) = true /\
      forall x, (k <= x < j)%nat -> Z.testbit w (Z.of_nat x) = false
  | None => forall x, (k <= x < k + n)%nat -> Z.testbit w (Z.of_nat x) = false
  end.
Proof.
  induction n as [|n IH]; intros k; cbn; [lia|]. destruct (Z.testbit w (Z.of_nat k)) eqn:E.
  - splits; [lia|lia|done|lia].
  - specialize (IH (S k)). destruct (ffs_from n (S k) w) as [j|].
    + destruct IH as (H1 & H2 & H3). splits; [lia|lia|done|]. intros x Hx.
      destruct (decide (x = k)) as [->|]; [done|]. apply H3. lia.
    + intros x Hx. destruct (decide (x = k)) as [->|]; [done|]. apply IH. lia.
Qed.

(** swtch takes the first process of the best queue that is not empty. *)
Lemma swtch_select_ok st rq : rq_inv st rq ->
  (swtch_select st = Ret (None, with_sys st (set_noproc (sys st) true)) /\ forall k, (k < 32)%nat -> rq k = []) \/
  (exists i k l st', swtch_select st = Ret (Some i, st') /\ (k < 32)%nat /\ rq k = i :: l /\
     (forall k', (k' < k)%nat -> rq k' = []) /\ cores st' = cores st /\ slpque st' = slpque st /\ allproc st' = allproc st /\
     u_procp st' = i /\ sys st' = set_runrun (set_noproc (sys st) false) 0 /\ rq_inv st' (deq rq k i) /\
     (exists p', procs st' !! i = Some p' /\ p_rlink p' = PNULL) /\
     forall j, off_rings rq j -> procs st' !! j = procs st !! j).
Proof.
  intros HI. pose proof HI as [Hlen Hring Hnd Hhome Hlinked Hmark]. unfold swtch_select.
  pose proof (ffs_from_spec (whichqs st) 32 0) as Hf. destruct (ffs_from 32 0 (whichqs st)) as [k|].
  - right. destruct Hf as (Hk & Ht & Hlow). rewrite Hmark in Ht by lia. apply bool_decide_eq_true in Ht.
    destruct (rq k) as [|i l] eqn:Er; [done|]. pose proof (Hring k ltac:(lia)) as Hseg. rewrite Er in Hseg.
    cbn in Hseg. destruct Hseg as (-> & _ & _). cbn [read]. bind.
    destruct (remq_ok st rq i k HI ltac:(lia)) as (st1 & -> & O & HI1 & Hp & Hoff); [rewrite Er; auto|]. bind.
    pose proof O as (O1 & O2 & O3 & O4 & O5 & O6).
    exists i, k, l, (with_u_procp (with_sys st1 (set_runrun (set_noproc (sys st1) false) 0)) i). splits; try done; try lia.
    + intros k' Hk'. specialize (Hlow k' ltac:(lia)). rewrite Hmark in Hlow by lia. apply bool_decide_eq_false in Hlow.
      destruct (rq k'); [done|]. exfalso. by apply Hlow.
    + cbn. by rewrite O6.
    + destruct HI1. constructor; try done. intros k' Hk'. eapply rseg_ext; [by apply rq_ring0| |]; by intros.
  - left. split; [done|]. intros k Hk. specialize (Hf k ltac:(lia)). rewrite Hmark in Hf by lia.
    apply bool_decide_eq_false in Hf. destruct (rq k); [done|]. exfalso. by apply Hf.
Qed.

Lemma rqinit_ok st : length (qs st) = 32%nat -> whichqs st = 0 -> Forall (fun p => p_rlink p = PNULL) (procs st) ->
  rq_inv (rqinit st) (fun _ => []).
Proof.
  intros Hl Hw Hp. assert (Hq : forall k, (k < 32)%nat -> qs (rqinit st) !! k = Some (PQ k, PQ k)).
  { intros k Hk. cbn. rewrite list_lookup_imap. destruct (lookup_lt_is_Some_2 (qs st) k) as [q E]; [lia|]. by rewrite E. }
  constructor.
  - cbn. by rewrite length_imap.
  - intros k Hk. cbn. unfold link_of, rlink_of. by rewrite Hq.
  - intros k _. apply NoDup_nil_2.
  - intros k i _ H. by apply not_elem_of_nil in H.
  - intros i p Hi Hr. cbn in Hi. rewrite Forall_forall in Hp. apply list_elem_of_lookup_2 in Hi. by apply Hp in Hi.
  - intros k Hk. cbn. rewrite Hw. apply Z.bits_0.
Qed.

(** Steps elsewhere: the links of what is on a ring stay, and its queue. *)
Definition ring_stays (p p' : proc) : Prop :=
  p_rlink p' = p_rlink p /\ (p_rlink p = PNULL \/ p_link p' = p_link p /\ qindex (p_pri p') = qindex (p_pri p)).

Lemma rq_inv_ext st st' rq : rq_inv st rq -> qs st' = qs st -> whichqs st' = whichqs st ->
  Forall2 ring_stays (procs st) (procs st') -> rq_inv st' rq.
Proof.
  intros [Hlen Hring Hnd Hhome Hlinked Hmark] Eq Ew HF.
  assert (Hf : forall i p, procs st !! i = Some p -> exists p', procs st' !! i = Some p' /\ ring_stays p p').
  { intros i p Hi. destruct (Forall2_lookup_l _ _ _ _ _ HF Hi) as (p' & E & H). by exists p'. }
  assert (Hb : forall i p', procs st' !! i = Some p' -> exists p, procs st !! i = Some p /\ ring_stays p p').
  { intros i p' Hi. destruct (Forall2_lookup_r _ _ _ _ _ HF Hi) as (p & E & H). by exists p. }
  constructor.
  - by rewrite Eq.
  - intros k Hk. assert (Hin : forall i, i ∈ rq k -> link_of st' (PP i) = link_of st (PP i) /\ rlink_of st' (PP i) = rlink_of st (PP i)).
    { intros i Hi. destruct (Hhome k i Hk Hi) as (p & E & Hr & _). destruct (Hf i p E) as (p' & E' & E1 & E2).
      unfold link_of, rlink_of. rewrite E, E'. cbn. rewrite E1. destruct E2 as [?|[E2 _]]; [done|]. by rewrite E2. }
    eapply (rseg_ext st st'); [by apply Hring| |]; intros x [->|Hx]; try (unfold link_of, rlink_of; by rewrite Eq);
      apply list_elem_of_fmap in Hx as (i & -> & Hi); by apply Hin.
  - done.
  - intros k i Hk Hi. destruct (Hhome k i Hk Hi) as (p & E & Hr & Hq). destruct (Hf i p E) as (p' & E' & E1 & E2).
    exists p'. rewrite E1. splits; try done. destruct E2 as [?|[_ ->]]; done.
  - intros i p' Hi Hr. destruct (Hb i p' Hi) as (p & E & E1 & _). rewrite E1 in Hr. by eapply Hlinked.
  - intros k Hk. rewrite Ew. by apply Hmark.
Qed.

End RunQueue.
