(* ===== verification/KernSynch.v ===== *)
(** Sleep queues and priorities, sys/kern/kern_synch.c: wakeup, unsleep,
    setrun, updatepri, setpri, schedcpu, and the queueing that tsleep and sleep
    share.  The DIAGNOSTIC checks are included.  vmmeter is modelled as far as
    it wakes processes; its paging statistics are arguments. *)
From stdpp Require Import base numbers list strings.
From Stdlib Require Import ZArith Lia.
From S2P Require Import Prelude Proc RunQueue Callout.

Module KernSynch.
Import Proc RunQueue.

(** ** Definitions *)

Definition HASH (x : Z) : nat := Z.to_nat (Z.land (Z.shiftr x 5) (SQSIZE - 1)).
Definition get_b (loadav : Z) : Z := u32 (2 * loadav).
Definition get_pcpu (b cpu : Z) : Z := u32 (b * Z.land cpu 0xff) / u32 (b + FSCALE).
(** [0.95122942450071400909 * FSCALE], rounded down. *)
Definition ccpu : Z := 1948.
Definition PPQ : Z := 4.

Definition clamp (a : Z) : Z := let a := if a <? 0 then 0 else a in if a >? 255 then 255 else a.

(** [runrun++; aston()]. *)
Definition resched (st : kst) : kst := with_sys st (set_ast (set_runrun (sys st) (s32 (runrun (sys st) + 1))) true).

Definition setpri (st : kst) (i : nat) : outcome (Z * kst) :=
  pp ← getp st i;
  let p := Z.land (p_cpu pp) 0xff / 4 in
  let p := p + (PUSER + 2 * p_nice pp) in
  let p := if (p_rssize pp >? p_maxrss pp) && (freemem (sys st) <? desfree (sys st)) then p + 2 * 4 else p in
  let p := if p >? 127 then 127 else p in
  let st := if p <? curpri (sys st) then resched st else st in
  Ret (p, putp st i (set_usrpri pp (s8 p))).

(** [while (a && --p->p_slptime) a = get_pcpu(b, a)]. *)
Fixpoint decay (fuel : nat) (b a slptime : Z) : option Z :=
  match fuel with
  | O => None
  | S fuel =>
      if a =? 0 then Some a
      else
        let slptime := s8 (slptime - 1) in
        if slptime =? 0 then Some a else decay fuel b (s32 (get_pcpu b a)) slptime
  end.

Definition updatepri (st : kst) (i : nat) : outcome kst :=
  p ← getp st i;
  let b := get_b (averunnable (sys st)) in
  a ← read (decay 256 b (Z.land (p_cpu p) 0xff) (s8 (p_slptime p - 1)));
  '(_, st) ← setpri (putp st i (set_cpu (set_slptime p 0) (s8 (clamp a)))) i;
  Ret st.

(** The walk of unsleep to the link that holds [p]. *)
Fixpoint find_hp (fuel : nat) (st : kst) (hp : loc) (i : nat) : outcome loc :=
  match fuel with
  | O => Fault
  | S fuel =>
      p ← deref st hp;
      if bool_decide (p = PP i) then Ret hp
      else match p with PP j => find_hp fuel st (Link j) i | _ => Fault end
  end.

Definition set_tailp (st : kst) (h : nat) (q : option loc) : outcome kst :=
  match slpque st !! h with
  | Some s => Ret (with_slpque st (<[h := Sq (sq_head s) q]> (slpque st)))
  | None => Fault
  end.

(** Take [p], which [*q] points to, off its sleep queue. *)
Definition unlink (st : kst) (h : nat) (q : loc) (i : nat) : outcome kst :=
  p ← getp st i;
  st ← assign st q (p_link p);
  s ← read (slpque st !! h);
  if bool_decide (sq_tailp s = Some (Link i)) then set_tailp st h (Some q) else Ret st.

Definition unsleep (st : kst) (i : nat) : outcome kst :=
  p ← getp st i;
  if p_wchan p =? 0 then Ret st
  else
    let h := HASH (p_wchan p) in
    hp ← find_hp (S (length (procs st))) st (SqHead h) i;
    st ← unlink st h hp i;
    p ← getp st i;
    Ret (putp st i (set_wchan p 0)).

Definition loaded (p : proc) : bool := has (p_flag p) SLOAD.

(** The part of wakeup that makes a sleeper runnable ("inline expansion of
    setrun"), up to the swapper. *)
Definition run_sleeper (st : kst) (i : nat) : outcome kst :=
  p ← getp st i;
  st ← (if p_slptime p >? 1 then updatepri st i else Ret st);
  p ← getp st i;
  let st := putp st i (set_stat p SRUN) in
  st ← (if loaded p then setrq st i else Ret st);
  Ret (resched st).

Section synch.

(** The addresses that are slept on: the scheduler's flags, and the slots of
    the process table. *)
Variable lbolt_addr runin_addr runout_addr : Z.
Variable proc_addr : nat -> Z.

(** The loop of wakeup from [*q] on; the process swapped out asks the swapper to
    run, by waking those who wait for runout. *)
Fixpoint wakeup_from (fuel : nat) (st : kst) (chan : Z) (q : loc) : outcome kst :=
  match fuel with
  | O => Fault
  | S fuel =>
      pp ← deref st q;
      match pp with
      | PNULL => Ret st
      | PQ _ => Fault
      | PP i =>
          p ← getp st i;
          if bool_decide (p_rlink p <> PNULL) || bool_decide (p_stat p <> SSLEEP) && bool_decide (p_stat p <> SSTOP)
          then Panic "wakeup"
          else if p_wchan p =? chan then
            st ← unlink (putp st i (set_wchan p 0)) (HASH chan) q i;
            if bool_decide (p_stat p = SSLEEP) then
              st ← run_sleeper st i;
              st ← (if loaded p then Ret st
                    else
                      st ← (if runout (sys st) =? 0 then Ret st
                            else wakeup_from fuel (with_sys st (set_runout (sys st) 0)) runout_addr (SqHead (HASH runout_addr)));
                      Ret (with_sys st (set_wantin (sys st) (s32 (wantin (sys st) + 1)))));
              wakeup_from fuel st chan (SqHead (HASH chan))
            else wakeup_from fuel st chan q
          else wakeup_from fuel st chan (Link i)
      end
  end.

Definition wakeup (st : kst) (chan : Z) : outcome kst :=
  let n := S (length (procs st)) in wakeup_from (n * n) st chan (SqHead (HASH chan)).

(** [if (runout != 0) { runout = 0; wakeup(&runout); } wantin++]. *)
Definition want_in (st : kst) : outcome kst :=
  st ← (if runout (sys st) =? 0 then Ret st else wakeup (with_sys st (set_runout (sys st) 0)) runout_addr);
  Ret (with_sys st (set_wantin (sys st) (s32 (wantin (sys st) + 1)))).

Definition setrun (st : kst) (i : nat) : outcome kst :=
  p ← getp st i;
  st ← match p_stat p with
       | SSTOP | SSLEEP => unsleep st i
       | SIDL => Ret st
       | _ => Panic "setrun"
       end;
  p ← getp st i;
  let st := putp st i (set_stat p SRUN) in
  st ← (if loaded p then setrq st i else Ret st);
  st ← (if p_slptime p >? 1 then updatepri st i else Ret st);
  p ← getp st i;
  let st := if p_pri p <? curpri (sys st) then resched st else st in
  if loaded p then Ret st else want_in st.

(** What tsleep and sleep do to queue the current process. *)
Definition sleep_enqueue (st : kst) (i : nat) (chan pri wmesg : Z) : outcome kst :=
  p ← getp st i;
  if (chan =? 0) || bool_decide (p_stat p <> SRUN) || bool_decide (p_rlink p <> PNULL) then Panic "tsleep"
  else
    let st := putp st i (set_pri (set_slptime (set_wmesg (set_wchan p chan) wmesg) 0) (s8 pri)) in
    let h := HASH chan in
    s ← read (slpque st !! h);
    st ← (if bool_decide (sq_head s = PNULL) then assign st (SqHead h) (PP i)
          else q ← read (sq_tailp s); assign st q (PP i));
    st ← set_tailp st h (Some (Link i));
    write_link st (PP i) PNULL.

(** Queue the current process and put it to sleep. *)
Definition go_to_sleep (st : kst) (i : nat) (chan pri wmesg : Z) : outcome kst :=
  st ← sleep_enqueue st i chan pri wmesg;
  p ← getp st i;
  Ret (putp st i (set_stat p SSLEEP)).

(** ** schedcpu *)

Definition schedcpu_proc (st : kst) (i : nat) : outcome kst :=
  p ← getp st i;
  let p := if p_time p =? 127 then p else set_time p (p_time p + 1) in
  let p := if (bool_decide (p_stat p = SSLEEP) || bool_decide (p_stat p = SSTOP)) && negb (p_slptime p =? 127)
           then set_slptime p (p_slptime p + 1) else p in
  let p := set_pctcpu p (Z.shiftr (u32 (p_pctcpu p * ccpu)) FSHIFT) in
  if p_slptime p >? 1 then Ret (putp st i p)
  else
    let ticks := if hz (sys st) =? 100 then u32 (p_cpticks p) else u32 (100 * u32 (p_cpticks p)) / hz (sys st) in
    let p := set_cpticks (set_pctcpu p (u32 (p_pctcpu p + ticks))) 0 in
    let a := s32 (get_pcpu (get_b (averunnable (sys st))) (p_cpu p)) + p_nice p in
    '(_, st) ← setpri (putp st i (set_cpu p (s8 (clamp a)))) i;
    p ← getp st i;
    if p_pri p >=? PUSER then
      if (negb (bool_decide (i = u_procp st)) || noproc (sys st)) && bool_decide (p_stat p = SRUN) && loaded p &&
         negb (Z.quot (p_pri p) PPQ =? Z.quot (p_usrpri p) PPQ)
      then
        st ← remrq st i;
        p ← getp st i;
        setrq (putp st i (set_pri p (p_usrpri p))) i
      else Ret (putp st i (set_pri p (p_usrpri p)))
    else Ret st.

Fixpoint schedcpu_loop (st : kst) (l : list nat) : outcome kst :=
  match l with
  | [] => Ret st
  | i :: l => st ← schedcpu_proc st i; schedcpu_loop st l
  end.

(** vmmeter without the paging statistics, which it gets as arguments. *)
Definition vmmeter (st : kst) (avefree minfree maxslp : Z) : outcome kst :=
  p0 ← getp st 0%nat;
  if (avefree <? minfree) && negb (runout (sys st) =? 0) || (p_slptime p0 >? Z.quot maxslp 2) then
    let st := with_sys st (set_runin (set_runout (sys st) 0) 0) in
    st ← wakeup st runin_addr;
    wakeup st runout_addr
  else Ret st.

(** [schedcpu_fn] names the routine in the callout table. *)
Definition schedcpu (st : kst) (q : Callout.queue) (schedcpu_fn : nat) (avefree minfree maxslp : Z) (bclnlist : bool)
    : outcome (kst * Callout.queue) :=
  st ← wakeup st lbolt_addr;
  st ← schedcpu_loop st (allproc st);
  st ← vmmeter st avefree minfree maxslp;
  st ← (if runin (sys st) =? 0 then Ret st else wakeup (with_sys st (set_runin (sys st) 0)) runin_addr);
  st ← (if bclnlist then wakeup st (proc_addr 2) else Ret st);
  q ← Callout.timeout schedcpu_fn 0 (hz (sys st)) q;
  Ret (st, q).

End synch.

(** ** Sleep queues *)

Fixpoint slist (st : kst) (a : ptr) (l : list nat) : Prop :=
  match l with
  | [] => a = PNULL
  | i :: l => a = PP i /\ exists p, procs st !! i = Some p /\ slist st (p_link p) l
  end.
Fixpoint lastl (q : loc) (l : list nat) : loc :=
  match l with [] => q | i :: l => lastl (Link i) l end.

Record base (st : kst) (sl rq : nat -> list nat) : Prop := Base {
  b_rq : rq_inv st rq;
  b_len : length (slpque st) = 64%nat;
  b_queue : forall h, (h < 64)%nat -> exists s, slpque st !! h = Some s /\ slist st (sq_head s) (sl h) /\
    (sl h <> [] -> sq_tailp s = Some (lastl (SqHead h) (sl h)));
  b_nodup : forall h, (h < 64)%nat -> NoDup (sl h);
  b_sleeper : forall h i, (h < 64)%nat -> i ∈ sl h -> exists p, procs st !! i = Some p /\ p_wchan p <> 0 /\ HASH (p_wchan p) = h;
  b_queued : forall i p, procs st !! i = Some p -> p_wchan p <> 0 -> i ∈ sl (HASH (p_wchan p)) /\ p_rlink p = PNULL;
  b_pri : forall i p, procs st !! i = Some p -> 0 <= p_pri p <= 127 /\ 0 <= p_slptime p <= 127
}.

(** Between the steps: those on a sleep queue are asleep or stopped, those on a
    run queue are runnable and in core, and who is asleep is on a sleep queue. *)
Record inv (st : kst) (sl rq : nat -> list nat) : Prop := Inv {
  i_base : base st sl rq;
  i_sleep : forall i p, procs st !! i = Some p -> p_wchan p <> 0 -> p_stat p = SSLEEP \/ p_stat p = SSTOP;
  i_run : forall i p, procs st !! i = Some p -> p_rlink p <> PNULL -> p_stat p = SRUN /\ loaded p = true;
  i_asleep : forall i p, procs st !! i = Some p -> p_stat p = SSLEEP -> p_wchan p <> 0
}.

Lemma HASH_lt x : (HASH x < 64)%nat.
Proof.
  unfold HASH, SQSIZE. change (64 - 1) with (Z.ones 6). rewrite Z.land_ones by lia.
  pose proof (Z.mod_pos_bound (Z.shiftr x 5) (2 ^ 6) ltac:(lia)). lia.
Qed.

Lemma qindex_lt p : 0 <= p <= 127 -> (qindex p < 32)%nat.
Proof. intros H. unfold qindex. rewrite u8_small, Z.shiftr_div_pow2 by lia. zdiv. Qed.

Lemma slist_ext st st' : forall l a, slist st a l ->
  (forall i p, i ∈ l -> procs st !! i = Some p -> exists p', procs st' !! i = Some p' /\ p_link p' = p_link p) -> slist st' a l.
Proof.
  induction l as [|i l IH]; intros a H Hl; cbn in *; [done|]. destruct H as (-> & p & E & H). split; [done|].
  destruct (Hl i p) as (p' & E' & Ep); [apply elem_of_cons; by left|done|]. exists p'. split; [done|]. rewrite Ep. apply IH; [done|].
  intros j q Hj. apply Hl. apply elem_of_cons. by right.
Qed.

Lemma slist_same st st' a l : procs st' = procs st -> slist st a l -> slist st' a l.
Proof. intros E H. eapply slist_ext; [exact H|]. intros i p _ Hi. exists p. by rewrite E. Qed.

Lemma slist_in st : forall l a i, slist st a l -> i ∈ l -> exists p, procs st !! i = Some p.
Proof.
  induction l as [|j l IH]; intros a i H Hi; [by apply not_elem_of_nil in Hi|]. destruct H as (-> & p & E & H).
  apply elem_of_cons in Hi as [->|Hi]; [by exists p|by eapply IH].
Qed.

Lemma lastl_app q i l2 : forall l1, lastl q (l1 ++ i :: l2) = lastl (Link i) l2.
Proof. intros l1. revert q. induction l1 as [|j l1 IH]; intros q; cbn; [done|]. apply IH. Qed.

Lemma lastl_cases h l : l = [] /\ lastl (SqHead h) l = SqHead h \/ exists l0 i, l = l0 ++ [i] /\ lastl (SqHead h) l = Link i.
Proof.
  destruct (list_eq_nil_dec l) as [->|Hn]; [by left|right]. destruct (exists_last Hn) as (l0 & i & ->).
  exists l0, i. split; [done|]. by rewrite lastl_app.
Qed.

(** Where the walk has come: [*q] is the rest of the list. *)
Lemma deref_at st h s : forall l1 l2, slpque st !! h = Some s -> slist st (sq_head s) (l1 ++ l2) ->
  exists a, deref st (lastl (SqHead h) l1) = Ret a /\ slist st a l2.
Proof.
  intros l1 l2 Hs H. destruct (lastl_cases h l1) as [[-> ->]|(l0 & i & -> & ->)].
  - exists (sq_head s). cbn. by rewrite Hs.
  - rewrite <- app_assoc in H. cbn in H. revert H. generalize (sq_head s). induction l0 as [|j l0 IH]; intros a H; cbn in H.
    + destruct H as (_ & p & E & H). exists (p_link p). unfold deref, getp. by rewrite E.
    + destruct H as (_ & p & E & H). by eapply IH.
Qed.

(** Everything but the processes and the sleep queues. *)
Definition others (st st' : kst) : Prop :=
  qs st' = qs st /\ whichqs st' = whichqs st /\ allproc st' = allproc st /\ u_procp st' = u_procp st /\ sys st' = sys st.

Lemma slist_snoc st j a' : forall l a, slist st a (l ++ j :: a') ->
  exists p, procs st !! j = Some p /\ slist st (p_link p) a'.
Proof.
  induction l as [|i l IH]; intros a H; cbn in H.
  - destruct H as (_ & p & E & H). by exists p.
  - destruct H as (_ & p & E & H). by eapply IH.
Qed.

(** The link of [j], the last before the rest, replaced. *)
Lemma slist_relink st st' j r : forall l a, slist st a (l ++ [j]) \/ (exists r0, slist st a (l ++ j :: r0)) -> j ∉ l ->
  (forall i, i <> j -> procs st' !! i = procs st !! i) ->
  (exists p, procs st' !! j = Some p /\ slist st' (p_link p) r) -> slist st' a (l ++ j :: r).
Proof.
  intros l a H0. assert (H : exists r0, slist st a (l ++ j :: r0)) by (destruct H0; eauto). clear H0. destruct H as [r0 H].
  revert a H. induction l as [|i l IH]; intros a H Hj Ho Hp; cbn in *.
  - destruct H as (-> & _). by split.
  - destruct H as (-> & p & E & H). split; [done|]. exists p. split.
    + rewrite Ho; [done|]. intros ->. apply Hj, elem_of_cons. by left.
    + apply IH; try done. intros Hx. apply Hj, elem_of_cons. by right.
Qed.

Lemma lastl_nonempty q q' l : l <> [] -> lastl q l = lastl q' l.
Proof. by destruct l. Qed.

Lemma unlink_mem st h s i p l1 l2 : slpque st !! h = Some s -> slist st (sq_head s) (l1 ++ i :: l2) -> NoDup (l1 ++ i :: l2) ->
  sq_tailp s = Some (lastl (SqHead h) (l1 ++ i :: l2)) -> procs st !! i = Some p ->
  exists st1 s1, unlink st h (lastl (SqHead h) l1) i = Ret st1 /\ slpque st1 = <[h := s1]> (slpque st) /\
    slist st1 (sq_head s1) (l1 ++ l2) /\ (l1 ++ l2 <> [] -> sq_tailp s1 = Some (lastl (SqHead h) (l1 ++ l2))) /\
    cores st1 = cores st /\ others st st1 /\ (forall j, j ∉ l1 -> procs st1 !! j = procs st !! j) /\
    (forall j, rlink_of st1 (PP j) = rlink_of st (PP j)).
Proof.
  intros Hs Hl Hn Ht Hi. pose proof (lookup_lt_Some _ _ _ Hs) as Hlt. rewrite lastl_app in Ht.
  destruct (slist_snoc _ _ _ _ _ Hl) as (p0 & E0 & Hl2). rewrite Hi in E0. injection E0 as <-.
  assert (Hi2 : i ∉ l1 ++ l2).
  { apply NoDup_app in Hn as (_ & H1 & H2). apply NoDup_cons in H2 as [H2 _]. intros Hx.
    apply elem_of_app in Hx as [Hx|Hx]; [|done]. apply (H1 i Hx), elem_of_cons. by left. }
  assert (Htail : Some (lastl (Link i) l2) = Some (Link i) <-> l2 = []).
  { split; [|by intros ->]. intros [= H]. destruct (list_eq_nil_dec l2) as [->|Hne]; [done|].
    destruct (exists_last Hne) as (l0 & j & ->). rewrite lastl_app in H. cbn in H. injection H as ->.
    exfalso. apply Hi2, elem_of_app. right. apply elem_of_app. right. by apply list_elem_of_singleton. }
  unfold unlink, getp. rewrite Hi. bind.
  destruct (lastl_cases h l1) as [[-> ->]|(l0 & j & -> & ->)].
  - cbn [assign]. rewrite Hs. bind. cbn [with_slpque slpque]. rewrite list_lookup_insert_eq by done. cbn [read sq_tailp]. bind.
    rewrite Ht. cbn [sq_tailp]. case_bool_decide as Eb; rewrite Htail in Eb.
    + subst l2. unfold set_tailp. cbn [with_slpque slpque]. rewrite list_lookup_insert_eq by done.
      eexists _, _. split; [reflexivity|]. cbn. rewrite list_insert_insert_eq. splits; try done.
    + eexists _, _. split; [reflexivity|]. splits; try done; [by apply (slist_same st)|].
      intros _. cbn. f_equal. by apply lastl_nonempty.
  - rewrite <- app_assoc in Hl. destruct (slist_snoc _ _ _ _ _ Hl) as (pj & Ej & _).
    assert (Hji : j <> i) by (intros ->; apply Hi2; rewrite <- app_assoc; apply elem_of_app; right; apply elem_of_app; left; by apply list_elem_of_singleton).
    cbn [assign write_link]. unfold getp. rewrite Ej. bind. cbn [slpque putp with_procs]. rewrite Hs. cbn [read]. bind. rewrite Ht.
    set (st1 := putp st j (set_link pj (p_link p))).
    assert (Hlt' : (j < length (procs st))%nat) by (by apply lookup_lt_Some in Ej).
    assert (Hoth : forall k, k <> j -> procs st1 !! k = procs st !! k) by (intros k Hk; cbn; by rewrite list_lookup_insert_ne).
    assert (Hcores : cores st1 = cores st) by (unfold cores, st1; cbn; by eapply cores_insert).
    assert (Hr : forall k, rlink_of st1 (PP k) = rlink_of st (PP k)).
    { intros k. unfold st1. destruct (link_putp st j (set_link pj (p_link p)) (PP k) Hlt') as [_ ->]. destruct (decide _) as [[= ->]|]; [|done].
      unfold rlink_of. by rewrite Ej. }
    assert (Hj0 : j ∉ l0).
    { rewrite <- app_assoc in Hn. apply NoDup_app in Hn as (_ & H1 & _). intros Hx. apply (H1 j Hx), elem_of_cons. by left. }
    assert (Hlist : slist st1 (sq_head s) ((l0 ++ [j]) ++ l2)).
    { rewrite <- app_assoc. eapply (slist_relink st st1); [right; by eexists|done|done|].
      exists (set_link pj (p_link p)). split; [cbn; by rewrite list_lookup_insert_eq|]. cbn [set_link p_link].
      eapply slist_ext; [exact Hl2|]. intros k pk Hk Ek. exists pk. split; [|done]. rewrite Hoth; [done|]. intros ->.
      rewrite <- app_assoc in Hn. apply NoDup_app in Hn as (_ & _ & Hn). apply NoDup_cons in Hn as [Hn _]. apply Hn. cbn. apply elem_of_cons. by right. }
    assert (Hframe : forall k, k ∉ l0 ++ [j] -> procs st1 !! k = procs st !! k).
    { intros k Hk. apply Hoth. intros ->. apply Hk, elem_of_app. right. by apply list_elem_of_singleton. }
    case_bool_decide as Eb; rewrite Htail in Eb.
    + subst l2. unfold set_tailp. change (slpque st1) with (slpque st). rewrite Hs.
      eexists _, _. split; [reflexivity|]. splits; try done; [by apply (slist_same st1)|].
      intros _. cbn. by rewrite app_nil_r, lastl_app.
    + exists st1, s. split; [reflexivity|].
      splits; try done; [cbn; by rewrite list_insert_id|].
      intros _. rewrite Ht. f_equal. destruct l2 as [|k l2]; [done|]. rewrite lastl_app. cbn. done.
Qed.

(** ** Steps that keep the queues *)

Definition stays (p p' : proc) : Prop :=
  p_rlink p' = p_rlink p /\ p_wchan p' = p_wchan p /\ p_link p' = p_link p /\
  (p_rlink p = PNULL \/ qindex (p_pri p') = qindex (p_pri p)) /\ (0 <= p_pri p <= 127 -> 0 <= p_pri p' <= 127) /\ (0 <= p_slptime p <= 127 -> 0 <= p_slptime p' <= 127).

Lemma stays_refl p : stays p p.
Proof. unfold stays. splits; try done. by right. Qed.

Lemma stays_putp st i p p' : procs st !! i = Some p -> stays p p' -> Forall2 stays (procs st) (procs (putp st i p')).
Proof.
  intros Hi Hs. cbn. apply Forall2_same_length_lookup_2; [by rewrite length_insert|]. intros j q q' Hq Hq'.
  apply list_lookup_insert_Some in Hq' as [(<- & <- & _)|[_ Hq']].
  - rewrite Hi in Hq. by injection Hq as <-.
  - rewrite Hq in Hq'. injection Hq' as <-. apply stays_refl.
Qed.

Lemma Forall2_stays_refl l : Forall2 stays l l.
Proof. apply Forall2_same_length_lookup_2; [done|]. intros i p p' E1 E2. rewrite E1 in E2. injection E2 as <-. apply stays_refl. Qed.

Lemma base_stays st st' sl rq : base st sl rq -> qs st' = qs st -> whichqs st' = whichqs st -> slpque st' = slpque st ->
  Forall2 stays (procs st) (procs st') -> base st' sl rq.
Proof.
  intros [Hrq Hlen Hq Hnd Hs Hqd Hp] E1 E2 E3 HF.
  assert (Hf : forall i p, procs st !! i = Some p -> exists p', procs st' !! i = Some p' /\ stays p p').
  { intros i p Hi. destruct (Forall2_lookup_l _ _ _ _ _ HF Hi) as (p' & E & H). by exists p'. }
  assert (Hb : forall i p', procs st' !! i = Some p' -> exists p, procs st !! i = Some p /\ stays p p').
  { intros i p' Hi. destruct (Forall2_lookup_r _ _ _ _ _ HF Hi) as (p & E & H). by exists p. }
  constructor.
  - eapply rq_inv_ext; [done..|]. eapply Forall2_impl; [exact HF|]. intros p p' (R1 & _ & R2 & R3 & _ & _). split; [done|].
    destruct R3; [by left|by right].
  - by rewrite E3.
  - intros h Hh. rewrite E3. destruct (Hq h Hh) as (s & G1 & G2 & G3). exists s. splits; try done.
    eapply slist_ext; [exact G2|]. intros i p _ Hi. destruct (Hf i p Hi) as (p' & E & S). exists p'. split; [done|]. by destruct S as (_ & _ & ? & _).
  - done.
  - intros h i Hh Hi. destruct (Hs h i Hh Hi) as (p & G1 & G2 & G3). destruct (Hf i p G1) as (p' & E & (_ & Hw & _)). exists p'. by rewrite Hw.
  - intros i p' Hi Hw. destruct (Hb i p' Hi) as (p & E & (R & Ew & _)). rewrite Ew, R in *. by eapply Hqd.
  - intros i p' Hi. destruct (Hb i p' Hi) as (p & E & (_ & _ & _ & _ & R & R')). destruct (Hp i p E). by split; [apply R|apply R'].
Qed.

Lemma base_putp st sl rq i p p' : base st sl rq -> procs st !! i = Some p -> stays p p' -> base (putp st i p') sl rq.
Proof. intros H Hi Hs. eapply base_stays; [exact H|done..|]. by eapply stays_putp. Qed.

Lemma base_sys st sl rq s : base st sl rq -> base (with_sys st s) sl rq.
Proof. intros H. eapply base_stays; [exact H|done..|]. apply Forall2_stays_refl. Qed.

(** *** Taking a process off its queue *)

Definition upd (f : nat -> list nat) (h : nat) (l : list nat) (h' : nat) : list nat := if decide (h' = h) then l else f h'.

Lemma base_unlink st st2 sl rq h i p l1 l2 s1 : base st sl rq -> (h < 64)%nat -> sl h = l1 ++ i :: l2 -> procs st !! i = Some p ->
  qs st2 = qs st -> whichqs st2 = whichqs st -> cores st2 = <[i := core (set_wchan p 0)]> (cores st) ->
  slpque st2 = <[h := s1]> (slpque st) -> slist st2 (sq_head s1) (l1 ++ l2) ->
  (l1 ++ l2 <> [] -> sq_tailp s1 = Some (lastl (SqHead h) (l1 ++ l2))) ->
  (forall j, j ∉ l1 -> j <> i -> procs st2 !! j = procs st !! j) ->
  (forall j, rlink_of st2 (PP j) = rlink_of st (PP j)) -> base st2 (upd sl h (l1 ++ l2)) rq.
Proof.
  intros HB Hh Esl Hi Eq Ew Ec Es Hl Ht Hj Hr. pose proof HB as [Hrq Hlen Hq Hnd Hs Hqd Hp].
  assert (Hin : forall j, j ∈ l1 \/ j = i \/ j ∈ l2 -> j ∈ sl h).
  { intros j Hx. rewrite Esl. apply elem_of_app. rewrite elem_of_cons. tauto. }
  assert (Hf : forall j q, procs st !! j = Some q -> exists q', procs st2 !! j = Some q' /\ p_rlink q' = p_rlink q /\
    p_pri q' = p_pri q /\ p_slptime q' = p_slptime q /\ p_wchan q' = (if decide (j = i) then 0 else p_wchan q)).
  { intros j q Eq'. pose proof (Hr j) as Hrj. apply (f_equal (fun l => l !! j)) in Ec. unfold cores in Ec.
    rewrite list_lookup_fmap in Ec. unfold rlink_of in Hrj. rewrite Eq' in Hrj. destruct (procs st2 !! j) as [q'|]; [|done].
    exists q'. split; [done|]. split; [by injection Hrj|]. destruct (decide (j = i)) as [->|Hne].
    - rewrite list_lookup_insert_eq in Ec by (rewrite length_fmap; by apply lookup_lt_Some in Hi). apply (inj Some) in Ec.
      rewrite Hi in Eq'. injection Eq' as <-. apply core_fields in Ec as (_ & E2 & E3 & _ & E4 & _). split; [exact E2|]. split; [exact E4|exact E3].
    - rewrite list_lookup_insert_ne, list_lookup_fmap, Eq' in Ec by done. apply (inj Some) in Ec.
      apply core_fields in Ec as (_ & E2 & E3 & _ & E4 & _). by splits. }
  assert (Hlen2 : length (procs st2) = length (procs st)).
  { apply (f_equal length) in Ec. unfold cores in Ec. by rewrite length_insert, !length_fmap in Ec. }
  assert (Hb : forall j q', procs st2 !! j = Some q' -> exists q, procs st !! j = Some q /\ p_rlink q' = p_rlink q /\
    p_pri q' = p_pri q /\ p_slptime q' = p_slptime q /\ p_wchan q' = (if decide (j = i) then 0 else p_wchan q)).
  { intros j q' Ej. destruct (lookup_lt_is_Some_2 (procs st) j) as [q E]; [rewrite <- Hlen2; by apply lookup_lt_Some in Ej|].
    destruct (Hf j q E) as (q2 & E2 & H). rewrite Ej in E2. injection E2 as <-. by exists q. }
  assert (Hoff : forall j q, procs st !! j = Some q -> p_rlink q <> PNULL -> procs st2 !! j = procs st !! j).
  { intros j q E Hn. assert (Hx : j ∉ sl h).
    { intros Hx. destruct (Hs h j Hh Hx) as (q0 & E0 & Hw & _). destruct (Hqd _ q0 E0 Hw) as [_ R0]. congruence. }
    apply Hj; [intros Hy|intros ->]; apply Hx, Hin; tauto. }
  constructor.
  - eapply rq_inv_ext; [done..|]. apply Forall2_same_length_lookup_2; [done|]. intros j q q' E E'.
    destruct (Hf j q E) as (q2 & E2 & R1 & R2 & _ & _). rewrite E' in E2. injection E2 as <-. split; [done|].
    destruct (decide (p_rlink q = PNULL)) as [Hn|Hn]; [by left|right]. rewrite (Hoff j q E Hn), E in E'. by injection E' as <-.
  - by rewrite Es, length_insert.
  - intros h' Hh'. unfold upd. rewrite Es. destruct (decide (h' = h)) as [->|Hne].
    + exists s1. rewrite list_lookup_insert_eq by lia. by splits.
    + rewrite list_lookup_insert_ne by done. destruct (Hq h' Hh') as (s & G1 & G2 & G3). exists s. splits; try done.
      eapply slist_ext; [exact G2|]. intros j q Hjh Eqj. exists q. split; [|done]. assert (Hx : j ∉ sl h).
      { intros Hx. destruct (Hs h j Hh Hx) as (q0 & E0 & _ & H0). destruct (Hs h' j Hh' Hjh) as (q1 & E1' & _ & H1). congruence. }
      rewrite Hj; [done|intros Hy|intros ->]; apply Hx, Hin; tauto.
  - intros h' Hh'. unfold upd. destruct (decide (h' = h)) as [->|]; [|by apply Hnd]. pose proof (Hnd h Hh) as N. rewrite Esl in N.
    apply NoDup_app in N as (N1 & N2 & N3). apply NoDup_cons in N3 as [_ N3]. apply NoDup_app. splits; [done| |done].
    intros j Hx Hy. apply (N2 j Hx), elem_of_cons. by right.
  - assert (Hni : i ∉ l1 ++ l2).
    { pose proof (Hnd h Hh) as N. rewrite Esl in N. apply NoDup_app in N as (N1 & N2 & N3). apply NoDup_cons in N3 as [N3 _].
      intros Hx. apply elem_of_app in Hx as [Hx|Hx]; [|done]. apply (N2 i Hx), elem_of_cons. by left. }
    intros h' j Hh' Hx. assert (Hx' : j ∈ sl h' /\ j <> i).
    { unfold upd in Hx. destruct (decide (h' = h)) as [->|Hne].
      - split; [|by intros ->]. apply Hin. apply elem_of_app in Hx. tauto.
      - split; [done|]. intros ->. destruct (Hs h i Hh (Hin i ltac:(tauto))) as (q0 & E0 & _ & H0). destruct (Hs h' i Hh' Hx) as (q1 & E1' & _ & H1). congruence. }
    destruct Hx' as [Hx' Hne]. destruct (Hs h' j Hh' Hx') as (q & E & H1 & H2). destruct (Hf j q E) as (q' & E' & _ & _ & _ & Hw).
    rewrite decide_False in Hw by done. exists q'. by rewrite Hw.
  - intros j q' Ej Hw. destruct (Hb j q' Ej) as (q & E & R1 & _ & _ & R2). destruct (decide (j = i)) as [->|Hne]; [congruence|].
    rewrite R1, R2 in *. destruct (Hqd j q E Hw) as [H1 H2]. split; [|done]. unfold upd.
    destruct (decide (HASH (p_wchan q) = h)) as [Eh|]; [|done]. rewrite Eh, Esl in H1. apply elem_of_app in H1. rewrite elem_of_cons in H1.
    apply elem_of_app. tauto.
  - intros j q' Ej. destruct (Hb j q' Ej) as (q & E & _ & -> & -> & _). by eapply Hp.
Qed.

(** The queues without [i]. *)
Definition rem (sl : nat -> list nat) (i : nat) (h : nat) : list nat := filter (fun j => j <> i) (sl h).

Lemma base_ext st sl sl' rq : base st sl rq -> (forall h, (h < 64)%nat -> sl h = sl' h) -> base st sl' rq.
Proof.
  intros [Hrq Hlen Hq Hnd Hs Hqd Hp] E. constructor; try done.
  - intros h Hh. rewrite <- E by done. by apply Hq.
  - intros h Hh. rewrite <- E by done. by apply Hnd.
  - intros h i Hh. rewrite <- E by done. by apply Hs.
  - intros i p Hi Hw. rewrite <- E by apply HASH_lt. by apply Hqd.
Qed.

Lemma rem_upd st sl rq h i l1 l2 : base st sl rq -> (h < 64)%nat -> sl h = l1 ++ i :: l2 ->
  forall h', (h' < 64)%nat -> upd sl h (l1 ++ l2) h' = rem sl i h'.
Proof.
  intros [Hrq Hlen Hq Hnd Hs Hqd Hp] Hh E h' Hh'. unfold upd, rem. destruct (decide (h' = h)) as [->|Hne].
  - rewrite E. symmetry. apply filter_mid. rewrite <- E. by apply Hnd.
  - symmetry. apply filter_out. intros Hx. destruct (Hs h' i Hh' Hx) as (q & G1 & _ & G2).
    destruct (Hs h i Hh) as (q' & G3 & _ & G4); [rewrite E; apply elem_of_app; right; apply elem_of_cons; by left|]. congruence.
Qed.

Lemma rem_out st sl rq i p : base st sl rq -> procs st !! i = Some p -> p_wchan p = 0 ->
  forall h, (h < 64)%nat -> sl h = rem sl i h.
Proof.
  intros HB Hi Hw h Hh. unfold rem. rewrite filter_out; [done|]. intros Hx.
  destruct (b_sleeper _ _ _ HB h i Hh Hx) as (q & G1 & G2 & _). congruence.
Qed.

Lemma wake_unlink st sl rq h i p l1 l2 : base st sl rq -> (h < 64)%nat -> sl h = l1 ++ i :: l2 -> procs st !! i = Some p ->
  exists st1, unlink (putp st i (set_wchan p 0)) h (lastl (SqHead h) l1) i = Ret st1 /\ base st1 (rem sl i) rq /\
    cores st1 = <[i := core (set_wchan p 0)]> (cores st) /\ others st st1 /\ procs st1 !! i = Some (set_wchan p 0).
Proof.
  intros HB Hh E Hi. pose proof HB as [Hrq Hlen Hq Hnd Hs Hqd Hp]. destruct (Hq h Hh) as (s & G1 & G2 & G3).
  pose proof (Hnd h Hh) as N. rewrite E in *. set (st0 := putp st i (set_wchan p 0)).
  assert (Hlt : (i < length (procs st))%nat) by (by apply lookup_lt_Some in Hi).
  assert (Hi0 : procs st0 !! i = Some (set_wchan p 0)) by (cbn; by rewrite list_lookup_insert_eq).
  assert (Hni : i ∉ l1).
  { apply NoDup_app in N as (_ & N & _). intros Hx. apply (N i Hx), elem_of_cons. by left. }
  destruct (unlink_mem st0 h s i (set_wchan p 0) l1 l2) as (st1 & s1 & -> & U1 & U2 & U3 & U4 & (O1 & O2 & O3 & O4 & O5) & U6 & U7); [done| |done| |done|].
  { eapply slist_ext; [exact G2|]. intros j q _ Hj. cbn. destruct (decide (i = j)) as [<-|Hne].
    - rewrite list_lookup_insert_eq by done. exists (set_wchan p 0). split; [done|]. by rewrite Hi in Hj; injection Hj as <-.
    - rewrite list_lookup_insert_ne by done. by exists q. }
  { apply G3. by destruct l1. }
  assert (Hcores : cores st1 = <[i := core (set_wchan p 0)]> (cores st)).
  { rewrite U4. unfold cores. cbn. apply list_fmap_insert. }
  exists st1. split; [done|]. split.
  - eapply base_ext; [|by eapply (rem_upd st)]. eapply (base_unlink st st1 sl rq h i p l1 l2 s1); try done.
    + intros j Hj Hne. rewrite U6 by done. cbn. by rewrite list_lookup_insert_ne.
    + intros j. rewrite U7. unfold st0. destruct (link_putp st i (set_wchan p 0) (PP j) Hlt) as [_ ->]. destruct (decide _) as [[= ->]|]; [|done].
      unfold rlink_of. by rewrite Hi.
  - split; [done|]. split; [done|]. by rewrite U6.
Qed.

Lemma find_hp_ok st h s i l2 : slpque st !! h = Some s -> forall la l1 fuel, slist st (sq_head s) (l1 ++ la ++ i :: l2) -> i ∉ la ->
  (length la < fuel)%nat -> find_hp fuel st (lastl (SqHead h) l1) i = Ret (lastl (SqHead h) (l1 ++ la)).
Proof.
  intros Hs. induction la as [|j la IH]; intros l1 fuel H Hi Hf; (destruct fuel as [|fuel]; [cbn in Hf; lia|]); cbn [find_hp].
  - destruct (deref_at st h s l1 _ Hs H) as (a & -> & Ha). bind. destruct Ha as (-> & _).
    rewrite bool_decide_eq_true_2 by done. by rewrite app_nil_r.
  - destruct (deref_at st h s l1 _ Hs H) as (a & -> & Ha). bind. cbn in Ha. destruct Ha as (-> & _).
    rewrite bool_decide_eq_false_2 by (intros [= ->]; apply Hi, elem_of_cons; by left).
    replace (Link j) with (lastl (SqHead h) (l1 ++ [j])) by (by rewrite lastl_app).
    replace (l1 ++ j :: la) with ((l1 ++ [j]) ++ la) in * by (by rewrite <- app_assoc). apply IH.
    + rewrite <- app_assoc. exact H.
    + intros Hx. apply Hi, elem_of_cons. by right.
    + cbn in Hf. lia.
Qed.

Lemma nodup_short (l : list nat) n : NoDup l -> (forall i, i ∈ l -> (i < n)%nat) -> (length l <= n)%nat.
Proof.
  intros Hn H. rewrite <- (length_seq n 0). apply submseteq_length, NoDup_submseteq; [done|].
  intros i Hi. apply elem_of_seq. specialize (H i Hi). lia.
Qed.

Lemma queue_short st sl rq h : base st sl rq -> (h < 64)%nat -> (length (sl h) <= length (procs st))%nat.
Proof.
  intros HB Hh. apply nodup_short; [by apply (b_nodup _ _ _ HB)|]. intros i Hi.
  destruct (b_sleeper _ _ _ HB h i Hh Hi) as (p & E & _). by apply lookup_lt_Some in E.
Qed.

(** unsleep finds the process and takes it off; on no queue it does nothing. *)
Lemma unsleep_ok st sl rq i p : base st sl rq -> procs st !! i = Some p ->
  exists st1, unsleep st i = Ret st1 /\ base st1 (rem sl i) rq /\ cores st1 = <[i := core (set_wchan p 0)]> (cores st) /\
    others st st1 /\ procs st1 !! i = Some (set_wchan p 0).
Proof.
  intros HB Hi. pose proof HB as [Hrq Hlen Hq Hnd Hs Hqd Hp]. unfold unsleep, getp. rewrite Hi. bind.
  destruct (Z.eqb_spec (p_wchan p) 0) as [Hw|Hw].
  - assert (Ep : set_wchan p 0 = p) by (destruct p; cbn in *; by rewrite Hw). rewrite Ep.
    exists st. split; [done|]. split; [eapply base_ext; [done|by eapply rem_out]|]. split; [|split; [by unfold others|done]].
    symmetry. apply list_insert_id. unfold cores. by rewrite list_lookup_fmap, Hi.
  - destruct (Hqd i p Hi Hw) as [Hin Hr]. set (h := HASH (p_wchan p)) in *. pose proof (HASH_lt (p_wchan p)) as Hh. fold h in Hh.
    destruct (list_elem_of_split _ _ Hin) as (l1 & l2 & E). destruct (Hq h Hh) as (s & G1 & G2 & G3). pose proof (Hnd h Hh) as N.
    pose proof (queue_short st sl rq h HB Hh) as Hsh. rewrite E in *. rewrite length_app in Hsh. cbn in Hsh.
    assert (Hni : i ∉ l1).
    { apply NoDup_app in N as (_ & N & _). intros Hx. apply (N i Hx), elem_of_cons. by left. }
    rewrite (find_hp_ok st h s i l2 G1 l1 [] _ G2 Hni) by lia. bind. cbn [app].
    destruct (unlink_mem st h s i p l1 l2) as (st1 & s1 & -> & U1 & U2 & U3 & U4 & (O1 & O2 & O3 & O4 & O5) & U6 & U7); try done.
    { apply G3. by destruct l1. }
    bind. rewrite U6, Hi by done. bind. set (st2 := putp st1 i (set_wchan p 0)).
    assert (Hlt : (i < length (procs st1))%nat) by (apply (lookup_lt_Some _ _ p); by rewrite U6).
    assert (Hcores : cores st2 = <[i := core (set_wchan p 0)]> (cores st)) by (rewrite <- U4; unfold cores; cbn; apply list_fmap_insert).
    exists st2. split; [done|]. split; [|split; [done|split; [done|cbn; by rewrite list_lookup_insert_eq]]].
    eapply base_ext; [|by eapply (rem_upd st)]. eapply (base_unlink st st2 sl rq h i p l1 l2 s1); try done.
    + eapply slist_ext; [exact U2|]. intros j q _ Hj. cbn. destruct (decide (i = j)) as [<-|Hne].
      * rewrite list_lookup_insert_eq by done. exists (set_wchan p 0). split; [done|]. rewrite U6, Hi in Hj by done. by injection Hj as <-.
      * rewrite list_lookup_insert_ne by done. by exists q.
    + intros j Hj Hne. cbn. rewrite list_lookup_insert_ne by done. by apply U6.
    + intros j. destruct (link_putp st1 i (set_wchan p 0) (PP j) Hlt) as [_ E2]. unfold st2. rewrite E2. destruct (decide _) as [[= ->]|].
      * unfold rlink_of. by rewrite Hi.
      * by rewrite U7.
Qed.

(** ** Priorities *)

(** The value setpri computes, the cpu usage updatepri computes, and a process
    after updatepri.  The two computations are sealed: proofs about queues must
    not run them. *)
Definition usr_pri_def (s : sysvars) (cpu nice rssize maxrss : Z) : Z :=
  let p := Z.land cpu 0xff / 4 + (PUSER + 2 * nice) in
  let p := if (rssize >? maxrss) && (freemem s <? desfree s) then p + 2 * 4 else p in
  if p >? 127 then 127 else p.
Definition new_cpu_def (load cpu slptime : Z) : Z :=
  s8 (clamp (default 0 (decay 256 (get_b load) (Z.land cpu 0xff) (s8 (slptime - 1))))).

Definition usr_pri_aux : seal usr_pri_def. Proof. by eexists. Qed.
Definition usr_pri := usr_pri_aux.(unseal).
Definition usr_pri_eq : usr_pri = usr_pri_def := usr_pri_aux.(seal_eq).
Definition new_cpu_aux : seal new_cpu_def. Proof. by eexists. Qed.
Definition new_cpu := new_cpu_aux.(unseal).
Definition new_cpu_eq : new_cpu = new_cpu_def := new_cpu_aux.(seal_eq).

Definition pri_of (s : sysvars) (p : proc) : Z := usr_pri s (p_cpu p) (p_nice p) (p_rssize p) (p_maxrss p).
Definition aged (s : sysvars) (p : proc) : proc :=
  let p := set_cpu (set_slptime p 0) (new_cpu (averunnable s) (p_cpu p) (p_slptime p)) in
  set_usrpri p (s8 (pri_of s p)).

(** What changes in the global variables when something is made runnable. *)
Definition sys_like (s s' : sysvars) : Prop :=
  curpri s' = curpri s /\ noproc s' = noproc s /\ runin s' = runin s /\ freemem s' = freemem s /\ desfree s' = desfree s /\
  averunnable s' = averunnable s /\ hz s' = hz s /\ cold s' = cold s.

Lemma sys_like_refl s : sys_like s s.
Proof. unfold sys_like. by splits. Qed.
Lemma sys_like_trans a b c : sys_like a b -> sys_like b c -> sys_like a c.
Proof. unfold sys_like. intros H1 H2. conj. splits; congruence. Qed.
Lemma sys_like_resched st : sys_like (sys st) (sys (resched st)).
Proof. unfold sys_like. by splits. Qed.

Lemma pri_of_like s s' p : sys_like s s' -> pri_of s' p = pri_of s p.
Proof. intros (_ & _ & _ & E1 & E2 & _). unfold pri_of. rewrite usr_pri_eq. unfold usr_pri_def. by rewrite E1, E2. Qed.
Lemma aged_like s s' p : sys_like s s' -> aged s' p = aged s p.
Proof. intros H. pose proof H as (_ & _ & _ & _ & _ & E & _). unfold aged. rewrite E. by rewrite (pri_of_like s s' _ H). Qed.

Lemma setpri_eq st i pp : procs st !! i = Some pp ->
  setpri st i = Ret (pri_of (sys st) pp,
    putp (if pri_of (sys st) pp <? curpri (sys st) then resched st else st) i (set_usrpri pp (s8 (pri_of (sys st) pp)))).
Proof. intros Hi. unfold setpri, getp. rewrite Hi. unfold pri_of. by rewrite usr_pri_eq. Qed.

Lemma decay_total b : forall n a slp, 1 <= slp <= 127 -> (Z.to_nat slp < n)%nat -> exists r, decay n b a slp = Some r.
Proof.
  induction n as [|n IH]; intros a slp Hs Hn; [lia|]. cbn [decay]. destruct (a =? 0); [by eexists|].
  rewrite s8_small by lia. destruct (Z.eqb_spec (slp - 1) 0); [by eexists|]. apply IH; lia.
Qed.

(** Only [runrun] and [ast] may change besides the process. *)
Lemma updatepri_ok st i p : procs st !! i = Some p -> 1 < p_slptime p <= 127 ->
  exists st', updatepri st i = Ret st' /\ procs st' = <[i := aged (sys st) p]> (procs st) /\
    qs st' = qs st /\ whichqs st' = whichqs st /\ slpque st' = slpque st /\ allproc st' = allproc st /\ u_procp st' = u_procp st /\
    (sys st' = sys st \/ sys st' = sys (resched st)).
Proof.
  intros Hi Hs. unfold updatepri, getp. rewrite Hi. bind.
  destruct (decay_total (get_b (averunnable (sys st))) 256 (Z.land (p_cpu p) 0xff) (s8 (p_slptime p - 1))) as [a Ea];
    [rewrite s8_small; lia..|]. rewrite Ea. cbn [read]. bind.
  set (p1 := set_cpu _ _). assert (Hlt : (i < length (procs st))%nat) by (by apply lookup_lt_Some in Hi).
  rewrite (setpri_eq _ i p1) by (cbn; by rewrite list_lookup_insert_eq). bind.
  assert (Eg : aged (sys st) p = set_usrpri p1 (s8 (pri_of (sys st) p1))).
  { unfold aged. rewrite new_cpu_eq. unfold new_cpu_def. by rewrite Ea. }
  rewrite Eg. eexists. split; [reflexivity|].
  cbn [putp with_procs sys procs]. destruct (_ <? _); cbn; rewrite list_insert_insert_eq; splits; try done; by (left + right).
Qed.

Lemma set_usrpri_stays p n : stays p (set_usrpri p n).
Proof. unfold stays. splits; try done. by right. Qed.

Lemma aged_stays s p : stays p (aged s p).
Proof. unfold stays. splits; try done. by right. Qed.

(** ** Making a process runnable *)

Lemma off_ring st sl rq i p : base st sl rq -> procs st !! i = Some p -> p_rlink p = PNULL -> off_rings rq i.
Proof.
  intros HB Hi Hr k Hk Hin. destruct (rq_home _ _ (b_rq _ _ _ HB) k i Hk Hin) as (q & E & H & _). congruence.
Qed.

Lemma cores_lookup st st' i : cores st' = cores st ->
  forall p, procs st !! i = Some p -> exists p', procs st' !! i = Some p' /\ core p' = core p.
Proof.
  intros E p Hi. apply (f_equal (fun l => l !! i)) in E. unfold cores in E. rewrite !list_lookup_fmap, Hi in E.
  destruct (procs st' !! i) as [p'|]; [|done]. exists p'. split; [done|]. by apply (inj Some) in E.
Qed.

(** A step on the run queues alone. *)
Lemma base_rings st st' sl rq rq' : base st sl rq -> rq_inv st' rq' -> cores st' = cores st -> slpque st' = slpque st ->
  (forall j p, procs st !! j = Some p -> p_wchan p <> 0 -> procs st' !! j = procs st !! j) -> base st' sl rq'.
Proof.
  intros HB Hrq' Ec Es Hoff. pose proof HB as [Hrq Hlen Hq Hnd Hs Hqd Hp].
  constructor; try done.
  - by rewrite Es.
  - intros h Hh. rewrite Es. destruct (Hq h Hh) as (s & G1 & G2 & G3). exists s. splits; try done.
    eapply slist_ext; [exact G2|]. intros j p Hj Ej. exists p. split; [|done].
    destruct (Hs h j Hh Hj) as (p' & Ej' & Hw & _). rewrite Hoff with (p := p'); done.
  - intros h j Hh Hj. destruct (Hs h j Hh Hj) as (p & Ej & Hw & H). exists p. rewrite Hoff with (p := p); done.
  - intros j p' Ej Hw. destruct (cores_lookup st' st j (eq_sym Ec) p' Ej) as (p & E & C).
    apply core_fields in C as (_ & _ & Cw & _). rewrite <- Cw in Hw. rewrite Hoff with (p := p), E in Ej by done. injection Ej as <-. by apply Hqd.
  - intros j p' Ej. destruct (cores_lookup st' st j (eq_sym Ec) p' Ej) as (p & E & C).
    apply core_fields in C as (_ & C1 & _ & _ & C2 & _). rewrite <- C1, <- C2. by eapply Hp.
Qed.

Lemma base_setrq st sl rq i p : base st sl rq -> procs st !! i = Some p -> p_rlink p = PNULL -> p_wchan p = 0 ->
  exists st', setrq st i = Ret st' /\ base st' sl (enq rq (qindex (p_pri p)) i) /\ links_only st st'.
Proof.
  intros HB Hi Hr Hw. destruct (b_pri _ _ _ HB i p Hi) as [Hp _].
  destruct (setrq_ok st rq i p (b_rq _ _ _ HB) Hi Hr (qindex_lt _ Hp)) as (st' & E & O & Hrq' & Hoff).
  exists st'. split; [done|]. split; [|done]. destruct O as (O1 & O2 & O3 & _).
  eapply base_rings; [exact HB|done..|]. intros j q Hj Hwj. apply Hoff; [intros ->; congruence|].
  eapply off_ring; [exact HB|exact Hj|]. by destruct (b_queued _ _ _ HB j q Hj Hwj).
Qed.

Definition ready (s : sysvars) (p : proc) : proc := set_stat (if p_slptime p >? 1 then aged s p else p) SRUN.
Definition enq_if (b : bool) (rq : nat -> list nat) (k i : nat) : nat -> list nat := if b then enq rq k i else rq.

Lemma ready_stat s p : p_stat (ready s p) = SRUN.
Proof. reflexivity. Qed.
Lemma ready_flag s p : p_flag (ready s p) = p_flag p.
Proof. unfold ready. destruct (p_slptime p >? 1); reflexivity. Qed.
Lemma ready_wchan s p : p_wchan (ready s p) = p_wchan p.
Proof. unfold ready. destruct (p_slptime p >? 1); reflexivity. Qed.
Lemma ready_like s s' p : sys_like s s' -> ready s' p = ready s p.
Proof. intros H. unfold ready. rewrite (aged_like s s' _ H). reflexivity. Qed.

Lemma core_aged s p : core (aged s p) = aged s (core p).
Proof. reflexivity. Qed.
Lemma core_ready s p : core (ready s p) = ready s (core p).
Proof.
  unfold ready. change (p_slptime (core p)) with (p_slptime p). destruct (p_slptime p >? 1).
  - rewrite <- core_aged. generalize (aged s p). reflexivity.
  - reflexivity.
Qed.
#[global] Opaque ready.

Lemma core_set_stat p p' s : core p = core p' -> core (set_stat p s) = core (set_stat p' s).
Proof. intros H. change (set_stat (core p) s = set_stat (core p') s). by rewrite H. Qed.

(** The global variables after aston(). *)
Definition woke (s s' : sysvars) : Prop := sys_like s s' /\ runout s' = runout s /\ wantin s' = wantin s.

Lemma set_stat_stays p s : stays p (set_stat p s).
Proof. unfold stays. splits; try done. by right. Qed.

Lemma run_sleeper_ok st sl rq i p : base st sl rq -> procs st !! i = Some p -> p_rlink p = PNULL -> p_wchan p = 0 ->
  exists st', run_sleeper st i = Ret st' /\ base st' sl (enq_if (loaded p) rq (qindex (p_pri p)) i) /\
    cores st' = <[i := core (ready (sys st) p)]> (cores st) /\ allproc st' = allproc st /\ u_procp st' = u_procp st /\
    woke (sys st) (sys st').
Proof.
  intros HB Hi Hr Hw. pose proof (b_pri _ _ _ HB i p Hi) as [_ Hslp]. unfold run_sleeper, getp. rewrite Hi. bind.
  assert (Hlt : (i < length (procs st))%nat) by (by apply lookup_lt_Some in Hi).
  set (p1 := if p_slptime p >? 1 then aged (sys st) p else p).
  assert (H1 : exists st1, (if p_slptime p >? 1 then updatepri st i else Ret st) = Ret st1 /\ base st1 sl rq /\
    procs st1 = <[i := p1]> (procs st) /\ allproc st1 = allproc st /\ u_procp st1 = u_procp st /\ woke (sys st) (sys st1)).
  { unfold p1. destruct (Z.gtb_spec (p_slptime p) 1) as [Hgt|Hle].
    - destruct (updatepri_ok st i p Hi ltac:(lia)) as (st1 & E & P1 & Q1 & Q2 & Q3 & Q4 & Q5 & S1). exists st1.
      split; [done|]. split; [eapply base_stays; [exact HB|done..|]; rewrite P1; eapply stays_putp; [exact Hi|apply aged_stays]|].
      splits; try done. destruct S1 as [->| ->]; unfold woke; splits; by try apply sys_like_refl.
    - exists st. split; [done|]. split; [done|]. splits; try done. by rewrite list_insert_id. }
  destruct H1 as (st1 & -> & HB1 & P1 & A1 & U1 & (S1 & R1 & W1)). bind. rewrite P1, list_lookup_insert_eq by done. bind.
  assert (Hp1 : p_rlink p1 = PNULL /\ p_wchan p1 = 0 /\ p_pri p1 = p_pri p /\ p_flag p1 = p_flag p).
  { unfold p1. by destruct (p_slptime p >? 1). }
  destruct Hp1 as (R & W & P & F). unfold loaded. rewrite F.
  set (st2 := putp st1 i (set_stat p1 SRUN)). assert (Hi1 : procs st1 !! i = Some p1) by (by rewrite P1, list_lookup_insert_eq).
  assert (HB2 : base st2 sl rq) by (eapply base_putp; [done|done|apply set_stat_stays]).
  assert (C2 : cores st2 = <[i := core (ready (sys st) p)]> (cores st)).
  { unfold cores. cbn. rewrite P1, list_insert_insert_eq. apply list_fmap_insert. }
  destruct (has (p_flag p) SLOAD); cbn [enq_if].
  - destruct (base_setrq st2 sl rq i (set_stat p1 SRUN) HB2) as (st3 & E3 & HB3 & O3); [|done|done|].
    { cbn. rewrite P1, list_insert_insert_eq. by rewrite list_lookup_insert_eq. }
    rewrite E3. bind. exists (resched st3). destruct O3 as (O1 & O2 & O3 & O4 & O5 & O6). split; [done|].
    split; [apply base_sys; cbn in HB3; by rewrite P in HB3|]. split; [by rewrite <- C2|]. cbn. rewrite O6, O4, O5.
    splits; try done.
  - bind. exists (resched st2). split; [done|]. split; [by apply base_sys|]. split; [done|]. cbn. splits; try done.
Qed.

(** ** Waking: what a sequence of wakeups does *)

(** Process [i] after those of [ws] have been woken. *)
Definition after (s : sysvars) (ws : list nat) (i : nat) (p : proc) : proc :=
  if decide (i ∈ ws) then (if decide (p_stat p = SSLEEP) then ready s (set_wchan p 0) else set_wchan p 0) else p.
(** Does [i], woken, go on run queue [k]? *)
Definition joins (st : kst) (k i : nat) : bool :=
  match procs st !! i with
  | Some p => bool_decide (p_stat p = SSLEEP) && loaded p && bool_decide (qindex (p_pri p) = k)
  | None => false
  end.
Definition on (st : kst) (chan : Z) (i : nat) : bool :=
  match procs st !! i with Some p => p_wchan p =? chan | None => false end.

Record wakes (st : kst) (sl rq : nat -> list nat) (ws : list nat) (st' : kst) (sl' rq' : nat -> list nat) : Prop := Wakes {
  w_inv : inv st' sl' rq';
  w_sl : forall h, (h < 64)%nat -> sl' h = filter (fun i => i ∉ ws) (sl h);
  w_rq : forall k, (k < 32)%nat -> rq' k = rq k ++ filter (fun i => joins st k i = true) ws;
  w_core : forall i p, procs st !! i = Some p -> exists p', procs st' !! i = Some p' /\ core p' = core (after (sys st) ws i p);
  w_len : length (procs st') = length (procs st);
  w_ws : forall i, i ∈ ws -> exists p, procs st !! i = Some p /\ p_wchan p <> 0;
  w_nodup : NoDup ws;
  w_oth : allproc st' = allproc st /\ u_procp st' = u_procp st /\ sys_like (sys st) (sys st')
}.

Lemma core_after s ws i p : core (after s ws i p) = after s ws i (core p).
Proof.
  unfold after. change (p_stat (core p)) with (p_stat p). destruct (decide _); [|done]. destruct (decide _); [|done].
  by rewrite core_ready.
Qed.

Lemma after_in_wchan s ws i p : i ∈ ws -> p_wchan (after s ws i p) = 0.
Proof.
  intros H. unfold after. rewrite decide_True by done. destruct (decide _); [|done]. by rewrite ready_wchan.
Qed.

Lemma after_flag s ws i p : p_flag (after s ws i p) = p_flag p.
Proof.
  unfold after. destruct (decide _); [|done]. destruct (decide _); [|done]. by rewrite ready_flag.
Qed.

Lemma after_out s ws i p : i ∉ ws -> after s ws i p = p.
Proof. intros H. unfold after. by rewrite decide_False. Qed.

Lemma after_like s s' ws i p : sys_like s s' -> after s' ws i p = after s ws i p.
Proof.
  intros H. unfold after. destruct (decide (i ∈ ws)); [|reflexivity]. destruct (decide (p_stat p = SSLEEP)); [|reflexivity].
  exact (ready_like s s' (set_wchan p 0) H).
Qed.

Lemma filter_keep {A} (P : A -> Prop) `{Hp : !forall x, Decision (P x)} (l : list A) : (forall x, x ∈ l -> P x) -> filter P l = l.
Proof.
  induction l as [|x l IH]; intros H; [done|]. rewrite filter_cons_True by (apply H, elem_of_cons; by left).
  f_equal. apply IH. intros y Hy. apply H, elem_of_cons. by right.
Qed.
Lemma filter_drop {A} (P : A -> Prop) `{Hp : !forall x, Decision (P x)} (l : list A) : (forall x, x ∈ l -> ~ P x) -> filter P l = [].
Proof.
  induction l as [|x l IH]; intros H; [done|]. rewrite filter_cons_False by (apply H, elem_of_cons; by left).
  apply IH. intros y Hy. apply H, elem_of_cons. by right.
Qed.
Lemma filter_eq {A} (P Q : A -> Prop) `{Hp : !forall x, Decision (P x)} `{Hq : !forall x, Decision (Q x)} (l : list A) :
  (forall x, x ∈ l -> P x <-> Q x) -> filter P l = filter Q l.
Proof.
  induction l as [|x l IH]; intros H; [done|]. assert (Hx := H x (ltac:(apply elem_of_cons; by left))).
  rewrite !filter_cons. rewrite IH by (intros y Hy; apply H, elem_of_cons; by right).
  destruct (decide (P x)), (decide (Q x)); tauto.
Qed.

Lemma wakes_nil st sl rq : inv st sl rq -> wakes st sl rq [] st sl rq.
Proof.
  intros H. constructor; try done.
  - intros h _. symmetry. apply filter_keep. intros x _ Hx. by apply not_elem_of_nil in Hx.
  - intros k _. by rewrite app_nil_r.
  - intros i p Hi. exists p. split; [done|]. by rewrite after_out by apply not_elem_of_nil.
  - intros i Hi. by apply not_elem_of_nil in Hi.
  - by apply NoDup_nil_2.
Qed.

Lemma wakes_out st sl rq ws st' sl' rq' i : wakes st sl rq ws st' sl' rq' -> i ∉ ws ->
  (forall p', procs st' !! i = Some p' -> exists p, procs st !! i = Some p /\ core p' = core p) /\
  (forall c, on st' c i = on st c i) /\ (forall k, joins st' k i = joins st k i).
Proof.
  intros W Hi. assert (H : forall p, procs st !! i = Some p -> exists p', procs st' !! i = Some p' /\ core p' = core p).
  { intros p Ep. destruct (w_core _ _ _ _ _ _ _ W i p Ep) as (p' & E & C). exists p'. by rewrite after_out in C. }
  assert (Hn : procs st !! i = None -> procs st' !! i = None).
  { intros E. apply lookup_ge_None in E. apply lookup_ge_None. by rewrite (w_len _ _ _ _ _ _ _ W). }
  unfold on, joins. destruct (procs st !! i) as [p|].
  - destruct (H p eq_refl) as (p' & -> & C). pose proof (core_fields _ _ C) as (E1 & E2 & E3 & E4 & _).
    splits; [intros q [= <-]; by exists p|by rewrite E3|]. unfold loaded. by rewrite E1, E2, E4.
  - rewrite Hn by done. by splits.
Qed.

Lemma wakes_disjoint st sl rq ws1 st1 sl1 rq1 ws2 st2 sl2 rq2 :
  wakes st sl rq ws1 st1 sl1 rq1 -> wakes st1 sl1 rq1 ws2 st2 sl2 rq2 -> forall i, i ∈ ws2 -> i ∉ ws1.
Proof.
  intros W1 W2 i H2 H1. destruct (w_ws _ _ _ _ _ _ _ W2 i H2) as (p1 & E1 & Hw).
  destruct (w_ws _ _ _ _ _ _ _ W1 i H1) as (p & E & _). destruct (w_core _ _ _ _ _ _ _ W1 i p E) as (p' & E' & C).
  rewrite E1 in E'. injection E' as <-. apply core_fields in C as (_ & _ & C & _). rewrite after_in_wchan in C by done. done.
Qed.

Lemma wakes_trans st sl rq ws1 st1 sl1 rq1 ws2 st2 sl2 rq2 :
  wakes st sl rq ws1 st1 sl1 rq1 -> wakes st1 sl1 rq1 ws2 st2 sl2 rq2 -> wakes st sl rq (ws1 ++ ws2) st2 sl2 rq2.
Proof.
  intros W1 W2. pose proof (wakes_disjoint _ _ _ _ _ _ _ _ _ _ _ W1 W2) as Hd. constructor.
  - apply W2.
  - intros h Hh. rewrite (w_sl _ _ _ _ _ _ _ W2) by done. rewrite (w_sl _ _ _ _ _ _ _ W1) by done.
    rewrite list_filter_filter. apply filter_eq. intros i _. rewrite elem_of_app. tauto.
  - intros k Hk. rewrite (w_rq _ _ _ _ _ _ _ W2) by done. rewrite (w_rq _ _ _ _ _ _ _ W1) by done.
    rewrite filter_app, app_assoc. f_equal. apply filter_eq. intros i Hi.
    destruct (wakes_out _ _ _ _ _ _ _ i W1 (Hd i Hi)) as (_ & _ & ->). done.
  - intros i p E. destruct (w_core _ _ _ _ _ _ _ W1 i p E) as (p1 & E1 & C1).
    destruct (w_core _ _ _ _ _ _ _ W2 i p1 E1) as (p2 & E2 & C2). exists p2. split; [done|].
    rewrite C2. rewrite core_after, C1, core_after, <- !core_after.
    destruct (w_oth _ _ _ _ _ _ _ W1) as (_ & _ & Hsys). unfold after.
    destruct (decide (i ∈ ws1)) as [H1|H1].
    + rewrite (decide_False (P := i ∈ ws2)) by (intros H2; by apply (Hd i H2)).
      rewrite (decide_True (P := i ∈ ws1 ++ ws2)) by (apply elem_of_app; by left). done.
    + destruct (decide (i ∈ ws2)) as [H2|H2].
      * rewrite (decide_True (P := i ∈ ws1 ++ ws2)) by (apply elem_of_app; by right). destruct (decide _); [|done]. by rewrite (ready_like _ _ _ Hsys).
      * rewrite decide_False; [done|]. rewrite elem_of_app. tauto.
  - rewrite (w_len _ _ _ _ _ _ _ W2). apply W1.
  - intros i Hi. apply elem_of_app in Hi as [Hi|Hi]; [by apply (w_ws _ _ _ _ _ _ _ W1)|].
    destruct (w_ws _ _ _ _ _ _ _ W2 i Hi) as (p1 & E1 & Hw).
    destruct (wakes_out _ _ _ _ _ _ _ i W1 (Hd i Hi)) as (H & _). destruct (H p1 E1) as (p & E & C). exists p. split; [done|].
    apply core_fields in C as (_ & _ & <- & _). done.
  - apply NoDup_app. splits; [apply W1| |apply W2]. intros i H1 H2. by apply (Hd i H2).
  - destruct (w_oth _ _ _ _ _ _ _ W1) as (A1 & A2 & A3). destruct (w_oth _ _ _ _ _ _ _ W2) as (B1 & B2 & B3).
    splits; [congruence|congruence|by eapply sys_like_trans].
Qed.

Lemma cores_after s st st' i p q : procs st !! i = Some p ->
  cores st' = <[i := core q]> (cores st) -> core q = core (after s [i] i p) ->
  length (procs st') = length (procs st) /\
  forall j pj, procs st !! j = Some pj -> exists p', procs st' !! j = Some p' /\ core p' = core (after s [i] j pj).
Proof.
  intros Hi Ec Eq. split; [apply (f_equal length) in Ec; unfold cores in Ec; by rewrite length_insert, !length_fmap in Ec|].
  intros j pj Hj. apply (f_equal (fun l => l !! j)) in Ec. unfold cores in Ec. rewrite list_lookup_fmap in Ec.
  destruct (decide (j = i)) as [->|Hne].
  - rewrite list_lookup_insert_eq in Ec by (rewrite length_fmap; by apply lookup_lt_Some in Hi).
    destruct (procs st' !! i) as [p'|]; [|done]. exists p'. split; [done|]. apply (inj Some) in Ec. rewrite Ec, Eq. congruence.
  - rewrite list_lookup_insert_ne, list_lookup_fmap, Hj in Ec by done.
    destruct (procs st' !! j) as [p'|]; [|done]. exists p'. split; [done|]. apply (inj Some) in Ec. rewrite Ec.
    rewrite after_out; [done|]. intros Hx. by apply list_elem_of_singleton in Hx.
Qed.

Lemma after_one s i p : after s [i] i p = if decide (p_stat p = SSLEEP) then ready s (set_wchan p 0) else set_wchan p 0.
Proof. unfold after. by rewrite decide_True by (by apply list_elem_of_singleton). Qed.

(** The invariant after one wakeup, given the queues. *)
Lemma wake_inv st sl rq st' sl' rq' i p : inv st sl rq -> base st' sl' rq' -> procs st !! i = Some p ->
  (forall k, (k < 32)%nat -> rq' k = rq k ++ filter (fun j => joins st k j = true) [i]) ->
  length (procs st') = length (procs st) ->
  (forall j pj, procs st !! j = Some pj -> exists p', procs st' !! j = Some p' /\ core p' = core (after (sys st) [i] j pj)) ->
  inv st' sl' rq'.
Proof.
  intros [HB Hsl Hrun Has] HB' Hi Hrq' Hlen Hc.
  assert (Hb : forall j p', procs st' !! j = Some p' -> exists pj, procs st !! j = Some pj /\ core p' = core (after (sys st) [i] j pj)).
  { intros j p' E. destruct (lookup_lt_is_Some_2 (procs st) j) as [pj Ej]; [rewrite <- Hlen; by apply lookup_lt_Some in E|].
    destruct (Hc j pj Ej) as (p2 & E2 & C). rewrite E in E2. injection E2 as <-. by exists pj. }
  assert (Hcase : forall j p', procs st' !! j = Some p' -> exists pj, procs st !! j = Some pj /\
    loaded p' = loaded pj /\ ((j <> i /\ p_stat p' = p_stat pj /\ p_wchan p' = p_wchan pj) \/
     (j = i /\ p_wchan p' = 0 /\ (p_stat pj = SSLEEP -> p_stat p' = SRUN) /\ (p_stat pj <> SSLEEP -> p_stat p' = p_stat pj)))).
  { intros j p' E. destruct (Hb j p' E) as (pj & Ej & C). exists pj. split; [done|]. pose proof (core_fields _ _ C) as (C1 & _ & C3 & C4 & _).
    split; [unfold loaded; rewrite C4; by rewrite after_flag|].
    destruct (decide (j = i)) as [->|Hne].
    - right. rewrite after_one in C1, C3. rewrite C1, C3. destruct (decide (p_stat pj = SSLEEP)); [|by splits].
      rewrite ready_stat, ready_wchan. by splits.
    - left. rewrite after_out in C1, C3; [by splits|..]; intros Hx; by apply list_elem_of_singleton in Hx. }
  constructor; [done|..].
  - intros j p' E Hw. destruct (Hcase j p' E) as (pj & Ej & _ & [(_ & H1 & H2)|(_ & H1 & _)]); [|done].
    rewrite H1, H2 in *. by eapply Hsl.
  - intros j p' E Hr. destruct (rq_linked _ _ (b_rq _ _ _ HB') j p' E Hr) as (k & Hk & Hin). rewrite Hrq' in Hin by done.
    destruct (Hcase j p' E) as (pj & Ej & -> & Hj). apply elem_of_app in Hin as [Hin|Hin].
    + destruct (rq_home _ _ (b_rq _ _ _ HB) k j Hk Hin) as (q & Eq & Hrq & _). rewrite Ej in Eq. injection Eq as <-.
      pose proof (Hrun j pj Ej Hrq) as [Hst Hl]. split; [|done]. destruct Hj as [(_ & -> & _)|(_ & _ & _ & H)]; [done|]. rewrite H; [done|]. by rewrite Hst.
    + apply list_elem_of_filter in Hin as [Hjn Hin]. apply list_elem_of_singleton in Hin as ->. unfold joins in Hjn. rewrite Hi in Hjn.
      destruct Hj as [(? & _)|(_ & _ & H & _)]; [done|]. rewrite Hi in Ej. injection Ej as <-.
      apply andb_prop in Hjn as [Hjn _]. apply andb_prop in Hjn as [Hjn Hl]. split; [|done]. apply H. by apply bool_decide_eq_true in Hjn.
  - intros j p' E Hst. destruct (Hcase j p' E) as (pj & Ej & _ & [(_ & H1 & H2)|(-> & H1 & H2 & H3)]).
    + rewrite H1 in Hst. rewrite H2. by eapply Has.
    + exfalso. destruct (decide (p_stat pj = SSLEEP)) as [Hs|Hs]; [by rewrite H2 in Hst|]. rewrite H3 in Hst by done. done.
Qed.

Lemma wake_wakes st sl rq st' rq' i p q : inv st sl rq -> base st' (rem sl i) rq' -> procs st !! i = Some p -> p_wchan p <> 0 ->
  (forall k, (k < 32)%nat -> rq' k = rq k ++ filter (fun j => joins st k j = true) [i]) ->
  cores st' = <[i := core q]> (cores st) -> core q = core (after (sys st) [i] i p) ->
  allproc st' = allproc st -> u_procp st' = u_procp st -> sys_like (sys st) (sys st') -> wakes st sl rq [i] st' (rem sl i) rq'.
Proof.
  intros HI HB' Hi Hw Hrq' Ec Eq A U S. destruct (cores_after (sys st) st st' i p q Hi Ec Eq) as [Hlen Hc].
  constructor; try done.
  - by eapply wake_inv.
  - intros h _. unfold rem. apply filter_eq. intros j _. by rewrite list_elem_of_singleton.
  - intros j Hj. apply list_elem_of_singleton in Hj as ->. by exists p.
  - apply NoDup_singleton.
Qed.

Lemma joins_if st i p rq : procs st !! i = Some p -> p_stat p = SSLEEP ->
  forall k, enq_if (loaded p) rq (qindex (p_pri p)) i k = rq k ++ filter (fun j => joins st k j = true) [i].
Proof.
  intros Hi Hs k. rewrite filter_cons, filter_nil. unfold joins. rewrite Hi, Hs. cbn [bool_decide decide andb].
  rewrite bool_decide_eq_true_2 by done. destruct (loaded p); cbn [andb enq_if].
  - unfold enq. destruct (decide (k = qindex (p_pri p))) as [->|Hne].
    + rewrite bool_decide_eq_true_2 by done. done.
    + rewrite bool_decide_eq_false_2 by done. cbn. by rewrite app_nil_r.
  - cbn. by rewrite app_nil_r.
Qed.

Lemma wake_one st sl rq h i p l1 l2 : inv st sl rq -> (h < 64)%nat -> sl h = l1 ++ i :: l2 -> procs st !! i = Some p ->
  exists st1, unlink (putp st i (set_wchan p 0)) h (lastl (SqHead h) l1) i = Ret st1 /\
    (p_stat p = SSTOP -> wakes st sl rq [i] st1 (rem sl i) rq /\ sys st1 = sys st) /\
    (p_stat p = SSLEEP -> exists st2, run_sleeper st1 i = Ret st2 /\
       wakes st sl rq [i] st2 (rem sl i) (enq_if (loaded p) rq (qindex (p_pri p)) i) /\
       procs st1 !! i = Some (set_wchan p 0) /\ runout (sys st2) = runout (sys st)).
Proof.
  intros HI Hh E Hi. pose proof HI as [HB Hsl Hrun Has].
  assert (Hin : i ∈ sl h) by (rewrite E; apply elem_of_app; right; apply elem_of_cons; by left).
  destruct (b_sleeper _ _ _ HB h i Hh Hin) as (p0 & E0 & Hw & _). rewrite Hi in E0. injection E0 as <-.
  destruct (b_queued _ _ _ HB i p Hi Hw) as [_ Hr].
  destruct (wake_unlink st sl rq h i p l1 l2 HB Hh E Hi) as (st1 & E1 & HB1 & C1 & (O1 & O2 & O3 & O4 & O5) & P1).
  exists st1. split; [done|]. split; intros Hst.
  - split; [|done]. eapply wake_wakes; try done; [| |by rewrite O5; apply sys_like_refl].
    + intros k _. rewrite filter_cons, filter_nil. unfold joins. rewrite Hi, Hst. cbn. by rewrite app_nil_r.
    + rewrite after_one. by rewrite decide_False by (rewrite Hst; done).
  - destruct (run_sleeper_ok st1 (rem sl i) rq i (set_wchan p 0) HB1 P1 Hr eq_refl) as (st2 & E2 & HB2 & C2 & A2 & U2 & (S2 & R2 & W2)).
    exists st2. split; [done|]. split; [|split; [done|by rewrite R2, O5]].
    eapply (wake_wakes _ _ _ _ _ _ _ (ready (sys st1) (set_wchan p 0))); try done.
    + intros k _. by apply joins_if.
    + by rewrite C2, C1, list_insert_insert_eq.
    + rewrite after_one, decide_True by done. by rewrite O5.
    + by rewrite A2.
    + by rewrite U2.
    + by rewrite <- O5.
Qed.

(** ** wakeup *)

(** How many processes are on sleep queues: wakeup's fuel is bounded by it. *)
Definition nwait (l : list proc) : nat := length (filter (fun p => p_wchan p <> 0) l).
Definition waiting (st : kst) : nat := nwait (procs st).

Lemma nwait_cons p l : nwait (p :: l) = ((if decide (p_wchan p <> 0%Z) then 1 else 0) + nwait l)%nat.
Proof. unfold nwait. rewrite filter_cons. by destruct (decide _). Qed.

Lemma waiting_le (l l' : list proc) : Forall2 (fun p p' => p_wchan p' = p_wchan p \/ p_wchan p' = 0) l l' ->
  (nwait l' <= nwait l)%nat /\
  ((exists i p p', l !! i = Some p /\ l' !! i = Some p' /\ p_wchan p <> 0 /\ p_wchan p' = 0) -> (nwait l' < nwait l)%nat).
Proof.
  induction 1 as [|x y l l' H HF [IH1 IH2]]; [split; [done|intros (i & p & p' & E & _); done]|].
  rewrite !nwait_cons. split.
  - destruct (decide (p_wchan x <> 0)) as [Hx|Hx], (decide (p_wchan y <> 0)) as [Hy|Hy]; lia.
  - intros (i & p & p' & E1 & E2 & Hw & Hw'). destruct i as [|i]; cbn in E1, E2.
    + injection E1 as ->. injection E2 as ->. rewrite decide_False, decide_True by (try done; lia). lia.
    + assert (IH : (nwait l' < nwait l)%nat) by (apply IH2; eauto 10).
      destruct (decide (p_wchan x <> 0)) as [Hx|Hx], (decide (p_wchan y <> 0)) as [Hy|Hy]; lia.
Qed.

Lemma wakes_waiting st sl rq ws st' sl' rq' : wakes st sl rq ws st' sl' rq' ->
  (waiting st' <= waiting st)%nat /\ (ws <> [] -> (waiting st' < waiting st)%nat).
Proof.
  intros W. assert (HF : Forall2 (fun p p' => p_wchan p' = p_wchan p \/ p_wchan p' = 0) (procs st) (procs st')).
  { apply Forall2_same_length_lookup_2; [symmetry; apply (w_len _ _ _ _ _ _ _ W)|]. intros i p p' E E'.
    destruct (w_core _ _ _ _ _ _ _ W i p E) as (p2 & E2 & C). rewrite E' in E2. injection E2 as <-.
    apply core_fields in C as (_ & _ & C & _). rewrite C. destruct (decide (i ∈ ws)); [right; by apply after_in_wchan|left; by rewrite after_out]. }
  destruct (waiting_le _ _ HF) as [H1 H2]. split; [done|]. intros Hn. apply H2. destruct ws as [|i ws]; [done|].
  assert (Hi : i ∈ i :: ws) by (apply elem_of_cons; by left).
  destruct (w_ws _ _ _ _ _ _ _ W i Hi) as (p & E & Hw). destruct (w_core _ _ _ _ _ _ _ W i p E) as (p' & E' & C).
  exists i, p, p'. splits; try done. apply core_fields in C as (_ & _ & C & _). rewrite C. by apply after_in_wchan.
Qed.

Lemma waiting_bound st : (waiting st <= length (procs st))%nat.
Proof. apply length_filter. Qed.

Lemma inv_sys st sl rq s : inv st sl rq -> inv (with_sys st s) sl rq.
Proof. intros [HB H1 H2 H3]. constructor; [by apply base_sys|exact H1|exact H2|exact H3]. Qed.

Lemma wakes_sys st sl rq ws st' sl' rq' s : wakes st sl rq ws st' sl' rq' -> sys_like (sys st') s ->
  wakes st sl rq ws (with_sys st' s) sl' rq'.
Proof.
  intros [HI Hsl Hrq Hc Hl Hws Hn (A & U & S)] Hs.
  constructor; [by apply inv_sys|exact Hsl|exact Hrq|exact Hc|exact Hl|exact Hws|exact Hn|].
  split; [exact A|]. split; [exact U|]. by eapply sys_like_trans.
Qed.

Lemma wakes_sys_l st sl rq ws st' sl' rq' s : wakes (with_sys st s) sl rq ws st' sl' rq' -> sys_like (sys st) s ->
  wakes st sl rq ws st' sl' rq'.
Proof.
  intros [HI Hsl Hrq Hc Hl Hws Hn (A & U & S)] Hs.
  constructor; [exact HI|exact Hsl|exact Hrq| |exact Hl|exact Hws|exact Hn|].
  - intros i p E. destruct (Hc i p E) as (p' & E' & C). exists p'. split; [done|]. rewrite C.
    f_equal. exact (after_like (sys st) s ws i p Hs).
  - split; [exact A|]. split; [exact U|]. by eapply sys_like_trans.
Qed.

Section wakeup.
Variable runout_addr : Z.

(** What one call of wakeup has done: it woke [ws], on [chan] or on runout; those
    on [chan] in the order of the queue; and only those when the swapper is not
    involved. *)
Record woken (st : kst) (chan : Z) (l ws : list nat) (st' : kst) : Prop := Woken {
  k_chan : forall i, i ∈ ws -> on st chan i = true \/ on st runout_addr i = true;
  k_order : filter (fun i => on st chan i = true) ws = filter (fun i => on st chan i = true) l;
  k_plain : runout (sys st) = 0 \/ (forall i p, procs st !! i = Some p -> p_wchan p = chan -> p_stat p = SSLEEP -> loaded p = true) ->
    ws = filter (fun i => on st chan i = true) l /\ runout (sys st') = runout (sys st)
}.

(** First [ws1] was woken, which left [l1] of the queue to look at. *)
Lemma woken_app st sl rq ws1 st1 sl1 rq1 ws2 st2 chan l l1 :
  wakes st sl rq ws1 st1 sl1 rq1 -> woken st1 chan l1 ws2 st2 -> (forall i, i ∈ ws2 -> i ∉ ws1) -> (forall i, i ∈ l1 -> i ∉ ws1) ->
  (forall i, i ∈ ws1 -> on st chan i = true \/ on st runout_addr i = true) ->
  filter (fun i => on st chan i = true) ws1 ++ filter (fun i => on st chan i = true) l1 = filter (fun i => on st chan i = true) l ->
  (runout (sys st) = 0 \/ (forall i p, procs st !! i = Some p -> p_wchan p = chan -> p_stat p = SSLEEP -> loaded p = true) ->
   ws1 = filter (fun i => on st chan i = true) ws1 /\ runout (sys st1) = runout (sys st)) ->
  woken st chan l (ws1 ++ ws2) st2.
Proof.
  intros W [K1 K2 K3] Hd Hd1 H1 H2 H3.
  assert (Hon : forall c i, i ∈ ws2 \/ i ∈ l1 -> on st1 c i = on st c i).
  { intros c i Hi. apply (wakes_out _ _ _ _ _ _ _ i W). destruct Hi; auto. }
  assert (E2 : filter (fun i => on st chan i = true) ws2 = filter (fun i => on st chan i = true) l1).
  { rewrite (filter_eq _ (fun i => on st1 chan i = true) ws2) by (intros i Hi; rewrite Hon by (by left); done).
    rewrite K2. apply filter_eq. intros i Hi. by rewrite Hon by (by right). }
  constructor.
  - intros i Hi. apply elem_of_app in Hi as [Hi|Hi]; [by apply H1|]. rewrite <- !Hon by (by left). by apply K1.
  - rewrite filter_app, E2. exact H2.
  - intros Hp. destruct (H3 Hp) as [E3 R1].
    assert (Hp1 : runout (sys st1) = 0 \/ (forall i p, procs st1 !! i = Some p -> p_wchan p = chan -> p_stat p = SSLEEP -> loaded p = true)).
    { destruct Hp as [Hp|Hp]; [left; congruence|right]. intros i p' Ei Hw Hs. destruct (lookup_lt_is_Some_2 (procs st) i) as [p Ep].
      { rewrite <- (w_len _ _ _ _ _ _ _ W). by apply lookup_lt_Some in Ei. }
      destruct (w_core _ _ _ _ _ _ _ W i p Ep) as (p2 & E' & C). rewrite Ei in E'. injection E' as <-.
      pose proof (core_fields _ _ C) as (C1 & _ & C3 & C4 & _). destruct (decide (i ∈ ws1)) as [Hi|Hi].
      - rewrite C1 in Hs. unfold after in Hs. rewrite decide_True in Hs by done.
        destruct (decide _) as [Hs2|Hs2]; [|done]. by rewrite ready_stat in Hs.
      - rewrite after_out in C1, C3, C4 by done. unfold loaded. rewrite C4. apply (Hp i p Ep); congruence. }
    destruct (K3 Hp1) as [E4 R2]. split; [|congruence]. rewrite <- H2, <- E3, E4. f_equal.
    apply filter_eq. intros i Hi. by rewrite Hon by (by right).
Qed.

(** The step for one sleeper, as wakeup_from takes it. *)
Lemma deref_head st sl rq h l1 i l2 : base st sl rq -> (h < 64)%nat -> sl h = l1 ++ i :: l2 ->
  deref st (lastl (SqHead h) l1) = Ret (PP i).
Proof.
  intros HB Hh E. destruct (b_queue _ _ _ HB h Hh) as (s & G1 & G2 & _). rewrite E in G2.
  destruct (deref_at st h s l1 _ G1 G2) as (a & -> & Ha). by destruct Ha as (-> & _).
Qed.

Lemma deref_end st sl rq h l1 : base st sl rq -> (h < 64)%nat -> sl h = l1 -> deref st (lastl (SqHead h) l1) = Ret PNULL.
Proof.
  intros HB Hh E. destruct (b_queue _ _ _ HB h Hh) as (s & G1 & G2 & _). rewrite E in G2. rewrite <- (app_nil_r l1) in G2.
  destruct (deref_at st h s l1 [] G1 G2) as (a & -> & Ha). by rewrite Ha.
Qed.

Lemma on_out st sl rq i chan : base st sl rq -> i ∈ sl (HASH chan) -> on st chan i = false ->
  forall p, procs st !! i = Some p -> p_wchan p <> chan.
Proof. intros HB Hi Ho p E. unfold on in Ho. rewrite E in Ho. by apply Z.eqb_neq in Ho. Qed.

Lemma rem_other l i : i ∉ l -> filter (fun j => j <> i) l = (l : list nat).
Proof. apply filter_out. Qed.

(** What is left to wake after [i], the first of the queue that is on [chan]. *)
Lemma first_on st chan i (l1 l2 : list nat) : on st chan i = true -> (forall j, j ∈ l1 -> on st chan j = false) ->
  filter (fun j => on st chan j = true) (l1 ++ i :: l2) =
  filter (fun j => on st chan j = true) [i] ++ filter (fun j => on st chan j = true) (l1 ++ l2).
Proof.
  intros Hi H1. rewrite !filter_app, filter_cons_True, (filter_cons_True _ i []), filter_nil by done.
  rewrite (filter_drop _ l1); [done|]. intros j Hj. by rewrite (H1 j Hj).
Qed.

Lemma wakeup_from_ok : forall fuel st sl rq l1 l2 chan, inv st sl rq -> sl (HASH chan) = l1 ++ l2 ->
  (forall i, i ∈ l1 -> on st chan i = false) ->
  (waiting st * S (length (procs st)) + length l2 < fuel)%nat ->
  exists ws st' sl' rq', wakeup_from runout_addr fuel st chan (lastl (SqHead (HASH chan)) l1) = Ret st' /\
    wakes st sl rq ws st' sl' rq' /\ woken st chan (l1 ++ l2) ws st'.
Proof.
  induction fuel as [|fuel IH]; intros st sl rq l1 l2 chan HI E Hl1 Hf; [lia|].
  pose proof HI as [HB Hst Hrun Has]. pose proof (HASH_lt chan) as Hh. set (h := HASH chan) in *. cbn [wakeup_from]. fold h.
  destruct l2 as [|i l2].
  { rewrite app_nil_r in E. rewrite (deref_end st sl rq h l1 HB Hh E). bind. exists [], st, sl, rq.
    split; [done|]. split; [by apply wakes_nil|]. assert (En : filter (fun i => on st chan i = true) (l1 ++ []) = []).
    { rewrite app_nil_r. apply filter_drop. intros j Hj. by rewrite (Hl1 j Hj). }
    constructor; [intros j Hj; by apply not_elem_of_nil in Hj|by rewrite En|by rewrite En]. }
  rewrite (deref_head st sl rq h l1 i l2 HB Hh E). bind.
  assert (Hin : i ∈ sl h) by (rewrite E; apply elem_of_app; right; apply elem_of_cons; by left).
  destruct (b_sleeper _ _ _ HB h i Hh Hin) as (p & Hi & Hw & _). destruct (b_queued _ _ _ HB i p Hi Hw) as [_ Hr].
  pose proof (Hst i p Hi Hw) as Hs. unfold getp at 1. rewrite Hi. bind. rewrite bool_decide_eq_false_2 by (intros H; done). cbn [orb].
  assert (negb_stat : bool_decide (p_stat p <> SSLEEP) && bool_decide (p_stat p <> SSTOP) = false).
  { destruct Hs as [-> | ->]; done. }
  rewrite negb_stat.
  destruct (Z.eqb_spec (p_wchan p) chan) as [Hc|Hc].
  2:{ assert (Hon : on st chan i = false) by (unfold on; rewrite Hi; by apply Z.eqb_neq).
      replace (Link i) with (lastl (SqHead h) (l1 ++ [i])) by (by rewrite lastl_app).
      destruct (IH st sl rq (l1 ++ [i]) l2 chan HI) as (ws & st' & sl' & rq' & E' & W & K).
      - fold h. by rewrite <- app_assoc.
      - intros j Hj. apply elem_of_app in Hj as [Hj|Hj]; [by apply Hl1|]. by apply list_elem_of_singleton in Hj as ->.
      - cbn in Hf. lia.
      - exists ws, st', sl', rq'. split; [done|]. split; [done|]. by rewrite <- app_assoc in K. }
  assert (Hon : on st chan i = true) by (unfold on; rewrite Hi; by apply Z.eqb_eq).
  destruct (wake_one st sl rq h i p l1 l2 HI Hh E Hi) as (st1 & -> & Hstop & Hsleep). bind.
  assert (Hni : i ∉ l1 ++ l2).
  { pose proof (b_nodup _ _ _ HB h Hh) as N. rewrite E in N. apply NoDup_app in N as (_ & N1 & N2). apply NoDup_cons in N2 as [N2 _].
    intros Hx. apply elem_of_app in Hx as [Hx|Hx]; [|done]. apply (N1 i Hx), elem_of_cons. by left. }
  assert (Erem : rem sl i h = l1 ++ l2).
  { unfold rem. rewrite E. apply filter_mid. rewrite <- E. by apply (b_nodup _ _ _ HB). }
  assert (Hb : forall x : nat, x ∈ [i] -> on st chan x = true \/ on st runout_addr x = true).
  { intros x Hx. apply list_elem_of_singleton in Hx as ->. by left. }
  assert (Hl12 : forall j, j ∈ l1 ++ l2 -> j ∉ [i]) by (intros j Hj Hx; apply list_elem_of_singleton in Hx as ->; done).
  assert (Efirst := first_on st chan i l1 l2 Hon Hl1).
  assert (Ein1 : [i] = filter (fun j => on st chan j = true) [i]) by (by rewrite filter_cons_True).
  destruct Hs as [Hs|Hs].
  2:{ rewrite bool_decide_eq_false_2 by (rewrite Hs; done). destruct (Hstop Hs) as [W1 S1].
      destruct (wakes_waiting _ _ _ _ _ _ _ W1) as [_ Hlt].
      destruct (IH st1 (rem sl i) rq l1 l2 chan (w_inv _ _ _ _ _ _ _ W1)) as (ws & st' & sl' & rq' & E' & W & K).
      - done.
      - intros j Hj. rewrite (proj1 (proj2 (wakes_out _ _ _ _ _ _ _ j W1 (Hl12 j (ltac:(apply elem_of_app; by left)))))). by apply Hl1.
      - rewrite (w_len _ _ _ _ _ _ _ W1). specialize (Hlt ltac:(done)). cbn in Hf. nia.
      - exists ([i] ++ ws), st', sl', rq'. split; [done|]. split; [by eapply wakes_trans|].
        eapply (woken_app _ _ _ _ _ _ _ _ _ _ _ (l1 ++ l2)); [exact W1|exact K|by eapply wakes_disjoint|done|done|by rewrite <- Efirst|].
        intros _. split; [done|]. by rewrite S1. }
  rewrite bool_decide_eq_true_2 by done. destruct (Hsleep Hs) as (st2 & -> & W1 & P1 & R1). bind.
  destruct (wakes_waiting _ _ _ _ _ _ _ W1) as [_ Hlt]. specialize (Hlt ltac:(done)).
  set (rq1 := enq_if (loaded p) rq (qindex (p_pri p)) i) in *.
  (* the swapper *)
  assert (Hswap : exists ws1 st3 sl1 rq2,
    (if loaded p then Ret st2
     else st4 ← (if runout (sys st2) =? 0 then Ret st2
                 else wakeup_from runout_addr fuel (with_sys st2 (set_runout (sys st2) 0)) runout_addr (SqHead (HASH runout_addr)));
          Ret (with_sys st4 (set_wantin (sys st4) (s32 (wantin (sys st4) + 1))))) = Ret st3 /\
    wakes st2 (rem sl i) rq1 ws1 st3 sl1 rq2 /\
    (forall j, j ∈ ws1 -> on st2 runout_addr j = true) /\
    (ws1 = [] \/ filter (fun j => on st2 runout_addr j = true) ws1 = filter (fun j => on st2 runout_addr j = true) (rem sl i (HASH runout_addr))) /\
    (runout (sys st) = 0 \/ loaded p = true -> ws1 = [] /\ runout (sys st3) = runout (sys st))).
  { destruct (loaded p); [exists [], st2, (rem sl i), rq1; splits; try done; [by apply wakes_nil, (w_inv _ _ _ _ _ _ _ W1)| |by left];
      intros j Hj; by apply not_elem_of_nil in Hj|].
    destruct (Z.eqb_spec (runout (sys st2)) 0) as [Hz|Hz].
    - bind. exists [], (with_sys st2 (set_wantin (sys st2) (s32 (wantin (sys st2) + 1)))), (rem sl i), rq1.
      splits; try done; [apply wakes_sys; [by apply wakes_nil, (w_inv _ _ _ _ _ _ _ W1)|unfold sys_like; by splits]| |by left].
      intros j Hj. by apply not_elem_of_nil in Hj.
    - set (st2' := with_sys st2 (set_runout (sys st2) 0)).
      destruct (IH st2' (rem sl i) rq1 [] (rem sl i (HASH runout_addr)) runout_addr) as (ws1 & st4 & sl1 & rq2 & E4 & W4 & K4).
      + apply inv_sys. apply (w_inv _ _ _ _ _ _ _ W1).
      + done.
      + intros j Hj. by apply not_elem_of_nil in Hj.
      + pose proof (queue_short st2' (rem sl i) rq1 (HASH runout_addr)) as Hq. change (waiting st2') with (waiting st2).
        change (procs st2') with (procs st2) in *. rewrite (w_len _ _ _ _ _ _ _ W1) in *.
        specialize (Hq ltac:(apply base_sys, (w_inv _ _ _ _ _ _ _ W1)) (HASH_lt _)). cbn in Hf. nia.
      + cbn [lastl] in E4. rewrite E4. bind. eexists ws1, _, sl1, rq2. split; [reflexivity|].
        assert (Hlike : sys_like (sys st2) (set_runout (sys st2) 0)) by (unfold sys_like; by splits).
        assert (Hon' : forall j, j ∈ ws1 -> on st2 runout_addr j = true) by (intros j Hj; by destruct (k_chan _ _ _ _ _ K4 j Hj)).
        split; [apply wakes_sys; [by eapply wakes_sys_l|unfold sys_like; by splits]|].
        splits; [done|right; exact (k_order _ _ _ _ _ K4)|]. intros [?|?]; [congruence|done]. }
  destruct Hswap as (ws1 & st3 & sl1 & rq2 & -> & W2 & Hws1 & Hor & Hnone). bind.
  pose proof (wakes_trans _ _ _ _ _ _ _ _ _ _ _ W1 W2) as W12.
  destruct (wakes_waiting _ _ _ _ _ _ _ W2) as [Hle _].
  pose proof (w_inv _ _ _ _ _ _ _ W2) as HI3.
  destruct (IH st3 sl1 rq2 [] (sl1 h) chan HI3) as (ws & st' & sl' & rq' & E' & W & K).
  - done.
  - intros j Hj. by apply not_elem_of_nil in Hj.
  - pose proof (queue_short st3 sl1 rq2 h (i_base _ _ _ HI3) Hh). rewrite (w_len _ _ _ _ _ _ _ W12) in *. cbn in Hf. nia.
  - exists (([i] ++ ws1) ++ ws), st', sl', rq'. split; [exact E'|]. split; [by eapply wakes_trans|].
    assert (Hd1 : forall j, j ∈ ws1 -> j ∉ [i]) by (by eapply wakes_disjoint).
    assert (Hon1 : forall c j, j ∉ [i] -> on st2 c j = on st c j) by (intros c j Hj; by apply (wakes_out _ _ _ _ _ _ _ j W1)).
    assert (Esl1 : sl1 h = filter (fun j => j ∉ ws1) (l1 ++ l2)) by (rewrite (w_sl _ _ _ _ _ _ _ W2) by done; by rewrite Erem).
    eapply (woken_app _ _ _ _ _ _ _ _ _ _ _ (sl1 h)); [exact W12|exact K|by eapply wakes_disjoint|..].
    + intros j Hj Hx. rewrite Esl1 in Hj. apply list_elem_of_filter in Hj as [Hj1 Hj2]. apply elem_of_app in Hx as [Hx|Hx]; [|done].
      by apply (Hl12 j).
    + intros j Hj. apply elem_of_app in Hj as [Hj|Hj]; [by apply Hb|]. right. rewrite <- Hon1 by (by apply Hd1). by apply Hws1.
    + rewrite Efirst, filter_app, <- app_assoc. f_equal. rewrite Esl1.
      (* those on chan that the swapper's wakeup took come first, when there are any *)
      destruct (decide (runout_addr = chan)) as [Er|Er].
      * destruct Hor as [->|Hor]; [cbn; f_equal; apply filter_keep; intros j _ Hx; by apply not_elem_of_nil in Hx|].
        rewrite Er in Hor. fold h in Hor. rewrite Erem in Hor.
        rewrite (filter_eq _ (fun j => on st2 chan j = true) ws1) by (intros j Hj; by rewrite Hon1 by (by apply Hd1)).
        rewrite Hor. rewrite (filter_drop _ (filter (fun j => j ∉ ws1) (l1 ++ l2))).
        -- rewrite app_nil_r. apply filter_eq. intros j Hj. by rewrite Hon1 by (by apply Hl12).
        -- intros j Hj Hx. apply list_elem_of_filter in Hj as [Hj1 Hj2]. apply Hj1.
           assert (Hj : j ∈ filter (fun j => on st2 chan j = true) (l1 ++ l2)).
           { apply list_elem_of_filter. by rewrite Hon1 by (by apply Hl12). }
           rewrite <- Hor in Hj. by apply list_elem_of_filter in Hj as [_ Hj].
      * assert (Hno : forall j, j ∈ ws1 -> on st chan j = false).
        { intros j Hj. pose proof (Hws1 j Hj) as Ho. rewrite Hon1 in Ho by (by apply Hd1). unfold on in *.
          destruct (procs st !! j) as [q|]; [|done]. apply Z.eqb_eq in Ho. apply Z.eqb_neq. congruence. }
        rewrite (filter_drop _ ws1) by (intros j Hj; by rewrite (Hno j Hj)). cbn [app].
        rewrite list_filter_filter. apply filter_eq. intros j _. split; [tauto|]. intros Hj. split; [done|].
        intros Hx. by rewrite (Hno j Hx) in Hj.
    + intros Hp. assert (Hq : runout (sys st) = 0 \/ loaded p = true).
      { destruct Hp as [Hp|Hp]; [by left|right]. by apply (Hp i p). }
      destruct (Hnone Hq) as [-> R3]. split; [|done]. by rewrite app_nil_r.
Qed.

Lemma wakeup_ok st sl rq chan : inv st sl rq ->
  exists ws st' sl' rq', wakeup runout_addr st chan = Ret st' /\ wakes st sl rq ws st' sl' rq' /\
    woken st chan (sl (HASH chan)) ws st'.
Proof.
  intros HI. unfold wakeup. apply (wakeup_from_ok _ st sl rq [] (sl (HASH chan)) chan HI).
  - done.
  - intros i Hi. by apply not_elem_of_nil in Hi.
  - pose proof (queue_short st sl rq (HASH chan) (i_base _ _ _ HI) (HASH_lt _)). pose proof (waiting_bound st). nia.
Qed.

(** want_in wakes those who wait for runout, if the swapper sleeps. *)
Lemma want_in_ok st sl rq : inv st sl rq ->
  exists ws st' sl' rq', want_in runout_addr st = Ret st' /\ wakes st sl rq ws st' sl' rq' /\
    (forall j, j ∈ ws -> on st runout_addr j = true) /\ (runout (sys st) = 0 -> ws = []).
Proof.
  intros HI. unfold want_in. destruct (Z.eqb_spec (runout (sys st)) 0) as [Hz|Hz].
  - bind. eexists [], _, sl, rq. split; [reflexivity|]. split; [apply wakes_sys; [by apply wakes_nil|unfold sys_like; by splits]|].
    split; [|done]. intros j Hj. by apply not_elem_of_nil in Hj.
  - destruct (wakeup_ok (with_sys st (set_runout (sys st) 0)) sl rq runout_addr) as (ws & st' & sl' & rq' & E & W & K); [by apply inv_sys|].
    rewrite E. bind. eexists ws, _, sl', rq'. split; [reflexivity|].
    split; [apply wakes_sys; [eapply wakes_sys_l; [exact W|]|]; unfold sys_like; by splits|].
    split; [|done]. intros j Hj. by destruct (k_chan _ _ _ _ _ K j Hj).
Qed.

(** The queues and processes after [i] has been made runnable and [ws] woken. *)
Record started (st : kst) (sl rq : nat -> list nat) (i : nat) (p : proc) (ws : list nat) (st' : kst) (sl' rq' : nat -> list nat) : Prop := Started {
  s_inv : inv st' sl' rq';
  s_sl : forall h, (h < 64)%nat -> sl' h = filter (fun j => j ∉ i :: ws) (sl h);
  s_rq : forall k, (k < 32)%nat -> rq' k =
    rq k ++ (if loaded p && bool_decide (qindex (p_pri p) = k) then [i] else []) ++ filter (fun j => joins st k j = true) ws;
  s_self : exists p', procs st' !! i = Some p' /\ core p' = core (ready (sys st) (set_wchan p 0));
  s_core : forall j q, j <> i -> procs st !! j = Some q -> exists q', procs st' !! j = Some q' /\ core q' = core (after (sys st) ws j q);
  s_len : length (procs st') = length (procs st);
  s_ws : forall j, j ∈ ws -> j <> i /\ on st runout_addr j = true /\ exists q, procs st !! j = Some q /\ p_wchan q <> 0;
  s_none : runout (sys st) = 0 \/ loaded p = true -> ws = [];
  s_oth : allproc st' = allproc st /\ u_procp st' = u_procp st /\ sys_like (sys st) (sys st')
}.

Lemma inv_start st st1 sl rq i p : inv st sl rq -> procs st !! i = Some p -> p_rlink p = PNULL ->
  base st1 (rem sl i) (enq_if (loaded p) rq (qindex (p_pri p)) i) ->
  cores st1 = <[i := core (ready (sys st) (set_wchan p 0))]> (cores st) -> inv st1 (rem sl i) (enq_if (loaded p) rq (qindex (p_pri p)) i).
Proof.
  intros [HB Hsl Hrun Has] Hi Hr HB1 Ec.
  assert (Hlt : (i < length (procs st))%nat) by (by apply lookup_lt_Some in Hi).
  assert (Hb : forall j q', procs st1 !! j = Some q' ->
    (j = i /\ p_stat q' = SRUN /\ p_wchan q' = 0 /\ p_flag q' = p_flag p) \/ (j <> i /\ exists q, procs st !! j = Some q /\ core q' = core q)).
  { intros j q' E. apply (f_equal (fun l => l !! j)) in Ec. unfold cores in Ec. rewrite list_lookup_fmap, E in Ec. cbn in Ec.
    destruct (decide (j = i)) as [->|Hne].
    - left. rewrite list_lookup_insert_eq in Ec by (by rewrite length_fmap). apply (inj Some), core_fields in Ec as (C1 & _ & C3 & C4 & _).
      rewrite C1, C3, C4. by rewrite ready_stat, ready_wchan, ready_flag.
    - right. rewrite list_lookup_insert_ne, list_lookup_fmap in Ec by done. split; [done|].
      destruct (procs st !! j) as [q|]; [|done]. exists q. split; [done|]. by apply (inj Some) in Ec. }
  constructor; [done|..].
  - intros j q' E Hw. destruct (Hb j q' E) as [(_ & _ & H & _)|(_ & q & Eq & C)]; [done|].
    apply core_fields in C as (C1 & _ & C3 & _). rewrite C1, C3 in *. by eapply Hsl.
  - intros j q' E Hrl. destruct (rq_linked _ _ (b_rq _ _ _ HB1) j q' E Hrl) as (k & Hk & Hin).
    destruct (Hb j q' E) as [(-> & H & _ & Hfl)|(Hne & q & Eq & C)].
    { split; [done|]. unfold loaded in *. rewrite Hfl. destruct (has (p_flag p) SLOAD) eqn:El; [done|]. cbn in Hin.
      destruct (rq_home _ _ (b_rq _ _ _ HB) k i Hk Hin) as (q2 & E2 & H2 & _). congruence. }
    apply core_fields in C as (C1 & _ & _ & C4 & _). unfold loaded at 1. rewrite C1, C4. apply (Hrun j q Eq). intros Hq.
    assert (Hin' : j ∈ rq k).
    { destruct (loaded p); cbn in Hin; [|done]. unfold enq in Hin. destruct (decide _) as [->|]; [|done].
      apply elem_of_app in Hin as [Hin|Hin]; [done|]. by apply list_elem_of_singleton in Hin. }
    destruct (rq_home _ _ (b_rq _ _ _ HB) k j Hk Hin') as (q2 & E2 & H2 & _). congruence.
  - intros j q' E Hs. destruct (Hb j q' E) as [(_ & H & _)|(_ & q & Eq & C)]; [by rewrite H in Hs|].
    apply core_fields in C as (C1 & _ & C3 & _). rewrite C1, C3 in *. by eapply Has.
Qed.

(** setrun up to the swapper: the process is ready and where it belongs. *)
Lemma setrun_queue st sl rq i p : base st sl rq -> procs st !! i = Some p -> p_rlink p = PNULL -> p_wchan p = 0 ->
  exists st1, (if loaded p then setrq (putp st i (set_stat p SRUN)) i else Ret (putp st i (set_stat p SRUN))) = Ret st1 /\
    base st1 sl (enq_if (loaded p) rq (qindex (p_pri p)) i) /\ cores st1 = <[i := core (set_stat p SRUN)]> (cores st) /\
    allproc st1 = allproc st /\ u_procp st1 = u_procp st /\ sys st1 = sys st.
Proof.
  intros HB Hi Hr Hw. set (st0 := putp st i (set_stat p SRUN)).
  assert (Hlt : (i < length (procs st))%nat) by (by apply lookup_lt_Some in Hi).
  assert (HB0 : base st0 sl rq) by (eapply base_putp; [exact HB|exact Hi|apply set_stat_stays]).
  assert (C0 : cores st0 = <[i := core (set_stat p SRUN)]> (cores st)) by (unfold cores; cbn; apply list_fmap_insert).
  destruct (loaded p); cbn [enq_if]; [|by exists st0].
  destruct (base_setrq st0 sl rq i (set_stat p SRUN) HB0) as (st1 & E & HB1 & O1 & O2 & O3 & O4 & O5 & O6);
    [cbn; by rewrite list_lookup_insert_eq|done|done|].
  exists st1. split; [done|]. split; [exact HB1|]. split; [by rewrite O1|]. by splits.
Qed.

Lemma setrun_age st sl rq i p : base st sl rq -> procs st !! i = Some p ->
  exists st1, (if p_slptime p >? 1 then updatepri st i else Ret st) = Ret st1 /\ base st1 sl rq /\
    cores st1 = <[i := core (if p_slptime p >? 1 then aged (sys st) p else p)]> (cores st) /\
    allproc st1 = allproc st /\ u_procp st1 = u_procp st /\ woke (sys st) (sys st1).
Proof.
  intros HB Hi. pose proof (b_pri _ _ _ HB i p Hi) as [_ Hslp]. destruct (Z.gtb_spec (p_slptime p) 1) as [Hgt|Hle].
  - destruct (updatepri_ok st i p Hi ltac:(lia)) as (st1 & E & P1 & Q1 & Q2 & Q3 & Q4 & Q5 & S1). exists st1. split; [done|].
    split; [eapply base_stays; [exact HB|done..|]; rewrite P1; eapply stays_putp; [exact Hi|apply aged_stays]|].
    split; [unfold cores; rewrite P1; apply list_fmap_insert|]. split; [done|]. split; [done|].
    destruct S1 as [->| ->]; unfold woke; split; try done; by try apply sys_like_refl.
  - exists st. split; [done|]. split; [done|]. split; [|done].
    symmetry. apply list_insert_id. unfold cores. by rewrite list_lookup_fmap, Hi.
Qed.

Lemma ready_alt s p p3 : core p3 = core (set_stat p SRUN) ->
  core (if p_slptime p3 >? 1 then aged s p3 else p3) = core (ready s p).
Proof.
  intros C. pose proof (core_fields _ _ C) as (_ & _ & _ & _ & E & _). change (p_slptime (set_stat p SRUN)) with (p_slptime p) in E.
  rewrite E, core_ready. Transparent ready. unfold ready. Opaque ready. change (p_slptime (core p)) with (p_slptime p).
  destruct (p_slptime p >? 1); [|exact C]. rewrite core_aged, C. reflexivity.
Qed.

Lemma filter_two i ws (l : list nat) : filter (fun j => j ∉ ws) (filter (fun j => j <> i) l) = filter (fun j => j ∉ i :: ws) l.
Proof. rewrite list_filter_filter. apply filter_eq. intros j _. rewrite elem_of_cons. tauto. Qed.

(** What remains after the process is ready: the swapper, if it is swapped out. *)
Lemma started_finish st sl rq i p st1 : inv st sl rq -> procs st !! i = Some p -> p_rlink p = PNULL ->
  base st1 (rem sl i) (enq_if (loaded p) rq (qindex (p_pri p)) i) ->
  cores st1 = <[i := core (ready (sys st) (set_wchan p 0))]> (cores st) ->
  allproc st1 = allproc st -> u_procp st1 = u_procp st -> woke (sys st) (sys st1) ->
  exists ws st' sl' rq', (if loaded p then Ret st1 else want_in runout_addr st1) = Ret st' /\ started st sl rq i p ws st' sl' rq'.
Proof.
  intros HI Hi Hr HB1 C1 A1 U1 (S1 & R1 & W1).
  pose proof (inv_start st st1 sl rq i p HI Hi Hr HB1 C1) as HI1.
  assert (Hlt : (i < length (procs st))%nat) by (by apply lookup_lt_Some in Hi).
  assert (Hself : exists p1, procs st1 !! i = Some p1 /\ core p1 = core (ready (sys st) (set_wchan p 0))).
  { apply (f_equal (fun l => l !! i)) in C1. unfold cores in C1. rewrite list_lookup_fmap, list_lookup_insert_eq in C1 by (by rewrite length_fmap).
    destruct (procs st1 !! i) as [p1|]; [|done]. exists p1. split; [done|]. by apply (inj Some) in C1. }
  assert (Hother : forall j q, j <> i -> procs st !! j = Some q -> exists q1, procs st1 !! j = Some q1 /\ core q1 = core q).
  { intros j q Hne Hj. apply (f_equal (fun l => l !! j)) in C1. unfold cores in C1.
    rewrite list_lookup_fmap, list_lookup_insert_ne, list_lookup_fmap, Hj in C1 by done.
    destruct (procs st1 !! j) as [q1|]; [|done]. exists q1. split; [done|]. by apply (inj Some) in C1. }
  assert (Hlen : length (procs st1) = length (procs st)).
  { apply (f_equal length) in C1. unfold cores in C1. by rewrite length_insert, !length_fmap in C1. }
  destruct Hself as (p1 & E1 & Cp1). pose proof (core_fields _ _ Cp1) as (_ & _ & Cw & _). rewrite ready_wchan in Cw.
  assert (Hfin : exists ws st' sl' rq', (if loaded p then Ret st1 else want_in runout_addr st1) = Ret st' /\
    wakes st1 (rem sl i) (enq_if (loaded p) rq (qindex (p_pri p)) i) ws st' sl' rq' /\
    (forall j, j ∈ ws -> on st1 runout_addr j = true) /\ (runout (sys st) = 0 \/ loaded p = true -> ws = [])).
  { destruct (loaded p) eqn:El.
    - exists [], st1, (rem sl i), (enq_if true rq (qindex (p_pri p)) i). split; [done|]. split; [by apply wakes_nil|].
      split; [|done]. intros j Hj. by apply not_elem_of_nil in Hj.
    - destruct (want_in_ok st1 (rem sl i) rq HI1) as (ws & st' & sl' & rq' & E & W & Hon & Hz). exists ws, st', sl', rq'.
      split; [done|]. split; [done|]. split; [done|]. intros [H|H]; [|done]. apply Hz. by rewrite R1. }
  destruct Hfin as (ws & st' & sl' & rq' & E & W & Hon & Hnone). exists ws, st', sl', rq'. split; [done|].
  assert (Hni : i ∉ ws).
  { intros Hx. destruct (w_ws _ _ _ _ _ _ _ W i Hx) as (q & Eq & Hw). rewrite E1 in Eq. by injection Eq as <-. }
  assert (Hon1 : forall c j, j <> i -> on st1 c j = on st c j).
  { intros c j Hne. unfold on. destruct (procs st !! j) as [q|] eqn:Ej.
    - destruct (Hother j q Hne Ej) as (q1 & -> & C). apply core_fields in C as (_ & _ & -> & _). done.
    - apply lookup_ge_None in Ej. rewrite (proj2 (lookup_ge_None _ _)); [done|]. by rewrite Hlen. }
  constructor.
  - apply W.
  - intros h Hh. rewrite (w_sl _ _ _ _ _ _ _ W) by done. apply filter_two.
  - intros k Hk. rewrite (w_rq _ _ _ _ _ _ _ W) by done. rewrite app_assoc. f_equal.
    + destruct (loaded p); cbn [enq_if andb]; [|by rewrite app_nil_r]. unfold enq.
      destruct (decide (k = qindex (p_pri p))) as [->|Hne]; [by rewrite bool_decide_eq_true_2|]. rewrite bool_decide_eq_false_2 by congruence. by rewrite app_nil_r.
    + apply filter_eq. intros j Hj. assert (Hne : j <> i) by (by intros ->). unfold joins. destruct (procs st !! j) as [q|] eqn:Ej.
      * destruct (Hother j q Hne Ej) as (q1 & -> & C). apply core_fields in C as (D1 & D2 & _ & D4 & _). unfold loaded. by rewrite D1, D2, D4.
      * apply lookup_ge_None in Ej. rewrite (proj2 (lookup_ge_None (procs st1) j)); [done|]. by rewrite Hlen.
  - destruct (w_core _ _ _ _ _ _ _ W i p1 E1) as (p' & E' & C'). exists p'. split; [done|]. rewrite after_out in C' by done. congruence.
  - intros j q Hne Hj. destruct (Hother j q Hne Hj) as (q1 & Eq1 & C). destruct (w_core _ _ _ _ _ _ _ W j q1 Eq1) as (q' & E' & C').
    exists q'. split; [done|]. rewrite C', core_after, C, <- core_after. f_equal. by apply after_like.
  - by rewrite (w_len _ _ _ _ _ _ _ W).
  - intros j Hj. assert (Hne : j <> i) by (by intros ->). split; [done|]. split; [rewrite <- Hon1 by done; by apply Hon|].
    destruct (w_ws _ _ _ _ _ _ _ W j Hj) as (q1 & Eq1 & Hw). destruct (lookup_lt_is_Some_2 (procs st) j) as [q Ej].
    { rewrite <- Hlen. by apply lookup_lt_Some in Eq1. }
    destruct (Hother j q Hne Ej) as (q2 & E2 & C). rewrite Eq1 in E2. injection E2 as <-. exists q. split; [done|].
    apply core_fields in C as (_ & _ & <- & _). done.
  - done.
  - destruct (w_oth _ _ _ _ _ _ _ W) as (B1 & B2 & B3). splits; [congruence|congruence|by eapply sys_like_trans].
Qed.

(** setrun panics on a process that runs, or is dead, and otherwise makes it
    ready to run, off its sleep queue and, unless it is swapped out, on the run
    queue of its priority. *)
Lemma setrun_ok st sl rq i p : inv st sl rq -> procs st !! i = Some p ->
  if bool_decide (p_stat p = SSLEEP) || bool_decide (p_stat p = SSTOP) || bool_decide (p_stat p = SIDL)
  then exists ws st' sl' rq', setrun runout_addr st i = Ret st' /\ started st sl rq i p ws st' sl' rq'
  else setrun runout_addr st i = Panic "setrun".
Proof.
  intros HI Hi. pose proof HI as [HB Hsl Hrun Has]. unfold setrun.
  assert (Eg : getp st i = Ret p) by (unfold getp; by rewrite Hi). rewrite Eg. bind. clear Eg.
  destruct (bool_decide _ || _ || _) eqn:Eb.
  2:{ apply orb_false_iff in Eb as [Eb E3]. apply orb_false_iff in Eb as [E1 E2]. apply bool_decide_eq_false in E1, E2, E3.
      by destruct (p_stat p). }
  assert (Hr : p_rlink p = PNULL).
  { destruct (decide (p_rlink p = PNULL)) as [|Hn]; [done|]. rewrite (proj1 (Hrun i p Hi Hn)) in Eb. done. }
  assert (H1 : exists st1, match p_stat p with SSTOP | SSLEEP => unsleep st i | SIDL => Ret st | _ => Panic "setrun" end = Ret st1 /\
    base st1 (rem sl i) rq /\ cores st1 = <[i := core (set_wchan p 0)]> (cores st) /\ others st st1 /\ procs st1 !! i = Some (set_wchan p 0)).
  { destruct (unsleep_ok st sl rq i p HB Hi) as (st1 & E1 & H1). destruct (p_stat p) eqn:Ep; try done; try (by exists st1).
    assert (Hw : p_wchan p = 0).
    { destruct (decide (p_wchan p = 0)) as [|Hn]; [done|]. destruct (Hsl i p Hi Hn); congruence. }
    assert (Epw : set_wchan p 0 = p) by (destruct p; cbn in *; by rewrite Hw). rewrite Epw. exists st. split; [done|].
    split; [eapply base_ext; [done|by eapply rem_out]|]. split; [|by split; [unfold others|]].
    symmetry. apply list_insert_id. unfold cores. by rewrite list_lookup_fmap, Hi. }
  destruct H1 as (st1 & -> & HB1 & C1 & (O1 & O2 & O3 & O4 & O5) & P1). bind.
  assert (Eg : getp st1 i = Ret (set_wchan p 0)) by (unfold getp; by rewrite P1). rewrite Eg. bind. clear Eg.
  set (p0 := set_wchan p 0) in *.
  destruct (setrun_queue st1 (rem sl i) rq i p0 HB1 P1 Hr eq_refl) as (st2 & -> & HB2 & C2 & A2 & U2 & S2). bind.
  assert (Hp2 : exists p2, procs st2 !! i = Some p2 /\ core p2 = core (set_stat p0 SRUN)).
  { assert (Hlt : (i < length (procs st1))%nat) by (by apply lookup_lt_Some in P1).
    apply (f_equal (fun l => l !! i)) in C2. unfold cores in C2. rewrite list_lookup_fmap, list_lookup_insert_eq in C2 by (by rewrite length_fmap).
    destruct (procs st2 !! i) as [p2|]; [|done]. exists p2. split; [done|]. by apply (inj Some) in C2. }
  destruct Hp2 as (p2 & P2 & Cp2). destruct (setrun_age st2 _ _ i p2 HB2 P2) as (st3 & E3 & HB3 & C3 & A3 & U3 & S3).
  pose proof (core_fields _ _ Cp2) as (_ & _ & _ & Ef & Es & _).
  change (p_slptime (set_stat p0 SRUN)) with (p_slptime p0) in Es. rewrite <- Es, E3. bind.
  assert (Hp3 : exists p3, procs st3 !! i = Some p3).
  { apply lookup_lt_is_Some_2. apply (f_equal length) in C3. unfold cores in C3. rewrite length_insert, !length_fmap in C3. rewrite C3.
    by apply lookup_lt_Some in P2. }
  destruct Hp3 as [p3 P3]. unfold getp. rewrite P3. bind.
  assert (El : loaded p3 = loaded p).
  { apply (f_equal (fun l => l !! i)) in C3. unfold cores in C3. rewrite list_lookup_fmap, P3, list_lookup_insert_eq in C3.
    - apply (inj Some), core_fields in C3 as (_ & _ & _ & C3 & _). unfold loaded. rewrite C3.
      change (p_flag p) with (p_flag (set_stat p0 SRUN)). rewrite <- Ef. by destruct (p_slptime p2 >? 1).
    - rewrite length_fmap. by apply lookup_lt_Some in P2. }
  rewrite El. set (st4 := if p_pri p3 <? curpri (sys st3) then resched st3 else st3).
  apply (started_finish st sl rq i p st4 HI Hi Hr).
  - unfold st4. destruct (_ <? _); [apply base_sys|]; exact HB3.
  - assert (E4 : cores st4 = cores st3) by (unfold st4; by destruct (_ <? _)). rewrite E4, C3, C2, C1, !list_insert_insert_eq. f_equal.
    rewrite (ready_alt _ p0 p2 Cp2). f_equal. by rewrite S2, O5.
  - unfold st4. destruct (_ <? _); cbn; congruence.
  - unfold st4. destruct (_ <? _); cbn; congruence.
  - rewrite <- O5, <- S2. destruct S3 as (T1 & T2 & T3). unfold st4. destruct (_ <? _); [|by unfold woke].
    unfold woke. split; [|by split]. exact T1.
Qed.

End wakeup.

(** ** Going to sleep *)

Definition asleep_as (p : proc) (chan pri wmesg : Z) : proc :=
  set_pri (set_slptime (set_wmesg (set_wchan p chan) wmesg) 0) (s8 pri).

Lemma base_append st st2 sl rq h i p p1 s1 : base st sl rq -> (h < 64)%nat -> procs st !! i = Some p -> p_wchan p = 0 -> p_rlink p = PNULL ->
  p_wchan p1 <> 0 -> HASH (p_wchan p1) = h -> 0 <= p_pri p1 <= 127 -> 0 <= p_slptime p1 <= 127 ->
  qs st2 = qs st -> whichqs st2 = whichqs st -> cores st2 = <[i := core p1]> (cores st) ->
  slpque st2 = <[h := s1]> (slpque st) -> slist st2 (sq_head s1) (sl h ++ [i]) -> sq_tailp s1 = Some (Link i) ->
  (forall j, j ∉ sl h -> j <> i -> procs st2 !! j = procs st !! j) ->
  (forall j, rlink_of st2 (PP j) = rlink_of st (PP j)) -> base st2 (upd sl h (sl h ++ [i])) rq.
Proof.
  intros HB Hh Hi Hw Hr Hw1 Hh1 Hpri Hslp Eq Ew Ec Es Hl Ht Hj Hrl. pose proof HB as [Hrq Hlen Hq Hnd Hs Hqd Hp].
  assert (Hni : forall h', (h' < 64)%nat -> i ∉ sl h').
  { intros h' Hh' Hx. destruct (Hs h' i Hh' Hx) as (q & E & H & _). congruence. }
  assert (Hf : forall j q, procs st !! j = Some q -> exists q', procs st2 !! j = Some q' /\ p_rlink q' = p_rlink q /\
    ((j = i /\ core q' = core p1) \/ (j <> i /\ core q' = core q))).
  { intros j q Eq'. pose proof (Hrl j) as Hrj. apply (f_equal (fun l => l !! j)) in Ec. unfold cores in Ec.
    rewrite list_lookup_fmap in Ec. unfold rlink_of in Hrj. rewrite Eq' in Hrj. destruct (procs st2 !! j) as [q'|]; [|done].
    exists q'. split; [done|]. split; [by injection Hrj|]. destruct (decide (j = i)) as [->|Hne]; [left|right]; (split; [done|]).
    - rewrite list_lookup_insert_eq in Ec by (rewrite length_fmap; by apply lookup_lt_Some in Hi). by apply (inj Some) in Ec.
    - rewrite list_lookup_insert_ne, list_lookup_fmap, Eq' in Ec by done. by apply (inj Some) in Ec. }
  assert (Hlen2 : length (procs st2) = length (procs st)).
  { apply (f_equal length) in Ec. unfold cores in Ec. by rewrite length_insert, !length_fmap in Ec. }
  assert (Hb : forall j q', procs st2 !! j = Some q' -> exists q, procs st !! j = Some q /\ p_rlink q' = p_rlink q /\
    ((j = i /\ core q' = core p1) \/ (j <> i /\ core q' = core q))).
  { intros j q' Ej. destruct (lookup_lt_is_Some_2 (procs st) j) as [q E]; [rewrite <- Hlen2; by apply lookup_lt_Some in Ej|].
    destruct (Hf j q E) as (q2 & E2 & H). rewrite Ej in E2. injection E2 as <-. by exists q. }
  constructor.
  - eapply rq_inv_ext; [done..|]. apply Forall2_same_length_lookup_2; [done|]. intros j q q' E E'.
    destruct (Hf j q E) as (q2 & E2 & R1 & R2). rewrite E' in E2. injection E2 as <-. split; [done|].
    destruct (decide (p_rlink q = PNULL)) as [Hn|Hn]; [by left|right]. rewrite Hj, E in E'; [by injection E' as <-|..].
    + intros Hx. destruct (Hs h j Hh Hx) as (q0 & E0 & Hw0 & _). destruct (Hqd j q0 E0 Hw0). congruence.
    + intros ->. congruence.
  - by rewrite Es, length_insert.
  - intros h' Hh'. unfold upd. rewrite Es. destruct (decide (h' = h)) as [->|Hne].
    + exists s1. rewrite list_lookup_insert_eq by lia. splits; try done. intros _. rewrite Ht. by rewrite lastl_app.
    + rewrite list_lookup_insert_ne by done. destruct (Hq h' Hh') as (s & G1 & G2 & G3). exists s. splits; try done.
      eapply slist_ext; [exact G2|]. intros j q Hjh Eqj. exists q. split; [|done]. rewrite Hj; [done| |intros ->; by apply (Hni h')].
      intros Hx. destruct (Hs h j Hh Hx) as (q0 & E0 & _ & H0). destruct (Hs h' j Hh' Hjh) as (q1 & E1' & _ & H1). congruence.
  - intros h' Hh'. unfold upd. destruct (decide (h' = h)) as [->|]; [|by apply Hnd]. apply NoDup_app. splits; [by apply Hnd| |apply NoDup_singleton].
    intros j Hx Hy. apply list_elem_of_singleton in Hy as ->. by apply (Hni h).
  - intros h' j Hh' Hx. assert (Hx' : (j = i /\ h' = h) \/ j ∈ sl h').
    { unfold upd in Hx. destruct (decide (h' = h)) as [->|]; [|by right]. apply elem_of_app in Hx as [Hx|Hx]; [by right|left].
      by apply list_elem_of_singleton in Hx as ->. }
    destruct Hx' as [[-> ->]|Hx'].
    + destruct (Hf i p Hi) as (q' & E' & _ & [[_ C]|[? _]]); [|done]. exists q'. split; [done|].
      apply core_fields in C as (_ & _ & -> & _). done.
    + destruct (Hs h' j Hh' Hx') as (q & E & H1 & H2). destruct (Hf j q E) as (q' & E' & _ & [[-> _]|[_ C]]); [exfalso; by apply (Hni h')|].
      exists q'. split; [done|]. apply core_fields in C as (_ & _ & -> & _). done.
  - intros j q' Ej Hwj. destruct (Hb j q' Ej) as (q & E & R1 & [[-> C]|[Hne C]]).
    + apply core_fields in C as (_ & _ & C & _). split; [|rewrite R1; congruence]. rewrite C, Hh1. unfold upd. rewrite decide_True by done.
      apply elem_of_app. right. by apply list_elem_of_singleton.
    + apply core_fields in C as (_ & _ & C & _). rewrite C, R1 in *. destruct (Hqd j q E Hwj) as [H1 H2]. split; [|done].
      unfold upd. destruct (decide _) as [E2|]; [|done]. rewrite E2 in H1. apply elem_of_app. by left.
  - intros j q' Ej. destruct (Hb j q' Ej) as (q & E & R1 & [[-> C]|[Hne C]]); apply core_fields in C as (_ & C1 & _ & _ & C2 & _);
      rewrite C1, C2; [done|by eapply Hp].
Qed.

Lemma sleep_enqueue_ok st sl rq i p chan pri wmesg : base st sl rq -> procs st !! i = Some p -> p_stat p = SRUN -> p_rlink p = PNULL ->
  p_wchan p = 0 -> chan <> 0 -> 0 <= pri <= 127 ->
  exists st', sleep_enqueue st i chan pri wmesg = Ret st' /\ base st' (upd sl (HASH chan) (sl (HASH chan) ++ [i])) rq /\
    cores st' = <[i := core (asleep_as p chan pri wmesg)]> (cores st) /\ others st st' /\
    exists p', procs st' !! i = Some p' /\ core p' = core (asleep_as p chan pri wmesg) /\ p_rlink p' = PNULL.
Proof.
  intros HB Hi Hst Hr Hw Hc Hpri. pose proof HB as [Hrq Hlen Hq Hnd Hs Hqd Hp]. pose proof (HASH_lt chan) as Hh.
  set (h := HASH chan) in *. destruct (Hq h Hh) as (s & G1 & G2 & G3).
  assert (Hlt : (i < length (procs st))%nat) by (by apply lookup_lt_Some in Hi).
  assert (Hlth : (h < length (slpque st))%nat) by lia.
  unfold sleep_enqueue. assert (Eg : getp st i = Ret p) by (unfold getp; by rewrite Hi). rewrite Eg. bind.
  assert (Egd : (chan =? 0) || bool_decide (p_stat p <> SRUN) || bool_decide (p_rlink p <> PNULL) = false).
  { rewrite Hst, Hr. destruct (Z.eqb_spec chan 0); [done|]. done. }
  rewrite Egd. fold (asleep_as p chan pri wmesg). set (p1 := asleep_as p chan pri wmesg). set (st0 := putp st i p1). fold h.
  change (slpque st0) with (slpque st). rewrite G1. cbn [read]. bind.
  assert (Hi0 : procs st0 !! i = Some p1) by (cbn; by rewrite list_lookup_insert_eq).
  assert (Hni : i ∉ sl h).
  { intros Hx. destruct (Hs h i Hh Hx) as (q & E & H & _). congruence. }
  assert (Hpri1 : 0 <= p_pri p1 <= 127) by (cbn; rewrite s8_small; lia).
  assert (Hr0 : forall j, rlink_of st0 (PP j) = rlink_of st (PP j)).
  { intros j. unfold st0. destruct (link_putp st i p1 (PP j) Hlt) as [_ ->]. destruct (decide _) as [[= ->]|]; [|done].
    unfold rlink_of. by rewrite Hi. }
  assert (C0 : cores st0 = <[i := core p1]> (cores st)) by (unfold cores; cbn; apply list_fmap_insert).
  assert (Hslot : forall (st2 : kst) s1, others st st2 -> slpque st2 = <[h := s1]> (slpque st) -> sq_tailp s1 = Some (Link i) ->
    procs st2 !! i = Some (set_link p1 PNULL) -> cores st2 = cores st0 -> slist st2 (sq_head s1) (sl h ++ [i]) ->
    (forall j, j ∉ sl h -> j <> i -> procs st2 !! j = procs st !! j) -> (forall j, rlink_of st2 (PP j) = rlink_of st0 (PP j)) ->
    base st2 (upd sl h (sl h ++ [i])) rq /\ cores st2 = <[i := core p1]> (cores st) /\ others st st2 /\
    exists p', procs st2 !! i = Some p' /\ core p' = core p1 /\ p_rlink p' = PNULL).
  { intros st2 s1 O E1 E2 E3 E4 E5 E6 E7. pose proof O as (O1 & O2 & O3 & O4 & O5).
    split; [|split; [by rewrite E4|split; [done|]]].
    - eapply (base_append st st2 sl rq h i p p1 s1); try done; [by rewrite E4|]. intros j. by rewrite E7.
    - exists (set_link p1 PNULL). splits; try done. }
  destruct (lastl_cases h (sl h)) as [[El _]|(l0 & j & El & Elast)].
  - rewrite El in G2. cbn in G2. rewrite bool_decide_eq_true_2 by done. cbn [assign]. change (slpque st0) with (slpque st). rewrite G1. bind.
    unfold set_tailp. cbn [with_slpque slpque]. rewrite list_lookup_insert_eq by done. bind. rewrite list_insert_insert_eq. cbn [sq_head].
    unfold write_link, getp. cbn [with_slpque procs]. change (procs st0) with (<[i := p1]> (procs st)).
    rewrite list_lookup_insert_eq by done. bind. eexists. split; [reflexivity|].
    eapply (Hslot _ (Sq (PP i) (Some (Link i)))); try done.
    + cbn. by rewrite list_insert_insert_eq, list_lookup_insert_eq.
    + unfold cores. cbn. rewrite list_insert_insert_eq, !list_fmap_insert. done.
    + rewrite El. cbn. split; [done|]. exists (set_link p1 PNULL). by rewrite list_insert_insert_eq, list_lookup_insert_eq.
    + intros k _ Hk. cbn. rewrite list_insert_insert_eq. by rewrite list_lookup_insert_ne.
    + intros k. unfold rlink_of. cbn. rewrite list_insert_insert_eq. destruct (decide (i = k)) as [<-|Hne];
        [by rewrite !list_lookup_insert_eq|by rewrite !list_lookup_insert_ne].
  - assert (Hhead : sq_head s <> PNULL) by (intros E; rewrite El, E in G2; by destruct l0, G2).
    rewrite bool_decide_eq_false_2 by done. rewrite G3 by (rewrite El; by destruct l0). rewrite Elast. cbn [read]. bind.
    cbn [assign write_link]. assert (Hji : j <> i) by (intros ->; apply Hni; rewrite El; apply elem_of_app; right; by apply list_elem_of_singleton).
    rewrite El in G2. destruct (slist_snoc _ _ _ _ _ G2) as (pj & Ej & _).
    assert (Ej0 : procs st0 !! j = Some pj) by (cbn; by rewrite list_lookup_insert_ne).
    assert (Egj : getp st0 j = Ret pj) by (unfold getp; by rewrite Ej0). rewrite Egj. bind. unfold set_tailp. change (slpque (putp st0 j (set_link pj (PP i)))) with (slpque st). rewrite G1. bind.
    unfold getp. cbn [with_slpque procs putp with_procs].
    change (procs st0) with (<[i := p1]> (procs st)). rewrite list_lookup_insert_ne by done. rewrite list_lookup_insert_eq by done. bind.
    set (l3 := <[i := set_link p1 PNULL]> (<[j := set_link pj (PP i)]> (<[i := p1]> (procs st)))).
    assert (Hltj : (j < length (procs st))%nat) by (by apply lookup_lt_Some in Ej).
    assert (L3i : l3 !! i = Some (set_link p1 PNULL)) by (unfold l3; rewrite list_lookup_insert_eq; [done|by rewrite !length_insert]).
    assert (L3j : l3 !! j = Some (set_link pj (PP i))).
    { unfold l3. rewrite list_lookup_insert_ne by done. rewrite list_lookup_insert_eq; [done|by rewrite !length_insert]. }
    assert (L3 : forall k, k <> i -> k <> j -> l3 !! k = procs st !! k).
    { intros k H1 H2. unfold l3. by rewrite !list_lookup_insert_ne. }
    eexists. split; [reflexivity|]. eapply (Hslot _ (Sq (sq_head s) (Some (Link i)))); try done.
    + change (core <$> l3 = core <$> <[i := p1]> (procs st)). unfold l3.
      rewrite (cores_insert _ i p1) by (try done; rewrite list_lookup_insert_ne by done; by rewrite list_lookup_insert_eq).
      by rewrite (cores_insert _ j pj) by (try done; by rewrite list_lookup_insert_ne).
    + rewrite El. rewrite <- app_assoc. cbn [sq_head app].
      eapply (slist_relink (with_procs st (<[i := set_link p1 PNULL]> (procs st)))).
      * right. exists []. eapply slist_ext; [exact G2|]. intros k q Hk Eq. exists q. split; [|done]. cbn.
        rewrite list_lookup_insert_ne; [done|]. intros ->. apply Hni. by rewrite El.
      * pose proof (Hnd h Hh) as N. rewrite El in N. apply NoDup_app in N as (_ & N & _). intros Hx. apply (N j Hx). by apply list_elem_of_singleton.
      * intros k Hk. cbn. fold l3. destruct (decide (k = i)) as [->|Hne]; [by rewrite L3i, list_lookup_insert_eq|].
        rewrite L3 by done. by rewrite list_lookup_insert_ne.
      * exists (set_link pj (PP i)). split; [exact L3j|]. cbn. split; [done|]. exists (set_link p1 PNULL). split; [exact L3i|done].
    + intros k Hk Hki. apply L3; [done|]. intros ->. apply Hk. rewrite El. apply elem_of_app. right. by apply list_elem_of_singleton.
    + intros k. change (p_rlink <$> l3 !! k = p_rlink <$> (<[i := p1]> (procs st)) !! k). destruct (decide (k = i)) as [->|Hne].
      * by rewrite L3i, list_lookup_insert_eq.
      * rewrite list_lookup_insert_ne by done. destruct (decide (k = j)) as [->|Hne2]; [by rewrite L3j, Ej|]. by rewrite L3.
Qed.

Lemma go_to_sleep_ok st sl rq i p chan pri wmesg : inv st sl rq -> procs st !! i = Some p -> p_stat p = SRUN -> p_rlink p = PNULL ->
  chan <> 0 -> 0 <= pri <= 127 ->
  exists st', go_to_sleep st i chan pri wmesg = Ret st' /\ inv st' (upd sl (HASH chan) (sl (HASH chan) ++ [i])) rq /\ others st st' /\
    cores st' = <[i := core (set_stat (asleep_as p chan pri wmesg) SSLEEP)]> (cores st) /\
    exists p', procs st' !! i = Some p' /\ p_rlink p' = PNULL.
Proof.
  intros HI Hi Hst Hr Hc Hpri. pose proof HI as [HB Hsl Hrun Has]. assert (Hw : p_wchan p = 0).
  { destruct (decide (p_wchan p = 0)) as [|Hn]; [done|]. destruct (Hsl i p Hi Hn); congruence. }
  destruct (sleep_enqueue_ok st sl rq i p chan pri wmesg HB Hi Hst Hr Hw Hc Hpri) as (st1 & E & HB1 & C1 & O1 & (p1 & P1 & D1 & R1)).
  unfold go_to_sleep. rewrite E. bind. unfold getp. rewrite P1. bind.
  assert (Hlt : (i < length (procs st1))%nat) by (by apply lookup_lt_Some in P1).
  set (p2 := set_stat p1 SSLEEP). set (st2 := putp st1 i p2).
  assert (C2 : cores st2 = <[i := core (set_stat (asleep_as p chan pri wmesg) SSLEEP)]> (cores st)).
  { unfold st2, cores. cbn. rewrite list_fmap_insert. change (core <$> procs st1) with (cores st1). rewrite C1, list_insert_insert_eq. f_equal.
    by apply core_set_stat. }
  assert (HB2 : base st2 (upd sl (HASH chan) (sl (HASH chan) ++ [i])) rq) by (eapply base_putp; [exact HB1|exact P1|apply set_stat_stays]).
  assert (Hoth : forall j q', j <> i -> procs st2 !! j = Some q' -> exists q, procs st !! j = Some q /\ core q = core q').
  { intros j q' Hj Ej. pose proof (f_equal (fun l => l !! j) C2) as Cj. cbn beta in Cj. unfold cores in Cj.
    rewrite list_lookup_insert_ne, !list_lookup_fmap, Ej in Cj by done. destruct (procs st !! j) as [q|]; [|done]. exists q.
    split; [done|]. by apply (inj Some) in Cj. }
  exists st2. split; [done|]. split; [|split; [exact O1|split; [exact C2|]]].
  2:{ exists p2. split; [|exact R1]. cbn. by rewrite list_lookup_insert_eq. }
  assert (Ei : procs st2 !! i = Some p2) by (cbn; by rewrite list_lookup_insert_eq).
  pose proof (core_fields _ _ D1) as (_ & _ & W1 & _). constructor; [exact HB2|..].
  - intros j q' Ej Hwj. destruct (decide (j = i)) as [->|Hne]; [rewrite Ei in Ej; injection Ej as <-; by left|].
    destruct (Hoth j q' Hne Ej) as (q & Eq & C). apply core_fields in C as (<- & _ & F & _). rewrite <- F in Hwj. by eapply Hsl.
  - intros j q' Ej Hrj. destruct (decide (j = i)) as [->|Hne]; [rewrite Ei in Ej; injection Ej as <-; done|].
    destruct (Hoth j q' Hne Ej) as (q & Eq & C). apply core_fields in C as (F1 & _ & _ & F4 & _). unfold loaded. rewrite <- F1, <- F4.
    destruct (rq_linked _ _ (b_rq _ _ _ HB2) j q' Ej Hrj) as (k & Hk & Hin). destruct (rq_home _ _ (b_rq _ _ _ HB) k j Hk Hin) as (q2 & E2 & H2 & _).
    rewrite Eq in E2. injection E2 as <-. by eapply Hrun.
  - intros j q' Ej Hsj. destruct (decide (j = i)) as [->|Hne]; [rewrite Ei in Ej; injection Ej as <-; cbn; by rewrite W1|].
    destruct (Hoth j q' Hne Ej) as (q & Eq & C). apply core_fields in C as (F1 & _ & <- & _). rewrite <- F1 in Hsj. by eapply Has.
Qed.

(** Nobody on any queue: the state rqinit makes. *)
Lemma inv_init st : length (qs st) = 32%nat -> whichqs st = 0 -> slpque st = replicate 64 (Sq PNULL None) ->
  Forall (fun p => p_rlink p = PNULL /\ p_wchan p = 0 /\ p_stat p <> SSLEEP /\ 0 <= p_pri p <= 127 /\ 0 <= p_slptime p <= 127) (procs st) ->
  inv (rqinit st) (fun _ => []) (fun _ => []).
Proof.
  intros H1 H2 H3 H4. rewrite Forall_forall in H4.
  assert (Hp : forall i p, procs (rqinit st) !! i = Some p ->
    p_rlink p = PNULL /\ p_wchan p = 0 /\ p_stat p <> SSLEEP /\ 0 <= p_pri p <= 127 /\ 0 <= p_slptime p <= 127).
  { intros i p E. apply H4. by apply list_elem_of_lookup_2 in E. }
  constructor; [constructor|..].
  - apply rqinit_ok; [done|done|]. apply Forall_forall. intros p Hx. by apply H4.
  - cbn. rewrite H3. apply length_replicate.
  - intros h Hh. exists (Sq PNULL None). split; [|by split]. cbn. rewrite H3. by apply lookup_replicate_2.
  - intros h _. apply NoDup_nil_2.
  - intros h i _ Hx. by apply not_elem_of_nil in Hx.
  - intros i p E Hw. destruct (Hp i p E) as (_ & ? & _). done.
  - intros i p E. destruct (Hp i p E) as (_ & _ & _ & ? & ?). done.
  - intros i p E Hw. destruct (Hp i p E) as (_ & ? & _). done.
  - intros i p E Hw. destruct (Hp i p E) as (? & _). done.
  - intros i p E Hw. destruct (Hp i p E) as (_ & _ & ? & _). done.
Qed.

(** ** schedcpu *)

(** The states of a process that runs. *)
Definition at_work (s : pstat) : Prop := match s with SSLEEP | SSTOP | SIDL => False | _ => True end.

Section settled.

(** The states the running process may be in. *)
Variable w : pstat -> Prop.
Hypothesis w_sleep : ~ w SSLEEP.

(** Except the running process, every runnable process in core is on a run
    queue; the running process is on none, and in one of the states [w]. *)
Definition settled (st : kst) : Prop :=
  forall i p, procs st !! i = Some p ->
    if bool_decide (i = u_procp st) && negb (noproc (sys st)) then p_rlink p = PNULL /\ w (p_stat p)
    else p_stat p = SRUN -> loaded p = true -> p_rlink p <> PNULL.
Definition nice_ok (st : kst) : Prop := forall i p, procs st !! i = Some p -> -20 <= p_nice p <= 20.

Lemma pri_of_range s p : -20 <= p_nice p -> 10 <= pri_of s p <= 127.
Proof.
  intros H. unfold pri_of. rewrite usr_pri_eq. unfold usr_pri_def, PUSER. assert (0 <= Z.land (p_cpu p) 0xff / 4).
  { apply Z.div_pos; [|lia]. apply Z.land_nonneg. lia. }
  repeat (bcase || destruct (_ && _)); lia.
Qed.

Lemma qindex_quot a b : 0 <= a <= 127 -> 0 <= b <= 127 -> Z.quot a PPQ = Z.quot b PPQ -> qindex a = qindex b.
Proof.
  intros Ha Hb H. unfold qindex, PPQ in *. rewrite !u8_small, !Z.shiftr_div_pow2 by lia.
  rewrite !Z.quot_div_nonneg in H by lia. change (2 ^ 2) with 4. by rewrite H.
Qed.

(** What schedcpu keeps of each process. *)
Definition same_state (p p' : proc) : Prop :=
  p_stat p' = p_stat p /\ p_wchan p' = p_wchan p /\ p_flag p' = p_flag p /\ p_nice p' = p_nice p /\ p_sig p' = p_sig p /\
  (p_rlink p' = PNULL <-> p_rlink p = PNULL).

Lemma same_state_refl p : same_state p p.
Proof. unfold same_state. by splits. Qed.

Lemma inv_same st st' sl rq rq' : inv st sl rq -> base st' sl rq' -> Forall2 same_state (procs st) (procs st') -> inv st' sl rq'.
Proof.
  intros [HB Hsl Hrun Has] HB' HF.
  assert (Hb : forall i p', procs st' !! i = Some p' -> exists p, procs st !! i = Some p /\ same_state p p').
  { intros i p' E. destruct (Forall2_lookup_r _ _ _ _ _ HF E) as (p & Ep & H). by exists p. }
  constructor; [done|..].
  - intros i p' E Hw. destruct (Hb i p' E) as (p & Ep & (H1 & H2 & _)). rewrite H1, H2 in *. by eapply Hsl.
  - intros i p' E Hr. destruct (Hb i p' E) as (p & Ep & (H1 & _ & H3 & _ & _ & H4)). unfold loaded. rewrite H1, H3. apply (Hrun i p Ep). tauto.
  - intros i p' E Hs. destruct (Hb i p' E) as (p & Ep & (H1 & H2 & _)). rewrite H1, H2 in *. by eapply Has.
Qed.

Lemma settled_same st st' : settled st -> Forall2 same_state (procs st) (procs st') -> u_procp st' = u_procp st ->
  noproc (sys st') = noproc (sys st) -> settled st'.
Proof.
  intros H HF E1 E2 i p' Ei. destruct (Forall2_lookup_r _ _ _ _ _ HF Ei) as (p & Ep & (H1 & _ & H3 & _ & _ & H4)).
  specialize (H i p Ep). rewrite E1, E2. unfold loaded in *. rewrite H1, H3. destruct (_ && _); tauto.
Qed.

Lemma nice_same st st' : nice_ok st -> Forall2 same_state (procs st) (procs st') -> nice_ok st'.
Proof.
  intros H HF i p' Ei. destruct (Forall2_lookup_r _ _ _ _ _ HF Ei) as (p & Ep & (_ & _ & _ & -> & _)). by apply (H i p).
Qed.

Lemma same_putp st i p p' : procs st !! i = Some p -> same_state p p' -> Forall2 same_state (procs st) (procs (putp st i p')).
Proof.
  intros Hi Hs. cbn. apply Forall2_same_length_lookup_2; [by rewrite length_insert|]. intros j q q' Hq Hq'.
  apply list_lookup_insert_Some in Hq' as [(<- & <- & _)|[_ Hq']].
  - rewrite Hi in Hq. by injection Hq as <-.
  - rewrite Hq in Hq'. injection Hq' as <-. apply same_state_refl.
Qed.

Lemma same_states_trans l1 l2 l3 : Forall2 same_state l1 l2 -> Forall2 same_state l2 l3 -> Forall2 same_state l1 l3.
Proof.
  intros H1 H2. apply Forall2_same_length_lookup_2; [by rewrite (Forall2_length _ _ _ H1), (Forall2_length _ _ _ H2)|].
  intros i p q Hp Hq. destruct (Forall2_lookup_l _ _ _ _ _ H1 Hp) as (r & Hr & (A1 & A2 & A3 & A4 & A5 & A6)).
  destruct (Forall2_lookup_l _ _ _ _ _ H2 Hr) as (q2 & Hq2 & (B1 & B2 & B3 & B4 & B5 & B6)). rewrite Hq in Hq2. injection Hq2 as <-.
  unfold same_state. splits; try congruence; tauto.
Qed.

Lemma enq_in rq k i j k' : j ∈ rq k' -> j ∈ enq rq k i k'.
Proof. unfold enq. destruct (decide (k' = k)) as [->|]; [|done]. intros H. apply elem_of_app. by left. Qed.
Lemma enq_out rq k i j k' : j <> i -> j ∈ enq rq k i k' -> j ∈ rq k'.
Proof.
  unfold enq. destruct (decide (k' = k)) as [->|]; [|done]. intros Hn H. apply elem_of_app in H as [H|H]; [done|].
  by apply list_elem_of_singleton in H.
Qed.
Lemma deq_in rq k i j k' : j <> i -> j ∈ rq k' -> j ∈ deq rq k i k'.
Proof. unfold deq. destruct (decide (k' = k)) as [->|]; [|done]. intros Hn H. by apply list_elem_of_filter. Qed.
Lemma deq_out rq k i j k' : j ∈ deq rq k i k' -> j ∈ rq k'.
Proof. unfold deq. destruct (decide (k' = k)) as [->|]; [|done]. intros H. by apply list_elem_of_filter in H as [_ H]. Qed.

(** Moving a process to the run queue of its new priority. *)
Lemma requeue_ok st sl rq i p : inv st sl rq -> procs st !! i = Some p -> p_rlink p <> PNULL -> 0 <= p_usrpri p <= 127 ->
  exists st' rq', (st ← remrq st i; p ← getp st i; setrq (putp st i (set_pri p (p_usrpri p))) i) = Ret st' /\
    inv st' sl rq' /\ Forall2 same_state (procs st) (procs st') /\
    allproc st' = allproc st /\ u_procp st' = u_procp st /\ sys st' = sys st /\
    cores st' = <[i := core (set_pri p (p_usrpri p))]> (cores st).
Proof.
  intros HI Hi Hr Hu. pose proof HI as [HB Hsl Hrun Has]. set (k := qindex (p_pri p)).
  destruct (remrq_ok st rq i p (b_rq _ _ _ HB) Hi Hr) as (st1 & -> & (O1 & O2 & O3 & O4 & O5 & O6) & HR1 & (p1 & P1 & R1) & Hoff). bind.
  assert (Hlt : (i < length (procs st1))%nat) by (by apply lookup_lt_Some in P1).
  assert (HB1 : base st1 sl (deq rq k i)).
  { eapply base_rings; [exact HB|exact HR1|done|done|]. intros j q Hj Hw. apply Hoff. eapply off_ring; [exact HB|exact Hj|].
    by destruct (b_queued _ _ _ HB j q Hj Hw). }
  destruct (cores_lookup st st1 i O1 p Hi) as (p1' & E1 & C1). rewrite P1 in E1. injection E1 as <-.
  pose proof (core_fields _ _ C1) as (F1 & F2 & F3 & F4 & F5 & F6 & _).
  unfold getp. rewrite P1. bind. set (p2 := set_pri p1 (p_usrpri p1)).
  assert (Hw1 : p_wchan p1 = 0).
  { rewrite F3. destruct (decide (p_wchan p = 0)) as [|Hn]; [done|]. destruct (b_queued _ _ _ HB i p Hi Hn). done. }
  assert (HB2 : base (putp st1 i p2) sl (deq rq k i)).
  { eapply base_putp; [exact HB1|exact P1|]. unfold stays, p2. cbn. splits; try done; [by left|]. rewrite F6. done. }
  destruct (base_setrq (putp st1 i p2) sl (deq rq k i) i p2 HB2) as (st3 & -> & HB3 & (Q1 & Q2 & Q3 & Q4 & Q5 & Q6));
    [cbn; by rewrite list_lookup_insert_eq|done|done|].
  assert (Hp3 : exists p3, procs st3 !! i = Some p3 /\ core p3 = core p2).
  { destruct (cores_lookup _ st3 i Q1 p2) as (p3 & E3 & C3); [cbn; by rewrite list_lookup_insert_eq|]. by exists p3. }
  destruct Hp3 as (p3 & E3 & C3). pose proof (core_fields _ _ C3) as (G1 & G2 & G3 & G4 & _ & _ & _ & G8).
  assert (Hr3 : p_rlink p3 <> PNULL).
  { destruct (rq_home _ _ (b_rq _ _ _ HB3) (qindex (p_pri p2)) i) as (q & Eq & Hq & _); [| |congruence].
    - apply qindex_lt. cbn. by rewrite F6.
    - unfold enq. rewrite decide_True by done. apply elem_of_app. right. by apply list_elem_of_singleton. }
  assert (HF : Forall2 same_state (procs st) (procs st3)).
  { apply Forall2_same_length_lookup_2.
    - apply (f_equal length) in O1, Q1. unfold cores in *. cbn in Q1. rewrite !length_fmap, ?length_insert in *. congruence.
    - intros j q q' Hq Hq'. destruct (decide (j = i)) as [->|Hne].
      + rewrite Hi in Hq. injection Hq as <-. rewrite E3 in Hq'. injection Hq' as <-. unfold same_state.
        change (p_stat p2) with (p_stat p1) in G1. change (p_wchan p2) with (p_wchan p1) in G3. change (p_flag p2) with (p_flag p1) in G4.
        change (p_sig p2) with (p_sig p1) in G8. rewrite G1, G3, G4, G8, F1, F3, F4. pose proof (core_fields _ _ C1) as (_ & _ & _ & _ & _ & _ & _ & F8).
        splits; try done; try tauto. pose proof (f_equal p_nice C3) as N3. pose proof (f_equal p_nice C1) as N1. exact (eq_trans N3 N1).
      + destruct (cores_lookup st st1 j O1 q Hq) as (q1 & Eq1 & D1).
        destruct (cores_lookup _ st3 j Q1 q1) as (q3 & Eq3 & D3); [cbn; by rewrite list_lookup_insert_ne|].
        rewrite Hq' in Eq3. injection Eq3 as <-. assert (D : core q' = core q) by congruence.
        pose proof (core_fields _ _ D) as (H1 & _ & H3 & H4 & _ & _ & _ & H8). unfold same_state. splits; try done; [exact (f_equal p_nice D)|]. split.
        * intros Hn. destruct (decide (p_rlink q = PNULL)) as [|Hq2]; [done|]. exfalso.
          destruct (rq_linked _ _ (b_rq _ _ _ HB) j q Hq Hq2) as (k' & Hk' & Hin).
          destruct (rq_home _ _ (b_rq _ _ _ HB3) k' j Hk') as (q4 & E4 & H & _); [|congruence].
          by apply enq_in, deq_in.
        * intros Hn. destruct (decide (p_rlink q' = PNULL)) as [|Hq2]; [done|]. exfalso.
          destruct (rq_linked _ _ (b_rq _ _ _ HB3) j q' Hq' Hq2) as (k' & Hk' & Hin).
          assert (Hin0 : j ∈ rq k') by (apply (deq_out rq k i); by eapply enq_out).
          destruct (rq_home _ _ (b_rq _ _ _ HB) k' j Hk' Hin0) as (q4 & E4 & H & _). congruence. }
  exists st3. eexists. split; [reflexivity|]. split; [eapply inv_same; [exact HI|exact HB3|exact HF]|]. split; [exact HF|].
  split; [cbn in Q4; congruence|]. split; [cbn in Q5; congruence|]. split; [cbn in Q6; congruence|].
  rewrite Q1, <- O1. unfold cores. cbn [putp with_procs procs]. rewrite list_fmap_insert. f_equal. unfold p2.
  change (core (set_pri p1 (p_usrpri p1))) with (set_pri (core p1) (p_usrpri p1)). rewrite F6, C1. reflexivity.
Qed.

(** What the pass leaves of a process: unless it has slept for more than a second,
    its user priority is the one its recent cpu usage gives, and it runs at it if
    it is not at a priority of the kernel's. *)
Definition refreshed (s : sysvars) (p : proc) : Prop :=
  1 < p_slptime p \/ p_usrpri p = pri_of s p /\ 10 <= p_usrpri p <= 127 /\ (p_pri p < PUSER \/ p_pri p = p_usrpri p).

Lemma refreshed_core s s' p p' : sys_like s s' -> core p = core p' -> refreshed s p -> refreshed s' p'.
Proof.
  intros Hs C H. unfold refreshed. rewrite (pri_of_like s s' p' Hs).
  change (refreshed s (core p)) in H. rewrite C in H. exact H.
Qed.

(** The process before setpri. *)
Definition ticked (p : proc) : proc :=
  let p := if p_time p =? 127 then p else set_time p (p_time p + 1) in
  let p := if (bool_decide (p_stat p = SSLEEP) || bool_decide (p_stat p = SSTOP)) && negb (p_slptime p =? 127)
           then set_slptime p (p_slptime p + 1) else p in
  set_pctcpu p (Z.shiftr (u32 (p_pctcpu p * ccpu)) FSHIFT).
Definition used (s : sysvars) (p : proc) : proc :=
  let ticks := if hz s =? 100 then u32 (p_cpticks p) else u32 (100 * u32 (p_cpticks p)) / hz s in
  let p := set_cpticks (set_pctcpu p (u32 (p_pctcpu p + ticks))) 0 in
  set_cpu p (s8 (clamp (s32 (get_pcpu (get_b (averunnable s)) (p_cpu p)) + p_nice p))).

Definition schedcpu_rest (st : kst) (i : nat) : outcome kst :=
  p ← getp st i;
  if p_pri p >=? PUSER then
    if (negb (bool_decide (i = u_procp st)) || noproc (sys st)) && bool_decide (p_stat p = SRUN) && loaded p &&
       negb (Z.quot (p_pri p) PPQ =? Z.quot (p_usrpri p) PPQ)
    then
      st ← remrq st i;
      p ← getp st i;
      setrq (putp st i (set_pri p (p_usrpri p))) i
    else Ret (putp st i (set_pri p (p_usrpri p)))
  else Ret st.

Lemma schedcpu_proc_eq st i p : procs st !! i = Some p -> schedcpu_proc st i =
  if p_slptime (ticked p) >? 1 then Ret (putp st i (ticked p))
  else '(_, st) ← setpri (putp st i (used (sys st) (ticked p))) i; schedcpu_rest st i.
Proof.
  intros Hi. unfold schedcpu_proc. assert (Eg : getp st i = Ret p) by (unfold getp; by rewrite Hi). rewrite Eg. bind. reflexivity.
Qed.

Lemma ticked_fields p : 0 <= p_slptime p <= 127 -> stays p (ticked p) /\ same_state p (ticked p).
Proof.
  intros H. unfold ticked, stays, same_state. set (p1 := if p_time p =? 127 then _ else _).
  assert (E : stays p p1 /\ same_state p p1 /\ p_slptime p1 = p_slptime p /\ p_stat p1 = p_stat p /\ p_pri p1 = p_pri p).
  { unfold p1. destruct (_ =? _); cbn; unfold stays, same_state; splits; try done; by right. }
  destruct E as ((E1 & E2 & E3 & _) & (F1 & F2 & F3 & F4 & F5 & _) & E4 & _ & E5).
  destruct (_ && _) eqn:Eb.
  - apply andb_true_iff in Eb as [_ Eb]. apply negb_true_iff, Z.eqb_neq in Eb. cbn. rewrite E1, E2, E3, E4, E5. splits; try done; try lia.
  - cbn. rewrite E1, E2, E3, E4, E5. splits; try done; try lia.
Qed.

Lemma used_fields s p : stays p (used s p) /\ same_state p (used s p) /\ p_pri (used s p) = p_pri p /\ p_slptime (used s p) = p_slptime p.
Proof. unfold stays, same_state, used. cbn. splits; try done. by right. Qed.

Lemma stays_trans p q r : stays p q -> stays q r -> stays p r.
Proof.
  intros (A1 & A2 & A3 & A4 & A5 & A6) (B1 & B2 & B3 & B4 & B5 & B6). unfold stays. rewrite B1, B2, B3, A1, A2, A3. splits; try done; try tauto.
  destruct A4 as [?|A4]; [by left|]. rewrite A1 in B4. destruct B4 as [?|B4]; [by left|right; congruence].
Qed.

Lemma same_state_trans p q r : same_state p q -> same_state q r -> same_state p r.
Proof. intros (A1 & A2 & A3 & A4 & A5 & A6) (B1 & B2 & B3 & B4 & B5 & B6). unfold same_state. splits; try congruence; tauto. Qed.

(** Nothing to move: the process is on no run queue, or on that of its new
    priority. *)
Lemma repri_stays st sl rq i p : inv st sl rq -> settled st -> procs st !! i = Some p -> 10 <= p_usrpri p <= 127 ->
  (negb (bool_decide (i = u_procp st)) || noproc (sys st)) && bool_decide (p_stat p = SRUN) && loaded p &&
    negb (Z.quot (p_pri p) PPQ =? Z.quot (p_usrpri p) PPQ) = false ->
  stays p (set_pri p (p_usrpri p)) /\ same_state p (set_pri p (p_usrpri p)).
Proof.
  intros [HB Hsl Hrun Has] Hset Hi Hu Hb. destruct (b_pri _ _ _ HB i p Hi) as [Hp Hs].
  split; [|unfold same_state; by splits]. unfold stays. cbn. splits; try done; [|lia].
  destruct (decide (p_rlink p = PNULL)) as [|Hr]; [by left|right]. destruct (Hrun i p Hi Hr) as [E1 E2].
  specialize (Hset i p Hi). rewrite E1, E2, (bool_decide_eq_true_2 (SRUN = SRUN)) in Hb by done.
  destruct (bool_decide (i = u_procp st)), (noproc (sys st)); cbn in Hset, Hb; try (by destruct Hset);
    apply negb_false_iff, Z.eqb_eq in Hb; symmetry; apply qindex_quot; try done; lia.
Qed.

Lemma schedcpu_rest_ok st sl rq i p : inv st sl rq -> settled st -> procs st !! i = Some p -> 10 <= p_usrpri p <= 127 ->
  exists st' rq', schedcpu_rest st i = Ret st' /\ inv st' sl rq' /\ Forall2 same_state (procs st) (procs st') /\
    cores st' = <[i := core (if p_pri p >=? PUSER then set_pri p (p_usrpri p) else p)]> (cores st) /\
    allproc st' = allproc st /\ u_procp st' = u_procp st /\ sys st' = sys st.
Proof.
  intros HI Hset Hi Hu. unfold schedcpu_rest. assert (Eg : getp st i = Ret p) by (unfold getp; by rewrite Hi). rewrite Eg. bind. clear Eg.
  assert (Hlt : (i < length (procs st))%nat) by (by apply lookup_lt_Some in Hi).
  destruct (p_pri p >=? PUSER).
  - destruct (_ && _ && _ && _) eqn:Eb.
    + apply andb_true_iff in Eb as [Eb _]. apply andb_true_iff in Eb as [Eb El]. apply andb_true_iff in Eb as [Eb Es].
      apply bool_decide_eq_true in Es. assert (Hr : p_rlink p <> PNULL).
      { specialize (Hset i p Hi). destruct (bool_decide (i = u_procp st)), (noproc (sys st)); cbn in Hset, Eb; auto. }
      destruct (requeue_ok st sl rq i p HI Hi Hr ltac:(lia)) as (st' & rq' & E & HI' & HF & A & U & S & C).
      exists st', rq'. by splits.
    + destruct (repri_stays st sl rq i p HI Hset Hi Hu Eb) as [E1 E2]. pose proof (same_putp st i _ _ Hi E2) as HF. eexists _, rq. split; [done|].
      split; [eapply inv_same; [exact HI| |exact HF]; eapply base_putp; [apply HI|exact Hi|exact E1]|].
      split; [done|]. split; [|done]. unfold cores. cbn. apply list_fmap_insert.
  - exists st, rq. split; [done|]. split; [done|]. split; [|split; [|done]].
    + apply Forall2_same_length_lookup_2; [done|]. intros j q q' E E'. rewrite E in E'. injection E' as <-. apply same_state_refl.
    + symmetry. apply list_insert_id. unfold cores. by rewrite list_lookup_fmap, Hi.
Qed.

Lemma set_usrpri_same p n : same_state p (set_usrpri p n).
Proof. unfold same_state. by splits. Qed.

(** A step that changes what the queues do not depend on. *)
Lemma step_same st sl rq i p q s : inv st sl rq -> procs st !! i = Some p -> stays p q -> same_state p q ->
  inv (with_sys (putp st i q) s) sl rq /\ Forall2 same_state (procs st) (procs (with_sys (putp st i q) s)) /\
  cores (with_sys (putp st i q) s) = <[i := core q]> (cores st).
Proof.
  intros HI Hi Q1 Q2. pose proof (same_putp st i _ _ Hi Q2) as HF. split; [|split; [exact HF|unfold cores; cbn; apply list_fmap_insert]].
  eapply inv_same; [exact HI| |exact HF]. apply base_sys. eapply base_putp; [apply HI|exact Hi|exact Q1].
Qed.

Lemma putp_twice st i q q' (b : bool) :
  putp (if b then resched (putp st i q) else putp st i q) i q' = with_sys (putp st i q') (sys (if b then resched st else st)).
Proof. unfold putp, resched, with_sys, with_procs. destruct b; cbn; by rewrite list_insert_insert_eq. Qed.

(** The recomputation of the priority, from the new cpu usage in [q]. *)
Lemma schedcpu_setpri_ok st sl rq i p q : inv st sl rq -> settled st -> nice_ok st -> procs st !! i = Some p ->
  stays p q -> same_state p q ->
  exists st' rq' p', ('(_, st) ← setpri (putp st i q) i; schedcpu_rest st i) = Ret st' /\ inv st' sl rq' /\
    Forall2 same_state (procs st) (procs st') /\ cores st' = <[i := core p']> (cores st) /\ refreshed (sys st) p' /\
    allproc st' = allproc st /\ u_procp st' = u_procp st /\ sys_like (sys st) (sys st').
Proof.
  intros HI Hset Hnice Hi Hst Hsm. assert (Hlt : (i < length (procs st))%nat) by (by apply lookup_lt_Some in Hi).
  rewrite (setpri_eq _ i q) by (cbn; by rewrite list_lookup_insert_eq). bind.
  change (sys (putp st i q)) with (sys st). set (v := pri_of (sys st) q).
  assert (Hv : 10 <= v <= 127).
  { apply pri_of_range. destruct Hsm as (_ & _ & _ & N1 & _). rewrite N1. apply (Hnice i p Hi). }
  rewrite s8_small by lia. rewrite putp_twice. set (q3 := set_usrpri q v). set (s2 := sys (if v <? curpri (sys st) then resched st else st)).
  assert (Hs2 : sys_like (sys st) s2) by (unfold s2; destruct (_ <? _); [apply sys_like_resched|apply sys_like_refl]).
  assert (P1 : stays p q3) by (eapply stays_trans; [exact Hst|apply set_usrpri_stays]).
  assert (P2 : same_state p q3) by (eapply same_state_trans; [exact Hsm|apply set_usrpri_same]).
  destruct (step_same st sl rq i p q3 s2 HI Hi P1 P2) as (I2 & F2 & C2). set (st2 := with_sys (putp st i q3) s2) in *.
  assert (Hset2 : settled st2) by (eapply settled_same; [exact Hset|exact F2|done|apply Hs2]).
  destruct (schedcpu_rest_ok st2 sl rq i q3 I2 Hset2) as (st' & rq' & -> & I3 & F3 & C3 & A3 & U4 & S3);
    [cbn; by rewrite list_lookup_insert_eq|exact Hv|].
  eexists st', rq', _. split; [done|]. split; [done|]. split; [by eapply same_states_trans|].
  split; [rewrite C3, C2; by rewrite list_insert_insert_eq|]. rewrite A3, U4, S3. split; [|by splits].
  right. assert (Ev : pri_of (sys st) (if p_pri q3 >=? PUSER then set_pri q3 (p_usrpri q3) else q3) = v) by (by destruct (_ >=? _)).
  rewrite Ev. destruct (Z.geb_spec (p_pri q3) PUSER) as [|Hlow]; (split; [done|]); (split; [exact Hv|]); [by right|left; exact Hlow].
Qed.

(** One process in the loop of schedcpu. *)
Lemma schedcpu_proc_ok st sl rq i p : inv st sl rq -> settled st -> nice_ok st -> procs st !! i = Some p ->
  exists st' rq' p', schedcpu_proc st i = Ret st' /\ inv st' sl rq' /\ Forall2 same_state (procs st) (procs st') /\
    cores st' = <[i := core p']> (cores st) /\ refreshed (sys st) p' /\
    allproc st' = allproc st /\ u_procp st' = u_procp st /\ sys_like (sys st) (sys st').
Proof.
  intros HI Hset Hnice Hi. rewrite (schedcpu_proc_eq st i p Hi). destruct (b_pri _ _ _ (i_base _ _ _ HI) i p Hi) as [_ Hs].
  destruct (ticked_fields p Hs) as [T1 T2]. destruct (used_fields (sys st) (ticked p)) as (U1 & U2 & _).
  destruct (Z.gtb_spec (p_slptime (ticked p)) 1) as [Hgt|_].
  - destruct (step_same st sl rq i p _ (sys st) HI Hi T1 T2) as (I1 & F1 & C1). exists (putp st i (ticked p)), rq, (ticked p).
    split; [done|]. split; [exact I1|]. split; [exact F1|]. split; [exact C1|]. split; [by left; lia|]. split; [done|]. split; [done|apply sys_like_refl].
  - apply (schedcpu_setpri_ok st sl rq i p); [done..| |].
    + eapply stays_trans; [exact T1|exact U1].
    + eapply same_state_trans; [exact T2|exact U2].
Qed.

Lemma schedcpu_loop_ok : forall l st sl rq, inv st sl rq -> settled st -> nice_ok st -> NoDup l ->
  (forall i, i ∈ l -> (i < length (procs st))%nat) ->
  exists st' rq', schedcpu_loop st l = Ret st' /\ inv st' sl rq' /\ settled st' /\ nice_ok st' /\
    Forall2 same_state (procs st) (procs st') /\ allproc st' = allproc st /\ u_procp st' = u_procp st /\ sys_like (sys st) (sys st') /\
    (forall i p', i ∈ l -> procs st' !! i = Some p' -> refreshed (sys st) p') /\
    (forall i, i ∉ l -> cores st' !! i = cores st !! i).
Proof.
  induction l as [|i l IH]; intros st sl rq HI Hset Hn Hd Hl; cbn [schedcpu_loop].
  - exists st, rq. splits; try done.
    + apply Forall2_same_length_lookup_2; [done|]. intros j q q' E E'. rewrite E in E'. injection E' as <-. apply same_state_refl.
    + intros i p' Hi. by apply not_elem_of_nil in Hi.
  - apply NoDup_cons in Hd as [Hi Hd]. destruct (lookup_lt_is_Some_2 (procs st) i) as [p Ep]; [apply Hl, elem_of_cons; by left|].
    destruct (schedcpu_proc_ok st sl rq i p HI Hset Hn Ep) as (st1 & rq1 & p1 & -> & HI1 & F1 & C1 & R1 & A1 & U1 & S1). bind.
    assert (Hlt : (i < length (procs st))%nat) by (by apply lookup_lt_Some in Ep).
    destruct (IH st1 sl rq1 HI1) as (st2 & rq2 & E2 & HI2 & Hset2 & Hn2 & F2 & A2 & U2 & S2 & R2 & C2); [| |done| |].
    { eapply settled_same; [done..|]. by apply S1. }
    { by eapply nice_same. }
    { intros j Hj. rewrite <- (Forall2_length _ _ _ F1). apply Hl, elem_of_cons. by right. }
    exists st2, rq2. split; [exact E2|]. splits; try done; [by eapply same_states_trans|congruence|congruence|by eapply sys_like_trans|..].
    + intros j p' Hj Ej. apply elem_of_cons in Hj as [->|Hj].
      * specialize (C2 i Hi). rewrite C1 in C2. unfold cores in C2. rewrite !list_lookup_fmap, Ej, list_lookup_insert_eq in C2 by (by rewrite length_fmap).
        apply (inj Some) in C2. eapply refreshed_core; [apply sys_like_refl|symmetry; exact C2|exact R1].
      * eapply (refreshed_core (sys st1) (sys st)); [|reflexivity|by apply (R2 j)].
        unfold sys_like in *. conj. splits; congruence.
    + intros j Hj. rewrite C2 by (intros Hx; apply Hj, elem_of_cons; by right). rewrite C1. apply list_lookup_insert_ne.
      intros ->. apply Hj, elem_of_cons. by left.
Qed.

(** *** The whole of schedcpu *)

Lemma after_nice s ws i p : p_nice (after s ws i p) = p_nice p.
Proof.
  unfold after. destruct (decide _); [|done]. destruct (decide _); [|done].
  Transparent ready. unfold ready. destruct (p_slptime _ >? 1); reflexivity.
Qed.
#[global] Opaque ready.

Lemma nice_wakes st sl rq ws st' sl' rq' : nice_ok st -> wakes st sl rq ws st' sl' rq' -> nice_ok st'.
Proof.
  intros H W i p' Ei. destruct (lookup_lt_is_Some_2 (procs st) i) as [p Ep].
  { rewrite <- (w_len _ _ _ _ _ _ _ W). by apply lookup_lt_Some in Ei. }
  destruct (w_core _ _ _ _ _ _ _ W i p Ep) as (p2 & E2 & C). rewrite Ei in E2. injection E2 as <-.
  assert (E : p_nice p' = p_nice (after (sys st) ws i p)) by exact (f_equal p_nice C). rewrite E, after_nice. by apply (H i p).
Qed.

(** Who is on a run queue after wakeups: who was, and who was woken to run. *)
Lemma wakes_ring st sl rq ws st' sl' rq' i p p' : inv st sl rq -> wakes st sl rq ws st' sl' rq' ->
  procs st !! i = Some p -> procs st' !! i = Some p' ->
  (p_rlink p' <> PNULL <-> p_rlink p <> PNULL \/ i ∈ ws /\ p_stat p = SSLEEP /\ loaded p = true).
Proof.
  intros HI W Ei Ei'. pose proof (b_rq _ _ _ (i_base _ _ _ HI)) as Q. pose proof (b_rq _ _ _ (i_base _ _ _ (w_inv _ _ _ _ _ _ _ W))) as Q'.
  assert (Hj : forall k, joins st k i = bool_decide (p_stat p = SSLEEP) && loaded p && bool_decide (qindex (p_pri p) = k)).
  { intros k. unfold joins. by rewrite Ei. }
  assert (Hin : forall k, (k < 32)%nat -> i ∈ rq' k <-> i ∈ rq k \/ (joins st k i = true /\ i ∈ ws)).
  { intros k Hk. rewrite (w_rq _ _ _ _ _ _ _ W k Hk), elem_of_app, list_elem_of_filter. tauto. }
  split.
  - intros Hr. destruct (rq_linked _ _ Q' i p' Ei' Hr) as (k & Hk & Hx). apply Hin in Hx as [Hx|[Hx Hw]]; [|right|done].
    + left. destruct (rq_home _ _ Q k i Hk Hx) as (q & E & H & _). congruence.
    + rewrite Hj in Hx. apply andb_true_iff in Hx as [Hx _]. apply andb_true_iff in Hx as [Hx Hl]. by apply bool_decide_eq_true in Hx.
  - intros H. assert (Hk : exists k, (k < 32)%nat /\ i ∈ rq' k).
    { destruct H as [Hr|(Hw & Hs & Hl)].
      - destruct (rq_linked _ _ Q i p Ei Hr) as (k & Hk & Hx). exists k. split; [done|]. apply Hin; [done|]. by left.
      - destruct (b_pri _ _ _ (i_base _ _ _ HI) i p Ei) as [Hp _]. pose proof (qindex_lt _ Hp) as Hk. exists (qindex (p_pri p)).
        split; [done|]. apply Hin; [done|]. right. split; [|done]. by rewrite Hj, Hs, Hl, !bool_decide_eq_true_2. }
    destruct Hk as (k & Hk & Hx). destruct (rq_home _ _ Q' k i Hk Hx) as (q & E & Hr & _). congruence.
Qed.

Lemma after_stat s ws i p : p_stat (after s ws i p) = if decide (i ∈ ws /\ p_stat p = SSLEEP) then SRUN else p_stat p.
Proof.
  unfold after. destruct (decide (i ∈ ws)) as [Hi|Hi], (decide (p_stat p = SSLEEP)) as [Hs|Hs].
  - rewrite decide_True by tauto. apply ready_stat.
  - by rewrite decide_False by tauto.
  - by rewrite decide_False by tauto.
  - by rewrite decide_False by tauto.
Qed.

Lemma settled_wakes st sl rq ws st' sl' rq' : inv st sl rq -> settled st -> wakes st sl rq ws st' sl' rq' -> settled st'.
Proof.
  intros HI H W i p' Ei. destruct (lookup_lt_is_Some_2 (procs st) i) as [p Ep].
  { rewrite <- (w_len _ _ _ _ _ _ _ W). by apply lookup_lt_Some in Ei. }
  destruct (w_core _ _ _ _ _ _ _ W i p Ep) as (p2 & E2 & C). rewrite Ei in E2. injection E2 as <-.
  pose proof (wakes_ring st sl rq ws st' sl' rq' i p p' HI W Ep Ei) as Hr. apply core_fields in C as (C1 & _ & _ & C4 & _).
  rewrite after_stat in C1. rewrite after_flag in C4. specialize (H i p Ep).
  destruct (w_oth _ _ _ _ _ _ _ W) as (_ & -> & (_ & -> & _)). unfold loaded in *. rewrite C4.
  destruct (_ && _); cbn in *.
  - destruct H as [H1 H2]. assert (Hs : p_stat p <> SSLEEP) by (intros E; rewrite E in H2; done).
    rewrite decide_False in C1 by tauto. split; [|by rewrite C1].
    destruct (decide (p_rlink p' = PNULL)) as [|Hn]; [done|]. apply Hr in Hn. tauto.
  - intros Hs Hl. apply Hr. destruct (decide (i ∈ ws /\ p_stat p = SSLEEP)) as [[? ?]|Hn]; [by right|].
    left. apply H; [congruence|done].
Qed.

(** The scheduler's state between events. *)
Definition good (st : kst) : Prop := (exists sl rq, inv st sl rq) /\ settled st /\ nice_ok st.
Definition nobody (st : kst) (chan : Z) : Prop := forall i p, procs st !! i = Some p -> p_wchan p <> chan.
(** A step after which the state is good again, and nobody has gone to sleep. *)
Definition advances (st st' : kst) : Prop :=
  good st' /\ allproc st' = allproc st /\ u_procp st' = u_procp st /\ (hz (sys st') = hz (sys st) /\ noproc (sys st') = noproc (sys st)) /\
  Forall2 (fun p p' => p_wchan p' = p_wchan p \/ p_wchan p' = 0) (procs st) (procs st').

Lemma advances_nobody st st' chan : chan <> 0 -> advances st st' -> nobody st chan -> nobody st' chan.
Proof.
  intros Hc (_ & _ & _ & _ & HF) H i p' E. destruct (Forall2_lookup_r _ _ _ _ _ HF E) as (p & Ep & [-> | ->]); [|congruence].
  by eapply H.
Qed.

Lemma advances_trans a b c : advances a b -> advances b c -> advances a c.
Proof.
  intros (_ & A2 & A3 & [A4 A6] & A5) (B1 & B2 & B3 & [B4 B6] & B5). unfold advances. split; [done|]. splits; try congruence.
  apply Forall2_same_length_lookup_2; [by rewrite (Forall2_length _ _ _ A5), (Forall2_length _ _ _ B5)|].
  intros i p r Ep Er. destruct (Forall2_lookup_l _ _ _ _ _ A5 Ep) as (q & Eq & Hq).
  destruct (Forall2_lookup_l _ _ _ _ _ B5 Eq) as (r2 & Er2 & Hr). rewrite Er in Er2. injection Er2 as <-.
  destruct Hr as [-> | ->]; [done|by right].
Qed.

Lemma good_sys st s : noproc s = noproc (sys st) -> good st -> good (with_sys st s).
Proof.
  intros E ((sl & rq & HI) & H2 & H3). split; [exists sl, rq; by apply inv_sys|]. split; [|done].
  intros i p Ei. specialize (H2 i p Ei). cbn [with_sys sys u_procp]. by rewrite E.
Qed.

Section schedcpu.
Variable lbolt_addr runin_addr runout_addr : Z.
Variable proc_addr : nat -> Z.

Lemma wakeup_advances st s chan : good st -> noproc s = noproc (sys st) -> hz s = hz (sys st) ->
  exists st', wakeup runout_addr (with_sys st s) chan = Ret st' /\ advances st st' /\ (chan <> 0 -> nobody st' chan) /\ runin (sys st') = runin s.
Proof.
  intros HG E1 E2. pose proof (good_sys st s E1 HG) as ((sl & rq & HI) & H2 & H3).
  destruct (wakeup_ok runout_addr (with_sys st s) sl rq chan HI) as (ws & st' & sl' & rq' & -> & W & K). exists st'. split; [done|].
  destruct (w_oth _ _ _ _ _ _ _ W) as (A & U & (_ & Enp & Ein & _ & _ & _ & Ehz & _)).
  assert (HF : Forall2 (fun p p' => p_wchan p' = p_wchan p \/ p_wchan p' = 0) (procs st) (procs st')).
  { apply Forall2_same_length_lookup_2; [symmetry; apply (w_len _ _ _ _ _ _ _ W)|]. intros i p p' E E'.
    destruct (w_core _ _ _ _ _ _ _ W i p E) as (p2 & E3 & C). rewrite E' in E3. injection E3 as <-.
    apply core_fields in C as (_ & _ & C & _). rewrite C. destruct (decide (i ∈ ws)); [right; by apply after_in_wchan|left; by rewrite after_out]. }
  split; [|split; [|exact Ein]].
  - split; [|splits; try done; [rewrite Ehz; exact E2|rewrite Enp; exact E1]]. split; [eexists _, _; apply (w_inv _ _ _ _ _ _ _ W)|].
    split; [by eapply settled_wakes|by eapply nice_wakes].
  - intros Hc i p' E' Hw. destruct (lookup_lt_is_Some_2 (procs st) i) as [p Ep].
    { rewrite (Forall2_length _ _ _ HF). by apply lookup_lt_Some in E'. }
    destruct (w_core _ _ _ _ _ _ _ W i p Ep) as (p2 & E3 & C). rewrite E' in E3. injection E3 as <-.
    apply core_fields in C as (_ & _ & C & _). rewrite C in Hw. destruct (decide (i ∈ ws)) as [Hi|Hi].
    { rewrite after_in_wchan in Hw by done. congruence. }
    rewrite after_out in Hw by done. destruct (b_queued _ _ _ (i_base _ _ _ HI) i p Ep ltac:(congruence)) as [Hq _]. rewrite Hw in Hq.
    assert (Hon : on (with_sys st s) chan i = true) by (unfold on; cbn; rewrite Ep; by apply Z.eqb_eq).
    apply Hi. assert (Hx : i ∈ filter (fun i => on (with_sys st s) chan i = true) ws).
    { rewrite (k_order _ _ _ _ _ _ K). by apply list_elem_of_filter. }
    by apply list_elem_of_filter in Hx as [_ Hx].
Qed.

Lemma wakeup_advances' st chan : good st ->
  exists st', wakeup runout_addr st chan = Ret st' /\ advances st st' /\ (chan <> 0 -> nobody st' chan) /\ runin (sys st') = runin (sys st).
Proof.
  intros HG. destruct (wakeup_advances st (sys st) chan HG eq_refl eq_refl) as (st' & E & H).
  exists st'. split; [|exact H]. rewrite <- E. by destruct st.
Qed.

Lemma advances_refl st : good st -> advances st st.
Proof.
  intros H. split; [done|]. splits; try done. apply Forall2_same_length_lookup_2; [done|]. intros i p p' E E'. left. congruence.
Qed.

Lemma loop_advances st : good st -> NoDup (allproc st) -> (forall i, i ∈ allproc st -> (i < length (procs st))%nat) ->
  exists st', schedcpu_loop st (allproc st) = Ret st' /\ advances st st' /\ runin (sys st') = runin (sys st).
Proof.
  intros ((sl & rq & HI) & H2 & H3) Hd Hl.
  destruct (schedcpu_loop_ok (allproc st) st sl rq HI H2 H3 Hd Hl) as (st' & rq' & E & HI' & H2' & H3' & HF & A & U & S & _).
  exists st'. split; [done|]. split; [|apply S]. split; [split; [by exists sl, rq'|done]|]. splits; try done; [apply S|apply S|].
  eapply Forall2_impl; [exact HF|]. intros p p' (_ & -> & _). by left.
Qed.

Lemma vmmeter_advances st avefree minfree maxslp : good st -> (0 < length (procs st))%nat -> runin_addr <> 0 ->
  exists st', vmmeter runin_addr runout_addr st avefree minfree maxslp = Ret st' /\ advances st st' /\
    (runin (sys st') = runin (sys st) \/ runin (sys st') = 0 /\ nobody st' runin_addr).
Proof.
  intros HG Hl Hc. unfold vmmeter. destruct (lookup_lt_is_Some_2 (procs st) 0 Hl) as [p0 E0]. unfold getp. rewrite E0. bind.
  destruct (_ || _); [|exists st; split; [done|]; split; [by apply advances_refl|by left]].
  destruct (wakeup_advances st (set_runin (set_runout (sys st) 0) 0) runin_addr HG) as (st1 & -> & A1 & N1 & R1); [done|done|]. bind.
  destruct (wakeup_advances' st1 runout_addr) as (st2 & -> & A2 & _ & R2); [apply A1|].
  exists st2. split; [done|]. split; [by eapply advances_trans|]. right. split; [by rewrite R2, R1|].
  eapply advances_nobody; [done|exact A2|by apply N1].
Qed.

Definition schedcpu_args_ok (st : kst) : Prop :=
  NoDup (allproc st) /\ (forall i, i ∈ allproc st -> (i < length (procs st))%nat) /\ (0 < length (procs st))%nat.

Lemma advances_args st st' : advances st st' -> schedcpu_args_ok st -> schedcpu_args_ok st'.
Proof. intros (_ & A & _ & _ & HF). unfold schedcpu_args_ok. by rewrite A, <- (Forall2_length _ _ _ HF). Qed.

Lemma schedcpu_ok st q fn avefree minfree maxslp bcln : good st -> schedcpu_args_ok st -> lbolt_addr <> 0 -> runin_addr <> 0 ->
  exists st', advances st st' /\ nobody st' lbolt_addr /\ runin (sys st') = 0 /\ (runin (sys st) <> 0 -> nobody st' runin_addr) /\
    schedcpu lbolt_addr runin_addr runout_addr proc_addr st q fn avefree minfree maxslp bcln =
      (q' ← Callout.timeout fn 0 (hz (sys st)) q; Ret (st', q')).
Proof.
  intros HG Hargs Hc1 Hc2. unfold schedcpu.
  destruct (wakeup_advances' st lbolt_addr HG) as (st1 & -> & A1 & N1 & R1). bind. specialize (N1 Hc1).
  pose proof (advances_args _ _ A1 Hargs) as Hargs1.
  destruct (loop_advances st1) as (st2 & -> & A2 & R2); [apply A1|apply Hargs1|apply Hargs1|]. bind.
  pose proof (advances_args _ _ A2 Hargs1) as Hargs2.
  destruct (vmmeter_advances st2 avefree minfree maxslp) as (st3 & -> & A3 & R3); [apply A2|apply Hargs2|done|]. bind.
  assert (H4 : exists st4, (if runin (sys st3) =? 0 then Ret st3
     else wakeup runout_addr (with_sys st3 (set_runin (sys st3) 0)) runin_addr) = Ret st4 /\ advances st3 st4 /\
     runin (sys st4) = 0 /\ (runin (sys st) <> 0 -> nobody st4 runin_addr)).
  { destruct (Z.eqb_spec (runin (sys st3)) 0) as [E|E].
    - exists st3. split; [done|]. split; [apply advances_refl; apply A3|]. split; [done|]. intros Hr. destruct R3 as [R3|[_ R3]]; [congruence|done].
    - destruct (wakeup_advances st3 (set_runin (sys st3) 0) runin_addr) as (st4 & -> & A4 & N4 & R4); [apply A3|done|done|].
      exists st4. split; [done|]. split; [done|]. split; [exact R4|]. intros _. by apply N4. }
  destruct H4 as (st4 & -> & A4 & R4 & N4). bind.
  assert (H5 : exists st5, (if bcln then wakeup runout_addr st4 (proc_addr 2) else Ret st4) = Ret st5 /\ advances st4 st5 /\
     runin (sys st5) = runin (sys st4)).
  { destruct bcln.
    - destruct (wakeup_advances' st4 (proc_addr 2)) as (st5 & -> & A5 & _ & R5); [apply A4|]. by exists st5.
    - exists st4. split; [done|]. split; [|done]. apply advances_refl, A4. }
  destruct H5 as (st5 & -> & A5 & R5). bind.
  assert (A25 : advances st1 st5) by (eapply advances_trans; [exact A2|]; eapply advances_trans; [exact A3|]; by eapply advances_trans).
  assert (A : advances st st5) by (by eapply advances_trans).
  exists st5. split; [done|]. split; [by apply (advances_nobody st1)|]. split; [congruence|].
  split; [intros Hr; eapply advances_nobody; [done|exact A5|by apply N4]|].
  destruct A as (_ & _ & _ & (-> & _) & _). done.
Qed.

End schedcpu.

End settled.

(** *** A small system, for the witnesses: three processes, two of which sleep. *)
Definition demo_proc (s : pstat) : proc :=
  Proc PNULL PNULL 50 50 0 s 0 0 0 0 0 0 0 SLOAD 0 0 1 1 0 0 0 0 0 0 0%nat 0%nat 0.
Definition demo_sys : sysvars := Sys 50 0 false false 0 0 0 100 10 0 100 false.
Definition demo0 : kst := K (replicate 3 (demo_proc SRUN)) (replicate 32 (PNULL, PNULL)) 0 (replicate 64 (Sq PNULL None)) [2; 1; 0]%nat 0%nat demo_sys.
Definition demo (st : kst) : kst :=
  match (st ← go_to_sleep st 1 0x1000 30 0; go_to_sleep st 2 0x1000 40 0) with Ret st => st | _ => st end.
Definition demo_sl : nat -> list nat := upd (upd (fun _ => []) 0 [1%nat]) 0 [1; 2]%nat.

Lemma demo_sched_inv : inv (demo (rqinit demo0)) demo_sl (fun _ => []).
Proof.
  assert (H0 : inv (rqinit demo0) (fun _ => []) (fun _ => [])).
  { apply inv_init; try done. repeat constructor; cbn; try done; lia. }
  destruct (go_to_sleep_ok _ _ _ 1 (demo_proc SRUN) 0x1000 30 0 H0) as (st1 & E1 & H1 & _); try done.
  assert (E0 : go_to_sleep (rqinit demo0) 1 0x1000 30 0 = Ret st1) by exact E1. unfold demo. rewrite E0. bind.
  vm_compute in E0. injection E0 as E0.
  destruct (go_to_sleep_ok _ _ _ 2 (demo_proc SRUN) 0x1000 40 0 H1) as (st2 & E2 & H2 & _); try done; [by rewrite <- E0|].
  rewrite E2. exact H2.
Qed.

Lemma demo_settled : settled at_work (demo (rqinit demo0)) /\ nice_ok (demo (rqinit demo0)).
Proof.
  assert (H : forall i p, procs (demo (rqinit demo0)) !! i = Some p -> (i < 3)%nat).
  { intros i p E. apply lookup_lt_Some in E. exact E. }
  split; intros i p E; pose proof (H i p E); destruct i as [|[|[|i]]]; try lia; vm_compute in E; injection E as <-; by vm_compute.
Qed.

(** ** The properties *)

(** wakeup(chan), when the swapper does not sleep: it returns (the loop,
    which starts again at the head of the queue after each process, ends within
    the fuel), the queues are well-formed again, exactly the processes that wait
    for [chan] are off the sleep queues, those of them that are asleep and in
    core are at the end of the run queues of their priorities in the order in
    which they slept, a stopped one stays stopped, and no other process changes
    but in its links. *)
Theorem wakeup_spec ra st sl rq chan : inv st sl rq -> chan <> 0 -> runout (sys st) = 0 ->
  exists st' sl' rq', wakeup ra st chan = Ret st' /\ inv st' sl' rq' /\
    (forall h, (h < 64)%nat -> sl' h = filter (fun i => on st chan i = false) (sl h)) /\
    (forall k, (k < 32)%nat -> rq' k = rq k ++ filter (fun i => on st chan i = true /\ joins st k i = true) (sl (HASH chan))) /\
    forall i p, procs st !! i = Some p -> exists p', procs st' !! i = Some p' /\
      core p' = core (if p_wchan p =? chan then
        (if decide (p_stat p = SSLEEP) then ready (sys st) (set_wchan p 0) else set_wchan p 0) else p).
Proof.
  intros HI Hc Hr. destruct (wakeup_ok ra st sl rq chan HI) as (ws & st' & sl' & rq' & E & W & K).
  destruct (k_plain _ _ _ _ _ _ K (or_introl Hr)) as [Ews _]. exists st', sl', rq'. split; [done|]. split; [apply (w_inv _ _ _ _ _ _ _ W)|].
  assert (Hin : forall i p, procs st !! i = Some p -> i ∈ ws <-> p_wchan p = chan).
  { intros i p Ei. rewrite Ews, list_elem_of_filter. unfold on. rewrite Ei, Z.eqb_eq. split; [tauto|]. intros Ew. split; [done|].
    rewrite <- Ew. apply (b_queued _ _ _ (i_base _ _ _ HI) i p Ei). congruence. }
  split; [|split].
  - intros h Hh. rewrite (w_sl _ _ _ _ _ _ _ W h Hh). apply filter_eq. intros i Hi.
    destruct (b_sleeper _ _ _ (i_base _ _ _ HI) h i Hh Hi) as (p & Ei & _). rewrite (Hin i p Ei). unfold on. rewrite Ei.
    by rewrite Z.eqb_neq.
  - intros k Hk. rewrite (w_rq _ _ _ _ _ _ _ W k Hk), Ews, list_filter_filter. f_equal. apply filter_eq. tauto.
  - intros i p Ei. destruct (w_core _ _ _ _ _ _ _ W i p Ei) as (p' & E' & C). exists p'. split; [done|]. rewrite C. unfold after.
    destruct (Z.eqb_spec (p_wchan p) chan) as [Hw|Hw].
    + by rewrite decide_True by (by apply (Hin i p Ei)).
    + rewrite decide_False; [done|]. by rewrite (Hin i p Ei).
Qed.

Lemma wakeup_spec_witness : exists st' sl' rq', wakeup 0x2000 (demo (rqinit demo0)) 0x1000 = Ret st' /\ inv st' sl' rq'.
Proof.
  destruct (wakeup_spec 0x2000 (demo (rqinit demo0)) demo_sl (fun _ => []) 0x1000 demo_sched_inv ltac:(lia) eq_refl) as (st' & sl' & rq' & E & H & _).
  exact (ex_intro _ st' (ex_intro _ sl' (ex_intro _ rq' (conj E H)))).
Defined.

(** setrun: it panics exactly on a process that is not asleep, stopped or
    being created; otherwise the process is off its sleep queue, ready to run
    (its priority recomputed if it slept for more than a second), last on the
    run queue of its priority if it is in core, and if it is swapped out and the
    swapper sleeps, those that wait for runout have been woken. *)
Theorem setrun_spec ra st sl rq i p : inv st sl rq -> procs st !! i = Some p ->
  if bool_decide (p_stat p = SSLEEP) || bool_decide (p_stat p = SSTOP) || bool_decide (p_stat p = SIDL)
  then exists ws st' sl' rq', setrun ra st i = Ret st' /\ started ra st sl rq i p ws st' sl' rq'
  else setrun ra st i = Panic "setrun".
Proof. apply setrun_ok. Qed.

Lemma setrun_spec_witness : exists ws st' sl' rq', setrun 0x2000 (demo (rqinit demo0)) 2 = Ret st' /\
  started 0x2000 (demo (rqinit demo0)) demo_sl (fun _ => []) 2
    (set_link (set_stat (asleep_as (demo_proc SRUN) 0x1000 40 0) SSLEEP) PNULL) ws st' sl' rq'.
Proof. exact (setrun_spec 0x2000 (demo (rqinit demo0)) demo_sl (fun _ => []) 2 _ demo_sched_inv eq_refl). Defined.

(** C39: schedcpu, once a second: on a well-formed state in which every runnable
    process in core is on a run queue it neither panics nor follows a stray link,
    and leaves such a state; everybody who waited for lbolt (and for runin, if it
    was set) has been woken; and it puts itself on the callout queue again. *)
Theorem schedcpu_spec lb ri ro pa st q fn avefree minfree maxslp bcln :
  good at_work st -> schedcpu_args_ok st -> lb <> 0 -> ri <> 0 ->
  exists st', good at_work st' /\ nobody st' lb /\ runin (sys st') = 0 /\ (runin (sys st) <> 0 -> nobody st' ri) /\
    schedcpu lb ri ro pa st q fn avefree minfree maxslp bcln = (q' ← Callout.timeout fn 0 (hz (sys st)) q; Ret (st', q')).
Proof.
  intros HG HA H1 H2. destruct (schedcpu_ok at_work id lb ri ro pa st q fn avefree minfree maxslp bcln HG HA H1 H2) as (st' & A & H).
  exists st'. split; [apply A|exact H].
Qed.

Lemma schedcpu_spec_witness : exists st', good at_work st' /\ nobody st' 0x1000 /\
  schedcpu 0x1000 0x1020 0x1040 (fun i => 0x2000 + 200 * Z.of_nat i) (demo (rqinit demo0)) (Callout.Q [] 5) 1 0 0 20 false =
  Ret (st', Callout.Q [Callout.Co 100 1 0] 4).
Proof.
  destruct (schedcpu_spec 0x1000 0x1020 0x1040 (fun i => 0x2000 + 200 * Z.of_nat i) (demo (rqinit demo0)) (Callout.Q [] 5) 1 0 0 20 false)
    as (st' & H1 & H2 & _ & _ & H3).
  - exact (conj (ex_intro _ demo_sl (ex_intro _ (fun _ => []) demo_sched_inv)) demo_settled).
  - split; [|split].
    + apply (bool_decide_eq_true_1 _). reflexivity.
    + intros i Hi. repeat (apply elem_of_cons in Hi as [->|Hi]; [vm_compute; lia|]). by apply not_elem_of_nil in Hi.
    + vm_compute. lia.
  - lia.
  - lia.
  - exact (ex_intro _ st' (conj H1 (conj H2 H3))).
Defined.

(** The pass of schedcpu over the processes: each that has not slept for
    more than a second has the user priority that its decayed cpu usage and
    nice value give, between 10 and 127, and runs at it unless it is at one of
    the kernel's priorities; states, sleep queues and the processes that are not
    in the list do not change; and a runnable process whose priority changed is on
    the run queue of its new priority (the queues are well-formed again). *)
Theorem schedcpu_priorities l st sl rq : inv st sl rq -> settled at_work st -> nice_ok st -> NoDup l ->
  (forall i, i ∈ l -> (i < length (procs st))%nat) ->
  exists st' rq', schedcpu_loop st l = Ret st' /\ inv st' sl rq' /\
    Forall2 same_state (procs st) (procs st') /\
    (forall i p', i ∈ l -> procs st' !! i = Some p' -> refreshed (sys st) p') /\
    (forall i, i ∉ l -> cores st' !! i = cores st !! i).
Proof.
  intros HI H2 H3 Hd Hl. destruct (schedcpu_loop_ok at_work l st sl rq HI H2 H3 Hd Hl) as (st' & rq' & E & HI' & _ & _ & HF & _ & _ & _ & R & C).
  exists st', rq'. by splits.
Qed.

Lemma schedcpu_priorities_witness : exists st' rq', schedcpu_loop (demo (rqinit demo0)) [1]%nat = Ret st' /\ inv st' demo_sl rq'.
Proof.
  destruct (schedcpu_priorities [1]%nat (demo (rqinit demo0)) demo_sl (fun _ => []) demo_sched_inv (proj1 demo_settled) (proj2 demo_settled))
    as (st' & rq' & E & H & _).
  - apply NoDup_singleton.
  - intros i Hi. apply elem_of_cons in Hi as [->|Hi]; [vm_compute; lia|by apply not_elem_of_nil in Hi].
  - exact (ex_intro _ st' (ex_intro _ rq' (conj E H))).
Defined.

End KernSynch.
