(* ===== verification/KernSig.v ===== *)
(** Signals, sys/kern/kern_sig.c: the signal actions and masks of the current
    process, posting a signal to a process (psignal, kill and its relatives) and
    taking one (issig, psig), on the process table and queues of kern_synch.c.

    issig gives up the processor in the middle: such a routine is cut at swtch,
    and returns the place where it goes on when the process runs again.  What
    the machine-dependent and file-system code it calls does (sendsig, core, exit)
    is recorded as an event; the requests of a tracing parent (procxmt) are an
    argument. *)
From stdpp Require Import base numbers list strings.
From Stdlib Require Import ZArith Lia.
From S2P Require Import Prelude Proc RunQueue KernSynch.

Module KernSig.
Import Proc RunQueue KernSynch.

(** ** Data *)

Definition NSIG : Z := 32.
Definition SIGQUIT : Z := 3.
Definition SIGILL : Z := 4.
Definition SIGTRAP : Z := 5.
Definition SIGIOT : Z := 6.
Definition SIGEMT : Z := 7.
Definition SIGFPE : Z := 8.
Definition SIGKILL : Z := 9.
Definition SIGBUS : Z := 10.
Definition SIGSEGV : Z := 11.
Definition SIGSYS : Z := 12.
Definition SIGTERM : Z := 15.
Definition SIGURG : Z := 16.
Definition SIGSTOP : Z := 17.
Definition SIGTSTP : Z := 18.
Definition SIGCONT : Z := 19.
Definition SIGCHLD : Z := 20.
Definition SIGTTIN : Z := 21.
Definition SIGTTOU : Z := 22.
Definition SIGIO : Z := 23.
Definition SIGWINCH : Z := 28.
Definition SIGINFO : Z := 29.

Definition SIG_DFL : Z := 0.
Definition SIG_IGN : Z := 1.

Definition SA_ONSTACK : Z := 0x1.
Definition SA_RESTART : Z := 0x2.
Definition SV_INTERRUPT : Z := 0x2.
Definition SA_NOCLDSTOP : Z := 0x4.

Definition EPERM : Z := 1.
Definition ESRCH : Z := 3.
Definition EINTR : Z := 4.
Definition EINVAL : Z := 22.

Definition sigmask (m : Z) : Z := Z.shiftl 1 (m - 1).
Definition sigcantmask : Z := Z.lor (sigmask SIGKILL) (sigmask SIGSTOP).
Definition ttystopsigmask : Z := Z.lor (Z.lor (sigmask SIGTSTP) (sigmask SIGTTIN)) (sigmask SIGTTOU).
Definition stopsigmask : Z := Z.lor (sigmask SIGSTOP) ttystopsigmask.
Definition defaultignmask : Z :=
  Z.lor (Z.lor (Z.lor (Z.lor (Z.lor (sigmask SIGCONT) (sigmask SIGIO)) (sigmask SIGURG)) (sigmask SIGCHLD)) (sigmask SIGWINCH)) (sigmask SIGINFO).

(** [struct sigaction]; [struct sigvec] has the same shape. *)
Record sigaction := Sa { sa_handler : Z; sa_mask : Z; sa_flags : Z }.

Inductive event : Type :=
| EvSend (action sig mask code : Z) (** sendsig *)
| EvCore (** core *)
| EvExit (status : Z). (** exit *)

(** What the user structure of the current process has for signals. *)
Record user := User {
  u_signal : list Z;
  u_sigmask : list Z;
  u_sigonstack : Z;
  u_sigintr : Z;
  u_oldmask : Z;
  u_sigstack : Z * Z; (** [ss_sp], [ss_onstack] *)
  u_code : Z;
  u_events : list event (** newest first *)
}.

Definition set_signal (u : user) (l : list Z) : user :=
  User l (u_sigmask u) (u_sigonstack u) (u_sigintr u) (u_oldmask u) (u_sigstack u) (u_code u) (u_events u).
Definition set_umask (u : user) (l : list Z) : user :=
  User (u_signal u) l (u_sigonstack u) (u_sigintr u) (u_oldmask u) (u_sigstack u) (u_code u) (u_events u).
Definition set_onstack (u : user) (v : Z) : user :=
  User (u_signal u) (u_sigmask u) v (u_sigintr u) (u_oldmask u) (u_sigstack u) (u_code u) (u_events u).
Definition set_sigintr (u : user) (v : Z) : user :=
  User (u_signal u) (u_sigmask u) (u_sigonstack u) v (u_oldmask u) (u_sigstack u) (u_code u) (u_events u).
Definition set_oldmask (u : user) (v : Z) : user :=
  User (u_signal u) (u_sigmask u) (u_sigonstack u) (u_sigintr u) v (u_sigstack u) (u_code u) (u_events u).
Definition set_sigstack (u : user) (v : Z * Z) : user :=
  User (u_signal u) (u_sigmask u) (u_sigonstack u) (u_sigintr u) (u_oldmask u) v (u_code u) (u_events u).
Definition set_code (u : user) (v : Z) : user :=
  User (u_signal u) (u_sigmask u) (u_sigonstack u) (u_sigintr u) (u_oldmask u) (u_sigstack u) v (u_events u).
Definition log (u : user) (e : event) : user :=
  User (u_signal u) (u_sigmask u) (u_sigonstack u) (u_sigintr u) (u_oldmask u) (u_sigstack u) (u_code u) (e :: u_events u).

(** [f |= m] and [f &= ~m], as the code picks one of them. *)
Definition put (b : bool) (f m : Z) : Z := if b then Z.lor f m else Z.ldiff f m.
Definition flag (b : bool) (f : Z) : Z := if b then f else 0.

(** ** Actions and masks *)

Definition setsigvec (p : proc) (u : user) (sig : Z) (sa : sigaction) : proc * user :=
  let bit := sigmask sig in
  let n := Z.to_nat sig in
  let u := set_signal u (<[n := sa_handler sa]> (u_signal u)) in
  let u := set_umask u (<[n := Z.ldiff (sa_mask sa) sigcantmask]> (u_sigmask u)) in
  let u := set_sigintr u (put (Z.land (sa_flags sa) SA_RESTART =? 0) (u_sigintr u) bit) in
  let u := set_onstack u (put (has (sa_flags sa) SA_ONSTACK) (u_sigonstack u) bit) in
  let p := if sig =? SIGCHLD then set_flag p (put (has (sa_flags sa) SA_NOCLDSTOP) (p_flag p) SNOCLDSTOP) else p in
  let p :=
    if (sa_handler sa =? SIG_IGN) || has bit defaultignmask && (sa_handler sa =? SIG_DFL) then
      let p := set_sig p (Z.ldiff (p_sig p) bit) in
      let p := if sig =? SIGCONT then p else set_sigignore p (Z.lor (p_sigignore p) bit) in
      set_sigcatch p (Z.ldiff (p_sigcatch p) bit)
    else
      let p := set_sigignore p (Z.ldiff (p_sigignore p) bit) in
      set_sigcatch p (put (negb (sa_handler sa =? SIG_DFL)) (p_sigcatch p) bit) in
  (p, u).

Definition bad_sig (sig : Z) : bool := (sig <=? 0) || (sig >=? NSIG) || (sig =? SIGKILL) || (sig =? SIGSTOP).

(** What sigaction and osigvec copy out. *)
Definition old_action (p : proc) (u : user) (sig : Z) : outcome sigaction :=
  h ← read (u_signal u !! Z.to_nat sig);
  m ← read (u_sigmask u !! Z.to_nat sig);
  let bit := sigmask sig in
  Ret (Sa h m (Z.lor (Z.lor (flag (has (u_sigonstack u) bit) SA_ONSTACK) (flag (negb (has (u_sigintr u) bit)) SA_RESTART))
                     (flag (has (p_flag p) SNOCLDSTOP) SA_NOCLDSTOP))).
Definition old_vec (p : proc) (u : user) (sig : Z) : outcome sigaction :=
  h ← read (u_signal u !! Z.to_nat sig);
  m ← read (u_sigmask u !! Z.to_nat sig);
  let bit := sigmask sig in
  Ret (Sa h m (Z.lor (Z.lor (flag (has (u_sigonstack u) bit) SA_ONSTACK) (flag (has (u_sigintr u) bit) SV_INTERRUPT))
                     (flag (has (p_flag p) SNOCLDSTOP) SA_NOCLDSTOP))).

(** [osa]: no pointer, or what copyout returns; [nsa]: no pointer, or what
    copyin returns, an error or the structure.  The result has the error, what
    was copied out, the process and the user structure. *)
Definition sigaction_with (get : proc -> user -> Z -> outcome sigaction) (conv : sigaction -> sigaction)
    (p : proc) (u : user) (sig : Z) (osa : option Z) (nsa : option (Z + sigaction)) : outcome (Z * option sigaction * proc * user) :=
  if bad_sig sig then Ret (EINVAL, None, p, u)
  else
    '(error, out) ← match osa with
                    | None => Ret (0, None)
                    | Some e => sa ← get p u sig; Ret (e, if e =? 0 then Some sa else None)
                    end;
    if negb (error =? 0) then Ret (error, out, p, u)
    else
      match nsa with
      | None => Ret (0, out, p, u)
      | Some (inl e) => Ret (e, out, p, u)
      | Some (inr sa) => let '(p, u) := setsigvec p u sig (conv sa) in Ret (0, out, p, u)
      end.
Definition sigaction_call := sigaction_with old_action (fun sa => sa).
Definition osigvec := sigaction_with old_vec (fun sv => Sa (sa_handler sv) (sa_mask sv) (Z.lxor (sa_flags sv) SA_RESTART)).

Definition siginit (p : proc) : proc := set_sigignore p (Z.ldiff defaultignmask (sigmask SIGCONT)).

(** [ffs] of a mask of [n] bits. *)
Fixpoint ffs_bits (n : nat) (i w : Z) : Z :=
  match n with
  | O => 0
  | S n => if Z.testbit w (i - 1) then i else ffs_bits n (i + 1) w
  end.
Definition ffs (w : Z) : Z := ffs_bits 32 1 w.

Fixpoint execsigs_loop (fuel : nat) (p : proc) (u : user) : outcome (proc * user) :=
  match fuel with
  | O => Fault
  | S fuel =>
      if p_sigcatch p =? 0 then Ret (p, u)
      else
        let nc := ffs (p_sigcatch p) in
        let mask := sigmask nc in
        let p := set_sigcatch p (Z.ldiff (p_sigcatch p) mask) in
        let p :=
          if has mask defaultignmask then
            let p := if nc =? SIGCONT then p else set_sigignore p (Z.lor (p_sigignore p) mask) in
            set_sig p (Z.ldiff (p_sig p) mask)
          else p in
        _ ← read (u_signal u !! Z.to_nat nc);
        execsigs_loop fuel p (set_signal u (<[Z.to_nat nc := SIG_DFL]> (u_signal u)))
  end.
Definition execsigs (p : proc) (u : user) : outcome (proc * user) :=
  '(p, u) ← execsigs_loop 33 p u;
  Ret (p, set_onstack (set_sigstack u (0, 0)) 0).

Definition SIG_BLOCK : Z := 1.
Definition SIG_UNBLOCK : Z := 2.
Definition SIG_SETMASK : Z := 3.

(** The result, the error and the process. *)
Definition sigprocmask (p : proc) (how mask : Z) : Z * Z * proc :=
  let retval := p_sigmask p in
  if how =? SIG_BLOCK then (retval, 0, set_sigmask p (Z.lor (p_sigmask p) (Z.ldiff mask sigcantmask)))
  else if how =? SIG_UNBLOCK then (retval, 0, set_sigmask p (Z.ldiff (p_sigmask p) mask))
  else if how =? SIG_SETMASK then (retval, 0, set_sigmask p (Z.ldiff mask sigcantmask))
  else (retval, EINVAL, p).
Definition sigpending (p : proc) : Z := p_sig p.
Definition osigblock (p : proc) (mask : Z) : Z * proc :=
  (p_sigmask p, set_sigmask p (Z.lor (p_sigmask p) (Z.ldiff mask sigcantmask))).
Definition osigsetmask (p : proc) (mask : Z) : Z * proc :=
  (p_sigmask p, set_sigmask p (Z.ldiff mask sigcantmask)).

(** What sigsuspend does before it sleeps. *)
Definition sigsuspend_mask (p : proc) (u : user) (mask : Z) : proc * user :=
  (set_sigmask (set_flag p (Z.lor (p_flag p) SOMASK)) (Z.ldiff mask sigcantmask), set_oldmask u (p_sigmask p)).

(** [oss]: no pointer, or what copyout returns; [nss]: no pointer, or what copyin
    returns. *)
Definition sigstack (u : user) (oss : option Z) (nss : option (Z + Z * Z)) : Z * option (Z * Z) * user :=
  let error := default 0 oss in
  if negb (error =? 0) then (error, None, u)
  else
    let out := match oss with Some _ => Some (u_sigstack u) | None => None end in
    match nss with
    | None => (0, out, u)
    | Some (inl e) => (e, out, u)
    | Some (inr ss) => (0, out, set_sigstack u ss)
    end.

(** The calls that change the actions and the masks of the current process. *)
Inductive sigop : Type :=
| OpAction (sig : Z) (osa : option Z) (nsa : option (Z + sigaction))
| OpVec (sig : Z) (osv : option Z) (nsv : option (Z + sigaction))
| OpMask (how mask : Z)
| OpBlock (mask : Z)
| OpSetmask (mask : Z)
| OpSuspend (mask : Z)
| OpStack (oss : option Z) (nss : option (Z + Z * Z))
| OpExec.

Definition sig_call (o : sigop) (p : proc) (u : user) : outcome (proc * user) :=
  match o with
  | OpAction sig osa nsa => '(_, p, u) ← sigaction_call p u sig osa nsa; Ret (p, u)
  | OpVec sig osv nsv => '(_, p, u) ← osigvec p u sig osv nsv; Ret (p, u)
  | OpMask how mask => let '(_, _, p) := sigprocmask p how mask in Ret (p, u)
  | OpBlock mask => let '(_, p) := osigblock p mask in Ret (p, u)
  | OpSetmask mask => let '(_, p) := osigsetmask p mask in Ret (p, u)
  | OpSuspend mask => Ret (sigsuspend_mask p u mask)
  | OpStack oss nss => let '(_, _, u) := sigstack u oss nss in Ret (p, u)
  | OpExec => execsigs p u
  end.
Fixpoint sig_calls (l : list sigop) (p : proc) (u : user) : outcome (proc * user) :=
  match l with
  | [] => Ret (p, u)
  | o :: l => '(p, u) ← sig_call o p u; sig_calls l p u
  end.

(** ** Posting a signal *)

Inductive disposition : Type := Dfl | Catch | Hold.
#[export] Instance disposition_eq_dec : EqDecision disposition.
Proof. solve_decision. Defined.

(** What will become of the signal; [None] when it is ignored. *)
Definition psig_action (p : proc) (mask : Z) : option disposition :=
  if has (p_flag p) STRC then Some Dfl
  else if has (p_sigignore p) mask then None
  else if has (p_sigmask p) mask then Some Hold
  else if has (p_sigcatch p) mask then Some Catch
  else Some Dfl.

Definition NZERO_nice (p : proc) : proc := if p_nice p >? NZERO then set_nice p NZERO else p.

(** The effect of certain signals before they are posted. *)
Definition psig_adjust (p : proc) (sig : Z) (action : disposition) : proc :=
  if sig =? SIGTERM then if has (p_flag p) STRC || negb (bool_decide (action = Dfl)) then p else NZERO_nice p
  else if sig =? SIGKILL then NZERO_nice p
  else if sig =? SIGCONT then set_sig p (Z.ldiff (p_sig p) stopsigmask)
  else if (sig =? SIGTSTP) || (sig =? SIGTTIN) || (sig =? SIGTTOU) || (sig =? SIGSTOP)
  then set_sig p (Z.ldiff (p_sig p) (sigmask SIGCONT))
  else p.

(** The labels psignal ends at. *)
Inductive label : Type := RunFast | Run | Out.

Definition modp (st : kst) (i : nat) (f : proc -> proc) : outcome kst := p ← getp st i; Ret (putp st i (f p)).

Section signals.

(** Where the slots of the process table are, and the swapper's flag. *)
Variable runout_addr : Z.
Variable proc_addr : nat -> Z.

Definition stop (st : kst) (i : nat) : outcome kst :=
  st ← modp st i (fun p => set_flag (set_stat p SSTOP) (Z.ldiff (p_flag p) SWTED));
  p ← getp st i;
  wakeup runout_addr st (proc_addr (p_pptr p)).

(** The signal that stops a sleeper does so at once; the parent is told by
    [notify]. *)
Definition psig_sleeping (notify : kst -> nat -> outcome kst) (st : kst) (i : nat) (sig : Z) (action : disposition)
    : outcome (kst * label) :=
  let mask := sigmask sig in
  p ← getp st i;
  if negb (has (p_flag p) SSINTR) then Ret (st, Out)
  else if has (p_flag p) STRC then Ret (st, Run)
  else if has mask stopsigmask then
    if negb (bool_decide (action = Dfl)) then Ret (st, RunFast)
    else if has (p_flag p) SVFORK then Ret (st, Out)
    else
      st ← modp st i (fun p => set_xstat (set_sig p (Z.ldiff (p_sig p) mask)) sig);
      pp ← getp st (p_pptr p);
      st ← (if has (p_flag pp) SNOCLDSTOP then Ret st else notify st (p_pptr p));
      st ← stop st i;
      Ret (st, Out)
  else Ret (st, RunFast).

Definition psig_stopped (st : kst) (i : nat) (sig : Z) (action : disposition) : outcome (kst * label) :=
  let mask := sigmask sig in
  p ← getp st i;
  if has (p_flag p) STRC then Ret (st, Out)
  else if sig =? SIGKILL then Ret (st, RunFast)
  else if sig =? SIGCONT then
    st ← (if bool_decide (action = Dfl) then modp st i (fun p => set_sig p (Z.ldiff (p_sig p) mask)) else Ret st);
    if bool_decide (action = Catch) then Ret (st, RunFast)
    else if p_wchan p =? 0 then Ret (st, Run)
    else st ← modp st i (fun p => set_stat p SSLEEP); Ret (st, Out)
  else if (sig =? SIGSTOP) || (sig =? SIGTSTP) || (sig =? SIGTTIN) || (sig =? SIGTTOU) then
    st ← modp st i (fun p => set_sig p (Z.ldiff (p_sig p) mask)); Ret (st, Out)
  else
    st ← (if negb (p_wchan p =? 0) && has (p_flag p) SSINTR then unsleep st i else Ret st);
    Ret (st, Out).

Definition psig_finish (st : kst) (i : nat) (l : label) : outcome kst :=
  match l with
  | RunFast =>
      st ← modp st i (fun p => if p_pri p >? PUSER then set_pri p PUSER else p);
      setrun runout_addr st i
  | Run => setrun runout_addr st i
  | Out => Ret st
  end.

(** The fuel is for the parent's SIGCHLD, which sends no further signal. *)
Fixpoint psignal_fuel (fuel : nat) (st : kst) (i : nat) (sig : Z) : outcome kst :=
  match fuel with
  | O => Fault
  | S fuel =>
      if (sig <? 0) || (sig >=? NSIG) || (sig =? 0) then Panic "psignal sig"
      else
        let mask := sigmask sig in
        p ← getp st i;
        match psig_action p mask with
        | None => Ret st
        | Some action =>
            let p := psig_adjust p sig action in
            let st := putp st i (set_sig p (Z.lor (p_sig p) mask)) in
            if bool_decide (action = Hold) && (negb (sig =? SIGCONT) || negb (bool_decide (p_stat p = SSTOP))) then Ret st
            else
              '(st, l) ← match p_stat p with
                         | SSLEEP => psig_sleeping (fun st pp => psignal_fuel fuel st pp SIGCHLD) st i sig action
                         | SSTOP => psig_stopped st i sig action
                         | _ =>
                             Ret (if bool_decide (i = u_procp st) && negb (noproc (sys st))
                                  then with_sys st (set_ast (sys st) true) else st, Out)
                         end;
              psig_finish st i l
        end
  end.
Definition psignal (st : kst) (i : nat) (sig : Z) : outcome kst := psignal_fuel 2 st i sig.

End signals.

(** ** kill *)

(** [struct pgrp], with its members in the order of [p_pgrpnxt]. *)
Record pgrp := Pgrp { pg_id : Z; pg_jobc : Z; pg_session : nat; pg_mem : list nat }.

(** The hash chains of processes and of process groups. *)
Record ids := Ids { pidhashmask : Z; pidhash : list (list nat); pgrphash : list (list nat); pgrps : list pgrp }.

Fixpoint pfind_chain (st : kst) (l : list nat) (pid : Z) : outcome (option nat) :=
  match l with
  | [] => Ret None
  | i :: l => p ← getp st i; if p_pid p =? pid then Ret (Some i) else pfind_chain st l pid
  end.
Definition PIDHASH (d : ids) (pid : Z) : nat := Z.to_nat (Z.land pid (pidhashmask d)).
Definition pfind (st : kst) (d : ids) (pid : Z) : outcome (option nat) :=
  l ← read (pidhash d !! PIDHASH d pid);
  pfind_chain st l pid.

Fixpoint pgfind_chain (d : ids) (l : list nat) (pgid : Z) : outcome (option pgrp) :=
  match l with
  | [] => Ret None
  | g :: l => pg ← read (pgrps d !! g); if pg_id pg =? pgid then Ret (Some pg) else pgfind_chain d l pgid
  end.
(** The parameter is a [pid_t], which is short. *)
Definition pgfind (d : ids) (pgid : Z) : outcome (option pgrp) :=
  let pgid := s16 pgid in
  l ← read (pgrphash d !! PIDHASH d pgid);
  pgfind_chain d l pgid.

Definition session_of (d : ids) (p : proc) : outcome nat := pg ← read (pgrps d !! p_pgrp p); Ret (pg_session pg).

Definition CANSIGNAL (d : ids) (p q : proc) (signo : Z) : outcome bool :=
  if (p_uid p =? 0) || (p_ruid p =? p_ruid q) || (p_uid p =? p_ruid q) || (p_ruid p =? p_uid q) || (p_uid p =? p_uid q)
  then Ret true
  else if signo =? SIGCONT then s ← session_of d q; s' ← session_of d p; Ret (bool_decide (s = s'))
  else Ret false.

Section kill.
Variable runout_addr : Z.
Variable proc_addr : nat -> Z.

(** The loops of killpg1; [skip_self] for the broadcast. *)
Fixpoint killpg_loop (st : kst) (d : ids) (cp : nat) (l : list nat) (signo : Z) (skip_self : bool) (f : Z) : outcome (Z * kst) :=
  match l with
  | [] => Ret (f, st)
  | i :: l =>
      p ← getp st i;
      c ← getp st cp;
      can ← (if (p_ppid p =? 0) || has (p_flag p) SSYS || skip_self && bool_decide (i = u_procp st) then Ret false
             else CANSIGNAL d c p signo);
      if negb can then killpg_loop st d cp l signo skip_self f
      else
        st ← (if signo =? 0 then Ret st else psignal runout_addr proc_addr st i signo);
        killpg_loop st d cp l signo skip_self (f + 1)
  end.

Definition killpg1 (st : kst) (d : ids) (cp : nat) (signo pgid : Z) (all : bool) : outcome (Z * kst) :=
  members ← (if all then Ret (Some (allproc st))
             else if pgid =? 0 then
               p ← getp st (u_procp st);
               pg ← read (pgrps d !! p_pgrp p);
               Ret (Some (pg_mem pg))
             else
               pg ← pgfind d pgid;
               Ret (option_map pg_mem pg));
  match members with
  | None => Ret (ESRCH, st)
  | Some l =>
      '(f, st) ← killpg_loop st d cp l signo all 0;
      Ret (if f =? 0 then ESRCH else 0, st)
  end.

Definition kill (st : kst) (d : ids) (cp : nat) (pid signo : Z) : outcome (Z * kst) :=
  if (signo <? 0) || (signo >=? NSIG) then Ret (EINVAL, st)
  else if pid >? 0 then
    o ← pfind st d pid;
    match o with
    | None => Ret (ESRCH, st)
    | Some i =>
        c ← getp st cp;
        p ← getp st i;
        can ← CANSIGNAL d c p signo;
        if negb can then Ret (EPERM, st)
        else
          st ← (if signo =? 0 then Ret st else psignal runout_addr proc_addr st i signo);
          Ret (0, st)
    end
  else if pid =? -1 then killpg1 st d cp signo 0 true
  else if pid =? 0 then killpg1 st d cp signo 0 false
  else killpg1 st d cp signo (s32 (- pid)) false.

Definition okillpg (st : kst) (d : ids) (cp : nat) (pgid signo : Z) : outcome (Z * kst) :=
  if (signo <? 0) || (signo >=? NSIG) then Ret (EINVAL, st) else killpg1 st d cp signo pgid false.

Fixpoint pgsignal_loop (st : kst) (l : list nat) (sig : Z) (checkctty : bool) : outcome kst :=
  match l with
  | [] => Ret st
  | i :: l =>
      p ← getp st i;
      st ← (if negb checkctty || has (p_flag p) SCTTY then psignal runout_addr proc_addr st i sig else Ret st);
      pgsignal_loop st l sig checkctty
  end.
Definition pgsignal (st : kst) (pg : option pgrp) (sig : Z) (checkctty : bool) : outcome kst :=
  match pg with Some pg => pgsignal_loop st (pg_mem pg) sig checkctty | None => Ret st end.
Definition gsignal (st : kst) (d : ids) (pgid sig : Z) : outcome kst :=
  if pgid =? 0 then Ret st else pg ← pgfind d pgid; pgsignal st pg sig false.

Definition trapsignal (st : kst) (u : user) (sig code : Z) : outcome (kst * user) :=
  let i := u_procp st in
  p ← getp st i;
  let mask := sigmask sig in
  if negb (has (p_flag p) STRC) && has (p_sigcatch p) mask && negb (has (p_sigmask p) mask) then
    h ← read (u_signal u !! Z.to_nat sig);
    m ← read (u_sigmask u !! Z.to_nat sig);
    Ret (putp st i (set_sigmask p (Z.lor (p_sigmask p) (Z.lor m mask))), log u (EvSend h sig (p_sigmask p) code))
  else
    st ← psignal runout_addr proc_addr st i sig;
    Ret (st, set_code u code).

End kill.

(** ** Taking a signal *)

(** Where a routine that gives up the processor goes on: issig after the stop of
    a traced process (with the mask of the signal found), or after a stop. *)
Inductive resume : Type := Traced (mask : Z) | Stopped (mask : Z).
(** The end of a piece of issig: go round the loop, return the signal, call swtch. *)
Inductive piece : Type := Again | Return (sig : Z) | Swtch (at_ : resume).

Section issig.
Variable runout_addr : Z.
Variable proc_addr : nat -> Z.
(** procxmt: does the parent's request, and says whether the child may go on. *)
Variable procxmt : kst -> nat -> outcome (bool * kst).

(** [switch (u.u_signal[sig])] and what follows it. *)
Definition issig_decide (st : kst) (u : user) (d : ids) (i : nat) (sig mask : Z) : outcome (piece * kst) :=
  p ← getp st i;
  h ← read (u_signal u !! Z.to_nat sig);
  let take := (st ← modp st i (fun p => set_sig p (Z.ldiff (p_sig p) mask)); Ret (Again, st)) in
  if h =? SIG_DFL then
    if p_ppid p =? 0 then take
    else if has mask stopsigmask then
      pg ← read (pgrps d !! p_pgrp p);
      if has (p_flag p) STRC || (pg_jobc pg =? 0) && has mask ttystopsigmask then take
      else
        st ← modp st i (fun p => set_xstat p sig);
        st ← stop runout_addr proc_addr st i;
        p ← getp st i;
        pp ← getp st (p_pptr p);
        st ← (if has (p_flag pp) SNOCLDSTOP then Ret st else psignal runout_addr proc_addr st (p_pptr p) SIGCHLD);
        Ret (Swtch (Stopped mask), st)
    else if has mask defaultignmask then take
    else Ret (Return sig, st)
  else if h =? SIG_IGN then take
  else Ret (Return sig, st).

(** Once round the loop. *)
Definition issig_round (st : kst) (u : user) (d : ids) (i : nat) : outcome (piece * kst) :=
  p ← getp st i;
  let mask := Z.ldiff (p_sig p) (p_sigmask p) in
  let mask := if has (p_flag p) SVFORK then Z.ldiff mask stopsigmask else mask in
  if mask =? 0 then Ret (Return 0, st)
  else
    let sig := ffs mask in
    let mask := sigmask sig in
    if has mask (p_sigignore p) && negb (has (p_flag p) STRC)
    then st ← modp st i (fun p => set_sig p (Z.ldiff (p_sig p) mask)); Ret (Again, st)
    else if has (p_flag p) STRC && negb (has (p_flag p) SVFORK) then
      st ← modp st i (fun p => set_xstat p sig);
      st ← psignal runout_addr proc_addr st (p_pptr p) SIGCHLD;
      st ← stop runout_addr proc_addr st i;
      Ret (Swtch (Traced mask), st)
    else issig_decide st u d i sig mask.

(** After swtch has returned. *)
Definition issig_back (st : kst) (u : user) (d : ids) (i : nat) (r : resume) : outcome (piece * kst) :=
  match r with
  | Stopped mask => st ← modp st i (fun p => set_sig p (Z.ldiff (p_sig p) mask)); Ret (Again, st)
  | Traced mask =>
      '(go, st) ← procxmt st i;
      p ← getp st i;
      if negb go && has (p_flag p) STRC then st ← stop runout_addr proc_addr st i; Ret (Swtch r, st)
      else if negb (has (p_flag p) STRC) then Ret (Again, st)
      else
        st ← modp st i (fun p => set_sig p (Z.ldiff (p_sig p) mask));
        let sig := p_xstat p in
        if sig =? 0 then Ret (Again, st)
        else
          let mask := sigmask sig in
          st ← modp st i (fun p => set_sig p (Z.lor (p_sig p) mask));
          if has (p_sigmask p) mask then Ret (Again, st) else issig_decide st u d i sig mask
  end.

(** Round the loop until it returns or gives up the processor. *)
Fixpoint issig_loop (fuel : nat) (st : kst) (u : user) (d : ids) (i : nat) : outcome (piece * kst) :=
  match fuel with
  | O => Fault
  | S fuel =>
      '(r, st) ← issig_round st u d i;
      match r with Again => issig_loop fuel st u d i | _ => Ret (r, st) end
  end.
Definition issig (st : kst) (u : user) (d : ids) : outcome (piece * kst) := issig_loop 33 st u d (u_procp st).
Definition issig_resume (st : kst) (u : user) (d : ids) (r : resume) : outcome (piece * kst) :=
  let i := u_procp st in
  '(r, st) ← issig_back st u d i r;
  match r with Again => issig_loop 33 st u d i | _ => Ret (r, st) end.

Definition CURSIG (st : kst) (u : user) (d : ids) : outcome (piece * kst) :=
  p ← getp st (u_procp st);
  if (p_sig p =? 0) || negb (has (p_flag p) STRC) && (Z.ldiff (p_sig p) (p_sigmask p) =? 0)
  then Ret (Return 0, st)
  else issig st u d.

End issig.

Definition WCOREFLAG : Z := 0x80.
Definition core_sig (sig : Z) : bool :=
  (sig =? SIGILL) || (sig =? SIGIOT) || (sig =? SIGBUS) || (sig =? SIGQUIT) || (sig =? SIGTRAP) || (sig =? SIGEMT) ||
  (sig =? SIGFPE) || (sig =? SIGSEGV) || (sig =? SIGSYS).

(** Once round the loop of psig: true when the process goes on to the next
    signal, false when it has exited.  [core_ok] is what core() finds. *)
Definition psig_round (st : kst) (u : user) (sig : Z) (core_ok : bool) : outcome (bool * kst * user) :=
  let i := u_procp st in
  p ← getp st i;
  if sig =? 0 then Panic "psig"
  else
    let mask := sigmask sig in
    let p := set_sig p (Z.ldiff (p_sig p) mask) in
    action ← read (u_signal u !! Z.to_nat sig);
    if negb (action =? SIG_DFL) then
      if (action =? SIG_IGN) || has (p_sigmask p) mask then Panic "psig action"
      else
        let returnmask := if has (p_flag p) SOMASK then u_oldmask u else p_sigmask p in
        let p := if has (p_flag p) SOMASK then set_flag p (Z.ldiff (p_flag p) SOMASK) else p in
        m ← read (u_sigmask u !! Z.to_nat sig);
        Ret (true, putp st i (set_sigmask p (Z.lor (p_sigmask p) (Z.lor m mask))), log u (EvSend action sig returnmask 0))
    else
      let '(u, sig) := if core_sig sig then (log u EvCore, if core_ok then Z.lor sig WCOREFLAG else sig) else (u, sig) in
      Ret (false, putp st i p, log u (EvExit sig)).

(** How a piece of psig ends: no more signals to take, the process has exited, or
    issig has called swtch. *)
Inductive psig_end : Type := NoMore | Exited | Away (at_ : resume).

Section psig.
Variable runout_addr : Z.
Variable proc_addr : nat -> Z.
Variable core_ok : bool.

(** [do { ... } while (sig = CURSIG(p))]. *)
Fixpoint psig_loop (fuel : nat) (st : kst) (u : user) (d : ids) (sig : Z) : outcome (psig_end * kst * user) :=
  match fuel with
  | O => Fault
  | S fuel =>
      '(go, st, u) ← psig_round st u sig core_ok;
      if negb go then Ret (Exited, st, u)
      else
        '(r, st) ← CURSIG runout_addr proc_addr st u d;
        match r with
        | Again => Fault
        | Return sig => if sig =? 0 then Ret (NoMore, st, u) else psig_loop fuel st u d sig
        | Swtch a => Ret (Away a, st, u)
        end
  end.
Definition psig (st : kst) (u : user) (d : ids) (sig : Z) : outcome (psig_end * kst * user) := psig_loop 32 st u d sig.

End psig.

(** ** Masks *)

(** Signal [s] is in the mask [m]. *)
Definition mem (m s : Z) : bool := Z.testbit m (s - 1).

Lemma mem_lor a b s : mem (Z.lor a b) s = mem a s || mem b s.
Proof. apply Z.lor_spec. Qed.
Lemma mem_ldiff a b s : mem (Z.ldiff a b) s = mem a s && negb (mem b s).
Proof. apply Z.ldiff_spec. Qed.
Lemma mem_0 s : mem 0 s = false.
Proof. apply Z.bits_0. Qed.
Lemma mem_sigmask s t : 1 <= s -> 1 <= t -> mem (sigmask s) t = (s =? t).
Proof.
  intros Hs Ht. unfold mem, sigmask. rewrite Z.shiftl_1_l, Z.pow2_bits_eqb by lia.
  destruct (Z.eqb_spec (s - 1) (t - 1)), (Z.eqb_spec s t); lia.
Qed.
Lemma mem_put b f s t : 1 <= s -> 1 <= t -> mem (put b f (sigmask s)) t = if s =? t then b else mem f t.
Proof.
  intros Hs Ht. unfold put. destruct b; [rewrite mem_lor|rewrite mem_ldiff]; rewrite mem_sigmask by lia;
    destruct (s =? t), (mem f t); done.
Qed.

Lemma has_sigmask m s : 1 <= s -> has m (sigmask s) = mem m s.
Proof.
  intros Hs. unfold has, mem, sigmask. rewrite Z.shiftl_1_l. destruct (Z.eqb_spec (Z.land m (2 ^ (s - 1))) 0) as [E|E]; cbn.
  - apply (f_equal (fun x => Z.testbit x (s - 1))) in E. rewrite Z.land_spec, Z.bits_0, Z.pow2_bits_true, andb_true_r in E by lia. done.
  - destruct (Z.testbit m (s - 1)) eqn:Et; [done|]. exfalso. apply E. apply Z.bits_inj'. intros n Hn.
    rewrite Z.land_spec, Z.bits_0, Z.pow2_bits_eqb by lia. destruct (Z.eqb_spec (s - 1) n) as [<-|]; [by rewrite Et|apply andb_false_r].
Qed.
Lemma has_comm a b : has a b = has b a.
Proof. unfold has. by rewrite Z.land_comm. Qed.
Lemma sigmask_has m s : 1 <= s -> has (sigmask s) m = mem m s.
Proof. intros Hs. rewrite has_comm. by apply has_sigmask. Qed.

Lemma ffs_bits_spec w : forall n i, 1 <= i ->
  let r := ffs_bits n i w in
  (r = 0 /\ forall t, i <= t < i + Z.of_nat n -> mem w t = false) \/
  (i <= r < i + Z.of_nat n /\ mem w r = true /\ forall t, i <= t < r -> mem w t = false).
Proof.
  induction n as [|n IH]; intros i Hi; cbn; [left; split; [done|lia]|].
  change (Z.testbit w (i - 1)) with (mem w i). destruct (mem w i) eqn:E.
  - right. split; [lia|]. split; [done|]. intros t Ht. lia.
  - destruct (IH (i + 1) ltac:(lia)) as [[H1 H2]|(H1 & H2 & H3)].
    + left. split; [done|]. intros t Ht. destruct (Z.eq_dec t i) as [->|]; [done|]. apply H2. lia.
    + right. split; [lia|]. split; [done|]. intros t Ht. destruct (Z.eq_dec t i) as [->|]; [done|]. apply H3. lia.
Qed.

(** A mask of the signals 1 to 31. *)
Definition sigs31 (w : Z) : Prop := forall t, 1 <= t -> ~ (t < 32) -> mem w t = false.

Lemma ffs_spec w : w <> 0 -> (0 <= w < 2 ^ 32 \/ sigs31 w) ->
  1 <= ffs w <= 32 /\ mem w (ffs w) = true /\ forall t, 1 <= t < ffs w -> mem w t = false.
Proof.
  intros Hw Hr. unfold ffs. destruct (ffs_bits_spec w 32 1 ltac:(lia)) as [[_ H2]|(H1 & H2 & H3)]; [|split; [lia|by split]].
  exfalso. apply Hw, Z.bits_inj'. intros n Hn. rewrite Z.bits_0.
  destruct (Z.ltb_spec n 32) as [Hn2|Hn2].
  - specialize (H2 (n + 1) ltac:(lia)). unfold mem in H2. by replace (n + 1 - 1) with n in H2 by lia.
  - destruct Hr as [Hr|Hr].
    + destruct (Z.eq_dec w 0) as [->|]; [apply Z.bits_0|]. apply Z.bits_above_log2; [lia|].
      apply Z.lt_le_trans with 32; [apply Z.log2_lt_pow2; lia|lia].
    + specialize (Hr (n + 1) ltac:(lia) ltac:(lia)). unfold mem in Hr. by replace (n + 1 - 1) with n in Hr by lia.
Qed.

(** ** The state of the actions *)

Definition safe_mask (m : Z) : Prop := mem m SIGKILL = false /\ mem m SIGSTOP = false.

(** SIGKILL and SIGSTOP are at their default and never held; a signal is in
    [p_sigcatch] when it has a handler, and in [p_sigignore] when it is to be
    ignored, by request or by default, except SIGCONT. *)
Record sig_ok (p : proc) (u : user) : Prop := SigOk {
  so_len : length (u_signal u) = 32%nat;
  so_mlen : length (u_sigmask u) = 32%nat;
  so_mask : safe_mask (p_sigmask p);
  so_old : safe_mask (u_oldmask u);
  so_umask : Forall safe_mask (u_sigmask u);
  so_act : forall s h, 1 <= s < 32 -> u_signal u !! Z.to_nat s = Some h ->
    mem (p_sigcatch p) s = negb (h =? SIG_DFL) && negb (h =? SIG_IGN) /\
    mem (p_sigignore p) s = negb (s =? SIGCONT) && ((h =? SIG_IGN) || (h =? SIG_DFL) && mem defaultignmask s);
  so_cant : u_signal u !! Z.to_nat SIGKILL = Some SIG_DFL /\ u_signal u !! Z.to_nat SIGSTOP = Some SIG_DFL;
  so_rng : sigs31 (p_sigcatch p)
}.

Lemma safe_ldiff m : safe_mask (Z.ldiff m sigcantmask).
Proof. split; rewrite mem_ldiff; apply andb_false_iff; by right. Qed.
Lemma safe_lor a b : safe_mask a -> safe_mask b -> safe_mask (Z.lor a b).
Proof. intros [A1 A2] [B1 B2]. split; rewrite mem_lor; by rewrite ?A1, ?A2, ?B1, ?B2. Qed.
Lemma safe_clear a b : safe_mask a -> safe_mask (Z.ldiff a b).
Proof. intros [A1 A2]. split; rewrite mem_ldiff; by rewrite ?A1, ?A2. Qed.
Lemma safe_sigmask s : 1 <= s -> s <> SIGKILL -> s <> SIGSTOP -> safe_mask (sigmask s).
Proof. intros H1 H2 H3. split; rewrite mem_sigmask by (unfold SIGKILL, SIGSTOP; lia); by apply Z.eqb_neq. Qed.

Lemma sigs31_put b f s : 1 <= s < 32 -> sigs31 f -> sigs31 (put b f (sigmask s)).
Proof.
  intros Hs H t Ht1 Ht2. rewrite mem_put by lia. destruct (Z.eqb_spec s t); [lia|]. by apply H.
Qed.

Lemma bad_sig_false sig : bad_sig sig = false -> 1 <= sig < 32 /\ sig <> SIGKILL /\ sig <> SIGSTOP.
Proof. unfold bad_sig, NSIG. intros H. repeat (apply orb_false_iff in H as [H ?]). rewrite Z.geb_leb in *. lia. Qed.

Lemma insert_sig (l : list Z) s t v h : length l = 32%nat -> 1 <= s < 32 -> 1 <= t < 32 ->
  <[Z.to_nat s := v]> l !! Z.to_nat t = Some h -> (s = t /\ h = v) \/ (s <> t /\ l !! Z.to_nat t = Some h).
Proof.
  intros Hl Hs Ht H. apply list_lookup_insert_Some in H as [(E & -> & _)|[E H]]; [left; split; [lia|done]|right; split; [|done]].
  intros ->. done.
Qed.

Lemma setsigvec_ok p u sig sa p' u' : sig_ok p u -> bad_sig sig = false -> setsigvec p u sig sa = (p', u') -> sig_ok p' u'.
Proof.
  intros [H1 H2 H3 H4 H5 H6 [H7 H7'] H8] Hb. destruct (bad_sig_false sig Hb) as (Hs & Hk & Ht).
  unfold setsigvec. set (p1 := if sig =? SIGCHLD then _ else _).
  assert (P1 : p_sigmask p1 = p_sigmask p /\ p_sigcatch p1 = p_sigcatch p /\ p_sigignore p1 = p_sigignore p) by (unfold p1; by destruct (_ =? _)).
  destruct P1 as (P1 & P2 & P3).
  set (ign := (sa_handler sa =? SIG_IGN) || has (sigmask sig) defaultignmask && (sa_handler sa =? SIG_DFL)).
  set (p2 := if ign then _ else _). intros [= <- <-].
  assert (Q : p_sigmask p2 = p_sigmask p /\ p_sigcatch p2 = put (negb (sa_handler sa =? SIG_DFL) && negb ign) (p_sigcatch p) (sigmask sig) /\
    forall t, 1 <= t -> mem (p_sigignore p2) t = if sig =? t then (ign && negb (sig =? SIGCONT)) || (ign && mem (p_sigignore p) t) else mem (p_sigignore p) t).
  { unfold p2. destruct ign.
    - destruct (sig =? SIGCONT); cbn; rewrite P1, P2, P3, andb_false_r; (split; [done|split; [done|]]); intros t Hx.
      + by destruct (sig =? t).
      + rewrite mem_lor, mem_sigmask by lia. destruct (sig =? t), (mem _ t); done.
    - cbn. rewrite P1, P2, P3, andb_true_r. split; [done|split; [done|]]. intros t Hx. rewrite mem_ldiff, mem_sigmask by lia.
      destruct (sig =? t); [by rewrite andb_false_r|by rewrite andb_true_r]. }
  destruct Q as (Q1 & Q2 & Q3). constructor; cbn [u_signal u_sigmask u_oldmask set_onstack set_sigintr set_umask set_signal].
  - by rewrite length_insert.
  - by rewrite length_insert.
  - by rewrite Q1.
  - done.
  - apply Forall_insert; [done|apply safe_ldiff].
  - intros s h Hx Hh. rewrite Q2, Q3, mem_put by lia. destruct (insert_sig _ _ _ _ _ H1 Hs Hx Hh) as [[<- ->]|[Hne Hh']].
    + rewrite Z.eqb_refl. unfold ign. rewrite sigmask_has by lia. destruct (u_signal u !! Z.to_nat sig) as [h0|] eqn:E0.
      2:{ apply lookup_ge_None in E0. lia. }
      destruct (H6 sig h0 Hs E0) as [_ Hi]. destruct (Z.eqb_spec sig SIGCONT) as [Ec|Ec].
      * rewrite Hi, Ec. unfold SIG_DFL, SIG_IGN. cbn. change (mem defaultignmask SIGCONT) with true. destruct (Z.eqb_spec (sa_handler sa) 1), (Z.eqb_spec (sa_handler sa) 0); done.
      * unfold SIG_DFL, SIG_IGN. destruct (Z.eqb_spec (sa_handler sa) 1), (Z.eqb_spec (sa_handler sa) 0), (mem defaultignmask sig), (mem (p_sigignore p) sig); cbn; try done; lia.
    + replace (sig =? s) with false by (symmetry; apply Z.eqb_neq; done). by apply H6.
  - split; rewrite list_lookup_insert_ne; try done; unfold SIGKILL, SIGSTOP in *; lia.
  - rewrite Q2. by apply sigs31_put.
Qed.

Lemma old_action_ret p u sig : sig_ok p u -> 1 <= sig < 32 ->
  exists h m, u_signal u !! Z.to_nat sig = Some h /\ u_sigmask u !! Z.to_nat sig = Some m.
Proof.
  intros [H1 H2 _ _ _ _ _ _] Hs. destruct (lookup_lt_is_Some_2 (u_signal u) (Z.to_nat sig)) as [h E1]; [lia|].
  destruct (lookup_lt_is_Some_2 (u_sigmask u) (Z.to_nat sig)) as [m E2]; [lia|]. by exists h, m.
Qed.

Lemma sigaction_with_ok get conv p u sig osa nsa : sig_ok p u ->
  (1 <= sig < 32 -> exists sa, get p u sig = Ret sa) ->
  exists e out p' u', sigaction_with get conv p u sig osa nsa = Ret (e, out, p', u') /\ sig_ok p' u' /\
    (bad_sig sig = true -> e = EINVAL /\ p' = p /\ u' = u).
Proof.
  intros HS Hg. unfold sigaction_with. destruct (bad_sig sig) eqn:Hb; [by eexists _, _, _, _|].
  destruct (bad_sig_false sig Hb) as (Hs & _). destruct (Hg Hs) as [sa0 Eg].
  assert (H1 : exists e out, match osa with None => Ret (0, None) | Some e => sa ← get p u sig; Ret (e, if e =? 0 then Some sa else None) end = Ret (e, out)).
  { destruct osa as [e|]; [rewrite Eg; bind|]; by eexists _, _. }
  destruct H1 as (e & out & ->). bind. destruct (negb (e =? 0)); [by eexists _, _, _, _|].
  destruct nsa as [[e'|sa]|]; [by eexists _, _, _, _| |by eexists _, _, _, _].
  destruct (setsigvec p u sig (conv sa)) as [p' u'] eqn:E. eexists _, _, p', u'. split; [done|]. split; [by eapply setsigvec_ok|done].
Qed.

Lemma insert_same_at (l : list Z) i j v : (i < length l)%nat -> l !! j = Some v -> <[i := v]> l !! j = Some v.
Proof. intros Hi Hj. destruct (decide (i = j)) as [<-|Hne]; [by rewrite list_lookup_insert_eq|by rewrite list_lookup_insert_ne]. Qed.

(** One signal set back to its default. *)
Lemma reset_ok p u s : sig_ok p u -> 1 <= s < 32 -> mem (p_sigcatch p) s = true ->
  let q := set_sigcatch p (Z.ldiff (p_sigcatch p) (sigmask s)) in
  let q := if has (sigmask s) defaultignmask then
      let q := if s =? SIGCONT then q else set_sigignore q (Z.lor (p_sigignore q) (sigmask s)) in
      set_sig q (Z.ldiff (p_sig q) (sigmask s))
    else q in
  sig_ok q (set_signal u (<[Z.to_nat s := SIG_DFL]> (u_signal u))) /\ p_sigcatch q = Z.ldiff (p_sigcatch p) (sigmask s).
Proof.
  intros [H1 H2 H3 H4 H5 H6 [H7 H7'] H8] Hs Hm. cbv zeta. set (q := if has _ _ then _ else _).
  assert (Q : p_sigmask q = p_sigmask p /\ p_sigcatch q = put false (p_sigcatch p) (sigmask s) /\
    forall t, 1 <= t -> mem (p_sigignore q) t = if s =? t then (mem defaultignmask s && negb (s =? SIGCONT)) || mem (p_sigignore p) t else mem (p_sigignore p) t).
  { unfold q. rewrite sigmask_has by lia. destruct (mem defaultignmask s), (s =? SIGCONT); cbn; (split; [done|split; [done|]]); intros t Ht; try by destruct (s =? t).
    rewrite mem_lor, mem_sigmask by lia. destruct (s =? t), (mem _ t); done. }
  destruct Q as (Q1 & Q2 & Q3). split; [|exact Q2].
  constructor; cbn [u_signal u_sigmask u_oldmask set_signal]; try done.
  - by rewrite length_insert.
  - by rewrite Q1.
  - intros t h Ht Hh. rewrite Q2, Q3, mem_put by lia. destruct (insert_sig _ _ _ _ _ H1 Hs Ht Hh) as [[<- ->]|[Hne Hh']].
    + rewrite Z.eqb_refl. destruct (u_signal u !! Z.to_nat s) as [h0|] eqn:E0; [|apply lookup_ge_None in E0; lia].
      destruct (H6 s h0 Hs E0) as [Hc Hi]. split; [done|]. rewrite Hm in Hc. symmetry in Hc. apply andb_true_iff in Hc as [Hc1 Hc2].
      rewrite Hi. apply negb_true_iff in Hc1, Hc2. rewrite Hc1, Hc2. cbn. rewrite andb_false_r, orb_false_r. apply andb_comm.
    + replace (s =? t) with false by (symmetry; apply Z.eqb_neq; done). by apply H6.
  - split; apply insert_same_at; (done || lia).
  - rewrite Q2. by apply sigs31_put.
Qed.

Lemma execsigs_loop_ok : forall fuel k p u, sig_ok p u -> 1 <= k <= 32 -> 34 <= Z.of_nat fuel + k ->
  (forall t, 1 <= t < k -> mem (p_sigcatch p) t = false) ->
  exists p' u', execsigs_loop fuel p u = Ret (p', u') /\ sig_ok p' u' /\ p_sigcatch p' = 0 /\ p_sigmask p' = p_sigmask p /\
    (forall s, 1 <= s < 32 -> mem (p_sig p') s = mem (p_sig p) s && negb (mem (p_sigcatch p) s && mem defaultignmask s)) /\
    (forall s h, 1 <= s < 32 -> u_signal u !! Z.to_nat s = Some h ->
       u_signal u' !! Z.to_nat s = Some (if mem (p_sigcatch p) s then SIG_DFL else h)).
Proof.
  induction fuel as [|fuel IH]; intros k p u HS Hk Hf Hlow; [lia|]. cbn [execsigs_loop].
  destruct (Z.eqb_spec (p_sigcatch p) 0) as [E|E].
  { exists p, u. split; [done|]. split; [done|]. split; [done|]. split; [done|]. split.
    - intros s Hs. by rewrite E, mem_0, andb_true_r.
    - intros s h Hs Hh. by rewrite E, mem_0. }
  destruct (ffs_spec (p_sigcatch p) E) as (Hr & Hm & Hl); [right; apply HS|]. set (nc := ffs (p_sigcatch p)) in *.
  assert (Hnc : nc < 32).
  { destruct (Z.lt_ge_cases nc 32) as [|Hge]; [done|]. rewrite (so_rng _ _ HS) in Hm by lia. done. }
  assert (Hge : k <= nc).
  { destruct (Z.le_gt_cases k nc) as [|Hlt]; [done|]. rewrite Hlow in Hm by lia. done. }
  clearbody nc. destruct (reset_ok p u nc HS ltac:(lia) Hm) as [HS' Ec]. cbv zeta in HS', Ec.
  destruct (lookup_lt_is_Some_2 (u_signal u) (Z.to_nat nc)) as [h Eh]; [rewrite (so_len _ _ HS); lia|].
  rewrite Eh. cbn [read]. bind. set (q := if has (sigmask nc) defaultignmask then _ else _) in *.
  assert (Q : p_sigmask q = p_sigmask p /\ forall s, 1 <= s -> mem (p_sig q) s = mem (p_sig p) s && negb ((nc =? s) && mem defaultignmask s)).
  { unfold q. rewrite sigmask_has by lia. destruct (mem defaultignmask nc) eqn:Ed, (nc =? SIGCONT); cbn; (split; [done|]); intros s Hs;
      rewrite ?mem_ldiff, ?mem_sigmask by lia; destruct (Z.eqb_spec nc s) as [<-|]; cbn; rewrite ?Ed, ?andb_true_r; done. }
  destruct Q as [Q1 Q2].
  destruct (IH (nc + 1) q (set_signal u (<[Z.to_nat nc := SIG_DFL]> (u_signal u)))) as (p' & u' & E1 & E2 & E3 & E4 & E5 & E6); [exact HS'|lia|lia| |].
  { intros t Ht. rewrite Ec, mem_ldiff, mem_sigmask by lia. destruct (Z.eqb_spec nc t) as [->|]; [apply andb_false_r|].
    by rewrite Hl by lia. }
  exists p', u'. splits; try done; [congruence|..].
  - intros s Hs. rewrite E5, Q2, Ec, mem_ldiff, mem_sigmask by lia. destruct (Z.eqb_spec nc s) as [<-|]; cbn.
    + rewrite Hm. cbn. destruct (mem (p_sig p) nc), (mem defaultignmask nc); done.
    + by rewrite !andb_true_r.
  - intros s h' Hs Hh'. destruct (Z.eqb_spec nc s) as [<-|Hne].
    + rewrite Hm. specialize (E6 nc SIG_DFL Hs). rewrite Ec, mem_ldiff, mem_sigmask, Z.eqb_refl, andb_false_r in E6 by lia.
      apply E6. cbn. apply list_lookup_insert_eq. rewrite (so_len _ _ HS). lia.
    + specialize (E6 s h' Hs). rewrite Ec, mem_ldiff, mem_sigmask in E6 by lia.
      replace (nc =? s) with false in E6 by (symmetry; by apply Z.eqb_neq). rewrite andb_true_r in E6. apply E6.
      cbn. rewrite list_lookup_insert_ne; [done|lia].
Qed.

Lemma sig_call_ok o p u : sig_ok p u -> exists p' u', sig_call o p u = Ret (p', u') /\ sig_ok p' u'.
Proof.
  intros HS.
  assert (Hm : forall m f, safe_mask m -> sig_ok (set_sigmask (set_flag p f) m) u).
  { intros m f Hm. destruct HS. by constructor. }
  assert (Hm' : forall m, safe_mask m -> sig_ok (set_sigmask p m) u).
  { intros m H. destruct HS. by constructor. }
  pose proof (so_mask _ _ HS) as H0. destruct o as [sig osa nsa|sig osv nsv|how m|m|m|m|oss nss|]; cbn [sig_call].
  - destruct (sigaction_with_ok old_action (fun sa => sa) p u sig osa nsa HS) as (e & out & p' & u' & E & H & _).
    + intros Hs. destruct (old_action_ret p u sig HS Hs) as (h & m & E1 & E2). unfold old_action. rewrite E1, E2. by eexists.
    + unfold sigaction_call. rewrite E. by exists p', u'.
  - destruct (sigaction_with_ok old_vec (fun sv => Sa (sa_handler sv) (sa_mask sv) (Z.lxor (sa_flags sv) SA_RESTART)) p u sig osv nsv HS)
      as (e & out & p' & u' & E & H & _).
    + intros Hs. destruct (old_action_ret p u sig HS Hs) as (h & m & E1 & E2). unfold old_vec. rewrite E1, E2. by eexists.
    + unfold osigvec. rewrite E. by exists p', u'.
  - unfold sigprocmask. repeat (destruct (_ =? _)); eexists _, u; (split; [reflexivity|]); try done; apply Hm'.
    + apply safe_lor; [done|apply safe_ldiff].
    + by apply safe_clear.
    + apply safe_ldiff.
  - eexists _, u. split; [reflexivity|]. apply Hm', safe_lor; [done|apply safe_ldiff].
  - eexists _, u. split; [reflexivity|]. apply Hm', safe_ldiff.
  - eexists _, _. split; [reflexivity|]. destruct (Hm (Z.ldiff m sigcantmask) (Z.lor (p_flag p) SOMASK) (safe_ldiff m)). by constructor.
  - unfold sigstack. destruct (negb _); [by exists p, u|]. destruct nss as [[e|ss]|]; eexists p, _; (split; [reflexivity|]); try done.
    destruct HS. by constructor.
  - unfold execsigs. destruct (execsigs_loop_ok 33 1 p u HS) as (p' & u' & -> & H & _); [lia|lia|lia|]. bind.
    eexists p', _. split; [reflexivity|]. destruct H. by constructor.
Qed.

(** ** The properties of actions and masks *)

(** C30: whatever calls of sigaction, sigvec, sigprocmask, sigblock, sigsetmask,
    sigsuspend, sigstack and exec a process makes, with any arguments and with
    failing copies, they return, SIGKILL and SIGSTOP keep their default action
    and are in none of its masks, and [p_sigcatch] and [p_sigignore] say of each
    signal what its action is. *)
Theorem sig_actions_wf l : forall p u, sig_ok p u -> exists p' u', sig_calls l p u = Ret (p', u') /\ sig_ok p' u'.
Proof.
  induction l as [|o l IH]; intros p u HS; cbn [sig_calls]; [by exists p, u|].
  destruct (sig_call_ok o p u HS) as (p1 & u1 & -> & H1). bind. by apply IH.
Qed.

Definition user0 : user := User (replicate 32 SIG_DFL) (replicate 32 0) 0 0 0 (0, 0) 0 [].

(** Process 0 starts so. *)
Lemma siginit_ok p : p_sigmask p = 0 -> p_sigcatch p = 0 -> sig_ok (siginit p) user0.
Proof.
  intros E1 E2. constructor; try done; cbn.
  - by rewrite E1.
  - by repeat constructor.
  - intros s h Hs Hh. rewrite E2, mem_0. apply (lookup_replicate 32) in Hh as [-> _]. split; [done|].
    rewrite mem_ldiff, mem_sigmask by (unfold SIGCONT; lia). rewrite (Z.eqb_sym SIGCONT s). cbn. apply andb_comm.
  - rewrite E2. intros t _ _. apply mem_0.
Qed.

Lemma sig_actions_wf_witness : exists p' u',
  sig_calls [OpAction 2 (Some 0) (Some (inr (Sa 0x400 (-1) 0))); OpMask 3 (-1); OpVec 20 None (Some (inr (Sa 1 0 2))); OpExec]
    (siginit (demo_proc SRUN)) user0 = Ret (p', u') /\ sig_ok p' u'.
Proof. exact (sig_actions_wf _ (siginit (demo_proc SRUN)) user0 (siginit_ok (demo_proc SRUN) eq_refl eq_refl)). Defined.

Lemma put_put f b b' bit : put b' (put b f bit) bit = put b' f bit.
Proof.
  unfold put. apply Z.bits_inj'. intros n _. destruct b, b'; rewrite ?Z.lor_spec, ?Z.ldiff_spec, ?Z.lor_spec, ?Z.ldiff_spec;
    destruct (Z.testbit f n), (Z.testbit bit n); done.
Qed.
Lemma mask_ext a b : (forall t, 1 <= t -> mem a t = mem b t) -> a = b.
Proof. intros H. apply Z.bits_inj'. intros n Hn. specialize (H (n + 1) ltac:(lia)). unfold mem in H. by replace (n + 1 - 1) with n in H by lia. Qed.
Lemma put_same b f s : 1 <= s -> b = mem f s -> put b f (sigmask s) = f.
Proof.
  intros Hs ->. apply mask_ext. intros t Ht. rewrite mem_put by lia. by destruct (Z.eqb_spec s t) as [->|].
Qed.
Lemma put_twice b b' f s : put b' (put b f (sigmask s)) (sigmask s) = put b' f (sigmask s).
Proof. apply put_put. Qed.

Lemma ldiff_safe m : safe_mask m -> Z.ldiff m sigcantmask = m.
Proof.
  intros [H1 H2]. apply mask_ext. intros t Ht. rewrite mem_ldiff. unfold sigcantmask.
  rewrite mem_lor, !mem_sigmask by (unfold SIGKILL, SIGSTOP; lia).
  destruct (Z.eqb_spec SIGKILL t) as [<-|]; [by rewrite H1|]. destruct (Z.eqb_spec SIGSTOP t) as [<-|]; [by rewrite H2|]. by rewrite andb_true_r.
Qed.

Lemma old_flags a b c :
  let f := Z.lor (Z.lor (flag a SA_ONSTACK) (flag b SA_RESTART)) (flag c SA_NOCLDSTOP) in
  has f SA_ONSTACK = a /\ (Z.land f SA_RESTART =? 0) = negb b /\ has f SA_NOCLDSTOP = c.
Proof. by destruct a, b, c. Qed.

(** What setsigvec leaves of the process. *)
Lemma setsigvec_proc p u sig sa p' u' : sig_ok p u -> bad_sig sig = false -> setsigvec p u sig sa = (p', u') ->
  (forall t, 1 <= t -> t <> sig -> mem (p_sigcatch p') t = mem (p_sigcatch p) t /\ mem (p_sigignore p') t = mem (p_sigignore p) t) /\
  p_flag p' = (if sig =? SIGCHLD then put (has (sa_flags sa) SA_NOCLDSTOP) (p_flag p) SNOCLDSTOP else p_flag p).
Proof.
  intros HS Hb. destruct (bad_sig_false sig Hb) as (Hs & _). unfold setsigvec. set (p1 := if sig =? SIGCHLD then _ else _).
  assert (P1 : p_sigcatch p1 = p_sigcatch p /\ p_sigignore p1 = p_sigignore p /\
    p_flag p1 = if sig =? SIGCHLD then put (has (sa_flags sa) SA_NOCLDSTOP) (p_flag p) SNOCLDSTOP else p_flag p) by (unfold p1; by destruct (_ =? _)).
  destruct P1 as (P1 & P2 & P3). intros [= <- _]. rewrite <- P3. destruct (_ || _).
  - destruct (sig =? SIGCONT); cbn; rewrite P1, P2; (split; [|done]); intros t Ht Hne;
      rewrite ?mem_ldiff, ?mem_lor, !mem_sigmask by lia; replace (sig =? t) with false by (symmetry; apply Z.eqb_neq; done);
      by rewrite ?andb_true_r, ?orb_false_r.
  - cbn. rewrite P1, P2. split; [|done]. intros t Ht Hne. rewrite mem_put, mem_ldiff, mem_sigmask by lia.
    replace (sig =? t) with false by (symmetry; apply Z.eqb_neq; done). by rewrite andb_true_r.
Qed.

Lemma put_flag_same b f : b = has f SNOCLDSTOP -> put b f SNOCLDSTOP = f.
Proof.
  intros ->. change SNOCLDSTOP with (sigmask 20). rewrite has_sigmask by lia. apply put_same; [lia|done].
Qed.
Lemma put_flag_twice b b' f : put b' (put b f SNOCLDSTOP) SNOCLDSTOP = put b' f SNOCLDSTOP.
Proof. change SNOCLDSTOP with (sigmask 20). apply put_twice. Qed.

(** Setting an action and then setting what sigaction had copied out before
    restores all that the first call changed, but the pending signal an ignored
    action discards: the handlers, their masks, the onstack and interrupt sets,
    p_sigcatch, p_sigignore and the flags; and what sigvec copies out is that
    with the sense of SV_INTERRUPT turned, so that it restores the action too. *)
Theorem sigaction_restore p u sig sa0 sa p1 u1 p2 u2 : sig_ok p u -> bad_sig sig = false ->
  old_action p u sig = Ret sa0 -> setsigvec p u sig sa = (p1, u1) -> setsigvec p1 u1 sig sa0 = (p2, u2) ->
  u2 = u /\ p_sigcatch p2 = p_sigcatch p /\ p_sigignore p2 = p_sigignore p /\ p_flag p2 = p_flag p /\
  (sv ← old_vec p u sig; Ret (Sa (sa_handler sv) (sa_mask sv) (Z.lxor (sa_flags sv) SA_RESTART))) = Ret sa0.
Proof.
  intros HS Hb. destruct (bad_sig_false sig Hb) as (Hs & _). destruct (old_action_ret p u sig HS Hs) as (h & m & E1 & E2).
  unfold old_action, old_vec. rewrite E1, E2. cbn [read]. bind. intros [= <-] F1 F2.
  set (a := has (u_sigonstack u) (sigmask sig)) in *. set (b := has (u_sigintr u) (sigmask sig)) in *. set (c := has (p_flag p) SNOCLDSTOP) in *.
  destruct (old_flags a (negb b) c) as (Ga & Gb & Gc). set (fl := Z.lor (Z.lor (flag a SA_ONSTACK) (flag (negb b) SA_RESTART)) (flag c SA_NOCLDSTOP)) in *.
  pose proof (setsigvec_ok _ _ _ _ _ _ HS Hb F1) as HS1. pose proof (setsigvec_ok _ _ _ _ _ _ HS1 Hb F2) as HS2.
  destruct (setsigvec_proc _ _ _ _ _ _ HS Hb F1) as (C1 & L1). destruct (setsigvec_proc _ _ _ _ _ _ HS1 Hb F2) as (C2 & L2).
  cbn [sa_flags] in L2. rewrite Gc in L2.
  assert (Eu : u2 = u).
  { apply (f_equal snd) in F1, F2. cbn [snd] in F1, F2. subst u1 u2. unfold setsigvec. cbn. rewrite Ga, Gb, !list_insert_insert_eq.
    rewrite !put_put, negb_involutive. rewrite (list_insert_id _ _ _ E1).
    rewrite (ldiff_safe m), (list_insert_id _ _ _ E2).
    - rewrite (put_same b), (put_same a) by (try lia; apply has_sigmask; lia). by destruct u.
    - pose proof (so_umask _ _ HS) as Hu. rewrite Forall_forall in Hu. apply Hu. by apply list_elem_of_lookup_2 in E2. }
  split; [exact Eu|]. rewrite Eu in HS2.
  assert (Hmem : forall t, 1 <= t -> mem (p_sigcatch p2) t = mem (p_sigcatch p) t /\ mem (p_sigignore p2) t = mem (p_sigignore p) t).
  { intros t Ht. destruct (Z.eq_dec t sig) as [->|Hne].
    - destruct (so_act _ _ HS sig h Hs E1) as [A1 A2]. destruct (so_act _ _ HS2 sig h Hs E1) as [B1 B2]. split; congruence.
    - destruct (C1 t Ht Hne), (C2 t Ht Hne). split; congruence. }
  split; [apply mask_ext; intros t Ht; by apply Hmem|]. split; [apply mask_ext; intros t Ht; by apply Hmem|]. split.
  - rewrite L2, L1. destruct (sig =? SIGCHLD); [|done]. rewrite put_flag_twice. by apply put_flag_same.
  - f_equal. f_equal. unfold fl. by destruct a, b, c.
Qed.

Lemma sigaction_restore_witness :
  let p := siginit (demo_proc SRUN) in
  let '(p1, u1) := setsigvec p user0 2 (Sa 0x400 0 SA_ONSTACK) in
  snd (setsigvec p1 u1 2 (Sa 0 0 SA_RESTART)) = user0.
Proof.
  exact (proj1 (sigaction_restore (siginit (demo_proc SRUN)) user0 2 (Sa 0 0 SA_RESTART) (Sa 0x400 0 SA_ONSTACK) _ _ _ _
    (siginit_ok (demo_proc SRUN) eq_refl eq_refl) eq_refl eq_refl eq_refl (surjective_pairing _))).
Defined.

(** exec: every signal that had a handler is at its default, every other
    action stays, what is held stays held, and of the pending signals exactly
    those that are now ignored by default are dropped. *)
Theorem execsigs_spec p u : sig_ok p u -> exists p' u', execsigs p u = Ret (p', u') /\ sig_ok p' u' /\
  p_sigcatch p' = 0 /\ p_sigmask p' = p_sigmask p /\ u_sigonstack u' = 0 /\
  (forall s, 1 <= s < 32 -> mem (p_sig p') s = mem (p_sig p) s && negb (mem (p_sigcatch p) s && mem defaultignmask s)) /\
  (forall s h, 1 <= s < 32 -> u_signal u !! Z.to_nat s = Some h ->
     u_signal u' !! Z.to_nat s = Some (if mem (p_sigcatch p) s then SIG_DFL else h)).
Proof.
  intros HS. unfold execsigs. destruct (execsigs_loop_ok 33 1 p u HS) as (p' & u' & -> & H1 & H2 & H3 & H4 & H5); [lia|lia|lia|]. bind.
  eexists p', _. split; [reflexivity|]. splits; try done. destruct H1. by constructor.
Qed.

Lemma execsigs_spec_witness : exists p' u', execsigs (siginit (demo_proc SRUN)) user0 = Ret (p', u') /\ p_sigcatch p' = 0.
Proof.
  destruct (execsigs_spec (siginit (demo_proc SRUN)) user0 (siginit_ok (demo_proc SRUN) eq_refl eq_refl)) as (p' & u' & E & _ & H & _).
  exact (ex_intro _ p' (ex_intro _ u' (conj E H))).
Defined.

End KernSig.
