(* ===== verification/SigPost.v ===== *)
(** What psignal, kill and issig do to the processes and their queues: they never
    panic on a well-formed state, leave one, and move the process as the signal
    says. *)
From stdpp Require Import base numbers list strings.
From Stdlib Require Import ZArith Lia.
From S2P Require Import Prelude Proc RunQueue KernSynch KernSig.

Module SigPost.
Import Proc RunQueue KernSynch KernSig.

(** ** Changes the queues do not see *)

(** Who a process is, and whether its sleep can be interrupted. *)
Definition ident (p : proc) : nat * nat * Z * Z * Z * Z := (p_pptr p, p_pgrp p, p_uid p, p_ruid p, p_ppid p, p_pid p).
Definition kin (p p' : proc) : Prop :=
  ident p' = ident p /\ has (p_flag p') SSINTR = has (p_flag p) SSINTR /\ has (p_flag p') SSYS = has (p_flag p) SSYS.

(** The scheduler sees no difference, but for the priority of a process that is
    on no run queue. *)
Definition tame (p q : proc) : Prop :=
  p_link q = p_link p /\ p_rlink q = p_rlink p /\ p_wchan q = p_wchan p /\ p_slptime q = p_slptime p /\ p_stat q = p_stat p /\
  loaded q = loaded p /\ (p_pri q = p_pri p \/ p_rlink p = PNULL /\ 0 <= p_pri q <= 127) /\ (-20 <= p_nice p <= 20 -> -20 <= p_nice q <= 20) /\ kin p q.

Lemma tame_refl p : tame p p.
Proof. unfold tame. splits; try done. by left. Qed.

Lemma kin_trans p q r : kin p q -> kin q r -> kin p r.
Proof. intros (A1 & A2 & A3) (B1 & B2 & B3). unfold kin. splits; congruence. Qed.

Lemma tame_trans p q r : tame p q -> tame q r -> tame p r.
Proof.
  intros (A1 & A2 & A3 & A4 & A5 & A6 & A7 & A8 & A9) (B1 & B2 & B3 & B4 & B5 & B6 & B7 & B8 & B9). unfold tame.
  splits; try congruence; [|tauto|by eapply kin_trans]. destruct B7 as [B7|[B7 B11]]; [|right; split; [congruence|done]].
  destruct A7 as [A7|[A7 A11]]; [left; congruence|right; split; [done|lia]].
Qed.

Lemma tame_stays p q : tame p q -> stays p q.
Proof.
  intros (A1 & A2 & A3 & A4 & A5 & A6 & A7 & A8 & A9). unfold stays. rewrite A1, A2, A3, A4. splits; try done.
  - destruct A7 as [->|[? _]]; [by right|by left].
  - intros H. destruct A7 as [->|[_ ?]]; lia.
Qed.

Section states.
Variable w : pstat -> Prop.
Hypothesis w_sleep : ~ w SSLEEP.

Lemma inv_putp st sl rq i p q : inv st sl rq -> procs st !! i = Some p -> stays p q ->
  (p_wchan q <> 0 -> p_stat q = SSLEEP \/ p_stat q = SSTOP) -> (p_rlink q <> PNULL -> p_stat q = SRUN /\ loaded q = true) ->
  (p_stat q = SSLEEP -> p_wchan q <> 0) -> inv (putp st i q) sl rq.
Proof.
  intros [HB Hsl Hrun Has] Hi Hs H1 H2 H3. assert (Hlt : (i < length (procs st))%nat) by (by apply lookup_lt_Some in Hi).
  assert (Hl : forall j r, procs (putp st i q) !! j = Some r -> (j = i /\ r = q) \/ procs st !! j = Some r).
  { intros j r E. cbn in E. apply list_lookup_insert_Some in E as [(<- & <- & _)|[_ E]]; auto. }
  constructor; [by eapply base_putp|..]; intros j r E; destruct (Hl j r E) as [[-> ->]|E']; auto; intros Hx; eauto.
Qed.

Lemma settled_putp st i p q : settled w st -> procs st !! i = Some p -> p_rlink q = p_rlink p -> loaded q = loaded p ->
  (i = u_procp st -> noproc (sys st) = false -> w (p_stat p) -> w (p_stat q)) -> (p_stat q = SRUN -> p_stat p = SRUN) ->
  settled w (putp st i q).
Proof.
  intros H Hi E1 E2 E3 E4 j r E. cbn in E. apply list_lookup_insert_Some in E as [(<- & <- & _)|[_ E]]; [|by apply (H j r)].
  specialize (H i p Hi). cbn [putp with_procs u_procp sys]. rewrite E1, E2. destruct (_ && _) eqn:Ec; [|tauto].
  apply andb_true_iff in Ec as [Ec1 Ec2]. apply bool_decide_eq_true in Ec1. apply negb_true_iff in Ec2. tauto.
Qed.

(** The chain: the sleep queues, the processes that run or are ready. *)
Lemma good_putp st i p q : good w st -> procs st !! i = Some p -> tame p q -> good w (putp st i q).
Proof.
  intros ((sl & rq & HI) & HS & HN) Hi HT. pose proof HT as (A1 & A2 & A3 & A4 & A5 & A6 & A7 & A8 & A9).
  pose proof HI as [HB Hsl Hrun Has]. split; [exists sl, rq; eapply inv_putp; [exact HI|exact Hi|by apply tame_stays|..]|split].
  - rewrite A3, A5. by apply (Hsl i).
  - rewrite A2, A5, A6. by apply (Hrun i).
  - rewrite A3, A5. by apply (Has i).
  - eapply settled_putp; [done|exact Hi|done|done|by rewrite A5|by rewrite A5].
  - intros j r E. cbn in E. apply list_lookup_insert_Some in E as [(<- & <- & _)|[_ E]]; [|by apply (HN j r)].
    apply A8, (HN i p Hi).
Qed.

Lemma sub_hd (a b : Z) : [a] ⊆ [a; b].
Proof. intros x Hx. apply list_elem_of_singleton in Hx as ->. apply elem_of_cons. by left. Qed.

(** ** Steps seen from the processes *)

(** A step that keeps the scheduler's state good, and who the processes are. *)
Definition adv (st st' : kst) : Prop := advances w st st' /\ Forall2 kin (procs st) (procs st').

Lemma kin_refl l : Forall2 kin l l.
Proof. apply Forall2_same_length_lookup_2; [done|]. intros i p q E1 E2. rewrite E1 in E2. by injection E2 as <-. Qed.
Lemma adv_refl st : good w st -> adv st st.
Proof. intros H. split; [by apply advances_refl|apply kin_refl]. Qed.
Lemma adv_trans a b c : adv a b -> adv b c -> adv a c.
Proof.
  intros [A1 A2] [B1 B2]. split; [by eapply advances_trans|].
  apply Forall2_same_length_lookup_2; [by rewrite (Forall2_length _ _ _ A2), (Forall2_length _ _ _ B2)|].
  intros i p r Ep Er. destruct (Forall2_lookup_l _ _ _ _ _ A2 Ep) as (q & Eq & H1).
  destruct (Forall2_lookup_l _ _ _ _ _ B2 Eq) as (r2 & Er2 & H2). rewrite Er in Er2. injection Er2 as <-. by eapply kin_trans.
Qed.
Lemma kin_cores st st' : length (procs st') = length (procs st) ->
  (forall i p, procs st !! i = Some p -> exists p' q, procs st' !! i = Some p' /\ core p' = core q /\ ident q = ident p /\ p_flag q = p_flag p) ->
  Forall2 kin (procs st) (procs st').
Proof.
  intros Hl H. apply Forall2_same_length_lookup_2; [done|]. intros i p p' E E'. destruct (H i p E) as (p2 & q & E2 & C & H1 & H2).
  rewrite E' in E2. injection E2 as <-. apply core_fields in C as C'. destruct C' as (_ & _ & _ & C4 & _). apply (f_equal ident) in C.
  change (ident p' = ident q) in C. unfold kin. splits; congruence.
Qed.
Lemma after_ident s ws i p : ident (after s ws i p) = ident p.
Proof.
  unfold after. destruct (decide _); [|done]. destruct (decide _); [|done].
  Transparent ready. unfold ready. destruct (p_slptime _ >? 1); reflexivity.
Qed.
Lemma ready_ident s p : ident (ready s p) = ident p.
Proof. unfold ready. destruct (p_slptime _ >? 1); reflexivity. Qed.
#[local] Opaque ready.

(** What a step does to the processes besides those in [who]: their signals stay,
    and so does all the rest of a process that does not wait for one of [ch]. *)
Definition frame (ch : list Z) (who : nat -> Prop) (st st' : kst) : Prop :=
  forall j q, ~ who j -> procs st !! j = Some q ->
    exists q', procs st' !! j = Some q' /\ p_sig q' = p_sig q /\ (p_wchan q ∉ ch -> core q' = core q).

Lemma kept_refl ch who st : frame ch who st st.
Proof. intros j q _ E. by exists q. Qed.

Lemma kept_trans ch who a b c : frame ch who a b -> frame ch who b c -> frame ch who a c.
Proof.
  intros H1 H2 j q Hj E. destruct (H1 j q Hj E) as (q1 & E1 & S1 & C1). destruct (H2 j q1 Hj E1) as (q2 & E2 & S2 & C2).
  exists q2. split; [done|]. split; [congruence|]. intros Hw. specialize (C1 Hw). rewrite C2; [done|].
  apply core_fields in C1 as (_ & _ & C1 & _). by rewrite C1.
Qed.

Lemma frame_mono ch ch' (who who' : nat -> Prop) st st' : (forall j, who j -> who' j) -> ch ⊆ ch' ->
  frame ch who st st' -> frame ch' who' st st'.
Proof.
  intros H Hc F j q Hj E. destruct (F j q (fun Hx => Hj (H j Hx)) E) as (q' & E' & S & C). exists q'. split; [done|]. split; [done|].
  intros Hw. apply C. intros Hx. by apply Hw, Hc.
Qed.

Lemma frame_putp st i q : frame [] (eq i) st (putp st i q).
Proof. intros j r Hj E. exists r. split; [|done]. cbn. by rewrite list_lookup_insert_ne. Qed.

Lemma kin_putp st i p q : procs st !! i = Some p -> kin p q -> Forall2 kin (procs st) (procs (putp st i q)).
Proof.
  intros Hi Hk. cbn. apply Forall2_same_length_lookup_2; [by rewrite length_insert|]. intros j r r' E E'.
  apply list_lookup_insert_Some in E' as [(<- & <- & _)|[_ E']]; [congruence|]. rewrite E in E'. by injection E' as <-.
Qed.

Lemma adv_putp st i p q : good w st -> procs st !! i = Some p -> tame p q -> adv st (putp st i q).
Proof.
  intros HG Hi HT. split; [|apply (kin_putp st i p q Hi); split; apply HT]. split; [by eapply good_putp|]. splits; try done. cbn.
  apply Forall2_same_length_lookup_2; [by rewrite length_insert|]. intros j r r' E E'.
  apply list_lookup_insert_Some in E' as [(<- & <- & _)|[_ E']]; [|left; congruence].
  rewrite Hi in E. injection E as <-. left. apply HT.
Qed.

Lemma modp_ok st i p f : procs st !! i = Some p -> modp st i f = Ret (putp st i (f p)).
Proof. intros Hi. unfold modp, getp. by rewrite Hi. Qed.

Lemma putp_at st i p q : procs st !! i = Some p -> procs (putp st i q) !! i = Some q.
Proof. intros Hi. cbn. apply list_lookup_insert_eq. by apply lookup_lt_Some in Hi. Qed.

Lemma getp_at st i p : procs st !! i = Some p -> getp st i = Ret p.
Proof. intros H. unfold getp. by rewrite H. Qed.

(** ** setrun and its relatives *)

(** ** What a signal does to its process *)

Definition posted (p : proc) (sig : Z) (a : disposition) : proc :=
  let p := psig_adjust p sig a in set_sig p (Z.lor (p_sig p) (sigmask sig)).

(** A pending signal that the new one takes back: a stop by SIGCONT, and SIGCONT by
    a stop. *)
Definition discards (sig t : Z) : bool := (sig =? SIGCONT) && mem stopsigmask t || mem stopsigmask sig && (t =? SIGCONT).

(** Is [sig] still pending afterwards, and in which state is the process? *)
Definition psig_pending (p : proc) (sig : Z) (a : disposition) : bool :=
  match p_stat p with
  | SSLEEP =>
      negb (mem stopsigmask sig && bool_decide (a = Dfl) && has (p_flag p) SSINTR && negb (has (p_flag p) STRC) && negb (has (p_flag p) SVFORK))
  | SSTOP =>
      has (p_flag p) STRC ||
      (if sig =? SIGCONT then negb (bool_decide (a = Dfl)) else bool_decide (a = Hold) || negb (mem stopsigmask sig))
  | _ => true
  end.
Definition psig_stat (p : proc) (sig : Z) (a : disposition) : pstat :=
  match p_stat p with
  | SSLEEP =>
      if bool_decide (a = Hold) || negb (has (p_flag p) SSINTR) then SSLEEP
      else if has (p_flag p) STRC then SRUN
      else if mem stopsigmask sig && bool_decide (a = Dfl) then (if has (p_flag p) SVFORK then SSLEEP else SSTOP)
      else SRUN
  | SSTOP =>
      if has (p_flag p) STRC then SSTOP
      else if sig =? SIGKILL then (if bool_decide (a = Hold) then SSTOP else SRUN)
      else if sig =? SIGCONT then (if bool_decide (a = Catch) || (p_wchan p =? 0) then SRUN else SSLEEP)
      else SSTOP
  | s => s
  end.

Record psig_effect (p : proc) (sig : Z) (a : disposition) (p' : proc) : Prop := Effect {
  e_stat : p_stat p' = psig_stat p sig a;
  e_pending : mem (p_sig p') sig = psig_pending p sig a;
  e_others : forall t, 1 <= t -> t <> sig -> mem (p_sig p') t = mem (p_sig p) t && negb (discards sig t);
  e_run : p_stat p <> SRUN -> p_stat p' = SRUN -> p_wchan p' = 0 /\ (has (p_flag p) STRC = false -> sig <> SIGCONT -> p_pri p' <= PUSER)
}.

Lemma mem_stop s : 1 <= s -> mem stopsigmask s = (s =? SIGSTOP) || ((s =? SIGTSTP) || (s =? SIGTTIN) || (s =? SIGTTOU)).
Proof.
  intros Hs. unfold stopsigmask, ttystopsigmask. rewrite !mem_lor, !mem_sigmask by (unfold SIGSTOP, SIGTSTP, SIGTTIN, SIGTTOU; lia).
  by rewrite !(Z.eqb_sym s).
Qed.

Lemma nice_fields p : p_sig (NZERO_nice p) = p_sig p /\ tame p (NZERO_nice p) /\ p_flag (NZERO_nice p) = p_flag p.
Proof.
  unfold NZERO_nice, NZERO. destruct (Z.gtb_spec (p_nice p) 0); [|split; [done|split; [apply tame_refl|done]]].
  split; [done|split; [|done]]. unfold tame. cbn. splits; try done; by left.
Qed.

Lemma sig_tame p v : tame p (set_sig p v).
Proof. unfold tame. splits; try done. by left. Qed.

Lemma posted_ok p sig a : 1 <= sig -> tame p (posted p sig a) /\ p_flag (posted p sig a) = p_flag p /\
  p_pptr (posted p sig a) = p_pptr p /\
  mem (p_sig (posted p sig a)) sig = true /\
  forall t, 1 <= t -> t <> sig -> mem (p_sig (posted p sig a)) t = mem (p_sig p) t && negb (discards sig t).
Proof.
  intros Hs. unfold posted. set (q := psig_adjust p sig a). cbn [set_sig p_sig p_flag p_pptr].
  assert (Q : tame p q /\ p_flag q = p_flag p /\ p_pptr q = p_pptr p /\ forall t, 1 <= t -> t <> sig -> mem (p_sig q) t = mem (p_sig p) t && negb (discards sig t)).
  { destruct (nice_fields p) as (N1 & N2 & N3). assert (N4 : p_pptr (NZERO_nice p) = p_pptr p) by (unfold NZERO_nice; by destruct (_ >? _)).
    unfold q, psig_adjust, discards. rewrite (mem_stop sig) by lia.
    destruct (Z.eqb_spec sig SIGTERM) as [->|H1].
    { cbn. destruct (_ || _); [split; [apply tame_refl|]|split; [done|]]; (split; [done|]); (split; [done|]); intros t _ _; by rewrite ?N1, andb_true_r. }
    destruct (Z.eqb_spec sig SIGKILL) as [->|H2].
    { cbn. split; [done|]. split; [done|]. split; [done|]. intros t _ _. by rewrite N1, andb_true_r. }
    destruct (Z.eqb_spec sig SIGCONT) as [->|H3].
    { split; [apply sig_tame|]. split; [done|]. split; [done|]. intros t Ht Hne. cbn [set_sig p_sig]. rewrite mem_ldiff. cbn. by rewrite orb_false_r. }
    destruct (_ || _ || _ || _) eqn:Hb.
    - replace ((sig =? SIGSTOP) || ((sig =? SIGTSTP) || (sig =? SIGTTIN) || (sig =? SIGTTOU))) with true.
      2:{ rewrite orb_comm. by rewrite Hb. }
      split; [apply sig_tame|]. split; [done|]. split; [done|]. intros t Ht Hne. cbn [set_sig p_sig]. rewrite mem_ldiff, mem_sigmask by (unfold SIGCONT; lia).
      by rewrite (Z.eqb_sym SIGCONT t).
    - replace ((sig =? SIGSTOP) || ((sig =? SIGTSTP) || (sig =? SIGTTIN) || (sig =? SIGTTOU))) with false.
      2:{ rewrite orb_comm. by rewrite Hb. }
      split; [apply tame_refl|]. split; [done|]. split; [done|]. intros t Ht Hne. by rewrite andb_true_r. }
  destruct Q as (Q1 & Q2 & Q3 & Q4). split; [eapply tame_trans; [exact Q1|apply sig_tame]|]. split; [done|]. split; [done|]. split.
  - rewrite mem_lor, mem_sigmask, Z.eqb_refl by lia. apply orb_true_r.
  - intros t Ht Hne. rewrite mem_lor, mem_sigmask, Q4 by lia. replace (sig =? t) with false by (symmetry; apply Z.eqb_neq; congruence).
    apply orb_false_r.
Qed.

Section posting.
Variable runout_addr : Z.
Variable proc_addr : nat -> Z.

(** A process that may be started is not the running one. *)
Definition off_cpu (st : kst) (i : nat) (p : proc) : Prop := i = u_procp st -> ~ w (p_stat p).

(** A process that was started is on a run queue when it was, or when it is the
    one started, or one of the woken, and is in core. *)
Lemma started_settled st sl rq i p ws st' sl' rq' : inv st sl rq -> settled w st -> procs st !! i = Some p ->
  off_cpu st i p -> started runout_addr st sl rq i p ws st' sl' rq' -> settled w st'.
Proof.
  intros HI H Hi Hcpu S j r' Ej. pose proof (b_rq _ _ _ (i_base _ _ _ HI)) as Q.
  pose proof (b_rq _ _ _ (i_base _ _ _ (s_inv _ _ _ _ _ _ _ _ _ _ S))) as Q'.
  destruct (s_oth _ _ _ _ _ _ _ _ _ _ S) as (_ & -> & (_ & -> & _)). pose proof (s_rq _ _ _ _ _ _ _ _ _ _ S) as Srq.
  destruct (lookup_lt_is_Some_2 (procs st) j) as [r Er].
  { rewrite <- (s_len _ _ _ _ _ _ _ _ _ _ S). by apply lookup_lt_Some in Ej. }
  assert (Hring : forall k, (k < 32)%nat -> j ∈ rq' k -> p_rlink r' <> PNULL).
  { intros k Hk Hx. destruct (rq_home _ _ Q' k j Hk Hx) as (q & Eq & Hq & _). congruence. }
  destruct (decide (j = i)) as [->|Hne].
  - rewrite Hi in Er. injection Er as <-. destruct (s_self _ _ _ _ _ _ _ _ _ _ S) as (p' & E' & C).
    rewrite Ej in E'. injection E' as <-. apply core_fields in C as (C1 & _ & _ & C4 & _). rewrite ready_flag in C4. cbn in C4.
    specialize (H i p Hi). assert (Hc : bool_decide (i = u_procp st) && negb (noproc (sys st)) = false).
    { destruct (_ && _) eqn:Ec; [|done]. apply andb_true_iff in Ec as [Ec1 Ec2]. apply bool_decide_eq_true in Ec1. apply negb_true_iff in Ec2.
      destruct H as [_ H]. by destruct (Hcpu Ec1). }
    rewrite Hc. intros _ Hl. pose proof (b_pri _ _ _ (i_base _ _ _ HI) i p Hi) as [Hpri _]. pose proof (qindex_lt _ Hpri) as Hk.
    apply (Hring _ Hk). rewrite (Srq _ Hk). unfold loaded in *. rewrite <- C4, Hl, bool_decide_eq_true_2 by done. cbn.
    apply elem_of_app. right. apply elem_of_cons. by left.
  - destruct (s_core _ _ _ _ _ _ _ _ _ _ S j r Hne Er) as (r2 & E2 & C). rewrite Ej in E2. injection E2 as <-.
    apply core_fields in C as (C1 & _ & _ & C4 & _). rewrite after_stat in C1. rewrite after_flag in C4. specialize (H j r Er).
    destruct (_ && _).
    + destruct H as [H1 H2]. assert (Hs : p_stat r <> SSLEEP) by (intros E; by rewrite E in H2).
      rewrite decide_False in C1 by tauto. split; [|by rewrite C1]. destruct (decide (p_rlink r' = PNULL)) as [|Hn]; [done|]. exfalso.
      destruct (rq_linked _ _ Q' j r' Ej Hn) as (k & Hk & Hx). rewrite (Srq k Hk), !elem_of_app, list_elem_of_filter in Hx.
      destruct Hx as [Hx|[Hx|[Hx _]]].
      * destruct (rq_home _ _ Q k j Hk Hx) as (q & Eq & Hq & _). congruence.
      * destruct (_ && _); [apply list_elem_of_singleton in Hx; congruence|by apply not_elem_of_nil in Hx].
      * unfold joins in Hx. rewrite Er in Hx. rewrite bool_decide_eq_false_2 in Hx by done. done.
    + unfold loaded in *. rewrite C1, C4. intros Hs Hl. destruct (decide (j ∈ ws /\ p_stat r = SSLEEP)) as [[Hw Hss]|Hn].
      * pose proof (b_pri _ _ _ (i_base _ _ _ HI) j r Er) as [Hpri _]. pose proof (qindex_lt _ Hpri) as Hk.
        apply (Hring _ Hk). rewrite (Srq _ Hk), !elem_of_app, list_elem_of_filter. right. right. split; [|done]. unfold joins, loaded.
        by rewrite Er, Hss, Hl, !bool_decide_eq_true_2.
      * specialize (H Hs Hl). destruct (rq_linked _ _ Q j r Er H) as (k & Hk & Hx). apply (Hring k Hk). rewrite (Srq k Hk).
        apply elem_of_app. by left.
Qed.

Lemma after_sig s ws i p : p_sig (after s ws i p) = p_sig p.
Proof.
  unfold after. destruct (decide _); [|done]. destruct (decide _); [|done].
  Transparent ready. unfold ready. destruct (p_slptime _ >? 1); reflexivity.
Qed.
Lemma ready_keeps s p : p_sig (ready s p) = p_sig p /\ p_nice (ready s p) = p_nice p /\ p_pri (ready s p) = p_pri p.
Proof. unfold ready. destruct (p_slptime p >? 1); by splits. Qed.
#[local] Opaque ready.

Lemma after_off s ws i p (ch : list Z) : (i ∈ ws -> p_wchan p ∈ ch) -> p_wchan p ∉ ch -> after s ws i p = p.
Proof. intros H Hn. apply after_out. intros Hx. auto. Qed.

Lemma setrun_adv st i p : good w st -> procs st !! i = Some p -> p_stat p = SSLEEP \/ p_stat p = SSTOP \/ p_stat p = SIDL ->
  off_cpu st i p -> exists st' p', setrun runout_addr st i = Ret st' /\ adv st st' /\ procs st' !! i = Some p' /\
    core p' = core (ready (sys st) (set_wchan p 0)) /\ frame [runout_addr] (eq i) st st'.
Proof.
  intros ((sl & rq & HI) & HS & HN) Hi Hp Hcpu. pose proof (setrun_ok runout_addr st sl rq i p HI Hi) as H.
  assert (Hb : bool_decide (p_stat p = SSLEEP) || bool_decide (p_stat p = SSTOP) || bool_decide (p_stat p = SIDL) = true).
  { by destruct Hp as [->|[->| ->]]. }
  rewrite Hb in H. destruct H as (ws & st' & sl' & rq' & E & S). destruct (s_self _ _ _ _ _ _ _ _ _ _ S) as (p' & E' & C).
  destruct (s_oth _ _ _ _ _ _ _ _ _ _ S) as (O1 & O2 & O3).
  assert (Hcase : forall j r, procs st !! j = Some r -> exists r', procs st' !! j = Some r' /\
    (j = i /\ core r' = core (ready (sys st) (set_wchan r 0)) \/ j <> i /\ core r' = core (after (sys st) ws j r))).
  { intros j r Er. destruct (decide (j = i)) as [->|Hne].
    - rewrite Hi in Er. injection Er as <-. exists p'. auto.
    - destruct (s_core _ _ _ _ _ _ _ _ _ _ S j r Hne Er) as (r' & E2 & C2). exists r'. auto. }
  assert (HF : Forall2 (fun p p' => p_wchan p' = p_wchan p \/ p_wchan p' = 0) (procs st) (procs st') /\ nice_ok st').
  { split.
    - apply Forall2_same_length_lookup_2; [symmetry; apply (s_len _ _ _ _ _ _ _ _ _ _ S)|]. intros j r r' Er Er'.
      destruct (Hcase j r Er) as (r2 & E2 & H). rewrite Er' in E2. injection E2 as <-.
      destruct H as [[_ Hc]|[_ Hc]]; apply core_fields in Hc as (_ & _ & -> & _); [right; by rewrite ready_wchan|].
      destruct (decide (j ∈ ws)); [right; by apply after_in_wchan|left; by rewrite after_out].
    - intros j r' Er'. destruct (lookup_lt_is_Some_2 (procs st) j) as [r Er].
      { rewrite <- (s_len _ _ _ _ _ _ _ _ _ _ S). by apply lookup_lt_Some in Er'. }
      destruct (Hcase j r Er) as (r2 & E2 & H). rewrite Er' in E2. injection E2 as <-. pose proof (HN j r Er) as Hn.
      destruct H as [[_ Hc]|[_ Hc]]; apply (f_equal p_nice) in Hc; change (p_nice r' = p_nice (ready (sys st) (set_wchan r 0))) in Hc || change (p_nice r' = p_nice (after (sys st) ws j r)) in Hc; rewrite Hc.
      + destruct (ready_keeps (sys st) (set_wchan r 0)) as (_ & -> & _). exact Hn.
      + by rewrite after_nice. }
  destruct HF as [HF HN'].
  assert (HK : Forall2 kin (procs st) (procs st')).
  { apply kin_cores; [apply (s_len _ _ _ _ _ _ _ _ _ _ S)|]. intros j r Er. destruct (Hcase j r Er) as (r' & E2 & [[_ Hc]|[_ Hc]]).
    - exists r', (ready (sys st) (set_wchan r 0)). rewrite ready_ident, ready_flag. by splits.
    - exists r', (after (sys st) ws j r). rewrite after_ident, after_flag. by splits. }
  exists st', p'. split; [done|]. split; [|split; [done|split; [done|]]].
  - split; [|done]. split; [|splits; try done; apply O3]. split; [exists sl', rq'; apply (s_inv _ _ _ _ _ _ _ _ _ _ S)|]. split; [|done].
    by eapply started_settled.
  - intros j r Hj Er. destruct (Hcase j r Er) as (r' & E2 & [[-> _]|[_ Hc]]); [done|]. exists r'. split; [done|].
    pose proof (core_fields _ _ Hc) as (_ & _ & _ & _ & _ & _ & _ & Hsig). split; [by rewrite Hsig, after_sig|].
    intros Hw. rewrite Hc. f_equal. apply (after_off _ _ _ _ [runout_addr]); [|done]. intros Hx.
    destruct (s_ws _ _ _ _ _ _ _ _ _ _ S j Hx) as (_ & Hon & _). unfold on in Hon. rewrite Er in Hon. apply Z.eqb_eq in Hon.
    rewrite Hon. apply elem_of_cons. by left.
Qed.

(** wakeup, process by process. *)
Lemma wakeup_step st chan : good w st -> exists st' ws, wakeup runout_addr st chan = Ret st' /\ adv st st' /\
  frame [runout_addr; chan] (fun _ => False) st st' /\
  forall i p, procs st !! i = Some p -> exists p', procs st' !! i = Some p' /\ core p' = core (after (sys st) ws i p).
Proof.
  intros HG. destruct (wakeup_advances' w w_sleep runout_addr st chan HG) as (st' & E & A & _).
  destruct HG as ((sl & rq & HI) & _). destruct (wakeup_ok runout_addr st sl rq chan HI) as (ws & st2 & sl' & rq' & E2 & W & K).
  rewrite E in E2. injection E2 as <-. exists st', ws. split; [done|]. split.
  { split; [done|]. apply kin_cores; [apply (w_len _ _ _ _ _ _ _ W)|]. intros i p Ep. destruct (w_core _ _ _ _ _ _ _ W i p Ep) as (p' & E' & C).
    exists p', (after (sys st) ws i p). rewrite after_ident, after_flag. by splits. } split; [|apply (w_core _ _ _ _ _ _ _ W)].
  intros j q _ Eq. destruct (w_core _ _ _ _ _ _ _ W j q Eq) as (q' & E' & C). exists q'. split; [done|].
  pose proof (core_fields _ _ C) as (_ & _ & _ & _ & _ & _ & _ & Hsig). split; [by rewrite Hsig, after_sig|].
  intros Hw. rewrite C. f_equal. apply (after_off _ _ _ _ [runout_addr; chan]); [|done]. intros Hx.
  destruct (k_chan _ _ _ _ _ _ K j Hx) as [Hon|Hon]; unfold on in Hon; rewrite Eq in Hon; apply Z.eqb_eq in Hon; rewrite Hon;
    rewrite !elem_of_cons; auto.
Qed.

(** A change of state that leaves the process off the run queues. *)
Lemma adv_stat st i p q : good w st -> procs st !! i = Some p -> stays p q -> p_rlink p = PNULL -> loaded q = loaded p ->
  p_nice q = p_nice p -> (i = u_procp st -> w (p_stat p) -> w (p_stat q)) -> p_stat q <> SRUN -> (p_wchan q <> 0 -> p_stat q = SSLEEP \/ p_stat q = SSTOP) ->
  (p_stat q = SSLEEP -> p_wchan q <> 0) -> kin p q -> adv st (putp st i q).
Proof.
  intros ((sl & rq & HI) & HS & HN) Hi Hst Hr Hl Hn Hw Hq H1 H2 Hk. pose proof Hst as (R1 & R2 & _). split; [|by apply (kin_putp st i p q)].
  split; [split; [exists sl, rq; eapply inv_putp; [exact HI|exact Hi|exact Hst|exact H1| |exact H2]; congruence|split]|].
  - eapply settled_putp; [done|exact Hi|congruence|done| |done]. intros E1 _. by apply Hw.
  - intros j r E. cbn in E. apply list_lookup_insert_Some in E as [(<- & <- & _)|[_ E]]; [rewrite Hn; by apply (HN i p)|by apply (HN j r)].
  - splits; try done. cbn. apply Forall2_same_length_lookup_2; [by rewrite length_insert|]. intros j r r' E E'.
    apply list_lookup_insert_Some in E' as [(<- & <- & _)|[_ E']]; [|left; congruence].
    rewrite Hi in E. injection E as <-. left. exact R2.
Qed.

Lemma unsleep_adv st i p : good w st -> procs st !! i = Some p -> p_stat p = SSTOP ->
  exists st', unsleep st i = Ret st' /\ adv st st' /\ procs st' !! i = Some (set_wchan p 0) /\ frame [] (eq i) st st'.
Proof.
  intros ((sl & rq & HI) & HS & HN) Hi Hp. pose proof HI as [HB Hsl Hrun Has].
  destruct (unsleep_ok st sl rq i p HB Hi) as (st1 & E & HB1 & C1 & O1 & P1). destruct O1 as (O1 & O2 & O3 & O4 & O5).
  assert (Hc : forall j r, j <> i -> procs st !! j = Some r -> exists r', procs st1 !! j = Some r' /\ core r' = core r).
  { intros j r Hne Er. apply (f_equal (fun l => l !! j)) in C1. unfold cores in C1. rewrite list_lookup_insert_ne, !list_lookup_fmap, Er in C1 by done.
    destruct (procs st1 !! j) as [r'|]; [|done]. exists r'. split; [done|]. by apply (inj Some) in C1. }
  assert (Hlen : length (procs st1) = length (procs st)).
  { apply (f_equal length) in C1. unfold cores in C1. by rewrite length_insert, !length_fmap in C1. }
  assert (Hb : forall j r', procs st1 !! j = Some r' -> exists r, procs st !! j = Some r /\
    (j = i /\ r = p /\ r' = set_wchan p 0 \/ j <> i /\ core r' = core r)).
  { intros j r' Er'. destruct (lookup_lt_is_Some_2 (procs st) j) as [r Er]; [rewrite <- Hlen; by apply lookup_lt_Some in Er'|].
    exists r. split; [done|]. destruct (decide (j = i)) as [->|Hne]; [left|right].
    - rewrite P1 in Er'. injection Er' as <-. rewrite Hi in Er. by injection Er as <-.
    - destruct (Hc j r Hne Er) as (r2 & E2 & C2). rewrite Er' in E2. injection E2 as <-. by split. }
  assert (Hring : forall j r r', procs st !! j = Some r -> procs st1 !! j = Some r' -> p_rlink r' <> PNULL <-> p_rlink r <> PNULL).
  { intros j r r' Er Er'. split; intros Hn.
    - destruct (rq_linked _ _ (b_rq _ _ _ HB1) j r' Er' Hn) as (k & Hk & Hx). destruct (rq_home _ _ (b_rq _ _ _ HB) k j Hk Hx) as (q & Eq & Hq & _). congruence.
    - destruct (rq_linked _ _ (b_rq _ _ _ HB) j r Er Hn) as (k & Hk & Hx). destruct (rq_home _ _ (b_rq _ _ _ HB1) k j Hk Hx) as (q & Eq & Hq & _). congruence. }
  assert (HK : Forall2 kin (procs st) (procs st1)).
  { apply kin_cores; [done|]. intros j r Er. destruct (decide (j = i)) as [->|Hne].
    - rewrite Hi in Er. injection Er as <-. exists (set_wchan p 0), (set_wchan p 0). by splits.
    - destruct (Hc j r Hne Er) as (r' & E' & C). exists r', r. by splits. }
  exists st1. split; [done|]. split; [|split; [done|]].
  - split; [|done]. split; [split; [exists (rem sl i), rq; constructor; [done|..]|split]|splits; try done; [by rewrite O5|by rewrite O5|]].
    + intros j r' Er' Hw. destruct (Hb j r' Er') as (r & Er & [(-> & -> & ->)|[Hne C]]); [done|].
      apply core_fields in C as (C2 & _ & C3 & _). rewrite C2. rewrite C3 in Hw. by eapply Hsl.
    + intros j r' Er' Hn. destruct (Hb j r' Er') as (r & Er & H). apply (Hring j r r' Er Er') in Hn. destruct (Hrun j r Er Hn) as [H1 H2].
      destruct H as [(-> & -> & ->)|[Hne C]]; [done|]. apply core_fields in C as (C2 & _ & _ & C4 & _). unfold loaded in *. by rewrite C2, C4.
    + intros j r' Er' Hsp. destruct (Hb j r' Er') as (r & Er & [(-> & -> & ->)|[Hne C]]); [cbn in Hsp; congruence|].
      apply core_fields in C as (C2 & _ & C3 & _). rewrite C3. rewrite C2 in Hsp. by eapply Has.
    + intros j r' Er'. destruct (Hb j r' Er') as (r & Er & H). specialize (HS j r Er). rewrite O4, O5. pose proof (Hring j r r' Er Er') as Hn.
      assert (C : p_stat r' = p_stat r /\ p_flag r' = p_flag r) by (destruct H as [(-> & -> & ->)|[_ C]]; [done|apply core_fields in C; tauto]).
      destruct C as [C2 C4]. unfold loaded in *. rewrite C2, C4. destruct (_ && _); [|tauto]. destruct HS as [H1 H2]. split; [|done].
      destruct (decide (p_rlink r' = PNULL)) as [|Hx]; [done|]. apply Hn in Hx. done.
    + intros j r' Er'. destruct (Hb j r' Er') as (r & Er & [(-> & -> & ->)|[_ C]]); [by apply (HN i p)|].
      apply (f_equal p_nice) in C. change (p_nice r' = p_nice r) in C. rewrite C. by apply (HN j r).
    + apply Forall2_same_length_lookup_2; [done|]. intros j r r' Er Er'. destruct (Hb j r' Er') as (r2 & E2 & H). rewrite Er in E2. injection E2 as <-.
      destruct H as [(-> & -> & ->)|[_ C]]; [by right|]. apply core_fields in C as (_ & _ & C & _). by left.
  - intros j r Hj Er. destruct (Hc j r) as (r' & Er' & C); [congruence|done|]. exists r'. split; [done|].
    pose proof (core_fields _ _ C) as (_ & _ & _ & _ & _ & _ & _ & Hsig). by split.
Qed.

Lemma off_run st i p : good w st -> procs st !! i = Some p -> p_stat p <> SRUN -> p_rlink p = PNULL.
Proof.
  intros ((sl & rq & HI) & _) Hi Hp. destruct (decide (p_rlink p = PNULL)) as [|Hn]; [done|]. by destruct (i_run _ _ _ HI i p Hi Hn).
Qed.

Lemma stop_ok st i p : good w st -> procs st !! i = Some p -> p_rlink p = PNULL -> (i = u_procp st -> w (p_stat p) -> w SSTOP) ->
  exists st' p', stop runout_addr proc_addr st i = Ret st' /\ adv st st' /\ procs st' !! i = Some p' /\
    p_stat p' = SSTOP /\ p_sig p' = p_sig p /\ p_xstat p' = p_xstat p /\ frame [runout_addr; proc_addr (p_pptr p)] (eq i) st st'.
Proof.
  intros HG Hi Hr Hcpu. unfold stop. rewrite (modp_ok st i p _ Hi). bind. set (q := set_flag (set_stat p SSTOP) _).
  assert (Hf : forall b, 1 <= b -> b <> 6 -> has (p_flag q) (sigmask b) = has (p_flag p) (sigmask b)).
  { intros b Hb1 Hb2. rewrite !has_sigmask by lia. cbn [q set_flag p_flag]. change SWTED with (sigmask 6). rewrite mem_ldiff, mem_sigmask by lia.
    replace (6 =? b) with false by (symmetry; apply Z.eqb_neq; congruence). apply andb_true_r. }
  assert (Hl : loaded q = loaded p) by (apply (Hf 1); lia).
  assert (Hk : kin p q) by (split; [done|split; [apply (Hf 7)|apply (Hf 2)]; lia]).
  assert (A1 : adv st (putp st i q)).
  { apply (adv_stat st i p q HG Hi); try done.
    - unfold stays. splits; try done; by left.
    - intros _. by right. }
  rewrite (getp_at (putp st i q) i q) by (by eapply putp_at). bind.
  destruct (wakeup_step (putp st i q) (proc_addr (p_pptr q))) as (st' & ws & E & A2 & F & C); [apply A1|].
  destruct (C i q) as (p' & E' & C'); [by eapply putp_at|]. exists st', p'. split; [done|].
  split; [by eapply adv_trans|]. split; [done|]. pose proof (core_fields _ _ C') as (C1 & _ & _ & _ & _ & _ & _ & C8).
  assert (Hs : after (sys (putp st i q)) ws i q = if decide (i ∈ ws) then set_wchan q 0 else q).
  { unfold after. destruct (decide (i ∈ ws)); [|done]. by rewrite decide_False. }
  rewrite Hs in *. splits.
  - rewrite C1. by destruct (decide _).
  - rewrite C8. by destruct (decide _).
  - apply (f_equal p_xstat) in C'. change (p_xstat p' = p_xstat (if decide (i ∈ ws) then set_wchan q 0 else q)) in C'. rewrite C'. by destruct (decide _).
  - apply (kept_trans _ _ _ (putp st i q)).
    + apply (frame_mono [] _ (eq i) _ _ _ (fun j H => H) (list_subseteq_nil _)), frame_putp.
    + apply (frame_mono _ _ (fun _ => False) _ _ _ (fun j H => match H with end) (reflexivity _)). exact F.
Qed.

(** *** The ends of psignal *)


Lemma run_ok st i q (fast : bool) : good w st -> procs st !! i = Some q -> p_stat q = SSLEEP \/ p_stat q = SSTOP -> off_cpu st i q ->
  exists st' p', psig_finish runout_addr st i (if fast then RunFast else Run) = Ret st' /\ adv st st' /\ procs st' !! i = Some p' /\
    p_stat p' = SRUN /\ p_sig p' = p_sig q /\ p_wchan p' = 0 /\ (fast = true -> p_pri p' <= PUSER) /\ frame [runout_addr] (eq i) st st'.
Proof.
  intros HG Hi Hq Hcpu. assert (Hr : p_rlink q = PNULL) by (apply (off_run st i q HG Hi); destruct Hq as [-> | ->]; done).
  assert (Hpri : 0 <= p_pri q <= 127) by (destruct HG as ((sl & rq & HI) & _); by apply (b_pri _ _ _ (i_base _ _ _ HI) i q)).
  assert (Hrun : forall st1 q1, good w st1 -> procs st1 !! i = Some q1 -> p_stat q1 = p_stat q -> p_sig q1 = p_sig q -> off_cpu st1 i q1 ->
    exists st' p', setrun runout_addr st1 i = Ret st' /\ adv st1 st' /\ procs st' !! i = Some p' /\ p_stat p' = SRUN /\
      p_sig p' = p_sig q /\ p_wchan p' = 0 /\ p_pri p' = p_pri q1 /\ frame [runout_addr] (eq i) st1 st').
  { intros st1 q1 HG1 Hi1 E1 E2 Hc1. destruct (setrun_adv st1 i q1 HG1 Hi1) as (st' & p' & E & A & P & C & F); [rewrite E1; tauto|done|].
    exists st', p'. apply core_fields in C as (C1 & C2 & C3 & _ & _ & _ & _ & C8). destruct (ready_keeps (sys st1) (set_wchan q1 0)) as (K1 & _ & K3).
    splits; try done; [by rewrite C8, K1|by rewrite C3, ready_wchan|by rewrite C2, K3]. }
  destruct fast; cbn [psig_finish].
  - rewrite (modp_ok st i q _ Hi). bind. set (q1 := if p_pri q >? PUSER then set_pri q PUSER else q).
    assert (HT : tame q q1).
    { unfold q1. destruct (_ >? _); [|apply tame_refl]. unfold tame, PUSER. cbn. splits; try done. right. split; [done|lia]. }
    pose proof (adv_putp st i q q1 HG Hi HT) as A1.
    destruct (Hrun (putp st i q1) q1) as (st' & p' & E & A & P & C1 & C2 & C3 & C4 & F); [apply A1|by eapply putp_at|apply HT|unfold q1; by destruct (_ >? _)|unfold off_cpu, q1; by destruct (_ >? _)|].
    exists st', p'. split; [done|]. split; [by eapply adv_trans|]. splits; try done.
    + intros _. rewrite C4. unfold q1. destruct (Z.gtb_spec (p_pri q) PUSER); cbn; lia.
    + apply (kept_trans _ _ _ (putp st i q1)); [|done]. apply (frame_mono [] _ (eq i) _ _ _ (fun j H => H) (list_subseteq_nil _)), frame_putp.
  - destruct (Hrun st q HG Hi eq_refl eq_refl Hcpu) as (st' & p' & E & A & P & C1 & C2 & C3 & C4 & F). exists st', p'. splits; try done.
Qed.

(** A signal that does nothing more than being recorded. *)
Lemma effect_stays p sig a q : 1 <= sig -> q = posted p sig a -> psig_stat p sig a = p_stat p -> psig_pending p sig a = true ->
  psig_effect p sig a q.
Proof.
  intros Hs -> H1 H2. destruct (posted_ok p sig a Hs) as ((_ & _ & _ & _ & E & _) & _ & _ & E2 & E3). constructor; [congruence|congruence|done|].
  intros Hn Hr. congruence.
Qed.

Lemma effect_run p sig a q p' : 1 <= sig -> q = posted p sig a -> psig_stat p sig a = SRUN -> psig_pending p sig a = true ->
  p_stat p' = SRUN -> p_sig p' = p_sig q -> p_wchan p' = 0 -> (has (p_flag p) STRC = false -> sig <> SIGCONT -> p_pri p' <= PUSER) ->
  psig_effect p sig a p'.
Proof.
  intros Hs -> H1 H2 E1 E2 E3 E4. destruct (posted_ok p sig a Hs) as (_ & _ & _ & F2 & F3). constructor; [congruence|by rewrite E2, F2|by rewrite E2|done].
Qed.

(** What the code does after the signal has been recorded, in a sleeping
    process that is not stopped by it. *)
Lemma psig_sleeping_ok notify st i p sig a : good w st -> procs st !! i = Some (posted p sig a) -> 1 <= sig -> p_stat p = SSLEEP -> a <> Hold ->
  psig_stat p sig a <> SSTOP -> (has (p_flag p) STRC = true -> a = Dfl) ->
  exists st' p', ('(st, l) ← psig_sleeping runout_addr proc_addr notify st i sig a; psig_finish runout_addr st i l) = Ret st' /\
    adv st st' /\ procs st' !! i = Some p' /\ psig_effect p sig a p' /\ frame [runout_addr] (eq i) st st'.
Proof.
  intros HG Hi Hs Hp Ha Hns Htr. destruct (posted_ok p sig a Hs) as (T & F1 & F2 & F3 & F4). set (q := posted p sig a) in *.
  assert (Hq : p_stat q = SSLEEP) by (rewrite <- Hp; apply T). unfold psig_sleeping, getp. rewrite Hi. bind. rewrite F1.
  unfold psig_stat in Hns. rewrite Hp, (bool_decide_eq_false_2 (a = Hold)) in Hns by done. cbn [orb] in Hns.
  assert (Hout : psig_stat p sig a = SSLEEP -> psig_pending p sig a = true -> exists st' p', Ret st = Ret st' /\
    adv st st' /\ procs st' !! i = Some p' /\ psig_effect p sig a p' /\ frame [runout_addr] (eq i) st st').
  { intros E1 E2. exists st, q. split; [done|]. split; [by apply adv_refl|]. split; [done|]. split; [|apply kept_refl].
    apply effect_stays; [done|done|congruence|done]. }
  assert (Hgo : forall fast, psig_stat p sig a = SRUN -> psig_pending p sig a = true -> (fast = false -> has (p_flag p) STRC = true) ->
    exists st' p', psig_finish runout_addr st i (if fast then RunFast else Run) = Ret st' /\
    adv st st' /\ procs st' !! i = Some p' /\ psig_effect p sig a p' /\ frame [runout_addr] (eq i) st st').
  { intros fast E1 E2 E3. destruct (run_ok st i q fast HG Hi (or_introl Hq)) as (st' & p' & E & A & P & C1 & C2 & C3 & C4 & F); [intros _; by rewrite Hq|].
    exists st', p'. splits; try done. apply (effect_run p sig a q); try done. intros Ht _. apply C4. destruct fast; [done|]. rewrite E3 in Ht; done. }
  unfold psig_stat, psig_pending in Hout, Hgo. rewrite Hp, (bool_decide_eq_false_2 (a = Hold)) in Hout, Hgo by done. cbn [orb] in Hout, Hgo.
  rewrite sigmask_has by done.
  destruct (has (p_flag p) SSINTR); cbn [negb] in *; [|apply Hout; [done|]; by rewrite andb_false_r].
  destruct (has (p_flag p) STRC) eqn:Et; cbn [negb] in *; [apply (Hgo false); [done| |done]; by rewrite andb_false_r|].
  destruct (mem stopsigmask sig); cbn [negb andb] in *; [|by apply (Hgo true)].
  destruct (bool_decide (a = Dfl)); cbn [negb andb] in *; [|by apply (Hgo true)].
  destruct (has (p_flag p) SVFORK); [by apply Hout|done].
Qed.

Lemma effect_stat p sig a q p' : 1 <= sig -> q = posted p sig a -> p_stat p' = psig_stat p sig a -> psig_stat p sig a <> SRUN ->
  mem (p_sig p') sig = psig_pending p sig a -> (forall t, 1 <= t -> t <> sig -> mem (p_sig p') t = mem (p_sig q) t) -> psig_effect p sig a p'.
Proof.
  intros Hs -> H1 H2 H3 H4. destruct (posted_ok p sig a Hs) as (_ & _ & _ & F2 & F3). constructor; [done|done| |].
  - intros t Ht Hne. by rewrite H4, F3.
  - intros _ Hr. congruence.
Qed.

Lemma mem_drop m s t : 1 <= s -> 1 <= t -> t <> s -> mem (Z.ldiff m (sigmask s)) t = mem m t.
Proof. intros Hs Ht Hne. rewrite mem_ldiff, mem_sigmask by lia. replace (s =? t) with false by (symmetry; apply Z.eqb_neq; congruence). apply andb_true_r. Qed.
Lemma mem_dropped m s : 1 <= s -> mem (Z.ldiff m (sigmask s)) s = false.
Proof. intros Hs. rewrite mem_ldiff, mem_sigmask, Z.eqb_refl by lia. apply andb_false_r. Qed.

Lemma psig_stopped_ok st i p sig a : good w st -> procs st !! i = Some (posted p sig a) -> 1 <= sig -> p_stat p = SSTOP ->
  (a = Hold -> sig = SIGCONT) -> (has (p_flag p) STRC = true -> a = Dfl) -> off_cpu st i p ->
  exists st' p', ('(st, l) ← psig_stopped st i sig a; psig_finish runout_addr st i l) = Ret st' /\
    adv st st' /\ procs st' !! i = Some p' /\ psig_effect p sig a p' /\ frame [runout_addr] (eq i) st st'.
Proof.
  intros HG Hi Hs Hp Ha Htr Hcpu. destruct (posted_ok p sig a Hs) as (T & F1 & F2 & F3 & F4). set (q := posted p sig a) in *.
  assert (Hcpu' : forall st1 q1, adv st st1 -> p_stat q1 = SSTOP -> off_cpu st1 i q1).
  { intros st1 q1 [(_ & _ & EU & _) _] E1 E2. rewrite E1, <- Hp. apply Hcpu. congruence. }
  assert (Hq : p_stat q = SSTOP) by (rewrite <- Hp; apply T). assert (Hw : p_wchan q = p_wchan p) by apply T.
  unfold psig_stopped, getp. rewrite Hi. bind. rewrite F1, Hw.
  assert (Hput : forall q1 : proc, q1 = set_sig q (Z.ldiff (p_sig q) (sigmask sig)) -> adv st (putp st i q1) /\ frame [runout_addr] (eq i) st (putp st i q1)).
  { intros q1 ->. split; [eapply adv_putp; [done|exact Hi|apply sig_tame]|].
    apply (frame_mono [] _ (eq i) _ _ _ (fun j H => H) (list_subseteq_nil _)), frame_putp. }
  set (q1 := set_sig q (Z.ldiff (p_sig q) (sigmask sig))) in *. specialize (Hput q1 eq_refl). destruct Hput as [A1 Fr1].
  assert (Hgo : forall st1 q2 fast, adv st st1 -> frame [runout_addr] (eq i) st st1 -> procs st1 !! i = Some q2 -> p_stat q2 = SSTOP ->
    psig_stat p sig a = SRUN -> mem (p_sig q2) sig = psig_pending p sig a -> (forall t, 1 <= t -> t <> sig -> mem (p_sig q2) t = mem (p_sig q) t) ->
    (fast = false -> sig = SIGCONT) ->
    exists st' p', psig_finish runout_addr st1 i (if fast then RunFast else Run) = Ret st' /\
    adv st st' /\ procs st' !! i = Some p' /\ psig_effect p sig a p' /\ frame [runout_addr] (eq i) st st').
  { intros st1 q2 fast A Fr E1 E2 E3 E4 E5 E6. destruct (run_ok st1 i q2 fast) as (st' & p' & E & A2 & P & C1 & C2 & C3 & C4 & F); [apply A|done|by right|by apply Hcpu'|].
    exists st', p'. split; [done|]. split; [by eapply adv_trans|]. split; [done|]. split; [|by eapply kept_trans].
    constructor; [congruence|by rewrite C2|intros t Ht Hne; rewrite C2, E5, F4 by done; done|].
    intros _ _. split; [done|]. intros _ Hc. apply C4. destruct fast; [done|]. by rewrite E6 in Hc. }
  assert (Hout : forall st1 q2, adv st st1 -> frame [runout_addr] (eq i) st st1 -> procs st1 !! i = Some q2 ->
    p_stat q2 = psig_stat p sig a -> psig_stat p sig a <> SRUN -> mem (p_sig q2) sig = psig_pending p sig a ->
    (forall t, 1 <= t -> t <> sig -> mem (p_sig q2) t = mem (p_sig q) t) ->
    exists st' p', Ret st1 = Ret st' /\
    adv st st' /\ procs st' !! i = Some p' /\ psig_effect p sig a p' /\ frame [runout_addr] (eq i) st st').
  { intros st1 q2 A Fr E1 E2 E3 E4 E5. exists st1, q2. splits; try done. by apply (effect_stat p sig a q). }
  unfold psig_stat, psig_pending in Hgo, Hout. rewrite Hp in Hgo, Hout.
  pose proof (adv_refl st HG) as A0. pose proof (kept_refl [runout_addr] (eq i) st) as Fr0.
  destruct (has (p_flag p) STRC) eqn:Et; cbn [orb] in *; [by apply (Hout st q)|].
  destruct (Z.eqb_spec sig SIGKILL) as [->|Hk].
  { destruct (bool_decide_reflect (a = Hold)) as [Eh|Eh]; [discriminate (Ha Eh)|]. by apply (Hgo st q true). }
  destruct (Z.eqb_spec sig SIGCONT) as [->|Hc].
  - rewrite (modp_ok st i q _ Hi). fold q1.
    assert (Hmid : exists st1 q2, (if bool_decide (a = Dfl) then Ret (putp st i q1) else Ret st) = Ret st1 /\ adv st st1 /\
      frame [runout_addr] (eq i) st st1 /\ procs st1 !! i = Some q2 /\ tame q q2 /\ mem (p_sig q2) SIGCONT = negb (bool_decide (a = Dfl)) /\
      forall t, 1 <= t -> t <> SIGCONT -> mem (p_sig q2) t = mem (p_sig q) t).
    { destruct (bool_decide (a = Dfl)).
      - exists (putp st i q1), q1. split; [done|]. split; [done|]. split; [done|]. split; [by eapply putp_at|]. split; [apply sig_tame|].
        split; [by apply mem_dropped|]. intros t Ht Hne. by apply mem_drop.
      - exists st, q. splits; done. }
    destruct Hmid as (st1 & q2 & -> & A & Fr & E1 & T2 & E2 & E3). bind. assert (Hq2 : p_stat q2 = SSTOP) by (rewrite <- Hq; apply T2).
    destruct (bool_decide_reflect (a = Catch)) as [Ec|Ec]; cbn [orb] in *; [by apply (Hgo st1 q2 true)|].
    destruct (Z.eqb_spec (p_wchan p) 0) as [Ew|Ew]; [by apply (Hgo st1 q2 false)|].
    rewrite (modp_ok st1 i q2 _ E1). bind. cbn [psig_finish]. set (q3 := set_stat q2 SSLEEP).
    assert (W2 : p_wchan q2 = p_wchan p) by (rewrite <- Hw; apply T2).
    assert (A2 : adv st1 (putp st1 i q3)).
    { apply (adv_stat st1 i q2 q3); try done; [apply A|apply set_stat_stays| |intros Hcur Hwk; by destruct (Hcpu' st1 q2 A Hq2 Hcur)|by left|intros _; cbn; by rewrite W2].
      apply (off_run st1 i q2); [apply A|done|by rewrite Hq2]. }
    apply (Hout (putp st1 i q3) q3); try done; [by eapply adv_trans| |by eapply putp_at].
    apply (kept_trans _ _ _ st1); [done|]. apply (frame_mono [] _ (eq i) _ _ _ (fun j H => H) (list_subseteq_nil _)), frame_putp.
  - destruct (bool_decide_reflect (a = Hold)) as [Eh|Eh]; [by rewrite (Ha Eh) in Hc|]. cbn [orb] in *.
    rewrite (mem_stop sig) in Hout by lia. rewrite !orb_assoc in Hout. destruct (_ || _ || _ || _); cbn [negb] in *.
    + rewrite (modp_ok st i q _ Hi). fold q1. bind. cbn [psig_finish]. apply (Hout (putp st i q1) q1); try done; [by eapply putp_at|by apply mem_dropped|].
      intros t Ht Hne. by apply mem_drop.
    + destruct (negb _ && _).
      * destruct (unsleep_adv st i q HG Hi Hq) as (st1 & -> & A & P & Fr). bind. cbn [psig_finish].
        apply (Hout st1 (set_wchan q 0)); try done. by apply (frame_mono [] _ (eq i) _ _ _ (fun j H => H) (list_subseteq_nil _)).
      * bind. cbn [psig_finish]. by apply (Hout st q).
Qed.

(** *** psignal *)

Definition effect_of (p : proc) (sig : Z) (p' : proc) : Prop :=
  match psig_action p (sigmask sig) with Some a => psig_effect p sig a p' | None => p' = p end.

Lemma traced_dfl p mask a : psig_action p mask = Some a -> has (p_flag p) STRC = true -> a = Dfl.
Proof. unfold psig_action. destruct (has (p_flag p) STRC); [|done]. by intros [= <-]. Qed.

Definition notify (fuel : nat) (st : kst) (pp : nat) : outcome kst := psignal_fuel runout_addr proc_addr fuel st pp SIGCHLD.

(** The code from the place where the signal has been recorded. *)
Lemma psignal_unfold fuel st i p sig a : procs st !! i = Some p -> 1 <= sig < 32 -> psig_action p (sigmask sig) = Some a ->
  psignal_fuel runout_addr proc_addr (S fuel) st i sig =
    let st := putp st i (posted p sig a) in
    if bool_decide (a = Hold) && (negb (sig =? SIGCONT) || negb (bool_decide (p_stat p = SSTOP))) then Ret st
    else match p_stat p with
         | SSLEEP => '(st, l) ← psig_sleeping runout_addr proc_addr (notify fuel) st i sig a; psig_finish runout_addr st i l
         | SSTOP => '(st, l) ← psig_stopped st i sig a; psig_finish runout_addr st i l
         | _ => Ret (if bool_decide (i = u_procp st) && negb (noproc (sys st)) then with_sys st (set_ast (sys st) true) else st)
         end.
Proof.
  intros Hi Hs Ha. cbn [psignal_fuel]. replace ((sig <? 0) || (sig >=? NSIG) || (sig =? 0)) with false.
  2:{ symmetry. unfold NSIG. apply orb_false_iff. split; [apply orb_false_iff; split|]; [apply Z.ltb_ge|rewrite Z.geb_leb; apply Z.leb_gt|apply Z.eqb_neq]; lia. }
  rewrite (getp_at st i p Hi). bind. rewrite Ha. fold (posted p sig a).
  assert (E : p_stat (psig_adjust p sig a) = p_stat p).
  { destruct (posted_ok p sig a ltac:(lia)) as ((_ & _ & _ & _ & E & _) & _). exact E. }
  rewrite E. destruct (_ && _); [done|]. by destruct (p_stat p).
Qed.

Lemma adv_sys st s : good w st -> noproc s = noproc (sys st) -> hz s = hz (sys st) -> adv st (with_sys st s).
Proof.
  intros HG E1 E2. split; [|apply kin_refl]. split; [by apply good_sys|]. splits; try done. apply Forall2_same_length_lookup_2; [done|].
  intros j r r' E E'. left. cbn in E'. congruence.
Qed.

(** A stopped process that gets a signal is not the running one. *)
Definition off_stop (st : kst) (i : nat) (p : proc) : Prop := p_stat p = SSTOP -> off_cpu st i p.

Lemma psignal_plain fuel st i p sig : good w st -> procs st !! i = Some p -> 1 <= sig < 32 ->
  (forall a, psig_action p (sigmask sig) = Some a -> p_stat p = SSLEEP -> psig_stat p sig a <> SSTOP) -> off_stop st i p ->
  exists st' p', psignal_fuel runout_addr proc_addr (S fuel) st i sig = Ret st' /\ adv st st' /\ procs st' !! i = Some p' /\
    effect_of p sig p' /\ frame [runout_addr] (eq i) st st'.
Proof.
  intros HG Hi Hs Hns Hoff. unfold effect_of. destruct (psig_action p (sigmask sig)) as [a|] eqn:Ea.
  2:{ exists st, p. split; [|split; [by apply adv_refl|split; [done|split; [done|apply kept_refl]]]].
      cbn [psignal_fuel]. replace ((sig <? 0) || (sig >=? NSIG) || (sig =? 0)) with false.
      { rewrite (getp_at st i p Hi). bind. by rewrite Ea. }
      symmetry. unfold NSIG. apply orb_false_iff. split; [apply orb_false_iff; split|]; [apply Z.ltb_ge|rewrite Z.geb_leb; apply Z.leb_gt|apply Z.eqb_neq]; lia. }
  rewrite (psignal_unfold fuel st i p sig a Hi Hs Ea). cbv zeta. set (st0 := putp st i (posted p sig a)).
  destruct (posted_ok p sig a ltac:(lia)) as (T & F1 & F2 & F3 & F4).
  pose proof (adv_putp st i p _ HG Hi T) as A0. fold st0 in A0.
  assert (Hi0 : procs st0 !! i = Some (posted p sig a)) by (by eapply putp_at).
  assert (Fr0 : frame [runout_addr] (eq i) st st0) by apply (frame_mono [] _ (eq i) _ _ _ (fun j H => H) (list_subseteq_nil _)), frame_putp.
  assert (Hrest : forall m, (exists st' p', m = Ret st' /\ adv st0 st' /\ procs st' !! i = Some p' /\ psig_effect p sig a p' /\ frame [runout_addr] (eq i) st0 st') ->
    exists st' p', m = Ret st' /\ adv st st' /\ procs st' !! i = Some p' /\ psig_effect p sig a p' /\ frame [runout_addr] (eq i) st st').
  { intros m (st' & p' & E & A & P & Ef & Fr). exists st', p'. split; [done|]. split; [by eapply adv_trans|]. splits; try done. by eapply kept_trans. }
  assert (Hlazy : forall s, noproc s = noproc (sys st0) -> hz s = hz (sys st0) -> psig_stat p sig a = p_stat p -> psig_pending p sig a = true ->
    exists st' p', Ret (with_sys st0 s) = Ret st' /\ adv st st' /\ procs st' !! i = Some p' /\ psig_effect p sig a p' /\ frame [runout_addr] (eq i) st st').
  { intros s E1 E2 E3 E4. exists (with_sys st0 s), (posted p sig a). split; [done|].
    split; [eapply adv_trans; [exact A0|apply adv_sys; [apply A0|done|done]]|]. split; [exact Hi0|].
    split; [apply effect_stays; [lia|done|exact E3|exact E4]|exact Fr0]. }
  destruct (bool_decide_reflect (a = Hold)) as [->|Hh]; cbn [andb].
  - destruct (negb (sig =? SIGCONT) || negb (bool_decide (p_stat p = SSTOP))) eqn:Ec.
    + apply (Hlazy (sys st0)); try done; unfold psig_stat, psig_pending; destruct (p_stat p); try done.
      * cbn [orb]. destruct (has _ STRC), (sig =? SIGKILL); try done. destruct (Z.eqb_spec sig SIGCONT); done.
      * cbn. by rewrite andb_false_r.
      * cbn [orb]. destruct (has _ STRC); [done|]. by destruct (sig =? SIGCONT).
    + apply orb_false_iff in Ec as [Ec Es]. apply negb_false_iff, Z.eqb_eq in Ec. apply negb_false_iff, bool_decide_eq_true in Es.
      rewrite Es. apply Hrest. apply (psig_stopped_ok st0 i p sig Hold); try done; [apply A0|lia|exact (traced_dfl _ _ _ Ea)|by apply Hoff].
  - destruct (p_stat p) eqn:Ep.
    all: try (destruct (_ && _); [apply (Hlazy (set_ast (sys st0) true))|apply (Hlazy (sys st0))]; try done; unfold psig_stat, psig_pending; by rewrite Ep).
    + apply Hrest. apply psig_sleeping_ok; try done; [apply A0|lia|by apply Hns|by eapply traced_dfl].
    + apply Hrest. apply psig_stopped_ok; try done; [apply A0|lia|by eapply traced_dfl|by apply Hoff].
Qed.

(** What stopping a sleeper asks of a process whose sleep can be interrupted: that
    its parent is another process of the table, and that it is not the swapper. *)
Definition has_parent (st : kst) (i : nat) (p : proc) : Prop :=
  has (p_flag p) SSINTR = true -> p_pptr p <> i /\ (exists pp, procs st !! p_pptr p = Some pp) /\ p_wchan p <> runout_addr.

Lemma stops_iff p sig a : p_stat p = SSLEEP -> psig_stat p sig a = SSTOP ->
  a = Dfl /\ has (p_flag p) SSINTR = true /\ has (p_flag p) STRC = false /\ mem stopsigmask sig = true /\ has (p_flag p) SVFORK = false.
Proof.
  intros Hp. unfold psig_stat. rewrite Hp. destruct (bool_decide_reflect (a = Hold)); [done|]. cbn [orb].
  destruct (has (p_flag p) SSINTR); [|done]. cbn [negb]. destruct (has (p_flag p) STRC); [done|].
  destruct (mem stopsigmask sig); [|done]. cbn [andb]. destruct (bool_decide_reflect (a = Dfl)); [|done].
  destruct (has (p_flag p) SVFORK); [done|]. intros _. splits; done.
Qed.

Lemma chld_plain pp a : p_stat pp = SSLEEP -> psig_stat pp SIGCHLD a <> SSTOP.
Proof. intros Hp H. destruct (stops_iff pp SIGCHLD a Hp H) as (_ & _ & _ & H4 & _). done. Qed.

Lemma psignal_stop st i p sig : good w st -> procs st !! i = Some p -> 1 <= sig < 32 -> has_parent st i p ->
  (forall q, procs st !! p_pptr p = Some q -> off_stop st (p_pptr p) q) ->
  psig_action p (sigmask sig) = Some Dfl -> p_stat p = SSLEEP -> psig_stat p sig Dfl = SSTOP ->
  exists st' p', psignal_fuel runout_addr proc_addr 2 st i sig = Ret st' /\ adv st st' /\ procs st' !! i = Some p' /\
    psig_effect p sig Dfl p' /\ p_xstat p' = sig /\ frame [runout_addr; proc_addr (p_pptr p)] (fun j => j = i \/ j = p_pptr p) st st'.
Proof.
  intros HG Hi Hs Hpar Hoff Ea Hp Hst. destruct (stops_iff p sig Dfl Hp Hst) as (_ & S1 & S2 & S3 & S4).
  destruct (Hpar S1) as (Hpi & (pp & Hpp) & Hwr).
  rewrite (psignal_unfold 1 st i p sig Dfl Hi Hs Ea). cbv zeta. rewrite Hp. cbn [andb bool_decide]. rewrite bool_decide_eq_false_2 by done. cbn [andb].
  destruct (posted_ok p sig Dfl ltac:(lia)) as (T & F1 & F2 & F3 & F4). set (q := posted p sig Dfl) in *. set (st0 := putp st i q).
  assert (Hi0 : procs st0 !! i = Some q) by (by eapply putp_at).
  unfold psig_sleeping. rewrite (getp_at st0 i q Hi0). bind. rewrite F1, S1, S2, sigmask_has, S3, S4 by lia. cbn [negb].
  rewrite bool_decide_eq_true_2 by done. cbn [negb]. rewrite (modp_ok st0 i q _ Hi0). bind.
  set (q1 := set_xstat (set_sig q (Z.ldiff (p_sig q) (sigmask sig))) sig).
  assert (Est : putp st0 i q1 = putp st i q1) by (unfold st0, putp, with_procs; cbn; by rewrite list_insert_insert_eq). rewrite Est.
  assert (T1 : tame p q1) by (eapply tame_trans; [exact T|]; unfold tame; splits; try done; by left).
  pose proof (adv_putp st i p q1 HG Hi T1) as A1. set (st1 := putp st i q1) in *.
  assert (Hi1 : procs st1 !! i = Some q1) by (by eapply putp_at).
  assert (Hpp1 : procs st1 !! p_pptr p = Some pp) by (cbn; by rewrite list_lookup_insert_ne).
  rewrite F2, (getp_at st1 _ pp Hpp1). bind.
  assert (H2 : exists st2, (if has (p_flag pp) SNOCLDSTOP then Ret st1 else notify 1 st1 (p_pptr p)) = Ret st2 /\ adv st1 st2 /\
    frame [runout_addr] (eq (p_pptr p)) st1 st2).
  { destruct (has (p_flag pp) SNOCLDSTOP); [exists st1; split; [done|]; split; [apply adv_refl, A1|apply kept_refl]|].
    destruct (psignal_plain 0 st1 (p_pptr p) pp SIGCHLD) as (st2 & pp2 & E & A & _ & _ & Fr); [apply A1|done|unfold SIGCHLD; lia| | |by exists st2].
    - intros a _. apply chld_plain.
    - by apply Hoff. }
  destruct H2 as (st2 & -> & A2 & Fr2). bind.
  destruct (Fr2 i q1) as (q2 & Hi2 & _ & C2); [congruence|done|]. assert (Hw1 : p_wchan q1 = p_wchan p) by apply T1.
  specialize (C2 ltac:(rewrite Hw1; intros Hx; apply list_elem_of_singleton in Hx; done)).
  pose proof (core_fields _ _ C2) as (D1 & _ & _ & _ & _ & _ & _ & D8).
  assert (D9 : p_xstat q2 = sig /\ p_pptr q2 = p_pptr p).
  { split; [exact (f_equal p_xstat C2)|]. change (p_pptr q2 = p_pptr p). rewrite <- F2. exact (f_equal p_pptr C2). }
  destruct D9 as [D9 D10]. assert (Hq1 : p_stat q1 = SSLEEP) by (rewrite <- Hp; apply T1).
  destruct (stop_ok st2 i q2) as (st3 & p3 & E3 & A3 & P3 & G1 & G2 & G3 & Fr3);
    [apply A2|done|apply (off_run st2 i q2); [apply A2|done|by rewrite D1, Hq1]|intros _; by rewrite D1, Hq1|].
  rewrite E3. bind. cbn [psig_finish]. exists st3, p3. split; [done|].
  split; [eapply adv_trans; [exact A1|]; by eapply adv_trans|]. split; [done|]. split; [|split; [congruence|]].
  - apply (effect_stat p sig Dfl q); [lia|done|congruence|by rewrite Hst| |].
    + rewrite G2, D8. cbn [q1 set_xstat set_sig p_sig]. rewrite mem_dropped by lia. unfold psig_pending.
      by rewrite Hp, S1, S2, S3, S4, bool_decide_eq_true_2.
    + intros t Ht Hne. rewrite G2, D8. cbn [q1 set_xstat set_sig p_sig]. apply mem_drop; (lia || done).
  - rewrite D10 in Fr3. apply (kept_trans _ _ _ st1); [|apply (kept_trans _ _ _ st2)].
    + apply (frame_mono [] _ (eq i)); [intros j ->; by left|apply list_subseteq_nil|apply frame_putp].
    + apply (frame_mono [runout_addr] _ (eq (p_pptr p))); [intros j ->; by right|apply sub_hd|exact Fr2].
    + apply (frame_mono [runout_addr; proc_addr (p_pptr p)] _ (eq i)); [intros j ->; by left|done|exact Fr3].
Qed.

(** psignal, for any process that has a parent. *)
Lemma psignal_ok st i p sig : good w st -> procs st !! i = Some p -> 1 <= sig < 32 -> has_parent st i p ->
  off_stop st i p -> (forall q, procs st !! p_pptr p = Some q -> off_stop st (p_pptr p) q) ->
  exists st' p', psignal runout_addr proc_addr st i sig = Ret st' /\ adv st st' /\ procs st' !! i = Some p' /\ effect_of p sig p' /\
    frame [runout_addr; proc_addr (p_pptr p)] (fun j => j = i \/ j = p_pptr p) st st'.
Proof.
  intros HG Hi Hs Hpar Ho Hop. unfold psignal.
  assert (Hcase : (exists a, psig_action p (sigmask sig) = Some a /\ p_stat p = SSLEEP /\ psig_stat p sig a = SSTOP) \/
    (forall a, psig_action p (sigmask sig) = Some a -> p_stat p = SSLEEP -> psig_stat p sig a <> SSTOP)).
  { destruct (psig_action p (sigmask sig)) as [a|]; [|by right].
    destruct (decide (p_stat p = SSLEEP /\ psig_stat p sig a = SSTOP)) as [[H1 H2]|Hn]; [left; by exists a|right].
    intros b [= <-] H1 H2. by apply Hn. }
  destruct Hcase as [(a & Ea & H1 & H2)|Hn].
  - destruct (stops_iff p sig a H1 H2) as (-> & _). destruct (psignal_stop st i p sig HG Hi Hs Hpar Hop Ea H1 H2) as (st' & p' & E & A & P & Ef & _ & Fr).
    exists st', p'. splits; try done. unfold effect_of. by rewrite Ea.
  - destruct (psignal_plain 1 st i p sig HG Hi Hs Hn Ho) as (st' & p' & E & A & P & Ef & Fr). exists st', p'. splits; try done.
    apply (frame_mono [runout_addr] _ (eq i)); [intros j ->; by left|apply sub_hd|exact Fr].
Qed.

(** *** kill *)

Hypothesis w_stop : ~ w SSTOP.

Lemma off_stop_all st i p : off_stop st i p.
Proof. intros E _. by rewrite E. Qed.

Definition family (st : kst) : Prop := forall i p, procs st !! i = Some p -> has_parent st i p.

Lemma family_adv st st' : runout_addr <> 0 -> adv st st' -> family st -> family st'.
Proof.
  intros Hra [(_ & _ & _ & _ & HW) HK] H i p' E Hi. destruct (Forall2_lookup_r _ _ _ _ _ HK E) as (p & Ep & (K1 & K2 & _)).
  rewrite K2 in Hi. destruct (H i p Ep Hi) as (H1 & (pp & H2) & H3). injection K1 as -> _ _ _ _ _. split; [done|].
  split; [destruct (Forall2_lookup_l _ _ _ _ _ HK H2) as (pp' & E' & _); by exists pp'|].
  destruct (Forall2_lookup_l _ _ _ _ _ HW Ep) as (p2 & E2 & Hw). rewrite E in E2. injection E2 as <-. destruct Hw as [-> | ->]; [done|congruence].
Qed.

(** The process groups are there, and so are the processes of the hash chains. *)
Definition groups_ok (st : kst) (d : ids) : Prop := forall i p, procs st !! i = Some p -> exists pg, pgrps d !! p_pgrp p = Some pg.

Lemma groups_adv st st' d : adv st st' -> groups_ok st d -> groups_ok st' d.
Proof.
  intros [_ HK] H i p' E. destruct (Forall2_lookup_r _ _ _ _ _ HK E) as (p & Ep & (K1 & _)). injection K1 as _ -> _ _ _ _. by apply (H i).
Qed.

(** May [c] signal [p]? *)
Definition may (d : ids) (c p : proc) (signo : Z) : bool :=
  (p_uid c =? 0) || (p_ruid c =? p_ruid p) || (p_uid c =? p_ruid p) || (p_ruid c =? p_uid p) || (p_uid c =? p_uid p) ||
  (signo =? SIGCONT) && bool_decide (pg_session <$> pgrps d !! p_pgrp p = pg_session <$> pgrps d !! p_pgrp c).

Lemma CANSIGNAL_ok st d i j c p signo : groups_ok st d -> procs st !! i = Some c -> procs st !! j = Some p ->
  CANSIGNAL d c p signo = Ret (may d c p signo).
Proof.
  intros H Hc Hp. unfold CANSIGNAL, may, session_of. destruct (_ || _ || _ || _ || _); cbn [orb]; [done|].
  destruct (H i c Hc) as (pc & ->). destruct (H j p Hp) as (pp & ->). destruct (signo =? SIGCONT); [|done]. cbn.
  f_equal. apply bool_decide_ext. split; [intros ->; done|intros E; by injection E].
Qed.

(** The members killpg1 signals, and the signals posted one after the other. *)
Definition target (st : kst) (d : ids) (c : proc) (signo : Z) (skip_self : bool) (i : nat) : bool :=
  match procs st !! i with
  | Some p => negb ((p_ppid p =? 0) || has (p_flag p) SSYS || skip_self && bool_decide (i = u_procp st)) && may d c p signo
  | None => false
  end.
Fixpoint post_all (st : kst) (l : list nat) (signo : Z) : outcome kst :=
  match l with
  | [] => Ret st
  | i :: l => st ← (if signo =? 0 then Ret st else psignal runout_addr proc_addr st i signo); post_all st l signo
  end.

Lemma may_kin d c c' p p' signo : kin c c' -> kin p p' -> may d c' p' signo = may d c p signo.
Proof. intros (E1 & _) (E2 & _). injection E1 as A1 A2 A3 A4 A5 A6. injection E2 as B1 B2 B3 B4 B5 B6. unfold may. by rewrite A2, A3, A4, B2, B3, B4. Qed.

Lemma target_adv st st' d c c' signo skip i : adv st st' -> kin c c' -> target st' d c' signo skip i = target st d c signo skip i.
Proof.
  intros [(_ & _ & EU & _) HK] Hc. unfold target. rewrite EU. destruct (procs st !! i) as [p|] eqn:E.
  - destruct (Forall2_lookup_l _ _ _ _ _ HK E) as (p' & -> & Hk). rewrite (may_kin d c c' p p' signo Hc Hk).
    destruct Hk as (K1 & _ & K3). injection K1 as _ _ _ _ K5 _. by rewrite K3, K5.
  - apply lookup_ge_None in E. assert (E' : procs st' !! i = None) by (apply lookup_ge_None; rewrite <- (Forall2_length _ _ _ HK); done). by rewrite E'.
Qed.

Lemma post_ok st i signo : good w st -> family st -> runout_addr <> 0 -> (exists p, procs st !! i = Some p) -> 0 <= signo < 32 ->
  exists st', (if signo =? 0 then Ret st else psignal runout_addr proc_addr st i signo) = Ret st' /\ adv st st'.
Proof.
  intros HG HF Hra [p Hi] Hs. destruct (Z.eqb_spec signo 0); [exists st; split; [done|by apply adv_refl]|].
  destruct (psignal_ok st i p signo HG Hi ltac:(lia) (HF i p Hi) (off_stop_all _ _ _) (fun q _ => off_stop_all _ _ _)) as (st' & p' & E & A & _). by exists st'.
Qed.

Lemma adv_in st st' i : adv st st' -> (exists p, procs st !! i = Some p) -> exists p', procs st' !! i = Some p'.
Proof. intros [_ HK] [p Hp]. destruct (Forall2_lookup_l _ _ _ _ _ HK Hp) as (p' & E & _). by exists p'. Qed.

Lemma killpg_loop_ok d cp signo skip : runout_addr <> 0 -> 0 <= signo < 32 ->
  forall l st c f, good w st -> family st -> groups_ok st d -> procs st !! cp = Some c -> (forall i, i ∈ l -> exists p, procs st !! i = Some p) ->
  exists st', post_all st (filter (fun i => target st d c signo skip i = true) l) signo = Ret st' /\ adv st st' /\
    killpg_loop runout_addr proc_addr st d cp l signo skip f = Ret (f + Z.of_nat (length (filter (fun i => target st d c signo skip i = true) l)), st').
Proof.
  intros Hra Hs. induction l as [|i l IH]; intros st c f HG HF HD Hc Hl.
  - exists st. split; [done|]. split; [by apply adv_refl|]. cbn. by rewrite Z.add_0_r.
  - cbn [killpg_loop]. destruct (Hl i) as [p Hp]; [apply elem_of_cons; by left|]. rewrite (getp_at st i p Hp). bind. rewrite (getp_at st cp c Hc). bind.
    assert (Ecan : (if (p_ppid p =? 0) || has (p_flag p) SSYS || skip && bool_decide (i = u_procp st) then Ret false else CANSIGNAL d c p signo) =
      Ret (target st d c signo skip i)).
    { unfold target. rewrite Hp, (CANSIGNAL_ok st d cp i c p signo HD Hc Hp). by destruct (_ || _). }
    rewrite Ecan. bind. assert (Hl' : forall j, j ∈ l -> exists q, procs st !! j = Some q) by (intros j Hj; apply Hl, elem_of_cons; by right).
    rewrite filter_cons. destruct (target st d c signo skip i) eqn:Et; cbn [negb].
    + rewrite decide_True by done. destruct (post_ok st i signo HG HF Hra (ex_intro _ p Hp) Hs) as (st1 & E & A).
      cbn [post_all]. rewrite E. bind. destruct A as [A0 HK]. assert (A : adv st st1) by (by split).
      destruct (Forall2_lookup_l _ _ _ _ _ HK Hc) as (c1 & Hc1 & Hk1).
      destruct (IH st1 c1 (f + 1)) as (st' & E1 & A1 & E2); [apply A0|by eapply family_adv|by eapply groups_adv|done|intros j Hj; by eapply adv_in, Hl'|].
      assert (Ef : filter (fun i => target st1 d c1 signo skip i = true) l = filter (fun i => target st d c signo skip i = true) l).
      { apply filter_eq. intros j _. by rewrite (target_adv st st1 d c c1 signo skip j A Hk1). }
      rewrite Ef in E1, E2. exists st'. split; [done|]. split; [by eapply adv_trans|]. rewrite E2. f_equal. f_equal. cbn [length]. lia.
    + rewrite decide_False by done. by apply IH.
Qed.

(** The hash chains hold processes and groups that exist, and so do the lists. *)
Record tables_ok (st : kst) (d : ids) : Prop := Tables {
  t_groups : groups_ok st d;
  t_pid : forall pid, exists l, pidhash d !! PIDHASH d pid = Some l /\ forall i, i ∈ l -> exists p, procs st !! i = Some p;
  t_pgrp : forall pgid, exists l, pgrphash d !! PIDHASH d pgid = Some l /\ forall g, g ∈ l -> exists pg, pgrps d !! g = Some pg;
  t_mem : forall g pg i, pgrps d !! g = Some pg -> i ∈ pg_mem pg -> exists p, procs st !! i = Some p;
  t_all : forall i, i ∈ allproc st -> exists p, procs st !! i = Some p;
  t_cur : exists p, procs st !! u_procp st = Some p
}.

Lemma pfind_chain_ok st pid : forall l, (forall i, i ∈ l -> exists p, procs st !! i = Some p) ->
  (exists i p, pfind_chain st l pid = Ret (Some i) /\ i ∈ l /\ procs st !! i = Some p /\ p_pid p = pid) \/
  (pfind_chain st l pid = Ret None /\ forall i p, i ∈ l -> procs st !! i = Some p -> p_pid p <> pid).
Proof.
  induction l as [|i l IH]; intros Hl; cbn [pfind_chain].
  - right. split; [done|]. intros i p Hi. by apply not_elem_of_nil in Hi.
  - destruct (Hl i) as [p Hp]; [apply elem_of_cons; by left|]. rewrite (getp_at st i p Hp). bind. destruct (Z.eqb_spec (p_pid p) pid) as [E|E].
    + left. exists i, p. splits; try done. apply elem_of_cons. by left.
    + destruct IH as [(j & q & E1 & E2 & E3 & E4)|[E1 E2]]; [intros j Hj; apply Hl, elem_of_cons; by right| |].
      * left. exists j, q. splits; try done. apply elem_of_cons. by right.
      * right. split; [done|]. intros j q Hj Hq. apply elem_of_cons in Hj as [->|Hj]; [congruence|by eapply E2].
Qed.

Lemma pgfind_chain_ok d pgid : forall l, (forall g, g ∈ l -> exists pg, pgrps d !! g = Some pg) ->
  exists o, pgfind_chain d l pgid = Ret o /\ (forall pg, o = Some pg -> pg_id pg = pgid /\ exists g, pgrps d !! g = Some pg).
Proof.
  induction l as [|g l IH]; intros Hl; cbn [pgfind_chain]; [by exists None|].
  destruct (Hl g) as [pg Hg]; [apply elem_of_cons; by left|]. rewrite Hg. cbn [read]. bind. destruct (Z.eqb_spec (pg_id pg) pgid) as [E|E].
  - exists (Some pg). split; [done|]. intros q [= <-]. split; [done|by exists g].
  - apply IH. intros j Hj. apply Hl, elem_of_cons. by right.
Qed.

(** Whom kill with a pid that is not positive is about. *)
Definition members (st : kst) (d : ids) (pgid : Z) (all : bool) (l : list nat) : Prop :=
  if all then l = allproc st
  else if pgid =? 0 then exists p pg, procs st !! u_procp st = Some p /\ pgrps d !! p_pgrp p = Some pg /\ l = pg_mem pg
  else (exists pg g, pgfind d pgid = Ret (Some pg) /\ pgrps d !! g = Some pg /\ pg_id pg = s16 pgid /\ l = pg_mem pg) \/ (pgfind d pgid = Ret None /\ l = []).

Lemma killpg1_ok st d cp c signo pgid all : runout_addr <> 0 -> 0 <= signo < 32 -> good w st -> family st -> tables_ok st d -> procs st !! cp = Some c ->
  exists l st', members st d pgid all l /\ let ts := filter (fun i => target st d c signo all i = true) l in
    killpg1 runout_addr proc_addr st d cp signo pgid all = Ret (if bool_decide (ts = []) then ESRCH else 0, st') /\
    post_all st ts signo = Ret st' /\ adv st st'.
Proof.
  intros Hra Hs HG HF HT Hc. pose proof HT as [T1 T2 T3 T4 T5 [pc T6]].
  assert (Hend : forall l, (forall i, i ∈ l -> exists p, procs st !! i = Some p) -> exists st', let ts := filter (fun i => target st d c signo all i = true) l in
    ('(f, st) ← killpg_loop runout_addr proc_addr st d cp l signo all 0; Ret (if f =? 0 then ESRCH else 0, st)) =
      Ret (if bool_decide (ts = []) then ESRCH else 0, st') /\ post_all st ts signo = Ret st' /\ adv st st').
  { intros l Hl. destruct (killpg_loop_ok d cp signo all Hra Hs l st c 0 HG HF T1 Hc Hl) as (st' & E1 & A & E2). exists st'. cbv zeta.
    rewrite E2. bind. split; [|done]. f_equal. f_equal. destruct (filter _ l) as [|i ts]; [done|]. cbn [length]. rewrite bool_decide_eq_false_2 by done.
    destruct (Z.eqb_spec (0 + Z.of_nat (S (length ts))) 0); [lia|done]. }
  unfold killpg1, members. destruct all.
  - bind. destruct (Hend (allproc st) T5) as (st' & H). exists (allproc st), st'. by split.
  - destruct (pgid =? 0).
    + rewrite (getp_at st _ pc T6). bind. destruct (T1 _ pc T6) as (pg & Hg). rewrite Hg. cbn [read]. bind.
      destruct (Hend (pg_mem pg)) as (st' & H); [intros i; by eapply T4|]. exists (pg_mem pg), st'. split; [by exists pc, pg|exact H].
    + unfold pgfind. destruct (T3 (s16 pgid)) as (ch & Hch & Hv). rewrite Hch. cbn [read]. bind.
      destruct (pgfind_chain_ok d (s16 pgid) ch Hv) as ([pg|] & -> & Ho); bind; cbn [option_map].
      * destruct (Ho pg eq_refl) as (Hid & g & Hg). destruct (Hend (pg_mem pg)) as (st' & H); [intros i; by eapply T4|].
        exists (pg_mem pg), st'. split; [left; by exists pg, g|exact H].
      * exists [], st. split; [by right|]. cbn. split; [done|]. split; [done|by apply adv_refl].
Qed.

End posting.

End states.

(** ** The properties of posting *)

(** C29: psignal, of a signal number from 1 to 31 to any process of the table, in a
    well-formed state: it neither panics nor loops, leaves the run queues and sleep
    queues well-formed, and the process is as the signal's action says: unchanged
    when the signal is ignored; otherwise the signal is pending (unless it stops
    or continues the process by default), a stop signal has taken back a pending
    SIGCONT and SIGCONT the pending stops, an interruptible sleep has ended at a
    user priority or become a stop, a stopped process runs on SIGKILL and goes on
    as it was on SIGCONT; nobody else's signals change but the parent's. *)
Theorem psignal_spec ra pa st i p sig : good at_work st -> procs st !! i = Some p -> 1 <= sig < 32 -> has_parent ra st i p ->
  exists st' p', psignal ra pa st i sig = Ret st' /\ good at_work st' /\ procs st' !! i = Some p' /\
    match psig_action p (sigmask sig) with Some a => psig_effect p sig a p' | None => p' = p end /\
    forall j q, j <> i -> j <> p_pptr p -> procs st !! j = Some q -> exists q', procs st' !! j = Some q' /\ p_sig q' = p_sig q.
Proof.
  intros HG Hi Hs Hp. destruct (psignal_ok at_work id ra pa st i p sig HG Hi Hs Hp (off_stop_all at_work id _ _ _) (fun q _ => off_stop_all at_work id _ _ _)) as (st' & p' & E & A & P & Ef & Fr).
  exists st', p'. split; [done|]. split; [apply A|]. split; [done|]. split; [exact Ef|]. intros j q H1 H2 Hq.
  destruct (Fr j q) as (q' & Eq & S & _); [tauto|done|]. by exists q'.
Qed.

Definition demo_chan (i : nat) : Z := 0x2000 + 200 * Z.of_nat i.

Lemma psignal_spec_witness : exists st' p', psignal 0x1040 demo_chan (demo (rqinit demo0)) 2 SIGTERM = Ret st' /\ good at_work st' /\
  procs st' !! 2%nat = Some p' /\ mem (p_sig p') SIGTERM = true.
Proof.
  destruct (psignal_spec 0x1040 demo_chan (demo (rqinit demo0)) 2 (set_link (set_stat (asleep_as (demo_proc SRUN) 0x1000 40 0) SSLEEP) PNULL) SIGTERM
    (conj (ex_intro _ demo_sl (ex_intro _ (fun _ => []) demo_sched_inv)) demo_settled) eq_refl ltac:(unfold SIGTERM; lia) ltac:(discriminate))
    as (st' & p' & E1 & E2 & E3 & E4 & _).
  exact (ex_intro _ st' (ex_intro _ p' (conj E1 (conj E2 (conj E3 (e_pending _ _ _ _ E4)))))).
Defined.

(** kill.  A signal number out of range is EINVAL and a single process that is
    not there ESRCH; one that may not be signalled is EPERM; a group or a broadcast
    signals exactly the members that the caller may signal and that are not system
    processes (nor, in a broadcast, the caller), in order, and is ESRCH when there
    is none; signal 0 changes nothing; and in every case the scheduler's state is
    well-formed afterwards.  The group is looked up by 16 bits of its number. *)
Theorem kill_spec ra pa st d cp c pid signo : ra <> 0 -> good at_work st -> family ra st -> tables_ok st d -> procs st !! cp = Some c ->
  exists e st' ts, kill ra pa st d cp pid signo = Ret (e, st') /\ post_all ra pa st ts signo = Ret st' /\ good at_work st' /\
    (e = 0 <-> ts <> []) /\
    (~ 0 <= signo < 32 -> e = EINVAL /\ ts = []) /\
    (0 <= signo < 32 -> pid > 0 ->
       (exists i p, procs st !! i = Some p /\ p_pid p = pid /\ (e, ts) = if may d c p signo then (0, [i]) else (EPERM, [])) \/
       ((e, ts) = (ESRCH, []) /\ forall i p l, pidhash d !! PIDHASH d pid = Some l -> i ∈ l -> procs st !! i = Some p -> p_pid p <> pid)) /\
    (0 <= signo < 32 -> pid <= 0 ->
       exists l, members st d (if pid =? -1 then 0 else s32 (- pid)) (pid =? -1) l /\
         ts = filter (fun i => target st d c signo (pid =? -1) i = true) l /\ (ts = [] -> e = ESRCH)).
Proof.
  intros Hra HG HF HT Hc. unfold kill. pose proof HT as [T1 T2 T3 T4 T5 T6].
  assert (Hno : forall e, e <> 0 -> Ret (e, st) = Ret (e, st) /\ post_all ra pa st [] signo = Ret st /\ good at_work st /\ (e = 0 <-> @nil nat <> [])).
  { intros e He. splits; try done. }
  destruct ((signo <? 0) || (signo >=? NSIG)) eqn:Eb.
  { exists EINVAL, st, []. destruct (Hno EINVAL ltac:(done)) as (_ & H2 & H3 & H4). unfold NSIG in Eb. rewrite Z.geb_leb in Eb.
    splits; try done; intros Hs; exfalso; lia. }
  assert (Hs : 0 <= signo < 32) by (unfold NSIG in Eb; rewrite Z.geb_leb in Eb; lia). clear Eb.
  destruct (Z.gtb_spec pid 0) as [Hp|Hp].
  - unfold pfind. destruct (T2 pid) as (l & Hl & Hv). rewrite Hl. cbn [read]. bind.
    destruct (pfind_chain_ok st pid l Hv) as [(i & p & -> & Hi & Hpi & Hid)|[-> Hn]]; bind.
    + rewrite (getp_at st cp c Hc), (getp_at st i p Hpi). bind. rewrite (CANSIGNAL_ok st d cp i c p signo T1 Hc Hpi). bind.
      destruct (may d c p signo) eqn:Em; cbn [negb].
      * destruct (post_ok at_work id ra pa id st i signo HG HF Hra (ex_intro _ p Hpi) Hs) as (st' & E & A). rewrite E. bind.
        exists 0, st', [i]. cbn [post_all]. rewrite E. bind. splits; try done; try lia; [apply A|]. intros _ _. left. exists i, p. by rewrite Em.
      * exists EPERM, st, []. destruct (Hno EPERM ltac:(done)) as (_ & H2 & H3 & H4). splits; try done; try lia. intros _ _. left. exists i, p. by rewrite Em.
    + exists ESRCH, st, []. destruct (Hno ESRCH ltac:(done)) as (_ & H2 & H3 & H4). splits; try done; try lia. intros _ _. right. split; [done|].
      intros i p l' Hl' Hi. assert (l' = l) as -> by congruence. by apply Hn.
  - assert (Ek : (if pid =? -1 then killpg1 ra pa st d cp signo 0 true else if pid =? 0 then killpg1 ra pa st d cp signo 0 false
       else killpg1 ra pa st d cp signo (s32 (- pid)) false) = killpg1 ra pa st d cp signo (if pid =? -1 then 0 else s32 (- pid)) (pid =? -1)).
    { destruct (Z.eqb_spec pid (-1)); [done|]. by destruct (Z.eqb_spec pid 0) as [->|]. }
    rewrite Ek. destruct (killpg1_ok at_work id ra pa id st d cp c signo (if pid =? -1 then 0 else s32 (- pid)) (pid =? -1) Hra Hs HG HF HT Hc) as (l & st' & Hm & E1 & E2 & A).
    set (ts := filter _ l) in *. eexists _, st', ts. split; [exact E1|]. split; [exact E2|]. split; [apply A|].
    split; [destruct (bool_decide_reflect (ts = [])); done|]. split; [lia|]. split; [lia|]. intros _ _. exists l. split; [done|]. split; [done|].
    intros Ht. by rewrite bool_decide_eq_true_2.
Qed.

Definition demo_ids : ids := Ids 0 [[0; 1; 2]%nat] [[0%nat]] [Pgrp 1 0 0 [0; 1; 2]%nat].

Lemma demo_procs i p : procs (demo (rqinit demo0)) !! i = Some p ->
  (i < 3)%nat /\ has (p_flag p) SSINTR = false /\ p_pgrp p = 0%nat.
Proof.
  intros E. pose proof (lookup_lt_Some _ _ _ E) as Hlt. change (i < 3)%nat in Hlt. split; [exact Hlt|].
  destruct i as [|[|[|i]]]; try lia; vm_compute in E; injection E as <-; by vm_compute.
Qed.

Lemma demo_in i : (i < 3)%nat -> exists p, procs (demo (rqinit demo0)) !! i = Some p.
Proof. intros Hi. apply lookup_lt_is_Some_2. exact Hi. Qed.

Lemma demo_tables : tables_ok (demo (rqinit demo0)) demo_ids.
Proof.
  assert (Hm : forall i, i ∈ [0; 1; 2]%nat -> (i < 3)%nat) by (intros i Hi; rewrite !elem_of_cons in Hi; destruct Hi as [->|[->|[->|Hi]]]; [lia..|by apply not_elem_of_nil in Hi]).
  assert (H0 : forall pid, PIDHASH demo_ids pid = 0%nat) by (intros pid; unfold PIDHASH; cbn; by rewrite Z.land_0_r).
  constructor.
  - intros i p E. destruct (demo_procs i p E) as (_ & _ & ->). by eexists.
  - intros pid. rewrite H0. eexists. split; [reflexivity|]. intros i Hi. apply demo_in. by apply Hm.
  - intros pid. rewrite H0. eexists. split; [reflexivity|]. intros g Hg. apply list_elem_of_singleton in Hg as ->. by eexists.
  - intros g pg i E Hi. destruct g as [|g]; [|done]. injection E as <-. apply demo_in. by apply Hm.
  - intros i Hi. apply demo_in. change (i ∈ [2; 1; 0]%nat) in Hi. apply Hm. rewrite !elem_of_cons in *. tauto.
  - apply demo_in. vm_compute. lia.
Qed.

Lemma kill_spec_witness : exists e st', kill 0x1040 demo_chan (demo (rqinit demo0)) demo_ids 0 1 40 = Ret (e, st') /\ e = EINVAL.
Proof.
  destruct (kill_spec 0x1040 demo_chan (demo (rqinit demo0)) demo_ids 0 (demo_proc SRUN) 1 40) as (e & st' & ts & E & _ & _ & _ & H & _).
  - lia.
  - exact (conj (ex_intro _ demo_sl (ex_intro _ (fun _ => []) demo_sched_inv)) demo_settled).
  - intros i p Ei Hf. destruct (demo_procs i p Ei) as (_ & H & _). congruence.
  - exact demo_tables.
  - reflexivity.
  - exact (ex_intro _ e (ex_intro _ st' (conj E (proj1 (H ltac:(lia)))))).
Defined.

End SigPost.
