(* ===== verification/SigTake.v ===== *)
(** issig and psig: which signal the current process takes, when it stops, and
    what happens then. *)
From stdpp Require Import base numbers list strings.
From Stdlib Require Import ZArith Lia.
From S2P Require Import Prelude Proc RunQueue KernSynch KernSig SigPost.

Module SigTake.
Import Proc RunQueue KernSynch KernSig SigPost.

(** ** A process about to give up the processor *)

(** It may be stopped already. *)
Definition leaving (s : pstat) : Prop := s <> SSLEEP.

Lemma leaving_sleep : ~ leaving SSLEEP.
Proof. by intros H. Qed.
Lemma good_leaving st : good at_work st -> good leaving st.
Proof.
  intros (H1 & H2 & H3). split; [done|]. split; [|done]. intros i p Hi. specialize (H2 i p Hi). destruct (_ && _); [|done].
  destruct H2 as [H2 H4]. split; [done|]. intros E. by rewrite E in H4.
Qed.

(** What issig is called on: the running process, with its user structure, its
    group and its parent; signals 1 to 31 only are pending; the list of all
    processes is one. *)
Record taker (st : kst) (u : user) (d : ids) (i : nat) (p : proc) : Prop := Taker {
  k_good : good at_work st;
  k_cur : i = u_procp st;
  k_busy : noproc (sys st) = false;
  k_proc : procs st !! i = Some p;
  k_sig : sig_ok p u;
  k_groups : groups_ok st d;
  k_pending : sigs31 (p_sig p);
  k_parent : p_pptr p <> i /\ exists pp, procs st !! p_pptr p = Some pp;
  k_args : schedcpu_args_ok st
}.

Lemma taker_off st u d i p : taker st u d i p -> p_rlink p = PNULL /\ at_work (p_stat p) /\ p_wchan p = 0.
Proof.
  intros [HG Hc Hb Hi _ _ _ _ _]. pose proof HG as ((sl & rq & HI) & HS & _). specialize (HS i p Hi).
  rewrite Hb, bool_decide_eq_true_2 in HS by done. cbn in HS. destruct HS as [H1 H2]. split; [done|]. split; [done|].
  destruct (decide (p_wchan p = 0)) as [|Hn]; [done|]. exfalso. destruct (i_sleep _ _ _ HI i p Hi Hn) as [E|E]; by rewrite E in H2.
Qed.

(** A change of the process that the scheduler does not see. *)
Lemma taker_put st u u' d i p q : taker st u d i p -> tame p q -> sig_ok q u' -> sigs31 (p_sig q) -> taker (putp st i q) u' d i q.
Proof.
  intros [HG Hc Hb Hi Hs Hd Hp [Hpi [pp Hpp]] Hargs] HT Hq H31.
  assert (A : adv at_work st (putp st i q)) by (by eapply adv_putp).
  assert (Ep : p_pptr q = p_pptr p) by (destruct HT as (_ & _ & _ & _ & _ & _ & _ & _ & (Hk & _)); by injection Hk).
  constructor; try done.
  - apply A.
  - by eapply putp_at.
  - by eapply groups_adv.
  - rewrite Ep. split; [done|]. by eapply adv_in; [exact A|exists pp].
  - eapply advances_args; [apply A|done].
Qed.

(** The state with some pending signals dropped. *)
Lemma taker_drop st u d i p m : taker st u d i p -> taker (putp st i (set_sig p (Z.ldiff (p_sig p) m))) u d i (set_sig p (Z.ldiff (p_sig p) m)) /\
  modp st i (fun p => set_sig p (Z.ldiff (p_sig p) m)) = Ret (putp st i (set_sig p (Z.ldiff (p_sig p) m))).
Proof.
  intros HT. split; [|by rewrite (modp_ok st i p _ (k_proc _ _ _ _ _ HT))]. apply (taker_put st u u d i p); [done|apply sig_tame|by destruct (k_sig _ _ _ _ _ HT); constructor|].
  intros t H1 H2. cbn. rewrite mem_ldiff. by rewrite (k_pending _ _ _ _ _ HT t H1 H2).
Qed.

(** And with one put in. *)
Lemma taker_add st u d i p s : taker st u d i p -> 1 <= s < 32 ->
  taker (putp st i (set_sig p (Z.lor (p_sig p) (sigmask s)))) u d i (set_sig p (Z.lor (p_sig p) (sigmask s))) /\
  modp st i (fun p => set_sig p (Z.lor (p_sig p) (sigmask s))) = Ret (putp st i (set_sig p (Z.lor (p_sig p) (sigmask s)))).
Proof.
  intros HT Hs. split; [|by rewrite (modp_ok st i p _ (k_proc _ _ _ _ _ HT))]. apply (taker_put st u u d i p); [done|apply sig_tame|by destruct (k_sig _ _ _ _ _ HT); constructor|].
  apply (sigs31_put true); [done|apply HT].
Qed.

(** The signals issig looks at. *)
Definition wanted (p : proc) : Z :=
  let mask := Z.ldiff (p_sig p) (p_sigmask p) in if has (p_flag p) SVFORK then Z.ldiff mask stopsigmask else mask.

Lemma wanted_mem p s : mem (wanted p) s =
  mem (p_sig p) s && negb (mem (p_sigmask p) s) && negb (has (p_flag p) SVFORK && mem stopsigmask s).
Proof.
  unfold wanted. destruct (has (p_flag p) SVFORK); rewrite !mem_ldiff; [done|]. by rewrite andb_true_r.
Qed.

Lemma wanted_drop p s t : 1 <= s -> 1 <= t -> mem (wanted (set_sig p (Z.ldiff (p_sig p) (sigmask s)))) t = mem (wanted p) t && negb (s =? t).
Proof.
  intros Hs Ht. rewrite !wanted_mem. cbn [set_sig p_sig p_sigmask p_flag]. rewrite mem_ldiff, mem_sigmask by lia.
  destruct (mem (p_sig p) t), (s =? t), (mem (p_sigmask p) t), (has (p_flag p) SVFORK && mem stopsigmask t); done.
Qed.

(** The signal found, the least one wanted. *)
Lemma wanted_ffs p : sigs31 (p_sig p) -> wanted p <> 0 ->
  1 <= ffs (wanted p) < 32 /\ mem (wanted p) (ffs (wanted p)) = true /\ forall t, 1 <= t < ffs (wanted p) -> mem (wanted p) t = false.
Proof.
  intros Hp E. assert (Hw : sigs31 (wanted p)) by (intros t H1 H2; rewrite wanted_mem; by rewrite Hp).
  destruct (ffs_spec (wanted p) E) as (H1 & H2 & H3); [by right|]. split; [|by split].
  destruct (Z.lt_ge_cases (ffs (wanted p)) 32) as [|Hge]; [lia|]. rewrite Hw in H2 by lia. done.
Qed.

(** ** What a piece of issig may end with *)

(** The action of a signal that is returned: not to ignore it, nor to stop. *)
Definition takes (p : proc) (u : user) (s : Z) : Prop :=
  exists h, u_signal u !! Z.to_nat s = Some h /\ h <> SIG_IGN /\
    (h = SIG_DFL -> p_ppid p <> 0 /\ mem stopsigmask s = false /\ mem defaultignmask s = false).

(** No pending signal that is caught is gone. *)
Definition keeps (p p' : proc) : Prop := forall t, 1 <= t -> mem (p_sigcatch p) t = true -> mem (p_sig p) t = true -> mem (p_sig p') t = true.
(** Some others may be; what is held and what is caught are the same. *)
Definition less (p p' : proc) : Prop :=
  (p_sigmask p' = p_sigmask p /\ p_flag p' = p_flag p) /\ p_sigcatch p' = p_sigcatch p /\ keeps p p' /\ forall t, 1 <= t -> mem (p_sig p') t = true -> mem (p_sig p) t = true.

Lemma less_refl p : less p p.
Proof. split; [done|]. split; [done|]. split; [by intros t|by intros t]. Qed.
(** Dropping a signal that is not caught. *)
Lemma keeps_drop p s p' : 1 <= s -> mem (p_sigcatch p) s = false -> keeps (set_sig p (Z.ldiff (p_sig p) (sigmask s))) p' -> keeps p p'.
Proof.
  intros Hs Hc H t Ht Hct Hm. apply H; [done|done|]. cbn. rewrite mem_ldiff, mem_sigmask, Hm by lia.
  destruct (Z.eqb_spec s t) as [->|]; [congruence|done].
Qed.
Lemma less_drop p s p' : 1 <= s -> mem (p_sigcatch p) s = false -> less (set_sig p (Z.ldiff (p_sig p) (sigmask s))) p' -> less p p'.
Proof.
  intros Hs Hc (H1 & H2 & H3 & H4). split; [exact H1|]. split; [exact H2|]. split; [by eapply keeps_drop|]. intros t Ht Hm. specialize (H4 t Ht Hm). cbn in H4. rewrite mem_ldiff in H4.
  by apply andb_true_iff in H4 as [? _].
Qed.

(** [p0] is the process as it was. *)
Definition issig_post (u : user) (d : ids) (i : nat) (p0 : proc) (r : piece) (st : kst) : Prop :=
  match r with
  | Again => False
  | Return s =>
      exists p, taker st u d i p /\ less p0 p /\
      if s =? 0 then forall t, 1 <= t -> mem (wanted p) t = false
      else 1 <= s < 32 /\ mem (p_sig p) s = true /\ mem (p_sigmask p) s = false /\ takes p u s
  | Swtch a =>
      good leaving st /\ i = u_procp st /\ schedcpu_args_ok st /\ exists p, procs st !! i = Some p /\ p_stat p = SSTOP /\
      match a with Stopped m => m = sigmask (p_xstat p) /\ mem (p_sig p) (p_xstat p) = true | Traced _ => True end /\ keeps p0 p
  end.

Lemma post_drop u d i p s r st : 1 <= s -> mem (p_sigcatch p) s = false -> issig_post u d i (set_sig p (Z.ldiff (p_sig p) (sigmask s))) r st -> issig_post u d i p r st.
Proof.
  intros Hs Hc. destruct r as [|t|a]; [done|..].
  - intros (q & H1 & H2 & H3). exists q. split; [done|]. split; [by eapply less_drop|done].
  - intros (H1 & H2 & H3 & q & H4 & H5 & H6 & H7). split; [done|]. split; [done|]. split; [done|]. exists q. split; [done|]. split; [done|]. split; [done|]. by eapply keeps_drop.
Qed.

(** A signal that is ignored, or left to its default, is not caught. *)
Lemma caught_iff p u s h : sig_ok p u -> 1 <= s < 32 -> u_signal u !! Z.to_nat s = Some h -> mem (p_sigcatch p) s = true <-> h <> SIG_DFL /\ h <> SIG_IGN.
Proof.
  intros Hk Hs Hh. destruct (so_act _ _ Hk s h Hs Hh) as [-> _]. rewrite andb_true_iff, !negb_true_iff, !Z.eqb_neq. done.
Qed.
Lemma ignored_uncaught p u s : sig_ok p u -> 1 <= s < 32 -> mem (p_sigignore p) s = true -> mem (p_sigcatch p) s = false.
Proof.
  intros Hk Hs Hi. destruct (lookup_lt_is_Some_2 (u_signal u) (Z.to_nat s)) as [h Hh]; [rewrite (so_len _ _ Hk); lia|].
  destruct (so_act _ _ Hk s h Hs Hh) as [-> H2]. rewrite H2 in Hi. apply andb_true_iff in Hi as [_ Hi]. apply orb_true_iff in Hi as [Hi|Hi]; [by rewrite Hi, andb_false_r|].
  apply andb_true_iff in Hi as [Hi _]. by rewrite Hi.
Qed.

Section take.
Variable runout_addr : Z.
Variable proc_addr : nat -> Z.
Hypothesis ra_pos : runout_addr <> 0.

(** Stopping, with the parent told before or after. *)
Lemma tell_ok w st (i : nat) j q : ~ w SSLEEP -> good w st -> procs st !! j = Some q -> j <> u_procp st ->
  exists st', psignal runout_addr proc_addr st j SIGCHLD = Ret st' /\ adv w st st' /\ frame [runout_addr] (eq j) st st'.
Proof.
  intros Hw HG Hj Hne. destruct (psignal_plain w Hw runout_addr proc_addr 1 st j q SIGCHLD) as (st' & p' & E & A & _ & _ & F);
    [done|done|unfold SIGCHLD; lia| |by intros _ H|by exists st'].
  intros a _. apply chld_plain.
Qed.

Lemma stop_now st u d i p s : taker st u d i p -> 1 <= s < 32 -> mem (p_sig p) s = true ->
  exists st1, modp st i (fun p => set_xstat p s) = Ret st1 /\
    (exists st2 p2, stop runout_addr proc_addr st1 i = Ret st2 /\ adv leaving st1 st2 /\ procs st2 !! i = Some p2 /\ p_stat p2 = SSTOP /\
       p_sig p2 = p_sig p /\ p_xstat p2 = s /\ p_wchan p2 = 0 /\ p_pptr p2 = p_pptr p) /\
    taker st1 u d i (set_xstat p s).
Proof.
  intros HT Hs Hm. pose proof HT as [HG Hc Hb Hi Hsg Hd Hp [Hpi [pp Hpp]] Hargs]. destruct (taker_off _ _ _ _ _ HT) as (Hr & Hw & Hwc).
  exists (putp st i (set_xstat p s)). split; [by rewrite (modp_ok st i p _ Hi)|]. set (q := set_xstat p s).
  assert (Tq : tame p q) by (unfold tame; splits; try done; by left).
  assert (A : adv at_work st (putp st i q)) by (by eapply adv_putp). split.
  - assert (Hi1 : procs (putp st i q) !! i = Some q) by (by eapply putp_at).
    destruct (stop_ok leaving leaving_sleep runout_addr proc_addr (putp st i q) i q) as (st2 & p2 & E & A2 & P2 & S2 & G2 & X2 & _);
      [apply good_leaving, A|done|done|done|].
    exists st2, p2. split; [done|]. split; [done|]. split; [done|]. split; [done|]. split; [by rewrite G2|]. split; [by rewrite X2|].
    destruct A2 as [(_ & _ & _ & _ & HW) HK]. split.
    + destruct (Forall2_lookup_l _ _ _ _ _ HW Hi1) as (p3 & E3 & Hx). rewrite P2 in E3. injection E3 as <-.
      destruct Hx as [->|]; [exact Hwc|done].
    + destruct (Forall2_lookup_l _ _ _ _ _ HK Hi1) as (p3 & E3 & (Hx & _)). rewrite P2 in E3. injection E3 as <-.
      by injection Hx as -> _ _ _ _ _.
  - constructor; try done.
    + apply A.
    + by eapply putp_at.
    + destruct Hsg. by constructor.
    + by eapply groups_adv.
    + split; [done|]. by eapply adv_in; [exact A|exists pp].
    + eapply advances_args; [apply A|done].
Qed.

(** After a step that leaves the running process as it is. *)
Lemma taker_adv st st' u d i p p' : taker st u d i p -> adv at_work st st' -> procs st' !! i = Some p' -> core p' = core p -> taker st' u d i p'.
Proof.
  intros [HG Hc Hb Hi Hs Hd Hp [Hpi [pp Hpp]] Hargs] A Hi' C. pose proof A as [(HG' & _ & EU & [_ EN] & _) _].
  pose proof (core_fields _ _ C) as (_ & _ & _ & _ & _ & _ & _ & C8).
  assert (E1 : p_sigmask p' = p_sigmask p) by exact (f_equal p_sigmask C).
  assert (E2 : p_sigcatch p' = p_sigcatch p) by exact (f_equal p_sigcatch C).
  assert (E3 : p_sigignore p' = p_sigignore p) by exact (f_equal p_sigignore C).
  assert (E4 : p_pptr p' = p_pptr p) by exact (f_equal p_pptr C).
  constructor; try done.
  - congruence.
  - congruence.
  - destruct Hs as [G1 G2 G3 G4 G5 G6 G7 G8]. constructor; try done; [by rewrite E1|by rewrite E2, E3|by rewrite E2].
  - by eapply groups_adv.
  - by rewrite C8.
  - rewrite E4. split; [done|]. by eapply adv_in; [exact A|exists pp].
  - eapply advances_args; [apply A|done].
Qed.

(** A traced process tells its parent, then stops. *)
Lemma tell_and_stop st u d i p m : taker st u d i p ->
  exists r st', (st ← psignal runout_addr proc_addr st (p_pptr p) SIGCHLD; st ← stop runout_addr proc_addr st i; Ret (Swtch (Traced m), st)) = Ret (r, st') /\
    match r with Swtch _ => issig_post u d i p r st' | _ => False end.
Proof.
  intros HT. pose proof HT as [HG Hc Hb Hi Hsg Hd Hp [Hpi [pp Hpp]] Hargs].
  destruct (tell_ok at_work st i (p_pptr p) pp) as (st2 & -> & A2 & F2); [by intros H|done|done|congruence|]. bind.
  destruct (F2 i p) as (p2 & Hi2 & _ & C2); [congruence|done|]. destruct (taker_off _ _ _ _ _ HT) as (_ & _ & Hwc).
  specialize (C2 ltac:(rewrite Hwc; intros Hx; apply list_elem_of_singleton in Hx; congruence)).
  pose proof (taker_adv _ _ _ _ _ _ _ HT A2 Hi2 C2) as HT2. destruct (taker_off _ _ _ _ _ HT2) as (Hr & Hw & _).
  destruct (stop_ok leaving leaving_sleep runout_addr proc_addr st2 i p2) as (st3 & p3 & -> & A3 & P3 & S3 & G3 & X3 & _);
    [by apply good_leaving, HT2|done|done|done|]. bind. eexists _, st3. split; [done|]. cbn [issig_post].
  split; [apply A3|]. split; [destruct A3 as [(_ & _ & -> & _) _]; apply (k_cur _ _ _ _ _ HT2)|].
  split; [eapply advances_args; [apply A3|apply HT2]|]. exists p3. split; [done|]. split; [done|]. split; [done|]. intros t _ _. by rewrite G3, (proj2 (proj2 (proj2 (proj2 (proj2 (proj2 (proj2 (core_fields _ _ C2)))))))).
Qed.

Lemma sig_put_mem p s : 1 <= s -> mem (Z.lor (p_sig p) (sigmask s)) s = true.
Proof. intros H. rewrite mem_lor, mem_sigmask, Z.eqb_refl by lia. apply orb_true_r. Qed.

(** The action of the signal found. *)
Lemma issig_decide_ok st u d i p s : taker st u d i p -> 1 <= s < 32 -> mem (p_sig p) s = true ->
  exists r st', issig_decide runout_addr proc_addr st u d i s (sigmask s) = Ret (r, st') /\
    match r with
    | Again => taker st' u d i (set_sig p (Z.ldiff (p_sig p) (sigmask s))) /\ mem (p_sigcatch p) s = false
    | Return t => t = s /\ st' = st /\ takes p u s
    | Swtch _ => issig_post u d i p r st'
    end.
Proof.
  intros HT Hs Hm. pose proof HT as [HG Hc Hb Hi Hsg Hd Hp [Hpi [pp Hpp]] Hargs]. unfold issig_decide. rewrite (getp_at st i p Hi). bind.
  destruct (lookup_lt_is_Some_2 (u_signal u) (Z.to_nat s)) as [h Hh]; [rewrite (so_len _ _ Hsg); lia|]. rewrite Hh. cbn [read]. bind.
  destruct (taker_drop st u d i p (sigmask s) HT) as [HT' Emod]. rewrite Emod. bind.
  assert (Htake : h = SIG_DFL \/ h = SIG_IGN -> exists r st', Ret (Again, putp st i (set_sig p (Z.ldiff (p_sig p) (sigmask s)))) = Ret (r, st') /\
    match r with
    | Again => taker st' u d i (set_sig p (Z.ldiff (p_sig p) (sigmask s))) /\ mem (p_sigcatch p) s = false
    | Return t => t = s /\ st' = st /\ takes p u s
    | Swtch _ => issig_post u d i p r st'
    end).
  { intros Hx. eexists Again, _. split; [done|]. split; [exact HT'|]. apply not_true_iff_false. rewrite (caught_iff p u s h Hsg Hs Hh). tauto. }
  assert (Hret : (h = SIG_DFL -> p_ppid p <> 0 /\ mem stopsigmask s = false /\ mem defaultignmask s = false) -> h <> SIG_IGN ->
    exists r st', Ret (Return s, st) = Ret (r, st') /\
    match r with
    | Again => taker st' u d i (set_sig p (Z.ldiff (p_sig p) (sigmask s))) /\ mem (p_sigcatch p) s = false
    | Return t => t = s /\ st' = st /\ takes p u s
    | Swtch _ => issig_post u d i p r st'
    end).
  { intros H1 H2. eexists (Return s), st. split; [done|]. split; [done|]. split; [done|]. by exists h. }
  destruct (Z.eqb_spec h SIG_DFL) as [Eh|Eh].
  2:{ destruct (Z.eqb_spec h SIG_IGN) as [Ei|Ei]; [by apply Htake; right|by apply Hret]. }
  specialize (Htake (or_introl Eh)). destruct (Z.eqb_spec (p_ppid p) 0) as [Epp|Epp]; [done|]. rewrite !sigmask_has by lia.
  destruct (mem stopsigmask s) eqn:Est.
  2:{ destruct (mem defaultignmask s) eqn:Edi; [done|]. apply Hret; [done|by rewrite Eh]. }
  destruct (Hd i p Hi) as (pg & Hpg). rewrite Hpg. cbn [read]. bind. destruct (_ || _); [done|].
  destruct (stop_now st u d i p s HT Hs Hm) as (st1 & -> & (st2 & p2 & E2 & A2 & P2 & S2 & G2 & X2 & W2 & F2) & HT1). bind. rewrite E2. bind.
  rewrite (getp_at st2 i p2 P2). bind. rewrite F2.
  assert (Hcur : u_procp st2 = i).
  { destruct A2 as [(_ & _ & -> & _) _]. symmetry. apply (k_cur _ _ _ _ _ HT1). }
  assert (Hpp2 : exists q, procs st2 !! p_pptr p = Some q).
  { eapply adv_in; [exact A2|]. apply (k_parent _ _ _ _ _ HT1). }
  destruct Hpp2 as [q Hq]. rewrite (getp_at st2 _ q Hq). bind.
  assert (H3 : exists st3, (if has (p_flag q) SNOCLDSTOP then Ret st2 else psignal runout_addr proc_addr st2 (p_pptr p) SIGCHLD) = Ret st3 /\
    adv leaving st2 st3 /\ frame [runout_addr] (eq (p_pptr p)) st2 st3).
  { destruct (has (p_flag q) SNOCLDSTOP); [exists st2; split; [done|]; split; [apply adv_refl, A2|apply kept_refl]|].
    apply (tell_ok leaving st2 i (p_pptr p) q leaving_sleep); [apply A2|done|by rewrite Hcur]. }
  destruct H3 as (st3 & -> & A3 & Fr3). bind. eexists _, st3. split; [done|]. cbn [issig_post].
  destruct (Fr3 i p2) as (p3 & Hp3 & _ & C3); [congruence|done|]. specialize (C3 ltac:(rewrite W2; intros Hx; apply list_elem_of_singleton in Hx; congruence)).
  split; [apply A3|]. split; [destruct A3 as [(_ & _ & -> & _) _]; by symmetry|].
  split; [eapply advances_args; [apply A3|]; eapply advances_args; [apply A2|apply HT1]|]. exists p3. split; [done|].
  pose proof (core_fields _ _ C3) as (D1 & _ & _ & _ & _ & _ & _ & D8). split; [congruence|].
  assert (D9 : p_xstat p3 = p_xstat p2) by exact (f_equal p_xstat C3). rewrite D8, D9, X2, G2. split; [by split|]. intros t _ _. by rewrite D8, G2.
Qed.

(** Once round the loop. *)
Lemma issig_round_ok st u d i p : taker st u d i p ->
  exists r st', issig_round runout_addr proc_addr st u d i = Ret (r, st') /\
    match r with
    | Again => wanted p <> 0 /\ mem (p_sigcatch p) (ffs (wanted p)) = false /\ taker st' u d i (set_sig p (Z.ldiff (p_sig p) (sigmask (ffs (wanted p)))))
    | _ => issig_post u d i p r st'
    end.
Proof.
  intros HT. pose proof HT as [HG Hc Hb Hi Hsg Hd Hp [Hpi [pp Hpp]] Hargs]. unfold issig_round. rewrite (getp_at st i p Hi). bind.
  fold (wanted p). destruct (Z.eqb_spec (wanted p) 0) as [E|E].
  { exists (Return 0), st. split; [done|]. exists p. split; [done|]. split; [apply less_refl|]. intros t _. by rewrite E, mem_0. }
  destruct (wanted_ffs p Hp E) as (Hs & Hm & _). set (s := ffs (wanted p)) in *. clearbody s.
  assert (Hms : mem (p_sig p) s = true) by (rewrite wanted_mem in Hm; by destruct (mem (p_sig p) s)).
  destruct (taker_drop st u d i p (sigmask s) HT) as [HT' Emod]. destruct (_ && _) eqn:Eign.
  { rewrite Emod. bind. eexists Again, _. split; [done|]. split; [done|]. split; [|done]. apply andb_true_iff in Eign as [Eign _]. rewrite has_comm, has_sigmask in Eign by lia.
    by apply (ignored_uncaught p u). }
  destruct (has (p_flag p) STRC && _).
  - destruct (stop_now st u d i p s HT Hs Hms) as (st1 & -> & _ & HT1). bind.
    destruct (tell_and_stop st1 u d i (set_xstat p s) (sigmask s) HT1) as (r & st' & E1 & E2). exists r, st'. split; [exact E1|]. by destruct r.
  - destruct (issig_decide_ok st u d i p s HT Hs Hms) as (r & st' & E1 & E2). exists r, st'. split; [exact E1|].
    destruct r as [|t|a]; [by destruct E2| |done]. destruct E2 as (-> & -> & Ht). exists p. split; [done|]. split; [apply less_refl|].
    replace (s =? 0) with false by (symmetry; apply Z.eqb_neq; lia). splits; try done; try lia. rewrite wanted_mem, Hms in Hm. by destruct (mem (p_sigmask p) s).
Qed.

(** Dropping the signal found leaves the others wanted, and none below it. *)
Lemma issig_loop_ok : forall fuel k st u d i p, taker st u d i p -> 1 <= k <= 32 -> 33 <= Z.of_nat fuel + k ->
  (forall t, 1 <= t < k -> mem (wanted p) t = false) ->
  exists r st', issig_loop runout_addr proc_addr fuel st u d i = Ret (r, st') /\ issig_post u d i p r st'.
Proof.
  induction fuel as [|fuel IH]; intros k st u d i p HT Hk Hf Hlow; [lia|]. cbn [issig_loop].
  destruct (issig_round_ok st u d i p HT) as (r & st1 & -> & H1). bind.
  destruct r as [|s|a]; [|by eexists _, st1..]. destruct H1 as (Hw & Hcu & HT1).
  destruct (wanted_ffs p (k_pending _ _ _ _ _ HT) Hw) as (Hs & Hm & Hl). set (s := ffs (wanted p)) in *. clearbody s.
  assert (Hge : k <= s).
  { destruct (Z.le_gt_cases k s) as [|Hlt]; [done|]. rewrite Hlow in Hm by lia. done. }
  destruct (IH (s + 1) st1 u d i _ HT1) as (r & st' & E1 & E2); [lia|lia| |exists r, st'; split; [exact E1|exact (post_drop _ _ _ _ s _ _ ltac:(lia) Hcu E2)]].
  intros t Ht. rewrite wanted_drop by lia.
  destruct (Z.eqb_spec s t) as [->|Hne]; [by rewrite andb_false_r|]. by rewrite Hl by lia.
Qed.

Variable procxmt : kst -> nat -> outcome (bool * kst).

(** The requests of a tracing parent that leave the process as issig needs it: it
    is the running process still, and the signal left for it is one of 0 to 31. *)
Definition procxmt_ok (u : user) (d : ids) (st : kst) (i : nat) : Prop :=
  exists go st' p', procxmt st i = Ret (go, st') /\ taker st' u d i p' /\ 0 <= p_xstat p' < 32.

Lemma issig_ok st u d p : taker st u d (u_procp st) p ->
  exists r st', issig runout_addr proc_addr st u d = Ret (r, st') /\ issig_post u d (u_procp st) p r st'.
Proof. intros HT. apply (issig_loop_ok 33 1 _ _ _ _ _ HT); lia. Qed.

(** What follows the return of swtch. *)
Lemma issig_resume_ok st u d p a : taker st u d (u_procp st) p -> match a with Traced _ => procxmt_ok u d st (u_procp st) | Stopped _ => True end ->
  exists r st' p0, issig_resume runout_addr proc_addr procxmt st u d a = Ret (r, st') /\ issig_post u d (u_procp st) p0 r st'.
Proof.
  intros HT Ha. unfold issig_resume. set (i := u_procp st) in *.
  assert (Hloop : forall st1 p1, taker st1 u d i p1 -> exists r st' p0, issig_loop runout_addr proc_addr 33 st1 u d i = Ret (r, st') /\ issig_post u d i p0 r st').
  { intros st1 p1 H1. destruct (issig_loop_ok 33 1 _ _ _ _ _ H1) as (r & st' & E1 & E2); [lia..|]. by exists r, st', p1. }
  destruct a as [m|m]; cbn [issig_back].
  2:{ destruct (taker_drop st u d i p m HT) as [HT' ->]. bind. by eapply Hloop. }
  destruct Ha as (go & st1 & p1 & -> & HT1 & Hx). bind. rewrite (getp_at st1 i p1 (k_proc _ _ _ _ _ HT1)). bind.
  destruct (negb go && _).
  { destruct (taker_off _ _ _ _ _ HT1) as (Hr & _ & _).
    destruct (stop_ok leaving leaving_sleep runout_addr proc_addr st1 i p1) as (st3 & p3 & -> & A3 & P3 & S3 & G3 & _); [by apply good_leaving, HT1|apply HT1|done|done|].
    bind. eexists _, st3, p1. split; [done|]. cbn [issig_post]. split; [apply A3|]. split; [destruct A3 as [(_ & _ & -> & _) _]; apply (k_cur _ _ _ _ _ HT1)|].
    split; [eapply advances_args; [apply A3|apply HT1]|]. exists p3. split; [done|]. split; [done|]. split; [done|]. intros t _ _. by rewrite G3. }
  destruct (negb (has (p_flag p1) STRC)); [bind; by eapply Hloop|].
  destruct (taker_drop st1 u d i p1 m HT1) as [HT2 ->]. bind. set (p2 := set_sig p1 _) in *. set (st2 := putp st1 i p2) in *.
  destruct (Z.eqb_spec (p_xstat p1) 0) as [E0|E0]; [bind; by eapply Hloop|].
  destruct (taker_add st2 u d i p2 (p_xstat p1) HT2) as [HT3 ->]; [lia|]. bind. set (p3 := set_sig p2 _) in *.
  destruct (has (p_sigmask p1) _) eqn:Em; [bind; by eapply Hloop|]. rewrite has_sigmask in Em by lia.
  assert (Hm3 : mem (p_sig p3) (p_xstat p1) = true) by (apply (sig_put_mem p2); lia).
  destruct (issig_decide_ok _ u d i p3 (p_xstat p1) HT3) as (r & st' & -> & H); [lia|done|]. bind.
  destruct r as [|s|a]; [destruct H as [H _]; by eapply Hloop| |by exists (Swtch a), st', p3]. destruct H as (-> & -> & Ht). eexists _, _, p3. split; [done|]. cbn [issig_post].
  exists p3. split; [done|]. split; [apply less_refl|]. replace (p_xstat p1 =? 0) with false by (symmetry; by apply Z.eqb_neq). splits; try done; lia.
Qed.

Lemma CURSIG_ok st u d p : taker st u d (u_procp st) p ->
  exists r st', CURSIG runout_addr proc_addr st u d = Ret (r, st') /\ issig_post u d (u_procp st) p r st'.
Proof.
  intros HT. unfold CURSIG. rewrite (getp_at st _ p (k_proc _ _ _ _ _ HT)). bind. destruct (_ || _) eqn:Eb; [|by apply issig_ok].
  exists (Return 0), st. split; [done|]. exists p. split; [done|]. split; [apply less_refl|]. intros t Ht. rewrite wanted_mem, <- mem_ldiff.
  apply orb_true_iff in Eb as [Eb|Eb].
  - apply Z.eqb_eq in Eb. by rewrite Eb, mem_ldiff, mem_0.
  - apply andb_true_iff in Eb as [_ Eb]. apply Z.eqb_eq in Eb. by rewrite Eb, mem_0.
Qed.

(** ** psig *)

(** The process after its handler has been called for. *)
Definition delivered (p : proc) (m s : Z) : proc :=
  let q := set_sig p (Z.ldiff (p_sig p) (sigmask s)) in
  let q := if has (p_flag q) SOMASK then set_flag q (Z.ldiff (p_flag q) SOMASK) else q in
  set_sigmask q (Z.lor (p_sigmask q) (Z.lor m (sigmask s))).

Lemma delivered_tame p m s : tame p (delivered p m s).
Proof.
  unfold delivered. cbn [set_sig p_flag].
  assert (Hf : forall b, 1 <= b -> b <> 10 -> has (Z.ldiff (p_flag p) SOMASK) (sigmask b) = has (p_flag p) (sigmask b)).
  { intros b Hb1 Hb2. rewrite !has_sigmask by lia. change SOMASK with (sigmask 10). rewrite mem_ldiff, mem_sigmask by lia.
    replace (10 =? b) with false by (symmetry; apply Z.eqb_neq; congruence). apply andb_true_r. }
  assert (F1 := Hf 1 ltac:(lia) ltac:(lia)). assert (F7 := Hf 7 ltac:(lia) ltac:(lia)). assert (F2 := Hf 2 ltac:(lia) ltac:(lia)). clear Hf.
  destruct (has (p_flag p) SOMASK); unfold tame; cbn; splits; try done; by left.
Qed.

Lemma delivered_sig p m s : p_sig (delivered p m s) = Z.ldiff (p_sig p) (sigmask s) /\ p_sigmask (delivered p m s) = Z.lor (p_sigmask p) (Z.lor m (sigmask s)) /\
  p_sigcatch (delivered p m s) = p_sigcatch p /\ p_sigignore (delivered p m s) = p_sigignore p.
Proof. unfold delivered. cbn [set_sig p_flag]. by destruct (has (p_flag p) SOMASK). Qed.

(** The status psig exits with, and what it has logged. *)
Definition killed (core_ok : bool) (u : user) (s : Z) : user :=
  if core_sig s then log (log u EvCore) (EvExit (if core_ok then Z.lor s WCOREFLAG else s)) else log u (EvExit s).

Lemma sig_ok_log p u e : sig_ok p u -> sig_ok p (log u e).
Proof. intros []. by constructor. Qed.

Lemma psig_round_ok st u d p s core_ok : taker st u d (u_procp st) p -> 1 <= s < 32 -> mem (p_sigmask p) s = false -> takes p u s ->
  exists h m, u_signal u !! Z.to_nat s = Some h /\ u_sigmask u !! Z.to_nat s = Some m /\
  if h =? SIG_DFL
  then psig_round st u s core_ok = Ret (false, putp st (u_procp st) (set_sig p (Z.ldiff (p_sig p) (sigmask s))), killed core_ok u s)
  else let u' := log u (EvSend h s (if has (p_flag p) SOMASK then u_oldmask u else p_sigmask p) 0) in
    let st' := putp st (u_procp st) (delivered p m s) in
    psig_round st u s core_ok = Ret (true, st', u') /\ taker st' u' d (u_procp st) (delivered p m s).
Proof.
  intros HT Hs Hm (h & Hh & Hign & Hdfl). set (i := u_procp st) in *. destruct (old_action_ret p u s (k_sig _ _ _ _ _ HT) Hs) as (h' & m & E1 & E2).
  rewrite Hh in E1. injection E1 as <-. exists h, m. split; [done|]. split; [done|].
  unfold psig_round. fold i. rewrite (getp_at st i p (k_proc _ _ _ _ _ HT)). bind. replace (s =? 0) with false by (symmetry; apply Z.eqb_neq; lia).
  rewrite Hh. cbn [read]. bind. destruct (Z.eqb_spec h SIG_DFL) as [Eh|Eh]; cbn [negb].
  { unfold killed. by destruct (core_sig s). }
  replace (h =? SIG_IGN) with false by (symmetry; by apply Z.eqb_neq). cbn [orb set_sig p_sigmask p_flag]. rewrite has_sigmask, Hm by lia.
  rewrite E2. cbn [read]. bind. split; [unfold delivered; cbn [set_sig p_flag]; by destruct (has (p_flag p) SOMASK)|].
  destruct (delivered_sig p m s) as (D1 & D2 & D3 & D4).
  apply (taker_put st u _ d i p _ HT (delivered_tame p m s)).
  - apply sig_ok_log. destruct (k_sig _ _ _ _ _ HT) as [G1 G2 G3 G4 G5 G6 [G7 G7'] G8]. constructor; rewrite ?D2, ?D3, ?D4; try done.
    apply safe_lor; [done|]. apply safe_lor.
    + rewrite Forall_forall in G5. apply G5. by apply list_elem_of_lookup_2 in E2.
    + apply safe_sigmask; [lia|intros ->; congruence..].
  - intros t H1 H2. rewrite D1, mem_ldiff. by rewrite (k_pending _ _ _ _ _ HT t H1 H2).
Qed.

(** The signals that could still be taken: each handler called for is one less. *)
Definition open_sig (p : proc) (t : Z) : bool := mem (p_sig p) t && negb (mem (p_sigmask p) t).
Definition opens (p : proc) : nat := length (filter (fun t => open_sig p t = true) (seqZ 1 31)).

Lemma filter_shrinks (f g : Z -> bool) x : forall l, (forall y, y ∈ l -> g y = true -> f y = true) -> x ∈ l -> f x = true -> g x = false ->
  (length (filter (fun y => g y = true) l) < length (filter (fun y => f y = true) l))%nat.
Proof.
  assert (Hle : forall l, (forall y, y ∈ l -> g y = true -> f y = true) -> (length (filter (fun y => g y = true) l) <= length (filter (fun y => f y = true) l))%nat).
  { induction l as [|y l IH]; intros H; [done|]. rewrite !filter_cons. specialize (IH (fun z Hz => H z (list_elem_of_further _ _ _ Hz))).
    specialize (H y (list_elem_of_here _ _)). repeat case_decide; cbn; lia || (exfalso; tauto). }
  induction l as [|y l IH]; intros H Hx Hf Hg; [by apply not_elem_of_nil in Hx|]. rewrite !filter_cons.
  assert (Hl : forall z, z ∈ l -> g z = true -> f z = true) by (intros z Hz; apply H, elem_of_cons; by right). specialize (Hle l Hl).
  apply elem_of_cons in Hx as [<-|Hx].
  - rewrite (decide_False (P := g x = true)), (decide_True (P := f x = true)) by congruence. cbn. lia.
  - specialize (IH Hl Hx Hf Hg). specialize (H y (list_elem_of_here _ _)). repeat case_decide; cbn; lia || (exfalso; tauto).
Qed.

Lemma delivered_open p m s p1 : less (delivered p m s) p1 -> 1 <= s ->
  open_sig p1 s = false /\ forall t, 1 <= t -> open_sig p1 t = true -> open_sig p t = true.
Proof.
  intros ([H1 _] & _ & _ & H2) Hs. destruct (delivered_sig p m s) as (D1 & D2 & _). rewrite D2 in H1. unfold open_sig. rewrite H1. split.
  - rewrite !mem_lor, mem_sigmask, Z.eqb_refl, !orb_true_r by lia. apply andb_false_r.
  - intros t Ht Hm. apply andb_true_iff in Hm as [Hm1 Hm2]. specialize (H2 t Ht Hm1). rewrite D1, mem_ldiff in H2.
    apply andb_true_iff in H2 as [-> _]. rewrite mem_lor in Hm2. by destruct (mem (p_sigmask p) t).
Qed.

Lemma opens_lt p m s p1 : 1 <= s < 32 -> open_sig p s = true -> less (delivered p m s) p1 -> (opens p1 < opens p)%nat.
Proof.
  intros Hs Ho Hl. destruct (delivered_open p m s p1 Hl) as [H1 H2]; [lia|]. apply (filter_shrinks _ _ s); [|apply elem_of_seqZ; lia|done|done].
  intros t Ht. apply H2. apply elem_of_seqZ in Ht. lia.
Qed.

Definition logs (u : user) (evs : list event) : user :=
  User (u_signal u) (u_sigmask u) (u_sigonstack u) (u_sigintr u) (u_oldmask u) (u_sigstack u) (u_code u) (evs ++ u_events u).
Lemma logs_log u e evs : logs (log u e) evs = logs u (evs ++ [e]).
Proof. unfold logs, log. cbn. by rewrite <- app_assoc. Qed.

(** The mask a handler is to restore. *)
Definition restore (u : user) (p : proc) : Z := if has (p_flag p) SOMASK then u_oldmask u else p_sigmask p.
(** The calls for the signals [ss], from the held signals [mask], with [rm] for the
    first to restore: what is logged, newest first, and the signals held then.  Each
    handler runs with its signal and its own mask held besides. *)
Fixpoint calls_of (acts masks : list Z) (mask rm : Z) (ss : list Z) : list event * Z :=
  match ss with
  | [] => ([], mask)
  | s :: ss =>
      let mask := Z.lor mask (Z.lor (default 0 (masks !! Z.to_nat s)) (sigmask s)) in
      let '(evs, mask') := calls_of acts masks mask mask ss in
      (evs ++ [EvSend (default SIG_DFL (acts !! Z.to_nat s)) s rm 0], mask')
  end.

(** What becomes of the signals of [p] that are pending and caught when [ss] have been
    handled: each has been, or is pending still. *)
Definition none_lost (p q : proc) (ss : list Z) : Prop :=
  forall t, 1 <= t -> mem (p_sigcatch p) t = true -> mem (p_sig p) t = true -> t ∈ ss \/ mem (p_sig q) t = true.

(** psig has handled [ss], and ended with [e]; [evs] is what it logged, newest first. *)
Record handled (core_ok : bool) (u : user) (d : ids) (i : nat) (p : proc) (ss : list Z) (e : psig_end) (st : kst) (evs : list event) : Prop := Handled {
  hd_open : Forall (fun t => 1 <= t < 32 /\ open_sig p t = true /\ mem (p_sigcatch p) t = true) ss;
  hd_once : NoDup ss;
  hd_end : let '(calls, mask) := calls_of (u_signal u) (u_sigmask u) (p_sigmask p) (restore u p) ss in
    match e with
    | NoMore => evs = calls /\ exists q, taker st (logs u evs) d i q /\ p_sigmask q = mask /\ (forall t, 1 <= t -> mem (wanted q) t = false) /\
        none_lost p q ss /\ forall t, 1 <= t -> mem (p_sig q) t = true -> mem (p_sig p) t = true /\ t ∉ ss
    | Exited => exists t, u_signal u !! Z.to_nat t = Some SIG_DFL /\ open_sig p t = true /\
        evs = (if core_sig t then [EvExit (if core_ok then Z.lor t WCOREFLAG else t); EvCore] else [EvExit t]) ++ calls
    | Away a => evs = calls /\ good leaving st /\ i = u_procp st /\ exists q, procs st !! i = Some q /\ p_stat q = SSTOP /\ none_lost p q ss
    end
}.

(** What psig does with signal [s]: if it is caught its handler is the first called;
    if not, no handler is. *)
Definition psig_post (core_ok : bool) (u : user) (d : ids) (i : nat) (p : proc) (s : Z) (e : psig_end) (st : kst) (evs : list event) : Prop :=
  exists ss, handled core_ok u d i p ss e st evs /\ if mem (p_sigcatch p) s then head ss = Some s else ss = [] /\ e = Exited.

(** The first round's handler, and what the others do. *)
Lemma none_lost_cons p m s p1 q ss : 1 <= s -> less (delivered p m s) p1 -> none_lost p1 q ss -> none_lost p q (s :: ss).
Proof.
  intros Hs (_ & Hc & Hk & _) H t Ht Hct Hm. destruct (delivered_sig p m s) as (D1 & _ & D3 & _). destruct (Z.eq_dec t s) as [->|Hne]; [left; apply elem_of_cons; by left|].
  destruct (H t Ht) as [Hx|Hx]; [by rewrite Hc, D3|apply Hk; [done|by rewrite D3|]|left; apply elem_of_cons; by right|by right].
  rewrite D1, mem_ldiff, mem_sigmask, Hm by lia. destruct (Z.eqb_spec s t); [congruence|done].
Qed.

Lemma handled_cons core_ok u d i p h m s e st evs p1 ss : 1 <= s < 32 -> open_sig p s = true -> mem (p_sigcatch p) s = true ->
  u_signal u !! Z.to_nat s = Some h -> u_sigmask u !! Z.to_nat s = Some m -> less (delivered p m s) p1 ->
  handled core_ok (log u (EvSend h s (restore u p) 0)) d i p1 ss e st evs -> handled core_ok u d i p (s :: ss) e st (evs ++ [EvSend h s (restore u p) 0]).
Proof.
  intros Hs Ho Hc Hh Hm Hl [P1 P2 P3]. destruct (delivered_open p m s p1 Hl) as [O1 O2]; [lia|]. destruct (delivered_sig p m s) as (D1 & D2 & D3 & D4).
  pose proof Hl as ([L1 L2] & L3 & _ & L5). rewrite Forall_forall in P1. constructor.
  - constructor; [by split|]. rewrite Forall_forall. intros t Ht. destruct (P1 t Ht) as (A1 & A2 & A3). split; [done|]. split; [apply O2; [lia|done]|]. by rewrite L3, D3 in A3.
  - constructor; [|done]. intros Hx. destruct (P1 s Hx) as (_ & A2 & _). congruence.
  - cbn [calls_of]. rewrite Hh, Hm. cbn [default]. change (u_signal (log _ _)) with (u_signal u) in P3. change (u_sigmask (log _ _)) with (u_sigmask u) in P3.
    assert (Er : restore (log u (EvSend h s (restore u p) 0)) p1 = p_sigmask p1).
    { unfold restore at 1. rewrite L2. assert (has (p_flag (delivered p m s)) SOMASK = false) as ->; [|done]. unfold delivered. cbn [set_sig p_flag].
      destruct (has (p_flag p) SOMASK) eqn:Eh; [|exact Eh]. cbn. change SOMASK with (sigmask 10). rewrite has_sigmask, mem_ldiff, mem_sigmask by lia. apply andb_false_r. }
    rewrite Er, L1, D2 in P3. destruct (calls_of _ _ _ _ ss) as [calls mask]. rewrite logs_log in P3. destruct e as [| |a].
    + destruct P3 as (-> & q & Q1 & Q2 & Q3 & Q4 & Q5). split; [done|]. exists q. split; [done|]. split; [done|]. split; [done|]. split; [eapply none_lost_cons; [lia|done|done]|].
      intros t Ht Hx. destruct (Q5 t Ht Hx) as [Hx1 Hx2]. specialize (L5 t Ht Hx1). rewrite D1, mem_ldiff, mem_sigmask in L5 by lia. apply andb_true_iff in L5 as [L5 L6].
      split; [done|]. rewrite elem_of_cons. intros [->|]; [by rewrite Z.eqb_refl in L6|done].
    + destruct P3 as (t & Q1 & Q2 & ->). exists t. split; [done|]. split; [|by rewrite app_assoc].
      destruct (Z.lt_ge_cases t 1) as [Hlt|]; [|by apply O2]. unfold open_sig, mem in Q2. rewrite Z.testbit_neg_r in Q2 by lia. done.
    + destruct P3 as (-> & Q1 & Q2 & q & Q3 & Q4 & Q5). split; [done|]. split; [done|]. split; [done|]. exists q. split; [done|]. split; [done|]. eapply none_lost_cons; [lia|done|done].
Qed.

Lemma handled_nil_wanted core_ok u d i p st q : taker st u d i q -> less p q -> (forall t, 1 <= t -> mem (wanted q) t = false) -> logs u [] = u -> handled core_ok u d i p [] NoMore st [].
Proof.
  intros HT ([L1 _] & _ & Lk & L) Hw E. constructor; [constructor|constructor|]. cbn [calls_of]. split; [done|]. exists q. rewrite E. split; [done|]. split; [done|]. split; [done|].
  split; [intros t Ht Hc Hm; right; by apply Lk|]. intros t Ht Hm. split; [by apply L|apply not_elem_of_nil].
Qed.

Lemma psig_loop_ok core_ok : forall fuel st u d p s, taker st u d (u_procp st) p -> 1 <= s < 32 -> open_sig p s = true -> takes p u s -> (opens p < fuel)%nat ->
  exists e st' evs, psig_loop runout_addr proc_addr core_ok fuel st u d s = Ret (e, st', logs u evs) /\ psig_post core_ok u d (u_procp st) p s e st' evs.
Proof using ra_pos.
  clear procxmt. induction fuel as [|fuel IH]; intros st u d p s HT Hs Ho Ht Hf; [lia|]. cbn [psig_loop].
  assert (Hm : mem (p_sigmask p) s = false) by (unfold open_sig in Ho; apply andb_true_iff in Ho as [_ Ho]; by apply negb_true_iff in Ho).
  destruct (psig_round_ok st u d p s core_ok HT Hs Hm Ht) as (h & m & Hh & Hmk & H). pose proof (caught_iff p u s h (k_sig _ _ _ _ _ HT) Hs Hh) as Hcu.
  destruct (Z.eqb_spec h SIG_DFL) as [->|Eh].
  { assert (Hcf : mem (p_sigcatch p) s = false) by (apply not_true_iff_false; tauto). rewrite H. bind. unfold killed.
    exists Exited, (putp st (u_procp st) (set_sig p (Z.ldiff (p_sig p) (sigmask s)))), (if core_sig s then [EvExit (if core_ok then Z.lor s WCOREFLAG else s); EvCore] else [EvExit s]).
    split; [by destruct (core_sig s)|]. exists []. rewrite Hcf. split; [|done]. constructor; [constructor|constructor|]. cbn [calls_of]. exists s. rewrite app_nil_r. by repeat split. }
  assert (Hi : h <> SIG_IGN) by (destruct Ht as (h' & E & ? & _); congruence). assert (Hct : mem (p_sigcatch p) s = true) by tauto.
  cbv zeta in H. fold (restore u p) in H. set (st1 := putp st _ _) in *. destruct H as [-> HT1]. bind.
  destruct (CURSIG_ok st1 _ d (delivered p m s) HT1) as (r & st2 & -> & HP). bind. cbn in HP. destruct r as [|s'|a]; [done| |].
  - destruct HP as (p1 & HT2 & Hl & HP). assert (Ei : u_procp st2 = u_procp st) by (symmetry; apply (k_cur _ _ _ _ _ HT2)).
    destruct (Z.eqb_spec s' 0) as [->|Hn].
    + exists NoMore, st2, [EvSend h s (restore u p) 0]. split; [done|]. exists [s]. rewrite Hct. split; [|done].
      apply (handled_cons core_ok u d _ p h m s NoMore st2 [] p1); try done. eapply handled_nil_wanted; [exact HT2|apply less_refl|exact HP|done].
    + destruct HP as (Hs' & A1 & A2 & A3). rewrite <- Ei in HT2.
      destruct (IH st2 _ d p1 s' HT2 Hs') as (e & st' & evs & -> & ss & P & _); [unfold open_sig; by rewrite A1, A2|done| |].
      * pose proof (opens_lt p m s p1 Hs Ho Hl). lia.
      * exists e, st', (evs ++ [EvSend h s (restore u p) 0]). rewrite logs_log. split; [done|]. rewrite Ei in P. exists (s :: ss). rewrite Hct. split; [|done].
        by eapply handled_cons.
  - exists (Away a), st2, [EvSend h s (restore u p) 0]. split; [done|]. exists [s]. rewrite Hct. split; [|done].
    apply (handled_cons core_ok u d _ p h m s (Away a) st2 [] (delivered p m s)); try done; [apply less_refl|].
    constructor; [constructor|constructor|]. cbn [calls_of]. split; [done|]. destruct HP as (A1 & A2 & _ & q & A3 & A4 & _ & A5). split; [done|]. split; [done|].
    exists q. split; [done|]. split; [done|]. intros t H1 H2 H3. right. by apply A5.
Qed.

End take.

(** A tracing parent may continue the process with signal 32 ([ip_data > NSIG] is
    all that procxmt refuses); issig then reads past the end of [u_signal]. *)
Lemma issig_signal_32 ra pa px st u d i st1 p1 m : length (u_signal u) = 32%nat -> px st i = Ret (true, st1) -> procs st1 !! i = Some p1 ->
  has (p_flag p1) STRC = true -> p_xstat p1 = 32 -> mem (p_sigmask p1) 32 = false -> issig_back ra pa px st u d i (Traced m) = Fault.
Proof.
  intros Hl E H1 Ht Hx Hm. cbn [issig_back]. rewrite E. bind. rewrite (getp_at st1 i p1 H1). bind. rewrite Ht. cbn [negb andb].
  rewrite (modp_ok st1 i p1 _ H1). bind. rewrite Hx. change (32 =? 0) with false. cbv iota.
  set (p2 := set_sig p1 _). assert (H2 : procs (putp st1 i p2) !! i = Some p2) by (by eapply putp_at).
  rewrite (modp_ok _ i p2 _ H2). bind. rewrite has_sigmask, Hm by lia. cbv iota. unfold issig_decide.
  erewrite getp_at by (by eapply putp_at). bind. change (Z.to_nat 32) with 32%nat. rewrite (lookup_ge_None_2 (u_signal u) 32) by lia. done.
Qed.

(** ** The properties of taking a signal *)

(** issig, on the running process of a well-formed state, whatever is pending:
    it returns after at most 32 rounds.  Either it says that no signal is to be
    taken, and then none that is pending is wanted; or it returns the number of a
    pending signal, not held, whose action is a handler or a default that kills; or
    the process has stopped, its parent has been told, and it has given up the
    processor with the queues well-formed.  The same when it goes on after such a
    stop, provided that a tracing parent leaves a signal number below 32. *)
Theorem issig_spec ra pa procxmt st u d p : ra <> 0 -> taker st u d (u_procp st) p ->
  (exists r st', issig ra pa st u d = Ret (r, st') /\ issig_post u d (u_procp st) p r st') /\
  forall a, match a with Traced _ => procxmt_ok procxmt u d st (u_procp st) | Stopped _ => True end ->
    exists r st' p0, issig_resume ra pa procxmt st u d a = Ret (r, st') /\ issig_post u d (u_procp st) p0 r st'.
Proof. intros Hra HT. split; [by apply issig_ok|]. intros a Ha. by eapply issig_resume_ok. Qed.

(** C31: psig, on a signal that issig has returned: it never panics ("psig",
    "psig action") and returns after at most 31 rounds.  If the signal is caught its
    handler is the first that is called; if not the process exits by it at once.  The
    handlers called are of signals that were pending, caught and not held, each
    called exactly once, with the mask it is to restore, its signal and the mask of
    its action held from then on.  psig ends with no signal wanted and exactly the
    masks of those handlers held besides what was; or in exit, by a pending signal
    whose action is the default, with its core flag; or stopped.  No signal that is
    caught is lost: unless the process exits, each that was pending has been handled
    or is pending still. *)
Theorem psig_spec ra pa core_ok st u d p s : ra <> 0 -> taker st u d (u_procp st) p -> 1 <= s < 32 -> open_sig p s = true -> takes p u s ->
  exists e st' evs, psig ra pa core_ok st u d s = Ret (e, st', logs u evs) /\ psig_post core_ok u d (u_procp st) p s e st' evs.
Proof.
  intros Hra HT Hs Ho Ht. apply psig_loop_ok; try done. unfold opens.
  pose proof (length_filter (fun t => open_sig p t = true) (seqZ 1 31)) as H. rewrite length_seqZ in H. lia.
Qed.

(** Process 0, a child of process 1, with SIGINT, which it catches, SIGCHLD and
    SIGTERM pending. *)
Definition demo_child : proc :=
  set_sig (Proc PNULL PNULL 50 50 0 SRUN 0 0 0 0 0 0 0 SLOAD 0 0 1 1 0 0 0 0 0 0 1%nat 0%nat 0)
    (Z.lor (sigmask 2) (Z.lor (sigmask SIGCHLD) (sigmask SIGTERM))).
Definition demo_catch : proc * user := setsigvec (siginit demo_child) user0 2 (Sa 0x400 0 0).
Definition demo_pending : kst := putp (demo (rqinit demo0)) 0 (fst demo_catch).


Lemma demo_taker : taker demo_pending (snd demo_catch) demo_ids 0 (fst demo_catch).
Proof.
  assert (H0 : procs (demo (rqinit demo0)) !! 0%nat = Some (demo_proc SRUN)) by reflexivity.
  assert (Hp : forall i p, procs demo_pending !! i = Some p -> p_pgrp p = 0%nat /\ p_nice p = 0).
  { intros i p E. apply list_lookup_insert_Some in E as [(<- & <- & _)|[_ E]]; [done|]. destruct (demo_procs i p E) as (Hi & _ & H). split; [done|].
    destruct i as [|[|[|i]]]; try lia; vm_compute in E; by injection E as <-. }
  constructor; try done.
  - split; [exists demo_sl, (fun _ => []); eapply inv_putp; [exact demo_sched_inv|exact H0|..]; try done|split].
    + unfold stays. splits; try done. by right.
    + eapply settled_putp; [apply demo_settled|exact H0|done..].
    + intros i p E. destruct (Hp i p E) as [_ ->]. lia.
  - apply (setsigvec_ok (siginit demo_child) user0 2 (Sa 0x400 0 0)); [by apply siginit_ok|done|apply surjective_pairing].
  - intros i p E. destruct (Hp i p E) as [-> _]. by eexists.
  - intros t H1 H2. change (mem (p_sig demo_child) t = false). unfold demo_child. cbn [set_sig p_sig]. rewrite !mem_lor, !mem_sigmask by (unfold SIGCHLD, SIGTERM; lia). unfold SIGCHLD, SIGTERM.
    rewrite !(proj2 (Z.eqb_neq _ t)) by lia. done.
  - split; [done|]. eexists. vm_compute. reflexivity.
  - split; [change (NoDup [2; 1; 0]%nat); apply NoDup_ListNoDup; repeat constructor; cbn; lia|]. split; [|vm_compute; lia].
    intros i Hi. change (i ∈ [2; 1; 0]%nat) in Hi. change (i < 3)%nat. rewrite !elem_of_cons in Hi. destruct Hi as [->|[->|[->|Hi]]]; [lia..|by apply not_elem_of_nil in Hi].
Qed.

(** With a parent that lets it go on. *)
Lemma issig_spec_witness : exists r st', issig 0x1040 demo_chan demo_pending (snd demo_catch) demo_ids = Ret (r, st') /\ r = Return 2.
Proof.
  destruct (proj1 (issig_spec 0x1040 demo_chan (fun st _ => Ret (true, st)) demo_pending (snd demo_catch) demo_ids (fst demo_catch) ltac:(done) demo_taker))
    as (r & st' & E & _).
  exact (ex_intro _ r (ex_intro _ st' (conj E (f_equal (fun x => match x with Ret (r, _) => r | _ => Again end) (eq_sym E))))).
Defined.

(** SIGINT is caught, SIGCHLD dropped, SIGTERM kills. *)
Lemma psig_spec_witness : exists e st' evs, psig 0x1040 demo_chan false demo_pending (snd demo_catch) demo_ids 2 = Ret (e, st', logs (snd demo_catch) evs) /\ e = Exited.
Proof.
  destruct (psig_spec 0x1040 demo_chan false demo_pending (snd demo_catch) demo_ids (fst demo_catch) 2) as (e & st' & evs & E & _).
  - done.
  - exact demo_taker.
  - lia.
  - reflexivity.
  - exists 0x400. split; [reflexivity|]. split; [done|]. done.
  - exact (ex_intro _ e (ex_intro _ st' (ex_intro _ evs (conj E (f_equal (fun x => match x with Ret (e, _, _) => e | _ => NoMore end) (eq_sym E)))))).
Defined.

End SigTake.
