(* ===== verification/KernSleep.v ===== *)
(** Giving up the processor, sys/kern/kern_synch.c: tsleep, sleep and endtsleep,
    cut at swtch as issig is; swtch itself; the end of trap() that lets another
    process run (sys/vax/trap.c); the part of hardclock that charges the running
    process (sys/kern/kern_clock.c).  Then the steps of the scheduler as a
    transition system, and what holds in all its states. *)
From stdpp Require Import base numbers list strings.
From Stdlib Require Import ZArith Lia.
From S2P Require Import Prelude Callout Proc RunQueue KernSynch KernSig SigPost SigTake.

Module KernSleep.
Import Proc RunQueue KernSynch KernSig SigPost SigTake.

(** ** sleep and tsleep *)

Definition EWOULDBLOCK : Z := 35.
Definition ERESTART : Z := -1.

(** Where tsleep goes on: inside the first look for signals, after the sleep, or
    inside the second look. *)
Inductive tresume : Type := FirstSig (a : resume) | Slept | SecondSig (a : resume).
Inductive tpiece : Type := TRet (error : Z) | TAway (at_ : tresume).

Definition swtch (st : kst) : outcome kst := '(_, st) ← swtch_select st; Ret st.

Section sleep.
Variable runout_addr : Z.
Variable proc_addr : nat -> Z.
Variable procxmt : kst -> nat -> outcome (bool * kst).
(** endtsleep, as the callout queue names functions. *)
Variable endtsleep_fn : nat.

(** [cold || panicstr] *)
Variable cold : bool.

(** Up to swtch. *)
Definition sleep (st : kst) (chan pri : Z) : outcome (bool * kst) :=
  if pri >? PZERO then Panic "old sleep"
  else if cold then Ret (false, st)
  else
    p ← getp st (u_procp st);
    if (chan =? 0) || bool_decide (p_stat p <> SRUN) || bool_decide (p_rlink p <> PNULL) then Panic "sleep"
    else st ← go_to_sleep st (u_procp st) chan pri 0; Ret (true, st).

(** After it. *)
Definition sleep_back (st : kst) : outcome kst :=
  p ← getp st (u_procp st);
  Ret (with_sys st (set_curpri (sys st) (p_usrpri p))).

Definition interrupted (u : user) (sig : Z) : Z := if has (u_sigintr u) (sigmask sig) then EINTR else ERESTART.

(** The end of tsleep before swtch. *)
Definition tsleep_sleep (st : kst) (q : Callout.queue) (timo : Z) : outcome (tpiece * kst * Callout.queue) :=
  let i := u_procp st in
  st ← modp st i (fun p => set_stat p SSLEEP);
  q ← (if timo =? 0 then Ret q else Callout.timeout endtsleep_fn (proc_addr i) timo q);
  Ret (TAway Slept, st, q).

(** The first look has found [r]. *)
Definition tsleep_first (r : piece) (st : kst) (u : user) (q : Callout.queue) (timo : Z) : outcome (tpiece * kst * Callout.queue) :=
  let i := u_procp st in
  match r with
  | Again => Fault
  | Swtch a => Ret (TAway (FirstSig a), st, q)
  | Return sig =>
      p ← getp st i;
      if negb (sig =? 0) then
        st ← (if p_wchan p =? 0 then Ret st else unsleep st i);
        st ← modp st i (fun p => set_stat p SRUN);
        Ret (TRet (interrupted u sig), st, q)
      else if p_wchan p =? 0 then Ret (TRet 0, st, q)
      else
        st ← modp st i (fun p => set_flag p (Z.lor (p_flag p) SSINTR));
        tsleep_sleep st q timo
  end.

Definition tsleep (st : kst) (u : user) (d : ids) (q : Callout.queue) (chan pri wmesg timo : Z) : outcome (tpiece * kst * Callout.queue) :=
  if cold then Ret (TRet 0, st, q)
  else
    st ← sleep_enqueue st (u_procp st) chan (Z.land pri PRIMASK) wmesg;
    if has pri PCATCH
    then '(r, st) ← CURSIG runout_addr proc_addr st u d; tsleep_first r st u q timo
    else tsleep_sleep st q timo.

(** The second look has found [r]. *)
Definition tsleep_second (r : piece) (st : kst) (u : user) (q : Callout.queue) : outcome (tpiece * kst * Callout.queue) :=
  match r with
  | Again => Fault
  | Swtch a => Ret (TAway (SecondSig a), st, q)
  | Return sig => Ret (TRet (if sig =? 0 then 0 else interrupted u sig), st, q)
  end.

(** After swtch, or after the stop inside issig. *)
Definition tsleep_back (st : kst) (u : user) (d : ids) (q : Callout.queue) (pri timo : Z) (a : tresume) : outcome (tpiece * kst * Callout.queue) :=
  let i := u_procp st in
  match a with
  | FirstSig a => '(r, st) ← issig_resume runout_addr proc_addr procxmt st u d a; tsleep_first r st u q timo
  | SecondSig a => '(r, st) ← issig_resume runout_addr proc_addr procxmt st u d a; tsleep_second r st u q
  | Slept =>
      p ← getp st i;
      let st := with_sys st (set_curpri (sys st) (p_usrpri p)) in
      st ← modp st i (fun p => set_flag p (Z.ldiff (p_flag p) SSINTR));
      p ← getp st i;
      if has (p_flag p) STIMO then
        st ← modp st i (fun p => set_flag p (Z.ldiff (p_flag p) STIMO));
        Ret (TRet EWOULDBLOCK, st, q)
      else
        let q := if timo =? 0 then q else Callout.untimeout endtsleep_fn (proc_addr i) q in
        if has pri PCATCH
        then '(r, st) ← CURSIG runout_addr proc_addr st u d; tsleep_second r st u q
        else Ret (TRet 0, st, q)
  end.

Definition endtsleep (st : kst) (i : nat) : outcome kst :=
  p ← getp st i;
  if p_wchan p =? 0 then Ret st
  else
    st ← (if bool_decide (p_stat p = SSLEEP) then setrun runout_addr st i else unsleep st i);
    modp st i (fun p => set_flag p (Z.lor (p_flag p) STIMO)).

(** ** Preemption *)

(** The end of trap and syscall, up to swtch: the process runs at its user
    priority again, and lets another run when there is a better one. *)
Definition trap_end (st : kst) : outcome (bool * kst) :=
  let i := u_procp st in
  st ← modp st i (fun p => set_pri p (p_usrpri p));
  if runrun (sys st) =? 0 then
    p ← getp st i;
    Ret (false, with_sys st (set_curpri (sys st) (p_pri p)))
  else st ← setrq st i; Ret (true, st).

(** After it. *)
Definition trap_back (st : kst) : outcome kst :=
  p ← getp st (u_procp st);
  Ret (with_sys st (set_curpri (sys st) (p_pri p))).

(** What hardclock does to the priority of the running process. *)
Definition clock_charge (st : kst) : outcome kst :=
  if noproc (sys st) then Ret st
  else
    let i := u_procp st in
    st ← modp st i (fun p => set_cpticks p (s32 (p_cpticks p + 1)));
    p ← getp st i;
    let cpu := u8 (p_cpu p + 1) in
    let cpu := if cpu =? 0 then u8 (cpu - 1) else cpu in
    let st := putp st i (set_cpu p cpu) in
    if Z.land cpu 3 =? 0 then
      '(_, st) ← setpri st i;
      modp st i (fun p => if p_pri p >=? PUSER then set_pri p (p_usrpri p) else p)
    else Ret st.

End sleep.

(** ** The steps of the scheduler *)

(** What may happen next: an interrupt or another part of the kernel acts on the
    queues, or the running process gives up the processor, or goes on after it has
    been given it.  The window between spl0 and swtch is not split: queueing
    oneself and swtch are one step. *)
Inductive op : Type :=
| OWakeup (chan : Z)
| OSignal (i : nat) (sig : Z)
| OEndtsleep (i : nat)
| OCharge
| OSchedcpu (q : Callout.queue) (fn : nat) (avefree minfree maxslp : Z) (bcln : bool)
| OSleep (chan pri : Z)
| OSleepBack
| OTsleep (u : user) (d : ids) (q : Callout.queue) (chan pri wmesg timo : Z)
| OTsleepBack (u : user) (d : ids) (q : Callout.queue) (pri timo : Z) (a : tresume)
| OCursig (u : user) (d : ids)
| OCursigBack (u : user) (d : ids) (a : resume)
| OTrap
| OTrapBack
| OIdle.

Section system.
Variables lbolt_addr runin_addr runout_addr : Z.
Variable proc_addr : nat -> Z.
Variable procxmt : kst -> nat -> outcome (bool * kst).
Variable endtsleep_fn : nat.

Definition run_op (o : op) (st : kst) : outcome kst :=
  match o with
  | OWakeup chan => wakeup runout_addr st chan
  | OSignal i sig => psignal runout_addr proc_addr st i sig
  | OEndtsleep i => endtsleep runout_addr st i
  | OCharge => clock_charge st
  | OSchedcpu q fn avefree minfree maxslp bcln =>
      '(st, _) ← schedcpu lbolt_addr runin_addr runout_addr proc_addr st q fn avefree minfree maxslp bcln; Ret st
  | OSleep chan pri => '(away, st) ← sleep false st chan pri; if (away : bool) then swtch st else Ret st
  | OSleepBack => sleep_back st
  | OTsleep u d q chan pri wmesg timo =>
      '(r, st, _) ← tsleep runout_addr proc_addr endtsleep_fn false st u d q chan pri wmesg timo;
      match r with TAway _ => swtch st | TRet _ => Ret st end
  | OTsleepBack u d q pri timo a =>
      '(r, st, _) ← tsleep_back runout_addr proc_addr procxmt endtsleep_fn st u d q pri timo a;
      match r with TAway _ => swtch st | TRet _ => Ret st end
  | OCursig u d =>
      '(r, st) ← CURSIG runout_addr proc_addr st u d;
      match r with Swtch _ => swtch st | _ => Ret st end
  | OCursigBack u d a =>
      '(r, st) ← issig_resume runout_addr proc_addr procxmt st u d a;
      match r with Swtch _ => swtch st | _ => Ret st end
  | OTrap => '(away, st) ← trap_end st; if (away : bool) then swtch st else Ret st
  | OTrapBack => trap_back st
  | OIdle => swtch st
  end.

End system.

(** ** Giving up the processor *)

(** The state of the queues when nobody runs: every runnable process in core is on
    a run queue, the one that ran last too. *)
Definition aside (st : kst) : Prop :=
  (exists sl rq, inv st sl rq) /\ (forall i p, procs st !! i = Some p -> p_stat p = SRUN -> loaded p = true -> p_rlink p <> PNULL) /\ nice_ok st.

Lemma queued_still st st' rq rq' j p p' : rq_inv st rq -> rq_inv st' rq' -> procs st !! j = Some p -> p_rlink p <> PNULL ->
  (forall k, j ∈ rq k -> j ∈ rq' k) -> procs st' !! j = Some p' -> p_rlink p' <> PNULL.
Proof.
  intros H H' Hj Hr Hk Hj'. destruct (rq_linked _ _ H j p Hj Hr) as (k & Hk32 & Hin).
  destruct (rq_home _ _ H' k j Hk32 (Hk k Hin)) as (q & Hq & Hn & _). congruence.
Qed.

(** A step on the run queues alone keeps the invariant. *)
Lemma inv_rings st st' sl rq rq' : inv st sl rq -> base st' sl rq' -> cores st' = cores st ->
  (forall j p p', procs st !! j = Some p -> procs st' !! j = Some p' -> p_rlink p' <> PNULL -> p_rlink p <> PNULL \/ p_stat p = SRUN /\ loaded p = true) -> inv st' sl rq'.
Proof.
  intros [HB Hsl Hrun Has] HB' C Hr.
  assert (Hold : forall j p', procs st' !! j = Some p' -> exists p, procs st !! j = Some p /\ core p = core p') by (intros j p' E; by apply (cores_lookup st' st j (eq_sym C) p')).
  constructor; [done|..]; intros j p' E; destruct (Hold j p' E) as (p & E0 & D); pose proof (core_fields _ _ D) as (F1 & _ & F3 & F4 & _); unfold loaded;
    rewrite <- F1; [rewrite <- F3; by eapply Hsl| |rewrite <- F3; by eapply Has].
  intros Hn. rewrite <- F4. destruct (Hr j p p' E0 E Hn) as [Ho|Ho]; [by eapply Hrun|exact Ho].
Qed.

Lemma nice_cores st st' : cores st' = cores st -> nice_ok st -> nice_ok st'.
Proof.
  intros C HN j p' E. destruct (cores_lookup st' st j (eq_sym C) p' E) as (p & E0 & D). pose proof (f_equal p_nice D) as N. change (p_nice p = p_nice p') in N.
  rewrite <- N. by apply (HN j).
Qed.

(** swtch finds the next process, or idles. *)
Lemma swtch_ok st : aside st -> exists st', swtch st = Ret st' /\ good at_work st' /\ allproc st' = allproc st /\ length (procs st') = length (procs st) /\
  (noproc (sys st') = true /\ u_procp st' = u_procp st \/ exists p, procs st' !! u_procp st' = Some p).
Proof.
  intros ((sl & rq & HI) & HA & HN). pose proof HI as [HB Hsl Hrun Has]. unfold swtch.
  destruct (swtch_select_ok st rq (b_rq _ _ _ HB)) as [[-> _]|(i & k & l & st' & -> & Hk & Hrq & _ & C & Es & Ea & Eu & Ey & HR & (pi & Epi & Ri) & Hoff)]; bind.
  { eexists. split; [reflexivity|]. split; [|split; [done|split; [done|by left]]]. split; [exists sl, rq; by apply inv_sys|]. split; [|done].
    intros j p E. cbn [with_sys sys set_noproc noproc negb]. rewrite andb_false_r. by apply (HA j). }
  exists st'. split; [done|]. assert (Hlen : length (procs st') = length (procs st)) by (apply (f_equal length) in C; unfold cores in C; by rewrite !length_fmap in C).
  split; [|split; [done|split; [done|right; exists pi; by rewrite Eu]]].
  assert (Hin : i ∈ rq k) by (rewrite Hrq; apply elem_of_cons; by left).
  destruct (rq_home _ _ (b_rq _ _ _ HB) k i Hk Hin) as (p & Ep & Rp & _). destruct (Hrun i p Ep Rp) as [Sp Lp].
  assert (HB' : base st' sl (deq rq k i)).
  { eapply base_rings; [exact HB|exact HR|done|done|]. intros j q Hj Hw. apply Hoff. eapply off_ring; [exact HB|exact Hj|]. by destruct (b_queued _ _ _ HB j q Hj Hw). }
  assert (Hq : forall j q q', j <> i -> procs st !! j = Some q -> procs st' !! j = Some q' -> (p_rlink q <> PNULL -> p_rlink q' <> PNULL)).
  { intros j q q' Hne E1 E2 Hr. eapply queued_still; [exact (b_rq _ _ _ HB)|exact HR|exact E1|exact Hr| |exact E2]. intros k' Hk'. by apply deq_in. }
  split; [exists sl, (deq rq k i); eapply inv_rings; [exact HI|exact HB'|exact C|]|split; [|by eapply nice_cores]].
  - intros j q q' E1 E2 Hr. left. eapply queued_still; [exact HR|exact (b_rq _ _ _ HB)|exact E2|exact Hr| |exact E1]. intros k'. apply deq_out.
  - intros j q' E. rewrite Eu, Ey. cbn [set_runrun set_noproc noproc negb]. rewrite andb_true_r.
    destruct (cores_lookup st' st j (eq_sym C) q' E) as (q & E0 & D). pose proof (core_fields _ _ D) as (F1 & _ & _ & F4 & _).
    destruct (bool_decide_reflect (j = i)) as [->|Hne].
    + assert (q' = pi) as -> by congruence. split; [done|]. assert (q = p) as -> by congruence. by rewrite <- F1, Sp.
    + unfold loaded. rewrite <- F1, <- F4. intros H1 H2. apply (Hq j q q' Hne E0 E). by apply (HA j).
Qed.

Lemma aside_idle st : good at_work st -> noproc (sys st) = true -> aside st.
Proof.
  intros (HI & HS & HN) Hn. split; [done|]. split; [|done]. intros i p E. specialize (HS i p E). rewrite Hn, andb_false_r in HS. exact HS.
Qed.

Lemma aside_stopped st p : good leaving st -> procs st !! u_procp st = Some p -> p_stat p <> SRUN -> aside st.
Proof.
  intros (HI & HS & HN) Hp Hs. split; [done|]. split; [|done]. intros j q E H1 H2. specialize (HS j q E). destruct (_ && _) eqn:Eb; [|by apply HS].
  apply andb_true_iff in Eb as [Eb _]. apply bool_decide_eq_true in Eb as ->. congruence.
Qed.

(** The running process: on no queue. *)
Lemma running st p : good at_work st -> noproc (sys st) = false -> procs st !! u_procp st = Some p ->
  p_rlink p = PNULL /\ at_work (p_stat p) /\ p_wchan p = 0.
Proof.
  intros ((sl & rq & HI) & HS & _) Hn Hp. specialize (HS _ _ Hp). rewrite Hn, bool_decide_eq_true_2 in HS by done. destruct HS as [H1 H2].
  split; [done|]. split; [done|]. destruct (decide (p_wchan p = 0)) as [|Hw]; [done|]. exfalso. destruct (i_sleep _ _ _ HI _ _ Hp Hw) as [E|E]; by rewrite E in H2.
Qed.

Lemma others_queued st j p : good at_work st -> procs st !! j = Some p -> j <> u_procp st -> p_stat p = SRUN -> loaded p = true -> p_rlink p <> PNULL.
Proof. intros (_ & HS & _) Hj Hne. specialize (HS j p Hj). by rewrite bool_decide_eq_false_2 in HS. Qed.

(** Queued on a channel and asleep: [go_to_sleep], which is [sleep_enqueue] and
    [p_stat = SSLEEP]. *)
Lemma sleep_aside st p chan pri wmesg : good at_work st -> noproc (sys st) = false -> procs st !! u_procp st = Some p -> p_stat p = SRUN ->
  chan <> 0 -> 0 <= pri <= 127 ->
  exists st', go_to_sleep st (u_procp st) chan pri wmesg = Ret st' /\ aside st' /\ others st st' /\
    cores st' = <[u_procp st := core (set_stat (asleep_as p chan pri wmesg) SSLEEP)]> (cores st).
Proof.
  intros HG Hn Hp Hs Hc Hpri. destruct (running st p HG Hn Hp) as (Hr & _ & _). pose proof HG as ((sl & rq & HI) & HS & HN).
  destruct (go_to_sleep_ok st sl rq (u_procp st) p chan pri wmesg HI Hp Hs Hr Hc Hpri) as (st' & E & HI' & O & C & _).
  exists st'. split; [done|]. split; [|by split]. split; [by eexists _, _|].
  assert (Hlt : (u_procp st < length (cores st))%nat) by (unfold cores; rewrite length_fmap; by apply lookup_lt_Some in Hp).
  assert (Hold : forall j q', procs st' !! j = Some q' -> (j = u_procp st /\ p_stat q' = SSLEEP /\ p_nice q' = p_nice p) \/
     (j <> u_procp st /\ exists q, procs st !! j = Some q /\ core q' = core q)).
  { intros j q' Ej. pose proof (f_equal (fun l => l !! j) C) as Cj. cbn beta in Cj. unfold cores in Cj. rewrite list_lookup_fmap, Ej in Cj.
    destruct (decide (j = u_procp st)) as [->|Hne].
    - left. rewrite list_lookup_insert_eq in Cj by exact Hlt. apply (inj Some) in Cj. split; [done|]. split; [exact (f_equal p_stat Cj)|exact (f_equal p_nice Cj)].
    - right. split; [done|]. rewrite list_lookup_insert_ne, list_lookup_fmap in Cj by done. destruct (procs st !! j) as [q|]; [|done]. exists q.
      split; [done|]. by apply (inj Some) in Cj. }
  split.
  - intros j q' Ej H1 H2. destruct (Hold j q' Ej) as [(-> & H3 & _)|(Hne & q & Eq & D)]; [congruence|].
    pose proof (core_fields _ _ D) as (F1 & _ & _ & F4 & _). unfold loaded in H2. rewrite F1 in H1. rewrite F4 in H2.
    eapply queued_still; [exact (b_rq _ _ _ (i_base _ _ _ HI))|exact (b_rq _ _ _ (i_base _ _ _ HI'))|exact Eq| |by intros|exact Ej].
    by eapply others_queued.
  - intros j q' Ej. destruct (Hold j q' Ej) as [(-> & _ & ->)|(_ & q & Eq & D)]; [by apply (HN (u_procp st))|].
    pose proof (f_equal p_nice D) as N. change (p_nice q' = p_nice q) in N. rewrite N. by apply (HN j).
Qed.

(** setrq of the running process. *)
Lemma requeue_aside st p : good at_work st -> noproc (sys st) = false -> procs st !! u_procp st = Some p -> p_stat p = SRUN -> loaded p = true ->
  exists st', setrq st (u_procp st) = Ret st' /\ aside st' /\ links_only st st'.
Proof.
  intros HG Hn Hp Hs Hl. destruct (running st p HG Hn Hp) as (Hr & _ & Hw). pose proof HG as ((sl & rq & HI) & HS & HN).
  destruct (base_setrq st sl rq _ p (i_base _ _ _ HI) Hp Hr Hw) as (st' & E & HB' & O). exists st'. split; [done|]. split; [|done].
  pose proof O as (C & _). set (k := qindex (p_pri p)) in *. pose proof (b_pri _ _ _ (i_base _ _ _ HI) _ _ Hp) as [Hpri _].
  split; [exists sl, (enq rq k (u_procp st)); eapply inv_rings; [exact HI|exact HB'|exact C|]|split; [|by eapply nice_cores]].
  - intros j q q' E1 E2 Hq. destruct (decide (j = u_procp st)) as [->|Hne]; [right; by assert (q = p) as -> by congruence|left].
    eapply queued_still; [exact (b_rq _ _ _ HB')|exact (b_rq _ _ _ (i_base _ _ _ HI))|exact E2|exact Hq| |exact E1]. intros k'. by apply enq_out.
  - intros j q' E2 H1 H2. destruct (cores_lookup st' st j (eq_sym C) q' E2) as (q & E1 & D). pose proof (core_fields _ _ D) as (F1 & _ & _ & F4 & _).
    unfold loaded in H2. rewrite <- F1 in H1. rewrite <- F4 in H2. destruct (decide (j = u_procp st)) as [->|Hne].
    + destruct (rq_home _ _ (b_rq _ _ _ HB') k (u_procp st)) as (q2 & Eq2 & Hq2 & _); [by apply qindex_lt| |congruence].
      unfold enq. rewrite decide_True by done. apply elem_of_app. right. by apply list_elem_of_singleton.
    + eapply queued_still; [exact (b_rq _ _ _ (i_base _ _ _ HI))|exact (b_rq _ _ _ HB')|exact E1| |intros k'; apply enq_in|exact E2].
      by eapply others_queued.
Qed.

(** ** The running process and its flags *)

Lemma flag_lor f a b : 1 <= a -> 1 <= b -> a <> b -> has (Z.lor f (sigmask a)) (sigmask b) = has f (sigmask b).
Proof.
  intros Ha Hb Hne. rewrite !has_sigmask, mem_lor, mem_sigmask by lia. replace (a =? b) with false by (symmetry; by apply Z.eqb_neq). apply orb_false_r.
Qed.
Lemma flag_ldiff f a b : 1 <= a -> 1 <= b -> a <> b -> has (Z.ldiff f (sigmask a)) (sigmask b) = has f (sigmask b).
Proof.
  intros Ha Hb Hne. rewrite !has_sigmask, mem_ldiff, mem_sigmask by lia. replace (a =? b) with false by (symmetry; by apply Z.eqb_neq). apply andb_true_r.
Qed.

(** A flag that is neither of those that the scheduler and kin look at. *)
Lemma flag_tame p f : has f SLOAD = has (p_flag p) SLOAD -> has f SSINTR = has (p_flag p) SSINTR -> has f SSYS = has (p_flag p) SSYS -> tame p (set_flag p f).
Proof. intros H1 H2 H3. unfold tame. splits; try done. by left. Qed.

Lemma good_flag w st i p f : good w st -> procs st !! i = Some p -> has f SLOAD = has (p_flag p) SLOAD -> good w (putp st i (set_flag p f)).
Proof.
  intros ((sl & rq & HI) & HS & HN) Hi Hf. pose proof HI as [HB Hsl Hrun Has]. split; [exists sl, rq; eapply inv_putp; [exact HI|exact Hi|..]|split].
  - unfold stays. splits; try done. by right.
  - exact (Hsl i p Hi).
  - intros Hr. destruct (Hrun i p Hi Hr) as [H1 H2]. split; [done|]. unfold loaded in *. cbn. by rewrite Hf.
  - exact (Has i p Hi).
  - eapply settled_putp; [done|exact Hi|done|exact Hf|done|done].
  - intros j q E. cbn in E. apply list_lookup_insert_Some in E as [(<- & <- & _)|[_ E]]; [by apply (HN i p)|by apply (HN j q)].
Qed.

Lemma taker_flag st u d i p f : taker st u d i p -> has f SLOAD = has (p_flag p) SLOAD -> taker (putp st i (set_flag p f)) u d i (set_flag p f).
Proof.
  intros [HG Hc Hb Hi Hs Hd Hp [Hpi [pp Hpp]] Hargs] Hf. constructor; try done.
  - by apply good_flag.
  - by eapply putp_at.
  - by destruct Hs; constructor.
  - intros j q E. cbn in E. apply list_lookup_insert_Some in E as [(<- & <- & _)|[_ E]]; [by apply (Hd i p)|by apply (Hd j q)].
  - split; [done|]. exists pp. cbn. by rewrite list_lookup_insert_ne.
  - unfold schedcpu_args_ok in *. cbn. by rewrite length_insert.
Qed.

Lemma taker_sys st u d i p s : taker st u d i p -> noproc s = noproc (sys st) -> taker (with_sys st s) u d i p.
Proof. intros [HG Hc Hb Hi Hs Hd Hp Hpp Hargs] Hn. constructor; try done; [by apply good_sys|cbn; congruence]. Qed.

Lemma sys_adv w st s : noproc s = noproc (sys st) -> hz s = hz (sys st) -> good w st -> adv w st (with_sys st s).
Proof.
  intros Hn Hh HG. split; [|apply kin_refl]. split; [by apply good_sys|]. splits; try done. apply Forall2_same_length_lookup_2; [done|].
  intros i p q E1 E2. cbn in E2. left. congruence.
Qed.

(** A user priority for the running process, and its priority with it. *)
Lemma repri_ok st p (b : bool) n : good at_work st -> noproc (sys st) = false -> procs st !! u_procp st = Some p -> 0 <= n <= 127 ->
  exists st', modp (putp (if b then resched st else st) (u_procp st) (set_usrpri p n)) (u_procp st)
    (fun p => if p_pri p >=? PUSER then set_pri p (p_usrpri p) else p) = Ret st' /\ adv at_work st st'.
Proof.
  intros HG Hn Hp Hr. destruct (running st p HG Hn Hp) as (Hl & _ & _). set (i := u_procp st) in *. set (st1 := if b then _ else _).
  assert (A1 : adv at_work st st1) by (unfold st1; destruct b; [by apply sys_adv|by apply adv_refl]).
  assert (H1 : procs st1 !! i = Some p) by (unfold st1; by destruct b). clearbody st1. set (q := set_usrpri p n). set (st2 := putp st1 i q).
  assert (A2 : adv at_work st1 st2) by (eapply adv_putp; [apply A1|exact H1|]; unfold tame, q; splits; try done; by left).
  assert (H2 : procs st2 !! i = Some q) by (by eapply putp_at). rewrite (modp_ok st2 i q _ H2). eexists. split; [reflexivity|].
  eapply adv_trans; [exact A1|]. eapply adv_trans; [exact A2|]. eapply adv_putp; [apply A2|exact H2|]. destruct (_ >=? _); [|apply tame_refl].
  unfold tame, q. splits; try done. by right.
Qed.

(** The charge of the clock. *)
Lemma charge_ok st p : good at_work st -> procs st !! u_procp st = Some p -> exists st', clock_charge st = Ret st' /\ adv at_work st st'.
Proof.
  intros HG Hp. unfold clock_charge. destruct (noproc (sys st)) eqn:Hn; [exists st; split; [done|by apply adv_refl]|].
  destruct (running st p HG Hn Hp) as (Hr & _ & _). set (i := u_procp st) in *. rewrite (modp_ok st i p _ Hp). bind.
  set (p1 := set_cpticks p _). set (st1 := putp st i p1). assert (H1 : procs st1 !! i = Some p1) by (by eapply putp_at).
  assert (A1 : adv at_work st st1) by (eapply adv_putp; [done|exact Hp|]; unfold tame, p1; splits; try done; by left).
  rewrite (getp_at st1 i p1 H1). bind. set (cpu := if u8 (p_cpu p1 + 1) =? 0 then _ else _). set (p2 := set_cpu p1 cpu). set (st2 := putp st1 i p2).
  assert (H2 : procs st2 !! i = Some p2) by (by eapply putp_at).
  assert (A2 : adv at_work st1 st2) by (eapply adv_putp; [apply A1|exact H1|]; unfold tame, p2; splits; try done; by left).
  destruct (Z.land cpu 3 =? 0); [|exists st2; split; [done|by eapply adv_trans]].
  rewrite (setpri_eq st2 i p2 H2). bind. assert (HN : -20 <= p_nice p2 <= 20) by (by destruct HG as (_ & _ & HN); apply (HN i p)).
  pose proof (pri_of_range (sys st2) p2 ltac:(lia)) as Hpri.
  set (b := _ <? _). set (n := s8 _). assert (Hn8 : 10 <= n <= 127) by (unfold n; rewrite s8_small; lia). clearbody b n p2.
  destruct (repri_ok st2 p2 b n) as (st' & E & A3); [apply A2|exact Hn|exact H2|lia|]. exists st'. split; [exact E|]. by eapply adv_trans, adv_trans.
Qed.

Lemma aside_flag st i p f : aside st -> procs st !! i = Some p -> has f SLOAD = has (p_flag p) SLOAD -> aside (putp st i (set_flag p f)).
Proof.
  intros ((sl & rq & HI) & HA & HN) Hi Hf. pose proof HI as [HB Hsl Hrun Has]. split; [exists sl, rq; eapply inv_putp; [exact HI|exact Hi|..]|split].
  - unfold stays. splits; try done. by right.
  - exact (Hsl i p Hi).
  - intros Hr. destruct (Hrun i p Hi Hr) as [H1 H2]. split; [done|]. unfold loaded in *. cbn. by rewrite Hf.
  - exact (Has i p Hi).
  - intros j q E. cbn in E. apply list_lookup_insert_Some in E as [(<- & <- & _)|[_ E]]; [|by apply (HA j q)].
    intros H1 H2. apply (HA i p Hi H1). unfold loaded in *. by rewrite <- Hf.
  - intros j q E. cbn in E. apply list_lookup_insert_Some in E as [(<- & <- & _)|[_ E]]; [by apply (HN i p)|by apply (HN j q)].
Qed.

(** ** tsleep *)

(** No signal for tsleep to look at. *)
Definition quiet (p : proc) : bool := (p_sig p =? 0) || negb (has (p_flag p) STRC) && (Z.ldiff (p_sig p) (p_sigmask p) =? 0).

Section tsleep.
Variable runout_addr : Z.
Variable proc_addr : nat -> Z.
Variable procxmt : kst -> nat -> outcome (bool * kst).
Variable endtsleep_fn : nat.

Lemma CURSIG_quiet st u d p : procs st !! u_procp st = Some p -> quiet p = true -> CURSIG runout_addr proc_addr st u d = Ret (Return 0, st).
Proof. intros Hp Hq. unfold CURSIG. rewrite (getp_at st _ p Hp). bind. unfold quiet in Hq. by rewrite Hq. Qed.

(** The queueing, as both sleep and tsleep begin. *)
Lemma enqueue_ok st p chan pri wmesg : good at_work st -> noproc (sys st) = false -> procs st !! u_procp st = Some p -> p_stat p = SRUN ->
  chan <> 0 -> 0 <= pri <= 127 ->
  exists st1 p1, sleep_enqueue st (u_procp st) chan pri wmesg = Ret st1 /\ procs st1 !! u_procp st = Some p1 /\ others st st1 /\
    core p1 = core (asleep_as p chan pri wmesg) /\ aside (putp st1 (u_procp st) (set_stat p1 SSLEEP)) /\ length (procs st1) = length (procs st) /\
    exists sl rq, inv st sl rq /\ base st1 (upd sl (HASH chan) (sl (HASH chan) ++ [u_procp st])) rq /\
      cores st1 = <[u_procp st := core (asleep_as p chan pri wmesg)]> (cores st).
Proof.
  intros HG Hn Hp Hs Hc Hpri. destruct (running st p HG Hn Hp) as (Hr & _ & Hw). pose proof HG as ((sl & rq & HI) & _ & _).
  destruct (sleep_enqueue_ok st sl rq (u_procp st) p chan pri wmesg (i_base _ _ _ HI) Hp Hs Hr Hw Hc Hpri) as (st1 & E & HB1 & C1 & O1 & (p1 & P1 & D1 & R1)).
  exists st1, p1. splits; try done.
  - destruct (sleep_aside st p chan pri wmesg HG Hn Hp Hs Hc Hpri) as (st' & E' & HA & _). unfold go_to_sleep in E'. rewrite E in E'. revert E'. bind.
    rewrite (getp_at st1 _ p1 P1). bind. by intros [= <-].
  - apply (f_equal length) in C1. unfold cores in C1. by rewrite length_insert, !length_fmap in C1.
  - by exists sl, rq.
Qed.

Lemma tsleep_sleeps st u d q p chan pri wmesg timo : good at_work st -> noproc (sys st) = false -> procs st !! u_procp st = Some p -> p_stat p = SRUN ->
  chan <> 0 -> 0 <= Z.land pri PRIMASK <= 127 -> (has pri PCATCH = true -> quiet p = true) -> (timo <> 0 -> Callout.callfree q <> O) ->
  exists st' q' p', tsleep runout_addr proc_addr endtsleep_fn false st u d q chan pri wmesg timo = Ret (TAway Slept, st', q') /\
    aside st' /\ allproc st' = allproc st /\ length (procs st') = length (procs st) /\ u_procp st' = u_procp st /\
    (if timo =? 0 then Ret q else Callout.timeout endtsleep_fn (proc_addr (u_procp st)) timo q) = Ret q' /\
    procs st' !! u_procp st = Some p' /\ p_stat p' = SSLEEP /\ p_wchan p' = chan /\ has (p_flag p') SSINTR = has pri PCATCH || has (p_flag p) SSINTR.
Proof.
  intros HG Hn Hp Hs Hc Hpri Hcatch Ht. unfold tsleep.
  destruct (enqueue_ok st p chan (Z.land pri PRIMASK) wmesg HG Hn Hp Hs Hc Hpri) as (st1 & p1 & -> & P1 & (O1 & O2 & O3 & O4 & O5) & D1 & HA & Hlen & _). bind.
  assert (Hq : exists q', (if timo =? 0 then Ret q else Callout.timeout endtsleep_fn (proc_addr (u_procp st)) timo q) = Ret q').
  { destruct (Z.eqb_spec timo 0); [by exists q|]. unfold Callout.timeout. destruct (Callout.callfree q) eqn:E; [by specialize (Ht ltac:(done))|by eexists]. }
  destruct Hq as (q' & Eq). pose proof (core_fields _ _ D1) as (_ & _ & F3 & F4 & _). change (p_wchan p1 = chan) in F3. change (p_flag p1 = p_flag p) in F4.
  assert (Q1 : quiet p1 = quiet p).
  { unfold quiet. pose proof (f_equal p_sig D1) as G1. change (p_sig p1 = p_sig p) in G1. pose proof (f_equal p_sigmask D1) as G2. change (p_sigmask p1 = p_sigmask p) in G2.
    by rewrite G1, G2, F4. }
  assert (Hu : u_procp st1 = u_procp st) by done. rewrite <- Hu in P1.
  assert (Hend : forall st2 p2, procs st2 !! u_procp st2 = Some p2 -> u_procp st2 = u_procp st ->
    tsleep_sleep proc_addr endtsleep_fn st2 q timo = Ret (TAway Slept, putp st2 (u_procp st2) (set_stat p2 SSLEEP), q')).
  { intros st2 p2 H2 Hu2. unfold tsleep_sleep. rewrite (modp_ok st2 _ p2 _ H2). bind. rewrite Hu2, Eq. bind. done. }
  destruct (has pri PCATCH) eqn:Ec.
  - rewrite (CURSIG_quiet st1 u d p1 P1) by (rewrite Q1; by apply Hcatch). bind. unfold tsleep_first. rewrite (getp_at st1 _ p1 P1). bind.
    cbn [negb Z.eqb]. replace (p_wchan p1 =? 0) with false by (symmetry; apply Z.eqb_neq; congruence).
    rewrite (modp_ok st1 _ p1 _ P1). bind. set (p2 := set_flag p1 (Z.lor (p_flag p1) SSINTR)). set (st2 := putp st1 (u_procp st1) p2).
    assert (H2 : procs st2 !! u_procp st2 = Some p2) by (unfold st2; cbn [putp with_procs u_procp]; by eapply putp_at).
    rewrite (Hend st2 p2 H2 Hu). eexists _, q', (set_stat p2 SSLEEP). split; [reflexivity|]. splits; try done.
    + assert (HF : has (p_flag p2) SLOAD = has (p_flag p1) SLOAD) by (apply (flag_lor _ 7 1); lia).
      assert (P3 : procs (putp st1 (u_procp st) (set_stat p1 SSLEEP)) !! u_procp st = Some (set_stat p1 SSLEEP)) by (rewrite <- Hu; by eapply putp_at).
      pose proof (aside_flag _ _ _ (p_flag p2) HA P3 HF) as HA2. unfold st2. cbn [putp with_procs procs u_procp] in *. rewrite Hu. unfold putp, with_procs in *. cbn [procs] in *.
      rewrite list_insert_insert_eq in *. exact HA2.
    + cbn. rewrite !length_insert. exact Hlen.
    + cbn. rewrite Hu. apply list_lookup_insert_eq. rewrite length_insert. rewrite <- Hu. by apply lookup_lt_Some in P1.
    + change (has (Z.lor (p_flag p1) (sigmask 7)) (sigmask 7) = true). rewrite has_sigmask, mem_lor, mem_sigmask by lia. apply orb_true_r.
  - rewrite (Hend st1 p1 P1 Hu). eexists _, q', (set_stat p1 SSLEEP). split; [reflexivity|]. splits; try done.
    + by rewrite Hu.
    + cbn. by rewrite length_insert.
    + rewrite Hu in *. by eapply putp_at.
    + cbn. by rewrite F4.
Qed.

(** The running process is on no queue again. *)
Lemma back_ok st sl rq st' p' : good at_work st -> inv st sl rq -> noproc (sys st) = false -> base st' sl rq -> others st st' ->
  (forall j q', j <> u_procp st -> procs st' !! j = Some q' -> exists q, procs st !! j = Some q /\ core q' = core q) ->
  procs st' !! u_procp st = Some p' -> p_rlink p' = PNULL -> p_wchan p' = 0 -> p_stat p' = SRUN -> -20 <= p_nice p' <= 20 -> good at_work st'.
Proof.
  intros HG HI Hn HB (O1 & O2 & O3 & O4 & O5) Hoth Hi Hr Hw Hs Hnice. pose proof HG as (_ & HS & HN).
  assert (Hcase : forall j q', procs st' !! j = Some q' -> (j = u_procp st /\ q' = p') \/ (j <> u_procp st /\ exists q, procs st !! j = Some q /\ core q' = core q)).
  { intros j q' E. destruct (decide (j = u_procp st)) as [->|Hne]; [left; split; [done|congruence]|right; split; [done|by apply Hoth]]. }
  assert (Hring : forall j q q', procs st !! j = Some q -> procs st' !! j = Some q' -> p_rlink q <> PNULL <-> p_rlink q' <> PNULL).
  { intros j q q' E1 E2. split; intros Hq; (eapply queued_still; [|..|exact Hq|intros k; exact (fun x => x)|]); try eassumption; apply HB || apply HI. }
  split; [exists sl, rq; constructor; [exact HB|..]|split]; intros j q' E; destruct (Hcase j q' E) as [(-> & ->)|(Hne & q & E0 & D)]; try congruence;
    try (pose proof (core_fields _ _ D) as (F1 & _ & F3 & F4 & _)).
  - rewrite F1, F3. by apply (i_sleep _ _ _ HI j q).
  - unfold loaded. rewrite F1, F4. intros Hx. apply (i_run _ _ _ HI j q E0). by apply (Hring j q q').
  - rewrite F1, F3. by apply (i_asleep _ _ _ HI j q).
  - rewrite O4, O5, Hn, bool_decide_eq_true_2 by done. cbn. split; [done|]. by rewrite Hs.
  - rewrite O4, bool_decide_eq_false_2 by done. cbn. rewrite F1. unfold loaded. rewrite F4. intros H1 H2. apply (Hring j q q' E0 E). by eapply others_queued.
  - pose proof (f_equal p_nice D) as N. change (p_nice q' = p_nice q) in N. rewrite N. by apply (HN j).
Qed.

(** A signal that issig returns at the first look, before it has changed anything. *)
Definition at_once (u : user) (p : proc) (s : Z) : Prop :=
  wanted p <> 0 /\ s = ffs (wanted p) /\ sigs31 (p_sig p) /\ has (p_flag p) STRC = false /\ has (p_sigignore p) (sigmask s) = false /\ takes p u s.

Lemma issig_at_once st u d p s : procs st !! u_procp st = Some p -> at_once u p s -> CURSIG runout_addr proc_addr st u d = Ret (Return s, st).
Proof.
  intros Hp (H1 & -> & H3 & H4 & H5 & (h & Hh & Hign & Hdfl)). destruct (wanted_ffs p H3 H1) as (Hs & Hm & _). set (s := ffs (wanted p)) in *.
  assert (Hq : quiet p = false).
  { unfold quiet. rewrite H4. cbn [negb andb]. apply orb_false_iff. rewrite wanted_mem in Hm. apply andb_true_iff in Hm as [Hm _]. rewrite <- mem_ldiff in Hm. split; apply Z.eqb_neq; intros E.
    - rewrite E, mem_ldiff, mem_0 in Hm. done.
    - by rewrite E, mem_0 in Hm. }
  unfold CURSIG. rewrite (getp_at st _ p Hp). bind. fold (quiet p). rewrite Hq. unfold issig. cbn [issig_loop]. unfold issig_round. rewrite (getp_at st _ p Hp). bind.
  fold (wanted p). replace (wanted p =? 0) with false by (symmetry; by apply Z.eqb_neq). fold s. rewrite has_comm, H5, H4. cbn [andb].
  assert (Hd : issig_decide runout_addr proc_addr st u d (u_procp st) s (sigmask s) = Ret (Return s, st)); [|by rewrite Hd; bind].
  unfold issig_decide. rewrite (getp_at st _ p Hp). bind. rewrite Hh. cbn [read]. bind. destruct (Z.eqb_spec h SIG_DFL) as [Eh|Eh].
  - destruct (Hdfl Eh) as (D1 & D2 & D3). replace (p_ppid p =? 0) with false by (symmetry; by apply Z.eqb_neq). by rewrite !sigmask_has, D2, D3 by lia.
  - by replace (h =? SIG_IGN) with false by (symmetry; by apply Z.eqb_neq).
Qed.

(** The process as tsleep has queued it: it waits, but is not asleep yet. *)
Record queued_by (st st1 : kst) (p p1 : proc) (chan pri wmesg : Z) : Prop := QueuedBy {
  qb_proc : procs st1 !! u_procp st1 = Some p1;
  qb_oth : others st st1;
  qb_len : length (procs st1) = length (procs st);
  qb_core : core p1 = core (asleep_as p chan pri wmesg);
  qb_aside : aside (putp st1 (u_procp st1) (set_stat p1 SSLEEP));
  qb_inv : exists sl rq, inv st sl rq /\ base st1 (upd sl (HASH chan) (sl (HASH chan) ++ [u_procp st1])) rq /\
    cores st1 = <[u_procp st1 := core (asleep_as p chan pri wmesg)]> (cores st)
}.

Lemma enqueue_by st p chan pri wmesg : good at_work st -> noproc (sys st) = false -> procs st !! u_procp st = Some p -> p_stat p = SRUN ->
  chan <> 0 -> 0 <= pri <= 127 -> exists st1 p1, sleep_enqueue st (u_procp st) chan pri wmesg = Ret st1 /\ queued_by st st1 p p1 chan pri wmesg.
Proof.
  intros HG Hn Hp Hs Hc Hpri. destruct (enqueue_ok st p chan pri wmesg HG Hn Hp Hs Hc Hpri) as (st1 & p1 & E & P1 & O & D1 & HA & Hlen & sl & rq & HI & HB1 & C1).
  pose proof O as (_ & _ & _ & O4 & _). rewrite <- O4 in *. exists st1, p1. split; [done|]. constructor; try done. by exists sl, rq.
Qed.

Lemma queued_fields st st1 p p1 chan pri wmesg : queued_by st st1 p p1 chan pri wmesg ->
  p_wchan p1 = chan /\ p_stat p1 = p_stat p /\ p_flag p1 = p_flag p /\ p_sig p1 = p_sig p /\ p_sigmask p1 = p_sigmask p /\ p_sigignore p1 = p_sigignore p /\
  p_sigcatch p1 = p_sigcatch p /\ p_ppid p1 = p_ppid p /\ p_pptr p1 = p_pptr p /\ p_pgrp p1 = p_pgrp p /\ p_nice p1 = p_nice p /\ u_procp st1 = u_procp st.
Proof.
  intros [_ (_ & _ & _ & O4 & _) _ D _ _]. pose proof (core_fields _ _ D) as (F1 & _ & F3 & F4 & _ & _ & _ & F8).
  pose proof (f_equal p_sigmask D) as G1. pose proof (f_equal p_sigignore D) as G2. pose proof (f_equal p_sigcatch D) as G3. pose proof (f_equal p_ppid D) as G4.
  pose proof (f_equal p_pptr D) as G5. pose proof (f_equal p_pgrp D) as G6. pose proof (f_equal p_nice D) as G7. by splits.
Qed.

Lemma putp_putp st i p q : putp (putp st i p) i q = putp st i q.
Proof. unfold putp, with_procs. cbn [procs]. by rewrite list_insert_insert_eq. Qed.
Lemma putp_id st i p : procs st !! i = Some p -> putp st i p = st.
Proof. intros Hi. unfold putp, with_procs. rewrite list_insert_id by done. by destruct st. Qed.
Lemma set_sig_id p : set_sig p (p_sig p) = p.
Proof. by destruct p. Qed.

(** The look ends with a signal to take: the process is taken off the queue. *)
Lemma first_interrupted st st1 p p1 v u q s chan pri wmesg timo : good at_work st -> noproc (sys st) = false -> procs st !! u_procp st = Some p ->
  chan <> 0 -> queued_by st st1 p p1 chan pri wmesg -> s <> 0 ->
  exists st' p', tsleep_first proc_addr endtsleep_fn (Return s) (putp st1 (u_procp st1) (set_sig p1 v)) u q timo = Ret (TRet (interrupted u s), st', q) /\
    good at_work st' /\ others st st' /\ length (procs st') = length (procs st) /\
    procs st' !! u_procp st = Some p' /\ p_stat p' = SRUN /\ p_wchan p' = 0 /\ p_sig p' = v /\ p_flag p' = p_flag p.
Proof.
  intros HG Hn Hp Hc HQ Hs. pose proof (queued_fields _ _ _ _ _ _ _ HQ) as (F3 & _ & F4 & _ & _ & _ & _ & _ & _ & _ & FN & O4).
  pose proof HQ as [P1 O Hlen D1 _ (sl & rq & HI & HB1 & C1)]. set (p2 := set_sig p1 v). set (st2 := putp st1 (u_procp st1) p2).
  assert (P2 : procs st2 !! u_procp st1 = Some p2) by (by eapply putp_at).
  assert (HB2 : base st2 (upd sl (HASH chan) (sl (HASH chan) ++ [u_procp st1])) rq) by (eapply base_putp; [done|done|apply tame_stays, sig_tame]).
  unfold tsleep_first. change (u_procp st2) with (u_procp st1). rewrite (getp_at st2 _ p2 P2). bind.
  replace (s =? 0) with false by (symmetry; by apply Z.eqb_neq). change (p_wchan p2) with (p_wchan p1).
  replace (p_wchan p1 =? 0) with false by (symmetry; apply Z.eqb_neq; congruence). cbn [negb].
  destruct (unsleep_ok st2 _ rq (u_procp st1) p2 HB2 P2) as (st3 & -> & HB3 & C3 & Oth3 & P3). bind. pose proof Oth3 as (Q1 & Q2 & Q3 & Q4 & Q5).
  rewrite (modp_ok st3 _ _ _ P3). bind. set (p4 := set_stat (set_wchan p2 0) SRUN). set (st4 := putp st3 (u_procp st1) p4).
  assert (P4 : procs st4 !! u_procp st = Some p4) by (rewrite <- O4; by eapply putp_at). exists st4, p4. split; [done|].
  assert (R1 : p_rlink p1 = PNULL).
  { destruct (b_queued _ _ _ HB1 _ p1 P1) as [_ H]; [congruence|exact H]. }
  assert (E4 : cores st4 = <[u_procp st := core p4]> (cores st)).
  { unfold st4, st2, cores in *. cbn [putp with_procs procs] in *. rewrite list_fmap_insert, C3, list_fmap_insert, C1, O4. by rewrite !list_insert_insert_eq. }
  assert (HB4 : base st4 sl rq).
  { eapply base_putp; [|exact P3|apply set_stat_stays]. eapply base_ext; [exact HB3|]. intros h Hh. destruct (running st p HG Hn Hp) as (_ & _ & Hwp).
    rewrite (rem_out st sl rq _ p (i_base _ _ _ HI) Hp Hwp h Hh). unfold rem, upd. rewrite O4. destruct (decide (h = HASH chan)) as [->|]; [|done].
    rewrite filter_app, filter_cons, decide_False by (intros H; by apply H). by rewrite filter_nil, app_nil_r. }
  destruct O as (O1 & O2 & O3 & _ & O5).
  assert (O' : others st st4) by (unfold others, st4, st2 in *; cbn [putp with_procs qs whichqs allproc u_procp sys] in *; splits; congruence).
  splits; try done.
  - apply (back_ok st sl rq _ p4 HG HI Hn HB4); try done.
    + intros j q' Hne Ej. apply (f_equal (fun l => l !! j)) in E4. unfold cores in E4. rewrite list_lookup_insert_ne, !list_lookup_fmap, Ej in E4 by done.
      destruct (procs st !! j) as [q0|]; [|done]. exists q0. split; [done|]. by apply (inj Some) in E4.
    + change (-20 <= p_nice p1 <= 20). rewrite FN. destruct HG as (_ & _ & HN). by apply (HN (u_procp st)).
  - apply (f_equal length) in E4. unfold cores in E4. by rewrite length_insert, !length_fmap in E4.
Qed.

Lemma tsleep_interrupted st u d q p s chan pri wmesg timo : good at_work st -> noproc (sys st) = false -> procs st !! u_procp st = Some p -> p_stat p = SRUN ->
  chan <> 0 -> 0 <= Z.land pri PRIMASK <= 127 -> has pri PCATCH = true -> at_once u p s ->
  exists st' p', tsleep runout_addr proc_addr endtsleep_fn false st u d q chan pri wmesg timo = Ret (TRet (interrupted u s), st', q) /\
    good at_work st' /\ others st st' /\ length (procs st') = length (procs st) /\
    procs st' !! u_procp st = Some p' /\ p_stat p' = SRUN /\ p_wchan p' = 0 /\ p_sig p' = p_sig p /\ p_flag p' = p_flag p.
Proof.
  intros HG Hn Hp Hs Hc Hpri Hcatch Ho. unfold tsleep. destruct (enqueue_by st p chan (Z.land pri PRIMASK) wmesg HG Hn Hp Hs Hc Hpri) as (st1 & p1 & -> & HQ). bind.
  rewrite Hcatch. pose proof (queued_fields _ _ _ _ _ _ _ HQ) as (_ & _ & F4 & F8 & F5 & F6 & _ & F7 & _).
  assert (Ho1 : at_once u p1 s) by (unfold at_once, takes, wanted in *; by rewrite F8, F4, F5, F6, F7).
  rewrite (issig_at_once st1 u d p1 s (qb_proc _ _ _ _ _ _ _ HQ) Ho1). bind. destruct Ho1 as (Hw & Es & H31 & _). destruct (wanted_ffs p1 H31 Hw) as (Hsr & _). rewrite <- Es in Hsr.
  destruct (first_interrupted st st1 p p1 (p_sig p1) u q s chan (Z.land pri PRIMASK) wmesg timo HG Hn Hp Hc HQ) as (st' & p' & E & H); [lia|].
  rewrite set_sig_id, putp_id, F8 in * by apply HQ. by exists st', p'.
Qed.

Hypothesis ra_pos : runout_addr <> 0.

(** *** The first look for signals, by a process that is not traced *)

(** A change that the scheduler does not see leaves the queues ready for swtch. *)
Lemma aside_tame st i p q : aside st -> procs st !! i = Some p -> tame p q -> aside (putp st i q).
Proof.
  intros ((sl & rq & HI) & HA & HN) Hi HT. pose proof HT as (A1 & A2 & A3 & A4 & A5 & A6 & A7 & A8 & A9). pose proof HI as [HB Hsl Hrun Has].
  split; [exists sl, rq; eapply inv_putp; [exact HI|exact Hi|by apply tame_stays|..]|split].
  - rewrite A3, A5. by apply (Hsl i).
  - rewrite A2, A5, A6. by apply (Hrun i).
  - rewrite A3, A5. by apply (Has i).
  - intros j r E. cbn in E. apply list_lookup_insert_Some in E as [(<- & <- & _)|[_ E]]; [rewrite A2, A5, A6; by apply (HA i p)|by apply (HA j r)].
  - intros j r E. cbn in E. apply list_lookup_insert_Some in E as [(<- & <- & _)|[_ E]]; [apply A8, (HN i p Hi)|by apply (HN j r)].
Qed.

(** Stopped instead of asleep. *)
Lemma aside_stop st p : aside st -> procs st !! u_procp st = Some p -> p_stat p = SSLEEP -> good leaving (putp st (u_procp st) (set_stat p SSTOP)).
Proof.
  intros ((sl & rq & HI) & HA & HN) Hi Hs. pose proof HI as [HB Hsl Hrun Has].
  assert (Hr : p_rlink p = PNULL) by (destruct (decide (p_rlink p = PNULL)) as [|H]; [done|destruct (Hrun _ p Hi H); congruence]).
  split; [exists sl, rq; eapply inv_putp; [exact HI|exact Hi|apply set_stat_stays|..]|split].
  - intros _. by right.
  - by intros H.
  - done.
  - intros j r E. cbn in E. cbn [putp with_procs u_procp sys]. apply list_lookup_insert_Some in E as [(<- & <- & _)|[Hne E]].
    + destruct (_ && _); [by split|done].
    + rewrite bool_decide_eq_false_2 by congruence. cbn [andb]. by apply (HA j r).
  - intros j r E. cbn in E. apply list_lookup_insert_Some in E as [(<- & <- & _)|[_ E]]; [by apply (HN (u_procp st) p)|by apply (HN j r)].
Qed.

(** What the look needs of the queued process [p1]: it could be stopped there; it is
    not traced; its signals, group and parent are in order; nobody wakes it when a
    process must be swapped in. *)
Record looker (st1 : kst) (u : user) (d : ids) (p1 : proc) : Prop := Looker {
  lk_proc : procs st1 !! u_procp st1 = Some p1;
  lk_good : good leaving (putp st1 (u_procp st1) (set_stat p1 SSTOP));
  lk_rlink : p_rlink p1 = PNULL;
  lk_chan : p_wchan p1 <> runout_addr;
  lk_free : has (p_flag p1) STRC = false;
  lk_sig : sig_ok p1 u;
  lk_group : exists pg, pgrps d !! p_pgrp p1 = Some pg;
  lk_parent : p_pptr p1 <> u_procp st1 /\ exists pp, procs st1 !! p_pptr p1 = Some pp;
  lk_args : schedcpu_args_ok st1
}.

(** How it ends: with a signal or none, some pending ones dropped; or stopped. *)
Definition look_post (st1 : kst) (p1 : proc) (r : piece) (st' : kst) : Prop :=
  match r with
  | Again => False
  | Return s => exists v, st' = putp st1 (u_procp st1) (set_sig p1 v)
  | Swtch _ => good leaving st' /\ schedcpu_args_ok st' /\ exists q, procs st' !! u_procp st' = Some q /\ p_stat q = SSTOP
  end.

Section look.
Context (st1 : kst) (u : user) (d : ids) (p1 : proc) (HL : looker st1 u d p1).
Let i : nat := u_procp st1.
(** The state with [v] pending. *)
Let at_ (v : Z) : kst := putp st1 i (set_sig p1 v).

Local Lemma at_proc v : procs (at_ v) !! i = Some (set_sig p1 v).
Proof. eapply putp_at. apply HL. Qed.
Local Lemma at_put v q : putp (at_ v) i q = putp st1 i q.
Proof. apply putp_putp. Qed.

(** The stop, and the word to the parent. *)
Lemma look_stop v s m : exists r st', (st ← modp (at_ v) i (fun p => set_xstat p s);
    st ← stop runout_addr proc_addr st i;
    p ← getp st i;
    pp ← getp st (p_pptr p);
    st ← (if has (p_flag pp) SNOCLDSTOP then Ret st else psignal runout_addr proc_addr st (p_pptr p) SIGCHLD);
    Ret (Swtch (Stopped m), st)) = Ret (r, st') /\ match r with Swtch _ => look_post st1 p1 r st' | _ => False end.
Proof.
  pose proof HL as [P1 HG Hr Hc Hf Hsg Hgr [Hpi [pp Hpp]] Hargs]. fold i in P1, HG, Hpi. rewrite (modp_ok _ i _ _ (at_proc v)), at_put. bind.
  set (q0 := set_xstat (set_sig p1 v) s). set (stS := putp st1 i (set_stat q0 SSTOP)).
  assert (Eq : stop runout_addr proc_addr (putp st1 i q0) i = stop runout_addr proc_addr stS i).
  { unfold stop. rewrite (modp_ok (putp st1 i q0) i q0 _) by (by eapply putp_at). rewrite (modp_ok stS i (set_stat q0 SSTOP) _) by (by eapply putp_at).
    unfold stS. by rewrite !putp_putp. }
  rewrite Eq. assert (HGS : good leaving stS).
  { unfold stS. rewrite <- (putp_putp st1 i (set_stat p1 SSTOP)). eapply good_putp; [exact HG|by eapply putp_at|]. unfold tame. splits; try done. by left. }
  assert (PS : procs stS !! i = Some (set_stat q0 SSTOP)) by (by eapply putp_at).
  destruct (stop_ok leaving leaving_sleep runout_addr proc_addr stS i _ HGS PS Hr) as (st2 & p2 & -> & A2 & P2 & S2 & _); [done|]. bind.
  rewrite (getp_at st2 i p2 P2). bind.
  assert (F2 : p_pptr p2 = p_pptr p1 /\ p_wchan p2 <> runout_addr).
  { destruct A2 as [(_ & _ & _ & _ & HW) HK]. split.
    - destruct (Forall2_lookup_l _ _ _ _ _ HK PS) as (p3 & E3 & (Hx & _)). rewrite P2 in E3. injection E3 as <-. by injection Hx as -> _ _ _ _ _.
    - destruct (Forall2_lookup_l _ _ _ _ _ HW PS) as (p3 & E3 & Hx). rewrite P2 in E3. injection E3 as <-. destruct Hx as [->| ->]; [exact Hc|congruence]. }
  destruct F2 as [-> W2]. assert (Hcur : u_procp st2 = i) by (by destruct A2 as [(_ & _ & -> & _) _]).
  assert (Hpp2 : exists q, procs st2 !! p_pptr p1 = Some q).
  { eapply adv_in; [exact A2|]. exists pp. unfold stS. cbn. by rewrite list_lookup_insert_ne by congruence. }
  destruct Hpp2 as [q Hq]. rewrite (getp_at st2 _ q Hq). bind.
  assert (H3 : exists st3, (if has (p_flag q) SNOCLDSTOP then Ret st2 else psignal runout_addr proc_addr st2 (p_pptr p1) SIGCHLD) = Ret st3 /\
    adv leaving st2 st3 /\ frame [runout_addr] (eq (p_pptr p1)) st2 st3).
  { destruct (has (p_flag q) SNOCLDSTOP); [exists st2; split; [done|]; split; [apply adv_refl, A2|apply kept_refl]|].
    apply (tell_ok runout_addr proc_addr leaving st2 i (p_pptr p1) q leaving_sleep); [apply A2|done|by rewrite Hcur]. }
  destruct H3 as (st3 & -> & A3 & Fr3). bind. eexists _, st3. split; [done|]. cbn [look_post]. destruct (Fr3 i p2) as (p3 & Hp3 & _ & C3); [congruence|done|].
  specialize (C3 ltac:(intros Hx; apply list_elem_of_singleton in Hx; congruence)).
  split; [apply A3|]. split; [eapply advances_args; [apply A3|]; eapply advances_args; [apply A2|]|].
  - unfold schedcpu_args_ok in *. unfold stS. cbn. by rewrite length_insert.
  - exists p3. assert (Eu : u_procp st3 = i) by (by destruct A3 as [(_ & _ & -> & _) _]). rewrite Eu. split; [done|].
    pose proof (core_fields _ _ C3) as (D1 & _). congruence.
Qed.

Lemma look_decide v s : 1 <= s < 32 ->
  exists r st', issig_decide runout_addr proc_addr (at_ v) u d i s (sigmask s) = Ret (r, st') /\
    match r with Again => st' = at_ (Z.ldiff v (sigmask s)) | _ => look_post st1 p1 r st' end.
Proof.
  intros Hs. pose proof HL as [P1 HG Hr Hc Hf Hsg (pg & Hpg) Hpar Hargs]. unfold issig_decide. rewrite (getp_at _ i _ (at_proc v)). bind.
  destruct (lookup_lt_is_Some_2 (u_signal u) (Z.to_nat s)) as [h Hh]; [rewrite (so_len _ _ Hsg); lia|]. rewrite Hh. cbn [read]. bind.
  rewrite (modp_ok _ i _ (fun p => set_sig p (Z.ldiff (p_sig p) (sigmask s))) (at_proc v)), at_put. bind.
  assert (Hdrop : exists r st', Ret (Again, at_ (Z.ldiff v (sigmask s))) = Ret (r, st') /\ match r with Again => st' = at_ (Z.ldiff v (sigmask s)) | _ => look_post st1 p1 r st' end)
    by (by eexists Again, _).
  assert (Hret : exists r st', Ret (Return s, at_ v) = Ret (r, st') /\ match r with Again => st' = at_ (Z.ldiff v (sigmask s)) | _ => look_post st1 p1 r st' end)
    by (eexists (Return s), _; split; [done|]; by exists v).
  change (p_ppid (set_sig p1 v)) with (p_ppid p1). change (p_pgrp (set_sig p1 v)) with (p_pgrp p1). change (p_flag (set_sig p1 v)) with (p_flag p1).
  destruct (h =? SIG_DFL); [|destruct (h =? SIG_IGN); [exact Hdrop|exact Hret]].
  destruct (p_ppid p1 =? 0); [exact Hdrop|]. destruct (has (sigmask s) stopsigmask); [|destruct (has (sigmask s) defaultignmask); [exact Hdrop|exact Hret]].
  rewrite Hpg. cbn [read]. bind. destruct (_ || _); [exact Hdrop|]. destruct (look_stop v s (sigmask s)) as (r & st' & E & H). exists r, st'. split; [exact E|]. by destruct r.
Qed.

Lemma look_loop : forall fuel k v, sigs31 v -> 1 <= k <= 32 -> 33 <= Z.of_nat fuel + k -> (forall t, 1 <= t < k -> mem (wanted (set_sig p1 v)) t = false) ->
  exists r st', issig_loop runout_addr proc_addr fuel (at_ v) u d i = Ret (r, st') /\ look_post st1 p1 r st'.
Proof.
  induction fuel as [|fuel IH]; intros k v Hv Hk Hf Hlow; [lia|]. cbn [issig_loop]. unfold issig_round. rewrite (getp_at _ i _ (at_proc v)). bind.
  fold (wanted (set_sig p1 v)). destruct (Z.eqb_spec (wanted (set_sig p1 v)) 0) as [E|E]; [bind; eexists (Return 0), _; split; [done|by exists v]|].
  destruct (wanted_ffs (set_sig p1 v) Hv E) as (Hs & Hm & Hl). set (s := ffs _) in *. clearbody s.
  assert (Hge : k <= s) by (destruct (Z.le_gt_cases k s); [done|]; rewrite Hlow in Hm by lia; done).
  assert (Hagain : exists r st', issig_loop runout_addr proc_addr fuel (at_ (Z.ldiff v (sigmask s))) u d i = Ret (r, st') /\ look_post st1 p1 r st').
  { apply (IH (s + 1)); [|lia|lia|].
    - intros t H1 H2. rewrite mem_ldiff. by rewrite Hv.
    - intros t Ht. pose proof (wanted_drop (set_sig p1 v) s t) as Hw. cbn [set_sig p_sig] in Hw.
      change (set_sig p1 (Z.ldiff v (sigmask s))) with (set_sig (set_sig p1 v) (Z.ldiff v (sigmask s))). rewrite Hw by lia.
      destruct (Z.eqb_spec s t) as [->|Hne]; [by rewrite andb_false_r|]. by rewrite Hl by lia. }
  change (p_flag (set_sig p1 v)) with (p_flag p1). rewrite (lk_free _ _ _ _ HL). cbn [negb andb].
  rewrite (modp_ok _ i _ (fun p => set_sig p (Z.ldiff (p_sig p) (sigmask s))) (at_proc v)), at_put. bind. destruct (_ && _); [bind; exact Hagain|].
  destruct (look_decide v s Hs) as (r & st' & -> & H). bind. destruct r as [|t|a]; [by rewrite H|by eexists _, _..].
Qed.
End look.

Lemma CURSIG_look st1 u d p1 : looker st1 u d p1 -> sigs31 (p_sig p1) -> exists r st', CURSIG runout_addr proc_addr st1 u d = Ret (r, st') /\ look_post st1 p1 r st'.
Proof.
  intros HL Hv. pose proof (lk_proc _ _ _ _ HL) as P1. unfold CURSIG. rewrite (getp_at st1 _ p1 P1). bind.
  assert (E1 : putp st1 (u_procp st1) (set_sig p1 (p_sig p1)) = st1) by (rewrite set_sig_id; by apply putp_id).
  destruct (_ || _); [eexists (Return 0), st1; split; [done|]; by exists (p_sig p1)|].
  destruct (look_loop st1 u d p1 HL 33 1 (p_sig p1) Hv) as (r & st' & E & H); [lia|lia|intros t Ht; lia|]. rewrite E1 in E. by exists r, st'.
Qed.

(** tsleep with PCATCH, whatever is pending. *)
Lemma tsleep_looks st u d q p chan pri wmesg timo : taker st u d (u_procp st) p -> p_stat p = SRUN -> has (p_flag p) STRC = false ->
  chan <> 0 -> chan <> runout_addr -> 0 <= Z.land pri PRIMASK <= 127 -> has pri PCATCH = true -> (timo <> 0 -> Callout.callfree q <> O) ->
  exists r st' q', tsleep runout_addr proc_addr endtsleep_fn false st u d q chan pri wmesg timo = Ret (r, st', q') /\
    match r with
    | TRet _ => good at_work st' /\ others st st' /\ length (procs st') = length (procs st)
    | TAway Slept => aside st' /\ allproc st' = allproc st /\ length (procs st') = length (procs st) /\ u_procp st' = u_procp st
    | TAway _ => good leaving st' /\ schedcpu_args_ok st' /\ exists q, procs st' !! u_procp st' = Some q /\ p_stat q = SSTOP
    end.
Proof.
  intros HT Hs Hf Hc Hro Hpri Hcatch Ht. pose proof HT as [HG _ Hn Hp Hsg Hgr H31 [Hpi [pp Hpp]] Hargs]. unfold tsleep.
  destruct (enqueue_by st p chan (Z.land pri PRIMASK) wmesg HG Hn Hp Hs Hc Hpri) as (st1 & p1 & -> & HQ). bind. rewrite Hcatch.
  pose proof (queued_fields _ _ _ _ _ _ _ HQ) as (F3 & Fs & F4 & F8 & F5 & F6 & F9 & F7 & F10 & F11 & FN & O4). pose proof HQ as [P1 O Hlen D1 HA (sl & rq & HI & HB1 & C1)].
  assert (P1' : procs (putp st1 (u_procp st1) (set_stat p1 SSLEEP)) !! u_procp st1 = Some (set_stat p1 SSLEEP)) by (by eapply putp_at).
  assert (HL : looker st1 u d p1).
  { constructor; [done| | |congruence|congruence| | | |].
    - pose proof (aside_stop _ _ HA P1' eq_refl) as H. cbn [putp with_procs u_procp] in H. by rewrite putp_putp in H.
    - destruct (b_queued _ _ _ HB1 _ p1 P1) as [_ H]; [congruence|exact H].
    - destruct Hsg as [G1 G2 G3 G4 G5 G6 G7 G8]. constructor; try done; [by rewrite F5|by rewrite F9, F6|by rewrite F9].
    - rewrite F11. by apply (Hgr _ p Hp).
    - rewrite F10, O4. split; [done|]. apply lookup_lt_is_Some_2. rewrite Hlen. by apply lookup_lt_Some in Hpp.
    - unfold schedcpu_args_ok in *. destruct O as (_ & _ & O3 & _). by rewrite O3, Hlen. }
  destruct (CURSIG_look st1 u d p1 HL) as (r & st' & -> & H); [by rewrite F8|]. bind. destruct r as [|s|a]; [done|..].
  2:{ by exists (TAway (FirstSig a)), st', q. }
  destruct H as (v & ->). destruct (Z.eq_dec s 0) as [->|Hs0].
  2:{ destruct (first_interrupted st st1 p p1 v u q s chan (Z.land pri PRIMASK) wmesg timo HG Hn Hp Hc HQ Hs0) as (st2 & p2 & E & E1 & E2 & E3 & _). by eexists _, st2, q. }
  set (p2 := set_sig p1 v). set (st2 := putp st1 (u_procp st1) p2). assert (P2 : procs st2 !! u_procp st2 = Some p2) by (by eapply putp_at).
  unfold tsleep_first. rewrite (getp_at st2 _ p2 P2). bind. change (p_wchan p2) with (p_wchan p1). cbn [negb Z.eqb].
  replace (p_wchan p1 =? 0) with false by (symmetry; apply Z.eqb_neq; congruence). rewrite (modp_ok st2 _ p2 _ P2). bind.
  set (p3 := set_flag p2 (Z.lor (p_flag p2) SSINTR)). set (st3 := putp st2 (u_procp st2) p3). assert (P3 : procs st3 !! u_procp st3 = Some p3) by (by eapply putp_at).
  unfold tsleep_sleep. rewrite (modp_ok st3 _ p3 _ P3). bind.
  assert (Hq : exists q', (if timo =? 0 then Ret q else Callout.timeout endtsleep_fn (proc_addr (u_procp st3)) timo q) = Ret q').
  { destruct (Z.eqb_spec timo 0); [by exists q|]. unfold Callout.timeout. destruct (Callout.callfree q) eqn:E; [by specialize (Ht ltac:(done))|by eexists]. }
  destruct Hq as (q' & ->). bind. eexists (TAway Slept), _, q'. split; [reflexivity|].
  assert (E : putp st3 (u_procp st3) (set_stat p3 SSLEEP) = putp (putp (putp st1 (u_procp st1) (set_stat p1 SSLEEP)) (u_procp st1) (set_stat p2 SSLEEP)) (u_procp st1) (set_stat p3 SSLEEP)).
  { unfold st3, st2. change (u_procp (putp st1 (u_procp st1) p2)) with (u_procp st1). by rewrite !putp_putp. }
  split; [|split; [destruct O as (_ & _ & O3 & _); exact O3|split; [by cbn; rewrite !length_insert|exact O4]]].
  rewrite E. change (set_stat p3 SSLEEP) with (set_flag (set_stat p2 SSLEEP) (Z.lor (p_flag (set_stat p2 SSLEEP)) SSINTR)).
  apply (aside_flag _ _ (set_stat p2 SSLEEP)); [|by eapply putp_at|by apply (flag_lor _ 7 1); lia].
  apply (aside_tame _ _ (set_stat p1 SSLEEP)); [done|done|]. exact (sig_tame (set_stat p1 SSLEEP) v).
Qed.

(** *** endtsleep, and waking from tsleep *)

Lemma endtsleep_ok st i p : good at_work st -> procs st !! i = Some p ->
  exists st' p', endtsleep runout_addr st i = Ret st' /\ adv at_work st st' /\ procs st' !! i = Some p' /\ p_wchan p' = 0 /\
    p_stat p' = (if p_wchan p =? 0 then p_stat p else if bool_decide (p_stat p = SSLEEP) then SRUN else SSTOP) /\
    has (p_flag p') STIMO = negb (p_wchan p =? 0) || has (p_flag p) STIMO.
Proof.
  intros HG Hi. unfold endtsleep. rewrite (getp_at st i p Hi). bind. destruct (Z.eqb_spec (p_wchan p) 0) as [Hw|Hw].
  { exists st, p. splits; try done. by apply adv_refl. }
  assert (Hflag : forall st1 p1, adv at_work st st1 -> procs st1 !! i = Some p1 -> p_wchan p1 = 0 -> exists st' p',
    modp st1 i (fun p => set_flag p (Z.lor (p_flag p) STIMO)) = Ret st' /\ adv at_work st st' /\ procs st' !! i = Some p' /\ p_wchan p' = 0 /\
    p_stat p' = p_stat p1 /\ has (p_flag p') STIMO = true).
  { intros st1 p1 A1 H1 Hw1. rewrite (modp_ok st1 i p1 _ H1). eexists _, _. split; [reflexivity|]. split; [|split; [by eapply putp_at|]].
    - eapply adv_trans; [exact A1|]. eapply adv_putp; [apply A1|exact H1|]. change STIMO with (sigmask 19).
      apply flag_tame; [apply (flag_lor _ 19 1)|apply (flag_lor _ 19 7)|apply (flag_lor _ 19 2)]; lia.
    - splits; try done. cbn. change STIMO with (sigmask 19). rewrite has_sigmask, mem_lor, mem_sigmask by lia. apply orb_true_r. }
  pose proof HG as ((sl & rq & HI) & HS & _). destruct (bool_decide_reflect (p_stat p = SSLEEP)) as [Es|Es].
  - destruct (setrun_adv at_work id runout_addr proc_addr st i p HG Hi) as (st1 & p1 & -> & A1 & H1 & C1 & _); [by left|intros _; rewrite Es; exact id|]. bind.
    pose proof (core_fields _ _ C1) as (F1 & _ & F3 & _). rewrite ready_wchan in F3. rewrite ready_stat in F1.
    destruct (Hflag st1 p1 A1 H1 F3) as (st' & p' & -> & A & H & W & S & F). exists st', p'. splits; try done. congruence.
  - assert (Ep : p_stat p = SSTOP) by (by destruct (i_sleep _ _ _ HI i p Hi Hw)).
    destruct (unsleep_adv at_work proc_addr st i p HG Hi Ep) as (st1 & -> & A1 & H1 & _). bind.
    destruct (Hflag st1 _ A1 H1 eq_refl) as (st' & p' & -> & A & H & W & S & F). exists st', p'. splits; try done. by rewrite S.
Qed.

(** What tsleep does first when it runs again. *)
Definition back_sleeper (st : kst) (p : proc) : kst :=
  putp (with_sys st (set_curpri (sys st) (p_usrpri p))) (u_procp st) (set_flag p (Z.ldiff (p_flag p) SSINTR)).

Lemma tsleep_timed_out st u d q p pri timo : good at_work st -> procs st !! u_procp st = Some p -> has (p_flag p) STIMO = true ->
  exists st' p', tsleep_back runout_addr proc_addr procxmt endtsleep_fn st u d q pri timo Slept = Ret (TRet EWOULDBLOCK, st', q) /\
    good at_work st' /\ allproc st' = allproc st /\ length (procs st') = length (procs st) /\ procs st' !! u_procp st' = Some p' /\
    has (p_flag p') STIMO = false /\ has (p_flag p') SSINTR = false.
Proof.
  intros HG Hp Hf. unfold tsleep_back. rewrite (getp_at st _ p Hp). bind. set (st1 := with_sys st _).
  change (procs st) with (procs st1) in Hp. change (u_procp st) with (u_procp st1) in *. rewrite (modp_ok st1 _ p _ Hp). bind.
  set (p2 := set_flag p _). set (st2 := putp st1 _ p2). assert (H2 : procs st2 !! u_procp st1 = Some p2) by (by eapply putp_at).
  rewrite (getp_at st2 _ p2 H2). bind. assert (Ef : has (p_flag p2) STIMO = true).
  { rewrite <- Hf. exact (flag_ldiff (p_flag p) 7 19 ltac:(lia) ltac:(lia) ltac:(lia)). }
  rewrite Ef, (modp_ok st2 _ p2 _ H2). bind. eexists _, _. split; [reflexivity|].
  assert (G1 : good at_work st1) by (by apply good_sys).
  assert (G2 : good at_work st2) by (apply good_flag; [done|done|exact (flag_ldiff (p_flag p) 7 1 ltac:(lia) ltac:(lia) ltac:(lia))]).
  split; [|split; [done|split; [by cbn; rewrite !length_insert|split; [by eapply putp_at|]]]].
  - apply good_flag; [done|done|]. exact (flag_ldiff (p_flag p2) 19 1 ltac:(lia) ltac:(lia) ltac:(lia)).
  - cbn. change STIMO with (sigmask 19). change SSINTR with (sigmask 7).
    rewrite !has_sigmask, !mem_ldiff, !mem_sigmask by lia. cbn. by rewrite !andb_false_r, andb_false_l.
Qed.

Lemma tsleep_woken st u d q p pri timo : procs st !! u_procp st = Some p -> has (p_flag p) STIMO = false ->
  tsleep_back runout_addr proc_addr procxmt endtsleep_fn st u d q pri timo Slept =
    let q := if timo =? 0 then q else Callout.untimeout endtsleep_fn (proc_addr (u_procp st)) q in
    if has pri PCATCH then '(r, st) ← CURSIG runout_addr proc_addr (back_sleeper st p) u d; tsleep_second r st u q else Ret (TRet 0, back_sleeper st p, q).
Proof.
  intros Hp Hf. unfold tsleep_back. rewrite (getp_at st _ p Hp). bind. set (st1 := with_sys st _).
  assert (H1 : procs st1 !! u_procp st = Some p) by done. rewrite (modp_ok st1 _ p _ H1). bind.
  assert (H2 : procs (back_sleeper st p) !! u_procp st = Some (set_flag p (Z.ldiff (p_flag p) SSINTR))) by (by eapply putp_at).
  unfold back_sleeper in *. fold st1 in H2 |- *. rewrite (getp_at _ _ _ H2). bind. change STIMO with (sigmask 19) in *. cbn [set_flag p_flag]. change SSINTR with (sigmask 7). rewrite flag_ldiff, Hf by lia. done.
Qed.

Lemma back_sleeper_ok st u d p : taker st u d (u_procp st) p ->
  taker (back_sleeper st p) u d (u_procp st) (set_flag p (Z.ldiff (p_flag p) SSINTR)).
Proof.
  intros HT. unfold back_sleeper. apply (taker_flag (with_sys st (set_curpri (sys st) (p_usrpri p)))); [by apply taker_sys|].
  exact (flag_ldiff (p_flag p) 7 1 ltac:(lia) ltac:(lia) ltac:(lia)).
Qed.

End tsleep.

(** ** The transition system *)

Section system_ok.
Variables lbolt_addr runin_addr runout_addr : Z.
Variable proc_addr : nat -> Z.
Variable procxmt : kst -> nat -> outcome (bool * kst).
Variable endtsleep_fn : nat.
Hypothesis ra_pos : runout_addr <> 0.
Hypothesis lb_pos : lbolt_addr <> 0.
Hypothesis ri_pos : runin_addr <> 0.

Record sched_ok (st : kst) : Prop := SchedOk {
  sc_good : good at_work st;
  sc_args : schedcpu_args_ok st;
  sc_cur : exists p, procs st !! u_procp st = Some p
}.

(** The process that runs. *)
Definition busy (st : kst) (p : proc) : Prop := noproc (sys st) = false /\ procs st !! u_procp st = Some p.

(** The process goes on after a stop in issig: it is the running one again, and a
    tracing parent has left it a signal below 32. *)
Definition resumes (u : user) (d : ids) (st : kst) (a : resume) : Prop :=
  (exists p, taker st u d (u_procp st) p) /\ match a with Traced _ => procxmt_ok procxmt u d st (u_procp st) | Stopped _ => True end.

(** What the callers of each see to.  A process that is traced may not have signals
    to look at when it calls tsleep with PCATCH (see [traced_tsleep_panics]). *)
Definition allowed (o : op) (st : kst) : Prop :=
  match o with
  | OWakeup _ | OCharge => True
  | OSignal i sig => exists p, procs st !! i = Some p /\ 1 <= sig < 32 /\ has_parent runout_addr st i p
  | OEndtsleep i => exists p, procs st !! i = Some p
  | OSchedcpu q _ _ _ _ _ => Callout.callfree q <> O
  | OSleep chan pri => exists p, busy st p /\ p_stat p = SRUN /\ chan <> 0 /\ 0 <= pri <= PZERO
  | OTsleep u d q chan pri _ timo =>
      exists p, busy st p /\ p_stat p = SRUN /\ chan <> 0 /\ 0 <= Z.land pri PRIMASK <= 127 /\ (timo <> 0 -> Callout.callfree q <> O) /\
        (has pri PCATCH = true ->
           quiet p = true \/ (exists s, at_once u p s) \/ (taker st u d (u_procp st) p /\ has (p_flag p) STRC = false /\ chan <> runout_addr))
  | OTsleepBack u d _ pri _ Slept => exists p, busy st p /\ (has pri PCATCH = true -> has (p_flag p) STIMO = false -> taker st u d (u_procp st) p)
  | OTsleepBack u d _ _ _ (FirstSig a) | OTsleepBack u d _ _ _ (SecondSig a) | OCursigBack u d a => resumes u d st a
  | OCursig u d => exists p, taker st u d (u_procp st) p
  | OTrap => exists p, busy st p /\ p_stat p = SRUN /\ loaded p = true /\ 0 <= p_usrpri p <= 127
  | OSleepBack | OTrapBack => noproc (sys st) = false
  | OIdle => noproc (sys st) = true
  end.

Lemma ok_adv st st' : sched_ok st -> adv at_work st st' -> sched_ok st'.
Proof.
  intros [HG HA Hc] A. constructor; [apply A|by eapply advances_args; [apply A|]|]. pose proof A as [(_ & _ & Eu & _) HK]. rewrite Eu. by eapply adv_in.
Qed.

Lemma ok_swtch st st0 : sched_ok st0 -> aside st -> allproc st = allproc st0 -> length (procs st) = length (procs st0) -> u_procp st = u_procp st0 ->
  exists st', swtch st = Ret st' /\ sched_ok st'.
Proof.
  intros [HG HA [p Hp]] Hs Ea El Eu. destruct (swtch_ok st Hs) as (st' & E & HG' & Ea' & El' & Hc). exists st'. split; [done|]. constructor; [done| |].
  - unfold schedcpu_args_ok in *. by rewrite Ea', El', Ea, El.
  - destruct Hc as [[_ Eu']|Hc]; [|done]. rewrite Eu', Eu. apply lookup_lt_is_Some_2. rewrite El', El. by apply lookup_lt_Some in Hp.
Qed.

Lemma ok_sys st s : sched_ok st -> noproc s = noproc (sys st) -> sched_ok (with_sys st s).
Proof. intros [HG HA Hc] Hn. constructor; [by apply good_sys|done|done]. Qed.

Lemma ok_like st st' : sched_ok st -> good at_work st' -> others st st' -> length (procs st') = length (procs st) -> sched_ok st'.
Proof.
  intros [HG HA [p Hp]] HG' (_ & _ & O3 & O4 & _) Hl. constructor; [done|unfold schedcpu_args_ok in *; by rewrite O3, Hl|].
  rewrite O4. apply lookup_lt_is_Some_2. rewrite Hl. by apply lookup_lt_Some in Hp.
Qed.

Lemma ok_taker st u d p : taker st u d (u_procp st) p -> sched_ok st.
Proof. intros HT. constructor; [apply HT|apply HT|]. exists p. apply HT. Qed.
Lemma ok_stopped st : good leaving st -> schedcpu_args_ok st -> (exists q, procs st !! u_procp st = Some q /\ p_stat q = SSTOP) ->
  exists st2, swtch st = Ret st2 /\ sched_ok st2.
Proof.
  intros HG HA (q & Hq & Hs). destruct (swtch_ok st) as (st2 & E2 & HG' & Ea & El & Hc); [apply (aside_stopped _ q HG); [done|by rewrite Hs]|].
  exists st2. split; [done|]. constructor; [done|unfold schedcpu_args_ok in *; by rewrite Ea, El|].
  destruct Hc as [[_ Eu2]|Hc]; [|done]. rewrite Eu2. apply lookup_lt_is_Some_2. rewrite El. by apply lookup_lt_Some in Hq.
Qed.

(** A signal looked at, and the stop that may come of it. *)
Definition looked (u : user) (d : ids) (r : piece) (st : kst) : Prop :=
  match r with
  | Again => False
  | Return _ => exists p, taker st u d (u_procp st) p
  | Swtch _ => exists st2, swtch st = Ret st2 /\ sched_ok st2
  end.
Lemma post_looked u d i p r st : issig_post u d i p r st -> looked u d r st.
Proof.
  destruct r as [|s|a]; cbn [issig_post looked]; [done|..].
  - intros (q & HT & _). pose proof (k_cur _ _ _ _ _ HT) as <-. by exists q.
  - intros (HG & -> & HA & q & Hq & Hs & _). apply ok_stopped; [done|done|by exists q].
Qed.

Lemma step_cursig st u d p : taker st u d (u_procp st) p ->
  exists r st', CURSIG runout_addr proc_addr st u d = Ret (r, st') /\ looked u d r st'.
Proof.
  intros HT. destruct (CURSIG_ok runout_addr proc_addr ra_pos st u d p HT) as (r & st' & E & H). exists r, st'. split; [done|by eapply post_looked].
Qed.
Lemma step_resume st u d a : resumes u d st a ->
  exists r st', issig_resume runout_addr proc_addr procxmt st u d a = Ret (r, st') /\ looked u d r st'.
Proof.
  intros [(p & HT) Ha]. destruct (issig_resume_ok runout_addr proc_addr ra_pos procxmt st u d p a HT Ha) as (r & st' & p0 & E & H).
  exists r, st'. split; [done|by eapply post_looked].
Qed.
Lemma looked_goes u d r st : looked u d r st -> exists st', match r with Swtch _ => swtch st | _ => Ret st end = Ret st' /\ sched_ok st'.
Proof. destruct r as [|s|a]; [done| |done]. intros (p & HT). exists st. split; [done|by eapply ok_taker]. Qed.

(** The process is running again. *)
Lemma ok_srun st u d p : taker st u d (u_procp st) p -> sched_ok (putp st (u_procp st) (set_stat p SRUN)).
Proof.
  intros HT. destruct (taker_off _ _ _ _ _ HT) as (Hr & _ & Hw). pose proof HT as [((sl & rq & HI) & HS & HN) _ Hn Hp _ _ _ _ HA].
  constructor; [|unfold schedcpu_args_ok in *; cbn; by rewrite length_insert|eexists; by eapply putp_at].
  split; [exists sl, rq; eapply inv_putp; [exact HI|exact Hp|apply set_stat_stays|..]; cbn; congruence|split].
  - intros j r E. cbn in E. cbn [putp with_procs u_procp sys]. apply list_lookup_insert_Some in E as [(<- & <- & _)|[Hne E]].
    + rewrite Hn, bool_decide_eq_true_2 by done. by split.
    + specialize (HS j r E). exact HS.
  - intros j r E. cbn in E. apply list_lookup_insert_Some in E as [(<- & <- & _)|[_ E]]; [by apply (HN (u_procp st) p)|by apply (HN j r)].
Qed.

(** tsleep, up to where it returns or has given up the processor. *)
Lemma step_tsleep st u d q p chan pri wmesg timo : sched_ok st -> busy st p -> p_stat p = SRUN -> chan <> 0 -> 0 <= Z.land pri PRIMASK <= 127 ->
  (timo <> 0 -> Callout.callfree q <> O) ->
  (has pri PCATCH = true -> quiet p = true \/ (exists s, at_once u p s) \/ (taker st u d (u_procp st) p /\ has (p_flag p) STRC = false /\ chan <> runout_addr)) ->
  exists st', ('(r, st, _) ← tsleep runout_addr proc_addr endtsleep_fn false st u d q chan pri wmesg timo;
    match r with TAway _ => swtch st | TRet _ => Ret st end) = Ret st' /\ sched_ok st'.
Proof.
  intros HO [Hn Hp] Hs Hc Hpri Ht Hcatch. pose proof HO as [HG _ _]. destruct (decide (has pri PCATCH = true -> quiet p = true)) as [Hq|Hq].
  - destruct (tsleep_sleeps runout_addr proc_addr endtsleep_fn st u d q p chan pri wmesg timo HG Hn Hp Hs Hc Hpri Hq Ht) as (st' & q' & _ & -> & Hs' & Ea & El & Eu & _).
    bind. by apply (ok_swtch st' st).
  - destruct (has pri PCATCH) eqn:Ec; [|by destruct Hq]. destruct (Hcatch eq_refl) as [Hx|[[s Ho]|(HT & Hf & Hro)]]; [by destruct Hq| |].
    + destruct (tsleep_interrupted runout_addr proc_addr endtsleep_fn st u d q p s chan pri wmesg timo HG Hn Hp Hs Hc Hpri Ec Ho) as (st' & _ & -> & HG' & O & Hl & _).
      bind. exists st'. split; [done|]. by eapply ok_like.
    + destruct (tsleep_looks runout_addr proc_addr endtsleep_fn ra_pos st u d q p chan pri wmesg timo HT Hs Hf Hc Hro Hpri Ec Ht) as (r & st' & q' & -> & H). bind.
      destruct r as [e|[a| |a]].
      * destruct H as (HG' & O & Hl). exists st'. split; [done|]. by eapply ok_like.
      * destruct H as (HG' & HA & Hx). by apply ok_stopped.
      * destruct H as (Hs' & Ea & El & Eu). by apply (ok_swtch st' st).
      * destruct H as (HG' & HA & Hx). by apply ok_stopped.
Qed.

Lemma step_tsleep_back st u d q pri timo a : sched_ok st -> allowed (OTsleepBack u d q pri timo a) st ->
  exists st', ('(r, st, _) ← tsleep_back runout_addr proc_addr procxmt endtsleep_fn st u d q pri timo a;
    match r with TAway _ => swtch st | TRet _ => Ret st end) = Ret st' /\ sched_ok st'.
Proof.
  intros HO Ha. pose proof HO as [HG HA _]. cbn [allowed] in Ha. destruct a as [a| |a].
  - unfold tsleep_back. destruct (step_resume st u d a Ha) as (r & st1 & -> & H). bind. destruct r as [|s|b]; [done| |exact H].
    destruct H as (p & HT). destruct (taker_off _ _ _ _ _ HT) as (_ & _ & Hw). unfold tsleep_first. rewrite (getp_at st1 _ p (k_proc _ _ _ _ _ HT)). bind. rewrite Hw.
    destruct (s =? 0); cbn [negb Z.eqb]; [bind; exists st1; split; [done|by eapply ok_taker]|]. bind. rewrite (modp_ok st1 _ p _ (k_proc _ _ _ _ _ HT)). bind.
    eexists. split; [reflexivity|]. by eapply ok_srun.
  - destruct Ha as (p & [Hn Hp] & Hcatch). destruct (has (p_flag p) STIMO) eqn:Ef.
    + destruct (tsleep_timed_out runout_addr proc_addr procxmt endtsleep_fn st u d q p pri timo HG Hp Ef) as (st' & p' & -> & HG' & Ea & El & H' & _). bind.
      exists st'. split; [done|]. constructor; [done|unfold schedcpu_args_ok in *; by rewrite Ea, El|by exists p'].
    + rewrite (tsleep_woken runout_addr proc_addr procxmt endtsleep_fn st u d q p pri timo Hp Ef). cbv zeta. destruct (has pri PCATCH).
      * pose proof (back_sleeper_ok st u d p (Hcatch eq_refl eq_refl)) as HT. destruct (step_cursig (back_sleeper st p) u d _ HT) as (r & st' & -> & H). bind.
        destruct r as [|s|a]; [done| |exact H]. destruct H as (p' & HT'). exists st'. split; [done|by eapply ok_taker].
      * bind. eexists. split; [reflexivity|]. unfold back_sleeper. apply (ok_like (with_sys st (set_curpri (sys st) (p_usrpri p)))); [by apply ok_sys| |done|cbn; by rewrite length_insert].
        apply good_flag; [by apply good_sys|done|]. exact (flag_ldiff (p_flag p) 7 1 ltac:(lia) ltac:(lia) ltac:(lia)).
  - unfold tsleep_back. destruct (step_resume st u d a Ha) as (r & st1 & -> & H). bind. destruct r as [|s|b]; [done| |exact H].
    destruct H as (p & HT). exists st1. split; [done|by eapply ok_taker].
Qed.

Lemma step_trap st p : sched_ok st -> noproc (sys st) = false -> procs st !! u_procp st = Some p -> p_stat p = SRUN -> loaded p = true -> 0 <= p_usrpri p <= 127 ->
  exists st', ('(away, st) ← trap_end st; if (away : bool) then swtch st else Ret st) = Ret st' /\ sched_ok st'.
Proof.
  intros HO Hn Hp Hs Hl Hu. pose proof HO as [HG _ _]. destruct (running st p HG Hn Hp) as (Hr & _). unfold trap_end. rewrite (modp_ok st _ p _ Hp). bind.
  set (p1 := set_pri p (p_usrpri p)). set (st1 := putp st (u_procp st) p1). assert (H1 : procs st1 !! u_procp st = Some p1) by (by eapply putp_at).
  assert (A : adv at_work st st1) by (eapply adv_putp; [done|exact Hp|]; unfold tame, p1; splits; try done; by right).
  pose proof (ok_adv st st1 HO A) as HO1. destruct (runrun (sys st1) =? 0).
  - rewrite (getp_at st1 _ p1 H1). bind. eexists. split; [reflexivity|]. by apply ok_sys.
  - destruct (requeue_aside st1 p1) as (st2 & E & Hs2 & (C & O2 & O3 & O4 & O5 & O6)); [apply HO1|done|done|done|done|].
    change (u_procp st1) with (u_procp st) in E. rewrite E. bind. apply (ok_swtch st2 st1 HO1 Hs2); [done| |done].
    apply (f_equal length) in C. unfold cores in C. by rewrite !length_fmap in C.
Qed.

(** Every step that is allowed is taken, and ends in such a state. *)
Lemma step_ok o st : sched_ok st -> allowed o st ->
  exists st', run_op lbolt_addr runin_addr runout_addr proc_addr procxmt endtsleep_fn o st = Ret st' /\ sched_ok st'.
Proof.
  intros HO Ha. pose proof HO as [HG HA [pc Hpc]]. destruct o as [chan|i sig|i| |q fn av mf ms bc|chan pri| |u d q chan pri wmesg timo|u d q pri timo a|u d|u d a| | |]; cbn [run_op allowed] in *.
  - destruct (wakeup_step at_work id runout_addr st chan HG) as (st' & _ & -> & A & _). exists st'. split; [done|]. by eapply ok_adv.
  - destruct Ha as (p & Hp & Hs & Hpar). destruct (psignal_ok at_work id runout_addr proc_addr st i p sig HG Hp Hs Hpar (off_stop_all at_work id _ _ _) (fun q _ => off_stop_all at_work id _ _ _)) as (st' & _ & -> & A & _).
    exists st'. split; [done|]. by eapply ok_adv.
  - destruct Ha as (p & Hp). destruct (endtsleep_ok runout_addr proc_addr st i p HG Hp) as (st' & _ & -> & A & _). exists st'. split; [done|]. by eapply ok_adv.
  - destruct (charge_ok st pc HG Hpc) as (st' & -> & A). exists st'. split; [done|]. by eapply ok_adv.
  - destruct (schedcpu_ok at_work id lbolt_addr runin_addr runout_addr proc_addr st q fn av mf ms bc HG HA lb_pos ri_pos) as (st' & A & _ & _ & _ & ->).
    unfold Callout.timeout. destruct (Callout.callfree q) as [|n]; [done|]. bind. exists st'. split; [done|].
    pose proof A as (HG' & _ & Eu & _ & HF). constructor; [done|by eapply advances_args|]. rewrite Eu. destruct (Forall2_lookup_l _ _ _ _ _ HF Hpc) as (p' & E & _). by exists p'.
  - destruct Ha as (p & [Hn Hp] & Hs & Hc & Hpri). unfold sleep. unfold PZERO in *. replace (pri >? 25) with false by lia. rewrite (getp_at st _ p Hp). bind.
    destruct (running st p HG Hn Hp) as (Hr & _). replace (chan =? 0) with false by (symmetry; by apply Z.eqb_neq).
    rewrite !bool_decide_eq_false_2 by tauto. cbn [orb].
    destruct (sleep_aside st p chan pri 0 HG Hn Hp Hs Hc ltac:(lia)) as (st1 & -> & Hs1 & (O1 & O2 & O3 & O4 & O5) & C). bind.
    apply (ok_swtch st1 st HO Hs1 O3); [|done]. apply (f_equal length) in C. unfold cores in C. by rewrite length_insert, !length_fmap in C.
  - unfold sleep_back. rewrite (getp_at st _ pc Hpc). bind. eexists. split; [reflexivity|]. by apply ok_sys.
  - destruct Ha as (p & Hb & Hs & Hc & Hpri & Ht & Hcatch). by apply (step_tsleep st u d q p).
  - by apply step_tsleep_back.
  - destruct Ha as (p & HT). destruct (step_cursig st u d p HT) as (r & st' & -> & H). bind. by eapply looked_goes.
  - destruct (step_resume st u d a Ha) as (r & st' & -> & H). bind. by eapply looked_goes.
  - destruct Ha as (p & [Hn Hp] & Hs & Hl & Hu). by apply (step_trap st p).
  - unfold trap_back. rewrite (getp_at st _ pc Hpc). bind. eexists. split; [reflexivity|]. by apply ok_sys.
  - apply (ok_swtch st st HO); [by apply aside_idle|done..].
Qed.

(** What the steps lead to. *)
Inductive reach (a : kst) : kst -> Prop :=
| reach_refl : reach a a
| reach_step b o c : reach a b -> allowed o b ->
    run_op lbolt_addr runin_addr runout_addr proc_addr procxmt endtsleep_fn o b = Ret c -> reach a c.

Lemma reach_ok a b : sched_ok a -> reach a b -> sched_ok b.
Proof.
  intros HO H. induction H as [|b o c _ IH Ha E]; [done|]. destruct (step_ok o b IH Ha) as (c' & E' & HO'). rewrite E in E'. by injection E' as <-.
Qed.

End system_ok.

(** ** The properties *)

(** C24: in every state that wakeups, signals, timeouts, clock charges, schedcpu,
    sleeps, stops, preemptions and swtch lead to, in any order, from a state where
    it holds: the running process is on no queue and neither asleep nor stopped;
    every runnable process in core is on the run queue of its priority, and only
    those are; every process that waits for a channel is asleep or stopped and on
    that channel's sleep queue, and no other is; priorities stay in range.  And no
    step that its caller may make panics or loops.

    The steps include tsleep with PCATCH whatever signals are pending, its stop in
    CURSIG while the process is already on the sleep queue, and its going on after
    that stop.  What [allowed] leaves out is a process that is traced and has signals
    pending when it calls tsleep with PCATCH: there the kernel can panic
    ([traced_tsleep_panics]).  It also asks that such a sleep is not for the
    swapper's own channel, that a tracing parent leaves a signal below 32, and that a
    callout is free when there is a timeout. *)
Theorem sched_reachable lb ri ra pa px fn a b : ra <> 0 -> lb <> 0 -> ri <> 0 -> sched_ok a -> reach lb ri ra pa px fn a b ->
  sched_ok b /\ forall o, allowed ra px o b -> exists c, run_op lb ri ra pa px fn o b = Ret c /\ sched_ok c.
Proof.
  intros H1 H2 H3 HO HR. assert (Hb : sched_ok b) by exact (reach_ok _ _ _ _ _ _ H1 H2 H3 a b HO HR). split; [done|].
  intros o Ha. by apply step_ok.
Qed.

(** C25: tsleep, up to swtch, in a well-formed state: without PCATCH, or when there
    is no signal to look at, the process is asleep on the channel at the end of its
    queue, endtsleep is due after [timo] ticks when that is not 0, and the queues
    are ready for swtch; with PCATCH and a signal to take, it does not sleep: it is
    on no queue again and the error is EINTR when the signal's handler asked for
    that, and otherwise ERESTART. *)
Theorem tsleep_spec pa ra fn st u d q p chan pri wmesg timo : good at_work st -> noproc (sys st) = false -> procs st !! u_procp st = Some p -> p_stat p = SRUN ->
  chan <> 0 -> 0 <= Z.land pri PRIMASK <= 127 ->
  ((has pri PCATCH = true -> quiet p = true) -> (timo <> 0 -> Callout.callfree q <> O) ->
   exists st' q' p', tsleep ra pa fn false st u d q chan pri wmesg timo = Ret (TAway Slept, st', q') /\ aside st' /\ allproc st' = allproc st /\
     (if timo =? 0 then Ret q else Callout.timeout fn (pa (u_procp st)) timo q) = Ret q' /\
     procs st' !! u_procp st = Some p' /\ p_stat p' = SSLEEP /\ p_wchan p' = chan /\ has (p_flag p') SSINTR = has pri PCATCH || has (p_flag p) SSINTR) /\
  (forall s, has pri PCATCH = true -> at_once u p s ->
   exists st' p', tsleep ra pa fn false st u d q chan pri wmesg timo = Ret (TRet (interrupted u s), st', q) /\ good at_work st' /\ others st st' /\
     procs st' !! u_procp st = Some p' /\ p_stat p' = SRUN /\ p_wchan p' = 0 /\ p_sig p' = p_sig p /\ p_flag p' = p_flag p).
Proof.
  intros HG Hn Hp Hs Hc Hpri. split.
  - intros Hq Ht. destruct (tsleep_sleeps ra pa fn st u d q p chan pri wmesg timo HG Hn Hp Hs Hc Hpri Hq Ht) as (st' & q' & p' & E & A & A1 & _ & _ & A2).
    exists st', q', p'. exact (conj E (conj A (conj A1 A2))).
  - intros s Hca Ho. destruct (tsleep_interrupted ra pa fn st u d q p s chan pri wmesg timo HG Hn Hp Hs Hc Hpri Hca Ho) as (st' & p' & E & A & A1 & _ & A2).
    exists st', p'. exact (conj E (conj A (conj A1 A2))).
Qed.

(** the end of a tsleep.  endtsleep takes a process that still waits off its
    queue, makes it run if it was asleep (a stopped one stays stopped), and marks
    it; to one that has been woken it does nothing.  When the process runs again,
    tsleep returns EWOULDBLOCK exactly when it was marked, and otherwise cancels the
    timeout and, with no signal to look at, returns 0; neither mark stays. *)
Theorem tsleep_ends ra pa px fn st u d q p pri timo : ra <> 0 -> good at_work st -> procs st !! u_procp st = Some p ->
  (has pri PCATCH = true -> has (p_flag p) STIMO = false -> quiet p = true) ->
  (forall i r, procs st !! i = Some r -> exists st' r', endtsleep ra st i = Ret st' /\ good at_work st' /\ procs st' !! i = Some r' /\ p_wchan r' = 0 /\
     p_stat r' = (if p_wchan r =? 0 then p_stat r else if bool_decide (p_stat r = SSLEEP) then SRUN else SSTOP) /\
     has (p_flag r') STIMO = negb (p_wchan r =? 0) || has (p_flag r) STIMO) /\
  exists st' p', tsleep_back ra pa px fn st u d q pri timo Slept =
      Ret (TRet (if has (p_flag p) STIMO then EWOULDBLOCK else 0), st',
           if has (p_flag p) STIMO || (timo =? 0) then q else Callout.untimeout fn (pa (u_procp st)) q) /\
    good at_work st' /\ procs st' !! u_procp st = Some p' /\ has (p_flag p') STIMO = false /\ has (p_flag p') SSINTR = false.
Proof.
  intros Hra HG Hp Hq. split.
  { intros i r Hi. destruct (endtsleep_ok ra pa st i r HG Hi) as (st' & r' & E & A & H). exists st', r'. split; [done|]. split; [apply A|done]. }
  destruct (has (p_flag p) STIMO) eqn:Ef; cbn [orb].
  - destruct (tsleep_timed_out ra pa px fn st u d q p pri timo HG Hp Ef) as (st' & p' & E & HG' & _ & _ & H & H1 & H2). exists st', p'. splits; try done.
    assert (Eu : u_procp st' = u_procp st); [|by rewrite <- Eu]. revert E. unfold tsleep_back. rewrite (getp_at st _ p Hp). bind.
    rewrite (modp_ok (with_sys st _) _ p _ Hp). bind. erewrite getp_at by (eapply putp_at; exact Hp). bind.
    assert (E2 : has (p_flag (set_flag p (Z.ldiff (p_flag p) SSINTR))) STIMO = true) by (rewrite <- Ef; exact (flag_ldiff (p_flag p) 7 19 ltac:(lia) ltac:(lia) ltac:(lia))).
    rewrite E2. erewrite modp_ok by (eapply putp_at; exact Hp). bind. by intros [= <-].
  - rewrite (tsleep_woken ra pa px fn st u d q p pri timo Hp Ef). cbv zeta. set (p2 := set_flag p (Z.ldiff (p_flag p) SSINTR)).
    assert (H2 : procs (back_sleeper st p) !! u_procp (back_sleeper st p) = Some p2) by (by eapply putp_at).
    exists (back_sleeper st p), p2. split; [|split; [|split; [exact H2|]]].
    + destruct (has pri PCATCH) eqn:Ec; [|done]. rewrite (CURSIG_quiet ra pa (back_sleeper st p) u d p2 H2); [bind; reflexivity|].
      assert (Et : has (p_flag p2) STRC = has (p_flag p) STRC) by exact (flag_ldiff (p_flag p) 7 5 ltac:(lia) ltac:(lia) ltac:(lia)).
      specialize (Hq eq_refl eq_refl). unfold quiet in *. by rewrite Et.
    + unfold back_sleeper. apply good_flag; [by apply good_sys|done|]. exact (flag_ldiff (p_flag p) 7 1 ltac:(lia) ltac:(lia) ltac:(lia)).
    + split; [rewrite <- Ef; exact (flag_ldiff (p_flag p) 7 19 ltac:(lia) ltac:(lia) ltac:(lia))|].
      change (has (Z.ldiff (p_flag p) (sigmask 7)) (sigmask 7) = false). rewrite has_sigmask, mem_ldiff, mem_sigmask by lia. apply andb_false_r.
Qed.

(** *** Instances *)

Definition demo_st : kst := demo (rqinit demo0).

Lemma demo_good : good at_work demo_st.
Proof. exact (conj (ex_intro _ demo_sl (ex_intro _ (fun _ => []) demo_sched_inv)) demo_settled). Qed.

Lemma demo_at0 : procs demo_st !! 0%nat = Some (demo_proc SRUN).
Proof. reflexivity. Qed.

Lemma demo_sched_ok : sched_ok demo_st.
Proof. constructor; [exact demo_good|exact (k_args _ _ _ _ _ demo_taker)|exists (demo_proc SRUN); exact demo_at0]. Qed.

(** Process 0, which its parent, process 1, traces, has SIGINT pending and calls
    tsleep; the parent sleeps, for a signal to wake it, and is swapped out, and the
    swapper waits to be told of such processes on a channel that hashes with the one
    process 0 is to sleep on.  The parent is told of the stop before it is one: the
    SIGCHLD makes it runnable, wakeup(&runout) comes upon process 0 on the sleep
    queue, still SRUN, and panics. *)
Definition traced_child : proc := set_flag (set_sig demo_child (sigmask 2)) (Z.lor SLOAD STRC).
Definition swapped_parent : proc := set_flag (set_sigcatch (set_link (set_stat (asleep_as (demo_proc SRUN) 0x1000 30 0) SSLEEP) (PP 2)) (sigmask SIGCHLD)) SSINTR.
Definition traced_st : kst := with_sys (putp (putp demo_st 1 swapped_parent) 0 traced_child) (set_runout (sys demo_st) 1).

Lemma traced_good : good at_work traced_st.
Proof.
  assert (Hlt : forall i p, procs traced_st !! i = Some p -> (i < 3)%nat) by (intros i p E; apply lookup_lt_Some in E; exact E).
  split; [|split; intros i p E; pose proof (Hlt i p E); destruct i as [|[|[|i]]]; try lia; vm_compute in E; injection E as <-; by vm_compute].
  exists demo_sl, (fun _ => []). assert (H1 : inv (putp demo_st 1 swapped_parent) demo_sl (fun _ => [])).
  { eapply inv_putp; [exact demo_sched_inv|vm_compute; reflexivity|..]; try done; [|intros _; by left]. unfold stays. splits; try done. by left. }
  assert (H2 : inv (putp (putp demo_st 1 swapped_parent) 0 traced_child) demo_sl (fun _ => [])).
  { eapply inv_putp; [exact H1|vm_compute; reflexivity|..]; try done. unfold stays. splits; try done. by left. }
  destruct H2 as [HB I1 I2 I3]. constructor; [by apply base_sys|done..].
Qed.

Lemma traced_tsleep_panics : good at_work traced_st /\ noproc (sys traced_st) = false /\ procs traced_st !! u_procp traced_st = Some traced_child /\ p_stat traced_child = SRUN /\
  tsleep 0x1040 demo_chan 7 false traced_st user0 demo_ids (Callout.Q [] 5) 0x2040 (Z.lor 40 PCATCH) 0 0 = Panic "wakeup".
Proof. split; [exact traced_good|]. splits; try reflexivity. Qed.

(** Process 0 goes to sleep; then somebody wakes processes 1 and 2. *)
Lemma sched_reachable_witness : exists b c,
  run_op 0x1000 0x1020 0x1040 demo_chan (fun st _ => Ret (true, st)) 7 (OSleep 0x3000 20) demo_st = Ret b /\
  run_op 0x1000 0x1020 0x1040 demo_chan (fun st _ => Ret (true, st)) 7 (OWakeup 0x1000) b = Ret c /\ sched_ok c.
Proof.
  assert (Ha : allowed 0x1040 (fun st _ => Ret (true, st)) (OSleep 0x3000 20) demo_st).
  { exists (demo_proc SRUN). split; [split; [reflexivity|exact demo_at0]|]. split; [reflexivity|]. split; [lia|]. unfold PZERO. lia. }
  destruct (proj2 (sched_reachable 0x1000 0x1020 0x1040 demo_chan (fun st _ => Ret (true, st)) 7 demo_st demo_st ltac:(lia) ltac:(lia) ltac:(lia)
    demo_sched_ok (reach_refl _ _ _ _ _ _ _)) _ Ha) as (b & E & _).
  destruct (proj2 (sched_reachable 0x1000 0x1020 0x1040 demo_chan (fun st _ => Ret (true, st)) 7 demo_st b ltac:(lia) ltac:(lia) ltac:(lia)
    demo_sched_ok (reach_step _ _ _ _ _ _ _ _ _ _ (reach_refl _ _ _ _ _ _ _) Ha E)) (OWakeup 0x1000) I) as (c & E2 & HO).
  exact (ex_intro _ b (ex_intro _ c (conj E (conj E2 HO)))).
Defined.

Lemma tsleep_spec_witness : exists st' q' p', tsleep 0x1040 demo_chan 7 false demo_st user0 demo_ids (Callout.Q [] 5) 0x3000 (Z.lor 40 PCATCH) 0 100 = Ret (TAway Slept, st', q') /\
  procs st' !! 0%nat = Some p' /\ p_stat p' = SSLEEP /\ p_wchan p' = 0x3000.
Proof.
  destruct (proj1 (tsleep_spec demo_chan 0x1040 7 demo_st user0 demo_ids (Callout.Q [] 5) (demo_proc SRUN) 0x3000 (Z.lor 40 PCATCH) 0 100 demo_good
    eq_refl demo_at0 eq_refl ltac:(lia) ltac:(vm_compute; split; discriminate)) (fun _ => eq_refl) ltac:(discriminate)) as (st' & q' & p' & E & _ & _ & _ & H1 & H2 & H3 & _).
  exact (ex_intro _ st' (ex_intro _ q' (ex_intro _ p' (conj E (conj H1 (conj H2 H3)))))).
Defined.

Lemma tsleep_ends_witness : exists st' r', endtsleep 0x1040 demo_st 2 = Ret st' /\ procs st' !! 2%nat = Some r' /\ p_stat r' = SRUN /\ has (p_flag r') STIMO = true.
Proof.
  destruct (proj1 (tsleep_ends 0x1040 demo_chan (fun st _ => Ret (true, st)) 7 demo_st user0 demo_ids (Callout.Q [] 5) (demo_proc SRUN) 40 0 ltac:(lia) demo_good
    demo_at0 ltac:(discriminate)) 2%nat (set_link (set_stat (asleep_as (demo_proc SRUN) 0x1000 40 0) SSLEEP) PNULL) eq_refl) as (st' & r' & E & _ & H1 & _ & H2 & H3).
  exact (ex_intro _ st' (ex_intro _ r' (conj E (conj H1 (conj H2 H3))))).
Defined.

End KernSleep.
