(* ===== verification/SockBuf.v ===== *)
(** Socket buffers: the second half of sys/kern/uipc_socket2.c and the macros of
    sys/sys/socketvar.h, on the mbufs of Mbuf.v.

    [sb_mb] is the list of the records ([m_nextpkt]), each a chain of mbufs
    ([m_next]); a record is never the null pointer.  The select and timeout
    fields, which only the sleeping routines use, are left out. *)
From stdpp Require Import base numbers list gmap strings.
From Stdlib Require Import ZArith Lia.
From S2P Require Import Prelude Rmap Mbuf.

Module SockBuf.
Import Mbuf.

(** ** Data *)

Definition MSIZE : Z := 128.
Definition MT_SONAME : Z := 8.
Definition MT_CONTROL : Z := 14.
Definition MT_OOBDATA : Z := 15.
Definition SB_LOCK : Z := 0x01.
Definition SB_MAX : Z := 64 * 1024.
Definition ENOBUFS : Z := 55.

Record sockbuf := Sb {
  sb_cc : Z;
  sb_hiwat : Z;
  sb_mbcnt : Z;
  sb_mbmax : Z;
  sb_lowat : Z;
  sb_mb : list chain;
  sb_flags : Z
}.

Definition set_counts (sb : sockbuf) (cc mbcnt : Z) : sockbuf :=
  Sb cc (sb_hiwat sb) mbcnt (sb_mbmax sb) (sb_lowat sb) (sb_mb sb) (sb_flags sb).
Definition set_mb (sb : sockbuf) (l : list chain) : sockbuf :=
  Sb (sb_cc sb) (sb_hiwat sb) (sb_mbcnt sb) (sb_mbmax sb) (sb_lowat sb) l (sb_flags sb).
Definition set_limits (sb : sockbuf) (hiwat mbmax lowat : Z) : sockbuf :=
  Sb (sb_cc sb) hiwat (sb_mbcnt sb) mbmax lowat (sb_mb sb) (sb_flags sb).

(** What an mbuf counts for in [sb_mbcnt]. *)
Definition mbsize (m : mbuf) : Z := MSIZE + (if is_ext m then ext_size m else 0).

Definition sballoc (sb : sockbuf) (m : mbuf) : sockbuf :=
  set_counts sb (u32 (sb_cc sb + m_len m)) (u32 (sb_mbcnt sb + mbsize m)).
Definition sbfree (sb : sockbuf) (m : mbuf) : sockbuf :=
  set_counts sb (u32 (sb_cc sb - m_len m)) (u32 (sb_mbcnt sb - mbsize m)).
Definition sbspace (sb : sockbuf) : Z := Z.min (s32 (sb_hiwat sb - sb_cc sb)) (s32 (sb_mbmax sb - sb_mbcnt sb)).

(** ** Space *)

Definition sbreserve (sb_max : Z) (sb : sockbuf) (cc : Z) : bool * sockbuf :=
  if cc >? u32 (sb_max * MCLBYTES) / (MSIZE + MCLBYTES) then (false, sb)
  else
    let mbmax := umin (u32 (cc * 2)) sb_max in
    let lowat := if u32 (sb_lowat sb) >? cc then s32 cc else sb_lowat sb in
    (true, set_limits sb cc mbmax lowat).

(** ** Compression

    The chain [m] is put after the mbuf [n] ([None]: the buffer is empty); the
    result is what [n] and the mbufs linked after it have become. *)
Fixpoint sbcompress (m : chain) (n : option mbuf) (eor : Z) (sb : sockbuf) (st : mstate) : outcome (chain * sockbuf * mstate) :=
  match m with
  | [] => Ret (match n with Some n => [set_flags n (Z.lor (m_flags n) eor)] | None => [] end, sb, st)
  | m0 :: r =>
      let eor := Z.lor eor (Z.land (m_flags m0) M_EOR) in
      if m_len m0 =? 0 then sbcompress r n eor sb (MFREE m0 st)
      else
        let link :=
          '(l, sb, st) ← sbcompress r (Some (set_flags m0 (Z.land (m_flags m0) (Z.lnot M_EOR)))) eor (sballoc sb m0) st;
          Ret (match n with Some n => n :: l | None => l end, sb, st) in
        match n with
        | Some n =>
            if (Z.land (m_flags n) (Z.lor M_EXT M_EOR) =? 0) && (m_off n + m_len n + m_len m0 <? MLEN) && (m_type n =? m_type m0) then
              bs ← mread st m0 0 (m_len m0);
              n ← mappend n bs;
              sbcompress r (Some (set_len n (m_len n + m_len m0))) eor (set_counts sb (u32 (sb_cc sb + m_len m0)) (sb_mbcnt sb)) (MFREE m0 st)
            else link
        | None => link
        end
  end.

(** ** Appending *)

(** The record that begins with [m0], compressed. *)
Definition new_record (sb : sockbuf) (m0 : mbuf) (r : chain) (st : mstate) : outcome (chain * sockbuf * mstate) :=
  let sb := sballoc sb m0 in
  let '(m0, r) :=
    match r with
    | m :: r' =>
        if has (m_flags m0) M_EOR
        then (set_flags m0 (Z.land (m_flags m0) (Z.lnot M_EOR)), set_flags m (Z.lor (m_flags m) M_EOR) :: r')
        else (m0, r)
    | [] => (m0, r)
    end in
  sbcompress r (Some m0) 0 sb st.

Definition sbappendrecord (sb : sockbuf) (m0 : chain) (st : mstate) : outcome (sockbuf * mstate) :=
  match m0 with
  | [] => Ret (sb, st)
  | m :: r =>
      '(rec, sb', st) ← new_record sb m r st;
      Ret (set_mb sb' (sb_mb sb ++ [rec]), st)
  end.

(** The walk to the last mbuf of a record: [None] when one before the last ends a
    record, otherwise what is before the last and the last. *)
Fixpoint last_mbuf (r : chain) : option (chain * mbuf) :=
  match r with
  | [] => None
  | [n] => Some ([], n)
  | n :: r =>
      if has (m_flags n) M_EOR then None
      else match last_mbuf r with Some (front, l) => Some (n :: front, l) | None => None end
  end.

(** The records before the last, and the last. *)
Fixpoint last_record (l : list chain) : option (list chain * chain) :=
  match l with
  | [] => None
  | [r] => Some ([], r)
  | r :: l => match last_record l with Some (front, x) => Some (r :: front, x) | None => None end
  end.

Definition sbappend (sb : sockbuf) (m : chain) (st : mstate) : outcome (sockbuf * mstate) :=
  match m with
  | [] => Ret (sb, st)
  | _ =>
      match last_record (sb_mb sb) with
      | None =>
          '(rec, sb', st) ← sbcompress m None 0 sb st;
          Ret (set_mb sb' (match rec with [] => [] | _ => [rec] end), st)
      | Some (recs, r) =>
          match last_mbuf r with
          | None => sbappendrecord sb m st
          | Some (front, n) =>
              '(rec, sb', st) ← sbcompress m (Some n) 0 sb st;
              Ret (set_mb sb' (recs ++ [front ++ rec]), st)
          end
      end
  end.

(** Does the out-of-band data go after this record? *)
Fixpoint oob_train (r : chain) : bool :=
  match r with
  | [] => false
  | m :: r => if m_type m =? MT_OOBDATA then true else if m_type m =? MT_CONTROL then oob_train r else false
  end.
Fixpoint oob_place (l : list chain) : list chain * list chain :=
  match l with
  | [] => ([], [])
  | r :: l => if oob_train r then let '(a, b) := oob_place l in (r :: a, b) else ([], r :: l)
  end.
Definition sbinsertoob (sb : sockbuf) (m0 : chain) (st : mstate) : outcome (sockbuf * mstate) :=
  match m0 with
  | [] => Ret (sb, st)
  | m :: r =>
      let '(before, after) := oob_place (sb_mb sb) in
      '(rec, sb', st) ← new_record sb m r st;
      Ret (set_mb sb' (before ++ rec :: after), st)
  end.

(** [asa] is the address, [sa_len] bytes.  On failure the caller still has [m0] and
    [control]. *)
Definition sbappendaddr (sb : sockbuf) (asa : list Z) (m0 control : chain) (st : mstate) : outcome (bool * sockbuf * mstate) :=
  let sa_len := Z.of_nat (length asa) in
  let bad := match m0 with m :: _ => negb (is_pkt m) | [] => false end in
  if bad then Panic "sbappendaddr"
  else
    let space := sa_len + match m0 with m :: _ => pkt_len m | [] => 0 end + chain_len control in
    if s32 space >? sbspace sb then Ret (false, sb, st)
    else if sa_len >? MLEN then Ret (false, sb, st)
    else
      match MGET MT_SONAME st with
      | (None, st) => Ret (false, sb, st)
      | (Some m, st) =>
          d ← bwrite (m_dat m) (m_off m) asa;
          let rec := set_len (set_dat m d) sa_len :: control ++ m0 in
          Ret (true, set_mb (foldl sballoc sb rec) (sb_mb sb ++ [rec]), st)
      end.

Definition sbappendcontrol (sb : sockbuf) (m0 control : chain) (st : mstate) : outcome (bool * sockbuf * mstate) :=
  match control with
  | [] => Panic "sbappendcontrol"
  | _ =>
      if s32 (chain_len control + chain_len m0) >? sbspace sb then Ret (false, sb, st)
      else
        let rec := control ++ m0 in
        Ret (true, set_mb (foldl sballoc sb rec) (sb_mb sb ++ [rec]), st)
  end.

(** ** Dropping *)

(** The loop over one record: the rest of it, and the length still to drop. *)
Fixpoint drop_chain (m : chain) (len : Z) (sb : sockbuf) (st : mstate) : chain * Z * sockbuf * mstate :=
  match m with
  | [] => ([], len, sb, st)
  | m0 :: r =>
      if len >? 0 then
        if m_len m0 >? len
        then (set_data m0 (m_off m0 + len) (m_len m0 - len) :: r, 0, set_counts sb (u32 (sb_cc sb - len)) (sb_mbcnt sb), st)
        else drop_chain r (len - m_len m0) (sbfree sb m0) (MFREE m0 st)
      else (m, len, sb, st)
  end.
Fixpoint drop_records (next : list chain) (m : chain) (len : Z) (sb : sockbuf) (st : mstate) : outcome (chain * list chain * sockbuf * mstate) :=
  let '(m, len, sb, st) := drop_chain m len sb st in
  if len >? 0 then
    match next with
    | [] => Panic "sbdrop"
    | r :: next => drop_records next r len sb st
    end
  else Ret (m, next, sb, st).
Fixpoint drop_empty (m : chain) (sb : sockbuf) (st : mstate) : chain * sockbuf * mstate :=
  match m with
  | [] => ([], sb, st)
  | m0 :: r => if m_len m0 =? 0 then drop_empty r (sbfree sb m0) (MFREE m0 st) else (m, sb, st)
  end.
Definition sbdrop (sb : sockbuf) (len : Z) (st : mstate) : outcome (sockbuf * mstate) :=
  let '(m, next) := match sb_mb sb with [] => ([], []) | r :: l => (r, l) end in
  '(m, next, sb, st) ← drop_records next m len sb st;
  let '(m, sb, st) := drop_empty m sb st in
  Ret (set_mb sb (match m with [] => next | _ => m :: next end), st).

Fixpoint free_record (m : chain) (sb : sockbuf) (st : mstate) : sockbuf * mstate :=
  match m with
  | [] => (sb, st)
  | m0 :: r => free_record r (sbfree sb m0) (MFREE m0 st)
  end.
Definition sbdroprecord (sb : sockbuf) (st : mstate) : sockbuf * mstate :=
  match sb_mb sb with
  | [] => (sb, st)
  | r :: l => free_record r (set_mb sb l) st
  end.

Fixpoint sbflush_loop (fuel : nat) (sb : sockbuf) (st : mstate) : outcome (sockbuf * mstate) :=
  match fuel with
  | O => Fault
  | S fuel =>
      if sb_mbcnt sb =? 0 then Ret (sb, st)
      else '(sb, st) ← sbdrop sb (s32 (sb_cc sb)) st; sbflush_loop fuel sb st
  end.
(** Each round frees a record, or everything. *)
Definition sbflush (sb : sockbuf) (st : mstate) : outcome (sockbuf * mstate) :=
  if has (sb_flags sb) SB_LOCK then Panic "sbflush"
  else
    '(sb, st) ← sbflush_loop (2 + length (sb_mb sb)) sb st;
    if negb (sb_cc sb =? 0) || negb (bool_decide (sb_mb sb = [])) then Panic "sbflush 2" else Ret (sb, st).

Definition sbrelease (sb : sockbuf) (st : mstate) : outcome (sockbuf * mstate) :=
  '(sb, st) ← sbflush sb st;
  Ret (set_limits sb 0 0 (sb_lowat sb), st).

(** The error, and the send and receive buffers. *)
Definition soreserve (sb_max : Z) (snd rcv : sockbuf) (sndcc rcvcc : Z) (st : mstate) : outcome (Z * sockbuf * sockbuf * mstate) :=
  let '(ok, snd) := sbreserve sb_max snd sndcc in
  if negb ok then Ret (ENOBUFS, snd, rcv, st)
  else
    let '(ok, rcv) := sbreserve sb_max rcv rcvcc in
    if negb ok then '(snd, st) ← sbrelease snd st; Ret (ENOBUFS, snd, rcv, st)
    else
      let rcv := if sb_lowat rcv =? 0 then set_limits rcv (sb_hiwat rcv) (sb_mbmax rcv) 1 else rcv in
      let snd := if sb_lowat snd =? 0 then set_limits snd (sb_hiwat snd) (sb_mbmax snd) MCLBYTES else snd in
      let snd := if u32 (sb_lowat snd) >? sb_hiwat snd then set_limits snd (sb_hiwat snd) (sb_mbmax snd) (s32 (sb_hiwat snd)) else snd in
      Ret (0, snd, rcv, st).

(** ** What a socket buffer holds *)

Definition mbufs (sb : sockbuf) : chain := concat (sb_mb sb).
Definition chain_mb (m : chain) : Z := foldr (fun b n => mbsize b + n) 0 m.
(** The data of the records, in order. *)
Definition records (st : mstate) (sb : sockbuf) : list (list Z) := cdata st <$> sb_mb sb.

(** The counts are those of the mbufs held, as unsigned longs. *)
Record sb_ok (st : mstate) (sb : sockbuf) : Prop := SbOk {
  sk_recs : Forall (fun r => r <> []) (sb_mb sb);
  sk_wf : Forall (wf st) (mbufs sb);
  sk_cc : sb_cc sb = u32 (chain_len (mbufs sb));
  sk_mb : sb_mbcnt sb = u32 (chain_mb (mbufs sb))
}.

Lemma u32_add_l a b : u32 (u32 a + b) = u32 (a + b).
Proof. unfold u32. by rewrite Z.add_mod_idemp_l. Qed.
Lemma u32_sub_l a b : u32 (u32 a - b) = u32 (a - b).
Proof. rewrite <- !Z.add_opp_r. apply u32_add_l. Qed.

Lemma chain_len_app a b : chain_len (a ++ b) = chain_len a + chain_len b.
Proof. induction a as [|m a IH]; cbn; [done|]. unfold chain_len in *. lia. Qed.
Lemma chain_mb_app a b : chain_mb (a ++ b) = chain_mb a + chain_mb b.
Proof. induction a as [|m a IH]; cbn; [done|]. unfold chain_mb in *. lia. Qed.
Lemma concat_snoc {A} (l : list (list A)) x : concat (l ++ [x]) = concat l ++ x.
Proof. rewrite concat_app. cbn. by rewrite app_nil_r. Qed.

(** Only the counts differ, by so much. *)
Definition counted (sb sb' : sockbuf) (cc mb : Z) : Prop :=
  sb' = set_counts sb (u32 (sb_cc sb + cc)) (u32 (sb_mbcnt sb + mb)).
Definition in_range (sb : sockbuf) : Prop := 0 <= sb_cc sb < 2 ^ 32 /\ 0 <= sb_mbcnt sb < 2 ^ 32.

Lemma counted_0 sb : in_range sb -> counted sb sb 0 0.
Proof. intros [H1 H2]. unfold counted. rewrite !Z.add_0_r, !u32_small by lia. by destruct sb. Qed.
Lemma counted_trans a b c x y x' y' : counted a b x y -> counted b c x' y' -> counted a c (x + x') (y + y').
Proof. intros -> ->. unfold counted. cbn. by rewrite !u32_add_l, !Z.add_assoc. Qed.
Lemma counted_alloc sb m : counted sb (sballoc sb m) (m_len m) (mbsize m).
Proof. done. Qed.
Lemma counted_free sb m : counted sb (sbfree sb m) (- m_len m) (- mbsize m).
Proof. unfold counted, sbfree. by rewrite !Z.add_opp_r. Qed.
Lemma counted_eq sb sb' x y x' y' : counted sb sb' x y -> x = x' -> y = y' -> counted sb sb' x' y'.
Proof. by intros ? <- <-. Qed.
Lemma counted_range sb sb' x y : counted sb sb' x y -> in_range sb'.
Proof. intros ->. split; cbn; apply u32_range. Qed.
Lemma ok_range st sb : sb_ok st sb -> in_range sb.
Proof. intros [_ _ H1 H2]. unfold in_range. rewrite H1, H2. split; apply u32_range. Qed.

(** A new state of the buffer with the same mbufs but for [old], which is [new]. *)
Lemma ok_counted st st' sb sb' l x y : sb_ok st sb -> counted sb sb' x y -> Forall (fun r => r <> []) l -> Forall (wf st') (concat l) ->
  chain_len (concat l) = chain_len (mbufs sb) + x -> chain_mb (concat l) = chain_mb (mbufs sb) + y -> sb_ok st' (set_mb sb' l).
Proof.
  intros [_ _ H1 H2] -> Hl Hw E1 E2. constructor; [done|done|..]; unfold mbufs; cbn [set_mb set_counts sb_mb sb_cc sb_mbcnt].
  - rewrite H1, u32_add_l. f_equal. exact (eq_sym E1).
  - rewrite H2, u32_add_l. f_equal. exact (eq_sym E2).
Qed.

(** *** Flags that the data do not depend on *)

Definition light (f : Z) : Prop := has f M_EXT = false /\ has f M_PKTHDR = false.

Lemma light_0 : light 0.
Proof. done. Qed.
Lemma light_eor e f : light e -> light (Z.lor e (Z.land f M_EOR)).
Proof. intros [H1 H2]. split; by rewrite has_lor, ?H1, ?H2, has_land, has_0. Qed.

Lemma flags_or m e : light e -> is_ext (set_flags m (Z.lor (m_flags m) e)) = is_ext m /\ is_pkt (set_flags m (Z.lor (m_flags m) e)) = is_pkt m.
Proof. intros [H1 H2]. unfold is_ext, is_pkt. cbn. by rewrite !has_lor, H1, H2, !orb_false_r. Qed.
Lemma flags_clear m : is_ext (set_flags m (Z.land (m_flags m) (Z.lnot M_EOR))) = is_ext m /\ is_pkt (set_flags m (Z.land (m_flags m) (Z.lnot M_EOR))) = is_pkt m.
Proof. unfold is_ext, is_pkt. cbn. by rewrite !has_land. Qed.

(** [m'] is [m] with other flags. *)
Definition reflag (m m' : mbuf) : Prop :=
  exists f, m' = set_flags m f /\ is_ext m' = is_ext m /\ is_pkt m' = is_pkt m.

Lemma reflag_or m e : light e -> reflag m (set_flags m (Z.lor (m_flags m) e)).
Proof. intros H. eexists. split; [done|]. by apply flags_or. Qed.
Lemma reflag_clear m : reflag m (set_flags m (Z.land (m_flags m) (Z.lnot M_EOR))).
Proof. eexists. split; [done|]. apply flags_clear. Qed.
Lemma reflag_ok st m m' : reflag m m' -> data st m' = data st m /\ (wf st m -> wf st m') /\ m_len m' = m_len m /\ mbsize m' = mbsize m /\
  m_ext m' = m_ext m /\ is_ext m' = is_ext m.
Proof.
  intros (f & -> & H1 & H2). unfold data, wf, mbsize, area. rewrite H1, H2. splits; try done.
Qed.
Lemma reflag_refs m m' c r : reflag m m' -> refs c (m' :: r) = refs c (m :: r).
Proof. intros (f & -> & H & _). by apply refs_flags. Qed.

(** ** Compression keeps the data and the counts *)

Definition opt (n : option mbuf) : chain := match n with Some n => [n] | None => [] end.

Lemma compact_cond n m0 : (Z.land (m_flags n) (Z.lor M_EXT M_EOR) =? 0) && (m_off n + m_len n + m_len m0 <? MLEN) && (m_type n =? m_type m0) = true ->
  is_ext n = false /\ m_off n + m_len n + m_len m0 < MLEN.
Proof.
  intros H. apply andb_true_iff in H as [H _]. apply andb_true_iff in H as [H1 H2]. split; [|lia].
  apply Z.eqb_eq in H1. rewrite Z.land_lor_distr_r in H1. apply Z.lor_eq_0_iff in H1 as [H1 _]. unfold is_ext, has. by rewrite H1.
Qed.

Lemma sbcompress_ok : forall m n eor sb st rest, light eor -> in_range sb -> Forall (wf st) (opt n) -> Forall (wf st) m -> owned st (opt n ++ m ++ rest) ->
  exists r sb' st', sbcompress m n eor sb st = Ret (r, sb', st') /\ cdata st' r = cdata st (opt n ++ m) /\ Forall (wf st') r /\
    owned st' (r ++ rest) /\ same st st' rest /\ chain_len r = chain_len (opt n ++ m) /\
    counted sb sb' (chain_len m) (chain_mb r - chain_mb (opt n)) /\ (r = [] <-> n = None /\ chain_len m = 0).
Proof.
  induction m as [|m0 m IH]; intros n eor sb st rest He Hr Hn Hm Hown; cbn [sbcompress].
  { destruct n as [n|].
    - destruct (reflag_ok st n _ (reflag_or n eor He)) as (D & W & L & S & _). inversion Hn; subst.
      eexists _, sb, st. split; [reflexivity|]. splits; try done.
      + cbn. unfold cdata. cbn. by rewrite D.
      + constructor; [by apply W|done].
      + eapply owned_refs; [|exact Hown]. intros c. cbn [app]. apply reflag_refs, (reflag_or n eor He).
      + eapply counted_eq; [by apply counted_0|done|]. unfold chain_mb. cbn [foldr opt]. rewrite S. lia.
      + split; [done|by intros [? _]].
    - exists [], sb, st. splits; try done. by apply counted_0. }
  apply Forall_cons in Hm as [H0 Hm]. set (eor' := Z.lor eor _). assert (He' : light eor') by (by apply light_eor).
  assert (Hlen0 : 0 <= m_len m0) by apply H0.
  assert (Hmnn : 0 <= chain_len m) by (by eapply chain_len_nonneg).
  assert (Hperm : forall c, refs c (m0 :: opt n ++ m ++ rest) = refs c (opt n ++ (m0 :: m) ++ rest)).
  { intros c. cbn [refs app]. rewrite !refs_app. cbn [refs]. rewrite refs_app. lia. }
  assert (Hown' : owned st (m0 :: opt n ++ m ++ rest)) by (by eapply owned_refs; [|exact Hown]).
  destruct (Z.eqb_spec (m_len m0) 0) as [E0|E0].
  { destruct (MFREE_ok m0 st _ Hown') as (_ & F2 & _). pose proof (MFREE_same m0 st _ Hown') as Fs. set (st1 := MFREE m0 st) in *.
    apply same_app in Fs as [Fs1 Fs]. apply same_app in Fs as [Fs2 Fs3].
    destruct (IH n eor' sb st1 rest He' Hr) as (r & sb' & st' & -> & D & W & O & S & L & C & N); [by eapply wfs_same|by eapply wfs_same|exact F2|].
    exists r, sb', st'. split; [done|]. rewrite chain_len_cons, E0. splits; try done.
    - rewrite D, !cdata_app, cdata_cons, (cdata_same _ _ _ Fs1), (cdata_same _ _ _ Fs2). f_equal.
      assert (Hd : data st m0 = []) by (apply nil_length_inv; pose proof (data_length st m0 H0); lia). by rewrite Hd.
    - by eapply same_trans.
    - rewrite L, !chain_len_app, chain_len_cons, E0. lia.
  }
  assert (Hlink : exists r sb' st', ('(l, sb, st) ← sbcompress m (Some (set_flags m0 (Z.land (m_flags m0) (Z.lnot M_EOR)))) eor' (sballoc sb m0) st;
      Ret (match n with Some n => n :: l | None => l end, sb, st)) = Ret (r, sb', st') /\ cdata st' r = cdata st (opt n ++ m0 :: m) /\ Forall (wf st') r /\
    owned st' (r ++ rest) /\ same st st' rest /\ chain_len r = chain_len (opt n ++ m0 :: m) /\
    counted sb sb' (chain_len (m0 :: m)) (chain_mb r - chain_mb (opt n)) /\ (r = [] <-> n = None /\ chain_len (m0 :: m) = 0)).
  { pose proof (reflag_clear m0) as Rf. set (m1 := set_flags m0 _) in *. destruct (reflag_ok st m0 m1 Rf) as (D1 & W1 & L1 & S1 & _).
    destruct (IH (Some m1) eor' (sballoc sb m0) st (opt n ++ rest) He') as (l & sb' & st' & -> & D & W & O & S & L & C & N).
    - exact (counted_range _ _ _ _ (counted_alloc sb m0)).
    - constructor; [by apply W1|done].
    - done.
    - eapply owned_refs; [|exact Hown]. intros c. cbn [opt app]. rewrite (reflag_refs m0 m1 c _ Rf). cbn [refs app]. rewrite !refs_app. cbn [refs]. rewrite refs_app. lia.
    - bind. apply same_app in S as [Sn Sr].
      assert (Hl : l <> []) by (intros El; by destruct (proj1 N El)).
      exists (opt n ++ l), sb', st'. split; [by destruct n|]. splits.
      + rewrite !cdata_app, D, (cdata_same _ _ _ Sn). cbn [opt app]. by rewrite !cdata_cons, D1.
      + apply Forall_app. split; [by eapply wfs_same|done].
      + eapply owned_refs; [|exact O]. intros c. rewrite !refs_app. lia.
      + done.
      + rewrite !chain_len_app, L. cbn [opt app]. by rewrite !chain_len_cons, L1.
      + eapply counted_eq; [exact (counted_trans _ _ _ _ _ _ _ (counted_alloc sb m0) C)|by rewrite chain_len_cons|].
        rewrite chain_mb_app. unfold chain_mb in *. cbn [foldr opt] in *. rewrite S1. lia.
      + rewrite chain_len_cons. split; [intros El; by destruct n, l|intros [_ El]; lia]. }
  destruct n as [n|]; [|exact Hlink]. destruct (_ && _) eqn:Ec; [|exact Hlink]. clear Hlink.
  destruct (compact_cond n m0 Ec) as [Hext Hroom]. apply Forall_cons in Hn as [Hn _].
  rewrite (mread_ok st m0 0) by (auto; lia). bind. rewrite slice_all by (rewrite ?(data_length st m0 H0); lia). rewrite drop_0.
  destruct (mappend_ok st n (data st m0) Hext Hn) as (n1 & -> & Hw & Hd & Hl & Ho & Hf & _ & Hx & _); [rewrite (data_length st m0 H0); lia|]. bind.
  rewrite (data_length st m0 H0) in *. cbv zeta in Hw, Hd. rewrite Hl. set (n2 := set_len n1 (m_len n + m_len m0)) in *.
  assert (He2 : is_ext n2 = false) by (unfold is_ext in *; cbn; by rewrite Hf).
  destruct (MFREE_ok m0 st _ Hown') as (_ & F2 & _). pose proof (MFREE_same m0 st _ Hown') as Fs. set (st1 := MFREE m0 st) in *.
  apply same_app in Fs as [_ Fs]. apply same_app in Fs as [Fs2 Fs3].
  destruct (IH (Some n2) eor' (set_counts sb (u32 (sb_cc sb + m_len m0)) (sb_mbcnt sb)) st1 rest He') as (r & sb' & st' & -> & D & W & O & S & L & C & N).
  - split; [apply u32_range|apply Hr].
  - constructor; [|done]. apply (wf_same st); [by rewrite He2|done].
  - by eapply wfs_same.
  - cbn [opt app]. apply owned_int; [done|]. cbn [opt app] in F2. by apply owned_int in F2.
  - exists r, sb', st'. split; [done|]. cbn [opt app] in *. splits; try done.
    + rewrite D, !cdata_cons, (data_same st st1 n2) by (by rewrite He2). rewrite Hd, (cdata_same _ _ _ Fs2). by rewrite <- app_assoc.
    + by eapply same_trans.
    + rewrite L, !chain_len_cons. cbn. lia.
    + eapply counted_eq; [eapply (counted_trans sb _ sb'); [|exact C]|by rewrite chain_len_cons|].
      * instantiate (1 := 0). unfold counted. f_equal. rewrite Z.add_0_r, u32_small; [done|apply Hr].
      * unfold chain_mb. cbn [foldr]. unfold mbsize. by rewrite He2, Hext.
    + split; [intros E; by destruct (proj1 N E)|by intros [? _]].
Qed.

(** ** Appending *)

(** The buffer after an operation that has used up some mbufs and left [rest] to
    others. *)
Record kept (st : mstate) (sb : sockbuf) (rest : chain) (st' : mstate) (sb' : sockbuf) : Prop := Kept {
  kp_ok : sb_ok st' sb';
  kp_owned : owned st' (mbufs sb' ++ rest);
  kp_same : same st st' rest;
  kp_limits : (sb_hiwat sb', sb_mbmax sb', sb_lowat sb', sb_flags sb') = (sb_hiwat sb, sb_mbmax sb, sb_lowat sb, sb_flags sb)
}.

Lemma kept_none st sb rest : sb_ok st sb -> owned st (mbufs sb ++ rest) -> kept st sb rest st sb.
Proof. by constructor. Qed.
Lemma limits_counted sb sb' x y l : counted sb sb' x y ->
  (sb_hiwat (set_mb sb' l), sb_mbmax (set_mb sb' l), sb_lowat (set_mb sb' l), sb_flags (set_mb sb' l)) = (sb_hiwat sb, sb_mbmax sb, sb_lowat sb, sb_flags sb).
Proof. by intros ->. Qed.

Lemma same_records st st' (l : list chain) : same st st' (concat l) -> cdata st' <$> l = cdata st <$> l.
Proof.
  induction l as [|r l IH]; intros H; [done|]. cbn in *. apply same_app in H as [H1 H2]. f_equal; [by apply cdata_same|by apply IH].
Qed.

(** A record put between two others. *)
Lemma put_record st sb rest a b rec m st' sb' x : sb_ok st sb -> sb_mb sb = a ++ b -> rec <> [] -> cdata st' rec = cdata st m -> Forall (wf st') rec ->
  owned st' (rec ++ mbufs sb ++ rest) -> same st st' (mbufs sb ++ rest) -> chain_len rec = x -> counted sb sb' x (chain_mb rec) ->
  kept st sb rest st' (set_mb sb' (a ++ rec :: b)) /\ records st' (set_mb sb' (a ++ rec :: b)) = (cdata st <$> a) ++ cdata st m :: (cdata st <$> b).
Proof.
  intros HS E Hne D W O S L C. pose proof HS as [K1 K2 _ _]. apply same_app in S as [S1 S2].
  assert (Em : mbufs sb = concat a ++ concat b) by (unfold mbufs; by rewrite E, concat_app).
  assert (Ec : concat (a ++ rec :: b) = concat a ++ rec ++ concat b) by (by rewrite concat_app).
  rewrite E in K1. apply Forall_app in K1 as [K1 K1']. assert (W2 : Forall (wf st') (mbufs sb)) by (by eapply wfs_same).
  rewrite Em in W2, S1. apply Forall_app in W2 as [W2 W3]. apply same_app in S1 as [S1 S3]. split.
  - constructor; [| |done|by eapply limits_counted].
    + eapply (ok_counted st); [exact HS|exact C|..].
      * apply Forall_app. split; [done|by constructor].
      * rewrite Ec. apply Forall_app. split; [done|]. by apply Forall_app.
      * rewrite Ec, Em, !chain_len_app. lia.
      * rewrite Ec, Em, !chain_mb_app. lia.
    + eapply owned_perm; [|exact O]. unfold mbufs at 2. cbn [set_mb sb_mb]. rewrite Ec, Em, <- !app_assoc. by rewrite (Permutation_app_swap_app rec).
  - unfold records. cbn [set_mb sb_mb]. rewrite fmap_app. cbn [fmap list_fmap]. by rewrite D, (same_records st st' a S1), (same_records st st' b S3).
Qed.

Lemma new_record_ok m r sb st rest : in_range sb -> Forall (wf st) (m :: r) -> owned st (m :: r ++ rest) ->
  exists rec sb' st', new_record sb m r st = Ret (rec, sb', st') /\ cdata st' rec = cdata st (m :: r) /\ Forall (wf st') rec /\
    owned st' (rec ++ rest) /\ same st st' rest /\ chain_len rec = chain_len (m :: r) /\ counted sb sb' (chain_len (m :: r)) (chain_mb rec) /\ rec <> [].
Proof.
  intros Hr Hw Ho. apply Forall_cons in Hw as [Hm Hw]. unfold new_record.
  assert (Hgo : forall m1 r1, reflag m m1 \/ m1 = m -> Forall (wf st) r1 -> cdata st r1 = cdata st r -> chain_len r1 = chain_len r -> (forall c, refs c r1 = refs c r) ->
    exists rec sb' st', sbcompress r1 (Some m1) 0 (sballoc sb m) st = Ret (rec, sb', st') /\ cdata st' rec = cdata st (m :: r) /\ Forall (wf st') rec /\
    owned st' (rec ++ rest) /\ same st st' rest /\ chain_len rec = chain_len (m :: r) /\ counted sb sb' (chain_len (m :: r)) (chain_mb rec) /\ rec <> []).
  { intros m1 r1 H1 W1 D1 L1 R1.
    assert (Hm1 : data st m1 = data st m /\ wf st m1 /\ m_len m1 = m_len m /\ mbsize m1 = mbsize m /\ forall c, refs c [m1] = refs c [m]).
    { destruct H1 as [H1| ->]; [|by splits]. destruct (reflag_ok st m m1 H1) as (A1 & A2 & A3 & A4 & _). splits; try done; [by apply A2|]. intros c. by apply reflag_refs. }
    destruct Hm1 as (A1 & A2 & A3 & A4 & A5).
    destruct (sbcompress_ok r1 (Some m1) 0 (sballoc sb m) st rest light_0) as (rec & sb' & st' & -> & D & W & O & S & L & C & N).
    - exact (counted_range _ _ _ _ (counted_alloc sb m)).
    - by constructor.
    - done.
    - eapply owned_refs; [|exact Ho]. intros c. specialize (A5 c). specialize (R1 c). cbn [refs app opt] in *. rewrite !refs_app. lia.
    - exists rec, sb', st'. cbn [opt app] in *. splits; try done.
      + by rewrite D, !cdata_cons, A1, D1.
      + by rewrite L, !chain_len_cons, A3, L1.
      + eapply counted_eq; [exact (counted_trans _ _ _ _ _ _ _ (counted_alloc sb m) C)|by rewrite chain_len_cons, L1|].
        unfold chain_mb. cbn [foldr]. rewrite A4. lia.
      + intros E. by destruct (proj1 N E). }
  destruct r as [|m1 r]; [by apply Hgo; [right|..]|]. destruct (has (m_flags m) M_EOR); [|by apply Hgo; [right|..]].
  assert (Rf : reflag m1 (set_flags m1 (Z.lor (m_flags m1) M_EOR))) by (by apply reflag_or). destruct (reflag_ok st _ _ Rf) as (B1 & B2 & B3 & _).
  apply Forall_cons in Hw as [Hm1 Hw]. apply Hgo; [left; apply reflag_clear|constructor; [by apply B2|done]|by rewrite !cdata_cons, B1|by rewrite !chain_len_cons, B3|].
  intros c. by apply reflag_refs.
Qed.

Lemma sbappendrecord_ok sb m0 st rest : sb_ok st sb -> Forall (wf st) m0 -> owned st (mbufs sb ++ m0 ++ rest) ->
  exists sb' st', sbappendrecord sb m0 st = Ret (sb', st') /\ kept st sb rest st' sb' /\
    records st' sb' = records st sb ++ (match m0 with [] => [] | _ => [cdata st m0] end).
Proof.
  intros HS Hw Ho. destruct m0 as [|m r]; cbn [sbappendrecord].
  { exists sb, st. rewrite app_nil_r. split; [done|]. split; [by apply kept_none|done]. }
  destruct (new_record_ok m r sb st (mbufs sb ++ rest)) as (rec & sb' & st' & -> & D & W & O & S & L & C & N); [by apply (ok_range st)|done| |].
  { eapply owned_perm; [|exact Ho]. change (m :: r ++ mbufs sb ++ rest) with ((m :: r) ++ mbufs sb ++ rest). by rewrite (Permutation_app_swap_app (mbufs sb)). }
  bind. destruct (put_record st sb rest (sb_mb sb) [] rec (m :: r) st' sb' (chain_len (m :: r)) HS) as [H1 H2]; try done; [by rewrite app_nil_r|].
  eexists _, st'. split; [reflexivity|]. by split.
Qed.

Lemma oob_place_app l : oob_place l = (fst (oob_place l), snd (oob_place l)) /\ l = fst (oob_place l) ++ snd (oob_place l).
Proof.
  induction l as [|r l [IH1 IH2]]; [done|]. cbn. destruct (oob_train r); [|done]. rewrite IH1. cbn. split; [done|]. by rewrite IH2 at 1.
Qed.

Lemma sbinsertoob_ok sb m0 st rest : sb_ok st sb -> Forall (wf st) m0 -> owned st (mbufs sb ++ m0 ++ rest) -> m0 <> [] ->
  exists sb' st', sbinsertoob sb m0 st = Ret (sb', st') /\ kept st sb rest st' sb' /\
    records st' sb' = (cdata st <$> fst (oob_place (sb_mb sb))) ++ cdata st m0 :: (cdata st <$> snd (oob_place (sb_mb sb))).
Proof.
  intros HS Hw Ho Hne. destruct m0 as [|m r]; [done|]. cbn [sbinsertoob]. destruct (oob_place_app (sb_mb sb)) as [E1 E2]. rewrite E1. cbn [fst snd].
  destruct (new_record_ok m r sb st (mbufs sb ++ rest)) as (rec & sb' & st' & -> & D & W & O & S & L & C & N); [by apply (ok_range st)|done| |].
  { eapply owned_perm; [|exact Ho]. change (m :: r ++ mbufs sb ++ rest) with ((m :: r) ++ mbufs sb ++ rest). by rewrite (Permutation_app_swap_app (mbufs sb)). }
  bind. destruct (put_record st sb rest _ _ rec (m :: r) st' sb' (chain_len (m :: r)) HS E2) as [H1 H2]; try done.
  eexists _, st'. split; [reflexivity|]. by split.
Qed.

(** A mbuf before the last of the record marks its end. *)
Definition ended (r : chain) : bool := match last_mbuf r with Some _ => false | None => true end.

Lemma last_record_app l : match last_record l with Some (front, r) => l = front ++ [r] | None => l = [] end.
Proof.
  induction l as [|r l IH]; [done|]. destruct l as [|r' l]; [done|]. change (last_record (r :: r' :: l)) with
    (match last_record (r' :: l) with Some (front, x) => Some (r :: front, x) | None => None end).
  destruct (last_record (r' :: l)) as [[front x]|]; [|done]. by rewrite IH.
Qed.
Lemma last_mbuf_app r front n : last_mbuf r = Some (front, n) -> r = front ++ [n].
Proof.
  revert front n. induction r as [|m r IH]; intros front n H; [done|]. destruct r as [|m' r]; [by injection H as <- <-|].
  change (last_mbuf (m :: m' :: r)) with (if has (m_flags m) M_EOR then None else match last_mbuf (m' :: r) with Some (front, l) => Some (m :: front, l) | None => None end) in H.
  destruct (has _ _); [done|]. destruct (last_mbuf (m' :: r)) as [[front' n']|]; [|done]. injection H as <- <-. by rewrite (IH front' n').
Qed.

(** What sbappend makes of the records. *)
Definition appended (sb : sockbuf) (l : list (list Z)) (bs : list Z) : list (list Z) :=
  match last_record (sb_mb sb) with
  | None => match bs with [] => [] | _ => [bs] end
  | Some (recs, r) => if ended r then l ++ [bs] else take (length recs) l ++ [default [] (l !! length recs) ++ bs]
  end.

(** The last record, with what [n] has become. *)
Lemma put_last st sb rest a front n m rec st' sb' x : sb_ok st sb -> sb_mb sb = a ++ [front ++ [n]] -> cdata st' rec = cdata st (n :: m) -> Forall (wf st') rec ->
  owned st' (rec ++ concat a ++ front ++ rest) -> same st st' (concat a ++ front ++ rest) -> chain_len rec = chain_len (n :: m) -> rec <> [] ->
  x = chain_len m -> counted sb sb' x (chain_mb rec - chain_mb [n]) ->
  kept st sb rest st' (set_mb sb' (a ++ [front ++ rec])) /\
  records st' (set_mb sb' (a ++ [front ++ rec])) = (cdata st <$> a) ++ [cdata st (front ++ [n]) ++ cdata st m].
Proof.
  intros HS E D W O S L Hne Hx C. pose proof HS as [K1 K2 _ _]. apply same_app in S as [S1 S2]. apply same_app in S2 as [S2 S3].
  assert (Em : mbufs sb = concat a ++ front ++ [n]) by (unfold mbufs; by rewrite E, concat_snoc).
  assert (Ec : concat (a ++ [front ++ rec]) = concat a ++ front ++ rec) by (by rewrite concat_snoc).
  rewrite E in K1. apply Forall_app in K1 as [K1 _]. rewrite Em in K2. apply Forall_app in K2 as [K2 K3]. apply Forall_app in K3 as [K3 _]. split.
  - constructor; [| |done|by eapply limits_counted].
    + eapply (ok_counted st); [exact HS|exact C|..].
      * apply Forall_app. split; [done|]. constructor; [|done]. by destruct front, rec.
      * rewrite Ec. apply Forall_app. split; [by eapply wfs_same|]. apply Forall_app. split; [by eapply wfs_same|done].
      * rewrite Ec, Em, !chain_len_app, L, chain_len_cons. cbn. lia.
      * rewrite Ec, Em, !chain_mb_app. lia.
    + eapply owned_perm; [|exact O]. unfold mbufs. cbn [set_mb sb_mb]. rewrite Ec, <- !app_assoc. by rewrite (Permutation_app_swap_app rec), (Permutation_app_swap_app rec front).
  - unfold records. cbn [set_mb sb_mb]. rewrite fmap_app. cbn [fmap list_fmap]. rewrite !cdata_app, D, (same_records st st' a S1), (cdata_same st st' front S2).
    rewrite cdata_cons. unfold cdata at 6. cbn. by rewrite app_nil_r, <- app_assoc.
Qed.

Lemma sbappend_ok sb m st rest : sb_ok st sb -> Forall (wf st) m -> owned st (mbufs sb ++ m ++ rest) -> m <> [] ->
  exists sb' st', sbappend sb m st = Ret (sb', st') /\ kept st sb rest st' sb' /\ records st' sb' = appended sb (records st sb) (cdata st m).
Proof.
  intros HS Hw Ho Hne. unfold appended. assert (Hgo : sbappend sb m st = match last_record (sb_mb sb) with
      | None => '(rec, sb', st) ← sbcompress m None 0 sb st; Ret (set_mb sb' (match rec with [] => [] | _ => [rec] end), st)
      | Some (recs, r) =>
          match last_mbuf r with
          | None => sbappendrecord sb m st
          | Some (front, n) => '(rec, sb', st) ← sbcompress m (Some n) 0 sb st; Ret (set_mb sb' (recs ++ [front ++ rec]), st)
          end
      end) by (by destruct m). rewrite Hgo. clear Hgo.
  pose proof (last_record_app (sb_mb sb)) as El. destruct (last_record (sb_mb sb)) as [[recs r]|].
  - unfold ended. destruct (last_mbuf r) as [[front n]|] eqn:En.
    + apply last_mbuf_app in En as ->.
      assert (Em : mbufs sb = concat recs ++ front ++ [n]) by (unfold mbufs; rewrite El; apply concat_snoc).
      destruct (sbcompress_ok m (Some n) 0 sb st (concat recs ++ front ++ rest) light_0) as (rec & sb' & st' & -> & D & W & O & S & L & C & N).
      * by apply (ok_range st).
      * pose proof (sk_wf _ _ HS) as K. rewrite Em in K. apply Forall_app in K as [_ K]. by apply Forall_app in K as [_ K].
      * done.
      * eapply owned_refs; [|exact Ho]. intros c. rewrite Em, !refs_app. cbn [refs opt]. lia.
      * bind. destruct (put_last st sb rest recs front n m rec st' sb' (chain_len m) HS El D W O S L) as [H1 H2]; [|done|exact C|].
        { intros E. by destruct (proj1 N E). }
        eexists _, st'. split; [reflexivity|]. split; [exact H1|]. etrans; [exact H2|]. unfold records. rewrite El, fmap_app. cbn [fmap list_fmap].
        rewrite <- (length_fmap (cdata st) recs), take_app_length, lookup_app_r, Nat.sub_diag by lia. done.
    + destruct (sbappendrecord_ok sb m st rest HS Hw Ho) as (sb' & st' & E & K & R). exists sb', st'. split; [done|]. split; [done|]. rewrite R. by destruct m.
  - assert (Em : mbufs sb = []) by (unfold mbufs; by rewrite El). rewrite Em in Ho.
    destruct (sbcompress_ok m None 0 sb st rest light_0) as (rec & sb' & st' & -> & D & W & O & S & L & C & N); [by apply (ok_range st)|done|done|done|]. bind.
    cbn [opt app] in *. rewrite Z.sub_0_r in C. eexists _, st'. split; [reflexivity|].
    assert (Hnil : cdata st m = [] <-> chain_len m = 0).
    { pose proof (cdata_length st m Hw). split; intros E; [rewrite E in H; cbn in H; lia|apply nil_length_inv; lia]. }
    destruct rec as [|m1 rec].
    + destruct (proj1 N eq_refl) as [_ E0]. rewrite (proj2 Hnil E0). split; [|done].
      constructor; [| |done|by eapply limits_counted].
      * eapply (ok_counted st); [exact HS|exact C|done|constructor|..]; rewrite Em; cbn; lia.
      * done.
    + destruct (put_record st sb rest [] [] (m1 :: rec) m st' sb' (chain_len m) HS El) as [H1 H2]; try done.
      * by rewrite Em.
      * by rewrite Em.
      * split; [exact H1|]. etrans; [exact H2|]. cbn. destruct (cdata st m) eqn:Ed; [|done]. assert (Hx : m1 :: rec = []) by (apply N; split; [done|by apply Hnil]). done.
Qed.

(** ** Addresses and control data *)

Lemma foldl_alloc rec : forall sb, in_range sb -> counted sb (foldl sballoc sb rec) (chain_len rec) (chain_mb rec).
Proof.
  induction rec as [|m rec IH]; intros sb Hr; [by apply counted_0|]. cbn [foldl].
  eapply counted_eq; [exact (counted_trans _ _ _ _ _ _ _ (counted_alloc sb m) (IH _ (counted_range _ _ _ _ (counted_alloc sb m))))|done|done].
Qed.

Lemma bwrite_at_0 l bs : Z.of_nat (length bs) <= Z.of_nat (length l) -> exists d, bwrite l 0 bs = Ret d /\ length d = length l /\ slice 0 (Z.of_nat (length bs)) d = bs.
Proof. intros H. destruct (bwrite_ok l 0 bs) as (d & E & L & S & _); [lia|lia|]. by exists d. Qed.

(** The record as it is put: nothing is compressed. *)
Lemma append_whole sb rec st rest : sb_ok st sb -> rec <> [] -> Forall (wf st) rec -> owned st (mbufs sb ++ rec ++ rest) ->
  let sb' := set_mb (foldl sballoc sb rec) (sb_mb sb ++ [rec]) in kept st sb rest st sb' /\ records st sb' = records st sb ++ [cdata st rec].
Proof.
  intros HS Hne Hw Ho. apply (put_record st sb rest (sb_mb sb) [] rec rec st _ (chain_len rec) HS); try done.
  - by rewrite app_nil_r.
  - eapply owned_refs; [|exact Ho]. intros c. rewrite !refs_app. lia.
  - apply foldl_alloc. by apply (ok_range st).
Qed.

Lemma sbappendcontrol_ok sb m0 control st rest : sb_ok st sb -> Forall (wf st) control -> Forall (wf st) m0 ->
  owned st (mbufs sb ++ control ++ m0 ++ rest) -> control <> [] ->
  exists ok sb', sbappendcontrol sb m0 control st = Ret (ok, sb', st) /\ ok = negb (s32 (chain_len control + chain_len m0) >? sbspace sb) /\
    if ok then kept st sb rest st sb' /\ records st sb' = records st sb ++ [cdata st control ++ cdata st m0] else sb' = sb.
Proof.
  intros HS Hc Hm Ho Hne. assert (E : sbappendcontrol sb m0 control st = if s32 (chain_len control + chain_len m0) >? sbspace sb then Ret (false, sb, st)
    else Ret (true, set_mb (foldl sballoc sb (control ++ m0)) (sb_mb sb ++ [control ++ m0]), st)) by (by destruct control).
  rewrite E. destruct (_ >? _); [by exists false, sb|]. eexists true, _. split; [reflexivity|]. split; [done|]. rewrite <- cdata_app.
  apply append_whole; [done|by destruct control|by apply Forall_app|by rewrite <- app_assoc].
Qed.

(** With [MGET] answering, the address goes in front. *)
Lemma sbappendaddr_ok sb asa m0 control st rest : sb_ok st sb -> Forall (wf st) control -> Forall (wf st) m0 ->
  owned st (mbufs sb ++ control ++ m0 ++ rest) -> (forall m r, m0 = m :: r -> is_pkt m = true) ->
  let space := Z.of_nat (length asa) + match m0 with m :: _ => pkt_len m | [] => 0 end + chain_len control in
  exists ok sb' st', sbappendaddr sb asa m0 control st = Ret (ok, sb', st') /\
    (ok = true -> s32 space <= sbspace sb /\ Z.of_nat (length asa) <= MLEN) /\
    (mallocs st = [] -> s32 space <= sbspace sb -> Z.of_nat (length asa) <= MLEN -> ok = true) /\
    if ok then kept st sb rest st' sb' /\ records st' sb' = records st sb ++ [asa ++ cdata st control ++ cdata st m0]
    else sb' = sb /\ pool st' = pool st.
Proof.
  intros HS Hc Hm Ho Hp. cbv zeta. unfold sbappendaddr.
  assert (Eb : match m0 with m :: _ => negb (is_pkt m) | [] => false end = false) by (destruct m0 as [|m r]; [done|by rewrite (Hp m r)]).
  rewrite Eb. set (space := _ + _ + _). destruct (Z.gtb_spec (s32 space) (sbspace sb)); [eexists false, sb, st; splits; try done; lia|].
  destruct (Z.gtb_spec (Z.of_nat (length asa)) MLEN); [eexists false, sb, st; splits; try done; lia|].
  destruct (MGET MT_SONAME st) as [[m|] st1] eqn:Eg; destruct (mget_ok _ _ _ _ Eg) as (P1 & F1 & A1).
  2:{ eexists false, sb, st1. splits; try done. intros Hx. by destruct (A1 Hx). }
  pose proof F1 as (G1 & G2 & G3 & G4). rewrite G1. destruct (bwrite_at_0 (m_dat m) asa) as (d & -> & Ld & Sd); [lia|]. bind.
  set (m1 := set_len (set_dat m d) (Z.of_nat (length asa))).
  assert (Hs : forall c, same st st1 c) by (intros c; apply same_pool; by rewrite P1).
  assert (Hext : is_ext m1 = false) by (unfold m1, is_ext; cbn; by rewrite G3).
  assert (W1 : wf st1 m1 /\ data st1 m1 = asa).
  { unfold data, wf, area, is_pkt. rewrite Hext. unfold m1. cbn. rewrite G1, G3. splits; try done; try lia. }
  destruct W1 as [W1 D1]. assert (HS1 : sb_ok st1 sb) by (destruct HS as [K1 K2 K3 K4]; constructor; try done; by apply (wfs_same st)).
  assert (R1 : records st1 sb = records st sb) by (apply same_records, Hs).
  assert (Hown : owned st1 (mbufs sb ++ (m1 :: control ++ m0) ++ rest)).
  { assert (Hrc : forall c, refcnt st1 c = refcnt st c) by (intros c; unfold refcnt; by rewrite P1). intros c. rewrite Hrc. specialize (Ho c).
    cbn [app]. rewrite !refs_app in *. rewrite refs_int by done. rewrite !refs_app in *. lia. }
  destruct (append_whole sb (m1 :: control ++ m0) st1 rest HS1) as [[K1 K2 K3 K4] K5]; [done| |exact Hown|].
  { constructor; [done|]. apply Forall_app. split; by apply (wfs_same st). }
  eexists true, _, st1. split; [reflexivity|]. split; [intros _; lia|]. split; [done|]. split.
  - constructor; [exact K1|exact K2|apply Hs|exact K4].
  - rewrite K5, R1, cdata_cons, D1, cdata_app, !(cdata_same st st1) by apply Hs. done.
Qed.

(** ** Dropping *)

(** An external buffer has a size. *)
Definition sized (m : mbuf) : Prop := is_ext m = true -> 0 <= ext_size m.
Lemma sized_ge m : sized m -> MSIZE <= mbsize m.
Proof. unfold sized, mbsize. destruct (is_ext m); [|lia]. intros H. specialize (H eq_refl). lia. Qed.
Definition no_larger (m r : chain) : Prop := Forall sized m -> Forall sized r /\ chain_mb r <= chain_mb m.

(** A chain cut from the front: the mbufs [m] have become [r]. *)
Record cut (st : mstate) (sb : sockbuf) (m : chain) (rest : chain) (r : chain) (st' : mstate) (sb' : sockbuf) : Prop := Cut {
  ct_wf : Forall (wf st') r;
  ct_owned : owned st' (r ++ rest);
  ct_same : same st st' rest;
  ct_counts : counted sb sb' (chain_len r - chain_len m) (chain_mb r - chain_mb m);
  ct_mb : sb_mb sb' = sb_mb sb;
  ct_sized : no_larger m r
}.

Lemma cut_none st sb m rest : in_range sb -> Forall (wf st) m -> owned st (m ++ rest) -> cut st sb m rest m st sb.
Proof. intros Hr Hw Ho. constructor; try done. eapply counted_eq; [by apply counted_0|lia..]. Qed.

Lemma cut_trans st sb m rest r st1 sb1 r2 st2 sb2 : cut st sb m rest r st1 sb1 -> cut st1 sb1 r rest r2 st2 sb2 -> cut st sb m rest r2 st2 sb2.
Proof.
  intros [A1 A2 A3 A4 A5 A6] [B1 B2 B3 B4 B5 B6]. constructor; try done.
  - by eapply same_trans.
  - eapply counted_eq; [exact (counted_trans _ _ _ _ _ _ _ A4 B4)|lia..].
  - congruence.
  - intros H. destruct (A6 H) as [H1 ?]. destruct (B6 H1). split; [done|lia].
Qed.

(** Its first mbuf freed. *)
Lemma cut_first st sb m0 m rest : in_range sb -> Forall (wf st) (m0 :: m) -> owned st (m0 :: m ++ rest) ->
  cut st sb (m0 :: m) rest m (MFREE m0 st) (sbfree sb m0) /\ same st (MFREE m0 st) m.
Proof.
  intros Hr Hw Ho. apply Forall_cons in Hw as [_ Hw]. destruct (MFREE_ok m0 st _ Ho) as (_ & F2 & _). pose proof (MFREE_same m0 st _ Ho) as Fs.
  apply same_app in Fs as [Fs1 Fs2]. split; [|done]. constructor; [by eapply wfs_same|done|done| |done|].
  - eapply counted_eq; [apply counted_free|rewrite chain_len_cons; lia|unfold chain_mb; cbn [foldr]; lia].
  - intros H. apply Forall_cons in H as [H1 H2]. split; [done|]. apply sized_ge in H1. unfold MSIZE in H1. unfold chain_mb. cbn [foldr]. lia.
Qed.

Lemma data_nil st m : wf st m -> m_len m = 0 -> data st m = [].
Proof. intros Hw E. apply nil_length_inv. pose proof (data_length st m Hw). lia. Qed.

(** One record: cut by [len], or used up with some of [len] left. *)
Lemma drop_chain_ok : forall m len sb st rest, 0 <= len -> in_range sb -> Forall (wf st) m -> owned st (m ++ rest) ->
  exists r len' sb' st', drop_chain m len sb st = (r, len', sb', st') /\ cut st sb m rest r st' sb' /\
    if len <=? chain_len m then len' = 0 /\ cdata st' r = drop (Z.to_nat len) (cdata st m) else len' = len - chain_len m /\ r = [].
Proof.
  induction m as [|m0 m IH]; intros len sb st rest Hlen Hr Hw Ho; cbn [drop_chain].
  { exists [], len, sb, st. split; [done|]. split; [by apply cut_none|]. cbn. destruct (Z.leb_spec len 0); (split; [lia|]); [by rewrite drop_nil|done]. }
  pose proof Hw as Hw0. apply Forall_cons in Hw as [H0 Hw]. assert (Hl0 : 0 <= m_len m0) by apply H0. assert (Hmn : 0 <= chain_len m) by (by eapply chain_len_nonneg).
  rewrite chain_len_cons. destruct (Z.gtb_spec len 0) as [Hp|Hp].
  2:{ exists (m0 :: m), len, sb, st. split; [done|]. split; [by apply cut_none|]. assert (len = 0) as -> by lia. destruct (Z.leb_spec 0 (m_len m0 + chain_len m)); [done|lia]. }
  destruct (Z.gtb_spec (m_len m0) len) as [Hgt|Hle].
  - set (m1 := set_data m0 _ _). destruct (trim_ok st m0 len (m_len m0 - len) H0) as [W1 D1]; [lia|lia|lia|]. fold m1 in W1, D1.
    eexists (m1 :: m), 0, _, st. split; [reflexivity|]. assert (Em : mbsize m1 = mbsize m0) by done. split.
    + constructor; [by constructor|done|done| |done|intros H; apply Forall_cons in H as [G1 G2]; split; [by constructor|unfold chain_mb; cbn [foldr]; by rewrite Em]].
      unfold counted. f_equal.
      * f_equal. rewrite !chain_len_cons. cbn [m1 set_data m_len]. lia.
      * unfold chain_mb. cbn [foldr]. rewrite Em. destruct Hr as [_ Hr]. rewrite u32_small; lia.
    + destruct (Z.leb_spec len (m_len m0 + chain_len m)); [|lia]. split; [done|]. rewrite !cdata_cons, D1.
      pose proof (data_length st m0 H0) as Hd. rewrite (drop_app_le (data st m0)) by lia. f_equal. unfold slice. apply take_ge. rewrite length_drop. lia.
  - destruct (cut_first st sb m0 m rest Hr Hw0 Ho) as [C1 Fs]. set (st1 := MFREE m0 st) in *. set (sb1 := sbfree sb m0) in *.
    destruct (IH (len - m_len m0) sb1 st1 rest) as (r & len' & sb' & st' & -> & C & H); [lia|exact (counted_range _ _ _ _ (ct_counts _ _ _ _ _ _ _ C1))|apply C1|apply C1|].
    exists r, len', sb', st'. split; [done|]. split; [by eapply cut_trans|]. pose proof (data_length st m0 H0) as Hd.
    destruct (Z.leb_spec (len - m_len m0) (chain_len m)), (Z.leb_spec len (m_len m0 + chain_len m)); try lia; destruct H as [-> H]; (split; [lia|]); [|done].
    rewrite H, cdata_cons, (cdata_same _ _ _ Fs), drop_app_ge by lia. f_equal. lia.
Qed.

Lemma drop_empty_ok : forall m sb st rest, in_range sb -> Forall (wf st) m -> owned st (m ++ rest) ->
  exists r sb' st', drop_empty m sb st = (r, sb', st') /\ cut st sb m rest r st' sb' /\ cdata st' r = cdata st m /\ (r = [] <-> cdata st m = []).
Proof.
  induction m as [|m0 m IH]; intros sb st rest Hr Hw Ho; cbn [drop_empty].
  { exists [], sb, st. split; [done|]. split; [by apply cut_none|done]. }
  pose proof Hw as Hw0. apply Forall_cons in Hw as [H0 Hw]. destruct (Z.eqb_spec (m_len m0) 0) as [E|E].
  - destruct (cut_first st sb m0 m rest Hr Hw0 Ho) as [C1 Fs].
    destruct (IH (sbfree sb m0) (MFREE m0 st) rest) as (r & sb' & st' & -> & C & D & N); [exact (counted_range _ _ _ _ (ct_counts _ _ _ _ _ _ _ C1))|apply C1|apply C1|].
    exists r, sb', st'. split; [done|]. split; [by eapply cut_trans|]. rewrite cdata_cons, (data_nil st m0 H0 E). cbn. by rewrite <- (cdata_same _ _ _ Fs).
  - exists (m0 :: m), sb, st. split; [done|]. split; [by apply cut_none|]. split; [done|]. split; [done|]. intros Hx. rewrite cdata_cons in Hx.
    apply app_eq_nil in Hx as [Hx _]. pose proof (data_length st m0 H0) as Hd. rewrite Hx in Hd. cbn in Hd. lia.
Qed.

(** What is left of the records is the rest of one and those after it. *)
Definition front (d : list Z) (l : list (list Z)) : list (list Z) := match d with [] => l | _ => d :: l end.

(** The records after [len] bytes are dropped. *)
Fixpoint dropped (len : Z) (l : list (list Z)) : list (list Z) :=
  match l with
  | [] => []
  | r :: l =>
      if len <=? Z.of_nat (length r) then front (drop (Z.to_nat len) r) l
      else dropped (len - Z.of_nat (length r)) l
  end.

(** The rest of the chain along. *)
Lemma cut_app st sb m c rest r st' sb' : Forall (wf st) c -> cut st sb m (c ++ rest) r st' sb' -> cut st sb (m ++ c) rest (r ++ c) st' sb' /\ same st st' c.
Proof.
  intros Hw [A1 A2 A3 A4 A5 A6]. apply same_app in A3 as [A3 A3']. split; [|done]. constructor; try done.
  - apply Forall_app. split; [done|by eapply wfs_same].
  - by rewrite <- app_assoc.
  - eapply counted_eq; [exact A4|rewrite !chain_len_app; lia|rewrite !chain_mb_app; lia].
  - intros H. apply Forall_app in H as [H1 H2]. destruct (A6 H1). rewrite !chain_mb_app. split; [by apply Forall_app|lia].
Qed.

Lemma drop_records_ok : forall next m len sb st rest, 0 <= len -> in_range sb -> Forall (wf st) (m ++ concat next) -> owned st ((m ++ concat next) ++ rest) ->
  if len <=? chain_len (m ++ concat next) then
    exists r next' sb' st', drop_records next m len sb st = Ret (r, next', sb', st') /\ cut st sb (m ++ concat next) rest (r ++ concat next') st' sb' /\
      next' `suffix_of` next /\ dropped len (cdata st m :: (cdata st <$> next)) = front (cdata st' r) (cdata st' <$> next')
  else drop_records next m len sb st = Panic "sbdrop".
Proof.
  induction next as [|r2 next IH]; intros m len sb st rest Hlen Hr Hw Ho; pose proof Hw as Hw0; apply Forall_app in Hw as [H0 Hw];
    pose proof (cdata_length st m H0) as Hd; rewrite <- app_assoc in Ho;
    (destruct (drop_chain_ok m len sb st _ Hlen Hr H0 Ho) as (r & len' & sb1 & st1 & E & C & H)); apply cut_app in C as [C S]; try done;
    rewrite chain_len_app; pose proof (chain_len_nonneg st _ Hw) as Hn.
  - cbn [drop_records]. rewrite E. cbn [concat fmap list_fmap dropped] in *. change (chain_len []) with 0. rewrite Z.add_0_r, Hd.
    destruct (len <=? chain_len m) eqn:El; destruct H as [-> H]; [|destruct (Z.gtb_spec (len - chain_len m) 0); [done|lia]].
    eexists r, [], sb1, st1. splits; try done. by rewrite H.
  - cbn [drop_records]. rewrite E. cbn [fmap list_fmap]. change (dropped len (cdata st m :: cdata st r2 :: (cdata st <$> next))) with
      (if len <=? Z.of_nat (length (cdata st m)) then front (drop (Z.to_nat len) (cdata st m)) (cdata st r2 :: (cdata st <$> next))
       else dropped (len - Z.of_nat (length (cdata st m))) (cdata st r2 :: (cdata st <$> next))). rewrite Hd.
    destruct (Z.leb_spec len (chain_len m)) as [Hle|Hgt]; destruct H as [-> H].
    + destruct (Z.leb_spec len (chain_len m + chain_len (concat (r2 :: next)))); [|lia]. cbn [Z.gtb Z.compare].
      eexists r, (r2 :: next), sb1, st1. splits; try done. rewrite H. f_equal. symmetry. by apply (same_records st st1 (r2 :: next)).
    + subst r. destruct (Z.gtb_spec (len - chain_len m) 0); [|lia]. pose proof (same_records st st1 (r2 :: next) S) as Sr. cbn [fmap list_fmap] in Sr. injection Sr as Sr1 Sr2.
      specialize (IH r2 (len - chain_len m) sb1 st1 rest ltac:(lia) (counted_range _ _ _ _ (ct_counts _ _ _ _ _ _ _ C)) (ct_wf _ _ _ _ _ _ _ C) (ct_owned _ _ _ _ _ _ _ C)).
      change (concat (r2 :: next)) with (r2 ++ concat next) in *.
      destruct (Z.leb_spec (len - chain_len m) (chain_len (r2 ++ concat next))), (Z.leb_spec len (chain_len m + chain_len (r2 ++ concat next))); try lia; [|done].
      destruct IH as (r & next' & sb2 & st2 & E2 & C2 & F2 & D2). exists r, next', sb2, st2. rewrite Sr1, Sr2 in D2. splits; try done.
      * by eapply cut_trans.
      * by apply suffix_cons_r.
Qed.

Lemma sbdrop_ok sb len st rest : sb_ok st sb -> owned st (mbufs sb ++ rest) -> 0 <= len ->
  if len <=? chain_len (mbufs sb) then
    exists sb' st', sbdrop sb len st = Ret (sb', st') /\ kept st sb rest st' sb' /\ records st' sb' = dropped len (records st sb) /\ no_larger (mbufs sb) (mbufs sb')
  else sbdrop sb len st = Panic "sbdrop".
Proof.
  intros HS Ho Hlen. unfold sbdrop. set (mn := match sb_mb sb with [] => _ | _ => _ end).
  assert (Emn : mn = (fst mn, snd mn)) by (by destruct mn). rewrite Emn. set (m := fst mn). set (next := snd mn).
  assert (Em : mbufs sb = m ++ concat next) by (unfold m, next, mn, mbufs; by destruct (sb_mb sb)).
  assert (Er : 0 <= len -> len <= chain_len (mbufs sb) -> dropped len (records st sb) = dropped len (cdata st m :: (cdata st <$> next))).
  { unfold m, next, mn, records, mbufs. destruct (sb_mb sb); [|done]. intros H1 H2. cbn in H2. assert (len = 0) as -> by lia. done. }
  assert (Hne : Forall (fun r => r <> []) next).
  { pose proof (sk_recs _ _ HS) as K. unfold next, mn. destruct (sb_mb sb); [done|]. by apply Forall_cons in K as [_ K]. }
  pose proof (sk_wf _ _ HS) as Hw. rewrite Em in *.
  pose proof (drop_records_ok next m len sb st rest Hlen (ok_range _ _ HS) Hw Ho) as H.
  destruct (Z.leb_spec len (chain_len (m ++ concat next))) as [Hle|Hgt]; [|by rewrite H].
  destruct H as (r & next' & sb1 & st1 & -> & C & F & D). bind. pose proof (ct_wf _ _ _ _ _ _ _ C) as W1. apply Forall_app in W1 as [W1 W1'].
  pose proof (ct_owned _ _ _ _ _ _ _ C) as O1. rewrite <- app_assoc in O1.
  destruct (drop_empty_ok r sb1 st1 _ (counted_range _ _ _ _ (ct_counts _ _ _ _ _ _ _ C)) W1 O1) as (r' & sb2 & st2 & -> & C2 & D2 & N2).
  apply cut_app in C2 as [C2 S2]; [|done]. pose proof (cut_trans _ _ _ _ _ _ _ _ _ _ C C2) as C3. set (l := match r' with [] => next' | _ => r' :: next' end).
  assert (El : concat l = r' ++ concat next') by (unfold l; by destruct r').
  assert (Hne' : Forall (fun r => r <> []) next') by (destruct F as [? ->]; by apply Forall_app in Hne as [_ Hne]).
  eexists _, st2. split; [reflexivity|]. split; [constructor|split].
  - eapply (ok_counted st); [exact HS|exact (ct_counts _ _ _ _ _ _ _ C3)|unfold l; destruct r'; [done|by constructor]|rewrite El; apply C3|rewrite El, Em; lia..].
  - unfold mbufs. cbn [set_mb sb_mb]. rewrite El. apply C3.
  - apply C3.
  - by rewrite (limits_counted _ _ _ _ l (ct_counts _ _ _ _ _ _ _ C3)).
  - rewrite (Er Hlen Hle), D. unfold records, l. cbn [set_mb sb_mb]. rewrite <- D2, <- (same_records st1 st2 next' S2). unfold front.
    destruct (cdata st2 r') eqn:E; [assert (r' = []) as -> by (apply N2; congruence); done|]. destruct r'; [done|]. cbn [fmap list_fmap]. by rewrite E.
  - unfold mbufs. cbn [set_mb sb_mb]. rewrite El. apply C3.
Qed.

Lemma length_front d l : Z.of_nat (length (concat (front d l))) = Z.of_nat (length d) + Z.of_nat (length (concat l)).
Proof. destruct d; [done|]. cbn [front concat]. rewrite length_app. lia. Qed.

(** Dropping is dropping from the concatenation. *)
Lemma dropped_concat : forall l len, 0 <= len -> concat (dropped len l) = drop (Z.to_nat len) (concat l).
Proof.
  induction l as [|r l IH]; intros len H; [by cbn; rewrite drop_nil|]. cbn [dropped concat]. destruct (Z.leb_spec len (Z.of_nat (length r))) as [Hle|Hgt].
  - rewrite (drop_app_le r) by lia. by destruct (drop (Z.to_nat len) r).
  - rewrite IH by lia. rewrite (drop_app_ge r) by lia. f_equal. lia.
Qed.
(** All of them dropped, there are fewer. *)
Lemma dropped_shorter : forall l, l <> [] -> (length (dropped (Z.of_nat (length (concat l))) l) < length l)%nat.
Proof.
  induction l as [|r l IH]; intros Hne; [done|]. cbn [dropped concat]. rewrite length_app. destruct (Z.leb_spec (Z.of_nat (length r + length (concat l))) (Z.of_nat (length r))) as [Hle|Hgt].
  - rewrite drop_ge by lia. cbn. lia.
  - replace (_ - _) with (Z.of_nat (length (concat l))) by lia. assert (Hl : l <> []) by (intros ->; cbn in Hgt; lia). specialize (IH Hl). cbn. lia.
Qed.

Lemma records_length st sb : Forall (wf st) (mbufs sb) -> Z.of_nat (length (concat (records st sb))) = chain_len (mbufs sb).
Proof.
  unfold records, mbufs. induction (sb_mb sb) as [|r l IH]; intros H; [done|]. cbn in *. apply Forall_app in H as [H1 H2].
  rewrite length_app, chain_len_app, Nat2Z.inj_add, (cdata_length st r H1), IH; done.
Qed.

Lemma free_record_ok : forall m sb st rest, in_range sb -> Forall (wf st) m -> owned st (m ++ rest) ->
  exists sb' st', free_record m sb st = (sb', st') /\ cut st sb m rest [] st' sb'.
Proof.
  induction m as [|m0 m IH]; intros sb st rest Hr Hw Ho; cbn [free_record].
  { exists sb, st. split; [done|]. by apply cut_none. }
  destruct (cut_first st sb m0 m rest Hr Hw Ho) as [C Fs].
  destruct (IH (sbfree sb m0) (MFREE m0 st) rest) as (sb' & st' & -> & C2); [exact (counted_range _ _ _ _ (ct_counts _ _ _ _ _ _ _ C))|apply C|apply C|].
  exists sb', st'. split; [done|]. by eapply cut_trans.
Qed.

Lemma sbdroprecord_ok sb st rest : sb_ok st sb -> owned st (mbufs sb ++ rest) ->
  exists sb' st', sbdroprecord sb st = (sb', st') /\ kept st sb rest st' sb' /\ records st' sb' = tail (records st sb).
Proof.
  intros HS Ho. unfold sbdroprecord, records. destruct (sb_mb sb) as [|r l] eqn:E.
  { exists sb, st. split; [done|]. split; [by apply kept_none|by rewrite E]. }
  assert (Em : mbufs sb = r ++ concat l) by (unfold mbufs; by rewrite E).
  pose proof (sk_wf _ _ HS) as Hw. pose proof (sk_recs _ _ HS) as Hn. rewrite E in Hn. apply Forall_cons in Hn as [_ Hn]. rewrite Em in Hw. apply Forall_app in Hw as [H1 H2].
  destruct (free_record_ok r (set_mb sb l) st (concat l ++ rest)) as (sb' & st' & -> & C); [exact (ok_range _ _ HS)|done|by rewrite app_assoc, <- Em|].
  apply cut_app in C as [C S]; [|done]. exists sb', st'. split; [done|]. pose proof (ct_counts _ _ _ _ _ _ _ C) as Cc. pose proof (ct_mb _ _ _ _ _ _ _ C) as Cm. cbn [set_mb sb_mb] in Cm.
  split; [constructor|].
  - assert (Es : sb' = set_mb sb' l) by (rewrite <- Cm; by destruct sb'). rewrite Es.
    eapply (ok_counted st _ sb (set_mb sb' (sb_mb sb))); [exact HS|rewrite Cc; by destruct sb|done|apply C|rewrite Em; cbn [app]; lia..].
  - unfold mbufs. rewrite Cm. apply C.
  - apply C.
  - by rewrite Cc.
  - rewrite Cm. by apply same_records.
Qed.

(** ** Flushing *)

Lemma chain_mb_size m : Forall sized m -> 0 <= chain_mb m /\ (chain_mb m = 0 -> m = []).
Proof.
  unfold chain_mb. induction 1 as [|m0 m H _ IH]; cbn [foldr]; [done|]. apply sized_ge in H. unfold MSIZE in H. split; [lia|]. intros E. lia.
Qed.

(** A buffer whose counts have not wrapped. *)
Record sane (st : mstate) (sb : sockbuf) : Prop := Sane {
  sn_sized : Forall sized (mbufs sb);
  sn_cc : chain_len (mbufs sb) < 2 ^ 31;
  sn_mb : chain_mb (mbufs sb) < 2 ^ 32
}.

Lemma sane_counts st sb : sb_ok st sb -> sane st sb -> sb_cc sb = chain_len (mbufs sb) /\ s32 (sb_cc sb) = chain_len (mbufs sb) /\
  sb_mbcnt sb = chain_mb (mbufs sb) /\ (sb_mbcnt sb = 0 <-> sb_mb sb = []).
Proof.
  intros [K1 K2 K3 K4] [S1 S2 S3]. pose proof (chain_len_nonneg st _ K2). destruct (chain_mb_size _ S1) as [H1 H2].
  rewrite K3, K4, !u32_small by lia. splits; try done; [rewrite s32_small; lia|]. split; intros E.
  - apply H2 in E. unfold mbufs in E. destruct (sb_mb sb) as [|r l]; [done|]. apply Forall_cons in K1 as [K1 _]. by destruct r.
  - unfold mbufs. by rewrite E.
Qed.

Lemma sbflush_loop_ok : forall fuel sb st rest, sb_ok st sb -> sane st sb -> owned st (mbufs sb ++ rest) -> (length (sb_mb sb) < fuel)%nat ->
  exists sb' st', sbflush_loop fuel sb st = Ret (sb', st') /\ kept st sb rest st' sb' /\ sb_mb sb' = [] /\ sb_cc sb' = 0 /\ sb_mbcnt sb' = 0.
Proof.
  induction fuel as [|fuel IH]; intros sb st rest HS HN Ho Hf; [lia|]. cbn [sbflush_loop]. destruct (sane_counts _ _ HS HN) as (E1 & E2 & E3 & E4).
  destruct (Z.eqb_spec (sb_mbcnt sb) 0) as [E|E].
  { exists sb, st. apply E4 in E as E0. split; [done|]. split; [by apply kept_none|]. split; [done|]. split; [|done]. rewrite E1. unfold mbufs. by rewrite E0. }
  pose proof (sbdrop_ok sb (chain_len (mbufs sb)) st rest HS Ho (chain_len_nonneg _ _ (sk_wf _ _ HS))) as H. rewrite Z.leb_refl in H.
  destruct H as (sb1 & st1 & Es & K & R & L). rewrite E2, Es. bind. destruct (L (sn_sized _ _ HN)) as [L1 L2].
  assert (Hshort : (length (sb_mb sb1) < length (sb_mb sb))%nat).
  { rewrite <- (length_fmap (cdata st1)), <- (length_fmap (cdata st) (sb_mb sb)). change (length (records st1 sb1) < length (records st sb))%nat.
    rewrite R, <- (records_length st sb (sk_wf _ _ HS)). apply dropped_shorter. intros Hx. apply E, E4. by apply fmap_nil_inv in Hx. }
  assert (HN1 : sane st1 sb1).
  { constructor; [done| |]; [|destruct HN; lia]. rewrite <- (records_length st1 sb1 (sk_wf _ _ (kp_ok _ _ _ _ _ K))), R, dropped_concat by (by eapply chain_len_nonneg, HS).
    rewrite length_drop, <- (records_length st sb (sk_wf _ _ HS)). lia. }
  destruct (IH sb1 st1 rest (kp_ok _ _ _ _ _ K) HN1 (kp_owned _ _ _ _ _ K)) as (sb2 & st2 & -> & [K1 K2 K3 K4] & Z); [lia|].
  exists sb2, st2. split; [done|]. split; [|done]. destruct K as [_ _ K5 K6]. constructor; [done|done|by eapply same_trans|congruence].
Qed.

Lemma sbflush_ok st sb rest : sb_ok st sb -> sane st sb -> owned st (mbufs sb ++ rest) ->
  if has (sb_flags sb) SB_LOCK then sbflush sb st = Panic "sbflush"
  else exists sb' st', sbflush sb st = Ret (sb', st') /\ kept st sb rest st' sb' /\ sb_mb sb' = [] /\ sb_cc sb' = 0 /\ sb_mbcnt sb' = 0.
Proof.
  intros HS HN Ho. unfold sbflush. destruct (has _ _); [done|].
  destruct (sbflush_loop_ok (2 + length (sb_mb sb)) sb st rest HS HN Ho) as (sb' & st' & -> & K & E1 & E2 & E3); [lia|]. bind.
  rewrite E1, E2. cbn. exists sb', st'. by splits.
Qed.

(** ** Properties *)

(** C27: sbdrop drops from the front of the buffer exactly the length asked for: the
    records are those of the data less its first [len] bytes, a record used up
    goes, the counts are those of the mbufs left, which are still owned by the buffer
    as the other chains are by their holders.  It panics if and only if the buffer holds less. *)
Theorem sbdrop_spec st sb rest len : sb_ok st sb -> owned st (mbufs sb ++ rest) -> 0 <= len ->
  if len <=? Z.of_nat (length (concat (records st sb))) then
    exists sb' st', sbdrop sb len st = Ret (sb', st') /\ kept st sb rest st' sb' /\ records st' sb' = dropped len (records st sb) /\
      concat (records st' sb') = drop (Z.to_nat len) (concat (records st sb))
  else sbdrop sb len st = Panic "sbdrop".
Proof.
  intros HS Ho Hlen. pose proof (sbdrop_ok sb len st rest HS Ho Hlen) as H. rewrite (records_length _ _ (sk_wf _ _ HS)).
  destruct (_ <=? _); [|done]. destruct H as (sb' & st' & E & K & R & _). exists sb', st'. splits; try done. rewrite R. by apply dropped_concat.
Qed.

(** sbflush ends, however the buffer was filled: each round frees a record or
    everything, so [2 + ] the number of records rounds are enough; the buffer is
    then empty, its counts 0, and all its mbufs are free.  It panics if and only if
    the buffer is locked; the second panic is never reached. *)
Theorem sbflush_spec st sb rest : sb_ok st sb -> sane st sb -> owned st (mbufs sb ++ rest) ->
  if has (sb_flags sb) SB_LOCK then sbflush sb st = Panic "sbflush"
  else exists sb' st', sbflush sb st = Ret (sb', st') /\ kept st sb rest st' sb' /\ sb_mb sb' = [] /\ sb_cc sb' = 0 /\ sb_mbcnt sb' = 0.
Proof. apply sbflush_ok. Qed.

(** *** Reservations *)

Lemma sbreserve_ok sb_max sb cc : 0 < sb_max <= SB_MAX -> 0 <= cc < 2 ^ 32 -> 0 <= sb_lowat sb < 2 ^ 31 -> 
  let '(ok, sb') := sbreserve sb_max sb cc in
  ok = (cc <=? sb_max * MCLBYTES / (MSIZE + MCLBYTES)) /\ sb_mb sb' = sb_mb sb /\ sb_cc sb' = sb_cc sb /\ sb_mbcnt sb' = sb_mbcnt sb /\ sb_flags sb' = sb_flags sb /\
  if ok then sb_hiwat sb' = cc /\ sb_mbmax sb' = Z.min (2 * cc) sb_max /\ sb_lowat sb' = Z.min (sb_lowat sb) cc else sb' = sb.
Proof.
  intros Hm Hc Hl. unfold sbreserve. unfold SB_MAX in Hm. assert (Em : u32 (sb_max * MCLBYTES) = sb_max * MCLBYTES) by (apply u32_small; unfold MCLBYTES; lia).
  rewrite Em. destruct (Z.gtb_spec cc (sb_max * MCLBYTES / (MSIZE + MCLBYTES))) as [Hgt|Hle].
  { splits; try done. lia. }
  assert (Hcc : cc <= sb_max). { unfold MCLBYTES, MSIZE in Hle. pose proof (Z.div_le_upper_bound (sb_max * 1024) (128 + 1024) sb_max). lia. }
  cbn. splits; try done; [lia| |].
  - unfold umin. rewrite (u32_small (cc * 2)), !u32_small by (try rewrite u32_small; lia). lia.
  - rewrite (u32_small (sb_lowat sb)) by lia. destruct (Z.gtb_spec (sb_lowat sb) cc); [rewrite s32_small by lia|]; lia.
Qed.

Definition sb_limit (sb_max : Z) : Z := sb_max * MCLBYTES / (MSIZE + MCLBYTES).
(** Two buffers that differ in their limits only. *)
Definition same_held (a b : sockbuf) : Prop :=
  sb_mb a = sb_mb b /\ sb_cc a = sb_cc b /\ sb_mbcnt a = sb_mbcnt b /\ sb_flags a = sb_flags b.

Lemma held_ok st a b : same_held a b -> sb_ok st b -> sb_ok st a.
Proof. intros (E1 & E2 & E3 & _) [H1 H2 H3 H4]. unfold mbufs in *. rewrite <- E1 in *. rewrite <- E2 in H3. rewrite <- E3 in H4. by constructor. Qed.
Lemma held_sane st a b : same_held a b -> sane st b -> sane st a.
Proof. intros (E1 & _) [H1 H2 H3]. unfold mbufs in *. rewrite <- E1 in *. by constructor. Qed.

(** soreserve gives both buffers their room or neither.  Within the limit each
    high-water mark is what was asked, the mbuf room twice that at most [sb_max],
    the low-water marks are set and the send buffer's is never above its high-water
    mark; what the buffers hold stays.  When only the receive buffer's size is too
    large, the send buffer is released: emptied, with no room at all. *)
Theorem soreserve_spec sb_max snd rcv sndcc rcvcc st rest : 0 < sb_max <= SB_MAX -> 0 <= sndcc < 2 ^ 31 -> 0 <= rcvcc < 2 ^ 31 ->
  0 <= sb_lowat snd < 2 ^ 31 -> 0 <= sb_lowat rcv < 2 ^ 31 ->
  sb_ok st snd -> sane st snd -> owned st (mbufs snd ++ rest) -> has (sb_flags snd) SB_LOCK = false ->
  exists err snd' rcv' st', soreserve sb_max snd rcv sndcc rcvcc st = Ret (err, snd', rcv', st') /\
    if sndcc <=? sb_limit sb_max then
      if rcvcc <=? sb_limit sb_max then
        err = 0 /\ st' = st /\ same_held snd' snd /\ same_held rcv' rcv /\
        sb_hiwat snd' = sndcc /\ sb_mbmax snd' = Z.min (2 * sndcc) sb_max /\ 0 <= sb_lowat snd' <= sndcc /\ (0 < sndcc -> 0 < sb_lowat snd') /\
        sb_hiwat rcv' = rcvcc /\ sb_mbmax rcv' = Z.min (2 * rcvcc) sb_max /\ 0 < sb_lowat rcv' <= Z.max 1 rcvcc
      else
        err = ENOBUFS /\ rcv' = rcv /\ sb_ok st' snd' /\ owned st' rest /\ same st st' rest /\
        sb_mb snd' = [] /\ sb_cc snd' = 0 /\ sb_hiwat snd' = 0 /\ sb_mbmax snd' = 0
    else err = ENOBUFS /\ snd' = snd /\ rcv' = rcv /\ st' = st.
Proof.
  intros Hm Hs Hr Hls Hlr HS HN Ho Hlock. unfold soreserve. pose proof (sbreserve_ok sb_max snd sndcc Hm ltac:(lia) Hls) as A. fold (sb_limit sb_max) in A.
  destruct (sbreserve sb_max snd sndcc) as [ok snd1]. destruct A as (-> & A1 & A2 & A3 & A4 & A). destruct (sndcc <=? sb_limit sb_max); cbn [negb].
  2:{ subst snd1. by exists ENOBUFS, snd, rcv, st. }
  destruct A as (A5 & A6 & A7). pose proof (sbreserve_ok sb_max rcv rcvcc Hm ltac:(lia) Hlr) as B. fold (sb_limit sb_max) in B.
  destruct (sbreserve sb_max rcv rcvcc) as [ok rcv1]. destruct B as (-> & B1 & B2 & B3 & B4 & B). destruct (rcvcc <=? sb_limit sb_max); cbn [negb].
  - destruct B as (B5 & B6 & B7). eexists 0, _, _, st. split; [reflexivity|]. unfold same_held.
    destruct (Z.eqb_spec (sb_lowat rcv1) 0), (Z.eqb_spec (sb_lowat snd1) 0); cbn [set_limits sb_lowat sb_hiwat sb_mbmax sb_mb sb_cc sb_mbcnt sb_flags];
      (rewrite u32_small by (unfold MCLBYTES in *; lia)); (destruct (_ >? _) eqn:E; cbn [set_limits sb_lowat sb_hiwat sb_mbmax sb_mb sb_cc sb_mbcnt sb_flags];
      rewrite ?s32_small by lia; unfold MCLBYTES in *; splits; (done || lia)).
  - subst rcv1. assert (Hh : same_held snd1 snd) by done. unfold sbrelease.
    pose proof (sbflush_ok st snd1 rest (held_ok _ _ _ Hh HS) (held_sane _ _ _ Hh HN)) as F. rewrite A4, Hlock in F. unfold mbufs in *. rewrite A1 in F.
    destruct (F Ho) as (snd2 & st2 & -> & [K1 K2 K3 K4] & E1 & E2 & E3). bind. eexists ENOBUFS, _, rcv, st2. split; [reflexivity|].
    unfold mbufs in K2. rewrite E1 in K2. split; [done|]. split; [done|]. split; [refine (held_ok st2 _ snd2 _ K1); done|]. by splits.
Qed.

(** *** Sequences of operations *)

(** An operation on the buffer, with the mbufs ([A] is [chain]) or the data
    ([A] is [list Z]) it brings. *)
Inductive op (A : Type) : Type :=
  | Append (m : A)
  | AppendRecord (m : A)
  | InsertOob (m : A)
  | AppendAddr (asa : list Z) (m control : A)
  | AppendControl (m control : A)
  | Drop (len : Z)
  | DropRecord.
#[global] Arguments Append {A}.
#[global] Arguments AppendRecord {A}.
#[global] Arguments InsertOob {A}.
#[global] Arguments AppendAddr {A}.
#[global] Arguments AppendControl {A}.
#[global] Arguments Drop {A}.
#[global] Arguments DropRecord {A}.

Definition op_map {A B} (f : A -> B) (o : op A) : op B :=
  match o with
  | Append m => Append (f m)
  | AppendRecord m => AppendRecord (f m)
  | InsertOob m => InsertOob (f m)
  | AppendAddr asa m control => AppendAddr asa (f m) (f control)
  | AppendControl m control => AppendControl (f m) (f control)
  | Drop len => Drop len
  | DropRecord => DropRecord
  end.
Definition op_chain (o : op chain) : chain :=
  match o with
  | Append m | AppendRecord m | InsertOob m => m
  | AppendAddr _ m control | AppendControl m control => control ++ m
  | Drop _ | DropRecord => []
  end.

Definition run_op (o : op chain) (sb : sockbuf) (st : mstate) : outcome (bool * sockbuf * mstate) :=
  match o with
  | Append m => '(sb, st) ← sbappend sb m st; Ret (true, sb, st)
  | AppendRecord m => '(sb, st) ← sbappendrecord sb m st; Ret (true, sb, st)
  | InsertOob m => '(sb, st) ← sbinsertoob sb m st; Ret (true, sb, st)
  | AppendAddr asa m control => sbappendaddr sb asa m control st
  | AppendControl m control => sbappendcontrol sb m control st
  | Drop len => '(sb, st) ← sbdrop sb len st; Ret (true, sb, st)
  | DropRecord => let '(sb, st) := sbdroprecord sb st in Ret (true, sb, st)
  end.
Fixpoint run_ops (l : list (op chain)) (sb : sockbuf) (st : mstate) : outcome (list bool * sockbuf * mstate) :=
  match l with
  | [] => Ret ([], sb, st)
  | o :: l => '(ok, sb, st) ← run_op o sb st; '(oks, sb, st) ← run_ops l sb st; Ret (ok :: oks, sb, st)
  end.

(** What callers keep to. *)
Definition good (o : op chain) : Prop :=
  match o with
  | Append m | AppendRecord m | InsertOob m => m <> []
  | AppendAddr _ m _ => forall m0 r, m = m0 :: r -> is_pkt m0 = true
  | AppendControl _ control => control <> []
  | Drop len => 0 <= len
  | DropRecord => True
  end.

(** The contract: a queue of records, each a string of bytes. *)
Inductive astep : op (list Z) -> bool -> list (list Z) -> list (list Z) -> Prop :=
  | AsNew bs l : astep (Append bs) true l (l ++ [bs])
  | AsLast bs l r : astep (Append bs) true (l ++ [r]) (l ++ [r ++ bs])
  | AsNothing : astep (Append []) true [] []
  | AsRecord bs l : astep (AppendRecord bs) true l (l ++ [bs])
  | AsOob bs a b : astep (InsertOob bs) true (a ++ b) (a ++ bs :: b)
  | AsAddr asa bs c l : astep (AppendAddr asa bs c) true l (l ++ [asa ++ c ++ bs])
  | AsNoAddr asa bs c l : astep (AppendAddr asa bs c) false l l
  | AsControl bs c l : astep (AppendControl bs c) true l (l ++ [c ++ bs])
  | AsNoControl bs c l : astep (AppendControl bs c) false l l
  | AsDrop len l : len <= Z.of_nat (length (concat l)) -> astep (Drop len) true l (dropped len l)
  | AsDropRecord l : astep DropRecord true l (tail l).
Inductive asteps : list (op (list Z)) -> list bool -> list (list Z) -> list (list Z) -> Prop :=
  | AsEnd l : asteps [] [] l l
  | AsStep o os ok oks l l1 l2 : astep o ok l l1 -> asteps os oks l1 l2 -> asteps (o :: os) (ok :: oks) l l2.

Lemma appended_step st sb bs : astep (Append bs) true (records st sb) (appended sb (records st sb) bs).
Proof.
  unfold appended. pose proof (last_record_app (sb_mb sb)) as E. unfold records. destruct (last_record (sb_mb sb)) as [[recs r]|].
  - destruct (ended r); [constructor|]. rewrite E, fmap_app. cbn [fmap list_fmap].
    rewrite <- (length_fmap (cdata st) recs), take_app_length, lookup_app_r, Nat.sub_diag by lia. cbn. constructor.
  - rewrite E. destruct bs; [constructor|]. apply (AsNew _ []).
Qed.

(** Mbufs that the caller still has. *)
Lemma kept_refused st sb m rest st' : sb_ok st sb -> owned st (mbufs sb ++ m ++ rest) -> pool st' = pool st -> kept st sb rest st' sb.
Proof.
  intros [H1 H2 H3 H4] Ho Hp. assert (Hs : forall c, same st st' c) by (intros c; apply same_pool; by rewrite Hp).
  constructor; [constructor; try done; by eapply wfs_same| |done|done].
  intros c. unfold refcnt. rewrite Hp. specialize (Ho c). rewrite !refs_app in *. pose proof (refs_nonneg c m). unfold refcnt in Ho. lia.
Qed.

Lemma run_op_ok o sb st rest : sb_ok st sb -> good o -> Forall (wf st) (op_chain o) -> owned st (mbufs sb ++ op_chain o ++ rest) ->
  (exists ok sb' st', run_op o sb st = Ret (ok, sb', st') /\ kept st sb rest st' sb' /\ astep (op_map (cdata st) o) ok (records st sb) (records st' sb')) \/
  (exists len, o = Drop len /\ Z.of_nat (length (concat (records st sb))) < len /\ run_op o sb st = Panic "sbdrop").
Proof.
  intros HS Hg Hw Ho. destruct o as [m|m|m|asa m control|m control|len|]; cbn [run_op op_map op_chain good] in *.
  - left. destruct (sbappend_ok sb m st rest HS Hw Ho Hg) as (sb' & st' & -> & K & R). bind. exists true, sb', st'. splits; try done. rewrite R. apply appended_step.
  - left. destruct (sbappendrecord_ok sb m st rest HS Hw Ho) as (sb' & st' & -> & K & R). bind. exists true, sb', st'. splits; try done.
    rewrite R. destruct m; [done|]. constructor.
  - left. destruct (sbinsertoob_ok sb m st rest HS Hw Ho Hg) as (sb' & st' & -> & K & R). bind. exists true, sb', st'. splits; try done.
    rewrite R. unfold records. destruct (oob_place_app (sb_mb sb)) as [_ E]. rewrite E at 1. rewrite fmap_app. constructor.
  - left. apply Forall_app in Hw as [H1 H2]. rewrite <- app_assoc in Ho.
    destruct (sbappendaddr_ok sb asa m control st rest HS H1 H2 Ho Hg) as (ok & sb' & st' & -> & _ & _ & H). exists ok, sb', st'. split; [done|]. destruct ok.
    + destruct H as [K R]. split; [done|]. rewrite R. constructor.
    + destruct H as [-> P]. split; [eapply (kept_refused _ _ (control ++ m)); [done| |done]; by rewrite <- app_assoc|].
      assert (E : records st' sb = records st sb) by (apply same_records, same_pool; by rewrite P). rewrite E. constructor.
  - left. apply Forall_app in Hw as [H1 H2]. rewrite <- app_assoc in Ho.
    destruct (sbappendcontrol_ok sb m control st rest HS H1 H2 Ho Hg) as (ok & sb' & -> & _ & H). exists ok, sb', st. split; [done|]. destruct ok.
    + destruct H as [K R]. split; [done|]. rewrite R. constructor.
    + subst sb'. split; [|constructor]. eapply (kept_refused _ _ (control ++ m)); [done| |done]. by rewrite <- app_assoc.
  - pose proof (sbdrop_ok sb len st rest HS Ho Hg) as H. rewrite <- (records_length _ _ (sk_wf _ _ HS)) in H. destruct (Z.leb_spec len (Z.of_nat (length (concat (records st sb))))) as [Hl|Hl].
    + left. destruct H as (sb' & st' & -> & K & R & _). bind. exists true, sb', st'. splits; try done. rewrite R. by constructor.
    + right. exists len. by rewrite H.
  - left. destruct (sbdroprecord_ok sb st rest HS Ho) as (sb' & st' & -> & K & R). exists true, sb', st'. splits; try done. rewrite R. constructor.
Qed.

Lemma op_map_same st st' o : same st st' (op_chain o) -> op_map (cdata st') o = op_map (cdata st) o.
Proof.
  destruct o; cbn; intros H; try done; try (f_equal; by apply cdata_same); apply same_app in H as [H1 H2]; f_equal; by apply cdata_same.
Qed.
Lemma ops_map_same st st' l : same st st' (concat (op_chain <$> l)) -> op_map (cdata st') <$> l = op_map (cdata st) <$> l.
Proof.
  induction l as [|o l IH]; intros H; [done|]. cbn in *. apply same_app in H as [H1 H2]. f_equal; [by apply op_map_same|by apply IH].
Qed.

(** C26: any sequence of appends, insertions, drops and record drops implements a
    queue of records, each a string of bytes: every call answers as the queue does
    and leaves the queue's contents.  At the end the counts are those of the mbufs
    held, and the mbufs held and those of others are still owned.  The only panic
    is that of a drop of more than the queue holds at that point. *)
Theorem sockbuf_refines ops : forall sb st rest, sb_ok st sb -> Forall good ops -> Forall (wf st) (concat (op_chain <$> ops)) ->
  owned st (mbufs sb ++ concat (op_chain <$> ops) ++ rest) ->
  (exists oks sb' st', run_ops ops sb st = Ret (oks, sb', st') /\ kept st sb rest st' sb' /\
     asteps (op_map (cdata st) <$> ops) oks (records st sb) (records st' sb')) \/
  (exists pre len post oks l, ops = pre ++ Drop len :: post /\ asteps (op_map (cdata st) <$> pre) oks (records st sb) l /\
     Z.of_nat (length (concat l)) < len /\ run_ops ops sb st = Panic "sbdrop").
Proof.
  induction ops as [|o ops IH]; intros sb st rest HS Hg Hw Ho; cbn [run_ops fmap list_fmap concat] in *.
  { left. exists [], sb, st. split; [done|]. split; [by apply kept_none|constructor]. }
  apply Forall_cons in Hg as [Hg Hgs]. apply Forall_app in Hw as [Hw Hws]. rewrite <- app_assoc in Ho.
  destruct (run_op_ok o sb st _ HS Hg Hw Ho) as [(ok & sb1 & st1 & -> & [K1 K2 K3 K4] & A)|(len & -> & Hl & ->)]; bind.
  2:{ right. exists [], len, ops, [], (records st sb). splits; try done. constructor. }
  apply same_app in K3 as [K3 K5]. rewrite <- (ops_map_same st st1 ops K3).
  destruct (IH sb1 st1 rest K1 Hgs) as [(oks & sb2 & st2 & -> & [L1 L2 L3 L4] & B)|(pre & len & post & oks & l & -> & B & Hl & ->)]; [by eapply wfs_same|done| |]; bind.
  - left. exists (ok :: oks), sb2, st2. split; [done|]. split; [constructor; try done; first [by eapply same_trans|congruence]|]. by econstructor.
  - right. exists (o :: pre), len, post, (ok :: oks), l. splits; try done. cbn. econstructor; [exact A|].
    rewrite fmap_app, concat_app in K3. apply same_app in K3 as [K3 _]. by rewrite <- (ops_map_same st st1 pre K3).
Qed.

(** sbappend puts its data at the end of the last record, or begins a record
    when there is none or an mbuf before the last marks the end of the record; the
    records before are untouched, nothing is lost to compression, and an append of
    no data to an empty buffer leaves it empty. *)
Theorem sbappend_spec sb m st rest : sb_ok st sb -> Forall (wf st) m -> owned st (mbufs sb ++ m ++ rest) -> m <> [] ->
  exists sb' st', sbappend sb m st = Ret (sb', st') /\ kept st sb rest st' sb' /\
    concat (records st' sb') = concat (records st sb) ++ cdata st m /\
    match last_record (sb_mb sb) with
    | None => length (sb_mb sb') = if chain_len m =? 0 then 0%nat else 1%nat
    | Some (recs, r) =>
        if ended r then records st' sb' = records st sb ++ [cdata st m]
        else records st' sb' = (cdata st <$> recs) ++ [cdata st r ++ cdata st m]
    end.
Proof.
  intros HS Hw Ho Hne. destruct (sbappend_ok sb m st rest HS Hw Ho Hne) as (sb' & st' & E & K & R). exists sb', st'. split; [done|]. split; [done|].
  pose proof (last_record_app (sb_mb sb)) as El. revert R. unfold appended, records. destruct (last_record (sb_mb sb)) as [[recs r]|].
  - rewrite El, fmap_app. cbn [fmap list_fmap]. destruct (ended r); intros ->.
    + split; [|done]. by rewrite concat_snoc.
    + rewrite <- (length_fmap (cdata st) recs), take_app_length, lookup_app_r, Nat.sub_diag by lia. cbn. rewrite !concat_snoc, app_assoc. done.
  - rewrite El. intros R. pose proof (cdata_length st m Hw) as Hl. assert (Hlen : length (sb_mb sb') = length (cdata st' <$> sb_mb sb')) by (by rewrite length_fmap).
    rewrite Hlen, R. destruct (cdata st m) as [|b bs]; cbn [length] in Hl; (destruct (Z.eqb_spec (chain_len m) 0); [|]); try lia; cbn; by rewrite ?app_nil_r.
Qed.

(** sbappendaddr puts the address, the control data and the data in a record of
    their own, or leaves the buffer and the mbufs it was given as they were.  It
    succeeds if and only if the whole fits, the address fits in an mbuf and there
    is an mbuf for it; when the packet header has the length of the data the
    buffer never holds more than its high-water mark afterwards. *)
Theorem sbappendaddr_spec sb asa m0 control st rest : sb_ok st sb -> Forall (wf st) control -> Forall (wf st) m0 ->
  owned st (mbufs sb ++ control ++ m0 ++ rest) -> (forall m r, m0 = m :: r -> is_pkt m = true /\ pkt_len m = chain_len m0) ->
  let space := Z.of_nat (length asa) + chain_len m0 + chain_len control in
  sb_cc sb < 2 ^ 31 -> sb_hiwat sb < 2 ^ 31 -> 0 <= sb_hiwat sb -> space < 2 ^ 31 -> mallocs st = [] ->
  exists ok sb' st', sbappendaddr sb asa m0 control st = Ret (ok, sb', st') /\
    ok = (space <=? sbspace sb) && (Z.of_nat (length asa) <=? MLEN) /\
    if ok then kept st sb rest st' sb' /\ records st' sb' = records st sb ++ [asa ++ cdata st control ++ cdata st m0] /\
      sb_cc sb' = sb_cc sb + space /\ sb_cc sb' <= sb_hiwat sb'
    else sb' = sb /\ pool st' = pool st.
Proof.
  intros HS Hc Hm Ho Hp space Hcc Hhi Hhi0 Hsp Hal. pose proof (ok_range _ _ HS) as [Hr1 _].
  pose proof (chain_len_nonneg _ _ Hc) as Nc. pose proof (chain_len_nonneg _ _ Hm) as Nm.
  assert (Es : Z.of_nat (length asa) + match m0 with m :: _ => pkt_len m | [] => 0 end + chain_len control = space).
  { unfold space. destruct m0 as [|m r]; [done|]. by destruct (Hp m r eq_refl) as [_ ->]. }
  destruct (sbappendaddr_ok sb asa m0 control st rest HS Hc Hm Ho) as (ok & sb' & st' & E & H1 & H2 & H3); [intros m r Hx; by destruct (Hp m r Hx)|].
  cbv zeta in H1, H2. rewrite Es, s32_small in H1, H2 by (unfold space in *; lia). exists ok, sb', st'. split; [done|]. split.
  - destruct ok; [destruct (H1 eq_refl)|]; destruct (Z.leb_spec space (sbspace sb)), (Z.leb_spec (Z.of_nat (length asa)) MLEN); cbn; try done; try lia.
    by specialize (H2 Hal ltac:(lia) ltac:(lia)).
  - destruct ok; [|done]. destruct H3 as [K R]. split; [done|]. split; [done|]. destruct (H1 eq_refl) as [Hs _].
    unfold sbspace in Hs. rewrite (s32_small (sb_hiwat sb - sb_cc sb)) in Hs by lia.
    pose proof (kp_ok _ _ _ _ _ K) as HS'. pose proof (records_length _ _ (sk_wf _ _ HS')) as L'. pose proof (records_length _ _ (sk_wf _ _ HS)) as L.
    rewrite R, concat_snoc, !length_app in L'. pose proof (cdata_length _ _ Hc). pose proof (cdata_length _ _ Hm).
    assert (Ec : sb_cc sb' = u32 (sb_cc sb + space)) by (rewrite (sk_cc _ _ HS'), (sk_cc _ _ HS), u32_add_l; f_equal; unfold space; lia).
    pose proof (kp_limits _ _ _ _ _ K) as Hk. injection Hk as -> _ _ _. rewrite u32_small in Ec by (unfold space in *; lia). lia.
Qed.

(** ** Witnesses *)

(** A buffer with one record of two mbufs, one of them a cluster. *)
Definition demo_sb : sockbuf := Sb 7 100 272 4096 1 [[w0; w1]] 0.
Definition empty_sb : sockbuf := Sb 0 100 0 4096 1 [] 0.

Lemma demo_ok : sb_ok wst demo_sb.
Proof. pose proof w_wf as H. apply (Forall_app _ [w0; w1] [w2]) in H as [H _]. constructor; [by repeat constructor|exact H|done|done]. Qed.
Lemma demo_owned : owned wst (mbufs demo_sb ++ [w2] ++ []).
Proof. exact w_owned. Qed.
Lemma demo_owned_nil : owned wst (mbufs demo_sb ++ []).
Proof. intros c. pose proof (w_owned c) as H. change [w0; w1; w2] with ([w0; w1] ++ [w2]) in H. rewrite refs_app in H. pose proof (refs_nonneg c [w2]). cbn [mbufs demo_sb sb_mb concat app] in *. lia. Qed.
Lemma demo_sane : sane wst demo_sb.
Proof. constructor; [repeat constructor; intros ?; vm_compute; congruence|done|done]. Qed.
Lemma empty_ok : sb_ok wst empty_sb.
Proof. by repeat constructor. Qed.
Lemma w2_wf : Forall (wf wst) [w2].
Proof. pose proof w_wf as H. by apply (Forall_app _ [w0; w1] [w2]) in H as [_ H]. Qed.

Lemma sbdrop_spec_witness : (exists sb' st', sbdrop demo_sb 4 wst = Ret (sb', st') /\ concat (records st' sb') = [5; 6; 7]) /\ sbdrop demo_sb 8 wst = Panic "sbdrop".
Proof.
  split; [|exact (sbdrop_spec wst demo_sb [] 8 demo_ok demo_owned_nil ltac:(done))].
  destruct (sbdrop_spec wst demo_sb [] 4 demo_ok demo_owned_nil ltac:(done)) as (sb' & st' & E & _ & _ & R). exists sb', st'. split; [exact E|].
  rewrite R. by vm_compute.
Defined.

Lemma sbflush_spec_witness : exists sb' st', sbflush demo_sb wst = Ret (sb', st') /\ sb_mb sb' = [] /\ refcnt st' 7 = 0.
Proof.
  destruct (sbflush_spec wst demo_sb [] demo_ok demo_sane demo_owned_nil) as (sb' & st' & E & _ & H & _).
  exists sb', st'. split; [exact E|]. split; [exact H|]. vm_compute in E. injection E as _ <-. by vm_compute.
Defined.

Lemma soreserve_spec_witness : exists snd' st', soreserve SB_MAX demo_sb empty_sb 4096 65536 wst = Ret (ENOBUFS, snd', empty_sb, st') /\ sb_mb snd' = [] /\ sb_hiwat snd' = 0.
Proof.
  destruct (soreserve_spec SB_MAX demo_sb empty_sb 4096 65536 wst []) as (err & snd' & rcv' & st' & E & -> & -> & _ & _ & _ & H1 & _ & H2 & _);
    [done..|exact demo_ok|exact demo_sane|exact demo_owned_nil|done|]. by exists snd', st'.
Defined.

Lemma sockbuf_refines_witness :
  (exists oks sb' st', run_ops [Append [w2]; Drop 8; DropRecord] demo_sb wst = Ret (oks, sb', st') /\ records st' sb' = []) /\
  (exists pre len post oks l, [Append [w2]; Drop 8; Drop 2] = pre ++ Drop len :: post /\ asteps (op_map (cdata wst) <$> pre) oks (records wst demo_sb) l /\
     Z.of_nat (length (concat l)) < len).
Proof.
  split.
  - destruct (sockbuf_refines [Append [w2]; Drop 8; DropRecord] demo_sb wst [] demo_ok) as [(oks & sb' & st' & E & _)|(? & ? & ? & ? & ? & _ & _ & _ & E)];
      [by repeat constructor|exact w2_wf|exact demo_owned| |vm_compute in E; discriminate].
    exists oks, sb', st'. split; [exact E|]. vm_compute in E. by injection E as _ <- <-.
  - destruct (sockbuf_refines [Append [w2]; Drop 8; Drop 2] demo_sb wst [] demo_ok) as [(? & ? & ? & E & _)|(pre & len & post & oks & l & H1 & H2 & H3 & _)];
      [by repeat constructor|exact w2_wf|exact demo_owned|vm_compute in E; discriminate|]. by exists pre, len, post, oks, l.
Defined.

Lemma sbappend_spec_witness : exists sb' st', sbappend demo_sb [w2] wst = Ret (sb', st') /\ records st' sb' = [[1; 2; 3; 4; 5; 6; 7; 8; 9]].
Proof.
  destruct (sbappend_spec demo_sb [w2] wst [] demo_ok w2_wf demo_owned) as (sb' & st' & E & _ & _ & R); [done|]. exists sb', st'. split; [exact E|]. rewrite R. by vm_compute.
Defined.

Lemma sbappendaddr_spec_witness : exists sb' st', sbappendaddr empty_sb [16; 2] [w0; w1; w2] [] wst = Ret (true, sb', st') /\
  records st' sb' = [[16; 2; 1; 2; 3; 4; 5; 6; 7; 8; 9]] /\ sb_cc sb' = 11.
Proof.
  destruct (sbappendaddr_spec empty_sb [16; 2] [w0; w1; w2] [] wst [] empty_ok) as (ok & sb' & st' & E & Hok & H);
    [constructor|exact w_wf|exact w_owned|by intros m r [= <- <-]|done..|].
  vm_compute in Hok. subst ok. destruct H as (_ & R & C & _). exists sb', st'. split; [exact E|]. split; [rewrite R; by vm_compute|rewrite C; by vm_compute].
Defined.

End SockBuf.
