(* ===== verification/SlLine.v ===== *)
(** The serial-line interface, sys/net/if_sl.c: output queues, framing of
    packets on the terminal's output queue (a clist of Clist.v), unframing of
    received characters into an mbuf cluster (Mbuf.v), with the header
    compression of SlCompress.v on both sides.

    A packet to send is the list of the data of its mbufs; the first one starts
    with the IP header and, for TCP, has the whole header.  A packet received is
    one mbuf.  The driver's start routine, which takes characters from the output
    queue, is the parameter [oproc]. *)
From stdpp Require Import base numbers list gmap strings.
From Stdlib Require Import ZArith Lia.
From S2P Require Import Prelude Rmap Mbuf Cksum SlCompress Clist.

Module SlLine.
Import SlCompress.

Definition BUFOFFSET : Z := 128.
Definition SLMAX : Z := Mbuf.MCLBYTES - BUFOFFSET.
Definition SLBUFSIZE : Z := SLMAX + BUFOFFSET.
Definition SLMTU : Z := 296.
Definition SLIP_HIWAT : Z := Clist.CBSIZE.
Definition CLISTRESERVE : Z := 1024.
Definition ABT_ESC : Z := 27.
Definition ABT_WAIT : Z := 1.
Definition ABT_RECYCLE : Z := 5 * 2 + 2.
Definition ABT_SOFT : Z := 3.
Definition FRAME_END : Z := 0xc0.
Definition FRAME_ESCAPE : Z := 0xdb.
Definition TRANS_FRAME_END : Z := 0xdc.
Definition TRANS_FRAME_ESCAPE : Z := 0xdd.
Definition SC_NOICMP : Z := 0x0004.
Definition SC_ABORT : Z := 0x10000.
Definition SC_MASK : Z := 0xffff.
Definition AF_INET : Z := 2.
Definition IPPROTO_ICMP : Z := 1.
Definition IFF_UP : Z := 0x1.
Definition ENETDOWN : Z := 50.
Definition EHOSTUNREACH : Z := 65.
Definition EAFNOSUPPORT : Z := 47.
Definition ENOBUFS : Z := 55.
Definition EINVAL : Z := 22.

(** ** Data *)

(** A queue, head first; [ifq_len] is its length. *)
Record ifqueue (A : Type) := Ifq { ifq_head : list A; ifq_maxlen : Z; ifq_drops : Z }.
#[global] Arguments Ifq {A}.
#[global] Arguments ifq_head {A}.
#[global] Arguments ifq_maxlen {A}.
#[global] Arguments ifq_drops {A}.

Definition IF_QFULL {A} (q : ifqueue A) : bool := Z.of_nat (length (ifq_head q)) >=? ifq_maxlen q.
Definition IF_DROP {A} (q : ifqueue A) : ifqueue A := Ifq (ifq_head q) (ifq_maxlen q) (ifq_drops q + 1).
Definition IF_ENQUEUE {A} (q : ifqueue A) (m : A) : ifqueue A := Ifq (ifq_head q ++ [m]) (ifq_maxlen q) (ifq_drops q).
Definition IF_DEQUEUE {A} (q : ifqueue A) : option A * ifqueue A :=
  match ifq_head q with
  | [] => (None, q)
  | m :: l => (Some m, Ifq l (ifq_maxlen q) (ifq_drops q))
  end.

Definition packet := list (list Z).

(** The counters of [sc_if]. *)
Record ifstat := If {
  if_flags : Z;
  if_ipackets : Z;
  if_ierrors : Z;
  if_opackets : Z;
  if_oerrors : Z;
  if_collisions : Z;
  if_ibytes : Z;
  if_obytes : Z;
  if_iqdrops : Z;
  if_lastchange : Z
}.

(** [sc_ep] is the cluster of the input buffer (the pointer is its end), [None]
    the null pointer; [sc_mp] and [sc_buf] are offsets in it. *)
Record sl_softc := Sc {
  sc_if : ifstat;
  sc_snd : ifqueue packet;
  sc_fastq : ifqueue packet;
  sc_ttyp : bool;
  sc_mp : Z;
  sc_ep : option Z;
  sc_buf : Z;
  sc_flags : Z;
  sc_escape : bool;
  sc_bytessent : Z;
  sc_bytesrcvd : Z;
  sc_lasttime : Z;
  sc_starttime : Z;
  sc_abortcount : Z;
  sc_comp : slcompress
}.

(** Of the terminal: the output queue, TS_CARR_ON, the line discipline and
    whether [t_sc] is set. *)
Record tty := Tty { t_outq : Clist.clist; t_carr : bool; t_line : Z; t_sc : bool }.

(** The interface with what it works on: the terminal, the clist memory, the mbuf
    memory, [ipintrq], and the characters the driver has taken. *)
Record line := Line {
  l_sc : sl_softc;
  l_tp : tty;
  l_cm : Clist.ttymem;
  l_mb : Mbuf.mstate;
  l_ip : ifqueue Mbuf.mbuf;
  l_wire : list Z
}.

Definition set_sc (s : line) (sc : sl_softc) : line := Line sc (l_tp s) (l_cm s) (l_mb s) (l_ip s) (l_wire s).
Definition set_tp (s : line) (tp : tty) : line := Line (l_sc s) tp (l_cm s) (l_mb s) (l_ip s) (l_wire s).
Definition set_mb (s : line) (mb : Mbuf.mstate) : line := Line (l_sc s) (l_tp s) (l_cm s) mb (l_ip s) (l_wire s).
Definition set_ip (s : line) (q : ifqueue Mbuf.mbuf) : line := Line (l_sc s) (l_tp s) (l_cm s) (l_mb s) q (l_wire s).
(** The output queue and its memory, and the characters sent on the line. *)
Definition set_out (s : line) (cm : Clist.ttymem) (q : Clist.clist) (w : list Z) : line :=
  let tp := l_tp s in
  Line (l_sc s) (Tty q (t_carr tp) (t_line tp) (t_sc tp)) cm (l_mb s) (l_ip s) (l_wire s ++ w).

Definition set_if (sc : sl_softc) (i : ifstat) : sl_softc :=
  Sc i (sc_snd sc) (sc_fastq sc) (sc_ttyp sc) (sc_mp sc) (sc_ep sc) (sc_buf sc) (sc_flags sc) (sc_escape sc)
    (sc_bytessent sc) (sc_bytesrcvd sc) (sc_lasttime sc) (sc_starttime sc) (sc_abortcount sc) (sc_comp sc).
Definition set_queues (sc : sl_softc) (snd fastq : ifqueue packet) : sl_softc :=
  Sc (sc_if sc) snd fastq (sc_ttyp sc) (sc_mp sc) (sc_ep sc) (sc_buf sc) (sc_flags sc) (sc_escape sc)
    (sc_bytessent sc) (sc_bytesrcvd sc) (sc_lasttime sc) (sc_starttime sc) (sc_abortcount sc) (sc_comp sc).
(** The input side: the buffer pointers, the flags and the escape. *)
Definition set_input (sc : sl_softc) (mp : Z) (ep : option Z) (buf flags : Z) (escape : bool) : sl_softc :=
  Sc (sc_if sc) (sc_snd sc) (sc_fastq sc) (sc_ttyp sc) mp ep buf flags escape
    (sc_bytessent sc) (sc_bytesrcvd sc) (sc_lasttime sc) (sc_starttime sc) (sc_abortcount sc) (sc_comp sc).
Definition set_comp (sc : sl_softc) (comp : slcompress) : sl_softc :=
  Sc (sc_if sc) (sc_snd sc) (sc_fastq sc) (sc_ttyp sc) (sc_mp sc) (sc_ep sc) (sc_buf sc) (sc_flags sc) (sc_escape sc)
    (sc_bytessent sc) (sc_bytesrcvd sc) (sc_lasttime sc) (sc_starttime sc) (sc_abortcount sc) comp.
Definition set_bytes (sc : sl_softc) (sent rcvd : Z) : sl_softc :=
  Sc (sc_if sc) (sc_snd sc) (sc_fastq sc) (sc_ttyp sc) (sc_mp sc) (sc_ep sc) (sc_buf sc) (sc_flags sc) (sc_escape sc)
    (u32 sent) (u32 rcvd) (sc_lasttime sc) (sc_starttime sc) (sc_abortcount sc) (sc_comp sc).
Definition set_abort (sc : sl_softc) (lasttime starttime abortcount : Z) : sl_softc :=
  Sc (sc_if sc) (sc_snd sc) (sc_fastq sc) (sc_ttyp sc) (sc_mp sc) (sc_ep sc) (sc_buf sc) (sc_flags sc) (sc_escape sc)
    (sc_bytessent sc) (sc_bytesrcvd sc) lasttime starttime abortcount (sc_comp sc).

(** Errors, packets and so on counted. *)
Definition bump (i : ifstat) (ip ie op oe co iq : Z) : ifstat :=
  If (if_flags i) (if_ipackets i + ip) (if_ierrors i + ie) (if_opackets i + op) (if_oerrors i + oe) (if_collisions i + co)
    (if_ibytes i) (if_obytes i) (if_iqdrops i + iq) (if_lastchange i).
Definition changed (i : ifstat) (now : Z) : ifstat :=
  If (if_flags i) (if_ipackets i) (if_ierrors i) (if_opackets i) (if_oerrors i) (if_collisions i)
    (if_ibytes i) (if_obytes i) (if_iqdrops i) now.
Definition with_bytes (i : ifstat) (ib ob : Z) : ifstat :=
  If (if_flags i) (if_ipackets i) (if_ierrors i) (if_opackets i) (if_oerrors i) (if_collisions i)
    ib ob (if_iqdrops i) (if_lastchange i).
Definition with_flags (i : ifstat) (f : Z) : ifstat :=
  If f (if_ipackets i) (if_ierrors i) (if_opackets i) (if_oerrors i) (if_collisions i)
    (if_ibytes i) (if_obytes i) (if_iqdrops i) (if_lastchange i).
Definition sc_bump (sc : sl_softc) (ip ie op oe co iq : Z) : sl_softc := set_if sc (bump (sc_if sc) ip ie op oe co iq).

(** ** Configuration *)

Definition slinit (s : line) : outcome (bool * line) :=
  let sc := l_sc s in
  '(ep, s) ← match sc_ep sc with
             | Some c => Ret (Some c, s)
             | None => '(p, mb) ← Mbuf.MCLALLOC (l_mb s); Ret (p, set_mb s mb)
             end;
  match ep with
  | None => Ret (false, set_sc s (set_if sc (with_flags (sc_if sc) (Z.land (if_flags (sc_if sc)) (Z.lnot IFF_UP)))))
  | Some c =>
      let buf := SLBUFSIZE - SLMAX in
      Ret (true, set_sc s (set_comp (set_input sc buf (Some c) buf (sc_flags sc) (sc_escape sc)) sl_compress_init))
  end.

(** SLIOCSFLAGS. *)
Definition slsetflags (sc : sl_softc) (data : Z) : sl_softc :=
  set_input sc (sc_mp sc) (sc_ep sc) (sc_buf sc) (Z.lor (Z.ldiff (sc_flags sc) SC_MASK) (Z.land data SC_MASK)) (sc_escape sc).

(** ** Output *)

Definition interactive_ports : list Z := [0; 513; 0; 0; 0; 21; 0; 23].
Definition INTERACTIVE (p : Z) : bool := (interactive_ports !!! Z.to_nat (Z.land p 7)) =? p.

(** The [int] at offset [i], in the byte order of the machine. *)
Definition int_at (big : bool) (l : list Z) (i : Z) : Z :=
  if big then s32 (b32 l i)
  else s32 (b8 l i + 256 * b8 l (i + 1) + 65536 * b8 l (i + 2) + 16777216 * b8 l (i + 3)).

(** The mbuf's data up to the first special character, and the rest. *)
Fixpoint plain (l : list Z) : list Z * list Z :=
  match l with
  | [] => ([], [])
  | c :: r => if (c =? FRAME_ESCAPE) || (c =? FRAME_END) then ([], l) else let '(a, b) := plain r in (c :: a, b)
  end.

(** The loop over one mbuf's data: the memory, the queue and the characters
    counted as sent. *)
Fixpoint send_mbuf (fuel : nat) (l : list Z) (cm : Clist.ttymem) (q : Clist.clist) (sent : Z) : outcome (Clist.ttymem * Clist.clist * Z) :=
  match fuel with
  | O => Fault
  | S fuel =>
      match l with
      | [] => Ret (cm, q, sent)
      | _ =>
          let '(bp, cp) := plain l in
          let n := Z.of_nat (length bp) in
          '(r, cm, q) ← (if n >? 0 then Clist.b_to_q cm bp n q else Ret (0, cm, q));
          if negb (r =? 0) then Ret (cm, q, sent)
          else
            let sent := sent + n in
            match cp with
            | [] => Ret (cm, q, sent)
            | c :: cp =>
                '(r, cm, q) ← Clist.putc cm FRAME_ESCAPE q;
                if negb (r =? 0) then Ret (cm, q, sent)
                else
                  '(r, cm, q) ← Clist.putc cm (if c =? FRAME_ESCAPE then TRANS_FRAME_ESCAPE else TRANS_FRAME_END) q;
                  if negb (r =? 0) then '(_, cm, q) ← Clist.unputc cm q; Ret (cm, q, sent)
                  else send_mbuf fuel cp cm q (sent + 2)
            end
      end
  end.
(** [while (m)]. *)
Fixpoint send_mbufs (m : packet) (cm : Clist.ttymem) (q : Clist.clist) (sent : Z) : outcome (Clist.ttymem * Clist.clist * Z) :=
  match m with
  | [] => Ret (cm, q, sent)
  | l :: m =>
      '(cm, q, sent) ← send_mbuf (S (length l)) l cm q sent;
      send_mbufs m cm q sent
  end.

(** One packet, from the check that the line was idle on. *)
Definition send_packet (m : packet) (s : line) : outcome line :=
  let sc := l_sc s in
  let q := t_outq (l_tp s) in
  '(cm, q, sent) ← (if Clist.c_cc q =? 0
                    then '(_, cm, q) ← Clist.putc (l_cm s) FRAME_END q; Ret (cm, q, sc_bytessent sc + 1)
                    else Ret (l_cm s, q, sc_bytessent sc));
  '(cm, q, sent) ← send_mbufs m cm q sent;
  '(r, cm, q) ← Clist.putc cm FRAME_END q;
  '(cm, q, sc) ←
    (if negb (r =? 0) then
       '(_, cm, q) ← Clist.unputc cm q;
       '(_, cm, q) ← Clist.putc cm FRAME_END q;
       Ret (cm, q, set_bytes (sc_bump sc 0 0 0 0 1 0) sent (sc_bytesrcvd sc))
     else Ret (cm, q, set_bytes (sc_bump sc 0 0 1 0 0 0) (sent + 1) (sc_bytesrcvd sc)));
  let i := sc_if sc in
  Ret (set_out (set_sc s (set_if sc (with_bytes i (if_ibytes i) (sc_bytessent sc)))) cm q []).

Section driver.
(** The driver's start routine: it takes characters from the output queue; the
    characters, the memory and the queue. *)
Variable oproc : Clist.ttymem -> Clist.clist -> outcome (list Z * Clist.ttymem * Clist.clist).
(** The byte order of the machine. *)
Variable big : bool.

(** Each round sends or flushes a packet. *)
Fixpoint slstart_loop (fuel : nat) (now : Z) (s : line) : outcome line :=
  match fuel with
  | O => Fault
  | S fuel =>
      '(s, stop) ← (if negb (Clist.c_cc (t_outq (l_tp s)) =? 0) then
                      '(w, cm, q) ← oproc (l_cm s) (t_outq (l_tp s));
                      Ret (set_out s cm q w, Clist.c_cc q >? SLIP_HIWAT)
                    else Ret (s, false));
      if (stop : bool) || negb (t_sc (l_tp s)) then Ret s
      else
        let sc := l_sc s in
        let '(m, fastq) := IF_DEQUEUE (sc_fastq sc) in
        let '(m, snd) := match m with Some m => (Some m, sc_snd sc) | None => IF_DEQUEUE (sc_snd sc) end in
        match m with
        | None => Ret s
        | Some m =>
            let sc := set_queues sc snd fastq in
            let sc := set_if sc (changed (sc_if sc) now) in
            if Clist.cfreecount (l_cm s) <? CLISTRESERVE + SLMTU
            then slstart_loop fuel now (set_sc s (sc_bump sc 0 0 0 0 1 0))
            else s ← send_packet m (set_sc s sc); slstart_loop fuel now s
        end
  end.
Definition queued (s : line) : nat := length (ifq_head (sc_fastq (l_sc s))) + length (ifq_head (sc_snd (l_sc s))).
Definition slstart (now : Z) (s : line) : outcome line := slstart_loop (S (queued s)) now s.

(** The queue, and the packet and the compression state. *)
Definition sl_classify (m : packet) (sc : sl_softc) : outcome (option (bool * packet * slcompress)) :=
  let ip := hd [] m in
  if ip_p ip =? IPPROTO_TCP then
    let p := int_at big ip (4 * ip_hl ip) in
    let fast := INTERACTIVE (Z.land p 0xffff) || INTERACTIVE (Z.shiftr p 16) in
    if has (sc_flags sc) SC_COMPRESS then
      '(ty, q, comp) ← sl_compress_tcp ip (sc_comp sc) fast;
      Ret (Some (fast, sl_tag ty q :: tail m, comp))
    else Ret (Some (fast, m, sc_comp sc))
  else if has (sc_flags sc) SC_NOICMP && (ip_p ip =? IPPROTO_ICMP) then Ret None
  else Ret (Some (false, m, sc_comp sc)).

Definition sloutput (af : Z) (m : packet) (now : Z) (s : line) : outcome (Z * line) :=
  let sc := l_sc s in
  if negb (af =? AF_INET) then Ret (EAFNOSUPPORT, s)
  else if negb (sc_ttyp sc) then Ret (ENETDOWN, s)
  else if negb (t_carr (l_tp s)) then Ret (EHOSTUNREACH, s)
  else
    r ← sl_classify m sc;
    match r with
    | None => Ret (0, s)
    | Some (fast, m, comp) =>
        let sc := set_comp sc comp in
        let ifq := if (fast : bool) then sc_fastq sc else sc_snd sc in
        let put q := if fast then set_queues sc (sc_snd sc) q else set_queues sc q (sc_fastq sc) in
        if IF_QFULL ifq then Ret (ENOBUFS, set_sc s (sc_bump (put (IF_DROP ifq)) 0 0 0 1 0 0))
        else
          let sc := put (IF_ENQUEUE ifq m) in
          let s := set_sc s (set_if sc (changed (sc_if sc) now)) in
          if Clist.c_cc (t_outq (l_tp s)) =? 0 then s ← slstart now s; Ret (0, s) else Ret (0, s)
    end.

End driver.

(** ** Input *)

Definition buffer (mb : Mbuf.mstate) (c : Z) : list Z := default [] (Mbuf.clusters (Mbuf.pool mb) !! c).
Definition set_buffer (mb : Mbuf.mstate) (c : Z) (bs : list Z) : Mbuf.mstate :=
  let p := Mbuf.pool mb in
  Mbuf.with_pool (Mbuf.Pool (<[c := bs]> (Mbuf.clusters p)) (Mbuf.mclrefcnt p) (Mbuf.mclfree p) (Mbuf.mbmap p) (Mbuf.memalls p) (Mbuf.logged p)) mb.

Definition with_rcv (m : Mbuf.mbuf) (off len ext : Z) (dat : list Z) : Mbuf.mbuf :=
  Mbuf.Mb off len (Mbuf.m_type m) (Mbuf.m_flags m) len 1 dat ext (Mbuf.ext_size m).

(** The mbuf with the packet of [len] bytes at [sc_buf] of the input buffer [c],
    and the input buffer afterwards.  [rcvif] is this interface. *)
Definition sl_btom (sc : sl_softc) (c len : Z) (mb : Mbuf.mstate) : outcome (option Mbuf.mbuf * Z * Mbuf.mstate) :=
  match Mbuf.MGETHDR Mbuf.MT_DATA mb with
  | (None, mb) => Ret (None, c, mb)
  | (Some m, mb) =>
      if len >=? Mbuf.MHLEN then
        '(m, mb) ← Mbuf.MCLGET m mb;
        if negb (Mbuf.is_ext m) then Ret (None, c, Mbuf.MFREE m mb)
        else Ret (Some (with_rcv m (sc_buf sc) len c (Mbuf.m_dat m)), Mbuf.m_ext m, mb)
      else
        bs ← Mbuf.bread (buffer mb c) (sc_buf sc) len;
        d ← Mbuf.bwrite (Mbuf.m_dat m) (Mbuf.m_off m) bs;
        Ret (Some (with_rcv m (Mbuf.m_off m) len (Mbuf.m_ext m) d), c, mb)
  end.

Definition newpack (sc : sl_softc) : sl_softc :=
  let buf := SLBUFSIZE - SLMAX in set_input sc buf (sc_ep sc) buf (sc_flags sc) false.
Definition input_error (sc : sl_softc) : sl_softc := newpack (sc_bump sc 0 1 0 0 0 0).

(** The packet goes to [ipintrq]. *)
Definition sl_deliver (c len now : Z) (s : line) : outcome line :=
  '(m, ep, mb) ← sl_btom (l_sc s) c len (l_mb s);
  let s := set_mb s mb in
  match m with
  | None => Ret (set_sc s (input_error (l_sc s)))
  | Some m =>
      let sc := l_sc s in
      let sc := set_input sc (sc_mp sc) (Some ep) (sc_buf sc) (sc_flags sc) (sc_escape sc) in
      let sc := sc_bump sc 1 0 0 0 0 0 in
      let sc := set_if sc (changed (sc_if sc) now) in
      if IF_QFULL (l_ip s)
      then Ret (set_ip (set_sc (set_mb s (Mbuf.m_freem [m] (l_mb s))) (newpack (sc_bump sc 0 1 0 0 0 1))) (IF_DROP (l_ip s)))
      else Ret (set_ip (set_sc s (newpack sc)) (IF_ENQUEUE (l_ip s) m))
  end.

(** FRAME_END. *)
Definition sl_frame_end (big : bool) (c now : Z) (s : line) : outcome line :=
  let sc := l_sc s in
  let len := sc_mp sc - sc_buf sc in
  if len <? 3 then Ret (set_sc s (newpack sc))
  else
    let mem := buffer (l_mb s) c in
    if Z.land (b8 mem (sc_buf sc)) 0xf0 =? 0x40 then sl_deliver c len now s
    else
      '(mem, pos, len, flags, comp) ← sl_expand big (sc_flags sc) mem (sc_buf sc) len (sc_comp sc);
      let sc := set_comp (set_input sc (sc_mp sc) (sc_ep sc) pos flags (sc_escape sc)) comp in
      let s := set_mb (set_sc s sc) (set_buffer (l_mb s) c mem) in
      if len <=? 0 then Ret (set_sc s (input_error sc)) else sl_deliver c len now s.

(** The end of slclose; what ttywflush and if_down do is theirs. *)
Definition slclose (s : line) : line :=
  let tp := l_tp s in
  let s := set_tp s (Tty (t_outq tp) (t_carr tp) 0 false) in
  if t_sc tp then
    let sc := l_sc s in
    let s := match sc_ep sc with Some c => set_mb s (Mbuf.MCLFREE c (l_mb s)) | None => s end in
    set_sc s (Sc (sc_if sc) (sc_snd sc) (sc_fastq sc) false 0 None 0 (sc_flags sc) (sc_escape sc)
      (sc_bytessent sc) (sc_bytesrcvd sc) (sc_lasttime sc) (sc_starttime sc) (sc_abortcount sc) (sc_comp sc))
  else s.

(** The abort escapes: the state, and whether the line is to be closed. *)
Definition sl_abort (c now : Z) (sc : sl_softc) : sl_softc * bool :=
  let '(n, start) :=
    if (c =? ABT_ESC) && (now >=? sc_lasttime sc + ABT_WAIT)
    then (sc_abortcount sc + 1, if sc_abortcount sc + 1 =? 1 then now else sc_starttime sc)
    else (sc_abortcount sc, sc_starttime sc) in
  let n := if negb (n =? 0) && (now >=? start + ABT_RECYCLE) then 0 else n in
  if negb (n =? 0) && (n >=? ABT_SOFT) && (now >=? sc_lasttime sc + ABT_WAIT)
  then (set_abort sc (sc_lasttime sc) start n, true)
  else (set_abort sc now start n, false).

(** A character goes to the buffer, if there is room. *)
Definition sl_store (cl c : Z) (s : line) : outcome line :=
  let sc := l_sc s in
  if sc_mp sc <? SLBUFSIZE then
    mem ← Mbuf.bwrite (buffer (l_mb s) cl) (sc_mp sc) [c];
    Ret (set_mb (set_sc s (set_input sc (sc_mp sc + 1) (sc_ep sc) (sc_buf sc) (sc_flags sc) false)) (set_buffer (l_mb s) cl mem))
  else Ret (set_sc s (input_error sc)).

Definition slinput (big : bool) (c now : Z) (s : line) : outcome line :=
  if negb (t_sc (l_tp s)) then Ret s
  else if negb (t_carr (l_tp s)) then Ret s
  else
    let sc := l_sc s in
    let sc := set_bytes sc (sc_bytessent sc) (sc_bytesrcvd sc + 1) in
    let sc := set_if sc (with_bytes (sc_if sc) (if_ibytes (sc_if sc) + 1) (if_obytes (sc_if sc))) in
    let c := Z.land c 0xff in
    let '(sc, close) := if has (sc_flags sc) SC_ABORT then sl_abort c now sc else (sc, false) in
    let s := set_sc s sc in
    if (close : bool) then Ret (slclose s)
    else
      match sc_ep sc with
      | None => Fault
      | Some cl =>
          if c =? FRAME_ESCAPE then Ret (set_sc s (set_input sc (sc_mp sc) (sc_ep sc) (sc_buf sc) (sc_flags sc) true))
          else if c =? FRAME_END then sl_frame_end big cl now s
          else
            let c :=
              if c =? TRANS_FRAME_ESCAPE then (if sc_escape sc then FRAME_ESCAPE else c)
              else if c =? TRANS_FRAME_END then (if sc_escape sc then FRAME_END else c)
              else c in
            sl_store cl c s
      end.

(** The characters of the line, one after the other. *)
Fixpoint slinputs (big : bool) (cs : list Z) (now : Z) (s : line) : outcome line :=
  match cs with
  | [] => Ret s
  | c :: cs => s ← slinput big c now s; slinputs big cs now s
  end.

(** ** Framing *)

Definition special (c : Z) : bool := (c =? FRAME_ESCAPE) || (c =? FRAME_END).
(** What a character is sent as. *)
Definition escape1 (c : Z) : list Z :=
  if c =? FRAME_ESCAPE then [FRAME_ESCAPE; TRANS_FRAME_ESCAPE] else if c =? FRAME_END then [FRAME_ESCAPE; TRANS_FRAME_END] else [c].
Definition escape (l : list Z) : list Z := concat (escape1 <$> l).
(** What a packet is sent as, on an idle line or not. *)
Definition frame (idle : bool) (m : packet) : list Z := (if idle then [FRAME_END] else []) ++ escape (concat m) ++ [FRAME_END].

Lemma escape_app a b : escape (a ++ b) = escape a ++ escape b.
Proof. unfold escape. by rewrite fmap_app, concat_app. Qed.
Lemma escape_cons c l : escape (c :: l) = escape1 c ++ escape l.
Proof. done. Qed.
Lemma escape_le l : (length (escape l) <= 2 * length l)%nat.
Proof. induction l as [|c l IH]; [done|]. rewrite escape_cons, length_app. unfold escape1. destruct (c =? FRAME_ESCAPE), (c =? FRAME_END); cbn in *; lia. Qed.
Lemma plain_ok l : l = fst (plain l) ++ snd (plain l) /\ escape (fst (plain l)) = fst (plain l) /\
  match snd (plain l) with [] => True | c :: _ => special c = true end.
Proof.
  induction l as [|c l IH]; [done|]. cbn [plain]. destruct ((c =? FRAME_ESCAPE) || (c =? FRAME_END)) eqn:E; [done|].
  destruct (plain l) as [a b]. cbn [fst snd] in *. destruct IH as (IH1 & IH2 & IH3). split; [by rewrite IH1 at 1|]. split; [|done].
  rewrite escape_cons, IH2. apply orb_false_iff in E as [E1 E2]. unfold escape1. by rewrite E1, E2.
Qed.
Lemma escape_special c : special c = true ->
  escape1 c = [FRAME_ESCAPE; if c =? FRAME_ESCAPE then TRANS_FRAME_ESCAPE else TRANS_FRAME_END].
Proof. unfold special, escape1. destruct (c =? FRAME_ESCAPE); [done|]. cbn. by intros ->. Qed.

(** ** The output queue *)

(** The queue [q], with blocks and free blocks [own], holds the bytes [bs]. *)
Definition out (own : list Z) (cm : Clist.ttymem) (q : Clist.clist) (bs : list Z) : Prop :=
  exists l, Clist.holds own cm q l /\ fst <$> l = bs.
Definition total (own : list Z) : Z := Clist.CBSIZE * len own.

Lemma out_cc own cm q bs : out own cm q bs -> Clist.c_cc q = len bs.
Proof.
  intros (l & (b & fl & _ & _ & _ & Hq) & <-). unfold len. rewrite length_fmap. by eapply Clist.qrep_len.
Qed.
Lemma out_room own cm q bs : out own cm q bs -> Clist.cfreecount cm + len bs <= total own /\ total own < Clist.capacity cm q + len bs + Clist.CBSIZE.
Proof.
  intros (l & (b & fl & Hp & Hi) & <-). unfold len, total. rewrite length_fmap. destruct (Clist.capacity_total _ _ _ _ _ Hi).
  unfold len. rewrite <- Hp. lia.
Qed.

Lemma capacity_free cm q : Clist.capacity cm q < Clist.cfreecount cm + Clist.CBLOCK.
Proof. unfold Clist.capacity. change Clist.CBLOCK with 64. pose proof (Z.mod_pos_bound (- Clist.c_cl q) 64). case_match; lia. Qed.

(** There is room for [n] more, whatever the list's first block misses. *)
Definition fits (own bs : list Z) (n : Z) : Prop := len bs + n + Clist.CBSIZE <= total own + 1.

Lemma out_putc own cm q bs c : out own cm q bs -> fits own bs 1 ->
  exists cm' q', Clist.putc cm c q = Ret (0, cm', q') /\ out own cm' q' (bs ++ [u8 c]) /\ Clist.frame own cm cm'.
Proof.
  unfold fits. intros Ho Hr. destruct (out_room _ _ _ _ Ho) as [_ Hc]. destruct Ho as (l & (b & fl & Hp & Hi) & <-).
  destruct (Clist.putc_ok cm c q b fl l Hi) as [H _]. destruct H as (cm' & q' & b' & fl' & qt & E & _ & Hi' & Hp' & Hf & _); [lia|].
  exists cm', q'. split; [exact E|]. split; [|intros x Hx; apply Hf; by rewrite Hp].
  exists (l ++ [(u8 c, qt)]). split; [exists b', fl'; split; [by rewrite Hp'|done]|]. by rewrite fmap_app.
Qed.
Lemma out_b_to_q own cm q bs l : out own cm q bs -> bytes l -> fits own bs (len l) ->
  exists cm' q', Clist.b_to_q cm l (len l) q = Ret (0, cm', q') /\ out own cm' q' (bs ++ l) /\ Clist.frame own cm cm'.
Proof.
  unfold fits. intros Ho Hb Hr. destruct (out_room _ _ _ _ Ho) as [_ Hc]. destruct Ho as (l0 & (b & fl & Hp & Hi) & <-).
  destruct (Clist.b_to_q_ok cm l q b fl l0 Hi Hb) as (cm' & q' & l2 & E & (b' & fl' & Hi' & Hp' & Hf) & Hl). fold (len l) in *.
  rewrite Z.min_l in E, Hl by lia. rewrite Z.sub_diag in E. exists cm', q'. split; [exact E|]. split; [|intros x Hx; apply Hf; by rewrite Hp].
  exists (l0 ++ l2). split; [exists b', fl'; split; [by rewrite Hp'|done]|]. rewrite fmap_app, Hl, take_ge; [done|unfold len; lia].
Qed.

Lemma fits_app own bs l n m : fits own bs n -> len l + m <= n -> fits own (bs ++ l) m.
Proof. unfold fits. rewrite len_app. lia. Qed.
Lemma len_cons (c : Z) l : len (c :: l) = 1 + len l.
Proof. unfold len. cbn [length]. lia. Qed.
Lemma len_nonneg (l : list Z) : 0 <= len l.
Proof. unfold len. lia. Qed.

Lemma send_mbuf_ok own : forall fuel l cm q sent bs, (length l < fuel)%nat -> bytes l -> out own cm q bs -> fits own bs (len (escape l)) ->
  exists cm' q', send_mbuf fuel l cm q sent = Ret (cm', q', sent + len (escape l)) /\ out own cm' q' (bs ++ escape l) /\ Clist.frame own cm cm'.
Proof.
  induction fuel as [|fuel IH]; intros l cm q sent bs Hf Hb Ho Hr; [lia|]. cbn [send_mbuf].
  destruct l as [|c0 l0] eqn:El.
  { exists cm, q. cbn. rewrite app_nil_r, Z.add_0_r. split; [done|]. split; [done|apply Clist.frame_refl]. }
  rewrite <- El in *. clear El c0 l0. destruct (plain_ok l) as (P1 & P2 & P3). destruct (plain l) as [bp cp]. cbn [fst snd] in *.
  assert (Hbp : bytes bp /\ bytes cp) by (rewrite P1 in Hb; by apply Forall_app in Hb). destruct Hbp as [Hbp Hcp].
  assert (Ee : escape l = bp ++ escape cp) by (rewrite P1, escape_app, P2; done). rewrite Ee, len_app in *.
  pose proof (len_nonneg (escape cp)). fold (len bp).
  assert (H1 : exists cm1 q1, (if len bp >? 0 then Clist.b_to_q cm bp (len bp) q else Ret (0, cm, q)) = Ret (0, cm1, q1) /\ out own cm1 q1 (bs ++ bp) /\ Clist.frame own cm cm1).
  { destruct (Z.gtb_spec (len bp) 0) as [Hp|Hp].
    - apply out_b_to_q; [done|done|]. unfold fits in *. lia.
    - assert (bp = []) as -> by (apply nil_length_inv; unfold len in Hp; lia). exists cm, q. rewrite app_nil_r. split; [done|]. split; [done|apply Clist.frame_refl]. }
  destruct H1 as (cm1 & q1 & -> & Ho1 & Hf1). bind. cbn [negb Z.eqb].
  assert (Hr1 : fits own (bs ++ bp) (len (escape cp))) by (eapply fits_app; [exact Hr|lia]).
  destruct cp as [|c cp]; [exists cm1, q1; cbn; by rewrite Z.add_0_r, app_nil_r|].
  apply Forall_cons in Hcp as [_ Hcp]. rewrite escape_cons, (escape_special c P3) in *. set (tr := if c =? FRAME_ESCAPE then _ else _) in *.
  cbn [app] in *. rewrite !len_cons in *. pose proof (len_nonneg (escape cp)).
  destruct (out_putc own cm1 q1 (bs ++ bp) FRAME_ESCAPE Ho1) as (cm2 & q2 & -> & Ho2 & Hf2); [unfold fits in *; lia|]. bind. cbn [negb Z.eqb].
  change (u8 FRAME_ESCAPE) with FRAME_ESCAPE in *.
  assert (Hr2 : fits own ((bs ++ bp) ++ [FRAME_ESCAPE]) (1 + len (escape cp))) by (eapply fits_app; [exact Hr1|rewrite len_cons; change (len []) with 0; lia]).
  destruct (out_putc own cm2 q2 _ tr Ho2) as (cm3 & q3 & -> & Ho3 & Hf3); [unfold fits in *; lia|]. bind. cbn [negb Z.eqb].
  assert (Etr : u8 tr = tr) by (unfold tr; by destruct (_ =? _)). rewrite Etr in Ho3.
  destruct (IH cp cm3 q3 (sent + len bp + 2) (((bs ++ bp) ++ [FRAME_ESCAPE]) ++ [tr])) as (cm4 & q4 & -> & Ho4 & Hf4); [|done|done|eapply fits_app; [exact Hr2|rewrite len_cons; change (len []) with 0; lia]|].
  { rewrite P1, length_app in Hf. cbn [length] in Hf. lia. }
  exists cm4, q4. split; [do 2 f_equal; lia|]. split; [by rewrite <- !app_assoc in Ho4; rewrite <- ?app_assoc|].
  eapply Clist.frame_trans; [exact Hf1|]. eapply Clist.frame_trans; [exact Hf2|]. by eapply Clist.frame_trans.
Qed.

Lemma send_mbufs_ok own : forall m cm q sent bs, Forall bytes m -> out own cm q bs -> fits own bs (len (escape (concat m))) ->
  exists cm' q', send_mbufs m cm q sent = Ret (cm', q', sent + len (escape (concat m))) /\ out own cm' q' (bs ++ escape (concat m)) /\ Clist.frame own cm cm'.
Proof.
  induction m as [|l m IH]; intros cm q sent bs Hb Ho Hr; cbn [send_mbufs concat].
  { exists cm, q. cbn. rewrite app_nil_r, Z.add_0_r. split; [done|]. split; [done|apply Clist.frame_refl]. }
  apply Forall_cons in Hb as [Hl Hb]. cbn [concat] in Hr. rewrite escape_app, len_app in *. pose proof (len_nonneg (escape (concat m))).
  destruct (send_mbuf_ok own (S (length l)) l cm q sent bs) as (cm1 & q1 & -> & Ho1 & Hf1); [lia|done|done|unfold fits in *; lia|]. bind.
  destruct (IH cm1 q1 (sent + len (escape l)) (bs ++ escape l) Hb Ho1) as (cm2 & q2 & -> & Ho2 & Hf2); [eapply fits_app; [exact Hr|lia]|].
  exists cm2, q2. split; [do 2 f_equal; lia|]. rewrite app_assoc. split; [done|]. by eapply Clist.frame_trans.
Qed.

(** What sending a packet changes. *)
Record sent_by (own : list Z) (s s' : line) (bs bs' : list Z) : Prop := SentBy {
  sb_out : out own (l_cm s') (t_outq (l_tp s')) bs';
  sb_frame : Clist.frame own (l_cm s) (l_cm s');
  sb_wire : l_wire s' = l_wire s;
  sb_rest : l_mb s' = l_mb s /\ l_ip s' = l_ip s /\ t_sc (l_tp s') = t_sc (l_tp s) /\ t_carr (l_tp s') = t_carr (l_tp s);
  sb_sc : sc_snd (l_sc s') = sc_snd (l_sc s) /\ sc_fastq (l_sc s') = sc_fastq (l_sc s) /\ sc_comp (l_sc s') = sc_comp (l_sc s) /\
    sc_flags (l_sc s') = sc_flags (l_sc s) /\ sc_ttyp (l_sc s') = sc_ttyp (l_sc s)
}.

Lemma send_packet_ok own m s bs : Forall bytes m -> out own (l_cm s) (t_outq (l_tp s)) bs -> fits own bs (2 + len (escape (concat m))) ->
  exists s', send_packet m s = Ret s' /\ sent_by own s s' bs (bs ++ frame (len bs =? 0) m) /\
    if_opackets (sc_if (l_sc s')) = if_opackets (sc_if (l_sc s)) + 1 /\ if_collisions (sc_if (l_sc s')) = if_collisions (sc_if (l_sc s)).
Proof.
  intros Hb Ho Hr. unfold send_packet. rewrite (out_cc _ _ _ _ Ho). set (q0 := t_outq (l_tp s)) in *. set (pre := if len bs =? 0 then [FRAME_END] else []).
  assert (H0 : exists cm q sent, (if len bs =? 0 then '(_, cm, q) ← Clist.putc (l_cm s) FRAME_END q0; Ret (cm, q, sc_bytessent (l_sc s) + 1)
      else Ret (l_cm s, q0, sc_bytessent (l_sc s))) = Ret (cm, q, sent) /\ out own cm q (bs ++ pre) /\ Clist.frame own (l_cm s) cm /\ len pre <= 1).
  { unfold pre. destruct (len bs =? 0).
    - destruct (out_putc own (l_cm s) q0 bs FRAME_END Ho) as (cm & q & -> & Ho1 & Hf); [unfold fits in *; pose proof (len_nonneg (escape (concat m))); lia|]. bind.
      by eexists cm, q, _.
    - exists (l_cm s), q0, (sc_bytessent (l_sc s)). rewrite app_nil_r. split; [done|]. split; [done|]. split; [apply Clist.frame_refl|done]. }
  destruct H0 as (cm & q & sent & -> & Ho0 & Hf0 & Hp). bind.
  assert (Hr0 : fits own (bs ++ pre) (1 + len (escape (concat m)))) by (eapply fits_app; [exact Hr|lia]).
  destruct (send_mbufs_ok own m cm q sent (bs ++ pre) Hb Ho0) as (cm1 & q1 & -> & Ho1 & Hf1); [unfold fits in *; lia|]. bind.
  destruct (out_putc own cm1 q1 _ FRAME_END Ho1) as (cm2 & q2 & -> & Ho2 & Hf2); [eapply fits_app; [exact Hr0|lia]|]. bind.
  cbn [negb Z.eqb]. bind. eexists. split; [reflexivity|]. split; [|cbn; lia]. constructor; try done.
  - cbn [set_out l_cm l_tp t_outq]. unfold frame. fold pre. change (u8 FRAME_END) with FRAME_END in Ho2. by rewrite !app_assoc in *.
  - eapply Clist.frame_trans; [exact Hf0|]. by eapply Clist.frame_trans.
  - cbn. apply app_nil_r.
Qed.

(** *** slstart *)

(** The clists are low with [rest] on the output queue, or there are enough: between
    the two bounds it depends on how the characters lie in the blocks. *)
Definition low (own rest : list Z) : Prop := total own < CLISTRESERVE + SLMTU + len rest + Clist.CBSIZE + Clist.CBLOCK.
Definition enough (own rest : list Z) : Prop := CLISTRESERVE + SLMTU + len rest <= total own.

(** What is on the output queue before the packets, what they put on it, how many
    were sent, how many were flushed, and what is on the queue afterwards.  In each
    round the driver first takes characters from the front and leaves [rest]. *)
Inductive rounds (own : list Z) : list Z -> list packet -> list Z -> Z -> Z -> list Z -> Prop :=
  | RoundsEnd w0 rest : rounds own (w0 ++ rest) [] [] 0 0 rest
  | RoundsFrame w0 rest m ms w n k bs : len rest <= SLIP_HIWAT -> enough own rest ->
      rounds own (rest ++ frame (len rest =? 0) m) ms w n k bs -> rounds own (w0 ++ rest) (m :: ms) (frame (len rest =? 0) m ++ w) (n + 1) k bs
  | RoundsFlush w0 rest m ms w n k bs : len rest <= SLIP_HIWAT -> low own rest ->
      rounds own rest ms w n k bs -> rounds own (w0 ++ rest) (m :: ms) w n (k + 1) bs.

(** The frames alone. *)
Inductive sends : list packet -> list Z -> Z -> Z -> Prop :=
  | SendsNil : sends [] [] 0 0
  | SendsFrame idle m ms w n k : sends ms w n k -> sends (m :: ms) (frame idle m ++ w) (n + 1) k
  | SendsFlush m ms w n k : sends ms w n k -> sends (m :: ms) w n (k + 1).
Lemma rounds_sends own bs ms w n k bs' : rounds own bs ms w n k bs' -> sends ms w n k.
Proof. induction 1; by constructor. Qed.
Lemma rounds_app own bs a w1 n1 k1 bs1 b w2 n2 k2 bs2 : rounds own bs a w1 n1 k1 bs1 -> rounds own bs1 b w2 n2 k2 bs2 ->
  rounds own bs (a ++ b) (w1 ++ w2) (n1 + n2) (k1 + k2) bs2.
Proof.
  intros Ha Hb. induction Ha as [w0 rest|w0 rest m ms w n k bs Hw He Ha IH|w0 rest m ms w n k bs Hw He Ha IH]; cbn [app].
  - rewrite !Z.add_0_l. inversion Hb; subst; rewrite app_assoc; by constructor.
  - rewrite <- app_assoc. replace (n + 1 + n2) with (n + n2 + 1) by lia. constructor; [done|done|by apply IH].
  - replace (k + 1 + k2) with (k + k2 + 1) by lia. constructor; [done|done|by apply IH].
Qed.
(** With enough clists for a full output queue nothing is flushed. *)
Lemma rounds_kept own bs ms w n k bs' : CLISTRESERVE + SLMTU + SLIP_HIWAT + Clist.CBSIZE + Clist.CBLOCK <= total own -> rounds own bs ms w n k bs' -> k = 0.
Proof. intros Ht. induction 1; [done|done|]. unfold low in *. lia. Qed.

(** A packet that the clists reserved are enough for. *)
Definition sendable (m : packet) : Prop := Forall bytes m /\ len (escape (concat m)) + Clist.CBSIZE + 1 <= CLISTRESERVE + SLMTU.
Definition waiting (s : line) : list packet := ifq_head (sc_fastq (l_sc s)) ++ ifq_head (sc_snd (l_sc s)).
Definition same_rest (s s' : line) : Prop :=
  l_mb s' = l_mb s /\ l_ip s' = l_ip s /\ t_sc (l_tp s') = t_sc (l_tp s) /\ t_carr (l_tp s') = t_carr (l_tp s) /\
  sc_comp (l_sc s') = sc_comp (l_sc s) /\ sc_flags (l_sc s') = sc_flags (l_sc s) /\ sc_ttyp (l_sc s') = sc_ttyp (l_sc s) /\
  ifq_maxlen (sc_fastq (l_sc s')) = ifq_maxlen (sc_fastq (l_sc s)) /\ ifq_maxlen (sc_snd (l_sc s')) = ifq_maxlen (sc_snd (l_sc s)).

(** The packets [done] left the queues: the fast ones first. *)
Definition left_by (s s' : line) (done : list packet) : Prop :=
  exists a b, done = a ++ b /\ ifq_head (sc_fastq (l_sc s)) = a ++ ifq_head (sc_fastq (l_sc s')) /\
    ifq_head (sc_snd (l_sc s)) = b ++ ifq_head (sc_snd (l_sc s')) /\ (b = [] \/ ifq_head (sc_fastq (l_sc s')) = []).

Record started (own : list Z) (s s' : line) (bs bs' : list Z) (done : list packet) (n k : Z) : Prop := Started {
  st_out : out own (l_cm s') (t_outq (l_tp s')) bs';
  st_frame : Clist.frame own (l_cm s) (l_cm s');
  st_sends : exists w, rounds own bs done w n k bs' /\ l_wire s' ++ bs' = (l_wire s ++ bs) ++ w;
  st_left : left_by s s' done;
  st_same : same_rest s s';
  st_count : if_opackets (sc_if (l_sc s')) = if_opackets (sc_if (l_sc s)) + n /\ if_collisions (sc_if (l_sc s')) = if_collisions (sc_if (l_sc s)) + k
}.

Lemma same_rest_trans a b c : same_rest a b -> same_rest b c -> same_rest a c.
Proof. unfold same_rest. intros H1 H2. conj. splits; congruence. Qed.
Lemma started_trans own a b c bs1 bs2 bs3 d1 d2 n1 n2 k1 k2 : started own a b bs1 bs2 d1 n1 k1 -> started own b c bs2 bs3 d2 n2 k2 ->
  left_by a c (d1 ++ d2) ->
  started own a c bs1 bs3 (d1 ++ d2) (n1 + n2) (k1 + k2).
Proof.
  intros [A1 A2 (w1 & A3 & A4) A5 A6 A7] [B1 B2 (w2 & B3 & B4) B5 B6 B7] H. constructor.
  - done.
  - by eapply Clist.frame_trans.
  - exists (w1 ++ w2). split; [by eapply rounds_app|by rewrite B4, A4, <- !app_assoc].
  - done.
  - by eapply same_rest_trans.
  - lia.
Qed.

Lemma left_none s s' : sc_fastq (l_sc s') = sc_fastq (l_sc s) -> sc_snd (l_sc s') = sc_snd (l_sc s) -> left_by s s' [].
Proof. intros E1 E2. exists [], []. rewrite E1, E2. splits; try done. by left. Qed.
Lemma left_same a b c d : sc_fastq (l_sc b) = sc_fastq (l_sc a) -> sc_snd (l_sc b) = sc_snd (l_sc a) -> left_by b c d -> left_by a c d.
Proof. unfold left_by. by intros -> ->. Qed.
Lemma left_fast a b c m d : ifq_head (sc_fastq (l_sc a)) = m :: ifq_head (sc_fastq (l_sc b)) -> sc_snd (l_sc b) = sc_snd (l_sc a) -> left_by b c d -> left_by a c (m :: d).
Proof. intros E1 E2 (x & y & -> & E3 & E4 & H). exists (m :: x), y. rewrite E1, E3, <- E2. by splits. Qed.
Lemma left_snd a b c m d : ifq_head (sc_fastq (l_sc a)) = [] -> ifq_head (sc_fastq (l_sc b)) = [] ->
  ifq_head (sc_snd (l_sc a)) = m :: ifq_head (sc_snd (l_sc b)) -> left_by b c d -> left_by a c (m :: d).
Proof.
  intros E1 E2 E3 (x & y & -> & E4 & E5 & H). rewrite E2 in E4. symmetry in E4. apply app_nil in E4 as [-> E4].
  exists [], (m :: y). rewrite E1, E3, E4, E5. splits; try done. by right.
Qed.

Section driver_laws.
Context (oproc : Clist.ttymem -> Clist.clist -> outcome (list Z * Clist.ttymem * Clist.clist)) (own : list Z).
(** The driver takes characters from the front of the queue. *)
Hypothesis oproc_takes : forall cm q bs, out own cm q bs ->
  exists w cm' q' rest, oproc cm q = Ret (w, cm', q') /\ bs = w ++ rest /\ out own cm' q' rest /\ Clist.frame own cm cm'.

(** The call of the driver. *)
Lemma call_driver s bs : out own (l_cm s) (t_outq (l_tp s)) bs ->
  exists s1 stop bs1, (if negb (Clist.c_cc (t_outq (l_tp s)) =? 0) then '(w, cm, q) ← oproc (l_cm s) (t_outq (l_tp s)); Ret (set_out s cm q w, Clist.c_cc q >? SLIP_HIWAT)
     else Ret (s, false)) = Ret (s1, stop) /\ started own s s1 bs bs1 [] 0 0 /\ l_sc s1 = l_sc s /\ (if stop : bool then SLIP_HIWAT < len bs1 else len bs1 <= SLIP_HIWAT).
Proof.
  intros Ho. rewrite (out_cc _ _ _ _ Ho). destruct (Z.eqb_spec (len bs) 0) as [E|_]; cbn [negb].
  - exists s, false, bs. split; [done|]. split; [|split; [done|rewrite E; by vm_compute]].
    constructor; [done|apply Clist.frame_refl|exists []; split; [apply (RoundsEnd own [] bs)|by rewrite app_nil_r]|by apply left_none|done|lia].
  - destruct (oproc_takes _ _ _ Ho) as (w & cm & q & rest & -> & -> & Ho1 & Hf). bind. eexists _, _, rest. split; [reflexivity|]. split; [|split; [done|]].
    + constructor; [done|done|exists []; split; [constructor|]|by apply left_none|done|cbn; lia]. cbn [set_out l_wire]. by rewrite app_nil_r, <- !app_assoc.
    + rewrite (out_cc _ _ _ _ Ho1). destruct (Z.gtb_spec (len rest) SLIP_HIWAT); lia.
Qed.

(** A round: the packet [m], taken from a queue, is sent or flushed. *)
Lemma round_ok s m fastq snd now bs : out own (l_cm s) (t_outq (l_tp s)) bs -> len bs <= SLIP_HIWAT -> sendable m ->
  ifq_maxlen fastq = ifq_maxlen (sc_fastq (l_sc s)) -> ifq_maxlen snd = ifq_maxlen (sc_snd (l_sc s)) ->
  let sc := set_queues (l_sc s) snd fastq in
  let sc := set_if sc (changed (sc_if sc) now) in
  exists s' bs' n k, (if Clist.cfreecount (l_cm s) <? CLISTRESERVE + SLMTU then Ret (set_sc s (sc_bump sc 0 0 0 0 1 0)) else send_packet m (set_sc s sc)) = Ret s' /\
    sc_fastq (l_sc s') = fastq /\ sc_snd (l_sc s') = snd /\ (left_by s s' [m] -> started own s s' bs bs' [m] n k).
Proof.
  intros Ho Hw [Hb Hm] E1 E2 sc0 sc. destruct (out_room _ _ _ _ Ho) as [Hr Hr2]. destruct (Z.ltb_spec (Clist.cfreecount (l_cm s)) (CLISTRESERVE + SLMTU)) as [Hlow|Hroom].
  - eexists _, bs, 0, 1. split; [reflexivity|]. split; [done|]. split; [done|]. intros Hl. constructor; [done|apply Clist.frame_refl| |done|by splits|cbn; lia].
    exists []. split; [apply (RoundsFlush own [] bs m [] [] 0 0); [done| |apply (RoundsEnd own [] bs)]|by rewrite app_nil_r].
    pose proof (capacity_free (l_cm s) (t_outq (l_tp s))). unfold low. lia.
  - destruct (send_packet_ok own m (set_sc s sc) bs Hb Ho) as (s' & -> & [B1 B2 B3 B4 B5] & C1 & C2); [unfold fits; lia|]. cbn [set_sc l_cm l_wire l_tp l_mb l_ip l_sc] in *.
    destruct B4 as (B41 & B42 & B43 & B44), B5 as (B51 & B52 & B53 & B54 & B55).
    eexists s', _, 1, 0. split; [reflexivity|]. split; [done|]. split; [done|]. intros Hl. constructor; [exact B1|done| |done| |].
    + exists (frame (len bs =? 0) m ++ []). split; [|by rewrite B3, app_nil_r, app_assoc].
      apply (RoundsFrame own [] bs m [] [] 0 0); [done|unfold enough; lia|apply (RoundsEnd own [])].
    + unfold same_rest. rewrite B51, B52. by splits.
    + rewrite C1, C2. cbn. lia.
Qed.

Lemma slstart_loop_ok now : forall fuel s bs, (queued s < fuel)%nat -> out own (l_cm s) (t_outq (l_tp s)) bs -> Forall sendable (waiting s) ->
  exists s' bs' done n k, slstart_loop oproc fuel now s = Ret s' /\ started own s s' bs bs' done n k /\
    (t_sc (l_tp s) = true -> waiting s' = [] \/ SLIP_HIWAT < len bs').
Proof.
  induction fuel as [|fuel IH]; intros s bs Hq Ho Hok; [lia|]. cbn [slstart_loop].
  destruct (call_driver s bs Ho) as (s1 & stop & bs1 & -> & S1 & Esc & Hst). bind.
  assert (Hsc : t_sc (l_tp s1) = t_sc (l_tp s)) by apply S1.
  destruct (stop || negb (t_sc (l_tp s1))) eqn:Estop.
  { exists s1, bs1, [], 0, 0. split; [done|]. split; [done|]. intros Ht. rewrite Hsc, Ht in Estop. destruct stop; [|done]. by right. }
  apply orb_false_iff in Estop as [-> Ht]. apply negb_false_iff in Ht.
  assert (Hgo : forall m fastq snd, sendable m -> (length (ifq_head fastq) + length (ifq_head snd) < fuel)%nat -> Forall sendable (ifq_head fastq ++ ifq_head snd) ->
    ifq_maxlen fastq = ifq_maxlen (sc_fastq (l_sc s)) -> ifq_maxlen snd = ifq_maxlen (sc_snd (l_sc s)) ->
    (forall s2 c d, sc_fastq (l_sc s2) = fastq -> sc_snd (l_sc s2) = snd -> left_by s2 c d -> left_by s c (m :: d)) ->
    let sc := set_queues (l_sc s1) snd fastq in let sc := set_if sc (changed (sc_if sc) now) in
    exists s' bs' done n k, (if Clist.cfreecount (l_cm s1) <? CLISTRESERVE + SLMTU then slstart_loop oproc fuel now (set_sc s1 (sc_bump sc 0 0 0 0 1 0))
      else s ← send_packet m (set_sc s1 sc); slstart_loop oproc fuel now s) = Ret s' /\ started own s s' bs bs' done n k /\
    (t_sc (l_tp s) = true -> waiting s' = [] \/ SLIP_HIWAT < len bs')).
  { intros m fastq snd Hm Hf Hall E1 E2 Hleft sc0 sc.
    destruct (round_ok s1 m fastq snd now bs1 (st_out _ _ _ _ _ _ _ _ S1) Hst Hm) as (s2 & bs2 & n & k & E & F1 & F2 & S2); [by rewrite Esc|by rewrite Esc|].
    fold sc0 in E. fold sc in E.
    assert (L2 : left_by s1 s2 [m]).
    { apply (left_same s1 s); [by rewrite Esc|by rewrite Esc|]. apply (Hleft s2 s2 []); [done|done|by apply left_none]. }
    specialize (S2 L2). destruct (IH s2 bs2) as (s' & bs' & d & n' & k' & E3 & S3 & H3).
    { unfold queued. by rewrite F1, F2. }
    { apply S2. }
    { unfold waiting. by rewrite F1, F2. }
    exists s', bs', ([m] ++ d), (n + n'), (k + k'). split; [|split].
    - destruct (_ <? _); [injection E as <-; exact E3|]. rewrite E. bind. exact E3.
    - assert (L3 : left_by s s' (m :: d)) by (eapply Hleft; [exact F1|exact F2|apply S3]).
      assert (L4 : left_by s1 s' (m :: d)) by (by apply (left_same s1 s); rewrite ?Esc).
      pose proof (started_trans _ _ _ _ _ _ _ _ _ _ _ _ _ S2 S3 L4) as S4.
      exact (started_trans _ _ _ _ _ _ _ _ _ _ _ _ _ S1 S4 L3).
    - intros Ht'. apply H3. destruct (st_same _ _ _ _ _ _ _ _ S2) as (_ & _ & -> & _). exact Ht. }
  rewrite Esc in Hgo. rewrite Esc. unfold IF_DEQUEUE. unfold queued in Hq. unfold waiting in Hok.
  destruct (ifq_head (sc_fastq (l_sc s))) as [|m f] eqn:Ef; [destruct (ifq_head (sc_snd (l_sc s))) as [|m f] eqn:Es|].
  - exists s1, bs1, [], 0, 0. split; [done|]. split; [done|]. intros _. left. unfold waiting. by rewrite Esc, Ef, Es.
  - apply Forall_cons in Hok as [H1 H2]. apply Hgo; cbn [ifq_head ifq_maxlen]; try done; [|by rewrite Ef|].
    + rewrite Ef. cbn in *. lia.
    + intros s2 c d F1 F2 L. eapply (left_snd s s2); [by rewrite Ef|by rewrite F1|by rewrite Es, F2|exact L].
  - apply Forall_cons in Hok as [H1 H2]. apply Hgo; cbn [ifq_head ifq_maxlen]; try done.
    + cbn in *. lia.
    + intros s2 c d F1 F2 L. eapply (left_fast s s2); [by rewrite Ef, F1|by rewrite F2|exact L].
Qed.
End driver_laws.

(** ** Unframing *)

(** The receiver has [bs] of a packet in its buffer, the cluster [c]; the last
    character was an escape or not. *)
Record ready (s : line) (c : Z) (bs : list Z) (esc : bool) : Prop := Ready {
  rd_tp : t_sc (l_tp s) = true /\ t_carr (l_tp s) = true;
  rd_ep : sc_ep (l_sc s) = Some c;
  rd_ptrs : sc_buf (l_sc s) = BUFOFFSET /\ sc_mp (l_sc s) = BUFOFFSET + len bs;
  rd_esc : sc_escape (l_sc s) = esc;
  rd_abort : has (sc_flags (l_sc s)) SC_ABORT = false;
  rd_mem : exists room tl, buffer (l_mb s) c = room ++ bs ++ tl /\ len room = BUFOFFSET /\ len bs + len tl = SLMAX
}.

(** Only the contents of the buffer, its pointers and the counts of characters may
    differ. *)
Record quiet (s s' : line) (c : Z) : Prop := Quiet {
  qt_mb : l_mb s' = l_mb s \/ exists bs, l_mb s' = set_buffer (l_mb s) c bs;
  qt_ip : l_ip s' = l_ip s;
  qt_sc : sc_comp (l_sc s') = sc_comp (l_sc s) /\ sc_flags (l_sc s') = sc_flags (l_sc s);
  qt_if : if_ierrors (sc_if (l_sc s')) = if_ierrors (sc_if (l_sc s)) /\ if_ipackets (sc_if (l_sc s')) = if_ipackets (sc_if (l_sc s)) /\
    if_iqdrops (sc_if (l_sc s')) = if_iqdrops (sc_if (l_sc s))
}.

Lemma buffer_set mb c bs : buffer (set_buffer mb c bs) c = bs.
Proof. unfold buffer, set_buffer. cbn. by rewrite lookup_insert_eq. Qed.
Lemma set_buffer_twice mb c a b : set_buffer (set_buffer mb c a) c b = set_buffer mb c b.
Proof. unfold set_buffer. cbn. by rewrite insert_insert_eq. Qed.
Lemma quiet_refl s c : quiet s s c.
Proof. constructor; try done. by left. Qed.
Lemma quiet_trans a b d c : quiet a b c -> quiet b d c -> quiet a d c.
Proof.
  intros [A1 A2 A3 A4] [B1 B2 B3 B4]. conj. constructor; [|congruence|split; congruence|splits; congruence].
  destruct A1 as [A1|[x A1]], B1 as [B1|[y B1]]; rewrite B1, A1; [by left|right; by eexists..|right]. exists y. apply set_buffer_twice.
Qed.

(** slinput after its guards. *)
Definition counted (s : line) : line :=
  let sc := set_bytes (l_sc s) (sc_bytessent (l_sc s)) (sc_bytesrcvd (l_sc s) + 1) in
  set_sc s (set_if sc (with_bytes (sc_if sc) (if_ibytes (sc_if sc) + 1) (if_obytes (sc_if sc)))).
Definition handle (big : bool) (cl c now : Z) (s : line) : outcome line :=
  let sc := l_sc s in
  if c =? FRAME_ESCAPE then Ret (set_sc s (set_input sc (sc_mp sc) (sc_ep sc) (sc_buf sc) (sc_flags sc) true))
  else if c =? FRAME_END then sl_frame_end big cl now s
  else sl_store cl (if c =? TRANS_FRAME_ESCAPE then (if sc_escape sc then FRAME_ESCAPE else c)
                    else if c =? TRANS_FRAME_END then (if sc_escape sc then FRAME_END else c) else c) s.

Lemma counted_ready s c bs esc : ready s c bs esc -> ready (counted s) c bs esc /\ quiet s (counted s) c.
Proof. intros [A1 A2 A3 A4 A5 A6]. split; [by constructor|]. constructor; try done. by left. Qed.
Lemma slinput_ready big c now s cl bs esc : ready s cl bs esc -> 0 <= c < 256 -> slinput big c now s = handle big cl c now (counted s).
Proof.
  intros [[A1 A1'] A2 A3 A4 A5 A6] Hc. unfold slinput. rewrite A1, A1'. cbn [negb].
  assert (Ec : Z.land c 255 = c) by (change 255 with (Z.ones 8); rewrite Z.land_ones by lia; apply Z.mod_small; lia). rewrite Ec.
  cbn [set_if set_bytes sc_flags sc_ep]. rewrite A5. cbn [set_if set_bytes sc_ep]. rewrite A2. unfold handle, counted. cbn [l_sc set_sc set_if set_bytes sc_mp sc_ep sc_buf sc_flags sc_escape]. rewrite ?A2. done.
Qed.

Lemma store_ok s cl bs esc c : ready s cl bs esc -> 0 <= c < 256 -> len bs < SLMAX ->
  exists s', sl_store cl c s = Ret s' /\ ready s' cl (bs ++ [c]) false /\ quiet s s' cl.
Proof.
  intros [A1 A2 [A3 A3'] A4 A5 (room & tl & E & Hr & Hl)] Hc Hlen. unfold sl_store. rewrite A3'. unfold SLBUFSIZE.
  destruct (Z.ltb_spec (BUFOFFSET + len bs) (SLMAX + BUFOFFSET)); [|lia]. destruct tl as [|x tl]; [unfold len in *; cbn in *; lia|].
  assert (Hw : Mbuf.bwrite (buffer (l_mb s) cl) (BUFOFFSET + len bs) [c] = Ret (room ++ (bs ++ [c]) ++ tl)).
  { unfold Mbuf.bwrite. rewrite E, !length_app. cbn [length]. fold (len room) (len bs). unfold len in *. cbn [length] in *.
    destruct (Z.leb_spec 0 (BUFOFFSET + Z.of_nat (length bs))); [|unfold BUFOFFSET in *; lia].
    destruct (Z.leb_spec (BUFOFFSET + Z.of_nat (length bs) + Z.of_nat 1) (Z.of_nat (length room + (length bs + S (length tl))))); [|lia]. cbn [andb]. f_equal.
    rewrite (app_assoc room), (take_app_length') by (rewrite length_app; lia). rewrite <- !app_assoc. do 2 f_equal. cbn [app]. f_equal.
    rewrite (app_assoc room bs). rewrite drop_app_ge by (rewrite length_app; lia). rewrite length_app.
    replace (Z.to_nat (BUFOFFSET + Z.of_nat (length bs)) + 1 - (length room + length bs))%nat with 1%nat by lia. done. }
  rewrite Hw. bind. eexists. split; [reflexivity|]. split.
  - constructor; cbn [set_mb set_sc l_sc l_tp l_mb set_input sc_ep sc_buf sc_mp sc_escape sc_flags]; try done.
    + split; [done|]. rewrite len_app. change (len [c]) with 1. lia.
    + exists room, tl. rewrite buffer_set. split; [done|]. split; [done|]. rewrite len_app. rewrite len_cons in Hl. change (len [c]) with 1. lia.
  - constructor; try done. right. by eexists.
Qed.

Lemma slinputs_app big now a b s : slinputs big (a ++ b) now s = (s ← slinputs big a now s; slinputs big b now s).
Proof.
  revert s. induction a as [|c a IH]; intros s; [done|]. cbn [app slinputs]. destruct (slinput big c now s); bind; [apply IH|done|done].
Qed.
Lemma slinputs_one big now c s : slinputs big [c] now s = slinput big c now s.
Proof. cbn [slinputs]. by destruct (slinput big c now s). Qed.

(** An escaped character comes down to storing it. *)
Lemma input_char big now s cl bs c : ready s cl bs false -> 0 <= c < 256 ->
  exists s1 e, slinputs big (escape1 c) now s = sl_store cl c s1 /\ ready s1 cl bs e /\ quiet s s1 cl.
Proof.
  intros Hr Hc. destruct (counted_ready _ _ _ _ Hr) as [Hr1 Hq1]. destruct (special c) eqn:Esp.
  - rewrite (escape_special c Esp). cbn [slinputs]. rewrite (slinput_ready big FRAME_ESCAPE now s cl bs false) by (done || (unfold FRAME_ESCAPE; lia)).
    unfold handle. rewrite Z.eqb_refl. bind. set (s1 := set_sc (counted s) _).
    assert (Hr2 : ready s1 cl bs true) by (destruct Hr1; by constructor). assert (Hq2 : quiet (counted s) s1 cl) by (constructor; try done; by left).
    destruct (counted_ready _ _ _ _ Hr2) as [Hr3 Hq3]. set (tr := if c =? FRAME_ESCAPE then _ else _).
    assert (Ht : 0 <= tr < 256 /\ handle big cl tr now (counted s1) = sl_store cl c (counted s1)).
    { unfold handle. rewrite (rd_esc _ _ _ _ Hr3). unfold special in Esp. unfold tr. destruct (Z.eqb_spec c FRAME_ESCAPE) as [->|]; [done|].
      destruct (Z.eqb_spec c FRAME_END) as [->|]; done. }
    destruct Ht as [Ht1 Ht2]. rewrite (slinput_ready big tr now s1 cl bs true Hr2 Ht1), Ht2. exists (counted s1), true.
    split; [by destruct (sl_store cl c (counted s1))|]. split; [done|]. eapply quiet_trans; [exact Hq1|]. by eapply quiet_trans.
  - assert (E1 : escape1 c = [c]) by (unfold special, escape1 in *; apply orb_false_iff in Esp as [-> ->]; done). rewrite E1, slinputs_one.
    rewrite (slinput_ready big c now s cl bs false Hr Hc). unfold handle. rewrite (rd_esc _ _ _ _ Hr1). unfold special in Esp. apply orb_false_iff in Esp as [-> ->].
    assert (Ec : (if c =? TRANS_FRAME_ESCAPE then c else if c =? TRANS_FRAME_END then c else c) = c) by (by destruct (c =? TRANS_FRAME_ESCAPE), (c =? TRANS_FRAME_END)). rewrite Ec.
    by exists (counted s), false.
Qed.
Lemma input_escape1 big now s cl bs c : ready s cl bs false -> 0 <= c < 256 -> len bs < SLMAX ->
  exists s', slinputs big (escape1 c) now s = Ret s' /\ ready s' cl (bs ++ [c]) false /\ quiet s s' cl.
Proof.
  intros Hr Hc Hlen. destruct (input_char big now s cl bs c Hr Hc) as (s1 & e & -> & Hr1 & Hq1).
  destruct (store_ok s1 cl bs e c Hr1 Hc Hlen) as (s' & -> & Hr2 & Hq2). exists s'. split; [done|]. split; [done|]. by eapply quiet_trans.
Qed.
Lemma input_escape big now cl : forall l s bs, ready s cl bs false -> bytes l -> len bs + len l <= SLMAX ->
  exists s', slinputs big (escape l) now s = Ret s' /\ ready s' cl (bs ++ l) false /\ quiet s s' cl.
Proof.
  induction l as [|c l IH]; intros s bs Hr Hb Hlen.
  { exists s. rewrite app_nil_r. split; [done|]. split; [done|apply quiet_refl]. }
  apply Forall_cons in Hb as [Hc Hb]. rewrite len_cons in Hlen. pose proof (len_nonneg l). rewrite escape_cons, slinputs_app.
  destruct (input_escape1 big now s cl bs c Hr Hc) as (s1 & -> & Hr1 & Hq1); [lia|]. bind.
  destruct (IH s1 (bs ++ [c]) Hr1 Hb) as (s2 & -> & Hr2 & Hq2); [rewrite len_app; change (len [c]) with 1; lia|].
  exists s2. split; [done|]. split; [by rewrite <- app_assoc in Hr2|]. by eapply quiet_trans.
Qed.

(** A short frame is ignored. *)
Lemma newpack_ready s cl bs esc : ready s cl bs esc -> ready (set_sc s (newpack (l_sc s))) cl [] false /\ quiet s (set_sc s (newpack (l_sc s))) cl.
Proof.
  intros [A1 A2 A3 A4 A5 (room & tl & E & Hr & Hl)]. split; [|constructor; try done; by left]. constructor; try done.
  exists room, (bs ++ tl). split; [done|]. split; [done|]. rewrite len_app. change (len []) with 0. lia.
Qed.

(** The character that opens a frame after a pause. *)
Lemma input_idle big now cl (idle : bool) s : ready s cl [] false -> exists s0, slinputs big (if idle then [FRAME_END] else []) now s = Ret s0 /\ ready s0 cl [] false /\ quiet s s0 cl.
Proof.
  intros Hr. destruct idle; [|exists s; split; [done|]; split; [done|apply quiet_refl]]. rewrite slinputs_one.
  rewrite (slinput_ready big FRAME_END now s cl [] false Hr) by (unfold FRAME_END; lia). destruct (counted_ready _ _ _ _ Hr) as [Hr1 Hq1].
  change (handle big cl FRAME_END now (counted s)) with (sl_frame_end big cl now (counted s)). unfold sl_frame_end.
  destruct (rd_ptrs _ _ _ _ Hr1) as [-> ->]. change (len []) with 0. rewrite Z.add_0_r, Z.sub_diag. cbn [Z.ltb Z.compare].
  destruct (newpack_ready _ _ _ _ Hr1) as [Hr2 Hq2]. eexists. split; [reflexivity|]. split; [done|]. by eapply quiet_trans.
Qed.

(** A frame comes down to the handling of its end. *)
Lemma input_frame big now cl idle m s : ready s cl [] false -> bytes (concat m) -> 3 <= len (concat m) <= SLMAX ->
  exists s1, slinputs big (frame idle m) now s = sl_frame_end big cl now s1 /\ ready s1 cl (concat m) false /\ quiet s s1 cl.
Proof.
  intros Hr Hb Hlen. unfold frame. rewrite slinputs_app.
  destruct (input_idle big now cl idle s Hr) as (s0 & -> & Hr0 & Hq0). bind. rewrite slinputs_app.
  destruct (input_escape big now cl (concat m) s0 [] Hr0 Hb) as (s1 & -> & Hr1 & Hq1); [change (len []) with 0; lia|]. bind. rewrite slinputs_one.
  cbn [app] in Hr1. rewrite (slinput_ready big FRAME_END now s1 cl _ false Hr1) by (unfold FRAME_END; lia). destruct (counted_ready _ _ _ _ Hr1) as [Hr2 Hq2].
  exists (counted s1). split; [done|]. split; [done|]. eapply quiet_trans; [exact Hq0|]. by eapply quiet_trans.
Qed.

(** *** The packets received *)

(** Memory for [n] packets: mbufs are always there, and [n] clusters are free. *)
Record mem_ok (mb : Mbuf.mstate) (c : Z) (n : nat) : Prop := MemOk {
  mk_mallocs : Mbuf.mallocs mb = [];
  mk_free : NoDup (c :: Mbuf.mclfree (Mbuf.pool mb));
  mk_n : (n <= length (Mbuf.mclfree (Mbuf.pool mb)))%nat
}.
(** The mbuf [m] is the packet [p], and shares nothing with the input buffer. *)
Record got (mb : Mbuf.mstate) (c : Z) (m : Mbuf.mbuf) (p : list Z) : Prop := Got {
  gt_data : Mbuf.data mb m = p;
  gt_len : Mbuf.m_len m = len p /\ Mbuf.pkt_len m = len p /\ Mbuf.is_pkt m = true;
  gt_ext : Mbuf.is_ext m = true -> m.(Mbuf.m_ext) <> c /\ m.(Mbuf.m_ext) ∉ Mbuf.mclfree (Mbuf.pool mb)
}.

Lemma got_set mb c m p bs : got mb c m p -> got (set_buffer mb c bs) c m p.
Proof.
  intros [H1 H2 H3]. constructor; try done. rewrite <- H1. apply Mbuf.data_same. intros He. destruct (H3 He) as [Hc _].
  unfold set_buffer. cbn. by rewrite lookup_insert_ne by congruence.
Qed.
Lemma mem_set mb c n bs : mem_ok mb c n -> mem_ok (set_buffer mb c bs) c n.
Proof. intros [H1 H2 H3]. by constructor. Qed.
Lemma quiet_mem s s' c n : quiet s s' c -> mem_ok (l_mb s) c n -> mem_ok (l_mb s') c n.
Proof. intros [[->|[bs ->]] _ _ _]; [done|apply mem_set]. Qed.
Lemma quiet_got s s' c m p : quiet s s' c -> got (l_mb s) c m p -> got (l_mb s') c m p.
Proof. intros [[->|[bs ->]] _ _ _]; [done|apply got_set]. Qed.

Lemma sl_btom_ok sc c n mb k l : mem_ok mb c (S k) -> buffer mb c = l -> len l = SLBUFSIZE -> 0 <= sc_buf sc -> 0 < n -> sc_buf sc + n <= SLBUFSIZE ->
  exists m ep mb', sl_btom sc c n mb = Ret (Some m, ep, mb') /\ got mb' ep m (Mbuf.slice (sc_buf sc) n l) /\ mem_ok mb' ep k /\
    len (buffer mb' ep) = SLBUFSIZE /\ forall m0 p0, got mb c m0 p0 -> got mb' ep m0 p0.
Proof.
  intros [K1 K2 K3] El Hl H0 Hn Hle. unfold sl_btom, Mbuf.MGETHDR, Mbuf.mget_once, Mbuf.MALLOC. rewrite K1. set (mb1 := Mbuf.count_type _ _ mb).
  assert (Hs : len (Mbuf.slice (sc_buf sc) n l) = n) by (apply Mbuf.slice_length; unfold len in *; lia).
  destruct (Z.geb_spec n Mbuf.MHLEN) as [Hbig|Hsmall].
  - unfold Mbuf.MCLGET, Mbuf.MCLALLOC. change (Mbuf.mclfree (Mbuf.pool mb1)) with (Mbuf.mclfree (Mbuf.pool mb)).
    destruct (Mbuf.mclfree (Mbuf.pool mb)) as [|x r] eqn:Efree; [cbn in K3; lia|]. bind.
    change (Mbuf.mclfree (Mbuf.pool mb1)) with (Mbuf.mclfree (Mbuf.pool mb)). rewrite Efree. bind. set (mb2 := Mbuf.with_stat _ _).
    assert (Ex : Mbuf.is_ext (Mbuf.set_data (Mbuf.set_ext (Mbuf.new_mbuf mb true Mbuf.MT_DATA) x Mbuf.MCLBYTES) 0 (Mbuf.m_len (Mbuf.new_mbuf mb true Mbuf.MT_DATA))) = true) by done.
    rewrite Ex. cbn [negb]. set (m := with_rcv _ _ _ _ _). pose proof K2 as K2'. apply NoDup_cons in K2' as [N1 N2]. apply NoDup_cons in N2 as [N2 N3].
    assert (Ecl : forall y, y <> x -> Mbuf.clusters (Mbuf.pool mb2) !! y = Mbuf.clusters (Mbuf.pool mb) !! y) by (intros y Hy; unfold mb2; cbn; by rewrite lookup_insert_ne by congruence).
    exists m, x, mb2. split; [done|]. rewrite not_elem_of_cons in N1. destruct N1 as [N1 N1']. splits.
    + constructor; [|by rewrite Hs|done].
      unfold Mbuf.data, Mbuf.area. change (Mbuf.is_ext m) with true. cbv iota. change (Mbuf.m_ext m) with c. rewrite Ecl by done. by rewrite <- El.
    + constructor; [done|by constructor|cbn in *; lia].
    + unfold buffer, mb2. cbn. rewrite lookup_insert_eq. cbn. unfold len. by rewrite Mbuf.bytes_of_length.
    + intros m0 p0 [G1 G2 G3]. rewrite Efree in G3. constructor; [|done|].
      * rewrite <- G1. apply Mbuf.data_same. intros He. destruct (G3 He) as [_ G4]. apply not_elem_of_cons in G4 as [G4 _]. by apply Ecl.
      * intros He. destruct (G3 He) as [_ G4]. by apply not_elem_of_cons in G4.
  - change (buffer mb1 c) with (buffer mb c). rewrite El, Mbuf.bread_ok by (unfold len in *; lia). bind.
    destruct (Mbuf.bwrite_ok (Mbuf.bytes_of (Mbuf.junk mb) (Z.to_nat Mbuf.MLEN)) (Mbuf.MLEN - Mbuf.MHLEN) (Mbuf.slice (sc_buf sc) n l)) as (d & E & Ld & Sd & _).
    { unfold Mbuf.MLEN, Mbuf.MHLEN. lia. }
    { rewrite Mbuf.bytes_of_length. fold (len (Mbuf.slice (sc_buf sc) n l)). rewrite Hs. unfold Mbuf.MLEN, Mbuf.MHLEN in *. lia. }
    cbn [Mbuf.new_mbuf Mbuf.m_dat Mbuf.m_off]. rewrite E. bind. set (m := with_rcv _ _ _ _ _). exists m, c, mb1. split; [done|]. splits.
    + constructor; [|change (Mbuf.m_len m) with n; change (Mbuf.pkt_len m) with n; by rewrite Hs|done]. unfold Mbuf.data, Mbuf.area. change (Mbuf.is_ext m) with false. cbv iota. unfold len in Hs. rewrite Hs in Sd. exact Sd.
    + constructor; [exact K1|exact K2|]. change (Mbuf.mclfree (Mbuf.pool mb1)) with (Mbuf.mclfree (Mbuf.pool mb)). lia.
    + by change (buffer mb1 c) with (buffer mb c); rewrite El.
    + intros m0 p0 [G1 G2 G3]. by constructor.
Qed.

(** What the receiver has: the buffer [c] and memory for [n] packets; [ipintrq]
    holds the packets [ps] and has room. *)
Record receiving (s : line) (c : Z) (n : nat) (ps : list (list Z)) : Prop := Receiving {
  rc_ready : ready s c [] false;
  rc_mem : mem_ok (l_mb s) c n;
  rc_got : Forall2 (got (l_mb s) c) (ifq_head (l_ip s)) ps;
  rc_room : Z.of_nat (length ps) + Z.of_nat n <= ifq_maxlen (l_ip s)
}.

Lemma sl_deliver_ok s c n k l ps now : mem_ok (l_mb s) c (S k) -> buffer (l_mb s) c = l -> len l = SLBUFSIZE ->
  0 <= sc_buf (l_sc s) -> 0 < n -> sc_buf (l_sc s) + n <= SLBUFSIZE ->
  t_sc (l_tp s) = true /\ t_carr (l_tp s) = true -> has (sc_flags (l_sc s)) SC_ABORT = false ->
  Forall2 (got (l_mb s) c) (ifq_head (l_ip s)) ps -> Z.of_nat (length ps) + Z.of_nat (S k) <= ifq_maxlen (l_ip s) ->
  exists s' c', sl_deliver c n now s = Ret s' /\ receiving s' c' k (ps ++ [Mbuf.slice (sc_buf (l_sc s)) n l]) /\
    sc_comp (l_sc s') = sc_comp (l_sc s) /\ sc_flags (l_sc s') = sc_flags (l_sc s) /\ if_ierrors (sc_if (l_sc s')) = if_ierrors (sc_if (l_sc s)).
Proof.
  intros HM El Hl H0 Hn Hle Ht Ha Hg Hroom. unfold sl_deliver.
  destruct (sl_btom_ok (l_sc s) c n (l_mb s) k l HM El Hl H0 Hn Hle) as (m & ep & mb' & -> & G & HM' & Hb & Hall). bind.
  assert (Hlen : length (ifq_head (l_ip s)) = length ps) by (by eapply Forall2_length).
  assert (Hq : IF_QFULL (l_ip (set_mb s mb')) = false) by (unfold IF_QFULL; cbn [set_mb l_ip]; rewrite Hlen; lia). rewrite Hq.
  eexists _, ep. split; [reflexivity|]. split; [|split; [done|split; [done|cbn; lia]]]. constructor.
  - constructor; try done. exists (take (Z.to_nat BUFOFFSET) (buffer mb' ep)), (drop (Z.to_nat BUFOFFSET) (buffer mb' ep)).
    cbn [set_ip set_sc set_mb l_mb app]. rewrite take_drop. unfold len in *. rewrite length_take, length_drop. cbn [length]. unfold SLBUFSIZE in *. vm_compute (SLMAX) in Hb. split; [done|].
    change SLMAX with 896 in *. change BUFOFFSET with 128 in *. lia.
  - done.
  - cbn [set_ip set_sc set_mb l_ip l_mb IF_ENQUEUE ifq_head]. apply Forall2_app; [|by constructor]. eapply Forall2_impl; [exact Hg|]. intros x y Hx. by apply Hall.
  - cbn [set_ip set_sc set_mb l_ip IF_ENQUEUE ifq_maxlen]. rewrite length_app. cbn [length]. lia.
Qed.

(** The receiver, with flags [flags] and compression state [R], makes the packet
    [p] of the data [q] of a frame; [Q] is then true of its compression state. *)
Definition expands (big : bool) (flags : Z) (q p : list Z) (R : slcompress) (Q : slcompress -> Prop) : Prop :=
  Z.land (b8 q 0) 0xf0 = 0x40 /\ p = q /\ Q R \/
  Z.land (b8 q 0) 0xf0 <> 0x40 /\ has flags SC_COMPRESS = true /\ 0 < len p /\
  forall room tl, len room = BUFOFFSET -> len q + len tl = SLMAX ->
    exists mem' pos' R', sl_inflate big (room ++ q ++ tl) BUFOFFSET (len q) R = Ret (mem', pos', len p, R') /\
      Mbuf.slice pos' (len p) mem' = p /\ 0 <= pos' /\ pos' + len p <= len mem' /\ len mem' = SLBUFSIZE /\ Q R'.

Lemma receive_frame big now s c k ps idle m p Q : receiving s c (S k) ps -> bytes (concat m) -> 3 <= len (concat m) <= SLMAX ->
  expands big (sc_flags (l_sc s)) (concat m) p (sc_comp (l_sc s)) Q ->
  exists s' c', slinputs big (frame idle m) now s = Ret s' /\ receiving s' c' k (ps ++ [p]) /\ Q (sc_comp (l_sc s')) /\
    sc_flags (l_sc s') = sc_flags (l_sc s) /\ if_ierrors (sc_if (l_sc s')) = if_ierrors (sc_if (l_sc s)).
Proof.
  intros [H1 H2 H3 H4] Hb Hlen He. destruct (input_frame big now c idle m s H1 Hb Hlen) as (s1 & -> & Hr & Hq).
  set (q := concat m) in *. pose proof (quiet_mem _ _ _ _ Hq H2) as HM.
  assert (HG : Forall2 (got (l_mb s1) c) (ifq_head (l_ip s1)) ps).
  { rewrite (qt_ip _ _ _ Hq). eapply Forall2_impl; [exact H3|]. intros x y. by apply quiet_got. }
  pose proof Hq as [_ Q2 [Q3 Q4] (Q5 & _)]. destruct Hr as [R1 R2 [R3 R3'] R4 R5 (room & tl & E & Lr & Lt)].
  unfold sl_frame_end. rewrite R3, R3'. replace (BUFOFFSET + len q - BUFOFFSET) with (len q) by lia. destruct (Z.ltb_spec (len q) 3); [lia|].
  assert (Lb : len (room ++ q ++ tl) = SLBUFSIZE) by (rewrite !len_app; unfold SLBUFSIZE; lia).
  rewrite E. assert (E0 : b8 (room ++ q ++ tl) BUFOFFSET = b8 q 0).
  { pose proof (b8_room room (q ++ tl) 0 Lr ltac:(lia)) as Hb8. change (ROOM + 0) with BUFOFFSET in Hb8. rewrite Hb8. rewrite b8_app by lia. destruct (Z.ltb_spec 0 (len q)); [done|lia]. }
  rewrite E0. destruct He as [(Hv & -> & HQ)|(Hv & Hc & Hp & Hx)].
  - rewrite Hv, Z.eqb_refl. destruct (sl_deliver_ok s1 c (len q) k (room ++ q ++ tl) ps now) as (s' & c' & -> & Hrc & E1 & E2 & E3); try done; try (rewrite ?R3; unfold BUFOFFSET in *; lia).
    { rewrite R3, !len_app in *. unfold SLBUFSIZE. pose proof (len_nonneg tl). lia. }
    { by rewrite Q2. }
    exists s', c'. split; [done|]. split; [|split; [rewrite E1, Q3; exact HQ|split; congruence]].
    assert (Es : Mbuf.slice (sc_buf (l_sc s1)) (len q) (room ++ q ++ tl) = q).
    { rewrite R3. unfold Mbuf.slice, len, BUFOFFSET in *. rewrite drop_app_length' by lia. rewrite Nat2Z.id. by rewrite take_app_length. }
    by rewrite Es in Hrc.
  - destruct (Z.eqb_spec (Z.land (b8 q 0) 0xf0) 0x40); [done|]. destruct (Hx room tl Lr Lt) as (mem' & pos' & R' & Er & Es & P0 & P1 & P2 & HQ).
    assert (Ex : sl_expand big (sc_flags (l_sc s1)) (room ++ q ++ tl) BUFOFFSET (len q) (sc_comp (l_sc s1)) = Ret (mem', pos', len p, sc_flags (l_sc s1), R')).
    { rewrite Q3. apply sl_expand_on; [by rewrite Q4|by rewrite E0|exact Er]. }
    rewrite Ex. bind. destruct (Z.leb_spec (len p) 0); [lia|]. set (s2 := set_mb _ _).
    destruct (sl_deliver_ok s2 c (len p) k mem' ps now) as (s' & c' & -> & Hrc & E1 & E2 & E3); try done; try lia.
    { by apply mem_set. }
    { apply buffer_set. }
    { cbn [s2 set_mb set_sc l_sc set_comp set_input sc_buf]. lia. }
    { cbn [s2 set_mb set_sc l_mb l_ip]. eapply Forall2_impl; [exact HG|]. intros x y. apply got_set. }
    { change (l_ip s2) with (l_ip s1). by rewrite Q2. }
    exists s', c'. split; [done|]. change (sc_buf (l_sc s2)) with pos' in Hrc. rewrite Es in Hrc. split; [done|]. split; [rewrite E1; exact HQ|]. split; [rewrite E2; exact Q4|rewrite E3; exact Q5].
Qed.

(** *** Decompression reads only the frame

    The buffer goes on after the frame; what is there does not matter. *)
Section after_frame.
Context (mem tl : list Z).

Lemma b8_tail j : 0 <= j < len mem -> b8 (mem ++ tl) j = b8 mem j.
Proof. intros H. rewrite b8_app by lia. destruct (Z.ltb_spec j (len mem)); [done|lia]. Qed.
Lemma put8_tail i v : 0 <= i < len mem -> put8 (mem ++ tl) i v = put8 mem i v ++ tl.
Proof. intros H. unfold put8. apply insert_app_l. unfold len in H. lia. Qed.
Lemma bread_tail a n bs : Mbuf.bread mem a n = Ret bs -> Mbuf.bread (mem ++ tl) a n = Ret bs /\ 0 <= a /\ 0 <= n /\ a + n <= len mem /\ len bs = n.
Proof.
  unfold Mbuf.bread. rewrite length_app, Nat2Z.inj_add. fold (len mem). destruct (Z.leb_spec 0 a), (Z.leb_spec 0 n), (Z.leb_spec (a + n) (len mem)); cbn [andb]; try done.
  intros E. injection E as <-. pose proof (len_nonneg tl). fold (len tl). destruct (Z.leb_spec (a + n) (len mem + len tl)); [|lia]. cbn [andb].
  splits; try done; [|apply Mbuf.slice_length; unfold len in *; lia]. f_equal. unfold Mbuf.slice. unfold len in *. rewrite drop_app_le by lia. rewrite take_app_le by (rewrite length_drop; lia). done.
Qed.
Lemma bwrite_tail a bs mem' : Mbuf.bwrite mem a bs = Ret mem' -> Mbuf.bwrite (mem ++ tl) a bs = Ret (mem' ++ tl) /\ 0 <= a /\ a + len bs <= len mem /\ len mem' = len mem.
Proof.
  unfold Mbuf.bwrite. fold (len bs). rewrite length_app, Nat2Z.inj_add. fold (len mem) (len tl). destruct (Z.leb_spec 0 a), (Z.leb_spec (a + len bs) (len mem)); cbn [andb]; try done.
  intros E. injection E as <-. pose proof (len_nonneg tl). destruct (Z.leb_spec (a + len bs) (len mem + len tl)); [|lia]. unfold len in *. splits; try done.
  - f_equal. rewrite take_app_le, drop_app_le by lia. by rewrite <- !app_assoc.
  - rewrite !length_app, length_take, length_drop. lia.
Qed.

(** A computation that reads on from [cp], here and with the tail. *)
Definition local {A} (cp : Z) (r r' : A * Z) : Prop := cp <= snd r /\ (snd r <= len mem -> r' = r).

Lemma local_same {A} cp (x : A) : local cp (x, cp) (x, cp).
Proof. by split; cbn. Qed.
Lemma local_bind {A B} cp (r r' : A * Z) (k k' : A -> Z -> B * Z) : local cp r r' -> (forall x cp1, cp <= cp1 -> local cp1 (k x cp1) (k' x cp1)) ->
  local cp (let '(x, cp1) := r in k x cp1) (let '(x, cp1) := r' in k' x cp1).
Proof.
  intros [H1 H2] Hk. destruct r as [x cp1]. cbn [snd] in *. destruct (Hk x cp1 H1) as [K1 K2]. split; [lia|]. intros Hl. rewrite H2 by lia. by apply K2.
Qed.
Lemma local_if {A} (b : bool) cp (r1 r1' r2 r2' : A * Z) : local cp r1 r1' -> local cp r2 r2' -> local cp (if b then r1 else r2) (if b then r1' else r2').
Proof. by destruct b. Qed.
Lemma local_decode cp : 0 <= cp -> local cp (decode_delta mem cp) (decode_delta (mem ++ tl) cp).
Proof.
  intros H. unfold local, decode_delta. destruct (b8 mem cp =? 0) eqn:E; cbn [snd]; (split; [lia|]); intros Hl; rewrite b8_tail by lia; rewrite E; [|done].
  by rewrite !b8_tail by lia.
Qed.

Lemma sl_apply_tail cp changes h t hl : 0 <= cp -> local cp (sl_apply mem cp changes h t hl) (sl_apply (mem ++ tl) cp changes h t hl).
Proof.
  intros H. unfold sl_apply, DECODEU, DECODES, DECODEL. apply local_if; [apply local_same|]. apply local_if; [apply local_same|].
  apply local_bind; [apply local_if; [|apply local_same]|intros h1 cp1 H1; apply local_bind; [apply local_if; [|apply local_same]|intros h2 cp2 H2; apply local_bind; [apply local_if; [|apply local_same]|intros h3 cp3 H3; apply local_if; [|apply local_same]]]];
    (apply local_bind; [|intros; apply local_same]); (apply local_bind; [apply local_decode; lia|intros; apply local_same]).
Qed.
Lemma sl_new_header_tail cp changes h hl : 0 <= cp ->
  cp + 2 <= snd (sl_new_header mem cp changes h hl) /\ (snd (sl_new_header mem cp changes h hl) <= len mem -> sl_new_header (mem ++ tl) cp changes h hl = sl_new_header mem cp changes h hl).
Proof.
  intros H. assert (L : forall h0, local (cp + 2) (let '(h, cp) := sl_apply mem (cp + 2) changes h0 (4 * ip_hl h) hl in
      if has changes NEW_I then let '(v, cp) := DECODES mem cp (ip_id h) in (put16 h 4 v, cp) else (put16 h 4 (u16 (ip_id h + 1)), cp))
    (let '(h, cp) := sl_apply (mem ++ tl) (cp + 2) changes h0 (4 * ip_hl h) hl in
      if has changes NEW_I then let '(v, cp) := DECODES (mem ++ tl) cp (ip_id h) in (put16 h 4 v, cp) else (put16 h 4 (u16 (ip_id h + 1)), cp))).
  { intros h0. apply local_bind; [apply sl_apply_tail; lia|]. intros h1 cp1 H1. apply local_if; [|apply local_same]. unfold DECODES.
    apply local_bind; [|intros; apply local_same]. apply local_bind; [apply local_decode; lia|intros; apply local_same]. }
  unfold sl_new_header. split; [apply L|]. intros Hl. pose proof Hl as Hl'. destruct (L (if has changes TCP_PUSH_BIT
    then put8 (put16 h (4 * ip_hl h + 16) (Z.lor (Z.shiftl (b8 mem cp) 8) (b8 mem (cp + 1)))) (4 * ip_hl h + 13) (Z.lor (th_flags (put16 h (4 * ip_hl h + 16) (Z.lor (Z.shiftl (b8 mem cp) 8) (b8 mem (cp + 1)))) (4 * ip_hl h)) TH_PUSH)
    else put8 (put16 h (4 * ip_hl h + 16) (Z.lor (Z.shiftl (b8 mem cp) 8) (b8 mem (cp + 1)))) (4 * ip_hl h + 13) (Z.land (th_flags (put16 h (4 * ip_hl h + 16) (Z.lor (Z.shiftl (b8 mem cp) 8) (b8 mem (cp + 1)))) (4 * ip_hl h)) (Z.lnot TH_PUSH)))) as [L1 L2].
  rewrite !b8_tail by (cbv zeta in Hl; lia). by apply L2.
Qed.
End after_frame.

Lemma len_put_short big l i v : len (put_short big l i v) = len l.
Proof. unfold put_short. destruct big; [apply len_put16|]. by rewrite !len_put8. Qed.
Lemma put_short_tail big mem tl i v : 0 <= i -> i + 1 < len mem -> put_short big (mem ++ tl) i v = put_short big mem i v ++ tl.
Proof.
  intros H1 H2. unfold put_short, put16. destruct big; (rewrite (put8_tail mem) by lia); rewrite put8_tail by (rewrite len_put8; lia); done.
Qed.

Lemma sl_rebuild_tail big mem tl cp n i comp c h mem' pos' n' R' : sl_rebuild big mem cp n i comp c h = Ret (mem', pos', n', R') -> pos' + 12 <= len mem' ->
  sl_rebuild big (mem ++ tl) cp n i comp c h = Ret (mem' ++ tl, pos', n', R') /\ len mem' = len mem /\ 0 <= pos'.
Proof.
  unfold sl_rebuild. intros E Hp. apply bind_Ret in E as ([mem1 cp1] & E1 & E).
  assert (A : (if negb (Z.land cp 3 =? 0) then mem ← (if n >? 0 then bs ← Mbuf.bread (mem ++ tl) cp n; Mbuf.bwrite (mem ++ tl) (Z.land cp (Z.lnot 3)) bs else Ret (mem ++ tl)); Ret (mem, Z.land cp (Z.lnot 3))
     else Ret (mem ++ tl, cp)) = Ret (mem1 ++ tl, cp1) /\ len mem1 = len mem).
  { destruct (negb _); [|by injection E1 as <- <-]. apply bind_Ret in E1 as (mem0 & E0 & E1). injection E1 as <- <-. destruct (n >? 0); [|by injection E0 as <-].
    apply bind_Ret in E0 as (bs & E2 & E3). apply (bread_tail mem tl) in E2 as (-> & _). apply (bwrite_tail mem tl) in E3 as (E3 & _ & _ & L). bind. rewrite E3. bind. by split. }
  destruct A as [-> L1]. bind. cbv zeta in E |- *. apply bind_Ret in E as (bs & E2 & E). apply bind_Ret in E as (mem2 & E3 & E). apply bind_Ret in E as (hdr & E4 & E).
  injection E as <- <- <- <-. rewrite E2. bind. apply (bwrite_tail mem1 tl) in E3 as (-> & P1 & P2 & L2). bind. apply (bread_tail mem2 tl) in E4 as (-> & _). bind.
  rewrite len_put_short in *. split; [|split; [congruence|lia]]. by rewrite put_short_tail by lia.
Qed.

Lemma sl_state_tail big mem tl pos n cp changes comp mem' pos' n' R' : sl_uncompress_state big mem pos n cp changes comp = Ret (mem', pos', n', R') ->
  0 <= cp -> pos + n = len mem -> 0 < n' -> pos' + 12 <= len mem' ->
  sl_uncompress_state big (mem ++ tl) pos n cp changes comp = Ret (mem' ++ tl, pos', n', R') /\ len mem' = len mem /\ 0 <= pos' /\ cp + 2 <= len mem.
Proof.
  unfold sl_uncompress_state. intros E Hcp Hn Hn' Hp. apply bind_Ret in E as (c & -> & E). bind.
  destruct (sl_new_header_tail mem tl cp changes (cs_hdr c) (cs_hlen c) Hcp) as [H1 H2]. destruct (sl_new_header mem cp changes (cs_hdr c) (cs_hlen c)) as [h cp1]. cbn [snd] in *.
  destruct (Z.ltb_spec (n - (cp1 - pos)) 0) as [Hbad|Hgood].
  { unfold sl_bad in E. injection E as <- <- <- <-. lia. }
  rewrite H2 by lia. destruct (Z.ltb_spec (n - (cp1 - pos)) 0); [lia|]. destruct (sl_rebuild_tail _ _ tl _ _ _ _ _ _ _ _ _ _ E Hp) as (-> & L & P). splits; try done. lia.
Qed.

Lemma sl_full_tail mem tl pos n comp mem' pos' n' R' : sl_uncompress_full mem pos n comp = Ret (mem', pos', n', R') ->
  0 <= pos -> pos + n = len mem -> 40 <= n' -> 4 * ip_hl (Mbuf.slice pos' n' mem') + 20 <= n' ->
  sl_uncompress_full (mem ++ tl) pos n comp = Ret (mem' ++ tl, pos', n', R') /\ len mem' = len mem /\ pos' = pos /\ n' = n.
Proof.
  intros E Hpos Hn Hn' Hhl. unfold sl_uncompress_full in *. destruct (b8 mem (pos + 9) >=? Z.of_nat MAX_STATES) eqn:Eid.
  { unfold sl_bad in E. injection E as <- <- <- <-. lia. }
  apply bind_Ret in E as (c & Ec & E). cbv zeta in E. set (mem1 := put8 mem (pos + 9) IPPROTO_TCP) in *.
  apply bind_Ret in E as (bs & E1 & E). apply bind_Ret in E as (h & E2 & E). injection E as <- <- <- <-.
  assert (L1 : len mem1 = len mem) by apply len_put8.
  assert (Ehl : ip_hl (Mbuf.slice pos n mem1) = Z.land (b8 mem1 pos) 0xf) by (unfold ip_hl; rewrite b8_slice by lia; by rewrite Z.add_0_r).
  rewrite Ehl in Hhl. assert (Hnn : 0 <= Z.land (b8 mem1 pos) 0xf) by (apply Z.land_nonneg; right; lia).
  rewrite b8_tail by lia. rewrite Eid. rewrite put8_tail by lia. fold mem1. rewrite Ec. bind. cbv zeta.
  rewrite !(b8_tail mem1) by lia. apply (bread_tail mem1 tl) in E1 as (-> & _). bind. rewrite E2. bind. by splits.
Qed.

Lemma sl_inflate_tail big mem tl pos n R mem' pos' n' R' : sl_inflate big mem pos n R = Ret (mem', pos', n', R') ->
  0 <= pos -> 3 <= n -> pos + n = len mem -> 40 <= n' -> 4 * ip_hl (Mbuf.slice pos' n' mem') + 20 <= n' -> pos' + 12 <= len mem' ->
  sl_inflate big (mem ++ tl) pos n R = Ret (mem' ++ tl, pos', n', R') /\ len mem' = len mem /\ 0 <= pos'.
Proof.
  unfold sl_inflate, sl_type. intros E Hpos Hn Hlen Hn' Hhl Hp. rewrite (b8_tail mem tl pos) by lia. cbv zeta in *.
  destruct (_ =? 0x40); [injection E as <- <- <- <-; by splits|].
  destruct (negb (Z.land (Z.land (b8 mem pos) 0xf0) 0x80 =? 0)) eqn:En; [|destruct (Z.land (b8 mem pos) 0xf0 =? TYPE_UNCOMPRESSED_TCP) eqn:Et].
  - unfold sl_uncompress_tcp in *. change (TYPE_COMPRESSED_TCP =? TYPE_UNCOMPRESSED_TCP) with false in *. rewrite Z.eqb_refl in *. cbn [negb] in *. cbv zeta in *.
    rewrite (b8_tail mem tl pos) by lia. destruct (has (b8 mem pos) NEW_C).
    + rewrite (b8_tail mem tl (pos + 1)) by lia. destruct (_ >=? _); [unfold sl_bad in E; injection E as <- <- <- <-; lia|].
      destruct (sl_state_tail _ _ tl _ _ _ _ _ _ _ _ _ E) as (-> & L & P & _); try lia. by splits.
    + destruct (has (flags _) SLF_TOSS); [injection E as <- <- <- <-; lia|].
      destruct (sl_state_tail _ _ tl _ _ _ _ _ _ _ _ _ E) as (-> & L & P & _); try lia. by splits.
  - apply Z.eqb_eq in Et. unfold sl_uncompress_tcp in *. rewrite Et in *. rewrite Z.eqb_refl in *. rewrite (put8_tail mem tl pos) by lia.
    destruct (sl_full_tail _ tl pos n R mem' pos' n' R' E) as (-> & L & -> & ->); try done; [by rewrite len_put8|]. rewrite len_put8 in L. by splits.
  - unfold sl_uncompress_tcp in *. rewrite Et in *. destruct (_ =? TYPE_COMPRESSED_TCP) eqn:Ec; cbn [negb] in *; [|unfold sl_bad in E; injection E as <- <- <- <-; lia].
    exfalso. apply Z.eqb_eq in Ec. rewrite Ec in En. discriminate.
Qed.

(** *** What the compressor emits *)

Lemma bytes_ENCODE n : bytes (ENCODE n).
Proof. unfold ENCODE. destruct (_ >=? _); repeat constructor; apply u8_range || lia. Qed.
Lemma bytes_ENCODEZ n : bytes (ENCODEZ n).
Proof. unfold ENCODEZ. destruct (_ || _); repeat constructor; apply u8_range || lia. Qed.
Lemma bytes_app a b : bytes a -> bytes b -> bytes (a ++ b).
Proof. intros. by apply Forall_app. Qed.

Lemma bytes_deltas p h t e ch dS dA : sl_deltas p h t = Some (e, ch, dS, dA) -> bytes e.
Proof.
  unfold sl_deltas. set (urg := if has _ _ then _ else _). assert (Hu : match urg with Some (e, _) => bytes e | None => True end).
  { unfold urg. destruct (has _ _); [apply bytes_ENCODEZ|]. by destruct (negb _); [|constructor]. }
  destruct urg as [[e0 ch0]|]; [|done]. pose proof (fun n => bytes_app _ _ Hu (bytes_ENCODE n)) as H1. pose proof (fun n m => bytes_app _ _ (H1 n) (bytes_ENCODE m)) as H2.
  pose proof (fun n m k => bytes_app _ _ (H2 n m) (bytes_ENCODE k)) as H3.
  repeat match goal with |- context [if ?b then _ else _] => destruct b end; intros E; try discriminate; injection E as <- <- <- <-; auto.
Qed.
Lemma bytes_special p h hlen e ch dS dA e' ch' : bytes e -> sl_special p h hlen e ch dS dA = Some (e', ch') -> bytes e'.
Proof.
  intros H. unfold sl_special. repeat match goal with |- context [if ?b then _ else _] => destruct b end; intros E; try discriminate; injection E as <- <-; (done || constructor).
Qed.

Lemma emit_out comp i cid p hlen sum e ch ty q comp' : bytes p -> bytes e -> sl_emit comp i cid p hlen sum e ch = Ret (ty, q, comp') -> bytes q /\ 3 <= len q <= len p.
Proof.
  intros Hp He E. unfold sl_emit in E. apply bind_Ret in E as (c & _ & E).
  assert (Hgo : forall n X, 3 <= len X -> bytes X -> (q0 ← Mbuf.bwrite p n X; Ret (TYPE_COMPRESSED_TCP, drop (Z.to_nat n) q0, count comp 0 1 0 0 0 0 0 0)) <> Fault ->
    forall q0, Mbuf.bwrite p n X = Ret q0 -> bytes (drop (Z.to_nat n) q0) /\ 3 <= len (drop (Z.to_nat n) q0) <= len p).
  { intros n X HX BX _ q0 Eq. pose proof (bwrite_tail p [] n X q0 Eq) as (_ & P1 & P2 & P3). split.
    - apply Forall_drop. unfold Mbuf.bwrite in Eq. destruct (_ && _); [|done]. injection Eq as <-. apply bytes_app; [by apply Forall_take|]. apply bytes_app; [done|by apply Forall_drop].
    - unfold len in *. rewrite length_drop. lia. }
  assert (Bs : bytes ([u8 (Z.shiftr sum 8); u8 sum] ++ e)) by (apply bytes_app; [repeat constructor; apply u8_range|done]). pose proof (len_nonneg e).
  destruct (negb cid || _); apply bind_Ret in E as (q0 & Eq & E); injection E as <- <- <-; eapply (Hgo _ _); try exact Eq; try (rewrite Eq; done);
    try (apply bytes_app; [repeat constructor; apply u8_range|done]); rewrite !len_app; unfold len in *; cbn [length] in *; lia.
Qed.

Lemma compress_out p C cid ty q C' : bytes p -> 40 <= len p -> sl_compress_tcp p C cid = Ret (ty, q, C') -> bytes q /\ 3 <= len q <= len p.
Proof.
  intros Hp Hl E. unfold sl_compress_tcp in E. destruct (_ || _); [injection E as <- <- <-; split; [done|lia]|]. destruct (negb _); [injection E as <- <- <-; split; [done|lia]|].
  apply bind_Ret in E as ([[C1 i] found] & _ & E).
  assert (Hfull : forall D n, sl_uncompressed D i p n = Ret (ty, q, C') -> bytes q /\ 3 <= len q <= len p).
  { intros D n En. unfold sl_uncompressed in En. apply bind_Ret in En as (D1 & _ & En). apply bind_Ret in En as (c & _ & En). injection En as <- <- <-.
    rewrite len_put8. split; [by apply bytes_put8|lia]. }
  destruct found; [|by eapply Hfull]. unfold sl_compress_found in E. apply bind_Ret in E as (c & _ & E). destruct (negb _); [by eapply Hfull|].
  destruct (sl_deltas _ _ _) as [[[[e ch] dS] dA]|] eqn:Ed; [|by eapply Hfull]. apply bytes_deltas in Ed.
  destruct (sl_special _ _ _ _ _ _ _) as [[e1 ch1]|] eqn:Es; [|by eapply Hfull]. apply (bytes_special _ _ _ _ _ _ _ _ _ Ed) in Es.
  unfold sl_id_push in E. cbv zeta in E. set (ei := if negb _ then (e1 ++ _, _) else (e1, ch1)) in E.
  assert (Hei : bytes (fst ei)) by (unfold ei; destruct (negb _); [by apply bytes_app, bytes_ENCODEZ|done]). destruct ei as [e2 ch2]. cbn [fst] in Hei.
  apply bind_Ret in E as (D & _ & E). by eapply emit_out.
Qed.

(** A packet compressed by a sender in step with the receiver is expanded, and
    they stay in step. *)
Lemma compress_expands big C R p cid ty q C' fl : sync C R -> good big p ->
  (forall i c, tstate C !! i = Some c -> same_conn p (ip_hl p) c = true -> is_ipv4 (cs_hdr c) = true ->
     has (th_flags (cs_hdr c) (4 * ip_hl (cs_hdr c))) TH_URG = true -> has (th_flags p (4 * ip_hl p)) TH_URG = true) ->
  has fl SC_COMPRESS = true -> len (sl_tag ty q) <= SLMAX -> sl_compress_tcp p C cid = Ret (ty, q, C') -> expands big fl (sl_tag ty q) p R (sync C').
Proof.
  intros Hs Hg Hu Hfl Hmax E. pose proof Hg as (G1 & _ & G3 & G4 & G5 & G6 & _). unfold hlen_of in G6. pose proof (ip_hl_range p) as Hhl.
  assert (Hdel : forall room, len room = ROOM -> delivers big room p C R C' ty q).
  { intros room Hr. destruct (sl_step big room p C R cid Hs Hg Hr Hu) as (ty' & q' & C1 & E' & Hd). rewrite E in E'. by injection E' as <- <- <-. }
  destruct (compress_out p C cid ty q C' G1 ltac:(lia) E) as [Bq Lq]. assert (Lt : len (sl_tag ty q) = len q) by apply len_put8. rewrite Lt in Hmax.
  destruct (Z.eq_dec (Z.land (b8 (sl_tag ty q) 0) 0xf0) 0x40) as [Hv|Hv].
  - left. split; [done|]. assert (Hroom : exists room0, len room0 = ROOM) by (by exists (replicate 128 0)). destruct Hroom as [room0 Hr0].
    destruct (Hdel room0 Hr0) as (mem' & pos' & R' & Er & Es & Hsync & _). unfold sl_inflate in Er.
    pose proof (b8_room room0 (sl_tag ty q) 0 Hr0 ltac:(lia)) as Hb. change (ROOM + 0) with ROOM in Hb. rewrite Hb, Hv, Z.eqb_refl in Er.
    injection Er as <- <- Elen <-. split; [|done]. etrans; [symmetry; exact Es|]. rewrite <- Elen, <- Lt. by apply slice_room.
  - right. split; [done|]. split; [done|]. split; [lia|]. rewrite Lt. intros room tl Hr Ht. destruct (Hdel room Hr) as (mem' & pos' & R' & Er & Es & Hsync & _).
    assert (Hsl : pos' + 12 <= len mem' /\ (0 <= pos' -> pos' + len p <= len mem')).
    { assert (L : len (Mbuf.slice pos' (len p) mem') = len p) by (by rewrite Es). unfold len, Mbuf.slice in L. rewrite length_take, length_drop in L. unfold len in *. lia. }
    destruct (sl_inflate_tail big (room ++ sl_tag ty q) tl ROOM (len q) R mem' pos' (len p) R' Er) as (Er' & Lm & P0); try (rewrite ?Es; unfold ROOM in *; lia).
    { rewrite len_app, Hr, Lt. done. }
    exists (mem' ++ tl), pos', R'. destruct Hsl as [_ Hsl]. specialize (Hsl P0). rewrite <- app_assoc in Er'. splits; try done.
    + rewrite <- Es at 2. unfold Mbuf.slice, len in *. rewrite drop_app_le by lia. rewrite take_app_le by (rewrite length_drop; lia). done.
    + rewrite len_app. pose proof (len_nonneg tl). lia.
    + rewrite len_app, Lm, len_app, Hr, Lt. unfold SLBUFSIZE, ROOM, BUFOFFSET in *. lia.
Qed.

(** ** A sender and a receiver *)

(** Packets handed to sloutput and calls of slstart by the terminal driver. *)
Inductive event := Output (m : packet) (now : Z) | Restart (now : Z).

Fixpoint run_sender (oproc : Clist.ttymem -> Clist.clist -> outcome (list Z * Clist.ttymem * Clist.clist)) (big : bool) (evs : list event) (s : line) : outcome (list Z * line) :=
  match evs with
  | [] => Ret ([], s)
  | Output m now :: evs =>
      '(e, s) ← sloutput oproc big AF_INET m now s;
      '(es, s) ← run_sender oproc big evs s;
      Ret (e :: es, s)
  | Restart now :: evs => s ← slstart oproc now s; run_sender oproc big evs s
  end.

Definition ports (big : bool) (ip : list Z) : Z := int_at big ip (4 * ip_hl ip).
Definition interactive (big : bool) (ip : list Z) : bool :=
  INTERACTIVE (Z.land (ports big ip) 0xffff) || INTERACTIVE (Z.shiftr (ports big ip) 16).

(** The packets that are compressed one after the other, and the results. *)
Inductive encoded : slcompress -> list (list Z) -> list (list Z) -> slcompress -> Prop :=
  | EncNil C : encoded C [] [] C
  | EncCons C C1 C2 p cid ty q ps qs : sl_compress_tcp p C cid = Ret (ty, q, C1) -> encoded C1 ps qs C2 ->
      encoded C (p :: ps) (sl_tag ty q :: qs) C2.

Lemma encoded_snoc C ps qs C1 p cid ty q C2 : encoded C ps qs C1 -> sl_compress_tcp p C1 cid = Ret (ty, q, C2) -> encoded C (ps ++ [p]) (qs ++ [sl_tag ty q]) C2.
Proof. induction 1; intros E; cbn; econstructor; eauto. constructor. Qed.
Lemma encoded_length C ps qs C' : encoded C ps qs C' -> length ps = length qs.
Proof. induction 1; cbn; congruence. Qed.

(** A packet for the line: whole in its first mbuf. *)
Definition sendable_tcp (big : bool) (p : list Z) : Prop :=
  good big p /\ has (th_flags p (4 * ip_hl p)) TH_URG = false /\ len p <= SLMTU.

Lemma sendable_step big C R p cid : sendable_tcp big p -> sync C R -> nourg C ->
  exists ty q C', sl_compress_tcp p C cid = Ret (ty, q, C') /\ (exists R', sync C' R') /\ nourg C' /\ sendable [sl_tag ty q] /\ 3 <= len (sl_tag ty q) <= SLMTU.
Proof.
  intros (Hg & Hu & Hl) Hs Hn. assert (Hroom : exists room0, len room0 = ROOM) by (by exists (replicate 128 0)). destruct Hroom as [room0 Hr0].
  destruct (sl_step big room0 p C R cid Hs Hg Hr0) as (ty & q & C' & E & mem' & pos' & R' & _ & _ & Hs' & Hn').
  { intros i c Hc _ H4 Hbit. exfalso. specialize (Hn i c Hc H4). congruence. }
  pose proof Hg as (G1 & _ & G3 & G4 & G5 & G6 & _). unfold hlen_of in G6. destruct (compress_out p C cid ty q C' G1 ltac:(lia) E) as [Bq Lq].
  assert (Lt : len (sl_tag ty q) = len q) by apply len_put8. exists ty, q, C'. split; [done|]. split; [by exists R'|]. split; [by apply Hn'|]. rewrite Lt.
  split; [|lia]. split; [constructor; [by apply bytes_put8|constructor]|]. cbn [concat]. rewrite app_nil_r. pose proof (escape_le (sl_tag ty q)) as He. change Clist.CBSIZE with 52. unfold len, CLISTRESERVE, SLMTU in *. lia.
Qed.

Lemma sends_nonneg ms w n k : sends ms w n k -> 0 <= n /\ 0 <= k.
Proof. induction 1; lia. Qed.

(** The receiver, over frames that hold the packets. *)
Lemma receive_frames big now : forall C ps qs C', encoded C ps qs C' -> forall w n k s c m rs, sends ((fun q => [q]) <$> qs) w n 0 -> k = (length ps + m)%nat ->
  Forall (sendable_tcp big) ps -> Forall (fun q => bytes q /\ 3 <= len q <= SLMTU) qs -> nourg C -> has (sc_flags (l_sc s)) SC_COMPRESS = true ->
  sync C (sc_comp (l_sc s)) -> receiving s c k rs ->
  exists s' c', slinputs big w now s = Ret s' /\ receiving s' c' m (rs ++ ps) /\ if_ierrors (sc_if (l_sc s')) = if_ierrors (sc_if (l_sc s)).
Proof.
  intros C ps qs C' He. induction He as [C|C C1 C2 p cid ty q ps qs E He IH]; intros w n k s c m rs Hw -> Hps Hqs Hn Hf Hs Hr; cbn [fmap list_fmap] in Hw.
  - inversion Hw; subst. exists s, c. cbn. rewrite app_nil_r. by splits.
  - apply Forall_cons in Hps as [(Hg & Hu & Hl) Hps]. apply Forall_cons in Hqs as [[Hb Hlen] Hqs].
    inversion Hw as [|idle m0 ms w1 n1 k1 Hw1|m0 ms w1 n1 k1 Hw1]; subst; [|exfalso; clear -Hw1 H3; apply sends_nonneg in Hw1; lia].
    assert (Hx : expands big (sc_flags (l_sc s)) (concat [sl_tag ty q]) p (sc_comp (l_sc s)) (sync C1)).
    { cbn [concat]. rewrite app_nil_r. eapply compress_expands; [exact Hs|exact Hg| |exact Hf|unfold SLMAX, SLMTU, Mbuf.MCLBYTES, BUFOFFSET in *; lia|exact E].
      intros i c0 Hc _ H4 Hbit. exfalso. specialize (Hn i c0 Hc H4). congruence. }
    cbn [length] in Hr. change (S (length ps) + m)%nat with (S (length ps + m)) in Hr.
    destruct (receive_frame big now s c (length ps + m) rs idle [sl_tag ty q] p (sync C1) Hr) as (s1 & c1 & E1 & Hr1 & Hs1 & Hf1 & Hi1).
    { cbn. by rewrite app_nil_r. }
    { cbn [concat]. rewrite app_nil_r. unfold SLMAX, SLMTU, Mbuf.MCLBYTES, BUFOFFSET in *. lia. }
    { exact Hx. }
    destruct (IH w1 n1 (length ps + m)%nat s1 c1 m (rs ++ [p]) Hw1) as (s2 & c2 & E2 & Hr2 & Hi2); try done.
    { destruct (sendable_step big C _ p cid (conj Hg (conj Hu Hl)) Hs Hn) as (ty' & q' & C3 & E3 & _ & Hn3 & _). rewrite E in E3. by injection E3 as _ _ <-. }
    { by rewrite Hf1. }
    exists s2, c2. rewrite slinputs_app, E1. bind. split; [done|]. rewrite <- app_assoc in Hr2. split; [done|congruence].
Qed.

Section sender.
Context (oproc : Clist.ttymem -> Clist.clist -> outcome (list Z * Clist.ttymem * Clist.clist)) (own : list Z) (big : bool).
Hypothesis oproc_takes : forall cm q bs, out own cm q bs ->
  exists w cm' q' rest, oproc cm q = Ret (w, cm', q') /\ bs = w ++ rest /\ out own cm' q' rest /\ Clist.frame own cm cm'.

(** The sender between calls. *)
Record sending (s : line) (bs : list Z) : Prop := Sending {
  sg_out : out own (l_cm s) (t_outq (l_tp s)) bs;
  sg_queues : Forall sendable (waiting s);
  sg_comp : (exists R, sync (sc_comp (l_sc s)) R) /\ nourg (sc_comp (l_sc s));
  sg_flags : has (sc_flags (l_sc s)) SC_COMPRESS = true;
  sg_up : sc_ttyp (l_sc s) = true /\ t_carr (l_tp s) = true
}.

(** The packets [ps] were taken, all of class [fast]; as data [qs] they are on the
    line ([w0] before them) or wait. *)
Record taken (fast : bool) (C0 : slcompress) (w0 : list Z) (co : Z) (s : line) (bs : list Z) (ps : list (list Z)) : Prop := Taken {
  tk_enc : exists qs done left w n k, encoded C0 ps qs (sc_comp (l_sc s)) /\ qs = done ++ left /\
    sends ((fun q => [q]) <$> done) w n k /\ l_wire s ++ bs = w0 ++ w /\
    ifq_head (if fast then sc_fastq (l_sc s) else sc_snd (l_sc s)) = (fun q => [q]) <$> left /\
    if_collisions (sc_if (l_sc s)) = co + k /\ Forall (fun q => bytes q /\ 3 <= len q <= SLMTU) qs;
  tk_other : ifq_head (if fast then sc_snd (l_sc s) else sc_fastq (l_sc s)) = []
}.

Lemma sends_app a b w1 w2 n1 n2 k1 k2 : sends a w1 n1 k1 -> sends b w2 n2 k2 -> sends (a ++ b) (w1 ++ w2) (n1 + n2) (k1 + k2).
Proof.
  induction 1 as [|idle m ms w n k H IH|m ms w n k H IH]; intros Hb; [done| |]; cbn [app].
  - rewrite <- app_assoc. replace (n + 1 + n2) with (n + n2 + 1) by lia. constructor. by apply IH.
  - replace (k + 1 + k2) with (k + k2 + 1) by lia. constructor. by apply IH.
Qed.

Lemma slstart_sending now s bs : sending s bs -> exists s' bs' done n k, slstart oproc now s = Ret s' /\ started own s s' bs bs' done n k /\ sending s' bs' /\
  (t_sc (l_tp s) = true -> waiting s' = [] \/ SLIP_HIWAT < len bs').
Proof.
  intros [A1 A2 A3 A4 A5]. destruct (slstart_loop_ok oproc own oproc_takes now (S (queued s)) s bs) as (s' & bs' & dn & n & k & E & S & H); [lia|done|done|].
  exists s', bs', dn, n, k. split; [exact E|]. split; [exact S|]. split; [|exact H]. destruct (st_same _ _ _ _ _ _ _ _ S) as (_ & _ & _ & B1 & B2 & B3 & B4 & _).
  constructor; [apply S| |by rewrite B2|by rewrite B3|by rewrite B4, B1]. destruct (st_left _ _ _ _ _ _ _ _ S) as (a & b & _ & E1 & E2 & _).
  unfold waiting in *. rewrite E1, E2 in A2. apply Forall_app in A2 as [A2 A2']. apply Forall_app in A2 as [_ A2]. apply Forall_app in A2' as [_ A2']. by apply Forall_app.
Qed.

Lemma slstart_taken fast C0 w0 co s s' bs bs' dn n k ps : started own s s' bs bs' dn n k -> taken fast C0 w0 co s bs ps -> taken fast C0 w0 co s' bs' ps.
Proof.
  intros S [(qs & d & l & w & n0 & k0 & E1 & E2 & E3 & E4 & E5 & E6 & E7) O]. destruct (st_same _ _ _ _ _ _ _ _ S) as (_ & _ & _ & _ & B2 & _).
  destruct (st_sends _ _ _ _ _ _ _ _ S) as (w2 & S1%rounds_sends & S2). destruct (st_count _ _ _ _ _ _ _ _ S) as [_ Hc]. destruct (st_left _ _ _ _ _ _ _ _ S) as (a & b & -> & L1 & L2 & _).
  assert (H : exists x, a ++ b = x /\ (fun q => [q]) <$> l = x ++ ifq_head (if fast then sc_fastq (l_sc s') else sc_snd (l_sc s')) /\ ifq_head (if fast then sc_snd (l_sc s') else sc_fastq (l_sc s')) = []).
  { destruct fast.
    - rewrite O in L2. symmetry in L2. apply app_nil in L2 as [-> L2]. exists a. rewrite app_nil_r, <- E5, L1. by splits.
    - rewrite O in L1. symmetry in L1. apply app_nil in L1 as [-> L1]. exists b. rewrite <- E5, L2. by splits. }
  destruct H as (x & Hx & Hl & O'). rewrite Hx in S1. apply fmap_app_inv in Hl as (l1 & l2 & X1 & X2 & ->). subst x.
  constructor; [|exact O']. exists qs, (d ++ l1), l2, (w ++ w2), (n0 + n), (k0 + k). rewrite B2. splits; try done.
  - by rewrite E2, <- app_assoc.
  - rewrite fmap_app. rewrite X1 in S1. by apply sends_app.
  - by rewrite S2, E4, <- app_assoc.
  - rewrite Hc, E6. lia.
Qed.

Lemma sloutput_taken fast C0 w0 co p now s bs ps : sending s bs -> sendable_tcp big p -> interactive big p = fast ->
  exists e s' bs', sloutput oproc big AF_INET [p] now s = Ret (e, s') /\ sending s' bs' /\ (taken fast C0 w0 co s bs ps -> e = 0 -> taken fast C0 w0 co s' bs' (ps ++ [p])).
Proof.
  intros HS Hp Hf. pose proof HS as [A1 A2 [[R A3] A4] A5 [A6 A7]]. unfold sloutput. rewrite A6, A7. change (AF_INET =? AF_INET) with true. cbn [negb].
  pose proof Hp as ((_ & _ & _ & _ & _ & _ & Hproto & _) & _). unfold sl_classify. cbn [hd tail]. rewrite Hproto, Z.eqb_refl, A5. fold (ports big p). fold (interactive big p). rewrite Hf.
  destruct (sendable_step big _ R p fast Hp A3 A4) as (ty & q & C' & E & HR & HN & Hsend & Hlen). rewrite E. bind.
  set (sc := set_comp (l_sc s) C'). set (ifq := if fast then _ else _).
  destruct (IF_QFULL ifq).
  { eexists ENOBUFS, _, bs. split; [reflexivity|]. split; [|done]. constructor; try done.
    - unfold waiting in *. by destruct fast.
    - by destruct fast.
    - by destruct fast.
    - by destruct fast. }
  set (s1 := set_sc s _).
  assert (Hw1 : ifq_head (if fast then sc_fastq (l_sc s1) else sc_snd (l_sc s1)) = ifq_head (if fast then sc_fastq (l_sc s) else sc_snd (l_sc s)) ++ [[sl_tag ty q]] /\
    ifq_head (if fast then sc_snd (l_sc s1) else sc_fastq (l_sc s1)) = ifq_head (if fast then sc_snd (l_sc s) else sc_fastq (l_sc s))) by (by destruct fast).
  destruct Hw1 as [W1 W2]. assert (HS1 : sending s1 bs).
  { constructor; try (by destruct fast). unfold waiting in *. apply Forall_app in A2 as [X1 X2]. destruct fast; rewrite W1, W2; rewrite ?app_assoc; repeat (apply Forall_app; split); try done; by constructor. }
  assert (HT1 : taken fast C0 w0 co s bs ps -> taken fast C0 w0 co s1 bs (ps ++ [p])).
  { intros HT. destruct HT as [(qs & d & l & w & n0 & k0 & E1 & E2 & E3 & E4 & E5 & E6 & E7) O]. constructor; [|by rewrite W2].
    exists (qs ++ [sl_tag ty q]), d, (l ++ [sl_tag ty q]), w, n0, k0. splits; try done.
    - assert (Ec : sc_comp (l_sc s1) = C') by (by destruct fast). rewrite Ec. by eapply encoded_snoc.
    - by rewrite E2, <- app_assoc.
    - rewrite W1, E5, fmap_app. done.
    - assert (Eco : if_collisions (sc_if (l_sc s1)) = if_collisions (sc_if (l_sc s))) by (by destruct fast). by rewrite Eco.
    - apply Forall_app. split; [done|]. constructor; [|done]. split; [|done]. destruct Hsend as [Hb _]. by inversion Hb. }
  destruct (Clist.c_cc _ =? 0); [|exists 0, s1, bs; split; [done|]; split; [done|]; intros HT _; by apply HT1].
  destruct (slstart_sending now s1 bs HS1) as (s2 & bs2 & dn & n & k & -> & St & HS2 & _). bind. exists 0, s2, bs2. split; [done|]. split; [done|]. intros HT _. eapply slstart_taken; [exact St|by apply HT1].
Qed.

(** The packets of the events. *)
Definition outputs (evs : list event) : list packet := omap (fun e => match e with Output m _ => Some m | Restart _ => None end) evs.

Lemma run_sender_ok fast C0 w0 co : forall evs s bs ps xs, sending s bs -> outputs evs = (fun p => [p]) <$> xs -> Forall (fun p => sendable_tcp big p /\ interactive big p = fast) xs ->
  exists es s' bs', run_sender oproc big evs s = Ret (es, s') /\ sending s' bs' /\ length es = length xs /\
    (taken fast C0 w0 co s bs ps -> Forall (fun e => e = 0) es -> taken fast C0 w0 co s' bs' (ps ++ xs)).
Proof.
  induction evs as [|[m now|now] evs IH]; intros s bs ps xs HS Hxs Hok; cbn [run_sender].
  - destruct xs; [|done]. exists [], s, bs. rewrite app_nil_r. by splits.
  - destruct xs as [|p xs]; [done|]. cbn in Hxs. injection Hxs as -> Hxs. apply Forall_cons in Hok as [[Hp Hf] Hok].
    destruct (sloutput_taken fast C0 w0 co p now s bs ps HS Hp Hf) as (e & s1 & bs1 & -> & HS1 & HT1). bind.
    destruct (IH s1 bs1 (ps ++ [p]) xs HS1 Hxs Hok) as (es & s2 & bs2 & -> & HS2 & Hl & HT2). bind. exists (e :: es), s2, bs2.
    split; [done|]. split; [done|]. split; [cbn; by rewrite Hl|]. intros HT Hes. apply Forall_cons in Hes as [He Hes].
    specialize (HT2 (HT1 HT He) Hes). by rewrite <- app_assoc in HT2.
  - destruct (slstart_sending now s bs HS) as (s1 & bs1 & dn & n & k & -> & St & HS1 & _). bind.
    destruct (IH s1 bs1 ps xs HS1 Hxs Hok) as (es & s2 & bs2 & -> & HS2 & Hl & HT2). exists es, s2, bs2.
    split; [done|]. split; [done|]. split; [done|]. intros HT Hes. apply HT2; [|done]. by eapply slstart_taken.
Qed.
End sender.

(** ** Concrete lines *)

(** A driver that takes up to [k] characters at a time. *)
Definition driver (k : Z) (cm : Clist.ttymem) (q : Clist.clist) : outcome (list Z * Clist.ttymem * Clist.clist) := Clist.q_to_b cm q k.

Definition demo_cm : Clist.ttymem :=
  match Clist.cinit (Clist.fresh_mem 60) 64 61 with Ret st => st | _ => Clist.fresh_mem 0 end.
Definition no_if : ifstat := If IFF_UP 0 0 0 0 0 0 0 0 0.
Definition demo_tty : tty := Tty (Clist.Cl 0 Clist.NULL Clist.NULL) true 5 true.
Definition demo_sc (flags : Z) : sl_softc :=
  Sc no_if (Ifq [] 50 0) (Ifq [] 32 0) true BUFOFFSET (Some 1) BUFOFFSET flags false 0 0 0 0 0 sl_compress_init.
(** The input buffer is cluster 1; clusters 2 to 9 are free. *)
Definition demo_mb : Mbuf.mstate :=
  Mbuf.MS [] (fun _ => 0) (Mbuf.Stat ∅ 0 8 9)
     (Mbuf.Pool {[ 1 := replicate 1024 0 ]} {[ 1 := 1 ]} [2; 3; 4; 5; 6; 7; 8; 9] (Rmap.Rmap (Rmap.layout [] 3) [] false 0) [] 0) 0 0.
Definition demo_line (flags : Z) : line := Line (demo_sc flags) demo_tty demo_cm demo_mb (Ifq [] 50 0) [].

(** Background traffic: the destination port is 119. *)
Definition pkt_bg : list Z := [69; 0; 0; 40; 0; 9; 0; 0; 64; 6; 102; 197; 10; 0; 0; 1; 10; 0; 0; 2;
  4; 1; 0; 119; 0; 0; 0; 77; 0; 0; 0; 88; 80; 16; 16; 0; 171; 205; 0; 0].

(** What is on [ipintrq]. *)
Definition received (s : line) : list (list Z) := Mbuf.data (l_mb s) <$> ifq_head (l_ip s).

Definition demo_events : list event :=
  [Output [pkt_bg] 0; Output [pkt_bg] 0; Output [pkt_a] 0; Restart 0; Restart 0; Restart 0; Restart 0; Restart 0; Restart 0; Output [pkt_b] 0; Restart 0; Restart 0; Restart 0].

(** ** Properties *)

Lemma encoded_split C : forall ps a b C', encoded C ps (a ++ b) C' -> exists C1 ps1 ps2, ps = ps1 ++ ps2 /\ encoded C ps1 a C1 /\ length ps2 = length b.
Proof.
  intros ps a. revert C ps. induction a as [|q a IH]; intros C ps b C' H.
  - exists C, [], ps. split; [done|]. split; [constructor|]. by eapply encoded_length.
  - inversion H as [|? C1 ? p cid ty q0 ps0 qs E H']; subst. destruct (IH C1 ps0 b C' H') as (C2 & ps1 & ps2 & -> & H1 & H2).
    exists C2, (p :: ps1), ps2. split; [done|]. split; [|done]. by econstructor.
Qed.

(** C2: a serial line is transparent.  A sender whose interface starts fresh takes
    any sequence of calls of sloutput, with TCP packets (well formed, without the
    urgent flag, whole in an mbuf, within the MTU) that all are interactive or all
    are not, and of slstart by a driver that takes any characters it likes from the
    front of the output queue.  Nothing panics or loops; and if no packet was
    refused or flushed, a fresh receiver that is given the characters sent and
    those still in the output queue has on its input queue exactly the packets
    handed over, in order and byte for byte, less those still on the interface's
    queue: each in an mbuf of its own that the receive buffer does not share. *)
Theorem slip_transparent oproc own big fast evs S xs R c now :
  (forall cm q bs, out own cm q bs -> exists w cm' q' rest, oproc cm q = Ret (w, cm', q') /\ bs = w ++ rest /\ out own cm' q' rest /\ Clist.frame own cm cm') ->
  out own (l_cm S) (t_outq (l_tp S)) [] -> l_wire S = [] -> waiting S = [] -> sc_comp (l_sc S) = sl_compress_init -> has (sc_flags (l_sc S)) SC_COMPRESS = true ->
  sc_ttyp (l_sc S) = true -> t_carr (l_tp S) = true ->
  outputs evs = (fun p => [p]) <$> xs -> Forall (fun p => sendable_tcp big p /\ interactive big p = fast) xs ->
  receiving R c (length xs) [] -> sc_comp (l_sc R) = sl_compress_init -> has (sc_flags (l_sc R)) SC_COMPRESS = true ->
  exists es S' bs, run_sender oproc big evs S = Ret (es, S') /\ out own (l_cm S') (t_outq (l_tp S')) bs /\ length es = length xs /\
    (Forall (fun e => e = 0) es -> if_collisions (sc_if (l_sc S')) = if_collisions (sc_if (l_sc S)) ->
     exists R' c' ps left, slinputs big (l_wire S' ++ bs) now R = Ret R' /\ xs = ps ++ left /\ length left = length (waiting S') /\
       Forall2 (got (l_mb R') c') (ifq_head (l_ip R')) ps /\ if_ierrors (sc_if (l_sc R')) = if_ierrors (sc_if (l_sc R))).
Proof.
  intros Hop Ho Hw Hq Hc Hf Hup Hcarr Hevs Hok HR HcR HfR.
  assert (HS : sending own S []).
  { constructor; [done|by rewrite Hq|rewrite Hc; split; [eexists; exact init_sync|exact init_nourg]|done|done]. }
  destruct (run_sender_ok oproc own big Hop fast sl_compress_init [] (if_collisions (sc_if (l_sc S))) evs S [] [] xs HS Hevs Hok) as (es & S' & bs & E & HS' & Hl & HT).
  exists es, S', bs. split; [done|]. split; [apply HS'|]. split; [done|]. intros Hes Hcol.
  apply app_nil in Hq as [Hq1 Hq2].
  destruct HT as [(qs & d & l & w & n & k & E1 & E2 & E3 & E4 & E5 & E6 & E7) Oth]; [|done|].
  { constructor; [|by destruct fast]. exists [], [], [], [], 0, 0. rewrite Hc, Hw. splits; try done; [constructor|constructor|by destruct fast|lia]. }
  assert (k = 0) as -> by lia. cbn [app] in E1, E4. rewrite E2 in E1, E7. destruct (encoded_split _ _ _ _ _ E1) as (C1 & ps1 & ps2 & Ex & He & Hl2).
  apply Forall_app in E7 as [E7 _].
  assert (Hps : Forall (sendable_tcp big) ps1) by (rewrite Ex in Hok; apply Forall_app in Hok as [Hok _]; eapply Forall_impl; [exact Hok|]; by intros ? [? _]).
  destruct (receive_frames big now _ _ _ _ He w n (length xs) R c (length ps2) [] E3) as (R' & c' & Er & Hr' & Hie); try done.
  { by rewrite Ex, length_app. }
  { exact init_nourg. }
  { rewrite HcR. exact init_sync. }
  exists R', c', ps1, ps2. rewrite E4. split; [done|]. split; [done|]. split; [|split; [apply Hr'|done]].
  rewrite Hl2. rewrite <- (length_fmap (fun q => [q]) l), <- E5. unfold waiting. rewrite length_app. destruct fast; rewrite Oth; [symmetry; apply Nat.add_0_r|done].
Qed.

(** C28: slstart sends what waits, the interactive queue first: each packet it takes
    becomes one whole frame at the end of the output queue, or is flushed and counted;
    it takes one only when at most SLIP_HIWAT characters are left on the queue, and
    flushes one only when the clists are low for what is left, so that none is flushed
    when the clists suffice for a full queue.  What the driver took and what is on the
    queue are, in order, what was there before and these frames.  slstart stops only
    when no packet waits or when more than SLIP_HIWAT characters do, so that the
    driver calls again. *)
Theorem slstart_spec oproc own now s bs :
  (forall cm q bs, out own cm q bs -> exists w cm' q' rest, oproc cm q = Ret (w, cm', q') /\ bs = w ++ rest /\ out own cm' q' rest /\ Clist.frame own cm cm') ->
  out own (l_cm s) (t_outq (l_tp s)) bs -> Forall sendable (waiting s) -> t_sc (l_tp s) = true ->
  exists s' bs' dn n k, slstart oproc now s = Ret s' /\ started own s s' bs bs' dn n k /\ (waiting s' = [] \/ SLIP_HIWAT < len bs') /\
    (CLISTRESERVE + SLMTU + SLIP_HIWAT + Clist.CBSIZE + Clist.CBLOCK <= total own -> k = 0).
Proof.
  intros Hop Ho Hw Ht. destruct (slstart_loop_ok oproc own Hop now (S (queued s)) s bs) as (s' & bs' & dn & n & k & E & St & H); [lia|done|done|].
  exists s', bs', dn, n, k. split; [exact E|]. split; [done|]. split; [by apply H|]. intros Hc.
  destruct (st_sends _ _ _ _ _ _ _ _ St) as (w & Hr & _). by eapply rounds_kept.
Qed.

(** What comes of [pkt_b]: the connection of [pkt_bg], the data of [pkt_b]. *)
Definition pkt_x : list Z := [69; 0; 0; 42; 0; 10; 0; 0; 64; 6; 102; 194; 10; 0; 0; 1; 10; 0; 0; 2;
  4; 1; 0; 119; 0; 0; 0; 77; 0; 0; 0; 88; 80; 24; 16; 0; 171; 205; 0; 0; 3; 4].
Lemma reorder_run : match run_sender (driver 30) true demo_events (demo_line SC_COMPRESS) with
  | Ret (es, s) => match slinputs true (l_wire s) 0 (demo_line SC_COMPRESS) with
      | Ret s' => Some (es, if_collisions (sc_if (l_sc s)), waiting s, Clist.c_cc (t_outq (l_tp s)), if_ierrors (sc_if (l_sc s')), received s')
      | _ => None
      end
  | _ => None
  end = Some ([0; 0; 0; 0], 0, [], 0, 0, [pkt_bg; pkt_a; pkt_bg; pkt_x]).
Proof. vm_compute. reflexivity. Qed.

(** With both kinds of traffic the line is not transparent.  Compression is done
    when a packet is queued, but interactive packets overtake others afterwards:
    here a background packet [pkt_bg] waits while [pkt_a] passes it, so that when
    [pkt_b] follows [pkt_a] without a connection number the receiver takes it for
    the background connection's.  Nothing was dropped, and the data of one
    connection is delivered under the addresses and ports of another. *)
Theorem slip_reorder : exists s s', run_sender (driver 30) true demo_events (demo_line SC_COMPRESS) = Ret ([0; 0; 0; 0], s) /\
  if_collisions (sc_if (l_sc s)) = 0 /\ waiting s = [] /\ Clist.c_cc (t_outq (l_tp s)) = 0 /\
  slinputs true (l_wire s) 0 (demo_line SC_COMPRESS) = Ret s' /\ if_ierrors (sc_if (l_sc s')) = 0 /\
  exists p, received s' = [pkt_bg; pkt_a; pkt_bg; p] /\ same_conn p (ip_hl p) (CS 0 40 0 pkt_bg) = true /\ drop 40 p = drop 40 pkt_b /\ p <> pkt_b.
Proof.
  pose proof reorder_run as H. destruct (run_sender _ _ _ _) as [[es s]| |]; [|done|done]. destruct (slinputs _ _ _ _) as [s'| |] eqn:E; [|done|done].
  injection H as -> H1 H2 H3 H4 H5. exists s, s'. splits; try done. exists pkt_x. split; [done|]. split; [by vm_compute|by split].
Qed.

(** A character that the buffer has no room for drops the packet so far. *)
Lemma input_overflow big now s cl bs c : ready s cl bs false -> 0 <= c < 256 -> len bs = SLMAX ->
  exists s1 s', slinputs big (escape1 c) now s = Ret s' /\ quiet s s1 cl /\ ready s' cl [] false /\ l_mb s' = l_mb s1 /\ l_ip s' = l_ip s1 /\
    sc_comp (l_sc s') = sc_comp (l_sc s1) /\ sc_flags (l_sc s') = sc_flags (l_sc s1) /\ if_ierrors (sc_if (l_sc s')) = if_ierrors (sc_if (l_sc s1)) + 1.
Proof.
  intros Hr Hc Hlen. destruct (input_char big now s cl bs c Hr Hc) as (s1 & e & -> & Hr1 & Hq1). unfold sl_store. destruct (rd_ptrs _ _ _ _ Hr1) as [_ ->].
  unfold SLBUFSIZE. destruct (Z.ltb_spec (BUFOFFSET + len bs) (SLMAX + BUFOFFSET)); [lia|]. exists s1. eexists. split; [reflexivity|]. split; [done|].
  destruct (newpack_ready _ _ _ _ Hr1) as [[A1 A2 A3 A4 A5 A6] _]. split; [by constructor|]. by splits.
Qed.

(** a frame longer than the input buffer does not end where it should.  The
    character that does not fit drops what was stored and counts an error, but
    the state is then that of the beginning of a packet: the rest of the same
    frame is taken for a packet, and delivered when it looks like one. *)
Theorem slinput_oversize big now s c k ps idle a x p : receiving s c (S k) ps -> bytes a -> 0 <= x < 256 -> bytes p -> len a = SLMAX -> 3 <= len p <= SLMAX ->
  Z.land (b8 p 0) 0xf0 = 0x40 ->
  exists s' c', slinputs big (frame idle [a ++ x :: p]) now s = Ret s' /\ receiving s' c' k (ps ++ [p]) /\ if_ierrors (sc_if (l_sc s')) = if_ierrors (sc_if (l_sc s)) + 1.
Proof.
  intros HR Ba Hx Bp La Lp H4.
  assert (E : frame idle [a ++ x :: p] = (if idle then [FRAME_END] else []) ++ escape a ++ escape1 x ++ frame false [p]).
  { unfold frame. cbn [concat]. rewrite !app_nil_r, escape_app, escape_cons. cbn [app]. by rewrite <- !app_assoc. }
  rewrite E, slinputs_app. pose proof HR as [H1 H2 H3 Hroom].
  destruct (input_idle big now c idle s H1) as (s0 & -> & Hr0 & Hq0). bind. rewrite slinputs_app.
  destruct (input_escape big now c a s0 [] Hr0 Ba) as (s1 & -> & Hr1 & Hq1); [change (len []) with 0; lia|]. bind. cbn [app] in Hr1. rewrite slinputs_app.
  destruct (input_overflow big now s1 c a x Hr1 Hx La) as (s2 & s3 & -> & Hq2 & Hr3 & E1 & E2 & E3 & E4 & E5). bind.
  assert (Hq : quiet s s2 c) by (eapply quiet_trans; [exact Hq0|]; by eapply quiet_trans).
  assert (HR3 : receiving s3 c (S k) ps).
  { constructor; [done|rewrite E1; by eapply quiet_mem| |by rewrite E2, (qt_ip _ _ _ Hq)]. rewrite E1, E2, (qt_ip _ _ _ Hq). eapply Forall2_impl; [exact H3|]. intros m0 p0. by apply quiet_got. }
  destruct (receive_frame big now s3 c k ps false [p] p (fun _ => True) HR3) as (s4 & c4 & E6 & HR4 & _ & _ & Hi); try (cbn [concat]; rewrite app_nil_r; done).
  { left. cbn [concat]. by rewrite app_nil_r. }
  exists s4, c4. split; [done|]. split; [done|]. rewrite Hi, E5. by destruct (qt_if _ _ _ Hq) as (-> & _).
Qed.

(** *** Interactive traffic *)

Definition known (x : Z) : bool := (x =? 0) || (x =? 21) || (x =? 23) || (x =? 513).
Definition swap16 (x : Z) : Z := 256 * (x mod 256) + x / 256.

Lemma INTERACTIVE_ok x : x < 65536 -> INTERACTIVE x = known x.
Proof.
  intros Hx. unfold INTERACTIVE. assert (Hm : 0 <= Z.land x 7 < 8) by (change 7 with (Z.ones 3); rewrite Z.land_ones by lia; apply Z.mod_pos_bound; lia).
  assert (Hk : forall y, y ∈ [0; 21; 23; 513] -> interactive_ports !!! Z.to_nat (Z.land y 7) = y).
  { intros y Hy. repeat (apply elem_of_cons in Hy as [->|Hy]; [done|]). by apply not_elem_of_nil in Hy. }
  assert (Ht : interactive_ports !!! Z.to_nat (Z.land x 7) ∈ [0; 21; 23; 513]).
  { assert (Z.land x 7 = 0 \/ Z.land x 7 = 1 \/ Z.land x 7 = 2 \/ Z.land x 7 = 3 \/ Z.land x 7 = 4 \/ Z.land x 7 = 5 \/ Z.land x 7 = 6 \/ Z.land x 7 = 7) as H by lia.
    repeat (destruct H as [-> |H]; [by apply (bool_decide_unpack _)|]). rewrite H. by apply (bool_decide_unpack _). }
  unfold known. destruct (Z.eqb_spec (interactive_ports !!! Z.to_nat (Z.land x 7)) x) as [E|E].
  - rewrite E in Ht. repeat (apply elem_of_cons in Ht as [->|Ht]; [done|]). by apply not_elem_of_nil in Ht.
  - symmetry. repeat (apply orb_false_iff; split); apply Z.eqb_neq; intros ->; by apply E.
Qed.

Lemma word_halves hi lo : 0 <= hi < 65536 -> 0 <= lo < 65536 -> let w := s32 (hi * 65536 + lo) in
  INTERACTIVE (Z.land w 0xffff) || INTERACTIVE (Z.shiftr w 16) = known lo || known hi.
Proof.
  intros Hhi Hlo w. assert (Hw : w = hi * 65536 + lo \/ w = (hi - 65536) * 65536 + lo /\ 32768 <= hi) by (unfold w, s32; zdiv). clearbody w.
  assert (El : Z.land w 0xffff = lo) by (change 0xffff with (Z.ones 16); rewrite Z.land_ones by lia; change (2 ^ 16) with 65536; destruct Hw as [->|[-> _]]; zdiv).
  assert (Eh : Z.shiftr w 16 = hi \/ Z.shiftr w 16 = hi - 65536 /\ 32768 <= hi).
  { rewrite Z.shiftr_div_pow2 by lia. change (2 ^ 16) with 65536. destruct Hw as [->|[-> H]]; [left|right]; zdiv. }
  rewrite El, (INTERACTIVE_ok lo) by lia. rewrite INTERACTIVE_ok by (destruct Eh as [->|[-> _]]; lia). f_equal. destruct Eh as [->|[-> H]]; [done|]. unfold known.
  repeat match goal with |- context [?a =? ?b] => destruct (Z.eqb_spec a b); [lia|] end. done.
Qed.

(** Which packets are interactive.  On a machine that stores the most
    significant byte first, those with the port of telnet, rlogin or the ftp
    control connection (or 0) at one end.  The ports are not converted from
    network order: on the others, the VAX among them, those with one of these
    ports byte-swapped, so telnet is background traffic and port 5888 is not. *)
Theorem interactive_order p : bytes p ->
  let src := b16 p (4 * ip_hl p) in let dst := b16 p (4 * ip_hl p + 2) in
  interactive true p = known dst || known src /\ interactive false p = known (swap16 src) || known (swap16 dst).
Proof.
  intros Hp src dst. pose proof (b16_range p (4 * ip_hl p) Hp). pose proof (b16_range p (4 * ip_hl p + 2) Hp). split.
  - unfold interactive, ports, int_at, b32. by apply word_halves.
  - unfold interactive, ports, int_at. set (t := 4 * ip_hl p) in *.
    pose proof (b8_range p t Hp). pose proof (b8_range p (t + 1) Hp). pose proof (b8_range p (t + 2) Hp). pose proof (b8_range p (t + 3) Hp).
    assert (E1 : swap16 src = b8 p t + 256 * b8 p (t + 1)) by (unfold swap16, src, b16; zdiv).
    assert (E2 : swap16 dst = b8 p (t + 2) + 256 * b8 p (t + 3)) by (unfold swap16, dst, b16; replace (t + 2 + 1) with (t + 3) by lia; zdiv).
    rewrite <- (word_halves (swap16 dst) (swap16 src)) by (rewrite ?E1, ?E2; lia). cbv zeta. rewrite E1, E2. do 3 f_equal; f_equal; lia.
Qed.

(** ** Witnesses *)

Definition demo_own : list Z := Clist.cblock_addrs 64 61.

Lemma demo_out : out demo_own demo_cm (Clist.Cl 0 Clist.NULL Clist.NULL) [].
Proof.
  destruct (Clist.cinit_spec (Clist.cblocks (Clist.fresh_mem 60)) 64 61) as (st & E & H & _); [lia|lia|apply (Clist.fresh_ok 60); lia|].
  exists []. split; [|done]. unfold demo_cm. change (Clist.fresh_mem 60) with (Clist.Tm (Clist.cblocks (Clist.fresh_mem 60)) Clist.NULL 0 false 0). rewrite E. exact H.
Qed.

Lemma driver_takes k own cm q bs : out own cm q bs -> exists w cm' q' rest, driver k cm q = Ret (w, cm', q') /\ bs = w ++ rest /\ out own cm' q' rest /\ Clist.frame own cm cm'.
Proof.
  intros (l & (b & fl & Hp & Hi) & <-). destruct (Clist.q_to_b_ok cm q b fl l k Hi) as (cm' & q' & E & (b' & fl' & Hi' & Hp' & Hf)).
  eexists _, cm', q', _. split; [exact E|]. split; [|split; [exists (drop (Z.to_nat k) l); split; [exists b', fl'; split; [by rewrite Hp'|exact Hi']|reflexivity]|intros x Hx; apply Hf; by rewrite Hp]].
  by rewrite <- fmap_app, take_drop.
Qed.

Lemma demo_receiving fl n : has fl SC_ABORT = false -> (n <= 8)%nat -> receiving (demo_line fl) 1 n [].
Proof.
  intros Hf Hn. constructor; [|by constructor; [|apply (bool_decide_unpack _)|]|done|cbn; lia].
  constructor; try done. exists (replicate 128 0), (replicate 896 0). split; [|done]. by vm_compute.
Qed.

Definition demo_run : list event := [Output [pkt_a] 0; Restart 0; Output [pkt_b] 0; Output [pkt_c] 0; Restart 0; Restart 0].
Lemma demo_result : match run_sender (driver 30) true demo_run (demo_line SC_COMPRESS) with
  | Ret (es, s) => Some (es, if_collisions (sc_if (l_sc s)), length (waiting s))
  | _ => None
  end = Some ([0; 0; 0], 0, 0%nat).
Proof. vm_compute. reflexivity. Qed.
Lemma demo_packets : Forall (fun p => sendable_tcp true p /\ interactive true p = true) [pkt_a; pkt_b; pkt_c].
Proof.
  pose proof (good_packets true) as H. apply Forall_cons in H as [H1 H]. apply Forall_cons in H as [H2 H]. apply Forall_cons in H as [H3 _].
  repeat constructor; try done; by vm_compute.
Qed.

Lemma slip_transparent_witness : exists S' bs R' c', run_sender (driver 30) true demo_run (demo_line SC_COMPRESS) = Ret ([0; 0; 0], S') /\
  slinputs true (l_wire S' ++ bs) 0 (demo_line SC_COMPRESS) = Ret R' /\ Forall2 (got (l_mb R') c') (ifq_head (l_ip R')) [pkt_a; pkt_b; pkt_c].
Proof.
  destruct (slip_transparent (driver 30) demo_own true true demo_run (demo_line SC_COMPRESS) [pkt_a; pkt_b; pkt_c] (demo_line SC_COMPRESS) 1 0) as (es & S' & bs & E & _ & _ & H).
  - intros cm q bs. apply driver_takes.
  - exact demo_out.
  - reflexivity.
  - reflexivity.
  - reflexivity.
  - reflexivity.
  - reflexivity.
  - reflexivity.
  - reflexivity.
  - exact demo_packets.
  - apply demo_receiving; [reflexivity|cbn; lia].
  - reflexivity.
  - reflexivity.
  - pose proof demo_result as Hr. rewrite E in Hr. injection Hr as -> Hc Hw. destruct H as (R' & c' & ps & left & Er & Ex & Hl & Hg & _); [by repeat constructor|exact Hc|].
    rewrite Hw in Hl. apply nil_length_inv in Hl as ->. rewrite app_nil_r in Ex. subst ps. exists S', bs, R', c'. split; [exact E|]. split; [exact Er|exact Hg].
Defined.

Lemma slstart_spec_witness : exists s' bs' dn n k, slstart (driver 30) 0 (set_sc (demo_line 0) (set_queues (demo_sc 0) (Ifq [[[1; 2; 3]]] 50 0) (Ifq [] 32 0))) = Ret s' /\
  started demo_own (set_sc (demo_line 0) (set_queues (demo_sc 0) (Ifq [[[1; 2; 3]]] 50 0) (Ifq [] 32 0))) s' [] bs' dn n k /\ (waiting s' = [] \/ SLIP_HIWAT < len bs') /\ k = 0.
Proof.
  destruct (slstart_spec (driver 30) demo_own 0 (set_sc (demo_line 0) (set_queues (demo_sc 0) (Ifq [[[1; 2; 3]]] 50 0) (Ifq [] 32 0))) []) as (s' & bs' & dn & n & k & E & St & H & Hk).
  - intros cm q bs. apply driver_takes.
  - exact demo_out.
  - constructor; [|constructor]. split; [repeat constructor; lia|by vm_compute].
  - reflexivity.
  - exists s', bs', dn, n, k. split; [exact E|]. split; [exact St|]. split; [exact H|apply Hk; by vm_compute].
Defined.

Lemma slinput_oversize_witness : exists s' c', slinputs true (frame true [replicate 896 1 ++ 2 :: [69; 0; 0]]) 0 (demo_line 0) = Ret s' /\
  receiving s' c' 7 [[69; 0; 0]] /\ if_ierrors (sc_if (l_sc s')) = 1.
Proof.
  apply (slinput_oversize true 0 (demo_line 0) 1 7 [] true (replicate 896 1) 2 [69; 0; 0]).
  - apply demo_receiving; [reflexivity|lia].
  - apply Forall_replicate. lia.
  - lia.
  - repeat constructor; lia.
  - reflexivity.
  - by vm_compute.
  - reflexivity.
Defined.

Lemma interactive_order_witness : interactive true pkt_a = true /\ interactive false pkt_a = false.
Proof.
  destruct (interactive_order pkt_a) as [-> ->]; [|split; reflexivity]. by apply (bool_decide_unpack _).
Defined.

End SlLine.
