(* ===== verification/Ip.v ===== *)
(** The Internet header of sys/netinet/ip.h, as a record and as the bytes of a
    packet, and the counters of struct ipstat (sys/netinet/ip_var.h). *)
From stdpp Require Import base numbers list gmap strings.
From Stdlib Require Import ZArith Lia.
From S2P Require Import Prelude Rmap Mbuf.

Module Ip.
Import Mbuf.

(** ** Constants *)
Definition IPVERSION : Z := 4.
Definition IP_DF : Z := 0x4000.
Definition IP_MF : Z := 0x2000.
Definition IP_MAXPACKET : Z := 65535.
Definition IPFRAGTTL : Z := 60.
Definition IPTTLDEC : Z := 1.
Definition MT_SOOPTS : Z := 10.
Definition MT_FTABLE : Z := 11.
Definition sizeof_ip : Z := 20.

(** ** The header

    [ip_len] and [ip_off] are shorts and hold host values here; the addresses
    are [u_long]s, only compared and copied. *)
Record ip := Ip {
  ip_v : Z;
  ip_hl : Z;
  ip_tos : Z;
  ip_len : Z;
  ip_id : Z;
  ip_off : Z;
  ip_ttl : Z;
  ip_p : Z;
  ip_sum : Z;
  ip_src : Z;
  ip_dst : Z }.

Definition set_tos (v : Z) (h : ip) : ip :=
  Ip (ip_v h) (ip_hl h) (u8 v) (ip_len h) (ip_id h) (ip_off h) (ip_ttl h) (ip_p h) (ip_sum h) (ip_src h) (ip_dst h).
Definition set_iplen (v : Z) (h : ip) : ip :=
  Ip (ip_v h) (ip_hl h) (ip_tos h) (s16 v) (ip_id h) (ip_off h) (ip_ttl h) (ip_p h) (ip_sum h) (ip_src h) (ip_dst h).
Definition set_ipoff (v : Z) (h : ip) : ip :=
  Ip (ip_v h) (ip_hl h) (ip_tos h) (ip_len h) (ip_id h) (s16 v) (ip_ttl h) (ip_p h) (ip_sum h) (ip_src h) (ip_dst h).
Definition set_addrs (src dst : Z) (h : ip) : ip :=
  Ip (ip_v h) (ip_hl h) (ip_tos h) (ip_len h) (ip_id h) (ip_off h) (ip_ttl h) (ip_p h) (ip_sum h) src dst.
Definition set_sum (v : Z) (h : ip) : ip :=
  Ip (ip_v h) (ip_hl h) (ip_tos h) (ip_len h) (ip_id h) (ip_off h) (ip_ttl h) (ip_p h) (u16 v) (ip_src h) (ip_dst h).

(** ** The header as bytes of a packet, every field in network order but the
    checksum, which is the [u_short] in_cksum returned *)
Definition be16 (n : Z) : list Z := [u16 n / 256; u16 n mod 256].
Definition be32 (n : Z) : list Z := be16 (u32 n / 65536) ++ be16 (u32 n mod 65536).
Definition native16 (big : bool) (n : Z) : list Z := if big then be16 n else rev (be16 n).

Definition ip_bytes (big : bool) (h : ip) : list Z :=
  [ip_v h * 16 + ip_hl h; ip_tos h] ++ be16 (ip_len h) ++ be16 (ip_id h) ++ be16 (ip_off h) ++
  [ip_ttl h; ip_p h] ++ native16 big (ip_sum h) ++ be32 (ip_src h) ++ be32 (ip_dst h).

Definition ip_get (big : bool) (b : list Z) : ip :=
  let g i := default 0 (b !! i) in
  let g16 i := g i * 256 + g (S i) in
  Ip (g 0%nat / 16) (g 0%nat mod 16) (g 1%nat) (s16 (g16 2%nat)) (g16 4%nat) (s16 (g16 6%nat)) (g 8%nat) (g 9%nat)
     (if big then g16 10%nat else g 11%nat * 256 + g 10%nat)
     (g16 12%nat * 65536 + g16 14%nat) (g16 16%nat * 65536 + g16 18%nat).

(** A header whose fields have the values their types allow. *)
Definition ip_wf (h : ip) : Prop :=
  0 <= ip_v h < 16 /\ 0 <= ip_hl h < 16 /\ 0 <= ip_tos h < 256 /\ -32768 <= ip_len h < 32768 /\
  0 <= ip_id h < 65536 /\ -32768 <= ip_off h < 32768 /\ 0 <= ip_ttl h < 256 /\ 0 <= ip_p h < 256 /\
  0 <= ip_sum h < 65536 /\ 0 <= ip_src h < 4294967296 /\ 0 <= ip_dst h < 4294967296.

Lemma ip_bytes_length big h : length (ip_bytes big h) = 20%nat.
Proof. by destruct big. Qed.

Lemma s16_u16 n : -32768 <= n < 32768 -> s16 (u16 n) = n.
Proof. intros H. unfold s16, u16. change (2 ^ 15) with 32768. change (2 ^ 16) with 65536. zdiv. Qed.
Lemma be16_back n : u16 n / 256 * 256 + u16 n mod 256 = u16 n.
Proof. zdiv. Qed.
Lemma be32_back n : 0 <= n < 4294967296 ->
  (u16 (u32 n / 65536) / 256 * 256 + u16 (u32 n / 65536) mod 256) * 65536 +
  (u16 (u32 n mod 65536) / 256 * 256 + u16 (u32 n mod 65536) mod 256) = n.
Proof. intros H. rewrite !be16_back, (u32_small n), !u16_small by (try lia; zdiv). zdiv. Qed.

Lemma ip_get_bytes big h : ip_wf h -> ip_get big (ip_bytes big h) = h.
Proof.
  intros (H1 & H2 & H3 & H4 & H5 & H6 & H7 & H8 & H9 & H10 & H11). unfold ip_get.
  assert (E : (if big then default 0 (ip_bytes big h !! 10%nat) * 256 + default 0 (ip_bytes big h !! 11%nat)
               else default 0 (ip_bytes big h !! 11%nat) * 256 + default 0 (ip_bytes big h !! 10%nat)) = ip_sum h).
  { destruct big; cbn -[u16 u32 Z.mul Z.div Z.modulo Z.add]; rewrite be16_back; by apply u16_small. }
  rewrite E.
  clear E. replace (ip_bytes big h) with ([ip_v h * 16 + ip_hl h; ip_tos h] ++ be16 (ip_len h) ++ be16 (ip_id h) ++ be16 (ip_off h) ++
    [ip_ttl h; ip_p h] ++ [default 0 (ip_bytes big h !! 10%nat); default 0 (ip_bytes big h !! 11%nat)] ++ be32 (ip_src h) ++ be32 (ip_dst h)) by (by destruct big).
  cbn -[u16 u32 Z.mul Z.div Z.modulo Z.add].
  rewrite !be32_back by done. destruct h as [v hl tos len id off ttl p sum src dst]; cbn in *. f_equal; try zdiv.
  - rewrite be16_back. by apply s16_u16.
  - rewrite be16_back. by apply u16_small.
  - rewrite be16_back. by apply s16_u16.
Qed.

(** ** Counters *)
Inductive counter :=
| ips_total | ips_badsum | ips_tooshort | ips_toosmall | ips_badhlen | ips_badlen
| ips_fragments | ips_fragdropped | ips_fragtimeout | ips_forward | ips_cantforward
| ips_redirectsent | ips_noproto | ips_delivered | ips_localout | ips_odropped
| ips_reassembled | ips_fragmented | ips_ofragments | ips_cantfrag.

#[export] Instance counter_eq_dec : EqDecision counter.
Proof. solve_decision. Defined.

Definition ipstat := counter -> Z.
Definition bump (c : counter) (s : ipstat) : ipstat := fun x => if decide (x = c) then s x + 1 else s x.

End Ip.
