(* ===== verification/IpReass.v ===== *)
(** Reassembly of Internet datagrams: ip_reass, ip_freef, ip_slowtimo and
    ip_drain of sys/netinet/ip_input.c.

    A fragment is the record of the fields the code reads and writes through
    its [struct ipasfrag *], with the chain of mbufs it is in ([dtom]).  The
    fragments of a datagram are a list, the links [ipf_next] and [ipf_prev] being
    the positions in it; the links lie over [ip_src] and [ip_dst], which nothing
    reads until ip_reass sets them again.  [ipf_mff] lies over [ip_tos].  The
    datagrams being reassembled are the list that starts at [ipq.next]. *)
From stdpp Require Import base numbers list gmap strings.
From Stdlib Require Import ZArith Lia.
From S2P Require Import Prelude Rmap Mbuf Ledger Ip.

Module IpReass.
Import Mbuf Ledger Ip.

(** ** Data *)
Record frag := Fr { f_ip : ip; f_m : chain }.
Definition ipf_mff (f : frag) : Z := ip_tos (f_ip f).
Definition f_off (f : frag) : Z := ip_off (f_ip f).
Definition f_len (f : frag) : Z := ip_len (f_ip f).

Record ipq := Ipq {
  ipq_ttl : Z;
  ipq_p : Z;
  ipq_id : Z;
  ipq_frags : list frag;
  ipq_src : Z;
  ipq_dst : Z;
  ipq_m : mbuf }.

Definition with_frags (l : list frag) (q : ipq) : ipq :=
  Ipq (ipq_ttl q) (ipq_p q) (ipq_id q) l (ipq_src q) (ipq_dst q) (ipq_m q).

Record ipst := St { queues : list ipq; stats : ipstat; mb : mstate }.
Definition with_queues (l : list ipq) (st : ipst) : ipst := St l (stats st) (mb st).
Definition with_mb (ms : mstate) (st : ipst) : ipst := St (queues st) (stats st) ms.
Definition count (c : counter) (st : ipst) : ipst := St (queues st) (bump c (stats st)) (mb st).

(** ** ip_reass *)

(** The first loop: the fragments before [q], and those from [q] on. *)
Fixpoint find_after (off : Z) (l : list frag) : list frag * list frag :=
  match l with
  | [] => ([], [])
  | q :: r => if f_off q >? off then ([], l) else let '(a, b) := find_after off r in (q :: a, b)
  end.

(** The preceding fragment may provide some of the data; [None] when it provides
    all of them. *)
Definition trim_front (pre : list frag) (f : frag) : outcome (option frag) :=
  match last pre with
  | None => Ret (Some f)
  | Some p =>
      let i := f_off p + f_len p - f_off f in
      if i >? 0 then
        if i >=? f_len f then Ret None
        else
          m ← m_adj (f_m f) i;
          Ret (Some (Fr (set_iplen (f_len f - i) (set_ipoff (f_off f + i) (f_ip f))) m))
      else Ret (Some f)
  end.

(** The second loop: trim the succeeding fragments, or free those that are
    completely covered. *)
Fixpoint trim_next (f : frag) (l : list frag) (ms : mstate) : outcome (list frag * mstate) :=
  match l with
  | [] => Ret ([], ms)
  | q :: r =>
      if f_off f + f_len f >? f_off q then
        let i := (f_off f + f_len f) - f_off q in
        if i <? f_len q then
          m ← m_adj (f_m q) i;
          Ret (Fr (set_ipoff (f_off q + i) (set_iplen (f_len q - i) (f_ip q))) m :: r, ms)
        else trim_next f r (m_freem (f_m q) ms)
      else Ret (l, ms)
  end.

(** The loop that checks for gaps: [None] when there is one. *)
Fixpoint contiguous (next : Z) (l : list frag) : option Z :=
  match l with
  | [] => Some next
  | q :: r => if negb (f_off q =? next) then None else contiguous (next + f_len q) r
  end.

(** [m_cat] of the fragments from the second on. *)
Fixpoint concat_frags (m : chain) (l : list frag) (ms : mstate) : outcome (chain * mstate) :=
  match l with
  | [] => Ret (m, ms)
  | q :: r => '(m, ms) ← m_cat m (f_m q) ms; concat_frags m r ms
  end.

(** From "Reassembly is complete" on. *)
Definition reass_done (fp : ipq) (next : Z) (l : list frag) (ms : mstate) : outcome (frag * mstate) :=
  match l with
  | Fr h (m0 :: t) :: r =>
      '(m, ms) ← m_cat [m0] t ms;
      '(m, ms) ← concat_frags m r ms;
      let h := set_addrs (ipq_src fp) (ipq_dst fp) (set_iplen next h) in
      let ms := MFREE (ipq_m fp) ms in
      match m with
      | [] => Fault
      | m0 :: t =>
          Ret (Fr h (set_data m0 (m_off m0 - ip_hl h * 4) (m_len m0 + ip_hl h * 4) :: t), ms)
      end
  | _ => Fault
  end.

(** From [insert] on, for the queue at position [i]. *)
Definition reass_insert (i : nat) (fp : ipq) (l : list frag) (st : ipst) : outcome (option frag * ipst) :=
  let wait := Ret (None, with_queues (<[i := with_frags l fp]> (queues st)) st) in
  match contiguous 0 l, last l with
  | Some next, Some q =>
      if negb (ipf_mff q =? 0) then wait
      else
        '(f, ms) ← reass_done fp next l (mb st);
        Ret (Some f, with_mb ms (with_queues (delete i (queues st)) st))
  | _, _ => wait
  end.

Definition dropfrag (f : frag) (st : ipst) : outcome (option frag * ipst) :=
  Ret (None, with_mb (m_freem (f_m f) (mb st)) (count ips_fragdropped st)).

(** [fp] is the position of the datagram's queue. *)
Definition ip_reass (f : frag) (fp : option nat) (st : ipst) : outcome (option frag * ipst) :=
  match f_m f with
  | [] => Fault
  | m0 :: r =>
      let hlen := ip_hl (f_ip f) * 4 in
      let h := f_ip f in
      let f := Fr h (set_data m0 (m_off m0 + hlen) (m_len m0 - hlen) :: r) in
      match fp with
      | None =>
          match MGET MT_FTABLE (mb st) with
          | (None, ms) => dropfrag f (with_mb ms st)
          | (Some t, ms) =>
              let q := Ipq IPFRAGTTL (ip_p h) (ip_id h) [] (ip_src h) (ip_dst h) t in
              reass_insert 0 q [f] (with_mb ms (with_queues (q :: queues st) st))
          end
      | Some i =>
          match queues st !! i with
          | None => Fault
          | Some q =>
              let '(pre, suf) := find_after (f_off f) (ipq_frags q) in
              f' ← trim_front pre f;
              match f' with
              | None => dropfrag f st
              | Some f =>
                  '(suf, ms) ← trim_next f suf (mb st);
                  reass_insert i q (pre ++ f :: suf) (with_mb ms st)
              end
          end
      end
  end.

(** ** ip_freef, ip_slowtimo, ip_drain *)
Definition ip_freef (q : ipq) (ms : mstate) : mstate :=
  MFREE (ipq_m q) (foldl (fun ms f => m_freem (f_m f) ms) ms (ipq_frags q)).

Fixpoint slowtimo_loop (l : list ipq) (st : ipst) : list ipq * ipst :=
  match l with
  | [] => ([], st)
  | q :: r =>
      let q := Ipq (u8 (ipq_ttl q - 1)) (ipq_p q) (ipq_id q) (ipq_frags q) (ipq_src q) (ipq_dst q) (ipq_m q) in
      if ipq_ttl q =? 0 then
        let st := count ips_fragtimeout st in
        slowtimo_loop r (with_mb (ip_freef q (mb st)) st)
      else let '(l, st) := slowtimo_loop r st in (q :: l, st)
  end.
Definition ip_slowtimo (st : ipst) : ipst :=
  let '(l, st) := slowtimo_loop (queues st) st in with_queues l st.

Fixpoint drain_loop (l : list ipq) (st : ipst) : ipst :=
  match l with
  | [] => with_queues [] st
  | q :: r =>
      let st := count ips_fragdropped st in
      drain_loop r (with_mb (ip_freef q (mb st)) st)
  end.
Definition ip_drain (st : ipst) : ipst := drain_loop (queues st) st.

(** ** The search of ipintr for the queue of a fragment's datagram *)
Notation key := (Z * Z * Z * Z)%type.
Definition hkey (h : ip) : key := (ip_id h, ip_src h, ip_dst h, ip_p h).
Definition qkey (q : ipq) : key := (ipq_id q, ipq_src q, ipq_dst q, ipq_p q).

Fixpoint find_queue (h : ip) (l : list ipq) : option nat :=
  match l with
  | [] => None
  | q :: r =>
      if (ip_id h =? ipq_id q) && (ip_src h =? ipq_src q) && (ip_dst h =? ipq_dst q) && (ip_p h =? ipq_p q)
      then Some O else S <$> find_queue h r
  end.

Definition reass_packet (f : frag) (st : ipst) : outcome (option frag * ipst) :=
  ip_reass f (find_queue (f_ip f) (queues st)) st.

(** Fragments one after the other, as ipintr passes them. *)
Fixpoint reass_run (l : list frag) (st : ipst) : outcome (list (option frag) * ipst) :=
  match l with
  | [] => Ret ([], st)
  | f :: r =>
      '(o, st) ← reass_packet f st;
      '(os, st) ← reass_run r st;
      Ret (o :: os, st)
  end.

(** ** The fragments of one datagram *)

Definition fchain (l : list frag) : chain := concat (f_m <$> l).
Definition in_frag (f : frag) (x : Z) : Prop := f_off f <= x < f_off f + f_len f.
Definition covers (l : list frag) (x : Z) : Prop := Exists (fun f => in_frag f x) l.

(** The fragments from offset [lo] on are in order and do not overlap. *)
Fixpoint from (lo : Z) (l : list frag) : Prop :=
  match l with
  | [] => True
  | f :: r => lo <= f_off f /\ from (f_off f + f_len f) r
  end.
Definition frags_end (lo : Z) (l : list frag) : Z := foldl (fun _ f => f_off f + f_len f) lo l.

(** The [n] bytes in front of an mbuf's data. *)
Definition before (n : Z) (m : mbuf) : list Z := slice (m_off m - n) n (m_dat m).

Section datagram.
(** The datagram's data, and what is known of the header, the header's bytes and
    the packet length of its first fragments. *)
Variable D : list Z.
Variable first : ip -> list Z -> Z -> Prop.
Hypothesis D_small : Z.of_nat (length D) <= 32767.
Local Notation size := (Z.of_nat (length D)).

Definition header_kept (h : ip) (m : mbuf) : Prop :=
  0 <= ip_hl h * 4 <= m_off m /\ (is_pkt m = true -> MLEN - MHLEN <= m_off m - ip_hl h * 4) /\
  first h (before (ip_hl h * 4) m) (pkt_len m).

Record frag_ok (ms : mstate) (f : frag) : Prop := FragOk {
  fk_head : exists m0 r, f_m f = m0 :: r /\ is_ext m0 = false /\ (f_off f = 0 -> header_kept (f_ip f) m0);
  fk_wf : Forall (wf ms) (f_m f);
  fk_data : cdata ms (f_m f) = slice (f_off f) (f_len f) D;
  fk_range : 0 <= f_off f /\ 0 <= f_len f /\ f_off f + f_len f <= size;
  fk_last : if ipf_mff f =? 0 then f_off f + f_len f = size else f_off f + f_len f < size }.

Lemma frag_ok_same ms ms' f : same ms ms' (f_m f) -> frag_ok ms f -> frag_ok ms' f.
Proof. intros S [H1 H2 H3 H4 H5]. constructor; try done; [by eapply wfs_same|by rewrite (cdata_same ms)]. Qed.

Lemma frags_ok_same ms ms' l : same ms ms' (fchain l) -> Forall (frag_ok ms) l -> Forall (frag_ok ms') l.
Proof.
  unfold fchain. induction l as [|f l IH]; intros S H; [done|]. apply Forall_cons in H as [H1 H2].
  cbn in S. apply same_app in S as [S1 S2]. constructor; [by eapply frag_ok_same|by apply IH].
Qed.

(** Taking bytes off the front of a fragment. *)
Lemma frag_trim ms f i : frag_ok ms f -> 0 < i < f_len f ->
  exists m, m_adj (f_m f) i = Ret m /\ (forall c, refs c m = refs c (f_m f)) /\
    let f' := Fr (set_iplen (f_len f - i) (set_ipoff (f_off f + i) (f_ip f))) m in
    frag_ok ms f' /\ f_off f' = f_off f + i /\ f_len f' = f_len f - i.
Proof.
  intros [(m0 & r & E & He & _) W Hd Hr Hl] Hi. rewrite E in *.
  destruct (m_adj_front ms m0 r i W) as (m0' & r' & Ea & W' & Hd' & He' & Hrf); [lia|].
  exists (m0' :: r'). split; [done|]. split; [done|]. cbn zeta.
  set (f' := Fr _ _). assert (E1 : f_off f' = f_off f + i) by (apply s16_small; lia).
  assert (E2 : f_len f' = f_len f - i) by (apply s16_small; lia).
  split; [|done]. constructor; rewrite ?E1, ?E2.
  - exists m0', r'. split; [done|]. split; [congruence|]. lia.
  - done.
  - cbn [f_m f']. unfold f'. cbn [f_m]. rewrite Hd', Hd. unfold slice. rewrite skipn_firstn_comm, drop_drop. f_equal; [lia|f_equal; lia].
  - lia.
  - change (ipf_mff f') with (ipf_mff f). replace (f_off f + i + (f_len f - i)) with (f_off f + f_len f) by lia. done.
Qed.

Lemma from_app a : forall lo b, from lo (a ++ b) <-> from lo a /\ from (frags_end lo a) b.
Proof. induction a as [|f a IH]; intros lo b; cbn; [tauto|]. rewrite IH. unfold frags_end. cbn. tauto. Qed.

Lemma from_le lo lo' l : lo' <= lo -> from lo l -> from lo' l.
Proof. destruct l; cbn; [done|]. intros ? [? ?]. split; [lia|done]. Qed.

Lemma frags_end_last a lo : frags_end lo a = match last a with None => lo | Some p => f_off p + f_len p end.
Proof.
  induction a as [|f a IH] using rev_ind; [done|]. unfold frags_end. by rewrite foldl_app, last_snoc.
Qed.

Lemma find_after_ok off : forall l a b, find_after off l = (a, b) ->
  l = a ++ b /\ Forall (fun f => f_off f <= off) a /\ match b with [] => True | q :: _ => off < f_off q end.
Proof.
  induction l as [|q l IH]; intros a b H; cbn in H; [by injection H as <- <-|].
  rewrite Z.gtb_ltb in H. destruct (Z.ltb_spec off (f_off q)); [by injection H as <- <-|].
  destruct (find_after off l) as [a' b']. injection H as <- <-. destruct (IH a' b' eq_refl) as (-> & H1 & H2).
  splits; [done| |done]. constructor; [lia|done].
Qed.

Lemma fchain_app a b : fchain (a ++ b) = fchain a ++ fchain b.
Proof. unfold fchain. by rewrite fmap_app, concat_app. Qed.

Lemma covers_cons f l x : covers (f :: l) x <-> in_frag f x \/ covers l x.
Proof. apply Exists_cons. Qed.
Lemma covers_app a b x : covers (a ++ b) x <-> covers a x \/ covers b x.
Proof. apply Exists_app. Qed.

(** The second loop of ip_reass. *)
Lemma trim_next_ok f rest : forall l ms, Forall (frag_ok ms) l -> from (f_off f) l -> 0 <= f_len f -> owned ms (fchain l ++ rest) ->
  exists l' ms', trim_next f l ms = Ret (l', ms') /\ Forall (frag_ok ms') l' /\ from (f_off f + f_len f) l' /\
    (forall x, covers (f :: l') x <-> covers (f :: l) x) /\ owned ms' (fchain l' ++ rest) /\ same ms ms' rest.
Proof.
  induction l as [|q l IH]; intros ms Hok Hfr Hlen Ho.
  { exists [], ms. by splits. }
  apply Forall_cons in Hok as [Hq Hok]. destruct Hfr as [Hfq Hfr]. cbn [trim_next]. rewrite Z.gtb_ltb.
  destruct (Z.ltb_spec (f_off q) (f_off f + f_len f)) as [Hlt|Hge].
  - destruct (Z.ltb_spec (f_off f + f_len f - f_off q) (f_len q)) as [Hi|Hi].
    + destruct (frag_trim ms q (f_off f + f_len f - f_off q) Hq) as (m & -> & Hrf & H); [lia|]. cbn zeta in H.
      bind. set (q' := Fr (set_iplen _ _) m) in H. destruct H as (Hq' & E1 & E2).
      exists (q' :: l), ms. split; [done|]. split; [by constructor|]. split; [split; [lia|by rewrite E1, E2; replace (f_off q + _ + _) with (f_off q + f_len q) by lia]|].
      split; [|split; [|done]].
      * intros x. rewrite !covers_cons. unfold in_frag. rewrite E1, E2. split; [intros [?|[?|?]]|intros [?|[?|?]]]; try tauto; [right; left; lia|].
        destruct (Z.lt_ge_cases x (f_off f + f_len f)); [left; lia|right; left; lia].
      * revert Ho. apply owned_refs. intros c. unfold fchain. cbn [fmap list_fmap concat]. rewrite !refs_app. cbn [f_m q']. by rewrite Hrf.
    + unfold fchain in Ho. cbn [fmap list_fmap concat] in Ho. rewrite <- app_assoc in Ho.
      destruct (m_freem_ok (f_m q) ms _ Ho) as (_ & F2 & F3). apply same_app in F3 as [F3 F4].
      destruct (IH (m_freem (f_m q) ms)) as (l' & ms' & E & I1 & I2 & I3 & I4 & I5); [by eapply frags_ok_same| |done|done|].
      { eapply from_le; [|exact Hfr]. destruct (fk_range _ _ Hq). lia. }
      exists l', ms'. split; [done|]. split; [done|]. split; [done|]. split; [|split; [done|by eapply same_trans]].
      intros x. rewrite I3, !covers_cons. unfold in_frag. split; [tauto|]. intros [?|[?|?]]; try tauto. left. lia.
  - exists (q :: l), ms. split; [done|]. split; [by constructor|]. split; [by split|]. by split.
Qed.

Lemma frags_data_same ms ms' l : same ms ms' (fchain l) ->
  (fun f => cdata ms' (f_m f)) <$> l = (fun f => cdata ms (f_m f)) <$> l.
Proof.
  unfold fchain. induction l as [|g l IH]; intros S; [done|]. cbn in *. apply same_app in S as [S1 S2].
  f_equal; [by apply cdata_same|by apply IH].
Qed.

(** The loop that looks for gaps. *)
Lemma contiguous_ok ms : forall l lo, Forall (frag_ok ms) l -> from lo l -> 0 <= lo <= size ->
  match contiguous lo l with
  | Some n => lo <= n <= size /\ n = frags_end lo l /\ concat ((fun f => cdata ms (f_m f)) <$> l) = slice lo (n - lo) D /\
      (forall x, covers l x <-> lo <= x < n) /\ (l <> [] -> exists f r, l = f :: r /\ f_off f = lo)
  | None => exists x, lo <= x < size /\ ~ covers l x
  end.
Proof.
  induction l as [|f l IH]; intros lo Hok Hfr Hlo; cbn [contiguous].
  - splits; try done; [lia|by rewrite Z.sub_diag|]. intros x. unfold covers. rewrite Exists_nil. lia.
  - apply Forall_cons in Hok as [Hf Hok]. destruct Hfr as [Hle Hfr]. destruct (fk_range _ _ Hf) as (R1 & R2 & R3).
    assert (Hbefore : forall x, covers l x -> f_off f + f_len f <= x).
    { intros x. revert Hfr. clear -Hok. generalize (f_off f + f_len f). induction l as [|g l IH]; intros e Hfr Hc; [by apply Exists_nil in Hc|].
      apply Forall_cons in Hok as [Hg Hok]. destruct Hfr as [He Hfr]. destruct (fk_range _ _ Hg) as (_ & ? & _).
      apply covers_cons in Hc as [Hc|Hc]; [unfold in_frag in Hc; lia|]. specialize (IH Hok _ Hfr Hc). lia. }
    destruct (Z.eqb_spec (f_off f) lo) as [E|Hne]; cbn [negb].
    + specialize (IH (f_off f + f_len f) Hok Hfr ltac:(lia)). rewrite <- E.
      destruct (contiguous (f_off f + f_len f) l) as [n|].
      * destruct IH as (I1 & I2 & I3 & I4 & _). splits; [lia|lia|exact I2| | |by exists f, l].
        -- cbn [fmap list_fmap concat]. rewrite I3, (fk_data _ _ Hf), (slice_split (f_off f) (n - f_off f) (f_len f)) by lia.
           f_equal. f_equal. lia.
        -- intros x. rewrite covers_cons, I4. unfold in_frag. lia.
      * destruct IH as (x & I1 & I2). exists x. split; [lia|]. rewrite covers_cons. unfold in_frag. intros [?|?]; [lia|done].
    + exists lo. split; [lia|]. rewrite covers_cons. unfold in_frag. intros [?|Hc]; [lia|]. apply Hbefore in Hc. lia.
Qed.

(** A queue that waits for more fragments. *)
Definition waiting (ms : mstate) (l : list frag) : Prop :=
  Forall (frag_ok ms) l /\ from 0 l /\ exists x, 0 <= x < size /\ ~ covers l x.

Lemma waiting_same ms ms' l : same ms ms' (fchain l) -> waiting ms l -> waiting ms' l.
Proof. intros S (H1 & H2). split; [by eapply frags_ok_same|done]. Qed.

(** A reassembled datagram. *)
Definition whole (ms : mstate) (src dst : Z) (g : frag) : Prop :=
  exists h hb plen m0 t, first h hb plen /\ f_ip g = set_addrs src dst (set_iplen size h) /\
    f_m g = m0 :: t /\ is_ext m0 = false /\ pkt_len m0 = plen /\
    Forall (wf ms) (f_m g) /\ cdata ms (f_m g) = hb ++ D /\ Z.of_nat (length hb) = ip_hl h * 4.

Lemma concat_frags_ok rest : forall l m ms, m <> [] -> Forall (wf ms) m -> Forall (frag_ok ms) l -> owned ms (m ++ fchain l ++ rest) ->
  exists r ms', concat_frags m l ms = Ret (r, ms') /\
    cdata ms' r = cdata ms m ++ concat ((fun f => cdata ms (f_m f)) <$> l) /\
    Forall (wf ms') r /\ owned ms' (r ++ rest) /\ same ms ms' rest /\
    forall m0 t, m = m0 :: t -> exists h t', r = h :: t' /\ grown m0 h.
Proof.
  induction l as [|f l IH]; intros m ms Hne Hw Hok Ho.
  - exists m, ms. cbn. rewrite app_nil_r. splits; try done. intros m0 t ->. exists m0, t. split; [done|apply grown_refl].
  - apply Forall_cons in Hok as [Hf Hok]. unfold fchain in Ho. cbn [fmap list_fmap concat] in Ho. rewrite <- app_assoc in Ho.
    destruct (m_cat_ok m (f_m f) _ ms Hne Hw (fk_wf _ _ Hf) Ho) as (r1 & ms1 & E1 & D1 & W1 & O1 & S1).
    apply same_app in S1 as [S1 S2]. assert (r1 <> []) as Hne1.
    { destruct m as [|m0 t]; [done|]. apply Forall_cons in Hw as [(_ & Hl & _) _].
      destruct (m_cat_head _ _ _ _ _ _ E1 Hl) as (h & t' & -> & _). done. }
    destruct (IH r1 ms1 Hne1 W1) as (r & ms' & E & I1 & I2 & I3 & I4 & I5); [by eapply frags_ok_same|done|].
    cbn [concat_frags]. rewrite E1. bind. exists r, ms'. splits; try done.
    + cbn [fmap list_fmap concat]. rewrite I1, D1, app_assoc. f_equal. by rewrite (frags_data_same ms ms1).
    + by eapply same_trans.
    + intros m0 t ->. apply Forall_cons in Hw as [(_ & Hl & _) _].
      destruct (m_cat_head _ _ _ _ _ _ E1 Hl) as (h & t' & -> & G1). destruct (I5 _ _ eq_refl) as (h2 & t2 & -> & G2).
      exists h2, t2. split; [done|by eapply grown_trans].
Qed.

Lemma MFREE_int m ms : is_ext m = false -> pool (MFREE m ms) = pool ms.
Proof. intros H. unfold MFREE. by rewrite H. Qed.

(** The header comes back in front of the first fragment's data. *)
Lemma header_back ms h m n t : wf ms m -> is_ext m = false -> header_kept h n -> grown n m -> Forall (wf ms) t ->
  let m' := set_data m (m_off m - ip_hl h * 4) (m_len m + ip_hl h * 4) in
  Forall (wf ms) (m' :: t) /\ cdata ms (m' :: t) = before (ip_hl h * 4) n ++ cdata ms (m :: t).
Proof.
  intros W He (K1 & K2 & K3) (G1 & G2 & G3 & G4 & G5 & G6) Ht m'. rewrite cdata_cons.
  pose proof W as (W1 & W2 & W3 & W4 & W5). rewrite G1 in *. unfold area in W3. rewrite He in W3. split.
  - constructor; [|done]. unfold wf, m', area, is_ext, is_pkt in *. cbn. rewrite He. splits; auto; try lia.
    intros _ Hp. rewrite G1. apply K2. unfold is_pkt. by rewrite <- G3.
  - rewrite cdata_cons, app_assoc. f_equal. unfold data, m', area, is_ext, before in *. cbn. rewrite He, G1.
    rewrite <- (G6 (m_off n - ip_hl h * 4) (ip_hl h * 4)) by lia.
    rewrite (slice_split (m_off n - ip_hl h * 4) (m_len m + ip_hl h * 4) (ip_hl h * 4)) by lia.
    f_equal. f_equal; lia.
Qed.

(** All fragments are there. *)
Lemma reass_done_ok fp l ms rest : Forall (frag_ok ms) l -> from 0 l -> contiguous 0 l = Some size -> l <> [] ->
  is_ext (ipq_m fp) = false -> owned ms (fchain l ++ rest) ->
  exists g ms', reass_done fp size l ms = Ret (g, ms') /\ whole ms' (ipq_src fp) (ipq_dst fp) g /\
    owned ms' (f_m g ++ rest) /\ same ms ms' rest.
Proof.
  intros Hok Hfr Hc Hne Hq Ho. pose proof (contiguous_ok ms l 0 Hok Hfr ltac:(lia)) as HC. rewrite Hc in HC.
  destruct HC as (_ & _ & Hd & _ & Hfst). destruct (Hfst Hne) as (f & r & -> & Hoff). apply Forall_cons in Hok as [Hf Hok].
  destruct f as [h m]. pose proof (fk_head _ _ Hf) as (m0 & t & Em & He & Hk). cbn in Em. subst m. specialize (Hk Hoff). cbn [f_ip] in Hk.
  pose proof (fk_wf _ _ Hf) as Hw. cbn [f_m] in Hw. apply Forall_cons in Hw as [Hw0 Hwt].
  unfold fchain in Ho. cbn [fmap list_fmap concat f_m] in Ho. rewrite <- app_assoc in Ho.
  cbn [reass_done]. destruct (m_cat_ok [m0] t (fchain r ++ rest) ms) as (m1 & ms1 & E1 & D1 & W1 & O1 & S1); [done|apply Forall_singleton; done|done|done|].
  rewrite E1. bind. assert (0 <= m_len m0) as Hl by (by destruct Hw0 as (_ & ? & _)).
  destruct (m_cat_head _ _ _ _ _ _ E1 Hl) as (h1 & t1 & -> & G1). apply same_app in S1 as [S1 S2].
  destruct (concat_frags_ok rest r (h1 :: t1) ms1) as (m2 & ms2 & -> & D2 & W2 & O2 & S3 & Hh); [done|done|by eapply frags_ok_same|done|].
  bind. destruct (Hh h1 t1 eq_refl) as (h2 & t2 & -> & G2). pose proof (grown_trans _ _ _ G1 G2) as G.
  pose proof (MFREE_int (ipq_m fp) ms2 Hq) as Hp. set (ms3 := MFREE (ipq_m fp) ms2) in *.
  assert (He2 : is_ext h2 = false) by (unfold is_ext in *; destruct G as (_ & _ & -> & _); done).
  apply Forall_cons in W2 as [W2 W2'].
  assert (Hsame : forall c, same ms2 ms3 c) by (intros c; apply same_pool; by rewrite Hp).
  destruct (header_back ms3 h h2 m0 t2) as (W3 & D3); [eapply wf_same; [|exact W2]; by rewrite Hp|done|done|done|by eapply wfs_same|].
  eexists _, ms3. split; [reflexivity|]. cbn [f_m f_ip]. split; [|split].
  - exists h, (before (ip_hl h * 4) m0), (pkt_len m0), (set_data h2 (m_off h2 - ip_hl h * 4) (m_len h2 + ip_hl h * 4)), t2.
    splits; try done; [apply Hk| |cbn [f_m]|].
    + by destruct G as (_ & _ & _ & ? & _).
    + cbn [set_addrs set_iplen ip_hl]. rewrite D3. f_equal. rewrite (cdata_same ms2 ms3 _ (Hsame _)), D2, D1.
      assert (slice 0 (size - 0) D = D) as Hall by (rewrite slice_all by lia; apply drop_0).
      rewrite <- Hall, <- Hd, (frags_data_same ms ms1) by done. cbn [fmap list_fmap concat f_m].
      f_equal. unfold cdata. cbn [fmap list_fmap concat]. by rewrite app_nil_r.
    + unfold before. destruct Hk as (Hk & _). clear -Hk Hw0 He. destruct Hw0 as (W1a & W1l & W1b & _). unfold area in W1b. rewrite He in W1b.
      rewrite slice_length by lia. done.
  - revert O2. intros O2 c. unfold refcnt. rewrite Hp. apply O2.
  - eapply same_trans; [exact S2|]. by eapply same_trans; [exact S3|].
Qed.

(** *** One fragment *)

(** A fragment as ipintr hands it over, the header still in front. *)
Record arrived (ms : mstate) (f : frag) : Prop := Arrived {
  ar_head : exists m0 r, f_m f = m0 :: r /\ is_ext m0 = false /\ 0 <= ip_hl (f_ip f) * 4 <= m_len m0 /\
    (f_off f = 0 -> first (f_ip f) (take (Z.to_nat (ip_hl (f_ip f) * 4)) (cdata ms (f_m f))) (pkt_len m0));
  ar_wf : Forall (wf ms) (f_m f);
  ar_data : drop (Z.to_nat (ip_hl (f_ip f) * 4)) (cdata ms (f_m f)) = slice (f_off f) (f_len f) D;
  ar_range : 0 <= f_off f /\ 0 <= f_len f /\ f_off f + f_len f <= size;
  ar_last : if ipf_mff f =? 0 then f_off f + f_len f = size else f_off f + f_len f < size }.

Definition strip (f : frag) : frag :=
  Fr (f_ip f) (match f_m f with
               | [] => []
               | m0 :: r => set_data m0 (m_off m0 + ip_hl (f_ip f) * 4) (m_len m0 - ip_hl (f_ip f) * 4) :: r
               end).

Lemma strip_ok ms f : arrived ms f -> frag_ok ms (strip f) /\ forall c, refs c (f_m (strip f)) = refs c (f_m f).
Proof.
  intros [(m0 & r & E & He & Hl & Hk) W Hd Hr Hlast]. unfold strip. rewrite E in *.
  apply Forall_cons in W as [W0 Wr]. set (n := ip_hl (f_ip f) * 4) in *.
  destruct (trim_ok ms m0 n (m_len m0 - n) W0) as [T1 T2]; [lia|lia|lia|].
  pose proof (data_length ms m0 W0) as Hdl. split; [|done].
  constructor; cbn [f_m f_ip]; [| | |exact Hr|exact Hlast].
  - eexists _, r. split; [done|]. split; [done|]. intros Hoff. specialize (Hk Hoff).
    destruct W0 as (W1 & W2 & W3 & W4 & W5). unfold header_kept. fold n. cbn [set_data m_off m_len pkt_len].
    split; [lia|]. split; [intros Hp; specialize (W5 He Hp); lia|].
    replace (before n _) with (take (Z.to_nat n) (cdata ms (m0 :: r))); [done|].
    rewrite cdata_cons, take_app_le by lia. unfold before, data, area, slice. cbn [set_data m_off m_dat]. rewrite He, take_take.
    f_equal; [lia|]. f_equal. lia.
  - by constructor.
  - change (slice (f_off _) (f_len _) D) with (slice (f_off f) (f_len f) D). rewrite <- Hd, !cdata_cons, T2, drop_app_le by lia. f_equal. apply slice_all; lia.
Qed.

(** What ip_reass does with the queue at position [i], when the data that have
    arrived, with the new fragment's, are at the offsets [C]. *)
Definition reassembled (i : nat) (q : ipq) (C : Z -> Prop) (st : ipst) (rest : chain) (res : option frag) (st' : ipst) : Prop :=
  same (mb st) (mb st') rest /\
  match res with
  | None => exists l, queues st' = <[i := with_frags l q]> (queues st) /\ waiting (mb st') l /\
      (forall x, covers l x <-> C x) /\ owned (mb st') (fchain l ++ rest)
  | Some g => queues st' = delete i (queues st) /\ (forall x, 0 <= x < size -> C x) /\
      whole (mb st') (ipq_src q) (ipq_dst q) g /\ owned (mb st') (f_m g ++ rest)
  end.

Lemma reass_insert_ok i q l st rest : Forall (frag_ok (mb st)) l -> from 0 l -> l <> [] ->
  is_ext (ipq_m q) = false -> owned (mb st) (fchain l ++ rest) ->
  exists res st', reass_insert i q l st = Ret (res, st') /\ reassembled i q (covers l) st rest res st'.
Proof.
  intros Hok Hfr Hne Hq Ho. unfold reass_insert. pose proof (contiguous_ok (mb st) l 0 Hok Hfr ltac:(lia)) as HC.
  assert (Hwait : (exists x, 0 <= x < size /\ ~ covers l x) -> exists res st',
    Ret (None, with_queues (<[i := with_frags l q]> (queues st)) st) = Ret (res, st') /\ reassembled i q (covers l) st rest res st').
  { intros Hx. eexists None, _. split; [done|]. split; [done|]. exists l. by splits. }
  destruct (contiguous 0 l) as [n|] eqn:Hc; [|by apply Hwait].
  destruct HC as (Hn & En & Hd & Hcov & _). rewrite frags_end_last in En.
  destruct (last l) as [f|] eqn:El; [|by apply last_None in El].
  pose proof El as Hin. apply last_Some in Hin as [l' Hin].
  assert (Hf : frag_ok (mb st) f) by (subst l; apply Forall_app in Hok as [_ Hok]; by apply Forall_cons in Hok as [? _]).
  pose proof (fk_last _ _ Hf) as Hlast. destruct (Z.eqb_spec (ipf_mff f) 0) as [Hm|Hm]; cbn [negb].
  - assert (n = size) as -> by lia.
    destruct (reass_done_ok q l (mb st) rest) as (g & ms' & -> & Hw & Ho' & Hs); try done. bind.
    eexists _, _. split; [reflexivity|]. split; [done|]. splits; try done. intros x Hx. apply Hcov. lia.
  - apply Hwait. exists n. split; [lia|]. rewrite Hcov. lia.
Qed.

(** The first loop and the trimming against the preceding fragment. *)
Lemma trim_front_ok ms f pre suf rest : frag_ok ms f -> Forall (frag_ok ms) (pre ++ suf) -> from 0 (pre ++ suf) ->
  Forall (fun p => f_off p <= f_off f) pre -> match suf with [] => True | q :: _ => f_off f < f_off q end ->
  owned ms (f_m f ++ rest) ->
  (trim_front pre f = Ret None /\ forall x, in_frag f x -> covers (pre ++ suf) x) \/
  exists f', trim_front pre f = Ret (Some f') /\ frag_ok ms f' /\ from 0 (pre ++ f' :: []) /\ from (f_off f') suf /\
    (forall x, in_frag f x \/ covers pre x <-> in_frag f' x \/ covers pre x) /\ owned ms (f_m f' ++ rest).
Proof.
  intros Hf Hok Hfr Hpre Hsuf Ho. destruct (fk_range _ _ Hf) as (R1 & R2 & R3). unfold trim_front.
  apply from_app in Hfr as [Hfp Hfs]. rewrite frags_end_last in Hfs.
  assert (Hnot : (match last pre with None => 0 | Some p => f_off p + f_len p end) <= f_off f -> exists f',
    Ret (Some f) = Ret (Some f') /\ frag_ok ms f' /\ from 0 (pre ++ f' :: []) /\ from (f_off f') suf /\
    (forall x, in_frag f x \/ covers pre x <-> in_frag f' x \/ covers pre x) /\ owned ms (f_m f' ++ rest)).
  { intros Hle. exists f. split; [done|]. split; [done|]. split; [apply from_app; rewrite frags_end_last; by cbn|].
    split; [|done]. destruct suf as [|q suf]; [done|]. destruct Hfs. split; [lia|done]. }
  destruct (last pre) as [p|] eqn:El; [|right; by apply Hnot].
  apply last_Some in El as [pre' ->]. apply Forall_app in Hpre as [_ Hpre]. apply Forall_cons in Hpre as [Hp _].
  rewrite Z.gtb_ltb. destruct (Z.ltb_spec 0 (f_off p + f_len p - f_off f)) as [Hi|Hi]; [|right; apply Hnot; lia].
  rewrite Z.geb_leb. destruct (Z.leb_spec (f_len f) (f_off p + f_len p - f_off f)) as [Hall|Hpart].
  - left. split; [done|]. intros x Hx. unfold in_frag in Hx. rewrite !covers_app, covers_cons. left. right. left. unfold in_frag. lia.
  - right. destruct (frag_trim ms f (f_off p + f_len p - f_off f) Hf) as (m & -> & Hrf & H); [lia|]. cbn zeta in H. bind.
    set (f' := Fr _ m) in *. assert (Em : f_m f' = m) by done. clearbody f'. destruct H as (Hf' & E1 & E2). exists f'. split; [done|]. split; [done|].
    split; [apply from_app; split; [done|]; rewrite frags_end_last, last_snoc; cbn; rewrite E1; split; [lia|done]|].
    split; [|split].
    + destruct suf as [|q suf]; [done|]. destruct Hfs. split; [lia|done].
    + intros x. rewrite covers_app, covers_cons. unfold in_frag. rewrite E1, E2. split; (intros [?|?]; [|tauto]); [|left; lia].
      destruct (Z.lt_ge_cases x (f_off p + f_len p)); [|left; lia]. right. right. left. lia.
    + revert Ho. apply owned_refs. intros c. rewrite !refs_app. by rewrite Em, Hrf.
Qed.

(** ip_reass when the datagram has a queue. *)
Lemma ip_reass_found i q f st rest : queues st !! i = Some q -> arrived (mb st) f -> waiting (mb st) (ipq_frags q) ->
  is_ext (ipq_m q) = false -> owned (mb st) (f_m f ++ fchain (ipq_frags q) ++ rest) ->
  exists res st', ip_reass f (Some i) st = Ret (res, st') /\
    reassembled i q (fun x => covers (ipq_frags q) x \/ in_frag f x) st rest res st'.
Proof.
  intros Hi Ha (Hok & Hfr & Hgap) Hq Ho. destruct (strip_ok _ _ Ha) as [Hf Hrf].
  pose proof (ar_head _ _ Ha) as (m0 & r & Em & _). unfold ip_reass. rewrite Em, Hi. cbn zeta.
  destruct (find_after (f_off f) (ipq_frags q)) as [pre suf] eqn:Ef. cbn [f_off f_ip] in *.
  destruct (find_after_ok _ _ _ _ Ef) as (El & Hpre & Hsuf). rewrite El in *.
  assert (Fr (f_ip f) (set_data m0 (m_off m0 + ip_hl (f_ip f) * 4) (m_len m0 - ip_hl (f_ip f) * 4) :: r) = strip f) as ->
    by (unfold strip; by rewrite Em).
  change (f_off (strip f)) with (f_off f). rewrite Ef.
  assert (Ho1 : owned (mb st) (f_m (strip f) ++ fchain (pre ++ suf) ++ rest)).
  { revert Ho. apply owned_refs. intros c. rewrite !refs_app. by rewrite Hrf. }
  destruct (trim_front_ok (mb st) (strip f) pre suf (fchain (pre ++ suf) ++ rest)) as [[-> Hc]|(f' & -> & Hf' & Hfr1 & Hfr2 & Hcov & Ho2)]; try done; bind.
  - destruct (m_freem_ok _ _ _ Ho1) as (_ & F2 & F3). apply same_app in F3 as [F3 F4].
    eexists None, _. split; [done|]. split; [done|]. exists (pre ++ suf). cbn [queues with_mb count mb]. splits; try done.
    + destruct q; cbn in *. subst. by rewrite list_insert_id.
    + split; [by eapply frags_ok_same|done].
    + intros x. specialize (Hc x). change (in_frag (strip f) x) with (in_frag f x) in Hc. tauto.
  - apply Forall_app in Hok as [Hokp Hoks]. apply from_app in Hfr1 as [Hfr1 Hfr3]. destruct (fk_range _ _ Hf') as (R1 & R2 & R3).
    destruct (trim_next_ok f' (f_m f' ++ fchain pre ++ rest) suf (mb st)) as (suf' & ms' & -> & T1 & T2 & T3 & T4 & T5); try done.
    { eapply owned_perm; [|exact Ho2]. rewrite fchain_app. solve_Permutation. }
    bind. apply same_app in T5 as [T5 T6]. apply same_app in T6 as [T6 T7].
    destruct (reass_insert_ok i q (pre ++ f' :: suf') (with_mb ms' st) rest) as (res & st' & -> & Hs & Hres); try done.
    + apply Forall_app. split; [by eapply frags_ok_same|]. constructor; [by eapply frag_ok_same|done].
    + apply from_app. split; [done|]. cbn. split; [by destruct Hfr3|done].
    + by destruct pre.
    + eapply owned_perm; [|exact T4]. rewrite fchain_app. unfold fchain. cbn [fmap list_fmap concat]. solve_Permutation.
    + exists res, st'. split; [done|]. split; [by eapply same_trans|].
      assert (Hall : forall x, covers (pre ++ f' :: suf') x <-> covers (pre ++ suf) x \/ in_frag f x).
      { intros x. specialize (T3 x). specialize (Hcov x). change (in_frag (strip f) x) with (in_frag f x) in Hcov.
        rewrite covers_app, T3, covers_cons, covers_app. clear -Hcov. tauto. }
      destruct res as [g|]; [destruct Hres as (H1 & H2 & H3)|destruct Hres as (l & H1 & H2 & H3 & H4)]; cbn [queues with_mb] in *.
      * split; [done|]. split; [|done]. intros x Hx. by apply Hall, H2.
      * exists l. splits; try done. intros x. by rewrite H3.
Qed.

(** The queue ip_reass makes for the first fragment to arrive. *)
Definition new_queue (h : ip) (t : mbuf) : ipq := Ipq IPFRAGTTL (ip_p h) (ip_id h) [] (ip_src h) (ip_dst h) t.

Lemma ip_reass_new f st rest : arrived (mb st) f -> owned (mb st) (f_m f ++ rest) ->
  exists res st', ip_reass f None st = Ret (res, st') /\
    ((mallocs (mb st) <> [] /\ res = None /\ queues st' = queues st /\ owned (mb st') rest /\ same (mb st) (mb st') rest) \/
     exists t, is_ext t = false /\ let q := new_queue (f_ip f) t in
       reassembled 0 q (in_frag f) (with_queues (q :: queues st) st) rest res st').
Proof.
  intros Ha Ho. destruct (strip_ok _ _ Ha) as [Hf Hrf]. pose proof (ar_head _ _ Ha) as (m0 & r & Em & _).
  unfold ip_reass. rewrite Em. cbn zeta.
  assert (Fr (f_ip f) (set_data m0 (m_off m0 + ip_hl (f_ip f) * 4) (m_len m0 - ip_hl (f_ip f) * 4) :: r) = strip f) as ->
    by (unfold strip; by rewrite Em).
  destruct (MGET MT_FTABLE (mb st)) as [[t|] ms] eqn:Eg; destruct (mget_ok _ _ _ _ Eg) as (Hp & Hfr & Hm);
    (assert (Hs : forall c, same (mb st) ms c) by (intros c; apply same_pool; by rewrite Hp));
    (assert (Ho1 : owned ms (f_m (strip f) ++ rest)) by (intros c; rewrite refs_app, Hrf, <- refs_app; unfold refcnt; rewrite Hp; apply Ho)).
  - fold (new_queue (f_ip f) t). assert (Ht : is_ext t = false) by (destruct Hfr as (_ & _ & Hfl & _); unfold is_ext; by rewrite Hfl).
    destruct (reass_insert_ok 0 (new_queue (f_ip f) t) [strip f] (with_mb ms (with_queues (new_queue (f_ip f) t :: queues st) st)) rest)
      as (res & st' & -> & Hs' & Hres); try done.
    + apply Forall_singleton. by eapply frag_ok_same.
    + split; [by destruct (fk_range _ _ Hf)|done].
    + unfold fchain. cbn [fmap list_fmap concat mb with_mb]. by rewrite app_nil_r.
    + exists res, st'. split; [done|]. right. exists t. split; [done|]. split; [by eapply same_trans|].
      assert (Hall : forall x, covers [strip f] x <-> in_frag f x).
      { intros x. rewrite covers_cons. change (in_frag (strip f) x) with (in_frag f x). unfold covers. rewrite Exists_nil. tauto. }
      destruct res as [g|]; [destruct Hres as (H1 & H2 & H3)|destruct Hres as (l & H1 & H2 & H3 & H4)].
      * split; [done|]. split; [|done]. intros x Hx. by apply Hall, H2.
      * exists l. splits; try done. intros x. by rewrite H3.
  - destruct (m_freem_ok _ _ _ Ho1) as (_ & F2 & F3). eexists None, _. split; [done|]. left.
    splits; try done; [|by eapply same_trans]. intros Hnil. by destruct (Hm Hnil).
Qed.
End datagram.

(** ** All datagrams together *)

(** *** Memory requests: nothing but the queue headers is allocated *)
Lemma MFREE_mallocs m ms : mallocs (MFREE m ms) = mallocs ms.
Proof. unfold MFREE. destruct (is_ext m); [|done]. unfold MCLFREE. by case_match. Qed.
Lemma m_freem_mallocs : forall m ms, mallocs (m_freem m ms) = mallocs ms.
Proof. induction m as [|m0 r IH]; intros ms; [done|]. cbn. by rewrite IH, MFREE_mallocs. Qed.
Lemma cat_loop_mallocs : forall n m ms r ms', cat_loop m n ms = Ret (r, ms') -> mallocs ms' = mallocs ms.
Proof.
  induction n as [|n0 n IH]; intros m ms r ms' E; cbn [cat_loop] in E; [by injection E as _ <-|].
  case_match; [by injection E as _ <-|]. apply bind_Ret in E as (bs & _ & E). apply bind_Ret in E as (m' & _ & E).
  rewrite (IH _ _ _ _ E). apply MFREE_mallocs.
Qed.
Lemma m_cat_mallocs : forall m n ms r ms', m_cat m n ms = Ret (r, ms') -> mallocs ms' = mallocs ms.
Proof.
  induction m as [|m0 m IH]; intros n ms r ms' E; [done|]. destruct m as [|m1 m]; [by eapply cat_loop_mallocs|].
  cbn [m_cat] in E. apply bind_Ret in E as ([r1 ms1] & E & [= _ <-]). by eapply IH.
Qed.
Lemma concat_frags_mallocs : forall l m ms r ms', concat_frags m l ms = Ret (r, ms') -> mallocs ms' = mallocs ms.
Proof.
  induction l as [|f l IH]; intros m ms r ms' E; cbn [concat_frags] in E; [by injection E as _ <-|].
  apply bind_Ret in E as ([m1 ms1] & E1 & E). rewrite (IH _ _ _ _ E). by eapply m_cat_mallocs.
Qed.
Lemma reass_insert_mallocs i q l st res st' : reass_insert i q l st = Ret (res, st') -> mallocs (mb st') = mallocs (mb st).
Proof.
  unfold reass_insert. intros E. assert (forall st1, Ret (None, st1) = Ret (res, st') -> mb st1 = mb st -> mallocs (mb st') = mallocs (mb st)) as Hw.
  { by intros st1 [= _ <-] ->. }
  case_match; [|by eapply Hw]. case_match; [|by eapply Hw]. case_match; [by eapply Hw|].
  apply bind_Ret in E as ([g ms] & E & [= _ <-]). cbn. unfold reass_done in E. repeat case_match; try done.
  apply bind_Ret in E as ([m1 ms1] & E1 & E). apply bind_Ret in E as ([m2 ms2] & E2 & E). case_match; [done|].
  injection E as _ <-. rewrite MFREE_mallocs, (concat_frags_mallocs _ _ _ _ _ E2). by eapply m_cat_mallocs.
Qed.
Lemma trim_next_mallocs f : forall l ms l' ms', trim_next f l ms = Ret (l', ms') -> mallocs ms' = mallocs ms.
Proof.
  induction l as [|q l IH]; intros ms l' ms' E; cbn [trim_next] in E; [by injection E as _ <-|].
  case_match; [|by injection E as _ <-]. case_match; [by apply bind_Ret in E as (m & _ & [= _ <-])|].
  rewrite (IH _ _ _ E). apply m_freem_mallocs.
Qed.
Lemma ip_reass_mallocs f fp st res st' : ip_reass f fp st = Ret (res, st') -> mallocs (mb st) = [] -> mallocs (mb st') = [].
Proof.
  intros E Hnil. unfold ip_reass in E. case_match; [done|]. destruct fp as [i|].
  - case_match; [|done]. destruct (find_after _ _) as [pre suf]. apply bind_Ret in E as ([f'|] & _ & E).
    + apply bind_Ret in E as ([l' ms] & E1 & E). etrans; [by eapply reass_insert_mallocs|]. cbn. by rewrite (trim_next_mallocs _ _ _ _ _ E1).
    + injection E as _ <-. cbn. by rewrite m_freem_mallocs, ?MFREE_mallocs.
  - destruct (MGET MT_FTABLE (mb st)) as [[t|] ms] eqn:Eg; pose proof (mget_mallocs _ _ _ _ Eg Hnil).
    + etrans; [by eapply reass_insert_mallocs|done].
    + injection E as _ <-. cbn. by rewrite m_freem_mallocs, ?MFREE_mallocs.
Qed.

(** *** The state of reassembly *)
Definition qchain (l : list ipq) : chain := concat ((fun q => fchain (ipq_frags q)) <$> l).

Lemma qchain_app a b : qchain (a ++ b) = qchain a ++ qchain b.
Proof. unfold qchain. by rewrite fmap_app, concat_app. Qed.
Lemma qchain_split l i q : l !! i = Some q -> qchain l ≡ₚ fchain (ipq_frags q) ++ qchain (delete i l).
Proof.
  intros H. rewrite <- (take_drop_middle l i q H) at 1. rewrite delete_take_drop, !qchain_app.
  change (qchain (q :: drop (S i) l)) with (fchain (ipq_frags q) ++ qchain (drop (S i) l)). solve_Permutation.
Qed.

Section reassembly.
(** The datagrams on their way, by the key of their fragments: their data, and
    what is known of their first fragments' headers. *)
Variable dgram : key -> list Z.
Variable first : key -> ip -> list Z -> Z -> Prop.
Hypothesis dgram_small : forall k, Z.of_nat (length (dgram k)) <= 32767.

Definition queue_ok (ms : mstate) (q : ipq) : Prop :=
  is_ext (ipq_m q) = false /\ waiting (dgram (qkey q)) (first (qkey q)) ms (ipq_frags q).

Definition reass_ok (st : ipst) (rest : chain) : Prop :=
  Forall (queue_ok (mb st)) (queues st) /\ NoDup (qkey <$> queues st) /\ owned (mb st) (qchain (queues st) ++ rest).

(** The offsets of datagram [k] that have arrived. *)
Definition covered (l : list ipq) (k : key) (x : Z) : Prop := Exists (fun q => qkey q = k /\ covers (ipq_frags q) x) l.

Definition good_frag (ms : mstate) (f : frag) : Prop := arrived (dgram (hkey (f_ip f))) (first (hkey (f_ip f))) ms f.

Lemma find_queue_ok h l : match find_queue h l with
  | Some i => exists q, l !! i = Some q /\ qkey q = hkey h
  | None => hkey h ∉ qkey <$> l
  end.
Proof.
  induction l as [|q l IH]; cbn [find_queue]; [apply not_elem_of_nil|].
  destruct ((ip_id h =? ipq_id q) && (ip_src h =? ipq_src q) && (ip_dst h =? ipq_dst q) && (ip_p h =? ipq_p q)) eqn:E.
  - exists q. split; [done|]. unfold qkey, hkey. rewrite !andb_true_iff, !Z.eqb_eq in E. by destruct E as [[[-> ->] ->] ->].
  - destruct (find_queue h l) as [i|]; [destruct IH as (q' & H1 & H2); by exists q'|]. cbn.
    apply not_elem_of_cons. split; [|done]. intros Hk. unfold qkey, hkey in Hk. injection Hk as K1 K2 K3 K4. by rewrite K1, K2, K3, K4, !Z.eqb_refl in E.
Qed.

Lemma queues_same ms ms' l : same ms ms' (qchain l) -> Forall (queue_ok ms) l -> Forall (queue_ok ms') l.
Proof.
  unfold qchain. induction l as [|q l IH]; intros S H; [done|]. apply Forall_cons in H as [[H1 H2] H].
  cbn in S. apply same_app in S as [S1 S2]. constructor; [|by apply IH]. split; [done|by eapply waiting_same].
Qed.

Lemma good_frag_same ms ms' f : same ms ms' (f_m f) -> good_frag ms f -> good_frag ms' f.
Proof.
  intros S [(m0 & r & E & He & Hl & Hk) W Hd Hr Hlast]. assert (Ec : cdata ms' (f_m f) = cdata ms (f_m f)) by (by apply cdata_same).
  constructor; try done; [|by eapply wfs_same|by rewrite Ec]. exists m0, r. by rewrite Ec.
Qed.

Lemma covered_split l i q k x : NoDup (qkey <$> l) -> l !! i = Some q ->
  covered l k x <-> (qkey q = k /\ covers (ipq_frags q) x) \/ (qkey q <> k /\ covered (delete i l) k x).
Proof.
  intros Hnd Hi. assert (Hperm : l ≡ₚ q :: delete i l) by (by apply delete_Permutation).
  unfold covered. rewrite Hperm at 1. rewrite Exists_cons. split; [|tauto]. intros [?|Hc]; [by left|]. right. split; [|done].
  intros <-. rewrite Hperm in Hnd. cbn in Hnd. apply NoDup_cons in Hnd as [Hnot _]. apply Hnot.
  apply Exists_exists in Hc as (q' & Hin & Hk & _). rewrite <- Hk. by apply list_elem_of_fmap_2.
Qed.

(** What one fragment does. *)
Definition step_ok (f : frag) (st : ipst) (rest : chain) (res : option frag) (st' : ipst) : Prop :=
  let k := hkey (f_ip f) in
  same (mb st) (mb st') rest /\
  match res with
  | None => reass_ok st' rest /\ (forall k' x, covered (queues st') k' x <-> covered (queues st) k' x \/ (k' = k /\ in_frag f x)) /\
      exists x, 0 <= x < Z.of_nat (length (dgram k)) /\ ~ (covered (queues st) k x \/ in_frag f x)
  | Some g => reass_ok st' (f_m g ++ rest) /\ whole (dgram k) (first k) (mb st') (ip_src (f_ip f)) (ip_dst (f_ip f)) g /\
      (forall x, 0 <= x < Z.of_nat (length (dgram k)) -> covered (queues st) k x \/ in_frag f x) /\
      (forall k' x, covered (queues st') k' x <-> k' <> k /\ covered (queues st) k' x)
  end.

(** Both cases of the search end in the same way: [qs] are the queues with the
    datagram's own at position [i]. *)
Lemma reassembled_step f st qs i q C rest res st' : let k := hkey (f_ip f) in
  qs !! i = Some q -> qkey q = k -> is_ext (ipq_m q) = false -> NoDup (qkey <$> qs) ->
  Forall (queue_ok (mb st)) (delete i qs) ->
  (forall x, C x <-> covered (queues st) k x \/ in_frag f x) ->
  (forall k' x, covered (delete i qs) k' x <-> k' <> k /\ covered (queues st) k' x) ->
  reassembled (dgram k) (first k) i q C (with_queues qs st) (qchain (delete i qs) ++ rest) res st' ->
  step_ok f st rest res st'.
Proof.
  intros k Hi Hk Hq Hnd Hok HC Hcov [Hs H]. cbn [mb with_queues queues] in *. apply same_app in Hs as [Hs1 Hs2].
  pose proof (queues_same _ _ _ Hs1 Hok) as Hok'. pose proof Hnd as Hnd'. rewrite (delete_Permutation qs i q Hi) in Hnd'. cbn in Hnd'.
  pose proof Hnd' as Hnd2. apply NoDup_cons in Hnd2 as [_ Hnd2].
  split; [done|]. destruct res as [g|].
  - destruct H as (E & Hall & Hw & Ho). rewrite E. unfold reass_ok. rewrite E. splits; try done.
    + eapply owned_perm; [|exact Ho]. solve_Permutation.
    + unfold qkey, hkey, k in Hk. injection Hk as _ E2 E3 _. by rewrite <- E2, <- E3.
    + intros x Hx. by apply HC, Hall.
  - destruct H as (l & E & Hw & Hl & Ho). assert (Hlt : (i < length qs)%nat) by (by apply lookup_lt_Some in Hi).
    assert (Hi' : queues st' !! i = Some (with_frags l q)) by (rewrite E; by apply list_lookup_insert_eq).
    assert (Hdel : delete i (queues st') = delete i qs) by (rewrite E, !delete_take_drop, take_insert_ge, drop_insert_lt by lia; done).
    assert (Hnd1 : NoDup (qkey <$> queues st')) by (rewrite (delete_Permutation _ _ _ Hi'), Hdel; exact Hnd').
    destruct Hw as (Hw1 & Hw2 & x & Hx & Hgap). split; [|split].
    + split; [|split; [done|]].
      * rewrite (delete_Permutation _ _ _ Hi'), Hdel. constructor; [|done]. split; [done|].
        change (qkey (with_frags l q)) with (qkey q). rewrite Hk. split; [done|]. split; [done|]. by exists x.
      * eapply owned_perm; [|exact Ho]. rewrite (qchain_split _ _ _ Hi'), Hdel. cbn [ipq_frags with_frags]. solve_Permutation.
    + intros k' y. rewrite (covered_split _ _ _ k' y Hnd1 Hi'), Hdel, Hcov. change (qkey (with_frags l q)) with (qkey q).
      cbn [ipq_frags with_frags]. rewrite Hk, Hl, HC. clear. fold k. destruct (decide (k' = k)) as [->|Hne].
      2: { split; [intros [[? _]|(_ & _ & ?)]; [by subst|by left]|intros [?|[? _]]; [right; split; [by intros ->|done]|by subst]]. }
      split; [intros [[_ [?|?]]|(? & _)]; tauto|]. intros [?|[_ ?]]; tauto.
    + exists x. split; [done|]. intros Hn. by apply Hgap, Hl, HC.
Qed.

Lemma reass_packet_ok f st rest : reass_ok st (f_m f ++ rest) -> good_frag (mb st) f -> mallocs (mb st) = [] ->
  exists res st', reass_packet f st = Ret (res, st') /\ step_ok f st rest res st' /\ mallocs (mb st') = [].
Proof.
  intros (Hok & Hnd & Ho) Hf Hnil. unfold reass_packet. set (k := hkey (f_ip f)).
  assert (Hfin : (exists res st', ip_reass f (find_queue (f_ip f) (queues st)) st = Ret (res, st') /\ step_ok f st rest res st') ->
    exists res st', ip_reass f (find_queue (f_ip f) (queues st)) st = Ret (res, st') /\ step_ok f st rest res st' /\ mallocs (mb st') = []).
  { intros (res & st' & E & H). exists res, st'. split; [done|]. split; [done|]. by eapply ip_reass_mallocs. }
  apply Hfin. clear Hfin. pose proof (find_queue_ok (f_ip f) (queues st)) as Hfq. destruct (find_queue (f_ip f) (queues st)) as [i|].
  - destruct Hfq as (q & Hi & Hk). pose proof (delete_Permutation _ _ _ Hi) as Hperm.
    assert (Hall : queue_ok (mb st) q /\ Forall (queue_ok (mb st)) (delete i (queues st))).
    { rewrite Hperm in Hok. by apply Forall_cons in Hok. }
    destruct Hall as [[Hq Hw] Hrest]. rewrite Hk in Hw.
    destruct (ip_reass_found (dgram k) (first k) (dgram_small k) i q f st (qchain (delete i (queues st)) ++ rest)) as (res & st' & E & H); try done.
    { eapply owned_perm; [|exact Ho]. rewrite (qchain_split _ _ _ Hi). solve_Permutation. }
    exists res, st'. split; [done|]. eapply (reassembled_step f st (queues st) i q); try done.
    + intros x. rewrite (covered_split _ _ _ _ x Hnd Hi), Hk.
      split; [intros [?|?]; [left; left; by split|by right]|intros [[[_ ?]|[Hn _]]|?]; [by left|by destruct Hn|by right]].
    + intros k' x. rewrite (covered_split _ _ _ k' x Hnd Hi), Hk.
      split; [|intros [Hne [[Heq _]|[_ ?]]]; [exfalso; apply Hne; by rewrite <- Heq|done]]. intros Hc. split; [|right; split; [|done]].
      * intros ->. apply Exists_exists in Hc as (q' & Hin & Hk' & _). rewrite Hperm in Hnd. cbn in Hnd. apply NoDup_cons in Hnd as [Hnot _].
        apply Hnot. rewrite Hk, <- Hk'. by apply list_elem_of_fmap_2.
      * intros <-. apply Exists_exists in Hc as (q' & Hin & Hk' & _). rewrite Hperm in Hnd. cbn in Hnd. apply NoDup_cons in Hnd as [Hnot _].
        apply Hnot. rewrite Hk, <- Hk'. by apply list_elem_of_fmap_2.
  - assert (Hno : forall x, ~ covered (queues st) k x).
    { intros x Hc. apply Exists_exists in Hc as (q' & Hin & Hk' & _). apply Hfq. unfold k in Hk'. rewrite <- Hk'. by apply list_elem_of_fmap_2. }
    destruct (ip_reass_new (dgram k) (first k) f st (qchain (queues st) ++ rest)) as (res & st' & E & [(Hbad & _)|(t & Ht & H)]); try done.
    { eapply owned_perm; [|exact Ho]. solve_Permutation. }
    exists res, st'. split; [done|]. eapply (reassembled_step f st (new_queue (f_ip f) t :: queues st) 0 (new_queue (f_ip f) t)); try done.
    + cbn. by apply NoDup_cons.
    + intros x. specialize (Hno x). tauto.
    + intros k' x. cbn. split; [|tauto]. intros Hc. split; [|done]. intros ->. by apply (Hno x).
Qed.

(** ** Specification: the offsets that have arrived, by datagram *)
Local Notation wanted := (gmap key (gset Z)).
Definition offsets (o l : Z) : gset Z := list_to_set (seqZ o l).

Definition spec_arrive (f : frag) (a : wanted) : option key * wanted :=
  let k := hkey (f_ip f) in
  let s := default ∅ (a !! k) ∪ offsets (f_off f) (f_len f) in
  if decide (offsets 0 (Z.of_nat (length (dgram k))) ⊆ s) then (Some k, delete k a) else (None, <[k := s]> a).

Fixpoint spec_run (l : list frag) (a : wanted) : list (option key) * wanted :=
  match l with
  | [] => ([], a)
  | f :: r => let '(o, a) := spec_arrive f a in let '(os, a) := spec_run r a in (o :: os, a)
  end.

Lemma elem_of_offsets x o l : x ∈ offsets o l <-> o <= x < o + l.
Proof. unfold offsets. rewrite elem_of_list_to_set, elem_of_seqZ. done. Qed.

(** The queues and the specification's state agree. *)
Definition represents (st : ipst) (a : wanted) : Prop :=
  forall k x, covered (queues st) k x <-> x ∈ default (∅ : gset Z) (a !! k).

(** A datagram delivered to its protocol. *)
Definition delivered (ms : mstate) (o : option frag) (k : option key) : Prop :=
  match o, k with
  | None, None => True
  | Some g, Some k => whole (dgram k) (first k) ms (snd (fst (fst k))) (snd (fst k)) g
  | _, _ => False
  end.
Definition ochain (os : list (option frag)) : chain := concat ((fun o => match o with Some g => f_m g | None => [] end) <$> os).

Lemma whole_same D P ms ms' src dst g : same ms ms' (f_m g) -> whole D P ms src dst g -> whole D P ms' src dst g.
Proof.
  intros S (h & hb & plen & m0 & t & H1 & H2 & H3 & H4 & H5 & H6 & H7 & H8). exists h, hb, plen, m0, t.
  splits; try done; [by eapply wfs_same|by rewrite (cdata_same ms)].
Qed.

Lemma step_refines f st rest res st' a : step_ok f st rest res st' -> represents st a ->
  delivered (mb st') res (spec_arrive f a).1 /\ represents st' (spec_arrive f a).2.
Proof.
  intros [_ H] Hr. unfold represents in *. unfold spec_arrive. set (k := hkey (f_ip f)) in *. set (s := default ∅ (a !! k) ∪ _).
  assert (Hs : forall x, x ∈ s <-> covered (queues st) k x \/ in_frag f x).
  { intros x. unfold s. rewrite elem_of_union, elem_of_offsets. specialize (Hr k x). unfold in_frag. tauto. }
  destruct (decide _) as [Hsub|Hsub]; destruct res as [g|]; cbn [fst snd].
  - destruct H as (_ & Hw & _ & Hc). split; [exact Hw|]. intros k' x. rewrite Hc, Hr.
    destruct (decide (k' = k)) as [->|Hne].
    { rewrite lookup_delete_eq. cbn. split; [by intros [? _]|]. intros Hx. by apply elem_of_empty in Hx. }
    rewrite lookup_delete_ne by done. tauto.
  - exfalso. destruct H as (_ & _ & x & Hx & Hn). apply Hn, Hs, Hsub, elem_of_offsets. lia.
  - exfalso. destruct H as (_ & _ & Hall & _). apply Hsub. intros x Hx. apply elem_of_offsets in Hx. apply Hs, Hall. lia.
  - destruct H as (_ & Hc & _). split; [done|]. intros k' x. rewrite Hc. destruct (decide (k' = k)) as [->|Hne].
    + rewrite lookup_insert_eq. cbn. rewrite Hs. tauto.
    + rewrite lookup_insert_ne by done. rewrite Hr. tauto.
Qed.

Lemma reass_run_ok : forall l st rest a, reass_ok st (fchain l ++ rest) -> Forall (good_frag (mb st)) l -> mallocs (mb st) = [] ->
  represents st a ->
  exists os st', reass_run l st = Ret (os, st') /\ Forall2 (delivered (mb st')) os (spec_run l a).1 /\
    represents st' (spec_run l a).2 /\ reass_ok st' (ochain os ++ rest) /\ same (mb st) (mb st') rest.
Proof.
  induction l as [|f l IH]; intros st rest a Hok Hg Hnil Hr.
  { exists [], st. by splits. }
  apply Forall_cons in Hg as [Hf Hg]. unfold fchain in Hok. cbn [fmap list_fmap concat] in Hok. rewrite <- app_assoc in Hok.
  destruct (reass_packet_ok f st _ Hok Hf Hnil) as (res & st1 & E & Hstep & Hnil1).
  destruct (step_refines _ _ _ _ _ a Hstep Hr) as [Hd Hr1]. cbn [reass_run spec_run]. rewrite E. bind.
  destruct (spec_arrive f a) as [o a1]. cbn [fst snd] in *. destruct Hstep as [Hs Hres]. apply same_app in Hs as [Hs1 Hs2].
  assert (Hg1 : Forall (good_frag (mb st1)) l).
  { clear -Hs1 Hg. induction l as [|g l IH]; [done|]. cbn in Hs1. apply same_app in Hs1 as [S1 S2].
    apply Forall_cons in Hg as [H1 H2]. constructor; [by eapply good_frag_same|by apply IH]. }
  assert (Hok1 : reass_ok st1 (fchain l ++ ochain [res] ++ rest)).
  { unfold ochain. destruct res as [g|]; cbn [fmap list_fmap concat]; rewrite ?app_nil_r; [|apply Hres].
    destruct Hres as ((H1 & H2 & H3) & _). split; [done|]. split; [done|]. eapply owned_perm; [|exact H3]. unfold fchain. solve_Permutation. }
  destruct (IH st1 (ochain [res] ++ rest) a1 Hok1 Hg1 Hnil1 Hr1) as (os & st' & -> & I1 & I2 & I3 & I4). bind.
  destruct (spec_run l a1) as [ks a2]. cbn [fst snd] in *. apply same_app in I4 as [I4 I5].
  exists (res :: os), st'. split; [done|]. split; [|split; [done|split]].
  - constructor; [|done]. destruct res as [g|], o as [k|]; try done. cbn in Hd |- *. unfold ochain in I4. cbn in I4.
    rewrite app_nil_r in I4. by eapply whole_same.
  - destruct I3 as (H1 & H2 & H3). split; [done|]. split; [done|]. eapply owned_perm; [|exact H3].
    change (ochain (res :: os)) with ((match res with Some g => f_m g | None => [] end) ++ ochain os).
    unfold ochain at 1. cbn [fmap list_fmap concat]. solve_Permutation.
  - by eapply same_trans.
Qed.

(** *** Timeouts *)
Lemma freef_frags_ok rest : forall l ms, owned ms (fchain l ++ rest) ->
  let ms' := foldl (fun ms f => m_freem (f_m f) ms) ms l in
  owned ms' rest /\ same ms ms' rest /\ forall c, refcnt ms' c = refcnt ms c - refs c (fchain l).
Proof.
  induction l as [|f l IH]; intros ms Ho; cbn zeta; [cbn; splits; try done; intros c; cbn; lia|].
  unfold fchain in Ho. cbn [fmap list_fmap concat] in Ho. rewrite <- app_assoc in Ho.
  destruct (m_freem_ok _ _ _ Ho) as (F1 & F2 & F3). apply same_app in F3 as [F3 F4].
  destruct (IH (m_freem (f_m f) ms) F2) as (I1 & I2 & I3). cbn [foldl]. splits; [done|by eapply same_trans|].
  intros c. rewrite I3, F1. unfold fchain. cbn [fmap list_fmap concat]. rewrite refs_app. lia.
Qed.

Lemma ip_freef_ok q ms rest : is_ext (ipq_m q) = false -> owned ms (fchain (ipq_frags q) ++ rest) ->
  owned (ip_freef q ms) rest /\ same ms (ip_freef q ms) rest /\
  forall c, refcnt (ip_freef q ms) c = refcnt ms c - refs c (fchain (ipq_frags q)).
Proof.
  intros Hq Ho. destruct (freef_frags_ok rest _ _ Ho) as (F1 & F2 & F3). unfold ip_freef.
  set (ms1 := foldl _ _ _) in *. pose proof (MFREE_int (ipq_m q) ms1 Hq) as Hp.
  assert (Hrc : forall c, refcnt (MFREE (ipq_m q) ms1) c = refcnt ms1 c) by (intros c; unfold refcnt; by rewrite Hp).
  splits; [intros c; by rewrite Hrc|by eapply same_trans; [exact F2|apply same_pool; by rewrite Hp]|intros c; by rewrite Hrc].
Qed.

(** One tick off a queue's time to live. *)
Definition aged (q : ipq) : ipq := Ipq (ipq_ttl q - 1) (ipq_p q) (ipq_id q) (ipq_frags q) (ipq_src q) (ipq_dst q) (ipq_m q).
Definition survivors (l : list ipq) : list ipq := aged <$> filter (fun q => ipq_ttl q <> 1) l.

Lemma qchain_aged l : qchain (aged <$> l) = qchain l.
Proof. unfold qchain. by rewrite <- list_fmap_compose. Qed.
Lemma qkey_aged (l : list ipq) : qkey <$> (aged <$> l) = qkey <$> l.
Proof. induction l as [|q l IH]; [done|]. cbn. by f_equal. Qed.
Lemma qchain_filter l : qchain l ≡ₚ qchain (filter (fun q => ipq_ttl q = 1) l) ++ qchain (filter (fun q => ipq_ttl q <> 1) l).
Proof.
  induction l as [|q l IH]; [done|]. rewrite !filter_cons. unfold qchain in *.
  destruct (decide (ipq_ttl q = 1)) as [E|E].
  - destruct (decide (ipq_ttl q <> 1)); [done|]. cbn. rewrite IH. solve_Permutation.
  - destruct (decide (ipq_ttl q <> 1)); [|done]. cbn. rewrite IH. solve_Permutation.
Qed.

Lemma slowtimo_loop_ok : forall l st rest, Forall (fun q => 1 <= ipq_ttl q <= 255 /\ is_ext (ipq_m q) = false) l -> owned (mb st) (qchain l ++ rest) ->
  exists st', slowtimo_loop l st = (survivors l, st') /\ owned (mb st') (qchain (survivors l) ++ rest) /\
    same (mb st) (mb st') (qchain (survivors l) ++ rest) /\
    (forall c, refcnt (mb st') c = refcnt (mb st) c - refs c (qchain (filter (fun q => ipq_ttl q = 1) l))) /\
    stats st' ips_fragtimeout = stats st ips_fragtimeout + Z.of_nat (length (filter (fun q => ipq_ttl q = 1) l)).
Proof.
  induction l as [|q l IH]; intros st rest Hl Ho.
  { exists st. unfold qchain. cbn. splits; try done; [intros c; cbn; lia|lia]. }
  apply Forall_cons in Hl as [[Ht Hq] Hl]. cbn [slowtimo_loop ipq_ttl]. rewrite u8_small by lia. fold (aged q).
  unfold survivors in *. rewrite !filter_cons. unfold qchain in Ho. cbn [fmap list_fmap concat] in Ho. rewrite <- app_assoc in Ho. fold (qchain l) in Ho.
  destruct (Z.eqb_spec (ipq_ttl q - 1) 0) as [E|E].
  - destruct (decide (ipq_ttl q = 1)); [|lia]. destruct (decide (ipq_ttl q <> 1)); [done|].
    destruct (ip_freef_ok (aged q) (mb st) _ Hq Ho) as (F1 & F2 & F3). apply same_app in F2 as [F2 F4].
    cbn zeta. change (mb (count ips_fragtimeout st)) with (mb st).
    destruct (IH (with_mb (ip_freef (aged q) (mb st)) (count ips_fragtimeout st)) rest Hl F1) as (st' & -> & I1 & I2 & I3 & I4).
    cbn [mb with_mb count stats] in *. exists st'. split; [done|]. split; [done|]. split; [|split].
    + eapply same_trans; [|exact I2]. apply same_app. split; [|done]. rewrite qchain_aged.
      intros m Hm He. apply F2; [|done]. revert Hm. rewrite <- !list_elem_of_In, (qchain_filter l), elem_of_app. by right.
    + intros c. rewrite I3, F3. unfold qchain. cbn [fmap list_fmap concat]. rewrite refs_app. cbn [aged ipq_frags]. lia.
    + rewrite I4. unfold bump. destruct (decide _); [|done]. cbn [length]. lia.
  - destruct (decide (ipq_ttl q = 1)); [lia|]. destruct (decide (ipq_ttl q <> 1)); [|done].
    destruct (IH st (fchain (ipq_frags q) ++ rest) Hl) as (st' & -> & I1 & I2 & I3 & I4).
    { eapply owned_perm; [|exact Ho]. solve_Permutation. }
    exists st'. split; [done|]. cbn [fmap list_fmap]. change (qchain (aged q :: ?x)) with (fchain (ipq_frags q) ++ qchain x).
    split; [eapply owned_perm; [|exact I1]; solve_Permutation|]. split; [|done].
    apply same_app in I2 as [I2 I5]. apply same_app in I5 as [I5 I6]. rewrite !same_app. done.
Qed.

Lemma ip_slowtimo_ok st rest : reass_ok st rest -> Forall (fun q => 1 <= ipq_ttl q <= 255) (queues st) ->
  let st' := ip_slowtimo st in queues st' = survivors (queues st) /\ reass_ok st' rest /\ same (mb st) (mb st') rest /\
  (forall c, refcnt (mb st') c = refcnt (mb st) c - refs c (qchain (filter (fun q => ipq_ttl q = 1) (queues st)))) /\
  stats st' ips_fragtimeout = stats st ips_fragtimeout + Z.of_nat (length (filter (fun q => ipq_ttl q = 1) (queues st))).
Proof.
  intros (Hok & Hnd & Ho) Ht. unfold ip_slowtimo. destruct (slowtimo_loop_ok (queues st) st rest) as (st' & -> & I1 & I2 & I3 & I4); try done.
  { rewrite Forall_forall in *. intros q Hin. split; [by apply Ht|]. by destruct (Hok q Hin). }
  cbn [queues with_queues mb stats]. apply same_app in I2 as [I2 I5]. splits; try done. split; [|split; [|done]].
  - apply (queues_same _ _ _ I2). unfold survivors. apply Forall_fmap. rewrite Forall_forall in *. intros q Hin.
    apply list_elem_of_filter in Hin as [_ Hin]. exact (Hok q Hin).
  - change (NoDup (qkey <$> survivors (queues st))). unfold survivors. rewrite qkey_aged.
    eapply sublist_NoDup; [exact Hnd|]. apply fmap_sublist, sublist_filter.
Qed.

(** The queues after [n] ticks. *)
Definition aged_by (n : Z) (q : ipq) : ipq :=
  Ipq (ipq_ttl q - n) (ipq_p q) (ipq_id q) (ipq_frags q) (ipq_src q) (ipq_dst q) (ipq_m q).
Definition younger (n : Z) (l : list ipq) : list ipq := aged_by n <$> filter (fun q => n < ipq_ttl q) l.

Lemma survivors_younger n l : 0 <= n -> survivors (younger n l) = younger (n + 1) l.
Proof.
  intros Hn. unfold survivors, younger. induction l as [|q l IH]; [done|]. rewrite !filter_cons.
  destruct (decide (n < ipq_ttl q)), (decide (n + 1 < ipq_ttl q)); try lia; cbn [fmap list_fmap]; rewrite ?filter_cons; cbn [aged_by ipq_ttl].
  - destruct (decide (ipq_ttl q - n <> 1)); [|lia]. cbn [fmap list_fmap]. rewrite IH. f_equal. unfold aged, aged_by. cbn. f_equal. lia.
  - destruct (decide (ipq_ttl q - n <> 1)); [lia|]. exact IH.
  - exact IH.
Qed.

Lemma younger_0 l : Forall (fun q => 1 <= ipq_ttl q <= 255) l -> younger 0 l = l.
Proof.
  unfold younger. induction 1 as [|q l Hq _ IH]; [done|]. rewrite filter_cons. destruct (decide (0 < ipq_ttl q)); [|lia].
  cbn [fmap list_fmap]. rewrite IH. f_equal. destruct q; unfold aged_by; cbn. f_equal. lia.
Qed.

Lemma younger_ttl n l : 0 <= n -> Forall (fun q => 1 <= ipq_ttl q <= 255) l -> Forall (fun q => 1 <= ipq_ttl q <= 255) (younger n l).
Proof.
  intros Hn H. unfold younger. apply Forall_fmap. rewrite Forall_forall in *. intros q Hin.
  apply list_elem_of_filter in Hin as [Hlt Hin]. specialize (H q Hin). cbn. lia.
Qed.

Lemma refs_survivors c l : refs c (qchain l) = refs c (qchain (filter (fun q => ipq_ttl q = 1) l)) + refs c (qchain (survivors l)).
Proof. unfold survivors. by rewrite (refs_perm _ _ _ (qchain_filter l)), refs_app, qchain_aged. Qed.
Lemma length_survivors l : length l = (length (filter (fun q => ipq_ttl q = 1%Z) l) + length (survivors l))%nat.
Proof.
  unfold survivors. rewrite length_fmap. induction l as [|q l IH]; [done|]. rewrite !filter_cons.
  destruct (decide (ipq_ttl q = 1)), (decide (ipq_ttl q <> 1)); cbn [length]; lia || done.
Qed.

Lemma ticks_ok st rest n : reass_ok st rest -> Forall (fun q => 1 <= ipq_ttl q <= 255) (queues st) ->
  let st' := Nat.iter n ip_slowtimo st in
  queues st' = younger (Z.of_nat n) (queues st) /\ reass_ok st' rest /\ same (mb st) (mb st') rest /\
  (forall c, refcnt (mb st') c = refcnt (mb st) c - (refs c (qchain (queues st)) - refs c (qchain (queues st')))) /\
  stats st' ips_fragtimeout = stats st ips_fragtimeout + (Z.of_nat (length (queues st)) - Z.of_nat (length (queues st'))).
Proof.
  intros Hok Ht. induction n as [|n IH]; cbn zeta.
  { cbn [Nat.iter nat_rect]. rewrite younger_0 by done. splits; try done; [intros c; lia|lia]. }
  change (Nat.iter (S n) ip_slowtimo st) with (ip_slowtimo (Nat.iter n ip_slowtimo st)).
  set (st1 := Nat.iter n ip_slowtimo st) in *. cbn zeta in IH. destruct IH as (I1 & I2 & I3 & I4 & I5).
  destruct (ip_slowtimo_ok st1 rest I2) as (J1 & J2 & J3 & J4 & J5); [rewrite I1; by apply younger_ttl; [lia|]|].
  splits; [|done|by eapply same_trans| |].
  - rewrite J1, I1, survivors_younger by lia. f_equal. lia.
  - intros c. rewrite J4, I4, J1, (refs_survivors c (queues st1)). lia.
  - rewrite J5, I5, J1. pose proof (length_survivors (queues st1)). lia.
Qed.

Lemma drain_ok rest : forall l st, Forall (fun q => is_ext (ipq_m q) = false) l -> owned (mb st) (qchain l ++ rest) ->
  let st' := drain_loop l st in queues st' = [] /\ owned (mb st') rest /\ same (mb st) (mb st') rest /\
  (forall c, refcnt (mb st') c = refcnt (mb st) c - refs c (qchain l)) /\
  stats st' ips_fragdropped = stats st ips_fragdropped + Z.of_nat (length l).
Proof.
  induction l as [|q l IH]; intros st Hl Ho; cbn zeta.
  { cbn. splits; try done; [intros c; cbn; lia|lia]. }
  apply Forall_cons in Hl as [Hq Hl]. unfold qchain in Ho. cbn [fmap list_fmap concat] in Ho. rewrite <- app_assoc in Ho. fold (qchain l) in Ho.
  destruct (ip_freef_ok q (mb st) _ Hq Ho) as (F1 & F2 & F3). apply same_app in F2 as [F2 F4]. cbn [drain_loop].
  change (mb (count ips_fragdropped st)) with (mb st).
  destruct (IH (with_mb (ip_freef q (mb st)) (count ips_fragdropped st)) Hl F1) as (I1 & I2 & I3 & I4 & I5).
  cbn [mb with_mb stats count] in *. splits; try done; [by eapply same_trans| |].
  - intros c. rewrite I4, F3. unfold qchain. cbn [fmap list_fmap concat]. rewrite refs_app. lia.
  - rewrite I5. unfold bump. destruct (decide _); [|done]. cbn [length]. lia.
Qed.

(** *** The books

    The mbufs the queues hold: the header of each and its fragments. *)
Definition held (l : list ipq) : chain := concat ((fun q => ipq_m q :: fchain (ipq_frags q)) <$> l).
Definition opt_chain (o : option frag) : chain := match o with Some g => f_m g | None => [] end.

Lemma held_split l i q : l !! i = Some q -> held l ≡ₚ ipq_m q :: fchain (ipq_frags q) ++ held (delete i l).
Proof.
  intros H. unfold held. rewrite (delete_Permutation l i q H) at 1. done.
Qed.
Lemma held_refs c l : Forall (fun q => is_ext (ipq_m q) = false) l -> refs c (held l) = refs c (qchain l).
Proof.
  unfold held, qchain. induction 1 as [|q l Hq _ IH]; [done|]. cbn [fmap list_fmap concat]. cbn [app refs]. rewrite Hq, !refs_app, IH. done.
Qed.
Lemma fchain_cons f l : fchain (f :: l) = f_m f ++ fchain l. Proof. done. Qed.

Lemma trim_next_ledger f : forall l ms l' ms', trim_next f l ms = Ret (l', ms') -> ledger ms (fchain l) ms' (fchain l').
Proof.
  induction l as [|q l IH]; intros ms l' ms' E; cbn [trim_next] in E; [injection E as <- <-; apply ledger_refl|].
  destruct (f_off f + f_len f >? f_off q); [|injection E as <- <-; apply ledger_refl]. destruct (_ <? f_len q).
  - apply bind_Ret in E as (m & Em & [= <- <-]). rewrite !fchain_cons. apply ledger_app. apply ledger_kin with (l' := f_m q); [apply ledger_refl|by apply m_adj_kin in Em].
  - rewrite fchain_cons. eapply ledger_trans; [apply ledger_freem|by apply IH].
Qed.
Lemma trim_front_kin pre f f' : trim_front pre f = Ret (Some f') -> Forall2 kin (f_m f) (f_m f').
Proof.
  unfold trim_front. destruct (last pre) as [p|]; [|intros [= <-]; apply kin_self]. destruct (_ >? 0); [|intros [= <-]; apply kin_self]. destruct (_ >=? f_len f); [done|].
  intros E. apply bind_Ret in E as (m & Em & [= <-]). by apply m_adj_kin in Em.
Qed.
Lemma concat_frags_ledger : forall l m ms r ms', concat_frags m l ms = Ret (r, ms') -> ledger ms (m ++ fchain l) ms' r.
Proof.
  induction l as [|q l IH]; intros m ms r ms' E; cbn [concat_frags] in E; [injection E as <- <-; rewrite app_nil_r; apply ledger_refl|].
  apply bind_Ret in E as ([m1 ms1] & E1 & E). rewrite fchain_cons, app_assoc. eapply ledger_trans; [by apply ledger_app, m_cat_ledger|by apply IH].
Qed.
Lemma reass_done_ledger fp next l ms g ms' : reass_done fp next l ms = Ret (g, ms') -> ledger ms (ipq_m fp :: fchain l) ms' (f_m g).
Proof.
  destruct l as [|[h [|m0 t]] r]; [done|done|]. cbn [reass_done]. intros E. apply bind_Ret in E as ([m1 ms1] & E1 & E). apply bind_Ret in E as ([m2 ms2] & E2 & E).
  destruct m2 as [|n0 n]; [done|]. injection E as <- <-. cbn [f_m]. apply ledger_kin with (l' := n0 :: n); [|constructor; [done|apply kin_self]].
  apply m_cat_ledger, (ledger_app _ _ _ _ (fchain r)) in E1. apply concat_frags_ledger in E2. pose proof (ledger_trans _ _ _ _ _ _ E1 E2) as H.
  apply (ledger_app _ _ _ _ [ipq_m fp]) in H. rewrite fchain_cons. cbn [f_m]. change (([m0] ++ t) ++ fchain r) with ((m0 :: t) ++ fchain r) in H.
  assert (Hp : ipq_m fp :: (m0 :: t) ++ fchain r ≡ₚ ((m0 :: t) ++ fchain r) ++ [ipq_m fp]) by solve_Permutation. rewrite Hp. eapply ledger_trans; [exact H|].
  assert (Hq : (n0 :: n) ++ [ipq_m fp] ≡ₚ ipq_m fp :: n0 :: n) by solve_Permutation. rewrite Hq. apply ledger_MFREE.
Qed.
Lemma reass_insert_ledger i fp l st res st' q : queues st !! i = Some q -> reass_insert i fp l st = Ret (res, st') ->
  ledger (mb st) (ipq_m fp :: fchain l ++ held (delete i (queues st))) (mb st') (opt_chain res ++ held (queues st')).
Proof.
  intros Hi E. unfold reass_insert in E.
  assert (Hwait : Ret (None, with_queues (<[i := with_frags l fp]> (queues st)) st) = Ret (res, st') ->
    ledger (mb st) (ipq_m fp :: fchain l ++ held (delete i (queues st))) (mb st') (opt_chain res ++ held (queues st'))).
  { intros [= <- <-]. cbn [opt_chain app mb with_queues queues]. assert (Hlt : (i < length (queues st))%nat) by (by apply lookup_lt_Some in Hi).
    rewrite (held_split (<[i := with_frags l fp]> (queues st)) i (with_frags l fp)) by (by apply list_lookup_insert_eq). rewrite (delete_take_drop (<[i := _]> _)), take_insert_ge, drop_insert_lt by lia. rewrite <- delete_take_drop. apply ledger_refl. }
  destruct (contiguous 0 l) as [next|]; [|by apply Hwait]. destruct (last l) as [x|]; [|by apply Hwait]. destruct (negb _); [by apply Hwait|].
  apply bind_Ret in E as ([g ms] & E & [= <- <-]). cbn [opt_chain mb with_mb with_queues queues]. apply reass_done_ledger in E. by apply (ledger_app _ _ _ _ (held (delete i (queues st)))) in E.
Qed.
(** Whatever memory there is, ip_reass loses no mbuf and no reference. *)
Lemma ip_reass_ledger f fp st res st' : ip_reass f fp st = Ret (res, st') -> ledger (mb st) (f_m f ++ held (queues st)) (mb st') (opt_chain res ++ held (queues st')).
Proof.
  unfold ip_reass. destruct (f_m f) as [|m0 r] eqn:Em; [done|]. set (f1 := Fr (f_ip f) _).
  assert (Hf1 : Forall2 kin (m0 :: r) (f_m f1)) by (constructor; [done|apply kin_self]).
  assert (Hin : forall ms rest, ledger ms ((m0 :: r) ++ rest) ms (f_m f1 ++ rest)) by (intros ms rest; apply ledger_app; eapply ledger_kin; [apply ledger_refl|exact Hf1]).
  assert (Hdrop : forall st1, dropfrag f1 st1 = Ret (res, st') -> ledger (mb st) ((m0 :: r) ++ held (queues st)) (mb st1) ((m0 :: r) ++ held (queues st1)) ->
    ledger (mb st) ((m0 :: r) ++ held (queues st)) (mb st') (opt_chain res ++ held (queues st'))).
  { intros st1 [= <- <-] H. cbn [opt_chain app mb with_mb queues count]. eapply ledger_trans; [exact H|]. eapply ledger_trans; [apply Hin|exact (ledger_freem (f_m f1) (mb st1) (held (queues st1)))]. }
  destruct fp as [i|].
  - destruct (queues st !! i) as [q|] eqn:Hi; [|done]. destruct (find_after (f_off f1) (ipq_frags q)) as [pre suf] eqn:Ef. destruct (find_after_ok [] _ _ _ _ Ef) as (Eq & _).
    intros E. apply bind_Ret in E as (o & Eo & E). destruct o as [f2|]; [|apply (Hdrop st E), ledger_refl]. apply trim_front_kin in Eo.
    apply bind_Ret in E as ([suf' ms] & Es & E). apply trim_next_ledger in Es. apply (reass_insert_ledger i q _ (with_mb ms st) _ _ q Hi) in E. cbn [mb with_mb queues] in E.
    eapply ledger_trans; [apply Hin|]. eapply ledger_trans; [|exact E]. rewrite fchain_app, fchain_cons. set (R := held (delete i (queues st))).
    apply (ledger_app _ _ _ _ (ipq_m q :: fchain pre ++ f_m f2 ++ R)) in Es.
    assert (H1 : ipq_m q :: (fchain pre ++ f_m f2 ++ fchain suf') ++ R ≡ₚ fchain suf' ++ ipq_m q :: fchain pre ++ f_m f2 ++ R) by solve_Permutation. rewrite H1.
    assert (H2 : f_m f1 ++ held (queues st) ≡ₚ f_m f1 ++ fchain suf ++ ipq_m q :: fchain pre ++ R) by (rewrite (held_split _ _ _ Hi), Eq, fchain_app; unfold R; solve_Permutation). rewrite H2.
    eapply ledger_trans; [|exact Es]. assert (H3 : fchain suf ++ ipq_m q :: fchain pre ++ f_m f2 ++ R ≡ₚ f_m f2 ++ fchain suf ++ ipq_m q :: fchain pre ++ R) by solve_Permutation. rewrite H3.
    apply ledger_app. eapply ledger_kin; [apply ledger_refl|exact Eo].
  - destruct (MGET MT_FTABLE (mb st)) as [[t|] ms1] eqn:Eg; destruct (ledger_get false _ _ _ _ ((m0 :: r) ++ held (queues st)) Eg) as [L1 _]; intros E; [|by apply (Hdrop _ E)].
    set (q := Ipq _ _ _ _ _ _ t) in E. apply (reass_insert_ledger _ _ _ _ _ _ q) in E; [|done]. cbn [mb with_mb with_queues queues] in E. change (delete 0%nat (q :: queues st)) with (queues st) in E.
    eapply ledger_trans; [exact L1|]. eapply ledger_trans; [|exact E]. unfold fchain at 1. cbn [fmap list_fmap concat]. rewrite app_nil_r.
    assert (H1 : t :: (m0 :: r) ++ held (queues st) ≡ₚ ((m0 :: r) ++ held (queues st)) ++ [t]) by solve_Permutation. rewrite H1.
    assert (H2 : ipq_m q :: f_m f1 ++ held (queues st) ≡ₚ (f_m f1 ++ held (queues st)) ++ [t]) by (change (ipq_m q) with t; solve_Permutation). rewrite H2. apply ledger_app, Hin.
Qed.
Lemma reass_run_ledger : forall l st os st', reass_run l st = Ret (os, st') -> ledger (mb st) (fchain l ++ held (queues st)) (mb st') (ochain os ++ held (queues st')).
Proof.
  induction l as [|f l IH]; intros st os st' E; cbn [reass_run] in E; [injection E as <- <-; apply ledger_refl|].
  apply bind_Ret in E as ([o st1] & E1 & E). apply bind_Ret in E as ([os1 st2] & E2 & [= <- <-]). unfold reass_packet in E1. apply ip_reass_ledger in E1. apply IH in E2.
  apply (ledger_app _ _ _ _ (fchain l)) in E1. apply (ledger_app _ _ _ _ (opt_chain o)) in E2. rewrite fchain_cons.
  assert (H1 : (f_m f ++ fchain l) ++ held (queues st) ≡ₚ (f_m f ++ held (queues st)) ++ fchain l) by solve_Permutation. rewrite H1.
  assert (H2 : ochain (o :: os1) ++ held (queues st2) ≡ₚ (ochain os1 ++ held (queues st2)) ++ opt_chain o) by (change (ochain (o :: os1)) with (opt_chain o ++ ochain os1); solve_Permutation). rewrite H2.
  eapply ledger_trans; [exact E1|]. assert (H3 : (opt_chain o ++ held (queues st1)) ++ fchain l ≡ₚ (fchain l ++ held (queues st1)) ++ opt_chain o) by solve_Permutation. by rewrite H3.
Qed.

(** ** Properties *)

(** What reass_ok says of all the mbufs there are. *)
Lemma reass_ok_held st l rest : reass_ok st (l ++ rest) -> owned (mb st) ((l ++ held (queues st)) ++ rest).
Proof.
  intros (H1 & _ & H2). eapply owned_refs; [|exact H2]. intros c. rewrite !refs_app, held_refs; [lia|].
  eapply Forall_impl; [exact H1|]. by intros q [? _].
Qed.

(** C16: reassembly is correct for every order of arrival.  Fragments of any number
    of datagrams arrive in any order, overlapping, repeated, empty or not, each
    a piece of its sender's datagram (of at most 32767 bytes).  If memory can be had
    for the headers of the queues, the queues then do
    what the specification does, which only keeps the set of offsets received of
    each datagram: nothing is delivered until every byte of a datagram has
    arrived; at that fragment the datagram is delivered, with exactly the
    sender's data behind the header of its first fragment, its addresses put
    back; the queue is gone, the other datagrams are not touched.  And no mbuf and no
    reference is lost: the mbufs of each type that the kernel counts in use, and
    the references to each cluster, grow and shrink exactly with those in the
    datagrams delivered and the queues (their headers included), so that whatever a
    fragment does not add has been freed. *)
Theorem reass_refines (l : list frag) (st : ipst) (rest : chain) (a : gmap key (gset Z)) :
  reass_ok st (fchain l ++ rest) -> Forall (good_frag (mb st)) l -> mallocs (mb st) = [] -> represents st a ->
  exists os st', reass_run l st = Ret (os, st') /\ Forall2 (delivered (mb st')) os (spec_run l a).1 /\
    represents st' (spec_run l a).2 /\ reass_ok st' (ochain os ++ rest) /\ same (mb st) (mb st') rest /\
    kept (mb st) (fchain l ++ held (queues st)) (mb st') (ochain os ++ held (queues st')).
Proof.
  intros Hok Hl Hm Ha. destruct (reass_run_ok l st rest a Hok Hl Hm Ha) as (os & st' & E & H1 & H2 & H3 & H4). exists os, st'.
  splits; try done. apply ledger_kept with (rest := rest); [by apply reass_run_ledger|by apply reass_ok_held..].
Qed.

(** C18: fragments do not stay for ever.  After [n] calls of ip_slowtimo exactly the
    queues whose time to live was above [n] are left, in order and with their
    fragments; each of the others has been freed, every cluster reference in it
    dropped once, and counted in ips_fragtimeout; nothing else has changed.  A
    queue starts with 60 (IPFRAGTTL), so a datagram that is not complete 60 ticks
    after its first fragment is dropped. *)
Theorem frag_timeout (st : ipst) (rest : chain) (n : nat) :
  reass_ok st rest -> Forall (fun q => 1 <= ipq_ttl q <= IPFRAGTTL) (queues st) ->
  let st' := Nat.iter n ip_slowtimo st in
  queues st' = younger (Z.of_nat n) (queues st) /\ reass_ok st' rest /\ same (mb st) (mb st') rest /\
  (forall c, refcnt (mb st') c = refcnt (mb st) c - (refs c (qchain (queues st)) - refs c (qchain (queues st')))) /\
  stats st' ips_fragtimeout = stats st ips_fragtimeout + (Z.of_nat (length (queues st)) - Z.of_nat (length (queues st'))) /\
  (IPFRAGTTL <= Z.of_nat n -> queues st' = []).
Proof.
  intros Hok Ht st'. unfold IPFRAGTTL in *.
  destruct (ticks_ok st rest n Hok) as (H1 & H2 & H3 & H4 & H5); [eapply Forall_impl; [exact Ht|]; cbn; lia|].
  splits; try done. intros Hn. unfold st'. rewrite H1. unfold younger.
  clear -Ht Hn. induction Ht as [|q l Hq _ IH]; [done|]. rewrite filter_cons. destruct (decide (_ < ipq_ttl q)); [lia|exact IH].
Qed.

(** When memory is short ip_drain frees every fragment. *)
Theorem ip_drain_spec (st : ipst) (rest : chain) : reass_ok st rest ->
  let st' := ip_drain st in queues st' = [] /\ owned (mb st') rest /\ same (mb st) (mb st') rest /\
  (forall c, refcnt (mb st') c = refcnt (mb st) c - refs c (qchain (queues st))) /\
  stats st' ips_fragdropped = stats st ips_fragdropped + Z.of_nat (length (queues st)).
Proof.
  intros (Hok & _ & Ho). apply drain_ok; [|done]. eapply Forall_impl; [exact Hok|]. by intros q [? _].
Qed.

End reassembly.

(** what ip_reass tells of the length.  When a second fragment completes a
    datagram, the packet header's length stays that of the first fragment (it is
    too short whenever it was right before), and [ip_len], a short, is negative
    for a datagram of more than 32767 bytes, which the protocols do not expect. *)
Theorem reass_lengths (D : list Z) (first : ip -> list Z -> Z -> Prop) (i : nat) (q : ipq) (f1 f2 : frag)
    (m0 : mbuf) (t : chain) (st : ipst) (rest : chain) :
  Z.of_nat (length D) <= 65535 -> queues st !! i = Some q -> ipq_frags q = [f1] -> is_ext (ipq_m q) = false ->
  frag_ok D first (mb st) f1 -> f_off f1 = 0 -> 0 < f_len f1 -> f_m f1 = m0 :: t ->
  arrived D first (mb st) f2 -> f_off f2 = f_len f1 -> f_off f2 + f_len f2 = Z.of_nat (length D) ->
  owned (mb st) (f_m f2 ++ f_m f1 ++ rest) ->
  exists g st' m' t', ip_reass f2 (Some i) st = Ret (Some g, st') /\ f_m g = m' :: t' /\
    pkt_len m' = pkt_len m0 /\ chain_len (f_m g) = ip_hl (f_ip g) * 4 + Z.of_nat (length D) /\
    ip_len (f_ip g) = (if Z.of_nat (length D) <=? 32767 then Z.of_nat (length D) else Z.of_nat (length D) - 65536).
Proof.
  intros HD Hi Hl Hq Hf1 Ho1 Hlen1 Em Hf2 Ho2 Hend Hown.
  destruct (strip_ok D first (mb st) f2 Hf2) as [Hs2 Hrf].
  pose proof (ar_head _ _ _ _ Hf2) as (n0 & r & En & _). unfold ip_reass. rewrite En, Hi, Hl. cbn zeta.
  assert (Fr (f_ip f2) (set_data n0 (m_off n0 + ip_hl (f_ip f2) * 4) (m_len n0 - ip_hl (f_ip f2) * 4) :: r) = strip f2) as ->
    by (unfold strip; by rewrite En).
  change (f_off (strip f2)) with (f_off f2). cbn [find_after]. rewrite Z.gtb_ltb. destruct (Z.ltb_spec (f_off f2) (f_off f1)); [lia|].
  unfold trim_front. cbn [last]. change (f_off (strip f2)) with (f_off f2). change (f_len (strip f2)) with (f_len f2).
  rewrite Z.gtb_ltb. destruct (Z.ltb_spec 0 (f_off f1 + f_len f1 - f_off f2)); [lia|]. bind. cbn [trim_next]. bind.
  set (P := fun (h : ip) (hb : list Z) (plen : Z) => h = f_ip f1 /\ plen = pkt_len m0).
  assert (K1 : frag_ok D P (mb st) f1).
  { destruct Hf1 as [(m1 & t1 & E & He & Hk) W Hd Hr Hlast]. constructor; try done. exists m1, t1. split; [done|]. split; [done|].
    intros Hz. destruct (Hk Hz) as (A & B & _). split; [done|]. split; [done|]. split; [done|]. congruence. }
  assert (K2 : frag_ok D P (mb st) (strip f2)).
  { destruct Hs2 as [(m1 & t1 & E & He & Hk) W Hd Hr Hlast]. constructor; try done. exists m1, t1. split; [done|]. split; [done|].
    change (f_off (strip f2)) with (f_off f2). lia. }
  destruct (reass_insert_ok D P i q [f1; strip f2] (with_mb (mb st) st) rest) as (res & st' & E & _ & HR); try done.
  { by repeat apply Forall_cons_2. }
  { cbn. change (f_off (strip f2)) with (f_off f2). split; [lia|]. split; [lia|done]. }
  { unfold fchain. cbn [fmap list_fmap concat mb with_mb]. rewrite app_nil_r. eapply (owned_refs (mb st)); [|exact Hown].
    intros c. rewrite !refs_app, Hrf. lia. }
  cbn [app]. rewrite E. destruct res as [g|].
  - destruct HR as (_ & _ & (h & hb & plen & m' & t' & [-> ->] & Eg & Em' & _ & Ep & W & Hd & Hhb) & _).
    exists g, st', m', t'. split; [done|]. split; [done|]. split; [done|]. split.
    + rewrite <- (cdata_length _ _ W), Hd, length_app, Eg. cbn [set_addrs set_iplen ip_hl]. lia.
    + rewrite Eg. cbn [set_addrs set_iplen ip_len]. unfold s16. destruct (Z.leb_spec (Z.of_nat (length D)) 32767).
      * rewrite Z.mod_small; lia.
      * zdiv.
  - exfalso. destruct HR as (l & _ & (_ & _ & x & Hx & Hn) & Hc & _). apply Hn, Hc. rewrite covers_cons, covers_cons. unfold in_frag.
    change (f_off (strip f2)) with (f_off f2). change (f_len (strip f2)) with (f_len f2).
    destruct (Z.lt_ge_cases x (f_len f1)); [left; lia|right; left; lia].
Qed.

(** ** Witnesses *)

(** A datagram of 24 bytes, in pieces. *)
Definition w_data : list Z := Z.of_nat <$> seq 1 24.
Definition w_ms : mstate :=
  MS [] (fun _ => 0) (Stat ∅ 0 0 0) (Pool ∅ ∅ [] (Rmap.Rmap (Rmap.layout [] 3) [] false 0) [] 0) 0 0.
Definition w_st : ipst := St [] (fun _ => 0) w_ms.
Definition w_frag (off len mff : Z) : frag :=
  Fr (Ip 4 5 mff len 7 off 30 17 0 100 200)
     [Mb 16 (20 + len) 1 M_PKTHDR (20 + len) 1
         (take 108 (replicate 16 0 ++ replicate 20 9 ++ slice off len w_data ++ replicate 100 0)) 0 0].
Definition w_dgram (k : Z * Z * Z * Z) : list Z := if decide (k = (7, 100, 200, 17)) then w_data else [].
Definition w_first (k : Z * Z * Z * Z) (h : ip) (hb : list Z) (plen : Z) : Prop := hb = replicate 20 9.

(** The last piece first, the first one twice, an overlapping one that ends it. *)
Definition w_arrivals : list frag := [w_frag 16 8 0; w_frag 0 8 1; w_frag 0 8 1; w_frag 4 20 0].

Lemma w_small k : Z.of_nat (length (w_dgram k)) <= 32767.
Proof. unfold w_dgram. destruct (decide _); vm_compute; congruence. Qed.

Lemma w_arrived ms off len mff : In (off, len, mff) [(16, 8, 0); (0, 8, 1); (4, 20, 0); (8, 16, 0)] ->
  arrived w_data (w_first (7, 100, 200, 17)) ms (w_frag off len mff).
Proof.
  intros H. repeat (destruct H as [[= <- <- <-]|H]; [constructor; [eexists _, []; split; [reflexivity|]; split; [reflexivity|];
    split; [cbn; lia|vm_compute; congruence]|apply Forall_singleton; vm_compute; intuition congruence|vm_compute; reflexivity|vm_compute; intuition congruence|vm_compute; reflexivity]|]).
  destruct H.
Qed.

Lemma w_good : Forall (good_frag w_dgram w_first w_ms) w_arrivals.
Proof. repeat apply Forall_cons_2; try apply Forall_nil_2; unfold good_frag; apply w_arrived; cbn; tauto. Qed.

Lemma w_arrivals_owned c : refs c (fchain w_arrivals ++ []) <= refcnt w_ms c <= 127.
Proof. split; [|vm_compute; congruence]. vm_compute. congruence. Qed.

Lemma reass_refines_witness :
  exists os st', reass_run w_arrivals w_st = Ret (os, st') /\
    Forall2 (delivered w_dgram w_first (mb st')) os [None; None; None; Some (7, 100, 200, 17)] /\
    match last os with Some (Some g) => cdata (mb st') (f_m g) = replicate 20 9 ++ w_data | _ => False end.
Proof.
  destruct (reass_refines w_dgram w_first w_small w_arrivals w_st [] ∅) as (os & st' & E & H & _); [|exact w_good|reflexivity| |].
  - split; [constructor|]. split; [constructor|]. exact w_arrivals_owned.
  - intros k x. split; [intros Hc; by apply Exists_nil in Hc|]. intros Hx. rewrite lookup_empty in Hx. by apply elem_of_empty in Hx.
  - assert ((spec_run w_dgram w_arrivals ∅).1 = [None; None; None; Some (7, 100, 200, 17)]) as Es by (vm_compute; reflexivity).
    rewrite Es in H. exists os, st'. split; [exact E|]. split; [exact H|].
    assert (match reass_run w_arrivals w_st with
            | Ret (os, st') => match last os with Some (Some g) => cdata (mb st') (f_m g) = replicate 20 9 ++ w_data | _ => False end
            | _ => False end) as Hr by (vm_compute; reflexivity).
    rewrite E in Hr. exact Hr.
Defined.

(** The state after the first fragment. *)
Definition w_wait : ipst :=
  match reass_run [w_frag 16 8 0] w_st with Ret (_, st) => st | _ => w_st end.

Lemma frag_timeout_witness :
  length (queues (Nat.iter 59 ip_slowtimo w_wait)) = 1%nat /\ queues (Nat.iter 60 ip_slowtimo w_wait) = [].
Proof.
  assert (Hq : match queues w_wait with
    | [q] => ipq_frags q = [strip (w_frag 16 8 0)] /\ is_ext (ipq_m q) = false /\ qkey q = (7, 100, 200, 17) /\ ipq_ttl q = 60
    | _ => False end) by (vm_compute; repeat split; reflexivity).
  split; [vm_compute; reflexivity|].
  destruct (frag_timeout w_dgram w_first w_wait [] 60) as (_ & _ & _ & _ & _ & H); [| |apply H; vm_compute; congruence];
    destruct (queues w_wait) as [|q [|]] eqn:Eq; try done; destruct Hq as (Q1 & Q2 & Q3 & Q4).
  - destruct (strip_ok _ _ _ _ (w_arrived (mb w_wait) 16 8 0 ltac:(cbn; tauto))) as [Hs _].
    unfold reass_ok. rewrite Eq. split; [|split; [repeat constructor; apply not_elem_of_nil|]].
    + apply Forall_singleton. split; [exact Q2|]. rewrite Q1, Q3. split; [by apply Forall_singleton|]. split; [split; [vm_compute; congruence|done]|].
      exists 0. split; [vm_compute; split; congruence|]. intros Hc. apply covers_cons in Hc as [Hc|Hc]; [|by apply Exists_nil in Hc].
      vm_compute in Hc. destruct Hc as [Hc _]. by apply Hc.
    + intros c. unfold qchain. cbn [fmap list_fmap concat]. rewrite Q1. vm_compute. split; congruence.
  - apply Forall_singleton. rewrite Q4. vm_compute. split; congruence.
Defined.

Definition w_two : ipst := match reass_run [w_frag 0 8 1] w_st with Ret (_, st) => st | _ => w_st end.

Lemma reass_lengths_witness :
  exists g st' m' t', ip_reass (w_frag 8 16 0) (Some 0%nat) w_two = Ret (Some g, st') /\ f_m g = m' :: t' /\
    pkt_len m' = 28 /\ chain_len (f_m g) = 44 /\ ip_len (f_ip g) = 24.
Proof.
  assert (Hq : match queues w_two with [q] => ipq_frags q = [strip (w_frag 0 8 1)] /\ is_ext (ipq_m q) = false | _ => False end)
    by (vm_compute; split; reflexivity).
  destruct (queues w_two) as [|q [|]] eqn:Eq; try done. destruct Hq as [Hq1 Hq2].
  destruct (strip_ok _ _ _ _ (w_arrived (mb w_two) 0 8 1 ltac:(cbn; tauto))) as [Hs _].
  destruct (f_m (strip (w_frag 0 8 1))) as [|m0 t] eqn:Em; [done|].
  destruct (reass_lengths w_data (w_first (7, 100, 200, 17)) 0 q (strip (w_frag 0 8 1)) (w_frag 8 16 0) m0 t w_two [])
    as (g & st' & m' & t' & E & Eg & H1 & H2 & H3); try done; try (vm_compute; congruence).
  - by rewrite Eq.
  - apply w_arrived. cbn. tauto.
  - exists g, st', m', t'. split; [exact E|]. split; [exact Eg|]. split; [rewrite H1; injection Em as <- _; reflexivity|].
    assert (match ip_reass (w_frag 8 16 0) (Some 0%nat) w_two with Ret (Some g, _) => ip_hl (f_ip g) = 5 | _ => False end) as Hh by (vm_compute; reflexivity).
    rewrite E in Hh. rewrite Hh in H2. split; [rewrite H2; reflexivity|rewrite H3; reflexivity].
Defined.

End IpReass.
