(* ===== verification/IpOutput.v ===== *)
(** Sending Internet datagrams, sys/netinet/ip_output.c: ip_output with its
    fragmentation, ip_insertoptions and ip_optcopy.

    A packet is the record of its header beside the chain of mbufs; the header's
    bytes are stored in the chain when the checksum is about to be computed.
    The routing and address tables ([rtalloc] and the functions of in.c and if.c)
    are a record of functions; what the interface receives is kept in [sent]. *)
From stdpp Require Import base numbers list gmap strings.
From Stdlib Require Import ZArith Lia.
From S2P Require Import Prelude Rmap Mbuf Ledger Cksum Ip.

Module IpOutput.
Import Mbuf Ledger Ip.

(** ** Constants *)
Definition EACCES : Z := 13.
Definition EMSGSIZE : Z := 40.
Definition EADDRNOTAVAIL : Z := 49.
Definition ENETUNREACH : Z := 51.
Definition ENOBUFS : Z := 55.
Definition EHOSTUNREACH : Z := 65.
Definition IFF_BROADCAST : Z := 0x2.
Definition RTF_UP : Z := 0x1.
Definition RTF_GATEWAY : Z := 0x2.
Definition IP_FORWARDING : Z := 0x1.
Definition IP_ROUTETOIF : Z := 0x10.
Definition IP_ALLOWBROADCAST : Z := 0x20.
Definition INADDR_ANY : Z := 0.
Definition IPOPT_EOL : Z := 0.
Definition IPOPT_NOP : Z := 1.

(** ** Data *)
Record ifnet := Ifnet { if_mtu : Z; if_flags : Z }.
Record in_ifaddr := Ia { ia_ifp : ifnet; ia_addr : Z }.
Record rtentry := Rt { rt_flags : Z; rt_ifp : ifnet; rt_ifa : in_ifaddr; rt_gateway : Z }.
Record route := Ro { ro_rt : option rtentry; ro_dst : Z }.
Record ipoption := Opt { ipopt_dst : Z; ipopt_list : list Z }.

(** The tables ip_output consults. *)
Record nettab := Net {
  rtalloc : Z -> option rtentry;
  ifa_ifwithdstaddr : Z -> option in_ifaddr;
  in_iaonnetof : Z -> option in_ifaddr;
  in_broadcast : Z -> bool }.

(** [if_errors] holds the results of the coming calls of [if_output] (0 once it is
    empty), [sent] the packets it was given, with their destinations. *)
Record outst := Out {
  ip_id_next : Z;
  o_stats : ipstat;
  o_mb : mstate;
  sent : list (chain * Z);
  if_errors : list Z }.

Definition with_omb (ms : mstate) (st : outst) : outst := Out (ip_id_next st) (o_stats st) ms (sent st) (if_errors st).
Definition ocount (c : counter) (st : outst) : outst := Out (ip_id_next st) (bump c (o_stats st)) (o_mb st) (sent st) (if_errors st).
Definition next_id (st : outst) : outst := Out (u16 (ip_id_next st + 1)) (o_stats st) (o_mb st) (sent st) (if_errors st).

Definition if_output (m : chain) (dst : Z) (st : outst) : Z * outst :=
  let '(e, r) := match if_errors st with [] => (0, []) | e :: r => (e, r) end in
  (e, Out (ip_id_next st) (o_stats st) (o_mb st) (sent st ++ [(m, dst)]) r).

(** ** Header fields *)
Definition set_hl (v : Z) (h : ip) : ip :=
  Ip (ip_v h) (v mod 16) (ip_tos h) (ip_len h) (ip_id h) (ip_off h) (ip_ttl h) (ip_p h) (ip_sum h) (ip_src h) (ip_dst h).
Definition set_vers (v id hl : Z) (h : ip) : ip :=
  Ip v (hl mod 16) (ip_tos h) (ip_len h) id (s16 (Z.land (ip_off h) IP_DF)) (ip_ttl h) (ip_p h) (ip_sum h) (ip_src h) (ip_dst h).

(** [bcopy(bs, mtod(m) + off, ...)]. *)
Definition mwrite (m : mbuf) (off : Z) (bs : list Z) (ms : mstate) : outcome (mbuf * mstate) :=
  d ← bwrite (area ms m) (m_off m + off) bs;
  if is_ext m then
    let p := pool ms in
    Ret (m, with_pool (Pool (<[m_ext m := d]> (clusters p)) (mclrefcnt p) (mclfree p) (mbmap p) (memalls p) (logged p)) ms)
  else Ret (set_dat m d, ms).

(** ** ip_insertoptions

    The result has the header, the new first mbuf if there is one, the original
    chain, and [*phlen] unless the code returned before setting it. *)
Definition ip_insertoptions (max_linkhdr : Z) (h : ip) (m : chain) (opt : ipoption) (ms : mstate)
  : outcome (ip * option mbuf * chain * option Z * mstate) :=
  match m with
  | [] => Fault
  | m0 :: r =>
      let optlen := Z.of_nat (length (ipopt_list opt)) in
      if optlen + u16 (ip_len h) >? IP_MAXPACKET then Ret (h, None, m, None, ms)
      else
        let h := if negb (ipopt_dst opt =? 0) then set_addrs (ip_src h) (ipopt_dst opt) h else h in
        if is_ext m0 || (m_off m0 - optlen <? MLEN - MHLEN) then
          match MGETHDR MT_HEADER ms with
          | (None, ms) => Ret (h, None, m, None, ms)
          | (Some n, ms) =>
              let n := set_pkt_len n (pkt_len m0 + optlen) in
              let m0 := set_data m0 (m_off m0 + sizeof_ip) (m_len m0 - sizeof_ip) in
              let n := set_data n (m_off n + max_linkhdr) (optlen + sizeof_ip) in
              '(n, ms) ← mwrite n sizeof_ip (ipopt_list opt) ms;
              Ret (set_iplen (ip_len h + optlen) h, Some n, m0 :: r, Some (sizeof_ip + optlen), ms)
          end
        else
          let m0 := set_pkt_len (set_data m0 (m_off m0 - optlen) (m_len m0 + optlen)) (pkt_len m0 + optlen) in
          '(m0, ms) ← mwrite m0 sizeof_ip (ipopt_list opt) ms;
          Ret (set_iplen (ip_len h + optlen) h, None, m0 :: r, Some (sizeof_ip + optlen), ms)
  end.

(** ** ip_optcopy: the options the fragments after the first one carry

    [cp] are the bytes from the options on. *)
Definition IPOPT_COPIED (o : Z) : bool := has o 0x80.

Fixpoint optcopy_loop (fuel : nat) (cp : list Z) (cnt : Z) (dp : list Z) : outcome (list Z) :=
  match fuel with
  | O => Fault
  | S fuel =>
      if cnt >? 0 then
        match cp with
        | [] => Fault
        | opt :: _ =>
            if opt =? IPOPT_EOL then Ret dp
            else
              optlen ← (if opt =? IPOPT_NOP then Ret 1
                        else match cp !! 1%nat with Some l => Ret l | None => Fault end);
              let optlen := if optlen >? cnt then cnt else optlen in
              optcopy_loop fuel (drop (Z.to_nat optlen) cp) (cnt - optlen)
                (if IPOPT_COPIED opt then dp ++ take (Z.to_nat optlen) cp else dp)
        end
      else Ret dp
  end.

(** The padding to a multiple of four bytes. *)
Fixpoint optpad (n : nat) (dp : list Z) : list Z :=
  match n with
  | O => dp
  | S n => if has (Z.of_nat (length dp)) 3 then optpad n (dp ++ [IPOPT_EOL]) else dp
  end.

Definition ip_optcopy (hl : Z) (cp : list Z) : outcome (list Z) :=
  dp ← optcopy_loop (S (Z.to_nat (hl * 4 - sizeof_ip))) cp (hl * 4 - sizeof_ip) [];
  Ret (optpad 3 dp).

(** ** ip_output *)
Section ip_output.
Variable big : bool.
Variable max_linkhdr : Z.
Variable net : nettab.

(** [ip->ip_sum = 0; ip->ip_sum = in_cksum(m, hlen)] with the header stored in the
    first mbuf before and after. *)
Definition put_sum (h : ip) (m : chain) (hlen : Z) (ms : mstate) : outcome (ip * chain * mstate) :=
  match m with
  | [] => Fault
  | m0 :: r =>
      let h := set_sum 0 h in
      '(m0, ms) ← mwrite m0 0 (ip_bytes big h) ms;
      '(sum, _) ← Cksum.in_cksum_c big ms (m0 :: r) hlen 0;
      let h := set_sum sum h in
      '(m0, ms) ← mwrite m0 0 (ip_bytes big h) ms;
      Ret (h, m0 :: r, ms)
  end.

(** "Route packet": the interface's address, the interface, the next hop. *)
Definition select_route (ro : option route) (flags dst : Z) : route * (Z + in_ifaddr * ifnet * Z) :=
  let ro := default (Ro None 0) ro in
  let ro := match ro_rt ro with
            | Some rt => if negb (has (rt_flags rt) RTF_UP) || negb (ro_dst ro =? dst) then Ro None (ro_dst ro) else ro
            | None => ro
            end in
  let ro := match ro_rt ro with None => Ro None dst | Some _ => ro end in
  if has flags IP_ROUTETOIF then
    match (match ifa_ifwithdstaddr net (ro_dst ro) with Some ia => Some ia | None => in_iaonnetof net dst end) with
    | None => (ro, inl ENETUNREACH)
    | Some ia => (ro, inr (ia, ia_ifp ia, ro_dst ro))
    end
  else
    let ro := match ro_rt ro with None => Ro (rtalloc net (ro_dst ro)) (ro_dst ro) | Some _ => ro end in
    match ro_rt ro with
    | None => (ro, inl EHOSTUNREACH)
    | Some rt => (ro, inr (rt_ifa rt, rt_ifp rt, if has (rt_flags rt) RTF_GATEWAY then rt_gateway rt else ro_dst ro))
    end.

(** One fragment after the first: its header record, with the options in [opts]. *)
Definition frag_header (h : ip) (hlen mhlen off len : Z) : ip * Z :=
  let f := Z.shiftr (off - hlen) 3 + Z.land (ip_off h) (Z.lnot IP_MF) in
  let f := if has (ip_off h) IP_MF then Z.lor f IP_MF else f in
  let '(f, len) := if off + len >=? u16 (ip_len h) then (f, u16 (ip_len h) - off) else (Z.lor f IP_MF, len) in
  (set_iplen (len + mhlen) (set_ipoff f h), len).

(** The mbuf of a fragment's header. *)
Definition frag_mbuf (h : ip) (m0 : mbuf) (hlen mhlen : Z) (m : mbuf) (ms : mstate) : outcome (ip * Z * mbuf * mstate) :=
  let m := set_data m (m_off m + max_linkhdr) (m_len m) in
  '(mhip, mhlen, opts) ←
    (if hlen >? sizeof_ip then
       cp ← (if m_off m0 + sizeof_ip <=? Z.of_nat (length (area ms m0))
             then Ret (drop (Z.to_nat (m_off m0 + sizeof_ip)) (area ms m0)) else Fault);
       opts ← ip_optcopy (ip_hl h) cp;
       let mhlen := Z.of_nat (length opts) + sizeof_ip in
       Ret (set_hl (Z.shiftr mhlen 2) h, mhlen, opts)
     else Ret (h, mhlen, []));
  '(m, ms) ← mwrite m sizeof_ip opts ms;
  Ret (mhip, mhlen, set_len m mhlen, ms).

(** The body of the loop over the rest of the packet [m0], once the header's mbuf
    [m] is there: the fragment unless m_copy failed, and the new values of
    [mhlen] and [len]. *)
Definition frag_one (h : ip) (m0 : chain) (hlen mhlen off len : Z) (m : mbuf) (ms : mstate)
  : outcome (option chain * Z * Z * mstate) :=
  match m0 with
  | [] => Fault
  | m00 :: _ =>
      '(mhip, mhlen, m, ms) ← frag_mbuf h m00 hlen mhlen m ms;
      let '(mhip, len) := frag_header mhip hlen mhlen off len in
      '(data, ms) ← m_copym m0 off len ms;
      match data with
      | [] => Ret (None, mhlen, len, ms)
      | _ =>
          let m := Mb (m_off m) (m_len m) (m_type m) (m_flags m) (mhlen + len) 0 (m_dat m) (m_ext m) (ext_size m) in
          '(_, m, ms) ← put_sum mhip (m :: data) mhlen ms;
          Ret (Some m, mhlen, len, ms)
      end
  end.

(** [frags] are the fragments linked so far. *)
Fixpoint frag_loop (fuel : nat) (h : ip) (m0 : chain) (hlen mhlen off len : Z) (frags : list chain) (st : outst)
  : outcome (Z * list chain * outst) :=
  match fuel with
  | O => Fault
  | S fuel =>
      if off <? u16 (ip_len h) then
        match MGETHDR MT_HEADER (o_mb st) with
        | (None, ms) => Ret (ENOBUFS, frags, with_omb ms st)
        | (Some m, ms) =>
            '(c, mhlen, len, ms) ← frag_one h m0 hlen mhlen off len m ms;
            match c with
            | None => Ret (ENOBUFS, frags, with_omb ms st)
            | Some c =>
                frag_loop fuel h m0 hlen mhlen (off + len) len (frags ++ [c]) (ocount ips_ofragments (with_omb ms st))
            end
        end
      else Ret (0, frags, st)
  end.

(** [sendorfree]. *)
Fixpoint send_or_free (error dst : Z) (l : list chain) (st : outst) : Z * outst :=
  match l with
  | [] => (error, st)
  | m :: r =>
      if error =? 0 then let '(e, st) := if_output m dst st in send_or_free e dst r st
      else send_or_free error dst r (with_omb (m_freem m (o_mb st)) st)
  end.

(** "Too large for interface". *)
Definition ip_fragment (h : ip) (m : chain) (hlen mtu dst : Z) (st : outst) : outcome (Z * outst) :=
  let len := Z.land (mtu - hlen) (Z.lnot 7) in
  let firstlen := len in
  '(error, frags, st) ← frag_loop (S (Z.to_nat (u16 (ip_len h)))) h m hlen sizeof_ip (hlen + len) len [] st;
  if negb (error =? 0) then Ret (send_or_free error dst (m :: frags) st)
  else
    m ← m_adj m (hlen + firstlen - u16 (ip_len h));
    match m with
    | [] => Fault
    | m0 :: r =>
        let m0 := set_pkt_len m0 (hlen + firstlen) in
        let h := set_ipoff (Z.lor (ip_off h) IP_MF) (set_iplen (hlen + firstlen) h) in
        '(_, m, ms) ← put_sum h (m0 :: r) hlen (o_mb st);
        Ret (send_or_free 0 dst (m :: frags) (with_omb ms st))
    end.

(** [bad]: [m_freem(m0)], the chain ip_output was called with. *)
Definition out_bad (error : Z) (ro : route) (m0 : chain) (st : outst) : outcome (Z * route * outst) :=
  Ret (error, ro, with_omb (m_freem m0 (o_mb st)) st).

(** From the broadcast check on, for the packet [lead ++ m0]. *)
Definition ip_send (h : ip) (lead m0 : chain) (hlen flags : Z) (ro : route) (ifp : ifnet) (dst : Z) (st : outst)
  : outcome (Z * route * outst) :=
  let bcast := in_broadcast net dst in
  if bcast && negb (has (if_flags ifp) IFF_BROADCAST) then out_bad EADDRNOTAVAIL ro m0 st
  else if bcast && negb (has flags IP_ALLOWBROADCAST) then out_bad EACCES ro m0 st
  else if bcast && (u16 (ip_len h) >? if_mtu ifp) then out_bad EMSGSIZE ro m0 st
  else
    match lead ++ m0 with
    | [] => Fault
    | m :: r =>
        let m := (if bcast then set_flags m (Z.lor (m_flags m) M_BCAST) else m) :: r in
        if u16 (ip_len h) <=? if_mtu ifp then
          '(_, m, ms) ← put_sum h m hlen (o_mb st);
          let '(e, st) := if_output m dst (with_omb ms st) in Ret (e, ro, st)
        else
          let st := ocount ips_fragmented st in
          if has (ip_off h) IP_DF then out_bad EMSGSIZE ro m0 st
          else if Z.land (if_mtu ifp - hlen) (Z.lnot 7) <? 8 then out_bad EMSGSIZE ro m0 st
          else '(e, st) ← ip_fragment h m hlen (if_mtu ifp) dst st; Ret (e, ro, st)
    end.

(** [len0] is what the uninitialised variable [len] holds. *)
Definition ip_output (h : ip) (m0 : chain) (opt : option ipoption) (ro : option route) (flags len0 : Z) (st : outst)
  : outcome (Z * route * outst) :=
  match m0 with
  | [] => Fault
  | m00 :: _ =>
      if negb (is_pkt m00) then Panic "ip_output no HDR"
      else
        '(h, lead, m0, hlen, st) ←
          (match opt with
           | None => Ret (h, [], m0, sizeof_ip, st)
           | Some opt =>
               '(h, n, m0, phlen, ms) ← ip_insertoptions max_linkhdr h m0 opt (o_mb st);
               Ret (h, match n with Some n => [n] | None => [] end, m0, default len0 phlen, with_omb ms st)
           end);
        let '(h, hlen, st) :=
          if negb (has flags IP_FORWARDING)
          then (set_vers IPVERSION (ip_id_next st) (Z.shiftr hlen 2) h, hlen, next_id st)
          else (h, ip_hl h * 4, ocount ips_localout st) in
        let '(ro, r) := select_route ro flags (ip_dst h) in
        match r with
        | inl e => out_bad e ro m0 st
        | inr (ia, ifp, dst) =>
            let h := if ip_src h =? INADDR_ANY then set_addrs (ia_addr ia) (ip_dst h) h else h in
            ip_send h lead m0 hlen flags ro ifp dst st
        end
  end.
End ip_output.

(** ** Writing into an mbuf *)

Lemma bwrite_eq l off bs : 0 <= off -> off + Z.of_nat (length bs) <= Z.of_nat (length l) ->
  bwrite l off bs = Ret (take (Z.to_nat off) l ++ bs ++ drop (Z.to_nat off + length bs) l).
Proof.
  intros H1 H2. unfold bwrite. destruct (Z.leb_spec 0 off); [|lia].
  by destruct (Z.leb_spec (off + Z.of_nat (length bs)) (Z.of_nat (length l))); [|lia].
Qed.

Lemma splice_length (l bs : list Z) n : (n + length bs <= length l)%nat -> length (take n l ++ bs ++ drop (n + length bs) l) = length l.
Proof. intros H. rewrite !length_app, length_take, length_drop. lia. Qed.

(** A slice that starts at the bytes written. *)
Lemma splice_slice (l bs : list Z) n k : (n + length bs <= length l)%nat -> (length bs <= k)%nat ->
  take k (drop n (take n l ++ bs ++ drop (n + length bs) l)) = bs ++ take (k - length bs) (drop (n + length bs) l).
Proof.
  intros H1 H2. rewrite drop_app_length' by (rewrite length_take; lia). rewrite take_app_ge by lia. done.
Qed.

(** Same mbuf, other contents. *)
Definition alike (a b : mbuf) : Prop :=
  m_off b = m_off a /\ m_len b = m_len a /\ m_type b = m_type a /\ m_flags b = m_flags a /\ pkt_len b = pkt_len a /\
  rcvif b = rcvif a /\ m_ext b = m_ext a /\ ext_size b = ext_size a.

Lemma alike_refl m : alike m m.
Proof. by unfold alike; splits. Qed.
Lemma alike_trans a b c : alike a b -> alike b c -> alike a c.
Proof. unfold alike. intros (-> & -> & -> & -> & -> & -> & -> & ->) H. exact H. Qed.
Lemma alike_ext a b : alike a b -> is_ext b = is_ext a.
Proof. intros (_ & _ & _ & H & _). unfold is_ext. by rewrite H. Qed.
Lemma alike_pkt a b : alike a b -> is_pkt b = is_pkt a.
Proof. intros (_ & _ & _ & H & _). unfold is_pkt. by rewrite H. Qed.
Lemma alike_refs a b r c : alike a b -> refs c (b :: r) = refs c (a :: r).
Proof. intros H. apply refs_flags; [by apply alike_ext|]. by destruct H as (_ & _ & _ & _ & _ & _ & ? & _). Qed.

Lemma mwrite_front ms m bs : wf ms m -> is_ext m = false -> Z.of_nat (length bs) <= m_len m ->
  exists m', mwrite m 0 bs ms = Ret (m', ms) /\ alike m m' /\ wf ms m' /\ data ms m' = bs ++ drop (length bs) (data ms m).
Proof.
  intros W He Hl. pose proof W as (W1 & W2 & W3 & W4 & W5). unfold area in W3. rewrite He in W3.
  unfold mwrite, area. rewrite He, bwrite_eq by lia. bind. eexists. split; [done|].
  assert (Hlen : (Z.to_nat (m_off m + 0) + length bs <= length (m_dat m))%nat) by lia.
  split; [by unfold alike; splits|]. split.
  - unfold wf, area, is_ext, is_pkt in *. cbn. rewrite He, !splice_length by lia.
    splits; [done|done|lia|intros _; by apply W4|intros _ Hp; by apply W5].
  - unfold data, area, is_ext, slice in *. cbn. rewrite He. replace (m_off m + 0) with (m_off m) in * by lia.
    rewrite splice_slice by lia. f_equal. rewrite skipn_firstn_comm, drop_drop. done.
Qed.

(** ** The checksum *)
Section proofs.
Variable big : bool.

Lemma native16_word n : 0 <= n < 65536 -> exists x y, native16 big n = [x; y] /\ Cksum.word big x y = n.
Proof.
  intros H. unfold native16, Cksum.word, be16. rewrite u16_small by lia. destruct big; cbn; eexists _, _; (split; [done|]); zdiv.
Qed.

Lemma cksum_spec_range l : Cksum.bytes l -> 0 <= Cksum.cksum_spec big l <= 65535.
Proof.
  intros Hb. unfold Cksum.cksum_spec, Cksum.fold16. pose proof (Cksum.bsum_nonneg big l true Hb). bcase; [lia|]. zdiv.
Qed.

Lemma u16_byte n : 0 <= u16 n / 256 < 256 /\ 0 <= u16 n mod 256 < 256.
Proof. pose proof (u16_range n). zdiv. Qed.
Lemma be16_bytes n : Cksum.bytes (be16 n).
Proof. destruct (u16_byte n). by repeat apply Forall_cons_2. Qed.
Lemma ip_bytes_ok h : ip_wf h -> Cksum.bytes (ip_bytes big h).
Proof.
  intros (H1 & H2 & H3 & H4 & H5 & H6 & H7 & H8 & H9 & H10 & H11). unfold ip_bytes, be32, Cksum.bytes.
  repeat (apply Forall_app_2 || apply be16_bytes || apply Forall_cons_2 || apply Forall_nil_2); try lia.
  unfold native16. destruct big; [apply be16_bytes|]. apply Forall_rev, be16_bytes.
Qed.

Lemma put_sum_ok h m0 r hlen ms : wf ms m0 -> is_ext m0 = false -> 20 <= m_len m0 -> Forall (wf ms) r ->
  Cksum.bytes (drop 20 (cdata ms (m0 :: r))) -> 20 <= hlen <= 65535 -> ip_wf h -> 0 < ip_v h ->
  exists s m0', put_sum big h (m0 :: r) hlen ms = Ret (set_sum s h, m0' :: r, ms) /\ 0 <= s < 65536 /\ alike m0 m0' /\ wf ms m0' /\
    cdata ms (m0' :: r) = ip_bytes big (set_sum s h) ++ drop 20 (cdata ms (m0 :: r)) /\
    Cksum.cksum_spec big (take (Z.to_nat hlen) (cdata ms (m0' :: r))) = 0.
Proof.
  intros W He Hl Wr Hb Hh Hip Hv. unfold IpOutput.put_sum.
  assert (Hz : ip_wf (set_sum 0 h)) by (destruct Hip as (? & ? & ? & ? & ? & ? & ? & ? & ? & ? & ?); unfold ip_wf; cbn; splits; try lia; done).
  destruct (mwrite_front ms m0 (ip_bytes big (set_sum 0 h)) W He) as (m1 & -> & A1 & W1 & D1); [rewrite ip_bytes_length; lia|]. bind.
  rewrite ip_bytes_length in D1. pose proof (data_length ms m0 W) as Hdl.
  assert (Hc1 : cdata ms (m1 :: r) = ip_bytes big (set_sum 0 h) ++ drop 20 (cdata ms (m0 :: r))).
  { rewrite !cdata_cons, D1, drop_app_le by lia. by rewrite <- app_assoc. }
  assert (Hb1 : Cksum.bytes (cdata ms (m1 :: r))).
  { rewrite Hc1. apply Forall_app_2; [by apply ip_bytes_ok|done]. }
  rewrite (Cksum.in_cksum_ok big ms (m1 :: r) hlen 0); [|by constructor|done|lia|lia]. bind.
  set (s := Cksum.cksum_spec big _). assert (Hs : 0 <= s <= 65535) by (apply cksum_spec_range; by apply Forall_take).
  assert (He1 : is_ext m1 = false) by (by rewrite (alike_ext _ _ A1)).
  assert (Hl1 : m_len m1 = m_len m0) by (by destruct A1 as (_ & ? & _)).
  change (set_sum s (set_sum 0 h)) with (set_sum s h).
  destruct (mwrite_front ms m1 (ip_bytes big (set_sum s h)) W1 He1) as (m2 & -> & A2 & W2 & D2); [rewrite ip_bytes_length; lia|]. bind.
  rewrite ip_bytes_length, D1, drop_app_length' in D2 by (by rewrite ip_bytes_length).
  assert (Hc2 : cdata ms (m2 :: r) = ip_bytes big (set_sum s h) ++ drop 20 (cdata ms (m0 :: r))).
  { rewrite !cdata_cons, D2, drop_app_le by lia. by rewrite <- app_assoc. }
  exists s, m2. split; [done|]. split; [lia|]. split; [by eapply alike_trans|]. split; [done|]. split; [done|].
  set (post := take (Z.to_nat hlen - 12) (be32 (ip_src h) ++ be32 (ip_dst h) ++ drop 20 (cdata ms (m0 :: r)))).
  set (pre := [ip_v h * 16 + ip_hl h; ip_tos h] ++ be16 (ip_len h) ++ be16 (ip_id h) ++ be16 (ip_off h) ++ [ip_ttl h; ip_p h]).
  assert (Hsplit : forall n, take (Z.to_nat hlen) (ip_bytes big (set_sum n h) ++ drop 20 (cdata ms (m0 :: r))) = pre ++ native16 big (u16 n) ++ post).
  { intros n. assert (Hn2 : length (native16 big (u16 n)) = 2%nat) by (by destruct big).
    assert (Epre : ip_bytes big (set_sum n h) ++ drop 20 (cdata ms (m0 :: r)) =
      (pre ++ native16 big (u16 n)) ++ (be32 (ip_src h) ++ be32 (ip_dst h) ++ drop 20 (cdata ms (m0 :: r)))).
    { unfold ip_bytes, pre. cbn [set_sum ip_v ip_hl ip_tos ip_len ip_id ip_off ip_ttl ip_p ip_sum ip_src ip_dst]. by rewrite <- !app_assoc. }
    rewrite Epre, take_app_ge; [|rewrite length_app, Hn2; change (length pre) with 10%nat; lia].
    rewrite length_app, Hn2. change (length pre + 2)%nat with 12%nat. by rewrite <- app_assoc. }
  destruct (native16_word s) as (x & y & Exy & Hw); [lia|].
  rewrite Hc2, Hsplit, u16_small, Exy by lia. apply Cksum.cksum_verify_list; [|done|].
  - rewrite <- Exy, <- (u16_small s), <- Hsplit by lia. apply Forall_take. rewrite <- Hc2. rewrite Hc2.
    apply Forall_app_2; [|done]. apply ip_bytes_ok.
    destruct Hip as (? & ? & ? & ? & ? & ? & ? & ? & ? & ? & ?). unfold ip_wf. cbn. rewrite u16_small by lia. splits; try lia; done.
  - rewrite Hw. split.
    + unfold s. rewrite Hc1, Hsplit. f_equal. f_equal. f_equal. by destruct big.
    + intros Hall. apply Forall_app in Hall as [Hall _]. apply Forall_cons in Hall as [Hall _]. destruct Hip as (_ & ? & _). lia.
Qed.
End proofs.

(** ** Allocation *)
Lemma mgethdr_ok t ms o ms' : MGETHDR t ms = (o, ms') ->
  pool ms' = pool ms /\ (mallocs ms = [] -> mallocs ms' = [] /\ o <> None) /\
  match o with
  | Some m => m_off m = 8 /\ m_flags m = M_PKTHDR /\ length (m_dat m) = 108%nat /\ m_dat m = bytes_of (junk ms) 108
  | None => True
  end.
Proof.
  unfold MGETHDR, m_retryhdr, mget_once, MALLOC. intros H.
  destruct (mallocs ms) as [|b l] eqn:E; [injection H as <- <-; cbn; by splits|].
  destruct b; [injection H as <- <-; cbn; by splits|].
  destruct l as [|b l]; [injection H as <- <-; cbn; by splits|]. destruct b; injection H as <- <-; cbn; by splits.
Qed.


(** A copy takes no more references than the original has. *)
Lemma copy_one_refs off len hdr off0 m n ms n' ms' c : copy_one off len hdr off0 m n ms = Ret (n', ms') -> m_flags n = 0 ->
  refs c [n'] = refs c [m] /\ mallocs ms' = mallocs ms.
Proof.
  unfold copy_one. set (k := if hdr then _ else n). intros E Hn.
  assert (Hk : is_ext (set_len k (Z.min len (m_len m - off))) = false).
  { unfold k. destruct hdr; [unfold is_ext; cbn; by destruct (copyhdr_flags (m_flags m))|]. unfold is_ext. cbn. by rewrite Hn. }
  destruct (is_ext m) eqn:Em.
  - injection E as <- <-. cbn [refs]. rewrite is_ext_set_ext, Em. done.
  - apply bind_Ret in E as (bs & _ & E). apply bind_Ret in E as (d & _ & [= <- <-]). split; [|done].
    cbn [refs]. rewrite Em. change (is_ext (set_dat ?x d)) with (is_ext x). by rewrite Hk.
Qed.

Lemma copy_loop_refs off0 c : forall m off len hdr top ms r ms', copy_loop m off len hdr off0 top ms = Ret (r, ms') ->
  refs c r <= refs c top + refs c m /\ (mallocs ms = [] -> mallocs ms' = []).
Proof.
  assert (Hend : forall top ms r ms', copy_end top ms = Ret (r, ms') -> r = top /\ mallocs ms' = mallocs ms).
  { intros top ms r ms'. unfold copy_end. by destruct top; intros [= <- <-]. }
  induction m as [|m0 m IH]; intros off len hdr top ms r ms' E; cbn [copy_loop] in E; pose proof (refs_nonneg c top) as Ht.
  - case_match; [case_match; [|done]|]; destruct (Hend _ _ _ _ E) as [-> Hm]; (split; [cbn; lia|by rewrite Hm]).
  - pose proof (refs_nonneg c (m0 :: m)) as Hmm. case_match; [|destruct (Hend _ _ _ _ E) as [-> Hm]; split; [lia|by rewrite Hm]].
    destruct (MGET (m_type m0) ms) as [[n|] ms1] eqn:Eg; destruct (mget_ok _ _ _ _ Eg) as (_ & Hf & Hm).
    + apply bind_Ret in E as ([n' ms2] & E1 & E). destruct Hf as (_ & _ & Hf & _).
      destruct (copy_one_refs _ _ _ _ _ _ _ _ _ c E1 Hf) as [Hr Hm2]. destruct (IH _ _ _ _ _ _ _ E) as [I1 I2].
      rewrite refs_app, Hr in I1. split; [cbn in *; lia|]. intros Hnil. apply I2. rewrite Hm2. by apply Hm.
    + injection E as <- <-. split; [cbn in *; lia|]. intros Hnil. by destruct (Hm Hnil).
Qed.

Lemma m_copym_refs m off len ms r ms' c : m_copym m off len ms = Ret (r, ms') ->
  refs c r <= refs c m /\ (mallocs ms = [] -> mallocs ms' = []).
Proof.
  unfold m_copym. case_match; [done|]. intros E. apply bind_Ret in E as (hdr & _ & E). apply bind_Ret in E as ([off' m'] & Es & E).
  destruct (copy_loop_refs off c _ _ _ _ _ _ _ _ E) as [H1 H2]. split; [|done].
  assert (Hsub : forall l o, copy_seek "m_copym" o l = Ret (off', m') -> refs c m' <= refs c l).
  { clear. induction l as [|x l IH]; intros o E; cbn [copy_seek] in E; case_match; try done; try (injection E as <- <-; done).
    case_match; [by injection E as <- <-|]. specialize (IH _ E). cbn. destruct (_ && _); lia. }
  specialize (Hsub _ _ Es). cbn in H1. lia.
Qed.

(** ** The options of the fragments *)
Lemma optcopy_loop_ok (P : Z -> Prop) : forall fuel cp cnt dp r, optcopy_loop fuel cp cnt dp = Ret r ->
  Forall (fun b => 0 <= b) cp -> Forall P (take (Z.to_nat cnt) cp) -> Forall P dp -> Forall P r /\ Z.of_nat (length r) <= Z.of_nat (length dp) + Z.max 0 cnt.
Proof.
  induction fuel as [|fuel IH]; intros cp cnt dp r E Hpos Hc Hd; [done|]. cbn [optcopy_loop] in E. rewrite Z.gtb_ltb in E.
  destruct (Z.ltb_spec 0 cnt) as [Hcnt|]; [|injection E as <-; split; [done|lia]].
  destruct cp as [|opt cp]; [done|]. destruct (opt =? IPOPT_EOL); [injection E as <-; split; [done|lia]|].
  apply bind_Ret in E as (ol & Eo & E). set (n := if ol >? cnt then cnt else ol) in E.
  assert (Ho : 0 <= ol).
  { destruct (opt =? IPOPT_NOP); [by injection Eo as <-|]. destruct ((opt :: cp) !! 1%nat) as [l|] eqn:El; [|done].
    injection Eo as <-. apply (Forall_lookup_1 _ _ _ _ Hpos El). }
  assert (Hn : 0 <= n <= cnt) by (unfold n; rewrite Z.gtb_ltb; bcase; lia). clearbody n.
  assert (Htake : Forall P (take (Z.to_nat n) (opt :: cp))).
  { rewrite <- (Nat.min_l (Z.to_nat n) (Z.to_nat cnt)) by lia. rewrite <- take_take. by apply Forall_take. }
  destruct (IH _ _ _ _ E) as [I1 I2].
  - by apply Forall_drop.
  - replace (Z.to_nat (cnt - n)) with (Z.to_nat cnt - Z.to_nat n)%nat by lia.
    assert (Hd' : Forall P (drop (Z.to_nat n) (take (Z.to_nat cnt) (opt :: cp)))) by (by apply Forall_drop).
    by rewrite skipn_firstn_comm in Hd'.
  - case_match; [by apply Forall_app_2|done].
  - split; [done|]. case_match; rewrite ?length_app, ?length_take in I2; lia.
Qed.

Lemma optpad_ok (P : Z -> Prop) n : P 0 -> forall dp, Forall P dp ->
  Forall P (optpad n dp) /\ (length (optpad n dp) <= length dp + n)%nat /\
  (forall k, Z.of_nat (length dp) <= 4 * k -> Z.of_nat (length (optpad n dp)) <= 4 * k).
Proof.
  intros H0. induction n as [|n IH]; intros dp Hd; cbn [optpad]; [splits; try done; lia|].
  destruct (has (Z.of_nat (length dp)) 3) eqn:Hh; [|splits; try done; lia].
  destruct (IH (dp ++ [IPOPT_EOL])) as (I1 & I2 & I3); [by apply Forall_app_2; [|apply Forall_singleton]|].
  rewrite length_app in *. cbn [length] in *. splits; try done; [lia|]. intros k Hk. apply I3.
  assert (Z.of_nat (length dp) <> 4 * k); [|lia]. intros E. unfold has in Hh. rewrite E in Hh.
  change 3 with (Z.ones 2) in Hh. rewrite Z.land_ones in Hh by lia. change (2 ^ 2) with 4 in Hh.
  rewrite Z.mul_comm, Z.mod_mul in Hh by lia. done.
Qed.

Lemma has3 n : 0 <= n -> has n 3 = negb (n mod 4 =? 0).
Proof. intros H. unfold has. change 3 with (Z.ones 2). by rewrite Z.land_ones by lia. Qed.

Lemma optpad_aligned dp : Z.of_nat (length (optpad 3 dp)) mod 4 = 0.
Proof.
  cbn [optpad]. do 3 (rewrite has3 by lia; rewrite ?length_app; cbn [length];
    match goal with |- context [if negb (?a =? 0) then _ else _] => destruct (Z.eqb_spec a 0); cbn [negb] end;
    [rewrite ?length_app; cbn [length]; done|]).
  rewrite ?length_app. cbn [length]. zdiv.
Qed.

Lemma ip_optcopy_ok (P : Z -> Prop) hl cp opts : ip_optcopy hl cp = Ret opts -> P 0 -> 5 <= hl ->
  Forall (fun b => 0 <= b) cp -> Forall P (take (Z.to_nat (hl * 4 - 20)) cp) ->
  Forall P opts /\ Z.of_nat (length opts) <= hl * 4 - 20 /\ Z.of_nat (length opts) mod 4 = 0.
Proof.
  unfold ip_optcopy. intros E H0 Hhl Hp Hc. apply bind_Ret in E as (dp & E & [= <-]). unfold sizeof_ip in E.
  destruct (optcopy_loop_ok P _ _ _ _ _ E Hp Hc) as [H1 H2]; [done|]. destruct (optpad_ok P 3 H0 dp H1) as (I1 & I2 & I3).
  split; [done|]. split; [|apply optpad_aligned]. cbn [length] in H2. specialize (I3 (hl - 5) ltac:(lia)). change (Z.of_nat (length (optpad 3 dp)) <= hl * 4 - 20). lia.
Qed.

(** ** Options as they should be *)

(** An option as it should be: NOP, or a code, its own length and the rest. *)
Definition good_opt (o : list Z) : Prop :=
  o = [IPOPT_NOP] \/ exists c r, o = c :: Z.of_nat (length o) :: r /\ c <> IPOPT_EOL /\ c <> IPOPT_NOP.
Definition copied (o : list Z) : bool := match o with c :: _ => IPOPT_COPIED c | [] => false end.
Definition copied_opts (l : list (list Z)) : list Z := concat (filter (fun o => copied o = true) l).

Lemma optcopy_loop_spec (tail : list Z) n : (n = 0%nat \/ exists r, tail = IPOPT_EOL :: r) ->
  forall l fuel dp, Forall good_opt l -> (length (concat l) < fuel)%nat ->
  optcopy_loop fuel (concat l ++ tail) (Z.of_nat (length (concat l) + n)) dp = Ret (dp ++ copied_opts l).
Proof.
  intros Ht. induction l as [|o l IH]; intros fuel dp Hl Hf; (destruct fuel as [|fuel]; [lia|]); cbn [optcopy_loop]; rewrite Z.gtb_ltb.
  - unfold copied_opts. cbn. rewrite app_nil_r. destruct Ht as [->|[r ->]]; [done|]. by destruct (0 <? Z.of_nat n).
  - apply Forall_cons in Hl as [Ho Hl]. cbn [concat] in *. rewrite !length_app in *.
    assert (Hlo : (0 < length o)%nat) by (destruct Ho as [->|(c & r & -> & _)]; cbn; lia).
    destruct (Z.ltb_spec 0 (Z.of_nat (length o + length (concat l) + n))); [|lia].
    assert (Hstep : forall ol, ol = Z.of_nat (length o) ->
      optcopy_loop fuel (drop (Z.to_nat (if ol >? Z.of_nat (length o + length (concat l) + n) then Z.of_nat (length o + length (concat l) + n) else ol)) ((o ++ concat l) ++ tail))
        (Z.of_nat (length o + length (concat l) + n) - (if ol >? Z.of_nat (length o + length (concat l) + n) then Z.of_nat (length o + length (concat l) + n) else ol))
        (if copied o then dp ++ take (Z.to_nat (if ol >? Z.of_nat (length o + length (concat l) + n) then Z.of_nat (length o + length (concat l) + n) else ol)) ((o ++ concat l) ++ tail) else dp)
      = Ret (dp ++ copied_opts (o :: l))).
    { intros ol ->. rewrite Z.gtb_ltb. destruct (Z.ltb_spec (Z.of_nat (length o + length (concat l) + n)) (Z.of_nat (length o))); [lia|].
      rewrite Nat2Z.id, <- app_assoc, drop_app_length, take_app_length.
      replace (Z.of_nat (length o + length (concat l) + n) - Z.of_nat (length o)) with (Z.of_nat (length (concat l) + n)) by lia.
      rewrite IH by (try done; lia). f_equal. unfold copied_opts. rewrite filter_cons.
      destruct (decide (copied o = true)) as [E|E]; [rewrite E; cbn; by rewrite app_assoc|apply not_true_is_false in E; by rewrite E]. }
    destruct Ho as [->|(c & r & Eo & Hc1 & Hc2)].
    + cbn [app]. cbn [Z.eqb]. change (IPOPT_NOP =? IPOPT_EOL) with false. change (IPOPT_NOP =? IPOPT_NOP) with true. cbv iota. bind. by apply Hstep.
    + specialize (Hstep (Z.of_nat (length o)) eq_refl). destruct o as [|c' [|k o']]; try done. injection Eo as -> -> ->.
      cbn [app]. destruct (Z.eqb_spec c IPOPT_EOL); [done|]. destruct (Z.eqb_spec c IPOPT_NOP); [done|]. cbn [lookup list_lookup]. bind. exact Hstep.
Qed.

(** The options of the fragments after the first. *)
Definition frag_opts (l : list (list Z)) : list Z := optpad 3 (copied_opts l).
Definition ends (tail : list Z) : Prop := tail = [] \/ exists r, tail = IPOPT_EOL :: r.
Lemma ip_optcopy_good l pad more hl : Forall good_opt l -> ends pad -> hl * 4 - 20 = Z.of_nat (length (concat l ++ pad)) ->
  ip_optcopy hl ((concat l ++ pad) ++ more) = Ret (frag_opts l).
Proof.
  intros Hl Ht Hlen. unfold ip_optcopy. change sizeof_ip with 20. rewrite Hlen, length_app, <- app_assoc.
  rewrite (optcopy_loop_spec (pad ++ more) (length pad)); [done| |done|lia]. destruct Ht as [->|[r ->]]; [by left|right]. by eexists.
Qed.

(** ** One fragment *)

(** A fragment of the packet with header [h] and data [D]: [l] bytes from offset
    [o] on. *)
Definition more (h : ip) (D : list Z) (o l : Z) : bool := has (ip_off h) IP_MF || (o + l <? Z.of_nat (length D)).
Definition piece_header (h h' : ip) (D : list Z) (o l : Z) : Prop :=
  (ip_v h', ip_tos h', ip_id h', ip_ttl h', ip_p h', ip_src h', ip_dst h') =
    (ip_v h, ip_tos h, ip_id h, ip_ttl h, ip_p h, ip_src h, ip_dst h) /\
  5 <= ip_hl h' <= ip_hl h /\ ip_len h' = ip_hl h' * 4 + l /\
  ip_off h' = Z.land (ip_off h) (Z.lnot IP_MF) + o / 8 + (if more h D o l then IP_MF else 0).
(** The option bytes: the packet's own, which are the options [ol] and what follows the
    last, in the first fragment; those to be copied in the others. *)
Definition piece_opts (ol : list (list Z)) (pad : list Z) (o : Z) : list Z := if o =? 0 then concat ol ++ pad else frag_opts ol.
Definition piece (big : bool) (h : ip) (ol : list (list Z)) (pad D : list Z) (ms : mstate) (c : chain) (at_ : Z * Z) : Prop :=
  let '(o, l) := at_ in o mod 8 = 0 /\ Forall (wf ms) c /\ exists h', let opts := piece_opts ol pad o in ip_wf h' /\ piece_header h h' D o l /\
    Z.of_nat (length opts) = ip_hl h' * 4 - 20 /\ cdata ms c = ip_bytes big h' ++ opts ++ slice o l D /\
    Cksum.cksum_spec big (ip_bytes big h' ++ opts) = 0 /\
    exists m r, c = m :: r /\ is_ext m = false /\ ip_hl h' * 4 <= m_len m /\ pkt_len m = ip_hl h' * 4 + l.

(** Pieces that lie side by side, from [lo] to [hi]. *)
Fixpoint tiles (lo hi : Z) (l : list (Z * Z)) : Prop :=
  match l with
  | [] => lo = hi
  | (o, n) :: r => o = lo /\ 0 < n /\ tiles (lo + n) hi r
  end.

Lemma lor_MF f : 0 <= f < 8192 -> Z.lor f IP_MF = f + IP_MF.
Proof.
  intros H. assert (Hd : Z.land f IP_MF = 0).
  { apply Z.bits_inj'. intros n Hn. rewrite Z.land_spec, Z.bits_0. change IP_MF with (2 ^ 13).
    destruct (Z.eq_dec 13 n) as [<-|Hne]; [|rewrite Z.pow2_bits_false by lia; apply andb_false_r].
    destruct (Z.eq_dec f 0) as [->|]; [by rewrite Z.bits_0|]. rewrite Z.bits_above_log2; [done|lia|apply Z.log2_lt_pow2; lia]. }
  by rewrite Z.add_nocarry_lxor, Z.lxor_lor.
Qed.

Lemma frag_header_ok h D hlen mhlen o len : let L := Z.of_nat (length D) in
  ip_wf h -> u16 (ip_len h) = hlen + L -> hlen + L <= 32767 -> 0 <= hlen -> 0 <= o < L -> o mod 8 = 0 -> 0 < len -> 0 <= mhlen <= hlen ->
  ip_hl h * 4 = mhlen -> 5 <= ip_hl h ->
  0 <= Z.land (ip_off h) (Z.lnot IP_MF) -> Z.land (ip_off h) (Z.lnot IP_MF) + L / 8 < 8192 ->
  exists h', frag_header h hlen mhlen (hlen + o) len = (h', Z.min len (L - o)) /\ ip_wf h' /\ piece_header h h' D o (Z.min len (L - o)) /\
    ip_hl h' = ip_hl h.
Proof.
  intros L Hw HL Hmax Hh Ho Ho8 Hlen Hmh Hhl H5 Hb Hb2. unfold frag_header. rewrite HL.
  replace (hlen + o - hlen) with o by lia. rewrite Z.shiftr_div_pow2 by lia. change (2 ^ 3) with 8.
  set (base := Z.land (ip_off h) (Z.lnot IP_MF)) in *. assert (Hd : 0 <= o / 8 <= L / 8) by zdiv.
  set (f := o / 8 + base). assert (Hf : 0 <= f < 8192) by lia.
  assert (Hlor : Z.lor (Z.lor f IP_MF) IP_MF = Z.lor f IP_MF) by (by rewrite <- Z.lor_assoc, Z.lor_diag).
  rewrite Z.geb_leb. replace (hlen + o + len) with (hlen + (o + len)) by lia.
  destruct Hw as (? & ? & ? & ? & ? & ? & ? & ? & ? & ? & ?).
  assert (Hfin : forall f' l', l' = Z.min len (L - o) -> f' = f + (if more h D o (Z.min len (L - o)) then IP_MF else 0) ->
    exists h', (set_iplen (l' + mhlen) (set_ipoff f' h), l') = (h', Z.min len (L - o)) /\ ip_wf h' /\ piece_header h h' D o (Z.min len (L - o)) /\ ip_hl h' = ip_hl h).
  { intros f' l' -> ->. eexists. split; [done|].
    assert (E1 : s16 (Z.min len (L - o) + mhlen) = Z.min len (L - o) + mhlen) by (apply s16_small; lia).
    assert (E2 : s16 (f + (if more h D o (Z.min len (L - o)) then IP_MF else 0)) = f + (if more h D o (Z.min len (L - o)) then IP_MF else 0))
      by (apply s16_small; destruct (more _ _ _ _); unfold IP_MF; lia).
    split; [|split; [|done]].
    - unfold ip_wf. cbn [set_iplen set_ipoff ip_v ip_hl ip_tos ip_len ip_id ip_off ip_ttl ip_p ip_sum ip_src ip_dst]. rewrite E1, E2.
      splits; try lia; destruct (more _ _ _ _); unfold IP_MF; lia.
    - unfold piece_header. cbn [set_iplen set_ipoff ip_v ip_hl ip_tos ip_len ip_id ip_off ip_ttl ip_p ip_sum ip_src ip_dst]. rewrite E1, E2.
      splits; try done; lia. }
  destruct (Z.leb_spec (hlen + L) (hlen + (o + len))); apply Hfin; try lia.
  - unfold more. destruct (Z.ltb_spec (o + Z.min len (L - o)) (Z.of_nat (length D))); [lia|]. rewrite orb_false_r.
    destruct (has (ip_off h) IP_MF); [by apply lor_MF|lia].
  - unfold more. destruct (Z.ltb_spec (o + Z.min len (L - o)) (Z.of_nat (length D))); [|lia]. rewrite orb_true_r.
    destruct (has (ip_off h) IP_MF); rewrite ?Hlor; by apply lor_MF.
Qed.

Lemma piece_same big h ol pad D ms ms' c at_ : same ms ms' c -> piece big h ol pad D ms c at_ -> piece big h ol pad D ms' c at_.
Proof.
  destruct at_ as [o l]. intros S (H1 & H2 & h' & H3 & H4 & H5 & H6 & H7). split; [done|]. split; [by eapply wfs_same|].
  exists h'. by rewrite (cdata_same ms).
Qed.

Lemma pieces_same big h ol pad D ms ms' l tl : same ms ms' (concat l) -> Forall2 (piece big h ol pad D ms) l tl -> Forall2 (piece big h ol pad D ms') l tl.
Proof.
  intros S H. induction H as [|c x l tl Hc _ IH]; [done|]. cbn in S. apply same_app in S as [S1 S2].
  constructor; [by eapply piece_same|by apply IH].
Qed.

Lemma tiles_snoc lo hi n l : tiles lo hi l -> 0 < n -> tiles lo (hi + n) (l ++ [(hi, n)]).
Proof.
  revert lo. induction l as [|[o k] l IH]; intros lo H Hn; cbn in *; [subst; by splits|].
  destruct H as (-> & Hk & H). splits; try done. by apply IH.
Qed.

(** The header's mbuf with its options. *)
Lemma frag_mbuf_ok lh h m0 hlen mhlen m ms opts : ip_wf h -> hlen = ip_hl h * 4 -> 5 <= ip_hl h -> (hlen = 20 -> mhlen = 20) ->
  wf ms m0 -> is_ext m0 = false -> hlen <= m_len m0 -> Cksum.bytes (m_dat m0) -> 0 <= lh <= 40 ->
  (20 < hlen -> ip_optcopy (ip_hl h) (drop (Z.to_nat (m_off m0 + 20)) (m_dat m0)) = Ret opts) -> (hlen = 20 -> opts = []) ->
  m_off m = 8 -> m_flags m = M_PKTHDR -> length (m_dat m) = 108%nat ->
  exists mhip mhlen' m', frag_mbuf lh h m0 hlen mhlen m ms = Ret (mhip, mhlen', m', ms) /\
    mhip = set_hl (ip_hl mhip) h /\ ip_hl mhip * 4 = mhlen' /\ 20 <= mhlen' <= hlen /\ (hlen = 20 -> mhlen' = 20) /\
    Z.of_nat (length opts) = mhlen' - 20 /\ Cksum.bytes opts /\
    wf ms m' /\ is_ext m' = false /\ m_len m' = mhlen' /\ drop 20 (data ms m') = opts.
Proof.
  intros Hip Hh H5 Hmh W0 He0 Hl0 Hb0 Hlh Hopt Hnone Hoff Hfl Hdat. pose proof W0 as (W1 & W2 & W3 & W4 & W5).
  unfold area in W3. rewrite He0 in W3. assert (Hhl : ip_hl h < 16) by (unfold ip_wf in Hip; lia).
  assert (He : is_ext m = false) by (unfold is_ext; by rewrite Hfl).
  assert (Hwrite : forall mhip mh, Z.of_nat (length opts) = mh - 20 -> 20 <= mh <= 60 -> exists m', 
    ('(m1, ms1) ← mwrite (set_data m (m_off m + lh) (m_len m)) 20 opts ms; Ret (mhip : ip, mh, set_len m1 mh, ms1)) = Ret (mhip, mh, m', ms) /\
    wf ms m' /\ is_ext m' = false /\ m_len m' = mh /\ drop 20 (data ms m') = opts).
  { intros mhip mh Hopts Hm. unfold mwrite, area. change (is_ext (set_data _ _ _)) with (is_ext m). rewrite He.
    cbn [set_data m_off m_dat]. rewrite bwrite_eq by lia. bind. eexists. split; [reflexivity|].
    split; [|split; [done|split; [done|]]].
    - unfold wf, area, is_ext, is_pkt in *. cbn. rewrite Hfl. change (has M_PKTHDR M_EXT) with false. cbv iota. rewrite splice_length, Hdat, Hoff by lia. unfold MLEN, MHLEN. splits; intros; lia.
    - unfold data, area, is_ext, slice in *. cbn. rewrite Hfl. change (has M_PKTHDR M_EXT) with false. cbv iota. rewrite skipn_firstn_comm, drop_drop.
      replace (Z.to_nat (m_off m + lh) + 20)%nat with (Z.to_nat (m_off m + lh + 20)) by lia.
      rewrite splice_slice by lia. replace (Z.to_nat mh - 20 - length opts)%nat with 0%nat by lia. by rewrite take_0, app_nil_r. }
  unfold frag_mbuf. change sizeof_ip with 20. replace (area ms m0) with (m_dat m0) by (unfold area; by rewrite He0). rewrite Z.gtb_ltb. destruct (Z.ltb_spec 20 hlen) as [Hgt|Hle].
  - pose proof (Hopt Hgt) as Eo.
    destruct (Z.leb_spec (m_off m0 + 20) (Z.of_nat (length (m_dat m0)))); [|lia]. bind. rewrite Eo. bind.
    destruct (ip_optcopy_ok (fun b => 0 <= b < 256) _ _ _ Eo) as (B1 & B2 & B3); [lia|done| |by apply Forall_take, Forall_drop|].
    { apply Forall_drop. eapply Forall_impl; [exact Hb0|]. intros b Hb. cbn in Hb. lia. }
    set (mh := Z.of_nat (length opts) + 20). assert (Hmhv : mh = Z.of_nat (length opts) + 20) by done.
    assert (Ehl : Z.shiftr mh 2 mod 16 * 4 = mh). { rewrite Z.shiftr_div_pow2 by lia. change (2 ^ 2) with 4. zdiv. }
    destruct (Hwrite (set_hl (Z.shiftr mh 2) h) mh) as (m' & -> & X); [lia|lia|].
    exists (set_hl (Z.shiftr mh 2) h), mh, m'. split; [done|]. cbn [set_hl ip_hl]. split; [|splits; try done; try lia; by destruct X as (? & ? & ? & ?)].
    unfold set_hl. cbn. rewrite Z.mod_mod by lia. done.
  - assert (hlen = 20) as E20 by lia. rewrite (Hmh E20). bind.
    rewrite (Hnone E20) in *. destruct (Hwrite h 20) as (m' & -> & X); [done|lia|]. exists h, 20, m'. split; [done|].
    split; [|splits; try done; try lia; try (by apply Forall_nil_2); by destruct X as (? & ? & ? & ?)].
    unfold set_hl. rewrite Z.mod_small by lia. by destruct h.
Qed.

(** *** The books *)
Lemma mwrite_books m off bs ms m' ms' l : mwrite m off bs ms = Ret (m', ms') -> kin m m' /\ ledger ms l ms' l.
Proof.
  unfold mwrite. intros E. apply bind_Ret in E as (d & _ & E). destruct (is_ext m); injection E as <- <-; (split; [done|]); [by apply ledger_counts|apply ledger_refl].
Qed.
Lemma put_sum_books big h m hlen ms h' m' ms' l : put_sum big h m hlen ms = Ret (h', m', ms') -> Forall2 kin m m' /\ ledger ms l ms' l.
Proof.
  unfold put_sum. destruct m as [|m0 r]; [done|]. intros E. apply bind_Ret in E as ([m1 ms1] & E1 & E). apply bind_Ret in E as ([s x] & _ & E).
  apply bind_Ret in E as ([m2 ms2] & E2 & [= <- <- <-]). destruct (mwrite_books _ _ _ _ _ _ l E1) as [(K1 & K2 & K3) L1], (mwrite_books _ _ _ _ _ _ l E2) as [(J1 & J2 & J3) L2].
  split; [constructor; [unfold kin; split; [congruence|split; congruence]|apply kin_self]|by eapply ledger_trans].
Qed.
Lemma frag_mbuf_books lh h m0 hlen mhlen m ms mhip mh m' ms' l : frag_mbuf lh h m0 hlen mhlen m ms = Ret (mhip, mh, m', ms') -> kin m m' /\ ledger ms l ms' l.
Proof.
  unfold frag_mbuf. intros E. apply bind_Ret in E as ([[x y] z] & _ & E). apply bind_Ret in E as ([n ms1] & E1 & E). injection E as _ _ <- <-.
  destruct (mwrite_books _ _ _ _ _ _ l E1) as [(K1 & K2 & K3) L1]. by split.
Qed.
Lemma frag_one_books big lh h m0 hlen mhlen off len m ms c mh ln ms' l : frag_one big lh h m0 hlen mhlen off len m ms = Ret (Some c, mh, ln, ms') -> ledger ms (m :: l) ms' (c ++ l).
Proof.
  unfold frag_one. destruct m0 as [|m00 r]; [done|]. intros E. apply bind_Ret in E as ([[[mhip mhl] m1] ms1] & E1 & E). destruct (frag_header _ _ _ _ _) as [hh ln'].
  apply bind_Ret in E as ([dat ms2] & E2 & E). destruct dat as [|d0 dat]; [done|]. set (n := Mb _ _ _ _ _ _ _ _ _) in E. apply bind_Ret in E as ([[h3 m3] ms3] & E3 & E). injection E as <- _ _ <-.
  destruct (frag_mbuf_books _ _ _ _ _ _ _ _ _ _ _ (m :: l) E1) as [K1 L1]. apply (m_copym_ledger _ _ _ _ _ _ (m :: l)) in E2. destruct (put_sum_books _ _ _ _ _ _ _ _ (n :: (d0 :: dat) ++ l) E3) as [K3 L3].
  eapply ledger_trans; [exact L1|]. eapply ledger_trans; [exact E2|].
  assert (Hp : (d0 :: dat) ++ m :: l ≡ₚ m :: (d0 :: dat) ++ l) by solve_Permutation. rewrite Hp.
  apply ledger_kin with (l' := n :: (d0 :: dat) ++ l); [|change (n :: (d0 :: dat) ++ l) with ((n :: d0 :: dat) ++ l); apply Forall2_app; [exact K3|apply kin_self]].
  eapply ledger_trans; [|exact L3]. eapply ledger_kin; [apply ledger_refl|]. constructor; [exact K1|apply kin_self].
Qed.
Lemma frag_loop_books big lh h m0 hlen l : forall fuel mhlen off len frags st frags' st', frag_loop big lh fuel h m0 hlen mhlen off len frags st = Ret (0, frags', st') ->
  ledger (o_mb st) (concat frags ++ l) (o_mb st') (concat frags' ++ l).
Proof.
  induction fuel as [|fuel IH]; intros mhlen off len frags st frags' st' E; [done|]. cbn [frag_loop] in E. destruct (off <? u16 (ip_len h)); [|injection E as <- <-; apply ledger_refl].
  destruct (MGETHDR MT_HEADER (o_mb st)) as [[m|] ms1] eqn:Eg; [|done]. destruct (ledger_get true _ _ _ _ (concat frags ++ l) Eg) as [L1 _].
  apply bind_Ret in E as ([[[c mh] ln] ms2] & E1 & E). destruct c as [c|]; [|done]. apply (frag_one_books _ _ _ _ _ _ _ _ _ _ _ _ _ _ (concat frags ++ l)) in E1.
  apply IH in E. cbn [o_mb ocount with_omb] in E. eapply ledger_trans; [exact L1|]. eapply ledger_trans; [exact E1|]. rewrite concat_app in E. cbn [concat] in E. rewrite app_nil_r in E.
  assert (Hp : (concat frags ++ c) ++ l ≡ₚ c ++ concat frags ++ l) by solve_Permutation. by rewrite Hp in E.
Qed.

(** ** All fragments *)
Section fragments.
Variables (big : bool) (lh : Z) (h : ip) (m0 : mbuf) (r : chain) (hb : list Z) (ol : list (list Z)) (pad D : list Z) (hlen : Z).
Local Notation m := (m0 :: r).
Local Notation L := (Z.of_nat (length D)).

(** A packet to fragment: header [hb] of [hlen] bytes with the options [ol] and
    what follows the last, if anything an end mark and padding; data [D]. *)
Record packet_ok (ms : mstate) : Prop := PacketOk {
  po_ip : ip_wf h /\ 0 < ip_v h /\ hlen = ip_hl h * 4 /\ 5 <= ip_hl h;
  po_len : u16 (ip_len h) = hlen + L /\ hlen + L <= 32767;
  po_off : 0 <= Z.land (ip_off h) (Z.lnot IP_MF) /\ Z.land (ip_off h) (Z.lnot IP_MF) + L / 8 < 8192;
  po_mbuf : is_ext m0 = false /\ hlen <= m_len m0 /\ Cksum.bytes (m_dat m0);
  po_opts : Forall good_opt ol /\ ends pad /\ drop 20 hb = concat ol ++ pad;
  po_wf : Forall (wf ms) m;
  po_data : cdata ms m = hb ++ D /\ Z.of_nat (length hb) = hlen /\ Cksum.bytes D }.

Hypothesis lh_small : 0 <= lh <= 40.

Lemma packet_same ms ms' : same ms ms' m -> packet_ok ms -> packet_ok ms'.
Proof. intros S [H1 H2 H3 H4 H5 H6 H7]. constructor; try done; [by eapply wfs_same|by rewrite (cdata_same ms)]. Qed.

(** What ip_optcopy reads, and what it makes of it. *)
Lemma opts_copied ms : packet_ok ms -> (20 < hlen -> ip_optcopy (ip_hl h) (drop (Z.to_nat (m_off m0 + 20)) (m_dat m0)) = Ret (frag_opts ol)) /\ (hlen = 20 -> frag_opts ol = []).
Proof.
  intros [(Hip & Hv & Hhl & H5) _ _ (He & Hl0 & _) (Ho1 & Ho2 & Ho3) W (Hd & Hhb & _)]. apply Forall_cons in W as [W0 _]. pose proof (data_length ms m0 W0) as Hdl.
  pose proof W0 as (W1 & W2 & W3 & _). unfold area in W3. rewrite He in W3. split.
  - intros Hgt. assert (E : exists more, drop (Z.to_nat (m_off m0 + 20)) (m_dat m0) = drop 20 hb ++ more).
    { assert (Eh : hb = take (length hb) (data ms m0)) by (transitivity (take (length hb) (cdata ms m)); [by rewrite Hd, take_app_length|by rewrite cdata_cons, take_app_le by lia]).
      exists (drop (Z.to_nat (m_off m0) + length hb) (m_dat m0)). rewrite Eh at 1. unfold data, area, slice. rewrite He, take_take, Nat.min_l by lia.
      replace (Z.to_nat (m_off m0 + 20)) with (Z.to_nat (m_off m0) + 20)%nat by lia. rewrite <- !drop_drop. rewrite <- (take_drop (length hb) (drop (Z.to_nat (m_off m0)) (m_dat m0))) at 1.
      rewrite drop_app_le; [done|]. rewrite length_take, length_drop. lia. }
    destruct E as [more ->]. rewrite Ho3. apply ip_optcopy_good; [done|done|]. rewrite <- Ho3, length_drop. lia.
  - intros E20. assert (E : concat ol ++ pad = []) by (rewrite <- Ho3; apply drop_ge; lia). apply app_nil in E as [E _]. destruct ol as [|o l]; [done|].
    apply Forall_cons in Ho1 as [Ho1 _]. cbn in E. apply app_nil in E as [-> _]. destruct Ho1 as [?|(c & x & ? & _)]; done.
Qed.

Lemma frag_one_ok ms n o len mhlen rest : packet_ok ms -> (hlen = 20 -> mhlen = 20) ->
  m_off n = 8 -> m_flags n = M_PKTHDR -> length (m_dat n) = 108%nat ->
  0 < o < L -> o mod 8 = 0 -> 0 < len -> owned ms (m ++ rest) -> (forall c, refcnt ms c + refs c m <= 127) -> mallocs ms = [] ->
  exists c mhlen' ms', frag_one big lh h m hlen mhlen (hlen + o) len n ms = Ret (Some c, mhlen', Z.min len (L - o), ms') /\
    (hlen = 20 -> mhlen' = 20) /\ piece big h ol pad D ms' c (o, Z.min len (L - o)) /\ same ms ms' (m ++ rest) /\
    owned ms' (m ++ c ++ rest) /\ (forall x, refcnt ms' x <= refcnt ms x + refs x m) /\ mallocs ms' = [].
Proof.
  intros Hpk. destruct (opts_copied ms Hpk) as [Hopt Hnone]. revert Hpk. intros [(Hip & Hv & Hhl & H5) [HL Hmax] [Hb1 Hb2] (He & Hl0 & Hbd) _ W (Hd & Hhb & HbD)] Hmh Hno Hnf Hnd Ho Ho8 Hlen Hown Hcap Hnil.
  pose proof W as W'. apply Forall_cons in W' as [W0 Wr]. unfold frag_one.
  destruct (frag_mbuf_ok lh h m0 hlen mhlen n ms (frag_opts ol) Hip Hhl H5 Hmh W0 He Hl0 Hbd lh_small Hopt Hnone Hno Hnf Hnd)
    as (mhip & mhlen' & n' & -> & Emh & Ehl & Hmr & Hm20 & Hol & Hob & Wn & Hen & Hnl & Hdr). bind.
  assert (HU : Z.of_nat (length (cdata ms m)) = hlen + L) by (rewrite Hd, length_app; lia).
  rewrite (cdata_length ms m W) in HU.
  assert (Hipm : ip_wf mhip).
  { rewrite Emh. destruct Hip as (? & ? & ? & ? & ? & ? & ? & ? & ? & ? & ?). pose proof (Z.mod_pos_bound (ip_hl mhip) 16).
    unfold ip_wf. cbn [set_hl ip_v ip_hl ip_tos ip_len ip_id ip_off ip_ttl ip_p ip_sum ip_src ip_dst]. splits; lia. }
  destruct (frag_header_ok mhip D hlen mhlen' o len) as (h' & -> & Hw' & Hph & Hhl'); try done; try lia; try (rewrite Emh; cbn [set_hl ip_len ip_off]; done || lia).
  cbv beta iota. set (l := Z.min len (L - o)) in *. assert (Hl : 0 < l <= L - o) by lia.
  destruct (m_copym_ok ms (m ++ rest) m (hlen + o) l W Hown) as (dat & ms1 & Ec & Hs & Hc); try done; try lia.
  { intros c. rewrite refs_app. pose proof (refs_nonneg c rest). lia. }
  { unfold M_COPYALL. lia. }
  rewrite Ec. bind. destruct Hc as [(Hne & _)|(add & Eadd & Wd & Dd & Rd & Cd)]; [done|]. cbn in Eadd. subst add.
  assert (Hslice : slice (hlen + o) l (cdata ms m) = slice o l D).
  { rewrite Hd, slice_app_r by lia. f_equal. lia. }
  rewrite Hslice in Dd. assert (Hll : Z.of_nat (length (slice o l D)) = l) by (apply slice_length; lia).
  destruct dat as [|d0 dat]; [cbn in Dd; rewrite <- Dd in Hll; cbn in Hll; lia|].
  set (opts := frag_opts ol) in *. set (n2 := Mb (m_off n') _ _ _ _ _ _ _ _).
  assert (Hn2 : is_ext n2 = false) by done. assert (Hdn : data ms1 n2 = data ms n').
  { rewrite <- (data_same ms ms1 n') by (by rewrite Hen). by apply data_eq. }
  assert (Wn2 : wf ms1 n2) by (eapply (wf_eq ms1 n'); try done; eapply (wf_same ms); [by rewrite Hen|done]).
  pose proof (data_length ms n' Wn) as Hdl.
  assert (Hdrop : drop 20 (cdata ms1 (n2 :: d0 :: dat)) = opts ++ slice o l D).
  { rewrite cdata_cons, Hdn, drop_app_le by lia. by rewrite Hdr, Dd. }
  destruct (put_sum_ok big h' n2 (d0 :: dat) mhlen' ms1) as (s & n3 & -> & Hs1 & A3 & W3 & D3 & C3); try done.
  { change (m_len n2) with (m_len n'). lia. }
  { rewrite Hdrop. apply Forall_app_2; [done|]. unfold slice. by apply Forall_take, Forall_drop. }
  { lia. }
  { destruct Hph as (Hf & _). injection Hf as -> _. rewrite Emh. done. }
  bind. rewrite Hdrop in D3. destruct (m_copym_refs _ _ _ _ _ _ 0 Ec) as [_ Hnil1].
  assert (Href : forall x, refs x (d0 :: dat) <= refs x m) by (intros x; by destruct (m_copym_refs _ _ _ _ _ _ x Ec)).
  eexists (n3 :: d0 :: dat), mhlen', ms1. split; [reflexivity|]. split; [done|]. split; [|split; [done|split; [|split]]].
  - split; [done|]. split; [by constructor|]. exists (set_sum s h'). cbn zeta. replace (piece_opts ol pad o) with opts by (unfold piece_opts; destruct (Z.eqb_spec o 0); [lia|done]). splits; try done.
    + unfold ip_wf in *. cbn. rewrite u16_small by lia. splits; lia || tauto.
    + destruct Hph as (P1 & P2 & P3 & P4). unfold piece_header, more in *. rewrite Emh in P1, P4.
      cbn [set_hl set_sum ip_v ip_hl ip_tos ip_len ip_id ip_off ip_ttl ip_p ip_sum ip_src ip_dst] in *. splits; done || lia.
    + change (ip_hl (set_sum s h')) with (ip_hl h'). lia.
    + change (drop 20 (cdata ms1 (n2 :: d0 :: dat))) with (drop 20 (cdata ms1 (n2 :: d0 :: dat))) in *.
      rewrite D3, app_assoc, take_app_length' in C3; [done|]. rewrite length_app, ip_bytes_length. lia.
    + exists n3, (d0 :: dat). change (ip_hl (set_sum s h')) with (ip_hl h'). rewrite Hhl', Ehl. splits; try done.
      * by rewrite (alike_ext _ _ A3).
      * destruct A3 as (_ & -> & _). change (m_len n2) with (m_len n'). lia.
      * by destruct A3 as (_ & _ & _ & _ & -> & _).
  - intros x. specialize (Hown x). specialize (Hcap x). specialize (Href x). rewrite Rd. rewrite !refs_app in *.
    rewrite (refs_int x n3) by (by rewrite (alike_ext _ _ A3)). pose proof (refs_nonneg x (d0 :: dat)). lia.
  - intros x. rewrite Rd. specialize (Href x). lia.
  - by apply Hnil1.
Qed.

(** The loop: [K] bounds the number of fragments still to make. *)
Lemma frag_loop_ok M : forall fuel K o len mhlen (frags : list chain) tl st rest, let ms := o_mb st in
  packet_ok ms -> (hlen = 20 -> mhlen = 20) -> (Z.to_nat (L - o) < fuel)%nat -> 0 < o <= L -> o mod 8 = 0 \/ o = L ->
  0 < len -> len mod 8 = 0 \/ o = L -> owned ms (m ++ concat frags ++ rest) -> mallocs ms = [] ->
  0 <= K -> L - o <= K * len -> (forall c, refcnt ms c + K * refs c m <= 127) ->
  Forall2 (piece big h ol pad D ms) frags tl -> len <= M -> Forall (fun ol => ol.2 <= M) tl -> forall lo, tiles lo o tl ->
  exists frags' tl' st', frag_loop big lh fuel h m hlen mhlen (hlen + o) len frags st = Ret (0, frags', st') /\
    Forall2 (piece big h ol pad D (o_mb st')) frags' tl' /\ tiles lo L tl' /\ Forall (fun ol => ol.2 <= M) tl' /\ owned (o_mb st') (m ++ concat frags' ++ rest) /\
    same ms (o_mb st') (m ++ rest) /\ mallocs (o_mb st') = [] /\
    (ip_id_next st', sent st', if_errors st') = (ip_id_next st, sent st, if_errors st).
Proof.
  induction fuel as [|fuel IH]; intros K o len mhlen frags tl st rest ms Hpk Hmh Hf Ho Ho8 Hlen Hl8 Hown Hnil HK HKl Hcap Hp HM Htl lo Ht; [lia|].
  cbn [frag_loop]. rewrite (proj1 (po_len _ Hpk)). destruct (Z.ltb_spec (hlen + o) (hlen + L)) as [Hlt|Hge].
  2: { assert (o = L) as -> by lia. exists frags, tl, st. by splits. }
  destruct (MGETHDR MT_HEADER (o_mb st)) as [[n|] ms1] eqn:Eg; destruct (mgethdr_ok _ _ _ _ Eg) as (Hpool & Hm & Hn).
  2: { by destruct (Hm Hnil) as [_ ?]. }
  destruct Hn as (Hn1 & Hn2 & Hn3 & _). destruct (Hm Hnil) as [Hnil1 _].
  assert (Hs1 : forall c, same ms ms1 c) by (intros c; apply same_pool; by rewrite Hpool).
  assert (Hrc : forall c, refcnt ms1 c = refcnt ms c) by (intros c; unfold refcnt; by rewrite Hpool).
  assert (HK1 : 1 <= K) by (destruct (Z.le_gt_cases K 0); [assert (K = 0) as -> by lia; lia|lia]).
  destruct (frag_one_ok ms1 n o len mhlen (concat frags ++ rest)) as (c & mhlen' & ms2 & -> & Hmh' & Hpc & Hs2 & Hown2 & Hrc2 & Hnil2); try done; try lia.
  { by eapply packet_same. }
  { intros c. rewrite Hrc. apply Hown. }
  { intros c. rewrite Hrc. specialize (Hcap c). pose proof (refs_nonneg c m). nia. }
  bind. replace (hlen + o + Z.min len (L - o)) with (hlen + (o + Z.min len (L - o))) by lia.
  set (l := Z.min len (L - o)) in *. assert (Hs12 : same ms ms2 (m ++ concat frags ++ rest)) by (by eapply same_trans).
  apply same_app in Hs12 as [Hsm Hs12]. apply same_app in Hs12 as [Hsf Hsr].
  set (st2 := ocount ips_ofragments (with_omb ms2 st)).
  destruct (IH (K - 1) (o + l) l mhlen' (frags ++ [c]) (tl ++ [(o, l)]) st2 rest) with (lo := lo)
    as (frags' & tl' & st' & E & I1 & I2 & IM & I3 & I4 & I5 & I6); cbn [o_mb st2 ocount with_omb] in *; try done; try lia.
  { by eapply packet_same. }
  { destruct (Z.le_gt_cases len (L - o)); [left|right; lia]. assert (l = len) as -> by lia. zdiv. }
  { destruct (Z.le_gt_cases len (L - o)); [left; assert (l = len) as -> by lia; lia|right; lia]. }
  { eapply owned_perm; [|exact Hown2]. rewrite concat_app. cbn. rewrite app_nil_r. solve_Permutation. }
  { assert (L - o <= len \/ l = len) as [Hc|Hc] by lia; [|rewrite Hc; nia]. assert (l = L - o) as -> by lia.
    assert (0 <= (K - 1) * (L - o)) by nia. lia. }
  { intros x. specialize (Hcap x). specialize (Hrc2 x). rewrite Hrc in Hrc2. lia. }
  { apply Forall2_app; [by eapply pieces_same|by constructor]. }
  { apply Forall_app_2; [done|]. apply Forall_singleton. cbn. lia. }
  { by apply tiles_snoc; [|lia]. }
  exists frags', tl', st'. splits; try done. eapply same_trans; [|exact I4]. apply same_app. by split.
Qed.

(** The packet itself becomes the first fragment. *)
Lemma lor_keep x y : Z.lor (Z.land x (Z.lnot y)) y = Z.lor x y.
Proof.
  apply Z.bits_inj'. intros n Hn. rewrite !Z.lor_spec, Z.land_spec, Z.lnot_spec by lia.
  by destruct (Z.testbit x n), (Z.testbit y n).
Qed.

Lemma head_bytes ms : packet_ok ms -> Cksum.bytes hb.
Proof.
  intros [_ _ _ (He & Hl & Hb) _ W (Hd & Hhb & _)]. apply Forall_cons in W as [W0 _]. pose proof (data_length ms m0 W0) as Hdl.
  assert (E : hb = take (length hb) (cdata ms m)) by (by rewrite Hd, take_app_length).
  rewrite E, cdata_cons, take_app_le by lia. apply Forall_take. unfold data, area, slice. rewrite He. by apply Forall_take, Forall_drop.
Qed.

Lemma first_ok ms len rest : packet_ok ms -> 0 < len < L -> len mod 8 = 0 -> owned ms (m ++ rest) ->
  exists m1 r1 h2 c, m_adj m (hlen + len - u16 (ip_len h)) = Ret (m1 :: r1) /\
  put_sum big (set_ipoff (Z.lor (ip_off h) IP_MF) (set_iplen (hlen + len) h)) (set_pkt_len m1 (hlen + len) :: r1) hlen ms = Ret (h2, c, ms) /\
    piece big h ol pad D ms c (0, len) /\ owned ms (c ++ rest).
Proof.
  intros Hpk Hlen Hl8 Hown. pose proof (head_bytes _ Hpk) as Hhbb. destruct Hpk as [(Hip & Hv & Hhl & H5) [HL Hmax] [Hb1 Hb2] (He & Hl0 & Hbd) Hopt W (Hd & Hhb & HbD)].
  assert (HU : chain_len m = hlen + L) by (rewrite <- (cdata_length ms m W), Hd, length_app; lia).
  rewrite HL. replace (hlen + len - (hlen + L)) with (- (L - len)) by lia.
  destruct (m_adj_back ms m0 r (L - len) W) as (m1 & r1 & -> & W1 & D1 & R1 & F1 & Hl1); [lia|]. injection F1 as Fo Ff Fd.
  exists m1, r1. assert (He1 : is_ext m1 = false) by (unfold is_ext in *; by rewrite Ff).
  rewrite HU in D1, Hl1. replace (hlen + L - (L - len)) with (hlen + len) in * by lia.
  assert (Ec : cdata ms (m1 :: r1) = hb ++ slice 0 len D).
  { rewrite D1, Hd, take_app_ge by lia. f_equal. unfold slice. rewrite drop_0. f_equal. lia. }
  set (h1 := set_ipoff _ _). set (n1 := set_pkt_len m1 (hlen + len)).
  assert (E1 : ip_len h1 = hlen + len) by (apply s16_small; lia).
  assert (E2 : ip_off h1 = Z.land (ip_off h) (Z.lnot IP_MF) + IP_MF).
  { cbn [h1 set_ipoff set_iplen ip_off]. unfold h1. cbn [set_ipoff set_iplen ip_off]. rewrite <- lor_keep, lor_MF by zdiv.
    assert (HMF : IP_MF = 8192) by done. apply s16_small. zdiv. }
  assert (Hw1 : ip_wf h1).
  { destruct Hip as (? & ? & ? & ? & ? & ? & ? & ? & ? & ? & ?). unfold ip_wf. rewrite E1, E2. unfold h1. assert (HMF : IP_MF = 8192) by done.
    cbn [set_iplen set_ipoff ip_v ip_hl ip_tos ip_len ip_id ip_off ip_ttl ip_p ip_sum ip_src ip_dst]. splits; try lia; zdiv. }
  apply Forall_cons in W1 as [W1 Wr1]. assert (Ecn : cdata ms (n1 :: r1) = cdata ms (m1 :: r1)) by done.
  destruct (put_sum_ok big h1 n1 r1 hlen ms) as (s & m2 & -> & Hs & A2 & W2 & D2 & C2); try done; try lia.
  { change (m_len n1) with (m_len m1). lia. }
  { rewrite Ecn, Ec, drop_app_le by lia. apply Forall_app_2; [by apply Forall_drop|]. unfold slice. by apply Forall_take, Forall_drop. }
  exists (set_sum s h1), (m2 :: r1). split; [done|]. split; [done|]. rewrite Ecn, Ec, drop_app_le in D2 by lia. split.
  - split; [done|]. split; [by constructor|]. exists (set_sum s h1). cbn zeta. change (piece_opts ol pad 0) with (concat ol ++ pad). rewrite <- (proj2 (proj2 Hopt)). split; [|split; [|split; [|split; [exact D2|split]]]].
    + destruct Hw1 as (? & ? & ? & ? & ? & ? & ? & ? & ? & ? & ?). unfold ip_wf. cbn [set_sum ip_v ip_hl ip_tos ip_len ip_id ip_off ip_ttl ip_p ip_sum ip_src ip_dst].
      rewrite u16_small by lia. splits; try done; lia.
    + unfold piece_header. change (ip_len (set_sum s h1)) with (ip_len h1). change (ip_off (set_sum s h1)) with (ip_off h1).
      rewrite E1, E2. change (ip_hl (set_sum s h1)) with (ip_hl h). splits; try done; try lia. unfold more.
      destruct (Z.ltb_spec (0 + len) L); [|lia]. rewrite orb_true_r. change (0 / 8) with 0. by rewrite Z.add_0_r.
    + change (ip_hl (set_sum s h1)) with (ip_hl h). rewrite length_drop. lia.
    + rewrite D2, app_assoc, take_app_length' in C2; [done|]. rewrite length_app, ip_bytes_length, length_drop. lia.
    + exists m2, r1. change (ip_hl (set_sum s h1)) with (ip_hl h). splits; try done; [by rewrite (alike_ext _ _ A2)| |].
      * destruct A2 as (_ & -> & _). change (m_len n1) with (m_len m1). lia.
      * destruct A2 as (_ & _ & _ & _ & -> & _). cbn. lia.
  - revert Hown. apply owned_refs. intros c. rewrite !refs_app. f_equal. rewrite <- R1. rewrite (alike_refs _ _ r1 c A2). by apply refs_flags.
Qed.

Lemma send_all dst : forall l st, if_errors st = [] ->
  send_or_free 0 dst l st = (0, Out (ip_id_next st) (o_stats st) (o_mb st) (sent st ++ ((fun c => (c, dst)) <$> l)) []).
Proof.
  induction l as [|c l IH]; intros st H; cbn [send_or_free]; [by rewrite app_nil_r, <- H; destruct st|].
  unfold if_output. rewrite H. cbn. rewrite IH by done. cbn. by rewrite <- app_assoc.
Qed.

Lemma align8 x : Z.land x (Z.lnot 7) = 8 * (x / 8).
Proof. change 7 with (Z.ones 3). rewrite <- Z.ldiff_land, Z.ldiff_ones_r, Z.shiftl_mul_pow2, Z.shiftr_div_pow2 by lia. change (2 ^ 3) with 8. lia. Qed.

(** The whole packet: [K] is the number of fragments after the first one. *)
Lemma ip_fragment_ok K mtu dst st rest : let ms := o_mb st in let len := 8 * ((mtu - hlen) / 8) in
  packet_ok ms -> 8 <= len -> mtu < hlen + L -> owned ms (m ++ rest) -> mallocs ms = [] -> if_errors st = [] ->
  0 <= K -> L - len <= K * len -> (forall c, refcnt ms c + K * refs c m <= 127) ->
  exists frags tl st', ip_fragment big lh h m hlen mtu dst st = Ret (0, st') /\
    sent st' = sent st ++ ((fun c => (c, dst)) <$> frags) /\ Forall2 (piece big h ol pad D (o_mb st')) frags tl /\ tiles 0 L tl /\
    Forall (fun ol => ol.2 <= len) tl /\ owned (o_mb st') (concat frags ++ rest) /\ same ms (o_mb st') rest /\ ledger ms m (o_mb st') (concat frags).
Proof.
  intros ms len Hpk H8 Hmtu Hown Hnil Herr HK HKl Hcap. unfold ip_fragment. change sizeof_ip with 20. cbn zeta. rewrite align8. fold len.
  assert (Hlen : 0 < len < L) by (unfold len in *; zdiv). assert (Hl8 : len mod 8 = 0) by (unfold len; rewrite Z.mul_comm; by apply Z.mod_mul).
  pose proof (po_len _ Hpk) as [HL Hmax]. pose proof (po_ip _ Hpk) as (_ & _ & Hhl & H5).
  destruct (frag_loop_ok len (S (Z.to_nat (u16 (ip_len h)))) K len len 20 [] [] st rest) with (lo := len)
    as (frags & tl & st' & El & I1 & I2 & IM & I3 & I4 & I5 & I6); try done; try lia; try (by left).
  rewrite El. apply (frag_loop_books _ _ _ _ _ m) in El. bind. cbn [Z.eqb negb]. injection I6 as _ J2 J3. apply same_app in I4 as [I4 I4'].
  destruct (first_ok (o_mb st') len (concat frags ++ rest)) as (m1 & r1 & h2 & c & Ea & Hput & Hp & Ho); [by eapply packet_same|done|done|done|].
  rewrite Ea. bind. rewrite Hput. bind. rewrite send_all by (cbn; congruence).
  exists (c :: frags), ((0, len) :: tl). eexists. split; [reflexivity|]. cbn [sent with_omb o_mb]. rewrite J2. split; [done|].
  split; [by constructor|]. split; [cbn; splits; try done; lia|]. split; [by constructor|]. split; [cbn; by rewrite <- app_assoc|]. split; [done|].
  apply m_adj_kin in Ea. apply (put_sum_books _ _ _ _ _ _ _ _ m) in Hput as [K2 _]. cbn [concat app] in El |- *. eapply ledger_trans; [exact El|].
  assert (Hx : concat frags ++ m ≡ₚ m ++ concat frags) by solve_Permutation. rewrite Hx. apply ledger_app.
  apply ledger_kin with (l' := m1 :: r1); [eapply ledger_kin; [apply ledger_refl|exact Ea]|]. inversion K2; subst. by constructor.
Qed.
End fragments.

(** ** Mbufs in use *)

(** m_copym when there is no memory at all. *)
Lemma m_copym_none m off len ms l : Forall (wf ms) m -> 0 <= off -> 0 < len < M_COPYALL -> off + len <= chain_len m ->
  mallocs ms = false :: false :: l ->
  exists ms', m_copym m off len ms = Ret ([], ms') /\ pool ms' = pool ms /\ (forall t, in_use t ms' = in_use t ms) /\ mallocs ms' = l.
Proof.
  intros W Hoff Hlen Hend Hm. assert (Hne : m <> []) by (intros ->; cbn in Hend; lia). unfold m_copym.
  destruct (Z.ltb_spec off 0); [lia|]. destruct (Z.ltb_spec len 0); [lia|]. cbn [orb].
  destruct (m_copym_begin ms m off W Hne Hoff) as (hdr & -> & Hs & _). bind.
  destruct (Hs ltac:(lia)) as (pre & off' & m' & -> & Em & Eo & [Hat1 Hat2] & Hcl & Hpl & Hpre & Hm' & Hsub & Hhdr). bind.
  destruct m' as [|x m']; [cbn in Hcl; lia|]. cbn [copy_loop]. rewrite Z.gtb_ltb. destruct (Z.ltb_spec 0 len); [|lia].
  unfold MGET, m_retry, mget_once, MALLOC. rewrite Hm. cbn. eexists. split; [reflexivity|]. by splits.
Qed.

(** ** Properties *)

(** The header as ip_output completes it. *)
Definition outgoing (h : ip) (flags id : Z) (rt : rtentry) : ip :=
  let h := if negb (has flags IP_FORWARDING) then set_vers IPVERSION id (Z.shiftr sizeof_ip 2) h else h in
  if ip_src h =? INADDR_ANY then set_addrs (ia_addr (rt_ifa rt)) (ip_dst h) h else h.
Definition next_hop (h : ip) (rt : rtentry) : Z := if has (rt_flags rt) RTF_GATEWAY then rt_gateway rt else ip_dst h.

Lemma piece_size big h ol pad D ms c at_ : piece big h ol pad D ms c at_ -> 0 <= at_.2 -> at_.1 + at_.2 <= Z.of_nat (length D) -> 0 <= at_.1 ->
  chain_len c <= ip_hl h * 4 + at_.2.
Proof.
  destruct at_ as [o l]. cbn [fst snd]. intros (_ & W & h' & _ & (_ & H5 & _) & Ho & Ec & _) Hl Hol Hof.
  rewrite <- (cdata_length ms c W), Ec, !length_app, ip_bytes_length.
  assert (Z.of_nat (length (slice o l D)) = l) by (by apply slice_length). lia.
Qed.

Lemma tiles_range tl : forall lo hi, tiles lo hi tl -> 0 <= lo -> Forall (fun ol => 0 <= ol.1 /\ 0 < ol.2 /\ ol.1 + ol.2 <= hi) tl /\ lo <= hi.
Proof.
  induction tl as [|[o n] tl IH]; intros lo hi H Hlo; cbn in H; [subst; split; [done|lia]|].
  destruct H as (-> & Hn & H). destruct (IH _ _ H) as [I1 I2]; [lia|]. split; [|lia]. constructor; [cbn; lia|done].
Qed.

Lemma pieces_size big h ol pad D ms : forall frags tl hi M, Forall2 (piece big h ol pad D ms) frags tl -> Forall (fun ol => ol.2 <= M) tl ->
  Forall (fun ol => 0 <= ol.1 /\ 0 < ol.2 /\ ol.1 + ol.2 <= hi) tl -> hi = Z.of_nat (length D) ->
  Forall (fun c => chain_len c <= ip_hl h * 4 + M) frags.
Proof.
  intros frags tl hi M H HM Hr ->. induction H as [|c x frags tl Hc _ IH]; [done|].
  apply Forall_cons in HM as [HM1 HM]. apply Forall_cons in Hr as [(R1 & R2 & R3) Hr]. constructor; [|by apply IH].
  pose proof (piece_size _ _ _ _ _ _ _ _ Hc). lia.
Qed.

(** C17: fragmentation.  A packet that is too large for the interface, and may be
    fragmented, leaves as a sequence of packets that fit: side by side they carry
    exactly its data; each starts at a multiple of eight bytes and has a header
    with the packet's identification, addresses, protocol and the other fields,
    the right length, offset and more-fragments bit (also when the packet is
    itself a fragment) and a correct checksum; the first has the packet's options as
    they were, the others those with the copied bit, in order, and end marks up to a
    multiple of four bytes.  The mbufs of each type in use and the references to each
    cluster change by exactly what the fragments have more than the packet.  Memory
    must suffice, the interface accept the packets, the options be well formed
    ([good_opt], with nothing or an end mark after the last), and the counts of references
    must have room for the fragments. *)
Theorem ip_output_fragments (big : bool) (lh : Z) (net : nettab) (h : ip) (m0 : mbuf) (r : chain) (hb : list Z) (ol : list (list Z)) (pad D : list Z)
    (flags len0 K hlen : Z) (rt : rtentry) (st : outst) (rest : chain) :
  let h2 := outgoing h flags (ip_id_next st) rt in
  let mtu := if_mtu (rt_ifp rt) in
  let len := 8 * ((mtu - hlen) / 8) in
  let ms := o_mb st in
  0 <= lh <= 40 -> is_pkt m0 = true -> has flags IP_ROUTETOIF = false -> rtalloc net (ip_dst h) = Some rt ->
  in_broadcast net (next_hop h rt) = false -> has (ip_off h2) IP_DF = false ->
  packet_ok h2 m0 r hb ol pad D hlen ms -> hlen + Z.of_nat (length D) > mtu -> 8 <= len ->
  owned ms ((m0 :: r) ++ rest) -> mallocs ms = [] -> if_errors st = [] ->
  0 <= K -> Z.of_nat (length D) - len <= K * len -> (forall c, refcnt ms c + K * refs c (m0 :: r) <= 127) ->
  exists frags tl st', ip_output big lh net h (m0 :: r) None None flags len0 st = Ret (0, Ro (Some rt) (ip_dst h), st') /\
    sent st' = sent st ++ ((fun c => (c, next_hop h rt)) <$> frags) /\
    Forall2 (piece big h2 ol pad D (o_mb st')) frags tl /\ tiles 0 (Z.of_nat (length D)) tl /\
    Forall (fun c => chain_len c <= mtu) frags /\ owned (o_mb st') (concat frags ++ rest) /\ same ms (o_mb st') rest /\
    kept ms (m0 :: r) (o_mb st') (concat frags).
Proof.
  intros h2 mtu len ms Hlh Hpkt Hto Hrt Hbc Hdf Hpk Hbig H8 Hown Hnil Herr HK HKl Hcap.
  pose proof (po_ip _ _ _ _ _ _ _ _ _ Hpk) as (_ & _ & Hhl & H5). pose proof (po_len _ _ _ _ _ _ _ _ _ Hpk) as [HL _].
  assert (Hsend : forall st1, o_mb st1 = ms -> if_errors st1 = [] -> sent st1 = sent st ->
    exists frags tl st', ip_send big lh net h2 [] (m0 :: r) hlen flags (Ro (Some rt) (ip_dst h)) (rt_ifp rt) (next_hop h rt) st1 =
      Ret (0, Ro (Some rt) (ip_dst h), st') /\
    sent st' = sent st ++ ((fun c => (c, next_hop h rt)) <$> frags) /\
    Forall2 (piece big h2 ol pad D (o_mb st')) frags tl /\ tiles 0 (Z.of_nat (length D)) tl /\
    Forall (fun c => chain_len c <= mtu) frags /\ owned (o_mb st') (concat frags ++ rest) /\ same ms (o_mb st') rest /\ kept ms (m0 :: r) (o_mb st') (concat frags)).
  { intros st1 E1 E2 E3. unfold ip_send. rewrite Hbc. cbn [andb app]. fold mtu. rewrite HL.
    destruct (Z.leb_spec (hlen + Z.of_nat (length D)) mtu); [lia|]. rewrite Hdf, align8. fold len. destruct (Z.ltb_spec len 8); [lia|].
    destruct (ip_fragment_ok big lh h2 m0 r hb ol pad D hlen Hlh K mtu (next_hop h rt) (ocount ips_fragmented st1) rest)
      as (frags & tl & st' & -> & I1 & I2 & I3 & I4 & I5 & I6 & I7); cbn [ocount o_mb if_errors sent]; rewrite ?E1; try done; try lia.
    bind. exists frags, tl, st'. cbn [ocount o_mb sent] in *. rewrite E3 in I1. rewrite E1 in I6, I7. splits; try done; [|by eapply ledger_kept].
    destruct (tiles_range _ _ _ I3 ltac:(lia)) as [Hr _]. eapply Forall_impl; [exact (pieces_size _ _ _ _ _ _ _ _ _ _ I2 I4 Hr eq_refl)|].
    cbn. intros c Hc. rewrite <- Hhl in Hc. assert (len <= mtu - hlen) by (unfold len; zdiv). lia. }
  assert (Hdst : forall h', ip_dst h' = ip_dst h -> select_route net None flags (ip_dst h') =
    (Ro (Some rt) (ip_dst h), inr (rt_ifa rt, rt_ifp rt, next_hop h rt))).
  { intros h' ->. unfold select_route. cbn. rewrite Hto. cbn. by rewrite Hrt. }
  unfold ip_output. rewrite Hpkt. cbn [negb]. bind. unfold h2, outgoing in *. destruct (has flags IP_FORWARDING); cbn [negb] in *.
  - rewrite (Hdst h eq_refl). assert (ip_hl h * 4 = hlen) as ->; [|by apply Hsend].
    rewrite Hhl. destruct (ip_src h =? INADDR_ANY); done.
  - rewrite (Hdst (set_vers IPVERSION (ip_id_next st) (Z.shiftr sizeof_ip 2) h) eq_refl). assert (hlen = sizeof_ip) as Eh; [|clear Hhl; subst hlen; by apply Hsend].
    rewrite Hhl. destruct (ip_src _ =? INADDR_ANY); done.
Qed.

(** C19: A fragment is lost when memory runs out.  If a packet without options
    is fragmented and there is an mbuf for the second fragment's header but none for
    its data, ip_output frees the packet,
    sends nothing and returns ENOBUFS, but the header's mbuf, which is not yet
    on the list of fragments, is never freed: the kernel counts one mbuf more
    than exist. *)
Theorem frag_leak (big : bool) (lh : Z) (h : ip) (m0 : mbuf) (r : chain) (hb : list Z) (ol : list (list Z)) (pad D : list Z) (mtu dst : Z) (st : outst)
    (rest : chain) (l : list bool) :
  0 <= lh <= 40 -> packet_ok h m0 r hb ol pad D 20 (o_mb st) -> 8 <= Z.land (mtu - 20) (Z.lnot 7) -> mtu < 20 + Z.of_nat (length D) ->
  owned (o_mb st) ((m0 :: r) ++ rest) -> mallocs (o_mb st) = true :: false :: false :: l ->
  exists st', ip_fragment big lh h (m0 :: r) 20 mtu dst st = Ret (ENOBUFS, st') /\ sent st' = sent st /\ owned (o_mb st') rest /\
    forall t, in_use t (o_mb st') = in_use t (o_mb st) - of_type t (m0 :: r) + if decide (t = MT_HEADER) then 1 else 0.
Proof.
  intros Hlh Hpk H8 Hmtu Hown Hm. rewrite align8 in H8. unfold ip_fragment. change sizeof_ip with 20. cbn zeta. rewrite align8.
  set (len := 8 * ((mtu - 20) / 8)) in *. assert (Hlen : 0 < len < Z.of_nat (length D)) by (unfold len in *; zdiv).
  destruct (opts_copied _ _ _ _ _ _ _ _ _ Hpk) as [Hopt Hnone].
  destruct Hpk as [(Hip & Hv & Hhl & H5) [HL Hmax] [Hb1 Hb2] (He & Hl0 & Hbd) _ W (Hd & Hhb & HbD)].
  cbn [frag_loop]. rewrite HL. destruct (Z.ltb_spec (20 + len) (20 + Z.of_nat (length D))); [|lia].
  assert (HU : Z.of_nat (length (cdata (o_mb st) (m0 :: r))) = 20 + Z.of_nat (length D)) by (rewrite Hd, length_app; lia).
  rewrite (cdata_length _ _ W) in HU.
  set (ms1 := count_type MT_HEADER 1 (with_mallocs (false :: false :: l) (o_mb st))).
  set (n := new_mbuf (with_mallocs (false :: false :: l) (o_mb st)) true MT_HEADER).
  assert (MGETHDR MT_HEADER (o_mb st) = (Some n, ms1)) as -> by (unfold MGETHDR, mget_once, MALLOC; by rewrite Hm).
  assert (W1 : Forall (wf ms1) (m0 :: r)) by (eapply (wfs_same (o_mb st)); [by apply same_pool|done]).
  pose proof W1 as W1'. apply Forall_cons in W1' as [W0 _]. unfold frag_one.
  destruct (frag_mbuf_ok lh h m0 20 20 n ms1 (frag_opts ol) Hip Hhl H5 (fun _ => eq_refl) W0 He Hl0 Hbd Hlh Hopt Hnone eq_refl eq_refl)
    as (mhip & mhlen' & n' & -> & Emh & Ehl & Hmr & Hm20 & _); [by cbn; rewrite bytes_of_length|]. bind.
  assert (exists hh nl, frag_header mhip 20 mhlen' (20 + len) len = (hh, nl) /\ 0 < nl /\ len + nl <= Z.of_nat (length D)) as (hh & nl & -> & Hnl & Hend).
  { unfold frag_header. assert (Eil : ip_len mhip = ip_len h) by (by rewrite Emh). rewrite Eil, HL, Z.geb_leb.
    destruct (Z.leb_spec (20 + Z.of_nat (length D)) (20 + len + len)); (eexists _, _; split; [reflexivity|]); lia. }
  destruct (m_copym_none (m0 :: r) (20 + len) nl ms1 l W1) as (ms2 & -> & Hp & Hu & Hl2); [lia|unfold M_COPYALL; lia|lia|done|].
  bind. cbn [Z.eqb negb send_or_free ENOBUFS]. bind. eexists. split; [reflexivity|]. cbn [o_mb with_omb sent]. split; [done|].
  destruct (m_freem_ok (m0 :: r) ms2 rest) as (_ & F & _); [intros c; unfold refcnt; rewrite Hp; apply Hown|]. split; [exact F|].
  intros t. rewrite in_use_freem, Hu. unfold ms1. rewrite in_use_count. unfold with_mallocs, in_use. cbn [Mbuf.stat].
  destruct (decide (MT_HEADER = t)), (decide (t = MT_HEADER)); congruence || lia.
Qed.

Lemma mwrite_new ms t a b c off bs ms1 : 0 <= b + off -> b + off + Z.of_nat (length bs) <= 108 ->
  exists n2, mwrite (set_data (set_pkt_len (new_mbuf ms true t) a) b c) off bs ms1 = Ret (n2, ms1).
Proof.
  intros H1 H2. unfold mwrite, area. set (n := set_data _ _ _). change (is_ext n) with false. cbv iota.
  change (m_dat n) with (bytes_of (junk ms) 108). change (m_off n) with b. rewrite bwrite_eq by (rewrite ?bytes_of_length; lia). bind. by eexists.
Qed.

(** The same when options need a new first mbuf and there is no route: "bad" frees
    only the chain the caller passed. *)
Theorem no_route_leak (big : bool) (lh : Z) (net : nettab) (h : ip) (m0 : mbuf) (r : chain) (opt : ipoption) (len0 : Z) (st : outst) (rest : chain) :
  is_pkt m0 = true -> Z.of_nat (length (ipopt_list opt)) <= 40 -> 0 <= lh <= 40 -> u16 (ip_len h) <= 65000 ->
  m_off m0 - Z.of_nat (length (ipopt_list opt)) < MLEN - MHLEN -> ipopt_dst opt = 0 -> rtalloc net (ip_dst h) = None ->
  mallocs (o_mb st) = [] -> owned (o_mb st) ((m0 :: r) ++ rest) ->
  exists ro st', ip_output big lh net h (m0 :: r) (Some opt) None 0 len0 st = Ret (EHOSTUNREACH, ro, st') /\ sent st' = sent st /\
    owned (o_mb st') rest /\
    forall t, in_use t (o_mb st') = in_use t (o_mb st) - of_type t (m0 :: r) + if decide (t = MT_HEADER) then 1 else 0.
Proof.
  intros Hpkt Hol Hlh Hlen Hroom Hdst Hrt Hm Hown. unfold ip_output. rewrite Hpkt. cbn [negb]. unfold ip_insertoptions.
  rewrite Z.gtb_ltb. destruct (Z.ltb_spec IP_MAXPACKET (Z.of_nat (length (ipopt_list opt)) + u16 (ip_len h))); [unfold IP_MAXPACKET in *; lia|].
  rewrite Hdst. cbn [Z.eqb negb]. destruct (Z.ltb_spec (m_off m0 - Z.of_nat (length (ipopt_list opt))) (MLEN - MHLEN)); [|lia]. rewrite orb_true_r.
  set (ms1 := count_type MT_HEADER 1 (o_mb st)).
  assert (MGETHDR MT_HEADER (o_mb st) = (Some (new_mbuf (o_mb st) true MT_HEADER), ms1)) as -> by (unfold MGETHDR, mget_once, MALLOC; by rewrite Hm).
  match goal with |- context [mwrite (set_data (set_pkt_len ?n ?a) ?b ?c) ?off ?bs ms1] =>
    destruct (mwrite_new (o_mb st) MT_HEADER a b c off bs ms1) as [n2 ->]; [cbn; unfold sizeof_ip, MLEN, MHLEN; lia|cbn; unfold sizeof_ip, MLEN, MHLEN; lia|] end.
  bind. unfold select_route. cbn [has]. cbn [default ro_rt ro_dst set_vers set_iplen ip_dst]. change (has 0 IP_ROUTETOIF) with false. cbv iota.
  change (has 0 IP_FORWARDING) with false. cbn [negb]. cbv iota. cbn [ip_dst set_vers set_iplen]. rewrite Hrt. cbn [ro_rt out_bad].
  unfold out_bad. eexists _, _. split; [reflexivity|]. cbn [o_mb with_omb next_id sent]. split; [done|].
  set (m1 := set_data m0 _ _). assert (Href : forall c, refs c (m1 :: r) = refs c (m0 :: r)) by done.
  destruct (m_freem_ok (m1 :: r) ms1 rest) as (_ & F & _); [intros c; rewrite refs_app, Href, <- refs_app; apply Hown|]. split; [exact F|].
  intros t. rewrite in_use_freem. unfold ms1. rewrite in_use_count. assert (of_type t (m1 :: r) = of_type t (m0 :: r)) as -> by (unfold of_type; rewrite !filter_cons; change (m_type m1) with (m_type m0); by destruct (decide (m_type m0 = t))).
  destruct (decide (MT_HEADER = t)), (decide (t = MT_HEADER)); congruence || lia.
Qed.

(** the options of fragments.  From well-formed options (followed by an end
    mark and padding, or by nothing) ip_optcopy takes exactly those whose copied
    bit is set, in order, and pads them with end marks to a multiple of four.
    But an option whose length byte is zero, which the code leaves to
    ip_dooptions to refuse, is never passed: the loop does not end. *)
Theorem ip_optcopy_spec (l : list (list Z)) (n : nat) (tail : list Z) (hl : Z) :
  Forall good_opt l -> n = 0%nat \/ (exists r, tail = IPOPT_EOL :: r) -> hl * 4 - 20 = Z.of_nat (length (concat l) + n) ->
  ip_optcopy hl (concat l ++ tail) = Ret (optpad 3 (copied_opts l)) /\
  Z.of_nat (length (optpad 3 (copied_opts l))) mod 4 = 0 /\ take (length (copied_opts l)) (optpad 3 (copied_opts l)) = copied_opts l /\
  forall fuel opt r cnt dp, opt <> IPOPT_EOL -> opt <> IPOPT_NOP -> 0 < cnt -> optcopy_loop fuel (opt :: 0 :: r) cnt dp = Fault.
Proof.
  intros Hl Ht Hlen. split; [|split; [apply optpad_aligned|split]].
  - unfold ip_optcopy. change sizeof_ip with 20. rewrite Hlen, (optcopy_loop_spec tail n Ht l) by (done || lia). done.
  - assert (H : forall k dp, take (length dp) (optpad k dp) = dp); [|apply H].
    induction k as [|k IH]; intros dp; [by apply take_ge|]. cbn [optpad]. destruct (has _ _); [|by apply take_ge].
    transitivity (take (length dp) (take (length (dp ++ [IPOPT_EOL])) (optpad k (dp ++ [IPOPT_EOL])))).
    + rewrite take_take. f_equal. rewrite length_app. lia.
    + rewrite IH. apply take_app_length.
  - induction fuel as [|fuel IH]; intros opt r cnt dp H1 H2 Hc; [done|]. cbn [optcopy_loop]. rewrite Z.gtb_ltb.
    destruct (Z.ltb_spec 0 cnt); [|lia]. destruct (Z.eqb_spec opt IPOPT_EOL); [done|]. destruct (Z.eqb_spec opt IPOPT_NOP); [done|].
    cbn [lookup list_lookup]. bind. rewrite Z.gtb_ltb. destruct (Z.ltb_spec cnt 0); [lia|]. change (Z.to_nat 0) with 0%nat.
    rewrite drop_0, Z.sub_0_r. by apply IH.
Qed.

(** ** Witnesses *)

(** 24 bytes of data over an interface that takes 36 bytes. *)
Definition w_data : list Z := Z.of_nat <$> seq 1 24.
Definition w_hdr : ip := Ip 0 0 0 44 0 0 30 17 0 100 200.
Definition w_m0 : mbuf :=
  Mb 40 44 1 M_PKTHDR 44 0 (replicate 40 0 ++ replicate 20 9 ++ w_data ++ replicate 24 0) 0 0.
Definition w_rt : rtentry := Rt RTF_UP (Ifnet 36 0) (Ia (Ifnet 36 0) 100) 0.
Definition w_net : nettab := Net (fun d => if d =? 200 then Some w_rt else None) (fun _ => None) (fun _ => None) (fun _ => false).
Definition w_ost (l : list bool) : outst :=
  Out 7 (fun _ => 0) (MS l (fun _ => 0) (Stat ∅ 0 0 0) (Pool ∅ ∅ [] (Rmap.Rmap (Rmap.layout [] 3) [] false 0) [] 0) 0 0) [] [].

Lemma w_packet ms : packet_ok (outgoing w_hdr 0 7 w_rt) w_m0 [] (replicate 20 9) [] [] w_data 20 ms.
Proof.
  constructor.
  - split; [vm_compute; intuition congruence|]. split; [reflexivity|]. split; [reflexivity|vm_compute; congruence].
  - split; [reflexivity|vm_compute; congruence].
  - split; [vm_compute; congruence|reflexivity].
  - split; [reflexivity|]. split; [vm_compute; congruence|]. vm_compute. repeat constructor; congruence.
  - split; [constructor|]. split; [by left|reflexivity].
  - apply Forall_singleton. vm_compute. intuition congruence.
  - split; [vm_compute; reflexivity|]. split; [reflexivity|]. vm_compute. repeat constructor; congruence.
Qed.

Lemma w_packet_owned l c : refs c ([w_m0] ++ []) <= refcnt (o_mb (w_ost l)) c <= 127.
Proof. split; vm_compute; congruence. Qed.

(** A packet to be forwarded with two options, the first to be copied, over an
    interface that takes 44 bytes. *)
Definition f_opts : list (list Z) := [[136; 4; 1; 2]; [7; 3; 4]].
Definition f_hb : list Z := replicate 20 9 ++ concat f_opts ++ [0].
Definition f_hdr : ip := Ip 4 7 0 52 6 0 30 17 0 100 200.
Definition f_m0 : mbuf := Mb 40 52 1 M_PKTHDR 52 0 (replicate 40 0 ++ f_hb ++ w_data ++ replicate 16 0) 0 0.
Definition f_rt : rtentry := Rt RTF_UP (Ifnet 44 0) (Ia (Ifnet 44 0) 100) 0.
Definition f_net : nettab := Net (fun d => if d =? 200 then Some f_rt else None) (fun _ => None) (fun _ => None) (fun _ => false).

Lemma f_packet ms : packet_ok (outgoing f_hdr IP_FORWARDING 7 f_rt) f_m0 [] f_hb f_opts [0] w_data 28 ms.
Proof.
  constructor.
  - split; [vm_compute; intuition congruence|]. split; [reflexivity|]. split; [reflexivity|vm_compute; congruence].
  - split; [reflexivity|vm_compute; congruence].
  - split; [vm_compute; congruence|reflexivity].
  - split; [reflexivity|]. split; [vm_compute; congruence|]. vm_compute. repeat constructor; congruence.
  - split; [|split; [right; by eexists|reflexivity]]. repeat apply Forall_cons_2; try apply Forall_nil_2; right; eexists _, _; (split; [reflexivity|]); vm_compute; split; congruence.
  - apply Forall_singleton. vm_compute. intuition congruence.
  - split; [vm_compute; reflexivity|]. split; [reflexivity|]. vm_compute. repeat constructor; congruence.
Qed.
Lemma f_packet_owned c : refs c ([f_m0] ++ []) <= refcnt (o_mb (w_ost [])) c <= 127.
Proof. split; vm_compute; congruence. Qed.

Lemma ip_output_fragments_witness :
  exists frags tl st', ip_output true 16 f_net f_hdr [f_m0] None None IP_FORWARDING 0 (w_ost []) = Ret (0, Ro (Some f_rt) 200, st') /\
    sent st' = (fun c => (c, 200)) <$> frags /\ tiles 0 24 tl /\
    Forall2 (piece true (outgoing f_hdr IP_FORWARDING 7 f_rt) f_opts [0] w_data (o_mb st')) frags tl /\
    length (sent st') = 2%nat /\ frag_opts f_opts = [136; 4; 1; 2].
Proof.
  destruct (ip_output_fragments true 16 f_net f_hdr f_m0 [] f_hb f_opts [0] w_data IP_FORWARDING 0 1 28 f_rt (w_ost []) [])
    as (frags & tl & st' & E & H1 & H2 & H3 & _);
    [lia|reflexivity|reflexivity|reflexivity|reflexivity|reflexivity|apply f_packet|vm_compute; reflexivity|vm_compute; congruence
    |exact f_packet_owned|reflexivity|reflexivity|lia|vm_compute; congruence|intros c; vm_compute; congruence|].
  - exists frags, tl, st'. split; [exact E|]. split; [exact H1|]. split; [exact H3|]. split; [exact H2|].
    assert (match ip_output true 16 f_net f_hdr [f_m0] None None IP_FORWARDING 0 (w_ost []) with
            | Ret (_, _, st') => length (sent st') = 2%nat | _ => False end) as Hr by (vm_compute; reflexivity).
    rewrite E in Hr. split; [exact Hr|reflexivity].
Defined.

Lemma frag_leak_witness :
  exists st', ip_fragment true 16 (outgoing w_hdr 0 7 w_rt) [w_m0] 20 36 200 (w_ost [true; false; false]) = Ret (ENOBUFS, st') /\
    sent st' = [] /\ in_use MT_HEADER (o_mb st') = 1.
Proof.
  destruct (frag_leak true 16 (outgoing w_hdr 0 7 w_rt) w_m0 [] (replicate 20 9) [] [] w_data 36 200 (w_ost [true; false; false]) [] [])
    as (st' & E & H1 & _ & H2);
    [lia|apply w_packet|vm_compute; congruence|vm_compute; reflexivity|exact (w_packet_owned [true; false; false])|reflexivity|].
  - exists st'. split; [exact E|]. split; [exact H1|]. rewrite H2. vm_compute. reflexivity.
Defined.

Lemma no_route_leak_witness :
  exists ro st', ip_output true 16 w_net (Ip 0 0 0 44 0 0 30 17 0 100 201) [w_m0] (Some (Opt 0 (replicate 40 1))) None 0 0 (w_ost []) =
    Ret (EHOSTUNREACH, ro, st') /\ in_use MT_HEADER (o_mb st') = 1.
Proof.
  destruct (no_route_leak true 16 w_net (Ip 0 0 0 44 0 0 30 17 0 100 201) w_m0 [] (Opt 0 (replicate 40 1)) 0 (w_ost []) [])
    as (ro & st' & E & _ & _ & H);
    [reflexivity|vm_compute; congruence|lia|vm_compute; congruence|vm_compute; reflexivity|reflexivity|reflexivity|reflexivity|exact (w_packet_owned [])|].
  - exists ro, st'. split; [exact E|]. rewrite H. vm_compute. reflexivity.
Defined.

(** A security option, a route record that is not copied, and an end mark. *)
Lemma ip_optcopy_spec_witness :
  ip_optcopy 8 (concat [[130; 3; 5]; [1]; [7; 4; 4; 0]; [136; 2]] ++ [0; 0]) = Ret [130; 3; 5; 136; 2; 0; 0; 0].
Proof.
  destruct (ip_optcopy_spec [[130; 3; 5]; [1]; [7; 4; 4; 0]; [136; 2]] 2 [0; 0] 8) as [H _].
  - repeat apply Forall_cons_2; try apply Forall_nil_2; first [by left|right; eexists _, _; split; [reflexivity|]; split; vm_compute; congruence].
  - right. by eexists.
  - reflexivity.
  - rewrite H. vm_compute. reflexivity.
Defined.

End IpOutput.
