(* ===== verification/FfsMap.v ===== *)
(** The block maps of the fast file system: the tables of sys/ufs/ufs_tables.c
    and the operations on maps of sys/ufs/ufs_subr.c.

    A map is the list of its bytes; bit [i mod 8] of byte [i / 8] says that
    fragment [i] of the group is free.  A block is [frag] fragments, 1, 2, 4 or 8,
    and never crosses a byte. *)
From stdpp Require Import base numbers list strings.
From Stdlib Require Import ZArith Lia.
From S2P Require Import Prelude.

Module FfsMap.

(** ** Bytes of an array *)
Definition NBBY : Z := 8.
Definition at_ (cp : list Z) (i : Z) : Z := default 0 (cp !! Z.to_nat i).
Definition within {A} (l : list A) (i : Z) : bool := (0 <=? i) && (i <? Z.of_nat (length l)).
Definition rd (cp : list Z) (i : Z) : outcome Z := if within cp i then Ret (at_ cp i) else Fault.
Definition wr (cp : list Z) (i v : Z) : outcome (list Z) := if within cp i then Ret (<[Z.to_nat i := v]> cp) else Fault.

(** [setbit], [clrbit], [isset] and [isclr] of sys/sys/param.h. *)
Definition setbit (a : list Z) (i : Z) : outcome (list Z) :=
  b ← rd a (i / NBBY); wr a (i / NBBY) (u8 (Z.lor b (Z.shiftl 1 (i mod NBBY)))).
Definition clrbit (a : list Z) (i : Z) : outcome (list Z) :=
  b ← rd a (i / NBBY); wr a (i / NBBY) (u8 (Z.land b (Z.lnot (Z.shiftl 1 (i mod NBBY))))).
Definition isset (a : list Z) (i : Z) : outcome bool :=
  b ← rd a (i / NBBY); Ret (negb (Z.land b (Z.shiftl 1 (i mod NBBY)) =? 0)).
Definition isclr (a : list Z) (i : Z) : outcome bool :=
  b ← rd a (i / NBBY); Ret (Z.land b (Z.shiftl 1 (i mod NBBY)) =? 0).
Definition howmany (x y : Z) : Z := (x + (y - 1)) / y.

(** ** The tables *)
Definition around : list Z := [0x3; 0x7; 0xf; 0x1f; 0x3f; 0x7f; 0xff; 0x1ff; 0x3ff].
Definition inside : list Z := [0x0; 0x2; 0x6; 0xe; 0x1e; 0x3e; 0x7e; 0xfe; 0x1fe].
Definition fragtbl124 : list Z :=
  [0x00; 0x16; 0x16; 0x2a; 0x16; 0x16; 0x26; 0x4e; 0x16; 0x16; 0x16; 0x3e; 0x2a; 0x3e; 0x4e; 0x8a;
   0x16; 0x16; 0x16; 0x3e; 0x16; 0x16; 0x36; 0x5e; 0x16; 0x16; 0x16; 0x3e; 0x3e; 0x3e; 0x5e; 0x9e;
   0x16; 0x16; 0x16; 0x3e; 0x16; 0x16; 0x36; 0x5e; 0x16; 0x16; 0x16; 0x3e; 0x3e; 0x3e; 0x5e; 0x9e;
   0x2a; 0x3e; 0x3e; 0x2a; 0x3e; 0x3e; 0x2e; 0x6e; 0x3e; 0x3e; 0x3e; 0x3e; 0x2a; 0x3e; 0x6e; 0xaa;
   0x16; 0x16; 0x16; 0x3e; 0x16; 0x16; 0x36; 0x5e; 0x16; 0x16; 0x16; 0x3e; 0x3e; 0x3e; 0x5e; 0x9e;
   0x16; 0x16; 0x16; 0x3e; 0x16; 0x16; 0x36; 0x5e; 0x16; 0x16; 0x16; 0x3e; 0x3e; 0x3e; 0x5e; 0x9e;
   0x26; 0x36; 0x36; 0x2e; 0x36; 0x36; 0x26; 0x6e; 0x36; 0x36; 0x36; 0x3e; 0x2e; 0x3e; 0x6e; 0xae;
   0x4e; 0x5e; 0x5e; 0x6e; 0x5e; 0x5e; 0x6e; 0x4e; 0x5e; 0x5e; 0x5e; 0x7e; 0x6e; 0x7e; 0x4e; 0xce;
   0x16; 0x16; 0x16; 0x3e; 0x16; 0x16; 0x36; 0x5e; 0x16; 0x16; 0x16; 0x3e; 0x3e; 0x3e; 0x5e; 0x9e;
   0x16; 0x16; 0x16; 0x3e; 0x16; 0x16; 0x36; 0x5e; 0x16; 0x16; 0x16; 0x3e; 0x3e; 0x3e; 0x5e; 0x9e;
   0x16; 0x16; 0x16; 0x3e; 0x16; 0x16; 0x36; 0x5e; 0x16; 0x16; 0x16; 0x3e; 0x3e; 0x3e; 0x5e; 0x9e;
   0x3e; 0x3e; 0x3e; 0x3e; 0x3e; 0x3e; 0x3e; 0x7e; 0x3e; 0x3e; 0x3e; 0x3e; 0x3e; 0x3e; 0x7e; 0xbe;
   0x2a; 0x3e; 0x3e; 0x2a; 0x3e; 0x3e; 0x2e; 0x6e; 0x3e; 0x3e; 0x3e; 0x3e; 0x2a; 0x3e; 0x6e; 0xaa;
   0x3e; 0x3e; 0x3e; 0x3e; 0x3e; 0x3e; 0x3e; 0x7e; 0x3e; 0x3e; 0x3e; 0x3e; 0x3e; 0x3e; 0x7e; 0xbe;
   0x4e; 0x5e; 0x5e; 0x6e; 0x5e; 0x5e; 0x6e; 0x4e; 0x5e; 0x5e; 0x5e; 0x7e; 0x6e; 0x7e; 0x4e; 0xce;
   0x8a; 0x9e; 0x9e; 0xaa; 0x9e; 0x9e; 0xae; 0xce; 0x9e; 0x9e; 0x9e; 0xbe; 0xaa; 0xbe; 0xce; 0x8a].
Definition fragtbl8 : list Z :=
  [0x00; 0x01; 0x01; 0x02; 0x01; 0x01; 0x02; 0x04; 0x01; 0x01; 0x01; 0x03; 0x02; 0x03; 0x04; 0x08;
   0x01; 0x01; 0x01; 0x03; 0x01; 0x01; 0x03; 0x05; 0x02; 0x03; 0x03; 0x02; 0x04; 0x05; 0x08; 0x10;
   0x01; 0x01; 0x01; 0x03; 0x01; 0x01; 0x03; 0x05; 0x01; 0x01; 0x01; 0x03; 0x03; 0x03; 0x05; 0x09;
   0x02; 0x03; 0x03; 0x02; 0x03; 0x03; 0x02; 0x06; 0x04; 0x05; 0x05; 0x06; 0x08; 0x09; 0x10; 0x20;
   0x01; 0x01; 0x01; 0x03; 0x01; 0x01; 0x03; 0x05; 0x01; 0x01; 0x01; 0x03; 0x03; 0x03; 0x05; 0x09;
   0x01; 0x01; 0x01; 0x03; 0x01; 0x01; 0x03; 0x05; 0x03; 0x03; 0x03; 0x03; 0x05; 0x05; 0x09; 0x11;
   0x02; 0x03; 0x03; 0x02; 0x03; 0x03; 0x02; 0x06; 0x03; 0x03; 0x03; 0x03; 0x02; 0x03; 0x06; 0x0a;
   0x04; 0x05; 0x05; 0x06; 0x05; 0x05; 0x06; 0x04; 0x08; 0x09; 0x09; 0x0a; 0x10; 0x11; 0x20; 0x40;
   0x01; 0x01; 0x01; 0x03; 0x01; 0x01; 0x03; 0x05; 0x01; 0x01; 0x01; 0x03; 0x03; 0x03; 0x05; 0x09;
   0x01; 0x01; 0x01; 0x03; 0x01; 0x01; 0x03; 0x05; 0x03; 0x03; 0x03; 0x03; 0x05; 0x05; 0x09; 0x11;
   0x01; 0x01; 0x01; 0x03; 0x01; 0x01; 0x03; 0x05; 0x01; 0x01; 0x01; 0x03; 0x03; 0x03; 0x05; 0x09;
   0x03; 0x03; 0x03; 0x03; 0x03; 0x03; 0x03; 0x07; 0x05; 0x05; 0x05; 0x07; 0x09; 0x09; 0x11; 0x21;
   0x02; 0x03; 0x03; 0x02; 0x03; 0x03; 0x02; 0x06; 0x03; 0x03; 0x03; 0x03; 0x02; 0x03; 0x06; 0x0a;
   0x03; 0x03; 0x03; 0x03; 0x03; 0x03; 0x03; 0x07; 0x02; 0x03; 0x03; 0x02; 0x06; 0x07; 0x0a; 0x12;
   0x04; 0x05; 0x05; 0x06; 0x05; 0x05; 0x06; 0x04; 0x05; 0x05; 0x05; 0x07; 0x06; 0x07; 0x04; 0x0c;
   0x08; 0x09; 0x09; 0x0a; 0x09; 0x09; 0x0a; 0x0c; 0x10; 0x11; 0x11; 0x12; 0x20; 0x21; 0x40; 0x80].
(** A null pointer is an array without entries. *)
Definition fragtbl (frag : Z) : list Z :=
  default [] ([[]; fragtbl124; fragtbl124; []; fragtbl124; []; []; []; fragtbl8] !! Z.to_nat frag).

(** ** ufs_subr.c *)
Definition isblock (frag : Z) (cp : list Z) (h : Z) : outcome bool :=
  if frag =? 8 then b ← rd cp h; Ret (b =? 0xff)
  else if frag =? 4 then
    let mask := u8 (Z.shiftl 0x0f (Z.shiftl (Z.land h 0x1) 2)) in
    b ← rd cp (Z.shiftr h 1); Ret (Z.land b mask =? mask)
  else if frag =? 2 then
    let mask := u8 (Z.shiftl 0x03 (Z.shiftl (Z.land h 0x3) 1)) in
    b ← rd cp (Z.shiftr h 2); Ret (Z.land b mask =? mask)
  else if frag =? 1 then
    let mask := u8 (Z.shiftl 0x01 (Z.land h 0x7)) in
    b ← rd cp (Z.shiftr h 3); Ret (Z.land b mask =? mask)
  else Panic "isblock".

Definition clrblock (frag : Z) (cp : list Z) (h : Z) : outcome (list Z) :=
  if frag =? 8 then wr cp h 0
  else if frag =? 4 then
    b ← rd cp (Z.shiftr h 1); wr cp (Z.shiftr h 1) (u8 (Z.land b (Z.lnot (Z.shiftl 0x0f (Z.shiftl (Z.land h 0x1) 2)))))
  else if frag =? 2 then
    b ← rd cp (Z.shiftr h 2); wr cp (Z.shiftr h 2) (u8 (Z.land b (Z.lnot (Z.shiftl 0x03 (Z.shiftl (Z.land h 0x3) 1)))))
  else if frag =? 1 then
    b ← rd cp (Z.shiftr h 3); wr cp (Z.shiftr h 3) (u8 (Z.land b (Z.lnot (Z.shiftl 0x01 (Z.land h 0x7)))))
  else Panic "clrblock".

Definition setblock (frag : Z) (cp : list Z) (h : Z) : outcome (list Z) :=
  if frag =? 8 then wr cp h 0xff
  else if frag =? 4 then
    b ← rd cp (Z.shiftr h 1); wr cp (Z.shiftr h 1) (u8 (Z.lor b (Z.shiftl 0x0f (Z.shiftl (Z.land h 0x1) 2))))
  else if frag =? 2 then
    b ← rd cp (Z.shiftr h 2); wr cp (Z.shiftr h 2) (u8 (Z.lor b (Z.shiftl 0x03 (Z.shiftl (Z.land h 0x3) 1))))
  else if frag =? 1 then
    b ← rd cp (Z.shiftr h 3); wr cp (Z.shiftr h 3) (u8 (Z.lor b (Z.shiftl 0x01 (Z.land h 0x7))))
  else Panic "setblock".

(** The macro blkmap of fs.h. *)
Definition blkmap (frag : Z) (map : list Z) (loc : Z) : outcome Z :=
  b ← rd map (loc / NBBY); Ret (Z.land (Z.shiftr b (loc mod NBBY)) (Z.shiftr 0xff (NBBY - frag))).

(** The inner loop of fragacct over the positions, for one size. *)
Fixpoint acct_pos (fuel : nat) (frag siz cnt fragmap field subfield pos : Z) (fl : list Z) : outcome (list Z) :=
  match fuel with
  | O => Fault
  | S fuel =>
      if pos <=? frag then
        if Z.land fragmap field =? subfield then
          x ← rd fl siz;
          fl ← wr fl siz (x + cnt);
          acct_pos fuel frag siz cnt fragmap (Z.shiftl (Z.shiftl field siz) 1) (Z.shiftl (Z.shiftl subfield siz) 1) (pos + siz + 1) fl
        else acct_pos fuel frag siz cnt fragmap (Z.shiftl field 1) (Z.shiftl subfield 1) (pos + 1) fl
      else Ret fl
  end.

Fixpoint acct_siz (fuel : nat) (frag inblk cnt fragmap siz : Z) (fl : list Z) : outcome (list Z) :=
  match fuel with
  | O => Fault
  | S fuel =>
      if siz <? frag then
        if Z.land inblk (Z.shiftl 1 (siz + frag mod NBBY)) =? 0
        then acct_siz fuel frag inblk cnt fragmap (siz + 1) fl
        else
          fl ← acct_pos (S (Z.to_nat frag)) frag siz cnt fragmap (at_ around siz) (at_ inside siz) siz fl;
          acct_siz fuel frag inblk cnt fragmap (siz + 1) fl
      else Ret fl
  end.

(** [cnt] is added to the entry of [fraglist] for every free fragment of the
    block [fragmap]. *)
Definition fragacct (frag fragmap : Z) (fraglist : list Z) (cnt : Z) : outcome (list Z) :=
  t ← rd (fragtbl frag) fragmap;
  acct_siz (S (Z.to_nat frag)) frag (Z.shiftl t 1) cnt (Z.shiftl fragmap 1) 1 fraglist.

(** [scanc(n, &cp[i], table, mask)] and [skpc(mask, n, &cp[i])]: how many bytes are
    left at the first one found. *)
Fixpoint scanc (n : nat) (cp : list Z) (i : Z) (table : list Z) (mask : Z) : outcome Z :=
  match n with
  | O => Ret 0
  | S n' =>
      b ← rd cp i;
      t ← rd table b;
      if Z.land t mask =? 0 then scanc n' cp (i + 1) table mask else Ret (Z.of_nat n)
  end.

Fixpoint skpc (mask : Z) (n : nat) (cp : list Z) (i : Z) : outcome Z :=
  match n with
  | O => Ret 0
  | S n' => b ← rd cp i; if b =? mask then skpc mask n' cp (i + 1) else Ret (Z.of_nat n)
  end.

(** ** Bits of a map *)
Definition bit (map : list Z) (i : Z) : bool := Z.testbit (at_ map (i / NBBY)) (i mod NBBY).
Definition bytes_ok (map : list Z) : Prop := Forall (fun b => 0 <= b < 256) map.
Definition good_frag (frag : Z) : Prop := frag = 1 \/ frag = 2 \/ frag = 4 \/ frag = 8.
Definition full (frag : Z) : Z := Z.ones frag.

(** The fragments of block [h] that are free. *)
Definition bval (frag : Z) (map : list Z) (h : Z) : Z :=
  Z.land (Z.shiftr (at_ map (h * frag / NBBY)) (h * frag mod NBBY)) (full frag).

Ltac frags H := destruct H as [->|[->|[->| ->]]].

Lemma within_spec {A} (l : list A) i : within l i = true <-> 0 <= i < Z.of_nat (length l).
Proof. unfold within. rewrite andb_true_iff, Z.leb_le, Z.ltb_lt. done. Qed.
Lemma at_insert l i j v : within l i = true -> 0 <= j -> at_ (<[Z.to_nat i := v]> l) j = if j =? i then v else at_ l j.
Proof.
  rewrite within_spec. intros H Hj. unfold at_. destruct (Z.eqb_spec j i) as [->|].
  - by rewrite list_lookup_insert_eq by lia.
  - by rewrite list_lookup_insert_ne by lia.
Qed.
Lemma at_byte map i : bytes_ok map -> 0 <= at_ map i < 256.
Proof.
  intros H. unfold at_. destruct (map !! _) eqn:E; cbn; [|lia]. by eapply (Forall_lookup_1 _ _ _ _ H).
Qed.
Lemma rd_ok cp i : 0 <= i < Z.of_nat (length cp) -> rd cp i = Ret (at_ cp i).
Proof. intros H. unfold rd. by rewrite (proj2 (within_spec cp i) H). Qed.
Lemma wr_ok cp i v : 0 <= i < Z.of_nat (length cp) -> wr cp i v = Ret (<[Z.to_nat i := v]> cp).
Proof. intros H. unfold wr. by rewrite (proj2 (within_spec cp i) H). Qed.

Lemma testbit_byte b n : 0 <= b < 256 -> 8 <= n -> Z.testbit b n = false.
Proof.
  intros H Hn. destruct (Z.eq_dec b 0) as [->|]; [apply Z.bits_0|].
  apply Z.bits_above_log2; [lia|]. assert (Z.log2 b < 8); [|lia]. apply Z.log2_lt_pow2; lia.
Qed.
Lemma u8_testbit b n : 0 <= n < 8 -> Z.testbit (u8 b) n = Z.testbit b n.
Proof. intros H. unfold u8. apply Z.mod_pow2_bits_low. lia. Qed.

(** What the operations on single bits do. *)
Lemma isset_ok map i : bytes_ok map -> 0 <= i < 8 * Z.of_nat (length map) -> isset map i = Ret (bit map i).
Proof.
  intros Hb Hi. unfold isset, NBBY. rewrite rd_ok by zdiv. bind. f_equal. unfold bit, NBBY.
  set (b := at_ map (i / 8)). set (n := i mod 8). assert (0 <= n) by (unfold n; zdiv).
  rewrite Z.shiftl_1_l. destruct (Z.testbit b n) eqn:E.
  - destruct (Z.eqb_spec (Z.land b (2 ^ n)) 0) as [E0|]; [|done]. exfalso.
    apply (f_equal (fun z => Z.testbit z n)) in E0. rewrite Z.land_spec, E, Z.pow2_bits_true, Z.bits_0 in E0 by done. done.
  - assert (Z.land b (2 ^ n) = 0) as ->; [|done]. apply Z.bits_inj'. intros k Hk. rewrite Z.land_spec, Z.bits_0, Z.pow2_bits_eqb by done.
    destruct (Z.eqb_spec n k) as [<-|]; [by rewrite E|apply andb_false_r].
Qed.
Lemma isclr_ok map i : bytes_ok map -> 0 <= i < 8 * Z.of_nat (length map) -> isclr map i = Ret (negb (bit map i)).
Proof.
  intros Hb Hi. pose proof (isset_ok map i Hb Hi) as H. unfold isset, isclr in *. unfold NBBY in *. rewrite rd_ok in * by zdiv.
  revert H. bind. intros [= <-]. by rewrite negb_involutive.
Qed.

(** A map whose bits are those of [map] except that [f] gives the ones of block [h]. *)
Definition upd (map map' : list Z) (f : Z -> bool) (P : Z -> bool) : Prop :=
  length map' = length map /\ bytes_ok map' /\ forall j, 0 <= j -> bit map' j = if P j then f j else bit map j.

Lemma wr_bits map i v : bytes_ok map -> 0 <= i < Z.of_nat (length map) ->
  exists map', wr map i (u8 v) = Ret map' /\ upd map map' (fun j => Z.testbit v (j mod 8)) (fun j => j / 8 =? i).
Proof.
  intros Hb Hi. rewrite wr_ok by done. eexists. split; [done|]. split; [by rewrite length_insert|]. split.
  - apply Forall_insert; [done|]. apply u8_range.
  - intros j Hj. unfold bit, NBBY. rewrite at_insert by (rewrite ?within_spec; first [done|zdiv]).
    destruct (Z.eqb_spec (j / 8) i) as [_|]; [|done]. apply u8_testbit. zdiv.
Qed.

Lemma upd_ext (map map' : list Z) (f P g Q : Z -> bool) : upd map map' f P ->
  (forall j, 0 <= j -> (if P j then f j else bit map j) = if Q j then g j else bit map j) -> upd map map' g Q.
Proof. intros (H1 & H2 & H3) H. split; [done|]. split; [done|]. intros j Hj. by rewrite H3, H. Qed.

Lemma setbit_ok map i : bytes_ok map -> 0 <= i < 8 * Z.of_nat (length map) ->
  exists map', setbit map i = Ret map' /\ upd map map' (fun _ => true) (fun j => j =? i).
Proof.
  intros Hb Hi. unfold setbit, NBBY. rewrite rd_ok by zdiv. bind.
  destruct (wr_bits map (i / 8) (Z.lor (at_ map (i / 8)) (Z.shiftl 1 (i mod 8))) Hb) as (m' & -> & H); [zdiv|].
  eexists. split; [done|]. apply (upd_ext _ _ _ _ _ _ H). intros j Hj. rewrite Z.lor_spec, Z.shiftl_1_l, Z.pow2_bits_eqb by zdiv.
  unfold bit, NBBY. destruct (Z.eqb_spec (j / 8) (i / 8)) as [E|E], (Z.eqb_spec j i) as [->|N]; try done.
  - by rewrite Z.eqb_refl, orb_true_r.
  - rewrite E. destruct (Z.eqb_spec (i mod 8) (j mod 8)); [zdiv|]. by rewrite orb_false_r.
Qed.
Lemma clrbit_ok map i : bytes_ok map -> 0 <= i < 8 * Z.of_nat (length map) ->
  exists map', clrbit map i = Ret map' /\ upd map map' (fun _ => false) (fun j => j =? i).
Proof.
  intros Hb Hi. unfold clrbit, NBBY. rewrite rd_ok by zdiv. bind.
  destruct (wr_bits map (i / 8) (Z.land (at_ map (i / 8)) (Z.lnot (Z.shiftl 1 (i mod 8)))) Hb) as (m' & -> & H); [zdiv|].
  eexists. split; [done|]. apply (upd_ext _ _ _ _ _ _ H). intros j Hj.
  rewrite Z.land_spec, Z.lnot_spec, Z.shiftl_1_l, Z.pow2_bits_eqb by zdiv.
  unfold bit, NBBY. destruct (Z.eqb_spec (j / 8) (i / 8)) as [E|E], (Z.eqb_spec j i) as [->|N]; try done.
  - by rewrite Z.eqb_refl, andb_false_r.
  - rewrite E. destruct (Z.eqb_spec (i mod 8) (j mod 8)); [zdiv|]. by rewrite andb_true_r.
Qed.

(** ** Blocks of a map *)

Lemma full_bits frag k : good_frag frag -> 0 <= k -> Z.testbit (full frag) k = (k <? frag).
Proof.
  intros Hf Hk. unfold full. destruct (Z.ltb_spec k frag).
  - apply Z.ones_spec_low. lia.
  - apply Z.ones_spec_high. frags Hf; lia.
Qed.

Lemma full_le frag : good_frag frag -> 1 <= full frag <= 255.
Proof. intros Hf. frags Hf; vm_compute; split; congruence. Qed.

Lemma bval_bits frag map h k : good_frag frag -> 0 <= h -> 0 <= k ->
  Z.testbit (bval frag map h) k = (k <? frag) && bit map (h * frag + k).
Proof.
  intros Hf Hh Hk. unfold bval. rewrite Z.land_spec, full_bits by done. destruct (Z.ltb_spec k frag); [|apply andb_false_r].
  rewrite andb_true_r, andb_true_l, Z.shiftr_spec by done. unfold bit, NBBY.
  replace (h * frag / 8) with ((h * frag + k) / 8) by (frags Hf; zdiv). f_equal. frags Hf; zdiv.
Qed.

Lemma bval_eq frag map h v : good_frag frag -> 0 <= h -> 0 <= v <= full frag ->
  (forall k, 0 <= k < frag -> bit map (h * frag + k) = Z.testbit v k) -> bval frag map h = v.
Proof.
  intros Hf Hh Hv H. apply Z.bits_inj'. intros k Hk. rewrite bval_bits by done.
  destruct (Z.ltb_spec k frag); [by apply H|]. symmetry. destruct (Z.eq_dec v 0) as [->|]; [apply Z.bits_0|].
  apply Z.bits_above_log2; [lia|]. assert (Z.log2 v < frag); [|lia]. apply Z.log2_lt_pow2; [lia|].
  unfold full in Hv. rewrite Z.ones_equiv in Hv. lia.
Qed.
Lemma bval_range frag map h : good_frag frag -> 0 <= bval frag map h <= full frag.
Proof.
  intros Hf. unfold bval, full. rewrite Z.land_ones by (frags Hf; lia). rewrite Z.ones_equiv.
  pose proof (Z.mod_pos_bound (Z.shiftr (at_ map (h * frag / NBBY)) (h * frag mod NBBY)) (2 ^ frag)) as H. frags Hf; lia.
Qed.
Lemma bval_ext frag map map' h : good_frag frag -> 0 <= h ->
  (forall k, 0 <= k < frag -> bit map' (h * frag + k) = bit map (h * frag + k)) -> bval frag map' h = bval frag map h.
Proof.
  intros Hf Hh H. apply bval_eq; [done|done|by apply bval_range|]. intros k Hk. rewrite H, bval_bits by (done || lia).
  by destruct (Z.ltb_spec k frag); [|lia].
Qed.

Lemma blkmap_ok frag map h : good_frag frag -> 0 <= h -> h * frag < 8 * Z.of_nat (length map) ->
  blkmap frag map (h * frag) = Ret (bval frag map h).
Proof.
  intros Hf Hh Hl. unfold blkmap, NBBY. rewrite rd_ok by (frags Hf; zdiv). bind. unfold bval, full, NBBY. by frags Hf.
Qed.

(** Where the block [h] is in the map: the code's index and shift. *)
Lemma place1 h : Z.shiftr h 3 = h * 1 / 8 /\ Z.land h 0x7 = h * 1 mod 8.
Proof.
  split; [rewrite Z.shiftr_div_pow2 by lia; f_equal; lia|]. change 7 with (Z.ones 3). rewrite Z.land_ones by lia. f_equal. lia.
Qed.
Lemma place2 h : Z.shiftr h 2 = h * 2 / 8 /\ Z.shiftl (Z.land h 0x3) 1 = h * 2 mod 8.
Proof.
  split; [rewrite Z.shiftr_div_pow2 by lia; change (2 ^ 2) with 4; zdiv|]. change 3 with (Z.ones 2).
  rewrite Z.land_ones, Z.shiftl_mul_pow2 by lia. change (2 ^ 2) with 4. zdiv.
Qed.
Lemma place4 h : Z.shiftr h 1 = h * 4 / 8 /\ Z.shiftl (Z.land h 0x1) 2 = h * 4 mod 8.
Proof.
  split; [rewrite Z.shiftr_div_pow2 by lia; change (2 ^ 1) with 2; zdiv|]. change 1 with (Z.ones 1).
  rewrite Z.land_ones, Z.shiftl_mul_pow2 by lia. change (2 ^ 1) with 2. zdiv.
Qed.
Ltac place := first
  [rewrite (proj1 (place1 _)), (proj2 (place1 _))|rewrite (proj1 (place2 _)), (proj2 (place2 _))|rewrite (proj1 (place4 _)), (proj2 (place4 _))];
  rewrite rd_ok by zdiv; bind.

(** clrblock and setblock write the byte of the block as the expression for a
    byte with several blocks does. *)
Lemma clrblock_eq frag map h : good_frag frag -> bytes_ok map -> 0 <= h -> h * frag < 8 * Z.of_nat (length map) ->
  clrblock frag map h = wr map (h * frag / 8) (u8 (Z.land (at_ map (h * frag / 8)) (Z.lnot (Z.shiftl (full frag) (h * frag mod 8))))).
Proof.
  intros Hf Hb Hh Hl. unfold clrblock. frags Hf; cbn [Z.eqb Pos.eqb].
  1-3: by place.
  - replace (h * 8 / 8) with h by zdiv. replace (h * 8 mod 8) with 0 by zdiv. f_equal.
    assert (H : 0 <= at_ map h < 256) by by apply at_byte. change (Z.shiftl (full 8) 0) with 255. symmetry.
    assert (Z.land (at_ map h) (Z.lnot 255) = 0) as ->; [|done]. change 255 with (Z.ones 8). rewrite <- Z.ldiff_land, Z.ldiff_ones_r by lia.
    rewrite Z.shiftr_div_pow2, Z.div_small by lia. done.
Qed.
Lemma setblock_eq frag map h : good_frag frag -> bytes_ok map -> 0 <= h -> h * frag < 8 * Z.of_nat (length map) ->
  setblock frag map h = wr map (h * frag / 8) (u8 (Z.lor (at_ map (h * frag / 8)) (Z.shiftl (full frag) (h * frag mod 8)))).
Proof.
  intros Hf Hb Hh Hl. unfold setblock. frags Hf; cbn [Z.eqb Pos.eqb].
  1-3: by place.
  - replace (h * 8 / 8) with h by zdiv. replace (h * 8 mod 8) with 0 by zdiv. f_equal.
    assert (H : 0 <= at_ map h < 256) by by apply at_byte. change (Z.shiftl (full 8) 0) with (Z.ones 8). symmetry.
    assert (Z.lor (at_ map h) (Z.ones 8) = Z.ones 8) as ->; [|done]. apply Z.lor_ones_low; [lia|].
    destruct (Z.eq_dec (at_ map h) 0) as [->|]; [done|]. apply Z.log2_lt_pow2; lia.
Qed.

Lemma block_bits frag h j : good_frag frag -> 0 <= h -> 0 <= j -> j / 8 = h * frag / 8 ->
  Z.testbit (Z.shiftl (full frag) (h * frag mod 8)) (j mod 8) = (j / frag =? h).
Proof.
  intros Hf Hh Hj E. rewrite Z.shiftl_spec by zdiv. destruct (Z.ltb_spec (j mod 8) (h * frag mod 8)).
  - rewrite Z.testbit_neg_r by lia. destruct (Z.eqb_spec (j / frag) h); [|done]. subst h. frags Hf; zdiv.
  - rewrite full_bits by (done || lia). destruct (Z.ltb_spec (j mod 8 - h * frag mod 8) frag), (Z.eqb_spec (j / frag) h); try done; exfalso.
    + apply n. frags Hf; zdiv.
    + subst h. frags Hf; zdiv.
Qed.

Lemma clrblock_ok frag map h : good_frag frag -> bytes_ok map -> 0 <= h -> h * frag < 8 * Z.of_nat (length map) ->
  exists map', clrblock frag map h = Ret map' /\ upd map map' (fun _ => false) (fun j => j / frag =? h).
Proof.
  intros Hf Hb Hh Hl. rewrite clrblock_eq by done.
  destruct (wr_bits map (h * frag / 8) (Z.land (at_ map (h * frag / 8)) (Z.lnot (Z.shiftl (full frag) (h * frag mod 8)))) Hb) as (m' & -> & H); [frags Hf; zdiv|].
  eexists. split; [done|]. apply (upd_ext _ _ _ _ _ _ H). intros j Hj. rewrite Z.land_spec, Z.lnot_spec by zdiv.
  destruct (Z.eqb_spec (j / 8) (h * frag / 8)) as [E|E].
  - rewrite block_bits by done. unfold bit, NBBY. rewrite E. destruct (j / frag =? h); [apply andb_false_r|apply andb_true_r].
  - destruct (Z.eqb_spec (j / frag) h) as [<-|]; [|done]. exfalso. apply E. frags Hf; zdiv.
Qed.
Lemma setblock_ok frag map h : good_frag frag -> bytes_ok map -> 0 <= h -> h * frag < 8 * Z.of_nat (length map) ->
  exists map', setblock frag map h = Ret map' /\ upd map map' (fun _ => true) (fun j => j / frag =? h).
Proof.
  intros Hf Hb Hh Hl. rewrite setblock_eq by done.
  destruct (wr_bits map (h * frag / 8) (Z.lor (at_ map (h * frag / 8)) (Z.shiftl (full frag) (h * frag mod 8))) Hb) as (m' & -> & H); [frags Hf; zdiv|].
  eexists. split; [done|]. apply (upd_ext _ _ _ _ _ _ H). intros j Hj. rewrite Z.lor_spec.
  destruct (Z.eqb_spec (j / 8) (h * frag / 8)) as [E|E].
  - rewrite block_bits by done. unfold bit, NBBY. rewrite E. destruct (j / frag =? h); [apply orb_true_r|apply orb_false_r].
  - destruct (Z.eqb_spec (j / frag) h) as [<-|]; [|done]. exfalso. apply E. frags Hf; zdiv.
Qed.

Lemma land_mask b m n : 0 <= n -> (Z.land b (Z.shiftl m n) =? Z.shiftl m n) = (Z.land (Z.shiftr b n) m =? m).
Proof.
  intros Hn. assert (E : Z.land b (Z.shiftl m n) = Z.shiftl (Z.land (Z.shiftr b n) m) n).
  { apply Z.bits_inj'. intros k Hk. rewrite Z.land_spec, !Z.shiftl_spec, Z.land_spec by done. destruct (Z.ltb_spec k n).
    - rewrite (Z.testbit_neg_r m), (Z.testbit_neg_r (Z.shiftr b n)) by lia. by rewrite andb_false_r.
    - rewrite Z.shiftr_spec by lia. by replace (k - n + n) with k by lia. }
  rewrite E. destruct (Z.eqb_spec (Z.land (Z.shiftr b n) m) m) as [->|N]; [apply Z.eqb_refl|].
  apply Z.eqb_neq. intros H. apply N. rewrite !Z.shiftl_mul_pow2 in H by done. nia.
Qed.

Lemma small_mask frag n : 0 <= n /\ n + frag <= 8 /\ 0 <= frag -> u8 (Z.shiftl (Z.ones frag) n) = Z.shiftl (Z.ones frag) n.
Proof.
  intros (H1 & H2 & H3). apply u8_small. rewrite Z.shiftl_mul_pow2, Z.ones_equiv by done.
  assert (2 ^ frag * 2 ^ n <= 2 ^ 8) by (rewrite <- Z.pow_add_r by done; apply Z.pow_le_mono_r; lia).
  assert (0 < 2 ^ frag) by lia. assert (0 < 2 ^ n) by lia. nia.
Qed.

Lemma isblock_ok frag map h : good_frag frag -> bytes_ok map -> 0 <= h -> h * frag < 8 * Z.of_nat (length map) ->
  isblock frag map h = Ret (bval frag map h =? full frag).
Proof.
  intros Hf Hb Hh Hl. unfold isblock, bval, NBBY.
  frags Hf; cbn [Z.eqb Pos.eqb].
  - place. rewrite (small_mask 1) by zdiv. by rewrite land_mask by zdiv.
  - place. rewrite (small_mask 2) by zdiv. by rewrite land_mask by zdiv.
  - place. rewrite (small_mask 4) by zdiv. by rewrite land_mask by zdiv.
  - rewrite rd_ok by lia. bind. f_equal. replace (h * 8 / 8) with h by zdiv. replace (h * 8 mod 8) with 0 by zdiv. rewrite Z.shiftr_0_r.
    assert (H : 0 <= at_ map h < 256) by by apply at_byte. unfold full. rewrite Z.land_ones, Z.mod_small by lia. done.
Qed.

(** ** Free fragments of a block

    A free fragment of size [s] is a maximal run of [s] free bits in a block. *)
Definition cnt (f : Z -> bool) (l : list Z) : Z := foldr (fun x n => (if f x then 1 else 0) + n) 0 l.
Definition is_run (frag v s k : Z) : bool :=
  (0 <=? k) && (k + s <=? frag) && forallb (fun j => Z.testbit v (k + j)) (seqZ 0 s) &&
  negb ((0 <? k) && Z.testbit v (k - 1)) && negb (Z.testbit v (k + s)).
Definition nruns (frag v s : Z) : Z := cnt (is_run frag v s) (seqZ 0 frag).
(** The free fragments of a block that is not free as a whole. *)
Definition nfree (frag v : Z) : Z := if v =? full frag then 0 else cnt (Z.testbit v) (seqZ 0 frag).

(** Facts about all blocks are decided by evaluation. *)
Definition below (n : Z) (P : Z -> bool) : bool := forallb P (seqZ 0 n).
Lemma below_spec n P : below n P = true -> forall x, 0 <= x < n -> P x = true.
Proof.
  intros H x Hx. unfold below in H. rewrite forallb_forall in H. apply H. apply list_elem_of_In, elem_of_seqZ. lia.
Qed.
Definition all_blocks (P : Z -> Z -> bool) : bool := forallb (fun frag => below (full frag + 1) (P frag)) [1; 2; 4; 8].
Lemma all_blocks_spec P : all_blocks P = true -> forall frag v, good_frag frag -> 0 <= v <= full frag -> P frag v = true.
Proof.
  intros H frag v Hf Hv. unfold all_blocks in H. rewrite forallb_forall in H. apply (below_spec (full frag + 1)); [|lia].
  apply H. frags Hf; cbn; tauto.
Qed.

(** What fragacct counts. *)
Fixpoint cnt_pos (fuel : nat) (frag siz fragmap field subfield pos : Z) : Z :=
  match fuel with
  | O => 0
  | S fuel =>
      if pos <=? frag then
        if Z.land fragmap field =? subfield
        then 1 + cnt_pos fuel frag siz fragmap (Z.shiftl (Z.shiftl field siz) 1) (Z.shiftl (Z.shiftl subfield siz) 1) (pos + siz + 1)
        else cnt_pos fuel frag siz fragmap (Z.shiftl field 1) (Z.shiftl subfield 1) (pos + 1)
      else 0
  end.
Definition cnt_siz (frag v siz : Z) : Z :=
  if Z.land (Z.shiftl (at_ (fragtbl frag) v) 1) (Z.shiftl 1 (siz + frag mod NBBY)) =? 0 then 0
  else cnt_pos (S (Z.to_nat frag)) frag siz (Z.shiftl v 1) (at_ around siz) (at_ inside siz) siz.

Lemma cnt_siz_runs frag v s : good_frag frag -> 0 <= v <= full frag -> 1 <= s < frag -> cnt_siz frag v s = nruns frag v s.
Proof.
  intros Hf Hv Hs.
  assert (H : below 9 (fun s => (s <? 1) || (frag <=? s) || (cnt_siz frag v s =? nruns frag v s)) = true).
  { clear Hs. revert frag v Hf Hv. apply (all_blocks_spec (fun frag v => below 9 (fun s => (s <? 1) || (frag <=? s) || (cnt_siz frag v s =? nruns frag v s)))).
    vm_compute. reflexivity. }
  apply (below_spec _ _) with (x := s) in H; [|frags Hf; lia]. cbv beta in H.
  destruct (Z.ltb_spec s 1), (Z.leb_spec frag s), (Z.eqb_spec (cnt_siz frag v s) (nruns frag v s)); cbn in H; try done; lia.
Qed.

Lemma acct_pos_ok frag siz d fragmap : forall fuel field subfield pos fl, 1 <= siz -> (1 <= Z.of_nat fuel /\ frag - pos + 1 < Z.of_nat fuel) -> 0 <= siz < Z.of_nat (length fl) ->
  acct_pos fuel frag siz d fragmap field subfield pos fl =
    Ret (<[Z.to_nat siz := at_ fl siz + d * cnt_pos fuel frag siz fragmap field subfield pos]> fl).
Proof.
  assert (Hid : forall fl, 0 <= siz < Z.of_nat (length fl) -> <[Z.to_nat siz := at_ fl siz + d * 0]> fl = fl).
  { intros fl H. apply list_insert_id. unfold at_. destruct (lookup_lt_is_Some_2 fl (Z.to_nat siz)) as [x E]; [lia|].
    rewrite E. cbn. f_equal. lia. }
  induction fuel as [|fuel IH]; intros field subfield pos fl H1 H2 H3; [lia|]. cbn [acct_pos cnt_pos].
  destruct (Z.leb_spec pos frag); [|by rewrite Hid]. destruct (_ =? _).
  - rewrite rd_ok by done. bind. rewrite wr_ok by done. bind. rewrite IH by (rewrite ?length_insert; lia).
    rewrite list_insert_insert_eq, at_insert by (rewrite ?within_spec; lia). rewrite Z.eqb_refl. do 2 f_equal. lia.
  - by rewrite IH by lia.
Qed.

Lemma acct_siz_ok frag inblk d v : good_frag frag -> 0 <= v <= full frag -> inblk = Z.shiftl (at_ (fragtbl frag) v) 1 ->
  forall fuel siz fl, 1 <= siz <= frag -> frag - siz < Z.of_nat fuel -> frag <= Z.of_nat (length fl) ->
  exists fl', acct_siz fuel frag inblk d (Z.shiftl v 1) siz fl = Ret fl' /\ length fl' = length fl /\
    forall s, 0 <= s -> at_ fl' s = at_ fl s + (if (siz <=? s) && (s <? frag) then d * nruns frag v s else 0).
Proof.
  intros Hf Hv ->. induction fuel as [|fuel IH]; intros siz fl H1 H2 H3; [lia|]. cbn [acct_siz].
  destruct (Z.ltb_spec siz frag).
  - assert (Hstep : exists fl1, (if Z.land (Z.shiftl (at_ (fragtbl frag) v) 1) (Z.shiftl 1 (siz + frag mod NBBY)) =? 0 then Ret fl
      else acct_pos (S (Z.to_nat frag)) frag siz d (Z.shiftl v 1) (at_ around siz) (at_ inside siz) siz fl) = Ret fl1 /\
      length fl1 = length fl /\ forall s, 0 <= s -> at_ fl1 s = at_ fl s + if s =? siz then d * nruns frag v siz else 0).
    { rewrite <- cnt_siz_runs by (done || lia). unfold cnt_siz. destruct (_ =? 0).
      - exists fl. split; [done|]. split; [done|]. intros s Hs. destruct (s =? siz); lia.
      - rewrite acct_pos_ok by lia. eexists. split; [done|]. split; [apply length_insert|]. intros s Hs.
        rewrite at_insert by (rewrite ?within_spec; lia). destruct (Z.eqb_spec s siz) as [->|]; lia. }
    destruct Hstep as (fl1 & E1 & Hl1 & Hs1). destruct (IH (siz + 1) fl1) as (fl2 & E2 & Hl2 & Hs2); [lia|lia|lia|].
    exists fl2. split; [|split; [lia|]].
    + destruct (_ =? 0); [injection E1 as ->; exact E2|]. rewrite E1. exact E2.
    + intros s Hs. rewrite Hs2, Hs1 by done. destruct (Z.leb_spec (siz + 1) s), (Z.leb_spec siz s), (Z.ltb_spec s frag), (Z.eqb_spec s siz) as [->|]; cbn [andb]; lia.
  - exists fl. split; [done|]. split; [done|]. intros s Hs. destruct (Z.leb_spec siz s), (Z.ltb_spec s frag); cbn [andb]; lia.
Qed.

(** fragacct counts the free fragments of the block, of every size below a whole block. *)
Lemma fragacct_ok frag v fl d : good_frag frag -> 0 <= v <= full frag -> frag <= Z.of_nat (length fl) ->
  exists fl', fragacct frag v fl d = Ret fl' /\ length fl' = length fl /\
    forall s, 0 <= s -> at_ fl' s = at_ fl s + (if (1 <=? s) && (s <? frag) then d * nruns frag v s else 0).
Proof.
  intros Hf Hv Hl. unfold fragacct. rewrite rd_ok; [bind; apply acct_siz_ok; try done; frags Hf; lia|].
  assert (length (fragtbl frag) = 256%nat) as -> by by frags Hf. pose proof (full_le frag Hf). lia.
Qed.

(** ** The search for a free fragment *)
Fixpoint find_pos (n : nat) (blk field subfield pos : Z) : option Z :=
  match n with
  | O => None
  | S n => if Z.land blk field =? subfield then Some pos else find_pos n blk (Z.shiftl field 1) (Z.shiftl subfield 1) (pos + 1)
  end.
Definition frag_pos (frag v s : Z) : option Z :=
  find_pos (Z.to_nat (frag - s + 1)) (Z.shiftl v 1) (at_ around s) (at_ inside s) 0.

Lemma frag_pos_ok frag v s : good_frag frag -> 0 <= v <= full frag -> 1 <= s <= frag ->
  match frag_pos frag v s with Some k => is_run frag v s k = true /\ 0 <= k /\ k + s <= frag | None => nruns frag v s = 0 end.
Proof.
  intros Hf Hv Hs.
  set (P := fun frag v => below 9 (fun s => (s <? 1) || (frag <? s) ||
    match frag_pos frag v s with Some k => is_run frag v s k && (0 <=? k) && (k + s <=? frag) | None => nruns frag v s =? 0 end)).
  assert (H : P frag v = true) by (clear Hs; revert frag v Hf Hv; apply (all_blocks_spec P); vm_compute; reflexivity).
  apply (below_spec _ _) with (x := s) in H; [|frags Hf; lia]. cbv beta in H.
  destruct (Z.ltb_spec s 1), (Z.ltb_spec frag s); try lia. cbn [orb] in H. destruct (frag_pos frag v s).
  - rewrite !andb_true_iff, !Z.leb_le in H. tauto.
  - by apply Z.eqb_eq.
Qed.

(** What the tables say of a byte of the map. *)
Definition tbl_has (frag b s : Z) : bool :=
  negb (Z.land (at_ (fragtbl frag) b) (u8 (Z.shiftl 1 (s - 1 + frag mod NBBY))) =? 0).
Definition byte_has (frag b s : Z) : bool :=
  existsb (fun j => 0 <? nruns frag (Z.land (Z.shiftr b (j * frag)) (full frag)) s) (seqZ 0 (8 / frag)).

Lemma tbl_has_ok frag b s : good_frag frag -> 0 <= b < 256 -> 1 <= s <= frag -> tbl_has frag b s = byte_has frag b s.
Proof.
  intros Hf Hb Hs.
  assert (H : below 256 (fun b => below 9 (fun s => (s <? 1) || (frag <? s) || Bool.eqb (tbl_has frag b s) (byte_has frag b s))) = true)
    by (clear Hs; frags Hf; vm_compute; reflexivity).
  apply (below_spec _ _) with (x := b) in H; [|done]. cbv beta in H. apply (below_spec _ _) with (x := s) in H; [|frags Hf; lia]. cbv beta in H.
  destruct (Z.ltb_spec s 1), (Z.ltb_spec frag s); try lia. cbn [orb] in H. by apply Bool.eqb_prop.
Qed.

Lemma scanc_ok cp table mask : bytes_ok cp -> length table = 256%nat -> forall n i, 0 <= i -> i + Z.of_nat n <= Z.of_nat (length cp) ->
  exists r, scanc n cp i table mask = Ret r /\ 0 <= r <= Z.of_nat n /\
    (forall j, i <= j < i + Z.of_nat n - r -> Z.land (at_ table (at_ cp j)) mask = 0) /\
    (r <> 0 -> Z.land (at_ table (at_ cp (i + Z.of_nat n - r))) mask <> 0).
Proof.
  intros Hb Ht. induction n as [|n IH]; intros i Hi Hn; [exists 0; cbn; split; [done|]; split; [lia|]; split; [lia|done]|].
  cbn [scanc]. rewrite rd_ok by lia. bind. pose proof (at_byte cp i Hb) as Hbi. rewrite rd_ok by lia. bind.
  destruct (Z.eqb_spec (Z.land (at_ table (at_ cp i)) mask) 0) as [E|E].
  - destruct (IH (i + 1)) as (r & -> & Hr & H1 & H2); [lia|lia|]. exists r. split; [done|]. split; [lia|]. split.
    + intros j Hj. destruct (Z.eq_dec j i) as [->|]; [done|]. apply H1. lia.
    + intros Hr0. replace (i + Z.of_nat (S n) - r) with (i + 1 + Z.of_nat n - r) by lia. by apply H2.
  - exists (Z.of_nat (S n)). split; [done|]. split; [lia|]. split; [lia|]. intros _. by replace (i + Z.of_nat (S n) - Z.of_nat (S n)) with i by lia.
Qed.

Lemma skpc_ok cp mask : forall n i, 0 <= i -> i + Z.of_nat n <= Z.of_nat (length cp) ->
  exists r, skpc mask n cp i = Ret r /\ 0 <= r <= Z.of_nat n /\
    (forall j, i <= j < i + Z.of_nat n - r -> at_ cp j = mask) /\ (r <> 0 -> at_ cp (i + Z.of_nat n - r) <> mask).
Proof.
  induction n as [|n IH]; intros i Hi Hn; [exists 0; cbn; split; [done|]; split; [lia|]; split; [lia|done]|].
  cbn [skpc]. rewrite rd_ok by lia. bind. destruct (Z.eqb_spec (at_ cp i) mask) as [E|E].
  - destruct (IH (i + 1)) as (r & -> & Hr & H1 & H2); [lia|lia|]. exists r. split; [done|]. split; [lia|]. split.
    + intros j Hj. destruct (Z.eq_dec j i) as [->|]; [done|]. apply H1. lia.
    + intros Hr0. replace (i + Z.of_nat (S n) - r) with (i + 1 + Z.of_nat n - r) by lia. by apply H2.
  - exists (Z.of_nat (S n)). split; [done|]. split; [lia|]. split; [lia|]. intros _. by replace (i + Z.of_nat (S n) - Z.of_nat (S n)) with i by lia.
Qed.

(** ** Runs of bits *)
Definition ranged (i n j : Z) : bool := (i <=? j) && (j <? i + n).

Fixpoint setbits (n : nat) (a : list Z) (i : Z) : outcome (list Z) :=
  match n with O => Ret a | S n => a ← setbit a i; setbits n a (i + 1) end.
Fixpoint clrbits (n : nat) (a : list Z) (i : Z) : outcome (list Z) :=
  match n with O => Ret a | S n => a ← clrbit a i; clrbits n a (i + 1) end.

Lemma ranged_step i n j : ranged i (Z.of_nat (S n)) j = (j =? i) || ranged (i + 1) (Z.of_nat n) j.
Proof.
  unfold ranged. destruct (Z.leb_spec i j), (Z.ltb_spec j (i + Z.of_nat (S n))), (Z.eqb_spec j i), (Z.leb_spec (i + 1) j), (Z.ltb_spec j (i + 1 + Z.of_nat n)); cbn; (done || lia).
Qed.
Lemma ranged_nil i j : ranged i (Z.of_nat 0) j = false.
Proof. unfold ranged. destruct (Z.leb_spec i j), (Z.ltb_spec j (i + Z.of_nat 0)); cbn; (done || lia). Qed.

Lemma upd_refl map : bytes_ok map -> forall f, upd map map f (fun _ => false).
Proof. intros H f. by split. Qed.
Lemma upd_trans m1 m2 m3 b P Q : upd m1 m2 (fun _ => b) P -> upd m2 m3 (fun _ => b) Q -> upd m1 m3 (fun _ => b) (fun j => P j || Q j).
Proof.
  intros (H1 & H2 & H3) (H4 & H5 & H6). split; [congruence|]. split; [done|]. intros j Hj. rewrite H6, H3 by done.
  by destruct (P j), (Q j).
Qed.

Lemma setbits_ok : forall n a i, bytes_ok a -> 0 <= i -> i + Z.of_nat n <= 8 * Z.of_nat (length a) ->
  exists a', setbits n a i = Ret a' /\ upd a a' (fun _ => true) (ranged i (Z.of_nat n)).
Proof.
  induction n as [|n IH]; intros a i Hb Hi Hn; cbn [setbits].
  - exists a. split; [done|]. apply (upd_ext _ _ _ _ _ _ (upd_refl a Hb (fun _ => true))). intros j _. by rewrite ranged_nil.
  - destruct (setbit_ok a i Hb) as (a1 & -> & H1); [lia|]. bind. destruct (IH a1 (i + 1)) as (a2 & -> & H2); [apply H1|lia|rewrite (proj1 H1); lia|].
    exists a2. split; [done|]. apply (upd_ext _ _ _ _ _ _ (upd_trans _ _ _ _ _ _ H1 H2)). intros j _. by rewrite ranged_step.
Qed.
Lemma clrbits_ok : forall n a i, bytes_ok a -> 0 <= i -> i + Z.of_nat n <= 8 * Z.of_nat (length a) ->
  exists a', clrbits n a i = Ret a' /\ upd a a' (fun _ => false) (ranged i (Z.of_nat n)).
Proof.
  induction n as [|n IH]; intros a i Hb Hi Hn; cbn [clrbits].
  - exists a. split; [done|]. apply (upd_ext _ _ _ _ _ _ (upd_refl a Hb (fun _ => false))). intros j _. by rewrite ranged_nil.
  - destruct (clrbit_ok a i Hb) as (a1 & -> & H1); [lia|]. bind. destruct (IH a1 (i + 1)) as (a2 & -> & H2); [apply H1|lia|rewrite (proj1 H1); lia|].
    exists a2. split; [done|]. apply (upd_ext _ _ _ _ _ _ (upd_trans _ _ _ _ _ _ H1 H2)). intros j _. by rewrite ranged_step.
Qed.

(** ** What taking and giving back fragments does to a block *)
Definition mask (k n : Z) : Z := Z.shiftl (Z.ones n) k.

Lemma mask_bits k n j : 0 <= k -> 0 <= n -> 0 <= j -> Z.testbit (mask k n) j = ranged k n j.
Proof.
  intros Hk Hn Hj. unfold mask, ranged. rewrite Z.shiftl_spec by done. destruct (Z.leb_spec k j); cbn [andb]; [|apply Z.testbit_neg_r; lia].
  destruct (Z.ltb_spec j (k + n)); [apply Z.ones_spec_low; lia|apply Z.ones_spec_high; lia].
Qed.

Definition take_check (frag v : Z) : bool :=
  forallb (fun s => forallb (fun k => if negb (is_run frag v s k) then true else forallb (fun f =>
    let y := Z.ldiff v (mask k f) in
    (y <=? full frag) && (0 <=? y) && negb (y =? full frag) && (nfree frag y =? nfree frag v - f) &&
    forallb (fun t => nruns frag y t =? nruns frag v t - (if t =? s then 1 else 0) + (if t =? s - f then 1 else 0)) (seqZ 1 (frag - 1)))
    (seqZ 1 s)) (seqZ 0 frag)) (seqZ 1 (frag - 1)).

Lemma forallb_seqZ f a n : forallb f (seqZ a n) = true -> forall x, a <= x < a + n -> f x = true.
Proof. intros H x Hx. rewrite forallb_forall in H. apply H, list_elem_of_In, elem_of_seqZ. lia. Qed.

Lemma take_facts frag v s k f : good_frag frag -> 0 <= v <= full frag -> is_run frag v s k = true -> 1 <= f <= s -> s < frag ->
  let y := Z.ldiff v (mask k f) in
  0 <= y <= full frag /\ v <> full frag /\ y <> full frag /\ nfree frag y = nfree frag v - f /\
  forall t, 1 <= t < frag -> nruns frag y t = nruns frag v t - (if t =? s then 1 else 0) + (if t =? s - f then 1 else 0).
Proof.
  intros Hf Hv Hr Hfs Hs y.
  assert (H : take_check frag v = true) by (refine (all_blocks_spec take_check _ frag v Hf Hv); vm_compute; reflexivity).
  assert (0 <= k /\ k + s <= frag) by (unfold is_run in Hr; rewrite !andb_true_iff, !Z.leb_le in Hr; tauto).
  apply (forallb_seqZ _ _ _) with (x := s) in H; [|lia]. cbv beta in H. apply (forallb_seqZ _ _ _) with (x := k) in H; [|lia]. cbv beta in H.
  rewrite Hr in H. cbn [negb] in H. apply (forallb_seqZ _ _ _) with (x := f) in H; [|lia].
  cbv zeta in H. rewrite !andb_true_iff, !Z.leb_le, negb_true_iff, Z.eqb_neq, Z.eqb_eq in H. fold y in H.
  destruct H as ((((H1 & H2) & H3) & H4) & H5).
  split; [lia|]. split; [|split; [done|]; split; [done|]].
  - intros ->. unfold is_run in Hr. rewrite !andb_true_iff, !negb_true_iff in Hr. destruct Hr as [[_ Hr] Hr'].
    rewrite full_bits in Hr' by (done || lia). apply Z.ltb_ge in Hr'. destruct (Z.ltb_spec 0 k); [|lia].
    rewrite full_bits in Hr by (done || lia). cbn [andb] in Hr. apply Z.ltb_ge in Hr. lia.
  - intros t Ht. apply Z.eqb_eq. by apply (forallb_seqZ _ _ _ H5); lia.
Qed.

Definition give_check (frag v : Z) : bool :=
  forallb (fun k => forallb (fun f =>
    if negb (Z.land v (mask k f) =? 0) || (frag <? k + f) then true
    else
      let y := Z.lor v (mask k f) in
      (0 <=? y) && (y <=? full frag) && negb (v =? full frag) && (nfree frag y + (if y =? full frag then frag else 0) =? nfree frag v + f))
    (seqZ 1 frag)) (seqZ 0 frag).

Lemma give_facts frag v k f : good_frag frag -> 0 <= v <= full frag -> 0 <= k -> 1 <= f -> k + f <= frag ->
  (forall j, k <= j < k + f -> Z.testbit v j = false) ->
  let y := Z.lor v (mask k f) in
  0 <= y <= full frag /\ v <> full frag /\ nfree frag y + (if y =? full frag then frag else 0) = nfree frag v + f.
Proof.
  intros Hf Hv Hk Hf1 Hkf Hc y.
  assert (H : give_check frag v = true) by (refine (all_blocks_spec give_check _ frag v Hf Hv); vm_compute; reflexivity).
  unfold give_check in H. apply (forallb_seqZ _ _ _) with (x := k) in H; [|lia]. cbv beta in H.
  apply (forallb_seqZ _ _ _) with (x := f) in H; [|lia]. cbv beta zeta in H.
  assert (Z.land v (mask k f) = 0) as E.
  { apply Z.bits_inj'. intros j Hj. rewrite Z.land_spec, mask_bits, Z.bits_0 by lia. unfold ranged.
    destruct (Z.leb_spec k j), (Z.ltb_spec j (k + f)); cbn [andb]; [|apply andb_false_r..]. by rewrite Hc by lia. }
  rewrite E in H. destruct (Z.ltb_spec frag (k + f)); [lia|]. cbn [Z.eqb negb orb] in H.
  rewrite !andb_true_iff, !Z.leb_le, negb_true_iff, Z.eqb_neq, Z.eqb_eq in H. fold y in H. tauto.
Qed.

(** A whole block, no block, and a block of which the first [f] fragments are taken. *)
Lemma full_facts frag : good_frag frag ->
  0 <> full frag /\ nfree frag (full frag) = 0 /\ nfree frag 0 = 0 /\
  (forall t, 1 <= t < frag -> nruns frag (full frag) t = 0 /\ nruns frag 0 t = 0) /\
  (forall f, 1 <= f < frag -> let y := mask f (frag - f) in 0 <= y <= full frag /\ y <> full frag /\ nfree frag y = frag - f /\
    forall t, 1 <= t < frag -> nruns frag y t = if t =? frag - f then 1 else 0).
Proof.
  intros Hf.
  assert (H : forallb (fun t => (nruns frag (full frag) t =? 0) && (nruns frag 0 t =? 0)) (seqZ 1 (frag - 1)) = true) by (by frags Hf).
  assert (H' : forallb (fun f => let y := mask f (frag - f) in (0 <=? y) && (y <=? full frag) && negb (y =? full frag) && (nfree frag y =? frag - f) &&
    forallb (fun t => nruns frag y t =? if t =? frag - f then 1 else 0) (seqZ 1 (frag - 1))) (seqZ 1 (frag - 1)) = true) by (by frags Hf).
  split; [by frags Hf|]. split; [by frags Hf|]. split; [by frags Hf|]. split.
  - intros t Ht. apply (forallb_seqZ _ _ _) with (x := t) in H; [|lia]. cbv beta in H. rewrite andb_true_iff, !Z.eqb_eq in H. tauto.
  - intros f Hf'. apply (forallb_seqZ _ _ _) with (x := f) in H'; [|lia]. cbv beta zeta in H'.
    rewrite !andb_true_iff, !Z.leb_le, negb_true_iff, Z.eqb_neq, Z.eqb_eq in H'. destruct H' as ((((H1 & H2) & H3) & H4) & H5).
    split; [done|]. split; [done|]. split; [done|]. intros t Ht. apply Z.eqb_eq. apply (forallb_seqZ _ _ _ H5). lia.
Qed.

(** Free bits in a row are part of a free fragment. *)
Definition run_check (frag v : Z) : bool :=
  forallb (fun k => forallb (fun n =>
    if negb (Z.land v (mask k n) =? mask k n) || (frag <? k + n) then true
    else existsb (fun t => 0 <? nruns frag v t) (seqZ n (frag - n + 1))) (seqZ 1 frag)) (seqZ 0 frag).
Lemma mask_land v k n : 0 <= k -> 0 <= n -> (forall j, k <= j < k + n -> Z.testbit v j = true) -> Z.land v (mask k n) = mask k n.
Proof.
  intros Hk Hn Hb. apply Z.bits_inj'. intros j Hj. rewrite Z.land_spec, mask_bits by lia. unfold ranged.
  destruct (Z.leb_spec k j), (Z.ltb_spec j (k + n)); cbn [andb]; rewrite ?andb_false_r; try done. by rewrite Hb.
Qed.
Lemma run_exists frag v k n : good_frag frag -> 0 <= v <= full frag -> 0 <= k -> 1 <= n -> k + n <= frag ->
  (forall j, k <= j < k + n -> Z.testbit v j = true) -> exists t, n <= t <= frag /\ 0 < nruns frag v t.
Proof.
  intros Hf Hv Hk Hn Hkn Hb.
  assert (H : run_check frag v = true) by (refine (all_blocks_spec run_check _ frag v Hf Hv); vm_compute; reflexivity).
  unfold run_check in H. apply (forallb_seqZ _ _ _) with (x := k) in H; [|lia]. cbv beta in H.
  apply (forallb_seqZ _ _ _) with (x := n) in H; [|lia]. cbv beta in H.
  rewrite (mask_land v k n), Z.eqb_refl in H by (done || lia). destruct (Z.ltb_spec frag (k + n)); [lia|]. cbn [negb orb] in H. rewrite existsb_exists in H.
  destruct H as (t & Ht & Hr). apply list_elem_of_In, elem_of_seqZ in Ht. apply Z.ltb_lt in Hr. exists t. split; [lia|done].
Qed.
Lemma cnt_nonneg f l : 0 <= cnt f l.
Proof. unfold cnt. induction l as [|x l IH]; cbn [foldr]; [done|]. destruct (f x); lia. Qed.
Lemma nruns_nonneg frag v s : 0 <= nruns frag v s.
Proof. apply cnt_nonneg. Qed.
Lemma nfree_nonneg frag v : 0 <= nfree frag v.
Proof. unfold nfree. destruct (_ =? _); [done|]. apply cnt_nonneg. Qed.

(** Free fragments of a block that is not whole are counted. *)
Definition free_check (frag v : Z) : bool :=
  forallb (fun k => forallb (fun n =>
    if negb (Z.land v (mask k n) =? mask k n) || (frag <? k + n) || (v =? full frag) then true else n <=? nfree frag v) (seqZ 1 frag)) (seqZ 0 frag).
Lemma nfree_ge frag v k n : good_frag frag -> 0 <= v <= full frag -> v <> full frag -> 0 <= k -> 1 <= n -> k + n <= frag ->
  (forall j, k <= j < k + n -> Z.testbit v j = true) -> n <= nfree frag v.
Proof.
  intros Hf Hv Hne Hk Hn Hkn Hb.
  assert (H : free_check frag v = true) by (refine (all_blocks_spec free_check _ frag v Hf Hv); vm_compute; reflexivity).
  unfold free_check in H. apply (forallb_seqZ _ _ _) with (x := k) in H; [|lia]. cbv beta in H.
  apply (forallb_seqZ _ _ _) with (x := n) in H; [|lia]. cbv beta in H.
  rewrite (mask_land v k n), Z.eqb_refl in H by (done || lia).
  destruct (Z.ltb_spec frag (k + n)); [lia|]. rewrite (proj2 (Z.eqb_neq _ _) Hne) in H. by apply Z.leb_le.
Qed.

(** C7: fragacct, which reads the run lengths of a block from a table of bytes and
    finds the positions by masks, adds [d] to the count of every length [1 .. frag - 1]
    as often as a maximal run of that length occurs in the block, for every block
    size and every pattern of free fragments, and touches no other count. *)
Theorem fragacct_spec frag v fraglist d : good_frag frag -> 0 <= v <= full frag -> frag <= Z.of_nat (length fraglist) ->
  exists fraglist', fragacct frag v fraglist d = Ret fraglist' /\ length fraglist' = length fraglist /\
    forall s, 0 <= s -> at_ fraglist' s = at_ fraglist s + (if (1 <=? s) && (s <? frag) then d * nruns frag v s else 0).
Proof. apply fragacct_ok. Qed.
Lemma fragacct_spec_witness : exists fl, fragacct 8 0xb7 [0; 5; 0; 0; 0; 0; 0; 0] (-1) = Ret fl /\ at_ fl 1 = 4 /\ at_ fl 2 = -1 /\ at_ fl 3 = -1.
Proof.
  destruct (fragacct_spec 8 0xb7 [0; 5; 0; 0; 0; 0; 0; 0] (-1)) as (fl & E & _ & H); [by right; right; right|by vm_compute|by vm_compute|].
  exists fl. split; [exact E|]. rewrite !H by lia. vm_compute. by splits.
Defined.
End FfsMap.
