(* ===== verification/Ffs.v ===== *)
(** Allocation in the fast file system, sys/ufs/ufs_alloc.c: blocks and fragments
    (alloc, realloccg, alloccg, alloccgblk, fragextend, mapsearch, blkfree), with
    the choice of a cylinder group (hashalloc) and of a place (blkpref).

    [superblock] holds the fields of the super block that do not change while the
    file system is mounted, [mount] the others, with the cylinder groups on the
    disk.  Either layout of a group (struct cg, struct ocg) has the arrays of
    [cgrp]; [cg_time], which nothing reads, is left out.  The functions of the
    buffer cache only move a group between the disk and memory: [unreadable] says
    which groups bread fails on.  Numbers of blocks are longs far below 2^31. *)
From stdpp Require Import base numbers list strings gmap.
From Stdlib Require Import ZArith Lia.
From S2P Require Import Prelude FfsMap.

Module Ffs.
Import FfsMap.

(** ** Data *)
Record csum := Cs { cs_ndir : Z; cs_nbfree : Z; cs_nifree : Z; cs_nffree : Z }.

Record cgrp := Cg {
  cg_chkmagic : bool;
  cg_cgx : Z;
  cg_cs : csum;
  cg_rotor : Z;
  cg_frotor : Z;
  cg_irotor : Z;
  cg_frsum : list Z;
  cg_blktot : list Z;
  cg_blks : list (list Z);
  cg_inosused : list Z;
  cg_blksfree : list Z }.

Record superblock := Sb {
  fs_size : Z;
  fs_dsize : Z;
  fs_ncg : Z;
  fs_bsize : Z;
  fs_frag : Z;
  fs_minfree : Z;
  fs_rotdelay : Z;
  fs_rps : Z;
  fs_fmask : Z;
  fs_fshift : Z;
  fs_maxcontig : Z;
  fs_maxbpg : Z;
  fs_fragshift : Z;
  fs_fsbtodb : Z;
  fs_nspf : Z;
  fs_interleave : Z;
  fs_trackskew : Z;
  fs_npsect : Z;
  fs_nsect : Z;
  fs_spc : Z;
  fs_ipg : Z;
  fs_fpg : Z;
  fs_cpc : Z;
  fs_nrpos : Z;
  fs_postbl : list (list Z);
  fs_rotbl : list Z }.

Record mount := Mnt {
  fs_cstotal : csum;
  fs_csp : list csum;
  fs_fmod : Z;
  fs_optim : Z;
  fs_cgrotor : Z;
  cgs : list cgrp }.

(** The fields of an inode the allocator uses; [i_chg] stands for IUPD|ICHG. *)
Record inode := Inode { i_number : Z; i_blocks : Z; i_chg : bool; i_db : list Z }.

Definition FS_OPTTIME : Z := 0.
Definition FS_OPTSPACE : Z := 1.
Definition ENOSPC : Z := 28.
Definition NDADDR : Z := 12.
Definition DEV_BSHIFT : Z := 9.
Definition btodb (bytes : Z) : Z := Z.shiftr (u32 bytes) DEV_BSHIFT.
Definition roundup (x y : Z) : Z := (x + (y - 1)) / y * y.

Definition add_cs (d s : csum) : csum :=
  Cs (cs_ndir s + cs_ndir d) (cs_nbfree s + cs_nbfree d) (cs_nifree s + cs_nifree d) (cs_nffree s + cs_nffree d).
Definition nbfree_by (n : Z) : csum := Cs 0 n 0 0.
Definition nffree_by (n : Z) : csum := Cs 0 0 0 n.

Definition set_cs (s : csum) (c : cgrp) : cgrp :=
  Cg (cg_chkmagic c) (cg_cgx c) s (cg_rotor c) (cg_frotor c) (cg_irotor c) (cg_frsum c) (cg_blktot c) (cg_blks c) (cg_inosused c) (cg_blksfree c).
Definition set_rotor (n : Z) (c : cgrp) : cgrp :=
  Cg (cg_chkmagic c) (cg_cgx c) (cg_cs c) n (cg_frotor c) (cg_irotor c) (cg_frsum c) (cg_blktot c) (cg_blks c) (cg_inosused c) (cg_blksfree c).
Definition set_frotor (n : Z) (c : cgrp) : cgrp :=
  Cg (cg_chkmagic c) (cg_cgx c) (cg_cs c) (cg_rotor c) n (cg_irotor c) (cg_frsum c) (cg_blktot c) (cg_blks c) (cg_inosused c) (cg_blksfree c).
Definition set_frsum (l : list Z) (c : cgrp) : cgrp :=
  Cg (cg_chkmagic c) (cg_cgx c) (cg_cs c) (cg_rotor c) (cg_frotor c) (cg_irotor c) l (cg_blktot c) (cg_blks c) (cg_inosused c) (cg_blksfree c).
Definition set_blks (t : list Z) (b : list (list Z)) (c : cgrp) : cgrp :=
  Cg (cg_chkmagic c) (cg_cgx c) (cg_cs c) (cg_rotor c) (cg_frotor c) (cg_irotor c) (cg_frsum c) t b (cg_inosused c) (cg_blksfree c).
Definition set_blksfree (m : list Z) (c : cgrp) : cgrp :=
  Cg (cg_chkmagic c) (cg_cgx c) (cg_cs c) (cg_rotor c) (cg_frotor c) (cg_irotor c) (cg_frsum c) (cg_blktot c) (cg_blks c) (cg_inosused c) m.

Definition set_cgs (l : list cgrp) (st : mount) : mount :=
  Mnt (fs_cstotal st) (fs_csp st) (fs_fmod st) (fs_optim st) (fs_cgrotor st) l.
Definition set_optim (o : Z) (st : mount) : mount :=
  Mnt (fs_cstotal st) (fs_csp st) (fs_fmod st) o (fs_cgrotor st) (cgs st).
Definition set_cgrotor (n : Z) (st : mount) : mount :=
  Mnt (fs_cstotal st) (fs_csp st) (fs_fmod st) (fs_optim st) n (cgs st).
(** [fs->fs_fmod++], a char. *)
Definition fmod_inc (st : mount) : mount :=
  Mnt (fs_cstotal st) (fs_csp st) (s8 (fs_fmod st + 1)) (fs_optim st) (fs_cgrotor st) (cgs st).

(** Reading an array of a type other than Z. *)
Definition rdl {A} (l : list A) (i : Z) : outcome A :=
  if 0 <=? i then match l !! Z.to_nat i with Some x => Ret x | None => Fault end else Fault.

(** Which groups bread fails on. *)
Definition readings : Type := Z -> bool.

Set Default Proof Using "Type*".
Section fs.
Variable fs : superblock.
Variable unreadable : readings.

(** ** Macros of fs.h *)
Definition fsbtodb (b : Z) : Z := Z.shiftl b (fs_fsbtodb fs).
Definition dbtofsb (b : Z) : Z := Z.shiftr b (fs_fsbtodb fs).
Definition NSPF : Z := fs_nspf fs.
Definition NSPB : Z := Z.shiftl (fs_nspf fs) (fs_fragshift fs).
Definition dtog (d : Z) : Z := d / fs_fpg fs.
Definition dtogd (d : Z) : Z := d mod fs_fpg fs.
Definition itog (x : Z) : Z := x / fs_ipg fs.
Definition cbtocylno (bno : Z) : Z := bno * NSPF / fs_spc fs.
Definition cbtorpos (bno : Z) : Z :=
  (bno * NSPF mod fs_spc fs / fs_nsect fs * fs_trackskew fs +
   bno * NSPF mod fs_spc fs mod fs_nsect fs * fs_interleave fs) mod fs_nsect fs * fs_nrpos fs / fs_npsect fs.
Definition fragoff (loc : Z) : Z := Z.land loc (Z.lnot (fs_fmask fs)).
Definition numfrags (loc : Z) : Z := Z.shiftr loc (fs_fshift fs).
Definition fragstoblks (frags : Z) : Z := Z.shiftr frags (fs_fragshift fs).
Definition blkstofrags (blks : Z) : Z := Z.shiftl blks (fs_fragshift fs).
Definition fragnum (fsb : Z) : Z := Z.land fsb (fs_frag fs - 1).
Definition blknum (fsb : Z) : Z := Z.land fsb (Z.lnot (fs_frag fs - 1)).
Definition freespace (st : mount) (percent : Z) : Z :=
  blkstofrags (cs_nbfree (fs_cstotal st)) + cs_nffree (fs_cstotal st) - Z.quot (s32 (fs_dsize fs * percent)) 100.

(** The group's block as bread and cg_chkmagic leave it: [None] is "brelse(bp);
    return (NULL)". *)
Definition bread_cg (cg : Z) (st : mount) : outcome (option cgrp) :=
  if unreadable cg then Ret None
  else c ← rdl (cgs st) cg; Ret (if cg_chkmagic c then Some c else None).
Definition bdwrite_cg (cg : Z) (c : cgrp) (st : mount) : mount := set_cgs (<[Z.to_nat cg := c]> (cgs st)) st.

(** The three places a count is kept: the group, the total and [fs_cs(fs, cg)]. *)
Definition acct (d : csum) (cg : Z) (c : cgrp) (st : mount) : outcome (cgrp * mount) :=
  s ← rdl (fs_csp st) cg;
  Ret (set_cs (add_cs d (cg_cs c)) c,
       Mnt (add_cs d (fs_cstotal st)) (<[Z.to_nat cg := add_cs d s]> (fs_csp st)) (fs_fmod st) (fs_optim st) (fs_cgrotor st) (cgs st)).

(** [cg_blks(fs, cgp, cylno)[cbtorpos(fs, bno)] += n; cg_blktot(cgp)[cylno] += n]. *)
Definition blks_by (n bno : Z) (c : cgrp) : outcome cgrp :=
  let cylno := cbtocylno bno in
  row ← rdl (cg_blks c) cylno;
  x ← rd row (cbtorpos bno);
  row ← wr row (cbtorpos bno) (x + n);
  t ← rd (cg_blktot c) cylno;
  tot ← wr (cg_blktot c) cylno (t + n);
  Ret (set_blks tot (<[Z.to_nat cylno := row]> (cg_blks c)) c).

(** [cgp->cg_frsum[i] += n]. *)
Definition frsum_by (n i : Z) (c : cgrp) : outcome cgrp :=
  x ← rd (cg_frsum c) i; l ← wr (cg_frsum c) i (x + n); Ret (set_frsum l c).

(** ** mapsearch *)
Fixpoint mapsearch_blk (fuel : nat) (map : list Z) (allocsiz bno i : Z) : outcome Z :=
  match fuel with
  | O => Fault
  | S fuel =>
      if bno <? i then
        blk ← blkmap (fs_frag fs) map bno;
        match find_pos (Z.to_nat (fs_frag fs - allocsiz + 1)) (Z.shiftl blk 1) (at_ around allocsiz) (at_ inside allocsiz) 0 with
        | Some pos => Ret (bno + pos)
        | None => mapsearch_blk fuel map allocsiz (bno + fs_frag fs) i
        end
      else Panic "alloccg: block not in map"
  end.

Definition mapsearch (c : cgrp) (bpref allocsiz : Z) : outcome (Z * cgrp) :=
  let start := (if negb (bpref =? 0) then dtogd bpref else cg_frotor c) / NBBY in
  let len := howmany (fs_fpg fs) NBBY - start in
  let mask := u8 (Z.shiftl 1 (allocsiz - 1 + fs_frag fs mod NBBY)) in
  if len <? 0 then Fault
  else
    loc ← scanc (Z.to_nat len) (cg_blksfree c) start (fragtbl (fs_frag fs)) mask;
    '(start, len, loc) ←
      (if loc =? 0 then
         loc ← scanc (Z.to_nat (start + 1)) (cg_blksfree c) 0 (fragtbl (fs_frag fs)) mask;
         if loc =? 0 then Panic "alloccg: map corrupted" else Ret (0, start + 1, loc)
       else Ret (start, len, loc));
    let bno := (start + len - loc) * NBBY in
    let c := set_frotor bno c in
    r ← mapsearch_blk 9 (cg_blksfree c) allocsiz bno (bno + NBBY);
    Ret (r, c).

(** ** alloccgblk *)

(** The loop over [from, to) for a rotational position with a free block: where it stops. *)
Fixpoint rpos_scan (n : nat) (cylbp : list Z) (i : Z) : outcome Z :=
  match n with
  | O => Ret i
  | S n => x ← rd cylbp i; if x >? 0 then Ret i else rpos_scan n cylbp (i + 1)
  end.
Definition rpos_search (cylbp : list Z) (pos : Z) : outcome Z :=
  i ← rpos_scan (Z.to_nat (fs_nrpos fs - pos)) cylbp pos;
  if i =? fs_nrpos fs then rpos_scan (Z.to_nat pos) cylbp 0 else Ret i.

(** The loop down the list of the blocks at a rotational position. *)
Fixpoint rot_chain (fuel : nat) (map : list Z) (bno i : Z) : outcome Z :=
  match fuel with
  | O => Fault
  | S fuel =>
      b ← isblock (fs_frag fs) map (bno + i);
      if b : bool then Ret (blkstofrags (bno + i))
      else
        delta ← rd (fs_rotbl fs) i;
        if (delta <=? 0) || (delta + i >? fragstoblks (fs_fpg fs)) then Panic "alloccgblk: can't find blk in cyl"
        else rot_chain fuel map bno (i + delta)
  end.

(** From [gotit] on. *)
Definition blk_gotit (bno : Z) (c : cgrp) (st : mount) : outcome (Z * cgrp * mount) :=
  map ← clrblock (fs_frag fs) (cg_blksfree c) (fragstoblks bno);
  '(c, st) ← acct (nbfree_by (-1)) (cg_cgx c) (set_blksfree map c) st;
  c ← blks_by (-1) bno c;
  Ret (cg_cgx c * fs_fpg fs + bno, c, fmod_inc st).

Definition blk_norot (bpref : Z) (c : cgrp) (st : mount) : outcome (Z * cgrp * mount) :=
  '(bno, c) ← mapsearch c bpref (fs_frag fs);
  if bno <? 0 then Ret (0, c, st) else blk_gotit bno (set_rotor bno c) st.

Definition alloccgblk (c : cgrp) (bpref : Z) (st : mount) : outcome (Z * cgrp * mount) :=
  if bpref =? 0 then blk_norot (cg_rotor c) c st
  else
    let bpref := dtogd (blknum bpref) in
    b ← isblock (fs_frag fs) (cg_blksfree c) (fragstoblks bpref);
    if b : bool then blk_gotit bpref c st
    else
      let cylno := cbtocylno bpref in
      t ← rd (cg_blktot c) cylno;
      if t =? 0 then blk_norot bpref c st
      else if fs_cpc fs =? 0 then blk_norot (howmany (fs_spc fs * cylno) NSPF) c st
      else
        cylbp ← rdl (cg_blks c) cylno;
        let pos := cbtorpos bpref in
        i ← rpos_search cylbp pos;
        x ← rd cylbp i;
        if x >? 0 then
          let pos := cylno mod fs_cpc fs in
          let bno := (cylno - pos) * fs_spc fs / NSPB in
          row ← rdl (fs_postbl fs) pos;
          h ← rd row i;
          if h =? -1 then Panic "alloccgblk: cyl groups corrupted"
          else
            bno ← rot_chain (S (Z.to_nat (fragstoblks (fs_fpg fs)))) (cg_blksfree c) bno h;
            blk_gotit bno c st
        else blk_norot bpref c st.

(** ** alloccg *)

(** [for (i = n; i < to; i++) if (cg_frsum[i] != 0) break]. *)
Fixpoint frsum_scan (n : nat) (frsum : list Z) (i : Z) : outcome Z :=
  match n with
  | O => Ret i
  | S n => x ← rd frsum i; if negb (x =? 0) then Ret i else frsum_scan n frsum (i + 1)
  end.
Definition alloccg (cg bpref size : Z) (st : mount) : outcome (Z * mount) :=
  s ← rdl (fs_csp st) cg;
  if (cs_nbfree s =? 0) && (size =? fs_bsize fs) then Ret (0, st)
  else
    oc ← bread_cg cg st;
    match oc with
    | None => Ret (0, st)
    | Some c =>
        if (cs_nbfree (cg_cs c) =? 0) && (size =? fs_bsize fs) then Ret (0, st)
        else if size =? fs_bsize fs then
          '(bno, c, st) ← alloccgblk c bpref st;
          Ret (bno, bdwrite_cg cg c st)
        else
          let frags := numfrags size in
          allocsiz ← frsum_scan (Z.to_nat (fs_frag fs - frags)) (cg_frsum c) frags;
          if allocsiz =? fs_frag fs then
            if cs_nbfree (cg_cs c) =? 0 then Ret (0, st)
            else
              '(bno, c, st) ← alloccgblk c bpref st;
              let bpref := dtogd bno in
              map ← setbits (Z.to_nat (fs_frag fs - frags)) (cg_blksfree c) (bpref + frags);
              let i := fs_frag fs - frags in
              '(c, st) ← acct (nffree_by i) cg (set_blksfree map c) st;
              c ← frsum_by 1 i c;
              Ret (bno, bdwrite_cg cg c (fmod_inc st))
          else
            '(bno, c) ← mapsearch c bpref allocsiz;
            if bno <? 0 then Ret (0, st)
            else
              map ← clrbits (Z.to_nat frags) (cg_blksfree c) bno;
              '(c, st) ← acct (nffree_by (- frags)) cg (set_blksfree map c) st;
              c ← frsum_by (-1) allocsiz c;
              c ← (if negb (frags =? allocsiz) then frsum_by 1 (allocsiz - frags) c else Ret c);
              Ret (cg * fs_fpg fs + bno, bdwrite_cg cg c (fmod_inc st))
    end.

(** ** fragextend *)
Fixpoint all_set (n : nat) (a : list Z) (i : Z) : outcome bool :=
  match n with O => Ret true | S n => b ← isclr a i; if b : bool then Ret false else all_set n a (i + 1) end.
(** The first clear bit from [bno + i] on: the value of [i] the loop stops at. *)
Fixpoint clr_scan (n : nat) (a : list Z) (bno i : Z) : outcome Z :=
  match n with O => Ret i | S n => b ← isclr a (bno + i); if b : bool then Ret i else clr_scan n a bno (i + 1) end.

(** "The current fragment can be extended". *)
Definition extend_group (cg bno bbase frags ofr : Z) (c : cgrp) (st : mount) : outcome (cgrp * mount) :=
  i ← clr_scan (Z.to_nat (fs_frag fs - bbase - frags)) (cg_blksfree c) bno frags;
  c ← frsum_by (-1) (i - ofr) c;
  c ← (if negb (i =? frags) then frsum_by 1 (i - frags) c else Ret c);
  map ← clrbits (Z.to_nat (frags - ofr)) (cg_blksfree c) (bno + ofr);
  acct (nffree_by (- Z.of_nat (Z.to_nat (frags - ofr)))) cg (set_blksfree map c) st.

Definition fragextend (cg bprev osize nsize : Z) (st : mount) : outcome (Z * mount) :=
  s ← rdl (fs_csp st) cg;
  if cs_nffree s <? numfrags (nsize - osize) then Ret (0, st)
  else
    let frags := numfrags nsize in
    let bbase := fragnum bprev in
    if bbase >? fragnum (bprev + frags - 1) then Ret (0, st)
    else
      oc ← bread_cg cg st;
      match oc with
      | None => Ret (0, st)
      | Some c =>
          let bno := dtogd bprev in
          let ofr := numfrags osize in
          ok ← all_set (Z.to_nat (frags - ofr)) (cg_blksfree c) (bno + ofr);
          if negb ok then Ret (0, st)
          else
            '(c, st) ← extend_group cg bno bbase frags ofr c st;
            Ret (bprev, bdwrite_cg cg c (fmod_inc st))
      end.

(** ** blkfree *)
Fixpoint free_frags (n : nat) (a : list Z) (i : Z) : outcome (list Z) :=
  match n with
  | O => Ret a
  | S n =>
      b ← isset a i;
      if b : bool then Panic "blkfree: freeing free frag" else a ← setbit a i; free_frags n a (i + 1)
  end.

(** The two parts of blkfree between reading the group and writing it back: a whole
    block, and fragments. *)
Definition blkfree_block (cg bno : Z) (c : cgrp) (st : mount) : outcome (cgrp * mount) :=
  b ← isblock (fs_frag fs) (cg_blksfree c) (fragstoblks bno);
  if b : bool then Panic "blkfree: freeing free block"
  else
    map ← setblock (fs_frag fs) (cg_blksfree c) (fragstoblks bno);
    '(c, st) ← acct (nbfree_by 1) cg (set_blksfree map c) st;
    c ← blks_by 1 bno c;
    Ret (c, st).
Definition blkfree_frags (cg bno size : Z) (c : cgrp) (st : mount) : outcome (cgrp * mount) :=
  let bbase := bno - fragnum bno in
  blk ← blkmap (fs_frag fs) (cg_blksfree c) bbase;
  frsum ← fragacct (fs_frag fs) blk (cg_frsum c) (-1);
  let frags := numfrags size in
  map ← free_frags (Z.to_nat frags) (cg_blksfree c) bno;
  '(c, st) ← acct (nffree_by (Z.of_nat (Z.to_nat frags))) cg (set_blksfree map (set_frsum frsum c)) st;
  blk ← blkmap (fs_frag fs) (cg_blksfree c) bbase;
  frsum ← fragacct (fs_frag fs) blk (cg_frsum c) 1;
  let c := set_frsum frsum c in
  b ← isblock (fs_frag fs) (cg_blksfree c) (fragstoblks bbase);
  if b : bool then
    '(c, st) ← acct (nffree_by (- fs_frag fs)) cg c st;
    '(c, st) ← acct (nbfree_by 1) cg c st;
    c ← blks_by 1 bbase c;
    Ret (c, st)
  else Ret (c, st).

Definition blkfree (bno size : Z) (st : mount) : outcome mount :=
  if (u32 size >? fs_bsize fs) || negb (fragoff size =? 0) then Panic "blkfree: bad size"
  else
    let cg := dtog bno in
    if u32 bno >=? fs_size fs then Ret st
    else
      oc ← bread_cg cg st;
      match oc with
      | None => Ret st
      | Some c =>
          let bno := dtogd bno in
          '(c, st) ← (if size =? fs_bsize fs then blkfree_block cg bno c st else blkfree_frags cg bno size c st);
          Ret (bdwrite_cg cg c (fmod_inc st))
      end.

(** ** hashalloc

    [allocator cg pref] is alloccg or ialloccg at the size or mode wanted. *)
Section hashalloc.
Variable allocator : Z -> Z -> mount -> outcome (Z * mount).

Fixpoint quad_rehash (fuel : nat) (cg i : Z) (st : mount) : outcome (Z * mount) :=
  match fuel with
  | O => Fault
  | S fuel =>
      if i <? fs_ncg fs then
        let cg := cg + i in
        let cg := if cg >=? fs_ncg fs then cg - fs_ncg fs else cg in
        '(result, st) ← allocator cg 0 st;
        if negb (result =? 0) then Ret (result, st) else quad_rehash fuel cg (i * 2) st
      else Ret (0, st)
  end.

Fixpoint brute_force (fuel : nat) (cg i : Z) (st : mount) : outcome (Z * mount) :=
  match fuel with
  | O => Fault
  | S fuel =>
      if i <? fs_ncg fs then
        '(result, st) ← allocator cg 0 st;
        if negb (result =? 0) then Ret (result, st)
        else brute_force fuel (if cg + 1 =? fs_ncg fs then 0 else cg + 1) (i + 1) st
      else Ret (0, st)
  end.

Definition hashalloc (cg pref : Z) (st : mount) : outcome (Z * mount) :=
  '(result, st) ← allocator cg pref st;
  if negb (result =? 0) then Ret (result, st)
  else
    '(result, st) ← quad_rehash (S (Z.to_nat (fs_ncg fs))) cg 1 st;
    if negb (result =? 0) then Ret (result, st)
    else brute_force (S (Z.to_nat (fs_ncg fs))) ((cg + 2) mod fs_ncg fs) 2 st.
End hashalloc.

(** ** alloc

    [uid] is the effective user's; the result is the error and [*bnp]. *)
Definition alloc (uid : Z) (ip : inode) (bpref size : Z) (st : mount) : outcome (Z * Z * inode * mount) :=
  if (u32 size >? fs_bsize fs) || negb (fragoff size =? 0) then Panic "alloc: bad size"
  else if (size =? fs_bsize fs) && (cs_nbfree (fs_cstotal st) =? 0) then Ret (ENOSPC, 0, ip, st)
  else if negb (uid =? 0) && (freespace st (fs_minfree fs) <=? 0) then Ret (ENOSPC, 0, ip, st)
  else
    let bpref := if bpref >=? fs_size fs then 0 else bpref in
    let cg := if bpref =? 0 then itog (i_number ip) else dtog bpref in
    '(bno, st) ← hashalloc (fun cg pref => alloccg cg pref size) cg bpref st;
    if bno >? 0 then Ret (0, bno, Inode (i_number ip) (i_blocks ip + btodb size) true (i_db ip), st)
    else Ret (ENOSPC, 0, ip, st).

(** ** realloccg

    [buf] is what bread returns: an error, or the buffer's disk block
    [b_blkno]; the result has the error and the buffer's new block number.  The
    bytes of the buffer are not modelled. *)

Definition request_size (nsize : Z) (st : mount) : outcome (Z * mount) :=
  if fs_optim st =? FS_OPTSPACE then
    Ret (nsize, if (fs_minfree fs <? 5) || (cs_nffree (fs_cstotal st) >? Z.quot (s32 (fs_dsize fs * fs_minfree fs)) (2 * 100))
                then st else set_optim FS_OPTTIME st)
  else if fs_optim st =? FS_OPTTIME then
    Ret (fs_bsize fs, if cs_nffree (fs_cstotal st) <? Z.quot (s32 (fs_dsize fs * (fs_minfree fs - 2))) 100
                      then st else set_optim FS_OPTSPACE st)
  else Panic "realloccg: bad optim".

Definition realloccg (uid : Z) (ip : inode) (lbprev bpref osize nsize : Z) (buf : Z + Z) (st : mount)
  : outcome (Z * Z * inode * mount) :=
  if (u32 osize >? fs_bsize fs) || negb (fragoff osize =? 0) || (u32 nsize >? fs_bsize fs) || negb (fragoff nsize =? 0)
  then Panic "realloccg: bad size"
  else if negb (uid =? 0) && (freespace st (fs_minfree fs) <=? 0) then Ret (ENOSPC, 0, ip, st)
  else
    bprev ← rd (i_db ip) lbprev;
    if bprev =? 0 then Panic "realloccg: bad bprev"
    else
      match buf with
      | inl error => Ret (error, 0, ip, st)
      | inr b_blkno =>
          let cg := dtog bprev in
          let ip' := Inode (i_number ip) (i_blocks ip + btodb (nsize - osize)) true (i_db ip) in
          '(bno, st) ← fragextend cg bprev osize nsize st;
          if negb (bno =? 0) then
            if negb (b_blkno =? fsbtodb bno) then Panic "bad blockno" else Ret (0, b_blkno, ip', st)
          else
            let bpref := if bpref >=? fs_size fs then 0 else bpref in
            '(request, st) ← request_size nsize st;
            '(bno, st) ← hashalloc (fun cg pref => alloccg cg pref request) cg bpref st;
            if bno >? 0 then
              st ← blkfree bprev osize st;
              st ← (if nsize <? request then blkfree (bno + numfrags nsize) (request - nsize) st else Ret st);
              Ret (0, fsbtodb bno, ip', st)
            else Ret (ENOSPC, 0, ip, st)
      end.

(** ** blkpref *)
Fixpoint cg_scan (n : nat) (cg avg : Z) (st : mount) : outcome (option Z) :=
  match n with
  | O => Ret None
  | S n => s ← rdl (fs_csp st) cg; if cs_nbfree s >=? avg then Ret (Some cg) else cg_scan n (cg + 1) avg st
  end.

Definition blkpref (ip : inode) (lbn indx : Z) (bap : list Z) (st : mount) : outcome (Z * mount) :=
  first ← (if indx mod fs_maxbpg fs =? 0 then Ret true else p ← rd bap (indx - 1); Ret (p =? 0));
  if first : bool then
    if lbn <? NDADDR then Ret (fs_fpg fs * itog (i_number ip) + fs_frag fs, st)
    else
      prev ← (if indx =? 0 then Ret 0 else rd bap (indx - 1));
      let startcg := (if prev =? 0 then itog (i_number ip) + lbn / fs_maxbpg fs else dtog prev + 1) mod fs_ncg fs in
      let avgbfree := Z.quot (cs_nbfree (fs_cstotal st)) (fs_ncg fs) in
      o ← cg_scan (Z.to_nat (fs_ncg fs - startcg)) startcg avgbfree st;
      o ← match o with Some cg => Ret (Some cg) | None => cg_scan (Z.to_nat (startcg + 1)) 0 avgbfree st end;
      match o with
      | Some cg => Ret (fs_fpg fs * cg + fs_frag fs, set_cgrotor cg st)
      | None => Ret (0, st)
      end
  else
    prev ← rd bap (indx - 1);
    let nextblk := prev + fs_frag fs in
    near ← (if indx >? fs_maxcontig fs then
              x ← rd bap (indx - fs_maxcontig fs); Ret (negb (x + blkstofrags (fs_maxcontig fs) =? nextblk))
            else Ret false);
    if near : bool then Ret (nextblk, st)
    else if negb (fs_rotdelay fs =? 0) then
      Ret (nextblk + roundup (Z.quot (fs_rotdelay fs * fs_rps fs * fs_nsect fs) (NSPF * 1000)) (fs_frag fs), st)
    else Ret (nextblk, st).


(** ** Well-formed file systems *)

(** How the fields of a super block hang together. *)
Record sb_ok : Prop := SbOk {
  sb_frag : good_frag (fs_frag fs);
  sb_fsbtodb : 0 <= fs_fsbtodb fs;
  sb_fragshift : 0 <= fs_fragshift fs /\ fs_frag fs = 2 ^ fs_fragshift fs;
  sb_fshift : 0 <= fs_fshift fs;
  sb_bsize : fs_bsize fs = fs_frag fs * 2 ^ fs_fshift fs /\ fs_bsize fs < 2 ^ 31;
  sb_fmask : fs_fmask fs = - 2 ^ fs_fshift fs;
  sb_fpg : 0 < fs_fpg fs /\ fs_fpg fs mod fs_frag fs = 0;
  sb_ncg : 0 < fs_ncg fs;
  sb_ipg : 0 < fs_ipg fs;
  sb_size : 0 <= fs_size fs /\ fs_size fs <= fs_ncg fs * fs_fpg fs /\ fs_ncg fs * fs_fpg fs < 2 ^ 31;
  sb_disk : 0 < fs_nspf fs /\ 0 < fs_spc fs /\ 0 < fs_nsect fs <= fs_npsect fs /\ 0 < fs_nrpos fs /\
            0 <= fs_trackskew fs /\ 0 <= fs_interleave fs }.

Definition nblk : Z := fs_fpg fs / fs_frag fs.
Definition bsum (f : Z -> Z) : Z := foldr (fun h n => f h + n) 0 (seqZ 0 nblk).
Definition b2z (b : bool) : Z := if b then 1 else 0.
Definition bv (map : list Z) (h : Z) : Z := bval (fs_frag fs) map h.
Definition is_full (x : Z) : Z := b2z (x =? full (fs_frag fs)).
Definition cyl (h : Z) : Z := cbtocylno (h * fs_frag fs).
Definition rpos (h : Z) : Z := cbtorpos (h * fs_frag fs).

(** The blocks the code finds for a cylinder and a rotational position: those the
    list in the tables leads to, counted from the first block of the cylinder's cycle. *)
Fixpoint chain (fuel : nat) (i : Z) : list Z :=
  match fuel with
  | O => []
  | S fuel =>
      i :: (if within (fs_rotbl fs) i
            then let delta := at_ (fs_rotbl fs) i in
                 if (delta <=? 0) || (delta + i >? fragstoblks (fs_fpg fs)) then [] else chain fuel (i + delta)
            else [])
  end.
Definition cycle (c : Z) : Z := (c - c mod fs_cpc fs) * fs_spc fs / NSPB.
Definition rot_heads (c r : Z) : list Z :=
  match fs_postbl fs !! Z.to_nat (c mod fs_cpc fs) with
  | Some row => if within row r then if at_ row r =? -1 then [] else chain (S (Z.to_nat nblk)) (at_ row r) else []
  | None => []
  end.
Definition rot_ok : Prop :=
  fs_cpc fs = 0 \/
  (0 < fs_cpc fs /\
   forall h h', 0 <= h < nblk -> In (h' - cycle (cyl h)) (rot_heads (cyl h) (rpos h)) <-> 0 <= h' < nblk /\ cyl h' = cyl h /\ rpos h' = rpos h).

(** The counts of a group agree with its map. *)
Record cg_ok (c : cgrp) : Prop := CgOk {
  ok_len : Z.of_nat (length (cg_blksfree c)) = howmany (fs_fpg fs) NBBY;
  ok_bytes : bytes_ok (cg_blksfree c);
  ok_end : forall i, fs_fpg fs <= i -> bit (cg_blksfree c) i = false;
  ok_nbfree : cs_nbfree (cg_cs c) = bsum (fun h => is_full (bv (cg_blksfree c) h));
  ok_nffree : cs_nffree (cg_cs c) = bsum (fun h => nfree (fs_frag fs) (bv (cg_blksfree c) h));
  ok_frsum : length (cg_frsum c) = 8%nat /\
    forall s, 1 <= s < fs_frag fs -> at_ (cg_frsum c) s = bsum (fun h => nruns (fs_frag fs) (bv (cg_blksfree c) h) s);
  ok_cyl : forall h, 0 <= h < nblk -> cyl h < Z.of_nat (length (cg_blktot c));
  ok_tot : forall k, 0 <= k < Z.of_nat (length (cg_blktot c)) ->
    at_ (cg_blktot c) k = bsum (fun h => if cyl h =? k then is_full (bv (cg_blksfree c) h) else 0);
  ok_rows : length (cg_blks c) = length (cg_blktot c);
  ok_blks : forall k row, cg_blks c !! Z.to_nat k = Some row -> 0 <= k -> Z.of_nat (length row) = fs_nrpos fs /\
    forall r, 0 <= r < fs_nrpos fs -> at_ row r = bsum (fun h => if (cyl h =? k) && (rpos h =? r) then is_full (bv (cg_blksfree c) h) else 0);
  ok_rotor : 0 <= cg_rotor c < fs_fpg fs;
  ok_frotor : 0 <= cg_frotor c < fs_fpg fs }.

(** ** Sums over the blocks of a group *)
Lemma foldr_change (f f' : Z -> Z) (h0 : Z) : forall l, NoDup l -> (forall h, h <> h0 -> f' h = f h) ->
  foldr (fun h n => f' h + n) 0 l = foldr (fun h n => f h + n) 0 l + (if decide (h0 ∈ l) then f' h0 - f h0 else 0).
Proof.
  intros l Hl H. induction Hl as [|x l Hx Hl IH]; cbn; [destruct (decide _) as [Hin|]; [by apply elem_of_nil in Hin|done]|].
  rewrite IH. destruct (decide (h0 ∈ x :: l)) as [Hin|Hni].
  - destruct (decide (x = h0)) as [->|Hne]; [destruct (decide (h0 ∈ l)); [done|lia]|].
    rewrite H by done. destruct (decide (h0 ∈ l)) as [|N]; [lia|]. apply elem_of_cons in Hin as [->|Hin]; done.
  - rewrite not_elem_of_cons in Hni. destruct Hni as [H1 H2]. destruct (decide (h0 ∈ l)); [done|]. rewrite H by done. lia.
Qed.
Lemma bsum_change (f f' : Z -> Z) (h0 : Z) : 0 <= h0 < nblk -> (forall h, h <> h0 -> f' h = f h) -> bsum f' = bsum f + (f' h0 - f h0).
Proof.
  intros Hh H. unfold bsum. rewrite (foldr_change f f' h0) by (done || apply NoDup_seqZ).
  destruct (decide _) as [|N]; [done|]. exfalso. apply N, elem_of_seqZ. lia.
Qed.
Lemma bsum_ext f f' : (forall h, 0 <= h < nblk -> f' h = f h) -> bsum f' = bsum f.
Proof.
  intros H. unfold bsum. assert (Hl : forall h, h ∈ seqZ 0 nblk -> f' h = f h) by (intros h Hh; apply elem_of_seqZ in Hh; apply H; lia).
  induction (seqZ 0 nblk) as [|x l IH]; cbn; [done|]. rewrite Hl by apply elem_of_cons, or_introl, eq_refl. f_equal. apply IH.
  intros h Hh. apply Hl. by apply elem_of_cons; right.
Qed.
Lemma bsum_pos f : (forall h, 0 <= h < nblk -> 0 <= f h) -> 0 <= bsum f /\ (bsum f <> 0 -> exists h, 0 <= h < nblk /\ 0 < f h) /\
  forall h, 0 <= h < nblk -> f h <= bsum f.
Proof.
  intros H. unfold bsum. assert (Hl : forall h, h ∈ seqZ 0 nblk -> 0 <= f h /\ 0 <= h < nblk) by (intros h Hh; apply elem_of_seqZ in Hh; split; [apply H|]; lia).
  assert (Hall : forall h, 0 <= h < nblk -> h ∈ seqZ 0 nblk) by (intros h Hh; apply elem_of_seqZ; lia).
  enough (forall l, l ⊆ seqZ 0 nblk -> 0 <= foldr (fun h n => f h + n) 0 l /\
    (foldr (fun h n => f h + n) 0 l <> 0 -> exists h, 0 <= h < nblk /\ 0 < f h) /\ forall h, h ∈ l -> f h <= foldr (fun h n => f h + n) 0 l) as E.
  { destruct (E (seqZ 0 nblk)) as (E1 & E2 & E3); [done|]. split; [done|]. split; [done|]. intros h Hh. by apply E3, Hall. }
  induction l as [|x l IH]; intros Hin; cbn; [split; [lia|]; split; [done|]; intros h Hh; by apply elem_of_nil in Hh|].
  destruct IH as (I1 & I2 & I3); [intros y Hy; apply Hin, elem_of_cons; by right|]. destruct (Hl x) as [Hx1 Hx2]; [apply Hin, elem_of_cons, or_introl, eq_refl|]. split; [lia|]. split.
  - intros Hne. destruct (Z.eq_dec (f x) 0) as [E|]; [apply I2; lia|exists x; lia].
  - intros h Hh. apply elem_of_cons in Hh as [->|Hh]; [lia|]. specialize (I3 h Hh). lia.
Qed.

(** ** The geometry *)
Context (Hsb : sb_ok).

Ltac ffrag := let E := fresh "E" in destruct (sb_frag Hsb) as [E|[E|[E|E]]]; rewrite ?E in *.

Lemma fpg_eq : fs_fpg fs = nblk * fs_frag fs.
Proof. unfold nblk. destruct (sb_fpg Hsb) as [_ H]. ffrag; zdiv. Qed.
Lemma frag_pos_ : 1 <= fs_frag fs <= 8.
Proof. ffrag; lia. Qed.
Lemma nblk_pos : 0 < nblk.
Proof. pose proof fpg_eq. pose proof frag_pos_. destruct (sb_fpg Hsb). nia. Qed.
Lemma block_below h k : 0 <= h < nblk -> 0 <= k < fs_frag fs -> 0 <= h * fs_frag fs + k < fs_fpg fs.
Proof. intros H1 H2. rewrite fpg_eq. nia. Qed.
Lemma block_of h k : 0 <= k < fs_frag fs -> (h * fs_frag fs + k) / fs_frag fs = h /\ (h * fs_frag fs + k) mod fs_frag fs = k.
Proof. intros H. ffrag; zdiv. Qed.
Lemma block_split b : 0 <= b < fs_fpg fs -> exists h k, b = h * fs_frag fs + k /\ 0 <= h < nblk /\ 0 <= k < fs_frag fs.
Proof.
  intros H. exists (b / fs_frag fs), (b mod fs_frag fs). rewrite fpg_eq in H. ffrag; zdiv.
Qed.
Lemma map_room c b : cg_ok c -> b < fs_fpg fs -> b < 8 * Z.of_nat (length (cg_blksfree c)).
Proof. intros H Hb. rewrite (ok_len _ H). unfold howmany, NBBY. zdiv. Qed.

Lemma fragstoblks_eq b : fragstoblks b = b / fs_frag fs.
Proof. destruct (sb_fragshift Hsb) as [H1 H2]. unfold fragstoblks. by rewrite Z.shiftr_div_pow2, H2. Qed.
Lemma blkstofrags_eq h : blkstofrags h = h * fs_frag fs.
Proof. destruct (sb_fragshift Hsb) as [H1 H2]. unfold blkstofrags. by rewrite Z.shiftl_mul_pow2, H2. Qed.
Lemma fragnum_eq b : fragnum b = b mod fs_frag fs.
Proof.
  destruct (sb_fragshift Hsb) as [H1 H2]. unfold fragnum. rewrite H2, <- Z.land_ones by done. by rewrite Z.ones_equiv, Z.sub_1_r.
Qed.
Lemma blknum_eq b : blknum b = b - b mod fs_frag fs.
Proof.
  destruct (sb_fragshift Hsb) as [H1 H2]. unfold blknum. rewrite H2. replace (2 ^ fs_fragshift fs - 1) with (Z.ones (fs_fragshift fs)) by (rewrite Z.ones_equiv; lia).
  rewrite <- Z.ldiff_land, Z.ldiff_ones_r, Z.shiftl_mul_pow2, Z.shiftr_div_pow2 by done.
  pose proof (Z.div_mod b (2 ^ fs_fragshift fs)). lia.
Qed.
Lemma numfrags_eq n : numfrags n = n / 2 ^ fs_fshift fs.
Proof. unfold numfrags. apply Z.shiftr_div_pow2, (sb_fshift Hsb). Qed.
Lemma fragoff_eq n : fragoff n = n mod 2 ^ fs_fshift fs.
Proof.
  unfold fragoff. rewrite (sb_fmask Hsb). replace (Z.lnot (- 2 ^ fs_fshift fs)) with (Z.ones (fs_fshift fs)) by (rewrite Z.ones_equiv; unfold Z.lnot; lia).
  apply Z.land_ones, (sb_fshift Hsb).
Qed.

(** A size that is a number of fragments, at most a block. *)
Definition frag_size (size n : Z) : Prop := size = n * 2 ^ fs_fshift fs /\ 1 <= n <= fs_frag fs.
Lemma frag_size_ok size n : frag_size size n ->
  numfrags size = n /\ u32 size <= fs_bsize fs /\ fragoff size = 0 /\ (size =? fs_bsize fs) = (n =? fs_frag fs) /\ 0 < size < 2 ^ 31.
Proof.
  intros [-> Hn]. destruct (sb_bsize Hsb) as [Hb1 Hb2]. pose proof (sb_fshift Hsb). assert (0 < 2 ^ fs_fshift fs) by lia.
  assert (0 < n * 2 ^ fs_fshift fs <= fs_bsize fs) by nia.
  rewrite numfrags_eq, fragoff_eq, Z.div_mul, Z.mod_mul, u32_small by lia. splits; try lia.
  destruct (Z.eqb_spec (n * 2 ^ fs_fshift fs) (fs_bsize fs)), (Z.eqb_spec n (fs_frag fs)); try done; exfalso; nia.
Qed.

Lemma bv_range map h : 0 <= bv map h <= full (fs_frag fs).
Proof. apply bval_range, Hsb. Qed.
Lemma bv_bits map h k : 0 <= h -> 0 <= k < fs_frag fs -> Z.testbit (bv map h) k = bit map (h * fs_frag fs + k).
Proof. intros Hh Hk. unfold bv. rewrite bval_bits by (apply Hsb || lia). by destruct (Z.ltb_spec k (fs_frag fs)); [|lia]. Qed.

(** ** One block of a group changes *)
Record changed (m m' : list Z) (h0 : Z) : Prop := Changed {
  ch_len : length m' = length m;
  ch_bytes : bytes_ok m';
  ch_rest : forall j, 0 <= j -> j / fs_frag fs <> h0 -> bit m' j = bit m j }.

Lemma changed_bv m m' h0 h : changed m m' h0 -> 0 <= h -> h <> h0 -> bv m' h = bv m h.
Proof.
  intros H Hh Hne. apply bval_ext; [apply Hsb|done|]. intros k Hk. apply (ch_rest _ _ _ H).
  - pose proof frag_pos_. nia.
  - by rewrite (proj1 (block_of h k Hk)).
Qed.

(** A sum over the blocks then changes by what the block contributes. *)
Lemma changed_sum m m' h0 (f : Z -> Z -> Z) : changed m m' h0 -> 0 <= h0 < nblk ->
  bsum (fun h => f h (bv m' h)) = bsum (fun h => f h (bv m h)) + (f h0 (bv m' h0) - f h0 (bv m h0)).
Proof.
  intros H Hh. set (g := fun h => if decide (0 <= h < nblk) then f h (bv m' h) else f h (bv m h)).
  rewrite (bsum_ext g (fun h => f h (bv m' h))) by (intros h Hh'; unfold g; by destruct (decide (0 <= h < nblk))).
  rewrite (bsum_change (fun h => f h (bv m h)) g h0).
  - unfold g at 1. by destruct (decide (0 <= h0 < nblk)).
  - done.
  - intros h Hne. unfold g. destruct (decide (0 <= h < nblk)); [|done]. by rewrite (changed_bv m m' h0) by (done || lia).
Qed.

Definition same_place (c c' : cgrp) : Prop :=
  cg_chkmagic c' = cg_chkmagic c /\ cg_cgx c' = cg_cgx c /\ cg_inosused c' = cg_inosused c /\ cg_irotor c' = cg_irotor c.

Lemma cg_change c c' h0 : cg_ok c -> changed (cg_blksfree c) (cg_blksfree c') h0 -> 0 <= h0 < nblk ->
  let x := bv (cg_blksfree c) h0 in let y := bv (cg_blksfree c') h0 in
  cs_nbfree (cg_cs c') = cs_nbfree (cg_cs c) + (is_full y - is_full x) ->
  cs_nffree (cg_cs c') = cs_nffree (cg_cs c) + (nfree (fs_frag fs) y - nfree (fs_frag fs) x) ->
  length (cg_frsum c') = length (cg_frsum c) ->
  (forall s, 1 <= s < fs_frag fs -> at_ (cg_frsum c') s = at_ (cg_frsum c) s + (nruns (fs_frag fs) y s - nruns (fs_frag fs) x s)) ->
  length (cg_blktot c') = length (cg_blktot c) ->
  (forall k, 0 <= k < Z.of_nat (length (cg_blktot c)) -> at_ (cg_blktot c') k = at_ (cg_blktot c) k + if cyl h0 =? k then is_full y - is_full x else 0) ->
  length (cg_blks c') = length (cg_blks c) ->
  (forall k row', cg_blks c' !! Z.to_nat k = Some row' -> 0 <= k -> exists row, cg_blks c !! Z.to_nat k = Some row /\ length row' = length row /\
    forall r, 0 <= r < fs_nrpos fs -> at_ row' r = at_ row r + if (cyl h0 =? k) && (rpos h0 =? r) then is_full y - is_full x else 0) ->
  0 <= cg_rotor c' < fs_fpg fs -> 0 <= cg_frotor c' < fs_fpg fs -> cg_ok c'.
Proof.
  intros H Hch Hh x y Hb Hf Hl Hs Htl Ht Hrl Hr Hro Hfr. split; try done.
  - rewrite (ch_len _ _ _ Hch). apply H.
  - apply Hch.
  - intros i Hi. rewrite (ch_rest _ _ _ Hch); [by apply H| |].
    + destruct (sb_fpg Hsb). lia.
    + rewrite fpg_eq in Hi. intros E0. ffrag; zdiv.
  - rewrite Hb, (ok_nbfree _ H). by rewrite (changed_sum _ _ h0 (fun _ => is_full) Hch Hh).
  - rewrite Hf, (ok_nffree _ H). by rewrite (changed_sum _ _ h0 (fun _ => nfree (fs_frag fs)) Hch Hh).
  - split; [rewrite Hl; apply H|]. intros s Hs'. rewrite Hs, (proj2 (ok_frsum _ H)) by done.
    by rewrite (changed_sum _ _ h0 (fun _ z => nruns (fs_frag fs) z s) Hch Hh).
  - intros h Hh'. rewrite Htl. by apply H.
  - intros k Hk. rewrite Htl in Hk. rewrite Ht, (ok_tot _ H) by done.
    rewrite (changed_sum _ _ h0 (fun h z => if cyl h =? k then is_full z else 0) Hch Hh). cbv beta. by destruct (cyl h0 =? k).
  - rewrite Hrl, Htl. apply H.
  - intros k row' E Hk. destruct (Hr k row' E Hk) as (row & E0 & Hlr & Hrr). destruct (ok_blks _ H k row E0 Hk) as [H1 H2].
    split; [by rewrite Hlr|]. intros r Hr'. rewrite Hrr, H2 by done.
    rewrite (changed_sum _ _ h0 (fun h z => if (cyl h =? k) && (rpos h =? r) then is_full z else 0) Hch Hh). cbv beta.
    by destruct ((cyl h0 =? k) && (rpos h0 =? r)).
Qed.

(** ** The search in the map *)
Lemma nruns_zero s : 1 <= s <= fs_frag fs -> nruns (fs_frag fs) 0 s = 0.
Proof.
  intros Hs. destruct (Z.eq_dec s (fs_frag fs)) as [->|]; [ffrag; vm_compute; reflexivity|].
  apply (full_facts _ (sb_frag Hsb)). lia.
Qed.
Lemma nruns_full : nruns (fs_frag fs) (full (fs_frag fs)) (fs_frag fs) = 1.
Proof. ffrag; vm_compute; reflexivity. Qed.
Lemma run_full x k : 0 <= x <= full (fs_frag fs) -> is_run (fs_frag fs) x (fs_frag fs) k = true -> k = 0 /\ x = full (fs_frag fs).
Proof.
  intros Hx H. unfold is_run in H. rewrite !andb_true_iff, !Z.leb_le in H. destruct H as [[[[H1 H2] H3] _] _].
  assert (k = 0) as -> by lia. split; [done|]. apply Z.bits_inj'. intros j Hj. rewrite full_bits by (apply Hsb || done).
  destruct (Z.ltb_spec j (fs_frag fs)).
  - apply (forallb_seqZ _ _ _ H3) with (x := j). lia.
  - destruct (Z.eq_dec x 0) as [->|]; [apply Z.bits_0|]. apply Z.bits_above_log2; [lia|].
    assert (Z.log2 x < fs_frag fs); [|lia]. apply Z.log2_lt_pow2; [lia|]. unfold full in Hx. rewrite Z.ones_equiv in Hx. lia.
Qed.
Lemma run_free map h s k j : 0 <= h -> is_run (fs_frag fs) (bv map h) s k = true -> k <= j < k + s -> bit map (h * fs_frag fs + j) = true.
Proof.
  intros Hh H Hj. unfold is_run in H. rewrite !andb_true_iff, !Z.leb_le in H. destruct H as [[[[H1 H2] H3] _] _].
  rewrite <- bv_bits by lia. replace j with (k + (j - k)) by lia. apply (forallb_seqZ _ _ _ H3). lia.
Qed.
Lemma run_range x s k : is_run (fs_frag fs) x s k = true -> 0 <= k /\ k + s <= fs_frag fs.
Proof. intros H. unfold is_run in H. rewrite !andb_true_iff, !Z.leb_le in H. tauto. Qed.
Lemma free_block c h k : cg_ok c -> 0 <= h -> 0 <= k < fs_frag fs -> bit (cg_blksfree c) (h * fs_frag fs + k) = true -> h < nblk.
Proof.
  intros H Hh Hk Hb. destruct (Z.lt_ge_cases (h * fs_frag fs + k) (fs_fpg fs)) as [Hlt|Hge].
  - rewrite fpg_eq in Hlt. nia.
  - by rewrite (ok_end _ H) in Hb.
Qed.

(** The blocks of byte [B]. *)
Definition perbyte : Z := 8 / fs_frag fs.
Lemma perbyte_eq : perbyte * fs_frag fs = 8 /\ 1 <= perbyte <= 8.
Proof. unfold perbyte. ffrag; vm_compute; (split; [done|split; congruence]). Qed.
Lemma byte_block map B j : 0 <= B -> 0 <= j < perbyte -> bv map (B * perbyte + j) = Z.land (Z.shiftr (at_ map B) (j * fs_frag fs)) (full (fs_frag fs)).
Proof.
  intros HB Hj. unfold bv, bval, perbyte, NBBY in *. ffrag;
  match goal with |- context [(B * (8 / ?f) + j) * ?f / 8] => 
    replace ((B * (8 / f) + j) * f / 8) with B by (revert Hj; change (8 / f) with (ltac:(let x := eval vm_compute in (8 / f) in exact x)); zdiv);
    replace ((B * (8 / f) + j) * f mod 8) with (j * f) by (revert Hj; change (8 / f) with (ltac:(let x := eval vm_compute in (8 / f) in exact x)); zdiv) end; done.
Qed.

Lemma mapsearch_blk_ok c s B : cg_ok c -> 1 <= s <= fs_frag fs -> 0 <= B < Z.of_nat (length (cg_blksfree c)) ->
  forall fuel j, 0 <= j <= perbyte -> perbyte - j < Z.of_nat fuel ->
  (exists j', j <= j' < perbyte /\ 0 < nruns (fs_frag fs) (bv (cg_blksfree c) (B * perbyte + j')) s) ->
  exists h k, mapsearch_blk fuel (cg_blksfree c) s (B * 8 + j * fs_frag fs) (B * 8 + 8) = Ret (h * fs_frag fs + k) /\
    B * perbyte <= h < B * perbyte + perbyte /\ is_run (fs_frag fs) (bv (cg_blksfree c) h) s k = true /\
    forall h2, B * perbyte + j <= h2 -> 0 < nruns (fs_frag fs) (bv (cg_blksfree c) h2) s -> h <= h2.
Proof.
  intros H Hs HB. destruct perbyte_eq as [Hp1 Hp2]. pose proof frag_pos_ as Hfr.
  induction fuel as [|fuel IH]; intros j Hj Hfuel (j' & Hj' & Hr); [lia|]. cbn [mapsearch_blk].
  destruct (Z.ltb_spec (B * 8 + j * fs_frag fs) (B * 8 + 8)); [|nia].
  replace (B * 8 + j * fs_frag fs) with ((B * perbyte + j) * fs_frag fs) by (rewrite <- Hp1; ring).
  rewrite blkmap_ok by (apply Hsb || nia). bind. fold (bv (cg_blksfree c) (B * perbyte + j)).
  pose proof (frag_pos_ok (fs_frag fs) (bv (cg_blksfree c) (B * perbyte + j)) s (sb_frag Hsb) (bv_range _ _) Hs) as Hfp. unfold frag_pos in Hfp.
  destruct (find_pos _ _ _ _ _) as [k|].
  - exists (B * perbyte + j), k. split; [done|]. split; [lia|]. split; [apply Hfp|]. intros h2 Hh2 _. exact Hh2.
  - destruct (Z.eq_dec j' j) as [->|]; [lia|].
    replace ((B * perbyte + j) * fs_frag fs + fs_frag fs) with (B * 8 + (j + 1) * fs_frag fs) by (rewrite <- Hp1; ring).
    destruct (IH (j + 1)) as (h & k & E & Hh & Hk & Hmin); [lia|lia|exists j'; split; [lia|done]|].
    exists h, k. split; [done|]. split; [done|]. split; [done|]. intros h2 Hh2 Hr2.
    destruct (Z.eq_dec h2 (B * perbyte + j)) as [->|]; [lia|]. apply Hmin; [lia|done].
Qed.

Lemma byte_has_run c B s : 1 <= s <= fs_frag fs -> 0 <= B -> byte_has (fs_frag fs) (at_ (cg_blksfree c) B) s = true <->
  exists j, 0 <= j < perbyte /\ 0 < nruns (fs_frag fs) (bv (cg_blksfree c) (B * perbyte + j)) s.
Proof.
  intros Hs HB. unfold byte_has. rewrite existsb_exists. fold perbyte. split.
  - intros (j & Hj & Hr). apply list_elem_of_In, elem_of_seqZ in Hj. exists j. rewrite byte_block by lia. apply Z.ltb_lt in Hr. split; [lia|done].
  - intros (j & Hj & Hr). exists j. rewrite byte_block in Hr by lia. split; [apply list_elem_of_In, elem_of_seqZ; lia|]. by apply Z.ltb_lt.
Qed.
Lemma fragtbl_length : length (fragtbl (fs_frag fs)) = 256%nat.
Proof. by ffrag. Qed.

(** The byte of the map a search finds holds the block it takes, the first there
    with a run of [s]; a byte it passes over holds none. *)
Lemma byte_found c B s : cg_ok c -> 1 <= s <= fs_frag fs -> 0 <= B < howmany (fs_fpg fs) NBBY ->
  Z.land (at_ (fragtbl (fs_frag fs)) (at_ (cg_blksfree c) B)) (u8 (Z.shiftl 1 (s - 1 + fs_frag fs mod NBBY))) <> 0 ->
  exists h k, mapsearch_blk 9 (cg_blksfree c) s (B * NBBY) (B * NBBY + NBBY) = Ret (h * fs_frag fs + k) /\
    0 <= h < nblk /\ is_run (fs_frag fs) (bv (cg_blksfree c) h) s k = true /\ B * perbyte <= h < B * perbyte + perbyte /\
    B * NBBY < fs_fpg fs /\ forall h2, B * perbyte <= h2 -> 0 < nruns (fs_frag fs) (bv (cg_blksfree c) h2) s -> h <= h2.
Proof.
  intros H Hs HB Ht. destruct perbyte_eq as [Hp1 Hp2]. pose proof frag_pos_ as Hfr. pose proof (at_byte _ B (ok_bytes _ H)) as Hby.
  pose proof (ok_len _ H) as Hlen.
  assert (Hbh : byte_has (fs_frag fs) (at_ (cg_blksfree c) B) s = true).
  { rewrite <- tbl_has_ok by (apply Hsb || done). unfold tbl_has. apply negb_true_iff, Z.eqb_neq, Ht. }
  apply byte_has_run in Hbh; [|done|lia]. destruct (mapsearch_blk_ok c s B H Hs) with (fuel := 9%nat) (j := 0) as (h & k & E & Hh & Hk & Hmin); [lia|lia|lia| |].
  { destruct Hbh as (j & Hj & Hr). exists j. split; [lia|done]. }
  rewrite Z.mul_0_l, Z.add_0_r in E. rewrite Z.add_0_r in Hmin. unfold NBBY. rewrite E. exists h, k.
  destruct (run_range _ _ _ Hk). assert (Hbit : bit (cg_blksfree c) (h * fs_frag fs + k) = true) by (apply (run_free _ _ s k); [nia|done|lia]).
  assert (Hn : h < nblk) by (eapply (free_block c h k); [done|nia|lia|done]).
  split; [done|]. split; [nia|]. split; [done|]. split; [done|]. split; [rewrite fpg_eq; nia|done].
Qed.
Lemma byte_none c B s h : cg_ok c -> 1 <= s <= fs_frag fs -> 0 <= h -> h / perbyte = B ->
  Z.land (at_ (fragtbl (fs_frag fs)) (at_ (cg_blksfree c) B)) (u8 (Z.shiftl 1 (s - 1 + fs_frag fs mod NBBY))) = 0 ->
  nruns (fs_frag fs) (bv (cg_blksfree c) h) s <= 0.
Proof.
  intros H Hs Hh <- Ht. destruct perbyte_eq as [Hp1 Hp2]. destruct (Z.le_gt_cases (nruns (fs_frag fs) (bv (cg_blksfree c) h) s) 0) as [|Hr]; [done|exfalso].
  assert (byte_has (fs_frag fs) (at_ (cg_blksfree c) (h / perbyte)) s = true) as Hbh.
  { apply byte_has_run; [done|apply Z.div_pos; lia|]. exists (h mod perbyte). split; [apply Z.mod_pos_bound; lia|].
    replace (h / perbyte * perbyte + h mod perbyte) with h; [done|]. pose proof (Z.div_mod h perbyte). lia. }
  rewrite <- tbl_has_ok in Hbh by (apply Hsb || done || apply at_byte, H). unfold tbl_has in Hbh. by rewrite Ht in Hbh.
Qed.

(** [h] comes no later than [h2] when one goes round the group from [S]. *)
Lemma round_le S h h2 : 0 <= S < nblk -> 0 <= h < nblk -> 0 <= h2 < nblk ->
  (S <= h /\ (S <= h2 -> h <= h2)) \/ (h < S /\ h2 < S /\ h <= h2) -> (h - S) mod nblk <= (h2 - S) mod nblk.
Proof.
  intros HS Hh Hh2. assert (Hup : forall x, S <= x < nblk -> (x - S) mod nblk = x - S) by (intros; apply Z.mod_small; lia).
  assert (Hdn : forall x, 0 <= x < S -> (x - S) mod nblk = x - S + nblk) by (intros; symmetry; apply (Z.mod_unique_pos _ _ (-1)); lia).
  intros [[H1 H2]|(H1 & H2 & H3)].
  - rewrite (Hup h) by lia. destruct (Z.lt_ge_cases h2 S); [rewrite Hdn by lia; lia|]. rewrite Hup by lia. lia.
  - rewrite !Hdn by lia. lia.
Qed.

(** Where mapsearch starts when asked for [bpref]: the first block of the byte of
    the map that holds it, or the fragment rotor if no place is asked for. *)
Definition search_from (c : cgrp) (bpref : Z) : Z := (if negb (bpref =? 0) then dtogd bpref else cg_frotor c) / NBBY * perbyte.
(** Block [h] is free as a whole. *)
Definition whole (c : cgrp) (h : Z) : Prop := bv (cg_blksfree c) h = full (fs_frag fs).
(** [h] is the first block of the group with [P], going round from block [from]. *)
Definition first_from (from : Z) (P : Z -> Prop) (h : Z) : Prop :=
  P h /\ forall h2, 0 <= h2 < nblk -> P h2 -> (h - from) mod nblk <= (h2 - from) mod nblk.

Lemma search_from_ok c bpref : cg_ok c -> exists start, (if negb (bpref =? 0) then dtogd bpref else cg_frotor c) / NBBY = start /\
  0 <= start < howmany (fs_fpg fs) NBBY /\ search_from c bpref = start * perbyte /\ 0 <= start * perbyte < nblk.
Proof.
  intros H. destruct perbyte_eq as [Hp1 Hp2]. pose proof frag_pos_. destruct (sb_fpg Hsb) as [Hfpg _]. pose proof fpg_eq as Hf.
  eexists. split; [reflexivity|]. unfold search_from.
  assert (Hx : 0 <= (if negb (bpref =? 0) then dtogd bpref else cg_frotor c) < fs_fpg fs).
  { destruct (negb _); [unfold dtogd; apply Z.mod_pos_bound; lia|apply H]. }
  revert Hx. generalize (if negb (bpref =? 0) then dtogd bpref else cg_frotor c). unfold howmany, NBBY. intros x Hx.
  split; [zdiv|]. split; [done|]. pose proof (Z.div_mod x 8). pose proof (Z.mod_pos_bound x 8). pose proof (Z.div_pos x 8). nia.
Qed.

(** mapsearch finds the first run of [s] free fragments. *)
Lemma mapsearch_ok c bpref s : cg_ok c -> 1 <= s <= fs_frag fs -> 0 <= bpref ->
  (exists h, 0 <= h < nblk /\ 0 < nruns (fs_frag fs) (bv (cg_blksfree c) h) s) ->
  exists h k B, mapsearch c bpref s = Ret (h * fs_frag fs + k, set_frotor B c) /\
    0 <= h < nblk /\ is_run (fs_frag fs) (bv (cg_blksfree c) h) s k = true /\ 0 <= B < fs_fpg fs /\
    forall h2, 0 <= h2 < nblk -> 0 < nruns (fs_frag fs) (bv (cg_blksfree c) h2) s -> (h - search_from c bpref) mod nblk <= (h2 - search_from c bpref) mod nblk.
Proof.
  intros H Hs Hbp (h0 & Hh0 & Hr0). destruct perbyte_eq as [Hp1 Hp2]. pose proof frag_pos_ as Hfr. destruct (sb_fpg Hsb) as [Hfpg _].
  destruct (search_from_ok c bpref H) as (start & Es & Hst & -> & HS). unfold mapsearch. rewrite Es. set (mk := u8 _).
  set (L := howmany (fs_fpg fs) NBBY) in *. pose proof (ok_len _ H) as Hlen. fold L in Hlen. destruct (Z.ltb_spec (L - start) 0); [lia|].
  assert (Hend : forall B r, r = B * NBBY -> 0 <= B < L -> Z.land (at_ (fragtbl (fs_frag fs)) (at_ (cg_blksfree c) B)) mk <> 0 ->
    (forall h2, 0 <= h2 < nblk -> 0 < nruns (fs_frag fs) (bv (cg_blksfree c) h2) s -> start <= B /\ (start <= h2 / perbyte -> B <= h2 / perbyte) \/ B < start /\ h2 / perbyte < start /\ B <= h2 / perbyte) ->
    exists h k B', (r0 ← mapsearch_blk 9 (cg_blksfree c) s r (r + NBBY); Ret (r0, set_frotor r c)) = Ret (h * fs_frag fs + k, set_frotor B' c) /\
      0 <= h < nblk /\ is_run (fs_frag fs) (bv (cg_blksfree c) h) s k = true /\ 0 <= B' < fs_fpg fs /\
      forall h2, 0 <= h2 < nblk -> 0 < nruns (fs_frag fs) (bv (cg_blksfree c) h2) s -> (h - start * perbyte) mod nblk <= (h2 - start * perbyte) mod nblk).
  { intros B r -> HB Ht Hbytes. destruct (byte_found c B s H Hs HB Ht) as (h & k & -> & Hh & Hk & HhB & HBf & Hmin). bind. exists h, k, (B * NBBY).
    split; [done|]. split; [done|]. split; [done|]. split; [unfold NBBY in *; lia|]. intros h2 Hh2 Hr2. apply round_le; [done|done|done|].
    pose proof (Z.div_mod h2 perbyte). pose proof (Z.mod_pos_bound h2 perbyte). specialize (Hbytes h2 Hh2 Hr2). specialize (Hmin h2).
    destruct Hbytes as [[G1 G2]|(G1 & G2 & G3)]; [left|right].
    - split; [nia|]. intros Hle. apply Hmin; [|done]. assert (B <= h2 / perbyte); [|nia]. apply G2. apply Z.div_le_lower_bound; lia.
    - split; [nia|]. split; [nia|]. apply Hmin; [nia|done]. }
  assert (Hbyte : forall h2, 0 <= h2 < nblk -> 0 <= h2 / perbyte < L).
  { intros h2 Hh2. split; [apply Z.div_pos; lia|]. apply Z.div_lt_upper_bound; [lia|]. assert (h2 * fs_frag fs < fs_fpg fs) by (rewrite fpg_eq; nia).
    unfold L, howmany, NBBY. pose proof (Z.div_mod (fs_fpg fs + (8 - 1)) 8). pose proof (Z.mod_pos_bound (fs_fpg fs + (8 - 1)) 8). nia. }
  assert (Hnone : forall h2, 0 <= h2 < nblk -> 0 < nruns (fs_frag fs) (bv (cg_blksfree c) h2) s -> Z.land (at_ (fragtbl (fs_frag fs)) (at_ (cg_blksfree c) (h2 / perbyte))) mk = 0 -> False).
  { intros h2 Hh2 Hr2 Ht. pose proof (byte_none c _ s h2 H Hs ltac:(lia) eq_refl Ht). lia. }
  destruct (scanc_ok (cg_blksfree c) (fragtbl (fs_frag fs)) mk (ok_bytes _ H) fragtbl_length (Z.to_nat (L - start)) start) as (r & -> & Hr & Hr1 & Hr2); [lia|lia|].
  bind. rewrite Z2Nat.id in * by lia. destruct (Z.eqb_spec r 0) as [->|Hne].
  - destruct (scanc_ok (cg_blksfree c) (fragtbl (fs_frag fs)) mk (ok_bytes _ H) fragtbl_length (Z.to_nat (start + 1)) 0) as (r & -> & Hr' & Hr1' & Hr2'); [lia|lia|].
    bind. rewrite Z2Nat.id in * by lia.
    assert (Hlow : forall h2, 0 <= h2 < nblk -> 0 < nruns (fs_frag fs) (bv (cg_blksfree c) h2) s -> h2 / perbyte < start /\ start + 1 - r <= h2 / perbyte).
    { intros h2 Hh2 Hn. specialize (Hnone h2 Hh2 Hn). specialize (Hbyte h2 Hh2). split.
      - destruct (Z.lt_ge_cases (h2 / perbyte) start); [done|]. exfalso. apply Hnone, Hr1. lia.
      - destruct (Z.lt_ge_cases (h2 / perbyte) (start + 1 - r)); [|done]. exfalso. apply Hnone, Hr1'. lia. }
    destruct (Hlow h0 Hh0 Hr0). destruct (Z.eqb_spec r 0) as [->|Hne]; [lia|].
    bind. apply (Hend (0 + (start + 1) - r)); [done|lia|by apply Hr2'|]. intros h2 Hh2 Hn. right. specialize (Hlow h2 Hh2 Hn). lia.
  - bind. apply (Hend (start + (L - start) - r)); [done|lia|by apply Hr2|]. intros h2 Hh2 Hn. left. split; [lia|]. intros Hge.
    destruct (Z.lt_ge_cases (h2 / perbyte) (start + (L - start) - r)); [|lia]. exfalso. apply (Hnone h2 Hh2 Hn), Hr1. lia.
Qed.

(** ** Blocks *)
Lemma rdl_ok {A} (l : list A) i x : 0 <= i -> l !! Z.to_nat i = Some x -> rdl l i = Ret x.
Proof. intros Hi E. unfold rdl. destruct (Z.leb_spec 0 i); [|lia]. by rewrite E. Qed.
Lemma rdl_some {A} (l : list A) i : 0 <= i < Z.of_nat (length l) -> exists x, l !! Z.to_nat i = Some x /\ rdl l i = Ret x.
Proof.
  intros Hi. destruct (lookup_lt_is_Some_2 l (Z.to_nat i)) as [x E]; [lia|]. exists x. split; [done|]. apply rdl_ok; [lia|done].
Qed.
Lemma at_lookup l i : 0 <= i < Z.of_nat (length l) -> l !! Z.to_nat i = Some (at_ l i).
Proof. intros Hi. unfold at_. destruct (lookup_lt_is_Some_2 l (Z.to_nat i)) as [x E]; [lia|]. by rewrite E. Qed.

Lemma cyl_nonneg b : 0 <= b -> 0 <= cbtocylno b.
Proof. intros H. destruct (sb_disk Hsb) as (H1 & H2 & _). unfold cbtocylno, NSPF. apply Z.div_pos; nia. Qed.
Lemma rpos_range b : 0 <= cbtorpos b < fs_nrpos fs.
Proof.
  destruct (sb_disk Hsb) as (H1 & H2 & [H3 H4] & H5 & _). unfold cbtorpos.
  set (x := _ mod fs_nsect fs) at 1. assert (0 <= x < fs_nsect fs) by (unfold x; apply Z.mod_pos_bound; lia).
  split; [apply Z.div_pos; nia|]. apply Z.div_lt_upper_bound; nia.
Qed.

Lemma acct_ok d cg c st s : 0 <= cg -> fs_csp st !! Z.to_nat cg = Some s ->
  acct d cg c st = Ret (set_cs (add_cs d (cg_cs c)) c,
    Mnt (add_cs d (fs_cstotal st)) (<[Z.to_nat cg := add_cs d s]> (fs_csp st)) (fs_fmod st) (fs_optim st) (fs_cgrotor st) (cgs st)).
Proof. intros H E. unfold acct. by rewrite (rdl_ok _ _ s). Qed.

(** Counting a block at its cylinder and rotational position. *)
Lemma blks_by_ok n h c : cg_ok c -> 0 <= h < nblk ->
  exists tot rows, blks_by n (h * fs_frag fs) c = Ret (set_blks tot rows c) /\ length tot = length (cg_blktot c) /\ length rows = length (cg_blks c) /\
    (forall k, 0 <= k < Z.of_nat (length (cg_blktot c)) -> at_ tot k = at_ (cg_blktot c) k + if cyl h =? k then n else 0) /\
    (forall k row', rows !! Z.to_nat k = Some row' -> 0 <= k -> exists row, cg_blks c !! Z.to_nat k = Some row /\ length row' = length row /\
      forall r, 0 <= r < fs_nrpos fs -> at_ row' r = at_ row r + if (cyl h =? k) && (rpos h =? r) then n else 0).
Proof.
  intros H Hh. unfold blks_by. fold (cyl h). fold (rpos h). pose proof frag_pos_.
  assert (Hc : 0 <= cyl h < Z.of_nat (length (cg_blktot c))) by (split; [apply cyl_nonneg; nia|by apply H]).
  assert (Hr : 0 <= rpos h < fs_nrpos fs) by apply rpos_range.
  destruct (rdl_some (cg_blks c) (cyl h)) as (row & E & ->); [rewrite (ok_rows _ H); done|]. bind.
  destruct (ok_blks _ H (cyl h) row E) as [Hl _]; [lia|]. do 2 (rewrite rd_ok by lia; bind; rewrite wr_ok by lia; bind).
  eexists _, _. split; [done|]. split; [apply length_insert|]. split; [apply length_insert|]. split.
  - intros k Hk. rewrite at_insert by (rewrite ?within_spec; lia). rewrite (Z.eqb_sym (cyl h)). destruct (Z.eqb_spec k (cyl h)) as [->|]; lia.
  - intros k row' E' Hk. destruct (Z.eqb_spec (cyl h) k) as [<-|Hne].
    + rewrite list_lookup_insert_eq in E' by (apply lookup_lt_Some in E; done). injection E' as <-. exists row.
      split; [done|]. split; [apply length_insert|]. intros r Hr'. rewrite at_insert by (rewrite ?within_spec; lia). cbn [andb].
      rewrite (Z.eqb_sym (rpos h)). destruct (Z.eqb_spec r (rpos h)) as [->|]; lia.
    + rewrite list_lookup_insert_ne in E' by lia. exists row'. split; [done|]. split; [done|]. intros r _. cbn [andb]. lia.
Qed.

Lemma upd_block m m' h b : 0 <= h -> upd m m' (fun _ => b) (fun j => j / fs_frag fs =? h) ->
  changed m m' h /\ bv m' h = if b then full (fs_frag fs) else 0.
Proof.
  intros Hh (H1 & H2 & H3). split.
  - split; [done|done|]. intros j Hj Hne. rewrite H3 by done. by destruct (Z.eqb_spec (j / fs_frag fs) h).
  - pose proof (full_le (fs_frag fs) (sb_frag Hsb)). apply bval_eq; [apply Hsb|done|destruct b; lia|]. intros k Hk. rewrite H3 by nia.
    rewrite (proj1 (block_of h k Hk)), Z.eqb_refl. destruct b; [|by rewrite Z.bits_0].
    rewrite full_bits by (apply (sb_frag Hsb) || lia). symmetry. apply Z.ltb_lt. lia.
Qed.

(** What one operation leaves of the mount besides the group it works on. *)
Definition after (d : csum) (cg : Z) (s : csum) (st : mount) : mount :=
  Mnt (add_cs d (fs_cstotal st)) (<[Z.to_nat cg := add_cs d s]> (fs_csp st)) (s8 (fs_fmod st + 1)) (fs_optim st) (fs_cgrotor st) (cgs st).

(** A whole block is taken or given back: the map, and the counts. *)
Lemma flip_block c h (b : bool) map' tot rows : cg_ok c -> 0 <= h < nblk ->
  bv (cg_blksfree c) h = (if b then 0 else full (fs_frag fs)) ->
  upd (cg_blksfree c) map' (fun _ => b) (fun j => j / fs_frag fs =? h) ->
  let n := if b then 1 else -1 in
  length tot = length (cg_blktot c) -> length rows = length (cg_blks c) ->
  (forall k, 0 <= k < Z.of_nat (length (cg_blktot c)) -> at_ tot k = at_ (cg_blktot c) k + if cyl h =? k then n else 0) ->
  (forall k row', rows !! Z.to_nat k = Some row' -> 0 <= k -> exists row, cg_blks c !! Z.to_nat k = Some row /\ length row' = length row /\
     forall r, 0 <= r < fs_nrpos fs -> at_ row' r = at_ row r + if (cyl h =? k) && (rpos h =? r) then n else 0) ->
  cg_ok (set_blks tot rows (set_cs (add_cs (nbfree_by n) (cg_cs c)) (set_blksfree map' c))).
Proof.
  intros H Hh Hv Hu n Hl1 Hl2 Ht Hr. destruct (upd_block _ _ h b ltac:(lia) Hu) as [Hch Hv'].
  destruct (full_facts _ (sb_frag Hsb)) as (F1 & F2 & F3 & F4 & _).
  assert (Hd : is_full (bv map' h) - is_full (bv (cg_blksfree c) h) = n).
  { rewrite Hv, Hv'. unfold is_full, n. destruct b; rewrite Z.eqb_refl; destruct (Z.eqb_spec 0 (full (fs_frag fs))); (done || lia). }
  set (c' := set_blks _ _ _). apply (cg_change c c' h H Hch Hh); cbn; rewrite ?Hd; try done.
  - rewrite Hv, Hv'. destruct b; rewrite F2, F3; lia.
  - intros s Hs. rewrite Hv, Hv'. destruct (F4 s Hs) as [E1 E2]. destruct b; rewrite E1, E2; lia.
  - apply H.
  - apply H.
Qed.

(** Counting a block does not look at the map. *)
Lemma blks_by_frame n bno c c' : cg_blks c' = cg_blks c -> cg_blktot c' = cg_blktot c ->
  blks_by n bno c' = (c2 ← blks_by n bno c; Ret (set_blks (cg_blktot c2) (cg_blks c2) c')).
Proof.
  intros E1 E2. unfold blks_by. rewrite E1, E2. destruct (rdl (cg_blks c) _); [|done..]. bind.
  destruct (rd a _); [|done..]. bind. destruct (wr a _ _); [|done..]. bind. destruct (rd (cg_blktot c) _); [|done..]. bind.
  by destruct (wr (cg_blktot c) _ _).
Qed.

Lemma blk_gotit_ok h c st s : cg_ok c -> 0 <= h < nblk -> bv (cg_blksfree c) h = full (fs_frag fs) -> 0 <= cg_cgx c ->
  fs_csp st !! Z.to_nat (cg_cgx c) = Some s ->
  exists c', blk_gotit (h * fs_frag fs) c st = Ret (cg_cgx c * fs_fpg fs + h * fs_frag fs, c', after (nbfree_by (-1)) (cg_cgx c) s st) /\
    cg_ok c' /\ same_place c c' /\ cg_cs c' = add_cs (nbfree_by (-1)) (cg_cs c) /\ cg_frsum c' = cg_frsum c /\
    upd (cg_blksfree c) (cg_blksfree c') (fun _ => false) (fun j => j / fs_frag fs =? h).
Proof.
  intros H Hh Hv Hx Hs. unfold blk_gotit. pose proof frag_pos_. rewrite fragstoblks_eq, Z.div_mul by lia.
  assert (Hroom : h * fs_frag fs < 8 * Z.of_nat (length (cg_blksfree c))) by (apply map_room; [done|rewrite fpg_eq; nia]).
  destruct (clrblock_ok (fs_frag fs) (cg_blksfree c) h (sb_frag Hsb) (ok_bytes _ H)) as (map' & -> & Hu); [lia|done|]. bind.
  rewrite (acct_ok _ _ _ _ s) by done. bind.
  destruct (blks_by_ok (-1) h c H Hh) as (tot & rows & E & Hl1 & Hl2 & Ht & Hr).
  rewrite (blks_by_frame (-1) _ c) by done. rewrite E. bind. eexists. split; [reflexivity|]. split; [by apply (flip_block c h false)|]. split; [by repeat split|]. split; [done|]. by split.
Qed.

Definition free_blocks (c : cgrp) : Prop := exists h, 0 <= h < nblk /\ bv (cg_blksfree c) h = full (fs_frag fs).
Lemma nbfree_free c : cg_ok c -> cs_nbfree (cg_cs c) <> 0 <-> free_blocks c.
Proof.
  intros H. rewrite (ok_nbfree _ H).
  destruct (bsum_pos (fun h => is_full (bv (cg_blksfree c) h))) as (H1 & H2 & H3); [intros h _; unfold is_full; by destruct (_ =? _)|].
  split.
  - intros Hne. destruct (H2 Hne) as (h & Hh & Hf). exists h. split; [done|]. unfold is_full in Hf. cbv beta in Hf.
    by destruct (Z.eqb_spec (bv (cg_blksfree c) h) (full (fs_frag fs))).
  - intros (h & Hh & Hf). specialize (H3 h Hh). cbv beta in H3. rewrite Hf in H3. unfold is_full at 1 in H3. rewrite Z.eqb_refl in H3. cbn in H3. lia.
Qed.

Lemma set_rotors_ok c a b : cg_ok c -> 0 <= a < fs_fpg fs -> 0 <= b < fs_fpg fs -> cg_ok (set_rotor a (set_frotor b c)).
Proof. intros [] Ha Hb. by split. Qed.
Lemma set_frotor_ok c b : cg_ok c -> 0 <= b < fs_fpg fs -> cg_ok (set_frotor b c).
Proof. intros [] Hb. by split. Qed.

(** The block [h] of the group has been allocated as a whole. *)
Definition block_taken (c c' : cgrp) (h : Z) : Prop :=
  0 <= h < nblk /\ bv (cg_blksfree c) h = full (fs_frag fs) /\ cg_ok c' /\ same_place c c' /\
  cg_cs c' = add_cs (nbfree_by (-1)) (cg_cs c) /\ cg_frsum c' = cg_frsum c /\
  upd (cg_blksfree c) (cg_blksfree c') (fun _ => false) (fun j => j / fs_frag fs =? h).

Lemma blk_norot_ok bpref c st s : cg_ok c -> free_blocks c -> 0 <= bpref -> 0 <= cg_cgx c -> fs_csp st !! Z.to_nat (cg_cgx c) = Some s ->
  exists h c', blk_norot bpref c st = Ret (cg_cgx c * fs_fpg fs + h * fs_frag fs, c', after (nbfree_by (-1)) (cg_cgx c) s st) /\ block_taken c c' h /\
    first_from (search_from c bpref) (whole c) h.
Proof.
  intros H (h0 & Hh0 & Hv0) Hbp Hx Hs. pose proof frag_pos_. unfold blk_norot.
  destruct (mapsearch_ok c bpref (fs_frag fs) H) as (h & k & B & -> & Hh & Hr & HB & Hmin); [lia|lia| |].
  { exists h0. split; [done|]. rewrite Hv0, nruns_full. lia. }
  destruct (run_full _ _ (bv_range _ _) Hr) as [-> Hv]. rewrite Z.add_0_r. bind.
  destruct (Z.ltb_spec (h * fs_frag fs) 0); [nia|].
  destruct (blk_gotit_ok h (set_rotor (h * fs_frag fs) (set_frotor B c)) st s) as (c' & -> & R1 & R2 & R3 & R4 & R5); [|done..|].
  { apply set_rotors_ok; [done| |done]. rewrite fpg_eq. nia. }
  exists h, c'. split; [done|]. split; [by split|]. split; [done|]. intros h2 Hh2 Hv2. apply Hmin; [done|]. rewrite Hv2, nruns_full. lia.
Qed.

Lemma rpos_scan_ok l : forall n i, 0 <= i -> i + Z.of_nat n <= Z.of_nat (length l) ->
  exists i', rpos_scan n l i = Ret i' /\ i <= i' <= i + Z.of_nat n /\ (forall j, i <= j < i' -> at_ l j <= 0) /\ (i' < i + Z.of_nat n -> 0 < at_ l i').
Proof.
  induction n as [|n IH]; intros i Hi Hn; cbn [rpos_scan]; [exists i; split; [done|]; split; [lia|]; split; lia|].
  rewrite rd_ok by lia. bind. rewrite Z.gtb_ltb. destruct (Z.ltb_spec 0 (at_ l i)).
  - exists i. split; [done|]. split; [lia|]. split; lia.
  - destruct (IH (i + 1)) as (i' & -> & H1 & H2 & H3); [lia|lia|]. exists i'. split; [done|]. split; [lia|]. split; [|intros; apply H3; lia].
    intros j Hj. destruct (Z.eq_dec j i) as [->|]; [done|]. apply H2. lia.
Qed.

(** The position found is the first one round from [pos] that has a free block. *)
Lemma rpos_search_ok l pos : Z.of_nat (length l) = fs_nrpos fs -> 0 <= pos < fs_nrpos fs ->
  exists i, rpos_search l pos = Ret i /\ 0 <= i < fs_nrpos fs /\
    (0 < at_ l i -> forall j, 0 <= j < fs_nrpos fs -> 0 < at_ l j -> (i - pos) mod fs_nrpos fs <= (j - pos) mod fs_nrpos fs) /\
    (at_ l i <= 0 -> forall j, 0 <= j < fs_nrpos fs -> at_ l j <= 0).
Proof.
  intros Hl Hp. unfold rpos_search.
  destruct (rpos_scan_ok l (Z.to_nat (fs_nrpos fs - pos)) pos) as (i & -> & H1 & H2 & H3); [lia|lia|]. bind.
  assert (Hmod : forall j, pos <= j < fs_nrpos fs -> (j - pos) mod fs_nrpos fs = j - pos) by (intros; apply Z.mod_small; lia).
  assert (Hmod' : forall j, 0 <= j < pos -> (j - pos) mod fs_nrpos fs = j - pos + fs_nrpos fs).
  { intros j Hj. symmetry. apply (Z.mod_unique_pos _ _ (-1)); lia. }
  destruct (Z.eqb_spec i (fs_nrpos fs)) as [->|Hne].
  - destruct (rpos_scan_ok l (Z.to_nat pos) 0) as (i & -> & H4 & H5 & H6); [lia|lia|]. exists i. split; [done|]. split; [lia|]. split.
    + intros Hi j Hj Hpos. assert (j < pos) by (destruct (Z.lt_ge_cases j pos); [done|]; specialize (H2 j); lia).
      assert (i < pos) by (destruct (Z.lt_ge_cases i pos); [done|]; specialize (H2 i); lia).
      rewrite !Hmod' by lia. destruct (Z.lt_ge_cases j i); [specialize (H5 j); lia|lia].
    + intros Hi j Hj. destruct (Z.lt_ge_cases j pos) as [Hlt|]; [|apply H2; lia].
      destruct (Z.lt_ge_cases i pos) as [Hip|]; [lia|]. apply H5. lia.
  - exists i. split; [done|]. split; [lia|]. split; [|lia]. intros Hi j Hj Hpos. rewrite (Hmod i) by lia.
    destruct (Z.lt_ge_cases j pos); [rewrite Hmod' by lia; lia|]. rewrite Hmod by lia.
    destruct (Z.lt_ge_cases j i); [specialize (H2 j); lia|lia].
Qed.

Lemma rot_chain_ok c base : cg_ok c -> forall fuel i, (forall e, In e (chain fuel i) -> 0 <= base + e < nblk) ->
  (exists e, In e (chain fuel i) /\ bv (cg_blksfree c) (base + e) = full (fs_frag fs)) ->
  exists e, rot_chain fuel (cg_blksfree c) base i = Ret ((base + e) * fs_frag fs) /\ In e (chain fuel i) /\ bv (cg_blksfree c) (base + e) = full (fs_frag fs).
Proof.
  intros H. pose proof frag_pos_. induction fuel as [|fuel IH]; intros i Hin (e & He & Hv); [done|].
  cbn [chain rot_chain] in *. assert (Hi : 0 <= base + i < nblk) by (apply Hin; by left).
  rewrite isblock_ok by first [apply (sb_frag Hsb)|apply H|lia|apply map_room; [done|rewrite fpg_eq; nia]]. bind. fold (bv (cg_blksfree c) (base + i)).
  destruct (Z.eqb_spec (bv (cg_blksfree c) (base + i)) (full (fs_frag fs))) as [E|E].
  - exists i. rewrite blkstofrags_eq. split; [done|]. split; [by left|done].
  - destruct He as [->|He]; [done|]. unfold rd. destruct (within (fs_rotbl fs) i); [|done]. bind. cbv zeta in He.
    destruct (_ || _); [done|]. destruct (IH (i + at_ (fs_rotbl fs) i)) as (e' & E' & H1 & H2).
    + intros e' He'. apply Hin. by right.
    + by exists e.
    + exists e'. split; [done|]. split; [by right|done].
Qed.

(** What alloccgblk prefers.  If no place is asked for: the first free block from the
    rotor on.  If block [b0] is: that block; else a block of the same cylinder, when
    it has one, at the rotational position that comes first; else the first free block
    from [b0] on.  Without rotational tables it is, for a cylinder that has a free
    block, the first from the start of the cylinder on, and that may be of another. *)
Definition preferred (c : cgrp) (bpref h : Z) : Prop :=
  let b0 := bpref mod fs_fpg fs / fs_frag fs in
  let near := exists h2, 0 <= h2 < nblk /\ whole c h2 /\ cyl h2 = cyl b0 in
  (bpref = 0 -> first_from (search_from c (cg_rotor c)) (whole c) h) /\
  (bpref <> 0 -> whole c b0 -> h = b0) /\
  (bpref <> 0 -> ~ whole c b0 -> near -> fs_cpc fs <> 0 ->
     cyl h = cyl b0 /\ forall h2, 0 <= h2 < nblk -> whole c h2 -> cyl h2 = cyl b0 -> (rpos h - rpos b0) mod fs_nrpos fs <= (rpos h2 - rpos b0) mod fs_nrpos fs) /\
  (bpref <> 0 -> ~ whole c b0 -> near -> fs_cpc fs = 0 -> first_from (search_from c (howmany (fs_spc fs * cyl b0) NSPF)) (whole c) h) /\
  (bpref <> 0 -> ~ whole c b0 -> ~ near -> first_from (search_from c (b0 * fs_frag fs)) (whole c) h).

(** The counts by cylinder and position say where the free blocks are. *)
Lemma count_blocks c (p : Z -> bool) n : n = bsum (fun h => if p h then is_full (bv (cg_blksfree c) h) else 0) ->
  (n <> 0 -> exists h, 0 <= h < nblk /\ p h = true /\ bv (cg_blksfree c) h = full (fs_frag fs)) /\ 0 <= n /\
  forall h, 0 <= h < nblk -> p h = true -> bv (cg_blksfree c) h = full (fs_frag fs) -> 0 < n.
Proof.
  intros ->. destruct (bsum_pos (fun h => if p h then is_full (bv (cg_blksfree c) h) else 0)) as (H1 & H2 & H3).
  { intros h _. unfold is_full, b2z. destruct (p h); [destruct (_ =? _)|]; lia. }
  split; [|split; [done|]].
  - intros Hne. destruct (H2 Hne) as (h & Hh & Hf). cbv beta in Hf. exists h. split; [done|]. destruct (p h); [|lia]. split; [done|].
    unfold is_full in Hf. by destruct (Z.eqb_spec (bv (cg_blksfree c) h) (full (fs_frag fs))).
  - intros h Hh Hp Hv. specialize (H3 h Hh). cbv beta in H3. rewrite Hp, Hv in H3. unfold is_full at 1 in H3. rewrite Z.eqb_refl in H3. cbn in H3. lia.
Qed.

Lemma rot_heads_chain c r e : In e (rot_heads c r) -> exists row, fs_postbl fs !! Z.to_nat (c mod fs_cpc fs) = Some row /\ within row r = true /\
  at_ row r <> -1 /\ rot_heads c r = chain (S (Z.to_nat nblk)) (at_ row r).
Proof.
  unfold rot_heads. destruct (fs_postbl fs !! _) as [row|]; [|done]. destruct (within row r) eqn:E; [|done].
  destruct (Z.eqb_spec (at_ row r) (-1)); [done|]. intros _. by exists row.
Qed.

Lemma alloccgblk_ok c bpref st s : rot_ok -> cg_ok c -> free_blocks c -> 0 <= bpref -> 0 <= cg_cgx c -> fs_csp st !! Z.to_nat (cg_cgx c) = Some s ->
  exists h c', alloccgblk c bpref st = Ret (cg_cgx c * fs_fpg fs + h * fs_frag fs, c', after (nbfree_by (-1)) (cg_cgx c) s st) /\
    block_taken c c' h /\ preferred c bpref h.
Proof.
  intros Hrot H Hfree Hbp Hx Hs. pose proof frag_pos_. destruct (sb_fpg Hsb) as [Hfpg _]. pose proof (sb_disk Hsb) as (D1 & D2 & _). unfold alloccgblk, preferred.
  set (b0 := bpref mod fs_fpg fs / fs_frag fs).
  destruct (Z.eqb_spec bpref 0) as [->|Hne].
  { destruct (blk_norot_ok (cg_rotor c) c st s H Hfree) as (h & c' & E & Hb & Hf); [apply H|done|done|]. exists h, c'.
    split; [done|]. split; [done|]. split; [by intros _|]. do 3 (split; [intros ?; congruence|]). intros ?; congruence. }
  assert (Hb0 : 0 <= b0 < nblk).
  { unfold b0. pose proof (Z.mod_pos_bound bpref (fs_fpg fs) Hfpg) as Hm. rewrite fpg_eq in Hm at 3.
    split; [apply Z.div_pos; lia|]. apply Z.div_lt_upper_bound; lia. }
  assert (dtogd (blknum bpref) = b0 * fs_frag fs) as ->.
  { unfold dtogd, b0. rewrite blknum_eq, fpg_eq. replace (bpref mod (nblk * fs_frag fs)) with ((bpref / fs_frag fs) mod nblk * fs_frag fs + bpref mod fs_frag fs)
      by (rewrite (Z.mul_comm nblk), Z.rem_mul_r by lia; lia).
    rewrite Z.div_add_l, (Z.div_small (bpref mod _)), Z.add_0_r by (lia || apply Z.mod_pos_bound; lia).
    replace (bpref - bpref mod fs_frag fs) with (bpref / fs_frag fs * fs_frag fs) by (pose proof (Z.div_mod bpref (fs_frag fs)); lia).
    by rewrite Z.mul_mod_distr_r by lia. }
  rewrite (fragstoblks_eq (b0 * fs_frag fs)), Z.div_mul by lia.
  rewrite isblock_ok by first [apply (sb_frag Hsb)|apply H|lia|apply map_room; [done|rewrite fpg_eq; nia]]. bind. fold (bv (cg_blksfree c) b0).
  destruct (Z.eqb_spec (bv (cg_blksfree c) b0) (full (fs_frag fs))) as [Ev|Ev].
  { destruct (blk_gotit_ok b0 c st s H Hb0 Ev Hx Hs) as (c' & -> & R). exists b0, c'. split; [done|]. split; [by split|]. do 4 (split; [by intros|]). by intros. }
  change (~ whole c b0) in Ev. fold (cyl b0). fold (rpos b0). pose proof (ok_cyl _ H b0 Hb0) as Hcl. assert (Hc0 : 0 <= cyl b0) by (apply cyl_nonneg; nia).
  set (near := exists h2, 0 <= h2 < nblk /\ whole c h2 /\ cyl h2 = cyl b0).
  assert (Hnorot : forall p, 0 <= p -> (fs_cpc fs = 0 /\ near /\ p = howmany (fs_spc fs * cyl b0) NSPF) \/
      (p = b0 * fs_frag fs /\ forall h2, 0 <= h2 < nblk -> cyl h2 = cyl b0 -> bv (cg_blksfree c) h2 <> full (fs_frag fs)) ->
    exists h c', blk_norot p c st = Ret (cg_cgx c * fs_fpg fs + h * fs_frag fs, c', after (nbfree_by (-1)) (cg_cgx c) s st) /\
    block_taken c c' h /\ (bpref = 0 -> first_from (search_from c (cg_rotor c)) (whole c) h) /\ (bpref <> 0 -> whole c b0 -> h = b0) /\
    (bpref <> 0 -> ~ whole c b0 -> near -> fs_cpc fs <> 0 -> cyl h = cyl b0 /\ forall h2, 0 <= h2 < nblk -> whole c h2 -> cyl h2 = cyl b0 -> (rpos h - rpos b0) mod fs_nrpos fs <= (rpos h2 - rpos b0) mod fs_nrpos fs) /\
    (bpref <> 0 -> ~ whole c b0 -> near -> fs_cpc fs = 0 -> first_from (search_from c (howmany (fs_spc fs * cyl b0) NSPF)) (whole c) h) /\
    (bpref <> 0 -> ~ whole c b0 -> ~ near -> first_from (search_from c (b0 * fs_frag fs)) (whole c) h)).
  { intros p Hp Hno. destruct (blk_norot_ok p c st s H Hfree Hp Hx Hs) as (h & c' & E & Hb & Hf). exists h, c'. split; [done|]. split; [done|].
    split; [done|]. split; [done|]. destruct Hno as [(Hc & Hn & ->)|[-> Hno]]; [do 2 (split; [by intros|]); by intros|].
    assert (Hfar : ~ near) by (intros (h2 & Hh2 & Hv2 & Hc2); by apply (Hno h2)). split; [by intros|]. split; [by intros|]. by intros. }
  rewrite rd_ok by lia. bind. pose proof (count_blocks c (fun h => cyl h =? cyl b0) _ (ok_tot _ H (cyl b0) ltac:(lia))) as (T1 & T2 & T3).
  destruct (Z.eqb_spec (at_ (cg_blktot c) (cyl b0)) 0) as [E0|E0].
  { apply Hnorot; [nia|]. right. split; [done|]. intros h2 Hh2 Hc2 Hv2. specialize (T3 h2 Hh2). rewrite Hc2, Z.eqb_refl in T3. specialize (T3 eq_refl Hv2). lia. }
  destruct (Z.eqb_spec (fs_cpc fs) 0) as [Ecpc|Ecpc].
  { apply Hnorot; [unfold howmany, NSPF; apply Z.div_pos; nia|]. left. split; [done|]. split; [|done].
    destruct (T1 E0) as (h2 & Hh2 & Hc2 & Hv2). exists h2. split; [done|]. split; [done|]. by apply Z.eqb_eq. }
  destruct (rdl_some (cg_blks c) (cyl b0)) as (row & Erow & ->); [rewrite (ok_rows _ H); lia|]. bind.
  destruct (ok_blks _ H (cyl b0) row Erow Hc0) as [Hrl Hrow].
  destruct (rpos_search_ok row (rpos b0) Hrl (rpos_range _)) as (i & -> & Hi & Hmin & Hmax). bind. rewrite rd_ok by lia. bind.
  rewrite Z.gtb_ltb. destruct (Z.ltb_spec 0 (at_ row i)) as [Hpos|Hnpos].
  - destruct (count_blocks c (fun h => (cyl h =? cyl b0) && (rpos h =? i)) _ (Hrow i Hi)) as (P1 & _ & _).
    destruct P1 as (h1 & Hh1 & Hp1 & Hv1); [lia|]. rewrite andb_true_iff, !Z.eqb_eq in Hp1. destruct Hp1 as [Hc1 Hr1].
    destruct Hrot as [|[Hcpc Hrot]]; [done|]. pose proof (proj2 (Hrot h1 h1 Hh1) (conj Hh1 (conj eq_refl eq_refl))) as Hin1. rewrite Hc1, Hr1 in Hin1.
    destruct (rot_heads_chain _ _ _ Hin1) as (prow & Epr & Hw & Hn1 & Hch).
    rewrite (rdl_ok _ _ prow) by (done || apply Z.mod_pos_bound; lia). bind. rewrite within_spec in Hw. rewrite rd_ok by done. bind.
    destruct (Z.eqb_spec (at_ prow i) (-1)); [done|]. rewrite fragstoblks_eq. change (fs_fpg fs / fs_frag fs) with nblk. fold (cycle (cyl b0)).
    assert (Hel : forall e, In e (chain (S (Z.to_nat nblk)) (at_ prow i)) -> 0 <= cycle (cyl b0) + e < nblk /\ cyl (cycle (cyl b0) + e) = cyl b0 /\ rpos (cycle (cyl b0) + e) = i).
    { intros e He. rewrite <- Hch in He. rewrite <- Hc1, <- Hr1. apply (Hrot h1 _ Hh1). rewrite Hc1, Hr1. by replace (cycle (cyl b0) + e - cycle (cyl b0)) with e by lia. }
    destruct (rot_chain_ok c (cycle (cyl b0)) H (S (Z.to_nat nblk)) (at_ prow i)) as (e & -> & He & Hve).
    { intros e He. by apply Hel. }
    { exists (h1 - cycle (cyl b0)). rewrite <- Hch. split; [done|]. by replace (cycle (cyl b0) + (h1 - cycle (cyl b0))) with h1 by lia. }
    bind. destruct (Hel e He) as (Hh & Hch' & Hrp). destruct (blk_gotit_ok (cycle (cyl b0) + e) c st s H Hh Hve Hx Hs) as (c' & -> & R).
    exists (cycle (cyl b0) + e), c'. split; [done|]. split; [by split|]. split; [done|]. split; [done|].
    assert (Hnear : near) by (exists h1; by split). split; [|split; by intros]. intros _ _ _ _. split; [done|]. intros h2 Hh2 Hv2 Hc2. rewrite Hrp. apply (Hmin Hpos); [apply rpos_range|].
    destruct (count_blocks c (fun h => (cyl h =? cyl b0) && (rpos h =? rpos h2)) _ (Hrow (rpos h2) (rpos_range _))) as (_ & _ & P3).
    apply (P3 h2 Hh2); [|done]. by rewrite Hc2, !Z.eqb_refl.
  - apply Hnorot; [nia|]. right. split; [done|]. intros h2 Hh2 Hc2 Hv2.
    destruct (count_blocks c (fun h => (cyl h =? cyl b0) && (rpos h =? rpos h2)) _ (Hrow (rpos h2) (rpos_range _))) as (_ & _ & P3).
    specialize (Hmax ltac:(lia) (rpos h2) (rpos_range _)). specialize (P3 h2 Hh2). rewrite Hc2, !Z.eqb_refl in P3. specialize (P3 eq_refl Hv2). lia.
Qed.

(** ** The mounted file system *)
Definition sum_cs (l : list csum) : csum := foldr add_cs (Cs 0 0 0 0) l.

(** A group the code can use. *)
Definition group (st : mount) (g : Z) (c : cgrp) : Prop :=
  0 <= g /\ cgs st !! Z.to_nat g = Some c /\ cg_chkmagic c = true /\ unreadable g = false.
Definition usable (st : mount) (g : Z) : Prop := exists c, group st g c.
(** Fragment [b] of the file system is free. *)
Definition free (st : mount) (b : Z) : Prop := exists c, group st (dtog b) c /\ bit (cg_blksfree c) (dtogd b) = true.

Record st_ok (st : mount) : Prop := StOk {
  st_lens : Z.of_nat (length (cgs st)) = fs_ncg fs /\ Z.of_nat (length (fs_csp st)) = fs_ncg fs;
  st_group : forall g c, group st g c -> cg_cgx c = g /\ cg_ok c /\ fs_csp st !! Z.to_nat g = Some (cg_cs c);
  st_total : fs_cstotal st = sum_cs (fs_csp st);
  st_pos : Forall (fun s => 0 <= cs_nbfree s /\ 0 <= cs_nffree s) (fs_csp st);
  st_free : forall b, free st b -> fs_frag fs <= b < fs_size fs }.

Lemma add_cs_comm a b c : add_cs a (add_cs b c) = add_cs b (add_cs a c).
Proof. unfold add_cs. cbn. f_equal; lia. Qed.
Lemma add_cs_assoc a b c : add_cs a (add_cs b c) = add_cs (add_cs a b) c.
Proof. unfold add_cs. cbn. f_equal; lia. Qed.
Lemma sum_insert d s : forall l i, l !! i = Some s -> sum_cs (<[i := add_cs d s]> l) = add_cs d (sum_cs l).
Proof.
  induction l as [|x l IH]; intros [|i] E; cbn in *; [done|done| |].
  - injection E as ->. unfold add_cs. cbn. f_equal; lia.
  - fold (sum_cs (<[i := add_cs d s]> l)). fold (sum_cs l). by rewrite IH, add_cs_comm by done.
Qed.

(** The counts outside the group have moved by [d]. *)
Definition moved (d : csum) (g : Z) (st st' : mount) : Prop :=
  (exists s, fs_csp st !! Z.to_nat g = Some s /\ fs_csp st' = <[Z.to_nat g := add_cs d s]> (fs_csp st)) /\
  fs_cstotal st' = add_cs d (fs_cstotal st) /\ cgs st' = cgs st /\ fs_optim st' = fs_optim st.

Lemma after_moved d g s st : fs_csp st !! Z.to_nat g = Some s -> moved d g st (after d g s st).
Proof. intros E. split; [by exists s|done]. Qed.
Lemma moved_trans d1 d2 g st1 st2 st3 : moved d1 g st1 st2 -> moved d2 g st2 st3 -> moved (add_cs d2 d1) g st1 st3.
Proof.
  intros ((s & E1 & H1) & H2 & H3 & H4) ((s' & E1' & H1') & H2' & H3' & H4'). rewrite H1, list_lookup_insert_eq in E1' by (by apply lookup_lt_Some in E1).
  injection E1' as <-. split; [exists s; split; [done|]|].
  - by rewrite H1', H1, list_insert_insert_eq, add_cs_assoc.
  - rewrite H2', H2, add_cs_assoc, H3', H4'. done.
Qed.

Lemma group_div g x : 0 <= x < fs_fpg fs -> dtog (g * fs_fpg fs + x) = g /\ dtogd (g * fs_fpg fs + x) = x.
Proof.
  intros H. unfold dtog, dtogd. rewrite Z.div_add_l, (Z.div_small x), Z.add_0_r by lia. split; [done|].
  rewrite Z.add_comm, Z.mod_add by lia. by apply Z.mod_small.
Qed.
Lemma group_mod g x : (g * fs_fpg fs + x) mod fs_frag fs = x mod fs_frag fs.
Proof. pose proof frag_pos_. rewrite fpg_eq. replace (g * (nblk * fs_frag fs) + x) with (x + g * nblk * fs_frag fs) by ring. apply Z.mod_add. lia. Qed.
Lemma group_place b : 0 <= dtogd b < fs_fpg fs /\ b = dtog b * fs_fpg fs + dtogd b.
Proof. destruct (sb_fpg Hsb). unfold dtog, dtogd. split; [apply Z.mod_pos_bound; lia|]. pose proof (Z.div_mod b (fs_fpg fs)). lia. Qed.

Lemma st_write st g c c' d st1 : st_ok st -> group st g c -> cg_ok c' -> cg_chkmagic c' = cg_chkmagic c -> cg_cgx c' = cg_cgx c -> cg_cs c' = add_cs d (cg_cs c) ->
  moved d g st st1 ->
  (forall j, 0 <= j < fs_fpg fs -> bit (cg_blksfree c') j = true -> bit (cg_blksfree c) j = true \/ fs_frag fs <= g * fs_fpg fs + j < fs_size fs) ->
  let st' := bdwrite_cg g c' st1 in
  st_ok st' /\ (forall g' c2, group st' g' c2 <-> if g' =? g then c2 = c' else group st g' c2) /\ (forall b, free st' b <-> if dtog b =? g then bit (cg_blksfree c') (dtogd b) = true else free st b) /\
  forall g', usable st' g' <-> usable st g'.
Proof.
  intros Hok Hg Hc' Hp1 Hp2 Hd ((s & Es & M1) & M2 & M3 & M4) Hnew st'.
  pose proof (st_group _ Hok g c Hg) as (Gx & Gc & Gs). rewrite Gs in Es. injection Es as <-. pose proof Hg as (Hg0 & Hgc & Hgm & Hgu).
  assert (Hlt : (Z.to_nat g < length (cgs st))%nat) by by apply lookup_lt_Some in Hgc.
  assert (Hgrp : forall g' c2, group st' g' c2 <-> if g' =? g then c2 = c' else group st g' c2).
  { intros g' c2. unfold group, st'. cbn [cgs bdwrite_cg set_cgs]. rewrite M3. destruct (Z.eqb_spec g' g) as [->|Hne].
    - rewrite list_lookup_insert_eq by done. split; [intros (_ & [= <-] & _); done|]. intros ->. split; [done|]. split; [done|]. by rewrite Hp1.
    - destruct (Z.leb_spec 0 g'); [|split; intros (? & _); lia]. by rewrite list_lookup_insert_ne by lia. }
  assert (Hfree : forall b, free st' b <-> if dtog b =? g then bit (cg_blksfree c') (dtogd b) = true else free st b).
  { intros b. unfold free. split.
    - intros (c2 & H1 & H2). apply Hgrp in H1. destruct (dtog b =? g); [by subst|by exists c2].
    - destruct (Z.eqb_spec (dtog b) g) as [E|E].
      + intros H. exists c'. split; [|done]. apply Hgrp. by rewrite E, Z.eqb_refl.
      + intros (c2 & H1 & H2). exists c2. split; [|done]. apply Hgrp. by destruct (Z.eqb_spec (dtog b) g). }
  split; [|split; [done|split; [done|]]]; [|intros g'; split; intros [c2 H2];
    [apply Hgrp in H2; destruct (Z.eqb_spec g' g) as [->|]; [by exists c|by exists c2]|
     destruct (Z.eqb_spec g' g) as [->|Hne]; [exists c'|exists c2]; apply Hgrp; [by rewrite Z.eqb_refl|by rewrite (proj2 (Z.eqb_neq _ _) Hne)]]].
  destruct (st_lens _ Hok) as [L1 L2]. split.
  - unfold st'. cbn [cgs fs_csp bdwrite_cg set_cgs]. by rewrite M3, M1, !length_insert.
  - intros g' c2 H. apply Hgrp in H. unfold st'. cbn [fs_csp bdwrite_cg set_cgs]. rewrite M1. destruct (Z.eqb_spec g' g) as [->|Hne].
    + subst c2. rewrite list_lookup_insert_eq by (by apply lookup_lt_Some in Gs). by rewrite Hp2, Hd.
    + rewrite list_lookup_insert_ne by (destruct H; lia). by apply st_group.
  - unfold st'. cbn [fs_csp fs_cstotal bdwrite_cg set_cgs]. by rewrite M1, M2, (sum_insert _ _ _ _ Gs), (st_total _ Hok).
  - unfold st'. cbn [fs_csp bdwrite_cg set_cgs]. rewrite M1. apply Forall_insert; [apply Hok|]. rewrite <- Hd.
    rewrite (ok_nbfree _ Hc'), (ok_nffree _ Hc'). split; apply bsum_pos; intros h _; [unfold is_full; by destruct (_ =? _)|apply nfree_nonneg].
  - intros b Hb. destruct (Z.eqb_spec (dtog b) g) as [E|E]; [|apply (st_free _ Hok); apply Hfree in Hb; by destruct (Z.eqb_spec (dtog b) g)].
    apply Hfree in Hb. rewrite E, Z.eqb_refl in Hb. destruct (group_place b) as [P1 P2]. destruct (Hnew (dtogd b) P1 Hb) as [Hold|Hr].
    + apply (st_free _ Hok). exists c. by rewrite E.
    + rewrite P2, E. done.
Qed.

(** ** Fragments of a block *)
Lemma frsum_by_ok n i c : 0 <= i < Z.of_nat (length (cg_frsum c)) ->
  frsum_by n i c = Ret (set_frsum (<[Z.to_nat i := at_ (cg_frsum c) i + n]> (cg_frsum c)) c).
Proof. intros H. unfold frsum_by. rewrite rd_ok by done. bind. by rewrite wr_ok. Qed.

(** A free fragment of size [a] is used, and one of size [e] is left. *)
Lemma frsum_take c a e (b : bool) : Z.of_nat (length (cg_frsum c)) = 8 -> b = (e =? 0) -> 0 <= e < 8 -> 1 <= a < 8 ->
  exists fr1 fr, frsum_by (-1) a c = Ret (set_frsum fr1 c) /\
    (if negb b then frsum_by 1 e (set_frsum fr1 c) else Ret (set_frsum fr1 c)) = Ret (set_frsum fr c) /\ length fr = 8%nat /\
    forall s, 1 <= s -> at_ fr s = at_ (cg_frsum c) s - (if s =? a then 1 else 0) + (if s =? e then 1 else 0).
Proof.
  intros Hl -> He Ha. rewrite frsum_by_ok by lia. set (fr1 := <[Z.to_nat a := _]> _).
  assert (Hl1 : Z.of_nat (length fr1) = 8) by (unfold fr1; by rewrite length_insert).
  assert (Hat1 : forall s, 0 <= s -> at_ fr1 s = at_ (cg_frsum c) s - (if s =? a then 1 else 0)).
  { intros s Hs. unfold fr1. rewrite at_insert by (rewrite ?within_spec; lia). destruct (Z.eqb_spec s a) as [->|]; lia. }
  exists fr1. destruct (Z.eqb_spec e 0) as [->|Hne]; cbn [negb].
  - exists fr1. split; [done|]. split; [done|]. split; [lia|]. intros s Hs. rewrite Hat1 by lia. destruct (Z.eqb_spec s 0); lia.
  - rewrite frsum_by_ok by (cbn [cg_frsum set_frsum]; lia). eexists. split; [done|]. split; [reflexivity|]. cbn [cg_frsum set_frsum].
    split; [rewrite length_insert; lia|]. intros s Hs. rewrite at_insert by (rewrite ?within_spec; lia). destruct (Z.eqb_spec s e) as [->|]; rewrite Hat1 by lia; lia.
Qed.

Lemma frag_change c h map' fr d : cg_ok c -> 0 <= h < nblk -> changed (cg_blksfree c) map' h ->
  bv (cg_blksfree c) h <> full (fs_frag fs) -> bv map' h <> full (fs_frag fs) ->
  nfree (fs_frag fs) (bv map' h) = nfree (fs_frag fs) (bv (cg_blksfree c) h) + d -> length fr = 8%nat ->
  (forall s, 1 <= s < fs_frag fs -> at_ fr s = at_ (cg_frsum c) s + (nruns (fs_frag fs) (bv map' h) s - nruns (fs_frag fs) (bv (cg_blksfree c) h) s)) ->
  cg_ok (set_frsum fr (set_cs (add_cs (nffree_by d) (cg_cs c)) (set_blksfree map' c))).
Proof.
  intros H Hh Hch Hx Hy Hn Hl Hs. set (c' := set_frsum _ _). 
  assert (E : is_full (bv map' h) - is_full (bv (cg_blksfree c) h) = 0) by (unfold is_full; by rewrite !(proj2 (Z.eqb_neq _ _)) by done).
  apply (cg_change c c' h H Hch Hh); cbn; rewrite ?E, ?Hn, ?(proj1 (ok_frsum _ H)); try done; try lia; try apply H.
  - intros k Hk. destruct (_ =? _); lia.
  - intros k row' Er Hk. exists row'. split; [done|]. split; [done|]. intros r Hr. destruct (_ && _); lia.
Qed.

Lemma upd_take m m' h k n (b : bool) : 0 <= h -> 0 <= k -> 0 <= n -> k + n <= fs_frag fs ->
  upd m m' (fun _ => b) (ranged (h * fs_frag fs + k) n) ->
  changed m m' h /\ bv m' h = if b then Z.lor (bv m h) (mask k n) else Z.ldiff (bv m h) (mask k n).
Proof.
  intros Hh Hk Hn Hkn (H1 & H2 & H3). pose proof frag_pos_. split.
  - split; [done|done|]. intros j Hj Hne. rewrite H3 by done. unfold ranged.
    destruct (Z.leb_spec (h * fs_frag fs + k) j), (Z.ltb_spec j (h * fs_frag fs + k + n)); cbn [andb]; try done.
    exfalso. apply Hne. replace j with (h * fs_frag fs + (j - h * fs_frag fs)) by lia. apply block_of. lia.
  - apply Z.bits_inj'. intros j Hj. pose proof (bval_bits (fs_frag fs) m' h j (sb_frag Hsb) Hh Hj) as E. fold (bv m' h) in E. rewrite E.
    pose proof (bval_bits (fs_frag fs) m h j (sb_frag Hsb) Hh Hj) as E'. fold (bv m h) in E'. rewrite H3 by nia.
    assert (Hr : ranged (h * fs_frag fs + k) n (h * fs_frag fs + j) = ranged k n j).
    { unfold ranged. destruct (Z.leb_spec (h * fs_frag fs + k) (h * fs_frag fs + j)), (Z.leb_spec k j); try lia;
      destruct (Z.ltb_spec (h * fs_frag fs + j) (h * fs_frag fs + k + n)), (Z.ltb_spec j (k + n)); (done || lia). }
    rewrite Hr. destruct b; [rewrite Z.lor_spec|rewrite Z.ldiff_spec]; rewrite mask_bits, E' by lia; unfold ranged;
    destruct (Z.ltb_spec j (fs_frag fs)), (Z.leb_spec k j), (Z.ltb_spec j (k + n)); cbn [andb negb]; rewrite ?orb_true_r, ?orb_false_r, ?andb_true_r, ?andb_false_r; (done || lia).
Qed.

(** ** alloccg *)

(** Group [g] has [n] free fragments in a row in a block. *)
Definition room (c : cgrp) (n : Z) : Prop :=
  exists h k, 0 <= h < nblk /\ 0 <= k /\ k + n <= fs_frag fs /\ forall j, k <= j < k + n -> bit (cg_blksfree c) (h * fs_frag fs + j) = true.
Definition has_room (st : mount) (g n : Z) : Prop := exists c, group st g c /\ room c n.

(** What no operation changes. *)
Definition keeps (st st' : mount) : Prop := (forall g, usable st' g <-> usable st g) /\ fs_optim st' = fs_optim st.

(** Fragments [r] to [r + n - 1] were free, lie in one block, and are the ones taken. *)
Definition taken (st st' : mount) (r n : Z) : Prop :=
  0 < r /\ r mod fs_frag fs + n <= fs_frag fs /\ (forall b, r <= b < r + n -> free st b) /\
  (forall b, free st' b <-> free st b /\ ~ r <= b < r + n) /\ keeps st st'.

Lemma frsum_scan_ok l : forall n i, 0 <= i -> i + Z.of_nat n <= Z.of_nat (length l) ->
  exists a, frsum_scan n l i = Ret a /\ i <= a <= i + Z.of_nat n /\ (forall j, i <= j < a -> at_ l j = 0) /\ (a < i + Z.of_nat n -> at_ l a <> 0).
Proof.
  induction n as [|n IH]; intros i Hi Hn; cbn [frsum_scan]; [exists i; split; [done|]; split; [lia|]; split; lia|].
  rewrite rd_ok by lia. bind. destruct (Z.eqb_spec (at_ l i) 0) as [E|E]; cbn [negb].
  - destruct (IH (i + 1)) as (a & -> & H1 & H2 & H3); [lia|lia|]. exists a. split; [done|]. split; [lia|]. split; [|intros; apply H3; lia].
    intros j Hj. destruct (Z.eq_dec j i) as [->|]; [done|]. apply H2. lia.
  - exists i. split; [done|]. split; [lia|]. split; [lia|done].
Qed.

Lemma frsum_pos c s : cg_ok c -> 1 <= s < fs_frag fs ->
  (at_ (cg_frsum c) s <> 0 -> exists h, 0 <= h < nblk /\ 0 < nruns (fs_frag fs) (bv (cg_blksfree c) h) s) /\
  forall h, 0 <= h < nblk -> nruns (fs_frag fs) (bv (cg_blksfree c) h) s <= at_ (cg_frsum c) s.
Proof.
  intros H Hs. rewrite (proj2 (ok_frsum _ H)) by done.
  destruct (bsum_pos (fun h => nruns (fs_frag fs) (bv (cg_blksfree c) h) s)) as (_ & H2 & H3); [intros; apply nruns_nonneg|by split].
Qed.

Lemma room_run c n : cg_ok c -> 1 <= n -> room c n -> free_blocks c \/ exists s, n <= s < fs_frag fs /\ at_ (cg_frsum c) s <> 0.
Proof.
  intros H Hn (h & k & Hh & Hk & Hkn & Hb).
  destruct (run_exists (fs_frag fs) (bv (cg_blksfree c) h) k n (sb_frag Hsb) (bv_range _ _) Hk Hn Hkn) as (t & Ht & Hr).
  { intros j Hj. rewrite bv_bits by lia. by apply Hb. }
  destruct (Z.eq_dec t (fs_frag fs)) as [->|Hne].
  - left. exists h. split; [done|].
    pose proof frag_pos_.
    pose proof (frag_pos_ok (fs_frag fs) (bv (cg_blksfree c) h) (fs_frag fs) (sb_frag Hsb) (bv_range _ _) ltac:(lia)) as Hp.
    destruct (frag_pos _ _ _) as [p|]; [|lia]. by destruct (run_full _ p (bv_range _ _) (proj1 Hp)).
  - right. exists t. split; [lia|]. pose proof (proj2 (frsum_pos c t H ltac:(lia)) h Hh). lia.
Qed.

(** A step that clears the [n] bits from [x] on in group [g]. *)
Lemma taken_upd st g c c' d st1 x n : st_ok st -> group st g c -> cg_ok c' -> same_place c c' -> cg_cs c' = add_cs d (cg_cs c) ->
  moved d g st st1 -> 0 <= x -> 1 <= n -> x mod fs_frag fs + n <= fs_frag fs -> x + n <= fs_fpg fs ->
  (forall j, x <= j < x + n -> bit (cg_blksfree c) j = true) ->
  (forall j, 0 <= j -> bit (cg_blksfree c') j = if ranged x n j then false else bit (cg_blksfree c) j) ->
  st_ok (bdwrite_cg g c' st1) /\ taken st (bdwrite_cg g c' st1) (g * fs_fpg fs + x) n.
Proof.
  intros Hok Hg Hc' Hp Hd Hm Hx Hn Hal Hxn Hset Hbit.
  assert (Hin : forall b, g * fs_fpg fs + x <= b < g * fs_fpg fs + x + n -> free st b).
  { intros b Hb. destruct (group_div g (b - g * fs_fpg fs)) as [E1 E2]; [lia|]. replace (g * fs_fpg fs + (b - g * fs_fpg fs)) with b in * by lia.
    exists c. rewrite E1, E2. split; [done|]. apply Hset. lia. }
  assert (Hr : forall b, dtog b = g -> ranged x n (dtogd b) = true <-> g * fs_fpg fs + x <= b < g * fs_fpg fs + x + n).
  { intros b Eb. destruct (group_place b) as [H1 H2]. unfold ranged. rewrite andb_true_iff, Z.leb_le, Z.ltb_lt. rewrite Eb in H2. lia. }
  destruct (st_write st g c c' d st1 Hok Hg Hc' (proj1 Hp) (proj1 (proj2 Hp)) Hd Hm) as (R1 & _ & R2 & R3).
  { intros j Hj. rewrite Hbit by lia. destruct (ranged x n j); [done|]. by left. }
  split; [done|]. split; [|split; [|split; [done|split; [|by split; [|destruct Hm as (_ & _ & _ & ?)]]]]].
  - assert (Hf : free st (g * fs_fpg fs + x)) by (apply Hin; lia). apply (st_free _ Hok) in Hf. pose proof frag_pos_. lia.
  - by rewrite group_mod.
  - intros b. rewrite R2. destruct (Z.eqb_spec (dtog b) g) as [E|E].
    + destruct (group_place b) as [H1 _]. rewrite Hbit by lia. specialize (Hr b E). destruct (ranged x n (dtogd b)).
      * split; [done|]. intros [_ N]. exfalso. by apply N, Hr.
      * split.
        -- intros Hb. split; [exists c; by rewrite E|]. intros N. by apply Hr in N.
        -- intros [(c2 & H2 & H3) _]. rewrite E in H2. destruct H2 as (_ & E2 & _), Hg as (_ & E3 & _). congruence.
    + split; [|by intros [? _]]. intros Hb. split; [done|]. intros N. apply E.
      destruct (group_div g (b - g * fs_fpg fs)) as [E1 _]; [lia|]. by replace (g * fs_fpg fs + (b - g * fs_fpg fs)) with b in E1 by lia.
Qed.

Lemma block_bits_full c h j : 0 <= h -> 0 <= j < fs_frag fs -> bv (cg_blksfree c) h = full (fs_frag fs) -> bit (cg_blksfree c) (h * fs_frag fs + j) = true.
Proof. intros Hh Hj E. rewrite <- bv_bits, E, full_bits by (apply (sb_frag Hsb) || lia). apply Z.ltb_lt. lia. Qed.
Lemma ranged_block h j : 0 <= j -> (j / fs_frag fs =? h) = ranged (h * fs_frag fs) (fs_frag fs) j.
Proof.
  intros Hj. unfold ranged. pose proof frag_pos_. pose proof (Z.div_mod j (fs_frag fs)). pose proof (Z.mod_pos_bound j (fs_frag fs)).
  destruct (Z.eqb_spec (j / fs_frag fs) h), (Z.leb_spec (h * fs_frag fs) j), (Z.ltb_spec j (h * fs_frag fs + fs_frag fs)); cbn [andb]; try done; exfalso; nia.
Qed.
Lemma fmod_inc_moved d g st st1 : moved d g st st1 -> moved d g st (fmod_inc st1).
Proof. intros (H1 & H2 & H3 & H4). by repeat split. Qed.

(** A whole block that is asked for by number and free is the one taken. *)
Definition on_the_spot (st : mount) (g bpref n r : Z) : Prop :=
  n = fs_frag fs -> bpref <> 0 -> dtog bpref = g -> (forall b, blknum bpref <= b < blknum bpref + fs_frag fs -> free st b) -> r = blknum bpref.
Lemma spot_free st g c bpref : group st g c -> dtog bpref = g -> (forall b, blknum bpref <= b < blknum bpref + fs_frag fs -> free st b) ->
  bv (cg_blksfree c) (dtogd bpref / fs_frag fs) = full (fs_frag fs) /\ blknum bpref = g * fs_fpg fs + dtogd bpref / fs_frag fs * fs_frag fs.
Proof.
  intros Hg Hd Hall. pose proof frag_pos_. destruct (group_place bpref) as [Hx Hb]. rewrite Hd in Hb.
  destruct (block_split (dtogd bpref) Hx) as (h & k & Ex & Hh & Hk). destruct (block_of h k Hk) as [D1 D2]. rewrite Ex, D1.
  assert (Em : bpref mod fs_frag fs = k) by (rewrite Hb, group_mod, Ex; exact D2).
  assert (En : blknum bpref = g * fs_fpg fs + h * fs_frag fs) by (rewrite blknum_eq, Em, Hb at 1; lia). split; [|done].
  apply bval_eq; [apply (sb_frag Hsb)|lia|pose proof (full_le _ (sb_frag Hsb)); lia|]. intros j Hj. rewrite full_bits, (proj2 (Z.ltb_lt _ _)) by first [apply (sb_frag Hsb)|lia].
  destruct (Hall (g * fs_fpg fs + (h * fs_frag fs + j)) ltac:(lia)) as (c2 & (_ & Hc2 & _) & Hbit).
  destruct (group_div g (h * fs_frag fs + j)) as [E1 E2]; [by apply block_below|]. rewrite E1 in Hc2. rewrite E2 in Hbit. destruct Hg as (_ & Hc & _). congruence.
Qed.

(** A whole block. *)
Lemma alloccg_block g bpref st c : rot_ok -> st_ok st -> group st g c -> free_blocks c -> 0 <= bpref ->
  exists r c' st', alloccgblk c bpref st = Ret (r, c', st') /\ st_ok (bdwrite_cg g c' st') /\ taken st (bdwrite_cg g c' st') r (fs_frag fs) /\ dtog r = g /\ on_the_spot st g bpref (fs_frag fs) r.
Proof.
  intros Hrot Hok Hg Hfb Hbp. destruct (st_group _ Hok g c Hg) as (Gx & Gc & Gs). pose proof frag_pos_.
  destruct (alloccgblk_ok c bpref st (cg_cs c) Hrot Gc Hfb Hbp) as (h & c' & E & (Hh & Hv & Hc' & Hp & Hd & _ & _ & _ & Hb) & Hpref); [destruct Hg; lia|by rewrite Gx|].
  rewrite Gx in E. eexists _, _, _. split; [exact E|]. assert (Hlt : 0 <= h * fs_frag fs < fs_fpg fs) by (rewrite fpg_eq; nia).
  split; [|split; [|split; [by apply group_div|]]];
    [| |intros _ Hb0 Hbg Hbf; destruct (spot_free st g c bpref Hg Hbg Hbf) as [Hbv ->]; by rewrite (proj1 (proj2 Hpref) Hb0 Hbv)];
    (eapply (taken_upd st g c c' (nbfree_by (-1)) _ (h * fs_frag fs) (fs_frag fs)); try done;
    [by apply after_moved|lia|lia|rewrite Z.mod_mul by lia; lia|rewrite fpg_eq; nia
    |intros j Hj; replace j with (h * fs_frag fs + (j - h * fs_frag fs)) by lia; apply block_bits_full; (done || lia)
    |intros j Hj; by rewrite Hb, ranged_block]).
Qed.

(** A block is taken and its last fragments given back. *)
Lemma alloccg_split g bpref st c n : rot_ok -> st_ok st -> group st g c -> free_blocks c -> 0 <= bpref -> 1 <= n < fs_frag fs ->
  exists r st', ('(bno, c, st) ← alloccgblk c bpref st;
      let bpref := dtogd bno in
      map ← setbits (Z.to_nat (fs_frag fs - n)) (cg_blksfree c) (bpref + n);
      let i := fs_frag fs - n in
      '(c, st) ← acct (nffree_by i) g (set_blksfree map c) st;
      c ← frsum_by 1 i c;
      Ret (bno, bdwrite_cg g c (fmod_inc st))) = Ret (r, st') /\ st_ok st' /\ taken st st' r n /\ dtog r = g.
Proof.
  intros Hrot Hok Hg Hfb Hbp Hn. destruct (st_group _ Hok g c Hg) as (Gx & Gc & Gs). pose proof frag_pos_. assert (Hg0 : 0 <= g) by (by destruct Hg).
  destruct (alloccgblk_ok c bpref st (cg_cs c) Hrot Gc Hfb Hbp) as (h & c1 & E & (Hh & Hv & Hc1 & Hp & Hd & Hfr & Hu) & _); [lia|by rewrite Gx|].
  rewrite Gx in E. rewrite E. bind. cbv zeta. assert (Hlt : 0 <= h * fs_frag fs < fs_fpg fs) by (rewrite fpg_eq; nia).
  destruct (group_div g _ Hlt) as [E1 E2]. rewrite E2.
  destruct (setbits_ok (Z.to_nat (fs_frag fs - n)) (cg_blksfree c1) (h * fs_frag fs + n) (ok_bytes _ Hc1)) as (map' & -> & Hu'); [lia| |].
  { pose proof (map_room c1 (h * fs_frag fs + fs_frag fs - 1) Hc1). rewrite fpg_eq in H0. assert (h * fs_frag fs + fs_frag fs - 1 < nblk * fs_frag fs) by nia. lia. }
  bind. rewrite Z2Nat.id in Hu' by lia. set (st1 := after _ _ _ _).
  assert (Es1 : fs_csp st1 !! Z.to_nat g = Some (add_cs (nbfree_by (-1)) (cg_cs c))).
  { unfold st1. cbn [after fs_csp]. apply list_lookup_insert_eq. by apply lookup_lt_Some in Gs. }
  rewrite (acct_ok _ _ _ _ _ Hg0 Es1). bind. rewrite frsum_by_ok by (cbn; rewrite (proj1 (ok_frsum _ Hc1)); lia). bind.
  set (c2 := set_frsum _ _). eexists _, _. split; [reflexivity|].
  destruct (upd_take _ _ h n (fs_frag fs - n) true ltac:(lia) ltac:(lia) ltac:(lia) ltac:(lia) Hu') as [Hch Hbv].
  destruct (upd_block _ _ h false ltac:(lia) Hu) as [_ Hv1]. rewrite Hv1, Z.lor_0_l in Hbv.
  destruct (full_facts _ (sb_frag Hsb)) as (F1 & F2 & F3 & F4 & F5). destruct (F5 n ltac:(lia)) as (Y1 & Y2 & Y3 & Y4).
  assert (Hc2 : cg_ok c2).
  { apply (frag_change c1 h map' _ (fs_frag fs - n)); [done|done|done|by rewrite Hv1|by rewrite Hbv|rewrite Hbv, Hv1, F3, Y3; lia| |].
    - cbn. rewrite length_insert. apply Hc1.
    - intros s Hs. rewrite Hbv, Hv1, (proj2 (F4 s Hs)), Y4 by done. cbn. rewrite at_insert by (rewrite ?within_spec, ?(proj1 (ok_frsum _ Hc1)); lia).
      destruct (Z.eqb_spec s (fs_frag fs - n)) as [->|]; lia. }
  assert (Hcs : cg_cs c2 = add_cs (add_cs (nffree_by (fs_frag fs - n)) (nbfree_by (-1))) (cg_cs c)) by (cbn; by rewrite Hd, add_cs_assoc).
  assert (Hsp : same_place c c2) by (destruct Hp as (P1 & P2 & P3 & P4); by repeat split).
  set (st2 := Mnt _ _ _ _ _ _).
  assert (Hm : moved (add_cs (nffree_by (fs_frag fs - n)) (nbfree_by (-1))) g st (fmod_inc st2)).
  { apply fmod_inc_moved, (moved_trans _ _ _ _ st1); [by apply after_moved|]. split; [by eexists|done]. }
  assert (Hbits : forall j, 0 <= j -> bit map' j = if ranged (h * fs_frag fs) n j then false else bit (cg_blksfree c) j).
  { intros j Hj. rewrite (proj2 (proj2 Hu')), (proj2 (proj2 Hu)), ranged_block by done. unfold ranged.
    destruct (Z.leb_spec (h * fs_frag fs + n) j), (Z.ltb_spec j (h * fs_frag fs + n + (fs_frag fs - n))),
      (Z.leb_spec (h * fs_frag fs) j), (Z.ltb_spec j (h * fs_frag fs + fs_frag fs)), (Z.ltb_spec j (h * fs_frag fs + n)); cbn [andb]; try lia; try done.
    replace j with (h * fs_frag fs + (j - h * fs_frag fs)) by lia. symmetry. apply block_bits_full; (done || lia). }
  split; [|split; [|by apply group_div]]; (eapply (taken_upd st g c c2 _ _ (h * fs_frag fs) n); try done; try lia;
    [rewrite Z.mod_mul by lia; lia|rewrite fpg_eq; nia
    |intros j Hj; replace j with (h * fs_frag fs + (j - h * fs_frag fs)) by lia; apply block_bits_full; (done || lia)]).
Qed.

(** A free fragment of size [a] is taken, or its first [n] fragments. *)
Lemma alloccg_frag g bpref st c a n : st_ok st -> group st g c -> 0 <= bpref -> 1 <= n <= a -> a < fs_frag fs -> at_ (cg_frsum c) a <> 0 ->
  exists r st', ('(bno, c) ← mapsearch c bpref a;
      if bno <? 0 then Ret (0, st)
      else
        map ← clrbits (Z.to_nat n) (cg_blksfree c) bno;
        '(c, st) ← acct (nffree_by (- n)) g (set_blksfree map c) st;
        c ← frsum_by (-1) a c;
        c ← (if negb (n =? a) then frsum_by 1 (a - n) c else Ret c);
        Ret (g * fs_fpg fs + bno, bdwrite_cg g c (fmod_inc st))) = Ret (r, st') /\ st_ok st' /\ taken st st' r n /\ dtog r = g.
Proof.
  intros Hok Hg Hbp Hn Ha Hne. destruct (st_group _ Hok g c Hg) as (Gx & Gc & Gs). pose proof frag_pos_. assert (Hg0 : 0 <= g) by (by destruct Hg).
  destruct (mapsearch_ok c bpref a Gc) as (h & k & B & -> & Hh & Hr & HB & _); [lia|done|by apply frsum_pos; [|lia|]|]. bind.
  destruct (run_range _ _ _ Hr) as [Hk Hka]. destruct (Z.ltb_spec (h * fs_frag fs + k) 0); [nia|].
  set (c1 := set_frotor B c). assert (Hc1 : cg_ok c1) by by apply set_frotor_ok.
  assert (Hroom : h * fs_frag fs + k + n <= fs_fpg fs) by (rewrite fpg_eq; nia).
  destruct (clrbits_ok (Z.to_nat n) (cg_blksfree c1) (h * fs_frag fs + k) (ok_bytes _ Hc1)) as (map' & -> & Hu); [nia| |].
  { pose proof (map_room c1 (h * fs_frag fs + k + n - 1) Hc1). lia. }
  bind. rewrite Z2Nat.id in Hu by lia. rewrite (acct_ok _ _ _ _ _ Hg0 Gs). bind.
  destruct (upd_take _ _ h k n false ltac:(lia) Hk ltac:(lia) ltac:(lia) Hu) as [Hch Hbv].
  destruct (take_facts (fs_frag fs) _ a k n (sb_frag Hsb) (bv_range _ _) Hr Hn Ha) as (T1 & T2 & T3 & T4 & T5). change (cg_blksfree c1) with (cg_blksfree c) in *.
  set (cs' := set_cs _ _). set (st1 := Mnt _ _ _ _ _ _).
  assert (Eb : (n =? a) = (a - n =? 0)) by (destruct (Z.eqb_spec n a), (Z.eqb_spec (a - n) 0); (done || lia)).
  destruct (frsum_take cs' a (a - n) (n =? a)) as (fr1 & fr & -> & E & Hl & Hat); [by cbn; rewrite (proj1 (ok_frsum _ Gc))|done|lia|lia|]. bind. rewrite E. bind.
  change (set_frsum fr (set_frsum fr1 cs')) with (set_frsum fr cs') in *. change (cg_frsum cs') with (cg_frsum c) in Hat.
  eexists _, _. split; [reflexivity|].
  assert (Hc2 : cg_ok (set_frsum fr cs')).
  { apply (frag_change c1 h map' fr (- n)); [done|done|done|done|by rewrite Hbv|rewrite Hbv; change (cg_blksfree c1) with (cg_blksfree c); lia|done|].
    intros s Hs. rewrite Hbv, T5, Hat by (done || lia). change (cg_blksfree c1) with (cg_blksfree c). change (cg_frsum c1) with (cg_frsum c). lia. }
  assert (Hm : moved (nffree_by (- n)) g st (fmod_inc st1)) by (apply fmod_inc_moved; split; [by exists (cg_cs c)|done]).
  split; [|split; [|apply group_div; nia]]; (eapply (taken_upd st g c (set_frsum fr cs') _ _ (h * fs_frag fs + k) n); try done; try lia; try nia;
    [rewrite (proj2 (block_of h k ltac:(lia))); lia
    |intros j Hj; replace j with (h * fs_frag fs + (j - h * fs_frag fs)) by lia; apply (run_free _ _ a k); [lia|done|lia]
    |intros j Hj; apply Hu, Hj]).
Qed.

Lemma alloccg_ok g bpref size n st : rot_ok -> st_ok st -> 0 <= g < fs_ncg fs -> frag_size size n -> 0 <= bpref ->
  exists r st', alloccg g bpref size st = Ret (r, st') /\
    ((r = 0 /\ st' = st /\ ~ has_room st g n) \/ (st_ok st' /\ taken st st' r n /\ dtog r = g /\ on_the_spot st g bpref n r)).
Proof.
  intros Hrot Hok Hg Hsz Hbp. destruct (frag_size_ok _ _ Hsz) as (S1 & S2 & S3 & S4 & S5). destruct Hsz as [_ Hn]. pose proof frag_pos_ as Hfp.
  unfold alloccg. destruct (st_lens _ Hok) as [L1 L2]. destruct (rdl_some (fs_csp st) g) as (s & Es & ->); [lia|]. bind. rewrite S4, S1.
  assert (Hfail : ~ has_room st g n -> exists r st', Ret (0, st) = Ret (r, st') /\
    ((r = 0 /\ st' = st /\ ~ has_room st g n) \/ (st_ok st' /\ taken st st' r n /\ dtog r = g /\ on_the_spot st g bpref n r))) by (intros H; exists 0, st; split; [done|by left]).
  assert (Hnob : forall c, group st g c -> cs_nbfree (cg_cs c) = 0 -> ~ free_blocks c).
  { intros c Hc E Hf. apply (nbfree_free c) in Hf; [done|]. by apply (st_group _ Hok g). }
  assert (Hnofull : forall c, group st g c -> n = fs_frag fs -> cs_nbfree (cg_cs c) = 0 -> ~ has_room st g n).
  { intros c Hc -> E (c2 & Hc2 & Hr). assert (c2 = c) as -> by (destruct Hc as (_ & E1 & _), Hc2 as (_ & E2 & _); congruence).
    apply (Hnob c Hc E). destruct (room_run c (fs_frag fs)) as [?|(t & Ht & _)]; [by apply (st_group _ Hok g)|lia|done|done|lia]. }
  destruct ((cs_nbfree s =? 0) && (n =? fs_frag fs)) eqn:Eg.
  { rewrite andb_true_iff, !Z.eqb_eq in Eg. destruct Eg as [E0 En]. apply Hfail. intros Hr. pose proof Hr as (c & Hc & _). revert Hr. apply (Hnofull c); [done|done|].
    destruct (st_group _ Hok g c Hc) as (_ & _ & Gs). congruence. }
  unfold bread_cg. destruct (unreadable g) eqn:Eu; [bind; apply Hfail; intros (c & (_ & _ & _ & Hc) & _); congruence|].
  destruct (rdl_some (cgs st) g) as (c & Ec & ->); [lia|]. bind.
  destruct (cg_chkmagic c) eqn:Em; [|apply Hfail; intros (c2 & (_ & Hc2 & Hc3 & _) & _); congruence].
  assert (Hgrp : group st g c) by by split; [lia|]. destruct (st_group _ Hok g c Hgrp) as (Gx & Gc & Gs). assert (s = cg_cs c) as -> by congruence.
  rewrite Eg. destruct (Z.eqb_spec n (fs_frag fs)) as [En|En].
  - rewrite andb_true_r in Eg. apply Z.eqb_neq in Eg. destruct (alloccg_block g bpref st c Hrot Hok Hgrp (proj1 (nbfree_free c Gc) Eg) Hbp) as (r & c' & st' & -> & R).
    bind. exists r, (bdwrite_cg g c' st'). split; [done|]. right. by rewrite En.
  - destruct (frsum_scan_ok (cg_frsum c) (Z.to_nat (fs_frag fs - n)) n) as (a & -> & A1 & A2 & A3); [lia|rewrite (proj1 (ok_frsum _ Gc)); lia|]. bind.
    rewrite Z2Nat.id in * by lia. destruct (Z.eqb_spec a (fs_frag fs)) as [->|Ea].
    + destruct (Z.eqb_spec (cs_nbfree (cg_cs c)) 0) as [E0|E0].
      * apply Hfail. intros (c2 & Hc2 & Hr). assert (c2 = c) as -> by (destruct Hc2 as (_ & E2 & _); congruence).
        destruct (room_run c n Gc ltac:(lia) Hr) as [Hf|(t & Ht & Hne)]; [by apply (Hnob c)|]. apply Hne, A2. lia.
      * destruct (alloccg_split g bpref st c n Hrot Hok Hgrp (proj1 (nbfree_free c Gc) E0) Hbp) as (r & st' & E & R); [lia|].
        exists r, st'. split; [exact E|]. right. destruct R as (R1 & R2 & R3). splits; try done. by intros ->.
    + destruct (alloccg_frag g bpref st c a n Hok Hgrp Hbp) as (r & st' & E & R); [lia|lia|apply A3; lia|]. exists r, st'. split; [exact E|]. right. destruct R as (R1 & R2 & R3). splits; try done. by intros ->.
Qed.

(** ** hashalloc *)
Section hashalloc_proof.
(** What is known of the allocator: at any group it fails and changes nothing, or
    succeeds with [Q]. *)
Variables (allocator : Z -> Z -> mount -> outcome (Z * mount)) (st : mount) (fails : Z -> Prop) (Q : Z -> mount -> Prop).
Hypothesis Hall : forall g pref, 0 <= g < fs_ncg fs -> 0 <= pref ->
  exists r st', allocator g pref st = Ret (r, st') /\ ((r = 0 /\ st' = st /\ fails g) \/ (r <> 0 /\ Q r st')).

Lemma quad_rehash_ok : forall fuel cg i, 0 <= cg < fs_ncg fs -> 1 <= i -> fs_ncg fs - i < Z.of_nat fuel -> (1 <= fuel)%nat ->
  exists r st', quad_rehash allocator fuel cg i st = Ret (r, st') /\
    ((r = 0 /\ st' = st /\ (i < fs_ncg fs -> fails ((cg + i) mod fs_ncg fs))) \/ (r <> 0 /\ Q r st')).
Proof.
  induction fuel as [|fuel IH]; intros cg i Hcg Hi Hfuel H1; [lia|]. cbn [quad_rehash]. destruct (Z.ltb_spec i (fs_ncg fs)).
  - cbv zeta. set (cg' := if cg + i >=? fs_ncg fs then _ else _).
    assert (Hcg' : 0 <= cg' < fs_ncg fs /\ cg' = (cg + i) mod fs_ncg fs).
    { unfold cg'. rewrite Z.geb_leb. destruct (Z.leb_spec (fs_ncg fs) (cg + i)).
      - split; [lia|]. apply (Z.mod_unique_pos _ _ 1); lia.
      - split; [lia|]. symmetry. apply Z.mod_small. lia. }
    destruct Hcg' as [Hr Em]. destruct (Hall cg' 0 Hr) as (r & st' & -> & [(-> & -> & Hf)|[Hr0 HQ]]); [lia| |]; bind.
    + cbn [Z.eqb negb]. destruct (IH cg' (i * 2) Hr) as (r & st' & E & R); [lia|lia|lia|]. exists r, st'. split; [exact E|].
      destruct R as [(-> & -> & _)|R]; [left|by right]. split; [done|]. split; [done|]. intros _. by rewrite <- Em.
    + rewrite (proj2 (Z.eqb_neq r 0) Hr0). exists r, st'. split; [done|]. by right.
  - exists 0, st. split; [done|]. left. split; [done|]. split; [done|]. lia.
Qed.

Lemma brute_force_ok : forall fuel cg i, 0 <= cg < fs_ncg fs -> fs_ncg fs - i < Z.of_nat fuel -> (1 <= fuel)%nat ->
  exists r st', brute_force allocator fuel cg i st = Ret (r, st') /\
    ((r = 0 /\ st' = st /\ forall j, i <= j < fs_ncg fs -> fails ((cg + (j - i)) mod fs_ncg fs)) \/ (r <> 0 /\ Q r st')).
Proof.
  induction fuel as [|fuel IH]; intros cg i Hcg Hfuel H1; [lia|]. cbn [brute_force]. destruct (Z.ltb_spec i (fs_ncg fs)).
  - destruct (Hall cg 0 Hcg) as (r & st' & -> & [(-> & -> & Hf)|[Hr0 HQ]]); [lia| |]; bind.
    + cbn [Z.eqb negb]. set (cg' := if cg + 1 =? fs_ncg fs then 0 else cg + 1).
      assert (Hcg' : 0 <= cg' < fs_ncg fs /\ cg' = (cg + 1) mod fs_ncg fs).
      { unfold cg'. destruct (Z.eqb_spec (cg + 1) (fs_ncg fs)) as [E|]; [rewrite E, Z.mod_same by lia; lia|]. split; [lia|]. symmetry. apply Z.mod_small. lia. }
      destruct Hcg' as [Hr Em]. destruct (IH cg' (i + 1) Hr) as (r & st' & E & R); [lia|lia|]. exists r, st'. split; [exact E|].
      destruct R as [(-> & -> & Hall')|R]; [left|by right]. split; [done|]. split; [done|]. intros j Hj. destruct (Z.eq_dec j i) as [->|Hne].
      * rewrite Z.sub_diag, Z.add_0_r, Z.mod_small by lia. done.
      * specialize (Hall' j ltac:(lia)). rewrite Em, Zplus_mod_idemp_l in Hall'. by replace (cg + 1 + (j - (i + 1))) with (cg + (j - i)) in Hall' by lia.
    + rewrite (proj2 (Z.eqb_neq r 0) Hr0). exists r, st'. split; [done|]. by right.
  - exists 0, st. split; [done|]. left. split; [done|]. split; [done|]. lia.
Qed.

(** hashalloc returns 0 only when the allocator has failed on every group. *)
Lemma hashalloc_ok cg pref : 0 <= cg < fs_ncg fs -> 0 <= pref ->
  exists r st', hashalloc allocator cg pref st = Ret (r, st') /\
    ((r = 0 /\ st' = st /\ forall g, 0 <= g < fs_ncg fs -> fails g) \/ (r <> 0 /\ Q r st')).
Proof.
  intros Hcg Hp. unfold hashalloc.
  destruct (Hall cg pref Hcg Hp) as (r & st' & -> & [(-> & -> & Hf)|[Hr0 HQ]]); bind; [|rewrite (proj2 (Z.eqb_neq r 0) Hr0); exists r, st'; split; [done|by right]].
  cbn [Z.eqb negb]. destruct (quad_rehash_ok (S (Z.to_nat (fs_ncg fs))) cg 1 Hcg) as (r & st' & -> & [(-> & -> & Hq)|[Hr0 HQ]]); [lia|lia|lia| |]; bind;
    [|rewrite (proj2 (Z.eqb_neq r 0) Hr0); exists r, st'; split; [done|by right]].
  cbn [Z.eqb negb]. destruct (brute_force_ok (S (Z.to_nat (fs_ncg fs))) ((cg + 2) mod fs_ncg fs) 2) as (r & st' & -> & R); [apply Z.mod_pos_bound; lia|lia|lia|].
  exists r, st'. split; [done|]. destruct R as [(-> & -> & Hb)|R]; [left|by right]. split; [done|]. split; [done|]. intros g Hg.
  set (j := (g - cg) mod fs_ncg fs). assert (Hj : 0 <= j < fs_ncg fs) by (apply Z.mod_pos_bound; lia).
  assert (Eg : (cg + j) mod fs_ncg fs = g) by (unfold j; rewrite Zplus_mod_idemp_r; replace (cg + (g - cg)) with g by lia; apply Z.mod_small; lia).
  destruct (Z.eq_dec j 0) as [E0|]; [rewrite E0, Z.add_0_r, Z.mod_small in Eg by lia; by subst|].
  destruct (Z.eq_dec j 1) as [E1|]; [rewrite <- Eg, E1; apply Hq; lia|].
  specialize (Hb j ltac:(lia)). rewrite Zplus_mod_idemp_l in Hb. replace (cg + 2 + (j - 2)) with (cg + j) in Hb by lia. by rewrite Eg in Hb.
Qed.
End hashalloc_proof.

(** ** alloc *)
Lemma group_range st g c : st_ok st -> group st g c -> 0 <= g < fs_ncg fs.
Proof. intros Hok (Hg & E & _). apply lookup_lt_Some in E. pose proof (st_lens _ Hok). lia. Qed.

Lemma sum_nbfree l : Forall (fun s => 0 <= cs_nbfree s /\ 0 <= cs_nffree s) l -> 0 <= cs_nbfree (sum_cs l) /\ forall s, s ∈ l -> cs_nbfree s <= cs_nbfree (sum_cs l).
Proof.
  induction 1 as [|x l Hx Hl [IH1 IH2]]; cbn; [split; [done|]; intros s Hs; by apply elem_of_nil in Hs|]. split; [fold (sum_cs l); lia|].
  intros s Hs. fold (sum_cs l). apply elem_of_cons in Hs as [->|Hs]; [lia|]. specialize (IH2 s Hs). lia.
Qed.

Lemma no_blocks st g : st_ok st -> cs_nbfree (fs_cstotal st) = 0 -> ~ has_room st g (fs_frag fs).
Proof.
  intros Hok E (c & Hc & Hr). destruct (st_group _ Hok g c Hc) as (Gx & Gc & Gs). pose proof frag_pos_.
  destruct (room_run c (fs_frag fs) Gc ltac:(lia) Hr) as [Hf|(t & Ht & _)]; [|lia]. apply (nbfree_free c Gc) in Hf. apply Hf.
  destruct (sum_nbfree _ (st_pos _ Hok)) as [_ H2]. rewrite (st_total _ Hok) in E. specialize (H2 (cg_cs c) (list_elem_of_lookup_2 _ _ _ Gs)).
  destruct (bsum_pos (fun h => is_full (bv (cg_blksfree c) h))) as (H3 & _); [intros h _; unfold is_full; by destruct (_ =? _)|]. rewrite <- (ok_nbfree _ Gc) in H3. lia.
Qed.

Definition charged (ip : inode) (bytes : Z) : inode := Inode (i_number ip) (i_blocks ip + btodb bytes) true (i_db ip).

Lemma hash_alloccg st size n cg pref : rot_ok -> st_ok st -> frag_size size n -> 0 <= cg < fs_ncg fs -> 0 <= pref ->
  exists r st', hashalloc (fun cg pref => alloccg cg pref size) cg pref st = Ret (r, st') /\
    ((r = 0 /\ st' = st /\ forall g, ~ has_room st g n) \/
     (0 < r /\ st_ok st' /\ taken st st' r n /\ (has_room st cg n -> dtog r = cg /\ on_the_spot st cg pref n r))).
Proof.
  intros Hrot Hok Hsz Hcg Hp. destruct (alloccg_ok cg pref size n st Hrot Hok Hcg Hsz Hp) as (r0 & st0 & E0 & [(_ & _ & Hno)|(H1 & H2 & H3 & H4)]).
  2: { exists r0, st0. unfold hashalloc. rewrite E0. bind. pose proof (proj1 H2). rewrite (proj2 (Z.eqb_neq r0 0)) by lia. split; [done|]. right. by splits. }
  destruct (hashalloc_ok (fun cg pref => alloccg cg pref size) st (fun g => ~ has_room st g n) (fun r st' => 0 < r /\ st_ok st' /\ taken st st' r n)) with (cg := cg) (pref := pref)
    as (r & st' & E & R); [|done|done|].
  - intros g pf Hg Hpf. destruct (alloccg_ok g pf size n st Hrot Hok Hg Hsz Hpf) as (r & st' & E & [(-> & -> & Hf)|(H1 & H2 & _)]).
    + exists 0, st. split; [done|]. by left.
    + exists r, st'. split; [done|]. right. pose proof (proj1 H2). split; [lia|done].
  - exists r, st'. split; [done|]. destruct R as [(-> & -> & Hf)|[_ (R1 & R2 & R3)]]; [left|right; by splits]. split; [done|]. split; [done|]. intros g Hr.
    pose proof Hr as (c & Hc & _). apply (Hf g); [by eapply group_range|done].
Qed.

(** The group alloc turns to first. *)
Definition first_choice (ip : inode) (bpref : Z) : Z := if (bpref =? 0) || (fs_size fs <=? bpref) then itog (i_number ip) else dtog bpref.
Lemma alloc_ok uid ip bpref size n st : rot_ok -> st_ok st -> frag_size size n -> 0 <= bpref -> 0 <= itog (i_number ip) < fs_ncg fs ->
  exists e bno ip' st', alloc uid ip bpref size st = Ret (e, bno, ip', st') /\
    ((e = 0 /\ st_ok st' /\ taken st st' bno n /\ ip' = charged ip size /\
      (has_room st (first_choice ip bpref) n -> dtog bno = first_choice ip bpref /\ (bpref < fs_size fs -> on_the_spot st (first_choice ip bpref) bpref n bno))) \/
     (e = ENOSPC /\ bno = 0 /\ ip' = ip /\ st' = st /\ ((uid <> 0 /\ freespace st (fs_minfree fs) <= 0) \/ forall g, ~ has_room st g n))).
Proof.
  intros Hrot Hok Hsz Hbp Hi. destruct (frag_size_ok _ _ Hsz) as (S1 & S2 & S3 & S4 & S5). unfold alloc.
  rewrite Z.gtb_ltb. destruct (Z.ltb_spec (fs_bsize fs) (u32 size)); [lia|]. rewrite S3. cbn [Z.eqb negb orb]. rewrite S4.
  destruct ((n =? fs_frag fs) && (cs_nbfree (fs_cstotal st) =? 0)) eqn:E1.
  { rewrite andb_true_iff, !Z.eqb_eq in E1. destruct E1 as [-> E0]. exists ENOSPC, 0, ip, st. split; [done|]. right. splits; try done. right. intros g. by apply no_blocks. }
  destruct (negb (uid =? 0) && (freespace st (fs_minfree fs) <=? 0)) eqn:E2.
  { rewrite andb_true_iff, negb_true_iff, Z.eqb_neq, Z.leb_le in E2. exists ENOSPC, 0, ip, st. split; [done|]. right. splits; try done. by left. }
  rewrite Z.geb_leb. set (bp := if fs_size fs <=? bpref then 0 else bpref). cbv zeta.
  destruct (sb_size Hsb) as (Z1 & Z2 & _). destruct (sb_fpg Hsb) as [F1 _].
  assert (Hbp' : 0 <= bp /\ 0 <= (if bp =? 0 then itog (i_number ip) else dtog bp) < fs_ncg fs).
  { unfold bp. destruct (Z.leb_spec (fs_size fs) bpref); [cbn [Z.eqb]; by split|]. destruct (Z.eqb_spec bpref 0); [by split|]. split; [done|].
    unfold dtog. split; [apply Z.div_pos; lia|]. apply Z.div_lt_upper_bound; nia. }
  destruct (hash_alloccg st size n _ bp Hrot Hok Hsz (proj2 Hbp') (proj1 Hbp')) as (r & st' & -> & R). bind. rewrite Z.gtb_ltb.
  destruct R as [(-> & -> & Hf)|(Hr & R1 & R2 & R3)].
  - exists ENOSPC, 0, ip, st. split; [done|]. right. splits; try done. by right.
  - destruct (Z.ltb_spec 0 r); [|lia]. exists 0, r, (charged ip size), st'. split; [done|]. left. splits; try done.
    assert (Efc : first_choice ip bpref = (if bp =? 0 then itog (i_number ip) else dtog bp)).
    { unfold first_choice, bp. destruct (Z.leb_spec (fs_size fs) bpref); [by rewrite orb_true_r|by rewrite orb_false_r]. }
    rewrite Efc. intros Hroom. destruct (R3 Hroom) as [-> Hs]. split; [done|]. intros Hlt. unfold bp in Hs |- *. by rewrite (proj2 (Z.leb_gt _ _)) in Hs |- * by lia.
Qed.

(** ** blkfree *)
Lemma free_frags_ok : forall n a i, bytes_ok a -> 0 <= i -> i + Z.of_nat n <= 8 * Z.of_nat (length a) ->
  ((forall j, i <= j < i + Z.of_nat n -> bit a j = false) -> exists a', free_frags n a i = Ret a' /\ upd a a' (fun _ => true) (ranged i (Z.of_nat n))) /\
  ((exists j, i <= j < i + Z.of_nat n /\ bit a j = true) -> free_frags n a i = Panic "blkfree: freeing free frag").
Proof.
  induction n as [|n IH]; intros a i Hb Hi Hn; cbn [free_frags]; (split; [intros Hc|intros (j & Hj & Hbit)]).
  - exists a. split; [done|]. apply (upd_ext _ _ _ _ _ _ (upd_refl a Hb (fun _ => true))). intros j _. by rewrite ranged_nil.
  - lia.
  - rewrite isset_ok by (done || lia). bind. rewrite Hc by lia. destruct (setbit_ok a i Hb) as (a1 & -> & H1); [lia|]. bind.
    destruct (IH a1 (i + 1)) as [IH1 _]; [apply H1|lia|rewrite (proj1 H1); lia|]. destruct IH1 as (a2 & -> & H2).
    { intros j Hj. rewrite (proj2 (proj2 H1)) by lia. destruct (Z.eqb_spec j i); [lia|]. apply Hc. lia. }
    exists a2. split; [done|]. apply (upd_ext _ _ _ _ _ _ (upd_trans _ _ _ _ _ _ H1 H2)). intros k _. by rewrite ranged_step.
  - rewrite isset_ok by (done || lia). bind. destruct (bit a i) eqn:Ei; [done|]. destruct (setbit_ok a i Hb) as (a1 & -> & H1); [lia|]. bind.
    apply IH; [apply H1|lia|rewrite (proj1 H1); lia|]. exists j. assert (j <> i) by congruence. split; [lia|].
    rewrite (proj2 (proj2 H1)) by lia. by destruct (Z.eqb_spec j i).
Qed.

(** A step that sets the [n] bits from [x] on in group [g]. *)
Definition given (st st' : mount) (r n : Z) : Prop :=
  (forall b, free st' b <-> free st b \/ r <= b < r + n) /\ keeps st st'.

Lemma given_upd st g c c' d st1 x n : st_ok st -> group st g c -> cg_ok c' -> same_place c c' -> cg_cs c' = add_cs d (cg_cs c) ->
  moved d g st st1 -> 0 <= x -> 1 <= n -> x + n <= fs_fpg fs -> fs_frag fs <= g * fs_fpg fs + x -> g * fs_fpg fs + x + n <= fs_size fs ->
  (forall j, 0 <= j -> bit (cg_blksfree c') j = if ranged x n j then true else bit (cg_blksfree c) j) ->
  st_ok (bdwrite_cg g c' st1) /\ given st (bdwrite_cg g c' st1) (g * fs_fpg fs + x) n.
Proof.
  intros Hok Hg Hc' Hp Hd Hm Hx Hn Hxn Hb0 Hb1 Hbit.
  assert (Hr : forall b, dtog b = g -> ranged x n (dtogd b) = true <-> g * fs_fpg fs + x <= b < g * fs_fpg fs + x + n).
  { intros b Eb. destruct (group_place b) as [H1 H2]. unfold ranged. rewrite andb_true_iff, Z.leb_le, Z.ltb_lt. rewrite Eb in H2. lia. }
  destruct (st_write st g c c' d st1 Hok Hg Hc' (proj1 Hp) (proj1 (proj2 Hp)) Hd Hm) as (R1 & _ & R2 & R3).
  { intros j Hj. rewrite Hbit by lia. unfold ranged. destruct (Z.leb_spec x j), (Z.ltb_spec j (x + n)); cbn [andb]; try by left. right. lia. }
  split; [done|]. split; [|by split; [|destruct Hm as (_ & _ & _ & ?)]]. intros b. rewrite R2. destruct (Z.eqb_spec (dtog b) g) as [E|E].
  - destruct (group_place b) as [H1 _]. rewrite Hbit by lia. specialize (Hr b E). destruct (ranged x n (dtogd b)).
    + split; [intros _; right; by apply Hr|done].
    + split.
      * intros Hb. left. exists c. by rewrite E.
      * intros [(c2 & H2 & H3)|N]; [|by apply Hr in N]. rewrite E in H2. destruct H2 as (_ & E2 & _), Hg as (_ & E3 & _). congruence.
  - split; [by left|]. intros [?|N]; [done|]. exfalso. apply E.
    destruct (group_div g (b - g * fs_fpg fs)) as [E1 _]; [lia|]. by replace (g * fs_fpg fs + (b - g * fs_fpg fs)) with b in E1 by lia.
Qed.

(** The fragments [r] to [r + n - 1] of one block, not the boot block, all in use. *)
Definition in_use (st : mount) (r n : Z) : Prop :=
  fs_frag fs <= r /\ r + n <= fs_size fs /\ r mod fs_frag fs + n <= fs_frag fs /\ forall b, r <= b < r + n -> ~ free st b.

Lemma in_use_bits st g c x n : group st g c -> (forall b, g * fs_fpg fs + x <= b < g * fs_fpg fs + x + n -> ~ free st b) -> 0 <= x -> x + n <= fs_fpg fs ->
  forall j, x <= j < x + n -> bit (cg_blksfree c) j = false.
Proof.
  intros Hg Hu Hx Hn j Hj. destruct (bit (cg_blksfree c) j) eqn:E; [|done]. exfalso. apply (Hu (g * fs_fpg fs + j)); [lia|].
  destruct (group_div g j) as [E1 E2]; [lia|]. exists c. by rewrite E1, E2.
Qed.

Lemma split_place x n : 0 <= x < fs_fpg fs -> 1 <= n -> x mod fs_frag fs + n <= fs_frag fs ->
  exists h k, x = h * fs_frag fs + k /\ 0 <= h < nblk /\ 0 <= k /\ k + n <= fs_frag fs /\ x + n <= fs_fpg fs.
Proof.
  intros Hx Hn Hal. destruct (block_split x Hx) as (h & k & -> & Hh & Hk). rewrite (proj2 (block_of h k Hk)) in Hal.
  exists h, k. splits; try lia. rewrite fpg_eq. nia.
Qed.

Lemma blkfree_block_ok st g c h : st_ok st -> group st g c -> 0 <= h < nblk -> fs_frag fs <= g * fs_fpg fs + h * fs_frag fs -> g * fs_fpg fs + h * fs_frag fs + fs_frag fs <= fs_size fs ->
  (forall j, h * fs_frag fs <= j < h * fs_frag fs + fs_frag fs -> bit (cg_blksfree c) j = false) ->
  exists c' st1, blkfree_block g (h * fs_frag fs) c st = Ret (c', st1) /\ st_ok (bdwrite_cg g c' (fmod_inc st1)) /\
    given st (bdwrite_cg g c' (fmod_inc st1)) (g * fs_fpg fs + h * fs_frag fs) (fs_frag fs).
Proof.
  intros Hok Hg Hh Hb0 Hb1 Hbits. destruct (st_group _ Hok g c Hg) as (Gx & Gc & Gs). pose proof frag_pos_. assert (Hg0 : 0 <= g) by (by destruct Hg).
  unfold blkfree_block. rewrite fragstoblks_eq, Z.div_mul by lia.
  assert (Hroom : h * fs_frag fs < 8 * Z.of_nat (length (cg_blksfree c))) by (apply map_room; [done|rewrite fpg_eq; nia]).
  rewrite isblock_ok by first [apply (sb_frag Hsb)|apply Gc|lia|done]. bind. fold (bv (cg_blksfree c) h).
  assert (Hv : bv (cg_blksfree c) h = 0).
  { pose proof (full_le _ (sb_frag Hsb)). apply bval_eq; [apply (sb_frag Hsb)|lia|lia|]. intros k Hk. rewrite Z.bits_0. apply Hbits. lia. }
  destruct (full_facts _ (sb_frag Hsb)) as (F1 & _). rewrite Hv, (proj2 (Z.eqb_neq _ _) F1).
  destruct (setblock_ok (fs_frag fs) (cg_blksfree c) h (sb_frag Hsb) (ok_bytes _ Gc)) as (map' & -> & Hu); [lia|done|]. bind.
  rewrite (acct_ok _ _ _ _ _ Hg0 Gs). bind. destruct (blks_by_ok 1 h c Gc Hh) as (tot & rows & E & Hl1 & Hl2 & Ht & Hr).
  rewrite (blks_by_frame 1 _ c) by done. rewrite E. bind. eexists _, _. split; [reflexivity|]. cbn [cg_blktot cg_blks set_blks].
  apply (given_upd st g c _ (nbfree_by 1)); try done; try lia.
  - by apply (flip_block c h true).
  - apply fmod_inc_moved. split; [by exists (cg_cs c)|done].
  - rewrite fpg_eq. nia.
  - intros j Hj. cbn [cg_blksfree set_blks set_cs set_blksfree]. by rewrite (proj2 (proj2 Hu)), ranged_block.
Qed.

(** The state of a group in which the fragments [x] to [x + n - 1] of block [h]
    have been given back, but for the block that may now be whole. *)
Lemma blkfree_frags_ok st g c x size n : st_ok st -> group st g c -> frag_size size n -> n < fs_frag fs -> 0 <= x < fs_fpg fs -> x mod fs_frag fs + n <= fs_frag fs ->
  fs_frag fs <= g * fs_fpg fs + x -> g * fs_fpg fs + x + n <= fs_size fs -> (forall j, x <= j < x + n -> bit (cg_blksfree c) j = false) ->
  exists c' st1, blkfree_frags g x size c st = Ret (c', st1) /\ st_ok (bdwrite_cg g c' (fmod_inc st1)) /\
    given st (bdwrite_cg g c' (fmod_inc st1)) (g * fs_fpg fs + x) n.
Proof.
  intros Hok Hg Hsz Hnf Hx Hal Hb0 Hb1 Hbits. destruct (st_group _ Hok g c Hg) as (Gx & Gc & Gs). pose proof frag_pos_. assert (Hg0 : 0 <= g) by (by destruct Hg).
  destruct (frag_size_ok _ _ Hsz) as (S1 & _). destruct Hsz as [_ Hn].
  destruct (split_place x n Hx) as (h & k & -> & Hh & Hk & Hkn & Hxn); [lia|done|].
  unfold blkfree_frags. rewrite fragnum_eq, (proj2 (block_of h k ltac:(lia))), S1. replace (h * fs_frag fs + k - k) with (h * fs_frag fs) by lia. cbv zeta.
  assert (Hroom : h * fs_frag fs + k + n <= 8 * Z.of_nat (length (cg_blksfree c))) by (pose proof (map_room c (h * fs_frag fs + k + n - 1) Gc); lia).
  assert (Hblk : forall m, length m = length (cg_blksfree c) -> blkmap (fs_frag fs) m (h * fs_frag fs) = Ret (bv m h)).
  { intros m Hm. apply blkmap_ok; [apply (sb_frag Hsb)|lia|rewrite Hm; lia]. }
  rewrite Hblk by done. bind.
  assert (Hfl : fs_frag fs <= Z.of_nat (length (cg_frsum c))) by (rewrite (proj1 (ok_frsum _ Gc)); lia).
  destruct (fragacct_ok (fs_frag fs) (bv (cg_blksfree c) h) (cg_frsum c) (-1) (sb_frag Hsb) (bv_range _ _) Hfl) as (fr1 & -> & Hl1 & Ha1). bind.
  destruct (proj1 (free_frags_ok (Z.to_nat n) (cg_blksfree c) (h * fs_frag fs + k) (ok_bytes _ Gc) ltac:(nia) ltac:(lia))) as (map' & -> & Hu);
    [intros j Hj; apply Hbits; lia|]. bind. rewrite Z2Nat.id in * by lia. rewrite (acct_ok _ _ _ _ _ Hg0 Gs). bind.
  cbn [cg_blksfree set_cs set_blksfree set_frsum cg_frsum cg_cs]. rewrite Hblk by apply Hu. bind.
  destruct (fragacct_ok (fs_frag fs) (bv map' h) fr1 1 (sb_frag Hsb) (bv_range _ _) ltac:(lia)) as (fr2 & -> & Hl2 & Ha2). bind.
  destruct (upd_take _ _ h k n true ltac:(lia) Hk ltac:(lia) Hkn Hu) as [Hch Hbv].
  destruct (give_facts (fs_frag fs) (bv (cg_blksfree c) h) k n (sb_frag Hsb) (bv_range _ _) Hk ltac:(lia) Hkn) as (V1 & V2 & V3).
  { intros j Hj. rewrite bv_bits by lia. apply Hbits. lia. }
  rewrite <- Hbv in V1, V3.
  assert (Hfr : forall s, 1 <= s < fs_frag fs -> at_ fr2 s = at_ (cg_frsum c) s + (nruns (fs_frag fs) (bv map' h) s - nruns (fs_frag fs) (bv (cg_blksfree c) h) s)).
  { intros s Hs. rewrite Ha2, Ha1 by lia. destruct (Z.leb_spec 1 s), (Z.ltb_spec s (fs_frag fs)); try lia. cbn [andb]. lia. }
  assert (Hl : length fr2 = 8%nat) by (rewrite Hl2, Hl1; apply Gc).
  assert (Hbits' : forall j, 0 <= j -> bit map' j = if ranged (h * fs_frag fs + k) n j then true else bit (cg_blksfree c) j) by apply Hu.
  rewrite fragstoblks_eq, Z.div_mul by lia. rewrite isblock_ok by first [apply (sb_frag Hsb)|apply Hu|lia|rewrite (proj1 Hu); lia]. bind. fold (bv map' h).
  destruct (Z.eqb_spec (bv map' h) (full (fs_frag fs))) as [Ef|Ef].
  - set (s1 := add_cs (nffree_by n) (cg_cs c)). set (st1 := Mnt _ _ _ _ _ _).
    assert (Es1 : fs_csp st1 !! Z.to_nat g = Some s1) by (apply list_lookup_insert_eq; by apply lookup_lt_Some in Gs).
    rewrite (acct_ok _ _ _ _ _ Hg0 Es1). bind. set (s2 := add_cs (nffree_by (- fs_frag fs)) s1). set (st2 := Mnt _ _ _ _ _ _).
    assert (Es2 : fs_csp st2 !! Z.to_nat g = Some s2) by (apply list_lookup_insert_eq; by apply lookup_lt_Some in Es1).
    rewrite (acct_ok _ _ _ _ _ Hg0 Es2). bind. set (st3 := Mnt _ _ _ _ _ _).
    destruct (blks_by_ok 1 h c Gc Hh) as (tot & rows & E & Hlt & Hlr & Ht & Hr). rewrite (blks_by_frame 1 _ c) by done. rewrite E. bind.
    eexists _, _. split; [reflexivity|]. cbn [cg_blktot cg_blks set_blks].
    apply (given_upd st g c _ (add_cs (nbfree_by 1) (add_cs (nffree_by (- fs_frag fs)) (nffree_by n)))); try done; try lia.
    + set (c' := set_blks _ _ _). assert (Ed : is_full (bv map' h) - is_full (bv (cg_blksfree c) h) = 1).
      { unfold is_full. rewrite Ef, Z.eqb_refl, (proj2 (Z.eqb_neq _ _) V2). done. }
      apply (cg_change c c' h Gc Hch Hh); cbn; rewrite ?Ed; try done; try lia; try apply Gc.
    + unfold s1, add_cs. cbn. f_equal; lia.
    + apply fmod_inc_moved, (moved_trans _ _ _ _ st2); [apply (moved_trans _ _ _ _ st1)|]; (split; [eexists; split; [eassumption|done]|done]).
  - eexists _, _. split; [reflexivity|]. apply (given_upd st g c _ (nffree_by n)); try done; try lia.
    + apply (frag_change c h map' fr2 n); try done. lia.
    + apply fmod_inc_moved. split; [by exists (cg_cs c)|done].
Qed.

(** The way in: a group that cannot be used is left alone. *)
Lemma blkfree_enter bno size n st : st_ok st -> frag_size size n -> fs_frag fs <= bno -> bno + n <= fs_size fs ->
  (~ usable st (dtog bno) /\ blkfree bno size st = Ret st) \/
  exists c, group st (dtog bno) c /\ blkfree bno size st =
    ('(c, st) ← (if n =? fs_frag fs then blkfree_block (dtog bno) (dtogd bno) c st else blkfree_frags (dtog bno) (dtogd bno) size c st);
     Ret (bdwrite_cg (dtog bno) c (fmod_inc st))).
Proof.
  intros Hok Hsz U1 U2. destruct (frag_size_ok _ _ Hsz) as (S1 & S2 & S3 & S4 & S5). pose proof frag_pos_. destruct (sb_size Hsb) as (Z1 & Z2 & Z3).
  destruct (sb_fpg Hsb) as [F1 _]. destruct Hsz as [Hsz Hn]. unfold blkfree. rewrite Z.gtb_ltb. destruct (Z.ltb_spec (fs_bsize fs) (u32 size)); [lia|].
  rewrite S3. cbn [Z.eqb negb orb]. rewrite u32_small by lia. rewrite Z.geb_leb. destruct (Z.leb_spec (fs_size fs) bno); [lia|].
  assert (Hg : 0 <= dtog bno < fs_ncg fs) by (unfold dtog; split; [apply Z.div_pos; lia|apply Z.div_lt_upper_bound; nia]).
  unfold bread_cg. destruct (unreadable (dtog bno)) eqn:Eu; [bind; left; split; [intros (c & _ & _ & _ & ?); congruence|done]|].
  destruct (rdl_some (cgs st) (dtog bno)) as (c & Ec & ->); [pose proof (st_lens _ Hok); lia|]. bind.
  destruct (cg_chkmagic c) eqn:Em; [right; exists c; split; [by split; [lia|]|by rewrite S4]|left; split; [intros (c2 & _ & ? & ? & _); congruence|done]].
Qed.

(** Where a piece lies in its group. *)
Lemma piece_place bno n : 1 <= n -> bno mod fs_frag fs + n <= fs_frag fs ->
  exists h k, dtogd bno = h * fs_frag fs + k /\ bno = dtog bno * fs_fpg fs + dtogd bno /\ 0 <= dtogd bno < fs_fpg fs /\ 0 <= h < nblk /\ 0 <= k < fs_frag fs /\
    k + n <= fs_frag fs /\ dtogd bno mod fs_frag fs + n <= fs_frag fs /\ dtogd bno + n <= fs_fpg fs.
Proof.
  intros Hn U3. destruct (group_place bno) as [Hx Hbno].
  assert (Hal : dtogd bno mod fs_frag fs + n <= fs_frag fs) by (rewrite Hbno, group_mod in U3; done).
  destruct (split_place (dtogd bno) n Hx) as (h & k & Ex & Hh & Hk & Hkn & Hxn); [lia|done|]. exists h, k. splits; done || lia.
Qed.

Lemma blkfree_ok bno size n st : st_ok st -> frag_size size n -> in_use st bno n ->
  exists st', blkfree bno size st = Ret st' /\ st_ok st' /\
    ((usable st (dtog bno) /\ given st st' bno n) \/ (~ usable st (dtog bno) /\ st' = st)).
Proof.
  intros Hok Hsz (U1 & U2 & U3 & U4). pose proof Hsz as [_ Hn].
  destruct (blkfree_enter bno size n st Hok Hsz U1 U2) as [[Hnu ->]|(c & Hgrp & ->)]; [exists st; split; [done|]; split; [done|]; right; by split|].
  destruct (piece_place bno n (proj1 Hn) U3) as (h & k & Ex & Hbno & Hx & Hh & Hk & Hkn & Hal & Hxn). set (x := dtogd bno) in *. set (g := dtog bno) in *.
  assert (Hbits : forall j, x <= j < x + n -> bit (cg_blksfree c) j = false).
  { apply (in_use_bits st g c x n Hgrp); [|lia|done]. intros b Hb. apply U4. lia. }
  destruct (Z.eqb_spec n (fs_frag fs)) as [->|Hne].
  - assert (k = 0) as -> by lia. rewrite Z.add_0_r in Ex.
    destruct (blkfree_block_ok st g c h Hok Hgrp Hh) as (c' & st1 & E & R1 & R2); [lia|lia|rewrite <- Ex; apply Hbits|]. rewrite Ex, E. bind.
    eexists. split; [done|]. split; [done|]. left. split; [by exists c|]. by rewrite Hbno, Ex.
  - destruct (blkfree_frags_ok st g c x size n Hok Hgrp) as (c' & st1 & E & R1 & R2); [done|lia|done|done|lia|lia|done|]. rewrite E. bind.
    eexists. split; [done|]. split; [done|]. left. split; [by exists c|]. by rewrite Hbno.
Qed.

(** ** fragextend *)
Lemma all_set_ok a : forall n i, bytes_ok a -> 0 <= i -> i + Z.of_nat n <= 8 * Z.of_nat (length a) ->
  exists b : bool, all_set n a i = Ret b /\ (b = true <-> forall j, i <= j < i + Z.of_nat n -> bit a j = true).
Proof.
  induction n as [|n IH]; intros i Hb Hi Hn; cbn [all_set]; [exists true; split; [done|]; split; [lia|done]|].
  rewrite isclr_ok by (done || lia). bind. destruct (bit a i) eqn:E; cbn [negb].
  - destruct (IH (i + 1)) as (b & -> & Hbi); [done|lia|lia|]. exists b. split; [done|]. rewrite Hbi. split; intros H j Hj; [|apply H; lia].
    destruct (Z.eq_dec j i) as [->|]; [done|]. apply H. lia.
  - exists false. split; [done|]. split; [done|]. intros H. rewrite H in E by lia. done.
Qed.
Lemma clr_scan_ok a bno : forall n i, bytes_ok a -> 0 <= bno + i -> bno + i + Z.of_nat n <= 8 * Z.of_nat (length a) ->
  exists i', clr_scan n a bno i = Ret i' /\ i <= i' <= i + Z.of_nat n /\ (forall j, i <= j < i' -> bit a (bno + j) = true) /\
    (i' < i + Z.of_nat n -> bit a (bno + i') = false).
Proof.
  induction n as [|n IH]; intros i Hb Hi Hn; cbn [clr_scan]; [exists i; split; [done|]; split; [lia|]; split; lia|].
  rewrite isclr_ok by (done || lia). bind. destruct (bit a (bno + i)) eqn:E; cbn [negb].
  - destruct (IH (i + 1)) as (i' & -> & H1 & H2 & H3); [done|lia|lia|]. exists i'. split; [done|]. split; [lia|]. split; [|intros; apply H3; lia].
    intros j Hj. destruct (Z.eq_dec j i) as [->|]; [done|]. apply H2. lia.
  - exists i. split; [done|]. split; [lia|]. split; [lia|done].
Qed.

(** The [m - o] fragments after the [o] at [r] are free, and in the same block. *)
Definition extendable (st : mount) (r o m : Z) : Prop :=
  r mod fs_frag fs + m <= fs_frag fs /\ forall b, r + o <= b < r + m -> free st b.

Lemma crosses k m : 0 <= k < fs_frag fs -> 1 <= m <= fs_frag fs -> (k >? (k + m - 1) mod fs_frag fs) = negb (k + m <=? fs_frag fs).
Proof.
  intros Hk Hm. rewrite Z.gtb_ltb. destruct (Z.leb_spec (k + m) (fs_frag fs)); cbn [negb].
  - rewrite Z.mod_small by lia. apply Z.ltb_ge. lia.
  - rewrite <- (Z.mod_unique_pos (k + m - 1) (fs_frag fs) 1 (k + m - 1 - fs_frag fs)) by lia. apply Z.ltb_lt. lia.
Qed.

(** The step once the fragments are known to be free. *)
Lemma extend_step st g c h k o m : st_ok st -> group st g c -> 0 <= h < nblk -> 0 <= k -> 1 <= o < m -> k + m <= fs_frag fs ->
  (forall j, k <= j < k + o -> bit (cg_blksfree c) (h * fs_frag fs + j) = false) ->
  (forall j, k + o <= j < k + m -> bit (cg_blksfree c) (h * fs_frag fs + j) = true) ->
  exists c' st1, extend_group g (h * fs_frag fs + k) k m o c st = Ret (c', st1) /\
    st_ok (bdwrite_cg g c' (fmod_inc st1)) /\ taken st (bdwrite_cg g c' (fmod_inc st1)) (g * fs_fpg fs + h * fs_frag fs + k + o) (m - o).
Proof.
  intros Hok Hg Hh Hk Ho Hkm Hown Hext. unfold extend_group. destruct (st_group _ Hok g c Hg) as (Gx & Gc & Gs). pose proof frag_pos_. assert (Hg0 : 0 <= g) by (by destruct Hg).
  assert (Hend : h * fs_frag fs + fs_frag fs <= fs_fpg fs) by (rewrite fpg_eq; nia).
  assert (Hroom : h * fs_frag fs + fs_frag fs <= 8 * Z.of_nat (length (cg_blksfree c))) by (pose proof (map_room c (h * fs_frag fs + fs_frag fs - 1) Gc); lia).
  destruct (clr_scan_ok (cg_blksfree c) (h * fs_frag fs + k) (Z.to_nat (fs_frag fs - k - m)) m (ok_bytes _ Gc)) as (i & -> & I1 & I2 & I3); [nia|lia|]. bind.
  rewrite Z2Nat.id in * by lia.
  assert (Hrun : is_run (fs_frag fs) (bv (cg_blksfree c) h) (i - o) (k + o) = true).
  { unfold is_run. rewrite !andb_true_iff, !negb_true_iff, !Z.leb_le. splits; try lia.
    - apply forallb_forall. intros j Hj. apply list_elem_of_In, elem_of_seqZ in Hj. rewrite bv_bits by lia. replace (h * fs_frag fs + (k + o + j)) with (h * fs_frag fs + (k + o + j)) by lia.
      destruct (Z.lt_ge_cases (o + j) m); [apply Hext; lia|]. replace (h * fs_frag fs + (k + o + j)) with (h * fs_frag fs + k + (o + j)) by lia. apply I2. lia.
    - rewrite andb_false_iff. right. rewrite bv_bits by lia. apply Hown. lia.
    - replace (k + o + (i - o)) with (k + i) by lia. destruct (Z.eq_dec (k + i) (fs_frag fs)) as [E|].
      + rewrite E. unfold bv. rewrite bval_bits by (apply (sb_frag Hsb) || lia). by rewrite Z.ltb_irrefl.
      + rewrite bv_bits by lia. rewrite Z.add_assoc. apply I3. lia. }
  destruct (take_facts (fs_frag fs) _ (i - o) (k + o) (m - o) (sb_frag Hsb) (bv_range _ _) Hrun ltac:(lia) ltac:(lia)) as (T1 & T2 & T3 & T4 & T5).
  assert (Eb : (i =? m) = (i - m =? 0)) by (destruct (Z.eqb_spec i m), (Z.eqb_spec (i - m) 0); (done || lia)).
  destruct (frsum_take c (i - o) (i - m) (i =? m)) as (fr1 & fr & -> & E & Hl & Hat); [by rewrite (proj1 (ok_frsum _ Gc))|done|lia|lia|]. bind. rewrite E. bind.
  change (cg_blksfree (set_frsum fr c)) with (cg_blksfree c).
  destruct (clrbits_ok (Z.to_nat (m - o)) (cg_blksfree c) (h * fs_frag fs + k + o) (ok_bytes _ Gc)) as (map' & -> & Hu); [nia|lia|]. bind.
  rewrite Z2Nat.id in * by lia. rewrite (acct_ok _ _ _ _ _ Hg0 Gs). eexists _, _. split; [reflexivity|].
  rewrite <- (Z.add_assoc (h * fs_frag fs)) in Hu. destruct (upd_take _ _ h (k + o) (m - o) false ltac:(lia) ltac:(lia) ltac:(lia) ltac:(lia) Hu) as [Hch Hbv].
  replace (g * fs_fpg fs + h * fs_frag fs + k + o) with (g * fs_fpg fs + (h * fs_frag fs + (k + o))) by lia.
  apply (taken_upd st g c _ (nffree_by (- (m - o)))); try done; try nia.
  - apply (frag_change c h map' fr (- (m - o))); [done|done|done|done|by rewrite Hbv|rewrite Hbv, T4; lia|done|].
    intros s Hs. rewrite Hbv, T5, Hat by (done || lia). replace (i - o - (m - o)) with (i - m) by lia. lia.
  - apply fmod_inc_moved. split; [by exists (cg_cs c)|done].
  - rewrite (proj2 (block_of h (k + o) ltac:(lia))). lia.
  - intros j Hj. replace j with (h * fs_frag fs + (j - h * fs_frag fs)) by lia. apply Hext. lia.
  - intros j Hj. apply Hu, Hj.
Qed.

Lemma extend_fails st g c h k o m : st_ok st -> group st g c -> 0 <= h < nblk -> 0 <= k -> 1 <= o < m -> k + m <= fs_frag fs ->
  (forall j, k <= j < k + o -> bit (cg_blksfree c) (h * fs_frag fs + j) = false) -> cs_nffree (cg_cs c) < m - o ->
  exists j, k + o <= j < k + m /\ bit (cg_blksfree c) (h * fs_frag fs + j) = false.
Proof.
  intros Hok Hg Hh Hk Ho Hkm Hown Hlt. destruct (st_group _ Hok g c Hg) as (_ & Gc & _).
  destruct (decide (Exists (fun j => bit (cg_blksfree c) (h * fs_frag fs + j) = false) (seqZ (k + o) (m - o)))) as [Hex|Hn].
  - apply Exists_exists in Hex as (j & Hj & Hbj). apply elem_of_seqZ in Hj. exists j. split; [lia|done].
  - exfalso. assert (Hall : forall j, k + o <= j < k + m -> bit (cg_blksfree c) (h * fs_frag fs + j) = true).
    { intros j Hj. destruct (bit (cg_blksfree c) (h * fs_frag fs + j)) eqn:E; [done|]. exfalso. apply Hn, Exists_exists. exists j. split; [apply elem_of_seqZ; lia|done]. }
    assert (H : m - o <= nfree (fs_frag fs) (bv (cg_blksfree c) h)).
    { apply (nfree_ge _ _ (k + o)); [apply (sb_frag Hsb)|apply bv_range| |lia|lia|lia|].
      - intros E. specialize (Hown k ltac:(lia)). rewrite block_bits_full in Hown by (done || lia). done.
      - intros j Hj. rewrite bv_bits by lia. apply Hall. lia. }
    rewrite (ok_nffree _ Gc) in Hlt. destruct (bsum_pos (fun h => nfree (fs_frag fs) (bv (cg_blksfree c) h))) as (_ & _ & H3); [intros; apply nfree_nonneg|].
    specialize (H3 h Hh). cbv beta in H3. lia.
Qed.

Lemma fragextend_ok st r osize o nsize m : st_ok st -> frag_size osize o -> frag_size nsize m -> o < m -> in_use st r o ->
  exists b st', fragextend (dtog r) r osize nsize st = Ret (b, st') /\
    ((b = r /\ st_ok st' /\ extendable st r o m /\ taken st st' (r + o) (m - o)) \/ (b = 0 /\ st' = st /\ ~ extendable st r o m)).
Proof.
  intros Hok Hos Hns Hom (U1 & U2 & U3 & U4). pose proof frag_pos_. destruct (sb_size Hsb) as (Z1 & Z2 & Z3). destruct (sb_fpg Hsb) as [F1 _].
  destruct (frag_size_ok _ _ Hos) as (So & _). destruct (frag_size_ok _ _ Hns) as (Sn & _).
  assert (Sd : numfrags (nsize - osize) = m - o).
  { rewrite numfrags_eq. destruct Hos as [-> _], Hns as [-> _]. rewrite <- Z.mul_sub_distr_r. apply Z.div_mul. pose proof (sb_fshift Hsb). lia. }
  destruct Hos as [_ Ho], Hns as [_ Hm].
  assert (Hg : 0 <= dtog r < fs_ncg fs) by (unfold dtog; split; [apply Z.div_pos; lia|apply Z.div_lt_upper_bound; nia]).
  destruct (group_place r) as [Hx Hr]. set (x := dtogd r) in *. set (g := dtog r) in *.
  assert (Hal : x mod fs_frag fs + o <= fs_frag fs) by (rewrite Hr, group_mod in U3; done).
  destruct (split_place x o Hx ltac:(lia) Hal) as (h & k & Ex & Hh & Hk & Hko & Hxo).
  assert (Ek : r mod fs_frag fs = k) by (rewrite Hr, group_mod, Ex; apply block_of; lia).
  assert (Hown : forall c, group st g c -> forall j, k <= j < k + o -> bit (cg_blksfree c) (h * fs_frag fs + j) = false).
  { intros c Hc j Hj. apply (in_use_bits st g c x o Hc); [|lia|done|lia]. intros b Hb. apply U4. lia. }
  assert (Hdt : forall j, 0 <= j -> k + j < fs_frag fs -> dtog (r + j) = g /\ dtogd (r + j) = h * fs_frag fs + (k + j)).
  { intros j Hj Hkj. pose proof (block_below h (k + j) Hh ltac:(lia)) as Hb. destruct (group_div g _ Hb) as [E1 E2].
    replace (g * fs_fpg fs + (h * fs_frag fs + (k + j))) with (r + j) in E1, E2 by lia. done. }
  assert (Hfr : forall c j, group st g c -> 0 <= j -> k + j < fs_frag fs -> free st (r + j) <-> bit (cg_blksfree c) (h * fs_frag fs + (k + j)) = true).
  { intros c j Hc Hj Hkj. destruct (Hdt j Hj Hkj) as [E1 E2]. unfold free. rewrite E1, E2. split; [|by exists c].
    intros (c2 & Hc2 & Hb). destruct Hc as (_ & Ec & _), Hc2 as (_ & Ec2 & _). congruence. }
  assert (Hfail : ~ extendable st r o m -> exists b st', Ret (0, st) = Ret (b, st') /\
    ((b = r /\ st_ok st' /\ extendable st r o m /\ taken st st' (r + o) (m - o)) \/ (b = 0 /\ st' = st /\ ~ extendable st r o m)))
    by (intros H'; exists 0, st; split; [done|by right]).
  unfold fragextend. destruct (rdl_some (fs_csp st) g) as (s & Es & ->); [pose proof (st_lens _ Hok); lia|]. bind. rewrite Sd, So, Sn.
  destruct (Z.ltb_spec (cs_nffree s) (m - o)) as [Hlt|_].
  { apply Hfail. intros [E1 E2]. pose proof (E2 (r + o) ltac:(lia)) as (c & Hc & _).
    assert (k + o < fs_frag fs) by lia. rewrite (proj1 (Hdt o ltac:(lia) ltac:(lia))) in Hc. pose proof Hc as Hgrp.
    destruct (st_group _ Hok g c Hgrp) as (_ & _ & Gs). assert (s = cg_cs c) as -> by congruence.
    destruct (extend_fails st g c h k o m) as (j & Hj & Hb); [done|done|done|done|lia|lia|by apply Hown|done|].
    specialize (E2 (r + (j - k)) ltac:(lia)). apply (Hfr c) in E2; [|done|lia|lia]. replace (k + (j - k)) with j in E2 by lia. congruence. }
  rewrite !fragnum_eq, Ek. replace ((r + m - 1) mod fs_frag fs) with ((k + m - 1) mod fs_frag fs) by (rewrite <- Ek, <- !Z.add_sub_assoc, Zplus_mod_idemp_l; done).
  rewrite crosses by lia. destruct (Z.leb_spec (k + m) (fs_frag fs)) as [Hkm|]; cbn [negb]; [|apply Hfail; intros [E1 _]; lia].
  assert (Hgx : forall j, 0 <= j -> k + j < fs_frag fs -> free st (r + j) -> usable st g).
  { intros j Hj Hkj (c & Hc & _). exists c. by rewrite (proj1 (Hdt j Hj Hkj)) in Hc. }
  assert (Hnou : ~ usable st g -> ~ extendable st r o m) by (intros Hn [_ E2]; apply Hn, (Hgx o); [lia|lia|apply E2; lia]).
  unfold bread_cg. destruct (unreadable g) eqn:Eu; [bind; apply Hfail, Hnou; intros (c & _ & _ & _ & ?); congruence|].
  destruct (rdl_some (cgs st) g) as (c & Ec & ->); [pose proof (st_lens _ Hok); lia|]. bind.
  destruct (cg_chkmagic c) eqn:Em; [|apply Hfail, Hnou; intros (c2 & _ & ? & ? & _); congruence].
  assert (Hgrp : group st g c) by by split; [lia|]. destruct (st_group _ Hok g c Hgrp) as (_ & Gc & _).
  cbv zeta. fold x. destruct (all_set_ok (cg_blksfree c) (Z.to_nat (m - o)) (x + o) (ok_bytes _ Gc)) as (b & -> & Hb); [lia| |].
  { pose proof (map_room c (h * fs_frag fs + (k + m - 1)) Gc). pose proof (block_below h (k + m - 1) Hh ltac:(lia)). lia. }
  bind. rewrite Z2Nat.id in Hb by lia.
  assert (Hext : (forall j, x + o <= j < x + o + (m - o) -> bit (cg_blksfree c) j = true) <-> extendable st r o m).
  { unfold extendable. rewrite Ek. split.
    - intros Hall. split; [done|]. intros b' Hb'. replace b' with (r + (b' - r)) by lia. apply (Hfr c); [done|lia|lia|]. apply Hall. lia.
    - intros [_ Hall] j Hj. specialize (Hall (r + (j - x)) ltac:(lia)). apply (Hfr c) in Hall; [|done|lia|lia]. by replace (h * fs_frag fs + (k + (j - x))) with j in Hall by lia. }
  destruct b; cbn [negb]; [|apply Hfail; rewrite <- Hext, <- Hb; done].
  destruct (extend_step st g c h k o m Hok Hgrp Hh Hk ltac:(lia) Hkm (Hown c Hgrp)) as (c' & st1 & E & R1 & R2).
  { intros j Hj. apply Hb; [done|]. lia. }
  rewrite <- Ex in E. rewrite E. bind. eexists _, _. split; [reflexivity|]. left. split; [done|]. split; [done|]. split; [by apply Hext, Hb|].
  replace (r + o) with (g * fs_fpg fs + h * fs_frag fs + k + o) by lia. done.
Qed.

(** ** realloccg *)

(** The file's [o] fragments at [p] have become [m] fragments at [r]. *)
Definition resized (st st' : mount) (p o r m : Z) : Prop :=
  0 < r /\ r mod fs_frag fs + m <= fs_frag fs /\ (forall b, r <= b < r + m -> free st b \/ p <= b < p + o) /\
  (forall b, free st' b <-> (free st b \/ p <= b < p + o) /\ ~ r <= b < r + m) /\ keeps st st'.

Lemma set_optim_ok st o : st_ok st -> st_ok (set_optim o st).
Proof. intros []. by split. Qed.

Definition request_frags (st : mount) (m : Z) : Z := if fs_optim st =? FS_OPTSPACE then m else fs_frag fs.
Lemma request_size_ok nsize m st : frag_size nsize m -> fs_optim st = FS_OPTSPACE \/ fs_optim st = FS_OPTTIME ->
  exists request o, request_size nsize st = Ret (request, set_optim o st) /\ frag_size request (request_frags st m) /\ (o = FS_OPTSPACE \/ o = FS_OPTTIME) /\
    (nsize <? request) = negb (request_frags st m =? m) /\ request - nsize = (request_frags st m - m) * 2 ^ fs_fshift fs.
Proof.
  intros [Hns Hm] Ho. pose proof frag_pos_. destruct (sb_bsize Hsb) as [Hb1 Hb2]. pose proof (sb_fshift Hsb). assert (0 < 2 ^ fs_fshift fs) by lia.
  assert (Hid : st = set_optim (fs_optim st) st) by by destruct st.
  unfold request_size, request_frags. destruct (Z.eqb_spec (fs_optim st) FS_OPTSPACE) as [E|E].
  - exists nsize, (if (fs_minfree fs <? 5) || (cs_nffree (fs_cstotal st) >? Z.quot (s32 (fs_dsize fs * fs_minfree fs)) (2 * 100)) then fs_optim st else FS_OPTTIME).
    split; [do 2 f_equal; destruct (_ || _); [exact Hid|done]|]. split; [by split|]. split; [destruct (_ || _); by auto|]. rewrite Z.ltb_irrefl, Z.eqb_refl. split; [done|lia].
  - destruct Ho as [|Ho]; [done|]. rewrite (proj2 (Z.eqb_eq _ _) Ho).
    exists (fs_bsize fs), (if cs_nffree (fs_cstotal st) <? Z.quot (s32 (fs_dsize fs * (fs_minfree fs - 2))) 100 then fs_optim st else FS_OPTSPACE).
    split; [do 2 f_equal; destruct (_ <? _); [exact Hid|done]|]. split; [split; [done|lia]|]. split; [destruct (_ <? _); by auto|]. split; [|lia].
    destruct (Z.eqb_spec (fs_frag fs) m) as [<-|]; cbn [negb]; [apply Z.ltb_ge; lia|apply Z.ltb_lt; nia].
Qed.

Lemma taken_not_free st st' r n b : taken st st' r n -> ~ free st b -> ~ free st' b.
Proof. intros (_ & _ & _ & H & _) Hn Hf. by destruct (proj1 (H b) Hf). Qed.

(** A new place was found: the old fragments and what is over are given back. *)
Lemma realloc_move st st1 p o osize r m a (more : bool) from rest : more = negb (a =? m) -> from = r + m -> rest = (a - m) * 2 ^ fs_fshift fs ->
  st_ok st -> frag_size osize o -> 1 <= m <= a -> a <= fs_frag fs -> in_use st p o -> usable st (dtog p) ->
  st_ok st1 -> taken st st1 r a -> m = a \/ a = fs_frag fs ->
  exists st', (st ← blkfree p osize st1;
    if more then blkfree from rest st else Ret st) = Ret st' /\ st_ok st' /\ resized st st' p o r m.
Proof.
  intros -> -> -> Hok Hos Hm Ha (U1 & U2 & U3 & U4) Hus Hok1 Ht Hcase. pose proof Ht as (T1 & T2 & T3 & T4 & T5 & T6). pose proof frag_pos_.
  destruct (blkfree_ok p osize o st1 Hok1 Hos) as (st2 & -> & Hok2 & R); [unfold in_use; splits; try done; intros b Hb; eapply taken_not_free; [done|by apply U4]|].
  destruct R as [[_ [G1 [G2 G3]]]|[N _]]; [|by destruct (N (proj2 (T5 _) Hus))]. bind.
  assert (Hdis : forall b, r <= b < r + a -> p <= b < p + o -> False) by (intros b Hb Hb'; apply (U4 b Hb'), T3, Hb).
  destruct (Z.eqb_spec a m) as [->|Hne]; cbn [negb].
  - exists st2. split; [done|]. split; [done|]. split; [done|]. split; [done|]. split; [intros b Hb; left; by apply T3|]. split.
    + intros b. rewrite G1, T4. split; [|tauto]. intros [[? ?]|Hb]; [tauto|]. split; [by right|]. intros Hb'. by apply (Hdis b).
    + split; [|congruence]. intros g. by rewrite G2, T5.
  - destruct Hcase as [|Ea]; [lia|]. assert (Er : r mod fs_frag fs = 0) by (pose proof (Z.mod_pos_bound r (fs_frag fs)); lia).
    assert (Hr : fs_frag fs <= r) by (apply (st_free _ Hok r), T3; lia).
    assert (Hend : r + a <= fs_size fs) by (pose proof (st_free _ Hok (r + a - 1) (T3 (r + a - 1) ltac:(lia))); lia).
    destruct (blkfree_ok (r + m) ((a - m) * 2 ^ fs_fshift fs) (a - m) st2 Hok2) as (st3 & -> & Hok3 & R); [split; [done|lia]| |].
    { unfold in_use; splits; [lia|lia| |].
      - replace (r + m) with (m + r / fs_frag fs * fs_frag fs) by (pose proof (Z.div_mod r (fs_frag fs)); lia). rewrite Z.mod_add, Z.mod_small by lia. lia.
      - intros b Hb. rewrite G1, T4. intros [[_ N]|Hb']; [apply N; lia|]. apply (Hdis b); lia. }
    bind. exists st3. split; [done|]. split; [done|].
    assert (Hus' : usable st2 (dtog (r + m))).
    { rewrite G2, T5. assert (free st (r + m)) as (c & Hc & _) by (apply T3; lia). by exists c. }
    destruct R as [[_ [K1 [K2 K3]]]|[N _]]; [|done].
    split; [done|]. split; [lia|]. split; [intros b Hb; left; apply T3; lia|]. split.
    + intros b. rewrite K1, G1, T4. specialize (T3 b). specialize (Hdis b). destruct (decide (r <= b < r + a)), (decide (r + m <= b < r + m + (a - m))), (decide (p <= b < p + o)), (decide (r <= b < r + m)); try lia; tauto.
    + split; [|congruence]. intros g. by rewrite K2, G2, T5.
Qed.

Lemma realloccg_ok uid ip lbprev bpref osize o nsize m p st : rot_ok -> st_ok st -> frag_size osize o -> frag_size nsize m -> o < m ->
  i_db ip !! Z.to_nat lbprev = Some p -> 0 <= lbprev -> in_use st p o -> usable st (dtog p) -> 0 <= bpref -> fs_optim st = FS_OPTSPACE \/ fs_optim st = FS_OPTTIME ->
  exists e blk ip' st', realloccg uid ip lbprev bpref osize nsize (inr (fsbtodb p)) st = Ret (e, blk, ip', st') /\ st_ok st' /\
    (fs_optim st' = FS_OPTSPACE \/ fs_optim st' = FS_OPTTIME) /\
    ((exists r o', e = 0 /\ blk = fsbtodb r /\ ip' = charged ip (nsize - osize) /\ resized (set_optim o' st) st' p o r m) \/
     (e = ENOSPC /\ blk = 0 /\ ip' = ip /\ (exists o', st' = set_optim o' st) /\
      ((uid <> 0 /\ freespace st (fs_minfree fs) <= 0) \/ (~ extendable st p o m /\ forall g, ~ has_room st g (request_frags st m))))).
Proof.
  intros Hrot Hok Hos Hns Hom Hdb Hlb Hin Hus Hbp Hopt. destruct (frag_size_ok _ _ Hos) as (S1 & S2 & S3 & _). destruct (frag_size_ok _ _ Hns) as (N1 & N2 & N3 & _). pose proof frag_pos_.
  assert (Hid : st = set_optim (fs_optim st) st) by by destruct st.
  unfold realloccg. rewrite !Z.gtb_ltb. destruct (Z.ltb_spec (fs_bsize fs) (u32 osize)); [lia|]. destruct (Z.ltb_spec (fs_bsize fs) (u32 nsize)); [lia|].
  rewrite S3, N3. cbn [Z.eqb negb orb].
  destruct (negb (uid =? 0) && (freespace st (fs_minfree fs) <=? 0)) eqn:E2.
  { rewrite andb_true_iff, negb_true_iff, Z.eqb_neq, Z.leb_le in E2. exists ENOSPC, 0, ip, st. split; [done|]. split; [done|]. split; [done|]. right. splits; try done; [by eexists|by left]. }
  assert (Erd : rd (i_db ip) lbprev = Ret p).
  { unfold rd, at_. apply lookup_lt_Some in Hdb as Hlt. rewrite (proj2 (within_spec _ _)) by lia. by rewrite Hdb. }
  rewrite Erd. bind. assert (Hp : fs_frag fs <= p < fs_size fs) by (destruct Hin as (? & ? & _), Hos; lia).
  destruct (Z.eqb_spec p 0); [lia|].
  destruct (fragextend_ok st p osize o nsize m Hok Hos Hns Hom Hin) as (b & st1 & -> & [(-> & Hok1 & He & Ht)|(-> & -> & Hne)]); bind.
  - rewrite (proj2 (Z.eqb_neq p 0)) by lia. cbn [negb]. rewrite Z.eqb_refl. cbn [negb]. eexists _, _, _, _. split; [reflexivity|]. split; [done|].
    destruct Ht as (T1 & T2 & T3 & T4 & T5 & T6). destruct He as [He1 He2]. split; [by rewrite T6|]. left. exists p, (fs_optim st). rewrite <- Hid. splits; try done.
    split; [lia|]. split; [done|]. split; [intros b Hb; destruct (decide (p + o <= b)); [left; apply T3; lia|right; lia]|]. split; [|done].
    intros b. rewrite T4. destruct Hin as (_ & _ & _ & U4). specialize (U4 b). pose proof (proj2 Hos). assert (p <= b < p + m <-> p <= b < p + o \/ p + o <= b < p + o + (m - o)) by lia. assert (~ (p <= b < p + o /\ p + o <= b < p + o + (m - o))) by lia. tauto.
  - cbn [Z.eqb negb]. destruct (request_size_ok nsize m st Hns Hopt) as (request & o' & -> & Hrq & Ho' & Elt & Esub). bind.
    rewrite Z.geb_leb. set (bp := if fs_size fs <=? bpref then 0 else bpref). assert (Hbp' : 0 <= bp) by (unfold bp; destruct (fs_size fs <=? bpref); lia).
    pose proof (set_optim_ok st o' Hok) as Hok'. destruct (sb_size Hsb) as (Z1 & Z2 & _). destruct (sb_fpg Hsb) as [F1 _].
    assert (Hcg : 0 <= dtog p < fs_ncg fs) by (unfold dtog; split; [apply Z.div_pos; lia|apply Z.div_lt_upper_bound; nia]).
    destruct (hash_alloccg (set_optim o' st) request (request_frags st m) (dtog p) bp Hrot Hok' Hrq Hcg Hbp') as (r & st1 & -> & R). bind.
    rewrite Z.gtb_ltb. destruct R as [(-> & -> & Hno)|(Hr & Hok1 & Ht & _)].
    + eexists _, _, _, _. split; [reflexivity|]. split; [done|]. split; [done|]. right. splits; try done; [by exists o'|]. by right.
    + destruct (Z.ltb_spec 0 r); [|lia].
      assert (Hcase : m = request_frags st m \/ request_frags st m = fs_frag fs) by (unfold request_frags; destruct (fs_optim st =? FS_OPTSPACE); auto).
      assert (Hle : 1 <= m <= request_frags st m /\ request_frags st m <= fs_frag fs) by (destruct Hns as [_ ?]; unfold request_frags; destruct (fs_optim st =? FS_OPTSPACE); lia).
      destruct (realloc_move (set_optim o' st) st1 p o osize r m (request_frags st m) (nsize <? request) (r + numfrags nsize) (request - nsize)) as (st' & E & Hok2 & Hres); try done; [by rewrite N1|..]; [lia|lia|].
      revert E. destruct (blkfree p osize st1) as [st2| |]; [|done|done]. bind. intros ->. bind.
      eexists _, _, _, _. split; [reflexivity|]. split; [done|]. split; [|left; by exists r, o'].
      pose proof Hres as (_ & _ & _ & _ & _ & ->). exact Ho'.
Qed.

(** ** Files on the disk

    Which piece [(first fragment, length)] of the disk each pointer of a file
    holds, by inode number and logical block.  A new piece is asked for where the
    pointer is null, the piece that grows is the one its inode names, and what
    the pointer holds afterwards is what balloc stores (ufs_bmap.c). *)
Definition disk : Type := mount * gmap (Z * Z) (Z * Z).
Inductive request : Type :=
  | Want (uid ino lbn bpref n : Z)
  | Grow (uid ino lbn bpref n : Z)
  | Release (ino lbn : Z).

Definition bytes_of (n : Z) : Z := n * 2 ^ fs_fshift fs.
(** The direct block pointers of inode [ino]. *)
Definition pointers (l : gmap (Z * Z) (Z * Z)) (ino : Z) : list Z :=
  map (fun lbn => match l !! (ino, lbn) with Some e => e.1 | None => 0 end) (seqZ 0 NDADDR).
Definition perform (q : request) (d : disk) : outcome disk :=
  let '(st, l) := d in
  match q with
  | Want uid ino lbn bpref n =>
      match l !! (ino, lbn) with
      | Some _ => Ret (st, l)
      | None =>
          '(e, bno, _, st) ← alloc uid (Inode ino 0 false (pointers l ino)) bpref (bytes_of n) st;
          Ret (st, if e =? 0 then <[(ino, lbn) := (bno, n)]> l else l)
      end
  | Grow uid ino lbn bpref m =>
      match l !! (ino, lbn) with
      | Some (p, n) =>
          if n <? m then
            '(e, blkno, _, st) ← realloccg uid (Inode ino 0 false (pointers l ino)) lbn bpref (bytes_of n) (bytes_of m) (inr (fsbtodb p)) st;
            Ret (st, if e =? 0 then <[(ino, lbn) := (dbtofsb blkno, m)]> l else l)
          else Ret (st, l)
      | None => Ret (st, l)
      end
  | Release ino lbn =>
      match l !! (ino, lbn) with
      | Some (p, n) => st ← blkfree p (bytes_of n) st; Ret (st, delete (ino, lbn) l)
      | None => Ret (st, l)
      end
  end.
Fixpoint perform_all (qs : list request) (d : disk) : outcome disk :=
  match qs with
  | [] => Ret d
  | q :: qs => d ← perform q d; perform_all qs d
  end.

Definition sane (q : request) : Prop :=
  match q with
  | Want _ ino _ bpref n => 0 <= bpref /\ 0 <= itog ino < fs_ncg fs /\ 1 <= n <= fs_frag fs
  | Grow _ _ lbn bpref m => 0 <= bpref /\ 0 <= lbn < NDADDR /\ m <= fs_frag fs
  | Release _ _ => True
  end.

Definition piece_ok (st : mount) (e : Z * Z) : Prop :=
  1 <= e.2 <= fs_frag fs /\ in_use st e.1 e.2 /\ usable st (dtog e.1).
Definition covers (o : option (Z * Z)) (b : Z) : Prop :=
  match o with Some e => e.1 <= b < e.1 + e.2 | None => False end.
(** The groups agree with their counts, the pieces are in use, and no two share a fragment. *)
Record disk_ok (d : disk) : Prop := DiskOk {
  dk_st : st_ok d.1;
  dk_optim : fs_optim d.1 = FS_OPTSPACE \/ fs_optim d.1 = FS_OPTTIME;
  dk_pieces : forall k e, d.2 !! k = Some e -> piece_ok d.1 e;
  dk_disjoint : forall i j b, covers (d.2 !! i) b -> covers (d.2 !! j) b -> i = j }.
(** The fragments that are free or in a piece. *)
Definition pool (d : disk) (b : Z) : Prop := free d.1 b \/ exists k, covers (d.2 !! k) b.

Lemma dtog_block b : dtog b = b / fs_frag fs / nblk.
Proof. pose proof frag_pos_. pose proof nblk_pos. unfold dtog. rewrite fpg_eq, Z.mul_comm, Z.div_div by lia. done. Qed.
Lemma piece_group st e b : piece_ok st e -> covers (Some e) b -> dtog b = dtog e.1 /\ fs_frag fs <= b < fs_size fs /\ ~ free st b.
Proof.
  destruct e as [p n]. intros (H1 & (H2 & H3 & H4 & H5) & _) Hb. cbn in *. pose proof frag_pos_. split; [|split; [lia|by apply H5]].
  rewrite !dtog_block. f_equal. pose proof (Z.div_mod p (fs_frag fs) ltac:(lia)) as Ep. pose proof (Z.mod_pos_bound p (fs_frag fs) ltac:(lia)).
  symmetry. apply (Z.div_unique_pos _ _ _ (b - fs_frag fs * (p / fs_frag fs))); lia.
Qed.

(** One pointer's piece becomes [new]: what the three requests do to the disk. *)
Lemma disk_move st l st' k new : disk_ok (st, l) -> st_ok st' -> keeps st st' ->
  (forall b, free st' b <-> (free st b \/ covers (l !! k) b) /\ ~ covers new b) ->
  (forall b, covers new b -> free st b \/ covers (l !! k) b) ->
  (forall e, new = Some e -> 1 <= e.2 <= fs_frag fs /\ e.1 mod fs_frag fs + e.2 <= fs_frag fs) ->
  let d := (st', partial_alter (fun _ => new) k l) in disk_ok d /\ forall b, pool d b <-> pool (st, l) b.
Proof.
  intros [Hok Hopt Hp Hdis] Hok' [Hus Ho'] Hfree Hnew Hsh d. cbn in Hok, Hopt, Hp, Hdis.
  assert (Hat : d.2 !! k = new) by apply lookup_partial_alter_eq.
  assert (Hother : forall i, i <> k -> d.2 !! i = l !! i) by (intros i Hi; by apply lookup_partial_alter_ne).
  assert (Hin : forall b, free st b \/ covers (l !! k) b -> fs_frag fs <= b < fs_size fs /\ usable st (dtog b)).
  { intros b [Hb|Hb]; [split; [by apply (st_free _ Hok)|destruct Hb as (c & Hc & _); by exists c]|].
    destruct (l !! k) as [e|] eqn:E; [|done]. destruct (piece_group st e b (Hp _ _ E) Hb) as (-> & ? & _). split; [done|apply (Hp _ _ E)]. }
  assert (Hk : forall i b, i <> k -> covers (l !! i) b -> ~ (free st b \/ covers (l !! k) b)).
  { intros i b Hi Hb [Hf|Hb']; [|by apply Hi, (Hdis i k b)]. destruct (l !! i) as [e|] eqn:E; [|done]. by destruct (piece_group st e b (Hp _ _ E) Hb) as (_ & _ & ?). }
  split; [split|].
  - done.
  - cbn. by rewrite Ho'.
  - intros i e Hi. destruct (decide (i = k)) as [->|Hne].
    + rewrite Hat in Hi. destruct (Hsh e Hi) as [S1 S2]. rewrite Hi in Hnew, Hfree. cbn [covers] in Hnew, Hfree.
      destruct (Hin e.1 (Hnew e.1 ltac:(lia))) as [B1 B2]. destruct (Hin (e.1 + e.2 - 1) (Hnew (e.1 + e.2 - 1) ltac:(lia))) as [B3 _].
      split; [done|]. split; [|by apply Hus]. split; [lia|]. split; [lia|]. split; [done|]. intros b Hb Hf. apply Hfree in Hf. by destruct Hf.
    + rewrite Hother in Hi by done. destruct (Hp _ _ Hi) as (P1 & (P2 & P3 & P4 & P5) & P6). split; [done|]. split; [|by apply Hus].
      split; [done|]. split; [done|]. split; [done|]. intros b Hb Hf. apply Hfree in Hf. apply (Hk i b Hne); [by rewrite Hi|tauto].
  - assert (Hone : forall i b, i <> k -> covers (d.2 !! i) b -> covers new b -> False).
    { intros i b Hi Hb Hb'. rewrite Hother in Hb by done. by apply (Hk i b Hi Hb), Hnew. }
    intros i j b Hi Hj. destruct (decide (i = k)) as [->|Hik], (decide (j = k)) as [->|Hjk]; try done.
    + rewrite Hat in Hi. by destruct (Hone j b Hjk Hj).
    + rewrite Hat in Hj. by destruct (Hone i b Hik Hi).
    + rewrite Hother in Hi, Hj by done. by apply (Hdis i j b).
  - intros b. assert (Hfr : covers new b \/ ~ covers new b) by (destruct new as [[p n]|]; cbn; lia). unfold pool. cbn [fst]. split.
    + intros [Hb|(i & Hi)]; [apply Hfree in Hb as [[?|?] _]; [by left|right; by exists k]|].
      destruct (decide (i = k)) as [->|Hne]; [rewrite Hat in Hi; destruct (Hnew b Hi); [by left|right; by exists k]|].
      rewrite Hother in Hi by done. right. by exists i.
    + intros Hb. assert (Hb' : free st b \/ covers (l !! k) b \/ exists i, i <> k /\ covers (l !! i) b).
      { destruct Hb as [?|(i & Hi)]; [by left|]. destruct (decide (i = k)) as [->|]; [by right; left|right; right; by exists i]. }
      destruct Hfr as [Hc|Hc]; [right; exists k; by rewrite Hat|].
      destruct Hb' as [?|[?|(i & Hi & ?)]]; [left; apply Hfree; tauto|left; apply Hfree; tauto|right; exists i; by rewrite Hother].
Qed.

Lemma dbtofsb_fsbtodb b : dbtofsb (fsbtodb b) = b.
Proof. unfold dbtofsb, fsbtodb. pose proof (sb_fsbtodb Hsb). rewrite Z.shiftr_shiftl_l, Z.sub_diag by lia. apply Z.shiftl_0_r. Qed.

Lemma pointers_at l ino lbn p n : 0 <= lbn < NDADDR -> l !! (ino, lbn) = Some (p, n) -> pointers l ino !! Z.to_nat lbn = Some p.
Proof.
  intros Hl E. unfold pointers. rewrite list_lookup_fmap, (proj2 (lookup_seqZ 0 NDADDR (Z.to_nat lbn) lbn)) by lia. cbn. by rewrite E.
Qed.

Lemma disk_optim st l o : disk_ok (st, l) -> o = FS_OPTSPACE \/ o = FS_OPTTIME -> disk_ok (set_optim o st, l).
Proof. intros [Hok ? Hp Hd] Ho. split; [by apply set_optim_ok|exact Ho|exact Hp|exact Hd]. Qed.

Definition serves (d d' : disk) : Prop := disk_ok d' /\ forall b, pool d' b <-> pool d b.

Lemma want_ok uid ino lbn bpref n d : rot_ok -> disk_ok d -> sane (Want uid ino lbn bpref n) ->
  exists d', perform (Want uid ino lbn bpref n) d = Ret d' /\ serves d d'.
Proof.
  destruct d as [st l]. intros Hrot Hd (Hb & Hi & Hn). cbn [perform]. destruct (l !! (ino, lbn)) eqn:E; [by exists (st, l)|].
  destruct (alloc_ok uid (Inode ino 0 false (pointers l ino)) bpref (bytes_of n) n st Hrot (dk_st _ Hd)) as (e & bno & ip' & st' & -> & R); [by split|done|done|]. bind.
  destruct R as [(-> & Hok' & (T1 & T2 & T3 & T4 & T5) & _)|(-> & _ & _ & -> & _)]; [|by exists (st, l)]. cbn [Z.eqb]. eexists. split; [reflexivity|].
  apply (disk_move st l st' (ino, lbn) (Some (bno, n))); try done.
  - intros b. rewrite E, T4. cbn. tauto.
  - intros b Hb'. left. by apply T3.
  - intros e [= <-]. by split.
Qed.

Lemma grow_ok uid ino lbn bpref m d : rot_ok -> disk_ok d -> sane (Grow uid ino lbn bpref m) ->
  exists d', perform (Grow uid ino lbn bpref m) d = Ret d' /\ serves d d'.
Proof.
  destruct d as [st l]. intros Hrot Hd (Hb & Hi & Hm). cbn [perform]. destruct (l !! (ino, lbn)) as [[p n]|] eqn:E; [|by exists (st, l)].
  destruct (Z.ltb_spec n m) as [Hlt|]; [|by exists (st, l)]. destruct (dk_pieces _ Hd _ _ E) as (P1 & P2 & P3). cbn in P1, P2, P3. pose proof (dk_optim _ Hd).
  assert (Hfn : frag_size (bytes_of n) n) by by split. assert (Hfm : frag_size (bytes_of m) m) by (split; [done|lia]).
  destruct (realloccg_ok uid (Inode ino 0 false (pointers l ino)) lbn bpref (bytes_of n) n (bytes_of m) m p st Hrot (dk_st _ Hd)) as (e & blk & ip' & st' & -> & Hok' & Ho' & R);
    try done; [by apply (pointers_at l ino lbn p n)|lia|]. bind.
  destruct R as [(r & o & -> & -> & _ & (R1 & R2 & R3 & R4 & R5))|(-> & _ & _ & (o & ->) & _)]; cbn [Z.eqb].
  - eexists. split; [reflexivity|]. rewrite dbtofsb_fsbtodb.
    assert (Ho : o = FS_OPTSPACE \/ o = FS_OPTTIME) by (destruct R5 as [_ E5]; cbn in E5; by rewrite <- E5).
    apply (disk_move (set_optim o st) l st' (ino, lbn) (Some (r, m))); try done; [by apply disk_optim|intros b; rewrite E; apply R4|intros b Hc; rewrite E; by apply R3|].
    intros e [= <-]. cbn. split; [lia|done].
  - eexists. split; [reflexivity|]. split; [by apply disk_optim|done].
Qed.

Lemma release_ok ino lbn d : disk_ok d -> exists d', perform (Release ino lbn) d = Ret d' /\ serves d d'.
Proof.
  destruct d as [st l]. intros Hd. cbn [perform]. destruct (l !! (ino, lbn)) as [[p n]|] eqn:E; [|by exists (st, l)].
  destruct (dk_pieces _ Hd _ _ E) as (P1 & P2 & P3). cbn in P1, P2, P3.
  destruct (blkfree_ok p (bytes_of n) n st (dk_st _ Hd)) as (st' & -> & Hok' & [[_ (G1 & G2)]|[N _]]); [by split|done| |done]. bind.
  eexists. split; [reflexivity|]. apply (disk_move st l st' (ino, lbn) None); try done.
  intros b. rewrite E, G1. cbn. tauto.
Qed.

Lemma perform_ok q d : rot_ok -> disk_ok d -> sane q -> exists d', perform q d = Ret d' /\ serves d d'.
Proof. destruct q; [apply want_ok|apply grow_ok|intros _ Hd _; by apply release_ok]. Qed.
Lemma perform_all_ok qs : forall d, rot_ok -> disk_ok d -> Forall sane qs -> exists d', perform_all qs d = Ret d' /\ serves d d'.
Proof.
  induction qs as [|q qs IH]; intros d Hrot Hd Hq; [by exists d|]. inversion Hq as [|? ? H1 H2]; subst. cbn [perform_all].
  destruct (perform_ok q d Hrot Hd H1) as (d1 & -> & Hd1 & E1). bind. destruct (IH d1 Hrot Hd1 H2) as (d2 & -> & Hd2 & E2).
  exists d2. split; [done|]. split; [done|]. intros b. by rewrite E2.
Qed.

(** ** blkpref *)
Definition group_free (st : mount) (g : Z) : Z := match fs_csp st !! Z.to_nat g with Some s => cs_nbfree s | None => 0 end.
Definition average (st : mount) : Z := Z.quot (cs_nbfree (fs_cstotal st)) (fs_ncg fs).

Lemma cg_scan_ok st avg : forall n cg, Z.of_nat (length (fs_csp st)) = fs_ncg fs -> 0 <= cg -> cg + Z.of_nat n <= fs_ncg fs ->
  (exists g, cg_scan n cg avg st = Ret (Some g) /\ cg <= g < cg + Z.of_nat n /\ avg <= group_free st g /\ forall h, cg <= h < g -> group_free st h < avg) \/
  (cg_scan n cg avg st = Ret None /\ forall h, cg <= h < cg + Z.of_nat n -> group_free st h < avg).
Proof.
  intros n cg Hl. revert cg. induction n as [|n IH]; intros cg H0 Hn; cbn [cg_scan]; [right; split; [done|]; intros; lia|].
  destruct (rdl_some (fs_csp st) cg) as (s & E & ->); [lia|]. bind. rewrite Z.geb_leb.
  assert (Es : group_free st cg = cs_nbfree s) by (unfold group_free; by rewrite E).
  destruct (Z.leb_spec avg (cs_nbfree s)) as [Hle|Hlt]; [left; exists cg; splits; try done; try lia|].
  destruct (IH (cg + 1)) as [(g & -> & Hg & Ha & Hb)|[-> Hb]]; [lia|lia| |].
  - left. exists g. splits; [done|lia|lia|done|]. intros h Hh. destruct (Z.eq_dec h cg) as [->|]; [lia|apply Hb; lia].
  - right. split; [done|]. intros h Hh. destruct (Z.eq_dec h cg) as [->|]; [lia|apply Hb; lia].
Qed.

Lemma sum_below (f : csum -> Z) (l : list csum) avg : f (Cs 0 0 0 0) = 0 -> (forall a b, f (add_cs a b) = f a + f b) ->
  (forall i s, l !! i = Some s -> f s < avg) -> f (sum_cs l) <= Z.of_nat (length l) * (avg - 1).
Proof.
  intros F0 Fa. induction l as [|x l IH]; intros H; [cbn; lia|]. cbn [sum_cs foldr length]. fold (sum_cs l). rewrite Fa. pose proof (H 0%nat x eq_refl).
  specialize (IH (fun i s => H (S i) s)). lia.
Qed.
(** Some group has at least the average of a count. *)
Lemma some_above (f : csum -> Z) st : f (Cs 0 0 0 0) = 0 -> (forall a b, f (add_cs a b) = f a + f b) -> 0 <= f (fs_cstotal st) -> st_ok st ->
  exists g s, 0 <= g < fs_ncg fs /\ fs_csp st !! Z.to_nat g = Some s /\ Z.quot (f (fs_cstotal st)) (fs_ncg fs) <= f s.
Proof.
  intros F0 Fa Hp Hok. destruct (st_lens _ Hok) as [_ Hl]. pose proof (sb_ncg Hsb) as Hn. set (avg := Z.quot _ _).
  destruct (decide (Forall (fun s => f s < avg) (fs_csp st))) as [Hf|Hf].
  - exfalso. assert (f (sum_cs (fs_csp st)) <= Z.of_nat (length (fs_csp st)) * (avg - 1)).
    { apply sum_below; [done|done|]. intros i s E. rewrite Forall_lookup in Hf. by apply (Hf i). }
    rewrite <- (st_total _ Hok), Hl in H. unfold avg in *. rewrite Z.quot_div_nonneg in * by lia. pose proof (Z.mul_div_le (f (fs_cstotal st)) (fs_ncg fs) Hn). nia.
  - apply not_Forall_Exists in Hf; [|apply _]. apply Exists_exists in Hf as (s & Hs & Hge). unfold compose in Hge. apply list_elem_of_lookup in Hs as [i E].
    exists (Z.of_nat i), s. apply lookup_lt_Some in E as Hi. rewrite Nat2Z.id. split; [lia|]. split; [done|]. lia.
Qed.
Lemma some_above_average st : st_ok st -> exists g, 0 <= g < fs_ncg fs /\ average st <= group_free st g.
Proof.
  intros Hok. destruct (sum_nbfree _ (st_pos _ Hok)) as [Hp _]. rewrite <- (st_total _ Hok) in Hp.
  destruct (some_above cs_nbfree st) as (g & s & Hg & E & Ha); [done|intros; cbn; lia|done|done|]. exists g. split; [done|]. unfold group_free. by rewrite E.
Qed.

(** The group where the search begins, and how far behind it a group is. *)
Definition first_group (ip : inode) (lbn indx : Z) (bap : list Z) : Z :=
  (if (indx =? 0) || (at_ bap (indx - 1) =? 0) then itog (i_number ip) + lbn / fs_maxbpg fs else dtog (at_ bap (indx - 1)) + 1) mod fs_ncg fs.
Definition behind (s g : Z) : Z := (g - s) mod fs_ncg fs.

Lemma sweep_ok st s : st_ok st -> 0 <= s < fs_ncg fs ->
  exists g, (o ← cg_scan (Z.to_nat (fs_ncg fs - s)) s (average st) st;
             match o with Some cg => Ret (Some cg) | None => cg_scan (Z.to_nat (s + 1)) 0 (average st) st end) = Ret (Some g) /\
    0 <= g < fs_ncg fs /\ average st <= group_free st g /\ forall h, 0 <= h < fs_ncg fs -> behind s h < behind s g -> group_free st h < average st.
Proof.
  intros Hok Hs. destruct (st_lens _ Hok) as [_ Hl].
  assert (Hbe : forall h, 0 <= h < fs_ncg fs -> behind s h = if s <=? h then h - s else h - s + fs_ncg fs).
  { intros h Hh. unfold behind. destruct (Z.leb_spec s h); [apply Z.mod_small; lia|]. rewrite <- (Z.mod_add _ 1), Z.mul_1_l, Z.mod_small by lia. done. }
  destruct (cg_scan_ok st (average st) (Z.to_nat (fs_ncg fs - s)) s Hl) as [(g & -> & Hg & Ha & Hb)|[-> Hb]]; [lia|lia| |]; bind.
  - exists g. splits; [done|lia|lia|done|]. intros h Hh. rewrite !Hbe by lia. rewrite (proj2 (Z.leb_le s g)) by lia.
    destruct (Z.leb_spec s h); [intros ?; apply Hb|]; lia.
  - destruct (cg_scan_ok st (average st) (Z.to_nat (s + 1)) 0 Hl) as [(g & -> & Hg & Ha & Hb')|[-> Hb']]; [lia|lia| |].
    + exists g. splits; [done|lia|lia|done|]. intros h Hh. rewrite !Hbe by lia. destruct (Z.leb_spec s h); [intros _; apply Hb; lia|].
      destruct (Z.leb_spec s g); [assert (group_free st g < average st) by (apply Hb; lia); lia|]. intros ?. apply Hb'. lia.
    + destruct (some_above_average st Hok) as (g & Hg & Ha). destruct (Z_lt_le_dec g s); [specialize (Hb' g)|specialize (Hb g)]; lia.
Qed.

Definition begins (indx : Z) (bap : list Z) : Prop := indx mod fs_maxbpg fs = 0 \/ at_ bap (indx - 1) = 0.
Definition run_full_up (indx : Z) (bap : list Z) : bool :=
  (indx <=? fs_maxcontig fs) || (at_ bap (indx - fs_maxcontig fs) + blkstofrags (fs_maxcontig fs) =? at_ bap (indx - 1) + fs_frag fs).
Definition delay : Z := roundup (Z.quot (fs_rotdelay fs * fs_rps fs * fs_nsect fs) (NSPF * 1000)) (fs_frag fs).

Lemma rd_at l i : 0 <= i < Z.of_nat (length l) -> rd l i = Ret (at_ l i).
Proof. intros Hi. unfold rd. by rewrite (proj2 (within_spec _ _)). Qed.

Lemma blkpref_ok ip lbn indx bap st : st_ok st -> 0 < fs_maxbpg fs -> 0 <= fs_maxcontig fs -> 0 <= indx ->
  (indx = 0 \/ (indx < Z.of_nat (length bap) /\ forall i, 0 <= i < indx -> 0 <= at_ bap i)) ->
  exists pref st', blkpref ip lbn indx bap st = Ret (pref, st') /\
    (begins indx bap -> lbn < NDADDR -> pref = fs_fpg fs * itog (i_number ip) + fs_frag fs /\ st' = st) /\
    (begins indx bap -> NDADDR <= lbn -> exists g, 0 <= g < fs_ncg fs /\ pref = fs_fpg fs * g + fs_frag fs /\ st' = set_cgrotor g st /\
       average st <= group_free st g /\ let s := first_group ip lbn indx bap in forall h, 0 <= h < fs_ncg fs -> behind s h < behind s g -> group_free st h < average st) /\
    (~ begins indx bap -> pref = at_ bap (indx - 1) + fs_frag fs + (if run_full_up indx bap && negb (fs_rotdelay fs =? 0) then delay else 0) /\ st' = st).
Proof.
  intros Hok Hm Hc Hi Hbap. pose proof (sb_ncg Hsb) as Hn.
  assert (Hrd : indx <> 0 -> rd bap (indx - 1) = Ret (at_ bap (indx - 1))) by (intros ?; apply rd_at; lia).
  unfold blkpref.
  assert (E : (if indx mod fs_maxbpg fs =? 0 then Ret true else p ← rd bap (indx - 1); Ret (p =? 0)) = Ret ((indx mod fs_maxbpg fs =? 0) || (at_ bap (indx - 1) =? 0))).
  { destruct (Z.eqb_spec (indx mod fs_maxbpg fs) 0) as [|Hne]; [done|]. rewrite Hrd; [done|]. intros ->. by rewrite Z.mod_0_l in Hne by lia. }
  rewrite E. bind. assert (Hbeg : begins indx bap <-> (indx mod fs_maxbpg fs =? 0) || (at_ bap (indx - 1) =? 0) = true) by (unfold begins; by rewrite orb_true_iff, !Z.eqb_eq).
  destruct ((indx mod fs_maxbpg fs =? 0) || (at_ bap (indx - 1) =? 0)) eqn:Eb.
  - destruct (Z.ltb_spec lbn NDADDR) as [Hl|Hl]; [eexists _, _; split; [reflexivity|]; splits; try done; [lia|intros Hnb; by destruct Hnb; apply Hbeg]|].
    assert (E2 : (if indx =? 0 then Ret 0 else rd bap (indx - 1)) = Ret (if indx =? 0 then 0 else at_ bap (indx - 1))) by (destruct (Z.eqb_spec indx 0); [done|by apply Hrd]).
    rewrite E2. bind.
    assert (E3 : (if (if indx =? 0 then 0 else at_ bap (indx - 1)) =? 0 then itog (i_number ip) + lbn / fs_maxbpg fs else dtog (if indx =? 0 then 0 else at_ bap (indx - 1)) + 1) mod fs_ncg fs =
                 first_group ip lbn indx bap) by (unfold first_group; by destruct (indx =? 0)).
    cbv zeta. rewrite E3. fold (average st). destruct (sweep_ok st (first_group ip lbn indx bap) Hok) as (g & Eg & Hg & Ha & Hb); [by apply Z.mod_pos_bound|].
    revert Eg. destruct (cg_scan (Z.to_nat (fs_ncg fs - _)) _ _ _) as [o| |]; [|intros [=]|intros [=]]. bind. intros ->. bind.
    eexists _, _. split; [reflexivity|]. splits; [lia| |intros Hnb; by destruct Hnb; apply Hbeg]. intros _ _. by exists g.
  - assert (Hne : indx <> 0) by (intros ->; by rewrite Z.mod_0_l in Eb by lia). rewrite Hrd by done. bind. cbv zeta. rewrite Z.gtb_ltb.
    assert (E2 : (if fs_maxcontig fs <? indx then x ← rd bap (indx - fs_maxcontig fs); Ret (negb (x + blkstofrags (fs_maxcontig fs) =? at_ bap (indx - 1) + fs_frag fs)) else Ret false)
      = Ret (negb (run_full_up indx bap))).
    { unfold run_full_up. rewrite Z.leb_antisym. destruct (Z.ltb_spec (fs_maxcontig fs) indx); [|done]. rewrite rd_at by lia. done. }
    rewrite E2. bind. assert (Hnb : ~ begins indx bap) by (rewrite Hbeg; done).
    destruct (run_full_up indx bap); cbn [negb andb]; [destruct (fs_rotdelay fs =? 0); cbn [negb]|];
      (eexists _, _; split; [reflexivity|]; split; [by intros|]; split; [by intros|]; intros _; unfold delay; split; [lia|done]).
Qed.

(** ** Giving back what is free *)
Lemma free_bit st g c x j : group st g c -> 0 <= j < fs_fpg fs -> x = g * fs_fpg fs + j -> free st x <-> bit (cg_blksfree c) j = true.
Proof.
  intros Hg Hj ->. destruct (group_div g j Hj) as [E1 E2]. unfold free. rewrite E1, E2. split; [|by exists c].
  intros (c2 & (_ & H1 & _) & Hb). destruct Hg as (_ & H2 & _). congruence.
Qed.

Lemma blkfree_frag_check bno size n st : st_ok st -> frag_size size n -> n < fs_frag fs -> fs_frag fs <= bno -> bno + n <= fs_size fs -> bno mod fs_frag fs + n <= fs_frag fs ->
  (exists b, bno <= b < bno + n /\ free st b) -> blkfree bno size st = Panic "blkfree: freeing free frag".
Proof.
  intros Hok Hsz Hnf U1 U2 U3 (b & Hb & Hf). pose proof Hsz as [_ Hn]. pose proof frag_pos_.
  destruct (piece_place bno n (proj1 Hn) U3) as (h & k & Ex & Hbno & Hx & Hh & Hk & Hkn & Hal & Hxn).
  assert (Hdt : dtog b = dtog bno /\ b = dtog bno * fs_fpg fs + (dtogd bno + (b - bno))).
  { split; [|lia]. replace b with (dtog bno * fs_fpg fs + (dtogd bno + (b - bno))) at 1 by lia. apply group_div. lia. }
  destruct (blkfree_enter bno size n st Hok Hsz U1 U2) as [[Hnu _]|(c & Hgrp & ->)]; [destruct Hnu; rewrite <- (proj1 Hdt); destruct Hf as (c & Hc & _); by exists c|].
  destruct (st_group _ Hok _ c Hgrp) as (Gx & Gc & Gs). rewrite (proj2 (Z.eqb_neq n (fs_frag fs))) by lia.
  unfold blkfree_frags. destruct (frag_size_ok _ _ Hsz) as (S1 & _). rewrite fragnum_eq, S1, Ex, (proj2 (block_of h k ltac:(lia))). replace (h * fs_frag fs + k - k) with (h * fs_frag fs) by lia. cbv zeta.
  assert (Hroom : h * fs_frag fs + k + n <= 8 * Z.of_nat (length (cg_blksfree c))) by (pose proof (map_room c (h * fs_frag fs + k + n - 1) Gc); lia).
  rewrite blkmap_ok by first [apply (sb_frag Hsb)|lia]. bind. fold (bv (cg_blksfree c) h).
  destruct (fragacct_ok (fs_frag fs) (bv (cg_blksfree c) h) (cg_frsum c) (-1) (sb_frag Hsb) (bv_range _ _)) as (fr1 & -> & _); [rewrite (proj1 (ok_frsum _ Gc)); lia|]. bind.
  rewrite (proj2 (free_frags_ok (Z.to_nat n) (cg_blksfree c) (h * fs_frag fs + k) (ok_bytes _ Gc) ltac:(nia) ltac:(lia))); [done|].
  exists (dtogd bno + (b - bno)). split; [lia|]. apply (free_bit st (dtog bno) c b (dtogd bno + (b - bno)) Hgrp); [lia|apply Hdt|done].
Qed.

(** A whole block is refused when all of it is free; when only a part of it is, the
    code goes on and the counts are wrong afterwards. *)
Lemma blkfree_block_check bno st : st_ok st -> fs_frag fs <= bno -> bno + fs_frag fs <= fs_size fs -> bno mod fs_frag fs = 0 -> usable st (dtog bno) ->
  ((forall b, bno <= b < bno + fs_frag fs -> free st b) -> blkfree bno (fs_bsize fs) st = Panic "blkfree: freeing free block") /\
  ((exists b, bno <= b < bno + fs_frag fs /\ free st b) -> (exists b, bno <= b < bno + fs_frag fs /\ ~ free st b) ->
   exists st', blkfree bno (fs_bsize fs) st = Ret st' /\ ~ st_ok st').
Proof.
  intros Hok U1 U2 U3 Hus. pose proof frag_pos_. assert (Hsz : frag_size (fs_bsize fs) (fs_frag fs)) by (split; [apply (sb_bsize Hsb)|lia]).
  destruct (piece_place bno (fs_frag fs)) as (h & k & Ex & Hbno & Hx & Hh & Hk & Hkn & Hal & Hxn); [lia|lia|]. assert (k = 0) as -> by lia. rewrite Z.add_0_r in Ex.
  destruct (blkfree_enter bno _ _ st Hok Hsz U1 U2) as [[Hnu _]|(c & Hgrp & ->)]; [done|].
  destruct (st_group _ Hok _ c Hgrp) as (Gx & Gc & Gs). assert (Hg0 : 0 <= dtog bno) by (by destruct Hgrp).
  assert (Hfb : forall j, 0 <= j < fs_frag fs -> free st (bno + j) <-> bit (cg_blksfree c) (h * fs_frag fs + j) = true).
  { intros j Hj. apply (free_bit st (dtog bno) c _ _ Hgrp); [apply block_below; lia|lia]. }
  assert (Hroom : h * fs_frag fs < 8 * Z.of_nat (length (cg_blksfree c))) by (apply map_room; [done|lia]).
  rewrite Z.eqb_refl. unfold blkfree_block. rewrite fragstoblks_eq, Ex, Z.div_mul by lia. rewrite isblock_ok by first [apply (sb_frag Hsb)|apply Gc|lia|done]. bind. fold (bv (cg_blksfree c) h).
  pose proof (bv_range (cg_blksfree c) h) as Hv. destruct (full_facts _ (sb_frag Hsb)) as (_ & F2 & _).
  split.
  - intros Hall. assert (E : bv (cg_blksfree c) h = full (fs_frag fs)); [|by rewrite E, Z.eqb_refl].
    apply bval_eq; [apply (sb_frag Hsb)|lia|lia|]. intros j Hj. rewrite full_bits, (proj2 (Z.ltb_lt _ _)) by first [apply (sb_frag Hsb)|lia]. apply Hfb; [lia|]. apply Hall. lia.
  - intros (b & Hb & Hf) (b' & Hb' & Hnf).
    assert (Hbit : Z.testbit (bv (cg_blksfree c) h) (b - bno) = true) by (rewrite bv_bits by lia; apply Hfb; [lia|]; by replace (bno + (b - bno)) with b by lia).
    assert (Hne : bv (cg_blksfree c) h <> full (fs_frag fs)).
    { intros E. apply Hnf. replace b' with (bno + (b' - bno)) by lia. apply Hfb; [lia|]. rewrite <- bv_bits, E, full_bits by first [apply (sb_frag Hsb)|lia]. apply Z.ltb_lt. lia. }
    rewrite (proj2 (Z.eqb_neq _ _) Hne).
    destruct (setblock_ok (fs_frag fs) (cg_blksfree c) h (sb_frag Hsb) (ok_bytes _ Gc)) as (map' & -> & Hu); [lia|done|]. bind.
    rewrite (acct_ok _ _ _ _ _ Hg0 Gs). bind. destruct (blks_by_ok 1 h c Gc Hh) as (tot & rows & E & _).
    rewrite (blks_by_frame 1 _ c) by done. rewrite E. bind. eexists. split; [reflexivity|]. cbn [cg_blktot cg_blks set_blks].
    set (c' := set_blks _ _ _). intros Hok'.
    assert (Hgrp' : group (bdwrite_cg (dtog bno) c' (fmod_inc (after (nbfree_by 1) (dtog bno) (cg_cs c) st))) (dtog bno) c').
    { destruct Hgrp as (H1 & H2 & H3 & H4). split; [done|]. split; [|by split]. apply list_lookup_insert_eq. by apply lookup_lt_Some in H2. }
    destruct (st_group _ Hok' _ _ Hgrp') as (_ & Gc' & _).
    destruct (upd_block _ _ h true ltac:(lia) Hu) as [Hch Hbv].
    pose proof (changed_sum _ _ h (fun _ v => nfree (fs_frag fs) v) Hch Hh) as Hsum. cbv beta in Hsum. pose proof (ok_nffree _ Gc') as E'. pose proof (ok_nffree _ Gc) as E0.
    cbn in E'. rewrite Hsum, <- E0 in E'. rewrite Hbv, F2 in E'.
    pose proof (nfree_ge (fs_frag fs) (bv (cg_blksfree c) h) (b - bno) 1 (sb_frag Hsb) Hv Hne ltac:(lia) ltac:(lia) ltac:(lia)) as Hge.
    assert (1 <= nfree (fs_frag fs) (bv (cg_blksfree c) h)); [|lia]. apply Hge. intros j Hj. by replace j with (b - bno) by lia.
Qed.

(** ** Checking a file system

    The invariants over a concrete super block and groups, as bool functions. *)
Definition csum_eqb (a b : csum) : bool :=
  (cs_ndir a =? cs_ndir b) && (cs_nbfree a =? cs_nbfree b) && (cs_nifree a =? cs_nifree b) && (cs_nffree a =? cs_nffree b).
Lemma csum_eqb_eq a b : csum_eqb a b = true -> a = b.
Proof. unfold csum_eqb. rewrite !andb_true_iff, !Z.eqb_eq. destruct a, b. cbn. intros [[[-> ->] ->] ->]. done. Qed.

Definition rot_okb : bool :=
  (0 <? fs_cpc fs) &&
  forallb (fun h =>
    forallb (fun e => let h' := e + cycle (cyl h) in (0 <=? h') && (h' <? nblk) && (cyl h' =? cyl h) && (rpos h' =? rpos h)) (rot_heads (cyl h) (rpos h)) &&
    forallb (fun h' => if (cyl h' =? cyl h) && (rpos h' =? rpos h) then existsb (Z.eqb (h' - cycle (cyl h))) (rot_heads (cyl h) (rpos h)) else true) (seqZ 0 nblk))
    (seqZ 0 nblk).
Definition cg_okb (c : cgrp) : bool :=
  let m := cg_blksfree c in
  (Z.of_nat (length m) =? howmany (fs_fpg fs) NBBY) && forallb (fun b => (0 <=? b) && (b <? 256)) m &&
  forallb (fun i => negb (bit m i)) (seqZ (fs_fpg fs) (8 * Z.of_nat (length m) - fs_fpg fs)) &&
  (cs_nbfree (cg_cs c) =? bsum (fun h => is_full (bv m h))) &&
  (cs_nffree (cg_cs c) =? bsum (fun h => nfree (fs_frag fs) (bv m h))) &&
  (Z.of_nat (length (cg_frsum c)) =? 8) &&
  forallb (fun s => at_ (cg_frsum c) s =? bsum (fun h => nruns (fs_frag fs) (bv m h) s)) (seqZ 1 (fs_frag fs - 1)) &&
  forallb (fun h => cyl h <? Z.of_nat (length (cg_blktot c))) (seqZ 0 nblk) &&
  forallb (fun k => at_ (cg_blktot c) k =? bsum (fun h => if cyl h =? k then is_full (bv m h) else 0)) (seqZ 0 (Z.of_nat (length (cg_blktot c)))) &&
  (Z.of_nat (length (cg_blks c)) =? Z.of_nat (length (cg_blktot c))) &&
  forallb (fun k => match cg_blks c !! Z.to_nat k with
    | Some row => (Z.of_nat (length row) =? fs_nrpos fs) &&
        forallb (fun r => at_ row r =? bsum (fun h => if (cyl h =? k) && (rpos h =? r) then is_full (bv m h) else 0)) (seqZ 0 (fs_nrpos fs))
    | None => true end) (seqZ 0 (Z.of_nat (length (cg_blks c)))) &&
  (0 <=? cg_rotor c) && (cg_rotor c <? fs_fpg fs) && (0 <=? cg_frotor c) && (cg_frotor c <? fs_fpg fs).
Definition group_okb (st : mount) (g : Z) : bool :=
  match cgs st !! Z.to_nat g, fs_csp st !! Z.to_nat g with
  | Some c, Some s =>
      (0 <=? cs_nbfree s) && (0 <=? cs_nffree s) &&
      (if cg_chkmagic c && negb (unreadable g)
       then (cg_cgx c =? g) && csum_eqb s (cg_cs c) && cg_okb c &&
            forallb (fun j => if bit (cg_blksfree c) j then (fs_frag fs <=? g * fs_fpg fs + j) && (g * fs_fpg fs + j <? fs_size fs) else true) (seqZ 0 (fs_fpg fs))
       else true)
  | _, _ => false
  end.
Definition st_okb (st : mount) : bool :=
  (Z.of_nat (length (cgs st)) =? fs_ncg fs) && (Z.of_nat (length (fs_csp st)) =? fs_ncg fs) &&
  csum_eqb (fs_cstotal st) (sum_cs (fs_csp st)) && forallb (group_okb st) (seqZ 0 (fs_ncg fs)).

Lemma forall_seqZ (P : Z -> bool) a n : forallb P (seqZ a n) = true -> forall x, a <= x < a + n -> P x = true.
Proof. rewrite forallb_forall. intros H x Hx. apply H, list_elem_of_In, elem_of_seqZ, Hx. Qed.

Lemma rot_okb_ok : rot_okb = true -> rot_ok.
Proof.
  unfold rot_okb. rewrite andb_true_iff, Z.ltb_lt. intros [Hc H]. right. split; [done|]. intros h h' Hh.
  apply (forall_seqZ _ _ _ H) in Hh. cbv beta in Hh. rewrite andb_true_iff in Hh. destruct Hh as [H1 H2]. rewrite forallb_forall in H1. split.
  - intros Hin. apply H1 in Hin. cbv zeta in Hin. replace (h' - cycle (cyl h) + cycle (cyl h)) with h' in Hin by lia.
    rewrite !andb_true_iff, Z.leb_le, Z.ltb_lt, !Z.eqb_eq in Hin. tauto.
  - intros (Hh' & E1 & E2). apply (forall_seqZ _ _ _ H2) in Hh'. cbv beta in Hh'. rewrite E1, E2, !Z.eqb_refl in Hh'. cbn [andb] in Hh'.
    apply existsb_exists in Hh' as (x & Hx & E). apply Z.eqb_eq in E. by rewrite E.
Qed.

Lemma bit_beyond (m : list Z) i : 8 * Z.of_nat (length m) <= i -> bit m i = false.
Proof.
  intros Hi. unfold bit, at_, NBBY. rewrite lookup_ge_None_2; [apply Z.bits_0|].
  assert (Z.of_nat (length m) <= i / 8) by (apply Z.div_le_lower_bound; lia). lia.
Qed.

Lemma cg_okb_ok c : cg_okb c = true -> cg_ok c.
Proof.
  unfold cg_okb. cbv zeta. rewrite !andb_true_iff, !Z.eqb_eq, !Z.leb_le, !Z.ltb_lt.
  intros ((((((((((((((H1 & H2) & H3) & H4) & H5) & H6) & H7) & H8) & H9) & H10) & H11) & H12) & H13) & H14) & H15). split; try done.
  - apply Forall_forall. intros b Hb. rewrite forallb_forall in H2. apply list_elem_of_In, H2 in Hb. lia.
  - intros i Hi. destruct (Z_lt_le_dec i (8 * Z.of_nat (length (cg_blksfree c)))); [|by apply bit_beyond].
    apply negb_true_iff. apply (forall_seqZ _ _ _ H3). lia.
  - split; [lia|]. intros s Hs. apply Z.eqb_eq, (forall_seqZ _ _ _ H7). lia.
  - intros h Hh. apply Z.ltb_lt, (forall_seqZ _ _ _ H8). lia.
  - intros k Hk. apply Z.eqb_eq, (forall_seqZ _ _ _ H9). lia.
  - lia.
  - intros k row E Hk. apply lookup_lt_Some in E as Hlt. assert (Hk' : 0 <= k < 0 + Z.of_nat (length (cg_blks c))) by lia.
    apply (forall_seqZ _ _ _ H11) in Hk'. cbv beta in Hk'. rewrite E, andb_true_iff, Z.eqb_eq in Hk'. destruct Hk' as [L Hr]. split; [done|].
    intros r Hr'. apply Z.eqb_eq, (forall_seqZ _ _ _ Hr). lia.
Qed.

Lemma st_okb_ok st : st_okb st = true -> st_ok st.
Proof.
  unfold st_okb. rewrite !andb_true_iff, !Z.eqb_eq. intros (((L1 & L2) & T) & H). apply csum_eqb_eq in T.
  assert (Hg : forall g, 0 <= g < fs_ncg fs -> group_okb st g = true) by (intros g Hg; apply (forall_seqZ _ _ _ H); lia).
  assert (Hc : forall g c, group st g c -> exists s, fs_csp st !! Z.to_nat g = Some s /\ cg_cgx c = g /\ s = cg_cs c /\ cg_okb c = true /\
    forall j, 0 <= j < fs_fpg fs -> bit (cg_blksfree c) j = true -> fs_frag fs <= g * fs_fpg fs + j < fs_size fs).
  { intros g c (Hg0 & E & Em & Eu). apply lookup_lt_Some in E as Hlt. specialize (Hg g ltac:(lia)). unfold group_okb in Hg. rewrite E in Hg.
    destruct (fs_csp st !! Z.to_nat g) as [s|]; [|done]. rewrite Em, Eu in Hg. cbn [andb negb] in Hg. rewrite !andb_true_iff, Z.eqb_eq in Hg.
    destruct Hg as (_ & (((E1 & E2) & E3) & E4)). exists s. splits; try done; [by apply csum_eqb_eq|]. intros j Hj Hb.
    specialize (forall_seqZ _ _ _ E4 j ltac:(lia)). cbv beta. rewrite Hb, andb_true_iff, Z.leb_le, Z.ltb_lt. done. }
  split; [done| |done| |].
  - intros g c Hgr. destruct (Hc g c Hgr) as (s & E & Ex & -> & Ho & _). splits; try done. by apply cg_okb_ok.
  - apply Forall_lookup. intros i s E. apply lookup_lt_Some in E as Hlt. specialize (Hg (Z.of_nat i) ltac:(lia)). unfold group_okb in Hg. rewrite Nat2Z.id, E in Hg.
    destruct (cgs st !! i); [|done]. rewrite !andb_true_iff, !Z.leb_le in Hg. tauto.
  - intros b (c & Hgr & Hb). destruct (Hc _ c Hgr) as (s & _ & _ & _ & _ & Hj). destruct (group_place b) as [Hx ->]. by apply Hj.
Qed.

(** ** What the allocator promises *)

(** Whether a fragment is free, and a piece in use, by evaluation. *)
Definition freeb (st : mount) (b : Z) : bool :=
  match cgs st !! Z.to_nat (dtog b) with
  | Some c => (0 <=? dtog b) && cg_chkmagic c && negb (unreadable (dtog b)) && bit (cg_blksfree c) (dtogd b)
  | None => false
  end.
Definition in_useb (st : mount) (r n : Z) : bool :=
  (fs_frag fs <=? r) && (r + n <=? fs_size fs) && (r mod fs_frag fs + n <=? fs_frag fs) && forallb (fun b => negb (freeb st b)) (seqZ r n).
Definition usableb (st : mount) (g : Z) : bool :=
  match cgs st !! Z.to_nat g with Some c => (0 <=? g) && cg_chkmagic c && negb (unreadable g) | None => false end.
Lemma usableb_ok st g : usableb st g = true -> usable st g.
Proof.
  unfold usableb. destruct (cgs st !! Z.to_nat g) as [c|] eqn:E; [|done]. rewrite !andb_true_iff, Z.leb_le, negb_true_iff. intros [[? ?] ?]. exists c. by splits.
Qed.
Lemma freeb_ok st b : freeb st b = true <-> free st b.
Proof.
  unfold freeb, free, group. split.
  - destruct (cgs st !! Z.to_nat (dtog b)) as [c|]; [|done]. rewrite !andb_true_iff, Z.leb_le, negb_true_iff. intros [[[? ?] ?] ?]. exists c. by splits.
  - intros (c & (H1 & H2 & H3 & H4) & H5). by rewrite H2, H3, H4, H5, (proj2 (Z.leb_le _ _) H1).
Qed.
Lemma in_useb_ok st r n : in_useb st r n = true -> in_use st r n.
Proof.
  unfold in_useb. rewrite !andb_true_iff, !Z.leb_le. intros [[[H1 H2] H3] H4]. split; [done|]. split; [done|]. split; [done|].
  intros b Hb Hf. apply freeb_ok in Hf. apply (forall_seqZ _ _ _ H4) in Hb. cbv beta in Hb. by rewrite Hf in Hb.
Qed.

(** C3: Whatever sequence of allocations, extensions and releases the files make, the
    allocator serves all of it without a panic or a reference out of bounds; afterwards
    the groups' counts agree with their maps, every piece a file holds is in use,
    no fragment belongs to two files, and none has been lost or invented: the
    fragments that are free or in a file are the same as before. *)
Theorem disk_requests qs d : rot_ok -> disk_ok d -> Forall sane qs ->
  exists d', perform_all qs d = Ret d' /\ disk_ok d' /\ forall b, pool d' b <-> pool d b.
Proof. intros Hrot Hd Hq. exact (perform_all_ok qs d Hrot Hd Hq). Qed.

(** C4: alloc takes exactly [n] fragments of one block, which were free, and charges
    the inode; in the group it turns to first when that has room, and the very block
    asked for when a whole block is wanted and that one is free.  It fails with
    ENOSPC, changing nothing, only for a user held by the reserve or when no group
    has room. *)
Theorem alloc_spec uid ip bpref size n st : rot_ok -> st_ok st -> frag_size size n -> 0 <= bpref -> 0 <= itog (i_number ip) < fs_ncg fs ->
  exists e bno ip' st', alloc uid ip bpref size st = Ret (e, bno, ip', st') /\
    ((e = 0 /\ st_ok st' /\ taken st st' bno n /\ ip' = charged ip size /\
      (has_room st (first_choice ip bpref) n -> dtog bno = first_choice ip bpref /\ (bpref < fs_size fs -> on_the_spot st (first_choice ip bpref) bpref n bno))) \/
     (e = ENOSPC /\ bno = 0 /\ ip' = ip /\ st' = st /\ ((uid <> 0 /\ freespace st (fs_minfree fs) <= 0) \/ forall g, ~ has_room st g n))).
Proof. apply alloc_ok. Qed.

(** C5: realloccg turns [o] fragments into [m]: the new place was free or the file's
    own, the old one that is not part of it is free afterwards, and so is what was
    taken beyond the request.  It fails with ENOSPC, moving nothing, only for a user
    held by the reserve, or when the piece cannot grow in place and no group has
    room for what the optimization preference asks: the size wanted, or for time
    a whole block.  When the piece moves its old block is read, here successfully. *)
Theorem realloccg_spec uid ip lbprev bpref osize o nsize m p st : rot_ok -> st_ok st -> frag_size osize o -> frag_size nsize m -> o < m ->
  i_db ip !! Z.to_nat lbprev = Some p -> 0 <= lbprev -> in_use st p o -> usable st (dtog p) -> 0 <= bpref -> fs_optim st = FS_OPTSPACE \/ fs_optim st = FS_OPTTIME ->
  exists e blk ip' st', realloccg uid ip lbprev bpref osize nsize (inr (fsbtodb p)) st = Ret (e, blk, ip', st') /\ st_ok st' /\
    (fs_optim st' = FS_OPTSPACE \/ fs_optim st' = FS_OPTTIME) /\
    ((exists r o', e = 0 /\ blk = fsbtodb r /\ ip' = charged ip (nsize - osize) /\ resized (set_optim o' st) st' p o r m) \/
     (e = ENOSPC /\ blk = 0 /\ ip' = ip /\ (exists o', st' = set_optim o' st) /\
      ((uid <> 0 /\ freespace st (fs_minfree fs) <= 0) \/ (~ extendable st p o m /\ forall g, ~ has_room st g (request_frags st m))))).
Proof. apply realloccg_ok. Qed.

(** C6: blkfree gives back exactly the fragments named when they are in use.  Of
    fragments that are not it panics at the first one, and of a whole block when
    all of it is free; but a whole block of which only a part is free it accepts,
    and the counts of the group are wrong afterwards. *)
Theorem blkfree_spec bno size n st : st_ok st -> frag_size size n -> fs_frag fs <= bno -> bno + n <= fs_size fs -> bno mod fs_frag fs + n <= fs_frag fs -> usable st (dtog bno) ->
  ((forall b, bno <= b < bno + n -> ~ free st b) -> exists st', blkfree bno size st = Ret st' /\ st_ok st' /\ given st st' bno n) /\
  ((exists b, bno <= b < bno + n /\ free st b) -> n < fs_frag fs -> blkfree bno size st = Panic "blkfree: freeing free frag") /\
  ((forall b, bno <= b < bno + n -> free st b) -> n = fs_frag fs -> blkfree bno size st = Panic "blkfree: freeing free block") /\
  ((exists b, bno <= b < bno + n /\ free st b) -> (exists b, bno <= b < bno + n /\ ~ free st b) -> n = fs_frag fs ->
   exists st', blkfree bno size st = Ret st' /\ ~ st_ok st').
Proof.
  intros Hok Hsz H1 H2 H3 Hus.
  assert (Hwhole : n = fs_frag fs -> size = fs_bsize fs /\ bno mod fs_frag fs = 0).
  { intros ->. split; [destruct Hsz as [-> _]; symmetry; apply (sb_bsize Hsb)|]. pose proof frag_pos_. pose proof (Z.mod_pos_bound bno (fs_frag fs)). lia. }
  split; [|split; [|split]].
  - intros Hin. destruct (blkfree_ok bno size n st Hok Hsz) as (st' & -> & Hok' & [[_ Hg]|[N _]]); [by split|by exists st'|done].
  - intros Hf Hn. by apply (blkfree_frag_check bno size n).
  - intros Hf ->. destruct (Hwhole eq_refl) as [-> Hm]. by apply (blkfree_block_check bno st Hok H1 H2 Hm Hus).
  - intros Hf Hnf ->. destruct (Hwhole eq_refl) as [-> Hm]. by apply (blkfree_block_check bno st Hok H1 H2 Hm Hus).
Qed.

(** hashalloc asks every cylinder group: it returns 0 only if all of them have
    failed, and otherwise what the first that does not has returned; the quadratic
    rehash and the brute search both end. *)
Theorem hashalloc_spec allocator st (fails : Z -> Prop) (Q : Z -> mount -> Prop) cg pref :
  (forall g pref, 0 <= g < fs_ncg fs -> 0 <= pref -> exists r st', allocator g pref st = Ret (r, st') /\ ((r = 0 /\ st' = st /\ fails g) \/ (r <> 0 /\ Q r st'))) ->
  0 <= cg < fs_ncg fs -> 0 <= pref ->
  exists r st', hashalloc allocator cg pref st = Ret (r, st') /\
    ((r = 0 /\ st' = st /\ forall g, 0 <= g < fs_ncg fs -> fails g) \/ (r <> 0 /\ Q r st')).
Proof. intros Hall. by apply hashalloc_ok. Qed.

(** C8: When a group has a free block alloccgblk takes one and records it in the
    map, the totals and the rotational table.  With no place asked for it is the first
    free block from the rotor on.  Otherwise it is the block asked for, if that is
    free; else, if its cylinder has a free block and the file system has rotational
    tables (fs_cpc is not 0), the block of that cylinder the disk comes to first; and
    if the cylinder has none, the first free block from the one asked for on.  Without
    tables the search goes from the start of the cylinder on, or from the fragment
    rotor when the cylinder is the first of the group, and the block it finds may be
    of another cylinder ([no_table_other_cylinder]). *)
Theorem alloccgblk_spec c bpref st s : rot_ok -> cg_ok c -> free_blocks c -> 0 <= bpref -> 0 <= cg_cgx c -> fs_csp st !! Z.to_nat (cg_cgx c) = Some s ->
  exists h c', alloccgblk c bpref st = Ret (cg_cgx c * fs_fpg fs + h * fs_frag fs, c', after (nbfree_by (-1)) (cg_cgx c) s st) /\
    block_taken c c' h /\ preferred c bpref h.
Proof. apply alloccgblk_ok. Qed.

(** blkpref always finds a place to ask for: the group of the inode for a file's
    first section, for a later one the first group, going round from the one after the
    last allocation, that has at least the average number of free blocks, and
    inside a section the next block, moved on by the rotational delay exactly when
    there are [fs_maxcontig] contiguous blocks before or fewer blocks than that. *)
Theorem blkpref_spec ip lbn indx bap st : st_ok st -> 0 < fs_maxbpg fs -> 0 <= fs_maxcontig fs -> 0 <= indx ->
  (indx = 0 \/ (indx < Z.of_nat (length bap) /\ forall i, 0 <= i < indx -> 0 <= at_ bap i)) ->
  exists pref st', blkpref ip lbn indx bap st = Ret (pref, st') /\
    (begins indx bap -> lbn < NDADDR -> pref = fs_fpg fs * itog (i_number ip) + fs_frag fs /\ st' = st) /\
    (begins indx bap -> NDADDR <= lbn -> exists g, 0 <= g < fs_ncg fs /\ pref = fs_fpg fs * g + fs_frag fs /\ st' = set_cgrotor g st /\
       average st <= group_free st g /\ let s := first_group ip lbn indx bap in forall h, 0 <= h < fs_ncg fs -> behind s h < behind s g -> group_free st h < average st) /\
    (~ begins indx bap -> pref = at_ bap (indx - 1) + fs_frag fs + (if run_full_up indx bap && negb (fs_rotdelay fs =? 0) then delay else 0) /\ st' = st).
Proof. apply blkpref_ok. Qed.
End fs.

(** ** A small file system

    Two groups of two cylinders; a block is four fragments of one sector, and a
    cylinder holds four blocks, at two rotational positions. *)
Definition small : superblock := {|
  fs_size := 64; fs_dsize := 56; fs_ncg := 2; fs_bsize := 2048; fs_frag := 4; fs_minfree := 5; fs_rotdelay := 4; fs_rps := 60;
  fs_fmask := -512; fs_fshift := 9; fs_maxcontig := 1; fs_maxbpg := 4; fs_fragshift := 2; fs_fsbtodb := 1; fs_nspf := 1;
  fs_interleave := 1; fs_trackskew := 0; fs_npsect := 8; fs_nsect := 8; fs_spc := 16; fs_ipg := 16; fs_fpg := 32; fs_cpc := 1; fs_nrpos := 8;
  fs_postbl := [[0; -1; -1; -1; 1; -1; -1; -1]]; fs_rotbl := [2; 2; 0; 0] |}.
Definition online : readings := fun _ => false.
(** Blocks 0 and 8 are taken, and half of block 1. *)
Definition small_g0 : cgrp := {|
  cg_chkmagic := true; cg_cgx := 0; cg_cs := Cs 1 6 10 2; cg_rotor := 0; cg_frotor := 0; cg_irotor := 6; cg_frsum := [0; 0; 1; 0; 0; 0; 0; 0];
  cg_blktot := [2; 4]; cg_blks := [[1; 0; 0; 0; 1; 0; 0; 0]; [2; 0; 0; 0; 2; 0; 0; 0]]; cg_inosused := [63; 0]; cg_blksfree := [192; 255; 255; 255] |}.
Definition small_g1 : cgrp := {|
  cg_chkmagic := true; cg_cgx := 1; cg_cs := Cs 0 7 16 0; cg_rotor := 0; cg_frotor := 0; cg_irotor := 0; cg_frsum := [0; 0; 0; 0; 0; 0; 0; 0];
  cg_blktot := [3; 4]; cg_blks := [[1; 0; 0; 0; 2; 0; 0; 0]; [2; 0; 0; 0; 2; 0; 0; 0]]; cg_inosused := [0; 0]; cg_blksfree := [240; 255; 255; 255] |}.
Definition small_st : mount := Mnt (Cs 1 13 26 2) [Cs 1 6 10 2; Cs 0 7 16 0] 0 FS_OPTTIME 0 [small_g0; small_g1].
Definition small_ip : inode := Inode 3 8 false [4].

Lemma small_sb : sb_ok small.
Proof. split; vm_compute; intuition discriminate. Qed.
Lemma small_rot : rot_ok small.
Proof. apply (rot_okb_ok small small_sb). vm_compute. reflexivity. Qed.
Lemma small_st_ok : st_ok small online small_st.
Proof. apply st_okb_ok; [exact small_sb|]. vm_compute. reflexivity. Qed.
Definition small_files : gmap (Z * Z) (Z * Z) := {[(3, 0) := (4, 2)]}.
Lemma small_disk_ok : disk_ok small online (small_st, small_files).
Proof.
  split; [exact small_st_ok|by right| |].
  - intros k e E. cbn [snd] in E. unfold small_files in E. apply lookup_singleton_Some in E as [_ <-]. split; [cbn; lia|]. split; [apply (in_useb_ok _ _ small_sb)|apply usableb_ok]; vm_compute; reflexivity.
  - intros i j b Hi Hj. cbn [snd] in *. destruct (small_files !! i) eqn:Ei; [|done]. destruct (small_files !! j) eqn:Ej; [|done].
    unfold small_files in Ei, Ej. apply lookup_singleton_Some in Ei as [<- _], Ej as [<- _]. done.
Qed.

Lemma small_frag n : 1 <= n <= 4 -> frag_size small (n * 512) n.
Proof. intros Hn. split; [cbn; lia|exact Hn]. Qed.
Lemma small_taken n : 1 <= n <= 2 -> in_use small online small_st 4 n.
Proof. intros Hn. assert (n = 1 \/ n = 2) as [->| ->] by lia; apply (in_useb_ok _ _ small_sb); vm_compute; reflexivity. Qed.
Lemma small_usable : usable online small_st 0.
Proof. apply usableb_ok. vm_compute. reflexivity. Qed.

(** A file grows twice, another takes a block and gives it back, takes a fragment
    in the other group and grows it. *)
Definition small_requests : list request :=
  [Grow 7 3 0 0 3; Want 7 20 0 0 4; Grow 7 3 0 0 4; Want 7 20 1 40 1; Release 20 0; Grow 7 20 1 0 3; Want 7 4 0 0 4].
Definition slots (o : outcome disk) : list (option (Z * Z)) :=
  match o with Ret d => map (fun k => d.2 !! k) [(3, 0); (20, 0); (20, 1); (4, 0)] | _ => [] end.
Lemma disk_requests_witness : exists d', perform_all small online small_requests (small_st, small_files) = Ret d' /\ disk_ok small online d' /\
  slots (Ret d') = [Some (4, 4); None; Some (40, 3); Some (8, 4)].
Proof.
  destruct (disk_requests small online small_sb small_requests (small_st, small_files) small_rot small_disk_ok) as (d' & E & Hd & _).
  - repeat constructor; vm_compute; discriminate.
  - exists d'. split; [exact E|]. split; [exact Hd|]. rewrite <- E. vm_compute. reflexivity.
Defined.

Lemma alloc_spec_witness : exists e bno ip' st', alloc small online 7 small_ip 40 2048 small_st = Ret (e, bno, ip', st') /\ (e = 0 /\ bno = 40 \/ e = ENOSPC).
Proof.
  destruct (alloc_spec small online small_sb 7 small_ip 40 2048 4 small_st small_rot small_st_ok) as (e & bno & ip' & st' & E & R);
    [apply (small_frag 4); lia|lia|vm_compute; intuition discriminate|].
  exists e, bno, ip', st'. split; [exact E|]. destruct R as [(-> & _ & _ & _ & H)|(-> & _)]; [left|by right]. split; [done|].
  destruct H as [_ Hs].
  - exists small_g1. split; [by repeat split|]. exists 2, 0. split; [by vm_compute|]. split; [done|]. split; [by vm_compute|].
    intros j Hj. assert (j = 0 \/ j = 1 \/ j = 2 \/ j = 3) as [->|[->|[->| ->]]] by lia; vm_compute; reflexivity.
  - apply Hs; [vm_compute; reflexivity|reflexivity|discriminate|reflexivity|]. intros b Hb. apply (freeb_ok _ _ small_sb). change (blknum small 40) with 40 in Hb. cbn in Hb.
    assert (b = 40 \/ b = 41 \/ b = 42 \/ b = 43) as [->|[->|[->| ->]]] by lia; vm_compute; reflexivity.
Defined.

Lemma realloccg_spec_witness : exists e blk ip' st',
  realloccg small online 7 small_ip 0 0 1024 1536 (inr 8) small_st = Ret (e, blk, ip', st') /\ st_ok small online st'.
Proof.
  destruct (realloccg_spec small online small_sb 7 small_ip 0 0 1024 2 1536 3 4 small_st small_rot small_st_ok) as (e & blk & ip' & st' & E & H & _);
    [apply (small_frag 2); lia|apply (small_frag 3); lia|lia|reflexivity|lia|apply small_taken; lia|apply small_usable|lia|by right|].
  exists e, blk, ip', st'. by split.
Defined.

Lemma blkfree_spec_witness :
  (exists st', blkfree small online 4 1024 small_st = Ret st' /\ st_ok small online st') /\
  blkfree small online 6 1024 small_st = Panic "blkfree: freeing free frag".
Proof.
  split.
  - destruct (blkfree_spec small online small_sb 4 1024 2 small_st small_st_ok) as [H _]; [apply (small_frag 2); lia|vm_compute; discriminate..|apply small_usable|].
    destruct H as (st' & E & H' & _); [apply (small_taken 2); lia|by exists st'].
  - destruct (blkfree_spec small online small_sb 6 1024 2 small_st small_st_ok) as (_ & H & _); [apply (small_frag 2); lia|vm_compute; discriminate..|apply small_usable|].
    apply H; [exists 6; split; [lia|]; apply (freeb_ok _ _ small_sb); vm_compute; reflexivity|reflexivity].
Defined.

Lemma hashalloc_spec_witness : exists r st', hashalloc small (fun g pref st => Ret (if g =? 1 then 33 else 0, st)) 0 0 small_st = Ret (r, st') /\ r = 33.
Proof.
  destruct (hashalloc_spec small small_sb (fun g pref st => Ret (if g =? 1 then 33 else 0, st)) small_st (fun g => g <> 1) (fun r _ => r = 33) 0 0) as (r & st' & E & R).
  - intros g pref Hg _. eexists _, _. split; [reflexivity|]. destruct (Z.eqb_spec g 1); [right; by split|by left].
  - by split.
  - done.
  - exists r, st'. split; [exact E|]. destruct R as [(_ & _ & H)|[_ ->]]; [|done]. exfalso. by apply (H 1); [split|].
Defined.

(** Without tables alloccgblk may leave a cylinder that has a free block: block 0 is
    asked for, block 1 of its cylinder is free, and block 4 is taken. *)
Definition no_table : superblock := {|
  fs_size := 64; fs_dsize := 56; fs_ncg := 2; fs_bsize := 2048; fs_frag := 4; fs_minfree := 5; fs_rotdelay := 4; fs_rps := 60;
  fs_fmask := -512; fs_fshift := 9; fs_maxcontig := 1; fs_maxbpg := 4; fs_fragshift := 2; fs_fsbtodb := 1; fs_nspf := 1;
  fs_interleave := 1; fs_trackskew := 0; fs_npsect := 8; fs_nsect := 8; fs_spc := 16; fs_ipg := 16; fs_fpg := 32; fs_cpc := 0; fs_nrpos := 8;
  fs_postbl := []; fs_rotbl := [] |}.
Lemma no_table_other_cylinder : exists c' st', alloccgblk no_table (set_frotor 16 small_g1) 32 small_st = Ret (32 + 4 * 4, c', st') /\
  isblock 4 (cg_blksfree small_g1) 1 = Ret true /\ cyl no_table 1 = cyl no_table 0 /\ cyl no_table 4 <> cyl no_table 0.
Proof. eexists _, _. split; [vm_compute; reflexivity|]. repeat split; by vm_compute. Qed.

Lemma alloccgblk_spec_witness : exists h c', alloccgblk small small_g1 40 small_st =
  Ret (32 + h * 4, c', after (nbfree_by (-1)) 1 (Cs 0 7 16 0) small_st) /\ block_taken small small_g1 c' h.
Proof.
  destruct (alloccgblk_spec small small_sb small_g1 40 small_st (Cs 0 7 16 0) small_rot) as (h & c' & E & H & _).
  - apply (cg_okb_ok _ small_sb). vm_compute. reflexivity.
  - exists 1. split; [by split|vm_compute; reflexivity].
  - lia.
  - done.
  - done.
  - by exists h, c'.
Defined.

Lemma blkpref_spec_witness : exists pref st', blkpref small small_ip 14 4 [4; 8; 12; 16; 0] small_st = Ret (pref, st') /\ pref = 36 /\ fs_cgrotor st' = 1.
Proof.
  destruct (blkpref_spec small online small_sb small_ip 14 4 [4; 8; 12; 16; 0] small_st small_st_ok) as (pref & st' & E & _ & H & _).
  - done.
  - by vm_compute.
  - done.
  - right. split; [done|]. intros i Hi. assert (i = 0 \/ i = 1 \/ i = 2 \/ i = 3) as [->|[->|[->| ->]]] by lia; by vm_compute.
  - destruct H as (g & Hg & -> & -> & Ha & Hb); [by left|by vm_compute|]. exists (fs_fpg small * g + fs_frag small), (set_cgrotor g small_st).
    split; [exact E|]. assert (g = 1) as ->; [|done]. revert E. vm_compute. congruence.
Defined.
End Ffs.
