(* ===== verification/FfsInode.v ===== *)
(** Allocation of inodes in the fast file system, sys/ufs/ufs_alloc.c: ialloc,
    ialloccg, ifree and dirpref, on the groups of [Ffs].

    A set bit of [cg_inosused] is an inode in use.  iget, which finds the inode in
    core, is an argument: it fails with an error, or the inode it returns has a mode
    and a number of blocks. *)
From stdpp Require Import base numbers list strings gmap.
From Stdlib Require Import ZArith Lia.
From S2P Require Import Prelude FfsMap Ffs.

Module FfsInode.
Import FfsMap Ffs.

Definition IFMT : Z := 61440.
Definition IFDIR : Z := 16384.
Definition nifree_by (n : Z) : csum := Cs 0 0 n 0.
Definition ndir_by (n : Z) : csum := Cs n 0 0 0.
Definition set_irotor (n : Z) (c : cgrp) : cgrp :=
  Cg (cg_chkmagic c) (cg_cgx c) (cg_cs c) (cg_rotor c) (cg_frotor c) n (cg_frsum c) (cg_blktot c) (cg_blks c) (cg_inosused c) (cg_blksfree c).
Definition set_inosused (m : list Z) (c : cgrp) : cgrp :=
  Cg (cg_chkmagic c) (cg_cgx c) (cg_cs c) (cg_rotor c) (cg_frotor c) (cg_irotor c) (cg_frsum c) (cg_blktot c) (cg_blks c) m (cg_blksfree c).

Set Default Proof Using "Type*".
Section fs.
Variable fs : superblock.
Variable unreadable : readings.

(** [if ((mode & IFMT) == IFDIR)] the directories of the group are counted. *)
Definition count_dir (n mode cg : Z) (c : cgrp) (st : mount) : outcome (cgrp * mount) :=
  if Z.land mode IFMT =? IFDIR then acct (ndir_by n) cg c st else Ret (c, st).

(** The lowest clear bit of the byte [map], whose bit 0 is inode [ipref]. *)
Fixpoint clear_bit (fuel : nat) (map i ipref : Z) : option Z :=
  match fuel with
  | O => None
  | S fuel => if Z.land map i =? 0 then Some ipref else clear_bit fuel map (Z.shiftl i 1) (ipref + 1)
  end.

(** The search from the rotor on. *)
Definition next_inode (c : cgrp) : outcome (Z * cgrp) :=
  let start := cg_irotor c / NBBY in
  let len := howmany (fs_ipg fs - cg_irotor c) NBBY in
  loc ← skpc 0xff (Z.to_nat len) (cg_inosused c) start;
  '(start, len, loc) ← (if loc =? 0 then
      let len := start + 1 in
      loc ← skpc 0xff (Z.to_nat len) (cg_inosused c) 0;
      if loc =? 0 then Panic "ialloccg: map corrupted" else Ret (0, len, loc)
    else Ret (start, len, loc));
  let i := start + len - loc in
  map ← rd (cg_inosused c) i;
  match clear_bit 8 map 1 (i * NBBY) with
  | Some ipref => Ret (ipref, set_irotor ipref c)
  | None => Panic "ialloccg: block not in map"
  end.

(** "gotit:". *)
Definition ino_gotit (cg ipref mode : Z) (c : cgrp) (st : mount) : outcome (Z * mount) :=
  used ← setbit (cg_inosused c) ipref;
  '(c, st) ← acct (nifree_by (-1)) cg (set_inosused used c) st;
  '(c, st) ← count_dir 1 mode cg c (fmod_inc st);
  Ret (cg * fs_ipg fs + ipref, bdwrite_cg cg c st).

Definition ialloccg (cg ipref mode : Z) (st : mount) : outcome (Z * mount) :=
  s ← rdl (fs_csp st) cg;
  if cs_nifree s =? 0 then Ret (0, st)
  else
    oc ← bread_cg unreadable cg st;
    match oc with
    | None => Ret (0, st)
    | Some c =>
        if cs_nifree (cg_cs c) =? 0 then Ret (0, st)
        else
          let want := ipref mod fs_ipg fs in
          free ← (if negb (ipref =? 0) then isclr (cg_inosused c) want else Ret false);
          if free : bool then ino_gotit cg want mode c st
          else '(ipref, c) ← next_inode c; ino_gotit cg ipref mode c st
    end.

Definition ifree (ino mode : Z) (st : mount) : outcome mount :=
  if u32 ino >=? fs_ipg fs * fs_ncg fs then Panic "ifree: range"
  else
    let cg := itog fs ino in
    oc ← bread_cg unreadable cg st;
    match oc with
    | None => Ret st
    | Some c =>
        let ino := ino mod fs_ipg fs in
        b ← isclr (cg_inosused c) ino;
        if b : bool then Panic "ifree: freeing free inode"
        else
          used ← clrbit (cg_inosused c) ino;
          let c := set_inosused used c in
          let c := if ino <? cg_irotor c then set_irotor ino c else c in
          '(c, st) ← acct (nifree_by 1) cg c st;
          '(c, st) ← count_dir (-1) mode cg c st;
          Ret (bdwrite_cg cg c (fmod_inc st))
    end.

(** An inode in core, as far as ialloc looks at it: [i_mode], [i_blocks], [i_flags]
    and [i_gen]. *)
Record icore := Ino { in_mode : Z; in_blocks : Z; in_flags : Z; in_gen : Z }.

(** [igets] is what iget returns for a number; [nextgen] is nextgennumber and [now]
    the time in seconds. *)
Definition ialloc (igets : Z -> Z + icore) (now ipref mode nextgen : Z) (st : mount) : outcome (Z * option (Z * icore) * Z * mount) :=
  if cs_nifree (fs_cstotal st) =? 0 then Ret (ENOSPC, None, nextgen, st)
  else
    let ipref := if ipref >=? fs_ncg fs * fs_ipg fs then 0 else ipref in
    let cg := itog fs ipref in
    '(ino, st) ← hashalloc fs (fun cg pref => ialloccg cg pref mode) cg ipref st;
    if ino =? 0 then Ret (ENOSPC, None, nextgen, st)
    else
      match igets ino with
      | inl error => st ← ifree ino mode st; Ret (error, None, nextgen, st)
      | inr ip =>
          if negb (in_mode ip =? 0) then Panic "ialloc: dup alloc"
          else
            let next := u32 (nextgen + 1) in
            let next := if next <? u32 now then u32 now else next in
            Ret (0, Some (ino, Ino (in_mode ip) 0 0 next), next, st)
      end.

Fixpoint dirpref_loop (n : nat) (cg minndir mincg avgifree : Z) (st : mount) : outcome Z :=
  match n with
  | O => Ret mincg
  | S n =>
      s ← rdl (fs_csp st) cg;
      if (cs_ndir s <? minndir) && (cs_nifree s >=? avgifree)
      then dirpref_loop n (cg + 1) (cs_ndir s) cg avgifree st
      else dirpref_loop n (cg + 1) minndir mincg avgifree st
  end.
Definition dirpref (st : mount) : outcome Z :=
  let avgifree := Z.quot (cs_nifree (fs_cstotal st)) (fs_ncg fs) in
  mincg ← dirpref_loop (Z.to_nat (fs_ncg fs)) 0 (fs_ipg fs) 0 avgifree st;
  Ret (fs_ipg fs * mincg).

(** ** Well-formed inode maps *)
Context (Hsb : sb_ok fs) (Hipg : fs_ipg fs mod 8 = 0) (Hmax : fs_ipg fs * fs_ncg fs < 2 ^ 31).

Definition nclear (m : list Z) : Z := foldr (fun i n => b2z (negb (bit m i)) + n) 0 (seqZ 0 (fs_ipg fs)).
(** Every inode before the rotor is in use. *)
Record icg_ok (c : cgrp) : Prop := IcgOk {
  ic_len : 8 * Z.of_nat (length (cg_inosused c)) = fs_ipg fs;
  ic_bytes : bytes_ok (cg_inosused c);
  ic_nifree : cs_nifree (cg_cs c) = nclear (cg_inosused c);
  ic_rotor : 0 <= cg_irotor c < fs_ipg fs;
  ic_below : forall i, 0 <= i < cg_irotor c -> bit (cg_inosused c) i = true }.

(** Inode [i] of the file system is free. *)
Definition ino_free (st : mount) (i : Z) : Prop :=
  exists c, group unreadable st (itog fs i) c /\ bit (cg_inosused c) (i mod fs_ipg fs) = false.
(** Inode 0 is never free: its number stands for failure. *)
Record fs_ok (st : mount) : Prop := FsOk {
  fo_st : st_ok fs unreadable st;
  fo_cg : forall g c, group unreadable st g c -> icg_ok c;
  fo_zero : ~ ino_free st 0;
  fo_pos : Forall (fun s => 0 <= cs_nifree s) (fs_csp st) }.

Lemma ipg_pos : 0 < fs_ipg fs.
Proof. apply (sb_ipg _ Hsb). Qed.
Lemma ino_div g x : 0 <= x < fs_ipg fs -> itog fs (g * fs_ipg fs + x) = g /\ (g * fs_ipg fs + x) mod fs_ipg fs = x.
Proof.
  intros H. unfold itog. rewrite Z.div_add_l, (Z.div_small x), Z.add_0_r by lia. split; [done|].
  rewrite Z.add_comm, Z.mod_add by lia. by apply Z.mod_small.
Qed.
Lemma ino_place i : 0 <= i mod fs_ipg fs < fs_ipg fs /\ i = itog fs i * fs_ipg fs + i mod fs_ipg fs.
Proof. pose proof ipg_pos. unfold itog. split; [by apply Z.mod_pos_bound|]. pose proof (Z.div_mod i (fs_ipg fs)). lia. Qed.
Lemma ino_eq g x i : 0 <= x < fs_ipg fs -> i = g * fs_ipg fs + x <-> itog fs i = g /\ i mod fs_ipg fs = x.
Proof. intros Hx. split; [intros ->; by apply ino_div|]. intros [<- <-]. apply ino_place. Qed.

Lemma nclear_change m m' x (b : bool) : 0 <= x < fs_ipg fs -> (forall j, 0 <= j -> bit m' j = if j =? x then b else bit m j) -> bit m x = negb b ->
  nclear m' = nclear m + (if b then -1 else 1).
Proof.
  intros Hx Hb Hold. unfold nclear.
  assert (E : foldr (fun i n => b2z (negb (bit m' i)) + n) 0 (seqZ 0 (fs_ipg fs)) =
              foldr (fun i n => (if i =? x then b2z (negb b) else b2z (negb (bit m i))) + n) 0 (seqZ 0 (fs_ipg fs))).
  { assert (Hl : forall i, i ∈ seqZ 0 (fs_ipg fs) -> 0 <= i) by (intros i Hi; apply elem_of_seqZ in Hi; lia).
    induction (seqZ 0 (fs_ipg fs)) as [|i l IH]; [done|]. cbn. rewrite Hb by (apply Hl, elem_of_cons; by left). f_equal; [by destruct (i =? x)|].
    apply IH. intros j Hj. apply Hl, elem_of_cons. by right. }
  rewrite E, (foldr_change (fun i => b2z (negb (bit m i))) (fun i => if i =? x then b2z (negb b) else b2z (negb (bit m i))) x).
  - destruct (decide _) as [_|N]; [|destruct N; apply elem_of_seqZ; lia]. rewrite Z.eqb_refl, Hold. destruct b; cbn; lia.
  - apply NoDup_seqZ.
  - intros h Hh. by rewrite (proj2 (Z.eqb_neq _ _) Hh).
Qed.
Lemma nclear_pos m : 0 <= nclear m /\ (nclear m <> 0 <-> exists i, 0 <= i < fs_ipg fs /\ bit m i = false).
Proof.
  unfold nclear. assert (H : forall l, (forall i, i ∈ l -> 0 <= i < fs_ipg fs) -> 0 <= foldr (fun i n => b2z (negb (bit m i)) + n) 0 l /\
    (foldr (fun i n => b2z (negb (bit m i)) + n) 0 l <> 0 <-> exists i, i ∈ l /\ bit m i = false)).
  { induction l as [|x l IH]; intros Hl; cbn; [split; [done|]; split; [done|]; intros (i & Hi & _); by apply elem_of_nil in Hi|].
    destruct IH as [I1 I2]; [intros i Hi; apply Hl, elem_of_cons; by right|]. destruct (bit m x) eqn:E; cbn [negb b2z].
    - split; [lia|]. rewrite Z.add_0_l, I2. split; intros (i & Hi & Eb); exists i; (split; [|done]); [apply elem_of_cons; by right|].
      apply elem_of_cons in Hi as [->|]; [congruence|done].
    - split; [lia|]. split; [|lia]. intros _. exists x. split; [apply elem_of_cons; by left|done]. }
  destruct (H (seqZ 0 (fs_ipg fs))) as [H1 H2]; [intros i Hi; apply elem_of_seqZ in Hi; lia|]. split; [done|]. rewrite H2.
  split; intros (i & Hi & E); exists i; (split; [|done]); [apply elem_of_seqZ in Hi; lia|apply elem_of_seqZ; lia].
Qed.

(** ** The search for the next inode *)
Lemma clear_bit_shift map : forall fuel i q, clear_bit fuel map i q = option_map (fun k => q + k) (clear_bit fuel map i 0).
Proof.
  induction fuel as [|fuel IH]; intros i q; cbn [clear_bit]; [done|]. destruct (Z.land map i =? 0); cbn; [by rewrite Z.add_0_r|].
  rewrite (IH _ (q + 1)), (IH _ 1). destruct (clear_bit fuel map (Z.shiftl i 1) 0); cbn; [|done]. f_equal. lia.
Qed.
Definition lowest_check (b : Z) : bool :=
  match clear_bit 8 b 1 0 with
  | Some k => (0 <=? k) && (k <? 8) && negb (Z.testbit b k) && forallb (fun j => if j <? k then Z.testbit b j else true) (seqZ 0 8)
  | None => b =? 255
  end.
Lemma clear_bit_ok b q : 0 <= b < 256 -> b <> 255 -> exists k, clear_bit 8 b 1 q = Some (q + k) /\ 0 <= k < 8 /\ Z.testbit b k = false /\
  forall j, 0 <= j < k -> Z.testbit b j = true.
Proof.
  intros Hb Hne. assert (H : lowest_check b = true) by (apply (below_spec 256); [vm_compute; reflexivity|done]). unfold lowest_check in H.
  rewrite clear_bit_shift. destruct (clear_bit 8 b 1 0) as [k|]; [|apply Z.eqb_eq in H; lia].
  rewrite !andb_true_iff, Z.leb_le, Z.ltb_lt, negb_true_iff in H. destruct H as (((H1 & H2) & H3) & H4). exists k. split; [done|]. split; [done|]. split; [done|].
  intros j Hj. specialize (forall_seqZ _ _ _ H4 j ltac:(lia)). cbv beta. by rewrite (proj2 (Z.ltb_lt j k)) by lia.
Qed.

Lemma next_inode_ok c : icg_ok c -> (exists i, 0 <= i < fs_ipg fs /\ bit (cg_inosused c) i = false) ->
  exists p, next_inode c = Ret (p, set_irotor p c) /\ 0 <= p < fs_ipg fs /\ bit (cg_inosused c) p = false /\ forall j, 0 <= j < p -> bit (cg_inosused c) j = true.
Proof.
  intros H (i0 & Hi0 & Hbit0). destruct H as [L1 L2 _ L4 L5]. unfold next_inode, NBBY.
  set (s := cg_irotor c / 8). set (L := Z.of_nat (length (cg_inosused c))) in *.
  assert (Hs : 0 <= s < L /\ 8 * s <= cg_irotor c < 8 * s + 8) by (unfold s; clear -L1 L4; zdiv).
  assert (El : howmany (fs_ipg fs - cg_irotor c) 8 = L - s) by (unfold howmany; rewrite <- L1; clear -Hs; zdiv). rewrite El.
  destruct (skpc_ok (cg_inosused c) 0xff (Z.to_nat (L - s)) s) as (r & -> & Hr & Hff & Hnff); [lia|lia|]. bind. rewrite Z2Nat.id in * by lia.
  replace (s + (L - s)) with L in * by lia.
  assert (Hlow : forall j, 0 <= j < 8 * (L - r) -> bit (cg_inosused c) j = true).
  { intros j Hj. destruct (Z_lt_le_dec j (cg_irotor c)); [apply L5; lia|]. unfold bit, NBBY.
    rewrite Hff by (clear -Hs Hj l; zdiv). change 255 with (Z.ones 8). apply Z.ones_spec_low. clear; zdiv. }
  destruct (Z.eqb_spec r 0) as [->|Hr0]; [exfalso; rewrite Hlow in Hbit0 by lia; done|]. bind.
  cbv zeta. replace (s + (L - s)) with L in * by lia. rewrite rd_ok by lia. bind. specialize (Hnff Hr0).
  destruct (clear_bit_ok (at_ (cg_inosused c) (L - r)) ((L - r) * 8)) as (k & -> & Hk & Hkb & Hkl); [apply at_byte; done|done|].
  assert (Hb : forall j, 0 <= j < 8 -> bit (cg_inosused c) ((L - r) * 8 + j) = Z.testbit (at_ (cg_inosused c) (L - r)) j).
  { intros j Hj. unfold bit, NBBY. f_equal; [f_equal|]; clear -Hj; zdiv. }
  eexists. split; [reflexivity|]. split; [lia|]. split; [by rewrite Hb|]. intros j Hj.
  destruct (Z_lt_le_dec j (8 * (L - r))); [apply Hlow; lia|]. replace j with ((L - r) * 8 + (j - (L - r) * 8)) by lia. rewrite Hb by lia. apply Hkl. lia.
Qed.

(** ** One inode changes *)
(** The maps of blocks are those of [c]. *)
Lemma cg_ok_same c c' : cg_ok fs c -> cg_blksfree c' = cg_blksfree c -> cg_frsum c' = cg_frsum c -> cg_blktot c' = cg_blktot c -> cg_blks c' = cg_blks c ->
  cg_rotor c' = cg_rotor c -> cg_frotor c' = cg_frotor c -> cs_nbfree (cg_cs c') = cs_nbfree (cg_cs c) -> cs_nffree (cg_cs c') = cs_nffree (cg_cs c) -> cg_ok fs c'.
Proof. intros [] E1 E2 E3 E4 E5 E6 E7 E8. split; rewrite ?E1, ?E2, ?E3, ?E4, ?E5, ?E6, ?E7, ?E8; done. Qed.

(** What an inode operation leaves alone: the fragments, and which groups can be used. *)
Definition same_blocks (st st' : mount) : Prop := (forall b, free fs unreadable st' b <-> free fs unreadable st b) /\ keeps unreadable st st'.

Lemma ino_write st g c used x (b : bool) rotor d st1 : fs_ok st -> group unreadable st g c -> 0 <= x < fs_ipg fs ->
  bit (cg_inosused c) x = negb b -> upd (cg_inosused c) used (fun _ => b) (fun j => j =? x) ->
  0 <= rotor < fs_ipg fs -> (forall i, 0 <= i < rotor -> bit used i = true) ->
  cs_nbfree d = 0 -> cs_nffree d = 0 -> cs_nifree d = (if b then -1 else 1) -> (g * fs_ipg fs + x <> 0 \/ b = true) -> moved d g st st1 ->
  let st' := bdwrite_cg g (set_cs (add_cs d (cg_cs c)) (set_irotor rotor (set_inosused used c))) st1 in
  fs_ok st' /\ (forall i, ino_free st' i <-> if i =? g * fs_ipg fs + x then b = false else ino_free st i) /\ same_blocks st st'.
Proof.
  intros Hok Hg Hx Hold Hu Hr Hbelow D1 D2 D3 Hz Hm st'. destruct (fo_cg _ Hok g c Hg) as [L1 L2 L3 _ _]. destruct (st_group _ _ _ (fo_st _ Hok) g c Hg) as (Gx & Gc & Gs).
  set (c' := set_cs _ _) in st'. pose proof (proj2 (proj2 Hu)) as Hbits. cbv beta in Hbits.
  assert (Hc' : cg_ok fs c') by (apply (cg_ok_same c c' Gc); try done; cbn; lia).
  destruct (st_write fs unreadable Hsb st g c c' d st1 (fo_st _ Hok) Hg Hc' eq_refl eq_refl eq_refl Hm) as (W1 & W2 & W3 & W4); [by left|]. fold st' in W1, W2, W3, W4.
  assert (Hic : icg_ok c').
  { split; cbn; [by rewrite (proj1 Hu)|apply Hu| |done|done]. rewrite L3, D3, (nclear_change (cg_inosused c) used x b) by done. done. }
  assert (Hfree : forall i, ino_free st' i <-> if i =? g * fs_ipg fs + x then b = false else ino_free st i).
  { intros i. unfold ino_free at 1. pose proof (proj1 (ino_place i)) as Hi. destruct (Z.eqb_spec i (g * fs_ipg fs + x)) as [->|Hne].
    - destruct (ino_div g x Hx) as [-> ->]. split.
      + intros (c2 & H1 & H2). apply W2 in H1. rewrite Z.eqb_refl in H1. subst c2. cbn in H2. rewrite Hbits, Z.eqb_refl in H2 by lia. done.
      + intros ->. exists c'. split; [apply W2; by rewrite Z.eqb_refl|]. cbn. by rewrite Hbits, Z.eqb_refl by lia.
    - assert (Hsame : itog fs i = g -> bit used (i mod fs_ipg fs) = bit (cg_inosused c) (i mod fs_ipg fs)).
      { intros E. rewrite Hbits by lia. destruct (Z.eqb_spec (i mod fs_ipg fs) x) as [Ex|]; [|done]. destruct Hne. by apply ino_eq. }
      split.
      + intros (c2 & H1 & H2). apply W2 in H1. destruct (Z.eqb_spec (itog fs i) g) as [E|E]; [|by exists c2]. subst c2. cbn in H2. rewrite (Hsame E) in H2.
        exists c. by rewrite E.
      + intros (c2 & H1 & H2). destruct (Z.eqb_spec (itog fs i) g) as [E|E].
        * exists c'. split; [apply W2; by rewrite E, Z.eqb_refl|]. cbn. rewrite (Hsame E). rewrite E in H1. destruct H1 as (_ & H1 & _), Hg as (_ & Hg & _). congruence.
        * exists c2. split; [apply W2; by rewrite (proj2 (Z.eqb_neq _ _) E)|done]. }
  split; [split|split; [done|split]].
  - exact W1.
  - intros g' c2 H. apply W2 in H. destruct (Z.eqb_spec g' g); [by subst|by apply (fo_cg _ Hok g')].
  - intros H. apply Hfree in H. destruct (Z.eqb_spec 0 (g * fs_ipg fs + x)) as [E|E]; [|by apply (fo_zero _ Hok)]. destruct Hz; [lia|congruence].
  - destruct Hm as ((s & Es & M1) & _). cbn. rewrite M1. apply Forall_insert; [apply Hok|]. rewrite Gs in Es. injection Es as <-.
    pose proof (ic_nifree _ Hic) as En. cbn in En. cbn. rewrite En. apply nclear_pos.
  - intros b0. rewrite W3. destruct (Z.eqb_spec (dtog fs b0) g) as [E|]; [|done]. unfold free. rewrite E. cbn. split.
    + intros Hb. by exists c.
    + intros (c2 & (_ & H1 & _) & H2). destruct Hg as (_ & Hg & _). congruence.
  - split; [done|]. destruct Hm as (_ & _ & _ & Hm). exact Hm.
Qed.

Lemma count_dir_ok n mode g c st s : 0 <= g -> fs_csp st !! Z.to_nat g = Some s ->
  exists d st', count_dir n mode g c st = Ret (set_cs (add_cs d (cg_cs c)) c, st') /\ moved d g st st' /\ d = ndir_by (if Z.land mode IFMT =? IFDIR then n else 0).
Proof.
  intros Hg Es. unfold count_dir. destruct (Z.land mode IFMT =? IFDIR).
  - rewrite (acct_ok _ _ _ _ _ Hg Es). eexists _, _. split; [reflexivity|]. split; [|done]. split; [by exists s|done].
  - exists (ndir_by 0), st. split; [f_equal; f_equal; destruct c as [? ? [] ? ? ? ? ? ? ? ?]; cbn; unfold set_cs, add_cs; cbn; by rewrite !Z.add_0_r|]. split; [|done].
    assert (Hz : forall t, add_cs (ndir_by 0) t = t) by (intros []; unfold add_cs; cbn; by rewrite !Z.add_0_r).
    split; [exists s; split; [done|]; by rewrite Hz, list_insert_id|]. by rewrite Hz.
Qed.

(** Inode [r] is taken for a file of mode [mode]. *)
Definition ino_taken (st st' : mount) (r mode : Z) : Prop :=
  ino_free st r /\ (forall i, ino_free st' i <-> ino_free st i /\ i <> r) /\ same_blocks st st' /\
  fs_cstotal st' = add_cs (Cs (if Z.land mode IFMT =? IFDIR then 1 else 0) 0 (-1) 0) (fs_cstotal st).

Lemma ino_gotit_ok st g c x rotor mode : fs_ok st -> group unreadable st g c -> 0 <= x < fs_ipg fs -> bit (cg_inosused c) x = false ->
  0 <= rotor < fs_ipg fs -> (forall i, 0 <= i < rotor -> bit (cg_inosused c) i = true) ->
  exists st', ino_gotit g x mode (set_irotor rotor c) st = Ret (g * fs_ipg fs + x, st') /\ fs_ok st' /\ ino_taken st st' (g * fs_ipg fs + x) mode.
Proof.
  intros Hok Hg Hx Hb Hr Hbelow. destruct (st_group _ _ _ (fo_st _ Hok) g c Hg) as (Gx & Gc & Gs). destruct (fo_cg _ Hok g c Hg) as [L1 L2 _ _ _].
  assert (Hg0 : 0 <= g) by (by destruct Hg). unfold ino_gotit. destruct (setbit_ok (cg_inosused c) x L2) as (used & E & Hu); [lia|].
  cbn [cg_inosused set_irotor]. rewrite E. bind. rewrite (acct_ok _ _ _ _ _ Hg0 Gs). bind. set (c1 := set_cs _ _). set (st1 := Mnt _ _ _ _ _ _).
  assert (Es1 : fs_csp (fmod_inc st1) !! Z.to_nat g = Some (add_cs (nifree_by (-1)) (cg_cs c))) by (apply list_lookup_insert_eq; by apply lookup_lt_Some in Gs).
  destruct (count_dir_ok 1 mode g c1 (fmod_inc st1) _ Hg0 Es1) as (d & st2 & -> & Hm2 & Ed). bind. eexists. split; [reflexivity|].
  assert (Hfree : ino_free st (g * fs_ipg fs + x)) by (exists c; by destruct (ino_div g x Hx) as [-> ->]).
  assert (Hm : moved (add_cs d (nifree_by (-1))) g st st2).
  { apply (moved_trans (nifree_by (-1)) d g st (fmod_inc st1)); [|done]. split; [by exists (cg_cs c)|done]. }
  destruct (ino_write st g c used x true rotor (add_cs d (nifree_by (-1))) st2 Hok Hg Hx Hb Hu Hr) as (W1 & W2 & W3); try done.
  - intros i Hi. rewrite (proj2 (proj2 Hu)) by lia. destruct (i =? x); [done|by apply Hbelow].
  - by rewrite Ed.
  - by rewrite Ed.
  - by rewrite Ed.
  - by right.
  - assert (Ec : set_cs (add_cs d (cg_cs c1)) c1 = set_cs (add_cs (add_cs d (nifree_by (-1))) (cg_cs c)) (set_irotor rotor (set_inosused used c))).
    { unfold c1. cbn. unfold set_cs. cbn. by rewrite add_cs_assoc. }
    rewrite Ec. split; [done|]. split; [done|]. split; [|split; [done|]].
    + intros i. rewrite W2. destruct (Z.eqb_spec i (g * fs_ipg fs + x)) as [->|]; split; [done|intros [_ ?]; done|done|by intros [? _]].
    + destruct Hm as (_ & Hm & _). cbn [fs_cstotal bdwrite_cg set_cgs]. rewrite Hm, Ed. done.
Qed.

(** ** ialloccg *)
(** The inode asked for if that is free, else the first of the group that is. *)
Definition ino_chosen (st : mount) (g ipref r : Z) : Prop :=
  let want := g * fs_ipg fs + ipref mod fs_ipg fs in
  (ipref <> 0 -> ino_free st want -> r = want) /\
  (ipref = 0 \/ ~ ino_free st want -> forall i, itog fs i = g -> ino_free st i -> r <= i).

Lemma ialloccg_ok g ipref mode st : fs_ok st -> 0 <= g < fs_ncg fs ->
  exists r st', ialloccg g ipref mode st = Ret (r, st') /\
    ((r = 0 /\ st' = st /\ forall i, itog fs i = g -> ~ ino_free st i) \/
     (r <> 0 /\ fs_ok st' /\ itog fs r = g /\ ino_taken st st' r mode /\ ino_chosen st g ipref r)).
Proof.
  intros Hok Hg. unfold ialloccg. destruct (st_lens _ _ _ (fo_st _ Hok)) as [Ln1 Ln2]. destruct (rdl_some (fs_csp st) g) as (s & Es & ->); [lia|]. bind.
  assert (Hfail : (forall i, itog fs i = g -> ~ ino_free st i) -> exists r st', Ret (0, st) = Ret (r, st') /\
    ((r = 0 /\ st' = st /\ forall i, itog fs i = g -> ~ ino_free st i) \/
     (r <> 0 /\ fs_ok st' /\ itog fs r = g /\ ino_taken st st' r mode /\ ino_chosen st g ipref r))) by (intros H; exists 0, st; split; [done|by left]).
  assert (Hnone : cs_nifree s = 0 -> forall i, itog fs i = g -> ~ ino_free st i).
  { intros E i Hi (c & Hc & Hb). rewrite Hi in Hc. destruct (st_group _ _ _ (fo_st _ Hok) g c Hc) as (_ & _ & Gs). assert (s = cg_cs c) as -> by congruence.
    rewrite (ic_nifree _ (fo_cg _ Hok g c Hc)) in E. apply (proj2 (nclear_pos (cg_inosused c))); [|done]. exists (i mod fs_ipg fs). split; [apply ino_place|done]. }
  destruct (Z.eqb_spec (cs_nifree s) 0) as [E0|E0]; [by apply Hfail, Hnone|].
  unfold bread_cg. destruct (unreadable g) eqn:Eu; [bind; apply Hfail; intros i Hi (c & (_ & _ & _ & Hc) & _); rewrite Hi in Hc; congruence|].
  destruct (rdl_some (cgs st) g) as (c & Ec & ->); [lia|]. bind.
  destruct (cg_chkmagic c) eqn:Em; [|apply Hfail; intros i Hi (c2 & (_ & Hc2 & Hc3 & _) & _); rewrite Hi in Hc2; congruence].
  assert (Hgrp : group unreadable st g c) by by split; [lia|]. destruct (st_group _ _ _ (fo_st _ Hok) g c Hgrp) as (Gx & Gc & Gs). assert (s = cg_cs c) as -> by congruence.
  rewrite (proj2 (Z.eqb_neq _ _) E0). pose proof (fo_cg _ Hok g c Hgrp) as Hic. destruct Hic as [L1 L2 L3 L4 L5]. pose proof ipg_pos.
  set (want := ipref mod fs_ipg fs). assert (Hw : 0 <= want < fs_ipg fs) by (apply Z.mod_pos_bound; lia).
  assert (Hfb : forall x, 0 <= x < fs_ipg fs -> ino_free st (g * fs_ipg fs + x) <-> bit (cg_inosused c) x = false).
  { intros x Hx. unfold ino_free. destruct (ino_div g x Hx) as [-> ->]. split; [|by exists c]. intros (c2 & (_ & H1 & _) & H2). congruence. }
  assert (Hr0 : forall st' r, ino_taken st st' r mode -> r <> 0) by (intros st' r [Hf _] ->; by apply (fo_zero _ Hok)).
  assert (E1 : (if negb (ipref =? 0) then isclr (cg_inosused c) want else Ret false) = Ret (negb (ipref =? 0) && negb (bit (cg_inosused c) want))).
  { destruct (ipref =? 0); [done|]. cbn [negb andb]. apply isclr_ok; [done|lia]. }
  rewrite E1. bind. destruct (negb (ipref =? 0) && negb (bit (cg_inosused c) want)) eqn:Ew.
  - rewrite andb_true_iff, !negb_true_iff, Z.eqb_neq in Ew. destruct Ew as [Ew1 Ew2].
    destruct (ino_gotit_ok st g c want (cg_irotor c) mode Hok Hgrp Hw Ew2 L4 L5) as (st' & E & Hok' & Ht).
    assert (Eid : set_irotor (cg_irotor c) c = c) by by destruct c. rewrite Eid in E. rewrite E.
    exists (g * fs_ipg fs + want), st'. split; [done|]. right. split; [by apply (Hr0 st')|]. split; [done|]. split; [by apply ino_div|]. split; [done|].
    split; [done|]. intros [?|Hn]; [done|]. destruct Hn. by apply Hfb.
  - destruct (next_inode_ok c) as (p & -> & Hp & Hpb & Hpl); [done|rewrite L3 in E0; by apply nclear_pos in E0|]. bind.
    destruct (ino_gotit_ok st g c p p mode Hok Hgrp Hp Hpb Hp Hpl) as (st' & E & Hok' & Ht). rewrite E.
    exists (g * fs_ipg fs + p), st'. split; [done|]. right. split; [by apply (Hr0 st')|]. split; [done|]. split; [by apply ino_div|]. split; [done|]. split.
    + intros Hne Hf. apply Hfb in Hf; [|done]. fold want in Hf. rewrite Hf, (proj2 (Z.eqb_neq _ _) Hne) in Ew. done.
    + intros _ i Hi Hf. destruct (ino_place i) as [Hi1 Hi2]. rewrite Hi2, Hi in Hf. apply Hfb in Hf; [|done]. rewrite Hi in Hi2.
      destruct (Z_lt_le_dec (i mod fs_ipg fs) p) as [Hlt|]; [|lia]. rewrite Hpl in Hf by lia. done.
Qed.

(** ** ifree *)
Definition ino_given (st st' : mount) (i mode : Z) : Prop :=
  (forall j, ino_free st' j <-> ino_free st j \/ j = i) /\ same_blocks st st' /\
  fs_cstotal st' = add_cs (Cs (if Z.land mode IFMT =? IFDIR then -1 else 0) 0 1 0) (fs_cstotal st).

(** The rotor never passes a free inode. *)
Lemma rotor_back c x used : icg_ok c -> 0 <= x < fs_ipg fs -> upd (cg_inosused c) used (fun _ => false) (fun j => j =? x) ->
  let r := if x <? cg_irotor c then x else cg_irotor c in 0 <= r < fs_ipg fs /\ forall i, 0 <= i < r -> bit used i = true.
Proof.
  intros [_ _ _ L4 L5] Hx (_ & _ & Hu) r. unfold r. destruct (Z.ltb_spec x (cg_irotor c)); (split; [lia|]); intros i Hi; rewrite Hu by lia;
    rewrite (proj2 (Z.eqb_neq i x)) by lia; apply L5; lia.
Qed.

Lemma ifree_ok ino mode st : fs_ok st -> 0 <= ino < fs_ipg fs * fs_ncg fs ->
  (~ usable unreadable st (itog fs ino) /\ ifree ino mode st = Ret st) \/
  (usable unreadable st (itog fs ino) /\
   ((ino_free st ino /\ ifree ino mode st = Panic "ifree: freeing free inode") \/
    (~ ino_free st ino /\ (ino <> 0 -> exists st', ifree ino mode st = Ret st' /\ fs_ok st' /\ ino_given st st' ino mode)))).
Proof.
  intros Hok Hi. unfold ifree. rewrite u32_small by lia. rewrite Z.geb_leb, (proj2 (Z.leb_gt _ _)) by lia. cbv zeta.
  destruct (st_lens _ _ _ (fo_st _ Hok)) as [Ln1 Ln2]. pose proof ipg_pos. destruct (ino_place ino) as [Hx Ei].
  assert (Hg : 0 <= itog fs ino < fs_ncg fs) by (unfold itog; split; [apply Z.div_pos; lia|apply Z.div_lt_upper_bound; lia]).
  set (g := itog fs ino) in *. set (x := ino mod fs_ipg fs) in *. unfold bread_cg.
  destruct (unreadable g) eqn:Eu; [left; split; [intros (c & _ & _ & _ & ?); congruence|done]|].
  destruct (rdl_some (cgs st) g) as (c & Ec & ->); [lia|]. bind.
  destruct (cg_chkmagic c) eqn:Em; [|left; split; [intros (c2 & _ & ? & ? & _); congruence|done]].
  assert (Hgrp : group unreadable st g c) by by split; [lia|]. right. split; [by exists c|].
  destruct (st_group _ _ _ (fo_st _ Hok) g c Hgrp) as (Gx & Gc & Gs). pose proof (fo_cg _ Hok g c Hgrp) as Hic. pose proof Hic as [L1 L2 L3 L4 L5].
  assert (Hfb : ino_free st ino <-> bit (cg_inosused c) x = false).
  { unfold ino_free. fold g x. split; [|by exists c]. intros (c2 & (_ & H1 & _) & H2). congruence. }
  rewrite isclr_ok by (done || lia). bind. destruct (bit (cg_inosused c) x) eqn:Eb; [right|left; split; [by apply Hfb|done]]. split; [intros Hf; by apply Hfb in Hf|]. intros Hne.
  cbn [negb]. destruct (clrbit_ok (cg_inosused c) x L2) as (used & -> & Hu); [lia|]. bind. destruct (rotor_back c x used Hic Hx Hu) as [Hr Hbelow].
  set (r := if x <? cg_irotor c then x else cg_irotor c) in *.
  assert (Er : (if x <? cg_irotor (set_inosused used c) then set_irotor x (set_inosused used c) else set_inosused used c) = set_irotor r (set_inosused used c)).
  { unfold r. cbn. destruct (x <? cg_irotor c); [done|]. by destruct c. }
  rewrite Er. assert (Hg0 : 0 <= g) by lia. rewrite (acct_ok _ _ _ _ _ Hg0 Gs). bind. set (c1 := set_cs _ _). set (st1 := Mnt _ _ _ _ _ _).
  assert (Es1 : fs_csp st1 !! Z.to_nat g = Some (add_cs (nifree_by 1) (cg_cs c))) by (apply list_lookup_insert_eq; by apply lookup_lt_Some in Gs).
  destruct (count_dir_ok (-1) mode g c1 st1 _ Hg0 Es1) as (d & st2 & -> & Hm2 & Ed). bind. eexists. split; [reflexivity|].
  assert (Hm : moved (add_cs d (nifree_by 1)) g st (fmod_inc st2)).
  { apply fmod_inc_moved, (moved_trans (nifree_by 1) d g st st1); [|done]. split; [by exists (cg_cs c)|done]. }
  destruct (ino_write st g c used x false r (add_cs d (nifree_by 1)) (fmod_inc st2) Hok Hgrp Hx) as (W1 & W2 & W3); try done.
  - by rewrite Ed.
  - by rewrite Ed.
  - by rewrite Ed.
  - left. lia.
  - assert (Ecs : set_cs (add_cs d (cg_cs c1)) c1 = set_cs (add_cs (add_cs d (nifree_by 1)) (cg_cs c)) (set_irotor r (set_inosused used c))).
    { unfold c1. cbn. unfold set_cs. cbn. by rewrite add_cs_assoc. }
    rewrite Ecs. split; [done|]. split; [|split; [done|]].
    + intros j. rewrite W2, <- Ei. destruct (Z.eqb_spec j ino) as [->|]; split; [by right|done|by left|by intros [?|?]].
    + destruct Hm as (_ & Hm & _). cbn [fs_cstotal bdwrite_cg set_cgs]. rewrite Hm, Ed. done.
Qed.

(** ** ialloc *)
Lemma sum_nifree l : Forall (fun s => 0 <= cs_nifree s) l -> 0 <= cs_nifree (sum_cs l) /\ forall s, s ∈ l -> cs_nifree s <= cs_nifree (sum_cs l).
Proof.
  induction 1 as [|x l Hx Hl [IH1 IH2]]; cbn; [split; [done|]; intros s Hs; by apply elem_of_nil in Hs|]. fold (sum_cs l). split; [lia|].
  intros s Hs. apply elem_of_cons in Hs as [->|Hs]; [lia|]. specialize (IH2 s Hs). lia.
Qed.
Lemma no_inodes st i : fs_ok st -> cs_nifree (fs_cstotal st) = 0 -> ~ ino_free st i.
Proof.
  intros Hok E (c & Hc & Hb). destruct (st_group _ _ _ (fo_st _ Hok) _ c Hc) as (_ & _ & Gs). destruct (sum_nifree _ (fo_pos _ Hok)) as [_ H].
  specialize (H _ (list_elem_of_lookup_2 _ _ _ Gs)). rewrite <- (st_total _ _ _ (fo_st _ Hok)), E, (ic_nifree _ (fo_cg _ Hok _ c Hc)) in H.
  destruct (nclear_pos (cg_inosused c)) as [H1 H2]. assert (nclear (cg_inosused c) <> 0); [|lia]. apply H2. exists (i mod fs_ipg fs). split; [apply ino_place|done].
Qed.

(** Where the search for an inode begins. *)
Definition ino_start (ipref : Z) : Z := if fs_ncg fs * fs_ipg fs <=? ipref then 0 else ipref.
Lemma hash_ialloccg st mode cg pref : fs_ok st -> 0 <= cg < fs_ncg fs -> 0 <= pref ->
  exists r st', hashalloc fs (fun cg pref => ialloccg cg pref mode) cg pref st = Ret (r, st') /\
    ((r = 0 /\ st' = st /\ forall i, ~ ino_free st i) \/
     (r <> 0 /\ fs_ok st' /\ ino_taken st st' r mode /\ ((exists i, itog fs i = cg /\ ino_free st i) -> itog fs r = cg /\ ino_chosen st cg pref r))).
Proof.
  intros Hok Hcg Hp. destruct (ialloccg_ok cg pref mode st Hok Hcg) as (r0 & st0 & E0 & [(_ & _ & Hno)|(H1 & H2 & H3 & H4 & H5)]).
  2: { exists r0, st0. unfold hashalloc. rewrite E0. bind. rewrite (proj2 (Z.eqb_neq r0 0)) by done. split; [done|]. right. by splits. }
  destruct (hashalloc_ok fs Hsb (fun cg pref => ialloccg cg pref mode) st (fun g => forall i, itog fs i = g -> ~ ino_free st i) (fun r st' => fs_ok st' /\ ino_taken st st' r mode)) with (cg := cg) (pref := pref)
    as (r & st' & E & R); [|done|done|].
  - intros g pf Hg Hpf. destruct (ialloccg_ok g pf mode st Hok Hg) as (r & st' & E & [(-> & -> & Hf)|(H1 & H2 & _ & H3 & _)]); [exists 0, st; split; [done|by left]|].
    exists r, st'. split; [done|]. by right.
  - exists r, st'. split; [done|]. destruct R as [(-> & -> & Hf)|[Hr (R1 & R2)]]; [left|right].
    + split; [done|]. split; [done|]. intros i Hi. pose proof Hi as (c & Hc & _). apply (Hf (itog fs i)) with i; [|done|done]. apply (group_range fs unreadable Hsb st _ c (fo_st _ Hok) Hc).
    + splits; try done. intros (i & Hi & Hfi). by destruct (Hno i Hi).
Qed.

Lemma ino_given_back st st1 st2 r mode : ino_taken st st1 r mode -> ino_given st1 st2 r mode -> (forall i, ino_free st2 i <-> ino_free st i) /\ same_blocks st st2 /\ cs_nifree (fs_cstotal st2) = cs_nifree (fs_cstotal st).
Proof.
  intros (T1 & T2 & (T3 & T4 & T5) & T6) (G1 & (G2 & G3 & G4) & G5). split; [|split].
  - intros i. rewrite G1, T2. destruct (Z.eq_dec i r) as [->|]; tauto.
  - split; [intros b; by rewrite G2|]. split; [intros g; by rewrite G3|congruence].
  - rewrite G5, T6. cbn. lia.
Qed.

Lemma ino_free_range st i : fs_ok st -> ino_free st i -> 0 < i < fs_ipg fs * fs_ncg fs.
Proof.
  intros Hok Hf. pose proof Hf as (c & Hc & _). pose proof (group_range _ _ Hsb _ _ _ (fo_st _ Hok) Hc) as Hg. destruct (ino_place i) as [Hx Hi].
  assert (i <> 0) by (intros ->; by apply (fo_zero _ Hok)). split; [nia|]. rewrite Hi. nia.
Qed.

Lemma ialloc_ok igets now ipref mode nextgen st : fs_ok st -> 0 <= ipref -> (forall i ip, igets i = inr ip -> in_mode ip = 0) ->
  exists e o nextgen' st', ialloc igets now ipref mode nextgen st = Ret (e, o, nextgen', st') /\ fs_ok st' /\
    ((exists r, e = 0 /\ o = Some (r, Ino 0 0 0 nextgen') /\ ino_taken st st' r mode /\ u32 now <= nextgen' /\ (nextgen' = u32 (nextgen + 1) \/ nextgen' = u32 now) /\
        ((exists i, itog fs i = itog fs (ino_start ipref) /\ ino_free st i) -> itog fs r = itog fs (ino_start ipref) /\ ino_chosen st (itog fs (ino_start ipref)) (ino_start ipref) r)) \/
     (exists r, igets r = inl e /\ o = None /\ nextgen' = nextgen /\ (forall i, ino_free st' i <-> ino_free st i) /\ same_blocks st st' /\ cs_nifree (fs_cstotal st') = cs_nifree (fs_cstotal st)) \/
     (e = ENOSPC /\ o = None /\ nextgen' = nextgen /\ st' = st /\ forall i, ~ ino_free st i)).
Proof.
  intros Hok Hp Hget. unfold ialloc. destruct (Z.eqb_spec (cs_nifree (fs_cstotal st)) 0) as [E0|E0].
  { exists ENOSPC, None, nextgen, st. split; [done|]. split; [done|]. right; right. splits; try done. intros i. by apply no_inodes. }
  cbv zeta. rewrite Z.geb_leb. fold (ino_start ipref). pose proof ipg_pos. pose proof (sb_ncg _ Hsb).
  assert (Hs : 0 <= ino_start ipref < fs_ncg fs * fs_ipg fs) by (unfold ino_start; destruct (Z.leb_spec (fs_ncg fs * fs_ipg fs) ipref); nia).
  assert (Hg : 0 <= itog fs (ino_start ipref) < fs_ncg fs) by (unfold itog; split; [apply Z.div_pos; lia|apply Z.div_lt_upper_bound; lia]).
  destruct (hash_ialloccg st mode _ (ino_start ipref) Hok Hg (proj1 Hs)) as (r & st1 & -> & [(-> & -> & Hno)|(Hr & Hok1 & Ht & Hch)]); bind.
  { cbn [Z.eqb]. exists ENOSPC, None, nextgen, st. split; [done|]. split; [done|]. right; right. by splits. }
  rewrite (proj2 (Z.eqb_neq r 0)) by done. destruct (igets r) as [err|ip] eqn:Eg.
  - pose proof Ht as (T1 & T2 & (_ & T3 & _) & _). assert (Hus : usable unreadable st1 (itog fs r)) by (apply T3; destruct T1 as (c & Hc & _); by exists c).
    destruct (ifree_ok r mode st1 Hok1) as [[N _]|[_ [[Hf _]|[_ Hgive]]]]; [pose proof (ino_free_range st r Hok T1); lia|done|apply T2 in Hf; by destruct Hf|].
    destruct (Hgive Hr) as (st2 & -> & Hok2 & Hgv). bind. exists err, None, nextgen, st2. split; [done|]. split; [done|]. right; left. exists r.
    destruct (ino_given_back _ _ _ _ _ Ht Hgv) as (B1 & B2 & B3). by splits.
  - rewrite (Hget r ip Eg). cbn [Z.eqb negb]. eexists 0, _, _, st1. split; [reflexivity|]. split; [done|]. left. exists r.
    destruct (Z.ltb_spec (u32 (nextgen + 1)) (u32 now)); splits; try done; try lia; by (left + right).
Qed.

(** ** dirpref *)
Definition group_dirs (st : mount) (g : Z) : Z := match fs_csp st !! Z.to_nat g with Some s => cs_ndir s | None => 0 end.
Definition group_inodes (st : mount) (g : Z) : Z := match fs_csp st !! Z.to_nat g with Some s => cs_nifree s | None => 0 end.
(** The groups with at least the average number of free inodes. *)
Definition roomy (st : mount) (g : Z) : Prop := 0 <= g < fs_ncg fs /\ Z.quot (cs_nifree (fs_cstotal st)) (fs_ncg fs) <= group_inodes st g.

Lemma dirpref_loop_ok st avg : Z.of_nat (length (fs_csp st)) = fs_ncg fs -> forall n cg minndir mincg, 0 <= cg -> cg + Z.of_nat n <= fs_ncg fs ->
  exists m, dirpref_loop n cg minndir mincg avg st = Ret m /\
    ((m = mincg /\ forall h, cg <= h < cg + Z.of_nat n -> avg <= group_inodes st h -> minndir <= group_dirs st h) \/
     (cg <= m < cg + Z.of_nat n /\ avg <= group_inodes st m /\ group_dirs st m < minndir /\
      forall h, cg <= h < cg + Z.of_nat n -> avg <= group_inodes st h -> group_dirs st m <= group_dirs st h /\ (h < m -> group_dirs st m < group_dirs st h))).
Proof.
  intros Hl. induction n as [|n IH]; intros cg minndir mincg H0 Hn; cbn [dirpref_loop]; [exists mincg; split; [done|]; left; split; [done|]; intros; lia|].
  destruct (rdl_some (fs_csp st) cg) as (s & E & ->); [lia|]. bind. rewrite Z.geb_leb.
  assert (Ed : group_dirs st cg = cs_ndir s) by (unfold group_dirs; by rewrite E). assert (Ei : group_inodes st cg = cs_nifree s) by (unfold group_inodes; by rewrite E).
  destruct ((cs_ndir s <? minndir) && (avg <=? cs_nifree s)) eqn:Eb.
  - rewrite andb_true_iff, Z.ltb_lt, Z.leb_le in Eb. destruct (IH (cg + 1) (cs_ndir s) cg) as (m & -> & [[-> Hm]|(Hm & Ha & Hd & Hall)]); [lia|lia| |]; eexists; (split; [reflexivity|]; right).
    + splits; [lia|lia|lia|lia|]. intros h Hh Hav. destruct (Z.eq_dec h cg) as [->|]; [split; lia|]. specialize (Hm h ltac:(lia) Hav). split; lia.
    + splits; [lia|lia|done|lia|]. intros h Hh Hav. destruct (Z.eq_dec h cg) as [->|]; [split; lia|]. apply Hall; [lia|done].
  - destruct (IH (cg + 1) minndir mincg) as (m & -> & [[-> Hm]|(Hm & Ha & Hd & Hall)]); [lia|lia| |]; eexists; (split; [reflexivity|]).
    + left. split; [done|]. intros h Hh Hav. destruct (Z.eq_dec h cg) as [->|]; [|apply Hm; [lia|done]].
      rewrite andb_false_iff, Z.ltb_ge, Z.leb_gt in Eb. lia.
    + right. splits; [lia|lia|done|done|]. intros h Hh Hav. destruct (Z.eq_dec h cg) as [->|]; [|apply Hall; [lia|done]].
      rewrite andb_false_iff, Z.ltb_ge, Z.leb_gt in Eb. split; lia.
Qed.

(** C11: dirpref names the first inode of a group with at least the average number
    of free inodes that has the fewest directories of all such groups, and is the
    first of those; there always is a group with the average.  When every such group
    has as many directories as inodes it names the first inode of group 0, whatever
    that holds.  (The comment in the source asks for more than the average.) *)
Theorem dirpref_spec st : fs_ok st ->
  (exists g, roomy st g) /\
  exists g, dirpref st = Ret (fs_ipg fs * g) /\
    ((roomy st g /\ forall h, roomy st h -> group_dirs st g <= group_dirs st h /\ (h < g -> group_dirs st g < group_dirs st h)) \/
     (g = 0 /\ forall h, roomy st h -> fs_ipg fs <= group_dirs st h)).
Proof.
  intros Hok. destruct (st_lens _ _ _ (fo_st _ Hok)) as [_ Hl]. pose proof (sb_ncg _ Hsb). split.
  - destruct (sum_nifree _ (fo_pos _ Hok)) as [Hp _]. rewrite <- (st_total _ _ _ (fo_st _ Hok)) in Hp.
    destruct (some_above fs unreadable Hsb cs_nifree st) as (g & s & Hg & E & Ha); [done|intros; cbn; lia|done|apply (fo_st _ Hok)|].
    exists g. split; [done|]. unfold group_inodes. by rewrite E.
  - unfold dirpref. destruct (dirpref_loop_ok st (Z.quot (cs_nifree (fs_cstotal st)) (fs_ncg fs)) Hl (Z.to_nat (fs_ncg fs)) 0 (fs_ipg fs) 0) as (m & -> & R); [lia|lia|]. bind.
    exists m. split; [done|]. rewrite Z2Nat.id in R by lia. destruct R as [[-> Hm]|(Hm & Ha & Hd & Hall)]; [right|left].
    + split; [done|]. intros h [Hh Hav]. apply Hm; [lia|done].
    + split; [by split; [lia|]|]. intros h [Hh Hav]. apply Hall; [lia|done].
Qed.

(** ** Sequences *)
Inductive ino_request : Type :=
  | Create (igets : Z -> Z + icore) (now ipref mode : Z)
  | Remove (ino mode : Z).
(** The mount, nextgennumber and the inodes that have been handed out. *)
Definition inodes : Type := mount * Z * list Z.
Definition ino_perform (q : ino_request) (d : inodes) : outcome inodes :=
  let '(st, gen, l) := d in
  match q with
  | Create igets now ipref mode =>
      '(e, o, gen, st) ← ialloc igets now ipref mode gen st;
      Ret (st, gen, match o with Some (ino, _) => ino :: l | None => l end)
  | Remove ino mode =>
      if decide (ino ∈ l) then st ← ifree ino mode st; Ret (st, gen, filter (fun i => i <> ino) l) else Ret (st, gen, l)
  end.
Fixpoint ino_perform_all (qs : list ino_request) (d : inodes) : outcome inodes :=
  match qs with
  | [] => Ret d
  | q :: qs => d ← ino_perform q d; ino_perform_all qs d
  end.
Definition ino_sane (q : ino_request) : Prop :=
  match q with
  | Create igets _ ipref _ => 0 <= ipref /\ forall i ip, igets i = inr ip -> in_mode ip = 0
  | Remove _ _ => True
  end.
(** The inodes handed out are in use, each has one owner, and the groups agree with
    their counts. *)
Record inodes_ok (d : inodes) : Prop := InodesOk {
  io_fs : fs_ok d.1.1;
  io_once : NoDup d.2;
  io_held : forall i, i ∈ d.2 -> 0 < i < fs_ipg fs * fs_ncg fs /\ usable unreadable d.1.1 (itog fs i) /\ ~ ino_free d.1.1 i }.
Definition ino_pool (d : inodes) (i : Z) : Prop := ino_free d.1.1 i \/ i ∈ d.2.

Lemma ino_perform_ok q d : inodes_ok d -> ino_sane q ->
  exists d', ino_perform q d = Ret d' /\ inodes_ok d' /\ (forall i, ino_pool d' i <-> ino_pool d i) /\
    forall b, free fs unreadable d'.1.1 b <-> free fs unreadable d.1.1 b.
Proof.
  destruct d as [[st gen] l]. intros [Hok Hdup Hheld] Hq. cbn in Hok, Hdup, Hheld. destruct q as [igets now ipref mode|ino mode]; cbn [ino_perform].
  - destruct Hq as [Hp Hget]. destruct (ialloc_ok igets now ipref mode gen st Hok Hp Hget) as (e & o & gen' & st' & -> & Hok' & R). bind.
    eexists. split; [reflexivity|]. destruct R as [(r & -> & -> & (T1 & T2 & (T3 & T4 & _) & _) & _)|[(r & _ & -> & -> & B1 & (B2 & B3 & _) & _)|(-> & -> & -> & -> & _)]].
    + split; [split; cbn; [done| |]|split; [|done]].
      * constructor; [|done]. intros Hr. by apply Hheld in Hr as (_ & _ & Hr).
      * intros i Hi. apply elem_of_cons in Hi as [->|Hi].
        -- split; [by apply (ino_free_range st)|]. split; [apply T4; destruct T1 as (c & Hc & _); by exists c|].
           intros Hf. apply T2 in Hf. by destruct Hf.
        -- destruct (Hheld i Hi) as (H1 & H2 & H3). split; [done|]. split; [by apply T4|]. intros Hf. apply T2 in Hf. by destruct Hf.
      * intros i. unfold ino_pool. cbn. rewrite T2, elem_of_cons. destruct (Z.eq_dec i r) as [->|]; tauto.
    + split; [split; cbn; [done|done|]|split; [|done]].
      * intros i Hi. destruct (Hheld i Hi) as (H1 & H2 & H3). split; [done|]. split; [by apply B3|]. by rewrite B1.
      * intros i. unfold ino_pool. cbn. by rewrite B1.
    + split; [by split|]. done.
  - destruct (decide (ino ∈ l)) as [Hin|]; [|by exists (st, gen, l)]. destruct (Hheld ino Hin) as (H1 & H2 & H3).
    destruct (ifree_ok ino mode st Hok) as [[N _]|[_ [[Hf _]|[_ Hgive]]]]; [lia|done|done|]. destruct (Hgive ltac:(lia)) as (st' & -> & Hok' & (G1 & (G2 & G3 & _) & _)). bind.
    eexists. split; [reflexivity|]. split; [split; cbn; [done|by apply NoDup_filter|]|split; [|done]].
    + intros i Hi. apply list_elem_of_filter in Hi as [Hne Hi]. destruct (Hheld i Hi) as (K1 & K2 & K3). split; [done|]. split; [by apply G3|].
      rewrite G1. tauto.
    + intros i. unfold ino_pool. cbn. rewrite G1, list_elem_of_filter. destruct (Z.eq_dec i ino) as [->|]; tauto.
Qed.

(** C9: However files are created and removed, no inode is handed out twice and none
    is lost: what is free or held by a file stays the same, the counts of the
    groups agree with their maps, no panic is reached, and the fragments of the
    disk are not touched.  As everywhere here, iget yields an inode whose mode is 0
    when it is asked for one that is free ("dup alloc" otherwise). *)
Theorem inode_requests qs : forall d, inodes_ok d -> Forall ino_sane qs ->
  exists d', ino_perform_all qs d = Ret d' /\ inodes_ok d' /\ (forall i, ino_pool d' i <-> ino_pool d i) /\
    forall b, free fs unreadable d'.1.1 b <-> free fs unreadable d.1.1 b.
Proof.
  induction qs as [|q qs IH]; intros d Hd Hq; [by exists d|]. inversion Hq as [|? ? H1 H2]; subst. cbn [ino_perform_all].
  destruct (ino_perform_ok q d Hd H1) as (d1 & -> & Hd1 & E1 & F1). bind. destruct (IH d1 Hd1 H2) as (d2 & -> & Hd2 & E2 & F2).
  exists d2. split; [done|]. split; [done|]. split; [intros i; by rewrite E2|intros b; by rewrite F2].
Qed.

(** C10: ialloc returns an inode that was free, with no flags, no blocks and a
    generation number that is new and not behind the clock: the one asked for when
    that is free, otherwise the first free one of its group (not the next after it,
    as the comment of ialloccg says), and one of another group only when that group
    has none.  When iget fails the inode is free again; ENOSPC is returned exactly
    when no inode of any group is free.  An iget that succeeds yields an inode whose
    mode is 0. *)
Theorem ialloc_spec igets now ipref mode nextgen st : fs_ok st -> 0 <= ipref -> (forall i ip, igets i = inr ip -> in_mode ip = 0) ->
  exists e o nextgen' st', ialloc igets now ipref mode nextgen st = Ret (e, o, nextgen', st') /\ fs_ok st' /\
    ((exists r, e = 0 /\ o = Some (r, Ino 0 0 0 nextgen') /\ ino_taken st st' r mode /\ u32 now <= nextgen' /\ (nextgen' = u32 (nextgen + 1) \/ nextgen' = u32 now) /\
        ((exists i, itog fs i = itog fs (ino_start ipref) /\ ino_free st i) -> itog fs r = itog fs (ino_start ipref) /\ ino_chosen st (itog fs (ino_start ipref)) (ino_start ipref) r)) \/
     (exists r, igets r = inl e /\ o = None /\ nextgen' = nextgen /\ (forall i, ino_free st' i <-> ino_free st i) /\ same_blocks st st' /\ cs_nifree (fs_cstotal st') = cs_nifree (fs_cstotal st)) \/
     (e = ENOSPC /\ o = None /\ nextgen' = nextgen /\ st' = st /\ forall i, ~ ino_free st i)).
Proof. apply ialloc_ok. Qed.

(** ifree gives back exactly the inode named and lowers the rotor to it; it
    panics on an inode that is free or out of range, and does nothing for a group
    that cannot be read. *)
Theorem ifree_spec ino mode st : fs_ok st -> 0 < ino < 2 ^ 31 ->
  (fs_ipg fs * fs_ncg fs <= ino -> ifree ino mode st = Panic "ifree: range") /\
  (ino < fs_ipg fs * fs_ncg fs -> ~ usable unreadable st (itog fs ino) -> ifree ino mode st = Ret st) /\
  (ino_free st ino -> ifree ino mode st = Panic "ifree: freeing free inode") /\
  (ino < fs_ipg fs * fs_ncg fs -> usable unreadable st (itog fs ino) -> ~ ino_free st ino -> exists st', ifree ino mode st = Ret st' /\ fs_ok st' /\ ino_given st st' ino mode).
Proof.
  intros Hok Hi. split; [|split; [|split]].
  - intros H. unfold ifree. rewrite u32_small by lia. by rewrite Z.geb_leb, (proj2 (Z.leb_le _ _)) by lia.
  - intros H N. by destruct (ifree_ok ino mode st Hok) as [[_ E]|[Hus _]]; [lia| |].
  - intros Hf. pose proof (ino_free_range st ino Hok Hf). destruct (ifree_ok ino mode st Hok) as [[N _]|[_ [[_ E]|[N _]]]]; [lia| |done|done].
    destruct N. destruct Hf as (c & Hc & _). by exists c.
  - intros H Hus N. destruct (ifree_ok ino mode st Hok) as [[N' _]|[_ [[N' _]|[_ Hg]]]]; [lia|done|done|]. apply Hg. lia.
Qed.
End fs.

(** ** The small file system of [Ffs] *)
Lemma small_fs_ok : fs_ok small online small_st.
Proof.
  assert (Hg : forall g c, group online small_st g c -> (g = 0 /\ c = small_g0) \/ (g = 1 /\ c = small_g1)).
  { intros g c (Hg & E & _). apply lookup_lt_Some in E as Hlt. cbn in Hlt. assert (g = 0 \/ g = 1) as [-> | ->] by lia; injection E as <-; auto. }
  split; [exact small_st_ok| | |].
  - intros g c H. destruct (Hg g c H) as [[-> ->]|[-> ->]]; split; try (by vm_compute).
    + repeat constructor; done.
    + intros i Hi. cbn in Hi. assert (i = 0 \/ i = 1 \/ i = 2 \/ i = 3 \/ i = 4 \/ i = 5) as [->|[->|[->|[->|[->| ->]]]]] by lia; by vm_compute.
    + repeat constructor; done.
    + intros i Hi. cbn in Hi. lia.
  - intros (c & H & Hb). destruct (Hg _ c H) as [[_ ->]|[E _]]; [by vm_compute in Hb|by vm_compute in E].
  - repeat constructor; vm_compute; discriminate.
Qed.

(** Two files are created, a directory in the other group, the first is removed, a
    create fails in iget, and one more gets the inode that was freed. *)
Definition fresh (i : Z) : Z + icore := inr (Ino 0 0 0 0).
Definition small_creates : list ino_request :=
  [Create fresh 100 3 33188; Create fresh 100 9 33188; Create fresh 100 16 16877; Remove 6 33188; Create (fun _ => inl 5) 100 0 33188; Create fresh 100 9 33188].
Definition held (o : outcome inodes) : list Z := match o with Ret d => d.2 | _ => [] end.
Lemma inode_requests_witness : exists d', ino_perform_all small online small_creates (small_st, 0, []) = Ret d' /\ inodes_ok small online d' /\ held (Ret d') = [6; 16; 9].
Proof.
  destruct (inode_requests small online small_sb eq_refl eq_refl small_creates (small_st, 0, [])) as (d' & E & Hd & _).
  - split; [exact small_fs_ok|constructor|]. intros i Hi. by apply elem_of_nil in Hi.
  - repeat constructor; try done; intros i ip [= <-]; done.
  - exists d'. split; [exact E|]. split; [exact Hd|]. rewrite <- E. vm_compute. reflexivity.
Defined.

Lemma ialloc_spec_witness : exists e o gen st', ialloc small online fresh 100 9 33188 7 small_st = Ret (e, o, gen, st') /\ (o = Some (9, Ino 0 0 0 gen) \/ e <> 0).
Proof.
  destruct (ialloc_spec small online small_sb eq_refl eq_refl fresh 100 9 33188 7 small_st small_fs_ok) as (e & o & gen & st' & E & _ & R); [lia|by intros i ip [= <-]|].
  exists e, o, gen, st'. split; [exact E|]. destruct R as [(r & _ & -> & _ & _ & _ & Hc)|[(r & [=] & _)|(-> & _)]]; [left|by right].
  assert (Hf : ino_free small online small_st 9) by (exists small_g0; by repeat split).
  destruct Hc as [_ [Hc _]]; [exists 9; by split|]. by rewrite (Hc ltac:(done) Hf).
Defined.

Lemma ifree_spec_witness : (exists st', ifree small online 4 33188 small_st = Ret st' /\ fs_ok small online st') /\ ifree small online 40 33188 small_st = Panic "ifree: range".
Proof.
  assert (Hu : usable online small_st 0) by apply small_usable.
  split.
  - destruct (ifree_spec small online small_sb eq_refl eq_refl 4 33188 small_st small_fs_ok) as (_ & _ & _ & H); [by vm_compute|].
    destruct H as (st' & E & Hok & _); [by vm_compute|exact Hu| |by exists st']. intros (c & (_ & E & _) & Hb). injection E as <-. by vm_compute in Hb.
  - destruct (ifree_spec small online small_sb eq_refl eq_refl 40 33188 small_st small_fs_ok) as (H & _); [by vm_compute|]. apply H. by vm_compute.
Defined.

Lemma dirpref_spec_witness : (exists g, roomy small small_st g) /\ dirpref small small_st = Ret 16.
Proof. split; [apply (dirpref_spec small online small_sb eq_refl eq_refl small_st small_fs_ok)|vm_compute; reflexivity]. Defined.
End FfsInode.
