(* ===== verification/NameCache.v ===== *)
(** The name cache, sys/kern/vfs_cache.c and sys/sys/namei.h: cache_lookup,
    cache_enter, cache_purge, cache_purgevfs and nchinit.

    Entries and vnodes are known by numbers; entries are never freed, so the number
    of an entry is the value of [numcache] when it was allocated.  The memory the
    pointers of the code refer to is kept apart by kind:
    - [word]: the words that hold an LRU pointer, by address: [None] is [&nchhead],
      [Some e] is [&e->nc_nxt].  [nc_prev] and [nchtail] are such addresses;
    - [chain]: the two links of a queue element, which union nchash and struct
      namecache share: [inl h] is [&nchashtbl[h]], [inr e] an entry;
    - [nc]: the rest of an entry.
    An access to memory that is not there is [Fault], and so is a null pointer. *)
From stdpp Require Import base numbers list strings gmap.
From Stdlib Require Import ZArith Lia.
From S2P Require Import Prelude.

Module NameCache.

(** ** Data *)
Definition NCHNAMLEN : Z := 31.
Definition ENOENT : Z := 2.

(** [nc_name] is the first [nc_nlen] bytes, which is all that is looked at. *)
Record namecache := Nc {
  nc_dvp : option Z; nc_dvpid : Z; nc_vp : option Z; nc_vpid : Z; nc_name : list Z }.
Record vnode := Vn { v_id : Z; v_mount : Z }.
Record nchstats := Stats { ncs_goodhits : Z; ncs_neghits : Z; ncs_badhits : Z; ncs_falsehits : Z; ncs_miss : Z; ncs_long : Z }.
Record cache := Cache {
  nc : gmap Z namecache;
  word : gmap (option Z) (option Z);
  nc_prev : gmap Z (option Z);
  nchtail : option Z;
  chain : gmap (Z + Z) ((Z + Z) * (Z + Z));
  nchash : Z;
  numcache : Z;
  vnodes : gmap Z vnode;
  nextvnodeid : Z;
  stats : nchstats }.
(** The part of struct nameidata these routines use. *)
Record nameidata := Ndp { ni_dvp : Z; ni_name : list Z; ni_hash : Z; ni_makeentry : bool }.

Definition get {K V} `{Countable K} (m : gmap K V) (k : K) : outcome V := match m !! k with Some v => Ret v | None => Fault end.
Definition put {K V} `{Countable K} (m : gmap K V) (k : K) (v : V) : outcome (gmap K V) :=
  match m !! k with Some _ => Ret (<[k := v]> m) | None => Fault end.

Definition set_lru (w : gmap (option Z) (option Z)) (p : gmap Z (option Z)) (t : option Z) (c : cache) : cache :=
  Cache (nc c) w p t (chain c) (nchash c) (numcache c) (vnodes c) (nextvnodeid c) (stats c).
Definition set_chain (k : gmap (Z + Z) ((Z + Z) * (Z + Z))) (c : cache) : cache :=
  Cache (nc c) (word c) (nc_prev c) (nchtail c) k (nchash c) (numcache c) (vnodes c) (nextvnodeid c) (stats c).
Definition set_nc (n : gmap Z namecache) (c : cache) : cache :=
  Cache n (word c) (nc_prev c) (nchtail c) (chain c) (nchash c) (numcache c) (vnodes c) (nextvnodeid c) (stats c).
Definition set_ids (v : gmap Z vnode) (n : Z) (c : cache) : cache :=
  Cache (nc c) (word c) (nc_prev c) (nchtail c) (chain c) (nchash c) (numcache c) v n (stats c).
Definition set_stats (s : nchstats) (c : cache) : cache :=
  Cache (nc c) (word c) (nc_prev c) (nchtail c) (chain c) (nchash c) (numcache c) (vnodes c) (nextvnodeid c) s.
Definition good (s : nchstats) := Stats (ncs_goodhits s + 1) (ncs_neghits s) (ncs_badhits s) (ncs_falsehits s) (ncs_miss s) (ncs_long s).
Definition neg (s : nchstats) := Stats (ncs_goodhits s) (ncs_neghits s + 1) (ncs_badhits s) (ncs_falsehits s) (ncs_miss s) (ncs_long s).
Definition bad (s : nchstats) := Stats (ncs_goodhits s) (ncs_neghits s) (ncs_badhits s + 1) (ncs_falsehits s) (ncs_miss s) (ncs_long s).
Definition false_ (s : nchstats) := Stats (ncs_goodhits s) (ncs_neghits s) (ncs_badhits s) (ncs_falsehits s + 1) (ncs_miss s) (ncs_long s).
Definition miss (s : nchstats) := Stats (ncs_goodhits s) (ncs_neghits s) (ncs_badhits s) (ncs_falsehits s) (ncs_miss s + 1) (ncs_long s).
Definition long (s : nchstats) := Stats (ncs_goodhits s) (ncs_neghits s) (ncs_badhits s) (ncs_falsehits s) (ncs_miss s) (ncs_long s + 1).
Definition counting (f : nchstats -> nchstats) (c : cache) : cache := set_stats (f (stats c)) c.

(** ** insque and remque (sys/hp300/locore.s; instructions of the VAX) *)
Definition set_forw (q f : Z + Z) (k : gmap (Z + Z) ((Z + Z) * (Z + Z))) : outcome (gmap (Z + Z) ((Z + Z) * (Z + Z))) :=
  x ← get k q; Ret (<[q := (f, x.2)]> k).
Definition set_back (q b : Z + Z) (k : gmap (Z + Z) ((Z + Z) * (Z + Z))) : outcome (gmap (Z + Z) ((Z + Z) * (Z + Z))) :=
  x ← get k q; Ret (<[q := (x.1, b)]> k).
Definition insque (e after : Z + Z) (k : gmap (Z + Z) ((Z + Z) * (Z + Z))) : outcome (gmap (Z + Z) ((Z + Z) * (Z + Z))) :=
  a ← get k after;
  k ← set_forw e a.1 k;
  k ← set_back e after k;
  k ← set_forw after e k;
  x ← get k e;
  set_back x.1 e k.
Definition remque (e : Z + Z) (k : gmap (Z + Z) ((Z + Z) * (Z + Z))) : outcome (gmap (Z + Z) ((Z + Z) * (Z + Z))) :=
  x ← get k e;
  k ← set_back x.1 x.2 k;
  set_forw x.2 x.1 k.
Definition dummy_chain (e : Z) (k : gmap (Z + Z) ((Z + Z) * (Z + Z))) : outcome (gmap (Z + Z) ((Z + Z) * (Z + Z))) :=
  k ← set_forw (inr e) (inr e) k; set_back (inr e) (inr e) k.

(** ** The LRU list *)
(** "remove from LRU chain". *)
Definition lru_remove (e : Z) (c : cache) : outcome cache :=
  p ← get (nc_prev c) e;
  n ← get (word c) (Some e);
  w ← put (word c) p n;
  match n with
  | Some x => pv ← put (nc_prev c) x p; Ret (set_lru w pv (nchtail c) c)
  | None => Ret (set_lru w (nc_prev c) p c)
  end.
(** "link at end of lru chain". *)
Definition lru_append (e : Z) (c : cache) : outcome cache :=
  w ← put (word c) (Some e) None;
  pv ← put (nc_prev c) e (nchtail c);
  w ← put w (nchtail c) (Some e);
  Ret (set_lru w pv (Some e) c).
(** "insert at head of LRU list (first to grab)". *)
Definition lru_push (e : Z) (c : cache) : outcome cache :=
  h ← get (word c) None;
  w ← put (word c) (Some e) h;
  pv ← put (nc_prev c) e None;
  match h with
  | Some x => pv ← put pv x (Some e); w ← put w None (Some e); Ret (set_lru w pv (nchtail c) c)
  | None => Fault
  end.

(** ** cache_lookup *)
Definition is_name (ndp : nameidata) (dvpid : Z) (n : namecache) : bool :=
  bool_decide (nc_dvp n = Some (ni_dvp ndp)) && (nc_dvpid n =? dvpid) && (Z.of_nat (length (nc_name n)) =? Z.of_nat (length (ni_name ndp))) &&
  bool_decide (nc_name n = ni_name ndp).
Fixpoint find_chain (fuel : nat) (ndp : nameidata) (dvpid : Z) (head q : Z + Z) (c : cache) : outcome (option Z) :=
  match fuel with
  | O => Fault
  | S fuel =>
      if decide (q = head) then Ret None
      else
        match q with
        | inl _ => Fault
        | inr e =>
            n ← get (nc c) e;
            if is_name ndp dvpid n then Ret (Some e)
            else x ← get (chain c) q; find_chain fuel ndp dvpid head x.1 c
        end
  end.

(** "move this slot to end of LRU chain, if not already there". *)
Definition to_end (e : Z) (c : cache) : outcome cache :=
  n ← get (word c) (Some e);
  match n with Some _ => c ← lru_remove e c; lru_append e c | None => Ret c end.
(** "the cache entry is invalid, or otherwise don't want cache entry to exist". *)
Definition drop_entry (e : Z) (c : cache) : outcome cache :=
  c ← lru_remove e c;
  k ← remque (inr e) (chain c);
  c ← lru_push e (set_chain k c);
  k ← dummy_chain e (chain c);
  Ret (set_chain k c).

(** The status, [ni_vp] when it is set, and [ni_makeentry]. *)
Definition cache_lookup (doingcache : bool) (ndp : nameidata) (c : cache) : outcome (Z * option Z * bool * cache) :=
  if negb doingcache then Ret (0, None, ni_makeentry ndp, c)
  else if Z.of_nat (length (ni_name ndp)) >? NCHNAMLEN then Ret (0, None, false, counting long c)
  else
    let nhp := inl (Z.land (ni_hash ndp) (nchash c)) in
    d ← get (vnodes c) (ni_dvp ndp);
    x ← get (chain c) nhp;
    o ← find_chain (S (Z.to_nat (numcache c))) ndp (v_id d) nhp x.1 c;
    match o with
    | None => Ret (0, None, ni_makeentry ndp, counting miss c)
    | Some e =>
        n ← get (nc c) e;
        if negb (ni_makeentry ndp) then c ← drop_entry e (counting bad c); Ret (0, None, ni_makeentry ndp, c)
        else
          match nc_vp n with
          | None => c ← to_end e (counting neg c); Ret (ENOENT, None, ni_makeentry ndp, c)
          | Some vp =>
              v ← get (vnodes c) vp;
              if negb (nc_vpid n =? v_id v) then c ← drop_entry e (counting false_ c); Ret (0, None, ni_makeentry ndp, c)
              else c ← to_end e (counting good c); Ret (-1, Some vp, ni_makeentry ndp, c)
          end
    end.

(** ** cache_enter *)
(** [malloc] and [bzero]: a new entry; the values of its links are not used before
    they are set. *)
Definition new_entry (c : cache) : cache :=
  let e := numcache c in
  Cache (<[e := Nc None 0 None 0 []]> (nc c)) (<[Some e := None]> (word c)) (<[e := None]> (nc_prev c)) (nchtail c)
    (<[inr e := (inr e, inr e)]> (chain c)) (nchash c) (e + 1) (vnodes c) (nextvnodeid c) (stats c).
(** The entry to fill, off both lists. *)
Definition free_slot (desiredvnodes : Z) (c : cache) : outcome (option (Z * cache)) :=
  if numcache c <? desiredvnodes then Ret (Some (numcache c, new_entry c))
  else
    h ← get (word c) None;
    match h with
    | Some e => c ← lru_remove e c; k ← remque (inr e) (chain c); Ret (Some (e, set_chain k c))
    | None => Ret None
    end.
(** bcopy of a longer name would leave the entry. *)
Definition fill_slot (e : Z) (ndp : nameidata) (vp : option Z) (c : cache) : outcome cache :=
  vpid ← match vp with Some v => x ← get (vnodes c) v; Ret (v_id x) | None => Ret 0 end;
  d ← get (vnodes c) (ni_dvp ndp);
  if Z.of_nat (length (ni_name ndp)) >? NCHNAMLEN then Fault
  else
    n ← put (nc c) e (Nc (Some (ni_dvp ndp)) (v_id d) vp vpid (ni_name ndp));
    c ← lru_append e (set_nc n c);
    k ← insque (inr e) (inl (Z.land (ni_hash ndp) (nchash c))) (chain c);
    Ret (set_chain k c).
Definition cache_enter (doingcache : bool) (desiredvnodes : Z) (ndp : nameidata) (vp : option Z) (c : cache) : outcome cache :=
  if negb doingcache then Ret c
  else
    o ← free_slot desiredvnodes c;
    match o with Some (e, c) => fill_slot e ndp vp c | None => Ret c end.

(** ** nchinit *)
Fixpoint hash_size (fuel : nat) (nchash n : Z) : outcome Z :=
  match fuel with
  | O => Fault
  | S fuel => if nchash <=? n then hash_size fuel (u32 (Z.shiftl nchash 1)) n else Ret nchash
  end.
(** [sizeof (union nchash)] is 8, [NBPG * CLSIZE] 1024. *)
Definition nchinit (desiredvnodes : Z) (v : gmap Z vnode) (ids : Z) : outcome cache :=
  let nchashsize := (u32 ((desiredvnodes + 1) * 8) / 2 + (1024 - 1)) / 1024 * 1024 in
  h ← hash_size 32 1 (nchashsize / 8);
  let mask := Z.shiftr h 1 - 1 in
  Ret (Cache ∅ {[None := None]} ∅ None (list_to_map (map (fun h => (inl h, (inl h, inl h))) (seqZ 0 (mask + 1)))) mask 0 v ids (Stats 0 0 0 0 0 0)).

(** ** cache_purge *)
(** When the counter has come round, the numbers in the entries of every chain are
    cleared. *)
Fixpoint clear_chain (fuel : nat) (head q : Z + Z) (c : cache) : outcome cache :=
  match fuel with
  | O => Fault
  | S fuel =>
      if decide (q = head) then Ret c
      else
        match q with
        | inl _ => Fault
        | inr e =>
            n ← get (nc c) e;
            x ← get (chain c) q;
            clear_chain fuel head x.1 (set_nc (<[e := Nc (nc_dvp n) 0 (nc_vp n) 0 (nc_name n)]> (nc c)) c)
        end
  end.
Fixpoint clear_chains (n : nat) (c : cache) : outcome cache :=
  match n with
  | O => Ret c
  | S n =>
      let nhp := inl (Z.of_nat n) in
      x ← get (chain c) nhp;
      c ← clear_chain (S (Z.to_nat (numcache c))) nhp x.1 c;
      clear_chains n c
  end.
Definition new_id (vp : Z) (c : cache) : outcome cache :=
  let id := u32 (nextvnodeid c + 1) in
  v ← get (vnodes c) vp;
  Ret (set_ids (<[vp := Vn id (v_mount v)]> (vnodes c)) id c).
Definition cache_purge (vp : Z) (c : cache) : outcome cache :=
  c ← new_id vp c;
  if negb (nextvnodeid c =? 0) then Ret c
  else c ← clear_chains (Z.to_nat (nchash c + 1)) c; new_id vp c.

(** ** cache_purgevfs *)
Fixpoint purge_loop (fuel : nat) (mp : Z) (ncp : option Z) (c : cache) : outcome cache :=
  match ncp with
  | None => Ret c
  | Some e =>
      match fuel with
      | O => Fault
      | S fuel =>
          nxtcp ← get (word c) (Some e);
          n ← get (nc c) e;
          mine ← match nc_dvp n with Some d => v ← get (vnodes c) d; Ret (v_mount v =? mp) | None => Ret false end;
          if negb mine then purge_loop fuel mp nxtcp c
          else
            let c := set_nc (<[e := Nc None (nc_dvpid n) None (nc_vpid n) (nc_name n)]> (nc c)) c in
            k ← remque (inr e) (chain c);
            k ← dummy_chain e k;
            c ← lru_remove e (set_chain k c);
            nxtcp ← get (word c) None;
            c ← lru_push e c;
            purge_loop fuel mp nxtcp c
      end
  end.
Definition cache_purgevfs (mp : Z) (c : cache) : outcome cache :=
  ncp ← get (word c) None;
  let n := numcache c + 1 in
  purge_loop (Z.to_nat (n * n)) mp ncp c.

(** ** Memory *)
Lemma get_ok {K V} `{Countable K} (m : gmap K V) k v : m !! k = Some v -> get m k = Ret v.
Proof. intros E. unfold get. by rewrite E. Qed.
Lemma get_none {K V} `{Countable K} (m : gmap K V) k : m !! k = None -> get m k = Fault.
Proof. intros E. unfold get. by rewrite E. Qed.
Lemma put_ok {K V} `{Countable K} (m : gmap K V) k (v v' : V) : m !! k = Some v' -> put m k v = Ret (<[k := v]> m).
Proof. intros E. unfold put. by rewrite E. Qed.

(** ** The LRU list as a list of entries

    [path w pv p l] follows the words from address [p] through the entries [l], whose
    back pointers agree; [lru_at] says that the words are the list [l] and
    [nchtail] its end. *)
Fixpoint path (w : gmap (option Z) (option Z)) (pv : gmap Z (option Z)) (p : option Z) (l : list Z) : Prop :=
  match l with [] => True | e :: l => w !! p = Some (Some e) /\ pv !! e = Some p /\ path w pv (Some e) l end.
Fixpoint end_ (p : option Z) (l : list Z) : option Z := match l with [] => p | e :: l => end_ (Some e) l end.
(** The addresses [path] reads: all but the last. *)
Fixpoint addrs (p : option Z) (l : list Z) : list (option Z) := match l with [] => [] | e :: l => p :: addrs (Some e) l end.
Definition lru_at (w : gmap (option Z) (option Z)) (pv : gmap Z (option Z)) (t : option Z) (l : list Z) : Prop :=
  path w pv None l /\ w !! end_ None l = Some None /\ t = end_ None l.

Lemma words_app w pv l1 : forall p l2, path w pv p (l1 ++ l2) <-> path w pv p l1 /\ path w pv (end_ p l1) l2.
Proof. induction l1 as [|e l1 IH]; intros p l2; cbn; [tauto|]. rewrite IH. tauto. Qed.
Lemma end_app l1 : forall p l2, end_ p (l1 ++ l2) = end_ (end_ p l1) l2.
Proof. induction l1 as [|e l1 IH]; intros p l2; cbn; [done|apply IH]. Qed.
Lemma addrs_in a l : forall p, a ∈ addrs p l -> a = p \/ exists e, a = Some e /\ e ∈ l.
Proof.
  induction l as [|e l IH]; intros p Ha; cbn in Ha; [by apply elem_of_nil in Ha|]. apply elem_of_cons in Ha as [->|Ha]; [by left|right].
  destruct (IH _ Ha) as [->|(x & -> & Hx)]; [exists e|exists x]; (split; [done|]); apply elem_of_cons; auto.
Qed.
Lemma end_in l : forall p, (l = [] /\ end_ p l = p) \/ exists e, end_ p l = Some e /\ e ∈ l.
Proof.
  induction l as [|e l IH]; intros p; cbn; [by left|right]. destruct (IH (Some e)) as [[-> ->]|(x & -> & Hx)]; [exists e|exists x]; (split; [done|]); apply elem_of_cons; auto.
Qed.
Lemma path_frame w w' pv pv' l : forall p, (forall a, a ∈ addrs p l -> w' !! a = w !! a) -> (forall e, e ∈ l -> pv' !! e = pv !! e) -> path w pv p l -> path w' pv' p l.
Proof.
  induction l as [|e l IH]; intros p Hw Hp; cbn; [done|]. intros (H1 & H2 & H3).
  split; [rewrite Hw; [done|apply elem_of_cons; by left]|]. split; [rewrite Hp; [done|apply elem_of_cons; by left]|].
  apply IH; [intros a Ha; apply Hw, elem_of_cons; by right|intros x Hx; apply Hp, elem_of_cons; by right|done].
Qed.
(** The word where a list ends is not among those its path reads. *)
Lemma end_fresh l : forall p, NoDup l -> (forall e, p = Some e -> e ∉ l) -> end_ p l ∉ addrs p l.
Proof.
  induction l as [|e l IH]; intros p Hd Hp; cbn; [apply not_elem_of_nil|]. apply NoDup_cons in Hd as [Hn Hd]. rewrite not_elem_of_cons. split.
  - destruct (end_in l (Some e)) as [[_ ->]|(x & -> & Hx)]; intros E; symmetry in E; apply (Hp _ E), elem_of_cons; auto.
  - apply IH; [done|]. by intros ? [= ->].
Qed.

Lemma lru_words w pv t l e : lru_at w pv t l -> e ∈ l -> NoDup l -> exists l1 l2, l = l1 ++ e :: l2 /\ pv !! e = Some (end_ None l1) /\ w !! end_ None l1 = Some (Some e) /\
  w !! Some e = Some (head l2).
Proof.
  intros (H1 & H2 & H3) He Hd. apply list_elem_of_split in He as (l1 & l2 & ->). exists l1, l2. split; [done|].
  apply words_app in H1 as [_ (P1 & P2 & P3)]. split; [done|]. split; [done|]. rewrite end_app in H2. destruct l2 as [|x l2]; cbn in *; [done|]. by destruct P3.
Qed.

Lemma lru_remove_ok e l c : lru_at (word c) (nc_prev c) (nchtail c) l -> NoDup l -> e ∈ l ->
  exists l1 l2 w pv t, l = l1 ++ e :: l2 /\ lru_remove e c = Ret (set_lru w pv t c) /\ lru_at w pv t (l1 ++ l2) /\
    (forall a, is_Some (w !! a) <-> is_Some (word c !! a)) /\ (forall x, is_Some (pv !! x) <-> is_Some (nc_prev c !! x)).
Proof.
  intros Hl Hd He. destruct (lru_words _ _ _ _ _ Hl He Hd) as (l1 & l2 & -> & E1 & E2 & E3). exists l1, l2. destruct Hl as (H1 & H2 & H3).
  apply words_app in H1 as [P1 (P2 & P3 & P4)]. rewrite end_app in H2, H3. apply NoDup_app in Hd as (D1 & D2 & D3). apply NoDup_cons in D3 as [D3 D4].
  set (p := end_ None l1) in *. unfold lru_remove. rewrite (get_ok _ _ _ E1). bind. rewrite (get_ok _ _ _ E3). bind. rewrite (put_ok _ _ _ _ E2). bind.
  assert (Hpl1 : p ∉ addrs None l1) by (apply end_fresh; [done|by intros]).
  assert (Hpl2 : forall a, a ∈ addrs (Some e) l2 -> a <> p).
  { intros a Ha ->. destruct (addrs_in _ _ _ Ha) as [E|(x & E & Hx)]; unfold p in E; destruct (end_in l1 None) as [[_ E']|(y & E' & Hy)]; rewrite E' in E; try done; injection E as ->.
    - apply (D2 e Hy), elem_of_cons. by left.
    - apply (D2 x Hy), elem_of_cons. by right. }
  assert (Hw : forall v a, is_Some (<[p := v]> (word c) !! a) <-> is_Some (word c !! a)).
  { intros v a. destruct (decide (a = p)) as [->|]; [rewrite lookup_insert_eq, E2; split; by eexists|by rewrite lookup_insert_ne]. }
  assert (Q1 : forall v pv', (forall x, x ∈ l1 -> pv' !! x = nc_prev c !! x) -> path (<[p := v]> (word c)) pv' None l1).
  { intros v pv' Hpv. apply (path_frame (word c) _ (nc_prev c) _ l1 None); [|done|done]. intros a Ha. rewrite lookup_insert_ne; [done|]. by intros ->. }
  destruct l2 as [|x l2]; cbn [head] in *.
  - eexists _, _, _. split; [done|]. split; [reflexivity|]. split; [|split; [apply Hw|done]]. rewrite app_nil_r. split; [by apply Q1|]. fold p. by rewrite lookup_insert_eq.
  - destruct P4 as (P4 & P5 & P6). rewrite (put_ok _ _ _ _ P5). bind. eexists _, _, _. split; [done|]. split; [reflexivity|].
    apply NoDup_cons in D4 as [D4 D5]. split; [|split; [apply Hw|]].
    + split; [|split].
      * apply words_app. split; [apply Q1; intros y Hy; rewrite lookup_insert_ne; [done|]; intros ->; apply (D2 y Hy), elem_of_cons; right; apply elem_of_cons; by left|].
        cbn. fold p. rewrite !lookup_insert_eq. split; [done|]. split; [done|].
        apply (path_frame (word c) _ (nc_prev c) _ l2 (Some x)); [|intros y Hy; rewrite lookup_insert_ne; [done|by intros ->]|done].
        intros a Ha. rewrite lookup_insert_ne; [done|]. intros Hap. apply (Hpl2 a); [cbn; apply elem_of_cons; by right|done].
      * rewrite end_app. cbn in H2 |- *. rewrite lookup_insert_ne; [done|]. fold p. intros E.
        destruct (end_in l2 (Some x)) as [[_ E']|(y & E' & Hy)]; rewrite E' in E; unfold p in E; destruct (end_in l1 None) as [[_ Ez]|(z & Ez & Hz)]; rewrite Ez in E; try done; injection E as ->;
          (apply (D2 _ Hz), elem_of_cons; right; apply elem_of_cons; auto).
      * rewrite H3, end_app. done.
    + intros y. destruct (decide (y = x)) as [->|]; [rewrite lookup_insert_eq, P5; split; by eexists|by rewrite lookup_insert_ne].
Qed.

Lemma lru_append_ok e l c : lru_at (word c) (nc_prev c) (nchtail c) l -> NoDup l -> e ∉ l -> is_Some (word c !! Some e) -> is_Some (nc_prev c !! e) ->
  exists w pv t, lru_append e c = Ret (set_lru w pv t c) /\ lru_at w pv t (l ++ [e]) /\
    (forall a, is_Some (w !! a) <-> is_Some (word c !! a)) /\ (forall x, is_Some (pv !! x) <-> is_Some (nc_prev c !! x)).
Proof.
  intros (H1 & H2 & H3) Hd He (v1 & E1) (v2 & E2). unfold lru_append. rewrite (put_ok _ _ _ _ E1). bind. rewrite (put_ok _ _ _ _ E2). bind. rewrite H3.
  set (t := end_ None l) in *. assert (Ht : t <> Some e) by (unfold t; destruct (end_in l None) as [[_ ->]|(x & -> & Hx)]; [done|]; by intros [= ->]).
  rewrite (put_ok _ _ _ None) by (by rewrite lookup_insert_ne). bind. eexists _, _, _. split; [reflexivity|]. split; [|split].
  - split; [|split; [|by rewrite end_app]].
    + apply words_app. split.
      * apply (path_frame (word c) _ (nc_prev c) _ l None); [|intros x Hx; rewrite lookup_insert_ne; [done|by intros ->]|done].
        intros a Ha. rewrite !lookup_insert_ne; [done| |].
        -- intros <-. destruct (addrs_in _ _ _ Ha) as [?|(x & [= ->] & Hx)]; done.
        -- intros <-. by apply (end_fresh l None) in Ha; [|done|].
      * cbn. fold t. by rewrite !lookup_insert_eq.
    + rewrite end_app. cbn. rewrite lookup_insert_ne by done. by rewrite lookup_insert_eq.
  - intros a. destruct (decide (a = t)) as [->|]; [rewrite lookup_insert_eq, H2; split; by eexists|]. rewrite lookup_insert_ne by done.
    destruct (decide (a = Some e)) as [->|]; [rewrite lookup_insert_eq, E1; split; by eexists|by rewrite lookup_insert_ne].
  - intros x. destruct (decide (x = e)) as [->|]; [rewrite lookup_insert_eq, E2; split; by eexists|by rewrite lookup_insert_ne].
Qed.

Lemma lru_push_ok e l c : lru_at (word c) (nc_prev c) (nchtail c) l -> NoDup l -> e ∉ l -> is_Some (word c !! Some e) -> is_Some (nc_prev c !! e) ->
  (l = [] /\ lru_push e c = Fault) \/ (l <> [] /\
  exists w pv t, lru_push e c = Ret (set_lru w pv t c) /\ lru_at w pv t (e :: l) /\
    (forall a, is_Some (w !! a) <-> is_Some (word c !! a)) /\ (forall x, is_Some (pv !! x) <-> is_Some (nc_prev c !! x))).
Proof.
  intros (H1 & H2 & H3) Hd He (v1 & E1) (v2 & E2). unfold lru_push. destruct l as [|x l]; [left|right].
  - split; [done|]. cbn in H2. rewrite (get_ok _ _ _ H2). bind. rewrite (put_ok _ _ _ _ E1). bind. by rewrite (put_ok _ _ _ _ E2).
  - split; [done|]. destruct H1 as (P1 & P2 & P3). rewrite (get_ok _ _ _ P1). bind. rewrite (put_ok _ _ _ _ E1). bind. rewrite (put_ok _ _ _ _ E2). bind.
    apply not_elem_of_cons in He as [Hex He]. apply NoDup_cons in Hd as [Hx Hd]. rewrite (put_ok (<[e := None]> (nc_prev c)) x _ None) by (by rewrite lookup_insert_ne). bind.
    rewrite (put_ok _ None _ (Some x)) by (by rewrite lookup_insert_ne). bind. eexists _, _, _. split; [reflexivity|]. split; [|split].
    + split; [|split].
      * cbn. rewrite lookup_insert_eq, (lookup_insert_ne _ x e) by done. rewrite lookup_insert_eq. rewrite (lookup_insert_ne _ None (Some e)) by done. rewrite !lookup_insert_eq.
        split; [done|]. split; [done|]. split; [done|]. split; [done|].
        apply (path_frame (word c) _ (nc_prev c) _ l (Some x)); [| |done].
        -- intros a Ha. destruct (addrs_in _ _ _ Ha) as [->|(y & -> & Hy)]; rewrite !lookup_insert_ne; try done; [by intros [= ->]|intros [= ->]; done].
        -- intros y Hy. rewrite !lookup_insert_ne; [done|by intros ->|by intros ->].
      * cbn in H2 |- *. destruct (end_in l (Some x)) as [[-> E]|(y & E & Hy)]; rewrite E in H2 |- *; rewrite !lookup_insert_ne; try done; [by intros [= ->]|intros [= ->]; done].
      * done.
    + intros a. destruct (decide (a = None)) as [->|]; [rewrite lookup_insert_eq, P1; split; by eexists|]. rewrite lookup_insert_ne by done.
      destruct (decide (a = Some e)) as [->|]; [rewrite lookup_insert_eq, E1; split; by eexists|by rewrite lookup_insert_ne].
    + intros y. destruct (decide (y = x)) as [->|]; [rewrite lookup_insert_eq, P2; split; by eexists|]. rewrite lookup_insert_ne by done.
      destruct (decide (y = e)) as [->|]; [rewrite lookup_insert_eq, E2; split; by eexists|by rewrite lookup_insert_ne].
Qed.

(** ** The hash chains as lists of entries

    [ring k p l z]: forward links lead from [p] through the entries [l] to [z], and
    the back links return.  A chain is a ring from its head to itself, an entry off
    the chains one from itself to itself. *)

Definition forw (k : gmap (Z + Z) ((Z + Z) * (Z + Z))) (q : Z + Z) : option (Z + Z) := fst <$> k !! q.
Definition back (k : gmap (Z + Z) ((Z + Z) * (Z + Z))) (q : Z + Z) : option (Z + Z) := snd <$> k !! q.
Fixpoint ring (k : gmap (Z + Z) ((Z + Z) * (Z + Z))) (p : Z + Z) (l : list Z) (z : Z + Z) : Prop :=
  match l with
  | [] => forw k p = Some z /\ back k z = Some p
  | e :: l => forw k p = Some (inr e) /\ back k (inr e) = Some p /\ ring k (inr e) l z
  end.

Lemma forw_back_some k q f : forw k q = Some f -> exists b, k !! q = Some (f, b) /\ back k q = Some b.
Proof. unfold forw, back. destruct (k !! q) as [[f' b]|]; [|done]. cbn. intros [= ->]. by exists b. Qed.
Lemma back_forw_some k q b : back k q = Some b -> exists f, k !! q = Some (f, b) /\ forw k q = Some f.
Proof. unfold forw, back. destruct (k !! q) as [[f b']|]; [|done]. cbn. intros [= ->]. by exists f. Qed.

Definition links_forw (q f : Z + Z) (k k' : gmap (Z + Z) ((Z + Z) * (Z + Z))) : Prop :=
  (forall a, forw k' a = if decide (a = q) then Some f else forw k a) /\ (forall a, back k' a = back k a) /\ forall a, is_Some (k' !! a) <-> is_Some (k !! a).
Definition links_back (q b : Z + Z) (k k' : gmap (Z + Z) ((Z + Z) * (Z + Z))) : Prop :=
  (forall a, back k' a = if decide (a = q) then Some b else back k a) /\ (forall a, forw k' a = forw k a) /\ forall a, is_Some (k' !! a) <-> is_Some (k !! a).
Lemma set_forw_ok q f k : is_Some (k !! q) -> exists k', set_forw q f k = Ret k' /\ links_forw q f k k'.
Proof.
  intros [[f0 b0] E]. unfold set_forw. rewrite (get_ok _ _ _ E). bind. eexists. split; [reflexivity|].
  split; [|split]; intros a; unfold forw, back; destruct (decide (a = q)) as [->|]; rewrite ?lookup_insert_eq, ?lookup_insert_ne by done; try done; rewrite ?E; try done.
Qed.
Lemma set_back_ok q b k : is_Some (k !! q) -> exists k', set_back q b k = Ret k' /\ links_back q b k k'.
Proof.
  intros [[f0 b0] E]. unfold set_back. rewrite (get_ok _ _ _ E). bind. eexists. split; [reflexivity|].
  split; [|split]; intros a; unfold forw, back; destruct (decide (a = q)) as [->|]; rewrite ?lookup_insert_eq, ?lookup_insert_ne by done; try done; rewrite ?E; try done.
Qed.

Lemma ring_frame k k' l : forall p z, (forall a, a = p \/ (exists e, a = inr e /\ e ∈ l) -> forw k' a = forw k a) ->
  (forall a, a = z \/ (exists e, a = inr e /\ e ∈ l) -> back k' a = back k a) -> ring k p l z -> ring k' p l z.
Proof.
  induction l as [|e l IH]; intros p z Hf Hb; cbn.
  - intros [H1 H2]. split; [rewrite Hf; [done|by left]|rewrite Hb; [done|by left]].
  - intros (H1 & H2 & H3). assert (He : e ∈ e :: l) by (apply elem_of_cons; by left).
    split; [rewrite Hf; [done|by left]|]. split; [rewrite Hb; [done|right; by exists e]|]. apply IH; [| |done].
    + intros a [->|(x & -> & Hx)]; apply Hf; right; [by exists e|exists x]. split; [done|]. apply elem_of_cons; by right.
    + intros a [->|(x & -> & Hx)]; apply Hb; [by left|right; exists x]. split; [done|]. apply elem_of_cons; by right.
Qed.

(** The neighbours of an entry in the middle. *)
Lemma ring_split k l1 : forall p e l2 z, ring k p (l1 ++ e :: l2) z <-> ring k p l1 (inr e) /\ ring k (inr e) l2 z.
Proof. induction l1 as [|x l1 IH]; intros p e l2 z; cbn; [tauto|]. rewrite IH. tauto. Qed.
Fixpoint last_of (p : Z + Z) (l : list Z) : Z + Z := match l with [] => p | e :: l => last_of (inr e) l end.
Definition first_of (l : list Z) (z : Z + Z) : Z + Z := match l with [] => z | e :: _ => inr e end.
Lemma ring_ends k l : forall p z, ring k p l z -> forw k p = Some (first_of l z) /\ back k z = Some (last_of p l).
Proof.
  induction l as [|e l IH]; intros p z; cbn; [done|]. intros (H1 & H2 & H3). split; [done|]. by destruct (IH _ _ H3).
Qed.
Lemma last_of_in l : forall p, (l = [] /\ last_of p l = p) \/ exists e, last_of p l = inr e /\ e ∈ l.
Proof.
  induction l as [|e l IH]; intros p; cbn; [by left|right]. destruct (IH (inr e)) as [[-> ->]|(x & -> & Hx)]; [exists e|exists x]; (split; [done|]); apply elem_of_cons; auto.
Qed.

(** Joining the two sides of a removed entry. *)
Lemma ring_join k k' e l1 : forall p l2 z, ring k p l1 (inr e) -> ring k (inr e) l2 z -> NoDup (l1 ++ l2) -> (forall x, p = inr x -> x ∉ l1 ++ l2) -> (forall x, z = inr x -> x ∉ l1 ++ l2) ->
  p <> inr e -> z <> inr e -> e ∉ l1 ++ l2 ->
  (forall a, a <> inr e -> forw k' a = if decide (a = last_of p l1) then Some (first_of l2 z) else forw k a) ->
  (forall a, a <> inr e -> back k' a = if decide (a = first_of l2 z) then Some (last_of p l1) else back k a) -> ring k' p (l1 ++ l2) z.
Proof.
  induction l1 as [|y l1 IH]; intros p l2 z Hr1 Hr2 Hd Hp Hz Hpe Hze He Hf Hb; cbn [app last_of] in *.
  - destruct Hr1 as [F1 B1]. destruct l2 as [|x l2]; cbn [first_of ring] in *.
    + split; [rewrite Hf, decide_True by done|rewrite Hb, decide_True by done]; done.
    + destruct Hr2 as (F2 & B2 & Hr2). apply NoDup_cons in Hd as [Hx Hd]. apply not_elem_of_cons in He as [Hxe He].
      assert (Hpx : forall y, p = inr y -> y <> x /\ y ∉ l2) by (intros y ->; specialize (Hp y eq_refl); by apply not_elem_of_cons in Hp).
      split; [by rewrite Hf, decide_True|]. split; [rewrite Hb, decide_True by (done || by intros [= ->]); done|]. apply (ring_frame k); [| |done].
      * intros a [->|(u & -> & Hu)]; rewrite Hf by (intros [= ->]; done); rewrite decide_False; try done; intros E; symmetry in E; destruct (Hpx _ E); done.
      * intros a [->|(u & -> & Hu)]; [rewrite Hb by done|rewrite Hb by (intros [= ->]; done)]; rewrite decide_False; try done.
        -- intros ->. by apply (Hz x eq_refl), elem_of_cons; left.
        -- by intros [= ->].
  - destruct Hr1 as (F1 & B1 & Hr1). apply NoDup_cons in Hd as [Hy Hd]. apply not_elem_of_cons in He as [Hye He].
    assert (Hpy : forall u, p = inr u -> u <> y /\ u ∉ l1 ++ l2) by (intros u ->; specialize (Hp u eq_refl); by apply not_elem_of_cons in Hp).
    cbn [ring]. split; [|split].
    + rewrite Hf by done. rewrite decide_False; [done|]. destruct (last_of_in l1 (inr y)) as [[_ ->]|(u & -> & Hu)]; intros E; destruct (Hpy _ E) as [N1 N2]; [done|]. apply N2, elem_of_app. by left.
    + rewrite Hb by (by intros [= ->]). rewrite decide_False; [done|]. destruct l2 as [|x l2]; cbn [first_of].
      * intros <-. by apply (Hz y eq_refl), elem_of_cons; left.
      * intros [= ->]. apply Hy, elem_of_app. right. apply elem_of_cons. by left.
    + apply IH; try done; [by intros u [= ->]| |by intros [= ->]].
      intros u Hu Hin. apply (Hz u Hu), elem_of_cons. by right.
Qed.

(** All chains of the table: each is a ring through the entries of [ch h], an entry is
    on one chain at most, and the entries of [A] that are on none are rings alone. *)
Record chains_at (k : gmap (Z + Z) ((Z + Z) * (Z + Z))) (mask : Z) (A : Z -> Prop) (ch : Z -> list Z) : Prop := ChainsAt {
  ca_ring : forall h, 0 <= h <= mask -> ring k (inl h) (ch h) (inl h);
  ca_nodup : forall h, 0 <= h <= mask -> NoDup (ch h);
  ca_one : forall h h' e, 0 <= h <= mask -> 0 <= h' <= mask -> e ∈ ch h -> e ∈ ch h' -> h = h';
  ca_in : forall h e, 0 <= h <= mask -> e ∈ ch h -> A e;
  ca_off : forall e, A e -> (forall h, 0 <= h <= mask -> e ∉ ch h) -> ring k (inr e) [] (inr e) }.
Definition without (e : Z) (l : list Z) : list Z := filter (fun x => x <> e) l.

Lemma without_id e l : e ∉ l -> without e l = l.
Proof.
  unfold without. induction l as [|x l IH]; intros H; [done|]. apply not_elem_of_cons in H as [H1 H2]. rewrite filter_cons_True by done. by rewrite IH.
Qed.
Lemma without_mid e l1 l2 : NoDup (l1 ++ e :: l2) -> without e (l1 ++ e :: l2) = l1 ++ l2.
Proof.
  intros Hd. apply NoDup_app in Hd as (_ & H1 & H2). apply NoDup_cons in H2 as [H2 _]. unfold without. rewrite filter_app, filter_cons_False by tauto.
  f_equal; apply without_id; [|done]. intros Hin. apply (H1 e Hin), elem_of_cons. by left.
Qed.
Lemma without_in e x l : x ∈ without e l <-> x ∈ l /\ x <> e.
Proof. unfold without. rewrite list_elem_of_filter. tauto. Qed.
Lemma without_nodup e l : NoDup l -> NoDup (without e l).
Proof. apply NoDup_filter. Qed.

Lemma find_home (ch : Z -> list Z) mask e : (exists h, 0 <= h <= mask /\ e ∈ ch h) \/ forall h, 0 <= h <= mask -> e ∉ ch h.
Proof.
  destruct (decide (Exists (fun h => e ∈ ch h) (seqZ 0 (mask + 1)))) as [H|H].
  - left. apply Exists_exists in H as (h & Hh & He). apply elem_of_seqZ in Hh. exists h. split; [lia|done].
  - right. intros h Hh He. apply H, Exists_exists. exists h. split; [apply elem_of_seqZ; lia|done].
Qed.

(** Changing the links of [b] and [f] leaves the rings alone that have neither. *)
Lemma ring_other k k' p l z (b f : Z + Z) : (forall a, a <> b -> forw k' a = forw k a) -> (forall a, a <> f -> back k' a = back k a) ->
  b <> p -> f <> z -> (forall x, x ∈ l -> b <> inr x /\ f <> inr x) -> ring k p l z -> ring k' p l z.
Proof.
  intros Hf Hb Hp Hz Hl. apply ring_frame.
  - intros a [->|(x & -> & Hx)]; apply Hf; [done|]. intros E. by destruct (Hl x Hx).
  - intros a [->|(x & -> & Hx)]; apply Hb; [done|]. intros E. by destruct (Hl x Hx).
Qed.

Lemma remque_links k e f b : k !! inr e = Some (f, b) -> is_Some (k !! f) -> is_Some (k !! b) ->
  exists k', remque (inr e) k = Ret k' /\ (forall a, forw k' a = if decide (a = b) then Some f else forw k a) /\
    (forall a, back k' a = if decide (a = f) then Some b else back k a) /\ forall a, is_Some (k' !! a) <-> is_Some (k !! a).
Proof.
  intros E Hf Hb. unfold remque. rewrite (get_ok _ _ _ E). bind. cbn [fst snd].
  destruct (set_back_ok f b k Hf) as (k1 & -> & B1 & B2 & B3). bind. destruct (set_forw_ok b f k1) as (k2 & -> & F1 & F2 & F3); [by apply B3|].
  exists k2. split; [done|]. split; [|split].
  - intros a. by rewrite F1, B2.
  - intros a. by rewrite F2, B1.
  - intros a. by rewrite F3, B3.
Qed.

(** An entry that is on no chain is taken out of its own ring. *)
Lemma remque_off k mask A ch e : chains_at k mask A ch -> A e -> (forall h, 0 <= h <= mask -> e ∉ ch h) ->
  exists k', remque (inr e) k = Ret k' /\ chains_at k' mask (fun x => A x /\ x <> e) (fun h => without e (ch h)) /\ forall a, is_Some (k' !! a) <-> is_Some (k !! a).
Proof.
  intros H He Hoff.
  destruct (ca_off _ _ _ _ H e He Hoff) as [F B]. destruct (forw_back_some _ _ _ F) as (b & Ek & Eb). assert (b = inr e) as -> by congruence.
  destruct (remque_links k e (inr e) (inr e) Ek) as (k' & -> & Kf & Kb & Ks); [by eexists..|]. exists k'. split; [done|]. split; [|done].
  assert (Kf' : forall a, a <> inr e -> forw k' a = forw k a) by (intros a Ha; rewrite Kf; by rewrite decide_False).
  assert (Kb' : forall a, a <> inr e -> back k' a = back k a) by (intros a Ha; rewrite Kb; by rewrite decide_False).
  split.
  + intros h Hh. rewrite without_id by by apply Hoff. apply (ring_other k k' _ _ _ (inr e) (inr e) Kf' Kb'); [done|done| |by apply (ca_ring _ _ _ _ H)].
    intros x Hx. split; intros [= ->]; by apply (Hoff h Hh).
  + intros h Hh. by apply without_nodup, (ca_nodup _ _ _ _ H).
  + intros h1 h2 x H1 H2 X1 X2. apply without_in in X1 as [X1 _], X2 as [X2 _]. by apply (ca_one _ _ _ _ H h1 h2 x).
  + intros h x Hh Hx. apply without_in in Hx as [Hx Hne]. split; [by apply (ca_in _ _ _ _ H h)|done].
  + intros x [Hx Hne] Hn. assert (Hn' : forall h', 0 <= h' <= mask -> x ∉ ch h') by (intros h' Hh' Hxin; apply (Hn h' Hh'), without_in; by split).
    apply (ring_other k k' _ _ _ (inr e) (inr e) Kf' Kb'); [by intros [= ->]|by intros [= ->]|intros y Hy; by apply elem_of_nil in Hy|by apply (ca_off _ _ _ _ H)].
Qed.
Lemma nch_remque_ok k mask A ch e : chains_at k mask A ch -> A e ->
  exists k', remque (inr e) k = Ret k' /\ chains_at k' mask (fun x => A x /\ x <> e) (fun h => without e (ch h)) /\ forall a, is_Some (k' !! a) <-> is_Some (k !! a).
Proof.
  intros H He. destruct (find_home ch mask e) as [(h & Hh & Hin)|Hoff].
  - pose proof (ca_ring _ _ _ _ H h Hh) as Hr. pose proof (ca_nodup _ _ _ _ H h Hh) as Hd. pose proof Hin as Hin'.
    apply list_elem_of_split in Hin' as (l1 & l2 & El). rewrite El in Hr, Hd. apply ring_split in Hr as [R1 R2].
    destruct (ring_ends _ _ _ _ R1) as [_ B1]. destruct (ring_ends _ _ _ _ R2) as [F2 B2]. set (b := last_of (inl h) l1) in *. set (f := first_of l2 (inl h)) in *.
    assert (Ek : k !! inr e = Some (f, b)) by (destruct (forw_back_some _ _ _ F2) as (b' & E & E'); congruence).
    assert (Hmem : forall q, q = b \/ q = f -> q = inl h \/ exists x, q = inr x /\ x ∈ ch h /\ x <> e).
    { apply NoDup_app in Hd as (_ & D1 & D2). apply NoDup_cons in D2 as [D2 _]. intros q [->| ->].
      - destruct (last_of_in l1 (inl h)) as [[_ E]|(x & E & Hx)]; [by left|right]. exists x. split; [done|]. rewrite El. split; [apply elem_of_app; by left|].
        intros ->. apply (D1 e Hx), elem_of_cons. by left.
      - unfold f. destruct l2 as [|x l2]; [by left|right]. exists x. split; [done|]. rewrite El. split; [apply elem_of_app; right; apply elem_of_cons; right; apply elem_of_cons; by left|].
        intros ->. apply D2, elem_of_cons. by left. }
    assert (Hsome : is_Some (k !! f) /\ is_Some (k !! b)).
    { split.
      - unfold f. destruct l2 as [|x l2]; cbn in *; [destruct R2 as [_ R2]|destruct R2 as (_ & R2 & _)]; destruct (back_forw_some _ _ _ R2) as (y & -> & _); by eexists.
      - unfold b. destruct (last_of_in l1 (inl h)) as [[-> E]|(x & E & Hx)]; rewrite E; [cbn in R1; destruct R1 as [R1 _]; destruct (forw_back_some _ _ _ R1) as (y & -> & _); by eexists|].
        apply list_elem_of_split in Hx as (m1 & m2 & ->). apply ring_split in R1 as [_ R1]. apply ring_ends in R1 as [R1 _]. destruct (forw_back_some _ _ _ R1) as (y & -> & _). by eexists. }
    destruct (remque_links k e f b Ek (proj1 Hsome) (proj2 Hsome)) as (k' & -> & Kf & Kb & Ks). exists k'. split; [done|]. split; [|done].
    assert (Hoth : forall h', 0 <= h' <= mask -> h' <> h -> e ∉ ch h') by (intros h' Hh' Hne Hx; by apply Hne, (ca_one _ _ _ _ H h' h e)).
    assert (Kf' : forall a, a <> b -> forw k' a = forw k a) by (intros a Ha; rewrite Kf; by rewrite decide_False).
    assert (Kb' : forall a, a <> f -> back k' a = back k a) by (intros a Ha; rewrite Kb; by rewrite decide_False).
    split.
    + intros h' Hh'. destruct (Z.eq_dec h' h) as [->|Hne].
      * rewrite El, without_mid by done. pose proof Hd as Hd'. apply NoDup_app in Hd' as (D0 & D1 & D2). apply NoDup_cons in D2 as [D2 D3].
        apply (ring_join k k' e l1); try done.
        -- apply NoDup_app. split; [done|]. split; [|done]. intros x Hx Hx2. apply (D1 x Hx), elem_of_cons. by right.
        -- intros Hx. apply elem_of_app in Hx as [Hx|Hx]; [apply (D1 e Hx), elem_of_cons; by left|done].
      * rewrite without_id by by apply Hoth. apply (ring_other k k' _ _ _ b f Kf' Kb'); [| | |by apply (ca_ring _ _ _ _ H)].
        -- destruct (Hmem b) as [->|(x & -> & _)]; [by left|congruence|done].
        -- destruct (Hmem f) as [->|(x & -> & _)]; [by right|congruence|done].
        -- intros x Hx. split; intros E; [destruct (Hmem b) as [E2|(y & E2 & Hy & _)]|destruct (Hmem f) as [E2|(y & E2 & Hy & _)]]; try (by auto); rewrite E in E2; try done; injection E2 as <-; by apply Hne, (ca_one _ _ _ _ H h' h x).
    + intros h' Hh'. by apply without_nodup, (ca_nodup _ _ _ _ H).
    + intros h1 h2 x H1 H2 X1 X2. apply without_in in X1 as [X1 _], X2 as [X2 _]. by apply (ca_one _ _ _ _ H h1 h2 x).
    + intros h' x Hh' Hx. apply without_in in Hx as [Hx Hne]. split; [by apply (ca_in _ _ _ _ H h')|done].
    + intros x [Hx Hne] Hn. assert (Hn' : forall h', 0 <= h' <= mask -> x ∉ ch h') by (intros h' Hh' Hxin; apply (Hn h' Hh'), without_in; by split).
      apply (ring_other k k' _ _ _ b f Kf' Kb'); [| |intros y Hy; by apply elem_of_nil in Hy|by apply (ca_off _ _ _ _ H)].
      * intros E. destruct (Hmem b) as [E2|(y & E2 & Hy & _)]; [by left|congruence|]. rewrite E in E2. injection E2 as ->. by apply (Hn' h Hh).
      * intros E. destruct (Hmem f) as [E2|(y & E2 & Hy & _)]; [by right|congruence|]. rewrite E in E2. injection E2 as ->. by apply (Hn' h Hh).
  - by apply (remque_off k mask A ch e).
Qed.

Lemma dummy_ok k mask (A : Z -> Prop) ch e : chains_at k mask (fun x => A x /\ x <> e) ch -> is_Some (k !! inr e) ->
  exists k', dummy_chain e k = Ret k' /\ chains_at k' mask A ch /\ forall a, is_Some (k' !! a) <-> is_Some (k !! a).
Proof.
  intros H Hs. unfold dummy_chain. destruct (set_forw_ok (inr e) (inr e) k Hs) as (k1 & -> & F1 & F2 & F3). bind.
  destruct (set_back_ok (inr e) (inr e) k1) as (k2 & -> & B1 & B2 & B3); [by apply F3|]. exists k2. split; [done|]. split; [|intros a; by rewrite B3, F3].
  assert (Kf' : forall a, a <> inr e -> forw k2 a = forw k a) by (intros a Ha; rewrite B2, F1; by rewrite decide_False).
  assert (Kb' : forall a, a <> inr e -> back k2 a = back k a) by (intros a Ha; rewrite B1, decide_False by done; by rewrite F2).
  split; try by apply H.
  - intros h Hh. apply (ring_other k k2 _ _ _ (inr e) (inr e) Kf' Kb'); [done|done| |by apply (ca_ring _ _ _ _ H)].
    intros x Hx. apply (ca_in _ _ _ _ H h x Hh) in Hx as [_ Hne]. split; congruence.
  - intros x Hx Hn. destruct (Z.eq_dec x e) as [->|Hne]; [split; [rewrite B2, F1|rewrite B1]; by rewrite decide_True|].
    apply (ring_other k k2 _ _ _ (inr e) (inr e) Kf' Kb'); [congruence|congruence|intros y Hy; by apply elem_of_nil in Hy|by apply (ca_off _ _ _ _ H)].
Qed.

Definition onto (e h : Z) (ch : Z -> list Z) : Z -> list Z := fun h' => if h' =? h then e :: ch h else ch h'.
Lemma nch_insque_ok k mask (A : Z -> Prop) ch e h : chains_at k mask (fun x => A x /\ x <> e) ch -> A e -> is_Some (k !! inr e) -> 0 <= h <= mask ->
  exists k', insque (inr e) (inl h) k = Ret k' /\ chains_at k' mask A (onto e h ch) /\ forall a, is_Some (k' !! a) <-> is_Some (k !! a).
Proof.
  intros H HA Hs Hh. pose proof (ca_ring _ _ _ _ H h Hh) as Hr. destruct (ring_ends _ _ _ _ Hr) as [Fh Bh]. set (f := first_of (ch h) (inl h)) in *.
  assert (He : forall h', 0 <= h' <= mask -> e ∉ ch h') by (intros h' Hh' Hin; by apply (ca_in _ _ _ _ H h' e Hh') in Hin as [_ ?]).
  assert (Hfe : f <> inr e) by (unfold f; specialize (He h Hh); destruct (ch h) as [|x l]; [done|]; intros [= ->]; apply He, elem_of_cons; by left).
  unfold insque. destruct (forw_back_some _ _ _ Fh) as (b & Ek & _). rewrite (get_ok _ _ _ Ek). bind. cbn [fst].
  destruct (set_forw_ok (inr e) f k Hs) as (k1 & -> & F1 & F2 & F3). bind.
  destruct (set_back_ok (inr e) (inl h) k1) as (k2 & -> & G1 & G2 & G3); [by apply F3|]. bind.
  destruct (set_forw_ok (inl h) (inr e) k2) as (k3 & -> & I1 & I2 & I3); [apply G3, F3; by eexists|]. bind.
  assert (Ef : forw k3 (inr e) = Some f) by (rewrite I1, decide_False, G2, F1 by done; by rewrite decide_True).
  destruct (forw_back_some _ _ _ Ef) as (b3 & Ek3 & _). rewrite (get_ok _ _ _ Ek3). bind. cbn [fst].
  assert (Hsf : is_Some (k3 !! f)).
  { apply I3, G3, F3. unfold f. destruct (ch h) as [|x l]; cbn in *; [by eexists|]. destruct Hr as (_ & Hr & _). destruct (back_forw_some _ _ _ Hr) as (y & -> & _). by eexists. }
  destruct (set_back_ok f (inr e) k3 Hsf) as (k4 & -> & J1 & J2 & J3). exists k4. split; [done|]. split; [|intros a; by rewrite J3, I3, G3, F3].
  assert (Kf : forall a, forw k4 a = if decide (a = inl h) then Some (inr e) else if decide (a = inr e) then Some f else forw k a) by (intros a; by rewrite J2, I1, G2, F1).
  assert (Kb : forall a, back k4 a = if decide (a = f) then Some (inr e) else if decide (a = inr e) then Some (inl h) else back k a) by (intros a; by rewrite J1, I2, G1, F2).
  assert (Hmem : f = inl h \/ exists x, f = inr x /\ x ∈ ch h) by (unfold f; destruct (ch h) as [|x l]; [by left|right]; exists x; split; [done|]; apply elem_of_cons; by left).
  split.
  - intros h' Hh'. unfold onto. destruct (Z.eqb_spec h' h) as [->|Hne].
    + cbn. split; [by rewrite Kf, decide_True|]. split; [rewrite Kb, decide_False by congruence; by rewrite decide_True|].
      pose proof (ca_nodup _ _ _ _ H h Hh) as Hd. pose proof (He h Hh) as Heh. unfold f in Kf, Kb. destruct (ch h) as [|x l]; cbn [ring first_of] in *.
      * split; [rewrite Kf, decide_False by done; by rewrite decide_True|by rewrite Kb, decide_True].
      * destruct Hr as (R1 & R2 & R3). apply NoDup_cons in Hd as [Hx Hd]. apply not_elem_of_cons in Heh as [Hex Hel].
        split; [rewrite Kf, decide_False by done; by rewrite decide_True|]. split; [by rewrite Kb, decide_True|]. apply (ring_frame k); [| |done].
        -- intros a [->|(y & -> & Hy)]; rewrite Kf, !decide_False by congruence; done.
        -- intros a [->|(y & -> & Hy)]; rewrite Kb, !decide_False by congruence; done.
    + apply (ring_frame k); [| |by apply (ca_ring _ _ _ _ H)].
      * intros a [->|(y & -> & Hy)]; rewrite Kf, !decide_False; try done; [congruence|]. intros [= ->]. by apply (He h').
      * intros a [->|(y & -> & Hy)]; rewrite Kb, !decide_False; try done; [|intros [= ->]; by apply (He h')|].
        -- destruct Hmem as [->|(x & -> & _)]; congruence.
        -- destruct Hmem as [->|(x & -> & Hx)]; [done|]. intros [= ->]. by apply Hne, (ca_one _ _ _ _ H h' h x).
  - intros h' Hh'. unfold onto. destruct (h' =? h); [apply NoDup_cons; split; [by apply He|]|]; by apply (ca_nodup _ _ _ _ H).
  - intros h1 h2 x H1 H2. unfold onto. destruct (Z.eqb_spec h1 h) as [->|], (Z.eqb_spec h2 h) as [->|]; try done; rewrite ?elem_of_cons.
    + intros [->|X1] X2; [by destruct (He h2 H2)|by apply (ca_one _ _ _ _ H h h2 x)].
    + intros X1 [->|X2]; [by destruct (He h1 H1)|by apply (ca_one _ _ _ _ H h1 h x)].
    + by apply (ca_one _ _ _ _ H h1 h2 x).
  - intros h' x Hh'. unfold onto. destruct (Z.eqb_spec h' h) as [->|]; [intros Hx; apply elem_of_cons in Hx as [->|Hx]; [done|]|intros Hx]; by apply (ca_in _ _ _ _ H _ x Hh') in Hx as [? _].
  - intros x Hx Hn. assert (Hne : x <> e).
    { intros ->. apply (Hn h Hh). unfold onto. rewrite Z.eqb_refl. apply elem_of_cons. by left. }
    assert (Hn' : forall h', 0 <= h' <= mask -> x ∉ ch h').
    { intros h' Hh' Hin. apply (Hn h' Hh'). unfold onto. destruct (Z.eqb_spec h' h) as [->|]; [apply elem_of_cons; by right|done]. }
    apply (ring_frame k); [| |apply (ca_off _ _ _ _ H); [by split|done]].
    + intros a [->|(y & _ & Hy)]; [|by apply elem_of_nil in Hy]. rewrite Kf, !decide_False by congruence. done.
    + intros a [->|(y & _ & Hy)]; [|by apply elem_of_nil in Hy]. rewrite Kb, !decide_False; [done|congruence|].
      destruct Hmem as [->|(y & -> & Hy)]; [done|]. intros [= ->]. by apply (Hn' h).
Qed.

(** ** The invariant of the cache

    [inv c L ch]: [L] is the LRU list, first to grab first, and holds every entry once;
    [ch h] are the entries on chain [h]; the vnodes the entries name exist. *)
Definition known (c : cache) (o : option Z) : Prop := forall v, o = Some v -> is_Some (vnodes c !! v).
Definition on (c : cache) (e : Z) : Prop := 0 <= e < numcache c.
Record mem (c : cache) : Prop := Mem {
  m_hash : 0 <= nchash c;
  m_num : 0 <= numcache c;
  m_nc : forall e, on c e -> is_Some (nc c !! e);
  m_word : forall e, on c e -> is_Some (word c !! Some e);
  m_prev : forall e, on c e -> is_Some (nc_prev c !! e);
  m_chain : forall e, on c e -> is_Some (chain c !! inr e);
  m_vnodes : forall e n, nc c !! e = Some n -> known c (nc_dvp n) /\ known c (nc_vp n) }.
Record inv (c : cache) (L : list Z) (ch : Z -> list Z) : Prop := Inv {
  i_lru : lru_at (word c) (nc_prev c) (nchtail c) L;
  i_nodup : NoDup L;
  i_all : forall e, e ∈ L <-> on c e;
  i_chains : chains_at (chain c) (nchash c) (on c) ch;
  i_mem : mem c }.
(** What moving entries about leaves as it was. *)
Definition same (c c' : cache) : Prop :=
  nc c' = nc c /\ nchash c' = nchash c /\ numcache c' = numcache c /\ vnodes c' = vnodes c /\ nextvnodeid c' = nextvnodeid c /\ stats c' = stats c.

Lemma same_refl c : same c c. Proof. done. Qed.
Lemma inv_counting f c L ch : inv c L ch -> inv (counting f c) L ch.
Proof. intros [H1 H2 H3 H4 [M1 M2 M3 M4 M5 M6 M7]]. by split; cbn. Qed.

Lemma mem_links c w pv t k : mem c -> (forall a, is_Some (w !! a) <-> is_Some (word c !! a)) -> (forall x, is_Some (pv !! x) <-> is_Some (nc_prev c !! x)) ->
  (forall a, is_Some (k !! a) <-> is_Some (chain c !! a)) -> mem (set_chain k (set_lru w pv t c)).
Proof.
  intros [M1 M2 M3 M4 M5 M6 M7] Hw Hp Hk. split; cbn; try done; intros e He; [by apply Hw, M4|by apply Hp, M5|by apply Hk, M6].
Qed.

Lemma without_self e l : e ∉ without e l. Proof. rewrite without_in. tauto. Qed.
Lemma without_split e L l1 l2 : NoDup L -> L = l1 ++ e :: l2 -> without e L = l1 ++ l2.
Proof. intros Hd ->. by apply without_mid. Qed.

Lemma to_end_ok e c L ch : inv c L ch -> on c e -> exists c', to_end e c = Ret c' /\ same c c' /\ inv c' (without e L ++ [e]) ch.
Proof.
  intros [H1 H2 H3 H4 H5] He. pose proof (proj2 (H3 e) He) as Hin. destruct (lru_words _ _ _ _ _ H1 Hin H2) as (l1 & l2 & El & E1 & E2 & E3).
  unfold to_end. rewrite (get_ok _ _ _ E3). bind. destruct l2 as [|x l2]; cbn [head].
  - exists c. split; [done|]. split; [done|]. rewrite (without_split _ _ _ _ H2 El), app_nil_r, <-El. by split.
  - destruct (lru_remove_ok e L c H1 H2 Hin) as (m1 & m2 & w & pv & t & Em & -> & L1 & W1 & P1). bind. rewrite <-(without_split _ _ _ _ H2 Em) in L1.
    destruct (lru_append_ok e (without e L) (set_lru w pv t c)) as (w2 & pv2 & t2 & -> & L2 & W2 & P2); cbn; [done|by apply without_nodup|apply without_self|by apply W1, H5|by apply P1, H5|].
    eexists. split; [reflexivity|]. split; [done|]. split; cbn; [done| | |done|].
    + apply NoDup_app. split; [by apply without_nodup|]. split; [|apply NoDup_singleton]. intros y Hy ->%list_elem_of_singleton. by apply without_self in Hy.
    + intros y. rewrite elem_of_app, without_in, list_elem_of_singleton. destruct (Z.eq_dec y e) as [->|]; [|rewrite H3]; unfold on in *; cbn; tauto.
    + apply (mem_links c w2 pv2 t2 (chain c) H5); [|intros y; by rewrite P2|done]. intros y. by rewrite W2.
Qed.

Lemma chains_proper k mask (A A' : Z -> Prop) ch : (forall e, A e <-> A' e) -> chains_at k mask A ch -> chains_at k mask A' ch.
Proof.
  intros HA [C1 C2 C3 C4 C5]. split; try done; [intros h e Hh He; by apply HA, (C4 h)|intros e He; by apply C5, HA].
Qed.

(** Dropping an entry, as cache_lookup does and, in another order, cache_purgevfs. *)
Lemma drop_entry_ok e c L ch : inv c L ch -> on c e ->
  (L = [e] /\ drop_entry e c = Fault) \/
  (L <> [e] /\ exists c', drop_entry e c = Ret c' /\ same c c' /\ inv c' (e :: without e L) (fun h => without e (ch h))).
Proof.
  intros [H1 H2 H3 H4 H5] He. pose proof (proj2 (H3 e) He) as Hin.
  destruct (lru_remove_ok e L c H1 H2 Hin) as (m1 & m2 & w & pv & t & Em & E1 & L1 & W1 & P1). unfold drop_entry. rewrite E1. bind. rewrite <-(without_split _ _ _ _ H2 Em) in L1.
  destruct (nch_remque_ok _ _ _ _ e H4 He) as (k & E2 & C2 & S2). cbn [chain set_lru]. rewrite E2. bind.
  destruct (lru_push_ok e (without e L) (set_chain k (set_lru w pv t c))) as [[Ew ->]|(Hne & w2 & pv2 & t2 & -> & L2 & W2 & P2)]; cbn;
    [done|by apply without_nodup|apply without_self|by apply W1, H5|by apply P1, H5| |].
  - left. split; [|done]. rewrite (without_split _ _ _ _ H2 Em) in Ew. apply app_eq_nil in Ew as [-> ->]. done.
  - right. split; [intros ->; apply Hne; unfold without; rewrite filter_cons_False by tauto; done|]. bind.
    destruct (dummy_ok k (nchash c) (on c) _ e C2) as (k2 & E3 & C3 & S3); [by apply S2, H5|]. cbn [chain set_lru set_chain]. rewrite E3. bind. eexists. split; [reflexivity|]. split; [done|].
    split; cbn; [done| | |done|].
    + apply NoDup_cons. split; [apply without_self|by apply without_nodup].
    + intros y. rewrite elem_of_cons, without_in. destruct (Z.eq_dec y e) as [->|]; [|rewrite H3]; unfold on in *; cbn; tauto.
    + apply (mem_links c w2 pv2 t2 k2 H5); [intros y; by rewrite W2|intros y; by rewrite P2|]. intros y. by rewrite S3.
Qed.

(** ** cache_lookup *)
Definition matches (ndp : nameidata) (dvpid : Z) (c : cache) (e : Z) : bool := match nc c !! e with Some n => is_name ndp dvpid n | None => false end.
Lemma find_chain_ok ndp id h c l : forall fuel p, ring (chain c) p l (inl h) -> (forall e, e ∈ l -> is_Some (nc c !! e)) -> (length l < fuel)%nat ->
  find_chain fuel ndp id (inl h) (first_of l (inl h)) c = Ret (List.find (matches ndp id c) l).
Proof.
  induction l as [|e l IH]; intros fuel p Hr Hn Hf; (destruct fuel as [|fuel]; [cbn in Hf; lia|]); cbn [find_chain first_of List.find].
  - by rewrite decide_True.
  - rewrite decide_False by done. destruct (Hn e) as (n & En); [apply elem_of_cons; by left|]. rewrite (get_ok _ _ _ En). bind. unfold matches at 1. rewrite En.
    destruct (is_name ndp id n); [done|]. destruct Hr as (_ & _ & Hr). destruct (ring_ends _ _ _ _ Hr) as [F _]. destruct (forw_back_some _ _ _ F) as (b & E & _).
    rewrite (get_ok _ _ _ E). bind. cbn [fst]. apply (IH _ (inr e)); [done| |cbn in Hf; lia]. intros x Hx. apply Hn, elem_of_cons. by right.
Qed.
Lemma nodup_range l n : NoDup l -> (forall e, e ∈ l -> 0 <= e < n) -> (length l <= Z.to_nat n)%nat.
Proof.
  intros Hd Hl. rewrite <-(length_seqZ 0 n). apply submseteq_length, NoDup_submseteq; [done|]. intros e He. apply elem_of_seqZ. specialize (Hl e He). lia.
Qed.
Lemma hash_range x c : mem c -> 0 <= Z.land x (nchash c) <= nchash c.
Proof.
  intros M. pose proof (m_hash _ M) as Hm. split; [apply Z.land_nonneg; by right|]. rewrite Z.land_comm. destruct (Z.eq_dec (nchash c) 0) as [->|]; [done|].
  apply Z.ldiff_le; [done|]. apply Z.bits_inj_iff'. intros m Hm'. rewrite Z.bits_0, Z.ldiff_spec, Z.land_spec. by destruct (Z.testbit (nchash c) m), (Z.testbit x m).
Qed.
(** What the first entry of the chain with the name comes to. *)
Inductive verdict : Type := Missed | Dropped (e : Z) (count : nchstats -> nchstats) | Found (e status : Z) (vp : option Z) (count : nchstats -> nchstats).
Definition judge (ndp : nameidata) (dvpid : Z) (c : cache) (l : list Z) : verdict :=
  match List.find (matches ndp dvpid c) l with
  | None => Missed
  | Some e =>
      if negb (ni_makeentry ndp) then Dropped e bad
      else
        match nc c !! e with
        | None => Missed
        | Some n =>
            match nc_vp n with
            | None => Found e ENOENT None neg
            | Some vp =>
                match vnodes c !! vp with
                | Some v => if nc_vpid n =? v_id v then Found e (-1) (Some vp) good else Dropped e false_
                | None => Missed
                end
            end
        end
  end.
Definition chain_of (ndp : nameidata) (c : cache) (ch : Z -> list Z) : list Z := ch (Z.land (ni_hash ndp) (nchash c)).

Lemma find_on_chain ndp id c L ch : inv c L ch ->
  exists b, chain c !! inl (Z.land (ni_hash ndp) (nchash c)) = Some (first_of (chain_of ndp c ch) (inl (Z.land (ni_hash ndp) (nchash c))), b) /\
  find_chain (S (Z.to_nat (numcache c))) ndp id (inl (Z.land (ni_hash ndp) (nchash c))) (first_of (chain_of ndp c ch) (inl (Z.land (ni_hash ndp) (nchash c)))) c =
    Ret (List.find (matches ndp id c) (chain_of ndp c ch)).
Proof.
  intros [H1 H2 H3 H4 H5]. pose proof (hash_range (ni_hash ndp) c H5) as Hh. set (h := Z.land (ni_hash ndp) (nchash c)) in *.
  pose proof (ca_ring _ _ _ _ H4 h Hh) as Hr. destruct (ring_ends _ _ _ _ Hr) as [F _]. destruct (forw_back_some _ _ _ F) as (b & E & _). exists b. split; [done|].
  apply (find_chain_ok ndp id h c (ch h) _ _ Hr).
  - intros e He. by apply H5, (ca_in _ _ _ _ H4 h).
  - apply Nat.lt_succ_r, nodup_range; [by apply (ca_nodup _ _ _ _ H4)|]. intros e He. by apply (ca_in _ _ _ _ H4 h).
Qed.
Lemma find_on ndp id c L ch e : inv c L ch -> List.find (matches ndp id c) (chain_of ndp c ch) = Some e ->
  on c e /\ exists n, nc c !! e = Some n /\ is_name ndp id n = true.
Proof.
  intros H E. apply List.find_some in E as [Hin Hm]. apply list_elem_of_In in Hin. split.
  - apply (ca_in _ _ _ _ (i_chains _ _ _ H) (Z.land (ni_hash ndp) (nchash c))); [by apply hash_range, H|done].
  - unfold matches in Hm. destruct (nc c !! e) as [n|]; [by exists n|done].
Qed.

Lemma cache_lookup_ok ndp c L ch d : inv c L ch -> vnodes c !! ni_dvp ndp = Some d -> Z.of_nat (length (ni_name ndp)) <= NCHNAMLEN ->
  match judge ndp (v_id d) c (chain_of ndp c ch) with
  | Missed => cache_lookup true ndp c = Ret (0, None, ni_makeentry ndp, counting miss c)
  | Dropped e f =>
      (L = [e] /\ cache_lookup true ndp c = Fault) \/
      (L <> [e] /\ exists c', cache_lookup true ndp c = Ret (0, None, ni_makeentry ndp, c') /\ same (counting f c) c' /\ inv c' (e :: without e L) (fun h => without e (ch h)))
  | Found e st vp f =>
      exists c', cache_lookup true ndp c = Ret (st, vp, ni_makeentry ndp, c') /\ same (counting f c) c' /\ inv c' (without e L ++ [e]) ch
  end.
Proof.
  intros H Ed Hlen. unfold cache_lookup. cbn [negb]. rewrite Z.gtb_ltb, (proj2 (Z.ltb_ge _ _)) by lia. rewrite (get_ok _ _ _ Ed). bind.
  destruct (find_on_chain ndp (v_id d) c L ch H) as (b & E1 & E2). rewrite (get_ok _ _ _ E1). bind. cbn [fst]. rewrite E2. bind. unfold judge.
  destruct (List.find _ _) as [e|] eqn:Ef; [|done]. destruct (find_on _ _ _ _ _ _ H Ef) as (Hon & n & En & Hn). rewrite (get_ok _ _ _ En). bind.
  assert (Hdrop : forall f, (L = [e] /\ (c0 ← drop_entry e (counting f c); Ret (0, None : option Z, ni_makeentry ndp, c0)) = Fault) \/ (L <> [e] /\ exists c',
    (c0 ← drop_entry e (counting f c); Ret (0, None : option Z, ni_makeentry ndp, c0)) = Ret (0, None, ni_makeentry ndp, c') /\ same (counting f c) c' /\ inv c' (e :: without e L) (fun h => without e (ch h)))).
  { intros f. destruct (drop_entry_ok e (counting f c) L ch (inv_counting f _ _ _ H) Hon) as [[HL ->]|(HL & c' & -> & Hs & Hi)]; [left|right]; (split; [done|]); [done|]. exists c'. by bind. }
  assert (Hend : forall f st vp, exists c', (c0 ← to_end e (counting f c); Ret (st : Z, vp : option Z, ni_makeentry ndp, c0)) = Ret (st, vp, ni_makeentry ndp, c') /\ same (counting f c) c' /\ inv c' (without e L ++ [e]) ch).
  { intros f st vp. destruct (to_end_ok e (counting f c) L ch (inv_counting f _ _ _ H) Hon) as (c' & -> & Hs & Hi). exists c'. by bind. }
  destruct (ni_makeentry ndp); cbn [negb]; [|apply Hdrop]. rewrite En. destruct (nc_vp n) as [vp|] eqn:Ev; [|apply Hend].
  destruct (m_vnodes _ (i_mem _ _ _ H) _ _ En) as [_ Hk]. destruct (Hk vp Ev) as (v & Evn). rewrite (get_ok _ _ _ Evn), Evn. bind.
  destruct (nc_vpid n =? v_id v); cbn [negb]; [apply Hend|apply Hdrop].
Qed.

(** ** cache_enter *)
(** [ready c e L ch]: entry [e] is on neither list. *)
Record ready (c : cache) (e : Z) (L : list Z) (ch : Z -> list Z) : Prop := Ready {
  r_lru : lru_at (word c) (nc_prev c) (nchtail c) L;
  r_nodup : NoDup L;
  r_all : forall x, x ∈ L <-> on c x /\ x <> e;
  r_chains : chains_at (chain c) (nchash c) (fun x => on c x /\ x <> e) ch;
  r_mem : mem c;
  r_on : on c e }.

Lemma lru_frame w w' pv pv' t L : (forall a, a = None \/ (exists e, a = Some e /\ e ∈ L) -> w' !! a = w !! a) -> (forall e, e ∈ L -> pv' !! e = pv !! e) -> lru_at w pv t L -> lru_at w' pv' t L.
Proof.
  intros Hw Hp (H1 & H2 & H3). split; [|split; [|done]].
  - apply (path_frame w w' pv pv' L None); [|done|done]. intros a Ha. apply Hw. by destruct (addrs_in _ _ _ Ha); [left|right].
  - rewrite Hw; [done|]. destruct (end_in L None) as [[_ ->]|Hx]; [by left|by right].
Qed.
Lemma chains_frame k k' mask (A : Z -> Prop) ch : (forall h, k' !! inl h = k !! inl h) -> (forall e, A e -> k' !! inr e = k !! inr e) -> chains_at k mask A ch -> chains_at k' mask A ch.
Proof.
  intros Hl Hr [C1 C2 C3 C4 C5]. split; try done.
  - intros h Hh. apply (ring_frame k); [| |by apply C1]; intros a [->|(e & -> & He)]; unfold forw, back; by rewrite ?Hl, ?Hr by by apply (C4 h).
  - intros e He Hn. apply (ring_frame k); [| |by apply C5]; intros a [->|(x & -> & Hx)]; unfold forw, back; try (by apply elem_of_nil in Hx); by rewrite Hr.
Qed.

Lemma new_entry_ready c L ch : inv c L ch -> ready (new_entry c) (numcache c) L ch.
Proof.
  intros [H1 H2 H3 H4 H5]. set (e := numcache c). pose proof (m_num _ H5) as Hn.
  assert (Hfresh : ~ on c e) by (unfold on, e; lia). assert (Hon : forall x, on (new_entry c) x /\ x <> e <-> on c x) by (intros x; unfold on; cbn; lia).
  split.
  - apply (lru_frame (word c) _ (nc_prev c)); [| |done]; cbn; intros a.
    + intros [->|(x & -> & Hx)]; rewrite lookup_insert_ne; try done. intros [= <-]. by apply Hfresh, H3.
    + intros Ha. rewrite lookup_insert_ne; [done|]. intros <-. by apply Hfresh, H3.
  - done.
  - intros x. by rewrite Hon.
  - apply (chains_proper _ _ (on c)); [intros x; symmetry; apply Hon|]. apply (chains_frame (chain c)); [| |done]; cbn.
    + intros h. by rewrite lookup_insert_ne.
    + intros x Hx. rewrite lookup_insert_ne; [done|]. intros [= <-]. done.
  - destruct H5 as [M1 M2 M3 M4 M5 M6 M7].
    assert (Hins : forall {K V} `{Countable K} (m : gmap K V) (f : Z -> K) (v : V), (forall x, on c x -> is_Some (m !! f x)) -> (forall x y, f x = f y -> x = y) -> forall x, on (new_entry c) x -> is_Some (<[f e := v]> m !! f x)).
    { intros K V ? ? m f v Hm Hi x Hx. destruct (Z.eq_dec x e) as [->|Hne]; [rewrite lookup_insert_eq; by eexists|]. rewrite lookup_insert_ne by (by intros E; apply Hne, Hi). by apply Hm, Hon. }
    split; cbn; [done|unfold e; lia|by apply (Hins _ _ _ _ _ id)|apply (Hins _ _ _ _ _ Some); [done|by intros ? ? [= ->]]|by apply (Hins _ _ _ _ _ id)|apply (Hins _ _ _ _ _ inr); [done|by intros ? ? [= ->]]|].
    intros x n. destruct (Z.eq_dec x e) as [->|Hne]; [rewrite lookup_insert_eq; by intros [= <-]|]. rewrite lookup_insert_ne by done. apply M7.
  - unfold on. cbn. lia.
Qed.

Definition victim (desiredvnodes : Z) (c : cache) (L : list Z) : option Z := if numcache c <? desiredvnodes then Some (numcache c) else head L.
Lemma free_slot_ok desiredvnodes c L ch : inv c L ch ->
  match victim desiredvnodes c L with
  | None => free_slot desiredvnodes c = Ret None
  | Some e => exists c', free_slot desiredvnodes c = Ret (Some (e, c')) /\ ready c' e (without e L) (fun h => without e (ch h)) /\
      (forall x, x <> e -> nc c' !! x = nc c !! x) /\ nchash c' = nchash c /\ vnodes c' = vnodes c /\ nextvnodeid c' = nextvnodeid c /\ stats c' = stats c /\
      numcache c' = Z.max (numcache c) (e + 1)
  end.
Proof.
  intros H. unfold victim, free_slot. destruct (numcache c <? desiredvnodes).
  - exists (new_entry c). split; [done|]. pose proof (new_entry_ready c L ch H) as [R1 R2 R3 R4 R5 R6].
    assert (He : numcache c ∉ L) by (intros Hx; by apply R3 in Hx as [_ ?]). split; [|split; [intros x Hx; cbn; by rewrite lookup_insert_ne|]].
    + split; rewrite ?without_id by done; try done. destruct R4 as [C1 C2 C3 C4 C5].
      assert (Hno : forall h, 0 <= h <= nchash c -> without (numcache c) (ch h) = ch h) by (intros h Hh; apply without_id; intros Hx; by apply (C4 h) in Hx as [_ ?]).
      split; cbn in *.
      * intros h Hh. rewrite Hno by done. by apply C1.
      * intros h Hh. rewrite Hno by done. by apply C2.
      * intros h h' x Hh Hh'. rewrite !Hno by done. by apply C3.
      * intros h x Hh. rewrite Hno by done. by apply C4.
      * intros x Hx Hn. apply C5; [done|]. intros h Hh. rewrite <-Hno by done. by apply Hn.
    + cbn. do 4 (split; [done|]). lia.
  - destruct H as [H1 H2 H3 H4 H5]. destruct L as [|e L]; cbn [head].
    + destruct H1 as (_ & H1 & _). cbn in H1. by rewrite (get_ok _ _ _ H1).
    + pose proof (proj1 H1) as (P & _). rewrite (get_ok _ _ _ P). bind. assert (Hin : e ∈ e :: L) by (apply elem_of_cons; by left). pose proof (proj1 (H3 e) Hin) as Hon.
      destruct (lru_remove_ok e _ c H1 H2 Hin) as (m1 & m2 & w & pv & t & Em & -> & L1 & W1 & P1). bind. rewrite <-(without_split _ _ _ _ H2 Em) in L1.
      destruct (nch_remque_ok _ _ _ _ e H4 Hon) as (k & E2 & C2 & S2). cbn [chain set_lru]. rewrite E2. bind. eexists. split; [reflexivity|]. split.
      * split; cbn -[without]; [done|by apply without_nodup|intros x; by rewrite without_in, H3|done|by apply (mem_links c)|done].
      * cbn. do 5 (split; [done|]). unfold on in Hon. lia.
Qed.

Lemma cache_enter_ok desiredvnodes ndp vp c L ch d : inv c L ch -> vnodes c !! ni_dvp ndp = Some d -> known c vp -> Z.of_nat (length (ni_name ndp)) <= NCHNAMLEN ->
  match victim desiredvnodes c L with
  | None => cache_enter true desiredvnodes ndp vp c = Ret c
  | Some e => exists c' vpid, cache_enter true desiredvnodes ndp vp c = Ret c' /\
      inv c' (without e L ++ [e]) (onto e (Z.land (ni_hash ndp) (nchash c)) (fun h => without e (ch h))) /\
      nc c' !! e = Some (Nc (Some (ni_dvp ndp)) (v_id d) vp vpid (ni_name ndp)) /\ (forall v x, vp = Some v -> vnodes c !! v = Some x -> vpid = v_id x) /\
      (forall x, x <> e -> nc c' !! x = nc c !! x) /\
      nchash c' = nchash c /\ vnodes c' = vnodes c /\ nextvnodeid c' = nextvnodeid c /\ stats c' = stats c /\ numcache c' = Z.max (numcache c) (e + 1)
  end.
Proof.
  intros H Ed Hk Hlen. unfold cache_enter. cbn [negb]. pose proof (free_slot_ok desiredvnodes c L ch H) as Hf. pose proof (hash_range (ni_hash ndp) c (i_mem _ _ _ H)) as Hh.
  destruct (victim desiredvnodes c L) as [e|]; [|by rewrite Hf]. destruct Hf as (c1 & -> & [R1 R2 R3 R4 R5 R6] & N1 & N2 & N3 & N4 & N5 & N6). bind. cbn [fst snd].
  set (h := Z.land (ni_hash ndp) (nchash c)) in *. rewrite <-N2 in Hh. unfold fill_slot.
  assert (exists vpid, (match vp with Some v => x ← get (vnodes c1) v; Ret (v_id x) | None => Ret 0 end) = Ret vpid /\ (forall v x, vp = Some v -> vnodes c !! v = Some x -> vpid = v_id x)) as (vpid & -> & Hv).
  { destruct vp as [v|]; [|exists 0; by split]. destruct (Hk v eq_refl) as (x & Ex). exists (v_id x). rewrite N3, (get_ok _ _ _ Ex). bind. split; [done|]. intros v' x' [= <-]. congruence. }
  bind. rewrite N3, (get_ok _ _ _ Ed). bind. rewrite Z.gtb_ltb, (proj2 (Z.ltb_ge _ _)) by lia. destruct (m_nc _ R5 e R6) as (n & En). rewrite (put_ok _ _ _ _ En). bind.
  set (n' := Nc (Some (ni_dvp ndp)) (v_id d) vp vpid (ni_name ndp)). set (c2 := set_nc (<[e := n']> (nc c1)) c1).
  destruct (lru_append_ok e (without e L) c2 R1 R2) as (w & pv & t & -> & L2 & W2 & P2); [by apply without_self|by apply R5|by apply R5|]. bind.
  destruct (nch_insque_ok (chain c1) (nchash c1) (on c1) _ e h R4 R6 (m_chain _ R5 e R6) Hh) as (k & E3 & C3 & S3). replace (Z.land (ni_hash ndp) (nchash (set_lru w pv t c2))) with h by (cbn; by rewrite N2). change (chain (set_lru w pv t c2)) with (chain c1). rewrite E3. bind.
  exists (set_chain k (set_lru w pv t c2)), vpid. split; [done|]. split; [|split; [cbn; by rewrite lookup_insert_eq|]; split; [done|]; split; [intros x Hx; cbn; rewrite lookup_insert_ne by done; by apply N1|done]].
  split; cbn; [done| | |done|].
  - apply NoDup_app. split; [done|]. split; [|apply NoDup_singleton]. intros y Hy ->%list_elem_of_singleton. by apply without_self in Hy.
  - intros y. rewrite elem_of_app, R3, list_elem_of_singleton. unfold on in *. cbn. destruct (Z.eq_dec y e) as [->|]; tauto.
  - apply (mem_links c2 w pv t k); [|done|done|done]. destruct R5 as [M1 M2 M3 M4 M5 M6 M7]. split; cbn; try done.
    + intros x Hx. destruct (Z.eq_dec x e) as [->|]; [rewrite lookup_insert_eq; by eexists|rewrite lookup_insert_ne by done; by apply M3].
    + intros x m. destruct (Z.eq_dec x e) as [->|]; [rewrite lookup_insert_eq; intros [= <-]|rewrite lookup_insert_ne by done; apply M7].
      cbn. unfold known in *. cbn. rewrite N3. split; [|done]. intros v [= <-]. by eexists.
Qed.

(** ** cache_purge *)
Lemma inv_new_id c L ch vp v id : inv c L ch -> vnodes c !! vp = Some v -> inv (set_ids (<[vp := Vn id (v_mount v)]> (vnodes c)) id c) L ch.
Proof.
  intros [H1 H2 H3 H4 [M1 M2 M3 M4 M5 M6 M7]] Ev. split; cbn; try done. split; cbn; try done.
  assert (Hk : forall o, known c o -> known (set_ids (<[vp := Vn id (v_mount v)]> (vnodes c)) id c) o).
  { intros o Ho u Hu. cbn. destruct (Z.eq_dec u vp) as [->|]; [rewrite lookup_insert_eq; by eexists|rewrite lookup_insert_ne by done; by apply Ho]. }
  intros e n En. destruct (M7 e n En) as [K1 K2]. split; by apply Hk.
Qed.
(** Entries may change as long as the vnodes they name were named by the entry. *)
Lemma inv_entries c L ch nc' : inv c L ch -> (forall e n', nc' !! e = Some n' -> exists n, nc c !! e = Some n /\ (nc_dvp n' = nc_dvp n \/ nc_dvp n' = None) /\ (nc_vp n' = nc_vp n \/ nc_vp n' = None)) ->
  (forall e, is_Some (nc c !! e) -> is_Some (nc' !! e)) -> inv (set_nc nc' c) L ch.
Proof.
  intros [H1 H2 H3 H4 [M1 M2 M3 M4 M5 M6 M7]] Hn Hs. split; cbn; try done. split; cbn; try done.
  - intros e He. by apply Hs, M3.
  - intros e n' E. destruct (Hn e n' E) as (n & En & [->| ->] & [->| ->]); destruct (M7 e n En); done.
Qed.

Definition cleared (n : namecache) : namecache := Nc (nc_dvp n) 0 (nc_vp n) 0 (nc_name n).
Lemma clear_chain_ok h c l : forall fuel p n0, ring (chain c) p l (inl h) -> (forall e, e ∈ l -> is_Some (n0 !! e)) -> (length l < fuel)%nat -> NoDup l ->
  exists n', clear_chain fuel (inl h) (first_of l (inl h)) (set_nc n0 c) = Ret (set_nc n' c) /\ (forall x, x ∈ l -> n' !! x = cleared <$> n0 !! x) /\ forall x, x ∉ l -> n' !! x = n0 !! x.
Proof.
  induction l as [|e l IH]; intros fuel p n0 Hr Hn Hf Hd; (destruct fuel as [|fuel]; [cbn in Hf; lia|]); cbn [clear_chain first_of].
  - rewrite decide_True by done. exists n0. split; [done|]. split; [|done]. intros x Hx. by apply elem_of_nil in Hx.
  - rewrite decide_False by done. destruct (Hn e) as (n & En); [apply elem_of_cons; by left|]. cbn [nc set_nc]. rewrite (get_ok _ _ _ En). bind.
    destruct Hr as (_ & _ & Hr). destruct (ring_ends _ _ _ _ Hr) as [F _]. destruct (forw_back_some _ _ _ F) as (b & E & _). cbn [chain set_nc]. rewrite (get_ok _ _ _ E). bind. cbn [fst].
    apply NoDup_cons in Hd as [He Hd]. destruct (IH fuel (inr e) (<[e := cleared n]> n0)) as (n' & E' & H1 & H2); [done| |cbn in Hf; lia|done|].
    + intros x Hx. rewrite lookup_insert_ne by (by intros ->). apply Hn, elem_of_cons. by right.
    + exists n'. split; [exact E'|]. split.
      * intros x [->|Hx]%elem_of_cons; [rewrite H2 by done; by rewrite lookup_insert_eq, En|rewrite H1 by done; rewrite lookup_insert_ne; [done|by intros ->]].
      * intros x [Hx1 Hx2]%not_elem_of_cons. rewrite H2 by done. by rewrite lookup_insert_ne.
Qed.
Lemma cleared_cleared (o : option namecache) : cleared <$> (cleared <$> o) = cleared <$> o. Proof. by destruct o. Qed.
Lemma clear_chains_ok c L ch : inv c L ch -> forall n n0, Z.of_nat n <= nchash c + 1 -> (forall x, n0 !! x = nc c !! x \/ n0 !! x = cleared <$> nc c !! x) ->
  exists n', clear_chains n (set_nc n0 c) = Ret (set_nc n' c) /\ (forall x, n' !! x = nc c !! x \/ n' !! x = cleared <$> nc c !! x) /\
    (forall x, n0 !! x = cleared <$> nc c !! x -> n' !! x = cleared <$> nc c !! x) /\
    forall h x, 0 <= h < Z.of_nat n -> x ∈ ch h -> n' !! x = cleared <$> nc c !! x.
Proof.
  intros H n. induction n as [|n IH]; intros n0 Hle H0; cbn [clear_chains].
  - exists n0. split; [done|]. split; [done|]. split; [done|]. lia.
  - set (h := Z.of_nat n) in *. assert (Hh : 0 <= h <= nchash c) by lia. destruct H as [H1 H2 H3 H4 H5] eqn:EH. pose proof (ca_ring _ _ _ _ H4 h Hh) as Hr.
    destruct (ring_ends _ _ _ _ Hr) as [F _]. destruct (forw_back_some _ _ _ F) as (b & E & _). cbn [chain set_nc]. rewrite (get_ok _ _ _ E). bind. cbn [fst].
    destruct (clear_chain_ok h c (ch h) (S (Z.to_nat (numcache c))) (inl h) n0 Hr) as (n1 & E1 & K1 & K2).
    + intros e He. destruct (m_nc _ H5 e (ca_in _ _ _ _ H4 h e Hh He)) as (m & Em). destruct (H0 e) as [->| ->]; rewrite Em; by eexists.
    + apply Nat.lt_succ_r, nodup_range; [by apply (ca_nodup _ _ _ _ H4)|]. intros e He. by apply (ca_in _ _ _ _ H4 h).
    + by apply (ca_nodup _ _ _ _ H4).
    + cbn [numcache set_nc]. rewrite E1. bind.
      assert (Hc : forall x, n0 !! x = cleared <$> nc c !! x -> n1 !! x = cleared <$> nc c !! x).
      { intros x Ex. destruct (decide (x ∈ ch h)) as [Hx|Hx]; [by rewrite K1, Ex, cleared_cleared|by rewrite K2]. }
      assert (Hin : forall x, x ∈ ch h -> n1 !! x = cleared <$> nc c !! x).
      { intros x Hx. rewrite K1 by done. destruct (H0 x) as [->| ->]; [done|by rewrite cleared_cleared]. }
      destruct (IH n1) as (n' & -> & I1 & I2 & I3); [lia| |].
      * intros x. destruct (decide (x ∈ ch h)) as [Hx|Hx]; [right; by apply Hin|rewrite K2 by done; apply H0].
      * exists n'. split; [done|]. split; [done|]. split; [intros x Hx; by apply I2, Hc|]. intros h' x Hh' Hx. destruct (Z.eq_dec h' h) as [->|]; [by apply I2, Hin|apply (I3 h'); [lia|done]].
Qed.

Lemma new_id_ok vp c v : vnodes c !! vp = Some v -> new_id vp c = Ret (set_ids (<[vp := Vn (u32 (nextvnodeid c + 1)) (v_mount v)]> (vnodes c)) (u32 (nextvnodeid c + 1)) c).
Proof. intros E. unfold new_id. by rewrite (get_ok _ _ _ E). Qed.
Lemma cache_purge_ok vp c L ch v : inv c L ch -> vnodes c !! vp = Some v -> 0 <= nextvnodeid c < 2^32 ->
  exists c', cache_purge vp c = Ret c' /\ inv c' L ch /\ nchash c' = nchash c /\ numcache c' = numcache c /\ stats c' = stats c /\
    vnodes c' = <[vp := Vn (nextvnodeid c') (v_mount v)]> (vnodes c) /\
    (nextvnodeid c < 2^32 - 1 -> nextvnodeid c' = nextvnodeid c + 1 /\ nc c' = nc c) /\
    (nextvnodeid c = 2^32 - 1 -> nextvnodeid c' = 1 /\ (forall x, nc c' !! x = nc c !! x \/ nc c' !! x = cleared <$> nc c !! x) /\
      forall h x, 0 <= h <= nchash c -> x ∈ ch h -> nc c' !! x = cleared <$> nc c !! x).
Proof.
  intros H Ev Hr. unfold cache_purge. rewrite (new_id_ok _ _ _ Ev). bind. cbn [nextvnodeid set_ids].
  destruct (Z.eq_dec (nextvnodeid c) (2^32 - 1)) as [E|E].
  - rewrite E. change (u32 (2^32 - 1 + 1)) with 0. cbn [Z.eqb negb]. set (c1 := set_ids (<[vp := Vn 0 (v_mount v)]> (vnodes c)) 0 c).
    pose proof (inv_new_id c L ch vp v 0 H Ev) as H1. fold c1 in H1.
    destruct (clear_chains_ok c1 L ch H1 (Z.to_nat (nchash c + 1)) (nc c)) as (n' & E' & K1 & _ & K2); [pose proof (m_hash _ (i_mem _ _ _ H)); cbn; lia|by left|].
    change (set_nc (nc c) c1) with c1 in E'. change (nchash c1) with (nchash c). rewrite E'. bind. 
    rewrite (new_id_ok vp (set_nc n' c1) (Vn 0 (v_mount v))) by (cbn; by rewrite lookup_insert_eq). cbn [nextvnodeid set_nc set_ids c1]. change (u32 (0 + 1)) with 1. cbn [v_mount]. eexists. split; [reflexivity|]. split.
    + apply (inv_new_id (set_nc n' c1) L ch vp (Vn 0 (v_mount v))); [|by cbn; rewrite lookup_insert_eq]. apply inv_entries; [done| |]; intros e.
      * intros m Em. destruct (K1 e) as [Ke|Ke]; rewrite Ke in Em; [exists m; by auto|]. cbn in Em. destruct (nc c !! e) as [m0|] eqn:E0; [|done]. injection Em as <-. exists m0. by auto.
      * intros [m Em]. destruct (K1 e) as [->| ->]; [by eexists|]. rewrite Em. by eexists.
    + cbn. do 3 (split; [done|]). split; [by rewrite insert_insert_eq|]. split; [lia|]. intros _. split; [done|]. split; [done|]. intros h x Hh Hx. apply (K2 h); [lia|done].
  - assert (Eu : u32 (nextvnodeid c + 1) = nextvnodeid c + 1) by (apply u32_small; lia). rewrite Eu, (proj2 (Z.eqb_neq _ _)) by lia. cbn [negb]. eexists. split; [reflexivity|].
    split; [by apply inv_new_id|]. cbn. do 4 (split; [done|]). split; [done|lia].
Qed.

(** ** cache_purgevfs *)
Definition mine (mp : Z) (c : cache) (e : Z) : bool :=
  match nc c !! e with
  | Some n => match nc_dvp n with Some d => match vnodes c !! d with Some v => v_mount v =? mp | None => false end | None => false end
  | None => false
  end.
Definition forgotten (n : namecache) : namecache := Nc None (nc_dvpid n) None (nc_vpid n) (nc_name n).
(** What a finished walk has done to the entries and the chains. *)
Definition purged (mp : Z) (c : cache) (ch : Z -> list Z) (c' : cache) : Prop :=
  (exists L', inv c' L' (fun h => filter (fun e => mine mp c e = false) (ch h))) /\
  (forall e, on c e -> nc c' !! e = if mine mp c e then forgotten <$> nc c !! e else nc c !! e) /\
  nchash c' = nchash c /\ numcache c' = numcache c /\ vnodes c' = vnodes c /\ nextvnodeid c' = nextvnodeid c /\ stats c' = stats c.

Lemma chains_ext k mask (A : Z -> Prop) ch ch' : (forall h, 0 <= h <= mask -> ch' h = ch h) -> chains_at k mask A ch -> chains_at k mask A ch'.
Proof.
  intros He [C1 C2 C3 C4 C5]. split.
  - intros h Hh. rewrite He by done. by apply C1.
  - intros h Hh. rewrite He by done. by apply C2.
  - intros h h' e Hh Hh'. rewrite !He by done. by apply C3.
  - intros h e Hh. rewrite He by done. by apply C4.
  - intros e HA Hn. apply C5; [done|]. intros h Hh. rewrite <-He by done. by apply Hn.
Qed.
Lemma inv_ext c L ch ch' : (forall h, 0 <= h <= nchash c -> ch' h = ch h) -> inv c L ch -> inv c L ch'.
Proof. intros He [H1 H2 H3 H4 H5]. split; try done. by apply (chains_ext _ _ _ ch). Qed.

(** Taking one entry of the mount, which is not the only entry there is. *)
Definition take (e : Z) (n : namecache) (c : cache) : outcome cache :=
  k ← remque (inr e) (chain (set_nc (<[e := forgotten n]> (nc c)) c));
  k ← dummy_chain e k;
  lru_remove e (set_chain k (set_nc (<[e := forgotten n]> (nc c)) c)).
Lemma take_ok e n c L ch : inv c L ch -> on c e -> nc c !! e = Some n ->
  exists c1, take e n c = Ret c1 /\ word c1 !! None = Some (head (without e L)) /\
  ((L = [e] /\ lru_push e c1 = Fault) \/
   (L <> [e] /\ exists c2, lru_push e c1 = Ret c2 /\ inv c2 (e :: without e L) (fun h => without e (ch h)) /\
      nc c2 = <[e := forgotten n]> (nc c) /\ nchash c2 = nchash c /\ numcache c2 = numcache c /\ vnodes c2 = vnodes c /\ nextvnodeid c2 = nextvnodeid c /\ stats c2 = stats c)).
Proof.
  intros H Hon En.
  assert (H' : inv (set_nc (<[e := forgotten n]> (nc c)) c) L ch).
  { apply inv_entries; [done| |]; intros x.
    - intros n'. destruct (Z.eq_dec x e) as [->|]; [rewrite lookup_insert_eq; intros [= <-]; exists n; by auto|rewrite lookup_insert_ne by done; intros E; exists n'; by auto].
    - destruct (Z.eq_dec x e) as [->|]; [rewrite lookup_insert_eq; by eexists|by rewrite lookup_insert_ne]. }
  clear H. set (c0 := set_nc (<[e := forgotten n]> (nc c)) c) in *. destruct H' as [H1 H2 H3 H4 H5]. pose proof (proj2 (H3 e) Hon) as Hin. unfold take. fold c0.
  destruct (nch_remque_ok _ _ _ _ e H4 Hon) as (k & -> & C2 & S2). bind.
  destruct (dummy_ok k (nchash c0) (on c0) _ e C2) as (k2 & -> & C3 & S3); [by apply S2, H5|]. bind.
  destruct (lru_remove_ok e L (set_chain k2 c0) H1 H2 Hin) as (m1 & m2 & w & pv & t & Em & -> & L1 & W1 & P1). rewrite <-(without_split _ _ _ _ H2 Em) in L1.
  eexists. split; [reflexivity|]. split; [destruct L1 as (P & Q & _); cbn [word set_lru]; destruct (without e L); [done|by destruct P]|].
  destruct (lru_push_ok e (without e L) (set_lru w pv t (set_chain k2 c0))) as [[Ew ->]|(Hne & w2 & pv2 & t2 & -> & L2 & W2 & P2)];
    [done|by apply without_nodup|apply without_self|by apply W1, H5|by apply P1, H5| |].
  - left. split; [|done]. rewrite (without_split _ _ _ _ H2 Em) in Ew. apply app_eq_nil in Ew as [-> ->]. done.
  - right. split; [intros ->; apply Hne; unfold without; rewrite filter_cons_False by tauto; done|]. eexists. split; [reflexivity|]. split; [|done].
    split; cbn -[without]; [done| | |done|].
    + apply NoDup_cons. split; [apply without_self|by apply without_nodup].
    + intros y. rewrite elem_of_cons, without_in. destruct (Z.eq_dec y e) as [->|]; [|rewrite H3]; unfold on in *; cbn; tauto.
    + apply (mem_links c0 w2 pv2 t2 k2 H5); [intros y; by rewrite W2|intros y; by rewrite P2|]. intros y. by rewrite S3.
Qed.

(** One turn of the loop. *)
Lemma purge_turn fuel mp c L ch l1 e l2 : inv c L ch -> L = l1 ++ e :: l2 ->
  (mine mp c e = false /\ purge_loop (S fuel) mp (Some e) c = purge_loop fuel mp (head l2) c) \/
  (mine mp c e = true /\ exists n, nc c !! e = Some n /\ purge_loop (S fuel) mp (Some e) c = (c1 ← take e n c; x ← get (word c1) None; c2 ← lru_push e c1; purge_loop fuel mp x c2)).
Proof.
  intros [H1 H2 H3 H4 H5] ->. destruct H1 as (P1 & P2 & P3). apply words_app in P1 as [_ (P4 & P5 & P6)]. rewrite end_app in P2.
  assert (Hon : on c e) by (apply H3, elem_of_app; right; apply elem_of_cons; by left).
  assert (Ew : word c !! Some e = Some (head l2)) by (destruct l2 as [|x l2]; cbn in *; [done|by destruct P6]).
  destruct (m_nc _ H5 e Hon) as (n & En). destruct (m_vnodes _ H5 e n En) as [Hk _]. cbn [purge_loop]. rewrite (get_ok _ _ _ Ew). bind. rewrite (get_ok _ _ _ En). bind. unfold mine. rewrite En.
  assert (Hm : exists b, (match nc_dvp n with Some d => v ← get (vnodes c) d; Ret (v_mount v =? mp) | None => Ret false end) = Ret b /\
    (match nc_dvp n with Some d => match vnodes c !! d with Some v => v_mount v =? mp | None => false end | None => false end) = b).
  { destruct (nc_dvp n) as [d|]; [|by eexists]. destruct (Hk d eq_refl) as (v & Ev). rewrite (get_ok _ _ _ Ev), Ev. bind. by eexists. }
  destruct Hm as (b & -> & ->). bind. destruct b; cbn [negb]; [right|by left]. split; [done|]. exists n. split; [done|]. unfold take. fold (forgotten n).
  destruct (remque _ _) as [k| |]; [|done..]. cbn. destruct (dummy_chain e k) as [k2| |]; [|done..]. cbn. by destruct (lru_remove _ _).
Qed.

Lemma nch_filter_all {A} (P : A -> Prop) `{forall x, Decision (P x)} (l : list A) : (forall x, x ∈ l -> P x) -> filter P l = l.
Proof.
  induction l as [|x l IH]; intros Hl; [done|]. rewrite filter_cons_True by (apply Hl, elem_of_cons; by left). rewrite IH; [done|]. intros y Hy. apply Hl, elem_of_cons. by right.
Qed.
Lemma purged_none mp c L ch : inv c L ch -> (forall e, e ∈ L -> mine mp c e = false) -> purged mp c ch c.
Proof.
  intros H Hm. split; [exists L|split; [|done]].
  - apply (inv_ext c L ch); [|done]. intros h Hh. apply nch_filter_all. intros e He. by apply Hm, (i_all _ _ _ H), (ca_in _ _ _ _ (i_chains _ _ _ H) h).
  - intros e He. by rewrite Hm by by apply (i_all _ _ _ H).
Qed.
Lemma mine_taken mp c c2 e n x : nc c2 = <[e := forgotten n]> (nc c) -> vnodes c2 = vnodes c -> mine mp c2 x = if decide (x = e) then false else mine mp c x.
Proof.
  intros En Ev. unfold mine. rewrite En, Ev. destruct (decide (x = e)) as [->|]; [by rewrite lookup_insert_eq|by rewrite lookup_insert_ne].
Qed.
Lemma purged_taken mp c c2 c' e n ch : mine mp c e = true -> nc c !! e = Some n -> nc c2 = <[e := forgotten n]> (nc c) -> vnodes c2 = vnodes c -> nchash c2 = nchash c ->
  numcache c2 = numcache c -> nextvnodeid c2 = nextvnodeid c -> stats c2 = stats c -> purged mp c2 (fun h => without e (ch h)) c' -> purged mp c ch c'.
Proof.
  intros Hm En En2 Ev Eh Enum Ei Es ((L' & HL) & Hn & P1 & P2 & P3 & P4 & P5). pose proof (fun x => mine_taken mp c c2 e n x En2 Ev) as Hx. split; [exists L'|split; [|split; [congruence|]; split; [congruence|]; split; [congruence|]; split; congruence]].
  - apply (inv_ext _ _ _ _ (fun h _ => eq_refl)) in HL. eapply inv_ext; [|exact HL]. intros h _. cbn. unfold without. rewrite list_filter_filter. apply list_filter_iff. intros x. rewrite Hx.
    destruct (decide (x = e)) as [->|]; [rewrite Hm; split; [done|tauto]|tauto].
  - intros x Hon. rewrite Hn by (unfold on in *; by rewrite Enum). rewrite Hx, En2. destruct (decide (x = e)) as [->|]; [by rewrite Hm, lookup_insert_eq, En|by rewrite lookup_insert_ne].
Qed.

Definition count (mp : Z) (c : cache) (l : list Z) : nat := length (filter (fun e => mine mp c e = true) l).
Lemma count_none mp c l : (forall e, e ∈ l -> mine mp c e = false) -> count mp c l = 0%nat.
Proof.
  intros H. unfold count. induction l as [|e l IH]; [done|]. rewrite filter_cons_False by (rewrite H by (apply elem_of_cons; by left); done). apply IH. intros x Hx. apply H, elem_of_cons. by right.
Qed.
Lemma count_taken mp c c2 e n l1 l2 : nc c2 = <[e := forgotten n]> (nc c) -> vnodes c2 = vnodes c -> e ∉ l1 -> e ∉ l2 -> (forall x, x ∈ l1 -> mine mp c x = false) -> count mp c2 (l1 ++ l2) = count mp c l2.
Proof.
  intros En Ev H1 H2 Hm. pose proof (fun x => mine_taken mp c c2 e n x En Ev) as Hx. unfold count. rewrite filter_app, length_app. fold (count mp c2 l1). rewrite count_none; cbn.
  - f_equal. clear H1 Hm. induction l2 as [|x l2 IH]; [done|]. apply not_elem_of_cons in H2 as [Hne H2]. rewrite !filter_cons, Hx. destruct (decide (x = e)) as [->|]; [done|].
    destruct (decide (mine mp c x = true)); by rewrite IH.
  - intros x Hin. rewrite Hx. destruct (decide (x = e)); [done|by apply Hm].
Qed.

Lemma purge_loop_ok mp : forall fuel c L ch l1 l2, inv c L ch -> L = l1 ++ l2 -> (forall e, e ∈ l1 -> mine mp c e = false) -> length L <> 1%nat ->
  (count mp c l2 * S (length L) + length l2 < fuel)%nat -> exists c', purge_loop fuel mp (head l2) c = Ret c' /\ purged mp c ch c'.
Proof.
  induction fuel as [|fuel IH]; intros c L ch l1 l2 H EL Hm Hlen Hf; [lia|]. destruct l2 as [|e l2].
  - exists c. split; [done|]. rewrite app_nil_r in EL. subst l1. by apply (purged_none mp c L ch).
  - cbn [head]. destruct (purge_turn fuel mp c L ch l1 e l2 H EL) as [(E & ->)|(E & n & En & ->)].
    + apply (IH c L ch (l1 ++ [e]) l2 H); [by rewrite <-app_assoc| |done|].
      * intros x [Hx| ->%list_elem_of_singleton]%elem_of_app; [by apply Hm|done].
      * unfold count in *. rewrite filter_cons_False in Hf by (by rewrite E). cbn [length] in Hf. lia.
    + assert (Hon : on c e) by (apply (i_all _ _ _ H); rewrite EL; apply elem_of_app; right; apply elem_of_cons; by left).
      pose proof (i_nodup _ _ _ H) as Hd. pose proof (without_split e L l1 l2 Hd EL) as Ew. rewrite EL in Hd. apply NoDup_app in Hd as (_ & D1 & D2). apply NoDup_cons in D2 as [D2 _].
      assert (D3 : e ∉ l1) by (intros Hx; apply (D1 e Hx), elem_of_cons; by left).
      destruct (take_ok e n c L ch H Hon En) as (c1 & -> & Eh & [[-> _]|(_ & c2 & Ep & Hi & N1 & N2 & N3 & N4 & N5 & N6)]); [done|]. bind. rewrite (get_ok _ _ _ Eh). bind. rewrite Ep. bind.
      destruct (IH c2 (e :: without e L) (fun h => without e (ch h)) [e] (without e L) Hi) as (c' & -> & Hp); [done| | | |exists c'; split; [done|by apply (purged_taken mp c c2 c' e n ch)]].
      * intros x ->%list_elem_of_singleton. rewrite (mine_taken mp c c2 e n e N1 N4). by rewrite decide_True.
      * rewrite Ew. cbn [length]. rewrite length_app. rewrite EL, length_app in Hlen. cbn [length] in Hlen. lia.
      * rewrite Ew, (count_taken mp c c2 e n l1 l2 N1 N4 D3 D2 Hm). cbn [length]. unfold count in *. rewrite filter_cons_True in Hf by done. rewrite EL in Hf. rewrite !length_app in *. cbn [length] in *. nia.
Qed.

Lemma all_length c L ch : inv c L ch -> length L = Z.to_nat (numcache c).
Proof.
  intros H. rewrite <-(length_seqZ 0 (numcache c)). apply Permutation_length, NoDup_Permutation; [by apply (i_nodup _ _ _ H)|by apply NoDup_seqZ|].
  intros e. rewrite (i_all _ _ _ H), elem_of_seqZ. unfold on. lia.
Qed.
Lemma cache_purgevfs_ok mp c L ch : inv c L ch ->
  (exists e, L = [e] /\ mine mp c e = true /\ cache_purgevfs mp c = Fault) \/
  ((forall e, L = [e] -> mine mp c e = false) /\ exists c', cache_purgevfs mp c = Ret c' /\ purged mp c ch c').
Proof.
  intros H. pose proof (i_lru _ _ _ H) as (P & Q & _). assert (Eh : word c !! None = Some (head L)) by (destruct L as [|e L]; [done|by destruct P]).
  unfold cache_purgevfs. rewrite (get_ok _ _ _ Eh). bind. pose proof (all_length c L ch H) as Hlen. pose proof (m_num _ (i_mem _ _ _ H)) as Hnum.
  set (fuel := Z.to_nat ((numcache c + 1) * (numcache c + 1))). assert (Hf : (length L * S (length L) + length L < fuel)%nat) by (unfold fuel; rewrite Hlen; nia).
  destruct (decide (length L = 1%nat)) as [H1|H1].
  - destruct L as [|e [|? ?]]; try done. cbn [head]. destruct fuel as [|fuel']; [cbn in Hf; lia|]. destruct (purge_turn fuel' mp c [e] ch [] e [] H eq_refl) as [(E & ->)|(E & n & En & ->)].
    + right. split; [by intros ? [= <-]|]. exists c. split; [cbn in Hf; destruct fuel'; [lia|done]|]. apply (purged_none mp c [e] ch); [done|]. by intros ? ->%list_elem_of_singleton.
    + left. exists e. split; [done|]. split; [done|]. assert (Hon : on c e) by (apply (i_all _ _ _ H), elem_of_cons; by left).
      destruct (take_ok e n c [e] ch H Hon En) as (c1 & -> & Eh1 & [[_ Ep]|[? _]]); [|done]. bind. rewrite (get_ok _ _ _ Eh1). bind. by rewrite Ep.
  - right. split; [by intros e ->|]. apply (purge_loop_ok mp fuel c L ch [] L H); [done|intros e He; by apply elem_of_nil in He|done|].
    assert (count mp c L <= length L)%nat by apply length_filter. nia.
Qed.

(** ** nchinit *)
Lemma hash_size_ok n : 1 <= n < 2^28 -> forall fuel k, 0 <= k -> 2^k <= 2 * n -> (Z.to_nat (29 - k) < fuel)%nat ->
  exists k', hash_size fuel (2^k) n = Ret (2^k') /\ 0 <= k' /\ n < 2^k' <= 2 * n.
Proof.
  intros Hn fuel. induction fuel as [|fuel IH]; intros k Hk Hle Hf; [lia|]. cbn [hash_size]. destruct (Z.leb_spec (2^k) n) as [E|E]; [|by exists k].
  assert (Hk28 : k < 28) by (apply (Z.pow_lt_mono_r_iff 2); lia). rewrite Z.shiftl_mul_pow2, Z.pow_1_r by lia.
  assert (E2 : 2 ^ (k + 1) = 2 ^ k * 2) by (rewrite Z.pow_add_r; lia). rewrite u32_small by (change 4294967296 with (2^28 * 16); lia). rewrite <-E2.
  apply IH; [lia|lia|]. apply Nat.succ_lt_mono. eapply Nat.le_lt_trans; [|exact Hf]. lia.
Qed.
Definition table_size (desiredvnodes : Z) : Z := (u32 ((desiredvnodes + 1) * 8) / 2 + (1024 - 1)) / 1024 * 1024 / 8.
Lemma nchinit_ok desiredvnodes v ids : 0 <= desiredvnodes < 2^28 ->
  exists c k, nchinit desiredvnodes v ids = Ret c /\ inv c [] (fun _ => []) /\ numcache c = 0 /\ vnodes c = v /\ nextvnodeid c = ids /\
    0 <= k /\ nchash c + 1 = 2^k /\ nchash c + 1 <= table_size desiredvnodes < 2 * (nchash c + 1).
Proof.
  intros Hd. unfold nchinit. fold (table_size desiredvnodes). set (n := table_size desiredvnodes).
  assert (Hn : 1 <= n < 2^28).
  { unfold n, table_size. rewrite u32_small by lia. replace ((desiredvnodes + 1) * 8 / 2) with ((desiredvnodes + 1) * 4) by (replace ((desiredvnodes + 1) * 8) with ((desiredvnodes + 1) * 4 * 2) by lia; by rewrite Z.div_mul).
    set (q := ((desiredvnodes + 1) * 4 + (1024 - 1)) / 1024). replace (q * 1024 / 8) with (q * 128) by (replace (q * 1024) with (q * 128 * 8) by lia; by rewrite Z.div_mul).
    assert (1 <= q <= 2^20 + 1); [|lia]. unfold q. split; [apply Z.div_le_lower_bound; lia|apply Z.div_le_upper_bound; lia]. }
  destruct (hash_size_ok n Hn 32 0) as (k & E & Hk & Hr); [lia|cbn; lia|cbn; lia|]. change (2^0) with 1 in E. rewrite E. bind.
  assert (Hk1 : 1 <= k) by (destruct (Z.eq_dec k 0) as [->|]; [cbn in Hr; lia|lia]). rewrite Z.shiftr_div_pow2, Z.pow_1_r by lia.
  assert (E2 : 2^k = 2^(k - 1) * 2) by (replace k with (Z.succ (k - 1)) at 1 by lia; rewrite Z.pow_succ_r by lia; lia).
  assert (Eq : 2^k / 2 = 2^(k - 1)) by (rewrite E2; by rewrite Z.div_mul). rewrite Eq. eexists _, (k - 1). split; [reflexivity|].
  assert (Hpos : 0 < 2^(k - 1)) by (apply Z.pow_pos_nonneg; lia). split; [|cbn [numcache vnodes nextvnodeid nchash]; repeat (split; [done || lia|]); lia].
  split; cbn [word nc_prev nchtail chain nchash].
  - split; [done|]. by split.
  - apply NoDup_nil_2.
  - intros e. unfold on. cbn [numcache]. rewrite elem_of_nil. lia.
  - split; try (by intros; exfalso; eapply not_elem_of_nil; eauto).
    + intros h Hh. set (m := list_to_map _). assert (Em : m !! inl h = Some (inl h, inl h)).
      { apply elem_of_list_to_map_1.
        - rewrite <-list_fmap_compose. apply NoDup_fmap_2_strong; [by intros ? ? _ _ [= ->]|apply NoDup_seqZ].
        - apply list_elem_of_fmap. exists h. split; [done|]. apply elem_of_seqZ. lia. }
      cbn. unfold forw, back. by rewrite Em.
    + intros h Hh. apply NoDup_nil_2.
    + intros e He. unfold on in He. cbn in He. lia.
  - split; cbn [nchash numcache]; try (intros e He; unfold on in He; cbn in He; lia); [lia|lia|]. intros e n' En. cbn in En. by rewrite lookup_empty in En.
Qed.

(** ** What a lookup finds after a name was entered *)
Lemma judge_found ndp id c l e st vp f : judge ndp id c l = Found e st vp f ->
  List.find (matches ndp id c) l = Some e /\ ni_makeentry ndp = true /\ exists n, nc c !! e = Some n /\ nc_vp n = vp /\
  match vp with None => st = ENOENT | Some v => st = -1 /\ exists x, vnodes c !! v = Some x /\ nc_vpid n = v_id x end.
Proof.
  unfold judge. destruct (List.find _ _) as [e'|]; [|done]. destruct (ni_makeentry ndp); [|done]. cbn [negb]. destruct (nc c !! e') as [n|] eqn:En; [|done].
  destruct (nc_vp n) as [v|] eqn:Ev; [|intros [= <- <- <- _]; split; [done|]; split; [done|]; by exists n].
  destruct (vnodes c !! v) as [x|] eqn:Ex; [|done]. destruct (Z.eqb_spec (nc_vpid n) (v_id x)) as [Ei|]; [|done]. intros [= <- <- <- _].
  split; [done|]. split; [done|]. exists n. split; [done|]. split; [done|]. split; [done|]. by exists x.
Qed.
Lemma is_name_true ndp id n : is_name ndp id n = true <-> nc_dvp n = Some (ni_dvp ndp) /\ nc_dvpid n = id /\ nc_name n = ni_name ndp.
Proof.
  unfold is_name. rewrite !andb_true_iff, !bool_decide_eq_true, !Z.eqb_eq. split; [tauto|]. intros (H1 & H2 & H3). rewrite H3. tauto.
Qed.
(** Hits, from the run of cache_lookup. *)
Lemma lookup_hit ndp c L ch m c' vp : inv c L ch -> cache_lookup true ndp c = Ret (-1, Some vp, m, c') ->
  exists d x e n, vnodes c !! ni_dvp ndp = Some d /\ vnodes c !! vp = Some x /\ on c e /\ nc c !! e = Some n /\
    nc_dvp n = Some (ni_dvp ndp) /\ nc_dvpid n = v_id d /\ nc_name n = ni_name ndp /\ nc_vp n = Some vp /\ nc_vpid n = v_id x.
Proof.
  intros H E. assert (Hlen : Z.of_nat (length (ni_name ndp)) <= NCHNAMLEN).
  { unfold cache_lookup in E. cbn [negb] in E. rewrite Z.gtb_ltb in E. destruct (Z.ltb_spec NCHNAMLEN (Z.of_nat (length (ni_name ndp)))); [done|lia]. }
  destruct (vnodes c !! ni_dvp ndp) as [d|] eqn:Ed.
  - pose proof (cache_lookup_ok ndp c L ch d H Ed Hlen) as Hok. destruct (judge _ _ _ _) as [|e f|e st o f] eqn:Ej.
    + rewrite Hok in E. by injection E.
    + destruct Hok as [[_ Hok]|(_ & c2 & Hok & _)]; rewrite Hok in E; [done|by injection E].
    + destruct Hok as (c2 & Hok & _). rewrite Hok in E. injection E as -> -> _ _. destruct (judge_found _ _ _ _ _ _ _ _ Ej) as (Ef & _ & n & En & Ev & _ & x & Ex & Ei).
      destruct (find_on _ _ _ _ _ _ H Ef) as (Hon & n' & En' & Hn). rewrite En in En'. injection En' as <-. apply is_name_true in Hn as (N1 & N2 & N3). exists d, x, e, n. done.
  - unfold cache_lookup in E. cbn [negb] in E. rewrite Z.gtb_ltb, (proj2 (Z.ltb_ge _ _)) in E by lia. by rewrite (get_none _ _ Ed) in E.
Qed.

(** ** Histories *)
Inductive op : Type := Lookup (ndp : nameidata) | Enter (ndp : nameidata) (vp : option Z) | Purge (vp : Z) | PurgeVfs (mp : Z).
Definition step (desiredvnodes : Z) (o : op) (c : cache) : outcome cache :=
  match o with
  | Lookup ndp => r ← cache_lookup true ndp c; Ret r.2
  | Enter ndp vp => cache_enter true desiredvnodes ndp vp c
  | Purge vp => cache_purge vp c
  | PurgeVfs mp => cache_purgevfs mp c
  end.
Fixpoint run (desiredvnodes : Z) (ops : list op) (c : cache) : outcome cache :=
  match ops with [] => Ret c | o :: ops => c ← step desiredvnodes o c; run desiredvnodes ops c end.
Definition is_purge (o : op) : Z := match o with Purge _ => 1 | _ => 0 end.
Fixpoint purges (ops : list op) : Z := match ops with [] => 0 | o :: ops => is_purge o + purges ops end.
Definition mount (c : cache) (d : Z) : option Z := v_mount <$> vnodes c !! d.
(** What takes away the name of [v] in [d]. *)
Definition disturbs (c : cache) (d v : Z) (o : op) : Prop :=
  match o with Purge x => x = d \/ x = v | PurgeVfs mp => mount c d = Some mp | _ => False end.
(** The entries that a lookup may answer from were entered and not disturbed since. *)
Definition id_of (c : cache) (v : Z) : option Z := v_id <$> vnodes c !! v.
Definition sound (ops : list op) (c : cache) : Prop :=
  forall e n d v, on c e -> nc c !! e = Some n -> nc_dvp n = Some d -> nc_vp n = Some v -> id_of c d = Some (nc_dvpid n) -> id_of c v = Some (nc_vpid n) ->
  exists a ndp b, ops = a ++ Enter ndp (Some v) :: b /\ ni_dvp ndp = d /\ ni_name ndp = nc_name n /\ Forall (fun o => ~ disturbs c d v o) b.
(** No number of a vnode or in an entry is ahead of the counter. *)
Definition ids_ok (c : cache) : Prop :=
  0 <= nextvnodeid c /\ (forall v x, vnodes c !! v = Some x -> v_id x <= nextvnodeid c) /\
  forall e n, on c e -> nc c !! e = Some n -> (nc_dvp n <> None -> nc_dvpid n <= nextvnodeid c) /\ (nc_vp n <> None -> nc_vpid n <= nextvnodeid c).

(** What one operation does to the entries and the numbers. *)
Definition effect (o : op) (c c' : cache) : Prop :=
  match o with
  | Lookup _ => numcache c' = numcache c /\ nc c' = nc c /\ vnodes c' = vnodes c /\ nextvnodeid c' = nextvnodeid c
  | Enter ndp vp =>
      vnodes c' = vnodes c /\ nextvnodeid c' = nextvnodeid c /\ forall e, on c' e ->
      (on c e /\ nc c' !! e = nc c !! e) \/
      exists d vpid, vnodes c !! ni_dvp ndp = Some d /\ nc c' !! e = Some (Nc (Some (ni_dvp ndp)) (v_id d) vp vpid (ni_name ndp)) /\ (forall v, vp = Some v -> id_of c v = Some vpid)
  | Purge vp =>
      numcache c' = numcache c /\ nc c' = nc c /\ nextvnodeid c' = nextvnodeid c + 1 /\
      exists v, vnodes c !! vp = Some v /\ vnodes c' = <[vp := Vn (nextvnodeid c + 1) (v_mount v)]> (vnodes c)
  | PurgeVfs mp =>
      numcache c' = numcache c /\ vnodes c' = vnodes c /\ nextvnodeid c' = nextvnodeid c /\
      forall e, on c e -> nc c' !! e = if mine mp c e then forgotten <$> nc c !! e else nc c !! e
  end.

Lemma lookup_effect ndp c L ch r : inv c L ch -> cache_lookup true ndp c = Ret r -> (exists L' ch', inv r.2 L' ch') /\ effect (Lookup ndp) c r.2.
Proof.
  intros H E. destruct (Z.ltb_spec NCHNAMLEN (Z.of_nat (length (ni_name ndp)))) as [Hl|Hl].
  - unfold cache_lookup in E. cbn [negb] in E. rewrite Z.gtb_ltb, (proj2 (Z.ltb_lt _ _)) in E by lia. injection E as <-. split; [exists L, ch; by apply inv_counting|done].
  - destruct (vnodes c !! ni_dvp ndp) as [d|] eqn:Ed.
    + pose proof (cache_lookup_ok ndp c L ch d H Ed Hl) as Hok. destruct (judge _ _ _ _) as [|e f|e st o f].
      * rewrite Hok in E. injection E as <-. split; [exists L, ch; by apply inv_counting|done].
      * destruct Hok as [[_ Hok]|(_ & c2 & Hok & (S1 & S2 & S3 & S4 & S5 & S6) & Hi)]; rewrite Hok in E; [done|]. injection E as <-. cbn [snd]. split; [by eexists _, _|done].
      * destruct Hok as (c2 & Hok & (S1 & S2 & S3 & S4 & S5 & S6) & Hi). rewrite Hok in E. injection E as <-. cbn [snd]. split; [by eexists _, _|done].
    + unfold cache_lookup in E. cbn [negb] in E. rewrite Z.gtb_ltb, (proj2 (Z.ltb_ge _ _)) in E by lia. by rewrite (get_none _ _ Ed) in E.
Qed.
Lemma enter_known desiredvnodes ndp vp c L ch c' : inv c L ch -> cache_enter true desiredvnodes ndp vp c = Ret c' -> victim desiredvnodes c L <> None ->
  (exists d, vnodes c !! ni_dvp ndp = Some d) /\ known c vp /\ Z.of_nat (length (ni_name ndp)) <= NCHNAMLEN.
Proof.
  intros H E Hv. unfold cache_enter in E. cbn [negb] in E. pose proof (free_slot_ok desiredvnodes c L ch H) as Hf. destruct (victim desiredvnodes c L) as [e|]; [|done].
  destruct Hf as (c1 & Ef & _ & _ & _ & Ev & _). rewrite Ef in E. cbn in E. unfold fill_slot in E. rewrite Ev in E. unfold known.
  destruct vp as [v|]; [destruct (vnodes c !! v) as [x|] eqn:Ex; [rewrite (get_ok _ _ _ Ex) in E|by rewrite (get_none _ _ Ex) in E]|]; cbn in E;
    (destruct (vnodes c !! ni_dvp ndp) as [d|] eqn:Ed; [rewrite (get_ok _ _ _ Ed) in E|by rewrite (get_none _ _ Ed) in E]); cbn in E; rewrite Z.gtb_ltb in E;
    destruct (Z.ltb_spec NCHNAMLEN (Z.of_nat (length (ni_name ndp)))); try done;
    (split; [by eexists|]; split; [|done]); intros ? [= <-]; by eexists.
Qed.
Lemma enter_effect desiredvnodes ndp vp c L ch c' : inv c L ch -> cache_enter true desiredvnodes ndp vp c = Ret c' -> (exists L' ch', inv c' L' ch') /\ effect (Enter ndp vp) c c'.
Proof.
  intros H E. destruct (victim desiredvnodes c L) as [e|] eqn:Ev.
  - destruct (enter_known _ _ _ _ _ _ _ H E) as ((d & Ed) & Hk & Hl); [by rewrite Ev|]. pose proof (cache_enter_ok desiredvnodes ndp vp c L ch d H Ed Hk Hl) as Hok. rewrite Ev in Hok.
    destruct Hok as (c2 & vpid & Hok & Hi & N1 & N2 & N3 & N4 & N5 & N6 & N7 & N8). rewrite Hok in E. injection E as ->. split; [by eexists _, _|]. split; [done|]. split; [done|].
    intros x Hx. destruct (Z.eq_dec x e) as [->|Hne]; [right|left].
    + exists d, vpid. split; [done|]. split; [done|]. intros v ->. destruct (Hk v eq_refl) as (y & Ey). unfold id_of. rewrite Ey. cbn. by rewrite (N2 v y).
    + split; [|by apply N3]. apply (i_all _ _ _ H). apply (i_all _ _ _ Hi) in Hx. apply elem_of_app in Hx as [Hx|Hx]; [by apply without_in in Hx as [? _]|by apply list_elem_of_singleton in Hx].
  - unfold cache_enter in E. cbn [negb] in E. pose proof (free_slot_ok desiredvnodes c L ch H) as Hf. rewrite Ev in Hf. rewrite Hf in E. injection E as <-. split; [by eexists _, _|]. split; [done|]. split; [done|]. by left.
Qed.
Lemma step_effect desiredvnodes o c L ch c' : inv c L ch -> 0 <= nextvnodeid c -> nextvnodeid c + is_purge o < 2^32 -> step desiredvnodes o c = Ret c' ->
  (exists L' ch', inv c' L' ch') /\ effect o c c'.
Proof.
  intros H Hid Hid2 E. destruct o as [ndp|ndp vp|vp|mp]; cbn [step is_purge] in *.
  - destruct (cache_lookup true ndp c) as [r| |] eqn:El; [|done..]. injection E as <-. by apply (lookup_effect ndp c L ch).
  - by apply (enter_effect desiredvnodes ndp vp c L ch).
  - destruct (vnodes c !! vp) as [v|] eqn:Ev; [|unfold cache_purge, new_id in E; by rewrite (get_none _ _ Ev) in E].
    destruct (cache_purge_ok vp c L ch v H Ev) as (c2 & E2 & Hi & P1 & P2 & P3 & P4 & P5 & _); [lia|]. rewrite E2 in E. injection E as ->. split; [by eexists _, _|].
    destruct P5 as [P5 P6]; [lia|]. split; [done|]. split; [done|]. split; [done|]. exists v. split; [done|]. by rewrite P4, P5.
  - destruct (cache_purgevfs_ok mp c L ch H) as [(e & _ & _ & Ef)|(_ & c2 & E2 & (L' & Hi) & P1 & P2 & P3 & P4 & P5 & P6)]; [by rewrite Ef in E|]. rewrite E2 in E. injection E as ->.
    split; [by eexists _, _|done].
Qed.

Lemma mount_effect o c c' d : effect o c c' -> mount c' d = mount c d.
Proof.
  unfold mount. destruct o as [ndp|ndp vp|vp|mp]; cbn [effect].
  - by intros (_ & _ & -> & _).
  - by intros (-> & _).
  - intros (_ & _ & _ & v & Ev & ->). destruct (Z.eq_dec d vp) as [->|]; [by rewrite lookup_insert_eq, Ev|by rewrite lookup_insert_ne].
  - by intros (_ & -> & _).
Qed.
Lemma disturbs_mount c c' d v o : (forall d, mount c' d = mount c d) -> disturbs c' d v o -> disturbs c d v o.
Proof. intros Hm. by destruct o; cbn; rewrite ?Hm. Qed.
(** One operation more. *)
Lemma sound_more ops o c c' d v name : (forall d, mount c' d = mount c d) -> ~ disturbs c d v o ->
  (exists a ndp b, ops = a ++ Enter ndp (Some v) :: b /\ ni_dvp ndp = d /\ ni_name ndp = name /\ Forall (fun o => ~ disturbs c d v o) b) ->
  exists a ndp b, ops ++ [o] = a ++ Enter ndp (Some v) :: b /\ ni_dvp ndp = d /\ ni_name ndp = name /\ Forall (fun o => ~ disturbs c' d v o) b.
Proof.
  intros Hm Ho (a & ndp & b & -> & Hd & Hn & Hb). exists a, ndp, (b ++ [o]). split; [by rewrite <-app_assoc|]. split; [done|]. split; [done|].
  apply Forall_app. split; [|apply Forall_singleton; by intros ?%(disturbs_mount c c')]. eapply Forall_impl; [exact Hb|]. intros x Hx ?%(disturbs_mount c c'); auto.
Qed.

Lemma id_of_inserted c c' vp m id d n : vnodes c' = <[vp := Vn id m]> (vnodes c) -> n < id -> id_of c' d = Some n -> d <> vp /\ id_of c d = Some n.
Proof.
  unfold id_of. intros -> Hn. destruct (Z.eq_dec d vp) as [->|Hne]; [rewrite lookup_insert_eq; intros [= ?]; lia|by rewrite lookup_insert_ne].
Qed.
Lemma step_sound ops o c c' : effect o c c' -> ids_ok c -> sound ops c -> sound (ops ++ [o]) c'.
Proof.
  intros He (I1 & I2 & I3) Hs e n d v Hon En Ed Ev Eid Eiv. pose proof (fun d => mount_effect o c c' d He) as Hm. unfold on in Hon. destruct o as [ndp|ndp vp|vp|mp]; cbn [effect] in He.
  - destruct He as (H1 & H2 & H3 & H4). rewrite H1 in Hon. rewrite H2 in En. unfold id_of in Eid, Eiv. rewrite H3 in Eid, Eiv. apply (sound_more ops _ c); [done|by intros []|]. by apply (Hs e n d v).
  - destruct He as (H1 & H2 & H3). unfold id_of in Eid, Eiv. rewrite H1 in Eid, Eiv. destruct (H3 e Hon) as [[Ho En']|(x & vpid & Ex & En' & Hv)]; rewrite En' in En.
    + apply (sound_more ops _ c); [done|by intros []|]. by apply (Hs e n d v).
    + injection En as <-. cbn in *. injection Ed as <-. subst vp. exists ops, ndp, []. by repeat split.
  - destruct He as (H1 & H2 & H3 & x & Ex & H4). rewrite H1 in Hon. rewrite H2 in En. destruct (I3 e n Hon En) as [J1 J2].
    destruct (fun J => id_of_inserted _ _ _ _ _ _ _ H4 J Eid) as [D1 D2]; [rewrite Ed in J1; specialize (J1 ltac:(done)); lia|].
    destruct (fun J => id_of_inserted _ _ _ _ _ _ _ H4 J Eiv) as [D3 D4]; [rewrite Ev in J2; specialize (J2 ltac:(done)); lia|].
    apply (sound_more ops _ c); [done|by intros [->| ->]|]. by apply (Hs e n d v).
  - destruct He as (H1 & H2 & H3 & H4). rewrite H1 in Hon. rewrite (H4 e Hon) in En. unfold id_of in Eid, Eiv. rewrite H2 in Eid, Eiv. destruct (mine mp c e) eqn:Em.
    + destruct (nc c !! e); [|done]. injection En as <-. done.
    + apply (sound_more ops _ c); [done| |by apply (Hs e n d v)]. cbn. unfold mount. unfold mine in Em. rewrite En, Ed in Em. destruct (vnodes c !! d) as [x|]; [|done]. cbn. intros [= E]. rewrite E, Z.eqb_refl in Em. done.
Qed.
Lemma step_ids o c c' : effect o c c' -> ids_ok c -> ids_ok c'.
Proof.
  intros He (I1 & I2 & I3). unfold ids_ok, on in *. destruct o as [ndp|ndp vp|vp|mp]; cbn [effect] in He.
  - destruct He as (-> & -> & -> & ->). done.
  - destruct He as (H1 & H2 & H3). rewrite H1, H2. split; [done|]. split; [done|]. intros e n Hon En. destruct (H3 e Hon) as [[Ho En']|(x & vpid & Ex & En' & Hv)]; rewrite En' in En; [by apply (I3 e)|].
    injection En as <-. cbn. split; [intros _; by apply (I2 (ni_dvp ndp))|]. intros Hne. destruct vp as [v|]; [|done]. specialize (Hv v eq_refl). unfold id_of in Hv. destruct (vnodes c !! v) as [y|] eqn:Ey; [|done].
    injection Hv as <-. by apply (I2 v).
  - destruct He as (H1 & H2 & H3 & x & Ex & H4). rewrite H1, H2, H3, H4. split; [lia|]. split.
    + intros v y. destruct (Z.eq_dec v vp) as [->|]; [rewrite lookup_insert_eq; intros [= <-]; cbn; lia|rewrite lookup_insert_ne by done; intros Ey; specialize (I2 v y Ey); lia].
    + intros e n Hon En. destruct (I3 e n Hon En) as [J1 J2]. split; intros Hne; [specialize (J1 Hne)|specialize (J2 Hne)]; lia.
  - destruct He as (H1 & H2 & H3 & H4). rewrite H1, H2, H3. split; [done|]. split; [done|]. intros e n Hon En. rewrite (H4 e Hon) in En. destruct (mine mp c e); [|by apply (I3 e)].
    destruct (nc c !! e); [|done]. by injection En as <-.
Qed.
Lemma next_effect o c c' : effect o c c' -> nextvnodeid c' = nextvnodeid c + is_purge o.
Proof. destruct o; cbn; intuition lia. Qed.
Lemma purges_nonneg ops : 0 <= purges ops.
Proof. induction ops as [|[] ops IH]; cbn; lia. Qed.

Lemma run_sound desiredvnodes : forall ops done_ c L ch c', inv c L ch -> ids_ok c -> sound done_ c -> nextvnodeid c + purges ops < 2^32 -> run desiredvnodes ops c = Ret c' ->
  (exists L' ch', inv c' L' ch') /\ sound (done_ ++ ops) c'.
Proof.
  intros ops. induction ops as [|o ops IH]; intros done_ c L ch c' H Hi Hs Hn E; cbn [run purges] in *.
  - injection E as <-. rewrite app_nil_r. split; [by eexists _, _|done].
  - destruct (step desiredvnodes o c) as [c1| |] eqn:Es; [|done..]. cbn in E. pose proof (purges_nonneg ops) as Hp.
    destruct (step_effect desiredvnodes o c L ch c1 H) as ((L1 & ch1 & H1) & He); [apply Hi|lia|done|].
    destruct (IH (done_ ++ [o]) c1 L1 ch1 c' H1) as [J1 J2]; [by apply (step_ids o c)|by apply (step_sound done_ o c)|rewrite (next_effect _ _ _ He); lia|done|].
    split; [done|]. by rewrite <-app_assoc in J2.
Qed.

(** ** The properties *)
(** C12: every answer of the cache is a name that was entered and not taken away.  From
    an empty cache (nchinit) and any sequence of lookups, entries and purges, as long as the
    vnode numbers have not come round, a hit of cache_lookup for a name in directory
    [ni_dvp ndp] on vnode [vp] means that cache_enter was called with that directory, that name
    and [vp], and that since then neither vnode was purged and the mount of the directory was
    not. *)
Theorem hit_sound desiredvnodes v ids ops ndp c c' vp m : 0 <= desiredvnodes < 2^28 -> 0 <= ids -> (forall u x, v !! u = Some x -> v_id x <= ids) -> ids + purges ops < 2^32 ->
  (c0 ← nchinit desiredvnodes v ids; run desiredvnodes ops c0) = Ret c -> cache_lookup true ndp c = Ret (-1, Some vp, m, c') ->
  exists before ndp' after, ops = before ++ Enter ndp' (Some vp) :: after /\ ni_dvp ndp' = ni_dvp ndp /\ ni_name ndp' = ni_name ndp /\
    Forall (fun o => ~ disturbs c (ni_dvp ndp) vp o) after.
Proof.
  intros Hd H0 Hids Hp E El. destruct (nchinit_ok desiredvnodes v ids Hd) as (c0 & k & E0 & H & En & Ev & Ei & _). rewrite E0 in E. cbn in E.
  assert (Hnone : forall e, ~ on c0 e) by (intros e; unfold on; rewrite En; lia).
  destruct (run_sound desiredvnodes ops [] c0 [] (fun _ => []) c H) as [(L & ch & Hc) Hs]; [|by intros e n d u He%Hnone|by rewrite Ei|done|].
  - unfold ids_ok. rewrite Ei, Ev. split; [done|]. split; [done|]. by intros e n He%Hnone.
  - destruct (lookup_hit ndp c L ch m c' vp Hc El) as (d & x & e & n & Ed & Ex & Hon & Enc & N1 & N2 & N3 & N4 & N5).
    destruct (Hs e n (ni_dvp ndp) vp Hon Enc N1 N4) as (a & ndp' & b & F1 & F2 & F3 & F4); [unfold id_of; by rewrite Ed, N2|unfold id_of; by rewrite Ex, N5|]. exists a, ndp', b. by rewrite F3, N3.
Qed.
Definition world : gmap Z vnode := list_to_map [(1, Vn 1 100); (2, Vn 2 100); (3, Vn 3 200)].
Lemma world_ids u x : world !! u = Some x -> v_id x <= 3.
Proof. revert u x. apply (bool_decide_unpack (map_Forall (fun _ x => v_id x <= 3) world)). by vm_compute. Qed.
Definition name_a := Ndp 1 [97] 97 true.
Definition demo_ops : list op := [PurgeVfs 200; Enter name_a (Some 2); Purge 3; Enter (Ndp 3 [98] 98 true) None; PurgeVfs 200].
Definition demo : outcome cache := c0 ← nchinit 3 world 3; run 3 demo_ops c0.
(** The status and the vnode of a lookup in the cache a run has left. *)
Definition look (ndp : nameidata) (o : outcome cache) : outcome (Z * option Z) := c ← o; r ← cache_lookup true ndp c; Ret r.1.1.
Lemma look_ret ndp o st vp : look ndp o = Ret (st, vp) -> exists c m c', o = Ret c /\ cache_lookup true ndp c = Ret (st, vp, m, c').
Proof.
  unfold look. destruct o as [c| |]; [|done..]. bind. destruct (cache_lookup true ndp c) as [[[[st' vp'] m] c']| |] eqn:E; [|done..]. bind.
  cbn [fst]. intros [= -> ->]. by exists c, m, c'.
Qed.
Theorem hit_sound_witness : look name_a demo = Ret (-1, Some 2) /\ exists c m c', demo = Ret c /\ cache_lookup true name_a c = Ret (-1, Some 2, m, c') /\
  exists before ndp' after, demo_ops = before ++ Enter ndp' (Some 2) :: after /\ ni_dvp ndp' = 1 /\ ni_name ndp' = [97] /\ Forall (fun o => ~ disturbs c 1 2 o) after.
Proof.
  assert (E : look name_a demo = Ret (-1, Some 2)) by (vm_compute; reflexivity). split; [exact E|]. destruct (look_ret _ _ _ _ E) as (c & m & c' & E1 & E2).
  exists c, m, c'. split; [exact E1|]. split; [exact E2|]. apply (hit_sound 3 world 3 demo_ops name_a c c' 2 m); [lia|lia|exact world_ids|reflexivity|exact E1|exact E2].
Defined.

(** A cache with two names on one chain: entry 0 is "a" in directory 1, entry 1 the
    absence of "b" in directory 3. *)
Definition small : cache := Cache
  (list_to_map [(0, Nc (Some 1) 1 (Some 2) 2 [97]); (1, Nc (Some 3) 3 None 0 [98])])
  (list_to_map [(None, Some 0); (Some 0, Some 1); (Some 1, None)]) (list_to_map [(0, None); (1, Some 0)]) (Some 1)
  (list_to_map [(inl 0, (inr 1, inr 0)); (inr 1, (inr 0, inl 0)); (inr 0, (inl 0, inr 1))]) 0 2 world 3 (Stats 0 0 0 0 0 0).
Lemma small_inv : inv small [0; 1] (fun _ => [1; 0]).
Proof.
  assert (Hon : forall e, on small e -> e = 0 \/ e = 1) by (intros e He; unfold on in He; cbn in He; lia).
  assert (Hh : forall h, 0 <= h <= nchash small -> h = 0) by (intros h; change (nchash small) with 0; lia). split.
  - vm_compute. tauto.
  - apply (bool_decide_unpack (NoDup [0; 1])). by vm_compute.
  - intros e. rewrite !elem_of_cons, elem_of_nil. unfold on. cbn. lia.
  - split.
    + intros h ->%Hh. vm_compute. tauto.
    + intros h _. apply (bool_decide_unpack (NoDup [1; 0])). by vm_compute.
    + by intros h h' e ->%Hh ->%Hh.
    + intros h e _. rewrite !elem_of_cons, elem_of_nil. unfold on. cbn. lia.
    + intros e He Hn. exfalso. apply (Hn 0); [cbn; lia|]. destruct (Hon e He) as [-> | ->]; rewrite !elem_of_cons; auto.
  - split; try done; try (intros e [->| ->]%Hon; vm_compute; by eexists).
    intros e n En. assert (Hn : e = 0 \/ e = 1) by (unfold small in En; cbn [nc list_to_map foldr fst snd] in En; rewrite !lookup_insert_Some, lookup_empty in En; intuition congruence).
    destruct Hn as [->| ->]; vm_compute in En; injection En as <-; (split; intros v Ev; cbn in Ev; try done; injection Ev as <-; vm_compute; by eexists).
Qed.

(** C13: cache_enter and cache_lookup together.  A name of at most NCHNAMLEN bytes that
    is entered is found by the next lookup of the same name in the same directory that may
    use the cache ([ni_makeentry]), when the cache may grow at all: with the vnode
    and status -1, or with ENOENT when its absence was entered; whether the entry was new or
    taken from the head of the LRU list, and whatever older entries the chain holds. *)
Theorem enter_lookup desiredvnodes ndp vp c L ch d : inv c L ch -> vnodes c !! ni_dvp ndp = Some d -> known c vp -> Z.of_nat (length (ni_name ndp)) <= NCHNAMLEN ->
  ni_makeentry ndp = true -> 0 < desiredvnodes ->
  exists c1 c2, cache_enter true desiredvnodes ndp vp c = Ret c1 /\ cache_lookup true ndp c1 = Ret (match vp with Some _ => -1 | None => ENOENT end, vp, true, c2).
Proof.
  intros H Ed Hk Hl Hm Hd. pose proof (cache_enter_ok desiredvnodes ndp vp c L ch d H Ed Hk Hl) as Hok.
  assert (exists e, victim desiredvnodes c L = Some e) as (e & Ev).
  { unfold victim. destruct (Z.ltb_spec (numcache c) desiredvnodes); [by eexists|]. pose proof (all_length c L ch H). destruct L as [|e L]; [cbn in *; lia|by exists e]. }
  rewrite Ev in Hok. destruct Hok as (c1 & vpid & E1 & Hi & N1 & N2 & N3 & N4 & N5 & N6 & _). exists c1.
  pose proof (cache_lookup_ok ndp c1 _ _ d Hi) as Hlook. rewrite N5 in Hlook. specialize (Hlook Ed Hl).
  assert (Ej : judge ndp (v_id d) c1 (chain_of ndp c1 (onto e (Z.land (ni_hash ndp) (nchash c)) (fun h => without e (ch h)))) =
    Found e (match vp with Some _ => -1 | None => ENOENT end) vp (match vp with Some _ => good | None => neg end)).
  { unfold judge, chain_of, onto. rewrite N4, Z.eqb_refl. cbn [List.find]. unfold matches at 1. rewrite N1. rewrite (proj2 (is_name_true _ _ _)) by done. rewrite Hm, N1. cbn [negb nc_vp nc_vpid].
    destruct vp as [v|]; [|done]. destruct (Hk v eq_refl) as (x & Ex). by rewrite N5, Ex, (N2 v x), Z.eqb_refl. }
  rewrite Ej in Hlook. destruct Hlook as (c2 & E2 & _). exists c2. by rewrite Hm in E2.
Qed.
Definition name_b := Ndp 3 [98] 98 true.
Theorem enter_lookup_witness : exists c1 c2, cache_enter true 2 name_b (Some 1) small = Ret c1 /\ cache_lookup true name_b c1 = Ret (-1, Some 1, true, c2).
Proof.
  apply (enter_lookup 2 name_b (Some 1) small [0; 1] (fun _ => [1; 0]) (Vn 3 200)); [exact small_inv|reflexivity| |vm_compute; discriminate|reflexivity|lia].
  intros v [= <-]. vm_compute. by eexists.
Defined.

(** C14: cache_lookup against the judgement of the first entry of the chain that has the
    name ([judge]): a long name is not looked for and clears [ni_makeentry]; a miss leaves the
    cache; a hit moves the entry to the end of the LRU list and keeps the chains; an entry
    that is stale, or not wanted, leaves its chain and becomes the first to grab.  The one way
    to fail is to drop the only entry of the LRU list: [nchhead] is null by then and the
    code stores through it. *)
Theorem cache_lookup_spec ndp c L ch d : inv c L ch -> vnodes c !! ni_dvp ndp = Some d ->
  (NCHNAMLEN < Z.of_nat (length (ni_name ndp)) -> cache_lookup true ndp c = Ret (0, None, false, counting long c)) /\
  (Z.of_nat (length (ni_name ndp)) <= NCHNAMLEN ->
   match judge ndp (v_id d) c (chain_of ndp c ch) with
   | Missed => cache_lookup true ndp c = Ret (0, None, ni_makeentry ndp, counting miss c)
   | Dropped e f =>
       (L = [e] /\ cache_lookup true ndp c = Fault) \/
       (L <> [e] /\ exists c', cache_lookup true ndp c = Ret (0, None, ni_makeentry ndp, c') /\ same (counting f c) c' /\ inv c' (e :: without e L) (fun h => without e (ch h)))
   | Found e st vp f =>
       exists c', cache_lookup true ndp c = Ret (st, vp, ni_makeentry ndp, c') /\ same (counting f c) c' /\ inv c' (without e L ++ [e]) ch
   end).
Proof.
  intros H Ed. split; [|by apply cache_lookup_ok]. intros Hl. unfold cache_lookup. cbn [negb]. by rewrite Z.gtb_ltb, (proj2 (Z.ltb_lt _ _)).
Qed.
Theorem cache_lookup_spec_witness : exists c', cache_lookup true name_a small = Ret (-1, Some 2, true, c') /\ inv c' [1; 0] (fun _ => [1; 0]).
Proof.
  destruct (cache_lookup_spec name_a small [0; 1] (fun _ => [1; 0]) (Vn 1 100)) as [_ H]; [exact small_inv|reflexivity|].
  destruct H as (c' & E & _ & Hi); [vm_compute; discriminate|]. exists c'. split; [exact E|exact Hi].
Defined.

(** C15: cache_purgevfs ends, although it starts over after every entry it takes, and takes
    all of them: no entry of the cache that has come out of it is in a directory of the mount, the
    entries of other mounts are as they were, the chains have lost the entries
    taken and nothing else.  It fails in the case cache_lookup fails in: the one
    entry there is, in a directory of the mount. *)
Theorem cache_purgevfs_spec mp c L ch : inv c L ch ->
  (exists e, L = [e] /\ mine mp c e = true /\ cache_purgevfs mp c = Fault) \/
  exists c' L', cache_purgevfs mp c = Ret c' /\ inv c' L' (fun h => filter (fun e => mine mp c e = false) (ch h)) /\ Permutation L' L /\
    (forall e, on c e -> mine mp c' e = false) /\ forall e, on c e -> mine mp c e = false -> nc c' !! e = nc c !! e.
Proof.
  intros H. destruct (cache_purgevfs_ok mp c L ch H) as [Hl|(_ & c' & E & (L' & Hi) & Hn & P1 & P2 & P3 & _)]; [by left|right]. exists c', L'. split; [done|]. split; [done|]. split; [|split].
  - apply NoDup_Permutation; [apply Hi|apply H|]. intros e. rewrite (i_all _ _ _ Hi), (i_all _ _ _ H). unfold on. by rewrite P2.
  - intros e He. specialize (Hn e He). destruct (mine mp c e) eqn:Em; unfold mine; rewrite Hn, P3; [by destruct (nc c !! e)|exact Em].
  - intros e He Hm. by rewrite (Hn e He), Hm.
Qed.
Theorem cache_purgevfs_spec_witness : exists c' L', cache_purgevfs 100 small = Ret c' /\ inv c' L' (fun _ => [1]) /\ Permutation L' [0; 1] /\
  (forall e, on small e -> mine 100 c' e = false) /\ forall e, on small e -> mine 100 small e = false -> nc c' !! e = nc small !! e.
Proof.
  destruct (cache_purgevfs_spec 100 small [0; 1] (fun _ => [1; 0]) small_inv) as [(e & E & _)|H]; [discriminate E|exact H].
Defined.

(** The numbers are not renewed when the counter comes round: directory 1 has the number 2 from
    long before, is entered with it, and is given the same number by the purge that
    should have hidden the entry. *)
Definition old_world : gmap Z vnode := list_to_map [(1, Vn 2 100); (2, Vn 5 100); (3, Vn 6 200)].
Lemma stale_after_wrap : look name_a (c0 ← nchinit 3 old_world (2^32 - 1); run 3 [Purge 3; Enter name_a (Some 2); Purge 1] c0) = Ret (-1, Some 2).
Proof. vm_compute. reflexivity. Qed.
(** And the lookup that drops the only entry. *)
Lemma drop_last : look (Ndp 1 [97] 97 false) (c0 ← nchinit 3 world 3; run 3 [Enter name_a (Some 2)] c0) = Fault.
Proof. vm_compute. reflexivity. Qed.
End NameCache.
